(* ===== verification/_CoqProject ===== *)
-Q . S2P
Prelude.v
GoStrings.v
GoUrl.v
SyncmlModel.v
LargeObject.v
Validate.v
Response.v
Encode.v
Utf8.v
GoXml.v
XmlLex.v
XmlDoc.v
Decode.v
DecodeTotal.v
DecodeSafe.v
DecodeProofs.v
DecodeSound.v
DecodeTheorems.v
Csp.v
CspProofs.v
CspRegistry.v
CspSupport.v
SyncmlAuth.v
GoCrypto.v
MdmCommand.v
CspValidation.v
CspRules.v
CspCheck.v
CspValues.v
Paging.v
StateStore.v
RateLimit.v
RateHttp.v
MdmAuth.v
EnrollTypes.v
Storage.v
MdmQueue.v
InmemQueue.v
SqlBase.v
SqlQueue.v
SqlQueueProofs.v
SqlTheorems.v
SqlStore.v
SqlStoreProofs.v
SqlStoreTheorems.v
Wns.v
PushNotify.v
Reconcile.v
MdmSession.v
MdmEngine.v
MdmEngineProofs.v
MdmEngineTheorems.v
MdmHttp.v
SimDevice.v
SimProofs.v
SimTheorems.v
MdmLogin.v
WapProv.v
Foundation.v
WapBuild.v
WapTheorems.v
GoTime.v
Soap.v
SoapProofs.v
EnrollMsg.v
EnrollProofs.v
EnrollPolicy.v
EnrollService.v
EnrollProvision.v
EnrollHttp.v
ServerService.v
GoAsn1.v
Pki.v
SimEnroll.v
EnrollDevice.v
EnrollTheorems.v
EnrollSession.v
ServerApp.v
