(* ===== verification/Prelude.v ===== *)
(** * A Windows device-management server, verified

    go-microsoft-dm manages Windows devices over OMA DM: a device opens a
    session by posting a SyncML message, the server authenticates it, files
    what the device reports, and answers with the commands queued for it.  Before
    that the device enrolls over MS-MDE2: discovery, certificate policy, and a
    token request that brings it its certificate and account.  This library
    models the protocol core of the repository and proves it correct.  Names
    follow the sources; paths below are under src/.

    ** The parts and the files that model them

    - mdmprotocol/syncml, the message layer.  [SyncmlModel] has the structs of
      message.go as records, the sealed interface Command as an inductive type,
      and the tables of constants.go.  [LargeObject] is largeobject.go
      (SplitItem, Assembler), [Validate] is validate.go, [Response] response.go,
      [Encode] encode.go (the XML writer as a state-passing program over its
      buffer), [SyncmlAuth] auth.go.  [Decode] is decode.go: the element readers
      are programs over the tokens of [GoXml], which models the part of
      encoding/xml they stand on; [Utf8], [XmlLex], [DecodeTotal],
      [DecodeSafe], [DecodeProofs], [DecodeSound] and [DecodeTheorems] hold the
      lemmas and properties of reading.
    - mdmprotocol/mdm, the session engine.  [MdmCommand] is command.go and the
      command helpers of build.go; [MdmAuth] auth.go, basic.go and the TLS
      evidence of transport.go; [MdmQueue] queue.go, with the interface
      CommandQueue as a type class and its contract as the class
      CommandQueueLaws; [MdmSession] session.go, results.go and collect.go;
      [Reconcile] reconcile.go; [MdmEngine] service.go, alerts.go, deliver.go,
      finish.go, nonce.go and hooks.go.  The engine is a program in the state
      and error monad [M] below: [Run] holds the variables of one Handle call,
      [World] what persists between calls (queue, sessions, nonces) and the log
      of hook calls.  [MdmHttp] is http.go and ParseTransport; [MdmLogin] puts
      the handler, the engine and the simulated device together.
    - storage.  [InmemQueue] is storage/inmem/queue.go, with the instance that
      makes it a lawful CommandQueue; [Storage] is storage.go,
      inmem/inmem.go and inmem/credential.go, mdmauth.go and recorder.go;
      [Paging] is paging/paging.go and inmem's page.
    - mdmprotocol/enroll, soap and wapprov, the enrollment protocol.  [Soap] is
      package soap (envelopes, header, faults), [WapProv] and [WapBuild] package
      wapprov (provisioning documents and their builders), [EnrollTypes]
      constants.go and version.go, [EnrollMsg] discover.go, policy.go and rst.go
      (both ends of the three messages), [EnrollService] service.go,
      [EnrollProvision] provision.go, [EnrollHttp] http.go.  The hooks of a
      deployment (Authenticator, Issuer, Provisioner, Recorder) are programs
      over a state of their own, and every call of one is logged.  [XmlDoc] has
      what struct tags read from an element tree and the documents writers
      write; [GoTime] formats instants; [SoapProofs], [WapTheorems],
      [EnrollProofs], [EnrollPolicy], [EnrollDevice], [EnrollTheorems] and
      [EnrollSession] hold lemmas and properties.
    - simulator, the peer of both protocols.  [SimDevice] is session.go and
      answer.go, a device in a management session, with [SimProofs] and
      [SimTheorems]; [SimEnroll] is enroll.go and poll.go, the enrolling client.
    - [StateStore] is state/state.go, [RateLimit] ratelimit/ratelimit.go and
      [RateHttp] ratelimit/http.go.
    - server/sqlstore, the durable store.  [SqlBase] has the tables, the
      statements and transactions of sqlstore.go and dialect.go: a connection is
      its tables and the list of what the driver will answer, so that every
      statement can fail, and a transaction that fails is rolled back and, when
      the error is transient, run again.  [SqlQueue] is queue.go, with
      [SqlQueueProofs] and [SqlTheorems]; [SqlStore] is enrollment.go,
      certificate.go, credential.go, credential_migration.go, facts.go, push.go,
      agent.go and the migration of schema.go, with [SqlStoreProofs] and
      [SqlStoreTheorems].
    - msplatformservices/wns and server/pushnotify, the wake-up path.  [Wns] is
      client.go and token.go, [PushNotify] push.go.
    - pki.  [GoAsn1] is what csr.go uses of encoding/asn1; [Pki] is wstep
      (certificate requests and the issuer), ca (policies and issuance) and xcep
      (the advertised policy).
    - server.  [ServerService] is service/auth.go, credentials.go and hooks.go
      over the SQL store; [ServerApp] is service.go's New, internal/app,
      httpapi and agent/wake: the enrollment service with the server's own hooks.
    - [Foundation] is clock/clock.go and secrets/secrets.go.
    - schema.  [Csp] is schema/csp/model.go, [CspRegistry] registry.go,
      [CspSupport] schema/support, [CspValidation] schema/validation and
      mdm.Check; [CspRules] specifies the values it takes; [CspProofs],
      [CspCheck] and [CspValues] hold the rest of the theory.  A
      pointer into a tree is the node's position.
    - [GoStrings], [GoUrl], [GoXml] and [GoCrypto] model what the sources use of
      Go's strings, strconv, net/url, encoding/xml, base64 (in [SyncmlAuth]),
      hex, MD5, SHA-1, SHA-256, HMAC and PBKDF2, all executable.

    A call of Handle decodes the request, validates it ([Validate]), asks the
    Authenticator for the device's identity (implemented by [Storage]), finds or
    opens the session ([MdmSession]), authenticates it ([MdmAuth], with nonces
    in [StateStore]), and, once trusted, files statuses and results, delivers
    queued commands ([MdmQueue]) and encodes the reply ([Encode]).

    ** What the theorems show

    - The engine ([MdmEngineProofs] holds the lemmas, [MdmEngineTheorems] the
      properties, for every lawful queue): an untrusted request is not acted
      on, fail or succeed, and gets a challenge at most; who is trusted and why;
      a request touches only its own device and session; messages are taken in
      order and, over any history of requests, never twice in a session;
      delivery sends the first of the waiting commands in order within the
      budget and marks exactly those sent; statuses close the commands they
      answer; how a request ends; the digest login; chunked objects come back
      whole.  An example is a session in which an answered command is sent
      again.
    - Messages: Validate accepts exactly the messages that obey its rules, which
      are spelled out (its comment promises a little more); Encode writes
      exactly the message's element tree, and text is escaped so that it reads
      back and cannot close its element; splitting and assembling large objects
      are inverse, total for limits of four bytes and more, and bounded.
    - Reading: what Encode writes of a canonical message Decode reads back, and
      whatever Decode accepts is canonical; the recursion of the readers
      terminates on every input; no document free of NUL makes the decoder
      slice out of range, and an example is a document that does.
    - Schema: the registry's index agrees with trying every tree; concrete URIs
      resolve to their node; Check accepts exactly the acceptable commands,
      where lists, ranges, flags, ADMX payloads and formats are specified without
      the code that recognises them; which builds support a node.
    - Commands: Validate of package mdm characterised; what the builders make
      is valid.
    - Storage: the in-memory queue implements the contract and keeps its
      invariant under every sequence of operations; the enrollment store keeps
      its indices consistent and one active enrollment per device; enrolling,
      unenrolling and the authenticator agree; paging returns everything once.
    - The SQL store: the queue implements the same contract as the in-memory one,
      whatever statements fail an operation takes place whole or not at all, and
      the enrollment store cannot be told from the in-memory one by its answers;
      agent tokens are good for the enrollment and issue they came from; the
      credential migration keeps every login and no password.
    - Waking devices: only validated channels are ever recorded and sent to, a
      channel reported dead is not used again, a send makes a bounded number of
      requests and asks for a new token at most once, and the overdue devices are
      reported exactly once each.
    - The certificate authority: a certificate goes to the holder of the key of
      the request and within the policy, and the relaxation for Windows subjects
      changes string tags and nothing else.
    - The server: a device whose enrollment the composed hooks accept can log in
      afterwards, with the credential it was sent and with its certificate; the
      unenrollment hook locks the device out; only configured users enroll.
    - State and rate limiting: transactions are atomic, listing and pruning are
      exact; a check draws on all its buckets or none, RetryAfter is exact, and
      no history admits more than burst plus elapsed intervals; the middleware
      lets exactly the admitted requests through and tells an unusable store
      (503) from a spent quota (429); the key of a peer is characterised for
      every header, and behind trusted proxies it is the nearest address that is
      not one of theirs.
    - Credentials: basic and digest credentials and salted verifiers round trip;
      certificate evidence is bound to the connection's leaf.
    - Reconciliation: Diff is minimal and converges.
    - Enrollment: every request is answered with a complete envelope, whatever
      the bytes and the hooks; the hooks are called in the order of the protocol
      and success is reported only after the last of them; discovery settles on
      the lower version; policies, faults and provisioning documents round
      trip; a device that runs the client against the registered endpoints of a
      service whose hooks accept it ends with its certificate, its account and
      its poll schedule.
    - The simulated device: it answers every command of a package once when it does
      not chunk its results, answers
      a challenge with credentials the engine accepts, delivers a large result
      whole over as many messages as it takes, its replies are valid messages,
      and its sessions are bounded; over the HTTP handler it logs in.

    ** Modelling choices

    Go's int and int64 are integers with wrap-around ([wrap64]) where they are
    computed; a string or []byte is a Coq string of bytes; a map is a gmap; an
    instant is nanoseconds since Go's zero time.  An error is the list of its
    sentinels ([error]): texts are left out.  Map iteration order, crypto/rand
    and the clock are arguments.  Loops that are not structural carry fuel: the
    length of the string or list they consume bounds them, and the theorems
    that need it prove the fuel suffices (split_total, paging_complete,
    acknowledged_values_fold, decoder_recursion, and lex_unfold for the tokens).
    Methods that hold a mutex are atomic steps; requests are handled one at a
    time.  GetSession copies the Session struct
    while its maps stay shared, so a request that fails part way leaves marks on
    the stored session.  After a failed request the theorems speak of fields of
    the struct itself (key, message number, closed or not), which are not shared;
    what is in the maps of a session that a request finds is arbitrary in them,
    the answers an earlier failed request left included.

    ** Not modelled

    The schema generator, telemetry and the command lines; the generated CSP
    tables are data.  crypto/x509, encoding/pem and the URL writer are parameters
    of the certificate authority and of the server.  Of the SQL store the text of CREATE TABLE, the drivers and the
    pool settings, of the push client the headers, the redirect policy and the
    error of making a request for a URL that was checked before.
    netip and mime.ParseMediaType are parameters of the HTTP layers, the JSON
    codecs and database drivers of the SQL store, the HTTP client of the push
    client.  package regexp and strconv.ParseFloat are parameters of the schema
    check; url.Parse, the Unicode tables beyond ASCII, the certificate parser
    and the HTTP client are parameters of the enrollment.  A fault value that a
    hook returns is taken as a value: the service writes the trace id into it. *)

From stdpp Require Import base gmap strings list fin_maps sorting.
From Stdlib Require Import ZArith Lia Ascii.

(** ** Errors

    A Go error is modelled by the list of the sentinel values reachable
    through its [Unwrap] tree, which is all that [errors.Is] can observe;
    message texts are left out.  [errors.New] without a sentinel is the empty
    list, [fmt.Errorf("%w: %w", a, b)] is concatenation and [errors.Join] is
    the concatenation of the joined errors. *)
Inductive sentinel : Set :=
  (* mdmprotocol/syncml/errors.go *)
  | syncml_ErrSyntax | syncml_ErrNamespace | syncml_ErrUnsupportedCommand
  | syncml_ErrUnknownElement | syncml_ErrFinalNotLast | syncml_ErrTooLarge
  | syncml_ErrInvalid | syncml_ErrChunk | syncml_ErrDataConflict
  | syncml_ErrVersion | syncml_ErrSessionID | syncml_ErrMsgID
  | syncml_ErrRouting | syncml_ErrEmptyBody | syncml_ErrCmdID
  | syncml_ErrDuplicateCmdID | syncml_ErrItems | syncml_ErrLocURI
  | syncml_ErrAlertCode | syncml_ErrStatusCode | syncml_ErrStatusRef
  | syncml_ErrFormat | syncml_ErrAtomicNested | syncml_ErrAtomicGet
  | syncml_ErrAtomicAddThenReplace | syncml_ErrAuth
  (* mdmprotocol/mdm *)
  | mdm_ErrConfig | mdm_ErrNotFound | mdm_ErrConflict | mdm_ErrCommand
  | mdm_ErrScope | mdm_ErrUnenrolled | mdm_ErrAuth | mdm_ErrContentType
  | mdm_ErrMode
  (* storage *)
  | storage_ErrNotFound | storage_ErrConflict | storage_ErrInvalid
  (* state, ratelimit *)
  | state_ErrNotFound | state_ErrInvalid
  | ratelimit_ErrInvalid | ratelimit_ErrUnavailable | ratelimit_ErrCapacity
  (* schema/support, schema/validation *)
  | support_ErrBuild
  | validation_ErrInvalid | validation_ErrUnknownNode | validation_ErrVerb
  | validation_ErrFormat | validation_ErrValue | validation_ErrInteriorValue
  | validation_ErrDynamicName
  (* mdmprotocol/soap, mdmprotocol/wapprov, mdmprotocol/enroll *)
  | soap_ErrSyntax | soap_ErrTooLarge | soap_ErrEncoding | soap_ErrResponse
  | wapprov_ErrInvalid | wapprov_ErrSyntax
  | enroll_ErrConfig | enroll_ErrUnauthenticated | enroll_ErrUnauthorized
  | enroll_ErrPKCS7 | enroll_ErrRenew | enroll_ErrPolicyUnsupported
  | enroll_ErrPolicyDisabled | enroll_ErrMessage | enroll_ErrVersion
  (* simulator *)
  | simulator_ErrConfig | simulator_ErrProtocol | simulator_ErrProvisioning
  | simulator_ErrSession | simulator_ErrChallengeLoop
  (* database/sql, the drivers' errors, server/sqlstore *)
  | sql_ErrNoRows | sql_MySQLError (number : Z) | sql_PgError (code : string)
  | sqlstore_ErrDialect | sqlstore_ErrConfig | sqlstore_ErrNotFound
  (* msplatformservices/wns, server/pushnotify, server/service, server/internal/app *)
  | wns_ErrConfig | wns_ResponseError | pushnotify_ErrUnavailable | service_ErrConfig | app_ErrConfig
  (* pki, secrets *)
  | ca_ErrConfig | ca_ErrRequest | ca_ErrPolicy | ca_ErrPEM
  | wstep_ErrConfig | wstep_ErrCSR | wstep_ErrPKCS7 | wstep_ErrSubject | wstep_ErrSignature
  | xcep_ErrOptions | secrets_ErrNotFound | secrets_ErrName
  (* package io, and a run-time panic, which is not an error value: no code of
     the repository handles it, it unwinds the request *)
  | io_EOF | runtime_panic.

#[global] Instance sentinel_eq_dec : EqDecision sentinel.
Proof. solve_decision. Defined.

Abbreviation error := (list sentinel).

(** [errors.Is]. *)
Definition errors_Is (e : error) (s : sentinel) : bool := bool_decide (s ∈ e).

(** A call that returns [(value, error)]. *)
Inductive result (A : Type) : Type :=
  | Ok (a : A)
  | Err (e : error).
Arguments Ok {A} a.
Arguments Err {A} e.

Definition result_bind {A B} (r : result A) (k : A → result B) : result B :=
  match r with Ok a => k a | Err e => Err e end.

Definition is_ok {A} (r : result A) : bool :=
  match r with Ok _ => true | Err _ => false end.

Declare Scope go_scope.
Delimit Scope go_scope with go.

Notation "'let?' x := r 'in' k" := (result_bind r (λ x, k))
  (at level 200, x pattern, r at level 100, k at level 200) : go_scope.

Lemma result_bind_Ok {A B} (r : result A) (k : A → result B) b :
  result_bind r k = Ok b ↔ ∃ a, r = Ok a ∧ k a = Ok b.
Proof. destruct r; simpl; naive_solver. Qed.

Lemma result_bind_unit {B} (r : result unit) (k : unit → result B) b :
  result_bind r k = Ok b ↔ r = Ok tt ∧ k tt = Ok b.
Proof. destruct r as [[]|]; simpl; naive_solver. Qed.

Lemma result_bind_Err {A B} (r : result A) (k : A → result B) e :
  result_bind r k = Err e ↔ r = Err e ∨ ∃ a, r = Ok a ∧ k a = Err e.
Proof. destruct r; simpl; naive_solver. Qed.

(** ** A state and error monad

    Handlers of the session engine read and write several mutable objects and
    may return early with an error.  [M S A] threads the state through both
    outcomes, so the state at the moment of an early return is kept. *)
Definition M (S A : Type) : Type := S → S * result A.

Definition ret {S A} (a : A) : M S A := λ s, (s, Ok a).
Definition throw {S A} (e : error) : M S A := λ s, (s, Err e).
Definition get {S} : M S S := λ s, (s, Ok s).
Definition modify {S} (f : S → S) : M S unit := λ s, (f s, Ok tt).
Definition bind {S A B} (m : M S A) (k : A → M S B) : M S B := λ s,
  match m s with
  | (s', Ok a) => k a s'
  | (s', Err e) => (s', Err e)
  end.
Definition lift {S A} (r : result A) : M S A := λ s, (s, r).

Notation "'let!' x := m 'in' k" := (bind m (λ x, k))
  (at level 200, x pattern, m at level 100, k at level 200) : go_scope.
Notation "m ';!' k" := (bind m (λ _, k))
  (at level 199, right associativity) : go_scope.

Fixpoint mfor {S A} (f : A → M S unit) (l : list A) : M S unit :=
  match l with
  | [] => ret tt
  | a :: l => bind (f a) (λ _, mfor f l)
  end.

Section monad.
Context {S : Type}.

Lemma bind_Ok {A B} (m : M S A) (k : A → M S B) s s' b :
  bind m k s = (s', Ok b) ↔ ∃ s1 a, m s = (s1, Ok a) ∧ k a s1 = (s', Ok b).
Proof.
  unfold bind. destruct (m s) as [s1 [a|e]]; split.
  - naive_solver.
  - intros (? & ? & [= <- <-] & ?); done.
  - done.
  - intros (? & ? & [=] & ?).
Qed.

Lemma bind_assoc {A B C} (m : M S A) (f : A → M S B) (g : B → M S C) s :
  bind (bind m f) g s = bind m (λ a, bind (f a) g) s.
Proof. unfold bind. by destruct (m s) as [? []]. Qed.

(** A loop preserves what each of its turns preserves. *)
Lemma mfor_inv {A} (P : S → Prop) (f : A → M S unit) l s s' r :
  (∀ a s s' r, a ∈ l → P s → f a s = (s', r) → P s') →
  P s → mfor f l s = (s', r) → P s'.
Proof.
  revert s. induction l as [|a l IH]; intros s Hf Hs; simpl.
  - intros [= <- _]; done.
  - unfold bind. destruct (f a s) as [s1 [[]|e]] eqn:E.
    + intros Hm. eapply IH in Hm; [done| |].
      * intros b ????. eapply Hf. by apply list_elem_of_further.
      * eapply Hf; [|done..]. apply list_elem_of_here.
    + intros [= <- _]. eapply Hf; [|done..]. apply list_elem_of_here.
Qed.

Lemma mfor_app {A} (f : A → M S unit) l1 l2 s :
  mfor f (l1 ++ l2) s = bind (mfor f l1) (λ _, mfor f l2) s.
Proof.
  revert s; induction l1 as [|a l1 IH]; intros s; simpl; [done|].
  rewrite bind_assoc. unfold bind at 1 2.
  destruct (f a s) as [s1 [[]|e]]; [apply IH|done].
Qed.
End monad.

(** ** Machine integers and time *)

Definition max_int64 : Z := 2 ^ 63 - 1.
Definition min_int64 : Z := - 2 ^ 63.
Definition in_int64 (z : Z) : Prop := (min_int64 ≤ z ≤ max_int64)%Z.

(** Two's complement wrap-around of Go's [int] and [int64]. *)
Definition wrap64 (z : Z) : Z := ((z + 2 ^ 63) mod 2 ^ 64 - 2 ^ 63)%Z.

Lemma wrap64_range z : in_int64 (wrap64 z).
Proof.
  unfold in_int64, wrap64, min_int64, max_int64.
  pose proof (Z.mod_pos_bound (z + 2 ^ 63) (2 ^ 64) eq_refl). lia.
Qed.

Lemma wrap64_id z : in_int64 z → wrap64 z = z.
Proof.
  unfold in_int64, wrap64, min_int64, max_int64. intros.
  rewrite Z.mod_small; lia.
Qed.

Lemma wrap64_add_l a b : (wrap64 (wrap64 a + b) = wrap64 (a + b))%Z.
Proof.
  unfold wrap64. replace ((a + 2 ^ 63) mod 2 ^ 64 - 2 ^ 63 + b + 2 ^ 63)%Z
    with ((a + 2 ^ 63) mod 2 ^ 64 + b)%Z by lia.
  rewrite Zplus_mod_idemp_l. f_equal. f_equal. lia.
Qed.

Lemma wrap64_succ_ne n : n ≠ wrap64 (n + 1)%Z.
Proof.
  unfold wrap64. intros E.
  assert ((n + 2 ^ 63) mod 2 ^ 64 = (n + 1 + 2 ^ 63) mod 2 ^ 64)%Z as Hm.
  { rewrite E at 1. rewrite Z.sub_add. apply Z.mod_mod. lia. }
  Z.to_euclidean_division_equations. lia.
Qed.

(** An instant is the number of nanoseconds since Go's zero time (January 1,
    year 1, UTC); a duration is a number of nanoseconds. *)
Abbreviation Time := Z (only parsing).
Abbreviation Duration := Z (only parsing).

Definition time_zero : Time := 0%Z.
Definition time_IsZero (t : Time) : bool := (t =? 0)%Z.
Definition time_After (a b : Time) : bool := (b <? a)%Z.
Definition time_Before (a b : Time) : bool := (a <? b)%Z.
Definition time_Add (t : Time) (d : Duration) : Time := (t + d)%Z.
(** [Time.Sub] saturates at the limits of [Duration]. *)
Definition time_Sub (a b : Time) : Duration :=
  Z.max min_int64 (Z.min max_int64 (a - b)).
(** [Time.UTC] changes the location, not the instant. *)
Definition time_UTC (t : Time) : Time := t.

Definition Nanosecond : Duration := 1%Z.
Definition Microsecond : Duration := 1000%Z.
Definition Second : Duration := 1000000000%Z.
Definition Minute : Duration := (60 * Second)%Z.
Definition Hour : Duration := (60 * Minute)%Z.

(** ** Automation *)

Create HintDb dm.
Create HintDb dm_rw.

(** Split every conjunction and existential of the context. *)
Ltac deex :=
  repeat match goal with
    | H : ∃ _, _ |- _ => destruct H
    | H : _ ∧ _ |- _ => destruct H
    end.

(** Invert a successful monadic run step by step. *)
Ltac inv_result :=
  repeat match goal with
    | H : result_bind _ _ = Ok _ |- _ => apply result_bind_Ok in H; deex
    | H : bind _ _ _ = (_, Ok _) |- _ => apply bind_Ok in H; deex
    | H : ret _ _ = _ |- _ => unfold ret in H
    | H : lift _ _ = _ |- _ => unfold lift in H
    | H : get _ = _ |- _ => unfold get in H
    | H : modify _ _ = _ |- _ => unfold modify in H
    | H : throw _ _ = _ |- _ => unfold throw in H
    | H : (_, _) = (_, _) |- _ => injection H; clear H; intros; subst
    | H : Ok _ = Ok _ |- _ => injection H; clear H; intros; subst
    | H : Err _ = Ok _ |- _ => discriminate H
    | H : Ok _ = Err _ |- _ => discriminate H
    end.

(** Reflect boolean tests of the code into propositions. *)
Ltac btrue :=
  repeat match goal with
    | H : (_ && _)%bool = true |- _ => apply andb_true_iff in H; destruct H
    | H : (_ || _)%bool = false |- _ => apply orb_false_iff in H; destruct H
    | H : negb _ = true |- _ => apply negb_true_iff in H
    | H : negb _ = false |- _ => apply negb_false_iff in H
    | H : bool_decide _ = true |- _ => apply bool_decide_eq_true_1 in H
    | H : bool_decide _ = false |- _ => apply bool_decide_eq_false_1 in H
    | H : (_ <? _)%Z = true |- _ => apply Z.ltb_lt in H
    | H : (_ <? _)%Z = false |- _ => apply Z.ltb_ge in H
    | H : (_ <=? _)%Z = true |- _ => apply Z.leb_le in H
    | H : (_ <=? _)%Z = false |- _ => apply Z.leb_gt in H
    | H : (_ =? _)%Z = true |- _ => apply Z.eqb_eq in H
    | H : (_ =? _)%Z = false |- _ => apply Z.eqb_neq in H
    end.
