(* ===== verification/GoStrings.v ===== *)
(** * Go strings

    The parts of the packages strings, strconv, unicode/utf8 and encoding/xml
    (EscapeText) that the sources call, over byte strings. *)
From stdpp Require Import base gmap strings list.
From Stdlib Require Import ZArith Lia Ascii.
From S2P Require Import Prelude.

Local Open Scope Z_scope.

(** ** Bytes and byte strings *)

Definition byte_val (c : ascii) : Z := Z.of_N (N_of_ascii c).
Definition byte_of (z : Z) : ascii := ascii_of_N (Z.to_N z).

(** [len s]. *)
Definition len (s : string) : Z := Z.of_nat (String.length s).

(** [s[:n]] and [s[n:]] for [n] within bounds. *)
Fixpoint stake (n : nat) (s : string) : string :=
  match n, s with
  | S n, String c s => String c (stake n s)
  | _, _ => ""
  end.
Fixpoint sdrop (n : nat) (s : string) : string :=
  match n, s with
  | O, _ => s
  | S n, String _ s => sdrop n s
  | S _, EmptyString => ""
  end.

(** Byte [n] of a string, when there is one. *)
Definition sget (n : nat) (s : string) : option ascii := String.get n s.

Fixpoint str_forall (p : ascii → bool) (s : string) : bool :=
  match s with
  | EmptyString => true
  | String c s => p c && str_forall p s
  end.

Definition str_exists (p : ascii → bool) (s : string) : bool :=
  negb (str_forall (λ c, negb (p c)) s).

Fixpoint str_concat (l : list string) : string :=
  match l with [] => "" | s :: l => s +:+ str_concat l end.

(** [strings.HasPrefix s p]. *)
Definition HasPrefix (s p : string) : bool := String.prefix p s.

Definition nonempty (s : string) : bool := bool_decide (s ≠ "").

(** [strings.Contains s c] for a one-byte needle. *)
Definition contains_byte (c : ascii) (s : string) : bool := str_exists (Ascii.eqb c) s.

(** [strings.Split s sep] for a one-byte separator: always at least one
    piece. *)
Fixpoint split_byte (c : ascii) (s : string) : list string :=
  match s with
  | EmptyString => [""]
  | String d s =>
      if Ascii.eqb d c then "" :: split_byte c s
      else match split_byte c s with
           | [] => [String d ""]
           | p :: ps => String d p :: ps
           end
  end.

(** The inverse: [strings.Join l sep] for a one-byte separator. *)
Fixpoint join_byte (c : ascii) (l : list string) : string :=
  match l with
  | [] => ""
  | [p] => p
  | p :: ps => p +:+ String c (join_byte c ps)
  end.

(** [strings.Cut s sep] for a one-byte separator. *)
Fixpoint cut_byte (c : ascii) (s : string) : option (string * string) :=
  match s with
  | EmptyString => None
  | String d s =>
      if Ascii.eqb d c then Some ("", s)
      else match cut_byte c s with
           | Some (l, r) => Some (String d l, r)
           | None => None
           end
  end.

(** ** strings.TrimSpace

    Unicode white space in UTF-8: the six ASCII characters and the multi-byte
    encodings of U+0085, U+00A0, U+1680, U+2000 to U+200A, U+2028, U+2029,
    U+202F, U+205F and U+3000. *)
Definition is_ascii_space (c : ascii) : bool :=
  let v := byte_val c in ((9 <=? v) && (v <=? 13)) || (v =? 32).

(** The number of bytes of the white-space character a string starts with. *)
Definition space_prefix (s : string) : nat :=
  match s with
  | String a s1 =>
      if is_ascii_space a then 1%nat else
      match s1 with
      | String b s2 =>
          let va := byte_val a in let vb := byte_val b in
          if (va =? 0xC2) && ((vb =? 0x85) || (vb =? 0xA0)) then 2%nat else
          match s2 with
          | String c _ =>
              let vc := byte_val c in
              if ((va =? 0xE1) && (vb =? 0x9A) && (vc =? 0x80))
                 || ((va =? 0xE2) && (vb =? 0x80) &&
                     (((0x80 <=? vc) && (vc <=? 0x8A)) || (vc =? 0xA8)
                      || (vc =? 0xA9) || (vc =? 0xAF)))
                 || ((va =? 0xE2) && (vb =? 0x81) && (vc =? 0x9F))
                 || ((va =? 0xE3) && (vb =? 0x80) && (vc =? 0x80))
              then 3%nat else 0%nat
          | EmptyString => 0%nat
          end
      | EmptyString => 0%nat
      end
  | EmptyString => 0%nat
  end.

Fixpoint trim_left_fuel (fuel : nat) (s : string) : string :=
  match fuel with
  | O => s
  | S fuel =>
      match space_prefix s with
      | O => s
      | n => trim_left_fuel fuel (sdrop n s)
      end
  end.
Definition trim_left (s : string) : string := trim_left_fuel (String.length s) s.

(** White space at the end: the same encodings, read backwards. *)
Fixpoint srev_app (s acc : string) : string :=
  match s with EmptyString => acc | String c s => srev_app s (String c acc) end.
Definition srev (s : string) : string := srev_app s "".

Definition space_suffix_rev (r : string) : nat :=
  match r with
  | String c r1 =>
      if is_ascii_space c then 1%nat else
      match r1 with
      | String b r2 =>
          if Nat.eqb (space_prefix (String b (String c ""))) 2 then 2%nat else
          match r2 with
          | String a _ =>
              if Nat.eqb (space_prefix (String a (String b (String c "")))) 3
              then 3%nat else 0%nat
          | EmptyString => 0%nat
          end
      | EmptyString => 0%nat
      end
  | EmptyString => 0%nat
  end.
Fixpoint trim_right_rev_fuel (fuel : nat) (r : string) : string :=
  match fuel with
  | O => r
  | S fuel =>
      match space_suffix_rev r with
      | O => r
      | n => trim_right_rev_fuel fuel (sdrop n r)
      end
  end.
Definition trim_right (s : string) : string :=
  srev (trim_right_rev_fuel (String.length s) (srev s)).

Definition TrimSpace (s : string) : string := trim_right (trim_left s).

(** ** strings.EqualFold against an ASCII string

    Unicode simple folding relates to ASCII letters only the two letter cases,
    U+017F (to s) and U+212A (to k). *)
Definition ascii_lower (c : ascii) : ascii :=
  let v := byte_val c in
  if (65 <=? v) && (v <=? 90) then byte_of (v + 32) else c.

Fixpoint EqualFold (s t : string) : bool :=
  match t with
  | EmptyString => match s with EmptyString => true | _ => false end
  | String d t =>
      match s with
      | EmptyString => false
      | String c s =>
          if Ascii.eqb (ascii_lower c) (ascii_lower d) then EqualFold s t
          else match s with
               | String c2 s2 =>
                   if (byte_val c =? 0xC5) && (byte_val c2 =? 0xBF)
                      && Ascii.eqb (ascii_lower d) "s"%char then EqualFold s2 t
                   else match s2 with
                        | String c3 s3 =>
                            if (byte_val c =? 0xE2) && (byte_val c2 =? 0x84)
                               && (byte_val c3 =? 0xAA)
                               && Ascii.eqb (ascii_lower d) "k"%char
                            then EqualFold s3 t else false
                        | EmptyString => false
                        end
               | EmptyString => false
               end
      end
  end.

Definition ascii_upper (c : ascii) : ascii :=
  if (97 <=? byte_val c) && (byte_val c <=? 122) then byte_of (byte_val c - 32) else c.
(** [strings.ToUpper] on ASCII letters. *)
Fixpoint ToUpper (s : string) : string :=
  match s with
  | EmptyString => ""
  | String c s => String (ascii_upper c) (ToUpper s)
  end.
(** [strings.ToLower] on ASCII letters. *)
Fixpoint ToLower (s : string) : string :=
  match s with
  | EmptyString => ""
  | String c s => String (ascii_lower c) (ToLower s)
  end.

(** [strings.ToLower] as far as a comparison with an ASCII string can tell:
    besides the ASCII capitals only U+0130 and U+212A have an ASCII lower
    case. *)
Fixpoint go_lower (s : string) : string :=
  match s with
  | EmptyString => ""
  | String a s1 =>
      match s1 with
      | String b s2 =>
          if (byte_val a =? 0xC4) && (byte_val b =? 0xB0) then String "i" (go_lower s2)
          else
            match s2 with
            | String c s3 =>
                if (byte_val a =? 0xE2) && (byte_val b =? 0x84) && (byte_val c =? 0xAA)
                then String "k" (go_lower s3)
                else String (ascii_lower a) (go_lower s1)
            | EmptyString => String (ascii_lower a) (go_lower s1)
            end
      | EmptyString => String (ascii_lower a) ""
      end
  end.

(** ** strconv *)

Definition is_digit (c : ascii) : bool :=
  (48 <=? byte_val c) && (byte_val c <=? 57).
Definition digit_val (c : ascii) : Z := byte_val c - 48.
Definition digit_char (z : Z) : ascii := byte_of (z + 48).

Fixpoint parse_digits (acc : Z) (s : string) : option Z :=
  match s with
  | EmptyString => Some acc
  | String c s =>
      if is_digit c then parse_digits (acc * 10 + digit_val c) s else None
  end.

(** An unsigned decimal: at least one digit. *)
Definition parse_nat (s : string) : option Z :=
  match s with EmptyString => None | _ => parse_digits 0 s end.

(** [strconv.Atoi] and [strconv.ParseInt(s, 10, 64)]: an optional sign, at
    least one digit, within 64 bits; [None] for the error. *)
Definition Atoi (s : string) : option Z :=
  let v :=
    match s with
    | String c r =>
        if Ascii.eqb c "-"%char then option_map Z.opp (parse_nat r)
        else if Ascii.eqb c "+"%char then parse_nat r
        else parse_nat s
    | EmptyString => None
    end in
  match v with
  | Some n => if (min_int64 <=? n) && (n <=? max_int64) then Some n else None
  | None => None
  end.

Fixpoint digits_fuel (fuel : nat) (n : Z) (acc : string) : string :=
  match fuel with
  | O => acc
  | S fuel =>
      if 0 <? n then digits_fuel fuel (n / 10) (String (digit_char (n mod 10)) acc)
      else acc
  end.

(** Decimal digits of a non-negative number; [n] has at most [Z.log2 n + 1]
    of them. *)
Definition digits (n : Z) : string := digits_fuel (S (Z.to_nat (Z.log2 n))) n "".

(** [strconv.Itoa]. *)
Definition Itoa (n : Z) : string :=
  if n =? 0 then "0"
  else if n <? 0 then String "-" (digits (- n)) else digits n.

(** [strconv.FormatBool] and [strconv.ParseBool]. *)
Definition strconv_FormatBool (b : bool) : string := if b then "true" else "false".
Definition ParseBool (s : string) : option bool :=
  if bool_decide (s ∈ ["1"; "t"; "T"; "TRUE"; "true"; "True"]) then Some true
  else if bool_decide (s ∈ ["0"; "f"; "F"; "FALSE"; "false"; "False"]) then Some false
  else None.

(** ** Lemmas on byte strings *)

Lemma byte_val_range c : 0 ≤ byte_val c < 256.
Proof.
  unfold byte_val. pose proof (N_ascii_bounded c). lia.
Qed.

Lemma byte_val_of z : 0 ≤ z < 256 → byte_val (byte_of z) = z.
Proof.
  intros. unfold byte_val, byte_of. rewrite N_ascii_embedding by lia. lia.
Qed.

Lemma byte_of_val c : byte_of (byte_val c) = c.
Proof.
  unfold byte_val, byte_of. rewrite N2Z.id. apply ascii_N_embedding.
Qed.

Lemma byte_val_inj c d : byte_val c = byte_val d → c = d.
Proof. intros E. by rewrite <- (byte_of_val c), E, byte_of_val. Qed.

Lemma str_app_nil_r s : s +:+ "" = s.
Proof. induction s as [|c s IH]; [done|]. change (String c (s +:+ "") = String c s). by rewrite IH. Qed.

Lemma str_app_cons c s t : String c s +:+ t = String c (s +:+ t).
Proof. done. Qed.

Lemma str_app_nil_l s : "" +:+ s = s.
Proof. done. Qed.

Lemma str_app_assoc s t u : s +:+ (t +:+ u) = (s +:+ t) +:+ u.
Proof. induction s as [|c s IH]; [done|]. by rewrite !str_app_cons, IH. Qed.

Lemma str_length_app s t :
  String.length (s +:+ t) = (String.length s + String.length t)%nat.
Proof. induction s as [|c s IH]; [done|]. rewrite str_app_cons; simpl. by rewrite IH. Qed.

Lemma len_app s t : len (s +:+ t) = len s + len t.
Proof. unfold len. rewrite str_length_app. lia. Qed.

Lemma len_nonneg s : 0 ≤ len s.
Proof. unfold len. lia. Qed.

Lemma len_0 s : len s = 0 → s = "".
Proof. unfold len. destruct s; simpl; [done|lia]. Qed.

Lemma str_app_inj_l s t u : s +:+ t = s +:+ u → t = u.
Proof. induction s as [|c s IH]; [done|]. rewrite !str_app_cons. intros [= ?]. auto. Qed.

Lemma stake_sdrop n s : stake n s +:+ sdrop n s = s.
Proof.
  revert s; induction n as [|n IH]; intros [|c s]; try done.
  simpl. by rewrite str_app_cons, IH.
Qed.

Lemma length_stake n s : String.length (stake n s) = (n `min` String.length s)%nat.
Proof. revert s; induction n as [|n IH]; intros [|c s]; simpl; try done. by rewrite IH. Qed.

Lemma length_sdrop n s : String.length (sdrop n s) = (String.length s - n)%nat.
Proof. revert s; induction n as [|n IH]; intros [|c s]; simpl; done. Qed.

Lemma stake_app a b : stake (String.length a) (a +:+ b) = a.
Proof. induction a as [|c a IH]; [by destruct b|]. rewrite str_app_cons. simpl. by rewrite IH. Qed.

Lemma sdrop_app a b : sdrop (String.length a) (a +:+ b) = b.
Proof. induction a as [|c a IH]; [by destruct b|]. by rewrite str_app_cons. Qed.

Lemma stake_all s : stake (String.length s) s = s.
Proof. induction s as [|c s IH]; simpl; [done|]. by rewrite IH. Qed.

Lemma stake_over n t : (String.length t ≤ n)%nat → stake n t = t.
Proof.
  revert t. induction n as [|n IH]; intros [|c t] Hl; cbn in *; try done; [lia|]. by rewrite IH by lia.
Qed.

Lemma sdrop_all s : sdrop (String.length s) s = "".
Proof. induction s; simpl; done. Qed.

Lemma str_forall_app p s t : str_forall p (s +:+ t) = str_forall p s && str_forall p t.
Proof.
  induction s as [|c s IH]; [done|]. rewrite str_app_cons; simpl.
  by rewrite IH, andb_assoc.
Qed.

Lemma str_concat_app l k : str_concat (l ++ k) = str_concat l +:+ str_concat k.
Proof.
  induction l as [|s l IH]; [done|]. simpl. by rewrite IH, str_app_assoc.
Qed.

#[export] Hint Rewrite str_app_cons str_app_nil_l str_app_nil_r str_length_app
  str_forall_app length_stake length_sdrop : dm_rw.

(** Splitting and joining are inverse. *)
Lemma split_byte_nonnil c s : split_byte c s ≠ [].
Proof.
  destruct s as [|d s]; simpl; [done|]. destruct (Ascii.eqb d c); [done|].
  by destruct (split_byte c s).
Qed.

Lemma join_split c s : join_byte c (split_byte c s) = s.
Proof.
  induction s as [|d s IH]; simpl; [done|].
  pose proof (split_byte_nonnil c s) as Hne.
  destruct (Ascii.eqb_spec d c) as [->|Hd].
  - destruct (split_byte c s) as [|p ps]; [done|]. simpl in *. by rewrite IH.
  - destruct (split_byte c s) as [|p ps]; [done|]. simpl in *.
    destruct ps; rewrite <- IH; [done|]. by rewrite str_app_cons.
Qed.

Lemma cut_byte_Some c s l r :
  cut_byte c s = Some (l, r) ↔ s = l +:+ String c r ∧ contains_byte c l = false.
Proof.
  revert l r; induction s as [|d s IH]; intros l r; simpl.
  - split; [done|]. intros [E _]. by destruct l.
  - destruct (Ascii.eqb_spec d c) as [->|Hd].
    + split.
      * intros [= <- <-]. done.
      * intros [E Hl]. destruct l as [|e l].
        -- rewrite str_app_nil_l in E. by injection E as [= ->].
        -- rewrite str_app_cons in E. injection E as -> E.
           unfold contains_byte, str_exists in Hl. simpl in Hl.
           by rewrite Ascii.eqb_refl in Hl.
    + destruct (cut_byte c s) as [[l' r']|] eqn:Ec.
      * destruct (IH l' r') as [[Hs Hl'] _]; [done|]. split.
        -- intros [= <- <-]. rewrite str_app_cons, Hs. split; [done|].
           unfold contains_byte, str_exists in *; simpl.
           rewrite (proj2 (Ascii.eqb_neq _ _) (not_eq_sym Hd)). done.
        -- intros [E Hl]. destruct l as [|e l].
           { rewrite str_app_nil_l in E. injection E as [= -> ->]. done. }
           rewrite str_app_cons in E. injection E as <- E.
           assert (Some (l', r') = Some (l, r)) as [= -> ->]; [|done].
           apply IH. split; [done|].
           unfold contains_byte, str_exists in *; simpl in Hl.
           by rewrite (proj2 (Ascii.eqb_neq _ _) (not_eq_sym Hd)) in Hl.
      * split; [done|]. intros [E Hl]. destruct l as [|e l].
        { rewrite str_app_nil_l in E. injection E as [= -> ->]. done. }
        rewrite str_app_cons in E. injection E as <- E.
        assert (None = Some (l, r)) as [=]. apply IH. split; [done|].
        unfold contains_byte, str_exists in *; simpl in Hl.
        by rewrite (proj2 (Ascii.eqb_neq _ _) (not_eq_sym Hd)) in Hl.
Qed.

(** ** Decimal text *)

Lemma digit_char_ok z : 0 ≤ z < 10 →
  is_digit (digit_char z) = true ∧ digit_val (digit_char z) = z.
Proof.
  intros. unfold is_digit, digit_val, digit_char. rewrite byte_val_of by lia. lia.
Qed.

Lemma parse_digits_fuel f n acc :
  0 ≤ n < 2 ^ Z.of_nat f →
  parse_digits 0 (digits_fuel f n acc) = parse_digits n acc.
Proof.
  revert n acc; induction f as [|f IH]; intros n acc Hn; simpl.
  - by replace n with 0 by lia.
  - destruct (Z.ltb_spec 0 n) as [Hp|]; [|by replace n with 0 by lia].
    rewrite IH.
    + simpl. destruct (digit_char_ok (n mod 10)) as [-> ->].
      { apply Z.mod_pos_bound; lia. }
      f_equal. pose proof (Z.div_mod n 10). lia.
    + rewrite Nat2Z.inj_succ, Z.pow_succ_r in Hn by lia.
      split; [apply Z.div_pos; lia|]. apply Z.div_lt_upper_bound; lia.
Qed.

Lemma digits_bound n : 0 < n → 0 ≤ n < 2 ^ Z.of_nat (S (Z.to_nat (Z.log2 n))).
Proof.
  intros. rewrite Nat2Z.inj_succ, Z2Nat.id by apply Z.log2_nonneg.
  pose proof (Z.log2_spec n). lia.
Qed.

Lemma digits_fuel_all f n acc :
  str_forall is_digit acc = true → str_forall is_digit (digits_fuel f n acc) = true.
Proof.
  revert n acc; induction f as [|f IH]; intros n acc Hacc; simpl; [done|].
  destruct (Z.ltb_spec 0 n); [|done]. apply IH. simpl.
  destruct (digit_char_ok (n mod 10)) as [-> _]; [|done].
  apply Z.mod_pos_bound; lia.
Qed.

Lemma digits_fuel_length f n acc :
  (String.length acc ≤ String.length (digits_fuel f n acc))%nat.
Proof.
  revert n acc; induction f as [|f IH]; intros n acc; simpl; [lia|].
  destruct (0 <? n); [|lia]. etrans; [|apply IH]. simpl; lia.
Qed.

Lemma digits_nonempty n : 0 < n → digits n ≠ "".
Proof.
  intros Hn E. unfold digits in E. simpl in E.
  destruct (Z.ltb_spec 0 n); [|lia].
  pose proof (digits_fuel_length (Z.to_nat (Z.log2 n)) (n / 10)
    (String (digit_char (n mod 10)) "")) as Hl.
  rewrite E in Hl. simpl in Hl. lia.
Qed.

Lemma parse_nat_digits n : 0 < n → parse_nat (digits n) = Some n.
Proof.
  intros Hn. unfold parse_nat. pose proof (digits_nonempty n Hn).
  destruct (digits n) eqn:E; [done|]. rewrite <- E.
  unfold digits. by rewrite parse_digits_fuel by by apply digits_bound.
Qed.

Lemma digits_head_digit n c s :
  0 < n → digits n = String c s → is_digit c = true.
Proof.
  intros Hn E. pose proof (digits_fuel_all (S (Z.to_nat (Z.log2 n))) n "" eq_refl) as Hd.
  unfold digits in E. rewrite E in Hd. simpl in Hd. by apply andb_true_iff in Hd as [? _].
Qed.

(** Printing and parsing a 64-bit integer are inverse. *)
Lemma Atoi_Itoa n : in_int64 n → Atoi (Itoa n) = Some n.
Proof.
  intros [H1 H2]. unfold Itoa.
  destruct (Z.eqb_spec n 0) as [->|Hn0]; [done|].
  assert (∀ v, v = Some n → match v with
    | Some n => if (min_int64 <=? n) && (n <=? max_int64) then Some n else None
    | None => None end = Some n) as Hr.
  { intros ? ->. rewrite !(proj2 (Z.leb_le _ _)) by done. done. }
  destruct (Z.ltb_spec n 0).
  - unfold Atoi. simpl. apply Hr. rewrite parse_nat_digits by lia. simpl. f_equal; lia.
  - destruct (digits n) as [|c s] eqn:E; [by apply digits_nonempty in E; [|lia]|].
    assert (is_digit c = true) as Hc by (eapply digits_head_digit; [|done]; lia).
    unfold Atoi. apply Hr.
    destruct (Ascii.eqb_spec c "-"); [by subst|].
    destruct (Ascii.eqb_spec c "+"); [by subst|].
    rewrite <- E. apply parse_nat_digits. lia.
Qed.

Lemma Itoa_inj n m : in_int64 n → in_int64 m → Itoa n = Itoa m → n = m.
Proof.
  intros Hn Hm E. apply Atoi_Itoa in Hn. rewrite E, Atoi_Itoa in Hn by done. congruence.
Qed.

Lemma Itoa_digits n : 0 ≤ n → str_forall is_digit (Itoa n) = true.
Proof.
  intros. unfold Itoa. destruct (Z.eqb_spec n 0); [by vm_compute|].
  destruct (Z.ltb_spec n 0); [lia|]. by apply digits_fuel_all.
Qed.

Lemma Itoa_nonempty n : Itoa n ≠ "".
Proof.
  unfold Itoa. destruct (Z.eqb_spec n 0); [done|].
  destruct (Z.ltb_spec n 0); [done|]. apply digits_nonempty. lia.
Qed.

Lemma str_forall_not_contains p c s :
  str_forall p s = true → p c = false → contains_byte c s = false.
Proof.
  intros Hs Hc. unfold contains_byte, str_exists. apply negb_false_iff.
  induction s as [|d s IH]; simpl in *; [done|].
  apply andb_true_iff in Hs as [Hd Hs]. rewrite IH by done.
  destruct (Ascii.eqb_spec c d); [congruence|done].
Qed.

Lemma Itoa_no_slash n : 0 ≤ n → contains_byte "/"%char (Itoa n) = false.
Proof. intros. by eapply str_forall_not_contains; [apply Itoa_digits|]. Qed.

(** A key [a ++ "/" ++ b] determines its parts when [a] has no slash. *)
Lemma slash_key_inj a a' b b' :
  contains_byte "/"%char a = false → contains_byte "/"%char a' = false →
  a +:+ String "/" b = a' +:+ String "/" b' → a = a' ∧ b = b'.
Proof.
  intros Ha Ha' E.
  assert (cut_byte "/"%char (a +:+ String "/" b) = Some (a, b)) as C1
    by by apply cut_byte_Some.
  assert (cut_byte "/"%char (a +:+ String "/" b) = Some (a', b')) as C2
    by by apply cut_byte_Some.
  rewrite C1 in C2. by injection C2.
Qed.

(** ** Trimming printable text *)

(** Printable ASCII other than the space. *)
Definition printable (c : ascii) : bool := (33 <=? byte_val c) && (byte_val c <=? 126).

(** Printable ASCII is left alone by TrimSpace. *)
Lemma srev_app_forall p s acc :
  str_forall p (srev_app s acc) = str_forall p s && str_forall p acc.
Proof.
  revert acc. induction s as [|c s IH]; intros acc; simpl; [done|].
  rewrite IH. simpl. destruct (p c), (str_forall p s); done.
Qed.

Lemma srev_app_app s t acc : srev_app (srev_app s t) acc = srev_app t (s +:+ acc).
Proof.
  revert t. induction s as [|c s IH]; intros t; [done|].
  cbn [srev_app]. rewrite IH. simpl. by rewrite str_app_cons.
Qed.

Lemma srev_srev s : srev (srev s) = s.
Proof. unfold srev. rewrite srev_app_app. simpl. apply str_app_nil_r. Qed.

Lemma srev_app_r s acc : srev_app s acc = srev s +:+ acc.
Proof.
  unfold srev. revert acc. induction s as [|c s IH]; intros acc; [done|]. cbn [srev_app].
  rewrite IH, (IH (String c "")), <- str_app_assoc. by rewrite str_app_cons, str_app_nil_l.
Qed.

Lemma srev_cons c s : srev (String c s) = srev s +:+ String c "".
Proof. unfold srev at 1. cbn [srev_app]. apply srev_app_r. Qed.

Lemma length_srev s : String.length (srev s) = String.length s.
Proof.
  induction s as [|c s IH]; [done|]. rewrite srev_cons, str_length_app, IH. simpl. lia.
Qed.

Lemma space_prefix_ok s : str_forall printable s = true → space_prefix s = 0%nat.
Proof.
  destruct s as [|a s]; [done|]. cbn [str_forall]. intros E. btrue.
  unfold printable in *. btrue. unfold space_prefix, is_ascii_space.
  repeat match goal with
    | |- context [byte_val a =? ?n] => destruct (Z.eqb_spec (byte_val a) n); [lia|]
    end.
  destruct (Z.leb_spec (byte_val a) 13); [lia|]. rewrite andb_false_r. simpl.
  by destruct s as [|b [|c s]].
Qed.

Lemma space_suffix_ok s : str_forall printable s = true → space_suffix_rev s = 0%nat.
Proof.
  destruct s as [|a s]; [done|]. cbn [str_forall]. intros E. btrue.
  assert (is_ascii_space a = false) as Ha.
  { unfold printable, is_ascii_space in *. btrue.
    destruct (Z.eqb_spec (byte_val a) 32); [lia|].
    destruct (Z.leb_spec (byte_val a) 13); [lia|]. by rewrite andb_false_r. }
  unfold space_suffix_rev. rewrite Ha. destruct s as [|b [|c s]]; [done|..];
    cbn [str_forall] in *; btrue;
    rewrite !space_prefix_ok; try done; cbn [str_forall]; rewrite ?andb_true_iff; done.
Qed.

Lemma TrimSpace_id s : str_forall printable s = true → TrimSpace s = s.
Proof.
  intros Hs. unfold TrimSpace.
  assert (trim_left s = s) as ->.
  { unfold trim_left. destruct (String.length s); simpl; [done|]. by rewrite space_prefix_ok. }
  unfold trim_right. destruct (String.length s); simpl; [apply srev_srev|].
  rewrite space_suffix_ok; [apply srev_srev|].
  unfold srev. by rewrite srev_app_forall, Hs.
Qed.

Lemma cut_byte_None c s : contains_byte c s = false → cut_byte c s = None.
Proof.
  intros Hs. destruct (cut_byte c s) as [[l r]|] eqn:E; [|done].
  apply cut_byte_Some in E as [-> _]. unfold contains_byte, str_exists in Hs.
  rewrite str_forall_app in Hs. simpl in Hs.
  by rewrite Ascii.eqb_refl, andb_false_r in Hs.
Qed.

Lemma split_byte_none c a : contains_byte c a = false → split_byte c a = [a].
Proof.
  unfold contains_byte, str_exists. intros Ha. apply negb_false_iff in Ha.
  induction a as [|d a IH]; [done|]. simpl in *. btrue.
  rewrite Ascii.eqb_sym, H, IH; done.
Qed.

Lemma split_byte_app c a b :
  contains_byte c a = false → split_byte c (a +:+ String c b) = a :: split_byte c b.
Proof.
  unfold contains_byte, str_exists. intros Ha. apply negb_false_iff in Ha.
  induction a as [|d a IH].
  - rewrite str_app_nil_l. cbn [split_byte]. by rewrite Ascii.eqb_refl.
  - rewrite str_app_cons. simpl in *. btrue.
    by rewrite Ascii.eqb_sym, H, IH.
Qed.

Lemma str_forall_impl (p q : ascii → bool) s :
  (∀ c, p c = true → q c = true) → str_forall p s = true → str_forall q s = true.
Proof. intros Hpq. induction s as [|c s IH]; simpl; [done|]. intros E. btrue. by rewrite Hpq, IH. Qed.

Lemma contains_byte_app c s t :
  contains_byte c (s +:+ t) = contains_byte c s || contains_byte c t.
Proof. unfold contains_byte, str_exists. by rewrite str_forall_app, negb_andb. Qed.

Lemma split_byte_mid c u b : split_byte c (u +:+ String c b) = split_byte c u ++ split_byte c b.
Proof.
  induction u as [|d u IH]; [rewrite str_app_nil_l; cbn [split_byte]; by rewrite Ascii.eqb_refl|].
  rewrite str_app_cons. cbn [split_byte]. rewrite IH. case_match; [done|].
  pose proof (split_byte_nonnil c u). by destruct (split_byte c u).
Qed.

Lemma split_join c l :
  l ≠ [] → Forall (λ p, contains_byte c p = false) l → split_byte c (join_byte c l) = l.
Proof.
  induction l as [|p l IH]; intros Hne Hl; [done|]. apply Forall_cons in Hl as [Hp Hl].
  destruct l as [|q l]; [by apply split_byte_none|]. cbn [join_byte].
  rewrite split_byte_app by done. f_equal. by apply IH.
Qed.

Lemma contains_join c d l :
  c ≠ d → Forall (λ p, contains_byte c p = false) l → contains_byte c (join_byte d l) = false.
Proof.
  intros Hcd. induction l as [|p l IH]; intros Hl; [done|]. apply Forall_cons in Hl as [Hp Hl].
  destruct l as [|q l]; [done|]. cbn [join_byte]. rewrite contains_byte_app, Hp. simpl.
  unfold contains_byte, str_exists in *. cbn [str_forall].
  destruct (Ascii.eqb_spec c d); [done|]. simpl. by apply IH.
Qed.

Lemma EqualFold_refl s : EqualFold s s = true.
Proof. induction s as [|c s IH]; [done|]. cbn [EqualFold]. by rewrite Ascii.eqb_refl. Qed.

#[export] Hint Resolve Itoa_no_slash Itoa_nonempty wrap64_range : dm.
