(* ===== verification/GoUrl.v ===== *)
(** * Path segments of a URI

    net/url's PathEscape and PathUnescape, with which a value is put into a
    LocURI and read out of it. *)
From stdpp Require Import base gmap strings list.
From Stdlib Require Import ZArith Lia Ascii ZifyBool.
From S2P Require Import Prelude GoStrings.

Local Open Scope Z_scope.

Definition ishex (c : ascii) : bool :=
  let v := byte_val c in
  ((48 <=? v) && (v <=? 57)) || ((97 <=? v) && (v <=? 102)) || ((65 <=? v) && (v <=? 70)).

Definition unhex (c : ascii) : Z :=
  let v := byte_val c in
  if (48 <=? v) && (v <=? 57) then v - 48
  else if (97 <=? v) && (v <=? 102) then v - 87
  else v - 55.

Definition upperhex (n : Z) : ascii := byte_of (if n <? 10 then n + 48 else n + 55).

(** A percent sign must be followed by two hexadecimal digits. *)
Fixpoint PathUnescape (s : string) : option string :=
  match s with
  | EmptyString => Some ""
  | String c r =>
      if Ascii.eqb c "%" then
        match r with
        | String a (String b r) =>
            if ishex a && ishex b
            then option_map (String (byte_of (unhex a * 16 + unhex b))) (PathUnescape r)
            else None
        | _ => None
        end
      else option_map (String c) (PathUnescape r)
  end.

(** [shouldEscape] in a path segment. *)
Definition shouldEscape (c : ascii) : bool :=
  let v := byte_val c in
  negb (((97 <=? v) && (v <=? 122)) || ((65 <=? v) && (v <=? 90)) || ((48 <=? v) && (v <=? 57))
    || bool_decide (c ∈ ["-"; "_"; "."; "~"; "$"; "&"; "+"; ":"; "="; "@"]%char)).

Fixpoint PathEscape (s : string) : string :=
  match s with
  | EmptyString => ""
  | String c s =>
      if shouldEscape c
      then String "%" (String (upperhex (byte_val c / 16)) (String (upperhex (byte_val c mod 16))
             (PathEscape s)))
      else String c (PathEscape s)
  end.

(** What holds of the sixteen nibbles. *)
Lemma nibble_all (f : Z → bool) n :
  forallb f (map Z.of_nat (seq 0 16)) = true → 0 ≤ n < 16 → f n = true.
Proof.
  rewrite forallb_forall. intros Hf Hn. apply Hf, in_map_iff. exists (Z.to_nat n).
  rewrite in_seq. lia.
Qed.

Lemma upperhex_ok n : 0 ≤ n < 16 → ishex (upperhex n) = true ∧ unhex (upperhex n) = n.
Proof.
  intros Hn. pose proof (nibble_all (λ n, ishex (upperhex n) && (unhex (upperhex n) =? n)) n eq_refl Hn) as E.
  cbv beta in E. apply andb_true_iff in E as [? E]. by apply Z.eqb_eq in E.
Qed.

Lemma percent_escaped : shouldEscape "%" = true.
Proof. by vm_compute. Qed.

(** An escaped byte is read back. *)
Lemma PathUnescape_escaped c r :
  PathUnescape (String "%" (String (upperhex (byte_val c / 16))
    (String (upperhex (byte_val c mod 16)) r))) = option_map (String c) (PathUnescape r).
Proof.
  pose proof (byte_val_range c) as Hc.
  destruct (upperhex_ok (byte_val c / 16)) as [H1 V1]; [split; [apply Z.div_pos|apply Z.div_lt_upper_bound]; lia|].
  destruct (upperhex_ok (byte_val c mod 16)) as [H2 V2]; [apply Z.mod_pos_bound; lia|].
  cbn [PathUnescape]. rewrite H1, H2, V1, V2. cbn.
  pose proof (Z.div_mod (byte_val c) 16 ltac:(lia)) as Hd.
  replace (byte_val c / 16 * 16 + byte_val c mod 16) with (byte_val c) by lia.
  by rewrite byte_of_val.
Qed.

(** A value comes back out of the segment it was put in. *)
Lemma PathUnescape_Escape s : PathUnescape (PathEscape s) = Some s.
Proof.
  induction s as [|c s IH]; [done|]. cbn [PathEscape]. destruct (shouldEscape c) eqn:E.
  - by rewrite PathUnescape_escaped, IH.
  - cbn [PathUnescape]. destruct (Ascii.eqb_spec c "%") as [->|]; [done|]. by rewrite IH.
Qed.

(** An escaped value holds none of the characters that delimit segments. *)
Definition url_plain (s : string) : bool :=
  str_forall (λ c, negb (Ascii.eqb c "/") && negb (Ascii.eqb c "?")) s.

Lemma PathEscape_plain s : url_plain (PathEscape s) = true.
Proof.
  unfold url_plain. induction s as [|c s IH]; [done|]. cbn [PathEscape].
  pose proof (byte_val_range c) as Hc. destruct (shouldEscape c) eqn:E.
  - cbn [str_forall]. rewrite IH.
    pose proof (λ n, nibble_all (λ n, negb (Ascii.eqb (upperhex n) "/") &&
      negb (Ascii.eqb (upperhex n) "?")) n eq_refl) as Hh. cbv beta in Hh.
    rewrite !Hh; [done| |]; [apply Z.mod_pos_bound; lia|].
    split; [apply Z.div_pos|apply Z.div_lt_upper_bound]; lia.
  - cbn [str_forall]. rewrite IH. destruct (Ascii.eqb_spec c "/") as [->|]; [done|].
    destruct (Ascii.eqb_spec c "?") as [->|]; [done|]. done.
Qed.

Lemma PathEscape_printable s : str_forall printable (PathEscape s) = true.
Proof.
  induction s as [|c s IH]; [done|]. cbn [PathEscape].
  pose proof (byte_val_range c) as Hc. destruct (shouldEscape c) eqn:E; cbn [str_forall]; rewrite IH.
  - pose proof (λ n, nibble_all (λ n, printable (upperhex n)) n eq_refl) as Hh. cbv beta in Hh.
    rewrite !Hh; [done| |]; [apply Z.mod_pos_bound; lia|].
    split; [apply Z.div_pos|apply Z.div_lt_upper_bound]; lia.
  - unfold shouldEscape in E. apply negb_false_iff in E. rewrite andb_true_r. unfold printable.
    apply orb_true_iff in E as [E|E]; [lia|]. apply bool_decide_eq_true in E.
    repeat (apply elem_of_cons in E as [->|E]; [done|]). by apply elem_of_nil in E.
Qed.

Lemma PathEscape_no_slash s : contains_byte "/" (PathEscape s) = false.
Proof.
  pose proof (PathEscape_plain s) as Hp. unfold url_plain in Hp. unfold contains_byte, str_exists.
  apply negb_false_iff. induction (PathEscape s) as [|c t IH]; [done|]. cbn [str_forall] in *.
  apply andb_true_iff in Hp as [Hc Ht]. apply andb_true_iff in Hc as [Hc _].
  by rewrite Ascii.eqb_sym, Hc, IH.
Qed.

Lemma PathEscape_nonempty s : s ≠ "" → PathEscape s ≠ "".
Proof. destruct s; [done|]. cbn [PathEscape]. by case_match. Qed.

(** Text without a percent sign stands for itself. *)
Lemma PathUnescape_id s : contains_byte "%" s = false → PathUnescape s = Some s.
Proof.
  unfold contains_byte, str_exists. intros Hs. apply negb_false_iff in Hs.
  induction s as [|c s IH]; [done|]. cbn [str_forall PathUnescape] in *. btrue.
  rewrite Ascii.eqb_sym. destruct (Ascii.eqb_spec "%" c) as [<-|]; [done|]. by rewrite IH.
Qed.
