(* ===== verification/SyncmlModel.v ===== *)
(** * SyncML messages

    The data model of mdmprotocol/syncml: the wire constants (constants.go)
    and the message tree (message.go) with its accessors. *)
From stdpp Require Import base gmap strings list.
From Stdlib Require Import ZArith Lia Ascii.
From S2P Require Import Prelude GoStrings.

Local Open Scope Z_scope.

(** ** constants.go *)

Definition NamespaceSyncML12 := "SYNCML:SYNCML1.2".
Definition NamespaceSyncML11 := "SYNCML:SYNCML1.1".
Definition NamespaceMetInf := "syncml:metinf".
Definition NamespaceMSFT := "http://schemas.microsoft.com/MobileDevice/MDM".
Definition VerDTD := "1.2".
Definition VerProto := "DM/1.2".
Definition ContentTypeXML := "application/vnd.syncml.dm+xml".
Definition ContentTypeWBXML := "application/vnd.syncml.dm+wbxml".

Definition CmdAdd := "Add".
Definition CmdAlert := "Alert".
Definition CmdAtomic := "Atomic".
Definition CmdDelete := "Delete".
Definition CmdExec := "Exec".
Definition CmdGet := "Get".
Definition CmdReplace := "Replace".
Definition CmdResults := "Results".
Definition CmdSequence := "Sequence".
Definition CmdStatus := "Status".
Definition CmdSyncHdr := "SyncHdr".

(** [type AlertCode int] *)
Definition AlertCode := Z.

Definition AlertServerInitiated : AlertCode := 1200.
Definition AlertClientInitiated : AlertCode := 1201.
Definition AlertNextMessage : AlertCode := 1222.
Definition AlertSessionAbort : AlertCode := 1223.
Definition AlertClientEvent : AlertCode := 1224.
Definition AlertNoEndOfData : AlertCode := 1225.
Definition AlertGeneric : AlertCode := 1226.

Definition alertNames : list (AlertCode * string) :=
  [ (AlertServerInitiated, "SERVER-INITIATED MGMT");
    (AlertClientInitiated, "CLIENT-INITIATED MGMT");
    (AlertNextMessage, "NEXT MESSAGE");
    (AlertSessionAbort, "SESSION ABORT");
    (AlertClientEvent, "CLIENT EVENT");
    (AlertNoEndOfData, "NO END OF DATA");
    (AlertGeneric, "GENERIC ALERT") ].

(** Lookup in a table of names. *)
Fixpoint assocZ (k : Z) (l : list (Z * string)) : option string :=
  match l with
  | [] => None
  | (k', v) :: l => if k =? k' then Some v else assocZ k l
  end.

Definition AlertCode_Known (c : AlertCode) : bool :=
  match assocZ c alertNames with Some _ => true | None => false end.

Definition AlertCode_String (c : AlertCode) : string :=
  match assocZ c alertNames with Some n => n | None => Itoa c end.

Definition AlertCode_Wire (c : AlertCode) : string := Itoa c.

Definition AlertTypeLoginStatus := "com.microsoft/MDM/LoginStatus".
Definition AlertTypeSyncType := "com.microsoft.mdm.synctype".
Definition AlertTypeDevicePrepSync := "com.microsoft/MDM/DevicePrepSync".
Definition AlertTypeAADUserToken := "com.microsoft/MDM/AADUserToken".
Definition AlertTypeWin32CSPInstall :=
  "Reversed-Domain-Name:com.microsoft.mdm.win32csp_install".
Definition AlertTypeDeclaredConfigurationDocuments :=
  "com.microsoft.mdm.declaredconfigurationdocuments".
Definition AlertTypeUnenrollmentUserRequest :=
  "com.microsoft:mdm.unenrollment.userrequest".

Definition LoginStatusUser := "user".
Definition LoginStatusOthers := "others".
Definition LoginStatusNone := "none".

(** [type StatusCode int] *)
Definition StatusCode := Z.

Definition StatusOK : StatusCode := 200.
Definition StatusAccepted : StatusCode := 202.
Definition StatusAuthenticationAccepted : StatusCode := 212.
Definition StatusChunkedItemAccepted : StatusCode := 213.
Definition StatusOperationCancelled : StatusCode := 214.
Definition StatusNotExecuted : StatusCode := 215.
Definition StatusAtomicRollbackOK : StatusCode := 216.
Definition StatusBadRequest : StatusCode := 400.
Definition StatusInvalidCredentials : StatusCode := 401.
Definition StatusForbidden : StatusCode := 403.
Definition StatusNotFound : StatusCode := 404.
Definition StatusCommandNotAllowed : StatusCode := 405.
Definition StatusOptionalFeature : StatusCode := 406.
Definition StatusAuthenticationRequired : StatusCode := 407.
Definition StatusIncompleteCommand : StatusCode := 412.
Definition StatusRequestEntityTooLarge : StatusCode := 413.
Definition StatusUnsupportedMediaType : StatusCode := 415.
Definition StatusRequestedSizeTooBig : StatusCode := 416.
Definition StatusAlreadyExists : StatusCode := 418.
Definition StatusDeviceFull : StatusCode := 420.
Definition StatusSizeMismatch : StatusCode := 424.
Definition StatusPermissionDenied : StatusCode := 425.
Definition StatusCommandFailed : StatusCode := 500.
Definition StatusAtomicFailed : StatusCode := 507.
Definition StatusRefreshRequired : StatusCode := 508.
Definition StatusAtomicRollbackFailed : StatusCode := 516.

Definition statusDescriptions : list (StatusCode * string) :=
  [ (StatusOK, "OK");
    (StatusAccepted, "Accepted for processing (asynchronous operation)");
    (StatusAuthenticationAccepted,
      "Authentication accepted; no further authentication this session");
    (StatusChunkedItemAccepted, "Chunked item accepted and buffered");
    (StatusOperationCancelled,
      "Operation cancelled; no more commands are processed in the session");
    (StatusNotExecuted, "Not executed; the user cancelled the command");
    (StatusAtomicRollbackOK, "Atomic roll back OK");
    (StatusBadRequest, "Bad request; malformed syntax");
    (StatusInvalidCredentials, "Invalid credentials");
    (StatusForbidden, "Forbidden");
    (StatusNotFound, "Not found; the node does not exist");
    (StatusCommandNotAllowed,
      "Command not allowed; write to a read-only node, or wrong sync type scope");
    (StatusOptionalFeature, "Optional feature not supported by the CSP");
    (StatusAuthenticationRequired, "Authentication required");
    (StatusIncompleteCommand, "Incomplete command");
    (StatusRequestEntityTooLarge, "Request entity too large");
    (StatusUnsupportedMediaType,
      "Unsupported type or format; XML parsing or formatting error");
    (StatusRequestedSizeTooBig, "Requested size too big");
    (StatusAlreadyExists, "Already exists");
    (StatusDeviceFull, "Device full");
    (StatusSizeMismatch, "Size mismatch");
    (StatusPermissionDenied, "Permission denied (ACL)");
    (StatusCommandFailed,
      "Command failed; the SyncML DPU could not map the originating error");
    (StatusAtomicFailed, "Atomic failed");
    (StatusRefreshRequired, "Refresh required");
    (StatusAtomicRollbackFailed, "Atomic roll back failed") ].

Definition StatusCode_Known (c : StatusCode) : bool :=
  match assocZ c statusDescriptions with Some _ => true | None => false end.

Definition StatusCode_String (c : StatusCode) : string :=
  match assocZ c statusDescriptions with Some d => d | None => Itoa c end.

Definition StatusCode_Wire (c : StatusCode) : string := Itoa c.

Definition StatusCode_Success (c : StatusCode) : bool := (200 <=? c) && (c <? 300).

Definition ParseStatusCode (s : string) : result StatusCode :=
  match Atoi s with
  | Some n => if (n <? 100) || (999 <? n) then Err [syncml_ErrSyntax] else Ok n
  | None => Err [syncml_ErrSyntax]
  end.

Definition ParseAlertCode (s : string) : result AlertCode :=
  match Atoi s with
  | Some n => if (n <? 1000) || (9999 <? n) then Err [syncml_ErrSyntax] else Ok n
  | None => Err [syncml_ErrSyntax]
  end.

Definition FormatChr := "chr".
Definition FormatInt := "int".
Definition FormatNode := "node".
Definition FormatBool := "bool".
Definition FormatB64 := "b64".
Definition FormatNull := "null".
Definition FormatXML := "xml".
Definition FormatBin := "bin".
Definition FormatTime := "time".
Definition FormatDate := "date".
Definition FormatFloat := "float".

Definition knownFormats : list string :=
  [FormatChr; FormatInt; FormatNode; FormatBool; FormatB64; FormatNull; FormatXML;
   FormatBin; FormatTime; FormatDate; FormatFloat].

Definition KnownFormat (f : string) : bool := bool_decide (f ∈ knownFormats).

Definition MarkFatal := "fatal".
Definition MarkCritical := "critical".
Definition MarkMinor := "minor".
Definition MarkWarning := "warning".
Definition MarkInformational := "informational".
Definition MarkHarmless := "harmless".
Definition MarkIndeterminate := "indeterminate".

Definition AuthBasic := "syncml:auth-basic".
Definition AuthMD5 := "syncml:auth-md5".
Definition AttrOriginalError := "originalerror".

(** [const DefaultMaxSize = 8 << 20] of decode.go. *)
Definition DefaultMaxSize : Z := Z.shiftl 8 20.

(** ** message.go *)

Record Location := mkLocation { LocURI : string; LocName : string }.

Record Meta := mkMeta {
  Meta_Format : string;
  Meta_Type : string;
  Meta_Mark : string;
  Meta_Size : Z;
  Meta_NextNonce : string;
  Meta_MaxMsgSize : Z;
  Meta_MaxObjSize : Z }.

(** The zero value [Meta{}]. *)
Definition Meta0 : Meta := mkMeta "" "" "" 0 "" 0 0.

Record Data := mkData {
  Data_Value : string;
  Data_XML : string;
  Data_OriginalError : string }.

Record Item := mkItem {
  Item_Target : string;
  Item_Source : string;
  Item_Meta : option Meta;
  Item_Data : option Data;
  Item_MoreData : bool }.

(** The zero value [Item{}]. *)
Definition Item0 : Item := mkItem "" "" None None false.

Record Cred := mkCred { Cred_Meta : Meta; Cred_Data : string }.

Record Chal := mkChal { Chal_Meta : Meta }.

Record Header := mkHeader {
  Hdr_VerDTD : string;
  Hdr_VerProto : string;
  Hdr_SessionID : string;
  Hdr_MsgID : string;
  Hdr_Target : Location;
  Hdr_Source : Location;
  Hdr_RespURI : string;
  Hdr_NoResp : bool;
  Hdr_Cred : option Cred;
  Hdr_Meta : option Meta }.

Record Add := mkAdd {
  Add_CmdID : string; Add_NoResp : bool; Add_Cred : option Cred;
  Add_Meta : option Meta; Add_Items : list Item }.

Record Replace := mkReplace {
  Replace_CmdID : string; Replace_NoResp : bool; Replace_Cred : option Cred;
  Replace_Meta : option Meta; Replace_Items : list Item }.

Record Delete := mkDelete {
  Delete_CmdID : string; Delete_NoResp : bool; Delete_Cred : option Cred;
  Delete_Meta : option Meta; Delete_Items : list Item }.

Record Get := mkGet {
  Get_CmdID : string; Get_NoResp : bool; Get_Lang : string;
  Get_Cred : option Cred; Get_Meta : option Meta; Get_Items : list Item }.

Record Exec := mkExec {
  Exec_CmdID : string; Exec_NoResp : bool; Exec_Cred : option Cred;
  Exec_Meta : option Meta; Exec_Correlator : string; Exec_Items : list Item }.

Record Alert := mkAlert {
  Alert_CmdID : string; Alert_NoResp : bool; Alert_Cred : option Cred;
  Alert_Data : string; Alert_Correlator : string; Alert_Items : list Item }.

Record Status := mkStatus {
  Status_CmdID : string;
  Status_MsgRef : string;
  Status_CmdRef : string;
  Status_Cmd : string;
  Status_TargetRef : list string;
  Status_SourceRef : list string;
  Status_Cred : option Cred;
  Status_Chal : option Chal;
  Status_Data : Data;
  Status_Items : list Item }.

Record Results := mkResults {
  Results_CmdID : string;
  Results_MsgRef : string;
  Results_CmdRef : string;
  Results_Cmd : string;
  Results_Meta : option Meta;
  Results_TargetRef : string;
  Results_SourceRef : string;
  Results_Items : list Item }.

(** The sealed interface [Command]: its ten implementations.  Atomic and
    Sequence carry (CmdID, NoResp, Meta, Commands). *)
Inductive Command : Type :=
  | CAdd (c : Add)
  | CReplace (c : Replace)
  | CDelete (c : Delete)
  | CGet (c : Get)
  | CExec (c : Exec)
  | CAlert (c : Alert)
  | CAtomic (CmdID : string) (NoResp : bool) (m : option Meta) (cmds : list Command)
  | CSequence (CmdID : string) (NoResp : bool) (m : option Meta) (cmds : list Command)
  | CStatus (c : Status)
  | CResults (c : Results).

(** Induction over the members of groups. *)
Section Command_rect.
Variable P : Command → Prop.
Hypothesis HAdd : ∀ c, P (CAdd c).
Hypothesis HReplace : ∀ c, P (CReplace c).
Hypothesis HDelete : ∀ c, P (CDelete c).
Hypothesis HGet : ∀ c, P (CGet c).
Hypothesis HExec : ∀ c, P (CExec c).
Hypothesis HAlert : ∀ c, P (CAlert c).
Hypothesis HAtomic : ∀ i n m cs, Forall P cs → P (CAtomic i n m cs).
Hypothesis HSequence : ∀ i n m cs, Forall P cs → P (CSequence i n m cs).
Hypothesis HStatus : ∀ c, P (CStatus c).
Hypothesis HResults : ∀ c, P (CResults c).

Fixpoint Command_nested_ind (c : Command) : P c :=
  let all := fix all (cs : list Command) : Forall P cs :=
    match cs with
    | [] => Forall_nil_2 P
    | c :: cs => Forall_cons_2 P c cs (Command_nested_ind c) (all cs)
    end in
  match c with
  | CAdd c => HAdd c
  | CReplace c => HReplace c
  | CDelete c => HDelete c
  | CGet c => HGet c
  | CExec c => HExec c
  | CAlert c => HAlert c
  | CAtomic i n m cs => HAtomic i n m cs (all cs)
  | CSequence i n m cs => HSequence i n m cs (all cs)
  | CStatus c => HStatus c
  | CResults c => HResults c
  end.
End Command_rect.

Record Body := mkBody {
  Body_Commands : list Command;
  Body_Final : bool;
  Body_MSFTNamespace : bool }.

Record Message := mkMessage {
  Msg_Namespace : string;
  Msg_Header : Header;
  Msg_Body : Body }.

(** Decidable equality of the message data. *)
#[global] Instance Location_eq_dec : EqDecision Location.
Proof. solve_decision. Defined.
#[global] Instance Meta_eq_dec : EqDecision Meta.
Proof. solve_decision. Defined.
#[global] Instance Data_eq_dec : EqDecision Data.
Proof. solve_decision. Defined.
#[global] Instance Item_eq_dec : EqDecision Item.
Proof. solve_decision. Defined.
#[global] Instance Cred_eq_dec : EqDecision Cred.
Proof. solve_decision. Defined.
#[global] Instance Chal_eq_dec : EqDecision Chal.
Proof. solve_decision. Defined.

(** [func (d *Data) Text() string]; a nil receiver is [None]. *)
Definition Data_Text (d : option Data) : string :=
  match d with
  | None => ""
  | Some d => if decide (Data_XML d = "") then Data_Value d else Data_XML d
  end.

(** [func (it *Item) LocURI() string]. *)
Definition Item_LocURI (it : Item) : string :=
  if decide (Item_Target it = "") then Item_Source it else Item_Target it.

Definition Alert_Code (a : Alert) : AlertCode :=
  match ParseAlertCode (Alert_Data a) with Ok c => c | Err _ => 0 end.

Definition Status_Code (s : Status) : StatusCode :=
  match ParseStatusCode (Data_Value (Status_Data s)) with Ok c => c | Err _ => 0 end.

(** [Command.Name] and [Command.ID]. *)
Definition Command_Name (c : Command) : string :=
  match c with
  | CAdd _ => CmdAdd
  | CAlert _ => CmdAlert
  | CAtomic _ _ _ _ => CmdAtomic
  | CDelete _ => CmdDelete
  | CExec _ => CmdExec
  | CGet _ => CmdGet
  | CReplace _ => CmdReplace
  | CResults _ => CmdResults
  | CSequence _ _ _ _ => CmdSequence
  | CStatus _ => CmdStatus
  end.

Definition Command_ID (c : Command) : string :=
  match c with
  | CAdd c => Add_CmdID c
  | CAlert c => Alert_CmdID c
  | CAtomic i _ _ _ => i
  | CDelete c => Delete_CmdID c
  | CExec c => Exec_CmdID c
  | CGet c => Get_CmdID c
  | CReplace c => Replace_CmdID c
  | CResults c => Results_CmdID c
  | CSequence i _ _ _ => i
  | CStatus c => Status_CmdID c
  end.

(** [walk(cmds, depth, fn)] with a callback that carries a state: the visited
    commands in document order, stopping when the callback says so. *)
Section walk.
Context {S : Type} (fn : Command → Z → S → S * bool).

Fixpoint walk_command (c : Command) (depth : Z) (s : S) : S * bool :=
  let walk := fix walk (cmds : list Command) (depth : Z) (s : S) : S * bool :=
    match cmds with
    | [] => (s, true)
    | c :: cmds =>
        match walk_command c depth s with
        | (s, true) => walk cmds depth s
        | (s, false) => (s, false)
        end
    end in
  match fn c depth s with
  | (s, false) => (s, false)
  | (s, true) =>
      match c with
      | CAtomic _ _ _ cmds | CSequence _ _ _ cmds => walk cmds (depth + 1) s
      | _ => (s, true)
      end
  end.

Fixpoint walk (cmds : list Command) (depth : Z) (s : S) : S * bool :=
  match cmds with
  | [] => (s, true)
  | c :: cmds =>
      match walk_command c depth s with
      | (s, true) => walk cmds depth s
      | (s, false) => (s, false)
      end
  end.

Definition Body_Walk (b : Body) (s : S) : S := fst (walk (Body_Commands b) 0 s).
End walk.

Definition Body_Alerts (b : Body) : list Alert :=
  omap (λ c, match c with CAlert a => Some a | _ => None end) (Body_Commands b).

Definition Body_Statuses (b : Body) : list Status :=
  omap (λ c, match c with CStatus s => Some s | _ => None end) (Body_Commands b).

Definition Body_HasAlert (b : Body) (code : AlertCode) : bool :=
  existsb (λ a, Alert_Code a =? code) (Body_Alerts b).

(** Every command of a list with its descendants, in document order: what a
    walk that never stops visits. *)
Fixpoint flatten (c : Command) : list Command :=
  c :: match c with
       | CAtomic _ _ _ cs | CSequence _ _ _ cs =>
           (fix all (cs : list Command) : list Command :=
              match cs with [] => [] | c :: cs => flatten c ++ all cs end) cs
       | _ => []
       end.
Definition flatten_all (cs : list Command) : list Command := concat (map flatten cs).

Lemma flatten_group_eq cs :
  (fix all (cs : list Command) : list Command :=
     match cs with [] => [] | c :: cs => flatten c ++ all cs end) cs = flatten_all cs.
Proof. induction cs as [|c cs IH]; [done|]. unfold flatten_all in *; simpl. by rewrite IH. Qed.

Lemma walk_group_eq {S} (fn : Command → Z → S → S * bool) cs d s :
  (fix walk (cmds : list Command) (depth : Z) (s : S) : S * bool :=
      match cmds with
      | [] => (s, true)
      | c :: cmds =>
          match walk_command fn c depth s with
          | (s, true) => walk cmds depth s
          | (s, false) => (s, false)
          end
      end) cs d s = walk fn cs d s.
Proof.
  revert s. induction cs as [|c cs IH]; intros s; [done|]. simpl.
  destruct (walk_command fn c d s) as [s' []]; [apply IH|done].
Qed.

(** A walk whose callback always continues visits exactly [flatten_all]. *)
Lemma walk_flatten {S} (f : S → Command → S) cs d s :
  walk (λ c _ s, (f s c, true)) cs d s = (foldl f s (flatten_all cs), true).
Proof.
  assert (∀ cs, Forall (λ c, ∀ d s, walk_command (λ c _ s, (f s c, true)) c d s
                          = (foldl f s (flatten c), true)) cs →
    ∀ d s, walk (λ c _ s, (f s c, true)) cs d s
           = (foldl f s (flatten_all cs), true)) as Hgroup.
  { induction 1 as [|c cs' Hc _ IH]; intros d' s'; [done|].
    simpl. rewrite Hc. unfold flatten_all; simpl. rewrite foldl_app. apply IH. }
  apply Hgroup, Forall_forall. intros c _.
  induction c using Command_nested_ind; intros d' s'; try done;
    simpl; rewrite walk_group_eq, flatten_group_eq; by apply Hgroup.
Qed.
