(* ===== verification/LargeObject.v ===== *)
(** * Large objects

    mdmprotocol/syncml/largeobject.go: an item whose data exceeds the peer's
    limit is cut into chunks ([SplitItem]) that the receiver puts back
    together ([Assembler]). *)
From stdpp Require Import base gmap strings list.
From Stdlib Require Import ZArith Lia Ascii.
From S2P Require Import Prelude GoStrings SyncmlModel.

Local Open Scope Z_scope.

(** [utf8.RuneStart]: not a continuation byte. *)
Definition RuneStart (b : ascii) : bool := negb (Z.land (byte_val b) 0xC0 =? 0x80).

(** [for n > 0 && !utf8.RuneStart(full[n]) { n-- }] *)
Fixpoint rune_back (n : nat) (full : string) : nat :=
  match n with
  | O => O
  | S n' =>
      match sget n full with
      | Some b => if RuneStart b then n else rune_back n' full
      | None => rune_back n' full
      end
  end.

(** Where the next chunk ends. *)
Definition cut_len (maxb : nat) (full : string) : nat :=
  if (String.length full <=? maxb)%nat then String.length full
  else rune_back maxb full.
Arguments cut_len : simpl never.

(** The chunk carrying [part] of the item: Meta is copied, and the first chunk
    gets the size of the whole object. *)
Definition chunk_of (it : Item) (d : Data) (first : bool) (part : string)
    (more : bool) : Item :=
  let meta :=
    if first then
      let m := default Meta0 (Item_Meta it) in
      Some (mkMeta (Meta_Format m) (Meta_Type m) (Meta_Mark m) (len (Data_Value d))
              (Meta_NextNonce m) (Meta_MaxMsgSize m) (Meta_MaxObjSize m))
    else Item_Meta it in
  mkItem (Item_Target it) (Item_Source it) meta
    (Some (mkData part "" (Data_OriginalError d))) more.

(** The loop [for len(full) > 0]; it runs at most [len full] times because
    every turn consumes at least one byte. *)
Fixpoint split_loop (fuel : nat) (it : Item) (d : Data) (maxb : nat)
    (first : bool) (full : string) : result (list Item) :=
  match fuel, full with
  | _, EmptyString => Ok []
  | O, _ => Ok []
  | S fuel, _ =>
      let n := cut_len maxb full in
      if (n =? 0)%nat then Err [syncml_ErrChunk]
      else
        let rest := sdrop n full in
        let? out := split_loop fuel it d maxb false rest in
        Ok (chunk_of it d first (stake n full) (0 <? len rest) :: out)
  end%go.

(** [SplitItem]. *)
Definition SplitItem (it : Item) (maxDataBytes : Z) : result (list Item) :=
  if maxDataBytes <? 1 then Err [syncml_ErrChunk]
  else match Item_Data it with
  | None => Ok [it]
  | Some d =>
      if negb (bool_decide (Data_XML d = "")) || (len (Data_Value d) <=? maxDataBytes)
      then Ok [it]
      else if Item_MoreData it then Err [syncml_ErrChunk]
      else split_loop (String.length (Data_Value d)) it d (Z.to_nat maxDataBytes)
             true (Data_Value d)
  end.

(** [type Assembler struct]. *)
Record Assembler := mkAssembler {
  Asm_MaxSize : Z;
  Asm_locURI : string;
  Asm_pending : bool;
  Asm_buf : string;
  Asm_first : Item;
  Asm_size : Z }.

Definition Assembler_Pending (a : Assembler) : bool := Asm_pending a.

Definition Assembler_LocURI (a : Assembler) : string :=
  if Asm_pending a then Asm_locURI a else "".

(** A fresh assembler, and [Reset]. *)
Definition newAssembler (maxSize : Z) : Assembler :=
  mkAssembler maxSize "" false "" Item0 0.
Definition Assembler_Reset (a : Assembler) : Assembler := newAssembler (Asm_MaxSize a).

Definition Assembler_limit (a : Assembler) : Z :=
  if Asm_MaxSize a <=? 0 then DefaultMaxSize else Asm_MaxSize a.

(** The part of [Add] after the first chunk was accepted or the address was
    checked: append the data, enforce the limit, and finish on the chunk
    without MoreData. *)
Definition Assembler_append (a : Assembler) (it : Item)
    : Assembler * result (Item * bool) :=
  let limit := Assembler_limit a in
  let xml := match Item_Data it with Some d => Data_XML d | None => "" end in
  if negb (bool_decide (xml = "")) then (Assembler_Reset a, Err [syncml_ErrChunk])
  else
    let buf := match Item_Data it with
               | Some d => Asm_buf a +:+ Data_Value d
               | None => Asm_buf a
               end in
    let a := mkAssembler (Asm_MaxSize a) (Asm_locURI a) (Asm_pending a) buf
               (Asm_first a) (Asm_size a) in
    if limit <? len buf then (Assembler_Reset a, Err [syncml_ErrChunk])
    else if Item_MoreData it then (a, Ok (Item0, false))
    else if (0 <? Asm_size a) && negb (len buf =? Asm_size a)
    then (Assembler_Reset a, Err [syncml_ErrChunk])
    else
      let first := Asm_first a in
      let orig := match Item_Data first with
                  | Some d => Data_OriginalError d
                  | None => ""
                  end in
      (Assembler_Reset a,
       Ok (mkItem (Item_Target first) (Item_Source first) (Item_Meta first)
             (Some (mkData buf "" orig)) false, true)).

(** [func (a *Assembler) Add(it Item) (out Item, done bool, err error)]. *)
Definition Assembler_Add (a : Assembler) (it : Item)
    : Assembler * result (Item * bool) :=
  let limit := Assembler_limit a in
  let uri := Item_LocURI it in
  if negb (Asm_pending a) then
    if negb (Item_MoreData it) then (a, Ok (it, true))
    else match Item_Data it with
    | None => (a, Err [syncml_ErrChunk])
    | Some _ =>
        let size := match Item_Meta it with
                    | Some m => Meta_Size m
                    | None => Asm_size a
                    end in
        let a := mkAssembler (Asm_MaxSize a) uri true "" it size in
        if match Item_Meta it with Some _ => limit <? size | None => false end
        then (Assembler_Reset a, Err [syncml_ErrChunk])
        else Assembler_append a it
    end
  else if negb (bool_decide (uri = Asm_locURI a))
  then (Assembler_Reset a, Err [syncml_ErrChunk])
  else Assembler_append a it.

(** Feeding a list of items, as the session engine does message by message. *)
Fixpoint feed (a : Assembler) (its : list Item)
    : Assembler * list (result (Item * bool)) :=
  match its with
  | [] => (a, [])
  | it :: its =>
      let '(a, r) := Assembler_Add a it in
      let '(a, rs) := feed a its in (a, r :: rs)
  end.

(** ** What a split produces *)

Definition item_value (it : Item) : string :=
  match Item_Data it with Some d => Data_Value d | None => "" end.

Lemma rune_back_le n full : (rune_back n full ≤ n)%nat.
Proof.
  induction n as [|n IH]; simpl; [lia|].
  destruct (sget (S n) full) as [b|]; [destruct (RuneStart b)|]; lia.
Qed.

Lemma cut_len_le maxb full :
  (cut_len maxb full ≤ maxb)%nat ∧ (cut_len maxb full ≤ String.length full)%nat.
Proof.
  unfold cut_len. pose proof (rune_back_le maxb full).
  destruct (Nat.leb_spec (String.length full) maxb); lia.
Qed.

(** One turn of the loop, with what is known about the cut. *)
Lemma split_loop_step fuel it d maxb first full out :
  full ≠ "" → split_loop (S fuel) it d maxb first full = Ok out →
  ∃ n out', (0 < n ≤ maxb)%nat ∧ (n ≤ String.length full)%nat ∧
    split_loop fuel it d maxb false (sdrop n full) = Ok out' ∧
    out = chunk_of it d first (stake n full) (0 <? len (sdrop n full)) :: out'.
Proof.
  intros Hne H. simpl in H. destruct full as [|c full]; [done|].
  set (f := String c full) in *. pose proof (cut_len_le maxb f).
  destruct (Nat.eqb_spec (cut_len maxb f) 0); [done|].
  apply result_bind_Ok in H as (out' & Hout & [= <-]).
  exists (cut_len maxb f), out'. split; [lia|split; [lia|done]].
Qed.

(** The chunks of a string: together they are the string, none is empty or
    over the limit, and all but the last carry MoreData. *)
Inductive chunking (it : Item) (d : Data) (maxb : nat) :
    bool → string → list Item → Prop :=
  | chunking_last first part :
      part ≠ "" → (String.length part ≤ maxb)%nat →
      chunking it d maxb first part [chunk_of it d first part false]
  | chunking_more first part rest cs :
      part ≠ "" → (String.length part ≤ maxb)%nat → rest ≠ "" →
      chunking it d maxb false rest cs →
      chunking it d maxb first (part +:+ rest)
        (chunk_of it d first part true :: cs).

Lemma split_loop_chunking fuel it d maxb first full out :
  (String.length full ≤ fuel)%nat → full ≠ "" →
  split_loop fuel it d maxb first full = Ok out →
  chunking it d maxb first full out.
Proof.
  revert first full out; induction fuel as [|fuel IH]; intros first full out Hf Hne H.
  { destruct full; [done|simpl in Hf; lia]. }
  apply split_loop_step in H as (n & out' & Hn & Hnl & Hout' & ->); [|done].
  assert (String.length (stake n full) = n) as Hlen by (rewrite length_stake; lia).
  assert (stake n full ≠ "") as Hpart by (intros E; rewrite E in Hlen; simpl in Hlen; lia).
  pose proof (stake_sdrop n full) as Heq.
  destruct (decide (sdrop n full = "")) as [E|E].
  - rewrite E in *. assert (out' = []) as ->.
    { destruct fuel; simpl in Hout'; by inv_result. }
    rewrite str_app_nil_r in Heq. rewrite Heq in *.
    apply chunking_last; [done|lia].
  - replace (0 <? len (sdrop n full)) with true; last first.
    { symmetry. apply Z.ltb_lt. pose proof (len_nonneg (sdrop n full)).
      destruct (decide (len (sdrop n full) = 0)) as [E0|]; [|lia].
      by apply len_0 in E0. }
    rewrite <- Heq at 1. apply chunking_more; [done|lia|done|].
    apply IH; [|done..]. rewrite length_sdrop. lia.
Qed.

Lemma chunking_concat it d maxb first full cs :
  chunking it d maxb first full cs → str_concat (map item_value cs) = full.
Proof.
  induction 1 as [first part|first part rest cs ??? _ IH]; simpl.
  - apply str_app_nil_r.
  - by rewrite IH.
Qed.

Lemma chunking_bound it d maxb first full cs :
  chunking it d maxb first full cs →
  Forall (λ c, item_value c ≠ "" ∧ (String.length (item_value c) ≤ maxb)%nat) cs.
Proof. induction 1; repeat constructor; done. Qed.

Lemma chunking_moredata it d maxb first full cs :
  chunking it d maxb first full cs →
  ∃ init z, cs = init ++ [z] ∧ Forall (λ c, Item_MoreData c = true) init
            ∧ Item_MoreData z = false.
Proof.
  induction 1 as [first part|first part rest cs ??? _ (init & z & -> & ? & ?)].
  - by exists [], (chunk_of it d first part false).
  - exists (chunk_of it d first part true :: init), z. split_and!; [done| |done].
    by constructor.
Qed.

Lemma chunking_addr it d maxb first full cs :
  chunking it d maxb first full cs →
  Forall (λ c, Item_Target c = Item_Target it ∧ Item_Source c = Item_Source it) cs.
Proof. induction 1; repeat constructor; done. Qed.

(** ** Reassembly *)

(** The item the receiver ends up with: the original, with Meta/Size set. *)
Definition reassembled (it : Item) (d : Data) : Item :=
  let c := chunk_of it d true (Data_Value d) false in
  mkItem (Item_Target it) (Item_Source it) (Item_Meta c)
    (Some (mkData (Data_Value d) "" (Data_OriginalError d))) false.

(** The assembler in the middle of an object. *)
Definition mid (maxSize : Z) (uri buf : string) (first : Item) (size : Z) : Assembler :=
  mkAssembler maxSize uri true buf first size.

Lemma chunk_LocURI it d first part more :
  Item_LocURI (chunk_of it d first part more) = Item_LocURI it.
Proof. done. Qed.

Lemma append_more maxSize uri buf fst size it d first part :
  len (buf +:+ part) ≤ Assembler_limit (newAssembler maxSize) →
  Assembler_append (mid maxSize uri buf fst size) (chunk_of it d first part true)
  = (mid maxSize uri (buf +:+ part) fst size, Ok (Item0, false)).
Proof.
  intros Hl. unfold Assembler_append, mid; simpl.
  change (Assembler_limit (mkAssembler maxSize uri true buf fst size))
    with (Assembler_limit (newAssembler maxSize)).
  destruct (Z.ltb_spec (Assembler_limit (newAssembler maxSize)) (len (buf +:+ part)));
    [lia|done].
Qed.

Lemma append_last maxSize uri buf fst size it d first part d0 :
  len (buf +:+ part) ≤ Assembler_limit (newAssembler maxSize) →
  len (buf +:+ part) = size → Item_Data fst = Some d0 →
  Assembler_append (mid maxSize uri buf fst size) (chunk_of it d first part false)
  = (newAssembler maxSize,
     Ok (mkItem (Item_Target fst) (Item_Source fst) (Item_Meta fst)
           (Some (mkData (buf +:+ part) "" (Data_OriginalError d0))) false, true)).
Proof.
  intros Hl Hs Hf. unfold Assembler_append, mid; simpl.
  change (Assembler_limit (mkAssembler maxSize uri true buf fst size))
    with (Assembler_limit (newAssembler maxSize)).
  destruct (Z.ltb_spec (Assembler_limit (newAssembler maxSize)) (len (buf +:+ part)));
    [lia|].
  rewrite Hs, Z.eqb_refl, andb_false_r. by rewrite Hf.
Qed.

(** Feeding the remaining chunks of an object that is in transfer. *)
Lemma feed_rest maxSize it d maxb fst full cs buf d0 :
  chunking it d maxb false full cs → Item_Data fst = Some d0 →
  Item_Target fst = Item_Target it → Item_Source fst = Item_Source it →
  len (buf +:+ full) ≤ Assembler_limit (newAssembler maxSize) →
  feed (mid maxSize (Item_LocURI it) buf fst (len (buf +:+ full))) cs
  = (newAssembler maxSize,
     replicate (length cs - 1) (Ok (Item0, false)) ++
     [Ok (mkItem (Item_Target it) (Item_Source it) (Item_Meta fst)
        (Some (mkData (buf +:+ full) "" (Data_OriginalError d0))) false, true)]).
Proof.
  intros Hc. remember false as b eqn:Eb. revert buf Eb.
  induction Hc as [first part|first part rest cs ?? Hrest Hcs IH];
    intros buf -> Hf Ht Hs Hl; simpl.
  - unfold Assembler_Add; simpl. rewrite chunk_LocURI, bool_decide_true by done. simpl.
    change (mkAssembler maxSize (Item_LocURI it) true) with (mid maxSize (Item_LocURI it)).
    erewrite append_last by done. by rewrite Ht, Hs.
  - unfold Assembler_Add; simpl. rewrite chunk_LocURI, bool_decide_true by done. simpl.
    change (mkAssembler maxSize (Item_LocURI it) true) with (mid maxSize (Item_LocURI it)).
    rewrite append_more; last first.
    { rewrite str_app_assoc, len_app in Hl. pose proof (len_nonneg rest). lia. }
    rewrite str_app_assoc in *. rewrite IH by done.
    destruct cs; [inversion Hcs|]. simpl. by rewrite Nat.sub_0_r.
Qed.

Lemma split_chunking it d n chunks :
  Item_Data it = Some d → Data_XML d = "" → n < len (Data_Value d) →
  SplitItem it n = Ok chunks →
  1 ≤ n ∧ Item_MoreData it = false ∧
  chunking it d (Z.to_nat n) true (Data_Value d) chunks.
Proof.
  intros Hd Hx Hn. unfold SplitItem. rewrite Hd.
  destruct (Z.ltb_spec n 1); [done|].
  rewrite bool_decide_true by done.
  destruct (Z.leb_spec (len (Data_Value d)) n); [lia|]. simpl.
  destruct (Item_MoreData it); [done|]. intros H'.
  split_and!; [lia|done|].
  eapply split_loop_chunking in H'; [done|done|].
  intros E. rewrite E in *. unfold len in *; simpl in *; lia.
Qed.

(** Splitting and reassembling give the object back. *)
Lemma split_feed it d n chunks maxSize :
  Item_Data it = Some d → Data_XML d = "" → n < len (Data_Value d) →
  len (Data_Value d) ≤ Assembler_limit (newAssembler maxSize) →
  SplitItem it n = Ok chunks →
  feed (newAssembler maxSize) chunks
  = (newAssembler maxSize,
     replicate (length chunks - 1) (Ok (Item0, false)) ++ [Ok (reassembled it d, true)]).
Proof.
  intros Hd Hx Hn Hl Hs.
  destruct (split_chunking _ _ _ _ Hd Hx Hn Hs) as (Hn1 & _ & Hc).
  inversion Hc as [first part Hp Hlen|first part rest cs Hp Hlen Hr Hcs]; subst.
  - unfold len in *. lia.
  - match goal with E : part +:+ rest = _ |- _ => rename E into Hv end.
    simpl. unfold Assembler_Add; simpl.
    destruct (Z.ltb_spec (Assembler_limit (newAssembler maxSize)) (len (Data_Value d))); [lia|].
    rewrite chunk_LocURI.
    change (mkAssembler maxSize (Item_LocURI it) true) with (mid maxSize (Item_LocURI it)).
    rewrite append_more; last first.
    { rewrite <- Hv, len_app in Hl. pose proof (len_nonneg rest).
      rewrite str_app_nil_l. lia. }
    rewrite str_app_nil_l.
    pose proof (feed_rest maxSize it d (Z.to_nat n)
      (chunk_of it d true part true) rest cs part
      (mkData part "" (Data_OriginalError d)) Hcs eq_refl eq_refl eq_refl) as Hf.
    rewrite Hv in Hf. rewrite Hf by done.
    destruct cs; [inversion Hcs|]. simpl. rewrite Nat.sub_0_r. done.
Qed.

(** ** When splitting succeeds

    [utf8_shape]: no more than three continuation bytes in a row, which every
    valid UTF-8 text satisfies. *)
Fixpoint conts_ok (run : nat) (s : string) : bool :=
  match s with
  | EmptyString => true
  | String c s =>
      if RuneStart c then conts_ok 0 s else (run <? 3)%nat && conts_ok (S run) s
  end.
Definition utf8_shape (s : string) : bool := conts_ok 0 s.

Lemma conts_ok_mono r r' s : (r' ≤ r)%nat → conts_ok r s = true → conts_ok r' s = true.
Proof.
  revert r r'; induction s as [|c s IH]; intros r r' Hr; simpl; [done|].
  destruct (RuneStart c); [done|]. rewrite !andb_true_iff, !Nat.ltb_lt.
  intros [? ?]. split; [lia|]. eapply IH; [|done]. lia.
Qed.

Lemma conts_ok_sdrop k r s : conts_ok r s = true → conts_ok 0 (sdrop k s) = true.
Proof.
  revert r s; induction k as [|k IH]; intros r s Hs.
  { eapply conts_ok_mono; [|done]. lia. }
  destruct s as [|c s]; [done|]. simpl in *.
  destruct (RuneStart c); [eapply IH; done|].
  apply andb_true_iff in Hs as [_ Hs]. by eapply IH.
Qed.

Lemma conts_ok_start s :
  conts_ok 0 s = true → (4 < String.length s)%nat →
  ∃ j b, (0 < j ≤ 4)%nat ∧ sget j s = Some b ∧ RuneStart b = true.
Proof.
  intros Hs Hl.
  destruct s as [|c0 [|c1 [|c2 [|c3 [|c4 s]]]]]; simpl in Hl; try lia.
  destruct (RuneStart c1) eqn:E1; [exists 1%nat, c1; split; [lia|split; [reflexivity|done]]|].
  destruct (RuneStart c2) eqn:E2; [exists 2%nat, c2; split; [lia|split; [reflexivity|done]]|].
  destruct (RuneStart c3) eqn:E3; [exists 3%nat, c3; split; [lia|split; [reflexivity|done]]|].
  destruct (RuneStart c4) eqn:E4; [exists 4%nat, c4; split; [lia|split; [reflexivity|done]]|].
  simpl in Hs. rewrite E1, E2, E3, E4 in Hs. destruct (RuneStart c0); simpl in Hs;
    by rewrite ?andb_false_r in Hs.
Qed.

Lemma rune_back_ge n s j b :
  (0 < j ≤ n)%nat → sget j s = Some b → RuneStart b = true → (j ≤ rune_back n s)%nat.
Proof.
  intros Hj Hb Hr. induction n as [|n IH]; [lia|]. simpl.
  destruct (decide (j = S n)) as [->|].
  - by rewrite Hb, Hr.
  - destruct (sget (S n) s) as [b'|]; [destruct (RuneStart b'); [lia|]|]; apply IH; lia.
Qed.

Lemma cut_len_pos maxb full :
  (4 ≤ maxb)%nat → full ≠ "" → conts_ok 0 full = true → (0 < cut_len maxb full)%nat.
Proof.
  intros Hm Hne Hs. unfold cut_len.
  destruct (Nat.leb_spec (String.length full) maxb).
  - destruct full; simpl; [done|lia].
  - destruct (conts_ok_start full) as (j & b & Hj & Hb & Hr); [done|lia|].
    pose proof (rune_back_ge maxb full j b ltac:(lia) Hb Hr). lia.
Qed.

Lemma split_loop_succeeds fuel it d maxb first full :
  (4 ≤ maxb)%nat → conts_ok 0 full = true →
  is_ok (split_loop fuel it d maxb first full) = true.
Proof.
  intros Hm. revert first full; induction fuel as [|fuel IH]; intros first full Hs.
  { by destruct full. }
  destruct full as [|c full]; [done|]. simpl split_loop. set (f := String c full) in *.
  pose proof (cut_len_pos maxb f Hm ltac:(done) Hs).
  destruct (Nat.eqb_spec (cut_len maxb f) 0); [lia|].
  specialize (IH false (sdrop (cut_len maxb f) f)).
  destruct (split_loop fuel it d maxb false _); [done|].
  apply IH. by eapply conts_ok_sdrop.
Qed.

(** ** The assembler never holds more than its limit *)

Definition Assembler_wf (a : Assembler) : Prop :=
  len (Asm_buf a) ≤ Assembler_limit a ∧
  (Asm_pending a = false → Asm_buf a = "" ∧ Asm_size a = 0) ∧
  (Asm_pending a = true → is_Some (Item_Data (Asm_first a))).

Lemma Assembler_limit_pos a : 0 < Assembler_limit a.
Proof.
  unfold Assembler_limit. destruct (Z.leb_spec (Asm_MaxSize a) 0); [|done].
  unfold DefaultMaxSize. rewrite Z.shiftl_mul_pow2; lia.
Qed.

Lemma newAssembler_wf m : Assembler_wf (newAssembler m).
Proof.
  split_and!; [|done..]. pose proof (Assembler_limit_pos (newAssembler m)).
  change (len (Asm_buf (newAssembler m))) with 0. lia.
Qed.

Lemma append_wf a it a' r :
  Asm_pending a = true → is_Some (Item_Data (Asm_first a)) →
  Assembler_append a it = (a', r) →
  Assembler_wf a' ∧ Asm_MaxSize a' = Asm_MaxSize a.
Proof.
  intros Hp Hf. unfold Assembler_append.
  repeat case_match; intros [= <- <-]; (split; [|done]); try apply newAssembler_wf.
  all: split_and!; simpl; try done; try congruence; btrue; done.
Qed.

Lemma Add_wf a it a' r :
  Assembler_wf a → Assembler_Add a it = (a', r) →
  Assembler_wf a' ∧ Asm_MaxSize a' = Asm_MaxSize a.
Proof.
  intros Hwf. unfold Assembler_Add.
  destruct (Asm_pending a) eqn:Ep; simpl.
  - destruct (bool_decide _); simpl.
    + intros H. eapply append_wf; [done| |done]. by apply Hwf.
    + intros [= <- <-]. split; [apply newAssembler_wf|done].
  - destruct (Item_MoreData it); simpl; [|by intros [= <- <-]].
    destruct (Item_Data it) as [d|] eqn:Ed; [|by intros [= <- <-]].
    destruct (match Item_Meta it with Some _ => _ | None => _ end).
    + intros [= <- <-]. split; [apply newAssembler_wf|done].
    + intros H. eapply append_wf in H; [|done|by eexists]. done.
Qed.

Lemma feed_wf a its a' rs :
  Assembler_wf a → feed a its = (a', rs) →
  Assembler_wf a' ∧ Asm_MaxSize a' = Asm_MaxSize a.
Proof.
  revert a rs; induction its as [|it its IH]; intros a rs Hwf; simpl.
  { by intros [= <- <-]. }
  destruct (Assembler_Add a it) as [a1 r] eqn:E1.
  destruct (feed a1 its) as [a2 rs'] eqn:E2. intros [= <- <-].
  apply Add_wf in E1 as [? <-]; [|done]. by eapply IH.
Qed.

(** ** Properties *)

(** An object that [SplitItem] cut into chunks, fed chunk by chunk to an
    [Assembler] whose limit it fits, yields "not done" for every chunk but the
    last, then the original item (data, addresses, Meta with Size set to the
    full length), and leaves the assembler reset. *)
Theorem split_reassemble it d n chunks maxSize :
  Item_Data it = Some d → Data_XML d = "" → n < len (Data_Value d) →
  len (Data_Value d) ≤ Assembler_limit (newAssembler maxSize) →
  SplitItem it n = Ok chunks →
  feed (newAssembler maxSize) chunks
  = (newAssembler maxSize,
     replicate (length chunks - 1) (Ok (Item0, false)) ++ [Ok (reassembled it d, true)]).
Proof. apply split_feed. Qed.

(** The chunks [SplitItem] returns for an oversized item concatenate to its
    value; each carries at least one and at most [n] bytes, keeps the item's
    addresses, and MoreData is set on all of them but the last. *)
Theorem split_chunks it d n chunks :
  Item_Data it = Some d → Data_XML d = "" → n < len (Data_Value d) →
  SplitItem it n = Ok chunks →
  str_concat (map item_value chunks) = Data_Value d ∧
  Forall (λ c, 0 < len (item_value c) ≤ n ∧
               Item_Target c = Item_Target it ∧ Item_Source c = Item_Source it) chunks ∧
  ∃ init z, chunks = init ++ [z] ∧ Forall (λ c, Item_MoreData c = true) init
            ∧ Item_MoreData z = false.
Proof.
  intros Hd Hx Hn Hs. destruct (split_chunking _ _ _ _ Hd Hx Hn Hs) as (Hn1 & _ & Hc).
  split_and!.
  - by eapply chunking_concat.
  - apply chunking_bound in Hc as Hb. apply chunking_addr in Hc as Ha.
    rewrite Forall_forall in *. intros c Hin.
    destruct (Hb c Hin) as [Hne ?]. specialize (Ha c Hin).
    split; [|done]. unfold len. destruct (item_value c); simpl in *; [done|lia].
  - by eapply chunking_moredata.
Qed.

(** With a limit of at least four bytes, [SplitItem] always succeeds on an
    item that is not itself a chunk and whose value has no run of more than
    three UTF-8 continuation bytes: the loop ends and never reports a chunk
    smaller than one character. *)
Theorem split_total it n :
  4 ≤ n → Item_MoreData it = false → utf8_shape (item_value it) = true →
  ∃ chunks, SplitItem it n = Ok chunks ∧ chunks ≠ [].
Proof.
  intros Hn Hm Hu. unfold SplitItem. destruct (Z.ltb_spec n 1); [lia|].
  unfold item_value in Hu. destruct (Item_Data it) as [d|]; [|by exists [it]].
  destruct (_ || _) eqn:E; [by exists [it]|]. rewrite Hm.
  apply orb_false_iff in E as [_ E]. apply Z.leb_gt in E.
  pose proof (split_loop_succeeds (String.length (Data_Value d)) it d (Z.to_nat n) true
    (Data_Value d) ltac:(lia) Hu) as Hok.
  destruct (split_loop _ _ _ _ _ _) as [chunks|] eqn:Es; [|done].
  exists chunks. split; [done|]. intros ->.
  apply split_loop_chunking in Es; [by inversion Es|done|].
  intros Ev. rewrite Ev in E. unfold len in E; simpl in E. lia.
Qed.

(** Whatever items a peer sends, an assembler never buffers more than its
    limit, and it holds no bytes of an object while none is pending. *)
Theorem assembler_bounded maxSize its a rs :
  feed (newAssembler maxSize) its = (a, rs) →
  len (Asm_buf a) ≤ Assembler_limit (newAssembler maxSize) ∧
  (Assembler_Pending a = false → Asm_buf a = "").
Proof.
  intros H. destruct (feed_wf _ _ _ _ (newAssembler_wf maxSize) H) as [(Hl & He & _) Hm].
  split; [|by intros [? _]%He]. revert Hl. unfold Assembler_limit. by rewrite Hm.
Qed.

(** ** Witnesses *)

Definition sample_item : Item :=
  mkItem "./Vendor/MSFT/Policy" "" (Some (mkMeta "chr" "" "" 0 "" 0 0))
    (Some (mkData "abcdefghij" "" "")) false.
Definition sample_chunks : list Item :=
  match SplitItem sample_item 4 with Ok cs => cs | Err _ => [] end.

Lemma split_reassemble_witness :
  length sample_chunks = 3%nat ∧
  feed (newAssembler 64) sample_chunks
  = (newAssembler 64, replicate (length sample_chunks - 1) (Ok (Item0, false)) ++
      [Ok (reassembled sample_item (mkData "abcdefghij" "" ""), true)]).
Proof.
  split; [reflexivity|].
  apply (split_reassemble sample_item (mkData "abcdefghij" "" "") 4);
    [reflexivity|reflexivity|reflexivity|vm_compute; discriminate|reflexivity].
Defined.

Lemma split_chunks_witness :
  str_concat (map item_value sample_chunks) = "abcdefghij".
Proof.
  refine (proj1 (split_chunks sample_item (mkData "abcdefghij" "" "") 4 sample_chunks
    _ _ _ _)); reflexivity.
Defined.

Lemma split_total_witness : ∃ chunks, SplitItem sample_item 4 = Ok chunks ∧ chunks ≠ [].
Proof. apply split_total; [lia|reflexivity|reflexivity]. Defined.

Lemma assembler_bounded_witness :
  len (Asm_buf (fst (feed (newAssembler 8) sample_chunks))) ≤ 8.
Proof.
  refine (proj1 (assembler_bounded 8 sample_chunks _
    (snd (feed (newAssembler 8) sample_chunks)) _)). reflexivity.
Defined.
