(* ===== verification/Validate.v ===== *)
(** * Message validation

    mdmprotocol/syncml/validate.go: the rules a session engine relies on
    before acting on a decoded message.  [Validate] walks the message once,
    collecting every broken rule and remembering the CmdIDs it has seen; the
    main theorem says it reports nothing exactly for the messages that obey
    the documented rules. *)
From stdpp Require Import base gmap strings list.
From Stdlib Require Import ZArith Lia Ascii.
From S2P Require Import Prelude GoStrings GoUrl SyncmlModel.

Local Open Scope Z_scope.

(** [CheckLocURI]. *)
Definition CheckLocURI (uri : string) : result unit :=
  if decide (uri = "") then Err []
  else if HasPrefix uri "/" then Err []
  else
    let path := match cut_byte "?"%char uri with Some (p, _) => p | None => uri end in
    if existsb (λ seg, bool_decide (seg = "") || bool_decide (seg = "*"))
         (split_byte "/"%char path)
    then Err []
    else Ok tt.

(** [ChildNodes]: a piece that does not unescape is kept as it is. *)
Definition ChildNodes (data : string) : list string :=
  if decide (TrimSpace data = "") then []
  else omap (λ p, if decide (p = "") then None else Some (default p (PathUnescape p)))
         (split_byte "/"%char (TrimSpace data)).

(** [type ValidationError struct]: the rule and where it was broken. *)
Record ValidationError := mkValidationError { VE_Rule : sentinel; VE_Path : string }.

(** [func (e *ValidationError) Unwrap() []error]. *)
Definition ValidationError_Unwrap (e : ValidationError) : error :=
  [syncml_ErrInvalid; VE_Rule e].

(** [type validator struct]: [ids] maps a CmdID to the path of its first use. *)
Record validator := mkValidator {
  v_errs : list ValidationError;
  v_ids : gmap string string }.

Definition v_fail (rule : sentinel) (path : string) (v : validator) : validator :=
  mkValidator (v_errs v ++ [mkValidationError rule path]) (v_ids v).

(** [if cond { v.fail(rule, path) }] *)
Definition v_when (cond : bool) (rule : sentinel) (path : string) (v : validator)
    : validator := if cond then v_fail rule path v else v.

Definition str_empty (s : string) : bool := bool_decide (s = "").

Definition v_cred (c : Cred) (path : string) (v : validator) : validator :=
  let ty := Meta_Type (Cred_Meta c) in
  let v := v_when (negb (bool_decide (ty = AuthBasic)) && negb (bool_decide (ty = AuthMD5)))
             syncml_ErrAuth (path +:+ "/Meta/Type") v in
  v_when (str_empty (Cred_Data c)) syncml_ErrAuth (path +:+ "/Data") v.

(** [if c != nil { v.cred(c, path) }] *)
Definition v_opt_cred (c : option Cred) (path : string) (v : validator) : validator :=
  match c with Some c => v_cred c path v | None => v end.

Definition v_meta (m : Meta) (path : string) (v : validator) : validator :=
  v_when (negb (str_empty (Meta_Format m)) && negb (KnownFormat (Meta_Format m)))
    syncml_ErrFormat (path +:+ "/Format") v.

(** [if m != nil { v.meta(m, path) }] *)
Definition v_opt_meta (m : option Meta) (path : string) (v : validator) : validator :=
  match m with Some m => v_meta m path v | None => v end.

(** [if n, err := strconv.Atoi(s); err != nil || n < 1] *)
Definition not_positive (s : string) : bool :=
  match Atoi s with Some n => n <? 1 | None => true end.

Definition v_header (h : Header) (ns : string) (v : validator) : validator :=
  let v := v_when (negb (bool_decide (ns = NamespaceSyncML12)) &&
                   negb (bool_decide (ns = NamespaceSyncML11)))
             syncml_ErrVersion "SyncML" v in
  let v := v_when (negb (bool_decide (Hdr_VerDTD h = VerDTD)))
             syncml_ErrVersion "SyncHdr/VerDTD" v in
  let v := v_when (negb (bool_decide (Hdr_VerProto h = VerProto)))
             syncml_ErrVersion "SyncHdr/VerProto" v in
  let v := v_when (str_empty (Hdr_SessionID h)) syncml_ErrSessionID "SyncHdr/SessionID" v in
  let v := v_when (not_positive (Hdr_MsgID h)) syncml_ErrMsgID "SyncHdr/MsgID" v in
  let v := v_when (str_empty (LocURI (Hdr_Target h))) syncml_ErrRouting
             "SyncHdr/Target/LocURI" v in
  let v := v_when (str_empty (LocURI (Hdr_Source h))) syncml_ErrRouting
             "SyncHdr/Source/LocURI" v in
  let v := v_opt_cred (Hdr_Cred h) "SyncHdr/Cred" v in
  v_opt_meta (Hdr_Meta h) "SyncHdr/Meta" v.

(** [fmt.Sprintf("%s/%s[%s]", path, c.Name(), id)] *)
Definition command_path (c : Command) (path : string) : string :=
  path +:+ "/" +:+ Command_Name c +:+ "[" +:+ Command_ID c +:+ "]".

(** [fmt.Sprintf("%s/Item[%d]", path, i)] *)
Definition item_path (path : string) (i : Z) : string :=
  path +:+ "/Item[" +:+ Itoa i +:+ "]".

Definition v_cmdID (c : Command) (path : string) (v : validator) : validator :=
  let id := Command_ID c in
  let p := command_path c path in
  if str_empty id || bool_decide (id = "0") then v_fail syncml_ErrCmdID p v
  else match v_ids v !! id with
  | Some _ => v_fail syncml_ErrDuplicateCmdID p v
  | None => mkValidator (v_errs v) (<[id := p]> (v_ids v))
  end.

(** The body of the loop over items. *)
Definition v_item (it : Item) (ip : string) (v : validator) : validator :=
  let uri := Item_LocURI it in
  let v := if str_empty uri then v_fail syncml_ErrLocURI ip v
           else v_when (negb (is_ok (CheckLocURI uri))) syncml_ErrLocURI ip v in
  let v := v_opt_meta (Item_Meta it) (ip +:+ "/Meta") v in
  v_when (match Item_Data it with
          | Some d => negb (str_empty (Data_Value d)) && negb (str_empty (Data_XML d))
          | None => false
          end) syncml_ErrItems (ip +:+ "/Data") v.

(** [for i := range l]: the loop body with the index of the element. *)
Fixpoint v_range {A} (f : Z → A → validator → validator) (i : Z) (l : list A)
    (v : validator) : validator :=
  match l with
  | [] => v
  | a :: l => v_range f (i + 1) l (f i a v)
  end.

Definition v_items (items : list Item) (path : string) (minItems maxItems : Z)
    (v : validator) : validator :=
  let n := Z.of_nat (length items) in
  let v := v_when (n <? minItems) syncml_ErrItems path v in
  let v := v_when ((0 <? maxItems) && (maxItems <? n)) syncml_ErrItems path v in
  v_range (λ i it, v_item it (item_path path i)) 0 items v.

(** [for i := range n.Items { if Meta != nil { v.meta(...) } }] *)
Definition v_item_metas (items : list Item) (p : string) (v : validator) : validator :=
  v_range (λ i it, v_opt_meta (Item_Meta it) (item_path p i +:+ "/Meta")) 0 items v.

(** [if code == AlertClientEvent || code == AlertGeneric { ... }] *)
Definition v_alert_event (event : bool) (items : list Item) (p : string) (v : validator)
    : validator :=
  if event then
    let v := v_when (bool_decide (items = [])) syncml_ErrItems p v in
    v_range (λ i it,
      v_when (match Item_Meta it with
              | None => true
              | Some m => str_empty (Meta_Type m)
              end) syncml_ErrItems (item_path p i +:+ "/Meta/Type"))
      0 items v
  else v.

Definition v_alert (n : Alert) (p : string) (v : validator) : validator :=
  let code := Alert_Code n in
  let v := v_when (negb (is_ok (ParseAlertCode (Alert_Data n))) ||
                   negb (AlertCode_Known code)) syncml_ErrAlertCode (p +:+ "/Data") v in
  let v := v_alert_event ((code =? AlertClientEvent) || (code =? AlertGeneric))
             (Alert_Items n) p v in
  v_item_metas (Alert_Items n) p v.

Definition statusCmdNames : list string :=
  [CmdSyncHdr; CmdAdd; CmdAlert; CmdAtomic; CmdDelete; CmdExec; CmdGet; CmdReplace;
   CmdResults; CmdSequence; CmdStatus].

Definition v_status (n : Status) (p : string) (v : validator) : validator :=
  let v := v_when (str_empty (Status_MsgRef n)) syncml_ErrStatusRef (p +:+ "/MsgRef") v in
  let v := v_when (str_empty (Status_CmdRef n)) syncml_ErrStatusRef (p +:+ "/CmdRef") v in
  let v := v_when (negb (bool_decide (Status_Cmd n ∈ statusCmdNames)))
             syncml_ErrStatusRef (p +:+ "/Cmd") v in
  let v := v_when (bool_decide (Status_CmdRef n = "0") &&
                   negb (bool_decide (Status_Cmd n = CmdSyncHdr)))
             syncml_ErrStatusRef (p +:+ "/Cmd") v in
  let v := v_when (negb (is_ok (ParseStatusCode (Data_Value (Status_Data n)))))
             syncml_ErrStatusCode (p +:+ "/Data") v in
  let v := v_when (match Status_Chal n with
                   | Some ch => negb (bool_decide (Meta_Type (Chal_Meta ch) = AuthBasic))
                                && negb (bool_decide (Meta_Type (Chal_Meta ch) = AuthMD5))
                   | None => false
                   end) syncml_ErrAuth (p +:+ "/Chal/Meta/Type") v in
  let v := v_opt_cred (Status_Cred n) (p +:+ "/Cred") v in
  v_item_metas (Status_Items n) p v.

Definition v_results (n : Results) (p : string) (v : validator) : validator :=
  let v := v_when (str_empty (Results_CmdRef n)) syncml_ErrStatusRef (p +:+ "/CmdRef") v in
  let v := v_when (negb (str_empty (Results_MsgRef n)) && not_positive (Results_MsgRef n))
             syncml_ErrStatusRef (p +:+ "/MsgRef") v in
  let v := v_items (Results_Items n) p 1 0 v in
  v_opt_meta (Results_Meta n) (p +:+ "/Meta") v.

(** [atomicAddReplace]: [added] is the set of nodes an Add named so far. *)
Fixpoint v_replace_items (added : gset string) (path : string) (its : list Item)
    (v : validator) : validator :=
  match its with
  | [] => v
  | it :: its =>
      v_replace_items added path its
        (v_when (bool_decide (Item_LocURI it ∈ added))
           syncml_ErrAtomicAddThenReplace path v)
  end.

Fixpoint v_atomicAddReplace (added : gset string) (cmds : list Command)
    (path : string) (v : validator) : validator :=
  match cmds with
  | [] => v
  | CAdd n :: cmds =>
      v_atomicAddReplace (added ∪ list_to_set (map Item_LocURI (Add_Items n))) cmds path v
  | CReplace n :: cmds =>
      v_atomicAddReplace added cmds path
        (v_replace_items added (path +:+ "/Replace[" +:+ Replace_CmdID n +:+ "]")
           (Replace_Items n) v)
  | _ :: cmds => v_atomicAddReplace added cmds path v
  end.

(** [func (v *validator) command(c Command, path string, inAtomic bool)]. *)
Fixpoint v_command (c : Command) (path : string) (inAtomic : bool) (v : validator)
    : validator :=
  let v := v_cmdID c path v in
  let p := command_path c path in
  let each := fix each (cs : list Command) (inAtomic : bool) (v : validator) : validator :=
    match cs with
    | [] => v
    | c :: cs => each cs inAtomic (v_command c p inAtomic v)
    end in
  match c with
  | CAdd n => v_opt_meta (Add_Meta n) (p +:+ "/Meta") (v_items (Add_Items n) p 1 0 v)
  | CReplace n =>
      v_opt_meta (Replace_Meta n) (p +:+ "/Meta") (v_items (Replace_Items n) p 1 0 v)
  | CDelete n => v_items (Delete_Items n) p 1 0 v
  | CGet n => v_when inAtomic syncml_ErrAtomicGet p (v_items (Get_Items n) p 1 0 v)
  | CExec n => v_items (Exec_Items n) p 1 1 v
  | CAlert n => v_alert n p v
  | CAtomic _ _ _ cmds =>
      let v := v_when inAtomic syncml_ErrAtomicNested p v in
      let v := v_when (bool_decide (length cmds = 0%nat)) syncml_ErrItems p v in
      each cmds true (v_atomicAddReplace ∅ cmds p v)
  | CSequence _ _ _ cmds =>
      each cmds inAtomic (v_when (bool_decide (length cmds = 0%nat)) syncml_ErrItems p v)
  | CStatus n => v_status n p v
  | CResults n => v_results n p v
  end.

Fixpoint v_commands (cs : list Command) (path : string) (inAtomic : bool)
    (v : validator) : validator :=
  match cs with
  | [] => v
  | c :: cs => v_commands cs path inAtomic (v_command c path inAtomic v)
  end.

Definition v_body (b : Body) (v : validator) : validator :=
  let v := v_when (bool_decide (length (Body_Commands b) = 0%nat)) syncml_ErrEmptyBody
             "SyncBody" v in
  v_commands (Body_Commands b) "SyncBody" false v.

(** [Validate]: the collected errors; the empty list is Go's nil. *)
Definition Validate (m : Message) : list ValidationError :=
  v_errs (v_body (Msg_Body m)
            (v_header (Msg_Header m) (Msg_Namespace m) (mkValidator [] ∅))).

(** [errors.Join(v.errs...)] as an error value. *)
Definition Validate_error (m : Message) : error :=
  concat (map ValidationError_Unwrap (Validate m)).

(** ** The documented rules *)

Definition meta_ok (m : option Meta) : Prop :=
  match m with
  | Some m => Meta_Format m = "" ∨ Meta_Format m ∈ knownFormats
  | None => True
  end.

Definition auth_type_ok (ty : string) : Prop := ty = AuthBasic ∨ ty = AuthMD5.

Definition cred_ok (c : option Cred) : Prop :=
  match c with
  | Some c => auth_type_ok (Meta_Type (Cred_Meta c)) ∧ Cred_Data c ≠ ""
  | None => True
  end.

(** A positive decimal integer within 64 bits. *)
Definition positive_int (s : string) : Prop := ∃ n, Atoi s = Some n ∧ 1 ≤ n.

Definition header_ok (ns : string) (h : Header) : Prop :=
  (ns = NamespaceSyncML12 ∨ ns = NamespaceSyncML11) ∧
  Hdr_VerDTD h = VerDTD ∧ Hdr_VerProto h = VerProto ∧
  Hdr_SessionID h ≠ "" ∧ positive_int (Hdr_MsgID h) ∧
  LocURI (Hdr_Target h) ≠ "" ∧ LocURI (Hdr_Source h) ≠ "" ∧
  cred_ok (Hdr_Cred h) ∧ meta_ok (Hdr_Meta h).

Definition item_ok (it : Item) : Prop :=
  CheckLocURI (Item_LocURI it) = Ok tt ∧ meta_ok (Item_Meta it) ∧
  match Item_Data it with
  | Some d => Data_Value d = "" ∨ Data_XML d = ""
  | None => True
  end.

Definition alert_ok (n : Alert) : Prop :=
  ParseAlertCode (Alert_Data n) = Ok (Alert_Code n) ∧
  AlertCode_Known (Alert_Code n) = true ∧
  ((Alert_Code n = AlertClientEvent ∨ Alert_Code n = AlertGeneric) →
     Alert_Items n ≠ [] ∧
     Forall (λ it, ∃ m, Item_Meta it = Some m ∧ Meta_Type m ≠ "") (Alert_Items n)) ∧
  Forall (λ it, meta_ok (Item_Meta it)) (Alert_Items n).

Definition status_ok (n : Status) : Prop :=
  Status_MsgRef n ≠ "" ∧ Status_CmdRef n ≠ "" ∧ Status_Cmd n ∈ statusCmdNames ∧
  (Status_CmdRef n = "0" → Status_Cmd n = CmdSyncHdr) ∧
  is_ok (ParseStatusCode (Data_Value (Status_Data n))) = true ∧
  match Status_Chal n with
  | Some ch => auth_type_ok (Meta_Type (Chal_Meta ch))
  | None => True
  end ∧
  cred_ok (Status_Cred n) ∧ Forall (λ it, meta_ok (Item_Meta it)) (Status_Items n).

Definition results_ok (n : Results) : Prop :=
  Results_CmdRef n ≠ "" ∧ (Results_MsgRef n = "" ∨ positive_int (Results_MsgRef n)) ∧
  Results_Items n ≠ [] ∧ Forall item_ok (Results_Items n) ∧ meta_ok (Results_Meta n).

(** Of the commands of an Atomic, none replaces a node that one in front of
    it adds. *)
Definition no_add_replace (cmds : list Command) : Prop :=
  ∀ l1 a l2 r l3, cmds = l1 ++ CAdd a :: l2 ++ CReplace r :: l3 →
    ∀ it it', it ∈ Add_Items a → it' ∈ Replace_Items r → Item_LocURI it ≠ Item_LocURI it'.

Fixpoint command_ok (inAtomic : bool) (c : Command) : Prop :=
  let all := fix all (inAtomic : bool) (cs : list Command) : Prop :=
    match cs with
    | [] => True
    | c :: cs => command_ok inAtomic c ∧ all inAtomic cs
    end in
  match c with
  | CAdd n => Add_Items n ≠ [] ∧ Forall item_ok (Add_Items n) ∧ meta_ok (Add_Meta n)
  | CReplace n =>
      Replace_Items n ≠ [] ∧ Forall item_ok (Replace_Items n) ∧ meta_ok (Replace_Meta n)
  | CDelete n => Delete_Items n ≠ [] ∧ Forall item_ok (Delete_Items n)
  | CGet n => inAtomic = false ∧ Get_Items n ≠ [] ∧ Forall item_ok (Get_Items n)
  | CExec n => ∃ it, Exec_Items n = [it] ∧ item_ok it
  | CAlert n => alert_ok n
  | CAtomic _ _ _ cs =>
      inAtomic = false ∧ cs ≠ [] ∧ no_add_replace cs ∧ all true cs
  | CSequence _ _ _ cs => cs ≠ [] ∧ all inAtomic cs
  | CStatus n => status_ok n
  | CResults n => results_ok n
  end.

(** CmdIDs: present, not "0", pairwise different and outside [S]. *)
Definition ids_fresh (S : gset string) (ids : list string) : Prop :=
  NoDup ids ∧ Forall (λ i, i ≠ "" ∧ i ≠ "0" ∧ i ∉ S) ids.

Definition message_ok (m : Message) : Prop :=
  let cmds := Body_Commands (Msg_Body m) in
  header_ok (Msg_Namespace m) (Msg_Header m) ∧ cmds ≠ [] ∧
  Forall (command_ok false) cmds ∧ ids_fresh ∅ (map Command_ID (flatten_all cmds)).

(** ** Proof: a small algebra of checks

    [checks f P ids]: running [f] appends errors, none exactly when [P] holds
    and [ids] are fresh, and then [ids] are the CmdIDs it has recorded. *)
Definition checks (f : validator → validator) (P : Prop) (ids : list string) : Prop :=
  ∀ v, ∃ e, v_errs (f v) = v_errs v ++ e ∧
    (e = [] ↔ P ∧ ids_fresh (dom (v_ids v)) ids) ∧
    (e = [] → dom (v_ids (f v)) = dom (v_ids v) ∪ list_to_set ids).

Lemma ids_fresh_nil S : ids_fresh S [].
Proof. split; constructor. Qed.
#[local] Hint Resolve ids_fresh_nil : dm.

Lemma ids_fresh_app S l k :
  ids_fresh S (l ++ k) ↔ ids_fresh S l ∧ ids_fresh (S ∪ list_to_set l) k.
Proof.
  unfold ids_fresh. rewrite NoDup_app, Forall_app, !Forall_forall. split.
  - intros ([Hl [Hd Hk]] & HL & HK). split_and!; [done..|].
    intros i Hi. destruct (HK i Hi) as (? & ? & ?). split_and!; [done..|].
    rewrite not_elem_of_union, elem_of_list_to_set. split; [done|].
    intros ?. by eapply Hd.
  - intros ([Hl HL] & Hk & HK). split_and!; [done| |done|done|].
    + intros i Hi Hi'. destruct (HK i Hi') as (_ & _ & Hn).
      rewrite not_elem_of_union, elem_of_list_to_set in Hn. tauto.
    + intros i Hi. destruct (HK i Hi) as (? & ? & Hn).
      rewrite not_elem_of_union in Hn. tauto.
Qed.

Lemma checks_id : checks (λ v, v) True [].
Proof.
  intros v. exists []. rewrite app_nil_r. split_and!; [done| |set_solver].
  split; [|done]. auto with dm.
Qed.

Lemma checks_when cond rule path (P : Prop) :
  (cond = false ↔ P) → checks (v_when cond rule path) P [].
Proof.
  intros HP v. unfold v_when, v_fail. destruct cond.
  - exists [mkValidationError rule path]. split_and!; [done| |done].
    split; [done|]. intros [?%HP _]. done.
  - exists []. rewrite app_nil_r. split_and!; [done| |set_solver].
    split; [|done]. intros _. split; [by apply HP|auto with dm].
Qed.

Lemma checks_seq f g P Q l k :
  checks f P l → checks g Q k → checks (λ v, g (f v)) (P ∧ Q) (l ++ k).
Proof.
  intros Hf Hg v. destruct (Hf v) as (e1 & E1 & I1 & D1).
  destruct (Hg (f v)) as (e2 & E2 & I2 & D2).
  exists (e1 ++ e2). rewrite E2, E1, app_assoc. split; [done|].
  rewrite app_nil, ids_fresh_app. split.
  - split.
    + intros [-> ->]. destruct (proj1 I1 eq_refl) as [? ?].
      destruct (proj1 I2 eq_refl) as [? Hk]. rewrite D1 in Hk by done. done.
    + intros [[HP HQ] [Hl Hk]]. assert (e1 = []) as -> by by apply I1.
      split; [done|]. apply I2. by rewrite D1.
  - intros [-> ->]. rewrite D2, D1 by done. rewrite list_to_set_app_L. set_solver.
Qed.

Lemma checks_weaken f P Q l : (P ↔ Q) → checks f P l → checks f Q l.
Proof. intros HPQ Hf v. destruct (Hf v) as (e & ? & HI & ?). exists e.
  split_and!; [done| |done]. by rewrite <- HPQ. Qed.

Lemma checks_ext f g P l : (∀ v, f v = g v) → checks f P l → checks g P l.
Proof. intros Hfg Hf v. rewrite <- !Hfg. apply Hf. Qed.

(** Two checks that record no CmdID. *)
Lemma checks_then f g P Q :
  checks f P [] → checks g Q [] → checks (λ v, g (f v)) (P ∧ Q) [].
Proof. apply (checks_seq f g P Q [] []). Qed.

Lemma checks_range {A} (f : Z → A → validator → validator) (P : A → Prop) l i :
  (∀ i a, checks (f i a) (P a) []) → checks (v_range f i l) (Forall P l) [].
Proof.
  intros Hf. revert i; induction l as [|a l IH]; intros i; simpl.
  - eapply checks_weaken, checks_id. split; [constructor|done].
  - eapply checks_weaken; [symmetry; apply Forall_cons|].
    apply checks_then; [apply Hf|apply IH].
Qed.

Lemma str_empty_false s : str_empty s = false ↔ s ≠ "".
Proof. apply bool_decide_eq_false. Qed.

Lemma not_positive_false s : not_positive s = false ↔ positive_int s.
Proof.
  unfold not_positive, positive_int. destruct (Atoi s) as [n|].
  - rewrite Z.ltb_ge. naive_solver.
  - naive_solver.
Qed.

Lemma auth_type_false ty :
  negb (bool_decide (ty = AuthBasic)) && negb (bool_decide (ty = AuthMD5)) = false
  ↔ auth_type_ok ty.
Proof.
  rewrite andb_false_iff, !negb_false_iff, !bool_decide_eq_true. done.
Qed.

Lemma checks_opt_meta m path : checks (v_opt_meta m path) (meta_ok m) [].
Proof.
  destruct m as [m|]; [|apply checks_id]. apply checks_when. simpl.
  unfold KnownFormat, str_empty.
  rewrite andb_false_iff, !negb_false_iff, !bool_decide_eq_true. done.
Qed.

(** Split a chain of checks into its links; each test contributes the equation
    "it was false", which [rules] turns into the documented rule. *)
Ltac link :=
  cbv beta zeta;
  match goal with
  | |- checks (λ v, v) _ _ => apply checks_id
  | |- checks (λ v, ?g v) _ _ => change (λ v, g v) with g
  | |- checks (λ v, ?g (@?f v)) _ _ => eapply (checks_then f g)
  end.

Lemma checks_opt_cred c path :
  checks (v_opt_cred c path) (cred_ok c) [].
Proof.
  destruct c as [c|]; [|apply checks_id].
  change (checks (v_cred c path) (cred_ok (Some c)) []). unfold v_cred. link; apply checks_when; [apply auth_type_false|apply str_empty_false].
Qed.

Lemma CheckLocURI_is_ok u : is_ok (CheckLocURI u) = true ↔ CheckLocURI u = Ok tt.
Proof. destruct (CheckLocURI u) as [[]|]; done. Qed.

Lemma checks_locuri uri ip :
  checks (λ v, if str_empty uri then v_fail syncml_ErrLocURI ip v
               else v_when (negb (is_ok (CheckLocURI uri))) syncml_ErrLocURI ip v)
    (CheckLocURI uri = Ok tt) [].
Proof.
  destruct (str_empty uri) eqn:E.
  - apply (checks_when true). unfold str_empty in E. apply bool_decide_eq_true in E as ->.
    done.
  - apply checks_when. by rewrite negb_false_iff, CheckLocURI_is_ok.
Qed.

Ltac chain := repeat first [apply checks_opt_meta | apply checks_opt_cred
  | apply checks_locuri | apply checks_when, iff_refl | link].
Ltac rules :=
  rewrite ?auth_type_false, ?str_empty_false, ?andb_false_iff,
    ?negb_false_iff, ?bool_decide_eq_true, ?bool_decide_eq_false, ?Z.ltb_ge,
    ?not_positive_false.

Lemma checks_item it ip : checks (v_item it ip) (item_ok it) [].
Proof.
  unfold v_item, item_ok. eapply checks_weaken; cycle 1; [chain|].
  destruct (Item_Data it) as [d|]; [|tauto]. unfold str_empty. rules. tauto.
Qed.

Lemma checks_items items path maxItems :
  checks (v_items items path 1 maxItems)
    (items ≠ [] ∧ (0 < maxItems → Z.of_nat (length items) ≤ maxItems) ∧
     Forall item_ok items) [].
Proof.
  unfold v_items. eapply checks_weaken; cycle 1.
  { link; [chain|]. apply checks_range. intros. apply checks_item. }
  rules. split.
  - intros [[H1 H2] H3]. split_and!; [by destruct items; simpl in *; [lia|]|lia|done].
  - intros (H1 & H2 & H3). split_and!; [|lia|done]. destruct items; simpl; [done|lia].
Qed.

(** One or more items, no upper bound. *)
Lemma checks_items_some items path :
  checks (v_items items path 1 0) (items ≠ [] ∧ Forall item_ok items) [].
Proof. eapply checks_weaken, checks_items. naive_solver lia. Qed.

Lemma checks_item_metas items p :
  checks (v_item_metas items p) (Forall (λ it, meta_ok (Item_Meta it)) items) [].
Proof. apply checks_range. intros. apply checks_opt_meta. Qed.

Lemma checks_header ns h : checks (v_header h ns) (header_ok ns h) [].
Proof.
  unfold v_header, header_ok. eapply checks_weaken; cycle 1; [chain|]. rules. tauto.
Qed.

Lemma checks_alert_event ev items p :
  checks (v_alert_event ev items p)
    (ev = true → items ≠ [] ∧
       Forall (λ it, ∃ m, Item_Meta it = Some m ∧ Meta_Type m ≠ "") items) [].
Proof.
  destruct ev; [|eapply checks_weaken, checks_id; done].
  unfold v_alert_event. eapply checks_weaken; cycle 1.
  { link; [chain|]. apply checks_range. intros i it.
    eapply (checks_when _ _ _ (∃ m, Item_Meta it = Some m ∧ Meta_Type m ≠ "")).
    destruct (Item_Meta it) as [m|]; [|naive_solver].
    rewrite str_empty_false. naive_solver. }
  rules. tauto.
Qed.

Lemma checks_alert n p : checks (v_alert n p) (alert_ok n) [].
Proof.
  unfold v_alert, alert_ok. eapply checks_weaken; cycle 1.
  { link; [link|apply checks_item_metas]; [chain|apply checks_alert_event]. }
  unfold Alert_Code. rewrite orb_false_iff, !negb_false_iff, orb_true_iff, !Z.eqb_eq.
  destruct (ParseAlertCode (Alert_Data n)); simpl; naive_solver.
Qed.

Lemma checks_status n p : checks (v_status n p) (status_ok n) [].
Proof.
  unfold v_status, status_ok. eapply checks_weaken; cycle 1.
  { link; [chain|apply checks_item_metas]. }
  rules.
  assert (∀ a b : Prop, Decision a → (¬ a ∨ b ↔ (a → b))) as Himp
    by (intros a b [?|?]; tauto).
  rewrite Himp by apply _.
  destruct (Status_Chal n) as [ch|]; rules; tauto.
Qed.

Lemma checks_results n p : checks (v_results n p) (results_ok n) [].
Proof.
  unfold v_results, results_ok. eapply checks_weaken; cycle 1.
  { link; [link|apply checks_opt_meta]; [chain|apply checks_items_some]. }
  unfold str_empty. rules. tauto.
Qed.

Lemma checks_replace_items added path its :
  checks (v_replace_items added path its)
    (Forall (λ it, Item_LocURI it ∉ added) its) [].
Proof.
  induction its as [|it its IH]; simpl.
  - eapply checks_weaken, checks_id. by rewrite Forall_nil.
  - eapply checks_weaken; cycle 1; [link; [chain|apply IH]|].
    rules. by rewrite Forall_cons.
Qed.

(** The walk of [atomicAddReplace], with the nodes added so far. *)
Fixpoint no_add_replace_from (added : gset string) (cmds : list Command) : Prop :=
  match cmds with
  | [] => True
  | CAdd n :: cmds =>
      no_add_replace_from (added ∪ list_to_set (map Item_LocURI (Add_Items n))) cmds
  | CReplace n :: cmds =>
      Forall (λ it, Item_LocURI it ∉ added) (Replace_Items n) ∧ no_add_replace_from added cmds
  | _ :: cmds => no_add_replace_from added cmds
  end.

Definition no_replace_of (added : gset string) (cmds : list Command) : Prop :=
  ∀ l1 r l3, cmds = l1 ++ CReplace r :: l3 → Forall (λ it, Item_LocURI it ∉ added) (Replace_Items r).

Lemma no_replace_of_cons added c cmds :
  no_replace_of added (c :: cmds) ↔
  (∀ r, c = CReplace r → Forall (λ it, Item_LocURI it ∉ added) (Replace_Items r)) ∧
  no_replace_of added cmds.
Proof.
  unfold no_replace_of. split.
  - intros H. split; [intros r ->; by apply (H [] r cmds)|]. intros l1 r l3 ->.
    by apply (H (c :: l1) r l3).
  - intros [Hc H] [|c' l1] r l3 E; injection E as -> ->; [by apply Hc|by eapply H].
Qed.

Lemma no_replace_of_union A B cmds :
  no_replace_of (A ∪ B) cmds ↔ no_replace_of A cmds ∧ no_replace_of B cmds.
Proof.
  unfold no_replace_of. setoid_rewrite Forall_forall. setoid_rewrite not_elem_of_union. split.
  - intros H. split; intros l1 r l3 E it Hit; by apply (H l1 r l3 E it Hit).
  - intros [HA HB] l1 r l3 E it Hit. split; eauto.
Qed.

Lemma no_add_replace_cons c cmds :
  no_add_replace (c :: cmds) ↔
  (∀ a, c = CAdd a → no_replace_of (list_to_set (map Item_LocURI (Add_Items a))) cmds) ∧
  no_add_replace cmds.
Proof.
  unfold no_add_replace, no_replace_of. split.
  - intros H. split.
    + intros a -> l1 r l3 ->. apply Forall_forall. intros it' Hit'.
      rewrite elem_of_list_to_set, list_elem_of_fmap. intros (it & E & Hit).
      by apply (H [] a l1 r l3 eq_refl it it').
    + intros l1 a l2 r l3 ->. by apply (H (c :: l1) a l2 r l3).
  - intros [Hc H] [|c' l1] a l2 r l3 E; injection E as -> ->; [|by eapply H].
    intros it it' Hit Hit' Heq. specialize (Hc a eq_refl l2 r l3 eq_refl).
    rewrite Forall_forall in Hc. apply (Hc it' Hit'). rewrite elem_of_list_to_set, <- Heq.
    by apply (list_elem_of_fmap_2 Item_LocURI).
Qed.

Lemma no_add_replace_from_iff added cmds :
  no_add_replace_from added cmds ↔ no_replace_of added cmds ∧ no_add_replace cmds.
Proof.
  revert added. induction cmds as [|c cmds IH]; intros added.
  { split; [|done]. intros _. split; [by intros [|]|by intros [|]]. }
  rewrite no_replace_of_cons, no_add_replace_cons.
  destruct c; cbn [no_add_replace_from]; rewrite IH, ?no_replace_of_union; naive_solver.
Qed.

Lemma checks_atomicAddReplace_from added cmds path :
  checks (v_atomicAddReplace added cmds path) (no_add_replace_from added cmds) [].
Proof.
  revert added; induction cmds as [|c cmds IH]; intros added; [apply checks_id|].
  destruct c; simpl; try apply IH.
  link; [apply checks_replace_items|apply IH].
Qed.

Lemma checks_atomicAddReplace cmds path :
  checks (v_atomicAddReplace ∅ cmds path) (no_add_replace cmds) [].
Proof.
  eapply checks_weaken, checks_atomicAddReplace_from. rewrite no_add_replace_from_iff.
  assert (no_replace_of ∅ cmds); [|tauto].
  intros l1 r l3 _. apply Forall_forall. intros it _. apply not_elem_of_empty.
Qed.

(** The CmdID of a command is recorded first. *)
Lemma checks_cmdID c path : checks (v_cmdID c path) True [Command_ID c].
Proof.
  intros v. unfold v_cmdID.
  assert (ids_fresh (dom (v_ids v)) [Command_ID c] ↔
    Command_ID c ≠ "" ∧ Command_ID c ≠ "0" ∧ v_ids v !! Command_ID c = None) as Hfresh.
  { unfold ids_fresh. rewrite Forall_singleton, not_elem_of_dom.
    split; [tauto|]. intros ?. split; [|done]. apply NoDup_singleton. }
  destruct (str_empty (Command_ID c) || bool_decide (Command_ID c = "0")) eqn:E.
  - eexists [_]. split_and!; [done| |done]. rewrite Hfresh. split; [done|].
    unfold str_empty in E. apply orb_true_iff in E as [E|E];
      apply bool_decide_eq_true in E; tauto.
  - apply orb_false_iff in E as [E1 E2]. apply str_empty_false in E1.
    apply bool_decide_eq_false in E2.
    destruct (v_ids v !! Command_ID c) as [q|] eqn:El.
    + eexists [_]. split_and!; [done| |done]. rewrite Hfresh. split; [done|].
      intros (_ & _ & _ & ?). congruence.
    + exists []. rewrite app_nil_r. split_and!; [done| |].
      * rewrite Hfresh. tauto.
      * intros _. simpl. rewrite dom_insert_L. set_solver.
Qed.

Lemma v_each_eq cs p b v :
  (fix each (cs : list Command) (inAtomic : bool) (v : validator) : validator :=
    match cs with
    | [] => v
    | c :: cs => each cs inAtomic (v_command c p inAtomic v)
    end) cs b v = v_commands cs p b v.
Proof. revert v; induction cs as [|c cs IH]; intros v; [done|]. simpl. apply IH. Qed.

Lemma command_all_eq b cs :
  (fix all (inAtomic : bool) (cs : list Command) : Prop :=
    match cs with
    | [] => True
    | c :: cs => command_ok inAtomic c ∧ all inAtomic cs
    end) b cs ↔ Forall (command_ok b) cs.
Proof. induction cs as [|c cs IH]; [by rewrite Forall_nil|]. by rewrite Forall_cons, IH. Qed.

Lemma checks_commands_of cs :
  Forall (λ c, ∀ path b, checks (v_command c path b) (command_ok b c)
                          (map Command_ID (flatten c))) cs →
  ∀ path b, checks (v_commands cs path b) (Forall (command_ok b) cs)
              (map Command_ID (flatten_all cs)).
Proof.
  induction 1 as [|c cs Hc _ IH]; intros path b.
  - eapply checks_weaken, checks_id. by rewrite Forall_nil.
  - unfold flatten_all. simpl. rewrite map_app.
    eapply checks_weaken; [symmetry; apply Forall_cons|].
    apply (checks_seq (v_command c path b)); [apply Hc|apply IH].
Qed.

(** A command whose own checks are [f], and one that also holds commands. *)
Lemma checks_leaf f P c path :
  checks f P [] → checks (λ v, f (v_cmdID c path v)) P [Command_ID c].
Proof.
  intros Hf. eapply checks_weaken;
    [|apply (checks_seq (v_cmdID c path) f True P [Command_ID c] []);
      [apply checks_cmdID|done]]. tauto.
Qed.

Definition command_checked (c : Command) : Prop := ∀ path b,
  checks (v_command c path b) (command_ok b c) (map Command_ID (flatten c)).

Lemma checks_group f P c path cs b :
  checks f P [] → Forall command_checked cs →
  checks (λ v, v_commands cs (command_path c path) b (f (v_cmdID c path v)))
    (P ∧ Forall (command_ok b) cs) (Command_ID c :: map Command_ID (flatten_all cs)).
Proof.
  intros Hf Hcs.
  apply (checks_seq (λ v, f (v_cmdID c path v)) (v_commands cs (command_path c path) b)
    P _ [Command_ID c]); [by apply checks_leaf|by apply checks_commands_of].
Qed.

Lemma checks_CAtomic i nr m cs :
  Forall command_checked cs → command_checked (CAtomic i nr m cs).
Proof.
  intros IH path b.
  set (c := CAtomic i nr m cs). set (p := command_path c path).
  simpl map. rewrite flatten_group_eq.
  eapply checks_ext; cycle 1.
  { eapply checks_weaken; cycle 1.
    - apply (checks_group (λ v, v_atomicAddReplace ∅ cs p
        (v_when (bool_decide (length cs = 0%nat)) syncml_ErrItems p
          (v_when b syncml_ErrAtomicNested p v)))
        ((b = false ∧ cs ≠ []) ∧ no_add_replace cs) c path cs true); [|done].
      link; [|apply checks_atomicAddReplace]. link; apply checks_when; [done|].
      rules. by destruct cs.
    - simpl. rewrite command_all_eq. tauto. }
  intros v. symmetry. apply v_each_eq.
Qed.

Lemma checks_CSequence i nr m cs :
  Forall command_checked cs → command_checked (CSequence i nr m cs).
Proof.
  intros IH path b.
  set (c := CSequence i nr m cs). set (p := command_path c path).
  simpl map. rewrite flatten_group_eq.
  eapply checks_ext; cycle 1.
  { eapply checks_weaken; cycle 1.
    - apply (checks_group (v_when (bool_decide (length cs = 0%nat)) syncml_ErrItems p)
        (cs ≠ []) c path cs b); [|done].
      apply checks_when. rules. by destruct cs.
    - simpl. rewrite command_all_eq. tauto. }
  intros v. symmetry. apply v_each_eq.
Qed.

Lemma checks_command c : command_checked c.
Proof.
  induction c as [n|n|n|n|n|n|i nr m cs IH|i nr m cs IH|n|n]
    using Command_nested_ind; try intros path b.
  - apply (checks_leaf (λ v, v_opt_meta _ _ (v_items _ _ 1 0 v))).
    eapply checks_weaken; [symmetry; apply (assoc and)|].
    link; [apply checks_items_some|apply checks_opt_meta].
  - apply (checks_leaf (λ v, v_opt_meta _ _ (v_items _ _ 1 0 v))).
    eapply checks_weaken; [symmetry; apply (assoc and)|].
    link; [apply checks_items_some|apply checks_opt_meta].
  - apply (checks_leaf (v_items _ _ 1 0)), checks_items_some.
  - apply (checks_leaf (λ v, v_when _ _ _ (v_items _ _ 1 0 v))).
    eapply checks_weaken; [apply (comm and)|].
    link; [apply checks_items_some|by apply checks_when].
  - apply (checks_leaf (v_items _ _ 1 1)). eapply checks_weaken, checks_items. simpl.
    destruct (Exec_Items n) as [|it [|it' its]]; simpl; rewrite ?Forall_cons, ?Forall_nil.
    + naive_solver.
    + naive_solver lia.
    + split; [lia|]. naive_solver.
  - apply (checks_leaf (v_alert n _)), checks_alert.
  - by apply checks_CAtomic.
  - by apply checks_CSequence.
  - apply (checks_leaf (v_status n _)), checks_status.
  - apply (checks_leaf (v_results n _)), checks_results.
Qed.

Lemma Validate_iff m : Validate m = [] ↔ message_ok m.
Proof.
  unfold Validate, message_ok, v_body.
  assert (checks (λ v, v_commands (Body_Commands (Msg_Body m)) "SyncBody" false
     (v_when (bool_decide (length (Body_Commands (Msg_Body m)) = 0%nat))
        syncml_ErrEmptyBody "SyncBody" (v_header (Msg_Header m) (Msg_Namespace m) v)))
     ((header_ok (Msg_Namespace m) (Msg_Header m) ∧ Body_Commands (Msg_Body m) ≠ []) ∧
        Forall (command_ok false) (Body_Commands (Msg_Body m)))
     (map Command_ID (flatten_all (Body_Commands (Msg_Body m))))) as Hc.
  { apply (checks_seq (λ v, v_when _ _ _ (v_header _ _ v)) _ _ _ []).
    - link; [apply checks_header|]. apply checks_when. rules.
      by destruct (Body_Commands _).
    - apply checks_commands_of, Forall_forall. intros c _. apply checks_command. }
  destruct (Hc (mkValidator [] ∅)) as (e & He & HI & _). simpl in *.
  rewrite He, HI, dom_empty_L. tauto.
Qed.

(** ** Properties *)

(** C32: Validate returns no error exactly for the messages that obey the rules
    the code applies.  Its comment states more: that Alert and Status items have
    checked addresses, that the Meta of Get, Delete, Exec and groups has a known
    Format, and that Add then Replace of a node is absent from Sequences in an
    Atomic too.  The rules: the header has known namespace and versions, ids, a
    positive MsgID, both addresses and a credential of known type; there is a
    command; CmdIDs, nested ones too, are present, not "0" and unique.  Items of
    Add, Replace, Delete, Get, Exec (one) and Results are there, with good
    addresses and one kind of Data; checked Formats are known.  Alerts have known
    codes, 1224 and 1226 typed items; a Status its references, a known command,
    a code, known Chal and Cred types; Results a CmdRef.  Groups are not empty;
    in an Atomic, at any depth, is no Atomic and no Get, and among its direct
    members no Add and later Replace of one address. *)
Theorem validate_iff m : Validate m = [] ↔ message_ok m.
Proof. apply Validate_iff. Qed.

(** *** Child nodes *)

Lemma join_printable l :
  Forall (λ p, str_forall printable p = true) l → str_forall printable (join_byte "/"%char l) = true.
Proof.
  intros Hl. induction Hl as [|p l Hp Hl IH]; [done|]. destruct l as [|q l]; [done|].
  change (join_byte "/"%char (p :: q :: l)) with (p +:+ String "/" (join_byte "/"%char (q :: l))).
  rewrite str_forall_app, Hp. cbn [str_forall]. by rewrite IH.
Qed.

(** The names of the children of an interior node, joined and escaped as a
    client sends them, are read back whatever characters they hold; so are
    they from a text with empty pieces. *)
Theorem child_nodes_roundtrip names :
  Forall (λ n, n ≠ "") names →
  ChildNodes (join_byte "/"%char (map PathEscape names)) = names ∧
  ChildNodes ("/" +:+ join_byte "/"%char (map PathEscape names)) = names.
Proof.
  intros Hn.
  set (l := map PathEscape names).
  assert (Forall (λ p, contains_byte "/" p = false) l) as Hs
    by (apply Forall_map, Forall_true; intros; apply PathEscape_no_slash).
  assert (Forall (λ p, str_forall printable p = true) l) as Hp
    by (apply Forall_map, Forall_true; intros; apply PathEscape_printable).
  apply join_printable in Hp.
  assert (omap (λ p, if decide (p = "") then None else Some (default p (PathUnescape p))) l = names) as Ho.
  { unfold l. clear -Hn. induction Hn as [|n names Hn _ IH]; [done|]. cbn [map omap list_omap].
    rewrite decide_False by by apply PathEscape_nonempty. rewrite PathUnescape_Escape. cbn [default]. by f_equal. }
  assert (split_byte "/"%char (join_byte "/"%char l) = l ∨ names = []) as Hj.
  { destruct names; [by right|]. left. by apply split_join. }
  unfold ChildNodes. rewrite !TrimSpace_id by done. split.
  - case_decide as E.
    + destruct names as [|n [|n' ?]]; [done| |]; exfalso.
      * apply Forall_cons in Hn as [Hn _]. by apply PathEscape_nonempty in Hn.
      * subst l. cbn [map join_byte] in E. destruct (PathEscape n); done.
    + destruct Hj as [->| ->]; [done|]. by destruct E.
  - rewrite decide_False by done. cbn [split_byte]. rewrite str_app_cons, str_app_nil_l. cbn [split_byte].
    rewrite Ascii.eqb_refl. cbn [omap list_omap]. rewrite decide_True by done.
    destruct Hj as [->| ->]; [exact Ho|reflexivity].
Qed.

Lemma child_nodes_roundtrip_witness :
  ChildNodes "a%2Fb/c%20d" = ["a/b"; "c d"] ∧ ChildNodes "/a%2Fb/c%20d" = ["a/b"; "c d"].
Proof.
  apply (child_nodes_roundtrip ["a/b"; "c d"]). by repeat constructor.
Defined.
