(* ===== verification/Response.v ===== *)
(** * Replies

    mdmprotocol/syncml/response.go: starting a reply, the statuses in it, and
    recognising the message shapes of the protocol. *)
From stdpp Require Import base gmap strings list.
From Stdlib Require Import ZArith Lia Ascii.
From S2P Require Import Prelude GoStrings SyncmlModel Validate.

Local Open Scope Z_scope.

(** [NextMsgID]. *)
Definition NextMsgID (last : string) : result string :=
  if decide (last = "") then Ok "1"
  else match Atoi last with
  | Some n => if n <? 1 then Err [syncml_ErrMsgID] else Ok (Itoa (wrap64 (n + 1)))
  | None => Err [syncml_ErrMsgID]
  end.

(** [NewResponse]. *)
Definition NewResponse (req : Message) (serverURL msgID : string) : Message :=
  let src := if decide (serverURL = "") then LocURI (Hdr_Target (Msg_Header req))
             else serverURL in
  mkMessage (Msg_Namespace req)
    (mkHeader VerDTD VerProto (Hdr_SessionID (Msg_Header req)) msgID
       (mkLocation (LocURI (Hdr_Source (Msg_Header req))) "") (mkLocation src "")
       "" false None None)
    (mkBody [] false false).

(** [Data{Value: v}] *)
Definition DataValue (v : string) : Data := mkData v "" "".

(** [StatusForHeader]. *)
Definition StatusForHeader (req : Message) (cmdID : string) (code : StatusCode) : Status :=
  mkStatus cmdID (Hdr_MsgID (Msg_Header req)) "0" CmdSyncHdr [] [] None None
    (DataValue (StatusCode_Wire code)) [].

(** [StatusFor]. *)
Definition StatusFor (req : Message) (c : Command) (cmdID : string) (code : StatusCode)
    : Status :=
  mkStatus cmdID (Hdr_MsgID (Msg_Header req)) (Command_ID c) (Command_Name c) [] [] None None
    (DataValue (StatusCode_Wire code)) [].

(** [&Alert{CmdID: id, Data: code.Wire()}] *)
Definition plainAlert (cmdID : string) (code : AlertCode) : Alert :=
  mkAlert cmdID false None (AlertCode_Wire code) "" [].

Definition set_body (m : Message) (cmds : list Command) (final : bool) : Message :=
  mkMessage (Msg_Namespace m) (Msg_Header m)
    (mkBody cmds final (Body_MSFTNamespace (Msg_Body m))).

(** [NewNextMessage]. *)
Definition NewNextMessage (req : Message) (serverURL msgID : string) : Message :=
  set_body (NewResponse req serverURL msgID)
    [CStatus (StatusForHeader req "1" StatusOK); CAlert (plainAlert "2" AlertNextMessage)]
    false.

(** [NewAbort]. *)
Definition NewAbort (req : Message) (serverURL msgID : string) : Message :=
  set_body (NewResponse req serverURL msgID)
    [CStatus (StatusForHeader req "1" StatusOK); CAlert (plainAlert "2" AlertSessionAbort)]
    true.

(** [IsNextMessageRequest]: the loop with its flag [found]. *)
Fixpoint next_message_loop (found : bool) (cmds : list Command) : bool :=
  match cmds with
  | [] => found
  | CStatus _ :: cmds => next_message_loop found cmds
  | CAlert n :: cmds =>
      if Alert_Code n =? AlertNextMessage then next_message_loop true cmds else false
  | _ => false
  end.
Definition IsNextMessageRequest (m : Message) : bool :=
  next_message_loop false (Body_Commands (Msg_Body m)).

(** [len(it.Source) >= 10 && it.Source[:10] == "./DevInfo/"] *)
Definition devinfo_source (s : string) : bool := HasPrefix s "./DevInfo/".

(** [IsPackageOne]. *)
Definition IsPackageOne (m : Message) : bool :=
  let b := Msg_Body m in
  (Body_HasAlert b AlertClientInitiated || Body_HasAlert b AlertServerInitiated) &&
  existsb (λ c, match c with
                | CReplace r => existsb (λ it, devinfo_source (Item_Source it))
                                  (Replace_Items r)
                | _ => false
                end) (Body_Commands b).

(** [DevInfo]: the leaves of every Replace, a later value replacing an earlier
    one. *)
Definition devinfo_item (out : gmap string string) (it : Item) : gmap string string :=
  if devinfo_source (Item_Source it) && (10 <? len (Item_Source it))
  then <[sdrop 10 (Item_Source it) := Data_Text (Item_Data it)]> out
  else out.
Definition DevInfo (m : Message) : gmap string string :=
  foldl (λ out c, match c with
                  | CReplace r => foldl devinfo_item out (Replace_Items r)
                  | _ => out
                  end) ∅ (Body_Commands (Msg_Body m)).

(** [LoginStatus]: the first LoginStatus item of a 1224 alert. *)
Definition alert_items_of (code : AlertCode) (m : Message) : list Item :=
  concat (map Alert_Items
    (List.filter (λ a, Alert_Code a =? code) (Body_Alerts (Msg_Body m)))).
Definition has_meta_type (ty : string) (it : Item) : bool :=
  match Item_Meta it with Some m => bool_decide (Meta_Type m = ty) | None => false end.
Definition LoginStatus (m : Message) : string :=
  match List.find (has_meta_type AlertTypeLoginStatus) (alert_items_of AlertClientEvent m) with
  | Some it => Data_Text (Item_Data it)
  | None => ""
  end.

(** [type CmdIDs struct{ n int }] and [Next]. *)
Definition CmdIDs := Z.
Definition CmdIDs_Next (c : CmdIDs) : CmdIDs * string :=
  let n := wrap64 (c + 1) in (n, Itoa n).

(** ** Lemmas *)

Lemma wire_code_ok c : 100 ≤ c ≤ 999 → ParseStatusCode (StatusCode_Wire c) = Ok c.
Proof.
  intros Hc. unfold ParseStatusCode, StatusCode_Wire. rewrite Atoi_Itoa.
  - destruct (Z.ltb_spec c 100); [lia|]. destruct (Z.ltb_spec 999 c); [lia|]. done.
  - unfold in_int64, min_int64, max_int64. lia.
Qed.

Lemma alert_wire_ok c : 1000 ≤ c ≤ 9999 → ParseAlertCode (AlertCode_Wire c) = Ok c.
Proof.
  intros Hc. unfold ParseAlertCode, AlertCode_Wire. rewrite Atoi_Itoa.
  - destruct (Z.ltb_spec c 1000); [lia|]. destruct (Z.ltb_spec 9999 c); [lia|]. done.
  - unfold in_int64, min_int64, max_int64. lia.
Qed.

Lemma plainAlert_Code id c : 1000 ≤ c ≤ 9999 → Alert_Code (plainAlert id c) = c.
Proof. intros. unfold Alert_Code. simpl. by rewrite alert_wire_ok. Qed.

(** The reply's header answers a valid request's. *)
Lemma NewResponse_header_ok req serverURL msgID :
  header_ok (Msg_Namespace req) (Msg_Header req) → positive_int msgID →
  header_ok (Msg_Namespace (NewResponse req serverURL msgID))
    (Msg_Header (NewResponse req serverURL msgID)).
Proof.
  intros (Hns & _ & _ & Hsid & _ & Htgt & Hsrc & _) Hid.
  unfold header_ok; simpl. split_and!; try done. by case_decide.
Qed.

Lemma StatusForHeader_ok req cmdID code :
  header_ok (Msg_Namespace req) (Msg_Header req) → 100 ≤ code ≤ 999 →
  status_ok (StatusForHeader req cmdID code).
Proof.
  intros (_ & _ & _ & _ & (n & Hn & _) & _) Hc.
  unfold status_ok; simpl. split_and!; try done.
  - intros E. by rewrite E in Hn.
  - unfold statusCmdNames. set_solver.
  - by rewrite wire_code_ok.
Qed.

Lemma StatusFor_ok req c cmdID code :
  header_ok (Msg_Namespace req) (Msg_Header req) → 100 ≤ code ≤ 999 →
  Command_ID c ≠ "" → Command_ID c ≠ "0" →
  status_ok (StatusFor req c cmdID code).
Proof.
  intros (_ & _ & _ & _ & (n & Hn & _) & _) Hc Hid Hid0.
  unfold status_ok; simpl. split_and!; try done.
  - intros E. by rewrite E in Hn.
  - unfold statusCmdNames. destruct c; simpl; set_solver.
  - by rewrite wire_code_ok.
Qed.

(** ** Properties *)

(** The "Next Message" and session-abort replies to a valid request, under
    any positive MsgID, are themselves valid messages; the first is recognised
    as a next-message request and neither opens a session. *)
Theorem shaped_replies_valid req serverURL msgID :
  Validate req = [] → positive_int msgID →
  Validate (NewNextMessage req serverURL msgID) = [] ∧
  Validate (NewAbort req serverURL msgID) = [] ∧
  IsNextMessageRequest (NewNextMessage req serverURL msgID) = true ∧
  IsPackageOne (NewNextMessage req serverURL msgID) = false ∧
  IsPackageOne (NewAbort req serverURL msgID) = false.
Proof.
  rewrite !Validate_iff. intros (Hh & _) Hid.
  pose proof (NewResponse_header_ok _ serverURL _ Hh Hid) as Hr.
  assert (∀ code, code = AlertNextMessage ∨ code = AlertSessionAbort →
    alert_ok (plainAlert "2" code)) as Ha.
  { intros code [-> | ->]; unfold alert_ok; rewrite !plainAlert_Code by done;
      (split_and!; [by apply alert_wire_ok|done|by intros [[=]|[=]]|constructor]). }
  assert (ids_fresh ∅ ["1"; "2"]) as Hids.
  { split; [|repeat constructor; done]. repeat constructor; set_solver. }
  split_and!; try reflexivity.
  1, 2: unfold message_ok; simpl; split_and!; [exact Hr|done| |exact Hids].
  1, 2: apply Forall_cons_2; [by apply StatusForHeader_ok|].
  1, 2: apply Forall_cons_2; [apply Ha; auto|constructor].
Qed.

Definition ex_request : Message :=
  mkMessage NamespaceSyncML12
    (mkHeader VerDTD VerProto "7" "1" (mkLocation "https://mdm.example/" "") (mkLocation "dev" "")
       "" false None None)
    (mkBody [CAlert (plainAlert "1" AlertClientInitiated);
             CReplace (mkReplace "2" false None None
               [mkItem "" "./DevInfo/DevId" None (Some (DataValue "dev")) false])] true false).

Lemma shaped_replies_valid_witness :
  Validate (NewNextMessage ex_request "" "1") = [] ∧ Validate (NewAbort ex_request "" "1") = [] ∧
  IsNextMessageRequest (NewNextMessage ex_request "" "1") = true ∧
  IsPackageOne (NewNextMessage ex_request "" "1") = false ∧
  IsPackageOne (NewAbort ex_request "" "1") = false.
Proof.
  apply (shaped_replies_valid ex_request "" "1"); [vm_compute; reflexivity|].
  exists 1. split; [reflexivity|]. discriminate.
Defined.
