(* ===== verification/Encode.v ===== *)
(** * Writing a message

    mdmprotocol/syncml/encode.go: the writer, element by element, and the
    escaping of character data it takes from encoding/xml.  The properties
    relate the writer, which keeps a buffer and a depth counter, to a
    serialisation of the message's element tree, and say when it fails. *)
From stdpp Require Import base gmap strings list.
From Stdlib Require Import ZArith Lia Ascii.
From S2P Require Import Prelude GoStrings SyncmlModel Response.

Local Open Scope Z_scope.
Local Open Scope go_scope.

(** ** utf8.DecodeRuneInString

    [decode_rune s] is the first rune of [s] and its width; an invalid
    encoding gives U+FFFD with width 1. *)
Definition RuneError : Z := 65533.

Definition cont_byte (lo hi : Z) (c : ascii) : option Z :=
  let b := byte_val c in if (lo <=? b) && (b <=? hi) then Some (b - 128) else None.

Definition decode_rune (s : string) : Z * nat :=
  match s with
  | EmptyString => (RuneError, 0%nat)
  | String c0 s1 =>
      let b0 := byte_val c0 in
      if b0 <? 128 then (b0, 1%nat)
      else if (194 <=? b0) && (b0 <=? 223) then
        match s1 with
        | String c1 _ =>
            match cont_byte 128 191 c1 with
            | Some x1 => ((b0 - 192) * 64 + x1, 2%nat)
            | None => (RuneError, 1%nat)
            end
        | _ => (RuneError, 1%nat)
        end
      else if (224 <=? b0) && (b0 <=? 239) then
        let lo := if b0 =? 224 then 160 else 128 in
        let hi := if b0 =? 237 then 159 else 191 in
        match s1 with
        | String c1 (String c2 _) =>
            match cont_byte lo hi c1, cont_byte 128 191 c2 with
            | Some x1, Some x2 => ((b0 - 224) * 4096 + x1 * 64 + x2, 3%nat)
            | _, _ => (RuneError, 1%nat)
            end
        | _ => (RuneError, 1%nat)
        end
      else if (240 <=? b0) && (b0 <=? 244) then
        let lo := if b0 =? 240 then 144 else 128 in
        let hi := if b0 =? 244 then 143 else 191 in
        match s1 with
        | String c1 (String c2 (String c3 _)) =>
            match cont_byte lo hi c1, cont_byte 128 191 c2, cont_byte 128 191 c3 with
            | Some x1, Some x2, Some x3 =>
                ((b0 - 240) * 262144 + x1 * 4096 + x2 * 64 + x3, 4%nat)
            | _, _, _ => (RuneError, 1%nat)
            end
        | _ => (RuneError, 1%nat)
        end
      else (RuneError, 1%nat)
  end.

(** ** xml.EscapeText *)

Definition isInCharacterRange (r : Z) : bool :=
  (r =? 9) || (r =? 10) || (r =? 13) || ((32 <=? r) && (r <=? 55295)) ||
  ((57344 <=? r) && (r <=? 65533)) || ((65536 <=? r) && (r <=? 1114111)).

(** U+FFFD in UTF-8. *)
Definition esc_fffd : string :=
  String (byte_of 239) (String (byte_of 191) (String (byte_of 189) "")).

(** What one rune of width [w] at the head of [s] is written as. *)
Definition escape_rune (r : Z) (w : nat) (s : string) : string :=
  if r =? 34 then "&#34;"
  else if r =? 39 then "&#39;"
  else if r =? 38 then "&amp;"
  else if r =? 60 then "&lt;"
  else if r =? 62 then "&gt;"
  else if r =? 9 then "&#x9;"
  else if r =? 10 then "&#xA;"
  else if r =? 13 then "&#xD;"
  else if negb (isInCharacterRange r) || ((r =? RuneError) && (Nat.eqb w 1)) then esc_fffd
  else stake w s.

Fixpoint escape_fuel (fuel : nat) (s : string) : string :=
  match fuel, s with
  | S fuel, String _ _ =>
      let '(r, w) := decode_rune s in
      escape_rune r w s +:+ escape_fuel fuel (sdrop w s)
  | _, _ => ""
  end.
Definition EscapeText (s : string) : string := escape_fuel (String.length s) s.

(** ** The writer *)

Record EncodeOptions := mkEncodeOptions { eo_Indent : string; eo_XMLDeclaration : bool }.

Record attr := mkAttr { attr_name : string; attr_value : string }.

(** [type writer struct] (its field [inline] is never read or written). *)
Record writer := mkWriter { w_buf : string; w_indent : string; w_depth : Z }.

Abbreviation W := (M writer unit).

Definition w_raw (s : string) : W :=
  modify (λ w, mkWriter (w_buf w +:+ s) (w_indent w) (w_depth w)).

Definition w_newline : W :=
  let! w := get in
  if decide (w_indent w = "") then ret tt else w_raw (String (byte_of 10) "").

Fixpoint str_repeat (n : nat) (s : string) : string :=
  match n with O => "" | S n => s +:+ str_repeat n s end.

Definition w_pad : W :=
  let! w := get in
  if decide (w_indent w = "") then ret tt
  else w_raw (str_repeat (Z.to_nat (w_depth w)) (w_indent w)).

Definition w_depth_add (d : Z) : W :=
  modify (λ w, mkWriter (w_buf w) (w_indent w) (w_depth w + d)).

Definition quote : string := String (byte_of 34) "".

(** The attribute loop of [open] and [text]. *)
Definition w_attrs (attrs : list attr) : W :=
  mfor (λ a, w_raw " " ;! w_raw (attr_name a) ;! w_raw ("=" +:+ quote) ;!
             w_raw (EscapeText (attr_value a)) ;! w_raw quote) attrs.

Definition w_open (name : string) (attrs : list attr) : W :=
  w_pad ;! w_raw "<" ;! w_raw name ;! w_attrs attrs ;! w_raw ">" ;! w_newline ;!
  w_depth_add 1.

Definition w_close (name : string) : W :=
  w_depth_add (-1) ;! w_pad ;! w_raw "</" ;! w_raw name ;! w_raw ">" ;! w_newline.

Definition w_empty (name : string) : W :=
  w_pad ;! w_raw "<" ;! w_raw name ;! w_raw "/>" ;! w_newline.

Definition w_text (name value : string) (attrs : list attr) : W :=
  w_pad ;! w_raw "<" ;! w_raw name ;! w_attrs attrs ;! w_raw ">" ;!
  w_raw (EscapeText value) ;! w_raw "</" ;! w_raw name ;! w_raw ">" ;! w_newline.

Definition w_when (b : bool) (k : W) : W := if b then k else ret tt.

Definition w_textIf (name value : string) : W := w_when (nonempty value) (w_text name value []).

Definition w_location (name : string) (l : Location) : W :=
  w_open name [] ;! w_text "LocURI" (LocURI l) [] ;! w_textIf "LocName" (LocName l) ;!
  w_close name.

Definition metinf : list attr := [mkAttr "xmlns" NamespaceMetInf].

Definition w_meta (m : option Meta) : W :=
  match m with
  | None => ret tt
  | Some m =>
      w_open "Meta" [] ;!
      w_when (nonempty (Meta_Format m)) (w_text "Format" (Meta_Format m) metinf) ;!
      w_when (nonempty (Meta_Type m)) (w_text "Type" (Meta_Type m) metinf) ;!
      w_when (nonempty (Meta_Mark m)) (w_text "Mark" (Meta_Mark m) metinf) ;!
      w_when (negb (Meta_Size m =? 0)) (w_text "Size" (Itoa (Meta_Size m)) metinf) ;!
      w_when (nonempty (Meta_NextNonce m)) (w_text "NextNonce" (Meta_NextNonce m) metinf) ;!
      w_when (negb (Meta_MaxMsgSize m =? 0))
        (w_text "MaxMsgSize" (Itoa (Meta_MaxMsgSize m)) metinf) ;!
      w_when (negb (Meta_MaxObjSize m =? 0))
        (w_text "MaxObjSize" (Itoa (Meta_MaxObjSize m)) metinf) ;!
      w_close "Meta"
  end.

Definition w_cred (c : option Cred) : W :=
  match c with
  | None => ret tt
  | Some c => w_open "Cred" [] ;! w_meta (Some (Cred_Meta c)) ;!
              w_text "Data" (Cred_Data c) [] ;! w_close "Cred"
  end.

Definition w_chal (c : option Chal) : W :=
  match c with
  | None => ret tt
  | Some c => w_open "Chal" [] ;! w_meta (Some (Chal_Meta c)) ;! w_close "Chal"
  end.

Definition w_header (h : Header) : W :=
  w_open "SyncHdr" [] ;!
  w_text "VerDTD" (Hdr_VerDTD h) [] ;!
  w_text "VerProto" (Hdr_VerProto h) [] ;!
  w_text "SessionID" (Hdr_SessionID h) [] ;!
  w_text "MsgID" (Hdr_MsgID h) [] ;!
  w_location "Target" (Hdr_Target h) ;!
  w_location "Source" (Hdr_Source h) ;!
  w_textIf "RespURI" (Hdr_RespURI h) ;!
  w_when (Hdr_NoResp h) (w_empty "NoResp") ;!
  w_cred (Hdr_Cred h) ;!
  w_meta (Hdr_Meta h) ;!
  w_close "SyncHdr".

Definition data_conflict (d : Data) : bool := nonempty (Data_Value d) && nonempty (Data_XML d).

Definition data_attrs (d : Data) : list attr :=
  if decide (Data_OriginalError d = "") then []
  else [mkAttr ("msft:" +:+ AttrOriginalError) (Data_OriginalError d)].

Definition w_data (d : option Data) : W :=
  match d with
  | None => ret tt
  | Some d =>
      if data_conflict d then throw [syncml_ErrDataConflict]
      else if decide (Data_XML d = "") then w_text "Data" (Data_Value d) (data_attrs d)
      else w_open "Data" (data_attrs d) ;! w_pad ;! w_raw (TrimSpace (Data_XML d)) ;!
           w_newline ;! w_close "Data"
  end.

Definition w_uri (name uri : string) : W :=
  w_when (nonempty uri) (w_open name [] ;! w_text "LocURI" uri [] ;! w_close name).

Definition w_item (it : Item) : W :=
  w_open "Item" [] ;! w_uri "Target" (Item_Target it) ;! w_uri "Source" (Item_Source it) ;!
  w_meta (Item_Meta it) ;! w_data (Item_Data it) ;!
  w_when (Item_MoreData it) (w_empty "MoreData") ;! w_close "Item".

Definition w_items (items : list Item) : W := mfor w_item items.

(** [itemCommand]. *)
Definition w_itemCommand (name cmdID : string) (noResp : bool) (lang : string)
    (cred : option Cred) (meta : option Meta) (items : list Item) : W :=
  w_open name [] ;! w_text "CmdID" cmdID [] ;! w_when noResp (w_empty "NoResp") ;!
  w_textIf "Lang" lang ;! w_cred cred ;! w_meta meta ;! w_items items ;! w_close name.

(** The members of [group] are written by [command] itself. *)
Definition w_group (name cmdID : string) (noResp : bool) (meta : option Meta) (members : W)
    : W :=
  w_open name [] ;! w_text "CmdID" cmdID [] ;! w_when noResp (w_empty "NoResp") ;!
  w_meta meta ;! members ;! w_close name.

Fixpoint w_command (c : Command) : W :=
  let each := fix each (cs : list Command) : W :=
    match cs with [] => ret tt | c :: cs => w_command c ;! each cs end in
  match c with
  | CAdd n => w_itemCommand CmdAdd (Add_CmdID n) (Add_NoResp n) "" (Add_Cred n) (Add_Meta n)
                (Add_Items n)
  | CReplace n => w_itemCommand CmdReplace (Replace_CmdID n) (Replace_NoResp n) ""
                    (Replace_Cred n) (Replace_Meta n) (Replace_Items n)
  | CDelete n => w_itemCommand CmdDelete (Delete_CmdID n) (Delete_NoResp n) ""
                   (Delete_Cred n) (Delete_Meta n) (Delete_Items n)
  | CGet n => w_itemCommand CmdGet (Get_CmdID n) (Get_NoResp n) (Get_Lang n) (Get_Cred n)
                (Get_Meta n) (Get_Items n)
  | CExec n =>
      w_open CmdExec [] ;! w_text "CmdID" (Exec_CmdID n) [] ;!
      w_when (Exec_NoResp n) (w_empty "NoResp") ;! w_cred (Exec_Cred n) ;!
      w_meta (Exec_Meta n) ;! w_textIf "Correlator" (Exec_Correlator n) ;!
      w_items (Exec_Items n) ;! w_close CmdExec
  | CAlert n =>
      w_open CmdAlert [] ;! w_text "CmdID" (Alert_CmdID n) [] ;!
      w_when (Alert_NoResp n) (w_empty "NoResp") ;! w_cred (Alert_Cred n) ;!
      w_textIf "Data" (Alert_Data n) ;! w_textIf "Correlator" (Alert_Correlator n) ;!
      w_items (Alert_Items n) ;! w_close CmdAlert
  | CAtomic i nr m cs => w_group CmdAtomic i nr m (each cs)
  | CSequence i nr m cs => w_group CmdSequence i nr m (each cs)
  | CStatus n =>
      w_open CmdStatus [] ;! w_text "CmdID" (Status_CmdID n) [] ;!
      w_text "MsgRef" (Status_MsgRef n) [] ;! w_text "CmdRef" (Status_CmdRef n) [] ;!
      w_text "Cmd" (Status_Cmd n) [] ;!
      mfor (λ r, w_text "TargetRef" r []) (Status_TargetRef n) ;!
      mfor (λ r, w_text "SourceRef" r []) (Status_SourceRef n) ;!
      w_cred (Status_Cred n) ;! w_chal (Status_Chal n) ;!
      w_data (Some (Status_Data n)) ;! w_items (Status_Items n) ;! w_close CmdStatus
  | CResults n =>
      w_open CmdResults [] ;! w_text "CmdID" (Results_CmdID n) [] ;!
      w_textIf "MsgRef" (Results_MsgRef n) ;! w_text "CmdRef" (Results_CmdRef n) [] ;!
      w_textIf "Cmd" (Results_Cmd n) ;! w_meta (Results_Meta n) ;!
      w_textIf "TargetRef" (Results_TargetRef n) ;!
      w_textIf "SourceRef" (Results_SourceRef n) ;!
      w_items (Results_Items n) ;! w_close CmdResults
  end.

Definition w_body (b : Body) : W :=
  (if Body_MSFTNamespace b then w_open "SyncBody" [mkAttr "xmlns:msft" NamespaceMSFT]
   else w_open "SyncBody" []) ;!
  mfor w_command (Body_Commands b) ;!
  w_when (Body_Final b) (w_empty "Final") ;!
  w_close "SyncBody".

Definition xml_declaration : string :=
  "<?xml version=" +:+ quote +:+ "1.0" +:+ quote +:+ " encoding=" +:+ quote +:+ "UTF-8" +:+
  quote +:+ "?>".

Definition wire_namespace (m : Message) : string :=
  if decide (Msg_Namespace m = NamespaceSyncML11) then NamespaceSyncML11
  else NamespaceSyncML12.

Definition run_writer (indent : string) (k : W) : result string :=
  match k (mkWriter "" indent 0) with
  | (w, Ok _) => Ok (w_buf w)
  | (_, Err e) => Err e
  end.

Definition Encode (m : Message) (opts : EncodeOptions) : result string :=
  run_writer (eo_Indent opts)
    (w_when (eo_XMLDeclaration opts) (w_raw xml_declaration ;! w_newline) ;!
     w_open "SyncML" [mkAttr "xmlns" (wire_namespace m)] ;!
     w_header (Msg_Header m) ;!
     w_body (Msg_Body m) ;!
     w_close "SyncML").

Definition Marshal (m : Message) : result string := Encode m (mkEncodeOptions "" false).

Definition EncodeCommand (c : Command) (opts : EncodeOptions) : result string :=
  run_writer (eo_Indent opts) (w_command c).

(** ** The element tree *)

(** [XRaw] is markup written verbatim on its own line. *)
Inductive xnode : Type :=
  | XText (name : string) (attrs : list attr) (value : string)
  | XEmpty (name : string)
  | XRaw (markup : string)
  | XElem (name : string) (attrs : list attr) (children : list xnode).

Definition line_end (indent : string) : string :=
  if decide (indent = "") then "" else String (byte_of 10) "".
Definition line_pad (indent : string) (d : Z) : string :=
  if decide (indent = "") then "" else str_repeat (Z.to_nat d) indent.

Definition render_attrs (attrs : list attr) : string :=
  str_concat (map (λ a, " " +:+ attr_name a +:+ "=" +:+ quote +:+
                        EscapeText (attr_value a) +:+ quote) attrs).

Fixpoint render (indent : string) (d : Z) (x : xnode) : string :=
  match x with
  | XText name attrs v =>
      line_pad indent d +:+ "<" +:+ name +:+ render_attrs attrs +:+ ">" +:+ EscapeText v +:+
      "</" +:+ name +:+ ">" +:+ line_end indent
  | XEmpty name => line_pad indent d +:+ "<" +:+ name +:+ "/>" +:+ line_end indent
  | XRaw s => line_pad indent d +:+ s +:+ line_end indent
  | XElem name attrs xs =>
      line_pad indent d +:+ "<" +:+ name +:+ render_attrs attrs +:+ ">" +:+ line_end indent +:+
      str_concat (map (render indent (d + 1)) xs) +:+
      line_pad indent d +:+ "</" +:+ name +:+ ">" +:+ line_end indent
  end.

Definition render_all (indent : string) (d : Z) (xs : list xnode) : string :=
  str_concat (map (render indent d) xs).

Definition x_when (b : bool) (x : xnode) : list xnode := if b then [x] else [].
Definition x_textIf (name value : string) : list xnode :=
  x_when (nonempty value) (XText name [] value).

Definition x_location (name : string) (l : Location) : xnode :=
  XElem name [] (XText "LocURI" [] (LocURI l) :: x_textIf "LocName" (LocName l)).

Definition x_meta (m : option Meta) : list xnode :=
  match m with
  | None => []
  | Some m =>
      let s name v := x_when (nonempty v) (XText name metinf v) in
      let z name v := x_when (negb (v =? 0)) (XText name metinf (Itoa v)) in
      [XElem "Meta" []
        (s "Format" (Meta_Format m) ++ s "Type" (Meta_Type m) ++ s "Mark" (Meta_Mark m) ++
         z "Size" (Meta_Size m) ++ s "NextNonce" (Meta_NextNonce m) ++
         z "MaxMsgSize" (Meta_MaxMsgSize m) ++ z "MaxObjSize" (Meta_MaxObjSize m))]
  end.

Definition x_cred (c : option Cred) : list xnode :=
  match c with
  | None => []
  | Some c => [XElem "Cred" [] (x_meta (Some (Cred_Meta c)) ++ [XText "Data" [] (Cred_Data c)])]
  end.

Definition x_chal (c : option Chal) : list xnode :=
  match c with
  | None => []
  | Some c => [XElem "Chal" [] (x_meta (Some (Chal_Meta c)))]
  end.

Definition x_header (h : Header) : xnode :=
  XElem "SyncHdr" []
    ([XText "VerDTD" [] (Hdr_VerDTD h); XText "VerProto" [] (Hdr_VerProto h);
      XText "SessionID" [] (Hdr_SessionID h); XText "MsgID" [] (Hdr_MsgID h);
      x_location "Target" (Hdr_Target h); x_location "Source" (Hdr_Source h)] ++
     x_textIf "RespURI" (Hdr_RespURI h) ++ x_when (Hdr_NoResp h) (XEmpty "NoResp") ++
     x_cred (Hdr_Cred h) ++ x_meta (Hdr_Meta h)).

Definition x_data (d : option Data) : list xnode :=
  match d with
  | None => []
  | Some d =>
      if decide (Data_XML d = "") then [XText "Data" (data_attrs d) (Data_Value d)]
      else [XElem "Data" (data_attrs d) [XRaw (TrimSpace (Data_XML d))]]
  end.

Definition x_uri (name uri : string) : list xnode :=
  x_when (nonempty uri) (XElem name [] [XText "LocURI" [] uri]).

Definition x_item (it : Item) : xnode :=
  XElem "Item" []
    (x_uri "Target" (Item_Target it) ++ x_uri "Source" (Item_Source it) ++
     x_meta (Item_Meta it) ++ x_data (Item_Data it) ++
     x_when (Item_MoreData it) (XEmpty "MoreData")).

Definition x_head (cmdID : string) (noResp : bool) : list xnode :=
  XText "CmdID" [] cmdID :: x_when noResp (XEmpty "NoResp").

Definition x_itemCommand (name cmdID : string) (noResp : bool) (lang : string)
    (cred : option Cred) (meta : option Meta) (items : list Item) : xnode :=
  XElem name [] (x_head cmdID noResp ++ x_textIf "Lang" lang ++ x_cred cred ++
                 x_meta meta ++ map x_item items).

Fixpoint x_command (c : Command) : xnode :=
  match c with
  | CAdd n => x_itemCommand CmdAdd (Add_CmdID n) (Add_NoResp n) "" (Add_Cred n) (Add_Meta n)
                (Add_Items n)
  | CReplace n => x_itemCommand CmdReplace (Replace_CmdID n) (Replace_NoResp n) ""
                    (Replace_Cred n) (Replace_Meta n) (Replace_Items n)
  | CDelete n => x_itemCommand CmdDelete (Delete_CmdID n) (Delete_NoResp n) ""
                   (Delete_Cred n) (Delete_Meta n) (Delete_Items n)
  | CGet n => x_itemCommand CmdGet (Get_CmdID n) (Get_NoResp n) (Get_Lang n) (Get_Cred n)
                (Get_Meta n) (Get_Items n)
  | CExec n =>
      XElem CmdExec [] (x_head (Exec_CmdID n) (Exec_NoResp n) ++ x_cred (Exec_Cred n) ++
        x_meta (Exec_Meta n) ++ x_textIf "Correlator" (Exec_Correlator n) ++
        map x_item (Exec_Items n))
  | CAlert n =>
      XElem CmdAlert [] (x_head (Alert_CmdID n) (Alert_NoResp n) ++ x_cred (Alert_Cred n) ++
        x_textIf "Data" (Alert_Data n) ++ x_textIf "Correlator" (Alert_Correlator n) ++
        map x_item (Alert_Items n))
  | CAtomic i nr m cs => XElem CmdAtomic [] (x_head i nr ++ x_meta m ++ map x_command cs)
  | CSequence i nr m cs => XElem CmdSequence [] (x_head i nr ++ x_meta m ++ map x_command cs)
  | CStatus n =>
      XElem CmdStatus []
        ([XText "CmdID" [] (Status_CmdID n); XText "MsgRef" [] (Status_MsgRef n);
          XText "CmdRef" [] (Status_CmdRef n); XText "Cmd" [] (Status_Cmd n)] ++
         map (XText "TargetRef" []) (Status_TargetRef n) ++
         map (XText "SourceRef" []) (Status_SourceRef n) ++
         x_cred (Status_Cred n) ++ x_chal (Status_Chal n) ++
         x_data (Some (Status_Data n)) ++ map x_item (Status_Items n))
  | CResults n =>
      XElem CmdResults []
        ([XText "CmdID" [] (Results_CmdID n)] ++ x_textIf "MsgRef" (Results_MsgRef n) ++
         [XText "CmdRef" [] (Results_CmdRef n)] ++ x_textIf "Cmd" (Results_Cmd n) ++
         x_meta (Results_Meta n) ++ x_textIf "TargetRef" (Results_TargetRef n) ++
         x_textIf "SourceRef" (Results_SourceRef n) ++ map x_item (Results_Items n))
  end.

Definition x_body (b : Body) : xnode :=
  XElem "SyncBody"
    (if Body_MSFTNamespace b then [mkAttr "xmlns:msft" NamespaceMSFT] else [])
    (map x_command (Body_Commands b) ++ x_when (Body_Final b) (XEmpty "Final")).

Definition x_message (m : Message) : xnode :=
  XElem "SyncML" [mkAttr "xmlns" (wire_namespace m)]
    [x_header (Msg_Header m); x_body (Msg_Body m)].

(** No Data of the message has both Value and XML. *)
Definition opt_clean (d : option Data) : bool :=
  match d with Some d => negb (data_conflict d) | None => true end.
Definition item_clean (it : Item) : bool := opt_clean (Item_Data it).
Fixpoint command_clean (c : Command) : bool :=
  match c with
  | CAdd n => forallb item_clean (Add_Items n)
  | CReplace n => forallb item_clean (Replace_Items n)
  | CDelete n => forallb item_clean (Delete_Items n)
  | CGet n => forallb item_clean (Get_Items n)
  | CExec n => forallb item_clean (Exec_Items n)
  | CAlert n => forallb item_clean (Alert_Items n)
  | CAtomic _ _ _ cs | CSequence _ _ _ cs => forallb command_clean cs
  | CStatus n => opt_clean (Some (Status_Data n)) && forallb item_clean (Status_Items n)
  | CResults n => forallb item_clean (Results_Items n)
  end.

(** ** The writer writes the tree

    [writes ok xs k]: when [ok], running [k] appends the nodes [xs] at the
    current depth and changes nothing else; otherwise it stops with
    ErrDataConflict.  [closes ok name xs k]: the same from inside the element
    [name], which [k] closes. *)
Definition emits (s : string) (w : writer) : writer :=
  mkWriter (w_buf w +:+ s) (w_indent w) (w_depth w).

Definition writes (ok : bool) (xs : list xnode) (k : W) : Prop :=
  ∀ w, 0 ≤ w_depth w →
    if ok then k w = (emits (render_all (w_indent w) (w_depth w) xs) w, Ok tt)
    else ∃ w', k w = (w', Err [syncml_ErrDataConflict]).

Definition closes (ok : bool) (name : string) (xs : list xnode) (k : W) : Prop :=
  ∀ w, 0 < w_depth w →
    if ok then k w = (mkWriter
        (w_buf w +:+ render_all (w_indent w) (w_depth w) xs +:+
         line_pad (w_indent w) (w_depth w - 1) +:+ "</" +:+ name +:+ ">" +:+
         line_end (w_indent w))
        (w_indent w) (w_depth w - 1), Ok tt)
    else ∃ w', k w = (w', Err [syncml_ErrDataConflict]).

(** Straight-line output: [k] appends [f indent depth] and succeeds. *)
Definition puts (f : string → Z → string) (k : W) : Prop :=
  ∀ w, k w = (emits (f (w_indent w) (w_depth w)) w, Ok tt).

Lemma puts_raw s : puts (λ _ _, s) (w_raw s).
Proof. by intros w. Qed.

Lemma emits_nil w : emits "" w = w.
Proof. destruct w; unfold emits; simpl. by rewrite str_app_nil_r. Qed.

Lemma puts_newline : puts (λ i _, line_end i) w_newline.
Proof.
  intros w. unfold w_newline, bind, get, line_end. case_decide; [|done].
  by rewrite emits_nil.
Qed.

Lemma puts_pad : puts line_pad w_pad.
Proof.
  intros w. unfold w_pad, bind, get, line_pad. case_decide; [|done].
  by rewrite emits_nil.
Qed.

Lemma puts_seq f g k l : puts f k → puts g l → puts (λ i d, f i d +:+ g i d) (k ;! l).
Proof.
  intros Hk Hl w. unfold bind. rewrite Hk, Hl. unfold emits. simpl.
  by rewrite str_app_assoc.
Qed.

Lemma puts_attrs attrs : puts (λ _ _, render_attrs attrs) (w_attrs attrs).
Proof.
  unfold w_attrs, render_attrs. induction attrs as [|a attrs IH]; intros w; simpl.
  - by rewrite emits_nil.
  - unfold bind at 1. cbn. rewrite IH. unfold emits. simpl.
    by rewrite <- !str_app_assoc.
Qed.

#[export] Hint Resolve puts_raw puts_newline puts_pad puts_attrs puts_seq : dm.

Lemma render_all_one i d x : render_all i d [x] = render i d x.
Proof. unfold render_all; simpl. by rewrite str_app_nil_r. Qed.

Lemma render_all_app i d xs ys :
  render_all i d (xs ++ ys) = render_all i d xs +:+ render_all i d ys.
Proof. unfold render_all. by rewrite map_app, str_concat_app. Qed.

Lemma puts_writes f x k : puts f k → (∀ i d, f i d = render i d x) → writes true [x] k.
Proof. intros Hk Hf w _. by rewrite Hk, Hf, render_all_one. Qed.

Lemma writes_text name v attrs : writes true [XText name attrs v] (w_text name v attrs).
Proof. eapply puts_writes; [unfold w_text; eauto 20 with dm|done]. Qed.

Lemma writes_empty name : writes true [XEmpty name] (w_empty name).
Proof. eapply puts_writes; [unfold w_empty; eauto 20 with dm|done]. Qed.

Lemma writes_nil : writes true [] (ret tt).
Proof. intros w _. unfold ret. unfold render_all; simpl. by rewrite emits_nil. Qed.

Lemma writes_when b x k : writes true [x] k → writes true (x_when b x) (w_when b k).
Proof. intros Hk. destruct b; [done|apply writes_nil]. Qed.

Lemma writes_textIf name v : writes true (x_textIf name v) (w_textIf name v).
Proof. apply writes_when, writes_text. Qed.

Lemma writes_app ok1 ok2 xs ys k l :
  writes ok1 xs k → writes ok2 ys l → writes (ok1 && ok2) (xs ++ ys) (k ;! l).
Proof.
  intros Hk Hl w Hw. specialize (Hk w Hw). unfold bind. destruct ok1; simpl.
  - rewrite Hk. specialize (Hl (emits (render_all (w_indent w) (w_depth w) xs) w) Hw).
    destruct ok2; [|done]. rewrite Hl. unfold emits; simpl.
    by rewrite render_all_app, str_app_assoc.
  - destruct Hk as [w' ->]. eauto.
Qed.

Lemma writes_mfor {A} (ok : A → bool) (x : A → xnode) (f : A → W) (l : list A) :
  (∀ a, a ∈ l → writes (ok a) [x a] (f a)) → writes (forallb ok l) (map x l) (mfor f l).
Proof.
  induction l as [|a l IH]; intros Hf; simpl; [apply writes_nil|].
  apply (writes_app _ _ [x a]).
  - apply Hf. apply list_elem_of_here.
  - apply IH. intros b Hb. apply Hf. by apply list_elem_of_further.
Qed.

Lemma writes_mfor_true {A} (x : A → xnode) (f : A → W) (l : list A) :
  (∀ a, writes true [x a] (f a)) → writes true (map x l) (mfor f l).
Proof.
  intros Hf. pose proof (writes_mfor (λ _, true) x f l (λ a _, Hf a)) as H.
  replace (forallb _ l) with true in H; [done|]. clear. by induction l.
Qed.

Lemma closes_close name : closes true name [] (w_close name).
Proof.
  intros w Hw. unfold w_close, bind at 1. unfold w_depth_add, modify.
  assert (puts (λ i d, line_pad i d +:+ ("</" +:+ (name +:+ (">" +:+ line_end i))))
    (w_pad ;! w_raw "</" ;! w_raw name ;! w_raw ">" ;! w_newline)) as Hp by eauto 20 with dm.
  rewrite Hp. unfold emits; simpl. by rewrite str_app_nil_l.
Qed.

Lemma closes_cons ok1 ok2 name xs ys k l :
  writes ok1 xs k → closes ok2 name ys l → closes (ok1 && ok2) name (xs ++ ys) (k ;! l).
Proof.
  intros Hk Hl w Hw. assert (0 ≤ w_depth w) as Hw' by lia. specialize (Hk w Hw').
  unfold bind. destruct ok1; simpl.
  - rewrite Hk. specialize (Hl (emits (render_all (w_indent w) (w_depth w) xs) w) Hw).
    destruct ok2; [|done]. rewrite Hl. unfold emits; simpl.
    by rewrite render_all_app, <- !str_app_assoc.
  - destruct Hk as [w' ->]. eauto.
Qed.

Lemma w_open_run name attrs w :
  w_open name attrs w =
  (mkWriter (w_buf w +:+ line_pad (w_indent w) (w_depth w) +:+ "<" +:+ name +:+
             render_attrs attrs +:+ ">" +:+ line_end (w_indent w))
     (w_indent w) (w_depth w + 1), Ok tt).
Proof.
  unfold w_open, bind. rewrite puts_pad, puts_raw, puts_raw, puts_attrs, puts_raw, puts_newline.
  unfold emits; simpl. by rewrite <- !str_app_assoc.
Qed.

Lemma writes_open ok name attrs xs k :
  closes ok name xs k → writes ok [XElem name attrs xs] (w_open name attrs ;! k).
Proof.
  intros Hk w Hw. unfold bind at 1 2. rewrite w_open_run.
  match goal with |- context [k ?w1] => specialize (Hk w1) end.
  simpl in Hk. destruct ok; [|apply Hk; lia].
  rewrite Hk, render_all_one by lia. simpl. unfold render_all, emits. simpl.
  replace (w_depth w + 1 - 1) with (w_depth w) by lia.
  by rewrite <- !str_app_assoc.
Qed.

#[export] Hint Resolve writes_text writes_empty writes_nil writes_when writes_textIf
  closes_close : dm.

(** Follow a chain of writer calls from an opening to its closing tag. *)
Lemma closes_eq ok ok' name xs ys k :
  closes ok name xs k → ok = ok' → xs = ys → closes ok' name ys k.
Proof. by intros ? -> ->. Qed.
Lemma writes_eq ok ok' xs ys k : writes ok xs k → ok = ok' → xs = ys → writes ok' ys k.
Proof. by intros ? -> ->. Qed.

Ltac element :=
  first [ eapply writes_eq; [apply writes_open; repeat (eapply closes_cons; [solve [eauto with dm]|]);
                             apply closes_close | |] ].

Lemma writes_location name l : writes true [x_location name l] (w_location name l).
Proof. unfold w_location. element; [done|]. unfold x_location. by rewrite app_nil_r. Qed.

Lemma writes_meta m : writes true (x_meta m) (w_meta m).
Proof.
  destruct m as [m|]; simpl; [|apply writes_nil].
  element; [done|]. by rewrite app_nil_r.
Qed.
#[export] Hint Resolve writes_location writes_meta : dm.

Arguments w_meta : simpl never.
Arguments x_meta : simpl never.

Lemma writes_cred c : writes true (x_cred c) (w_cred c).
Proof. destruct c as [c|]; simpl; [|apply writes_nil]. element; done. Qed.

Lemma writes_chal c : writes true (x_chal c) (w_chal c).
Proof.
  destruct c as [c|]; simpl; [|apply writes_nil]. element; [done|].
  by rewrite app_nil_r.
Qed.
#[export] Hint Resolve writes_cred writes_chal : dm.

Lemma writes_header h : writes true [x_header h] (w_header h).
Proof. unfold w_header, x_header. element; [done|]. simpl. by rewrite app_nil_r. Qed.

Lemma writes_data d : writes (opt_clean d) (x_data d) (w_data d).
Proof.
  destruct d as [d|]; simpl; [|apply writes_nil].
  destruct (data_conflict d); simpl; [by intros w _; eexists|].
  case_decide; [apply writes_text|].
  apply writes_open. intros w Hw. unfold bind at 1. rewrite puts_pad.
  unfold bind at 1. rewrite puts_raw. unfold bind at 1. rewrite puts_newline.
  rewrite (closes_close "Data") by done.
  unfold emits, render_all; simpl. by rewrite <- !str_app_assoc, ?str_app_nil_l.
Qed.

Lemma writes_uri name uri : writes true (x_uri name uri) (w_uri name uri).
Proof. apply writes_when. element; done. Qed.
#[export] Hint Resolve writes_header writes_data writes_uri : dm.

Lemma writes_item it : writes (item_clean it) [x_item it] (w_item it).
Proof.
  unfold w_item, x_item, item_clean. element; [simpl; by rewrite andb_true_r|].
  by rewrite app_nil_r.
Qed.

Lemma writes_items its : writes (forallb item_clean its) (map x_item its) (w_items its).
Proof. apply writes_mfor. intros. apply writes_item. Qed.
#[export] Hint Resolve writes_items : dm.

Lemma writes_itemCommand name cmdID nr lang cred meta its :
  writes (forallb item_clean its) [x_itemCommand name cmdID nr lang cred meta its]
    (w_itemCommand name cmdID nr lang cred meta its).
Proof.
  unfold w_itemCommand, x_itemCommand, x_head.
  element; simpl; [by rewrite andb_true_r|by rewrite app_nil_r].
Qed.
#[export] Hint Resolve writes_itemCommand : dm.

Lemma writes_group name cmdID nr meta ok xs k :
  writes ok xs k →
  writes ok [XElem name [] (x_head cmdID nr ++ x_meta meta ++ xs)]
    (w_group name cmdID nr meta k).
Proof.
  intros Hk. unfold w_group, x_head.
  element; simpl; [by rewrite andb_true_r|by rewrite app_nil_r].
Qed.

Lemma writes_refs name rs : writes true (map (XText name []) rs) (mfor (λ r, w_text name r []) rs).
Proof. apply writes_mfor_true. intros. apply writes_text. Qed.
#[export] Hint Resolve writes_refs : dm.

Lemma writes_command c : writes (command_clean c) [x_command c] (w_command c).
Proof.
  induction c using Command_nested_ind; cbn [w_command x_command command_clean];
    try apply writes_itemCommand.
  3, 4: apply writes_group; induction H as [|c cs Hc _ IH]; simpl;
    [apply writes_nil|by apply (writes_app _ _ [x_command c])].
  all: unfold x_head; element; simpl; rewrite ?andb_true_r, ?app_nil_r; done.
Qed.

Lemma writes_body b : writes (forallb command_clean (Body_Commands b)) [x_body b] (w_body b).
Proof.
  assert (∀ attrs, writes (forallb command_clean (Body_Commands b))
    [XElem "SyncBody" attrs
      (map x_command (Body_Commands b) ++ x_when (Body_Final b) (XEmpty "Final"))]
    (w_open "SyncBody" attrs ;! mfor w_command (Body_Commands b) ;!
     w_when (Body_Final b) (w_empty "Final") ;! w_close "SyncBody")) as Hb.
  { intros attrs.
    pose proof (writes_mfor command_clean x_command w_command (Body_Commands b)
      (λ c _, writes_command c)).
    element; [by rewrite !andb_true_r|by rewrite app_nil_r]. }
  unfold w_body, x_body. destruct (Body_MSFTNamespace b); apply Hb.
Qed.

Lemma run_writer_writes ok xs indent k :
  writes ok xs k →
  run_writer indent k =
  if ok then Ok (render_all indent 0 xs) else Err [syncml_ErrDataConflict].
Proof.
  intros Hk. unfold run_writer. specialize (Hk (mkWriter "" indent 0)). simpl in Hk.
  destruct ok; [by rewrite Hk|]. by destruct Hk as [w' ->].
Qed.

(** No Data of the body's commands has both Value and XML. *)
Definition body_clean (b : Body) : bool := forallb command_clean (Body_Commands b).

(** ** Escaping *)

(** The references an XML parser expands. *)
Definition unescape_ref (s : string) : option (ascii * nat) :=
  if HasPrefix s "&#34;" then Some (byte_of 34, 5%nat)
  else if HasPrefix s "&#39;" then Some (byte_of 39, 5%nat)
  else if HasPrefix s "&amp;" then Some (byte_of 38, 5%nat)
  else if HasPrefix s "&lt;" then Some (byte_of 60, 4%nat)
  else if HasPrefix s "&gt;" then Some (byte_of 62, 4%nat)
  else if HasPrefix s "&#x9;" then Some (byte_of 9, 5%nat)
  else if HasPrefix s "&#xA;" then Some (byte_of 10, 5%nat)
  else if HasPrefix s "&#xD;" then Some (byte_of 13, 5%nat)
  else None.

Fixpoint unescape_fuel (fuel : nat) (s : string) : string :=
  match fuel, s with
  | S fuel, String c s' =>
      match unescape_ref s with
      | Some (b, n) => String b (unescape_fuel fuel (sdrop n s))
      | None => String c (unescape_fuel fuel s')
      end
  | _, _ => ""
  end.
Definition unescape (s : string) : string := unescape_fuel (String.length s) s.

(** Every rune of [s] is a well-encoded XML character. *)
Fixpoint xml_chars_fuel (fuel : nat) (s : string) : bool :=
  match fuel, s with
  | S fuel, String _ _ =>
      let '(r, w) := decode_rune s in
      isInCharacterRange r && negb ((r =? RuneError) && Nat.eqb w 1) &&
      xml_chars_fuel fuel (sdrop w s)
  | _, _ => true
  end.
Definition xml_chars (s : string) : bool := xml_chars_fuel (String.length s) s.

Definition high (c : ascii) : bool := 128 <=? byte_val c.

(** Characters that end text or an attribute value. *)
Definition markup_char (c : ascii) : bool :=
  let b := byte_val c in (b =? 60) || (b =? 62) || (b =? 34) || (b =? 39).

Lemma cont_byte_ge lo hi c x :
  128 ≤ lo → cont_byte lo hi c = Some x → high c = true ∧ lo - 128 ≤ x.
Proof.
  unfold cont_byte, high. intros Hlo. destruct (_ && _) eqn:E; [|done]. intros [= <-].
  btrue. split; [apply Z.leb_le|]; lia.
Qed.

(** A rune is one ASCII byte or a run of high bytes. *)
Lemma decode_rune_cases c s :
  let '(r, w) := decode_rune (String c s) in
  (r = byte_val c ∧ byte_val c < 128 ∧ w = 1%nat) ∨
  (128 ≤ byte_val c ∧ (1 ≤ w)%nat ∧ 128 ≤ r ∧ str_forall high (stake w (String c s)) = true).
Proof.
  unfold decode_rune. destruct (Z.ltb_spec (byte_val c) 128); [by left|].
  assert (high c = true) as Hc by (apply Z.leb_le; lia).
  assert (128 ≤ byte_val c ∧ (1 ≤ 1)%nat ∧ 128 ≤ RuneError ∧
    str_forall high (stake 1 (String c s)) = true) as Hone.
  { unfold RuneError. simpl. rewrite Hc. split_and!; [lia..|done]. }
  destruct ((194 <=? _) && _) eqn:E2; [|destruct ((224 <=? _) && _) eqn:E3;
    [|destruct ((240 <=? _) && _) eqn:E4; [|by right]]]; btrue.
  - destruct s as [|c1 s]; [by right|]. destruct (cont_byte _ _ c1) eqn:Q1; [|by right].
    apply cont_byte_ge in Q1 as [G1 L1]; [|lia].
    right. simpl. rewrite Hc, G1. split_and!; [lia..|done].
  - destruct s as [|c1 [|c2 s]]; [by right..|].
    destruct (cont_byte _ _ c1) eqn:Q1; [|by right].
    destruct (cont_byte _ _ c2) eqn:Q2; [|by right].
    apply cont_byte_ge in Q2 as [G2 L2]; [|lia].
    apply cont_byte_ge in Q1 as [G1 L1]; [|case_match; lia].
    right. simpl. rewrite Hc, G1, G2. split_and!; [lia..| |done].
    destruct (Z.eqb_spec (byte_val c) 224); lia.
  - destruct s as [|c1 [|c2 [|c3 s]]]; [by right..|].
    destruct (cont_byte _ _ c1) eqn:Q1; [|by right].
    destruct (cont_byte _ _ c2) eqn:Q2; [|by right].
    destruct (cont_byte _ _ c3) eqn:Q3; [|by right].
    apply cont_byte_ge in Q2 as [G2 L2]; [|lia]. apply cont_byte_ge in Q3 as [G3 L3]; [|lia].
    apply cont_byte_ge in Q1 as [G1 L1]; [|case_match; lia].
    right. simpl. rewrite Hc, G1, G2, G3. split_and!; [lia..| |done].
    destruct (Z.eqb_spec (byte_val c) 240); lia.
Qed.

(** Unescaping by equations, free of fuel. *)
Lemma sdrop_le n s : (String.length (sdrop n s) ≤ String.length s)%nat.
Proof. rewrite length_sdrop. lia. Qed.

Lemma unescape_ref_pos s b n : unescape_ref s = Some (b, n) → (1 ≤ n)%nat.
Proof. unfold unescape_ref. intros E. repeat case_match; simplify_eq; lia. Qed.

Lemma unescape_fuel_enough f g s :
  (String.length s ≤ f)%nat → (String.length s ≤ g)%nat →
  unescape_fuel f s = unescape_fuel g s.
Proof.
  revert g s. induction f as [|f IH]; intros g s Hf Hg.
  - destruct s; simpl in Hf; [by destruct g|lia].
  - destruct s as [|c s]; [by destruct g|]. destruct g as [|g]; [simpl in Hg; lia|].
    cbn [unescape_fuel].
    destruct (unescape_ref _) as [[b n]|] eqn:E; f_equal; simpl in Hf, Hg.
    + apply unescape_ref_pos in E. destruct n as [|n]; [lia|]. simpl.
      pose proof (sdrop_le n s). apply IH; lia.
    + apply IH; lia.
Qed.

Lemma unescape_unfold s :
  unescape s =
  match s with
  | EmptyString => ""
  | String c s' =>
      match unescape_ref s with
      | Some (b, n) => String b (unescape (sdrop n s))
      | None => String c (unescape s')
      end
  end.
Proof.
  destruct s as [|c s]; [done|]. unfold unescape at 1. cbn [String.length unescape_fuel].
  destruct (unescape_ref _) as [[b n]|] eqn:E; f_equal.
  apply unescape_ref_pos in E. destruct n as [|n]; [lia|]. simpl.
  apply unescape_fuel_enough; [apply sdrop_le|done].
Qed.

Lemma unescape_plain c t : byte_val c ≠ 38 → unescape (String c t) = String c (unescape t).
Proof.
  intros Hc. rewrite unescape_unfold.
  assert (unescape_ref (String c t) = None) as ->; [|done].
  assert (∀ p, HasPrefix (String c t) (String "&" p) = false) as Hp.
  { intros p. unfold HasPrefix. cbn [String.prefix].
    destruct (Ascii.ascii_dec "&" c) as [<-|]; [by destruct Hc|done]. }
  unfold unescape_ref. by rewrite !Hp.
Qed.

Lemma unescape_high h t : str_forall high h = true → unescape (h +:+ t) = h +:+ unescape t.
Proof.
  induction h as [|c h IH]; simpl; [by rewrite !str_app_nil_l|].
  intros E. btrue. rewrite !str_app_cons, unescape_plain, IH; [done..|].
  unfold high in *. btrue. lia.
Qed.

Lemma escape_ascii c s t :
  byte_val c < 128 → isInCharacterRange (byte_val c) = true →
  unescape (escape_rune (byte_val c) 1 (String c s) +:+ t) = String c (unescape t).
Proof.
  intros Hc Hr.
  assert (∀ n, byte_val c = n → c = byte_of n) as Hn by (intros n <-; by rewrite byte_of_val).
  unfold escape_rune. rewrite Hr.
  repeat match goal with
    | |- context [if byte_val c =? ?n then _ else _] =>
        destruct (Z.eqb_spec (byte_val c) n) as [E|]; 
        [rewrite (Hn _ E), unescape_unfold; by destruct t|]
    end.
  destruct (Z.eqb_spec (byte_val c) RuneError); [unfold RuneError in *; lia|].
  by apply (unescape_plain c t).
Qed.

Lemma escape_high r w s :
  128 ≤ r → isInCharacterRange r = true → (r =? RuneError) && Nat.eqb w 1 = false →
  escape_rune r w s = stake w s.
Proof.
  intros Hr Hc Hw. unfold escape_rune. rewrite Hc, Hw.
  repeat match goal with
    | |- context [if r =? ?n then _ else _] => destruct (Z.eqb_spec r n); [lia|]
    end. done.
Qed.

Lemma unescape_escape_fuel f s :
  (String.length s ≤ f)%nat → xml_chars_fuel f s = true → unescape (escape_fuel f s) = s.
Proof.
  revert s. induction f as [|f IH]; intros s Hf.
  - by destruct s; [|simpl in Hf; lia].
  - destruct s as [|c s]; [done|]. cbn [xml_chars_fuel escape_fuel].
    pose proof (decode_rune_cases c s) as Hd.
    destruct (decode_rune (String c s)) as [r w]. intros E. btrue.
    destruct Hd as [(-> & Hc & ->)|(Hc & Hw & Hr & Hh)].
    + rewrite escape_ascii by done. f_equal. apply IH; [simpl in Hf; simpl; lia|done].
    + rewrite escape_high, unescape_high by done.
      rewrite IH; [apply stake_sdrop| |done].
      rewrite length_sdrop. simpl in *. lia.
Qed.

Definition no_markup (s : string) : bool := str_forall (λ c, negb (markup_char c)) s.

Lemma high_no_markup h : str_forall high h = true → no_markup h = true.
Proof.
  unfold no_markup. induction h as [|c h IH]; simpl; [done|]. intros E. btrue.
  rewrite IH by done. unfold high, markup_char in *. btrue.
  repeat match goal with |- context [?a =? ?b] => destruct (Z.eqb_spec a b); [lia|] end.
  done.
Qed.

Lemma escape_no_markup f s : no_markup (escape_fuel f s) = true.
Proof.
  revert s. induction f as [|f IH]; intros s; [by destruct s|].
  destruct s as [|c s]; [done|]. cbn [escape_fuel].
  pose proof (decode_rune_cases c s) as Hd.
  destruct (decode_rune (String c s)) as [r w].
  unfold no_markup in *. rewrite str_forall_app, IH, andb_true_r. unfold escape_rune.
  repeat match goal with
    | |- context [if r =? ?n then _ else _] => destruct (Z.eqb_spec r n); [done|]
    end.
  case_match; [done|].
  destruct Hd as [(-> & Hc & ->)|(Hc & Hw & Hr & Hh)]; [|by apply high_no_markup].
  simpl. unfold markup_char.
  repeat match goal with |- context [?a =? ?b] => destruct (Z.eqb_spec a b); [lia|] end.
  done.
Qed.

Lemma Encode_render m opts :
  Encode m opts =
  if body_clean (Msg_Body m) then
    Ok ((if eo_XMLDeclaration opts then xml_declaration +:+ line_end (eo_Indent opts) else "")
        +:+ render (eo_Indent opts) 0 (x_message m))
  else Err [syncml_ErrDataConflict].
Proof.
  assert (writes (body_clean (Msg_Body m)) [x_message m]
    (w_open "SyncML" [mkAttr "xmlns" (wire_namespace m)] ;! w_header (Msg_Header m) ;!
     w_body (Msg_Body m) ;! w_close "SyncML")) as Hm.
  { pose proof (writes_body (Msg_Body m)).
    element; [by rewrite andb_true_r|done]. }
  unfold Encode, run_writer.
  assert (∀ pre, w_when (eo_XMLDeclaration opts) (w_raw xml_declaration ;! w_newline)
    (mkWriter pre (eo_Indent opts) 0) = (mkWriter (pre +:+ if eo_XMLDeclaration opts
      then xml_declaration +:+ line_end (eo_Indent opts) else "") (eo_Indent opts) 0, Ok tt))
    as Hd.
  { intros pre. destruct (eo_XMLDeclaration opts); simpl; [|by rewrite str_app_nil_r].
    unfold bind. rewrite puts_raw, puts_newline. unfold emits; simpl.
    by rewrite str_app_assoc. }
  unfold bind at 1. rewrite Hd, str_app_nil_l.
  match goal with |- context [bind _ _ ?w] => specialize (Hm w ltac:(simpl; lia)) end.
  destruct (body_clean (Msg_Body m)); [|by destruct Hm as [w' ->]].
  rewrite Hm. unfold emits; simpl. by rewrite render_all_one.
Qed.

(** ** Properties *)

(** Encode writes exactly the message's element tree in DTD order (after
    the optional XML declaration), indented by depth, whatever the options; it
    fails, with ErrDataConflict, exactly when a Data has both Value and XML. *)
Theorem encode_renders m opts :
  Encode m opts =
  if body_clean (Msg_Body m) then
    Ok ((if eo_XMLDeclaration opts then xml_declaration +:+ line_end (eo_Indent opts) else "")
        +:+ render (eo_Indent opts) 0 (x_message m))
  else Err [syncml_ErrDataConflict].
Proof. apply Encode_render. Qed.

(** A text element carries its value safely: what stands between the tags
    holds no character that could open markup or end an attribute, and when
    the value consists of XML characters, expanding the references in it
    gives the value back. *)
Theorem text_element_safe name value w :
  ∃ escaped,
    w_text name value [] w =
      (emits (line_pad (w_indent w) (w_depth w) +:+ "<" +:+ name +:+ ">" +:+ escaped +:+
              "</" +:+ name +:+ ">" +:+ line_end (w_indent w)) w, Ok tt) ∧
    no_markup escaped = true ∧
    (xml_chars value = true → unescape escaped = value).
Proof.
  exists (EscapeText value). split_and!.
  - unfold w_text, bind.
    rewrite puts_pad, puts_raw, puts_raw, puts_attrs, puts_raw, puts_raw, puts_raw, puts_raw,
      puts_raw, puts_newline.
    unfold emits; simpl. by rewrite <- !str_app_assoc, str_app_nil_l.
  - apply escape_no_markup.
  - by apply unescape_escape_fuel.
Qed.
