(* ===== verification/Utf8.v ===== *)
(** * Well-formed text

    Strings of XML characters in UTF-8 as sequences of encoded characters: they
    are closed under concatenation and under strings.TrimSpace, which is
    idempotent. *)
From stdpp Require Import base gmap strings list.
From Stdlib Require Import ZArith Lia Ascii ZifyBool.
From S2P Require Import Prelude GoStrings SyncmlModel Response Encode.

Local Open Scope Z_scope.

(** ** Characters *)

Definition cont (c : ascii) : bool := (128 <=? byte_val c) && (byte_val c <=? 191).

(** An XML character, and not the mark of an invalid encoding. *)
Definition ok_rune (r : Z) (w : nat) : bool :=
  isInCharacterRange r && negb ((r =? RuneError) && Nat.eqb w 1).

(** The encoding of one XML character. *)
Definition char_enc (p : string) : Prop :=
  ∃ r, (∀ t, decode_rune (p +:+ t) = (r, String.length p)) ∧
    ok_rune r (String.length p) = true ∧
    ∃ c s, p = String c s ∧ cont c = false ∧ str_forall cont s = true.

Lemma cont_byte_cont lo hi c x : 128 ≤ lo → hi ≤ 191 → cont_byte lo hi c = Some x → cont c = true.
Proof.
  unfold cont_byte, cont. intros Hlo Hhi. destruct (_ && _) eqn:E; [|done]. intros _. btrue.
  apply andb_true_iff. rewrite !Z.leb_le. lia.
Qed.

(** Every valid first rune is an encoding. *)
Lemma decode_rune_enc s r w :
  s ≠ "" → decode_rune s = (r, w) →
  ok_rune r w = true →
  char_enc (stake w s) ∧ (1 ≤ w ≤ String.length s)%nat.
Proof.
  intros Hs E Hv. destruct s as [|c0 s]; [done|].
  assert (∀ k, decode_rune (String c0 s) = (RuneError, k) → k = 1%nat → False) as Hbad.
  { intros k E' Hk. rewrite E in E'. by simplify_eq. }
  unfold decode_rune in E, Hbad. destruct (Z.ltb_spec (byte_val c0) 128) as [H0|H0].
  { injection E as <- <-. simpl. split; [|lia]. eexists. refine (conj _ (conj Hv _)).
    - intros t. rewrite str_app_cons, str_app_nil_l. cbn [decode_rune String.length]. destruct (Z.ltb_spec (byte_val c0) 128); [done|lia].
    - exists c0, "". split; [done|]. split; [|done]. unfold cont.
      destruct (Z.leb_spec 128 (byte_val c0)); [lia|done]. }
  assert (∀ p, (194 ≤ byte_val c0) → str_forall cont p = true → 
    ∃ c s, String c0 p = String c s ∧ cont c = false ∧ str_forall cont s = true) as Hsh.
  { intros p Hc Hp. exists c0, p. split; [done|]. split; [|done]. unfold cont.
    destruct (Z.leb_spec (byte_val c0) 191); [lia|by rewrite andb_false_r]. }
  destruct ((194 <=? _) && _) eqn:E2; [|destruct ((224 <=? _) && _) eqn:E3;
    [|destruct ((240 <=? _) && _) eqn:E4; [|by destruct (Hbad 1%nat)]]]; btrue.
  - destruct s as [|c1 s]; [by destruct (Hbad 1%nat)|].
    destruct (cont_byte 128 191 c1) as [x1|] eqn:Q1; [|by destruct (Hbad 1%nat)].
    injection E as <- <-. split; [|simpl; lia]. simpl. eexists. refine (conj _ (conj Hv _)).
    + intros t. rewrite !str_app_cons, str_app_nil_l. unfold decode_rune.
      destruct (Z.ltb_spec (byte_val c0) 128); [lia|].
      rewrite (proj2 (Z.leb_le 194 _)), (proj2 (Z.leb_le _ 223)) by done. simpl. by rewrite Q1.
    + apply Hsh; [done|]. simpl. by rewrite (cont_byte_cont 128 191 c1 x1) by done.
  - destruct s as [|c1 [|c2 s]]; [by destruct (Hbad 1%nat)..|].
    destruct (cont_byte _ _ c1) as [x1|] eqn:Q1; [|by destruct (Hbad 1%nat)].
    destruct (cont_byte 128 191 c2) as [x2|] eqn:Q2; [|by destruct (Hbad 1%nat)].
    injection E as <- <-. split; [|simpl; lia]. simpl. eexists. refine (conj _ (conj Hv _)).
    + intros t. rewrite !str_app_cons, str_app_nil_l. unfold decode_rune.
      destruct (Z.ltb_spec (byte_val c0) 128); [lia|].
      rewrite E2. rewrite (proj2 (Z.leb_le 224 _)), (proj2 (Z.leb_le _ 239)) by done. simpl.
      by rewrite Q1, Q2.
    + apply Hsh; [lia|]. simpl. rewrite (cont_byte_cont 128 191 c2 x2) by done.
      by erewrite (cont_byte_cont _ _ c1 x1); [done|..|exact Q1]; clear; case_match; lia.
  - destruct s as [|c1 [|c2 [|c3 s]]]; [by destruct (Hbad 1%nat)..|].
    destruct (cont_byte _ _ c1) as [x1|] eqn:Q1; [|by destruct (Hbad 1%nat)].
    destruct (cont_byte 128 191 c2) as [x2|] eqn:Q2; [|by destruct (Hbad 1%nat)].
    destruct (cont_byte 128 191 c3) as [x3|] eqn:Q3; [|by destruct (Hbad 1%nat)].
    injection E as <- <-. split; [|simpl; lia]. simpl. eexists. refine (conj _ (conj Hv _)).
    + intros t. rewrite !str_app_cons, str_app_nil_l. unfold decode_rune.
      destruct (Z.ltb_spec (byte_val c0) 128); [lia|].
      rewrite E2, E3. rewrite (proj2 (Z.leb_le 240 _)), (proj2 (Z.leb_le _ 244)) by done. simpl.
      by rewrite Q1, Q2, Q3.
    + apply Hsh; [lia|]. simpl. rewrite (cont_byte_cont 128 191 c2 x2) by done.
      rewrite (cont_byte_cont 128 191 c3 x3) by done.
      by erewrite (cont_byte_cont _ _ c1 x1); [done|..|exact Q1]; clear; case_match; lia.
Qed.

(** ** Sequences of characters *)

Inductive chars : string → Prop :=
| chars_nil : chars ""
| chars_cons p s : char_enc p → chars s → chars (p +:+ s).

Lemma char_enc_nonempty p : char_enc p → (1 ≤ String.length p)%nat.
Proof. intros (r & _ & _ & c & s & -> & _). simpl. lia. Qed.

Lemma chars_xml_fuel s f : chars s → (String.length s ≤ f)%nat → xml_chars_fuel f s = true.
Proof.
  intros Hs. revert f. induction Hs as [|p s Hp _ IH]; intros f Hf; [by destruct f|].
  pose proof (char_enc_nonempty _ Hp). destruct Hp as (r & Hd & Hr & c & q & Ep & _).
  rewrite str_length_app in Hf. destruct f as [|f]; [lia|].
  specialize (Hd s). rewrite Ep, str_app_cons in Hd |- *. cbn [xml_chars_fuel].
  rewrite Hd, <- str_app_cons, <- Ep. unfold ok_rune in Hr. rewrite Hr, sdrop_app. apply IH. lia.
Qed.

Lemma xml_fuel_chars f s : xml_chars_fuel f s = true → (String.length s ≤ f)%nat → chars s.
Proof.
  revert s. induction f as [|f IH]; intros s E Hf; [destruct s; [constructor|simpl in Hf; lia]|].
  destruct s as [|c s]; [constructor|]. cbn [xml_chars_fuel] in E.
  destruct (decode_rune (String c s)) as [r w] eqn:Ed. apply andb_true_iff in E as [Hr E].
  apply decode_rune_enc in Ed as [Hp Hw]; [|done|done].
  rewrite <- (stake_sdrop w (String c s)). constructor; [done|]. apply IH; [done|].
  rewrite length_sdrop. simpl in *. lia.
Qed.

Lemma xml_chars_iff s : xml_chars s = true ↔ chars s.
Proof. split; intros H; [by eapply xml_fuel_chars; [|done]|by apply chars_xml_fuel]. Qed.

Lemma chars_app s t : chars s → chars t → chars (s +:+ t).
Proof. induction 1; intros Ht; [done|]. rewrite <- str_app_assoc. constructor; auto. Qed.

(** A sequence splits before every byte that does not continue a character. *)
Lemma chars_split s t c u : chars s → s = t +:+ String c u → cont c = false →
  chars t ∧ chars (String c u).
Proof.
  intros Hs. revert t. induction Hs as [|p s Hp Hs IH]; intros t E Hc; [by destruct t|].
  destruct (decide (String.length p ≤ String.length t)%nat) as [Hle|Hgt].
  - assert (∃ t', t = p +:+ t' ∧ s = t' +:+ String c u) as (t' & -> & E').
    { clear -E Hle. revert t E Hle. induction p as [|a p IH]; intros t E Hle; [by exists t|].
      destruct t as [|b t]; [simpl in Hle; lia|]. rewrite !str_app_cons in E.
      injection E as <- E. destruct (IH t E) as (t' & -> & ->); [simpl in Hle; lia|].
      by exists t'. }
    destruct (IH _ E' Hc). split; [by constructor|done].
  - destruct t as [|b t]; [rewrite str_app_nil_l in E; subst; split; [constructor|]|].
    { rewrite <- E. by constructor. }
    exfalso. destruct Hp as (r & _ & _ & c0 & q & -> & _ & Hq).
    rewrite !str_app_cons in E. injection E as _ E.
    assert (str_forall cont (String c "") = true); [|simpl in *; by rewrite Hc in *].
    clear -E Hgt Hq. revert q E Hgt Hq. induction t as [|b' t IH]; intros q E Hgt Hq.
    + rewrite str_app_nil_l in E. destruct q as [|d q]; [simpl in Hgt; lia|].
      injection E as -> _. simpl in *. by destruct (cont c).
    + destruct q as [|d q]; [simpl in Hgt; lia|]. injection E as _ E.
      apply (IH q); [done|simpl in *; lia|]. simpl in Hq. by btrue.
Qed.

(** ** Trimming *)

Lemma is_ascii_space_low c : is_ascii_space c = true → byte_val c < 128.
Proof. unfold is_ascii_space. lia. Qed.

(** A white-space character is the first character of the text it starts. *)
Lemma space_prefix_decode s n :
  space_prefix s = S n →
  snd (decode_rune s) = S n ∧ ∃ c u, s = String c u ∧ cont c = false.
Proof.
  destruct s as [|a s]; [done|]. unfold space_prefix.
  destruct (is_ascii_space a) eqn:Ea.
  { apply is_ascii_space_low in Ea. intros [= <-]. unfold decode_rune, cont.
    destruct (Z.ltb_spec (byte_val a) 128); [|lia]. split; [done|]. exists a, s. split; [done|].
    destruct (Z.leb_spec 128 (byte_val a)); [lia|done]. }
  destruct s as [|b s]; [done|].
  destruct ((byte_val a =? 0xC2) && _) eqn:E2.
  { intros [= <-]. apply andb_true_iff in E2 as [Ha Hb]. apply Z.eqb_eq in Ha.
    unfold decode_rune, cont, cont_byte. rewrite Ha. split; [|exists a, (String b s)];
      [|by rewrite Ha]. simpl. destruct (_ && _) eqn:E; [done|]. lia. }
  destruct s as [|c s]; [done|]. match goal with
    | |- context [if ?x then 3%nat else _] => destruct x eqn:E3
    end; [|done]. intros [= <-].
  assert ((byte_val a = 0xE1 ∨ byte_val a = 0xE2 ∨ byte_val a = 0xE3) ∧
    128 ≤ byte_val b ≤ 191 ∧ 128 ≤ byte_val c ≤ 191) as (Ha & Hb & Hc) by lia.
  split.
  - assert (∀ d, 128 ≤ byte_val d ≤ 191 → cont_byte 128 191 d = Some (byte_val d - 128)) as Hd.
    { intros d Hd. unfold cont_byte. by rewrite !(proj2 (Z.leb_le _ _)) by lia. }
    pose proof (Hd b Hb) as Qb. pose proof (Hd c Hc) as Qc. unfold decode_rune.
    destruct Ha as [-> | [-> | ->]]; cbn [Z.ltb Z.leb Z.eqb Z.compare andb Pos.compare
      Pos.compare_cont Pos.eqb]; by rewrite Qb, Qc.
  - exists a, (String b (String c s)). split; [done|]. unfold cont.
    by destruct Ha as [-> | [-> | ->]].
Qed.

Lemma chars_trim_left_fuel f s : chars s → chars (trim_left_fuel f s).
Proof.
  revert s. induction f as [|f IH]; intros s Hs; [done|]. cbn [trim_left_fuel].
  destruct (space_prefix s) as [|n] eqn:E; [done|]. apply IH.
  apply space_prefix_decode in E as [E _]. destruct Hs as [|p s Hp Hs]; [done|].
  destruct Hp as (r & Hd & _). rewrite Hd in E. simpl in E. by rewrite <- E, sdrop_app.
Qed.

(** White space at the end starts with a byte that starts a character. *)
Lemma space_suffix_split r n :
  space_suffix_rev r = S n →
  ∃ c u, srev r = srev (sdrop (S n) r) +:+ String c u ∧ cont c = false.
Proof.
  unfold space_suffix_rev. destruct r as [|c r]; [done|]. destruct (is_ascii_space c) eqn:Ec.
  { intros [= <-]. exists c, "". rewrite srev_cons. split; [done|].
    apply is_ascii_space_low in Ec. unfold cont. lia. }
  destruct r as [|b r]; [done|]. destruct (Nat.eqb_spec (space_prefix (String b (String c ""))) 2).
  { intros [= <-]. apply space_prefix_decode in e as [_ (c' & u & E & Hc)].
    injection E as <- <-. exists b, (String c ""). split; [|done].
    rewrite !srev_cons, <- str_app_assoc. by rewrite str_app_cons, str_app_nil_l. }
  destruct r as [|a r]; [done|].
  destruct (Nat.eqb_spec (space_prefix (String a (String b (String c "")))) 3); [|done].
  intros [= <-]. apply space_prefix_decode in e as [_ (c' & u & E & Hc)].
  injection E as <- <-. exists a, (String b (String c "")). split; [|done].
  rewrite !srev_cons, <- !str_app_assoc. by rewrite !str_app_cons, !str_app_nil_l.
Qed.

Lemma chars_trim_right_fuel f r : chars (srev r) → chars (srev (trim_right_rev_fuel f r)).
Proof.
  revert r. induction f as [|f IH]; intros r Hr; [done|]. cbn [trim_right_rev_fuel].
  destruct (space_suffix_rev r) as [|n] eqn:E; [done|]. apply IH.
  apply space_suffix_split in E as (c & u & E & Hc). by eapply chars_split in Hr as [? _].
Qed.

Lemma chars_TrimSpace s : chars s → chars (TrimSpace s).
Proof.
  intros Hs. apply chars_trim_right_fuel. rewrite srev_srev. by apply chars_trim_left_fuel.
Qed.

(** *** Trimming is idempotent *)

Lemma trim_left_done s f : (String.length s ≤ f)%nat → space_prefix (trim_left_fuel f s) = 0%nat.
Proof.
  revert s. induction f as [|f IH]; intros s Hf; [by destruct s; [|simpl in Hf; lia]|].
  cbn [trim_left_fuel]. destruct (space_prefix s) as [|n] eqn:E; [done|]. apply IH.
  rewrite length_sdrop. lia.
Qed.

Lemma trim_right_done r f :
  (String.length r ≤ f)%nat → space_suffix_rev (trim_right_rev_fuel f r) = 0%nat.
Proof.
  revert r. induction f as [|f IH]; intros r Hf; [by destruct r; [|simpl in Hf; lia]|].
  cbn [trim_right_rev_fuel]. destruct (space_suffix_rev r) as [|n] eqn:E; [done|]. apply IH.
  rewrite length_sdrop. lia.
Qed.

Lemma trim_left_none s : space_prefix s = 0%nat → trim_left s = s.
Proof. unfold trim_left. destruct (String.length s); [done|]. cbn [trim_left_fuel]. by intros ->. Qed.

Lemma trim_right_none s : space_suffix_rev (srev s) = 0%nat → trim_right s = s.
Proof.
  unfold trim_right. destruct (String.length s); cbn [trim_right_rev_fuel];
    [|intros ->]; intros; apply srev_srev.
Qed.

(** A text between brackets is not trimmed away. *)
Lemma space_before_bracket r : space_suffix_rev (String ">" r) = 0%nat.
Proof.
  destruct r as [|b r]; [done|]. unfold space_suffix_rev. change (is_ascii_space ">") with false.
  cbn iota. unfold space_prefix. change (byte_val ">") with 62. cbn [Z.eqb Z.leb Z.compare Pos.eqb Pos.compare Pos.compare_cont].
  rewrite !andb_false_r. destruct (is_ascii_space b); cbn [Nat.eqb];
  (destruct r as [|a r]; [done|]; destruct (is_ascii_space a); [done|];
   cbn [orb andb]; rewrite ?andb_false_r; cbn [orb andb]; by destruct (_ && _)).
Qed.
Lemma space_after_bracket s : space_prefix (String "<" s) = 0%nat.
Proof. by destruct s as [|b [|c s]]. Qed.
Lemma trim_bracketed s t : s = "<" +:+ t +:+ ">" → TrimSpace s = s.
Proof.
  intros ->. unfold TrimSpace. rewrite trim_left_none by apply space_after_bracket.
  apply trim_right_none. rewrite str_app_assoc. unfold srev.
  assert (∀ u acc, srev_app (u +:+ ">") acc = String ">" (srev_app u acc)) as ->.
  { induction u as [|c u IH]; intros acc; [done|]. rewrite str_app_cons. cbn [srev_app]. apply IH. }
  apply space_before_bracket.
Qed.
Lemma bracketed_body s t : s = "<" +:+ t +:+ ">" → (len (TrimSpace s) =? 0) = false.
Proof. intros E. rewrite (trim_bracketed _ _ E), E. by apply Z.eqb_neq. Qed.

(** What trimming at the end leaves is a prefix. *)
Lemma trim_right_fuel_prefix f r : ∃ t, srev r = srev (trim_right_rev_fuel f r) +:+ t.
Proof.
  revert r. induction f as [|f IH]; intros r; cbn [trim_right_rev_fuel];
    [exists ""; by rewrite str_app_nil_r|].
  destruct (space_suffix_rev r) as [|n] eqn:E; [exists ""; by rewrite str_app_nil_r|].
  apply space_suffix_split in E as (c & u & -> & _). destruct (IH (sdrop (S n) r)) as [t Ht].
  exists (t +:+ String c u). by rewrite str_app_assoc, <- Ht.
Qed.

Lemma trim_right_prefix s : ∃ t, s = trim_right s +:+ t.
Proof.
  destruct (trim_right_fuel_prefix (String.length s) (srev s)) as [t Ht].
  exists t. by rewrite srev_srev in Ht.
Qed.

Lemma space_prefix_extend s t : space_prefix (s +:+ t) = 0%nat → space_prefix s = 0%nat.
Proof.
  destruct s as [|a [|b [|c s]]]; rewrite ?str_app_cons, ?str_app_nil_l; unfold space_prefix;
    try done; destruct (is_ascii_space a); try done; destruct (_ && _); done.
Qed.

Lemma TrimSpace_idem s : TrimSpace (TrimSpace s) = TrimSpace s.
Proof.
  unfold TrimSpace at 1. rewrite trim_left_none, trim_right_none; [done| |].
  - unfold TrimSpace, trim_right. rewrite srev_srev. apply trim_right_done.
    by rewrite length_srev.
  - unfold TrimSpace. destruct (trim_right_prefix (trim_left s)) as [t Ht].
    apply (space_prefix_extend _ t). rewrite <- Ht. by apply trim_left_done.
Qed.
