(* ===== verification/GoXml.v ===== *)
(** * Reading XML

    The part of Go's encoding/xml that mdmprotocol/syncml/decode.go and the
    SOAP reader stand on: Decoder.Token on a strict decoder, with the entity,
    comment, CDATA, directive and processing-instruction cases, the checks on
    names and characters, name spaces and the matching of end tags.  The
    tokens of a document are produced once, each with the decoder's
    InputOffset behind it, and end in the error Token returns there, which at
    the end of the input is io.EOF. *)
From stdpp Require Import base gmap strings list.
From Stdlib Require Import ZArith Lia Ascii.
From S2P Require Import Prelude GoStrings SyncmlModel Response Encode.

Local Open Scope Z_scope.
Local Open Scope go_scope.

(** The character classes of XML names above ASCII: the tables [first] and
    [second] of encoding/xml, which nothing below depends on. *)
Class NameTables := { table_first : Z → bool; table_second : Z → bool }.
(** Tables that know no name character beyond ASCII, to evaluate examples. *)
Definition ascii_names : NameTables := Build_NameTables (λ _, false) (λ _, false).

(** ** Tokens *)

Record Name := mkName { name_Space : string; name_Local : string }.
Record Attr := mkXAttr { at_Name : Name; at_Value : string }.

#[global] Instance Name_eq_dec : EqDecision Name.
Proof. solve_decision. Defined.

(** The bodies of comments, processing instructions and directives are never
    looked at. *)
Inductive Token : Type :=
  | StartElement (n : Name) (attrs : list Attr)
  | EndElement (n : Name)
  | CharData (s : string)
  | Comment
  | ProcInst
  | Directive.

(** An error of encoding/xml itself: no sentinel of the repository. *)
Definition xml_error : error := [].

(** ** Runes *)

Definition byte_str (l : list Z) : string :=
  foldr (λ b s, String (byte_of b) s) "" l.

(** [utf8.AppendRune]; surrogates and values out of range become U+FFFD. *)
Definition encode_rune (r : Z) : string :=
  let r := if (r <? 0) || (1114111 <? r) || ((55296 <=? r) && (r <=? 57343)) then RuneError
           else r in
  if r <? 128 then byte_str [r]
  else if r <? 2048 then byte_str [192 + r / 64; 128 + r mod 64]
  else if r <? 65536 then byte_str [224 + r / 4096; 128 + (r / 64) mod 64; 128 + r mod 64]
  else byte_str [240 + r / 262144; 128 + (r / 4096) mod 64; 128 + (r / 64) mod 64;
                 128 + r mod 64].

(** ** Names *)

Definition between (lo hi : Z) (c : ascii) : bool := (lo <=? byte_val c) && (byte_val c <=? hi).

Definition isNameByte (c : ascii) : bool :=
  between 65 90 c || between 97 122 c || between 48 57 c || Ascii.eqb c "_" ||
  Ascii.eqb c ":" || Ascii.eqb c "." || Ascii.eqb c "-".

(** The bytes up to the first single-byte character not valid in names, which
    must be there. *)
Fixpoint span_name (s : string) : result (string * string) :=
  match s with
  | EmptyString => Err xml_error
  | String c s' =>
      if (byte_val c <? 128) && negb (isNameByte c) then Ok ("", s)
      else let? (n, r) := span_name s' in Ok (String c n, r)
  end.

Section names.
Context `{NameTables}.

Definition rune_first (r : Z) : bool :=
  if r <? 128 then ((65 <=? r) && (r <=? 90)) || ((97 <=? r) && (r <=? 122)) || (r =? 95) || (r =? 58)
  else table_first r.
Definition rune_second (r : Z) : bool :=
  if r <? 128 then ((48 <=? r) && (r <=? 57)) || (r =? 45) || (r =? 46) else table_second r.

Fixpoint name_runes (fuel : nat) (first : bool) (s : string) : bool :=
  match fuel, s with
  | S fuel, String _ _ =>
      let '(r, n) := decode_rune s in
      negb ((r =? RuneError) && Nat.eqb n 1) &&
      (rune_first r || (negb first && rune_second r)) && name_runes fuel false (sdrop n s)
  | _, _ => true
  end.
Definition isName (s : string) : bool :=
  nonempty s && name_runes (String.length s) true s.

(** [name]: an unreadable or invalid name is an error either way. *)
Definition read_name (s : string) : result (string * string) :=
  let? (n, r) := span_name s in
  if isName n then Ok (n, r) else Err xml_error.

Definition nsname (s : string) : result (Name * string) :=
  let? (n, r) := read_name s in
  match cut_byte ":" n with
  | None => Ok (mkName "" n, r)
  | Some (space, local) =>
      if contains_byte ":" local then Err xml_error
      else if nonempty space && nonempty local then Ok (mkName space local, r)
      else Ok (mkName "" n, r)
  end.
End names.

(** [space] *)
Definition is_xml_space (c : ascii) : bool :=
  Ascii.eqb c " " || (byte_val c =? 13) || (byte_val c =? 10) || (byte_val c =? 9).
Fixpoint skip_space (s : string) : string :=
  match s with
  | String c s' => if is_xml_space c then skip_space s' else s
  | EmptyString => ""
  end.

(** ** Character data *)

Definition entity (name : string) : option string :=
  if decide (name = "lt") then Some "<"
  else if decide (name = "gt") then Some ">"
  else if decide (name = "amp") then Some "&"
  else if decide (name = "apos") then Some "'"
  else if decide (name = "quot") then Some quote
  else None.

Definition hex_val (c : ascii) : option Z :=
  if between 48 57 c then Some (byte_val c - 48)
  else if between 97 102 c then Some (byte_val c - 87)
  else if between 65 70 c then Some (byte_val c - 55)
  else None.
Definition dec_val (c : ascii) : option Z :=
  if between 48 57 c then Some (byte_val c - 48) else None.

(** The digits of a character reference: how many, their value, and what
    follows. *)
Fixpoint ref_digits (val : ascii → option Z) (base acc : Z) (n : nat) (s : string)
    : nat * Z * string :=
  match s with
  | String c s' =>
      match val c with
      | Some d => ref_digits val base (acc * base + d) (S n) s'
      | None => (n, acc, s)
      end
  | EmptyString => (n, acc, "")
  end.

Definition char_ref (val : ascii → option Z) (base : Z) (s : string) : result (string * string) :=
  let '(n, v, r) := ref_digits val base 0 0 s in
  if HasPrefix r ";" && negb (Nat.eqb n 0) && (v <=? 1114111)
  then Ok (encode_rune v, sdrop 1 r) else Err xml_error.

(** What follows an ampersand. *)
Definition read_entity (s : string) : result (string * string) :=
  if HasPrefix s "#x" then char_ref hex_val 16 (sdrop 2 s)
  else if HasPrefix s "#" then char_ref dec_val 10 (sdrop 1 s)
  else
    let? (n, r) := span_name s in
    match entity n with
    | Some t => if HasPrefix r ";" then Ok (t, sdrop 1 r) else Err xml_error
    | None => Err xml_error
    end.

Definition nul : ascii := byte_of 0.
Definition cr : ascii := byte_of 13.
Definition lf : ascii := byte_of 10.

Inductive text_mode := PlainText | Quoted (q : ascii) | CData.

(** The loop of [text]: [b0] and [b1] are the two bytes before.  In a CDATA
    section the data ends in the brackets of the terminator. *)
Fixpoint text_fuel (fuel : nat) (m : text_mode) (b0 b1 : ascii) (s : string)
    : result (string * string) :=
  match fuel, s with
  | S fuel, String b s' =>
      let plain :=
        let? (d, r) := text_fuel fuel m b1 b s' in
        Ok (if Ascii.eqb b cr then String lf d
            else if Ascii.eqb b1 cr && Ascii.eqb b lf then d
            else String b d, r) in
      let bracket := Ascii.eqb b0 "]" && Ascii.eqb b1 "]" && Ascii.eqb b ">" in
      match m with
      | CData => if bracket then Ok ("", s') else plain
      | PlainText =>
          if bracket then Err xml_error
          else if Ascii.eqb b "<" then Ok ("", s)
          else if Ascii.eqb b "&" then
            let? (t, r) := read_entity s' in
            let? (d, r) := text_fuel fuel m nul nul r in Ok (t +:+ d, r)
          else plain
      | Quoted q =>
          if Ascii.eqb b "<" then Err xml_error
          else if Ascii.eqb b q then Ok ("", s')
          else if Ascii.eqb b "&" then
            let? (t, r) := read_entity s' in
            let? (d, r) := text_fuel fuel m nul nul r in Ok (t +:+ d, r)
          else plain
      end
  | _, _ => match m with CData => Err xml_error | _ => Ok ("", "") end
  end.

(** [text]: the data and what follows it. *)
Definition text (m : text_mode) (s : string) : result (string * string) :=
  let? (d, r) := text_fuel (String.length s) m nul nul s in
  let d := match m with CData => stake (String.length d - 2) d | _ => d end in
  if xml_chars d then Ok (d, r) else Err xml_error.

(** ** Markup *)

(** A comment after its opening: two hyphens must be followed by [>]. *)
Fixpoint skip_comment (b0 b1 : ascii) (s : string) : result string :=
  match s with
  | EmptyString => Err xml_error
  | String b s =>
      if Ascii.eqb b0 "-" && Ascii.eqb b1 "-" then
        if Ascii.eqb b ">" then Ok s else Err xml_error
      else skip_comment b1 b s
  end.

(** The data of a processing instruction, without the terminator. *)
Fixpoint procinst_data (b0 : ascii) (s : string) : result (string * string) :=
  match s with
  | EmptyString => Err xml_error
  | String b s =>
      if Ascii.eqb b0 "?" && Ascii.eqb b ">" then Ok ("", s)
      else let? (d, r) := procinst_data b s in Ok (String b d, r)
  end.

(** Where the reader of a directive is: in its text, after [<] and so many
    characters of [!--], or in a comment. *)
Inductive dir_mode := DText | DOpen (i : nat) | DComment (b0 b1 : ascii).

Definition dir_handle (inquote : option ascii) (depth : Z) (b : ascii)
    : option ascii * Z * dir_mode :=
  match inquote with
  | Some q => if Ascii.eqb b q then (None, depth, DText) else (inquote, depth, DText)
  | None =>
      if Ascii.eqb b "'" || (byte_val b =? 34) then (Some b, depth, DText)
      else if Ascii.eqb b ">" then (None, depth - 1, DText)
      else if Ascii.eqb b "<" then (None, depth, DOpen 0)
      else (None, depth, DText)
  end.

Fixpoint skip_directive (inquote : option ascii) (depth : Z) (m : dir_mode) (s : string)
    : result string :=
  match s with
  | EmptyString => Err xml_error
  | String b s =>
      match m with
      | DText =>
          if bool_decide (inquote = None) && Ascii.eqb b ">" && (depth =? 0) then Ok s
          else let '(q, d, m) := dir_handle inquote depth b in skip_directive q d m s
      | DOpen i =>
          if bool_decide (sget i "!--" = Some b) then
            skip_directive inquote depth (if Nat.eqb i 2 then DComment nul nul else DOpen (S i)) s
          else let '(q, d, m) := dir_handle inquote (depth + 1) b in skip_directive q d m s
      | DComment b0 b1 =>
          if Ascii.eqb b0 "-" && Ascii.eqb b1 "-" && Ascii.eqb b ">"
          then skip_directive inquote depth DText s
          else skip_directive inquote depth (DComment b1 b) s
      end
  end.

(** [procInst]: the quoted value of a pseudo-attribute, or nothing. *)
Fixpoint procInst_fuel (fuel : nat) (param s : string) : string :=
  match fuel, s with
  | S fuel, String _ s' =>
      if HasPrefix s param then
        match sdrop (String.length param) s with
        | String q v =>
            if Ascii.eqb q "'" || (byte_val q =? 34) then
              match cut_byte q v with Some (v, _) => v | None => "" end
            else procInst_fuel fuel param v
        | EmptyString => ""
        end
      else procInst_fuel fuel param s'
  | _, _ => ""
  end.
Definition procInst (param s : string) : string :=
  procInst_fuel (String.length s) (param +:+ "=") s.

(** ** Decoder.Token *)

(** [stkNs] remembers the translation a name space declaration replaced. *)
Inductive frame :=
  | stkStart (n : Name)
  | stkNs (prefix : string) (old : option string).

Record Decoder := mkDecoder {
  d_in : string;
  d_offset : Z;
  d_stk : list frame;
  d_ns : gmap string string;
  d_toClose : option Name }.

Definition NewDecoder (s : string) : Decoder := mkDecoder s 0 [] ∅ None.

Definition xmlnsPrefix : string := "xmlns".
Definition xmlPrefix : string := "xml".
Definition xmlURL : string := "http://www.w3.org/XML/1998/namespace".

Definition translate (ns : gmap string string) (isElementName : bool) (n : Name) : Name :=
  if decide (name_Space n = xmlnsPrefix) then n
  else if decide (name_Space n = "" ∧ isElementName = false) then n
  else
    let space := if decide (name_Space n = xmlPrefix) then xmlURL else name_Space n in
    if decide (name_Space n = "" ∧ name_Local n = xmlnsPrefix) then n
    else mkName (default space (ns !! space)) (name_Local n).

Lemma translate_Local ns b n : name_Local (translate ns b n) = name_Local n.
Proof. unfold translate. by repeat case_decide. Qed.

(** The declarations among the attributes: the new translations, and the
    frames that undo them. *)
Definition push_attr (a : Attr) (st : gmap string string * list frame)
    : gmap string string * list frame :=
  let '(ns, stk) := st in
  if decide (name_Space (at_Name a) = xmlnsPrefix) then
    let p := name_Local (at_Name a) in (<[p := at_Value a]> ns, stkNs p (ns !! p) :: stk)
  else if decide (name_Space (at_Name a) = "" ∧ name_Local (at_Name a) = xmlnsPrefix) then
    (<["" := at_Value a]> ns, stkNs "" (ns !! "") :: stk)
  else (ns, stk).

(** Undo the declarations of the element just closed. *)
Fixpoint pop_ns (ns : gmap string string) (stk : list frame)
    : gmap string string * list frame :=
  match stk with
  | stkNs p old :: stk =>
      pop_ns (match old with Some v => <[p := v]> ns | None => delete p ns end) stk
  | _ => (ns, stk)
  end.

Section token.
Context `{NameTables}.
(** [CharsetReader], from a label and the unread input to the input read from
    there on. *)
Context (CharsetReader : string → string → result string).

Definition attrval (s : string) : result (string * string) :=
  match s with
  | String q s => if Ascii.eqb q "'" || (byte_val q =? 34) then text (Quoted q) s
                  else Err xml_error
  | EmptyString => Err xml_error
  end.

(** The attributes of a start tag, whether it is empty, and what follows. *)
Fixpoint read_attrs (fuel : nat) (s : string) : result (list Attr * bool * string) :=
  match fuel, skip_space s with
  | S fuel, String c r as s =>
      if Ascii.eqb c "/" then
        if HasPrefix r ">" then Ok ([], true, sdrop 1 r) else Err xml_error
      else if Ascii.eqb c ">" then Ok ([], false, r)
      else
        let? (n, r) := nsname s in
        let r := skip_space r in
        if HasPrefix r "=" then
          let? (v, r) := attrval (skip_space (sdrop 1 r)) in
          let? (attrs, empty, r) := read_attrs fuel r in
          Ok (mkXAttr n v :: attrs, empty, r)
        else Err xml_error
  | _, _ => Err xml_error
  end.

(** The version and encoding of an XML declaration: the input to go on with. *)
Definition xml_declared (data r : string) : result string :=
  let ver := procInst "version" data in
  if nonempty ver && negb (bool_decide (ver = "1.0")) then Err xml_error
  else
    let enc := procInst "encoding" data in
    if nonempty enc && negb (EqualFold enc "utf-8") then CharsetReader enc r else Ok r.

(** [rawToken] gives the token, the name to close when the element was
    self-closing, the input left, and the input to go on with (the same unless
    a declaration changed the encoding). *)
Definition raw : Type := Token * option Name * string * string.

Definition raw_same (t : Token) (r : string) : result raw := Ok (t, None, r, r).

(** After [</]. *)
Definition raw_end (s : string) : result raw :=
  let? (n, r) := nsname s in
  match skip_space r with
  | String c r => if Ascii.eqb c ">" then raw_same (EndElement n) r else Err xml_error
  | EmptyString => Err xml_error
  end.

(** After [<?]. *)
Definition raw_procinst (s : string) : result raw :=
  let? (target, r) := read_name s in
  let? (data, r) := procinst_data nul (skip_space r) in
  let data := stake (String.length data - 1) data in
  let? r' := (if decide (target = "xml") then xml_declared data r else Ok r) in
  Ok (ProcInst, None, r, r').

(** After [<!]. *)
Definition raw_bang (s : string) : result raw :=
  match s with
  | EmptyString => Err xml_error
  | String b s =>
      if Ascii.eqb b "-" then
        if HasPrefix s "-" then let? r := skip_comment nul nul (sdrop 1 s) in raw_same Comment r
        else Err xml_error
      else if Ascii.eqb b "[" then
        if HasPrefix s "CDATA[" then
          let? (d, r) := text CData (sdrop 6 s) in raw_same (CharData d) r
        else Err xml_error
      else let? r := skip_directive None 0 DText s in raw_same Directive r
  end.

(** After [<]. *)
Definition raw_start (s : string) : result raw :=
  let? (n, r) := nsname s in
  let? (attrs, empty, r) := read_attrs (S (String.length r)) r in
  Ok (StartElement n attrs, if empty : bool then Some n else None, r, r).

Definition raw_markup (s : string) : result raw :=
  match s with
  | EmptyString => Err xml_error
  | String b s' =>
      if Ascii.eqb b "/" then raw_end s'
      else if Ascii.eqb b "?" then raw_procinst s'
      else if Ascii.eqb b "!" then raw_bang s'
      else raw_start s
  end.

Definition raw_token (s : string) : result raw :=
  match s with
  | EmptyString => Err [io_EOF]
  | String b s' =>
      if Ascii.eqb b "<" then raw_markup s'
      else let? (d, r) := text PlainText s in raw_same (CharData d) r
  end.

Definition Token_start (n : Name) (attrs : list Attr) (d : Decoder) : Token * Decoder :=
  let '(ns, stk) := foldl (λ st a, push_attr a st) (d_ns d, d_stk d) attrs in
  (StartElement (translate ns true n)
     (map (λ a, mkXAttr (translate ns false (at_Name a)) (at_Value a)) attrs),
   mkDecoder (d_in d) (d_offset d) (stkStart n :: stk) ns (d_toClose d)).

(** [popElement] *)
Definition Token_end (n : Name) (d : Decoder) : result (Token * Decoder) :=
  match d_stk d with
  | stkStart m :: stk =>
      if decide (m = n) then
        let '(ns, stk) := pop_ns (d_ns d) stk in
        Ok (EndElement (translate (d_ns d) true n),
            mkDecoder (d_in d) (d_offset d) stk ns (d_toClose d))
      else Err xml_error
  | _ => Err xml_error
  end.

Definition Decoder_Token (d : Decoder) : result (Token * Decoder) :=
  match d_toClose d with
  | Some n => Token_end n (mkDecoder (d_in d) (d_offset d) (d_stk d) (d_ns d) None)
  | None =>
      match raw_token (d_in d) with
      | Err e => if errors_Is e io_EOF && negb (bool_decide (d_stk d = [])) then Err xml_error
                 else Err e
      | Ok (t, close, r, r') =>
          let d := mkDecoder r' (d_offset d + (len (d_in d) - len r)) (d_stk d) (d_ns d) close in
          match t with
          | StartElement n attrs => Ok (Token_start n attrs d)
          | EndElement n => Token_end n d
          | t => Ok (t, d)
          end
      end
  end.

(** Whether the token just read changed the input. *)
Definition switched (d d' : Decoder) : bool :=
  match d_toClose d with
  | Some _ => false
  | None => match raw_token (d_in d) with
            | Ok (_, _, r, r') => bool_decide (r ≠ r')
            | Err _ => false
            end
  end.

(** The tokens up to a change of input, and the error or the decoder there. *)
Fixpoint lex_segment (fuel : nat) (d : Decoder) : list (Token * Z) * (error + Decoder) :=
  match fuel with
  | O => ([], inr d)
  | S fuel =>
      match Decoder_Token d with
      | Err e => ([], inl e)
      | Ok (t, d') =>
          if switched d d' then ([(t, d_offset d')], inr d')
          else let '(ts, e) := lex_segment fuel d' in ((t, d_offset d') :: ts, e)
      end
  end.

Definition segment_fuel (d : Decoder) : nat := 2 * String.length (d_in d) + 2.

Fixpoint lex_fuel (switches : nat) (d : Decoder) : list (Token * Z) * error :=
  match lex_segment (segment_fuel d) d with
  | (ts, inl e) => (ts, e)
  | (ts, inr d) =>
      match switches with
      | O => (ts, xml_error)
      | S n => let '(ts', e) := lex_fuel n d in (ts ++ ts', e)
      end
  end.

(** The question marks of a string bound how often an XML declaration can
    still change the encoding. *)
Fixpoint questions (s : string) : nat :=
  match s with
  | EmptyString => 0
  | String c s => (if Ascii.eqb c "?" then 1 else 0) + questions s
  end.

(** The tokens of a document, each with the InputOffset behind it, and the
    error they end in. *)
Definition lex (d : Decoder) : list (Token * Z) * error := lex_fuel (questions (d_in d)) d.
End token.

(** ** Readers consume their input *)

Definition is_suffix (r s : string) : Prop := ∃ p, s = p +:+ r.
Definition strict_suffix (r s : string) : Prop := ∃ c p, s = String c p +:+ r.

Lemma suffix_refl s : is_suffix s s.
Proof. by exists "". Qed.
Lemma suffix_cons c r s : is_suffix r s → is_suffix r (String c s).
Proof. intros [p ->]. by exists (String c p). Qed.
Lemma suffix_trans r s t : is_suffix r s → is_suffix s t → is_suffix r t.
Proof. intros [p ->] [q ->]. exists (q +:+ p). by rewrite str_app_assoc. Qed.
Lemma strict_suffix_cons c r s : is_suffix r s → strict_suffix r (String c s).
Proof. intros [p ->]. by exists c, p. Qed.
Lemma strict_suffix_weak r s : strict_suffix r s → is_suffix r s.
Proof. intros (c & p & ->). by exists (String c p). Qed.
Lemma strict_suffix_trans r s t : is_suffix r s → strict_suffix s t → strict_suffix r t.
Proof. intros [p ->] (c & q & ->). exists c, (q +:+ p). by rewrite str_app_assoc. Qed.
Lemma strict_suffix_trans_r r s t : strict_suffix r s → is_suffix s t → strict_suffix r t.
Proof.
  intros (c & p & ->) [q ->]. destruct q as [|c' q]; [by exists c, p|].
  exists c', (q +:+ String c p). by rewrite !str_app_cons, <- str_app_assoc.
Qed.
Lemma strict_suffix_length r s : strict_suffix r s → (String.length r < String.length s)%nat.
Proof. intros (c & p & ->). rewrite str_length_app. simpl. lia. Qed.
Lemma sdrop_suffix n s : is_suffix (sdrop n s) s.
Proof. exists (stake n s). by rewrite stake_sdrop. Qed.
#[export] Hint Resolve suffix_refl suffix_cons strict_suffix_cons strict_suffix_weak
  sdrop_suffix : dm.

Lemma questions_app s t : questions (s +:+ t) = (questions s + questions t)%nat.
Proof. induction s as [|c s IH]; [done|]. rewrite str_app_cons. simpl. rewrite IH. lia. Qed.

Lemma suffix_questions r s : is_suffix r s → (questions r ≤ questions s)%nat.
Proof. intros [p ->]. rewrite questions_app. lia. Qed.

Lemma span_name_app s n r : span_name s = Ok (n, r) → s = n +:+ r.
Proof.
  revert n r. induction s as [|c s IH]; intros n r; simpl; [done|].
  case_match; [by intros [= <- <-]|].
  destruct (span_name s) as [[n' r']|]; [|done]. intros [= <- <-].
  by rewrite str_app_cons, (IH n' r').
Qed.

Lemma ref_digits_suffix val base acc n s k v r :
  ref_digits val base acc n s = (k, v, r) → is_suffix r s.
Proof.
  revert acc n. induction s as [|c s IH]; intros acc n; simpl; [intros [= _ _ <-]; auto with dm|].
  destruct (val c); [intros ?%IH; auto with dm|intros [= _ _ <-]; auto with dm].
Qed.

Lemma char_ref_suffix val base s t r : char_ref val base s = Ok (t, r) → is_suffix r s.
Proof.
  unfold char_ref. destruct (ref_digits _ _ _ _ _) as [[k v] r'] eqn:E.
  apply ref_digits_suffix in E. destruct (_ && _); [|done]. intros [= _ <-].
  eapply suffix_trans; [apply (sdrop_suffix 1)|done].
Qed.

Lemma skip_space_suffix s : is_suffix (skip_space s) s.
Proof. induction s as [|c s IH]; simpl; [|case_match]; auto with dm. Qed.

Lemma read_entity_suffix s t r : read_entity s = Ok (t, r) → is_suffix r s.
Proof.
  unfold read_entity. destruct (HasPrefix s "#x"); [|destruct (HasPrefix s "#")].
  1, 2: intros ?%char_ref_suffix; by eapply suffix_trans; [|apply sdrop_suffix].
  intros ([n r'] & ->%span_name_app & E)%result_bind_Ok.
  destruct (entity n), (HasPrefix r' ";"); simplify_eq.
  eapply suffix_trans; [apply (sdrop_suffix 1)|by exists n].
Qed.

Lemma text_fuel_suffix f m b0 b1 s d r : text_fuel f m b0 b1 s = Ok (d, r) → is_suffix r s.
Proof.
  revert m b0 b1 s d r. induction f as [|f IH]; intros m b0 b1 s d r.
  { destruct m; simpl; intros [= _ <-]; (exists s; by rewrite str_app_nil_r). }
  destruct s as [|b s]; [destruct m; simpl; intros [= _ <-]; auto with dm|].
  cbn [text_fuel]. set (plain := result_bind (text_fuel f m b1 b s) _).
  assert (plain = Ok (d, r) → is_suffix r (String b s)) as Hp.
  { unfold plain. intros ([d' r'] & ?%IH & [= _ <-])%result_bind_Ok. auto with dm. }
  assert ((let? (t, r) := read_entity s in
    let? (d, r) := text_fuel f m nul nul r in Ok (t +:+ d, r)) = Ok (d, r) →
    is_suffix r (String b s)) as He.
  { intros ([t r1] & H1%read_entity_suffix & H2)%result_bind_Ok.
    apply result_bind_Ok in H2 as ([d' r'] & ?%IH & [= _ <-]).
    apply suffix_cons. by eapply suffix_trans. }
  clearbody plain.
  destruct m as [|q|]; repeat case_match; intros E; simplify_eq; auto with dm.
Qed.

Lemma text_suffix m s d r : text m s = Ok (d, r) → is_suffix r s.
Proof.
  unfold text. intros ([d' r'] & ?%text_fuel_suffix & E)%result_bind_Ok.
  destruct (xml_chars _); [|done]. by injection E as _ <-.
Qed.

Lemma skip_comment_suffix b0 b1 s r : skip_comment b0 b1 s = Ok r → is_suffix r s.
Proof.
  revert b0 b1. induction s as [|b s IH]; intros b0 b1; simpl; [done|].
  repeat case_match; intros E; simplify_eq; [auto with dm|]. apply IH in E. auto with dm.
Qed.

Lemma procinst_suffix b0 s d r : procinst_data b0 s = Ok (d, r) → is_suffix r s.
Proof.
  revert b0 d r. induction s as [|b s IH]; intros b0 d r; simpl; [done|].
  case_match; [intros [= _ <-]; auto with dm|].
  intros ([d' r'] & ?%IH & [= _ <-])%result_bind_Ok. auto with dm.
Qed.

Lemma skip_directive_suffix q d m s r : skip_directive q d m s = Ok r → is_suffix r s.
Proof.
  revert q d m. induction s as [|b s IH]; intros q d m; simpl; [done|].
  intros E. apply suffix_cons. revert E.
  destruct m; repeat case_match; intros E; simplify_eq; eauto with dm.
Qed.

Section consume.
Context `{NameTables}.
Context (CharsetReader : string → string → result string).

Lemma read_name_suffix s n r : read_name s = Ok (n, r) → is_suffix r s.
Proof.
  unfold read_name. intros ([n' r'] & ->%span_name_app & E)%result_bind_Ok.
  destruct (isName n'); [|done]. injection E as -> ->. by exists n.
Qed.

Lemma nsname_suffix s n r : nsname s = Ok (n, r) → is_suffix r s.
Proof.
  unfold nsname. intros ([n' r'] & Hr%read_name_suffix & E)%result_bind_Ok.
  destruct (cut_byte _ _) as [[sp lo]|]; repeat case_match; simplify_eq; done.
Qed.

Lemma attrval_suffix s v r : attrval s = Ok (v, r) → strict_suffix r s.
Proof.
  unfold attrval. destruct s as [|q s]; [done|]. case_match; [|done].
  intros ?%text_suffix. auto with dm.
Qed.

Lemma read_attrs_suffix f s attrs e r : read_attrs f s = Ok (attrs, e, r) → strict_suffix r s.
Proof.
  revert s attrs e r. induction f as [|f IH]; intros s attrs e r; [done|]. cbn [read_attrs].
  pose proof (skip_space_suffix s) as Hs. destruct (skip_space s) as [|c s1]; [done|].
  intros E. eapply strict_suffix_trans_r; [|exact Hs]. clear Hs s. revert E.
  destruct (Ascii.eqb c "/"); [|destruct (Ascii.eqb c ">")].
  { case_match; [|done]. intros [= _ _ <-]. apply strict_suffix_cons, (sdrop_suffix 1). }
  { intros [= _ _ <-]. auto with dm. }
  intros ([n r1] & Hn%nsname_suffix & E1)%result_bind_Ok. case_match; [|done].
  apply result_bind_Ok in E1 as ([v r3] & Hv%attrval_suffix & E1).
  apply result_bind_Ok in E1 as ([[attrs' e'] r4] & H4%IH & E1). injection E1 as _ _ <-.
  eapply strict_suffix_trans_r; [exact H4|].
  eapply suffix_trans; [by apply strict_suffix_weak|].
  eapply suffix_trans; [apply skip_space_suffix|].
  eapply suffix_trans; [apply sdrop_suffix|].
  eapply suffix_trans; [apply skip_space_suffix|done].
Qed.

(** A token is at least one byte, and a change of input costs a question
    mark. *)
Record raw_spec (s r r' : string) : Prop := {
  raw_consumes : strict_suffix r s;
  raw_switch : r' ≠ r → (questions r < questions s)%nat ∧ ∃ label, CharsetReader label r = Ok r' }.

Lemma raw_same_spec s r t x c r1 r2 :
  is_suffix r s → raw_same t r = Ok (x, c, r1, r2) → raw_spec (String "<" s) r1 r2.
Proof. intros Hr [= _ _ <- <-]. split; [auto with dm|done]. Qed.

Lemma raw_procinst_spec s t c r r' :
  raw_procinst CharsetReader s = Ok (t, c, r, r') →
  raw_spec (String "<" (String "?" s)) r r'.
Proof.
  intros ([target r1] & H1%read_name_suffix & E)%result_bind_Ok.
  apply result_bind_Ok in E as ([data r2] & H2%procinst_suffix & E).
  apply result_bind_Ok in E as (r3 & H3 & E). injection E as _ _ -> ->.
  assert (is_suffix r s) as Hr.
  { eapply suffix_trans; [exact H2|]. eapply suffix_trans; [apply skip_space_suffix|done]. }
  split; [auto with dm|]. intros Hne. split.
  - apply suffix_questions in Hr. simpl. lia.
  - destruct (decide (target = "xml")); [|by simplify_eq].
    unfold xml_declared in H3. repeat case_match; simplify_eq. eauto.
Qed.

Lemma raw_bang_spec s t c r r' :
  raw_bang s = Ok (t, c, r, r') → raw_spec (String "<" (String "!" s)) r r'.
Proof.
  unfold raw_bang. destruct s as [|b s]; [done|].
  destruct (Ascii.eqb b "-"); [|destruct (Ascii.eqb b "[")].
  - case_match; [|done]. intros (r1 & ?%skip_comment_suffix & E)%result_bind_Ok.
    eapply raw_same_spec in E; [done|]. do 2 apply suffix_cons.
    by eapply suffix_trans; [|apply sdrop_suffix].
  - case_match; [|done]. intros ([d r1] & ?%text_suffix & E)%result_bind_Ok.
    eapply raw_same_spec in E; [done|]. do 2 apply suffix_cons.
    by eapply suffix_trans; [|apply sdrop_suffix].
  - intros (r1 & ?%skip_directive_suffix & E)%result_bind_Ok.
    eapply raw_same_spec in E; [done|]. auto with dm.
Qed.

Lemma raw_start_spec s t c r r' :
  raw_start s = Ok (t, c, r, r') → raw_spec (String "<" s) r r'.
Proof.
  intros ([n r1] & Hn%nsname_suffix & E)%result_bind_Ok.
  apply result_bind_Ok in E as ([[attrs e] r2] & Ha%read_attrs_suffix & E).
  injection E as _ _ <- <-. split; [|done]. apply strict_suffix_cons.
  eapply suffix_trans; [|done]. by apply strict_suffix_weak.
Qed.

Lemma plain_text_strict b s d r :
  Ascii.eqb b "<" = false → text PlainText (String b s) = Ok (d, r) → strict_suffix r (String b s).
Proof.
  intros Hb. unfold text. intros ([d' r'] & E & E')%result_bind_Ok.
  assert (r' = r) as -> by (by destruct (xml_chars d'); simplify_eq). clear E' d.
  cbn [String.length text_fuel] in E. rewrite Hb in E. simpl in E. apply strict_suffix_cons.
  destruct (Ascii.eqb b "&").
  - apply result_bind_Ok in E as ([t r1] & H1%read_entity_suffix & E).
    apply result_bind_Ok in E as ([d r2] & H2%text_fuel_suffix & E). injection E as _ <-.
    by eapply suffix_trans.
  - apply result_bind_Ok in E as ([d r2] & H2%text_fuel_suffix & E). by injection E as _ <-.
Qed.

Lemma raw_token_spec s t c r r' :
  raw_token CharsetReader s = Ok (t, c, r, r') → raw_spec s r r'.
Proof.
  unfold raw_token. destruct s as [|b s]; [done|]. destruct (Ascii.eqb b "<") eqn:Hb.
  2: { intros ([d r1] & H1%plain_text_strict & E)%result_bind_Ok; [|done].
       injection E as _ _ <- <-. by split. }
  apply Ascii.eqb_eq in Hb as ->. unfold raw_markup. destruct s as [|b' s']; [done|].
  destruct (Ascii.eqb b' "/"); [|destruct (Ascii.eqb_spec b' "?") as [->|];
    [apply raw_procinst_spec|destruct (Ascii.eqb_spec b' "!") as [->|];
    [apply raw_bang_spec|apply raw_start_spec]]].
  intros ([n r1] & H1%nsname_suffix & E)%result_bind_Ok.
  pose proof (skip_space_suffix r1) as H2. destruct (skip_space r1) as [|c2 r2]; [done|].
  destruct (Ascii.eqb c2 ">"); [|done]. eapply raw_same_spec in E; [done|].
  apply suffix_cons. eapply suffix_trans; [apply suffix_cons, suffix_refl|].
  by eapply suffix_trans.
Qed.
End consume.

(** ** The token sequence, free of fuel *)

Section lex.
Context `{NameTables}.
Context (CharsetReader : string → string → result string).
Context (Hcharset : ∀ label s s', CharsetReader label s = Ok s' →
  (questions s' ≤ questions s)%nat).

Local Abbreviation Token_of := (Decoder_Token CharsetReader).

Definition unread (d : Decoder) : nat :=
  2 * String.length (d_in d) + (if d_toClose d then 1 else 0).

Lemma Token_end_in n d t d' :
  Token_end n d = Ok (t, d') → d_in d' = d_in d ∧ d_toClose d' = d_toClose d.
Proof.
  unfold Token_end. destruct (d_stk d) as [|[]]; try done. case_decide; [|done].
  destruct (pop_ns _ _). by intros [= _ <-].
Qed.

Lemma Token_start_in n attrs d t d' :
  Token_start n attrs d = (t, d') → d_in d' = d_in d ∧ d_toClose d' = d_toClose d.
Proof. unfold Token_start. destruct (foldl _ _ _). by intros [= _ <-]. Qed.

Lemma Token_consumes d t d' :
  Token_of d = Ok (t, d') →
  if switched CharsetReader d d' then (questions (d_in d') < questions (d_in d))%nat
  else (unread d' < unread d)%nat ∧ (questions (d_in d') ≤ questions (d_in d))%nat.
Proof.
  unfold Decoder_Token, switched, unread. destruct (d_toClose d) as [n|].
  { intros [Hin Hc]%Token_end_in. simpl in *. rewrite Hin, Hc. lia. }
  destruct (raw_token _ _) as [[[[t0 c] r] r']|e] eqn:E; [|by case_match].
  apply raw_token_spec in E as [Hr Hsw].
  set (d1 := mkDecoder r' _ _ _ c). intros Et.
  assert (d_in d' = r' ∧ d_toClose d' = c) as [-> ->].
  { destruct t0; simplify_eq; try done.
    - apply Token_start_in in Et. done.
    - apply Token_end_in in Et. done. }
  case_bool_decide as Hne.
  - destruct (Hsw (not_eq_sym Hne)) as [Hq [l Hl%Hcharset]]. lia.
  - subst r'. split; [|by apply suffix_questions, strict_suffix_weak].
    apply strict_suffix_length in Hr. destruct c; lia.
Qed.

Lemma segment_enough f g d :
  (unread d < f)%nat → (unread d < g)%nat →
  lex_segment CharsetReader f d = lex_segment CharsetReader g d.
Proof.
  revert g d. induction f as [|f IH]; intros g d Hf Hg; [lia|]. destruct g as [|g]; [lia|].
  cbn [lex_segment]. destruct (Token_of d) as [[t d']|e] eqn:E; [|done].
  apply Token_consumes in E. destruct (switched _ _ _); [done|].
  by rewrite (IH g) by lia.
Qed.

Lemma segment_fuel_enough d : (unread d < segment_fuel d)%nat.
Proof. unfold unread, segment_fuel. destruct (d_toClose d); lia. Qed.

Lemma segment_unfold d :
  lex_segment CharsetReader (segment_fuel d) d =
  match Token_of d with
  | Err e => ([], inl e)
  | Ok (t, d') =>
      if switched CharsetReader d d' then ([(t, d_offset d')], inr d')
      else let '(ts, e) := lex_segment CharsetReader (segment_fuel d') d' in
           ((t, d_offset d') :: ts, e)
  end.
Proof.
  pose proof (segment_fuel_enough d) as Hf. destruct (segment_fuel d) as [|f]; [lia|].
  cbn [lex_segment]. destruct (Token_of d) as [[t d']|e] eqn:E; [|done].
  apply Token_consumes in E. destruct (switched _ _ _); [done|].
  rewrite (segment_enough f (segment_fuel d')); [done|lia|apply segment_fuel_enough].
Qed.

Lemma segment_questions f d ts d' :
  lex_segment CharsetReader f d = (ts, inr d') → (unread d < f)%nat →
  (questions (d_in d') < questions (d_in d))%nat.
Proof.
  revert d ts. induction f as [|f IH]; intros d ts; [lia|]. cbn [lex_segment].
  destruct (Token_of d) as [[t d1]|e] eqn:E; [|done]. apply Token_consumes in E.
  destruct (switched _ _ _); [by intros [= _ <-]|].
  destruct (lex_segment _ f d1) as [ts' e] eqn:Es. intros [= _ ->] Hf.
  apply IH in Es; lia.
Qed.

Lemma lex_enough n m d :
  (questions (d_in d) ≤ n)%nat → (questions (d_in d) ≤ m)%nat →
  lex_fuel CharsetReader n d = lex_fuel CharsetReader m d.
Proof.
  revert m d. induction n as [|n IH]; intros m d Hn Hm; destruct m as [|m]; cbn [lex_fuel];
    destruct (lex_segment _ _ d) as [ts [e|d']] eqn:Es; try done;
    apply segment_questions in Es; try apply segment_fuel_enough; try lia.
  by rewrite (IH m) by lia.
Qed.

(** Token is called until it fails. *)
Lemma lex_unfold d :
  lex CharsetReader d =
  match Token_of d with
  | Err e => ([], e)
  | Ok (t, d') => let '(ts, e) := lex CharsetReader d' in ((t, d_offset d') :: ts, e)
  end.
Proof.
  unfold lex at 1. destruct (Token_of d) as [[t d']|e] eqn:E.
  2: { destruct (questions (d_in d)); cbn [lex_fuel]; by rewrite segment_unfold, E. }
  pose proof (Token_consumes _ _ _ E) as Hc.
  destruct (switched _ d d') eqn:Hs.
  - destruct (questions (d_in d)) as [|q]; [lia|]. cbn [lex_fuel].
    rewrite segment_unfold, E, Hs. unfold lex. rewrite (lex_enough (questions (d_in d')) q) by lia.
    by destruct (lex_fuel _ q d').
  - rewrite (lex_enough (questions (d_in d)) (S (questions (d_in d)))) by lia. unfold lex.
    rewrite (lex_enough (questions (d_in d')) (S (questions (d_in d)))) by lia. cbn [lex_fuel].
    rewrite (segment_unfold d), E, Hs. destruct (lex_segment _ _ d') as [ts [e'|d'']]; [done|].
    by destruct (lex_fuel _ _ d'').
Qed.
End lex.
