(* ===== verification/XmlLex.v ===== *)
(** * Lexing what the writer wrote

    The tokens of a serialised element tree, and the proof that the decoder of
    [GoXml] reads exactly these from the compact rendering of [Encode]: escaped
    text comes back as it was, tags nest, name spaces are restored. *)
From stdpp Require Import base gmap strings list.
From Stdlib Require Import ZArith Lia Ascii.
From S2P Require Import Prelude GoStrings SyncmlModel Response Encode GoXml.

Local Open Scope Z_scope.
Local Open Scope go_scope.

(** ** Character data *)

Lemma text_fuel_enough f g m b0 b1 s :
  (String.length s ≤ f)%nat → (String.length s ≤ g)%nat →
  text_fuel f m b0 b1 s = text_fuel g m b0 b1 s.
Proof.
  revert g b0 b1 s. induction f as [|f IH]; intros g b0 b1 s Hf Hg.
  { destruct s; simpl in Hf; [by destruct g, m|lia]. }
  destruct s as [|b s]; [by destruct g, m|]. destruct g as [|g]; [simpl in Hg; lia|].
  simpl in Hf, Hg. cbn [text_fuel]. rewrite (IH g b1 b s) by lia.
  assert ((let? (t, r) := read_entity s in
    let? (d, r) := text_fuel f m nul nul r in Ok (t +:+ d, r)) =
   (let? (t, r) := read_entity s in
    let? (d, r) := text_fuel g m nul nul r in Ok (t +:+ d, r))) as He.
  { destruct (read_entity s) as [[t r]|] eqn:E; [|done]. apply read_entity_suffix in E as [p ->].
    rewrite str_length_app in *. simpl. by rewrite (IH g nul nul r) by lia. }
  by rewrite He.
Qed.

(** Where a run of character data ends, and what is left then. *)
Inductive stops : text_mode → string → string → Prop :=
  | stop_tag r : stops PlainText (String "<" r) (String "<" r)
  | stop_quote q r : stops (Quoted q) (String q r) r.

(** The bytes [text] copies as they are. *)
Definition ordinary (m : text_mode) (c : ascii) : Prop :=
  c ≠ "<"%char ∧ c ≠ "&"%char ∧ c ≠ ">"%char ∧ c ≠ cr ∧ c ≠ lf ∧ m ≠ Quoted c ∧ m ≠ CData.

Lemma text_ordinary f m b0 b1 c s :
  ordinary m c →
  text_fuel (S f) m b0 b1 (String c s) =
  (let? (d, r) := text_fuel f m b1 c s in Ok (String c d, r)).
Proof.
  intros (Hlt & Hamp & Hgt & Hcr & Hlf & Hq & Hcd). cbn [text_fuel].
  apply Ascii.eqb_neq in Hlt as ->, Hamp as ->, Hgt as ->, Hcr as ->, Hlf as ->.
  rewrite !andb_false_r. destruct m as [|q|]; [done| |done].
  destruct (Ascii.eqb_spec c q) as [->|]; [by destruct Hq|reflexivity].
Qed.

Lemma text_entity f m b0 b1 body t s :
  m ≠ CData → m ≠ Quoted "&" → read_entity (body +:+ s) = Ok (t, s) →
  text_fuel (S f) m b0 b1 (String "&" (body +:+ s)) =
  (let? (d, r) := text_fuel f m nul nul s in Ok (t +:+ d, r)).
Proof.
  intros Hm Hq He. cbn [text_fuel]. rewrite He. change (Ascii.eqb "&" ">") with false.
  rewrite !andb_false_r. destruct m as [|q|]; [done| |done].
  change (Ascii.eqb "&" "<") with false. change (Ascii.eqb "&" "&") with true. cbn iota.
  destruct (Ascii.eqb_spec "&" q) as [<-|]; [by destruct Hq|reflexivity].
Qed.

Lemma text_stop f m b0 b1 r r' :
  stops m r r' → m ≠ Quoted "<" → text_fuel (S f) m b0 b1 r = Ok ("", r').
Proof.
  intros [] Hm; cbn [text_fuel]; [by rewrite !andb_false_r|].
  destruct (Ascii.eqb_spec q "<") as [->|]; [by destruct Hm|]. by rewrite Ascii.eqb_refl.
Qed.

(** The modes in which escaped text is read: an element's content, or a value
    in the writer's quotes. *)
Definition dquote : ascii := byte_of 34.
Definition written_mode (m : text_mode) : Prop := m = PlainText ∨ m = Quoted dquote.

Lemma text_high f m b0 b1 h s r r' :
  written_mode m → str_forall high h = true →
  (∀ f b0 b1, (String.length s ≤ f)%nat → text_fuel f m b0 b1 s = Ok (r, r')) →
  (String.length (h +:+ s) ≤ f)%nat →
  text_fuel f m b0 b1 (h +:+ s) = Ok (h +:+ r, r').
Proof.
  intros Hm Hh Hs. revert f b0 b1 Hh. induction h as [|c h IH]; intros f b0 b1 Hh Hf.
  { rewrite !str_app_nil_l in *. by apply Hs. }
  rewrite !str_app_cons in *. simpl in Hh, Hf. btrue. destruct f as [|f]; [lia|].
  rewrite text_ordinary; [by rewrite IH by (done || lia)|].
  unfold high in *. btrue.
  assert (∀ k, byte_val k < 128 → c ≠ k) as Hc by (intros k ? ->; lia).
  unfold ordinary. split_and!; try (by apply Hc); destruct Hm as [-> | ->]; try done.
  intros [= E]. by apply (Hc dquote).
Qed.

(** A reference of the writer, and the byte it stands for. *)
Lemma text_escape_ascii f m b0 b1 c w s r r' :
  written_mode m → byte_val c < 128 → isInCharacterRange (byte_val c) = true →
  (∀ f b0 b1, (String.length s ≤ f)%nat → text_fuel f m b0 b1 s = Ok (r, r')) →
  (String.length (escape_rune (byte_val c) 1 (String c w) +:+ s) ≤ f)%nat →
  text_fuel f m b0 b1 (escape_rune (byte_val c) 1 (String c w) +:+ s) = Ok (String c r, r').
Proof.
  intros Hm Hc Hr Hs.
  assert (∀ n, byte_val c = n → c = byte_of n) as Hn by (intros n <-; by rewrite byte_of_val).
  assert (m ≠ CData ∧ m ≠ Quoted "&") as [Hm1 Hm2] by (by destruct Hm as [-> | ->]).
  assert (∀ body t, read_entity (body +:+ s) = Ok (t, s) →
    (String.length (String "&" body +:+ s) ≤ f)%nat →
    text_fuel f m b0 b1 (String "&" body +:+ s) = Ok (t +:+ r, r')) as Hent.
  { intros body t He Hf. rewrite str_app_cons in *. simpl in Hf. rewrite str_length_app in Hf.
    destruct f as [|f]; [lia|]. rewrite (text_entity _ _ _ _ _ t) by done.
    by rewrite Hs by lia. }
  unfold escape_rune. rewrite Hr.
  repeat match goal with
    | |- context [if byte_val c =? ?n then _ else _] =>
        destruct (Z.eqb_spec (byte_val c) n) as [E|];
        [rewrite (Hn _ E); apply (Hent _ (String (byte_of n) "")); by destruct s|]
    end.
  destruct (Z.eqb_spec (byte_val c) RuneError); [unfold RuneError in *; lia|].
  cbn [negb orb andb stake]. rewrite str_app_cons, str_app_nil_l. cbn [String.length]. intros Hf.
  destruct f as [|f]; [lia|]. rewrite text_ordinary.
  - by rewrite Hs by lia.
  - unfold ordinary. split_and!; try (intros ->; done); destruct Hm as [-> | ->]; try done.
    by intros [= <-].
Qed.

Lemma text_escape_fuel n f m b0 b1 v r r' :
  written_mode m → stops m r r' → xml_chars_fuel n v = true → (String.length v ≤ n)%nat →
  (String.length (escape_fuel n v +:+ r) ≤ f)%nat →
  text_fuel f m b0 b1 (escape_fuel n v +:+ r) = Ok (v, r').
Proof.
  intros Hm Hr. revert f b0 b1 v.
  assert (∀ f b0 b1, (String.length r ≤ f)%nat → text_fuel f m b0 b1 r = Ok ("", r')) as Hend.
  { intros f b0 b1 Hf. destruct f as [|f]; [by destruct Hr; simpl in Hf; lia|].
    apply text_stop; [done|]. by destruct Hm as [-> | ->]. }
  induction n as [|n IH]; intros f b0 b1 v Hv Hn Hf.
  { destruct v; [by apply Hend|simpl in Hn; lia]. }
  destruct v as [|c v]; [by apply Hend|]. cbn [xml_chars_fuel escape_fuel] in *.
  pose proof (decode_rune_cases c v) as Hd.
  destruct (decode_rune (String c v)) as [x w]. btrue. rewrite <- str_app_assoc in *.
  destruct Hd as [(-> & Hc & ->)|(Hc & Hw & Hx & Hh)].
  - apply (text_escape_ascii _ _ _ _ _ _ _ v); try done.
    intros. apply IH; [done|simpl in Hn; simpl; lia|done].
  - rewrite escape_high in * by done. 
    replace (Ok (String c v, r'))
      with (Ok (stake w (String c v) +:+ sdrop w (String c v), r'))
      by (by rewrite stake_sdrop).
    apply text_high; try done. intros. apply IH; [done| |done].
    rewrite length_sdrop. simpl in *. lia.
Qed.

(** Escaped text reads back as it was. *)
Lemma text_escape m v r r' :
  written_mode m → stops m r r' → xml_chars v = true →
  text m (EscapeText v +:+ r) = Ok (v, r').
Proof.
  intros Hm Hr Hv. unfold text, EscapeText. rewrite (text_escape_fuel _ _ _ _ _ v r r') by done.
  simpl. destruct Hm as [-> | ->]; by rewrite Hv.
Qed.

(** ** Tags *)

(** A name of the writer: name characters, at most one colon and not at an
    end, and a letter in front of each part. *)
Definition letter (c : ascii) : bool := between 65 90 c || between 97 122 c.
Definition name_rest (c : ascii) : bool := letter c || between 48 57 c || Ascii.eqb c "-".
Definition plain_name (s : string) : bool :=
  match s with
  | EmptyString => false
  | String c s => letter c && str_forall name_rest s
  end.
Definition tag_name (s : string) : bool :=
  match cut_byte ":" s with
  | None => plain_name s
  | Some (p, l) => plain_name p && plain_name l
  end.
Definition name_of (s : string) : Name :=
  match cut_byte ":" s with
  | None => mkName "" s
  | Some (p, l) => mkName p l
  end.

Definition name_char (c : ascii) : bool := name_rest c || Ascii.eqb c ":".

(** A byte that ends a name. *)
Definition ends_name (c : ascii) : bool := (byte_val c <? 128) && negb (isNameByte c).

Lemma name_char_byte c : name_char c = true → isNameByte c = true.
Proof.
  unfold name_char, name_rest, letter, isNameByte.
  destruct (between 65 90 c), (between 97 122 c), (between 48 57 c), (Ascii.eqb c ":"),
    (Ascii.eqb c "-"); simpl; rewrite ?orb_true_r; done.
Qed.

Lemma span_name_tag n c r :
  str_forall name_char n = true → ends_name c = true →
  span_name (n +:+ String c r) = Ok (n, String c r).
Proof.
  intros Hn Hc. induction n as [|a n IH]; simpl in *.
  - unfold ends_name in Hc. by rewrite Hc.
  - btrue. rewrite name_char_byte, andb_false_r by done. simpl. by rewrite IH.
Qed.

Lemma plain_name_chars s : plain_name s = true → s ≠ "" ∧ str_forall name_char s = true ∧
  contains_byte ":" s = false.
Proof.
  intros Hs. assert (str_forall name_rest s = true) as Hl.
  { destruct s as [|c s]; [done|]. simpl in *. btrue. unfold name_rest at 1. by rewrite H. }
  split_and!.
  - by destruct s.
  - eapply str_forall_impl; [|exact Hl]. intros c Hc. unfold name_char. by rewrite Hc.
  - by eapply str_forall_not_contains.
Qed.

Lemma tag_name_chars s : tag_name s = true → s ≠ "" ∧ str_forall name_char s = true.
Proof.
  unfold tag_name. destruct (cut_byte ":" s) as [[p l]|] eqn:E.
  - apply cut_byte_Some in E as [-> _]. intros Hs. btrue.
    destruct (plain_name_chars p) as (? & Hp & _); [done|].
    destruct (plain_name_chars l) as (? & Hl & _); [done|].
    split; [by destruct p|]. rewrite str_forall_app, Hp. simpl. by rewrite Hl.
  - intros (? & ? & _)%plain_name_chars. done.
Qed.

Section tags.
Context `{NameTables}.

Lemma name_runes_ok f first s :
  (first = true → match s with String c _ => letter c || Ascii.eqb c ":" = true | _ => True end) →
  str_forall name_char s = true → name_runes f first s = true.
Proof.
  revert first s. induction f as [|f IH]; intros first s Hf Hs; [done|].
  destruct s as [|c s]; [done|]. cbn [name_runes]. simpl in Hs. btrue.
  assert (byte_val c < 128 ∧ (letter c || Ascii.eqb c ":" = true → rune_first (byte_val c) = true) ∧
    (rune_first (byte_val c) || rune_second (byte_val c) = true)) as (Hc & Hr1 & Hr2).
  { unfold name_char, name_rest, letter, between, rune_first, rune_second in *.
    destruct (Ascii.eqb_spec c ":") as [->|]; [done|].
    destruct (Ascii.eqb_spec c "-") as [->|]; [done|].
    destruct (Z.ltb_spec (byte_val c) 128).
    - split; [done|]. rewrite !orb_false_r in *. split.
      + intros ->. done.
      + rewrite !orb_true_iff in *. destruct H0 as [[?|?]|?]; auto.
    - exfalso. rewrite !orb_true_iff in *. rewrite !andb_true_iff in *.
      rewrite !Z.leb_le in *. naive_solver lia. }
  unfold decode_rune. destruct (Z.ltb_spec (byte_val c) 128); [|lia].
  replace (byte_val c =? RuneError) with false
    by (symmetry; apply Z.eqb_neq; unfold RuneError; lia).
  simpl sdrop. rewrite IH by done. rewrite andb_true_r. simpl. destruct first; simpl.
  - rewrite Hr1; [done|]. by apply Hf.
  - done.
Qed.

Lemma nsname_tag n c r :
  tag_name n = true → ends_name c = true → nsname (n +:+ String c r) = Ok (name_of n, String c r).
Proof.
  intros Hn Hc. destruct (tag_name_chars n Hn) as [Hne Hch].
  unfold nsname, read_name. rewrite span_name_tag by done. simpl.
  assert (isName n = true) as ->.
  { unfold isName, nonempty. rewrite bool_decide_eq_true_2 by done. apply name_runes_ok; [|done].
    intros _. destruct n as [|a n]; [done|]. unfold tag_name in Hn.
    destruct (cut_byte ":" (String a n)) as [[p l]|] eqn:E.
    - apply cut_byte_Some in E as [E _]. btrue. destruct p as [|a' p]; [done|].
      rewrite str_app_cons in E. injection E as <- _. simpl in *. btrue. by rewrite H0.
    - simpl in Hn. btrue. by rewrite H0. }
  simpl. unfold tag_name, name_of in *. destruct (cut_byte ":" n) as [[p l]|]; [|done]. btrue.
  destruct (plain_name_chars p) as (? & _); [done|].
  destruct (plain_name_chars l) as (? & _ & ->); [done|].
  unfold nonempty. by rewrite !bool_decide_eq_true_2.
Qed.
End tags.

(** ** Attributes *)

Definition attr_ok (a : attr) : bool := tag_name (attr_name a) && xml_chars (attr_value a).
Definition attr_tok (a : attr) : Attr := mkXAttr (name_of (attr_name a)) (attr_value a).

(** A name starts with a letter. *)
Lemma tag_name_head s : tag_name s = true → ∃ c s', s = String c s' ∧ letter c = true.
Proof.
  unfold tag_name. destruct s as [|c s]; [done|]. intros Hn. exists c, s. split; [done|].
  destruct (cut_byte ":" (String c s)) as [[p l]|] eqn:E.
  - apply cut_byte_Some in E as [E _]. btrue. destruct p as [|a p]; [done|].
    rewrite str_app_cons in E. injection E as <- _. simpl in *. by btrue.
  - simpl in Hn. by btrue.
Qed.

Lemma letter_neq c d : letter c = true → letter d = false → c ≠ d.
Proof. intros Hc Hd ->. congruence. Qed.

Lemma skip_space_name s r : tag_name s = true → skip_space (s +:+ r) = s +:+ r.
Proof.
  intros (c & s' & -> & Hc)%tag_name_head. rewrite str_app_cons. simpl.
  assert (is_xml_space c = false) as ->; [|done]. unfold is_xml_space.
  assert (∀ d, letter d = false → Ascii.eqb c d = false) as Hd.
  { intros d ?. apply Ascii.eqb_neq. by apply letter_neq. }
  rewrite Hd by done. unfold letter, between in Hc.
  assert (65 ≤ byte_val c) by (rewrite orb_true_iff, !andb_true_iff, !Z.leb_le in Hc; lia).
  by repeat match goal with |- context [?a =? ?b] => destruct (Z.eqb_spec a b); [lia|] end.
Qed.

Lemma HasPrefix_one c s : HasPrefix (String c s) (String c "") = true.
Proof. unfold HasPrefix. simpl. destruct (ascii_dec c c); [by destruct s|done]. Qed.

(** What ends the attributes: [>] or [/>]. *)
Inductive tag_end : string → bool → string → Prop :=
  | end_open r : tag_end (String ">" r) false r
  | end_empty r : tag_end (String "/" (String ">" r)) true r.

Section attrs.
Context `{NameTables}.

Lemma read_attrs_render f attrs s e r :
  forallb attr_ok attrs = true → tag_end s e r → (length attrs < f)%nat →
  read_attrs f (render_attrs attrs +:+ s) = Ok (map attr_tok attrs, e, r).
Proof.
  intros Ha He. revert f Ha. induction attrs as [|a attrs IH]; intros f Ha Hf;
    (destruct f as [|f]; [simpl in Hf; lia|]).
  { rewrite str_app_nil_l. by destruct He; [|destruct r]. }
  unfold render_attrs in *. cbn [map str_concat forallb] in *. unfold attr_ok in Ha. btrue.
  rewrite <- !str_app_assoc. cbn [read_attrs].
  change (skip_space (" " +:+ ?x)) with (skip_space x).
  rewrite skip_space_name by done.
  destruct (tag_name_head (attr_name a)) as (c & n & En & Hc); [done|].
  rewrite En at 1. rewrite str_app_cons.
  rewrite (proj2 (Ascii.eqb_neq c "/")) by (by apply letter_neq).
  rewrite (proj2 (Ascii.eqb_neq c ">")) by (by apply letter_neq).
  rewrite <- str_app_cons, <- En.
  change ("=" +:+ ?x) with (String "=" x). rewrite nsname_tag by done.
  cbn [result_bind skip_space is_xml_space]. 
  change (is_xml_space "=") with false. cbn iota.
  rewrite HasPrefix_one. cbn [sdrop].
  change (skip_space (quote +:+ ?x)) with (String dquote x).
  unfold attrval. change (Ascii.eqb dquote "'" || (byte_val dquote =? 34)) with true. cbn iota.
  rewrite (text_escape _ _ _ (str_concat (map (λ a0, " " +:+ attr_name a0 +:+ "=" +:+ quote +:+
    EscapeText (attr_value a0) +:+ quote) attrs) +:+ s)); [| by right| |done].
  2: { change (quote +:+ ?x) with (String dquote x). constructor. }
  cbn [result_bind]. rewrite IH; [done|done|simpl in Hf; lia].
Qed.

(** ** Elements *)

Definition raw_start_of (name : string) (attrs : list attr) : string :=
  name +:+ render_attrs attrs.

Lemma render_attrs_head attrs s e r :
  tag_end s e r → ∃ c s', render_attrs attrs +:+ s = String c s' ∧ ends_name c = true.
Proof.
  intros He. destruct attrs as [|a attrs].
  - rewrite str_app_nil_l. destruct He; eauto.
  - unfold render_attrs. cbn [map str_concat]. rewrite <- !str_app_assoc. by eexists _, _.
Qed.

Lemma raw_start_render name attrs s e r :
  tag_name name = true → forallb attr_ok attrs = true → tag_end s e r →
  raw_start (name +:+ render_attrs attrs +:+ s) =
  Ok (StartElement (name_of name) (map attr_tok attrs),
      if e then Some (name_of name) else None, r, r).
Proof.
  intros Hn Ha He. unfold raw_start.
  destruct (render_attrs_head attrs s e r He) as (c & s' & Es & Hc).
  rewrite Es, nsname_tag by done. rewrite <- Es. cbn [result_bind].
  rewrite (read_attrs_render _ _ _ e r); [done..|].
  rewrite str_length_app. clear. induction attrs as [|a attrs IH]; simpl; [lia|].
  unfold render_attrs in *. cbn [map str_concat]. rewrite str_length_app. simpl. lia.
Qed.
End attrs.

(** ** Name space declarations *)

Definition declare (ns : gmap string string) (attrs : list Attr) : gmap string string :=
  (foldl (λ st a, push_attr a st) (ns, []) attrs).1.

(** The top of the stack is no pending declaration. *)
Definition settled (stk : list frame) : Prop :=
  match stk with stkNs _ _ :: _ => False | _ => True end.

Lemma push_attr_cases a ns :
  (∀ stk, push_attr a (ns, stk) = (ns, stk)) ∨
  ∃ p v, ∀ stk, push_attr a (ns, stk) = (<[p := v]> ns, stkNs p (ns !! p) :: stk).
Proof. unfold push_attr. repeat case_decide; eauto. Qed.

Lemma push_attrs_stk attrs ns stk :
  ∃ frames, foldl (λ st a, push_attr a st) (ns, stk) attrs = (declare ns attrs, frames ++ stk) ∧
    (settled stk → pop_ns (declare ns attrs) (frames ++ stk) = (ns, stk)).
Proof.
  unfold declare. assert (∀ fs0, ∃ frames,
    foldl (λ st a, push_attr a st) (ns, fs0 ++ stk) attrs =
      ((foldl (λ st a, push_attr a st) (ns, fs0) attrs).1, frames ++ fs0 ++ stk) ∧
    pop_ns (foldl (λ st a, push_attr a st) (ns, fs0) attrs).1 (frames ++ fs0 ++ stk) =
      pop_ns ns (fs0 ++ stk)) as Hgen.
  { revert ns. induction attrs as [|a attrs IH]; intros ns fs0; [by exists []|]. cbn [foldl].
    assert (∀ p v, pop_ns (<[p := v]> ns) (stkNs p (ns !! p) :: fs0 ++ stk) = pop_ns ns (fs0 ++ stk))
      as Hpop.
    { intros p v. cbn [pop_ns]. f_equal. destruct (ns !! p) as [old|] eqn:E.
      - rewrite insert_insert_eq. by apply insert_id.
      - rewrite delete_insert_eq. by apply delete_id. }
    destruct (push_attr_cases a ns) as [Hid|(p & v & Hp)].
    { rewrite !Hid. apply IH. }
    rewrite !Hp. destruct (IH (<[p := v]> ns) (stkNs p (ns !! p) :: fs0)) as (fs & E & Ep).
    exists (fs ++ [stkNs p (ns !! p)]). rewrite <- !app_assoc. split; [exact E|].
    etrans; [exact Ep|apply Hpop]. }
  destruct (Hgen []) as (frames & E & Ep). exists frames. split; [exact E|].
  intros Hs. etrans; [exact Ep|]. by destruct stk as [|[]].
Qed.

(** ** The tokens of a tree *)

Definition start_tok (ns : gmap string string) (name : string) (attrs : list attr) : Token :=
  let attrs := map attr_tok attrs in
  let ns := declare ns attrs in
  StartElement (translate ns true (name_of name))
    (map (λ a, mkXAttr (translate ns false (at_Name a)) (at_Value a)) attrs).

Definition end_tok (ns : gmap string string) (name : string) (attrs : list attr) : Token :=
  EndElement (translate (declare ns (map attr_tok attrs)) true (name_of name)).

Definition text_toks (v : string) : list Token := if decide (v = "") then [] else [CharData v].

Fixpoint xtok (ns : gmap string string) (x : xnode) : list Token :=
  match x with
  | XText name attrs v => start_tok ns name attrs :: text_toks v ++ [end_tok ns name attrs]
  | XEmpty name => [start_tok ns name []; end_tok ns name []]
  | XRaw _ => []
  | XElem name attrs xs =>
      start_tok ns name attrs ::
      concat (map (xtok (declare ns (map attr_tok attrs))) xs) ++ [end_tok ns name attrs]
  end.
Definition xtoks (ns : gmap string string) (xs : list xnode) : list Token :=
  concat (map (xtok ns) xs).

(** Trees the decoder reads back: well-formed names, XML characters, and no
    verbatim markup. *)
Fixpoint x_ok (x : xnode) : bool :=
  match x with
  | XText name attrs v => tag_name name && forallb attr_ok attrs && xml_chars v
  | XEmpty name => tag_name name
  | XRaw _ => false
  | XElem name attrs xs => tag_name name && forallb attr_ok attrs && forallb x_ok xs
  end.

Section xnode_ind.
Context (Q : xnode → Prop).
Context (Htext : ∀ n a v, Q (XText n a v)) (Hempty : ∀ n, Q (XEmpty n)) (Hraw : ∀ s, Q (XRaw s)).
Context (Helem : ∀ n a xs, Forall Q xs → Q (XElem n a xs)).
Fixpoint xnode_nested_ind (x : xnode) : Q x :=
  match x with
  | XText n a v => Htext n a v
  | XEmpty n => Hempty n
  | XRaw s => Hraw s
  | XElem n a xs =>
      Helem n a xs ((fix go xs : Forall Q xs :=
        match xs with
        | [] => Forall_nil_2 Q
        | x :: xs => Forall_cons_2 Q x xs (xnode_nested_ind x) (go xs)
        end) xs)
  end.
End xnode_ind.

Section lexing.
Context `{NameTables}.
Context (CharsetReader : string → string → result string).
Context (Hcharset : ∀ label s s', CharsetReader label s = Ok s' →
  (questions s' ≤ questions s)%nat).

Local Abbreviation Lex := (lex CharsetReader).

(** Lexing [s] from a decoder gives the tokens [T] and goes on behind it. *)
Definition lexes (T : list Token) (s : string) (stk : list frame) (ns : gmap string string)
    (stk' : list frame) (ns' : gmap string string) : Prop :=
  ∀ off rest, ∃ ts off', ts.*1 = T ∧
    Lex (mkDecoder (s +:+ rest) off stk ns None) =
    (ts ++ (Lex (mkDecoder rest off' stk' ns' None)).1, (Lex (mkDecoder rest off' stk' ns' None)).2).

Lemma lexes_nil stk ns : lexes [] "" stk ns stk ns.
Proof. intros off rest. exists [], off. split; [done|]. rewrite str_app_nil_l. by destruct (Lex _). Qed.

Lemma lexes_app T1 T2 s1 s2 k1 n1 k2 n2 k3 n3 :
  lexes T1 s1 k1 n1 k2 n2 → lexes T2 s2 k2 n2 k3 n3 → lexes (T1 ++ T2) (s1 +:+ s2) k1 n1 k3 n3.
Proof.
  intros H1 H2 off rest. destruct (H1 off (s2 +:+ rest)) as (ts1 & off1 & E1 & L1).
  destruct (H2 off1 rest) as (ts2 & off2 & E2 & L2).
  exists (ts1 ++ ts2), off2. rewrite fmap_app, E1, E2. split; [done|].
  rewrite <- str_app_assoc, L1, L2. simpl. by rewrite app_assoc.
Qed.

Lemma lexes_step t s stk ns stk' ns' :
  (∀ off rest, ∃ off', Decoder_Token CharsetReader (mkDecoder (s +:+ rest) off stk ns None) =
    Ok (t, mkDecoder rest off' stk' ns' None)) →
  lexes [t] s stk ns stk' ns'.
Proof.
  intros Ht off rest. destruct (Ht off rest) as [off' E]. exists [(t, off')], off'.
  split; [done|]. rewrite lex_unfold, E by done. by destruct (Lex _).
Qed.

Lemma lex_start name attrs stk ns :
  tag_name name = true → forallb attr_ok attrs = true →
  ∃ frames, (settled stk → pop_ns (declare ns (map attr_tok attrs)) (frames ++ stk) = (ns, stk)) ∧
    lexes [start_tok ns name attrs] ("<" +:+ name +:+ render_attrs attrs +:+ ">") stk ns
      (stkStart (name_of name) :: frames ++ stk) (declare ns (map attr_tok attrs)).
Proof.
  intros Hn Ha. destruct (push_attrs_stk (map attr_tok attrs) ns stk) as (frames & E & Hp).
  exists frames. split; [done|]. apply lexes_step. intros off rest.
  rewrite <- !str_app_assoc. change ("<" +:+ ?x) with (String "<" x).
  change (">" +:+ ?x) with (String ">" x).
  destruct (tag_name_head name Hn) as (c & n & En & Hc).
  assert (raw_token CharsetReader (String "<" (name +:+ render_attrs attrs +:+ String ">" rest)) =
    Ok (StartElement (name_of name) (map attr_tok attrs), None, rest, rest)) as Hraw.
  { cbn [raw_token]. change (Ascii.eqb "<" "<") with true. cbn iota.
    unfold raw_markup. rewrite En at 1. rewrite str_app_cons.
    rewrite (proj2 (Ascii.eqb_neq c "/")) by (by apply letter_neq).
    rewrite (proj2 (Ascii.eqb_neq c "?")) by (by apply letter_neq).
    rewrite (proj2 (Ascii.eqb_neq c "!")) by (by apply letter_neq).
    apply (raw_start_render name attrs _ false rest); [done..|constructor]. }
  unfold Decoder_Token. cbn [d_toClose d_in]. rewrite Hraw. unfold Token_start.
  cbn [d_ns d_stk d_in d_offset d_toClose]. rewrite E. by eexists.
Qed.

Lemma lex_end name stk ns stk' ns' :
  tag_name name = true → pop_ns ns stk = (ns', stk') →
  lexes [EndElement (translate ns true (name_of name))] ("</" +:+ name +:+ ">")
    (stkStart (name_of name) :: stk) ns stk' ns'.
Proof.
  intros Hn Hp. apply lexes_step. intros off rest. rewrite <- !str_app_assoc.
  change ("</" +:+ ?x) with (String "<" (String "/" x)).
  change (">" +:+ ?x) with (String ">" x).
  assert (raw_token CharsetReader (String "<" (String "/" (name +:+ String ">" rest))) =
    Ok (EndElement (name_of name), None, rest, rest)) as Hraw.
  { cbn [raw_token]. change (Ascii.eqb "<" "<") with true. cbn iota. cbn [raw_markup].
    change (Ascii.eqb "/" "/") with true. cbn iota. unfold raw_end.
    by rewrite nsname_tag. }
  unfold Decoder_Token. cbn [d_toClose d_in]. rewrite Hraw. unfold Token_end.
  cbn [d_ns d_stk d_in d_offset d_toClose]. rewrite decide_True by done. rewrite Hp. by eexists.
Qed.

Lemma lex_empty name stk ns :
  tag_name name = true → settled stk →
  lexes [start_tok ns name []; end_tok ns name []] ("<" +:+ name +:+ "/>") stk ns stk ns.
Proof.
  intros Hn Hs off rest. rewrite <- !str_app_assoc. change ("<" +:+ ?x) with (String "<" x).
  change ("/>" +:+ ?x) with (String "/" (String ">" x)).
  destruct (tag_name_head name Hn) as (c & n & En & Hc).
  assert (raw_token CharsetReader (String "<" (name +:+ String "/" (String ">" rest))) =
    Ok (StartElement (name_of name) [], Some (name_of name), rest, rest)) as Hraw.
  { cbn [raw_token]. change (Ascii.eqb "<" "<") with true. cbn iota.
    unfold raw_markup. rewrite En at 1. rewrite str_app_cons.
    rewrite (proj2 (Ascii.eqb_neq c "/")) by (by apply letter_neq).
    rewrite (proj2 (Ascii.eqb_neq c "?")) by (by apply letter_neq).
    rewrite (proj2 (Ascii.eqb_neq c "!")) by (by apply letter_neq).
    apply (raw_start_render name [] (String "/" (String ">" rest)) true rest);
      [done..|constructor]. }
  rewrite lex_unfold by done. unfold Decoder_Token at 1. cbn [d_toClose d_in]. rewrite Hraw.
  unfold Token_start. cbn [foldl map d_ns d_stk d_in d_offset d_toClose].
  rewrite lex_unfold by done. unfold Decoder_Token at 1. cbn [d_toClose d_in d_stk d_ns d_offset].
  unfold Token_end. cbn [d_ns d_stk d_in d_offset d_toClose].
  rewrite (decide_True (P := name_of name = name_of name)) by done.
  replace (pop_ns ns stk) with (ns, stk) by (by destruct stk as [|[]]).
  cbn iota. match goal with |- context [mkDecoder rest ?o stk ns None] => exists
    [(start_tok ns name [], o); (end_tok ns name [], o)], o end.
  split; [done|]. by destruct (Lex _).
Qed.

Lemma lex_text v stk ns :
  xml_chars v = true → ∀ T s stk' ns', 
  lexes T (String "<" s) stk ns stk' ns' →
  lexes (text_toks v ++ T) (EscapeText v +:+ String "<" s) stk ns stk' ns'.
Proof.
  intros Hv T s stk' ns' HT. unfold text_toks. case_decide as Hne; [subst v; by rewrite str_app_nil_l|].
  intros off rest.
  assert (∃ off1, Decoder_Token CharsetReader
      (mkDecoder (EscapeText v +:+ String "<" (s +:+ rest)) off stk ns None) =
    Ok (CharData v, mkDecoder (String "<" (s +:+ rest)) off1 stk ns None)) as [off1 E].
  { destruct (EscapeText v) as [|c e] eqn:Ee.
    - exfalso. unfold EscapeText in Ee. pose proof (text_escape PlainText v "<" "<") as Ht.
      unfold EscapeText in Ht. rewrite Ee in Ht.
      rewrite str_app_nil_l in Ht. specialize (Ht ltac:(by left) ltac:(constructor) Hv).
      by injection Ht as <-.
    - assert (Ascii.eqb c "<" = false) as Hc.
      { pose proof (escape_no_markup (String.length v) v) as Hm.
        unfold EscapeText in Ee. rewrite Ee in Hm. unfold no_markup in Hm. simpl in Hm. btrue.
        unfold markup_char in *. destruct (Ascii.eqb_spec c "<") as [->|]; [by vm_compute in H0|done]. }
      unfold Decoder_Token. cbn [d_toClose d_in]. rewrite str_app_cons. cbn [raw_token]. rewrite Hc.
      rewrite <- str_app_cons, <- Ee. rewrite (text_escape _ _ _ (String "<" (s +:+ rest)));
        [|by left|constructor|done]. by eexists. }
  destruct (HT off1 rest) as (ts & off2 & Et & L).
  exists ((CharData v, off1) :: ts), off2. rewrite <- str_app_assoc, str_app_cons.
  split; [by rewrite fmap_cons, Et|].
  rewrite lex_unfold, E by done. cbn [d_offset]. rewrite str_app_cons in L. by rewrite L.
Qed.

Lemma line_pad_none d : line_pad "" d = "".
Proof. done. Qed.

Lemma lexes_xtok x : ∀ d stk ns,
  x_ok x = true → settled stk → lexes (xtok ns x) (render "" d x) stk ns stk ns.
Proof.
  induction x as [n a v|n|s|n a xs IH] using xnode_nested_ind; intros d stk ns Hx Hs;
    cbn [x_ok xtok render] in *; unfold line_end, line_pad; rewrite ?decide_True by done;
    rewrite ?str_app_nil_l, ?str_app_nil_r; btrue; [| |done|].
  - destruct (lex_start n a stk ns) as (frames & Hp & Hl); [done..|].
    rewrite <- (app_nil_l (_ :: _)). 
    replace ("<" +:+ n +:+ render_attrs a +:+ ">" +:+ EscapeText v +:+ "</" +:+ n +:+ ">") with
      (("<" +:+ n +:+ render_attrs a +:+ ">") +:+ EscapeText v +:+ String "<" ("/" +:+ n +:+ ">"))
      by (by rewrite <- !str_app_assoc).
    apply (lexes_app [start_tok ns n a] _ _ _ _ _ _ _ _ _ Hl).
    apply lex_text; [done|]. apply lex_end; [done|]. by apply Hp.
  - by apply lex_empty.
  - destruct (lex_start n a stk ns) as (frames & Hp & Hl); [done..|].
    rewrite <- (app_nil_l (_ :: _)). 
    replace ("<" +:+ n +:+ render_attrs a +:+ ">" +:+ str_concat (map (render "" (d + 1)) xs) +:+
        "</" +:+ n +:+ ">") with
      (("<" +:+ n +:+ render_attrs a +:+ ">") +:+ str_concat (map (render "" (d + 1)) xs) +:+
        "</" +:+ n +:+ ">") by (by rewrite <- !str_app_assoc).
    apply (lexes_app [start_tok ns n a] _ _ _ _ _ _ _ _ _ Hl).
    eapply lexes_app; [|apply lex_end; [done|by apply Hp]].
    assert (forallb x_ok xs = true) as Hxs by done. clear -IH Hxs Hcharset. generalize (declare ns (map attr_tok a)). intros ns'.
    generalize (frames ++ stk). intros k.
    induction IH as [|x xs Hx _ IH']; [apply lexes_nil|]. simpl in *. btrue.
    apply lexes_app with (k2 := stkStart (name_of n) :: k) (n2 := ns'); [|by apply IH'].
    apply Hx; [done|exact I].
Qed.
End lexing.
