(* ===== verification/XmlDoc.v ===== *)
(** * XML documents and xml.Unmarshal

    encoding/xml's Unmarshal as the SOAP and provisioning packages use it: the
    tokens of a document form a tree ([xtree]), which the struct types are then
    filled from.  A field is filled by the elements of its name in document
    order; each use writes its own reader with [fold_kids] and [attr_last].

    [xdoc] are the documents the repository's writers produce; writing one and
    reading it gives its tree ([unmarshal_render]). *)
From stdpp Require Import base gmap strings list.
From Stdlib Require Import ZArith Lia Ascii ZifyBool.
From S2P Require Import Prelude GoStrings SyncmlModel Encode Utf8 GoXml XmlLex.

Local Open Scope Z_scope.

(** ** What Unmarshal reads *)

Inductive xtree : Type :=
  | TElem (name : Name) (attrs : list Attr) (kids : list xtree)
  | TText (s : string).

(** The first element of a token stream, with the elements and character data
    in it; what follows its end is not read.  The stack holds the open
    elements, their contents reversed. *)
Fixpoint build (ts : list Token) (stk : list (Name * list Attr * list xtree)) : option xtree :=
  match ts with
  | [] => None
  | StartElement n a :: ts => build ts ((n, a, []) :: stk)
  | EndElement _ :: ts =>
      match stk with
      | (n, a, ks) :: (m, b, ls) :: stk => build ts ((m, b, TElem n a (rev ks) :: ls) :: stk)
      | [(n, a, ks)] => Some (TElem n a (rev ks))
      | [] => None
      end
  | CharData s :: ts =>
      match stk with
      | (n, a, ks) :: stk => build ts ((n, a, TText s :: ks) :: stk)
      | [] => build ts []
      end
  | _ :: ts => build ts stk
  end.

(** A decoder without a CharsetReader refuses a declared encoding other than
    UTF-8. *)
Definition no_charset (label s : string) : result string := Err xml_error.

Definition Unmarshal_tree `{NameTables} (data : string) : result xtree :=
  let '(ts, e) := lex no_charset (NewDecoder data) in
  match build (map fst ts) [] with
  | Some t => Ok t
  | None => Err e
  end.

(** ** Filling struct fields *)

Definition tree_name (t : xtree) : option Name :=
  match t with TElem n _ _ => Some n | TText _ => None end.
Definition tree_attrs (t : xtree) : list Attr :=
  match t with TElem _ a _ => a | TText _ => [] end.
Definition tree_kids (t : xtree) : list xtree :=
  match t with TElem _ _ ks => ks | TText _ => [] end.

(** A field tag: [xml:"local"] matches in any name space, [xml:"space local"]
    in one. *)
Inductive tag := Tag (local : string) | TagNS (space local : string).

Definition tag_match (g : tag) (n : Name) : bool :=
  match g with
  | Tag l => bool_decide (name_Local n = l)
  | TagNS s l => bool_decide (name_Space n = s) && bool_decide (name_Local n = l)
  end.

(** The elements below [t] in document order, handed to the fields. *)
Definition fold_kids {A} (f : A → Name → xtree → A) (a : A) (t : xtree) : A :=
  foldl (λ a k, match k with TElem n _ _ => f a n k | TText _ => a end) a (tree_kids t).

(** The children a tag selects. *)
Definition kids_of (g : tag) (t : xtree) : list xtree :=
  List.filter (λ k, match k with TElem n _ _ => tag_match g n | TText _ => false end) (tree_kids t).

(** A string field: the character data directly in the element. *)
Definition chardata (t : xtree) : string :=
  str_concat (map (λ k, match k with TText s => s | TElem _ _ _ => "" end) (tree_kids t)).

(** A string field filled by child elements: the last one stands. *)
Definition text_field (g : tag) (t : xtree) (old : string) : string :=
  foldl (λ _ k, chardata k) old (kids_of g t).

(** A slice of strings: one per element. *)
Definition text_slice (g : tag) (t : xtree) : list string := map chardata (kids_of g t).

(** Nested structs: the elements a path of tags reaches, in document order.
    Fields of structs that are not pointers are filled by all of them. *)
Fixpoint at_path (gs : list tag) (t : xtree) : list xtree :=
  match gs with
  | [] => [t]
  | g :: gs => flat_map (at_path gs) (kids_of g t)
  end.
Definition path_texts (gs : list tag) (t : xtree) : list string := map chardata (at_path gs t).
Definition path_text (gs : list tag) (t : xtree) : string := List.last (path_texts gs t) "".

(** An attribute field; the last matching attribute stands. *)
Definition attr_last (g : tag) (t : xtree) : option string :=
  last (map at_Value (List.filter (λ a, tag_match g (at_Name a)) (tree_attrs t))).

(** ** The documents the writers produce *)

Inductive xdoc : Type :=
  | DLeaf (name : string) (attrs : list attr) (value : string)
  | DEmpty (name : string) (attrs : list attr)
  | DNode (name : string) (attrs : list attr) (kids : list xdoc).

Fixpoint doc_render (x : xdoc) : string :=
  match x with
  | DLeaf n a v =>
      "<" +:+ n +:+ render_attrs a +:+ ">" +:+ EscapeText v +:+ "</" +:+ n +:+ ">"
  | DEmpty n a => "<" +:+ n +:+ render_attrs a +:+ "/>"
  | DNode n a xs =>
      "<" +:+ n +:+ render_attrs a +:+ ">" +:+ str_concat (map doc_render xs) +:+
      "</" +:+ n +:+ ">"
  end.

(** Well-formed names and XML characters. *)
Fixpoint doc_ok (x : xdoc) : bool :=
  match x with
  | DLeaf n a v => tag_name n && forallb attr_ok a && xml_chars v
  | DEmpty n a => tag_name n && forallb attr_ok a
  | DNode n a xs => tag_name n && forallb attr_ok a && forallb doc_ok xs
  end.

Definition scope (ns : gmap string string) (attrs : list attr) : gmap string string :=
  declare ns (map attr_tok attrs).

(** The tree of a document, names resolved in [ns]. *)
Definition tree_attr (ns : gmap string string) (a : attr) : Attr :=
  mkXAttr (translate ns false (name_of (attr_name a))) (attr_value a).
Fixpoint tree_of (ns : gmap string string) (x : xdoc) : xtree :=
  let elem n a ks := let ns := scope ns a in
    TElem (translate ns true (name_of n)) (map (tree_attr ns) a) ks in
  match x with
  | DLeaf n a v => elem n a (if decide (v = "") then [] else [TText v])
  | DEmpty n a => elem n a []
  | DNode n a xs => elem n a (map (tree_of (scope ns a)) xs)
  end.

Fixpoint doc_toks (ns : gmap string string) (x : xdoc) : list Token :=
  match x with
  | DLeaf n a v => start_tok ns n a :: text_toks v ++ [end_tok ns n a]
  | DEmpty n a => [start_tok ns n a; end_tok ns n a]
  | DNode n a xs => start_tok ns n a :: concat (map (doc_toks (scope ns a)) xs) ++ [end_tok ns n a]
  end.

Section xdoc_ind.
Context (Q : xdoc → Prop).
Context (Hleaf : ∀ n a v, Q (DLeaf n a v)) (Hempty : ∀ n a, Q (DEmpty n a)).
Context (Hnode : ∀ n a xs, Forall Q xs → Q (DNode n a xs)).
Fixpoint xdoc_nested_ind (x : xdoc) : Q x :=
  match x with
  | DLeaf n a v => Hleaf n a v
  | DEmpty n a => Hempty n a
  | DNode n a xs =>
      Hnode n a xs ((fix go xs : Forall Q xs :=
        match xs with
        | [] => Forall_nil_2 Q
        | x :: xs => Forall_cons_2 Q x xs (xdoc_nested_ind x) (go xs)
        end) xs)
  end.
End xdoc_ind.

(** ** Reading back what was written *)

Section lexing.
Context `{NameTables}.
Context (CharsetReader : string → string → result string).
Context (Hcharset : ∀ label s s', CharsetReader label s = Ok s' →
  (questions s' ≤ questions s)%nat).

Local Abbreviation Lexes := (lexes CharsetReader).

Lemma lex_empty_attrs name attrs stk ns :
  tag_name name = true → forallb attr_ok attrs = true → settled stk →
  Lexes [start_tok ns name attrs; end_tok ns name attrs] ("<" +:+ name +:+ render_attrs attrs +:+ "/>")
    stk ns stk ns.
Proof.
  intros Hn Ha Hs off rest. rewrite <- !str_app_assoc. change ("<" +:+ ?x) with (String "<" x).
  change ("/>" +:+ ?x) with (String "/" (String ">" x)).
  destruct (push_attrs_stk (map attr_tok attrs) ns stk) as (frames & E & Hp).
  destruct (tag_name_head name Hn) as (c & n & En & Hc).
  assert (raw_token CharsetReader
      (String "<" (name +:+ render_attrs attrs +:+ String "/" (String ">" rest))) =
    Ok (StartElement (name_of name) (map attr_tok attrs), Some (name_of name), rest, rest)) as Hraw.
  { cbn [raw_token]. change (Ascii.eqb "<" "<") with true. cbn iota.
    unfold raw_markup. rewrite En at 1. rewrite str_app_cons.
    rewrite (proj2 (Ascii.eqb_neq c "/")) by (by apply letter_neq).
    rewrite (proj2 (Ascii.eqb_neq c "?")) by (by apply letter_neq).
    rewrite (proj2 (Ascii.eqb_neq c "!")) by (by apply letter_neq).
    apply (raw_start_render name attrs (String "/" (String ">" rest)) true rest);
      [done..|constructor]. }
  rewrite lex_unfold by done. unfold Decoder_Token at 1. cbn [d_toClose d_in]. rewrite Hraw.
  unfold Token_start. cbn [d_ns d_stk d_in d_offset d_toClose]. rewrite E.
  rewrite lex_unfold by done. unfold Decoder_Token at 1. cbn [d_toClose d_in d_stk d_ns d_offset].
  unfold Token_end. cbn [d_ns d_stk d_in d_offset d_toClose].
  rewrite (decide_True (P := name_of name = name_of name)) by done.
  rewrite (Hp Hs). cbn iota.
  match goal with |- context [mkDecoder rest ?o stk ns None] => exists
    [(start_tok ns name attrs, o); (end_tok ns name attrs, o)], o end.
  split; [done|]. by destruct (lex _ _).
Qed.

Lemma lexes_doc x : ∀ stk ns,
  doc_ok x = true → settled stk → Lexes (doc_toks ns x) (doc_render x) stk ns stk ns.
Proof.
  induction x as [n a v|n a|n a xs IH] using xdoc_nested_ind; intros stk ns Hx Hs;
    cbn [doc_ok doc_toks doc_render] in *; btrue.
  - destruct (lex_start CharsetReader Hcharset n a stk ns) as (frames & Hp & Hl); [done..|].
    replace ("<" +:+ n +:+ render_attrs a +:+ ">" +:+ EscapeText v +:+ "</" +:+ n +:+ ">") with
      (("<" +:+ n +:+ render_attrs a +:+ ">") +:+ EscapeText v +:+ String "<" ("/" +:+ n +:+ ">"))
      by (by rewrite <- !str_app_assoc).
    apply (lexes_app CharsetReader [start_tok ns n a] _ _ _ _ _ _ _ _ _ Hl).
    apply lex_text; [done|done|]. apply lex_end; [done|done|]. by apply Hp.
  - by apply lex_empty_attrs.
  - destruct (lex_start CharsetReader Hcharset n a stk ns) as (frames & Hp & Hl); [done..|].
    replace ("<" +:+ n +:+ render_attrs a +:+ ">" +:+ str_concat (map doc_render xs) +:+
        "</" +:+ n +:+ ">") with
      (("<" +:+ n +:+ render_attrs a +:+ ">") +:+ str_concat (map doc_render xs) +:+
        "</" +:+ n +:+ ">") by (by rewrite <- !str_app_assoc).
    apply (lexes_app CharsetReader [start_tok ns n a] _ _ _ _ _ _ _ _ _ Hl).
    eapply lexes_app; [|apply lex_end; [done|done|by apply Hp]].
    assert (forallb doc_ok xs = true) as Hxs by done. unfold scope.
    clear -IH Hxs Hcharset. generalize (declare ns (map attr_tok a)). intros ns'.
    generalize (frames ++ stk). intros k.
    induction IH as [|x xs Hx _ IH']; [by apply lexes_nil|]. simpl in *. btrue.
    apply (lexes_app CharsetReader) with (k2 := stkStart (name_of n) :: k) (n2 := ns'); [|by apply IH'].
    apply Hx; [done|exact I].
Qed.
End lexing.

Lemma build_text v ts n a ks stk :
  build (text_toks v ++ ts) ((n, a, ks) :: stk) =
  build ts ((n, a, rev (if decide (v = "") then [] else [TText v]) ++ ks) :: stk).
Proof. unfold text_toks. by destruct (decide (v = "")). Qed.

Lemma build_kids xs ns ts n a ks stk :
  Forall (λ x, ∀ ns ts n a ks stk, build (doc_toks ns x ++ ts) ((n, a, ks) :: stk) =
    build ts ((n, a, tree_of ns x :: ks) :: stk)) xs →
  build (concat (map (doc_toks ns) xs) ++ ts) ((n, a, ks) :: stk) =
  build ts ((n, a, rev (map (tree_of ns) xs) ++ ks) :: stk).
Proof.
  intros H. revert ks. induction H as [|x xs Hx _ IH]; intros ks; [done|].
  cbn [map concat rev]. rewrite <- app_assoc, Hx, IH. by rewrite <- app_assoc.
Qed.

Lemma build_doc x : ∀ ns ts n a ks stk,
  build (doc_toks ns x ++ ts) ((n, a, ks) :: stk) = build ts ((n, a, tree_of ns x :: ks) :: stk).
Proof.
  induction x as [m b v|m b|m b xs IH] using xdoc_nested_ind; intros ns ts n a ks stk;
    cbn [doc_toks tree_of].
  - unfold start_tok at 1. cbn [app build]. rewrite <- app_assoc, build_text.
    cbn [app end_tok build]. rewrite app_nil_r, rev_involutive. by rewrite map_map.
  - unfold start_tok, end_tok. cbn [app build rev]. by rewrite map_map.
  - unfold start_tok at 1. cbn [app build]. rewrite <- app_assoc.
    rewrite build_kids by done.
    cbn [app end_tok build]. rewrite app_nil_r, rev_involutive. by rewrite map_map.
Qed.

(** Reading a written document gives its tree. *)
Lemma unmarshal_render `{NameTables} x :
  doc_ok x = true → Unmarshal_tree (doc_render x) = Ok (tree_of ∅ x).
Proof.
  intros Hx. unfold Unmarshal_tree, NewDecoder.
  destruct (lexes_doc no_charset ltac:(done) x [] ∅ Hx I 0 "") as (ts & off & Et & El).
  rewrite str_app_nil_r in El. rewrite El. cbn [fst]. rewrite map_app.
  change (map fst ts) with (ts.*1). rewrite Et.
  generalize (map fst (lex no_charset (mkDecoder "" off [] ∅ None)).1). intros us.
  destruct x as [m b v|m b|m b xs]; cbn [doc_toks tree_of].
  - unfold start_tok at 1. cbn [app build]. rewrite <- app_assoc, build_text.
    cbn [app end_tok build]. rewrite app_nil_r, rev_involutive. by rewrite map_map.
  - unfold start_tok, end_tok. cbn [app build rev]. by rewrite map_map.
  - unfold start_tok at 1. cbn [app build]. rewrite <- app_assoc.
    rewrite build_kids by (apply Forall_true; intros x; apply build_doc).
    cbn [app end_tok build]. rewrite app_nil_r, rev_involutive. by rewrite map_map.
Qed.

(** ** Finding one's way in the tree of a document *)

Definition doc_tag (x : xdoc) : string :=
  match x with DLeaf n _ _ | DEmpty n _ | DNode n _ _ => n end.
Definition doc_attrs (x : xdoc) : list attr :=
  match x with DLeaf _ a _ | DEmpty _ a | DNode _ a _ => a end.

(** The resolved name of an element. *)
Definition doc_name (ns : gmap string string) (x : xdoc) : Name :=
  translate (scope ns (doc_attrs x)) true (name_of (doc_tag x)).

Lemma doc_name_local g ns x :
  tag_match (Tag g) (doc_name ns x) = bool_decide (name_Local (name_of (doc_tag x)) = g).
Proof. unfold tag_match, doc_name. by rewrite translate_Local. Qed.

Lemma tree_of_elem ns x : ∃ a ks, tree_of ns x = TElem (doc_name ns x) a ks.
Proof. destruct x; simpl; eauto. Qed.

Lemma tree_of_attrs ns x :
  tree_attrs (tree_of ns x) = map (tree_attr (scope ns (doc_attrs x))) (doc_attrs x).
Proof. by destruct x. Qed.

Lemma fold_kids_node {A} (f : A → Name → xtree → A) a ns n at_ xs :
  fold_kids f a (tree_of ns (DNode n at_ xs)) =
  foldl (λ a x, f a (doc_name (scope ns at_) x) (tree_of (scope ns at_) x)) a xs.
Proof.
  unfold fold_kids. cbn [tree_of tree_kids]. generalize (scope ns at_). intros ns'.
  revert a. induction xs as [|x xs IH]; intros a; [done|]. cbn [map foldl].
  destruct (tree_of_elem ns' x) as (b & ks & E). rewrite E at 1. apply IH.
Qed.

Lemma kids_of_node g ns n at_ xs :
  kids_of g (tree_of ns (DNode n at_ xs)) =
  map (tree_of (scope ns at_)) (List.filter (λ x, tag_match g (doc_name (scope ns at_) x)) xs).
Proof.
  unfold kids_of. cbn [tree_of tree_kids]. generalize (scope ns at_). intros ns'.
  induction xs as [|x xs IH]; [done|]. cbn [map List.filter].
  destruct (tree_of_elem ns' x) as (b & ks & E). rewrite E at 1. rewrite IH.
  by destruct (tag_match g (doc_name ns' x)).
Qed.

Lemma text_field_node g ns n at_ xs old :
  text_field g (tree_of ns (DNode n at_ xs)) old =
  foldl (λ s x, if tag_match g (doc_name (scope ns at_) x) then chardata (tree_of (scope ns at_) x) else s)
    old xs.
Proof.
  unfold text_field. rewrite kids_of_node. revert old.
  induction xs as [|x xs IH]; intros old; [done|]. cbn [List.filter map foldl].
  destruct (tag_match g (doc_name (scope ns at_) x)); cbn [map foldl]; apply IH.
Qed.

Lemma chardata_leaf ns n a v : chardata (tree_of ns (DLeaf n a v)) = v.
Proof.
  unfold chardata. cbn [tree_of tree_kids]. destruct (decide (v = "")) as [->|]; [done|].
  simpl. apply str_app_nil_r.
Qed.

Lemma chardata_empty ns n a : chardata (tree_of ns (DEmpty n a)) = "".
Proof. done. Qed.

Lemma doc_name_match g ns x n a b :
  doc_tag x = n → doc_attrs x = a → tag_match g (translate (scope ns a) true (name_of n)) = b →
  tag_match g (doc_name ns x) = b.
Proof. unfold doc_name. by intros -> -> ->. Qed.

(** Evaluate the tests on closed names; the contents of an element do not
    matter for its name. *)
Ltac doc_names :=
  repeat match goal with
    | |- context [tag_match ?g (doc_name ?ns ?x)] =>
        let n := eval cbn [doc_tag] in (doc_tag x) in
        let a := eval cbn [doc_attrs] in (doc_attrs x) in
        let b := eval vm_compute in (tag_match g (translate (scope ns a) true (name_of n))) in
        rewrite (doc_name_match g ns x n a b eq_refl eq_refl) by (vm_compute; reflexivity)
    end; cbn iota.

(** The children one after the other: each is settled before the next. *)
Lemma foldl_step {A B} (f : A → B → A) a x xs b : f a x = b → foldl f a (x :: xs) = foldl f b xs.
Proof. by intros <-. Qed.

Ltac fold_docs simp :=
  repeat (erewrite foldl_step; [|cbv beta; doc_names; simp; reflexivity]); cbn [foldl].

(** ** Paths through a document *)

(** The text directly in an element. *)
Definition doc_text (x : xdoc) : string := match x with DLeaf _ _ v => v | _ => "" end.

Lemma chardata_of ns x : chardata (tree_of ns x) = doc_text x.
Proof.
  destruct x as [n a v|n a|n a xs]; [apply chardata_leaf|done|].
  unfold chardata. cbn [tree_of tree_kids doc_text]. generalize (scope ns a). intros ns'.
  induction xs as [|x xs IH]; [done|]. cbn [map str_concat].
  destruct (tree_of_elem ns' x) as (b & ks & E). by rewrite E, IH.
Qed.

Fixpoint doc_path (ns : gmap string string) (gs : list tag) (x : xdoc)
    : list (gmap string string * xdoc) :=
  match gs with
  | [] => [(ns, x)]
  | g :: gs =>
      match x with
      | DNode _ a xs =>
          flat_map (λ y, if tag_match g (doc_name (scope ns a) y) then doc_path (scope ns a) gs y else []) xs
      | _ => []
      end
  end.

Lemma at_path_doc gs : ∀ ns x,
  at_path gs (tree_of ns x) = map (λ p, tree_of p.1 p.2) (doc_path ns gs x).
Proof.
  induction gs as [|g gs IH]; intros ns x; [done|]. cbn [at_path doc_path].
  destruct x as [n a v|n a|n a xs].
  - unfold kids_of. cbn [tree_of tree_kids]. by case_decide.
  - done.
  - rewrite kids_of_node. induction xs as [|x xs IHxs]; [done|]. cbn [List.filter flat_map].
    destruct (tag_match g (doc_name (scope ns a) x)); cbn [map flat_map]; [|done].
    by rewrite map_app, IH, IHxs.
Qed.

Lemma path_texts_doc ns gs x :
  path_texts gs (tree_of ns x) = map (λ p, doc_text p.2) (doc_path ns gs x).
Proof.
  unfold path_texts. rewrite at_path_doc, map_map. apply map_ext. intros p. apply chardata_of.
Qed.

(** ** Text that needs no escaping *)

Definition plain_text (c : ascii) : bool :=
  let v := byte_val c in
  (32 <=? v) && (v <=? 126) &&
  negb ((v =? 34) || (v =? 38) || (v =? 39) || (v =? 60) || (v =? 62)).

Lemma decode_plain c s : plain_text c = true → decode_rune (String c s) = (byte_val c, 1%nat).
Proof.
  unfold plain_text. intros E. btrue. unfold decode_rune.
  destruct (Z.ltb_spec (byte_val c) 128); [done|]. lia.
Qed.

Lemma EscapeText_plain s : str_forall plain_text s = true → EscapeText s = s.
Proof.
  unfold EscapeText. induction s as [|c s IH]; [done|]. cbn [str_forall String.length escape_fuel].
  intros E. btrue. rewrite decode_plain by done. cbn [sdrop]. rewrite IH by done.
  unfold plain_text in *. btrue. unfold escape_rune.
  repeat match goal with |- context [?a =? ?b] =>
    first [replace (a =? b) with false by (symmetry; apply Z.eqb_neq; lia)|
           replace (byte_val c =? b) with false by (symmetry; apply Z.eqb_neq; lia)] end.
  unfold isInCharacterRange.
  replace ((32 <=? byte_val c) && (byte_val c <=? 55295)) with true by lia.
  rewrite !orb_true_r. cbn [orb negb andb].
  destruct (byte_val c =? RuneError) eqn:Er; [apply Z.eqb_eq in Er; unfold RuneError in Er; lia|].
  done.
Qed.

Lemma xml_chars_printable s : str_forall (λ c, (32 <=? byte_val c) && (byte_val c <=? 126)) s = true →
  xml_chars s = true.
Proof.
  unfold xml_chars. induction s as [|c s IH]; [done|]. cbn [str_forall String.length xml_chars_fuel].
  intros E. btrue. assert (decode_rune (String c s) = (byte_val c, 1%nat)) as ->.
  { unfold decode_rune. by destruct (Z.ltb_spec (byte_val c) 128); [|lia]. }
  cbn [sdrop]. rewrite IH by done. unfold isInCharacterRange.
  replace ((32 <=? byte_val c) && (byte_val c <=? 55295)) with true by lia.
  destruct (Z.eqb_spec (byte_val c) RuneError) as [Er|]; [unfold RuneError in Er; lia|].
  by rewrite !orb_true_r.
Qed.

Lemma xml_chars_plain s : str_forall plain_text s = true → xml_chars s = true.
Proof.
  intros E. apply xml_chars_printable. eapply str_forall_impl; [|exact E].
  intros c. unfold plain_text. lia.
Qed.

Lemma xml_chars_printables s : str_forall printable s = true → xml_chars s = true.
Proof.
  intros E. apply xml_chars_printable. eapply str_forall_impl; [|exact E].
  intros c. unfold printable. lia.
Qed.
