(* ===== verification/Decode.v ===== *)
(** * Reading a message

    mdmprotocol/syncml/decode.go: Decode and DecodeCommand, the reader of each
    element, and the treatment of encodings.  The parser is a program over the
    tokens of [GoXml]; where the source slices the document by the decoder's
    offsets the bounds are checked, and a slice out of range is the run-time
    panic it is in Go. *)
From stdpp Require Import base gmap strings list.
From Stdlib Require Import ZArith Lia Ascii.
From S2P Require Import Prelude GoStrings SyncmlModel Response Encode GoXml.

Local Open Scope Z_scope.
Local Open Scope go_scope.

(** ** Encodings *)

(** The code units of [decodeUTF16]'s loop. *)
Fixpoint code_units (bigEndian : bool) (raw : string) : list Z :=
  match raw with
  | String a (String b raw) =>
      (if bigEndian then byte_val a * 256 + byte_val b else byte_val b * 256 + byte_val a)
      :: code_units bigEndian raw
  | _ => []
  end.

(** [utf16.Decode]: a surrogate without its partner becomes U+FFFD. *)
Fixpoint utf16_Decode (u : list Z) : list Z :=
  match u with
  | [] => []
  | a :: u' =>
      if (a <? 55296) || (57344 <=? a) then a :: utf16_Decode u'
      else match u' with
           | b :: u'' =>
               if (a <? 56320) && (56320 <=? b) && (b <? 57344)
               then (a - 55296) * 1024 + (b - 56320) + 65536 :: utf16_Decode u''
               else RuneError :: utf16_Decode u'
           | [] => [RuneError]
           end
  end.

Definition runes_string (rs : list Z) : string := str_concat (map encode_rune rs).

Definition byte_at (n : nat) (v : Z) (s : string) : bool :=
  match sget n s with Some c => byte_val c =? v | None => false end.

Definition decodeUTF16 (raw : string) : string :=
  let two := 2 <=? len raw in
  let '(bigEndian, raw) :=
    if two && byte_at 0 254 raw && byte_at 1 255 raw then (true, sdrop 2 raw)
    else if two && byte_at 0 255 raw && byte_at 1 254 raw then (false, sdrop 2 raw)
    else if two && byte_at 0 0 raw && negb (byte_at 1 0 raw) then (true, raw)
    else (false, raw) in
  runes_string (utf16_Decode (code_units bigEndian raw)).

Definition transcodeUTF16 (data : string) : string :=
  if len data <? 2 then data
  else if (byte_at 0 254 data && byte_at 1 255 data) || (byte_at 0 255 data && byte_at 1 254 data)
  then decodeUTF16 data
  else if (byte_at 0 0 data && byte_at 1 60 data) || (byte_at 0 60 data && byte_at 1 0 data)
  then decodeUTF16 data
  else data.

(** [charsetReader] on the bytes left to read. *)
Definition charsetReader (label r : string) : result string :=
  let l := go_lower (TrimSpace label) in
  if bool_decide (l ∈ [""; "utf-8"; "utf8"; "us-ascii"; "ascii"]) then Ok r
  else if bool_decide (l ∈ ["utf-16"; "utf-16le"; "utf-16be"; "utf16"]) then
    let raw := if len r <=? DefaultMaxSize + 1 then r
               else stake (Z.to_nat (DefaultMaxSize + 1)) r in
    if contains_byte nul raw then Ok (decodeUTF16 raw) else Ok raw
  else Err [].

(** ** The parser *)

(** The tokens not yet read, and InputOffset. *)
Record parser := mkParser { p_toks : list (Token * Z); p_off : Z }.

Abbreviation P := (M parser).

Definition SyntaxError : error := [syncml_ErrSyntax].

Section parser.
(** [src], and the error the tokens end in. *)
Context (src : string) (last : error).

Fixpoint next_start (ts : list (Token * Z)) (off : Z) : parser * result (string * list Attr) :=
  match ts with
  | [] => (mkParser [] off, Err last)
  | (t, o) :: ts =>
      match t with
      | StartElement n attrs => (mkParser ts o, Ok (name_Local n, attrs))
      | EndElement _ => (mkParser ts o, Err [io_EOF])
      | CharData s => if nonempty (TrimSpace s) then (mkParser ts o, Err SyntaxError)
                      else next_start ts o
      | _ => next_start ts o
      end
  end.
Definition nextStart : P (string * list Attr) := λ p, next_start (p_toks p) (p_off p).

Fixpoint text_from (ts : list (Token * Z)) (off : Z) : parser * result string :=
  match ts with
  | [] => (mkParser [] off, Err last)
  | (t, o) :: ts =>
      match t with
      | CharData s =>
          let '(p, r) := text_from ts o in
          (p, match r with Ok s' => Ok (s +:+ s') | Err e => Err e end)
      | EndElement _ => (mkParser ts o, Ok "")
      | StartElement _ _ => (mkParser ts o, Err SyntaxError)
      | _ => text_from ts o
      end
  end.
Definition p_text : P string := λ p, text_from (p_toks p) (p_off p).

Definition trimmedText : P string := let! s := p_text in ret (TrimSpace s).

Definition skipEmpty : P unit :=
  let! s := p_text in if nonempty (TrimSpace s) then throw SyntaxError else ret tt.

(** [Decoder.Skip] *)
Fixpoint skip_from (depth : Z) (ts : list (Token * Z)) (off : Z) : parser * result unit :=
  match ts with
  | [] => (mkParser [] off, Err last)
  | (t, o) :: ts =>
      match t with
      | StartElement _ _ => skip_from (depth + 1) ts o
      | EndElement _ => if depth =? 0 then (mkParser ts o, Ok tt) else skip_from (depth - 1) ts o
      | _ => skip_from depth ts o
      end
  end.
Definition Skip : P unit := λ p, skip_from 0 (p_toks p) (p_off p).

(** The loop [for { el, err := p.nextStart(); ... }] shared by the readers: one
    turn per child, until the end tag.  A turn reads at least one token. *)
Fixpoint children_fuel {A} (fuel : nat) (turn : string → list Attr → A → P A) (a : A) : P A :=
  match fuel with
  | O => throw []
  | S fuel => λ p,
      match nextStart p with
      | (p, Ok (el, attrs)) => bind (turn el attrs a) (children_fuel fuel turn) p
      | (p, Err e) => if errors_Is e io_EOF then (p, Ok a) else (p, Err e)
      end
  end.
Definition children {A} (turn : string → list Attr → A → P A) (a : A) : P A := λ p,
  children_fuel (S (length (p_toks p))) turn a p.

Definition unknown {A} : P A := throw [syncml_ErrUnknownElement].

Definition location_turn (el : string) (_ : list Attr) (l : Location) : P Location :=
  if decide (el = "LocURI") then let! v := trimmedText in ret (mkLocation v (LocName l))
  else if decide (el = "LocName") then let! v := trimmedText in ret (mkLocation (LocURI l) v)
  else unknown.
Definition location : P Location := children location_turn (mkLocation "" "").

Definition locURI : P string := let! l := location in ret (LocURI l).

(** [strconv.ParseInt(s, 10, 64)], refusing negative numbers. *)
Definition parseInt (s : string) : P Z :=
  match Atoi s with
  | Some n => if n <? 0 then throw SyntaxError else ret n
  | None => throw SyntaxError
  end.

Definition meta_turn (el : string) (_ : list Attr) (m : Meta) : P Meta :=
  let '(mkMeta format type mark size nonce maxMsg maxObj) := m in
  if decide (el = "Format") then
    let! v := trimmedText in ret (mkMeta v type mark size nonce maxMsg maxObj)
  else if decide (el = "Type") then
    let! v := trimmedText in ret (mkMeta format v mark size nonce maxMsg maxObj)
  else if decide (el = "Mark") then
    let! v := trimmedText in ret (mkMeta format type v size nonce maxMsg maxObj)
  else if decide (el = "NextNonce") then
    let! v := trimmedText in ret (mkMeta format type mark size v maxMsg maxObj)
  else if decide (el = "Size") then
    let! s := trimmedText in let! n := parseInt s in
    ret (mkMeta format type mark n nonce maxMsg maxObj)
  else if decide (el = "MaxMsgSize") then
    let! s := trimmedText in let! n := parseInt s in
    ret (mkMeta format type mark size nonce n maxObj)
  else if decide (el = "MaxObjSize") then
    let! s := trimmedText in let! n := parseInt s in
    ret (mkMeta format type mark size nonce maxMsg n)
  else Skip ;! ret m.
Definition p_meta : P Meta := children meta_turn Meta0.

Definition cred_turn (el : string) (_ : list Attr) (c : Cred) : P Cred :=
  if decide (el = "Meta") then let! m := p_meta in ret (mkCred m (Cred_Data c))
  else if decide (el = "Data") then let! v := trimmedText in ret (mkCred (Cred_Meta c) v)
  else unknown.
Definition p_cred : P Cred := children cred_turn (mkCred Meta0 "").

Definition chal_turn (el : string) (_ : list Attr) (c : Chal) : P Chal :=
  if decide (el = "Meta") then let! m := p_meta in ret (mkChal m) else unknown.
Definition p_chal : P Chal := children chal_turn (mkChal Meta0).

(** [utf8.ValidString] *)
Fixpoint valid_utf8_fuel (fuel : nat) (s : string) : bool :=
  match fuel, s with
  | S fuel, String _ _ =>
      let '(r, w) := decode_rune s in
      negb ((r =? RuneError) && Nat.eqb w 1) && valid_utf8_fuel fuel (sdrop w s)
  | _, _ => true
  end.
Definition ValidString (s : string) : bool := valid_utf8_fuel (String.length s) s.

(** [string(p.src[lo:hi])]: [None] is the panic, for a [src] without spare
    capacity. *)
Definition src_slice (lo hi : Z) : option string :=
  if (0 <=? lo) && (lo <=? hi) && (hi <=? len src)
  then Some (stake (Z.to_nat (hi - lo)) (sdrop (Z.to_nat lo) src)) else None.

(** The loop of [data]. *)
Fixpoint data_from (orig : string) (start prev : Z) (markup : bool) (depth : Z) (text : string)
    (ts : list (Token * Z)) (off : Z) : parser * result Data :=
  match ts with
  | [] => (mkParser [] off, Err last)
  | (t, o) :: ts =>
      match t with
      | StartElement _ _ => data_from orig start o true (depth + 1) text ts o
      | EndElement _ =>
          if depth =? 0 then
            (mkParser ts o,
             if markup then
               match src_slice start prev with
               | None => Err [runtime_panic]
               | Some s =>
                   let x := TrimSpace s in
                   if ValidString x then Ok (mkData "" x orig) else Err SyntaxError
               end
             else Ok (mkData text "" orig))
          else data_from orig start o markup (depth - 1) text ts o
      | CharData s =>
          data_from orig start o markup depth (if markup then text else text +:+ s) ts o
      | _ => data_from orig start o markup depth text ts o
      end
  end.

(** The last attribute of that name, whatever its name space. *)
Definition original_error (attrs : list Attr) : string :=
  foldl (λ v a, if decide (name_Local (at_Name a) = AttrOriginalError) then at_Value a else v)
    "" attrs.

Definition p_data (attrs : list Attr) : P Data := λ p,
  data_from (original_error attrs) (p_off p) (p_off p) false 0 "" (p_toks p) (p_off p).

Definition item_turn (el : string) (attrs : list Attr) (it : Item) : P Item :=
  let '(mkItem target source meta data more) := it in
  if decide (el = "Target") then let! v := locURI in ret (mkItem v source meta data more)
  else if decide (el = "Source") then let! v := locURI in ret (mkItem target v meta data more)
  else if decide (el = "Meta") then
    let! m := p_meta in ret (mkItem target source (Some m) data more)
  else if decide (el = "Data") then
    let! d := p_data attrs in ret (mkItem target source meta (Some d) more)
  else if decide (el = "MoreData") then
    skipEmpty ;! ret (mkItem target source meta data true)
  else unknown.
Definition p_item : P Item := children item_turn Item0.

Definition header_turn (el : string) (_ : list Attr) (h : Header) : P Header :=
  let '(mkHeader dtd proto session msg target source resp nr cred meta) := h in
  if decide (el = "VerDTD") then
    let! v := trimmedText in ret (mkHeader v proto session msg target source resp nr cred meta)
  else if decide (el = "VerProto") then
    let! v := trimmedText in ret (mkHeader dtd v session msg target source resp nr cred meta)
  else if decide (el = "SessionID") then
    let! v := trimmedText in ret (mkHeader dtd proto v msg target source resp nr cred meta)
  else if decide (el = "MsgID") then
    let! v := trimmedText in ret (mkHeader dtd proto session v target source resp nr cred meta)
  else if decide (el = "Target") then
    let! l := location in ret (mkHeader dtd proto session msg l source resp nr cred meta)
  else if decide (el = "Source") then
    let! l := location in ret (mkHeader dtd proto session msg target l resp nr cred meta)
  else if decide (el = "RespURI") then
    let! v := trimmedText in ret (mkHeader dtd proto session msg target source v nr cred meta)
  else if decide (el = "NoResp") then
    skipEmpty ;! ret (mkHeader dtd proto session msg target source resp true cred meta)
  else if decide (el = "Cred") then
    let! c := p_cred in
    ret (mkHeader dtd proto session msg target source resp nr (Some c) meta)
  else if decide (el = "Meta") then
    let! m := p_meta in
    ret (mkHeader dtd proto session msg target source resp nr cred (Some m))
  else unknown.
Definition Location0 : Location := mkLocation "" "".
Definition Header0 : Header := mkHeader "" "" "" "" Location0 Location0 "" false None None.
Definition p_header : P Header := children header_turn Header0.

(** What [itemCommand] fills in; Get is the command that may carry Lang. *)
Definition itemCommand_turn (isGet : bool) (el : string) (_ : list Attr) (g : Get) : P Get :=
  let '(mkGet id nr lang cred meta items) := g in
  if decide (el = "CmdID") then
    let! v := trimmedText in ret (mkGet v nr lang cred meta items)
  else if decide (el = "NoResp") then skipEmpty ;! ret (mkGet id true lang cred meta items)
  else if decide (el = "Lang") then
    if isGet then let! v := trimmedText in ret (mkGet id nr v cred meta items) else unknown
  else if decide (el = "Cred") then
    let! c := p_cred in ret (mkGet id nr lang (Some c) meta items)
  else if decide (el = "Meta") then
    let! m := p_meta in ret (mkGet id nr lang cred (Some m) items)
  else if decide (el = "Item") then
    let! it := p_item in ret (mkGet id nr lang cred meta (items ++ [it]))
  else unknown.
Definition p_itemCommand (isGet : bool) : P Get :=
  children (itemCommand_turn isGet) (mkGet "" false "" None None []).

Definition exec_turn (el : string) (_ : list Attr) (c : Exec) : P Exec :=
  let '(mkExec id nr cred meta corr items) := c in
  if decide (el = "CmdID") then
    let! v := trimmedText in ret (mkExec v nr cred meta corr items)
  else if decide (el = "NoResp") then skipEmpty ;! ret (mkExec id true cred meta corr items)
  else if decide (el = "Cred") then
    let! c := p_cred in ret (mkExec id nr (Some c) meta corr items)
  else if decide (el = "Meta") then
    let! m := p_meta in ret (mkExec id nr cred (Some m) corr items)
  else if decide (el = "Correlator") then
    let! v := trimmedText in ret (mkExec id nr cred meta v items)
  else if decide (el = "Item") then
    let! it := p_item in ret (mkExec id nr cred meta corr (items ++ [it]))
  else unknown.
Definition p_exec : P Exec := children exec_turn (mkExec "" false None None "" []).

Definition alert_turn (el : string) (_ : list Attr) (c : Alert) : P Alert :=
  let '(mkAlert id nr cred data corr items) := c in
  if decide (el = "CmdID") then
    let! v := trimmedText in ret (mkAlert v nr cred data corr items)
  else if decide (el = "NoResp") then skipEmpty ;! ret (mkAlert id true cred data corr items)
  else if decide (el = "Cred") then
    let! c := p_cred in ret (mkAlert id nr (Some c) data corr items)
  else if decide (el = "Data") then
    let! v := trimmedText in ret (mkAlert id nr cred v corr items)
  else if decide (el = "Correlator") then
    let! v := trimmedText in ret (mkAlert id nr cred data v items)
  else if decide (el = "Item") then
    let! it := p_item in ret (mkAlert id nr cred data corr (items ++ [it]))
  else unknown.
Definition p_alert : P Alert := children alert_turn (mkAlert "" false None "" "" []).

Definition status_turn (el : string) (attrs : list Attr) (c : Status) : P Status :=
  let '(mkStatus id msg ref cmd tref sref cred chal data items) := c in
  if decide (el = "CmdID") then
    let! v := trimmedText in ret (mkStatus v msg ref cmd tref sref cred chal data items)
  else if decide (el = "MsgRef") then
    let! v := trimmedText in ret (mkStatus id v ref cmd tref sref cred chal data items)
  else if decide (el = "CmdRef") then
    let! v := trimmedText in ret (mkStatus id msg v cmd tref sref cred chal data items)
  else if decide (el = "Cmd") then
    let! v := trimmedText in ret (mkStatus id msg ref v tref sref cred chal data items)
  else if decide (el = "TargetRef") then
    let! v := trimmedText in
    ret (mkStatus id msg ref cmd (tref ++ [v]) sref cred chal data items)
  else if decide (el = "SourceRef") then
    let! v := trimmedText in
    ret (mkStatus id msg ref cmd tref (sref ++ [v]) cred chal data items)
  else if decide (el = "Cred") then
    let! c := p_cred in ret (mkStatus id msg ref cmd tref sref (Some c) chal data items)
  else if decide (el = "Chal") then
    let! c := p_chal in ret (mkStatus id msg ref cmd tref sref cred (Some c) data items)
  else if decide (el = "Data") then
    let! d := p_data attrs in
    ret (mkStatus id msg ref cmd tref sref cred chal
           (mkData (TrimSpace (Data_Value d)) (Data_XML d) (Data_OriginalError d)) items)
  else if decide (el = "Item") then
    let! it := p_item in ret (mkStatus id msg ref cmd tref sref cred chal data (items ++ [it]))
  else unknown.
Definition Status0 : Status := mkStatus "" "" "" "" [] [] None None (mkData "" "" "") [].
Definition p_status : P Status := children status_turn Status0.

Definition results_turn (el : string) (_ : list Attr) (c : Results) : P Results :=
  let '(mkResults id msg ref cmd meta tref sref items) := c in
  if decide (el = "CmdID") then
    let! v := trimmedText in ret (mkResults v msg ref cmd meta tref sref items)
  else if decide (el = "MsgRef") then
    let! v := trimmedText in ret (mkResults id v ref cmd meta tref sref items)
  else if decide (el = "CmdRef") then
    let! v := trimmedText in ret (mkResults id msg v cmd meta tref sref items)
  else if decide (el = "Cmd") then
    let! v := trimmedText in ret (mkResults id msg ref v meta tref sref items)
  else if decide (el = "Meta") then
    let! m := p_meta in ret (mkResults id msg ref cmd (Some m) tref sref items)
  else if decide (el = "TargetRef") then
    let! v := trimmedText in ret (mkResults id msg ref cmd meta v sref items)
  else if decide (el = "SourceRef") then
    let! v := trimmedText in ret (mkResults id msg ref cmd meta tref v items)
  else if decide (el = "Item") then
    let! it := p_item in ret (mkResults id msg ref cmd meta tref sref (items ++ [it]))
  else unknown.
Definition p_results : P Results := children results_turn (mkResults "" "" "" "" None "" "" []).

Definition unsupportedCommands : list string := ["Copy"; "Map"; "Move"; "Put"; "Search"; "Sync"].

(** The members of a group: every command name but Status and Results. *)
Definition memberNames : list string :=
  [CmdAdd; CmdReplace; CmdDelete; CmdGet; CmdExec; CmdAlert; CmdAtomic; CmdSequence]
  ++ unsupportedCommands.

(** What [group] fills in. *)
Record Group := mkGroup {
  g_CmdID : string; g_NoResp : bool; g_Meta : option Meta; g_Commands : list Command }.

Definition group_turn (command : string → P Command) (el : string) (_ : list Attr) (g : Group)
    : P Group :=
  let '(mkGroup id nr meta cmds) := g in
  if decide (el = "CmdID") then let! v := trimmedText in ret (mkGroup v nr meta cmds)
  else if decide (el = "NoResp") then skipEmpty ;! ret (mkGroup id true meta cmds)
  else if decide (el = "Meta") then let! m := p_meta in ret (mkGroup id nr (Some m) cmds)
  else if bool_decide (el ∈ memberNames) then
    let! c := command el in ret (mkGroup id nr meta (cmds ++ [c]))
  else unknown.

(** [command], given the reader of a group's members. *)
Definition command_with (member : string → P Command) (name : string) : P Command :=
  let group := children (group_turn member) (mkGroup "" false None []) in
  if bool_decide (name ∈ unsupportedCommands) then throw [syncml_ErrUnsupportedCommand]
  else if decide (name = CmdAdd) then
    let! g := p_itemCommand false in
    ret (CAdd (mkAdd (Get_CmdID g) (Get_NoResp g) (Get_Cred g) (Get_Meta g) (Get_Items g)))
  else if decide (name = CmdReplace) then
    let! g := p_itemCommand false in
    ret (CReplace (mkReplace (Get_CmdID g) (Get_NoResp g) (Get_Cred g) (Get_Meta g) (Get_Items g)))
  else if decide (name = CmdDelete) then
    let! g := p_itemCommand false in
    ret (CDelete (mkDelete (Get_CmdID g) (Get_NoResp g) (Get_Cred g) (Get_Meta g) (Get_Items g)))
  else if decide (name = CmdGet) then let! g := p_itemCommand true in ret (CGet g)
  else if decide (name = CmdExec) then let! c := p_exec in ret (CExec c)
  else if decide (name = CmdAlert) then let! c := p_alert in ret (CAlert c)
  else if decide (name = CmdAtomic) then
    let! g := group in ret (CAtomic (g_CmdID g) (g_NoResp g) (g_Meta g) (g_Commands g))
  else if decide (name = CmdSequence) then
    let! g := group in ret (CSequence (g_CmdID g) (g_NoResp g) (g_Meta g) (g_Commands g))
  else if decide (name = CmdStatus) then let! c := p_status in ret (CStatus c)
  else if decide (name = CmdResults) then let! c := p_results in ret (CResults c)
  else unknown.
(** Groups nest at most as deep as there are tokens. *)
Fixpoint command_fuel (fuel : nat) (name : string) : P Command :=
  command_with (match fuel with O => λ _, throw [] | S fuel => command_fuel fuel end) name.
Definition p_command (name : string) : P Command := λ p,
  command_fuel (length (p_toks p)) name p.

Definition body_turn (el : string) (_ : list Attr) (b : Body) : P Body :=
  let '(mkBody cmds final msft) := b in
  if final then throw [syncml_ErrFinalNotLast]
  else if decide (el = "Final") then skipEmpty ;! ret (mkBody cmds true msft)
  else let! c := p_command el in ret (mkBody (cmds ++ [c]) final msft).
Definition p_body (msft : bool) : P Body := children body_turn (mkBody [] false msft).

(** The declaration of the msft prefix on SyncBody. *)
Definition declares_msft (attrs : list Attr) : bool :=
  existsb (λ a, bool_decide (name_Space (at_Name a) = "xmlns" ∧ name_Local (at_Name a) = "msft") ||
                bool_decide (name_Local (at_Name a) = "msft" ∧ at_Value a = NamespaceMSFT)) attrs.

(** The default name space declared on the root: the last declaration counts. *)
Definition root_namespace (attrs : list Attr) : string :=
  foldl (λ v a, if decide (name_Local (at_Name a) = "xmlns" ∧ name_Space (at_Name a) = "")
                then at_Value a else v) "" attrs.

(** Header and body as far as they have been seen. *)
Definition message_turn (el : string) (attrs : list Attr) (m : option Header * option Body)
    : P (option Header * option Body) :=
  let '(hdr, body) := m in
  if decide (el = "SyncHdr") then
    if hdr then throw SyntaxError else let! h := p_header in ret (Some h, body)
  else if decide (el = "SyncBody") then
    if body then throw SyntaxError
    else let! b := p_body (declares_msft attrs) in ret (hdr, Some b)
  else unknown.

(** After the root element only white space may follow. *)
Fixpoint trailer (ts : list (Token * Z)) : result unit :=
  match ts with
  | [] => if errors_Is last io_EOF then Ok tt else Err last
  | (CharData s, _) :: ts => if nonempty (TrimSpace s) then Err SyntaxError else trailer ts
  | _ :: _ => Err SyntaxError
  end.

Definition Body0 : Body := mkBody [] false false.

Definition p_message : P Message := λ p,
  match nextStart p with
  | (p, Err e) => (p, Err (SyntaxError ++ e))
  | (p, Ok (root, attrs)) =>
      if negb (bool_decide (root = "SyncML")) then (p, Err SyntaxError)
      else
        let ns := root_namespace attrs in
        if bool_decide (ns ∈ [""; NamespaceSyncML12; NamespaceSyncML11]) then
          (let! (hdr, body) := children message_turn (None, None) in
           let! p := get in
           lift (trailer (p_toks p)) ;!
           ret (mkMessage ns (default Header0 hdr) (default Body0 body))) p
        else (p, Err [syncml_ErrNamespace])
  end.
End parser.

(** ** Decode *)

Record DecodeOptions := mkDecodeOptions { do_MaxSize : Z }.

(** The errors [Decode] returns as they are. *)
Definition own_error (e : error) : bool :=
  existsb (errors_Is e) [syncml_ErrSyntax; syncml_ErrNamespace; syncml_ErrUnsupportedCommand;
    syncml_ErrUnknownElement; syncml_ErrFinalNotLast; runtime_panic].

Section Decode.
Context `{NameTables}.

Definition run_parser {A} (m : string → error → P A) (data : string) : result A :=
  let src := transcodeUTF16 data in
  let '(toks, last) := lex charsetReader (NewDecoder src) in
  (m src last (mkParser toks 0)).2.

Definition Decode (data : string) (opts : DecodeOptions) : result Message :=
  let limit := if do_MaxSize opts <=? 0 then DefaultMaxSize else do_MaxSize opts in
  if limit <? len data then Err [syncml_ErrTooLarge]
  else match run_parser p_message data with
       | Ok m => Ok m
       | Err e => if own_error e then Err e else Err (SyntaxError ++ e)
       end.

Definition Unmarshal (data : string) : result Message := Decode data (mkDecodeOptions 0).

Definition DecodeCommand (data : string) : result Command :=
  if DefaultMaxSize <? len data then Err [syncml_ErrTooLarge]
  else run_parser (λ src last p,
    match nextStart last p with
    | (p, Err e) => (p, Err (SyntaxError ++ e))
    | (p, Ok (el, _)) => p_command src last el p
    end) data.
End Decode.
