(* ===== verification/DecodeTotal.v ===== *)
(** * The decoder terminates

    The loops and the recursion of decode.go, which [Decode] runs with fuel,
    satisfy the source's own equations on every input: each turn of a loop and
    each nested group reads at least one token, so the tokens left bound
    both. *)
From stdpp Require Import base gmap strings list.
From Stdlib Require Import ZArith Lia Ascii.
From S2P Require Import Prelude GoStrings SyncmlModel Response Encode GoXml Decode.

Local Open Scope Z_scope.
Local Open Scope go_scope.

(** ** Readers never give tokens back *)

Definition shrinks {A} (m : P A) : Prop :=
  ∀ p p' r, m p = (p', r) → (length (p_toks p') ≤ length (p_toks p))%nat.

Lemma shrinks_ret {A} (a : A) : shrinks (ret a).
Proof. by intros p p' r [= <- _]. Qed.

Lemma shrinks_throw {A} e : shrinks (throw (A:=A) e).
Proof. by intros p p' r [= <- _]. Qed.

Lemma shrinks_unknown {A} : shrinks (unknown (A:=A)).
Proof. apply shrinks_throw. Qed.

Lemma shrinks_bind {A B} (m : P A) (k : A → P B) :
  shrinks m → (∀ a, shrinks (k a)) → shrinks (bind m k).
Proof.
  intros Hm Hk p p' r. unfold bind. destruct (m p) as [p1 [a|e]] eqn:E; apply Hm in E.
  - intros E'. apply Hk in E'. lia.
  - by intros [= <- _].
Qed.

Lemma shrinks_if {A} (b : bool) (m n : P A) : shrinks m → shrinks n → shrinks (if b then m else n).
Proof. by destruct b. Qed.

Create HintDb shrinks.
#[export] Hint Resolve shrinks_ret shrinks_throw shrinks_unknown shrinks_bind shrinks_if : shrinks.

Section readers.
Context (src : string) (last : error).

Lemma next_start_shrinks ts off p r :
  next_start last ts off = (p, r) → (length (p_toks p) ≤ length ts)%nat ∧
  (∀ x, r = Ok x → (length (p_toks p) < length ts)%nat).
Proof.
  revert off. induction ts as [|[t o] ts IH]; intros off; simpl; [by intros [= <- <-]|].
  assert (∀ r', (mkParser ts o, r') = (p, r) → (length (p_toks p) ≤ S (length ts))%nat ∧
    (∀ x, r = Ok x → (length (p_toks p) < S (length ts))%nat)) as Hhere.
  { intros r' [= <- <-]. simpl. split; [lia|intros; lia]. }
  assert (next_start last ts o = (p, r) → (length (p_toks p) ≤ S (length ts))%nat ∧
    (∀ x, r = Ok x → (length (p_toks p) < S (length ts))%nat)) as Hlater.
  { intros E. destruct (IH _ E) as [? Hx]. split; [lia|]. intros x Er. specialize (Hx x Er). lia. }
  destruct t; first [apply Hhere|apply Hlater|case_match; [apply Hhere|apply Hlater]].
Qed.

Lemma nextStart_shrinks p p' r :
  nextStart last p = (p', r) → (length (p_toks p') ≤ length (p_toks p))%nat ∧
  (∀ x, r = Ok x → (length (p_toks p') < length (p_toks p))%nat).
Proof. apply next_start_shrinks. Qed.

Lemma shrinks_text : shrinks (p_text last).
Proof.
  intros p. unfold p_text. generalize (p_toks p) (p_off p). intros ts off p' r. revert off r.
  induction ts as [|[t o] ts IH]; intros off r; simpl; [by intros [= <- _]|].
  destruct t; try (intros E; apply IH in E; lia); try (intros [= <- _]; simpl; lia).
  destruct (text_from last ts o) as [p1 r1] eqn:E. intros [= <- _]. apply IH in E. lia.
Qed.

Lemma shrinks_Skip : shrinks (Skip last).
Proof.
  intros p. unfold Skip. generalize 0 (p_toks p) (p_off p). intros d ts off p' r. revert d off r.
  induction ts as [|[t o] ts IH]; intros d off r; simpl; [by intros [= <- _]|].
  destruct t; try (intros E; apply IH in E; lia).
  case_match; [intros [= <- _]; simpl; lia|intros E; apply IH in E; lia].
Qed.

Lemma data_from_shrinks orig start prev m d s ts off p r :
  data_from src last orig start prev m d s ts off = (p, r) →
  (length (p_toks p) ≤ length ts)%nat.
Proof.
  revert prev m d s off. induction ts as [|[t o] ts IH]; intros prev m d s off; cbn [data_from length];
    [by intros [= <- _]|].
  destruct t; try (intros E; apply IH in E; lia).
  case_match; [intros [= <- _]; simpl; lia|intros E; apply IH in E; lia].
Qed.

Lemma shrinks_data attrs : shrinks (p_data src last attrs).
Proof. intros p p' r. apply data_from_shrinks. Qed.

Lemma shrinks_trimmed : shrinks (trimmedText last).
Proof. unfold trimmedText. eauto using shrinks_text with shrinks. Qed.

Lemma shrinks_skipEmpty : shrinks (skipEmpty last).
Proof. unfold skipEmpty. eauto 6 using shrinks_text with shrinks. Qed.

Lemma shrinks_parseInt s : shrinks (parseInt s).
Proof. unfold parseInt. destruct (Atoi s); auto with shrinks. Qed.

(** ** The loop over children *)

Section children.
Context {A : Type} (turn : string → list Attr → A → P A).
Hypothesis Hturn : ∀ el attrs a, shrinks (turn el attrs a).

(** Fuel beyond the tokens left changes nothing. *)
Lemma children_fuel_enough f g p a :
  (length (p_toks p) < f)%nat → (length (p_toks p) < g)%nat →
  children_fuel last f turn a p = children_fuel last g turn a p.
Proof using Hturn.
  revert g p a. induction f as [|f IH]; intros [|g] p a Hf Hg; try lia. cbn [children_fuel].
  destruct (nextStart last p) as [p1 [[el attrs]|e]] eqn:En; [|done].
  apply nextStart_shrinks in En as [_ En]. specialize (En _ eq_refl). unfold bind.
  destruct (turn el attrs a p1) as [p2 [a2|e]] eqn:Et; [|done]. apply Hturn in Et. apply IH; lia.
Qed.

(** The loop as the source has it. *)
Lemma children_eq a p :
  children last turn a p =
  match nextStart last p with
  | (p, Ok (el, attrs)) => bind (turn el attrs a) (children last turn) p
  | (p, Err e) => if errors_Is e io_EOF then (p, Ok a) else (p, Err e)
  end.
Proof using Hturn.
  unfold children at 1. cbn [children_fuel].
  destruct (nextStart last p) as [p1 [[el attrs]|e]] eqn:En; [|done].
  apply nextStart_shrinks in En as [_ En]. specialize (En _ eq_refl). unfold bind, children.
  destruct (turn el attrs a p1) as [p2 [a2|e]] eqn:Et; [|done]. apply Hturn in Et.
  apply children_fuel_enough; lia.
Qed.

Lemma shrinks_children_fuel f a : shrinks (children_fuel last f turn a).
Proof using Hturn.
  revert a. induction f as [|f IH]; intros a p p' r; cbn [children_fuel]; [apply shrinks_throw|].
  destruct (nextStart last p) as [p1 [[el attrs]|e]] eqn:En; apply nextStart_shrinks in En as [En _].
  - intros E. apply (shrinks_bind (turn el attrs a) (children_fuel last f turn)) in E; auto. lia.
  - case_match; by intros [= <- _].
Qed.

Lemma shrinks_children a : shrinks (children last turn a).
Proof using Hturn. intros p p' r. apply shrinks_children_fuel. Qed.

(** Turns that agree on shorter token lists make the same loop. *)
Lemma children_ext (turn' : string → list Attr → A → P A) n a p :
  (∀ el attrs a p, (length (p_toks p) < n)%nat → turn el attrs a p = turn' el attrs a p) →
  (length (p_toks p) ≤ n)%nat → children last turn a p = children last turn' a p.
Proof using Hturn.
  intros Heq. unfold children. generalize (S (length (p_toks p))). intros f. revert a p.
  induction f as [|f IH]; intros a p Hn; [done|]. cbn [children_fuel].
  destruct (nextStart last p) as [p1 [[el attrs]|e]] eqn:En; [|done].
  apply nextStart_shrinks in En as [_ En]. specialize (En _ eq_refl). unfold bind.
  rewrite <- Heq by lia. destruct (turn el attrs a p1) as [p2 [a2|e]] eqn:Et; [|done].
  apply Hturn in Et. apply IH. lia.
Qed.
End children.
End readers.
#[export] Hint Resolve shrinks_text shrinks_Skip shrinks_data shrinks_trimmed shrinks_skipEmpty
  shrinks_parseInt : shrinks.

(** A reader is built from readers by the monad and by choices. *)
Ltac shrink :=
  repeat first
    [ case_decide
    | case_bool_decide
    | apply shrinks_bind; [|intros ?]
    | progress eauto with shrinks ].
Ltac shrink_turn := apply shrinks_children; intros ? ? []; shrink.

Section elements.
Context (src : string) (last : error).

Lemma shrinks_location : shrinks (location last).
Proof. unfold location, location_turn. shrink_turn. Qed.

Lemma shrinks_meta : shrinks (p_meta last).
Proof. unfold p_meta, meta_turn. shrink_turn. Qed.

Lemma shrinks_cred : shrinks (p_cred last).
Proof. pose proof shrinks_meta. unfold p_cred, cred_turn. shrink_turn. Qed.

Lemma shrinks_chal : shrinks (p_chal last).
Proof. pose proof shrinks_meta. unfold p_chal, chal_turn. shrink_turn. Qed.

Lemma shrinks_item : shrinks (p_item src last).
Proof.
  pose proof shrinks_meta. pose proof shrinks_location. unfold p_item, item_turn. shrink_turn.
Qed.

Lemma shrinks_header : shrinks (p_header last).
Proof.
  pose proof shrinks_meta. pose proof shrinks_location. pose proof shrinks_cred.
  unfold p_header, header_turn. shrink_turn.
Qed.
End elements.
#[export] Hint Resolve shrinks_meta shrinks_cred shrinks_chal shrinks_item shrinks_header : shrinks.

Section commands.
Context (src : string) (last : error).

Lemma shrinks_itemCommand isGet : shrinks (p_itemCommand src last isGet).
Proof. unfold p_itemCommand, itemCommand_turn. shrink_turn. Qed.

Lemma shrinks_exec : shrinks (p_exec src last).
Proof. unfold p_exec, exec_turn. shrink_turn. Qed.

Lemma shrinks_alert : shrinks (p_alert src last).
Proof. unfold p_alert, alert_turn. shrink_turn. Qed.

Lemma shrinks_status : shrinks (p_status src last).
Proof. unfold p_status, status_turn. shrink_turn. Qed.

Lemma shrinks_results : shrinks (p_results src last).
Proof. unfold p_results, results_turn. shrink_turn. Qed.

Lemma shrinks_group_turn member el attrs g :
  (∀ el, shrinks (member el)) → shrinks (group_turn last member el attrs g).
Proof. intros Hm. unfold group_turn. destruct g. shrink. Qed.

Lemma shrinks_group member g :
  (∀ el, shrinks (member el)) → shrinks (children last (group_turn last member) g).
Proof. intros Hm. apply shrinks_children. intros. by apply shrinks_group_turn. Qed.

Lemma shrinks_command_with member name :
  (∀ el, shrinks (member el)) → shrinks (command_with src last member name).
Proof.
  intros Hm. pose proof (λ g, shrinks_group member g Hm).
  pose proof shrinks_itemCommand. pose proof shrinks_exec. pose proof shrinks_alert.
  pose proof shrinks_status. pose proof shrinks_results. unfold command_with. shrink.
Qed.

Lemma shrinks_command_fuel f name : shrinks (command_fuel src last f name).
Proof.
  revert name. induction f as [|f IH]; intros name; cbn [command_fuel];
    apply shrinks_command_with; auto with shrinks.
Qed.

Lemma group_ext member member' n g p :
  (∀ el, shrinks (member el)) →
  (∀ el p, (length (p_toks p) < n)%nat → member el p = member' el p) →
  (length (p_toks p) ≤ n)%nat →
  children last (group_turn last member) g p = children last (group_turn last member') g p.
Proof.
  intros Hs Heq Hp. apply (children_ext _ _ (λ el attrs g, shrinks_group_turn member el attrs g Hs) _ n);
    [|done].
  intros el attrs [] q Hq. unfold group_turn. repeat case_decide; try done.
  case_bool_decide; [|done]. unfold bind. by rewrite Heq.
Qed.

Lemma command_with_ext member member' name p :
  (∀ el, shrinks (member el)) →
  (∀ el q, (length (p_toks q) < length (p_toks p))%nat → member el q = member' el q) →
  command_with src last member name p = command_with src last member' name p.
Proof.
  intros Hs Heq. unfold command_with. repeat (case_decide || case_bool_decide); try done;
    unfold bind; by rewrite (group_ext member member' (length (p_toks p))).
Qed.

(** Fuel for the tokens left is enough for the nesting of groups. *)
Lemma command_fuel_enough f g name p :
  (length (p_toks p) ≤ f)%nat → (length (p_toks p) ≤ g)%nat →
  command_fuel src last f name p = command_fuel src last g name p.
Proof.
  revert g name p. induction f as [|f IH]; intros [|g] name p Hf Hg; try done;
    cbn [command_fuel]; apply command_with_ext;
    try (intros el q Hq; first [lia|apply IH; lia]); auto using shrinks_command_fuel with shrinks.
Qed.

Lemma p_command_eq name p :
  p_command src last name p = command_with src last (p_command src last) name p.
Proof.
  unfold p_command at 1. destruct (length (p_toks p)) as [|n] eqn:Hn; cbn [command_fuel];
    apply command_with_ext; intros; try lia; auto using shrinks_command_fuel with shrinks.
  apply command_fuel_enough; lia.
Qed.

Lemma shrinks_command name : shrinks (p_command src last name).
Proof. intros p p' r. apply shrinks_command_fuel. Qed.
End commands.

(** The fuel is enough: the reader of a command, recursive through the
    groups, and the loop over the commands of a body satisfy the source's
    recursion on every input, without any bound on nesting or length. *)
Theorem decoder_recursion src last :
  (∀ name p, p_command src last name p = command_with src last (p_command src last) name p) ∧
  (∀ msft p, p_body src last msft p =
     match nextStart last p with
     | (p, Ok (el, attrs)) =>
         (let! b := body_turn src last el attrs (mkBody [] false msft) in
          children last (body_turn src last) b) p
     | (p, Err e) => if errors_Is e io_EOF then (p, Ok (mkBody [] false msft)) else (p, Err e)
     end) ∧
  (∀ b p, children last (body_turn src last) b p =
     match nextStart last p with
     | (p, Ok (el, attrs)) =>
         (let! b := body_turn src last el attrs b in children last (body_turn src last) b) p
     | (p, Err e) => if errors_Is e io_EOF then (p, Ok b) else (p, Err e)
     end).
Proof.
  assert (∀ el attrs b, shrinks (body_turn src last el attrs b)) as Hb.
  { intros el attrs []. pose proof (shrinks_command src last). unfold body_turn.
    apply shrinks_if; shrink. }
  split; [apply p_command_eq|]. split; [intros msft p; unfold p_body|intros b p]; by apply children_eq.
Qed.
