(* ===== verification/DecodeSafe.v ===== *)
(** * The decoder does not slice out of range

    [data] cuts the markup of a Data element out of the document by the
    offsets of the XML decoder.  As long as the decoder reads the document
    itself, which it does unless a declaration makes it transcode, the offsets
    ascend and stay within the document. *)
From stdpp Require Import base gmap strings list.
From Stdlib Require Import ZArith Lia Ascii.
From S2P Require Import Prelude GoStrings SyncmlModel Response Encode GoXml Decode DecodeTotal.

Local Open Scope Z_scope.
Local Open Scope go_scope.

(** ** The errors of the XML decoder *)

Definition xml_errs {A} (r : result A) : Prop := ∀ e, r = Err e → e = xml_error.

Lemma xml_errs_Ok {A} (a : A) : xml_errs (Ok a).
Proof. done. Qed.
Lemma xml_errs_Err {A} : xml_errs (Err (A:=A) xml_error).
Proof. by intros e [= <-]. Qed.
Lemma xml_errs_bind {A B} (r : result A) (k : A → result B) :
  xml_errs r → (∀ a, xml_errs (k a)) → xml_errs (result_bind r k).
Proof.
  intros Hr Hk e. destruct r as [a|e']; simpl; [apply Hk|]. intros [= ->]. by apply Hr.
Qed.

Create HintDb xerr.
#[export] Hint Resolve xml_errs_Ok xml_errs_Err xml_errs_bind : xerr.
Ltac xerr := repeat first
  [ by auto with xerr
  | match goal with |- xml_errs (match ?x with _ => _ end) => destruct x end
  | apply xml_errs_bind; [|intros ?] ].

Lemma span_name_errs s : xml_errs (span_name s).
Proof. induction s as [|c s IH]; cbn [span_name]; xerr. Qed.
Lemma char_ref_errs val base s : xml_errs (char_ref val base s).
Proof. unfold char_ref. xerr. Qed.
#[export] Hint Resolve span_name_errs char_ref_errs : xerr.
Lemma read_entity_errs s : xml_errs (read_entity s).
Proof. unfold read_entity. xerr. Qed.
#[export] Hint Resolve read_entity_errs : xerr.
Lemma text_fuel_errs f m b0 b1 s : xml_errs (text_fuel f m b0 b1 s).
Proof.
  revert b0 b1 s. induction f as [|f IH]; intros b0 b1 s; cbn [text_fuel]; xerr.
Qed.
#[export] Hint Resolve text_fuel_errs : xerr.
Lemma text_errs m s : xml_errs (text m s).
Proof. unfold text. xerr. Qed.
Lemma skip_comment_errs b0 b1 s : xml_errs (skip_comment b0 b1 s).
Proof. revert b0 b1. induction s as [|c s IH]; intros b0 b1; cbn [skip_comment]; xerr. Qed.
Lemma procinst_data_errs b0 s : xml_errs (procinst_data b0 s).
Proof. revert b0. induction s as [|c s IH]; intros b0; cbn [procinst_data]; xerr. Qed.
Lemma skip_directive_errs q d m s : xml_errs (skip_directive q d m s).
Proof.
  revert q d m. induction s as [|c s IH]; intros q d m; cbn [skip_directive]; [xerr|].
  destruct m; [destruct (dir_handle _ _ _) as [[? ?] ?]|destruct (dir_handle _ _ _) as [[? ?] ?]|]; xerr.
Qed.
#[export] Hint Resolve text_errs skip_comment_errs procinst_data_errs skip_directive_errs : xerr.

Section lexing.
Context `{NameTables}.

Lemma nsname_errs s : xml_errs (nsname s).
Proof. unfold nsname, read_name. xerr. Qed.
#[local] Hint Resolve nsname_errs : xerr.

Lemma read_attrs_errs f s : xml_errs (read_attrs f s).
Proof.
  revert s. induction f as [|f IH]; intros s; cbn [read_attrs]; [xerr|]. unfold attrval. xerr.
Qed.
#[local] Hint Resolve read_attrs_errs : xerr.

Lemma charsetReader_errs label r : xml_errs (charsetReader label r).
Proof. unfold charsetReader. repeat case_match; auto with xerr. Qed.
#[local] Hint Resolve charsetReader_errs : xerr.

Lemma raw_markup_errs s : xml_errs (raw_markup charsetReader s).
Proof.
  unfold raw_markup, raw_end, raw_procinst, raw_bang, raw_start, raw_same, read_name, xml_declared. xerr.
Qed.

(** At the end of the input Token returns io.EOF, else an error of its own. *)
Lemma Token_errs d e : Decoder_Token charsetReader d = Err e → e = xml_error ∨ e = [io_EOF].
Proof.
  unfold Decoder_Token. assert (∀ n d, xml_errs (Token_end n d)) as Hend.
  { intros n d'. unfold Token_end. destruct (d_stk d') as [|[]]; try destruct (pop_ns _ _); xerr. }
  destruct (d_toClose d); [intros ?; left; by eapply Hend|].
  destruct (raw_token _ _) as [[[[t c] r] r']|e'] eqn:E.
  - destruct t; try done. intros ?. left. by eapply Hend.
  - assert (e' = xml_error ∨ e' = [io_EOF]).
    { unfold raw_token in E. destruct (d_in d); [right; by simplify_eq|]. left. revert E.
      case_match; [apply raw_markup_errs|]. apply xml_errs_bind; [apply text_errs|].
      intros []. unfold raw_same. xerr. }
    case_match; intros [= <-]; auto.
Qed.

Lemma lex_errs d ts e : lex charsetReader d = (ts, e) → e = xml_error ∨ e = [io_EOF].
Proof.
  assert (∀ f d ts e, lex_segment charsetReader f d = (ts, inl e) → e = xml_error ∨ e = [io_EOF])
    as Hseg.
  { induction f as [|f IH]; intros d1 ts1 e1; cbn [lex_segment]; [done|].
    destruct (Decoder_Token _ d1) as [[t d2]|] eqn:E; [|intros [= _ <-]; by eapply Token_errs].
    case_match; [done|]. destruct (lex_segment _ f d2) eqn:El. intros [= _ ->]. by eapply IH. }
  unfold lex. generalize (questions (d_in d)). intros n. revert d ts e.
  induction n as [|n IH]; intros d ts e; cbn [lex_fuel];
    destruct (lex_segment _ _ d) as [ts' [e'|d']] eqn:El.
  - intros [= _ <-]. by eapply Hseg.
  - intros [= _ <-]. by left.
  - intros [= _ <-]. by eapply Hseg.
  - destruct (lex_fuel _ n d') eqn:E2. intros [= _ <-]. by eapply IH.
Qed.

(** ** Offsets *)

(** Offsets that ascend from [lo] and end by [hi]. *)
Fixpoint ascend (lo hi : Z) (ts : list (Token * Z)) : Prop :=
  match ts with
  | [] => lo ≤ hi
  | (_, o) :: ts => lo ≤ o ∧ ascend o hi ts
  end.

Lemma ascend_le lo hi ts : ascend lo hi ts → lo ≤ hi.
Proof. revert lo. induction ts as [|[t o] ts IH]; simpl; intros lo; [done|]. intros [? ?%IH]. lia. Qed.

Lemma ascend_app lo mid hi ts ts' :
  ascend lo mid ts → ascend mid hi ts' → ascend lo hi (ts ++ ts').
Proof.
  revert lo. induction ts as [|[t o] ts IH]; intros lo; simpl.
  - intros ? Ht. destruct ts' as [|[t o] ts']; simpl in *; [lia|]. destruct Ht. split; [lia|done].
  - intros [? ?] ?. split; auto.
Qed.

Lemma ascend_widen lo hi hi' ts : hi ≤ hi' → ascend lo hi ts → ascend lo hi' ts.
Proof.
  intros Hh. revert lo. induction ts as [|[t o] ts IH]; intros lo; simpl; [lia|].
  intros [? ?]. auto.
Qed.

(** A decoder that reads a document of [n] bytes without NUL. *)
Definition within (n : Z) (d : Decoder) : Prop :=
  0 ≤ d_offset d ∧ d_offset d + len (d_in d) ≤ n ∧ contains_byte nul (d_in d) = false.

(** Without a NUL the input is passed on, up to a limit. *)
Lemma charsetReader_plain label r r' :
  contains_byte nul r = false → charsetReader label r = Ok r' →
  contains_byte nul r' = false ∧ len r' ≤ len r.
Proof.
  intros Hn. unfold charsetReader. case_match; [by intros [= <-]|]. case_match; [|done].
  set (raw := if len r <=? DefaultMaxSize + 1 then r else _).
  assert (contains_byte nul raw = false ∧ len raw ≤ len r) as [Hraw Hlen].
  { subst raw. destruct (len r <=? _); [done|]. unfold len. rewrite length_stake.
    split; [|lia]. rewrite <- (stake_sdrop (Z.to_nat (DefaultMaxSize + 1)) r), contains_byte_app in Hn.
    by apply orb_false_iff in Hn as [? _]. }
  clearbody raw. rewrite Hraw. by intros [= <-].
Qed.

Lemma Token_end_offset n d t d' :
  Token_end n d = Ok (t, d') → d_offset d' = d_offset d.
Proof.
  unfold Token_end. destruct (d_stk d) as [|[]]; try done. case_decide; [|done].
  destruct (pop_ns _ _). by intros [= _ <-].
Qed.

Lemma Token_within n d t d' :
  within n d → Decoder_Token charsetReader d = Ok (t, d') → within n d' ∧ d_offset d ≤ d_offset d'.
Proof.
  intros (H0 & Hn & Hnul). unfold Decoder_Token, within. destruct (d_toClose d) as [m|].
  { intros E. pose proof (Token_end_offset _ _ _ _ E) as Eo. apply Token_end_in in E as [Ei _].
    simpl in *. rewrite Ei, Eo. split_and!; [lia..|done|lia]. }
  destruct (raw_token _ _) as [[[[t0 c] r] r']|e] eqn:E; [|by case_match].
  apply raw_token_spec in E as [(c0 & pre & Hr) Hsw].
  set (d1 := mkDecoder r' _ _ _ c). intros Et.
  assert (d_in d' = r' ∧ d_offset d' = d_offset d + (len (d_in d) - len r)) as [-> ->].
  { destruct t0; simplify_eq; try done.
    - unfold Token_start in Et. destruct (foldl _ _ _). by simplify_eq.
    - pose proof (Token_end_offset _ _ _ _ Et) as Eo. apply Token_end_in in Et as [Ei _]. done. }
  rewrite Hr in *. rewrite contains_byte_app in Hnul. apply orb_false_iff in Hnul as [_ Hnul].
  rewrite len_app in *. pose proof (len_nonneg (String c0 pre)). pose proof (len_nonneg r).
  destruct (decide (r' = r)) as [->|Hne]; [split_and!; [lia..|done|lia]|].
  destruct (Hsw Hne) as [_ [l Hl]]. apply charsetReader_plain in Hl as [? ?]; [|done].
  split_and!; [lia..|done|lia].
Qed.

Lemma segment_within n f d ts e :
  within n d → lex_segment charsetReader f d = (ts, e) →
  match e with
  | inl _ => ascend (d_offset d) n ts
  | inr d' => ascend (d_offset d) (d_offset d') ts ∧ within n d'
  end.
Proof.
  revert d ts e. induction f as [|f IH]; intros d ts e Hd; cbn [lex_segment].
  { intros [= <- <-]. simpl. split; [lia|done]. }
  destruct (Decoder_Token _ d) as [[t d']|e'] eqn:E.
  2: { intros [= <- <-]. destruct Hd as (? & ? & _). pose proof (len_nonneg (d_in d)). simpl. lia. }
  apply (Token_within n) in E as [Hd' Ho]; [|done].
  case_match; [intros [= <- <-]; simpl; split_and!; [lia..|done]|].
  destruct (lex_segment _ f d') as [ts' e'] eqn:El. intros [= <- <-].
  apply IH in El; [|done]. destruct e'; simpl; [done|]. by destruct El.
Qed.

Lemma lex_within n d ts e :
  within n d → lex charsetReader d = (ts, e) → ascend (d_offset d) n ts.
Proof.
  unfold lex. generalize (questions (d_in d)). intros q. revert d ts e.
  induction q as [|q IH]; intros d ts e Hd; cbn [lex_fuel];
    destruct (lex_segment _ _ d) as [ts' [e'|d']] eqn:El; apply (segment_within n) in El; try done;
    try (by intros [= <- _]).
  - intros [= <- _]. destruct El as [? (? & ? & _)]. pose proof (len_nonneg (d_in d')).
    eapply ascend_widen; [|done]. lia.
  - destruct El as [Ha Hd']. destruct (lex_fuel _ q d') eqn:E2. intros [= <- _].
    eapply ascend_app; [done|]. by eapply IH.
Qed.
End lexing.

(** ** Readers that do not panic *)

Definition calm (e : error) : Prop := errors_Is e runtime_panic = false.

Section safe.
Context (src : string).

Definition in_range (p : parser) : Prop :=
  0 ≤ p_off p ∧ ascend (p_off p) (len src) (p_toks p).

Definition safe {A} (m : P A) : Prop :=
  ∀ p p' r, in_range p → m p = (p', r) → in_range p' ∧ (∀ e, r = Err e → calm e).

Lemma safe_ret {A} (a : A) : safe (ret a).
Proof. by intros p p' r Hp [= <- <-]. Qed.

Lemma safe_throw {A} e : calm e → safe (throw (A:=A) e).
Proof. intros He p p' r Hp [= <- <-]. split; [done|]. by intros ? [= <-]. Qed.

Lemma safe_bind {A B} (m : P A) (k : A → P B) :
  safe m → (∀ a, safe (k a)) → safe (bind m k).
Proof.
  intros Hm Hk p p' r Hp. unfold bind. destruct (m p) as [p1 [a|e]] eqn:E;
    destruct (Hm _ _ _ Hp E) as [Hp1 He].
  - by apply Hk.
  - intros [= <- <-]. split; [done|]. intros ? [= <-]. by apply He.
Qed.

Lemma safe_if {A} (b : bool) (m n : P A) : safe m → safe n → safe (if b then m else n).
Proof. by destruct b. Qed.

Lemma safe_unknown {A} : safe (unknown (A:=A)).
Proof. by apply safe_throw. Qed.
End safe.
Create HintDb safe.
#[export] Hint Resolve safe_ret safe_throw safe_bind safe_if safe_unknown : safe.
#[export] Hint Extern 1 (calm _) => reflexivity : safe.

Section readers.
Context (src : string) (last : error) (Hlast : calm last).

Abbreviation secure p r := (in_range src p ∧ (∀ e, r = Err e → calm e)).

Lemma in_range_next t o ts off :
  0 ≤ off → ascend off (len src) ((t, o) :: ts) → 0 ≤ o ∧ ascend o (len src) ts.
Proof. intros ? [? ?]. split; [lia|done]. Qed.

(** Read on from the next token. *)
Ltac next Ha := apply in_range_next in Ha as [? Ha]; [|done].
Ltac stop := intros [= <- <-]; split; [by split|by intros ? [= <-]].

Lemma safe_nextStart : safe src (nextStart last).
Proof using Hlast.
  intros p p' r [H0 Ha]. unfold nextStart. revert H0 Ha. generalize (p_toks p) (p_off p).
  intros ts. induction ts as [|[t o] ts IH]; intros off H0 Ha; cbn [next_start]; [stop|]. next Ha.
  destruct t; try (by apply IH); try stop. case_match; [stop|by apply IH].
Qed.

Lemma safe_text : safe src (p_text last).
Proof using Hlast.
  intros p p' r [H0 Ha]. unfold p_text. revert r H0 Ha. generalize (p_toks p) (p_off p).
  intros ts. induction ts as [|[t o] ts IH]; intros off r H0 Ha; cbn [text_from]; [stop|]. next Ha.
  destruct t; try (by apply IH); try stop.
  destruct (text_from last ts o) as [p1 r1] eqn:E. intros [= <- <-]. apply IH in E as [? He]; [|done..].
  split; [done|]. destruct r1; [done|]. intros ? [= <-]. by apply He.
Qed.

Lemma safe_Skip : safe src (Skip last).
Proof using Hlast.
  intros p p' r [H0 Ha]. unfold Skip. revert H0 Ha. generalize 0 at 2. generalize (p_toks p) (p_off p).
  intros ts. induction ts as [|[t o] ts IH]; intros off d H0 Ha; cbn [skip_from]; [stop|]. next Ha.
  destruct t; try (by apply IH); try stop. case_match; [stop|by apply IH].
Qed.

Lemma data_from_safe orig start prev m d s ts off p r :
  0 ≤ start → start ≤ prev → prev ≤ off → ascend off (len src) ts →
  data_from src last orig start prev m d s ts off = (p, r) → secure p r.
Proof using Hlast.
  intros Hs. revert prev m d s off.
  induction ts as [|[t o] ts IH]; intros prev m d s off Hprev Hoff Ha; cbn [data_from].
  { intros [= <- <-]. split; [split; [simpl; lia|done]|by intros ? [= <-]]. }
  assert (start ≤ o ∧ off ≤ o) as [Ho Ho'] by (destruct Ha; lia).
  pose proof (ascend_le _ _ _ Ha) as Hle. assert (0 ≤ off) by lia. next Ha.
  destruct t; try (apply IH; [lia..|done]). case_match; [|apply IH; [lia..|done]]. intros [= <- <-].
  split; [by split|]. intros e E. destruct m; [|done]. unfold src_slice in E.
  rewrite !(proj2 (Z.leb_le _ _)) in E by lia. cbn in E. case_match; by simplify_eq.
Qed.

Lemma safe_data attrs : safe src (p_data src last attrs).
Proof using Hlast. intros p p' r [H0 Ha]. by apply data_from_safe. Qed.

Lemma safe_trimmed : safe src (trimmedText last).
Proof using Hlast. unfold trimmedText. eauto using safe_text with safe. Qed.

Lemma safe_skipEmpty : safe src (skipEmpty last).
Proof using Hlast. unfold skipEmpty. eauto 6 using safe_text with safe. Qed.

Lemma safe_parseInt s : safe src (parseInt s).
Proof. unfold parseInt. destruct (Atoi s); auto with safe. Qed.

Lemma safe_children {A} (turn : string → list Attr → A → P A) a :
  (∀ el attrs a, safe src (turn el attrs a)) → safe src (children last turn a).
Proof using Hlast.
  intros Ht p. unfold children. generalize (S (length (p_toks p))). intros f. revert p a.
  induction f as [|f IH]; intros p a p' r Hp; cbn [children_fuel]; [by apply safe_throw|].
  destruct (nextStart last p) as [p1 [[el attrs]|e]] eqn:En;
    apply safe_nextStart in En as [Hp1 He]; try done.
  - revert Hp1. apply (safe_bind src (turn el attrs a)); [done|]. intros a2 p2 p2' r2. apply IH.
  - case_match; intros [= <- <-]; split; try done. intros ? [= <-]. by apply He.
Qed.
End readers.
#[export] Hint Resolve safe_text safe_Skip safe_data safe_trimmed safe_skipEmpty
  safe_parseInt : safe.

(** A reader is built from readers by the monad and by choices. *)
Ltac secure_in :=
  repeat first
    [ case_decide
    | case_bool_decide
    | apply safe_bind; [|intros ?]
    | progress eauto with safe ].
Ltac secure_turn := apply safe_children; [done|]; intros ? ? []; secure_in.

Section elements.
Context (src : string) (last : error) (Hlast : calm last).

Lemma safe_location : safe src (location last).
Proof using Hlast. unfold location, location_turn. secure_turn. Qed.

Lemma safe_meta : safe src (p_meta last).
Proof using Hlast. unfold p_meta, meta_turn. secure_turn. Qed.

Lemma safe_cred : safe src (p_cred last).
Proof using Hlast. pose proof safe_meta. unfold p_cred, cred_turn. secure_turn. Qed.

Lemma safe_chal : safe src (p_chal last).
Proof using Hlast. pose proof safe_meta. unfold p_chal, chal_turn. secure_turn. Qed.

Lemma safe_item : safe src (p_item src last).
Proof using Hlast.
  pose proof safe_meta. pose proof safe_location. unfold p_item, item_turn. secure_turn.
Qed.

Lemma safe_header : safe src (p_header last).
Proof using Hlast.
  pose proof safe_meta. pose proof safe_location. pose proof safe_cred.
  unfold p_header, header_turn. secure_turn.
Qed.
End elements.
#[export] Hint Resolve safe_meta safe_cred safe_chal safe_item safe_header : safe.

Section commands.
Context (src : string) (last : error) (Hlast : calm last).

Lemma safe_itemCommand isGet : safe src (p_itemCommand src last isGet).
Proof using Hlast. unfold p_itemCommand, itemCommand_turn. secure_turn. Qed.

Lemma safe_exec : safe src (p_exec src last).
Proof using Hlast. unfold p_exec, exec_turn. secure_turn. Qed.

Lemma safe_alert : safe src (p_alert src last).
Proof using Hlast. unfold p_alert, alert_turn. secure_turn. Qed.

Lemma safe_status : safe src (p_status src last).
Proof using Hlast. unfold p_status, status_turn. secure_turn. Qed.

Lemma safe_results : safe src (p_results src last).
Proof using Hlast. unfold p_results, results_turn. secure_turn. Qed.

Lemma safe_command_with member name :
  (∀ el, safe src (member el)) → safe src (command_with src last member name).
Proof using Hlast.
  intros Hm. assert (∀ g, safe src (children last (group_turn last member) g)) as Hg.
  { intros g. unfold group_turn. secure_turn. }
  pose proof safe_itemCommand. pose proof safe_exec. pose proof safe_alert.
  pose proof safe_status. pose proof safe_results. unfold command_with. secure_in.
Qed.

Lemma safe_command_fuel f name : safe src (command_fuel src last f name).
Proof using Hlast.
  revert name. induction f as [|f IH]; intros name; cbn [command_fuel];
    apply safe_command_with; auto with safe.
Qed.

Lemma safe_command name : safe src (p_command src last name).
Proof using Hlast. intros p p' r. apply safe_command_fuel. Qed.

Lemma safe_body msft : safe src (p_body src last msft).
Proof using Hlast.
  pose proof safe_command. apply safe_children; [done|]. intros el attrs []. unfold body_turn.
  apply safe_if; secure_in.
Qed.
End commands.

Lemma calm_syntax e : calm e → calm (SyntaxError ++ e).
Proof.
  unfold calm, errors_Is. rewrite !bool_decide_eq_false. unfold SyntaxError. set_solver.
Qed.

Lemma trailer_calm last ts e : calm last → trailer last ts = Err e → calm e.
Proof.
  intros Hl. induction ts as [|[t o] ts IH]; cbn [trailer]; [by case_match; intros [= <-]|].
  destruct t; try (by intros [= <-]). case_match; [by intros [= <-]|done].
Qed.

Lemma safe_message src last : calm last → safe src (p_message src last).
Proof.
  intros Hl p p' r Hp. unfold p_message.
  destruct (nextStart last p) as [p1 [[root attrs]|e]] eqn:En;
    destruct (safe_nextStart src last Hl _ _ _ Hp En) as [Hp1 He].
  2: { intros [= <- <-]. split; [done|]. intros ? [= <-]. by apply calm_syntax, He. }
  case_match; [intros [= <- <-]; split; [done|]; by intros ? [= <-]|].
  case_match; [|intros [= <- <-]; split; [done|]; by intros ? [= <-]].
  clear p Hp En He. revert p1 p' r Hp1.
  change (safe src (let! (hdr, body) := children last (message_turn src last) (None, None) in
    let! p := get in lift (trailer last (p_toks p)) ;!
    ret (mkMessage (root_namespace attrs) (default Header0 hdr) (default Body0 body)))).
  apply safe_bind; [|intros [hdr body]; apply safe_bind; [|intros q; apply safe_bind]].
  - pose proof (safe_header src last Hl). pose proof (safe_body src last Hl).
    apply safe_children; [done|]. intros el attrs' [hdr body]. unfold message_turn.
    destruct (decide (el = "SyncHdr")); [destruct hdr; secure_in|].
    destruct (decide (el = "SyncBody")); [destruct body; secure_in|secure_in].
  - by intros p p' r Hp [= <- <-].
  - intros p p' r Hp [= <- <-]. split; [done|]. intros e. by apply trailer_calm.
  - intros _. apply safe_ret.
Qed.

Section panic.
Context `{NameTables}.

(** A document in which transcodeUTF16 leaves no NUL. *)
Definition nul_free (data : string) : bool := negb (contains_byte nul (transcodeUTF16 data)).

Lemma run_parser_safe {A} (m : string → error → P A) data e :
  (∀ src last, calm last → safe src (m src last)) →
  nul_free data = true → run_parser m data = Err e → calm e.
Proof.
  intros Hm Hd. apply negb_true_iff in Hd. unfold run_parser.
  destruct (lex charsetReader _) as [toks last] eqn:El.
  assert (calm last) as Hl by (apply lex_errs in El as [-> | ->]; reflexivity).
  apply (lex_within (len (transcodeUTF16 data))) in El; [|split_and!; simpl; [lia..|done]].
  destruct (m _ last _) as [p' r] eqn:Em. simpl. intros ->.
  eapply (Hm _ _ Hl) in Em as [_ He]; [by apply He|]. split; [done|exact El].
Qed.

(** C36: Decoding never slices the document out of range, so it never panics,
    on a document that has no NUL byte once transcodeUTF16 has run: whatever
    Decode or DecodeCommand fails with is an error, not a run-time panic. *)
Theorem decode_no_panic data opts e :
  nul_free data = true →
  Decode data opts = Err e ∨ DecodeCommand data = Err e →
  errors_Is e runtime_panic = false.
Proof.
  intros Hd [E|E].
  - unfold Decode in E. case_match; [by simplify_eq|].
    destruct (run_parser p_message data) as [m|e'] eqn:Er; [done|].
    apply run_parser_safe in Er; [|apply safe_message|done]. case_match; simplify_eq; [done|].
    by apply calm_syntax.
  - unfold DecodeCommand in E. case_match; [by simplify_eq|].
    eapply run_parser_safe; [|done|exact E]. clear E e. intros src last Hl p p' r Hp.
    destruct (nextStart last p) as [p1 [[el attrs]|e]] eqn:En;
      destruct (safe_nextStart src last Hl _ _ _ Hp En) as [Hp1 He].
    + by apply safe_command.
    + intros [= <- <-]. split; [done|]. intros ? [= <-]. by apply calm_syntax, He.
Qed.

(** A declaration in ASCII followed by text in UTF-16. *)
Fixpoint wide (s : string) : string :=
  match s with EmptyString => "" | String c s => String c (String nul (wide s)) end.
Definition mixed (n : nat) : string :=
  "<?xml version='1.0' encoding='utf-16'?>" +:+
  wide "<SyncML><SyncBody><Add><Item><Data>" +:+
  str_concat (repeat (String nul "N") n) +:+
  wide "<x/></Data></Item></Add></SyncBody></SyncML>".

(** The NUL matters: a document of less than a kilobyte whose declaration
    is ASCII and names UTF-16, and whose rest is UTF-16, is transcoded by
    charsetReader behind the declaration; the offsets then count the transcoded
    text, and cutting the markup out of the original document by them is out of
    range. *)
Example declared_utf16_panics :
  len (mixed 200) ≤ 1000 ∧ Unmarshal (mixed 200) = Err [runtime_panic].
Proof. split; [by vm_compute|vm_compute; reflexivity]. Qed.
End panic.

Lemma decode_no_panic_witness :
  @DecodeCommand ascii_names "<Add><Item><Data><x></Data>" = Err [] ∧
  errors_Is [] runtime_panic = false.
Proof.
  assert (@DecodeCommand ascii_names "<Add><Item><Data><x></Data>" = Err []) as E
    by (vm_compute; reflexivity).
  split; [exact E|].
  apply (@decode_no_panic ascii_names "<Add><Item><Data><x></Data>" (mkDecodeOptions 0) []);
    [vm_compute; reflexivity|right; exact E].
Defined.
