(* ===== verification/DecodeProofs.v ===== *)
(** * The decoder reads what the encoder writes

    Lemmas on the parser of [Decode]: each reader, run on the tokens of the
    element the writer of [Encode] makes of a value, returns that value. *)
From stdpp Require Import base gmap strings list.
From Stdlib Require Import ZArith Lia Ascii.
From S2P Require Import Prelude GoStrings SyncmlModel Response Encode GoXml XmlLex Decode.

Local Open Scope Z_scope.
Local Open Scope go_scope.

(** ** Encodings never add a question mark *)

Definition is_question (r : Z) : nat := if r =? 63 then 1%nat else 0%nat.
Definition count_questions (rs : list Z) : nat := list_sum (map is_question rs).

Lemma questions_byte_str l :
  Forall (λ b, 64 ≤ b < 256) l → questions (byte_str l) = 0%nat.
Proof.
  induction 1 as [|b l Hb _ IH]; [done|].
  change (byte_str (b :: l)) with (String (byte_of b) (byte_str l)). cbn [questions]. rewrite IH.
  destruct (Ascii.eqb_spec (byte_of b) "?") as [E|]; [|done].
  apply (f_equal byte_val) in E. rewrite byte_val_of in E by lia. change (byte_val "?") with 63 in E.
  lia.
Qed.

Lemma questions_encode_rune r : (questions (encode_rune r) ≤ is_question r)%nat.
Proof.
  unfold encode_rune. destruct ((r <? 0) || _ || _) eqn:Hbad; [vm_compute; lia|].
  rewrite !orb_false_iff in Hbad. destruct Hbad as [[H0 H1] H2]. btrue.
  destruct (Z.ltb_spec r 128) as [Hr|Hr].
  { simpl. unfold is_question. destruct (Z.eqb_spec r 63) as [->|Hne]; [done|].
    destruct (Ascii.eqb_spec (byte_of r) "?") as [E|]; [|done].
    apply (f_equal byte_val) in E. rewrite byte_val_of in E by lia.
    change (byte_val "?") with 63 in E. lia. }
  assert (∀ x, 128 ≤ 128 + x mod 64 < 192) as Hm
    by (intros x; pose proof (Z.mod_pos_bound x 64); lia).
  destruct (Z.ltb_spec r 2048); [|destruct (Z.ltb_spec r 65536)];
    rewrite questions_byte_str; try lia; repeat constructor;
    try (specialize (Hm r); lia); try (specialize (Hm (r / 64)); lia);
    try (specialize (Hm (r / 4096)); lia);
    try (Z.to_euclidean_division_equations; lia).
Qed.

Lemma questions_runes rs : (questions (runes_string rs) ≤ count_questions rs)%nat.
Proof.
  unfold runes_string, count_questions. induction rs as [|r rs IH]; [done|]. simpl.
  rewrite questions_app. pose proof (questions_encode_rune r). lia.
Qed.

Lemma questions_utf16 u : (count_questions (utf16_Decode u) ≤ count_questions u)%nat.
Proof.
  unfold count_questions. remember (length u) as n eqn:Hn.
  revert u Hn. induction n as [n IH] using lt_wf_ind. intros u ->.
  destruct u as [|a u]; [done|]. cbn [utf16_Decode].
  pose proof (IH (length u) ltac:(simpl; lia) u eq_refl) as Hu.
  destruct (_ || _) eqn:E; [simpl; lia|].
  rewrite orb_false_iff in E. destruct E. btrue.
  destruct u as [|b u]; [simpl; lia|].
  pose proof (IH (length u) ltac:(simpl; lia) u eq_refl) as Hu'.
  destruct (_ && _) eqn:E2; [|simpl in *; lia]. btrue. simpl.
  assert (is_question ((a - 55296) * 1024 + (b - 56320) + 65536) = 0%nat) as ->; [|lia].
  unfold is_question. destruct (Z.eqb_spec ((a - 55296) * 1024 + (b - 56320) + 65536) 63); [|done].
  lia.
Qed.

Lemma questions_units be raw : (count_questions (code_units be raw) ≤ questions raw)%nat.
Proof.
  unfold count_questions. remember (String.length raw) as n eqn:Hn.
  revert raw Hn. induction n as [n IH] using lt_wf_ind. intros raw ->.
  destruct raw as [|a [|b raw]]; [done|simpl; lia|]. cbn [code_units map list_sum foldr].
  specialize (IH (String.length raw) ltac:(simpl; lia) raw eq_refl).
  assert (∀ c : ascii, byte_val c = 63 → c = "?"%char) as Hq.
  { intros c E. by apply byte_val_inj. }
  pose proof (byte_val_range a). pose proof (byte_val_range b).
  cbn [questions]. unfold list_sum in *. cbn [foldr].
  assert (is_question (if be then byte_val a * 256 + byte_val b else byte_val b * 256 + byte_val a) ≤
    (if Ascii.eqb a "?" then 1 else 0) + (if Ascii.eqb b "?" then 1 else 0))%nat; [|lia].
  unfold is_question. destruct be; match goal with |- context [?x =? 63] => destruct (Z.eqb_spec x 63) end;
    try lia.
  - rewrite (Hq b) by lia. simpl. lia.
  - rewrite (Hq a) by lia. simpl. lia.
Qed.

Lemma questions_decodeUTF16 raw : (questions (decodeUTF16 raw) ≤ questions raw)%nat.
Proof.
  assert (∀ be s, is_suffix s raw →
    (questions (runes_string (utf16_Decode (code_units be s))) ≤ questions raw)%nat) as Hall.
  { intros be s Hs%suffix_questions. pose proof (questions_runes (utf16_Decode (code_units be s))).
    pose proof (questions_utf16 (code_units be s)). pose proof (questions_units be s). lia. }
  unfold decodeUTF16. repeat case_match; simplify_eq; apply Hall;
    (apply suffix_refl || apply (sdrop_suffix 2)).
Qed.

Lemma questions_stake n s : (questions (stake n s) ≤ questions s)%nat.
Proof. rewrite <- (stake_sdrop n s) at 2. rewrite questions_app. lia. Qed.

Lemma charsetReader_questions label s s' :
  charsetReader label s = Ok s' → (questions s' ≤ questions s)%nat.
Proof.
  unfold charsetReader. case_match; [by intros [= ->]|]. case_match; [|done].
  set (raw := if len s <=? DefaultMaxSize + 1 then s else _).
  assert (questions raw ≤ questions s)%nat by (subst raw; case_match; [done|apply questions_stake]).
  clearbody raw. case_match; intros [= <-]; [|done].
  pose proof (questions_decodeUTF16 raw). lia.
Qed.

(** ** Canonical messages *)

(** Text the decoder reads back: XML characters without white space around. *)
Definition trimmed (s : string) : bool := bool_decide (TrimSpace s = s) && xml_chars s.

Definition size_ok (n : Z) : bool := (0 <=? n) && (n <=? max_int64).

Definition loc_ok (l : Location) : bool := trimmed (LocURI l) && trimmed (LocName l).

Definition meta_ok (m : Meta) : bool :=
  trimmed (Meta_Format m) && trimmed (Meta_Type m) && trimmed (Meta_Mark m) &&
  size_ok (Meta_Size m) && trimmed (Meta_NextNonce m) && size_ok (Meta_MaxMsgSize m) &&
  size_ok (Meta_MaxObjSize m).

Definition opt_ok {A} (ok : A → bool) (o : option A) : bool :=
  match o with Some a => ok a | None => true end.

Definition cred_ok (c : Cred) : bool := meta_ok (Cred_Meta c) && trimmed (Cred_Data c).

Definition chal_ok (c : Chal) : bool := meta_ok (Chal_Meta c).

Definition data_ok (d : Data) : bool :=
  xml_chars (Data_Value d) && bool_decide (Data_XML d = "") && xml_chars (Data_OriginalError d).

(** An item whose data satisfies [dok]. *)
Definition item_with (dok : Data → bool) (it : Item) : bool :=
  trimmed (Item_Target it) && trimmed (Item_Source it) && opt_ok meta_ok (Item_Meta it) &&
  opt_ok dok (Item_Data it).
Abbreviation item_ok := (item_with data_ok).

Definition header_canon (h : Header) : bool :=
  trimmed (Hdr_VerDTD h) && trimmed (Hdr_VerProto h) && trimmed (Hdr_SessionID h) &&
  trimmed (Hdr_MsgID h) && loc_ok (Hdr_Target h) && loc_ok (Hdr_Source h) &&
  trimmed (Hdr_RespURI h) && opt_ok cred_ok (Hdr_Cred h) && opt_ok meta_ok (Hdr_Meta h).

Definition ref_ok (refs : list string) : bool := forallb trimmed refs.

(** A member of a group. *)
Definition is_member (c : Command) : bool :=
  match c with CStatus _ | CResults _ => false | _ => true end.

(** A canonical command, up to what [dok] asks of its data. *)
Fixpoint command_with_data (dok : Data → bool) (c : Command) : bool :=
  match c with
  | CAdd (mkAdd id _ cred meta items) | CReplace (mkReplace id _ cred meta items)
  | CDelete (mkDelete id _ cred meta items) =>
      trimmed id && opt_ok cred_ok cred && opt_ok meta_ok meta && forallb (item_with dok) items
  | CGet (mkGet id _ lang cred meta items) =>
      trimmed id && trimmed lang && opt_ok cred_ok cred && opt_ok meta_ok meta &&
      forallb (item_with dok) items
  | CExec (mkExec id _ cred meta corr items) =>
      trimmed id && opt_ok cred_ok cred && opt_ok meta_ok meta && trimmed corr &&
      forallb (item_with dok) items
  | CAlert (mkAlert id _ cred data corr items) =>
      trimmed id && opt_ok cred_ok cred && trimmed data && trimmed corr && forallb (item_with dok) items
  | CAtomic id _ meta cs | CSequence id _ meta cs =>
      trimmed id && opt_ok meta_ok meta && forallb (λ c, is_member c && command_with_data dok c) cs
  | CStatus (mkStatus id msg ref cmd tref sref cred chal data items) =>
      trimmed id && trimmed msg && trimmed ref && trimmed cmd && ref_ok tref && ref_ok sref &&
      opt_ok cred_ok cred && opt_ok chal_ok chal &&
      (dok data && trimmed (Data_Value data)) && forallb (item_with dok) items
  | CResults (mkResults id msg ref cmd meta tref sref items) =>
      trimmed id && trimmed msg && trimmed ref && trimmed cmd && opt_ok meta_ok meta &&
      trimmed tref && trimmed sref && forallb (item_with dok) items
  end.
Abbreviation command_canon := (command_with_data data_ok).

Definition body_canon (dok : Data → bool) (b : Body) : bool :=
  forallb (command_with_data dok) (Body_Commands b).

(** A message the wire keeps: identifiers without white space around them, XML
    characters throughout, sizes that are not negative, no Status or Results
    inside a group, and data as [dok] asks. *)
Definition message_with (dok : Data → bool) (m : Message) : bool :=
  header_canon (Msg_Header m) && body_canon dok (Msg_Body m).
Abbreviation message_canon := (message_with data_ok).

(** ** Reading tokens *)

(** [m] reads the tokens [T] and returns [a], whatever follows and whatever
    the offsets. *)
Definition parses {A} (m : P A) (T : list Token) (a : A) : Prop :=
  ∀ ts rest off, ts.*1 = T →
    ∃ off', m (mkParser (ts ++ rest) off) = (mkParser rest off', Ok a).

(** The turns of a [children] loop over [T], from [a] to [b]. *)
Inductive turns {A} (turn : string → list Attr → A → P A) : list Token → A → A → Prop :=
  | turns_nil a : turns turn [] a a
  | turns_cons n attrs T T' a b c :
      parses (turn (name_Local n) attrs a) T b → turns turn T' b c →
      turns turn (StartElement n attrs :: T ++ T') a c.

Lemma parses_bind {A B} (m : P A) (k : A → P B) T T' a b :
  parses m T a → parses (k a) T' b → parses (bind m k) (T ++ T') b.
Proof.
  intros Hm Hk ts rest off E. apply fmap_app_inv in E as (t1 & t2 & E1 & E2 & ->).
  rewrite <- app_assoc. destruct (Hm t1 (t2 ++ rest) off) as [o1 E']; [done|].
  destruct (Hk t2 rest o1) as [o2 E'']; [done|]. exists o2. unfold bind. by rewrite E'.
Qed.

Lemma parses_map {A B} (m : P A) (f : A → B) T a :
  parses m T a → parses (let! x := m in ret (f x)) T (f a).
Proof.
  intros Hm ts rest off E. destruct (Hm ts rest off E) as [o E']. exists o.
  unfold bind. by rewrite E'.
Qed.

Lemma parses_then {A B} (m : P A) (k : A → P B) T a b :
  parses m T a → (∀ p, k a p = (p, Ok b)) → parses (bind m k) T b.
Proof.
  intros Hm Hk ts rest off E. destruct (Hm ts rest off E) as [o E']. exists o.
  unfold bind. by rewrite E', Hk.
Qed.

Lemma turns_app {A} (turn : string → list Attr → A → P A) T T' a b c :
  turns turn T a b → turns turn T' b c → turns turn (T ++ T') a c.
Proof.
  induction 1 as [|n attrs T1 T2 a b d Hp _ IH]; intros Hc; [done|].
  simpl. rewrite <- app_assoc. econstructor; [done|by apply IH].
Qed.

Section reading.
Context (src : string) (last : error).

Lemma parses_text v n : parses (p_text last) (text_toks v ++ [EndElement n]) v.
Proof.
  intros ts rest off E. unfold text_toks in E. unfold p_text. simpl. case_decide.
  - destruct ts as [|[t o] [|]]; try done. injection E as ->. subst v. by exists o.
  - destruct ts as [|[t o] [|[t' o'] [|]]]; try done. injection E as -> ->. simpl.
    rewrite str_app_nil_r. by exists o'.
Qed.

Lemma parses_trimmed v n :
  TrimSpace v = v → parses (trimmedText last) (text_toks v ++ [EndElement n]) v.
Proof. intros Hv. unfold trimmedText. rewrite <- Hv at 2. apply parses_map, parses_text. Qed.

Lemma parses_empty n : parses (skipEmpty last) [EndElement n] tt.
Proof.
  unfold skipEmpty. eapply parses_then; [apply (parses_text "" n)|]. done.
Qed.

Lemma children_run {A} (turn : string → list Attr → A → P A) T a b n :
  turns turn T a b → ∀ fuel ts rest off, ts.*1 = T ++ [EndElement n] → (length T < fuel)%nat →
  ∃ off', children_fuel last fuel turn a (mkParser (ts ++ rest) off) = (mkParser rest off', Ok b).
Proof.
  induction 1 as [a|m attrs T1 T2 a b c Hp _ IH]; intros fuel ts rest off E Hf;
    (destruct fuel as [|fuel]; [lia|]).
  - destruct ts as [|[t o] [|]]; try done. injection E as ->. by exists o.
  - destruct ts as [|[t o] ts]; [done|]. rewrite fmap_cons in E. injection E as -> E.
    rewrite <- app_assoc in E. apply fmap_app_inv in E as (t1 & t2 & E1 & E2 & ->).
    simpl. unfold nextStart. simpl.
    destruct (Hp t1 (t2 ++ rest) o) as [o1 Eo]; [done|]. rewrite <- app_assoc.
    unfold bind. rewrite Eo. apply IH; [done|].
    simpl in Hf. rewrite length_app in Hf. lia.
Qed.

Lemma parses_children {A} (turn : string → list Attr → A → P A) T a b n :
  turns turn T a b → parses (children last turn a) (T ++ [EndElement n]) b.
Proof.
  intros Ht ts rest off E. unfold children. eapply children_run; [done..|]. simpl.
  apply (f_equal length) in E. rewrite length_fmap, length_app in E. simpl in E.
  rewrite length_app. lia.
Qed.

(** *** Elements of the writer's tree *)

(** The turns over the elements [xs], in any name space. *)
Definition xturns {A} (turn : string → list Attr → A → P A) (xs : list xnode) (a b : A) : Prop :=
  ∀ ns, turns turn (xtoks ns xs) a b.

Lemma xturns_nil {A} (turn : string → list Attr → A → P A) a : xturns turn [] a a.
Proof. intros ns. constructor. Qed.

Lemma xturns_app {A} (turn : string → list Attr → A → P A) xs ys a b c :
  xturns turn xs a b → xturns turn ys b c → xturns turn (xs ++ ys) a c.
Proof.
  intros Hx Hy ns. unfold xtoks. rewrite map_app, concat_app. eapply turns_app; [apply Hx|apply Hy].
Qed.

Lemma xturns_cons {A} (turn : string → list Attr → A → P A) x ys a b c :
  xturns turn [x] a b → xturns turn ys b c → xturns turn (x :: ys) a c.
Proof. apply (xturns_app turn [x]). Qed.

(** The tokens after the start tag of an element. *)
Definition xbody (ns : gmap string string) (x : xnode) : list Token := tail (xtok ns x).

Lemma xturns_one {A} (turn : string → list Attr → A → P A) x name attrs a b :
  match x with
  | XText n at_ _ | XElem n at_ _ => n = name ∧ at_ = attrs
  | XEmpty n => n = name ∧ [] = attrs
  | XRaw _ => False
  end → name_Local (name_of name) = name →
  (∀ ns ns', parses (turn name (map (λ a, mkXAttr (translate ns' false (at_Name a)) (at_Value a))
     (map attr_tok attrs)) a) (xbody ns x) b) →
  xturns turn [x] a b.
Proof.
  intros Hx Hn Hp ns. unfold xtoks. simpl. rewrite app_nil_r.
  assert (∃ n ns', xtok ns x = StartElement n (map (λ a, mkXAttr (translate ns' false (at_Name a))
    (at_Value a)) (map attr_tok attrs)) :: xbody ns x ∧ name_Local n = name) as (n & ns' & E & En).
  { exists (translate (declare ns (map attr_tok attrs)) true (name_of name)),
      (declare ns (map attr_tok attrs)). rewrite translate_Local. split; [|done].
    by destruct x as [n at_ v|n|s|n at_ xs]; try done; destruct Hx as [-> <-]. }
  rewrite E. rewrite <- (app_nil_r (xbody ns x)). econstructor; [|constructor]. rewrite En. apply Hp.
Qed.

Lemma xturns_text {A} (turn : string → list Attr → A → P A) name attrs v a b :
  name_Local (name_of name) = name →
  (∀ at_ n, parses (turn name at_ a) (text_toks v ++ [EndElement n]) b) →
  xturns turn [XText name attrs v] a b.
Proof. intros Hn Hp. apply (xturns_one turn _ name attrs); [done..|]. intros ns ns'. apply Hp. Qed.

Lemma xturns_empty {A} (turn : string → list Attr → A → P A) name a b :
  name_Local (name_of name) = name →
  (∀ n, parses (turn name [] a) [EndElement n] b) → xturns turn [XEmpty name] a b.
Proof. intros Hn Hp. apply (xturns_one turn _ name []); [done..|]. intros ns ns'. apply Hp. Qed.

Lemma xturns_elem {A B} (turn : string → list Attr → A → P A) (inner : string → list Attr → B → P B)
    name attrs xs a b c d :
  name_Local (name_of name) = name → xturns inner xs c d →
  (∀ at_ T, parses (children last inner c) T d → parses (turn name at_ a) T b) →
  xturns turn [XElem name attrs xs] a b.
Proof.
  intros Hn Hi Hp. apply (xturns_one turn _ name attrs); [done..|]. intros ns ns'. apply Hp.
  unfold xbody. simpl. apply parses_children. apply Hi.
Qed.

Lemma xturns_when {A} (turn : string → list Attr → A → P A) (c : bool) x a b :
  (c = true → xturns turn [x] a b) → (c = false → a = b) → xturns turn (x_when c x) a b.
Proof. destruct c; simpl; intros H1 H2; [by apply H1|]. rewrite H2 by done. apply xturns_nil. Qed.

(** Elements that repeat: each adds one value. *)
Lemma xturns_map {A B} (turn : string → list Attr → A → P A) (x : B → xnode) (f : list B → A) bs :
  ∀ bs0, (∀ bs0 b, b ∈ bs → xturns turn [x b] (f bs0) (f (bs0 ++ [b]))) →
  xturns turn (map x bs) (f bs0) (f (bs0 ++ bs)).
Proof.
  induction bs as [|b bs IH]; intros bs0 Hb; simpl; [rewrite app_nil_r; apply xturns_nil|].
  eapply xturns_cons; [apply Hb; by left|]. 
  replace (bs0 ++ b :: bs) with ((bs0 ++ [b]) ++ bs) by (by rewrite <- app_assoc).
  apply IH. intros. apply Hb. by right.
Qed.

(** *** Fields *)

Lemma trimmed_id s : trimmed s = true → TrimSpace s = s.
Proof. unfold trimmed. intros E. by btrue. Qed.

Lemma xturns_field {A} (turn : string → list Attr → A → P A) name attrs v a (f : string → A) :
  name_Local (name_of name) = name → trimmed v = true →
  (∀ at_, turn name at_ a = (let! v := trimmedText last in ret (f v))) →
  xturns turn [XText name attrs v] a (f v).
Proof.
  intros Hn Hv Ht. apply xturns_text; [done|]. intros at_ n. rewrite Ht.
  by apply parses_map, parses_trimmed, trimmed_id.
Qed.

Lemma xturns_fieldIf {A} (turn : string → list Attr → A → P A) name attrs v a (f : string → A) :
  name_Local (name_of name) = name → trimmed v = true →
  (∀ at_, turn name at_ a = (let! v := trimmedText last in ret (f v))) → f "" = a →
  xturns turn (x_when (nonempty v) (XText name attrs v)) a (f v).
Proof.
  intros Hn Hv Ht Hf. apply xturns_when; [intros _; by apply xturns_field|].
  unfold nonempty. rewrite bool_decide_eq_false. intros Hd. apply dec_stable in Hd as ->. done.
Qed.

Lemma xturns_flag {A} (turn : string → list Attr → A → P A) name (c : bool) a (f : bool → A) :
  name_Local (name_of name) = name → f false = a →
  (turn name [] a = (skipEmpty last ;! ret (f true))) →
  xturns turn (x_when c (XEmpty name)) a (f c).
Proof.
  intros Hn Hf Ht. apply xturns_when; [intros ->|by intros ->].
  apply xturns_empty; [done|]. intros n. rewrite Ht. by eapply parses_then; [apply parses_empty|].
Qed.

Lemma xturns_option {A B} (turn : string → list Attr → A → P A) (o : option B) (x : B → xnode)
    a (f : option B → A) :
  f None = a → (∀ b, o = Some b → xturns turn [x b] a (f (Some b))) →
  xturns turn (match o with Some b => [x b] | None => [] end) a (f o).
Proof. intros <- Ho. destruct o as [b|]; [by apply Ho|apply xturns_nil]. Qed.

(** A turn that reads an inner element and keeps its value. *)
Lemma xturns_inner {A B} (turn : string → list Attr → A → P A) (inner : string → list Attr → B → P B)
    name attrs xs a (f : B → A) c d :
  name_Local (name_of name) = name → xturns inner xs c d →
  (∀ at_, turn name at_ a = (let! v := children last inner c in ret (f v))) →
  xturns turn [XElem name attrs xs] a (f d).
Proof.
  intros Hn Hi Ht. eapply xturns_elem; [done..|]. intros at_ T Hp. rewrite Ht. by apply parses_map.
Qed.

Lemma Itoa_trimmed n : 0 ≤ n → TrimSpace (Itoa n) = Itoa n.
Proof.
  intros Hn. apply TrimSpace_id. eapply str_forall_impl; [|by apply Itoa_digits].
  intros c. unfold is_digit, printable. rewrite !andb_true_iff, !Z.leb_le. lia.
Qed.

Lemma xturns_size {A} (turn : string → list Attr → A → P A) name attrs n a (f : Z → A) :
  name_Local (name_of name) = name → size_ok n = true → f 0 = a →
  (∀ at_, turn name at_ a = (let! s := trimmedText last in let! n := parseInt s in ret (f n))) →
  xturns turn (x_when (negb (n =? 0)) (XText name attrs (Itoa n))) a (f n).
Proof.
  intros Hn Hs Hf Ht. unfold size_ok in Hs. btrue. apply xturns_when; intros Hz; btrue; [|by subst n].
  apply xturns_text; [done|]. intros at_ m. rewrite Ht.
  eapply parses_then; [by apply parses_trimmed, Itoa_trimmed|]. intros p.
  unfold bind, parseInt. rewrite Atoi_Itoa by (unfold in_int64, min_int64; lia).
  destruct (Z.ltb_spec n 0); [lia|done].
Qed.

Ltac pick :=
  repeat first
    [ rewrite (decide_True (P := _ = _)) by reflexivity
    | rewrite (decide_False (P := _ = _)) by discriminate ].
Ltac field := reflexivity || (intros; cbn; pick; reflexivity).

Lemma read_location l :
  loc_ok l = true →
  xturns (location_turn last) (XText "LocURI" [] (LocURI l) :: x_textIf "LocName" (LocName l))
    (mkLocation "" "") l.
Proof.
  destruct l as [u n]. unfold loc_ok. simpl. intros E. btrue.
  eapply xturns_cons; [apply (xturns_field _ _ _ _ _ (λ v, mkLocation v "")); field || done|].
  apply (xturns_fieldIf _ _ _ _ _ (λ v, mkLocation u v)); field || done.
Qed.

(** One field after another: the function that sets it is given, the state it
    starts from is the one so far. *)
Ltac next_field f :=
  eapply xturns_app;
  [ first [ apply (xturns_fieldIf _ _ _ _ _ f) | apply (xturns_size _ _ _ _ _ f)
          | apply (xturns_flag _ _ _ _ f) | apply (xturns_option _ _ _ _ f)
          | apply (xturns_field _ _ _ _ _ f) ]; try (field || done)
  | ].
Ltac last_field f := rewrite <- (app_nil_r (_ : list xnode)); next_field f; [..|apply xturns_nil].

Definition meta_xs (m : Meta) : list xnode :=
  match x_meta (Some m) with [XElem _ _ xs] => xs | _ => [] end.

Lemma x_meta_eq m : x_meta (Some m) = [XElem "Meta" [] (meta_xs m)].
Proof. done. Qed.

Lemma read_meta m : meta_ok m = true → xturns (meta_turn last) (meta_xs m) Meta0 m.
Proof.
  destruct m as [f t k s n mm mo]. unfold meta_ok, meta_xs. cbn. intros E. btrue.
  next_field (λ v, mkMeta v "" "" 0 "" 0 0). next_field (λ v, mkMeta f v "" 0 "" 0 0).
  next_field (λ v, mkMeta f t v 0 "" 0 0). next_field (λ v, mkMeta f t k v "" 0 0).
  next_field (λ v, mkMeta f t k s v 0 0). next_field (λ v, mkMeta f t k s n v 0).
  apply (xturns_size _ _ _ _ _ (λ v, mkMeta f t k s n mm v)); field || done.
Qed.

Lemma xturns_meta {A} (turn : string → list Attr → A → P A) o a (f : option Meta → A) :
  opt_ok meta_ok o = true → f None = a →
  (∀ at_, turn "Meta" at_ a = (let! v := p_meta last in ret (f (Some v)))) →
  xturns turn (x_meta o) a (f o).
Proof.
  intros Ho Hf Ht. destruct o as [m|]; [|rewrite Hf; apply xturns_nil].
  rewrite x_meta_eq. eapply (xturns_inner _ _ _ _ _ _ (λ v, f (Some v))); [done|by apply read_meta|].
  apply Ht.
Qed.

Lemma read_cred c :
  cred_ok c = true →
  xturns (cred_turn last) (x_meta (Some (Cred_Meta c)) ++ [XText "Data" [] (Cred_Data c)])
    (mkCred Meta0 "") c.
Proof.
  destruct c as [m d]. unfold cred_ok. cbn [Cred_Meta Cred_Data]. intros E. btrue.
  eapply xturns_app.
  - apply (xturns_meta _ (Some m) _ (λ o, mkCred (default Meta0 o) "")); [done..|]. field.
  - apply (xturns_field _ _ _ _ _ (λ v, mkCred m v)); field || done.
Qed.

Lemma xturns_cred {A} (turn : string → list Attr → A → P A) o a (f : option Cred → A) :
  opt_ok cred_ok o = true → f None = a →
  (∀ at_, turn "Cred" at_ a = (let! v := p_cred last in ret (f (Some v)))) →
  xturns turn (x_cred o) a (f o).
Proof.
  intros Ho Hf Ht. destruct o as [c|]; [|rewrite Hf; apply xturns_nil].
  eapply (xturns_inner _ _ _ _ _ _ (λ v, f (Some v))); [done|by apply read_cred|]. apply Ht.
Qed.

Lemma xturns_chal {A} (turn : string → list Attr → A → P A) o a (f : option Chal → A) :
  opt_ok chal_ok o = true → f None = a →
  (∀ at_, turn "Chal" at_ a = (let! v := p_chal last in ret (f (Some v)))) →
  xturns turn (x_chal o) a (f o).
Proof.
  intros Ho Hf Ht. destruct o as [[m]|]; [|rewrite Hf; apply xturns_nil].
  eapply (xturns_inner _ (chal_turn last) _ _ _ _ (λ v, f (Some v)) (mkChal Meta0) (mkChal m)); [done| |].
  - apply (xturns_meta _ (Some m) _ (λ o, mkChal (default Meta0 o))); [done..|]. field.
  - apply Ht.
Qed.

Lemma xturns_uri {A} (turn : string → list Attr → A → P A) name u a (f : string → A) :
  name_Local (name_of name) = name → trimmed u = true → f "" = a →
  (∀ at_, turn name at_ a = (let! v := locURI last in ret (f v))) →
  xturns turn (x_uri name u) a (f u).
Proof.
  intros Hn Hu Hf Ht. apply xturns_when.
  - intros _. eapply (xturns_elem _ (location_turn last) _ _ _ _ _ (mkLocation "" "") (mkLocation u ""));
      [done| |].
    + apply (read_location (mkLocation u "")). unfold loc_ok. simpl. by rewrite Hu.
    + intros at_ T Hp. rewrite Ht. apply parses_map.
      by apply (parses_map _ LocURI) in Hp.
  - unfold nonempty. rewrite bool_decide_eq_false. intros Hd. by apply dec_stable in Hd as ->.
Qed.

Lemma parses_data attrs v n :
  parses (p_data src last attrs) (text_toks v ++ [EndElement n]) (mkData v "" (original_error attrs)).
Proof.
  intros ts rest off E. unfold text_toks in E. unfold p_data. simpl. case_decide.
  - destruct ts as [|[t o] [|]]; try done. injection E as ->. subst v. by exists o.
  - destruct ts as [|[t o] [|[t' o'] [|]]]; try done. injection E as -> ->. by exists o'.
Qed.

Lemma original_error_attrs ns d :
  original_error (map (λ a, mkXAttr (translate ns false (at_Name a)) (at_Value a))
    (map attr_tok (data_attrs d))) = Data_OriginalError d.
Proof.
  unfold data_attrs. case_decide as E; [by rewrite E|]. cbn [map]. unfold original_error.
  cbn [foldl at_Name at_Value attr_tok attr_name attr_value]. rewrite translate_Local.
  by rewrite decide_True.
Qed.

Lemma xturns_data {A} (turn : string → list Attr → A → P A) o a (f : option Data → A) :
  opt_ok data_ok o = true → f None = a →
  (∀ at_, turn "Data" at_ a = (let! v := p_data src last at_ in ret (f (Some v)))) →
  xturns turn (x_data o) a (f o).
Proof.
  intros Ho Hf Ht. destruct o as [d|]; [|rewrite Hf; apply xturns_nil].
  unfold data_ok in Ho. simpl in Ho. btrue. cbn [x_data]. rewrite decide_True by done.
  apply (xturns_one turn _ "Data" (data_attrs d)); [done..|]. intros ns ns'. rewrite Ht.
  replace d with (mkData (Data_Value d) "" (Data_OriginalError d)) at 4 by (destruct d; simpl in *; by subst).
  rewrite <- (original_error_attrs ns'). apply (parses_map _ (λ v, f (Some v))), parses_data.
Qed.

Definition item_xs (it : Item) : list xnode :=
  match x_item it with XElem _ _ xs => xs | _ => [] end.

Lemma read_item it : item_ok it = true → xturns (item_turn src last) (item_xs it) Item0 it.
Proof.
  destruct it as [t s m d b]. unfold item_with, item_xs, x_item.
  cbn [Item_Target Item_Source Item_Meta Item_Data Item_MoreData]. intros E. btrue.
  eapply xturns_app; [apply (xturns_uri _ _ _ _ (λ v, mkItem v "" None None false)); field || done|].
  eapply xturns_app; [apply (xturns_uri _ _ _ _ (λ v, mkItem t v None None false)); field || done|].
  eapply xturns_app; [apply (xturns_meta _ _ _ (λ v, mkItem t s v None false)); field || done|].
  eapply xturns_app; [apply (xturns_data _ _ _ (λ v, mkItem t s m v false)); field || done|].
  apply (xturns_flag _ _ _ _ (λ v, mkItem t s m d v)); field || done.
Qed.

Lemma xturns_items {A} (turn : string → list Attr → A → P A) its a (f : list Item → A) :
  forallb item_ok its = true → f [] = a →
  (∀ at_ l, turn "Item" at_ (f l) = (let! it := p_item src last in ret (f (l ++ [it])))) →
  xturns turn (map x_item its) a (f its).
Proof.
  intros Hi <- Ht. apply (xturns_map turn x_item f its []). intros l it Hit.
  assert (item_ok it = true) as Hok.
  { rewrite forallb_forall in Hi. apply Hi. by apply list_elem_of_In. }
  eapply (xturns_inner turn (item_turn src last) "Item" [] (item_xs it) (f l) (λ v, f (l ++ [v])));
    [done|by apply read_item|]. intros. apply Ht.
Qed.

Definition header_xs (h : Header) : list xnode :=
  match x_header h with XElem _ _ xs => xs | _ => [] end.

Lemma xturns_location {A} (turn : string → list Attr → A → P A) name l a (f : Location → A) :
  name_Local (name_of name) = name → loc_ok l = true →
  (∀ at_, turn name at_ a = (let! v := location last in ret (f v))) →
  xturns turn [x_location name l] a (f l).
Proof. intros Hn Hl Ht. eapply xturns_inner; [done|by apply read_location|apply Ht]. Qed.

Lemma read_header h : header_canon h = true → xturns (header_turn last) (header_xs h) Header0 h.
Proof.
  destruct h as [dtd pr sid mid tg so re nr cr me]. unfold header_canon, header_xs, x_header.
  cbn [Hdr_VerDTD Hdr_VerProto Hdr_SessionID Hdr_MsgID Hdr_Target Hdr_Source Hdr_RespURI
    Hdr_NoResp Hdr_Cred Hdr_Meta]. intros E. btrue. unfold Header0.
  set (L := Location0).
  eapply xturns_app.
  { eapply xturns_cons;
      [apply (xturns_field _ _ _ _ _ (λ v, mkHeader v "" "" "" L L "" false None None)); field || done|].
    eapply xturns_cons;
      [apply (xturns_field _ _ _ _ _ (λ v, mkHeader dtd v "" "" L L "" false None None)); field || done|].
    eapply xturns_cons;
      [apply (xturns_field _ _ _ _ _ (λ v, mkHeader dtd pr v "" L L "" false None None)); field || done|].
    eapply xturns_cons;
      [apply (xturns_field _ _ _ _ _ (λ v, mkHeader dtd pr sid v L L "" false None None)); field || done|].
    eapply xturns_cons;
      [apply (xturns_location _ _ _ _ (λ v, mkHeader dtd pr sid mid v L "" false None None)); field || done|].
    apply (xturns_location _ _ _ _ (λ v, mkHeader dtd pr sid mid tg v "" false None None)); field || done. }
  next_field (λ v, mkHeader dtd pr sid mid tg so v false None None).
  next_field (λ v, mkHeader dtd pr sid mid tg so re v None None).
  eapply xturns_app;
    [apply (xturns_cred _ _ _ (λ v, mkHeader dtd pr sid mid tg so re nr v None)); field || done|].
  apply (xturns_meta _ _ _ (λ v, mkHeader dtd pr sid mid tg so re nr cr v)); field || done.
Qed.

(** *** Commands *)

Definition command_xs (c : Command) : list xnode :=
  match x_command c with XElem _ _ xs => xs | _ => [] end.

Lemma read_itemCommand isGet id nr lang cred meta items :
  trimmed id = true → trimmed lang = true → opt_ok cred_ok cred = true →
  opt_ok meta_ok meta = true → forallb item_ok items = true →
  (isGet = false → lang = "") →
  xturns (itemCommand_turn src last isGet)
    (x_head id nr ++ x_textIf "Lang" lang ++ x_cred cred ++ x_meta meta ++ map x_item items)
    (mkGet "" false "" None None []) (mkGet id nr lang cred meta items).
Proof.
  intros ????? Hlang. eapply xturns_app.
  { eapply xturns_cons;
      [apply (xturns_field _ _ _ _ _ (λ v, mkGet v false "" None None [])); field || done|].
    apply (xturns_flag _ _ _ _ (λ v, mkGet id v "" None None [])); field || done. }
  apply (xturns_app _ _ _ _ (mkGet id nr lang None None [])).
  { destruct isGet; [apply (xturns_fieldIf _ _ _ _ _ (λ v, mkGet id nr v None None [])); field || done|].
    rewrite Hlang by done. apply xturns_nil. }
  eapply xturns_app;
    [apply (xturns_cred _ _ _ (λ v, mkGet id nr lang v None [])); field || done|].
  eapply xturns_app;
    [apply (xturns_meta _ _ _ (λ v, mkGet id nr lang cred v [])); field || done|].
  apply (xturns_items _ _ _ (λ v, mkGet id nr lang cred meta v)); field || done.
Qed.

Lemma read_exec c :
  command_canon (CExec c) = true →
  xturns (exec_turn src last) (command_xs (CExec c)) (mkExec "" false None None "" []) c.
Proof.
  destruct c as [id nr cred meta corr items]. cbn. intros E. btrue.
  eapply xturns_cons;
    [apply (xturns_field _ _ _ _ _ (λ v, mkExec v false None None "" [])); field || done|].
  next_field (λ v, mkExec id v None None "" []).
  eapply xturns_app; [apply (xturns_cred _ _ _ (λ v, mkExec id nr v None "" [])); field || done|].
  eapply xturns_app; [apply (xturns_meta _ _ _ (λ v, mkExec id nr cred v "" [])); field || done|].
  next_field (λ v, mkExec id nr cred meta v []).
  apply (xturns_items _ _ _ (λ v, mkExec id nr cred meta corr v)); field || done.
Qed.

Lemma read_alert c :
  command_canon (CAlert c) = true →
  xturns (alert_turn src last) (command_xs (CAlert c)) (mkAlert "" false None "" "" []) c.
Proof.
  destruct c as [id nr cred data corr items]. cbn. intros E. btrue.
  eapply xturns_cons;
    [apply (xturns_field _ _ _ _ _ (λ v, mkAlert v false None "" "" [])); field || done|].
  next_field (λ v, mkAlert id v None "" "" []).
  eapply xturns_app; [apply (xturns_cred _ _ _ (λ v, mkAlert id nr v "" "" [])); field || done|].
  next_field (λ v, mkAlert id nr cred v "" []).
  next_field (λ v, mkAlert id nr cred data v []).
  apply (xturns_items _ _ _ (λ v, mkAlert id nr cred data corr v)); field || done.
Qed.

Lemma xturns_refs {A} (turn : string → list Attr → A → P A) name refs a (f : list string → A) :
  name_Local (name_of name) = name → ref_ok refs = true → f [] = a →
  (∀ at_ l, turn name at_ (f l) = (let! v := trimmedText last in ret (f (l ++ [v])))) →
  xturns turn (map (XText name []) refs) a (f refs).
Proof.
  intros Hn Hr <- Ht. apply (xturns_map turn (XText name []) f refs []). intros l r Hin.
  apply (xturns_field _ _ _ _ _ (λ v, f (l ++ [v]))); [done| |by intros; apply Ht].
  unfold ref_ok in Hr. rewrite forallb_forall in Hr. apply Hr. by apply list_elem_of_In.
Qed.

Lemma read_status c :
  command_canon (CStatus c) = true →
  xturns (status_turn src last) (command_xs (CStatus c)) Status0 c.
Proof.
  destruct c as [id msg ref cmd tref sref cred chal data items]. cbn. intros E. btrue.
  unfold Status0. set (D := mkData "" "" "").
  eapply xturns_cons;
    [apply (xturns_field _ _ _ _ _ (λ v, mkStatus v "" "" "" [] [] None None D [])); field || done|].
  eapply xturns_cons;
    [apply (xturns_field _ _ _ _ _ (λ v, mkStatus id v "" "" [] [] None None D [])); field || done|].
  eapply xturns_cons;
    [apply (xturns_field _ _ _ _ _ (λ v, mkStatus id msg v "" [] [] None None D [])); field || done|].
  eapply xturns_cons;
    [apply (xturns_field _ _ _ _ _ (λ v, mkStatus id msg ref v [] [] None None D [])); field || done|].
  eapply xturns_app;
    [apply (xturns_refs _ _ _ _ (λ v, mkStatus id msg ref cmd v [] None None D [])); field || done|].
  eapply xturns_app;
    [apply (xturns_refs _ _ _ _ (λ v, mkStatus id msg ref cmd tref v None None D [])); field || done|].
  eapply xturns_app;
    [apply (xturns_cred _ _ _ (λ v, mkStatus id msg ref cmd tref sref v None D [])); field || done|].
  eapply xturns_app;
    [apply (xturns_chal _ _ _ (λ v, mkStatus id msg ref cmd tref sref cred v D [])); field || done|].
  eapply (xturns_app _ (x_data (Some data)) _ _ (mkStatus id msg ref cmd tref sref cred chal data [])).
  { replace data with (mkData (TrimSpace (Data_Value data)) (Data_XML data) (Data_OriginalError data))
      at 2 by (rewrite trimmed_id by done; by destruct data).
    apply (xturns_data _ (Some data) _ (λ o, match o with
      | Some d => mkStatus id msg ref cmd tref sref cred chal
          (mkData (TrimSpace (Data_Value d)) (Data_XML d) (Data_OriginalError d)) []
      | None => mkStatus id msg ref cmd tref sref cred chal D [] end)); field || done. }
  apply (xturns_items _ _ _ (λ v, mkStatus id msg ref cmd tref sref cred chal data v)); field || done.
Qed.

Lemma read_results c :
  command_canon (CResults c) = true →
  xturns (results_turn src last) (command_xs (CResults c))
    (mkResults "" "" "" "" None "" "" []) c.
Proof.
  destruct c as [id msg ref cmd meta tref sref items]. cbn. intros E. btrue.
  eapply xturns_cons;
    [apply (xturns_field _ _ _ _ _ (λ v, mkResults v "" "" "" None "" "" [])); field || done|].
  next_field (λ v, mkResults id v "" "" None "" "" []).
  eapply xturns_cons;
    [apply (xturns_field _ _ _ _ _ (λ v, mkResults id msg v "" None "" "" [])); field || done|].
  next_field (λ v, mkResults id msg ref v None "" "" []).
  eapply xturns_app;
    [apply (xturns_meta _ _ _ (λ v, mkResults id msg ref cmd v "" "" [])); field || done|].
  next_field (λ v, mkResults id msg ref cmd meta v "" []).
  next_field (λ v, mkResults id msg ref cmd meta tref v []).
  apply (xturns_items _ _ _ (λ v, mkResults id msg ref cmd meta tref sref v)); field || done.
Qed.

Fixpoint cmd_depth (c : Command) : nat :=
  match c with
  | CAtomic _ _ _ cs | CSequence _ _ _ cs => S (list_max (map cmd_depth cs))
  | _ => 0
  end.

Lemma group_toks name id nr m cs ns :
  (∀ ns, Forall (λ c, (cmd_depth c < length (xtok ns (x_command c)))%nat) cs) →
  (S (list_max (map cmd_depth cs)) <
   length (xtok ns (XElem name [] (x_head id nr ++ x_meta m ++ map x_command cs))))%nat.
Proof.
  intros Hcs. cbn [xtok map length]. set (ns' := declare ns []).
  rewrite !map_app, !concat_app, !length_app. cbn [length].
  assert (list_max (map cmd_depth cs) ≤ length (concat (map (xtok ns') (map x_command cs))))%nat;
    [|lia].
  apply list_max_le, Forall_map. specialize (Hcs ns'). clearbody ns'.
  induction Hcs as [|c cs Hc _ IH]; constructor;
    [cbn; rewrite length_app; lia|].
  eapply Forall_impl; [exact IH|]. cbn. intros. rewrite length_app. lia.
Qed.

Lemma cmd_depth_toks c : ∀ ns, (cmd_depth c < length (xtok ns (x_command c)))%nat.
Proof.
  induction c as [n|n|n|n|n|n|i nr m cs IH|i nr m cs IH|n|n] using Command_nested_ind; intros ns;
    [cbn; lia..| | |cbn; lia|cbn; lia].
  all: apply group_toks; intros ns'; eapply Forall_impl; [exact IH|]; cbn; auto.
Qed.

(** The element of a command reads as that command. *)
Definition reads_command (c : Command) : Prop := ∀ fuel ns,
  (cmd_depth c ≤ fuel)%nat →
  parses (command_fuel src last fuel (Command_Name c)) (xbody ns (x_command c)) c.

Lemma parses_elem {A} (turn : string → list Attr → A → P A) ns name xs a b :
  xturns turn xs a b → parses (children last turn a) (xbody ns (XElem name [] xs)) b.
Proof. intros Ht. unfold xbody. cbn [xtok tail]. apply parses_children, Ht. Qed.

Lemma command_fuel_eq fuel name :
  command_fuel src last fuel name =
  command_with src last
    (match fuel with O => λ _, throw [] | S fuel => command_fuel src last fuel end) name.
Proof. by destruct fuel. Qed.

Lemma xturns_members command cs id nr meta :
  forallb (λ c, is_member c) cs = true →
  Forall (λ c, ∀ ns, parses (command (Command_Name c)) (xbody ns (x_command c)) c) cs →
  xturns (group_turn last command) (map x_command cs) (mkGroup id nr meta []) (mkGroup id nr meta cs).
Proof.
  intros Hm Hcs. apply (xturns_map _ x_command (λ cs, mkGroup id nr meta cs) cs []).
  intros l c Hin. rewrite Forall_forall in Hcs. specialize (Hcs c Hin).
  rewrite forallb_forall in Hm. specialize (Hm c (proj1 (list_elem_of_In _ _) Hin)).
  apply (xturns_one _ _ (Command_Name c) []).
  - destruct c; split; reflexivity.
  - by destruct c.
  - intros ns ns'. assert (∀ at_, group_turn last command (Command_Name c) at_
      (mkGroup id nr meta l) = (let! c := command (Command_Name c) in
        ret (mkGroup id nr meta (l ++ [c])))) as ->.
    { intros at_. destruct c; try done. }
    apply (parses_map _ (λ c, mkGroup id nr meta (l ++ [c]))), Hcs.
Qed.

Lemma read_group command id nr meta cs :
  trimmed id = true → opt_ok meta_ok meta = true → forallb (λ c, is_member c) cs = true →
  Forall (λ c, ∀ ns, parses (command (Command_Name c)) (xbody ns (x_command c)) c) cs →
  xturns (group_turn last command) (x_head id nr ++ x_meta meta ++ map x_command cs)
    (mkGroup "" false None []) (mkGroup id nr meta cs).
Proof.
  intros Hid Hmeta Hm Hcs. eapply xturns_app.
  { eapply xturns_cons; [apply (xturns_field _ _ _ _ _ (λ v, mkGroup v false None [])); field || done|].
    apply (xturns_flag _ _ _ _ (λ v, mkGroup id v None [])); field || done. }
  eapply xturns_app; [apply (xturns_meta _ _ _ (λ v, mkGroup id nr v [])); field || done|].
  by apply xturns_members.
Qed.

Lemma members_only cs :
  forallb (λ c, is_member c && command_canon c) cs = true → forallb (λ c, is_member c) cs = true.
Proof. rewrite !forallb_forall. intros Hc x Hx. apply Hc in Hx. by btrue. Qed.

(** The members are read with one unit of fuel less. *)
Lemma members_read cs fuel :
  Forall (λ c, command_canon c = true → reads_command c) cs →
  forallb (λ c, is_member c && command_canon c) cs = true →
  (S (list_max (map cmd_depth cs)) ≤ fuel)%nat →
  Forall (λ c, ∀ ns, parses
    ((match fuel with O => λ _, throw [] | S fuel => command_fuel src last fuel end)
       (Command_Name c)) (xbody ns (x_command c)) c) cs.
Proof.
  intros IH Hc Hd. destruct fuel as [|fuel]; [lia|]. rewrite Forall_forall in IH |- *.
  intros c Hin ns. rewrite forallb_forall in Hc.
  specialize (Hc c (proj1 (list_elem_of_In _ _) Hin)). btrue. apply IH; [done..|].
  apply le_S_n in Hd. apply list_max_le in Hd. rewrite Forall_map, Forall_forall in Hd. by apply Hd.
Qed.

Lemma read_items_command name wrap id nr cred meta items member ns :
  trimmed id = true → opt_ok cred_ok cred = true → opt_ok meta_ok meta = true →
  forallb item_ok items = true →
  command_with src last member name = (let! g := p_itemCommand src last false in ret (wrap g)) →
  parses (command_with src last member name)
    (xbody ns (x_itemCommand name id nr "" cred meta items)) (wrap (mkGet id nr "" cred meta items)).
Proof.
  intros Hid Hc Hm Hi E. rewrite E. apply (parses_map _ wrap). apply parses_elem, read_itemCommand; done.
Qed.

Lemma read_command c : command_canon c = true → reads_command c.
Proof.
  induction c as [n|n|n|n|n|n|i nr m cs IH|i nr m cs IH|n|n] using Command_nested_ind;
    intros Hc fuel ns Hd; rewrite command_fuel_eq; set (member := match fuel with O => _ | _ => _ end).
  - destruct n as [id nr cred meta items]. cbn in Hc. btrue.
    by apply (read_items_command CmdAdd (λ g, CAdd (mkAdd (Get_CmdID g) (Get_NoResp g) (Get_Cred g)
      (Get_Meta g) (Get_Items g))) id nr cred meta items).
  - destruct n as [id nr cred meta items]. cbn in Hc. btrue.
    by apply (read_items_command CmdReplace (λ g, CReplace (mkReplace (Get_CmdID g) (Get_NoResp g)
      (Get_Cred g) (Get_Meta g) (Get_Items g))) id nr cred meta items).
  - destruct n as [id nr cred meta items]. cbn in Hc. btrue.
    by apply (read_items_command CmdDelete (λ g, CDelete (mkDelete (Get_CmdID g) (Get_NoResp g)
      (Get_Cred g) (Get_Meta g) (Get_Items g))) id nr cred meta items).
  - destruct n as [id nr lang cred meta items]. cbn in Hc. btrue.
    apply (parses_map (p_itemCommand src last true) CGet), parses_elem, read_itemCommand; done.
  - apply (parses_map (p_exec src last) CExec), parses_elem. by apply read_exec.
  - apply (parses_map (p_alert src last) CAlert), parses_elem. by apply read_alert.
  - apply (parses_map _ (λ g, CAtomic (g_CmdID g) (g_NoResp g) (g_Meta g) (g_Commands g)) _
      (mkGroup i nr m cs)), parses_elem. cbn in Hc. btrue. apply read_group; try done.
    + by apply members_only.
    + by apply (members_read cs fuel).
  - apply (parses_map _ (λ g, CSequence (g_CmdID g) (g_NoResp g) (g_Meta g) (g_Commands g)) _
      (mkGroup i nr m cs)), parses_elem. cbn in Hc. btrue. apply read_group; try done.
    + by apply members_only.
    + by apply (members_read cs fuel).
  - apply (parses_map (p_status src last) CStatus), parses_elem. by apply read_status.
  - apply (parses_map (p_results src last) CResults), parses_elem. by apply read_results.
Qed.

Lemma parses_command c ns :
  command_canon c = true → parses (p_command src last (Command_Name c)) (xbody ns (x_command c)) c.
Proof.
  intros Hc ts rest off E. unfold p_command. apply (read_command c Hc _ ns); [|done]. simpl.
  apply (f_equal length) in E. rewrite length_fmap in E. rewrite length_app, E.
  pose proof (cmd_depth_toks c ns) as Hd. unfold xbody.
  destruct (xtok ns (x_command c)); simpl in *; lia.
Qed.

Definition body_xs (b : Body) : list xnode :=
  map x_command (Body_Commands b) ++ x_when (Body_Final b) (XEmpty "Final").

Lemma read_body b :
  body_canon data_ok b = true →
  xturns (body_turn src last) (body_xs b) (mkBody [] false (Body_MSFTNamespace b)) b.
Proof.
  destruct b as [cs f ms]. unfold body_canon, body_xs. cbn. intros Hb. eapply xturns_app.
  - apply (xturns_map _ x_command (λ cs, mkBody cs false ms) cs []). intros l c Hin.
    rewrite forallb_forall in Hb. specialize (Hb c (proj1 (list_elem_of_In _ _) Hin)).
    apply (xturns_one _ _ (Command_Name c) []).
    + destruct c; split; reflexivity.
    + by destruct c.
    + intros ns ns'. assert (∀ at_, body_turn src last (Command_Name c) at_ (mkBody l false ms) =
        (let! c := p_command src last (Command_Name c) in ret (mkBody (l ++ [c]) false ms))) as ->.
      { intros at_. by destruct c. }
      by apply (parses_map _ (λ c, mkBody (l ++ [c]) false ms)), parses_command.
  - apply (xturns_flag _ _ _ _ (λ v, mkBody cs v ms)); field || done.
Qed.

Lemma declares_msft_attrs ns b :
  declares_msft (map (λ a, mkXAttr (translate ns false (at_Name a)) (at_Value a))
    (map attr_tok (if b : bool then [mkAttr "xmlns:msft" NamespaceMSFT] else []))) = b.
Proof. by destruct b. Qed.

Lemma root_namespace_attrs ns v :
  root_namespace (map (λ a, mkXAttr (translate ns false (at_Name a)) (at_Value a))
    (map attr_tok [mkAttr "xmlns" v])) = v.
Proof. done. Qed.

Lemma read_message m :
  message_canon m = true →
  xturns (message_turn src last) [x_header (Msg_Header m); x_body (Msg_Body m)] (None, None)
    (Some (Msg_Header m), Some (Msg_Body m)).
Proof.
  unfold message_with. intros E. btrue. eapply xturns_cons.
  - apply (xturns_inner _ (header_turn last) "SyncHdr" [] (header_xs (Msg_Header m)) (None, None)
      (λ h, (Some h, None)) Header0 (Msg_Header m)); [done|by apply read_header|]. field.
  - apply (xturns_one _ _ "SyncBody" (if Body_MSFTNamespace (Msg_Body m)
      then [mkAttr "xmlns:msft" NamespaceMSFT] else [])); [done..|]. intros ns ns'.
    cbn [message_turn]. pick. unfold p_body. rewrite declares_msft_attrs.
    apply (parses_map _ (λ b, (Some (Msg_Header m), Some b))).
    unfold x_body, xbody. cbn [xtok tail]. apply parses_children. by apply read_body.
Qed.
End reading.

Lemma p_message_reads src m ts off ns :
  message_canon m = true → ts.*1 = xtok ns (x_message m) →
  (p_message src [io_EOF] (mkParser ts off)).2 =
  Ok (mkMessage (wire_namespace m) (Msg_Header m) (Msg_Body m)).
Proof.
  intros Hm Hts. unfold x_message in Hts. cbn [xtok] in Hts.
  destruct ts as [|[t o] ts]; [done|]. rewrite fmap_cons in Hts. injection Hts as Ht Hts.
  cbn [fst] in Ht. subst t. unfold p_message, nextStart, start_tok. cbn [p_toks p_off next_start].
  rewrite translate_Local. change (name_Local (name_of "SyncML")) with "SyncML".
  rewrite bool_decide_eq_true_2 by done. cbn [negb]. rewrite root_namespace_attrs.
  rewrite bool_decide_eq_true_2 by (unfold wire_namespace; case_decide; set_solver).
  destruct (parses_children [io_EOF] _ _ _ _ (translate
      (declare ns (map attr_tok [mkAttr "xmlns" (wire_namespace m)])) true (name_of "SyncML"))
    (read_message src [io_EOF] m Hm (declare ns (map attr_tok [mkAttr "xmlns" (wire_namespace m)])))
    ts [] o Hts) as [o' E].
  rewrite app_nil_r in E. unfold bind. rewrite E. done.
Qed.

(** ** Canonical messages are written as readable trees *)

Lemma trimmed_chars s : trimmed s = true → xml_chars s = true.
Proof. unfold trimmed. intros E. by btrue. Qed.

Lemma ascii_chars s :
  str_forall (λ c, (32 <=? byte_val c) && (byte_val c <=? 126)) s = true → xml_chars s = true.
Proof.
  unfold xml_chars. remember (String.length s) as f eqn:Hf. clear Hf. revert s.
  induction f as [|f IH]; intros s Hs; [done|]. destruct s as [|c s]; [done|]. simpl in Hs. btrue.
  cbn [xml_chars_fuel]. unfold decode_rune. destruct (Z.ltb_spec (byte_val c) 128); [|lia].
  cbn [sdrop]. rewrite IH by done. rewrite andb_true_r.
  assert (byte_val c =? RuneError = false) as -> by (apply Z.eqb_neq; unfold RuneError; lia).
  unfold isInCharacterRange. rewrite andb_true_iff. split; [|done].
  rewrite !orb_true_iff, !andb_true_iff, !Z.leb_le. lia.
Qed.

Lemma Itoa_chars n : 0 ≤ n → xml_chars (Itoa n) = true.
Proof.
  intros Hn. apply ascii_chars. eapply str_forall_impl; [|by apply Itoa_digits].
  intros c. unfold is_digit. rewrite !andb_true_iff, !Z.leb_le. lia.
Qed.

Definition xs_ok (xs : list xnode) : bool := forallb x_ok xs.

Lemma xs_ok_app xs ys : xs_ok xs = true → xs_ok ys = true → xs_ok (xs ++ ys) = true.
Proof. unfold xs_ok. intros Hx Hy. by rewrite forallb_app, Hx, Hy. Qed.

Lemma xs_ok_when c x : x_ok x = true → xs_ok (x_when c x) = true.
Proof. intros Hx. destruct c; simpl; [by rewrite Hx|done]. Qed.

Lemma x_ok_text name attrs v :
  tag_name name = true → forallb attr_ok attrs = true → trimmed v = true →
  x_ok (XText name attrs v) = true.
Proof. intros Hn Ha Hv. cbn. by rewrite Hn, Ha, trimmed_chars. Qed.

Lemma x_ok_elem name attrs xs :
  tag_name name = true → forallb attr_ok attrs = true → xs_ok xs = true →
  x_ok (XElem name attrs xs) = true.
Proof. intros Hn Ha Hx. cbn. unfold xs_ok in Hx. by rewrite Hn, Ha, Hx. Qed.

Lemma xs_ok_cons x xs : x_ok x = true → xs_ok xs = true → xs_ok (x :: xs) = true.
Proof. intros Hx Hxs. unfold xs_ok in *. simpl. by rewrite Hx. Qed.

Lemma xs_ok_map {A} (f : A → xnode) (p : A → bool) l :
  (∀ a, p a = true → x_ok (f a) = true) → forallb p l = true → xs_ok (map f l) = true.
Proof.
  intros Hf. induction l as [|a l IH]; simpl; [done|]. intros E. btrue. by rewrite Hf, IH.
Qed.

Lemma xs_ok_meta o : opt_ok meta_ok o = true → xs_ok (x_meta o) = true.
Proof.
  destruct o as [m|]; [|done]. rewrite x_meta_eq. cbn [opt_ok]. unfold meta_ok, size_ok. intros E. btrue.
  apply xs_ok_cons; [|done]. apply x_ok_elem; [done..|]. unfold meta_xs. cbn.
  repeat apply xs_ok_app; apply xs_ok_when;
    first [apply x_ok_text; done | cbn; rewrite Itoa_chars by lia; done].
Qed.

Ltac readable :=
  repeat first
    [ done
    | apply xs_ok_meta | apply x_ok_text | apply x_ok_elem | apply xs_ok_when
    | apply xs_ok_app | apply xs_ok_cons ].

Lemma xs_ok_cred o : opt_ok cred_ok o = true → xs_ok (x_cred o) = true.
Proof. destruct o as [c|]; [|done]. cbn [opt_ok x_cred]. unfold cred_ok. intros E. btrue. readable. Qed.

Lemma xs_ok_chal o : opt_ok chal_ok o = true → xs_ok (x_chal o) = true.
Proof. destruct o as [c|]; [|done]. cbn [opt_ok x_chal]. unfold chal_ok. intros E. readable. Qed.

Lemma xs_ok_data o : opt_ok data_ok o = true → xs_ok (x_data o) = true.
Proof.
  destruct o as [d|]; [|done]. cbn [opt_ok x_data]. unfold data_ok. intros E. btrue.
  rewrite decide_True by done. apply xs_ok_cons; [|done]. cbn.
  assert (forallb attr_ok (data_attrs d) = true) as ->.
  { unfold data_attrs. case_decide; [done|]. cbn. rewrite andb_true_r. unfold attr_ok. cbn. done. }
  rewrite andb_true_r. by rewrite H.
Qed.

Lemma x_ok_item it : item_ok it = true → x_ok (x_item it) = true.
Proof.
  unfold item_with, x_item, x_uri. intros E. btrue. apply x_ok_elem; [done..|].
  repeat apply xs_ok_app; readable; by apply xs_ok_data.
Qed.

Lemma xs_ok_items its : forallb item_ok its = true → xs_ok (map x_item its) = true.
Proof. apply xs_ok_map. apply x_ok_item. Qed.

Lemma xs_ok_refs name refs :
  tag_name name = true → ref_ok refs = true → xs_ok (map (XText name []) refs) = true.
Proof. intros Hn. apply xs_ok_map. intros. by apply x_ok_text. Qed.

Ltac readable_in :=
  repeat first
    [ done
    | apply xs_ok_meta | apply xs_ok_cred | apply xs_ok_chal | apply xs_ok_data
    | apply xs_ok_items | apply xs_ok_refs
    | apply x_ok_text | apply x_ok_elem | apply xs_ok_when | apply xs_ok_app | apply xs_ok_cons ].

Lemma xs_ok_members cs :
  Forall (λ c, command_canon c = true → x_ok (x_command c) = true) cs →
  forallb (λ c, is_member c && command_canon c) cs = true → xs_ok (map x_command cs) = true.
Proof. induction 1 as [|c cs Hc _ IH]; simpl; [done|]. intros E. btrue. by rewrite Hc, IH. Qed.

Lemma x_ok_command c : command_canon c = true → x_ok (x_command c) = true.
Proof.
  induction c as [n|n|n|n|n|n|i nr m cs IH|i nr m cs IH|n|n] using Command_nested_ind;
    cbn [command_with_data]; try destruct n; intros E; btrue;
    cbn [x_command]; unfold x_itemCommand, x_head, x_textIf;
    (apply x_ok_elem; [done..|]; repeat apply xs_ok_app; readable_in).
  all: by apply xs_ok_members.
Qed.

Lemma x_ok_message m : message_canon m = true → x_ok (x_message m) = true.
Proof.
  unfold message_with, header_canon, body_canon, loc_ok. intros E. btrue. unfold x_message.
  apply x_ok_elem; [done|cbn; unfold wire_namespace; by case_decide|].
  apply xs_ok_cons; [|apply xs_ok_cons; [|done]].
  - unfold x_header, x_location, x_textIf. apply x_ok_elem; [done..|].
    repeat apply xs_ok_app; readable_in.
  - unfold x_body. apply x_ok_elem; [done|by case_match|]. apply xs_ok_app; [|readable_in].
    eapply xs_ok_map; [|done]. apply x_ok_command.
Qed.

Lemma forallb_mono {A} (p q : A → bool) l :
  (∀ a, p a = true → q a = true) → forallb p l = true → forallb q l = true.
Proof. rewrite !forallb_forall. eauto. Qed.

(** A command whose data has no value beside markup is written. *)
Section clean.
Context (dok : Data → bool).
Hypothesis no_conflict : ∀ d, dok d = true → data_conflict d = false.

Lemma item_with_clean it : item_with dok it = true → item_clean it = true.
Proof.
  unfold item_with, item_clean. intros E. btrue. destruct (Item_Data it) as [d|]; [|done].
  simpl in *. by rewrite no_conflict.
Qed.

Lemma command_with_clean c : command_with_data dok c = true → command_clean c = true.
Proof.
  induction c as [n|n|n|n|n|n|i nr m cs IH|i nr m cs IH|n|n] using Command_nested_ind;
    cbn [command_with_data command_clean]; try destruct n; intros E; btrue;
    try (eapply forallb_mono; [apply item_with_clean|done]).
  1, 2: induction IH as [|c cs Hc _ IH']; simpl in *; [done|]; btrue; by rewrite Hc, IH'.
  apply andb_true_iff. split; [|eapply forallb_mono; [apply item_with_clean|done]].
  cbn. by rewrite no_conflict.
Qed.
End clean.

Lemma data_ok_clean d : data_ok d = true → data_conflict d = false.
Proof.
  unfold data_ok, data_conflict, nonempty. intros E. btrue.
  rewrite (bool_decide_eq_false_2 (Data_XML d ≠ "")) by (by intros []).
  by rewrite andb_false_r.
Qed.

Section decode_encode.
Context `{NameTables}.

Lemma lex_eof off : lex charsetReader (mkDecoder "" off [] ∅ None) = ([], [io_EOF]).
Proof. by rewrite lex_unfold by apply charsetReader_questions. Qed.

(** What the writer makes of a tree is lexed into the tree's tokens. *)
Lemma lex_render x :
  x_ok x = true → ∃ ts, ts.*1 = xtok ∅ x ∧
    lex charsetReader (NewDecoder (render "" 0 x)) = (ts, [io_EOF]).
Proof.
  intros Hx. destruct (lexes_xtok charsetReader charsetReader_questions x 0 [] ∅ Hx I 0 "")
    as (ts & off & Ets & E).
  exists ts. split; [done|]. rewrite str_app_nil_r in E. unfold NewDecoder.
  by rewrite E, lex_eof, app_nil_r.
Qed.

Lemma transcode_tag c s :
  byte_val c ≠ 0 → transcodeUTF16 (String "<" (String c s)) = String "<" (String c s).
Proof.
  intros Hc. unfold transcodeUTF16. destruct (len _ <? 2); [done|]. unfold byte_at. simpl.
  by destruct (Z.eqb_spec (byte_val c) 0).
Qed.

Lemma Decode_Encode m opts :
  message_canon m = true → len (render "" 0 (x_message m)) ≤ (if do_MaxSize opts <=? 0
    then DefaultMaxSize else do_MaxSize opts) →
  Decode (render "" 0 (x_message m)) opts =
  Ok (mkMessage (wire_namespace m) (Msg_Header m) (Msg_Body m)).
Proof.
  intros Hm Hlen. unfold Decode. rewrite (proj2 (Z.ltb_ge _ _)) by done. unfold run_parser.
  assert (transcodeUTF16 (render "" 0 (x_message m)) = render "" 0 (x_message m)) as ->.
  { by apply (transcode_tag "S"). }
  destruct (lex_render (x_message m)) as (ts & Hts & ->); [by apply x_ok_message|].
  by rewrite (p_message_reads _ m ts 0 ∅).
Qed.

Lemma command_toks c : ∃ n attrs,
  xtok ∅ (x_command c) = StartElement n attrs :: xbody ∅ (x_command c) ∧
  name_Local n = Command_Name c.
Proof.
  destruct c; cbn [x_command Command_Name]; unfold x_itemCommand, xbody; cbn [xtok tail];
    unfold start_tok; eexists _, _; (split; [reflexivity|]); rewrite translate_Local; reflexivity.
Qed.

Lemma DecodeCommand_render c :
  command_canon c = true → len (render "" 0 (x_command c)) ≤ DefaultMaxSize →
  DecodeCommand (render "" 0 (x_command c)) = Ok c.
Proof.
  intros Hc Hlen. unfold DecodeCommand. rewrite (proj2 (Z.ltb_ge _ _)) by done. unfold run_parser.
  assert (transcodeUTF16 (render "" 0 (x_command c)) = render "" 0 (x_command c)) as ->.
  { destruct c; first [by apply (transcode_tag "A")|by apply (transcode_tag "R")
      |by apply (transcode_tag "D")|by apply (transcode_tag "G")|by apply (transcode_tag "E")
      |by apply (transcode_tag "S")]. }
  destruct (lex_render (x_command c)) as (ts & Hts & ->); [by apply x_ok_command|].
  destruct (command_toks c) as (n & attrs & E & Hn). rewrite E in Hts.
  destruct ts as [|[t o] ts]; [done|]. rewrite fmap_cons in Hts. injection Hts as Ht Hts.
  cbn [fst] in Ht. subst t. cbn [nextStart p_toks p_off next_start]. rewrite Hn.
  destruct (parses_command (render "" 0 (x_command c)) [io_EOF] c ∅ Hc ts [] o Hts) as [o' E'].
  rewrite app_nil_r in E'. by rewrite E'.
Qed.
End decode_encode.
