(* ===== verification/DecodeSound.v ===== *)
(** * What the decoder accepts

    Every message read satisfies the conditions under which the encoder writes
    it and the decoder reads it back: the identifiers are trimmed XML text, the
    sizes are not negative, and no datum carries both a value and markup.  The
    argument is a logic over the readers: [yields m Q] says that [m] leaves
    well-formed tokens well-formed and returns values satisfying [Q]. *)
From stdpp Require Import base gmap strings list.
From Stdlib Require Import ZArith Lia Ascii.
From S2P Require Import Prelude GoStrings SyncmlModel Response Encode Utf8 GoXml XmlLex.
From S2P Require Import Decode DecodeProofs.

Local Open Scope Z_scope.
Local Open Scope go_scope.

(** ** Tokens *)

(** Character data and attribute values are XML characters. *)
Definition attrs_ok (attrs : list Attr) : bool := forallb (λ a, xml_chars (at_Value a)) attrs.
Definition tok_ok (t : Token) : bool :=
  match t with
  | CharData s => xml_chars s
  | StartElement _ attrs => attrs_ok attrs
  | _ => true
  end.
Definition toks_ok (ts : list (Token * Z)) : Prop := Forall (λ t, tok_ok t.1 = true) ts.

Lemma text_ok m s d r : text m s = Ok (d, r) → xml_chars d = true.
Proof.
  unfold text. destruct (text_fuel _ _ _ _ s) as [[d' r']|]; [|done]. simpl.
  destruct (xml_chars _) eqn:E; [|done]. by intros [= <- _].
Qed.

Section tokens.
Context `{NameTables} (CharsetReader : string → string → result string).

Lemma read_attrs_ok fuel s attrs e r : read_attrs fuel s = Ok (attrs, e, r) → attrs_ok attrs = true.
Proof.
  revert s attrs e r. induction fuel as [|fuel IH]; intros s attrs e r; [done|].
  cbn [read_attrs]. destruct (skip_space s) as [|c s'] eqn:Es; [done|].
  case_match. { case_match; [|done]. by intros [= <- _ _]. }
  case_match; [by intros [= <- _ _]|].
  destruct (nsname _) as [[n r1]|]; [|done]. simpl. case_match; [|done].
  destruct (attrval _) as [[v r2]|] eqn:Ev; [|done]. simpl.
  destruct (read_attrs fuel r2) as [[[attrs' e'] r3]|] eqn:Er; [|done]. simpl. intros [= <- _ _].
  cbn. apply IH in Er. unfold attrs_ok in Er. rewrite Er, andb_true_r.
  unfold attrval in Ev. case_match; [done|]. case_match; [|done]. by eapply text_ok.
Qed.

Lemma raw_token_ok s t close r r' :
  raw_token CharsetReader s = Ok (t, close, r, r') → tok_ok t = true.
Proof.
  unfold raw_token. destruct s as [|b s]; [done|]. case_match.
  - unfold raw_markup. destruct s as [|b' s]; [done|]. case_match; [|case_match; [|case_match]].
    + unfold raw_end. destruct (nsname s) as [[n r1]|]; [|done]. simpl.
      case_match; [done|]. case_match; [|done]. by intros [= <- _ _].
    + unfold raw_procinst. destruct (read_name s) as [[n r1]|]; [|done]. simpl.
      destruct (procinst_data _ _) as [[d r2]|]; [|done]. cbn.
      case_decide; [destruct (xml_declared _ _ _)|]; try done; by intros [= <- _ _ _].
    + unfold raw_bang. destruct s as [|c s]; [done|]. case_match.
      { case_match; [|done]. destruct (skip_comment _ _ _); [|done]. by intros [= <- _ _]. }
      case_match.
      { case_match; [|done]. destruct (text CData _) as [[d r2]|] eqn:Et; [|done].
        intros [= <- _ _ _]. simpl. by eapply text_ok. }
      destruct (skip_directive _ _ _ _); [|done]. by intros [= <- _ _].
    + unfold raw_start. destruct (nsname _) as [[n r1]|]; [|done]. cbn [result_bind].
      destruct (read_attrs (S (String.length r1)) r1) as [[[attrs e] r2]|] eqn:Er; [|done].
      intros [= <- _ _ _]. by eapply read_attrs_ok.
  - destruct (text PlainText _) as [[d r2]|] eqn:Et; [|done].
    intros [= <- _ _ _]. simpl. by eapply text_ok.
Qed.

Lemma Token_end_ok n d t d' : Token_end n d = Ok (t, d') → tok_ok t = true.
Proof. unfold Token_end. repeat case_match; try done. by intros [= <- _]. Qed.

Lemma Token_ok d t d' : Decoder_Token CharsetReader d = Ok (t, d') → tok_ok t = true.
Proof.
  unfold Decoder_Token. destruct (d_toClose d); [apply Token_end_ok|].
  destruct (raw_token _ _) as [[[[t1 close] r] r']|] eqn:Er; [|case_match; done].
  apply raw_token_ok in Er. destruct t1; try (by intros [= <- _]); [|by apply Token_end_ok].
  unfold Token_start. case_match. intros [= <- _]. unfold tok_ok, attrs_ok in *.
  apply forallb_forall. intros a Ha. apply in_map_iff in Ha as (a1 & <- & Ha). rewrite forallb_forall in Er. exact (Er a1 Ha).
Qed.

Lemma lex_segment_ok fuel d ts e : lex_segment CharsetReader fuel d = (ts, e) → toks_ok ts.
Proof.
  revert d ts e. induction fuel as [|fuel IH]; intros d ts e; cbn [lex_segment].
  { intros [= <- _]. constructor. }
  destruct (Decoder_Token _ d) as [[t d']|] eqn:Et; [|intros [= <- _]; constructor].
  apply Token_ok in Et. case_match; [intros [= <- _]; by repeat constructor|].
  destruct (lex_segment _ fuel d') as [ts' e'] eqn:El. intros [= <- _].
  constructor; [done|]. by eapply IH.
Qed.

Lemma lex_ok d ts e : lex CharsetReader d = (ts, e) → toks_ok ts.
Proof.
  unfold lex. generalize (questions (d_in d)). intros n. revert d ts e.
  induction n as [|n IH]; intros d ts e; cbn [lex_fuel];
    destruct (lex_segment _ _ d) as [ts' [e'|d']] eqn:El; apply lex_segment_ok in El;
    try (by intros [= <- _]).
  destruct (lex_fuel _ n d') as [ts2 e2] eqn:E2. intros [= <- _].
  apply Forall_app. split; [done|]. by eapply IH.
Qed.
End tokens.

(** ** A logic for the readers *)

Definition yields {A} (m : P A) (Q : A → Prop) : Prop :=
  ∀ p p' a, toks_ok (p_toks p) → m p = (p', Ok a) → toks_ok (p_toks p') ∧ Q a.

Section rules.
Context {A B : Type}.
Implicit Types (m : P A) (Q : A → Prop).

Lemma yields_ret a Q : Q a → yields (ret a) Q.
Proof. intros HQ p p' a' Hp [= <- <-]. done. Qed.

Lemma yields_throw e Q : yields (throw e) Q.
Proof. by intros p p' a' Hp [=]. Qed.

Lemma yields_mono m Q Q' : yields m Q → (∀ a, Q a → Q' a) → yields m Q'.
Proof. intros Hm HQ p p' a Hp E. destruct (Hm p p' a Hp E). auto. Qed.
End rules.

Lemma yields_bind {A B} (m : P A) (k : A → P B) (Q : A → Prop) (R : B → Prop) :
  yields m Q → (∀ a, Q a → yields (k a) R) → yields (bind m k) R.
Proof.
  intros Hm Hk p p' b Hp E. unfold bind in E. destruct (m p) as [p1 [a|e]] eqn:Em; [|done].
  destruct (Hm p p1 a Hp Em) as [Hp1 Ha]. by eapply Hk.
Qed.

Lemma yields_then {A B} (m : P A) (f : A → B) (Q : A → Prop) (R : B → Prop) :
  yields m Q → (∀ a, Q a → R (f a)) → yields (let! a := m in ret (f a)) R.
Proof. intros Hm Hf. eapply yields_bind; [done|]. intros a Ha. by apply yields_ret, Hf. Qed.

Lemma next_start_ok last ts off p r :
  toks_ok ts → next_start last ts off = (p, r) →
  toks_ok (p_toks p) ∧ (∀ el attrs, r = Ok (el, attrs) → attrs_ok attrs = true).
Proof.
  intros Hts. revert off. induction Hts as [|[t o] ts Ht Hts IH]; intros off; simpl.
  { intros [= <- <-]. split; [constructor|done]. }
  destruct t; try apply IH; try (intros [= <- <-]; split; [done|]; by intros ? ? [= <- <-]).
  case_match; [|apply IH]. by intros [= <- <-].
Qed.

Lemma yields_children {A} last (turn : string → list Attr → A → P A) (Q : A → Prop) a :
  Q a → (∀ el attrs a, attrs_ok attrs = true → Q a → yields (turn el attrs a) Q) →
  yields (children last turn a) Q.
Proof.
  intros Ha Ht. intros p. unfold children. generalize (S (length (p_toks p))). intros f. revert p a Ha.
  induction f as [|f IH]; intros p a Ha p' a' Hp E; [done|]. cbn [children_fuel] in E.
  destruct (nextStart last p) as [p1 [[el attrs]|e]] eqn:En;
    apply next_start_ok in En as [Hp1 Hattrs]; try done.
  - unfold bind in E. destruct (turn el attrs a p1) as [p2 [a2|e]] eqn:Et; [|done].
    destruct (Ht el attrs a (Hattrs _ _ eq_refl) Ha p1 p2 a2 Hp1 Et) as [Hp2 Ha2].
    by eapply (IH p2 a2).
  - case_match; by simplify_eq.
Qed.

(** ** The readers *)

(** What the decoder makes of a Data element: a value or markup, never both. *)
Definition data_read (d : Data) : bool :=
  xml_chars (Data_Value d) && xml_chars (Data_OriginalError d) &&
  (bool_decide (Data_XML d = "") || bool_decide (Data_Value d = "")).

Abbreviation holds f := (λ a, f a = true).

Lemma trimmed_trim s : xml_chars s = true → trimmed (TrimSpace s) = true.
Proof.
  intros Hs. unfold trimmed. rewrite bool_decide_eq_true_2 by apply TrimSpace_idem.
  apply xml_chars_iff, chars_TrimSpace. by apply xml_chars_iff.
Qed.

Lemma xml_chars_app s t : xml_chars s = true → xml_chars t = true → xml_chars (s +:+ t) = true.
Proof. rewrite !xml_chars_iff. apply chars_app. Qed.

#[local] Arguments trimmed : simpl never.
#[local] Arguments xml_chars : simpl never.
#[local] Arguments size_ok : simpl never.
#[local] Arguments meta_ok : simpl never.
#[local] Arguments cred_ok : simpl never.
#[local] Arguments chal_ok : simpl never.
#[local] Arguments loc_ok : simpl never.
#[local] Arguments data_read : simpl never.

(** Close a condition on a record from the conditions on its fields. *)
Ltac fields_ok :=
  cbn in *; unfold ref_ok in *; btrue; rewrite ?forallb_app; cbn;
  repeat match goal with |- (_ && _)%bool = true => apply andb_true_intro; split end; done.

Section readers.
Context (src : string) (last : error).

Lemma text_from_ok ts off p s :
  toks_ok ts → text_from last ts off = (p, Ok s) → toks_ok (p_toks p) ∧ xml_chars s = true.
Proof.
  intros Hts. revert off s. induction Hts as [|[t o] ts Ht Hts IH]; intros off s; simpl; [done|].
  destruct t; try apply IH; try done; [by intros [= <- <-]|].
  destruct (text_from last ts o) as [p' [s'|e]] eqn:E; [|done]. intros [= <- <-].
  destruct (IH _ _ E). split; [done|]. by apply xml_chars_app.
Qed.

Lemma yields_text : yields (p_text last) (holds xml_chars).
Proof. intros p p' a. apply text_from_ok. Qed.

Lemma yields_trimmed : yields (trimmedText last) (holds trimmed).
Proof. eapply yields_then; [apply yields_text|]. intros a. apply trimmed_trim. Qed.

Lemma yields_skipEmpty : yields (skipEmpty last) (λ _, True).
Proof.
  eapply yields_bind; [apply yields_text|]. intros s _.
  case_match; [apply yields_throw|by apply yields_ret].
Qed.

Lemma yields_Skip : yields (Skip last) (λ _, True).
Proof.
  unfold Skip, yields. intros p. generalize 0 (p_off p). generalize (p_toks p) as ts.
  intros ts depth off p' [] Hts. revert depth off.
  induction Hts as [|[t o] ts Ht Hts IH]; intros depth off; simpl; [done|].
  destruct t; try apply IH. case_match; [by intros [= <-]|apply IH].
Qed.

Lemma yields_then_skip {B} (b : B) (R : B → Prop) : R b → yields (skipEmpty last ;! ret b) R.
Proof. intros HR. eapply yields_then; [apply yields_skipEmpty|done]. Qed.

Lemma yields_unknown {A} (Q : A → Prop) : yields unknown Q.
Proof. apply yields_throw. Qed.

Lemma yields_parseInt s : yields (parseInt s) (holds size_ok).
Proof.
  unfold parseInt. destruct (Atoi s) as [n|] eqn:E; [|apply yields_throw].
  assert (n ≤ max_int64) as Hmax.
  { unfold Atoi in E. destruct (match s with EmptyString => None | _ => _ end); [|done].
    destruct (_ && _) eqn:Hr; [|done]. injection E as <-. by btrue. }
  destruct (n <? 0) eqn:Hn; [apply yields_throw|]. apply yields_ret. unfold size_ok. btrue.
  by rewrite !(proj2 (Z.leb_le _ _)).
Qed.

Lemma original_error_ok attrs : attrs_ok attrs = true → xml_chars (original_error attrs) = true.
Proof.
  unfold original_error. assert (xml_chars "" = true) as Hv by done. revert Hv. generalize "".
  induction attrs as [|a attrs IH]; intros v Hv Ha; [done|]. cbn in *. btrue.
  apply IH; [by case_decide|done].
Qed.

Lemma data_from_ok orig start prev markup depth s ts off p d :
  xml_chars orig = true → xml_chars s = true → toks_ok ts →
  data_from src last orig start prev markup depth s ts off = (p, Ok d) →
  toks_ok (p_toks p) ∧ data_read d = true.
Proof.
  intros Ho Hs Hts. revert prev markup depth s Hs off.
  induction Hts as [|[t o] ts Ht Hts IH]; intros prev markup depth s Hs off; cbn [data_from]; [done|].
  destruct t; try by apply IH.
  - case_match; [|by apply IH]. intros [= <- E]. split; [done|]. unfold data_read.
    destruct markup; [|injection E as <-; cbn [Data_Value Data_XML Data_OriginalError]; by rewrite Hs, Ho].
    destruct (src_slice src start prev); [|done]. case_match; [|done]. injection E as <-.
    cbn [Data_Value Data_XML Data_OriginalError]. by rewrite Ho, orb_true_r.
  - apply IH. destruct markup; [done|]. by apply xml_chars_app.
Qed.

Lemma yields_data attrs :
  attrs_ok attrs = true → yields (p_data src last attrs) (holds data_read).
Proof.
  intros Ha p p' d Hp. apply data_from_ok; [by apply original_error_ok|done..].
Qed.
End readers.

(** One turn of a loop: each case reads one field. *)
Create HintDb readers.
#[export] Hint Resolve yields_trimmed yields_data : readers.
Ltac turn :=
  repeat case_decide; try apply yields_unknown; try (by apply yields_then_skip);
  try (eapply yields_then; [by eauto with readers|]; intros ? ?; fields_ok).

Section fields.
Context (src : string) (last : error).

Lemma yields_location : yields (location last) (holds loc_ok).
Proof.
  apply yields_children; [done|]. intros el attrs [] _ Hl. unfold location_turn, loc_ok in *. turn.
Qed.

Lemma yields_locURI : yields (locURI last) (holds trimmed).
Proof. eapply yields_then; [apply yields_location|]. unfold loc_ok. intros a E. by btrue. Qed.

Lemma yields_then_size {B} (f : Z → B) (R : B → Prop) :
  (∀ n, size_ok n = true → R (f n)) →
  yields (let! s := trimmedText last in let! n := parseInt s in ret (f n)) R.
Proof.
  intros HR. eapply yields_bind; [apply yields_trimmed|]. intros s _.
  eapply yields_then; [apply yields_parseInt|done].
Qed.

Lemma yields_meta : yields (p_meta last) (holds meta_ok).
Proof.
  apply yields_children; [done|]. intros el attrs [] _ Hm. unfold meta_turn, meta_ok in *. turn.
  1-3: apply yields_then_size; intros ? ?; fields_ok.
  eapply yields_then; [apply yields_Skip|done].
Qed.

Lemma yields_cred : yields (p_cred last) (holds cred_ok).
Proof.
  pose proof yields_meta. apply yields_children; [done|]. intros el attrs [] _ Hc.
  unfold cred_turn, cred_ok in *. turn.
Qed.

Lemma yields_chal : yields (p_chal last) (holds chal_ok).
Proof.
  pose proof yields_meta. apply yields_children; [done|]. intros el attrs [] _ Hc.
  unfold chal_turn, chal_ok in *. turn.
Qed.

Lemma yields_item : yields (p_item src last) (holds (item_with data_read)).
Proof.
  pose proof yields_meta. pose proof yields_locURI. apply yields_children; [done|].
  intros el attrs [] Ha Hi. unfold item_turn, item_with in *. turn.
Qed.

Lemma yields_header : yields (p_header last) (holds header_canon).
Proof.
  pose proof yields_meta. pose proof yields_cred. pose proof yields_location.
  apply yields_children; [done|]. intros el attrs [] Ha Hi.
  unfold header_turn, header_canon in *. turn.
Qed.
End fields.
#[export] Hint Resolve yields_meta yields_cred yields_chal yields_item yields_header : readers.

#[local] Arguments item_with : simpl never.
#[local] Arguments header_canon : simpl never.

(** ** Commands *)

Abbreviation command_read := (command_with_data data_read).

Section commands.
Context (src : string) (last : error).

Lemma yields_itemCommand isGet :
  yields (p_itemCommand src last isGet) (λ g, command_read (CGet g) = true).
Proof.
  apply yields_children; [done|]. intros el attrs [] Ha Hi. unfold itemCommand_turn.
  destruct isGet; turn.
Qed.

Lemma yields_exec : yields (p_exec src last) (λ c, command_read (CExec c) = true).
Proof. apply yields_children; [done|]. intros el attrs [] Ha Hi. unfold exec_turn. turn. Qed.

Lemma yields_alert : yields (p_alert src last) (λ c, command_read (CAlert c) = true).
Proof. apply yields_children; [done|]. intros el attrs [] Ha Hi. unfold alert_turn. turn. Qed.

Lemma data_read_trim d : data_read d = true →
  data_read (mkData (TrimSpace (Data_Value d)) (Data_XML d) (Data_OriginalError d)) = true ∧
  trimmed (TrimSpace (Data_Value d)) = true.
Proof.
  unfold data_read. destruct d as [v x o]. cbn [Data_Value Data_XML Data_OriginalError].
  intros E. apply andb_true_iff in E as [E Hx]. apply andb_true_iff in E as [Hv Ho].
  pose proof (trimmed_trim _ Hv) as Ht. rewrite (trimmed_chars _ Ht), Ho. split; [|done].
  apply orb_true_iff in Hx as [Hx|Hx]; [by rewrite Hx|]. btrue. subst v.
  by rewrite orb_true_r.
Qed.

Lemma yields_status : yields (p_status src last) (λ c, command_read (CStatus c) = true).
Proof.
  apply yields_children; [done|]. intros el attrs [] Ha Hi. unfold status_turn. turn.
  eapply yields_then; [by apply yields_data|]. intros d Hd. apply data_read_trim in Hd as [? ?].
  fields_ok.
Qed.

Lemma yields_results : yields (p_results src last) (λ c, command_read (CResults c) = true).
Proof. apply yields_children; [done|]. intros el attrs [] Ha Hi. unfold results_turn. turn. Qed.

(** The members of a group are commands a group may hold. *)
Definition group_read (g : Group) : bool :=
  trimmed (g_CmdID g) && opt_ok meta_ok (g_Meta g) &&
  forallb (λ c, is_member c && command_read c) (g_Commands g).

Definition reads_members (member : string → P Command) : Prop :=
  ∀ el, el ∈ memberNames → yields (member el) (λ c, is_member c && command_read c = true).

Lemma yields_group member :
  reads_members member →
  yields (children last (group_turn last member) (mkGroup "" false None [])) (holds group_read).
Proof.
  intros Hm. apply yields_children; [done|]. intros el attrs [] Ha Hg. unfold group_turn.
  unfold group_read in *. repeat case_decide; [turn..|].
  case_bool_decide; [|apply yields_unknown].
  eapply yields_then; [by apply Hm|]. intros c Hc. fields_ok.
Qed.

Lemma yields_command_with member name :
  reads_members member →
  yields (command_with src last member name) (λ c, command_read c = true ∧
    (name ∈ memberNames → is_member c = true)).
Proof.
  intros Hm. pose proof (yields_group member Hm) as Hg. unfold command_with.
  case_bool_decide; [apply yields_throw|].
  repeat case_decide; try apply yields_unknown;
    (eapply yields_then; [first [apply yields_itemCommand|apply yields_exec|apply yields_alert
      |apply yields_status|apply yields_results|exact Hg]|]).
  all: intros c Hc; split; [|intros Hin; try done; subst name; by set_solver].
  all: try destruct c; unfold group_read in *; fields_ok.
Qed.

Lemma yields_command_fuel fuel name :
  yields (command_fuel src last fuel name) (λ c, command_read c = true ∧
    (name ∈ memberNames → is_member c = true)).
Proof.
  revert name. induction fuel as [|fuel IH]; intros name; cbn [command_fuel];
    apply yields_command_with; intros el Hel; [apply yields_throw|].
  eapply yields_mono; [apply IH|]. intros c [Hc Hmem]. by rewrite Hc, Hmem.
Qed.

Lemma yields_command name : yields (p_command src last name) (holds command_read).
Proof. intros p p' c Hp E. apply yields_command_fuel in E as [? [? _]]; done. Qed.

Lemma yields_body msft : yields (p_body src last msft) (holds (body_canon data_read)).
Proof.
  apply yields_children; [done|]. intros el attrs [] Ha Hb. unfold body_turn.
  destruct Body_Final; [apply yields_throw|]. case_decide; [by apply yields_then_skip|].
  eapply yields_then; [apply yields_command|]. intros c Hc. unfold body_canon in *. fields_ok.
Qed.
End commands.

(** ** Messages *)

Lemma yields_message src last : yields (p_message src last) (holds (message_with data_read)).
Proof.
  intros p p' m Hp. unfold p_message.
  destruct (nextStart last p) as [p1 [[root attrs]|e]] eqn:En; [|done].
  apply next_start_ok in En as [Hp1 _]; [|done]. case_match; [done|]. case_match; [|done].
  clear p Hp. revert p1 p' m Hp1. apply (yields_bind _ _ (λ hb,
    opt_ok header_canon hb.1 = true ∧ opt_ok (body_canon data_read) hb.2 = true)).
  - apply yields_children; [done|]. intros el attrs' [hdr body] Ha [Hh Hb]. unfold message_turn.
    destruct (decide (el = "SyncHdr")); [destruct hdr; [apply yields_throw|]|].
    { eapply yields_then; [apply yields_header|]. intros h ?. by split. }
    destruct (decide (el = "SyncBody")); [destruct body; [apply yields_throw|]|apply yields_unknown].
    eapply yields_then; [apply yields_body|]. intros h ?. by split.
  - intros [hdr body] [Hh Hb]. eapply (yields_bind _ _ (λ _, True)); [by intros ? ? ? ? [= <- <-]|].
    intros q _. eapply (yields_bind _ _ (λ _, True)).
    { intros ? ? ? ? E. unfold lift in E. by simplify_eq. }
    intros _ _. apply yields_ret. unfold message_with. cbn in *.
    destruct hdr, body; cbn in *; by rewrite ?Hh, ?Hb.
Qed.

Section sound.
Context `{NameTables}.

Lemma Decode_read data opts m : Decode data opts = Ok m → message_with data_read m = true.
Proof.
  unfold Decode, run_parser. case_match; [done|].
  destruct (lex charsetReader _) as [toks last] eqn:El. apply lex_ok in El.
  destruct (p_message _ last _) as [p' [m'|e]] eqn:Em; simpl; [|by destruct (own_error e)].
  intros [= <-]. by eapply yields_message in Em as [_ ?].
Qed.
End sound.
