(* ===== verification/DecodeTheorems.v ===== *)
(** * The decoder's properties

    The round trips between the encoder and the decoder: for messages, for the
    fragments a store keeps, and for every message the decoder accepts. *)
From stdpp Require Import base gmap strings list.
From Stdlib Require Import ZArith Lia Ascii.
From S2P Require Import Prelude GoStrings SyncmlModel Response Encode Utf8 GoXml XmlLex.
From S2P Require Import Decode DecodeTotal DecodeSafe DecodeProofs DecodeSound.

Local Open Scope Z_scope.

(** ** Combining conditions on data *)

Section combine.
Context (p q r : Data → bool).
Hypothesis pqr : ∀ d, p d = true → q d = true → r d = true.

Lemma item_combine it : item_with p it = true → item_with q it = true → item_with r it = true.
Proof.
  unfold item_with. destruct (Item_Data it); cbn; intros; btrue; repeat match goal with
    |- (_ && _)%bool = true => apply andb_true_intro; split end; auto.
Qed.

Lemma items_combine its :
  forallb (item_with p) its = true → forallb (item_with q) its = true →
  forallb (item_with r) its = true.
Proof. induction its; cbn; intros; btrue; [done|]. rewrite item_combine; auto. Qed.

Lemma command_combine c :
  command_with_data p c = true → command_with_data q c = true → command_with_data r c = true.
Proof.
  induction c as [n|n|n|n|n|n|i nr m cs IH|i nr m cs IH|n|n] using Command_nested_ind;
    cbn [command_with_data]; try destruct n; intros; btrue; repeat match goal with
    |- (_ && _)%bool = true => apply andb_true_intro; split end; auto using items_combine.
  all: induction IH as [|c cs Hc _ IH']; simpl in *; btrue; [done|].
  all: rewrite Hc by done; rewrite andb_true_r; apply andb_true_intro; auto.
Qed.
End combine.

Lemma command_mono (p r : Data → bool) c :
  (∀ d, p d = true → r d = true) → command_with_data p c = true → command_with_data r c = true.
Proof. intros Hpr Hc. eapply command_combine; [|exact Hc|exact Hc]. auto. Qed.

(** A datum without markup. *)
Definition plain (d : Data) : bool := bool_decide (Data_XML d = "").

Lemma data_read_clean d : data_read d = true → data_conflict d = false.
Proof.
  unfold data_read, data_conflict, nonempty. intros E. apply andb_true_iff in E as [_ E].
  apply orb_true_iff in E as [E|E]; apply bool_decide_eq_true in E; rewrite E; [|done].
  by rewrite andb_false_r.
Qed.

Lemma data_read_plain d : data_read d = true → plain d = true → data_ok d = true.
Proof. unfold data_read, plain, data_ok. intros Hr Hp. rewrite Hp. btrue. by repeat (apply andb_true_iff; split). Qed.

Section theorems.
Context `{NameTables}.

Lemma Marshal_render m (dok : Data → bool) :
  (∀ d, dok d = true → data_conflict d = false) → message_with dok m = true →
  Marshal m = Ok (render "" 0 (x_message m)).
Proof.
  intros Hd Hm. unfold Marshal. rewrite Encode_render. unfold message_with, body_canon in Hm. btrue.
  unfold body_clean. erewrite forallb_mono; [done|by apply command_with_clean|done].
Qed.

Lemma Unmarshal_render m :
  message_canon m = true → len (render "" 0 (x_message m)) ≤ DefaultMaxSize →
  Unmarshal (render "" 0 (x_message m)) =
  Ok (mkMessage (wire_namespace m) (Msg_Header m) (Msg_Body m)).
Proof. intros Hm Hlen. by apply (Decode_Encode m (mkDecodeOptions 0)). Qed.

Lemma message_plain m :
  message_with data_read m = true → message_with plain m = true → message_canon m = true.
Proof.
  unfold message_with, body_canon. intros. btrue. apply andb_true_iff. split; [done|].
  rewrite forallb_forall in *. intros c Hc. eapply command_combine; [apply data_read_plain|..]; auto.
Qed.

(** C34: A canonical message survives the wire: Marshal succeeds, and Unmarshal
    of what it wrote gives back the same header and body, commands, groups,
    items and flags included, with the name space written out. *)
Theorem decode_encode m :
  message_canon m = true →
  ∃ b, Marshal m = Ok b ∧
    (len b ≤ DefaultMaxSize →
     Unmarshal b = Ok (mkMessage (wire_namespace m) (Msg_Header m) (Msg_Body m))).
Proof.
  intros Hm. eexists. split; [by eapply Marshal_render, Hm; apply data_ok_clean|].
  by apply Unmarshal_render.
Qed.

(** A canonical command survives a store that keeps it as a fragment, as
    the SQL queue does: DecodeCommand of what EncodeCommand wrote is the same
    command. *)
Theorem stored_command_roundtrip c :
  command_canon c = true →
  ∃ b, EncodeCommand c (mkEncodeOptions "" false) = Ok b ∧
    (len b ≤ DefaultMaxSize → DecodeCommand b = Ok c).
Proof.
  intros Hc. exists (render "" 0 (x_command c)). split; [|by apply DecodeCommand_render].
  unfold EncodeCommand, run_writer.
  pose proof (writes_command c (mkWriter "" "" 0) ltac:(simpl; lia)) as Hw.
  rewrite (command_with_clean data_ok data_ok_clean c Hc) in Hw. cbn [eo_Indent]. rewrite Hw. simpl.
  by rewrite render_all_one, str_app_nil_l.
Qed.

(** C35: Whatever Decode accepts is canonical: identifiers are trimmed XML text,
    sizes lie in 0 to 2^63-1, groups hold no Status or Results, and no datum has
    both a value and markup; so Marshal always succeeds on it, and, unless
    some datum is markup, decoding the result gives the message again. *)
Theorem decoded_reencodes data opts m :
  Decode data opts = Ok m →
  message_with data_read m = true ∧
  ∃ b, Marshal m = Ok b ∧
    (message_with plain m = true → len b ≤ DefaultMaxSize →
     Unmarshal b = Ok (mkMessage (wire_namespace m) (Msg_Header m) (Msg_Body m))).
Proof.
  intros E. apply Decode_read in E. split; [done|]. eexists. split.
  - eapply Marshal_render, E. apply data_read_clean.
  - intros Hp. by apply Unmarshal_render, message_plain.
Qed.
End theorems.

(** ** Witnesses *)

Definition sample_item : Item :=
  mkItem "./Vendor/MSFT/Policy/Config/A" "" (Some (mkMeta "chr" "text/plain" "" 0 "" 0 0))
    (Some (mkData " a<b & c " "" "")) false.
Definition sample_command : Command :=
  CAtomic "2" false None
    [CReplace (mkReplace "3" false None None [sample_item]);
     CGet (mkGet "4" false "" None None [mkItem "./DevDetail/SwV" "" None None false])].
Definition sample_message : Message :=
  mkMessage "" (mkHeader "1.2" "DM/1.2" "7" "1" (mkLocation "https://mdm" "") (mkLocation "dev" "user")
      "" false None None)
    (mkBody [CStatus (mkStatus "1" "1" "0" "SyncHdr" [] [] None None (mkData "212" "" "") []);
             sample_command] true true).

Lemma decode_encode_witness :
  message_canon sample_message = true ∧
  ∃ b, Marshal sample_message = Ok b ∧
    (len b ≤ DefaultMaxSize →
     @Unmarshal ascii_names b = Ok (mkMessage NamespaceSyncML12 (Msg_Header sample_message)
       (Msg_Body sample_message))).
Proof.
  assert (message_canon sample_message = true) as Hm by (vm_compute; reflexivity).
  split; [exact Hm|]. exact (@decode_encode ascii_names sample_message Hm).
Defined.

Lemma stored_command_roundtrip_witness :
  command_canon sample_command = true ∧
  ∃ b, EncodeCommand sample_command (mkEncodeOptions "" false) = Ok b ∧
    (len b ≤ DefaultMaxSize → @DecodeCommand ascii_names b = Ok sample_command).
Proof.
  assert (command_canon sample_command = true) as Hc by (vm_compute; reflexivity).
  split; [exact Hc|]. exact (@stored_command_roundtrip ascii_names sample_command Hc).
Defined.

(** A document as a client may send it: indented, with a comment, a CDATA
    section and an unknown Meta element. *)
Definition sample_document : string :=
  "<SyncML xmlns='SYNCML:SYNCML1.2'> <SyncHdr><VerDTD> 1.2 </VerDTD></SyncHdr> " +:+
  "<SyncBody><!-- c --><Add><CmdID>1</CmdID><Item><Meta><X><Y/></X></Meta>" +:+
  "<Data><![CDATA[<a>]]></Data></Item></Add><Final/></SyncBody></SyncML>".
Definition sample_decoded : Message :=
  mkMessage "SYNCML:SYNCML1.2"
    (mkHeader "1.2" "" "" "" Location0 Location0 "" false None None)
    (mkBody [CAdd (mkAdd "1" false None None
      [mkItem "" "" (Some Meta0) (Some (mkData "<a>" "" "")) false])] true false).

Lemma decoded_reencodes_witness :
  @Decode ascii_names sample_document (mkDecodeOptions 0) = Ok sample_decoded ∧
  message_with data_read sample_decoded = true ∧
  ∃ b, Marshal sample_decoded = Ok b ∧
    (message_with plain sample_decoded = true → len b ≤ DefaultMaxSize →
     @Unmarshal ascii_names b = Ok (mkMessage "SYNCML:SYNCML1.2" (Msg_Header sample_decoded)
       (Msg_Body sample_decoded))).
Proof.
  assert (@Decode ascii_names sample_document (mkDecodeOptions 0) = Ok sample_decoded) as E
    by (vm_compute; reflexivity).
  split; [exact E|].
  exact (@decoded_reencodes ascii_names sample_document (mkDecodeOptions 0) sample_decoded E).
Defined.
