(* ===== verification/Csp.v ===== *)
(** * CSP trees

    schema/csp/model.go and registry.go: the node tree of a configuration
    service provider, the resolution of a URI in one tree and across a
    registry, concrete URIs, and inherited applicability.

    A [*Node] of a tree is known by its position, the indices of the children
    from the root down to it: every node of a tree is a value of its own.
    Names, titles and URIs of trees are ASCII, as in the generated packages;
    the folding of [GoStrings] is exact for those. *)
From stdpp Require Import base gmap strings list.
From Stdlib Require Import ZArith Lia Ascii.
From S2P Require Import Prelude GoStrings GoUrl.

Local Open Scope Z_scope.

(** ** Data *)

(** [type Scope string], [Format], [Access], [NamingKind], [ValueType] *)
Definition CspScope := string.
Definition CScopeDevice : CspScope := "Device".
Definition CScopeUser : CspScope := "User".
Definition CScopeLegacy : CspScope := "Legacy".

Definition Format := string.
Definition FormatNode : Format := "node".
Definition FormatChr : Format := "chr".
Definition FormatInt : Format := "int".
Definition FormatBool : Format := "bool".
Definition FormatB64 : Format := "b64".
Definition FormatNull : Format := "null".
Definition FormatXML : Format := "xml".
Definition FormatBin : Format := "bin".
Definition FormatTime : Format := "time".
Definition FormatDate : Format := "date".
Definition FormatFloat : Format := "float".

Definition Access := string.
Definition AccessAdd : Access := "Add".
Definition AccessDelete : Access := "Delete".
Definition AccessExec : Access := "Exec".
Definition AccessGet : Access := "Get".
Definition AccessReplace : Access := "Replace".

Definition NamingKind := string.
Definition NamingUnspecified : NamingKind := "".
Definition NamingUniqueName : NamingKind := "UniqueName".
Definition NamingClientInventory : NamingKind := "ClientInventory".
Definition NamingServerGeneratedUniqueIdentifier : NamingKind := "ServerGeneratedUniqueIdentifier".

Definition ValueType := string.
Definition ValueTypeNone : ValueType := "None".
Definition ValueTypeEnum : ValueType := "ENUM".
Definition ValueTypeFlag : ValueType := "Flag".
Definition ValueTypeRange : ValueType := "Range".
Definition ValueTypeRegEx : ValueType := "RegEx".
Definition ValueTypeXSD : ValueType := "XSD".
Definition ValueTypeADMX : ValueType := "ADMX".
Definition ValueTypeSDDL : ValueType := "SDDL".
Definition ValueTypeJSON : ValueType := "JSON".

Record Naming := mkNaming { nm_Kind : NamingKind; nm_Pattern : string }.

Record Applicability := mkApplicability {
  ap_OsBuildVersions : list string;
  ap_CspVersion : string;
  ap_EditionAllowList : list string;
  ap_RequiresAzureAd : bool }.

Record EnumValue := mkEnumValue { ev_Value : string; ev_Description : string }.
Record ADMX := mkADMX { admx_Area : string; admx_Name : string; admx_File : string }.

Record AllowedValues := mkAllowedValues {
  av_Type : ValueType;
  av_Value : string;
  av_Enum : list EnumValue;
  av_ADMX : option ADMX;
  av_ListDelimiter : string }.

Record GpMapping := mkGpMapping {
  gp_EnglishName : string; gp_AreaPath : string; gp_Element : string }.

Record Deprecated := mkDeprecated { dep_OsBuildDeprecated : string }.

Record Dependency := mkDependency {
  dy_Type : string; dy_URI : string; dy_ValueType : ValueType; dy_Value : string;
  dy_Enum : list EnumValue }.

Record DependencyGroup := mkDependencyGroup {
  dg_FriendlyID : string;
  dg_ChangedAllowedValues : option AllowedValues;
  dg_Dependencies : list Dependency }.

Inductive Node : Type := mkNode {
  n_Name : string;
  n_Title : string;
  n_URI : string;
  n_Format : Format;
  n_Access : list Access;
  n_Description : string;
  n_Default : string;
  n_Occurrence : string;
  n_Permanent : bool;
  n_MIME : string;
  n_CaseSensitive : bool;
  n_Dynamic : bool;
  n_Naming : Naming;
  n_Applicability : option Applicability;
  n_OwnApplicability : bool;
  n_AllowedValues : option AllowedValues;
  n_GpMapping : option GpMapping;
  n_ConflictResolution : string;
  n_ReplaceBehavior : string;
  n_RebootBehavior : string;
  n_AtomicRequired : bool;
  n_Deprecated : option Deprecated;
  n_Dependencies : list DependencyGroup;
  n_Children : list Node }.

Record Tree := mkTree {
  t_Name : string;
  t_File : string;
  t_Scope : CspScope;
  t_PolicyArea : bool;
  t_Root : Node }.

(** ** Nodes *)

Definition Leaf (n : Node) : bool := negb (bool_decide (n_Format n = FormatNode)).

Definition Allows (n : Node) (a : Access) : bool := existsb (λ x, bool_decide (x = a)) (n_Access n).

(** [Walk], its function with the state it closes over. *)
Fixpoint Walk {S} (fn : Node → S → S * bool) (n : Node) (s : S) : S * bool :=
  let '(s, ok) := fn n s in
  if negb ok then (s, false)
  else
    (fix go (cs : list Node) (s : S) : S * bool :=
       match cs with
       | [] => (s, true)
       | c :: cs => let '(s, ok) := Walk fn c s in if negb ok then (s, false) else go cs s
       end) (n_Children n) s.

Definition Nodes (t : Tree) : list Node :=
  (Walk (λ n out, (out ++ [n], true)) (t_Root t) []).1.

(** ** Segments *)

Definition TrimSuffix_byte (c : ascii) (s : string) : string :=
  match srev s with
  | String d r => if Ascii.eqb d c then srev r else s
  | EmptyString => s
  end.

Definition unescape_segment (p : string) : string := default p (PathUnescape p).

Definition Segments (uri : string) : list string :=
  let uri := match cut_byte "?" uri with Some (u, _) => u | None => uri end in
  map unescape_segment
    (filter (λ p, p ≠ "") (split_byte "/" (TrimSuffix_byte "/" uri))).

(** ** Lookup in a tree *)

Record Match := mkMatch {
  m_Node : Node;
  m_pos : list nat;
  m_Params : gmap string string }.

(** The first child that satisfies [p], with its index. *)
Fixpoint pick (p : Node → bool) (i : nat) (cs : list Node) : option (nat * Node) :=
  match cs with
  | [] => None
  | c :: cs => if p c then Some (i, c) else pick p (S i) cs
  end.

Definition names_child (seg : string) (c : Node) : bool :=
  negb (n_Dynamic c) &&
  (if n_CaseSensitive c then bool_decide (n_Name c = seg) else EqualFold seg (n_Name c)).

(** One segment: a static child before the dynamic one. *)
Definition lookup_child (n : Node) (seg : string) (params : gmap string string)
    : option (nat * Node * gmap string string) :=
  match pick (names_child seg) 0 (n_Children n) with
  | Some (i, c) => Some (i, c, params)
  | None =>
      match pick n_Dynamic 0 (n_Children n) with
      | Some (i, c) => Some (i, c, <[n_Title c := seg]> params)
      | None => None
      end
  end.

Fixpoint descend (n : Node) (pos : list nat) (params : gmap string string) (segs : list string)
    : option Match :=
  match segs with
  | [] => Some (mkMatch n pos params)
  | seg :: segs =>
      match lookup_child n seg params with
      | Some (i, c, params) => descend c (pos ++ [i]) params segs
      | None => None
      end
  end.

(** A legacy root matches with or without ./Device. *)
Definition lookup_segments (t : Tree) (segs : list string) : list string :=
  match segs with
  | s0 :: s1 :: rest =>
      if bool_decide (t_Scope t = CScopeLegacy) && EqualFold s1 "Device" then s0 :: rest else segs
  | _ => segs
  end.

(** The segments below the root, when the root is a prefix. *)
Fixpoint below_root (root segs : list string) : option (list string) :=
  match root, segs with
  | [], _ => Some segs
  | r :: root, s :: segs => if EqualFold s r then below_root root segs else None
  | _, [] => None
  end.

Definition Tree_Lookup (t : Tree) (uri : string) : option Match :=
  match below_root (Segments (n_URI (t_Root t))) (lookup_segments t (Segments uri)) with
  | Some segs => descend (t_Root t) [] ∅ segs
  | None => None
  end.

(** ** Concrete URIs *)

(** The title of a placeholder segment. *)
Definition placeholder (s : string) : option string :=
  if (2 <? len s) && bool_decide (sget 0 s = Some "{"%char) &&
     bool_decide (sget (String.length s - 1) s = Some "}"%char)
  then Some (stake (String.length s - 2) (sdrop 1 s)) else None.

Definition concrete_segment (params : gmap string string) (s : string) : string :=
  match placeholder s with
  | Some title => match params !! title with Some v => PathEscape v | None => s end
  | None => s
  end.

Definition Concrete (n : Node) (params : gmap string string) : string :=
  join_byte "/" (map (concrete_segment params) (split_byte "/" (n_URI n))).

(** ** Inherited applicability *)

Definition set_applicability (a : option Applicability) (cs : list Node) (n : Node) : Node :=
  mkNode (n_Name n) (n_Title n) (n_URI n) (n_Format n) (n_Access n) (n_Description n)
    (n_Default n) (n_Occurrence n) (n_Permanent n) (n_MIME n) (n_CaseSensitive n) (n_Dynamic n)
    (n_Naming n) a (n_OwnApplicability n) (n_AllowedValues n) (n_GpMapping n)
    (n_ConflictResolution n) (n_ReplaceBehavior n) (n_RebootBehavior n) (n_AtomicRequired n)
    (n_Deprecated n) (n_Dependencies n) cs.

Fixpoint inherit_walk (inherited : option Applicability) (n : Node) : Node :=
  let a := match n_Applicability n with None => inherited | Some a => Some a end in
  set_applicability a (map (inherit_walk a) (n_Children n)) n.

Definition Inherit (t : Tree) : Tree :=
  mkTree (t_Name t) (t_File t) (t_Scope t) (t_PolicyArea t) (inherit_walk None (t_Root t)).
