(* ===== verification/CspProofs.v ===== *)
(** * Resolving concrete URIs

    Concrete and Lookup are inverse on well-formed trees; Inherit gives every
    node the applicability of its nearest ancestor that has one. *)
From stdpp Require Import base gmap strings list.
From Stdlib Require Import ZArith Lia Ascii.
From S2P Require Import Prelude GoStrings GoUrl Csp.

Local Open Scope Z_scope.

(** ** Positions *)

(** The nodes from below [n] down to the one at [pos]. *)
Fixpoint trail (n : Node) (pos : list nat) : option (list Node) :=
  match pos with
  | [] => Some []
  | i :: pos =>
      match n_Children n !! i with
      | Some c => option_map (cons c) (trail c pos)
      | None => None
      end
  end.

Definition node_at (n : Node) (pos : list nat) : option Node :=
  option_map (λ cs, List.last cs n) (trail n pos).

(** ** Well-formed trees *)

(** A node's segment in a URI template. *)
Definition template (c : Node) : string :=
  if n_Dynamic c then "{" +:+ n_Title c +:+ "}" else n_Name c.

(** Text that stands for itself in a segment. *)
Definition segment_ok (s : string) : bool :=
  nonempty s && negb (contains_byte "/" s) && negb (contains_byte "?" s) &&
  negb (contains_byte "%" s) && bool_decide (placeholder s = None).

Definition child_ok (n c : Node) : bool :=
  bool_decide (n_URI c = n_URI n +:+ "/" +:+ template c) &&
  (if n_Dynamic c then nonempty (n_Title c) && negb (contains_byte "/" (n_Title c))
   else segment_ok (n_Name c)).

(** No two static children answer to the same name, and one child at most is
    dynamic. *)
Fixpoint siblings_ok (cs : list Node) : bool :=
  match cs with
  | [] => true
  | c :: cs =>
      forallb (λ d, negb (n_Dynamic c && n_Dynamic d) &&
                    (n_Dynamic d || negb (names_child (n_Name d) c))) cs && siblings_ok cs
  end.

Fixpoint node_ok (n : Node) : bool :=
  forallb (child_ok n) (n_Children n) && siblings_ok (n_Children n) &&
  forallb node_ok (n_Children n).

Definition tree_ok (t : Tree) : bool :=
  forallb segment_ok (split_byte "/" (n_URI (t_Root t))) &&
  bool_decide (lookup_segments t (split_byte "/" (n_URI (t_Root t))) =
               split_byte "/" (n_URI (t_Root t))) &&
  (2 <=? Z.of_nat (length (split_byte "/" (n_URI (t_Root t))))) &&
  node_ok (t_Root t).

(** Values for the dynamic nodes on a path: given, not empty, and not the name
    of a static sibling. *)
Fixpoint fits (params : gmap string string) (n : Node) (pos : list nat) : bool :=
  match pos with
  | [] => true
  | i :: pos =>
      match n_Children n !! i with
      | Some c =>
          (if n_Dynamic c then
             match params !! n_Title c with
             | Some v => nonempty v && bool_decide (pick (names_child v) 0 (n_Children n) = None)
             | None => false
             end
           else true) && fits params c pos
      | None => false
      end
  end.

(** ** Placeholders *)

Lemma sget_last s c : sget (String.length s) (s +:+ String c "") = Some c.
Proof. unfold sget. by induction s. Qed.

Lemma placeholder_braces title : title ≠ "" → placeholder ("{" +:+ title +:+ "}") = Some title.
Proof.
  intros Ht. unfold placeholder. rewrite str_app_cons, str_app_nil_l.
  assert (String.length (String "{" (title +:+ "}")) = S (S (String.length title))) as Hl.
  { simpl. rewrite str_length_app. simpl. lia. }
  unfold len. rewrite Hl. replace (2 <? Z.of_nat _) with true; last first.
  { symmetry. apply Z.ltb_lt. destruct title; [done|]. simpl. lia. }
  replace (S (S (String.length title)) - 1)%nat with (S (String.length title)) by lia.
  replace (S (S (String.length title)) - 2)%nat with (String.length title) by lia.
  cbn [sget String.get andb]. rewrite bool_decide_eq_true_2 by done.
  pose proof (sget_last title "}") as Hg. unfold sget in Hg |- *. cbn [String.get].
  rewrite Hg, bool_decide_eq_true_2 by done. cbn [andb sdrop]. by rewrite stake_app.
Qed.

(** ** Segments of a joined URI *)

Lemma split_TrimSuffix c u :
  filter (λ p, p ≠ "") (split_byte c (TrimSuffix_byte c u)) =
  filter (λ p, p ≠ "") (split_byte c u).
Proof.
  unfold TrimSuffix_byte. destruct (srev u) as [|d r] eqn:E; [done|].
  destruct (Ascii.eqb_spec d c) as [->|]; [|done].
  rewrite <- (srev_srev u), E, srev_cons, split_byte_mid, filter_app. cbn.
  by rewrite app_nil_r.
Qed.

Definition part_ok (p : string) : Prop :=
  p ≠ "" ∧ contains_byte "/" p = false ∧ contains_byte "?" p = false.

Lemma Segments_join l :
  l ≠ [] → Forall part_ok l → Segments (join_byte "/" l) = map unescape_segment l.
Proof.
  intros Hne Hl. unfold Segments. rewrite cut_byte_None.
  2: { apply contains_join; [done|]. eapply Forall_impl; [exact Hl|]. by intros p (_ & _ & ?). }
  rewrite split_TrimSuffix, split_join; [|done|].
  2: { eapply Forall_impl; [exact Hl|]. by intros p (_ & ? & _). }
  f_equal. clear Hne. induction Hl as [|p l (Hp & _) _ IH]; [done|].
  rewrite filter_cons_True by done. by rewrite IH.
Qed.

(** ** Templates *)

Lemma segment_ok_part s :
  segment_ok s = true → part_ok s ∧ unescape_segment s = s ∧ placeholder s = None.
Proof.
  unfold segment_ok, nonempty. intros E. btrue. split; [done|]. split; [|done].
  unfold unescape_segment. by rewrite PathUnescape_id.
Qed.

Lemma segments_ok_parts params root :
  forallb segment_ok root = true →
  Forall part_ok root ∧ map (concrete_segment params) root = root ∧
  map unescape_segment root = root.
Proof.
  induction root as [|p l IH]; [done|]. cbn [forallb]. intros E. btrue.
  destruct IH as (H1 & H2 & H3); [done|]. destruct (segment_ok_part p) as (P1 & P2 & P3); [done|].
  simpl. unfold concrete_segment at 1. rewrite P2, P3, H2, H3. split; [by constructor|done].
Qed.

(** The segments of a plain URI. *)
Lemma Segments_plain uri :
  forallb segment_ok (split_byte "/" uri) = true → Segments uri = split_byte "/" uri.
Proof.
  intros Hu. destruct (segments_ok_parts ∅ _ Hu) as (Hp & _ & E).
  rewrite <- (join_split "/" uri) at 1. rewrite Segments_join; [done| |done].
  apply split_byte_nonnil.
Qed.

Lemma template_no_slash n c : child_ok n c = true → contains_byte "/" (template c) = false.
Proof.
  unfold child_ok, template. intros E. btrue. destruct (n_Dynamic c).
  - btrue. rewrite !contains_byte_app. rewrite H1. done.
  - by apply segment_ok_part in H0 as [(_ & ? & _) _].
Qed.

Lemma last_cons_default {A} (c n : A) cs : List.last (c :: cs) n = List.last cs c.
Proof.
  revert c n. induction cs as [|d cs IH]; intros c n; [done|].
  change (List.last (d :: cs) n = List.last (d :: cs) c). by rewrite !IH.
Qed.

(** The template of a node is its root's followed by the trail's. *)
Lemma split_URI n pos cs :
  node_ok n = true → trail n pos = Some cs →
  split_byte "/" (n_URI (List.last cs n)) = split_byte "/" (n_URI n) ++ map template cs.
Proof.
  revert n cs. induction pos as [|i pos IH]; intros n cs Hn; simpl.
  { intros [= <-]. by rewrite app_nil_r. }
  destruct (n_Children n !! i) as [c|] eqn:Ec; [|done].
  destruct (trail c pos) as [cs'|] eqn:Et; [|done]. intros [= <-].
  assert (child_ok n c = true ∧ node_ok c = true) as [Hc Hnc].
  { destruct n; simpl in *. btrue. rewrite !forallb_forall in *.
    apply list_elem_of_lookup_2, list_elem_of_In in Ec. auto. }
  rewrite last_cons_default.
  rewrite (IH c cs') by done. simpl.
  assert (n_URI c = n_URI n +:+ String "/" (template c)) as ->.
  { unfold child_ok in Hc. btrue. match goal with H : n_URI c = _ |- _ => rewrite H end. done. }
  rewrite split_byte_mid, (split_byte_none "/" (template c)) by (by eapply template_no_slash).
  by rewrite <- app_assoc.
Qed.

(** The segments a trail is looked up by. *)
Definition value_of (params : gmap string string) (c : Node) : string :=
  if n_Dynamic c then default "" (params !! n_Title c) else n_Name c.

Lemma concrete_trail params n pos cs :
  node_ok n = true → fits params n pos = true → trail n pos = Some cs →
  Forall part_ok (map (concrete_segment params) (map template cs)) ∧
  map unescape_segment (map (concrete_segment params) (map template cs)) =
  map (value_of params) cs.
Proof.
  revert n cs. induction pos as [|i pos IH]; intros n cs Hn Hf; simpl; [by intros [= <-]|].
  cbn [fits] in Hf. destruct (n_Children n !! i) as [c|] eqn:Ec; [|done].
  destruct (trail c pos) as [cs'|] eqn:Et; [|done]. intros [= <-].
  assert (child_ok n c = true ∧ node_ok c = true) as [Hc Hnc].
  { destruct n; simpl in *. btrue. rewrite !forallb_forall in *.
    apply list_elem_of_lookup_2, list_elem_of_In in Ec. auto. }
  apply andb_true_iff in Hf as [Hv Hf]. destruct (IH c cs' Hnc Hf Et) as [Hp Hu]. simpl.
  assert (part_ok (concrete_segment params (template c)) ∧
    unescape_segment (concrete_segment params (template c)) = value_of params c) as [P1 P2];
    [|rewrite P2, Hu; split; [by constructor|done]].
  unfold child_ok in Hc. apply andb_true_iff in Hc as [_ Hc].
  unfold template, value_of, concrete_segment. destruct (n_Dynamic c).
  - btrue. unfold nonempty in *. btrue. rewrite placeholder_braces by done.
    destruct (params !! n_Title c) as [v|]; [|done]. btrue. split.
    + pose proof (PathEscape_plain v) as Hpl. unfold url_plain in Hpl.
      split; [by apply PathEscape_nonempty|]. unfold contains_byte, str_exists.
      split; apply negb_false_iff; eapply str_forall_impl; try exact Hpl; intros d Hd;
        cbv beta in Hd; btrue; rewrite Ascii.eqb_sym; by apply negb_true_iff.
    + unfold unescape_segment. by rewrite PathUnescape_Escape.
  - by apply segment_ok_part in Hc as (Hc & Hun & ->).
Qed.

(** ** Looking the trail up *)

Lemma pick_spec p i cs k c :
  pick p i cs = Some (k, c) ↔
  ∃ j, k = (i + j)%nat ∧ cs !! j = Some c ∧ p c = true ∧ ∀ j' d, (j' < j)%nat → cs !! j' = Some d → p d = false.
Proof.
  revert i. induction cs as [|d cs IH]; intros i; simpl.
  { split; [done|]. by intros (j & _ & ? & _). }
  destruct (p d) eqn:Ep.
  - split.
    + intros [= <- <-]. exists 0%nat. split; [lia|]. split; [done|]. split; [done|]. intros; lia.
    + intros (j & -> & Hj & Hc & Hmin). destruct j as [|j]; [simplify_eq/=; by rewrite Nat.add_0_r|].
      by rewrite (Hmin 0%nat d) in Ep by (lia || done).
  - rewrite IH. split.
    + intros (j & -> & Hj & Hc & Hmin). exists (S j). split; [lia|]. split; [done|]. split; [done|].
      intros [|j'] d' Hlt Hd; [by simplify_eq/=|]. eapply (Hmin j'); [lia|done].
    + intros ([|j] & -> & Hj & Hc & Hmin); [simplify_eq/=; congruence|]. exists j. split; [lia|].
      split; [done|]. split; [done|]. intros j' d' Hlt Hd. by apply (Hmin (S j') d'); [lia|].
Qed.

Lemma siblings_lookup cs j k c d :
  siblings_ok cs = true → (j < k)%nat → cs !! j = Some c → cs !! k = Some d →
  n_Dynamic c && n_Dynamic d = false ∧
  (n_Dynamic d = false → names_child (n_Name d) c = false).
Proof.
  revert j k. induction cs as [|b cs IH]; intros j k Hs Hlt Hc Hd; [done|].
  cbn [siblings_ok] in Hs. apply andb_true_iff in Hs as [Hb Hs].
  destruct j as [|j]; [|destruct k as [|k]; [lia|]; eapply (IH j k); [done|lia|done..]].
  injection Hc as ->. destruct k as [|k]; [lia|]. simpl in Hd. rewrite forallb_forall in Hb.
  apply list_elem_of_lookup_2, list_elem_of_In in Hd. specialize (Hb d Hd). cbv beta in Hb.
  apply andb_true_iff in Hb as [H1 H2]. apply negb_true_iff in H1. split; [done|].
  intros Hnd. rewrite Hnd in H2. by apply negb_true_iff.
Qed.

Lemma names_child_self c : n_Dynamic c = false → names_child (n_Name c) c = true.
Proof.
  intros Hc. unfold names_child. rewrite Hc. simpl. case_match; [by apply bool_decide_eq_true_2|].
  apply EqualFold_refl.
Qed.

(** The value of a child leads to the child. *)
Lemma lookup_child_value params ps n i c :
  node_ok n = true → n_Children n !! i = Some c → fits params n [i] = true →
  lookup_child n (value_of params c) ps =
  Some (i, c, if n_Dynamic c then <[n_Title c := value_of params c]> ps else ps).
Proof.
  intros Hn Hc Hf. cbn [fits] in Hf. rewrite Hc, andb_true_r in Hf.
  assert (siblings_ok (n_Children n) = true) as Hs by (destruct n; simpl in *; by btrue).
  unfold lookup_child, value_of in *. destruct (n_Dynamic c) eqn:Ed.
  - destruct (params !! n_Title c) as [v|]; [|done]. btrue. simpl.
    match goal with H : pick _ _ _ = None |- _ => rewrite H end.
    assert (pick n_Dynamic 0 (n_Children n) = Some (i, c)) as ->; [|done].
    apply pick_spec. exists i. split_and!; [done..|]. intros j d Hj Hd.
    destruct (siblings_lookup _ j i d c Hs Hj Hd Hc) as [Hdd _]. by rewrite Ed, andb_true_r in Hdd.
  - assert (pick (names_child (n_Name c)) 0 (n_Children n) = Some (i, c)) as ->; [|done].
    apply pick_spec. exists i. split_and!; [done..|by apply names_child_self|].
    intros j d Hj Hd. by destruct (siblings_lookup _ j i d c Hs Hj Hd Hc) as [_ ->].
Qed.

(** [fits] step by step. *)
Lemma fits_cons params n i pos :
  fits params n (i :: pos) = true →
  fits params n [i] = true ∧ ∀ c, n_Children n !! i = Some c → fits params c pos = true.
Proof.
  cbn [fits]. destruct (n_Children n !! i) as [c|]; [|done]. intros E. apply andb_true_iff in E as [? ?].
  rewrite andb_true_r. split; [done|]. by intros ? [= <-].
Qed.

(** The parameters captured along a trail. *)
Definition capture (params : gmap string string) (ps : gmap string string) (cs : list Node)
    : gmap string string :=
  foldl (λ ps c, if n_Dynamic c then <[n_Title c := value_of params c]> ps else ps) ps cs.

Lemma descend_trail params n pos cs acc ps :
  node_ok n = true → fits params n pos = true → trail n pos = Some cs →
  descend n acc ps (map (value_of params) cs) =
  Some (mkMatch (List.last cs n) (acc ++ pos) (capture params ps cs)).
Proof.
  revert n cs acc ps. induction pos as [|i pos IH]; intros n cs acc ps Hn Hf; cbn [trail].
  { intros [= <-]. by rewrite app_nil_r. }
  apply fits_cons in Hf as [Hi Hf]. destruct (n_Children n !! i) as [c|] eqn:Ec; [|done].
  specialize (Hf c eq_refl). destruct (trail c pos) as [cs'|] eqn:Et; [|done]. intros [= <-].
  cbn [map descend]. rewrite (lookup_child_value params ps n i c) by done.
  assert (node_ok c = true) as Hnc.
  { destruct n; simpl in *. btrue. rewrite !forallb_forall in *.
    apply list_elem_of_lookup_2, list_elem_of_In in Ec. auto. }
  rewrite (IH c cs') by done. rewrite last_cons_default, <- app_assoc. done.
Qed.

Lemma below_root_app root segs : below_root root (root ++ segs) = Some segs.
Proof. induction root as [|r root IH]; [done|]. simpl. by rewrite EqualFold_refl. Qed.

Lemma capture_spec params cs ps :
  Forall (λ c, n_Dynamic c = true → is_Some (params !! n_Title c)) cs → ps ⊆ params →
  capture params ps cs ⊆ params ∧
  Forall (λ c, n_Dynamic c = true →
    capture params ps cs !! n_Title c = params !! n_Title c) cs ∧ ps ⊆ capture params ps cs.
Proof.
  intros Hcs. revert ps. induction Hcs as [|c cs Hc Hcs IH]; intros ps Hps; [done|].
  unfold capture. cbn [foldl]. fold (capture params).
  set (ps' := if n_Dynamic c then <[n_Title c:=value_of params c]> ps else ps).
  assert (ps' ⊆ params ∧ (n_Dynamic c = true → ps' !! n_Title c = params !! n_Title c) ∧ ps ⊆ ps')
    as (Hp' & Hc' & Hle).
  { subst ps'. unfold value_of. destruct (n_Dynamic c) eqn:Ed; [|done].
    destruct (Hc eq_refl) as [v Hv]. rewrite Hv. simpl. split_and!.
    - apply insert_subseteq_l; done.
    - intros _. by rewrite lookup_insert_eq.
    - apply map_subseteq_spec. intros k w Hk. destruct (decide (k = n_Title c)) as [->|].
      + rewrite lookup_insert_eq. eapply lookup_weaken in Hk; [|exact Hps]. congruence.
      + by rewrite lookup_insert_ne. }
  destruct (IH ps' Hp') as (H1 & H2 & H3). split_and!; [done| |by etrans].
  constructor; [|done]. intros Hd. specialize (Hc' Hd). destruct (Hc Hd) as [v Hv]. rewrite Hv in *.
  eapply lookup_weaken; [|exact H3]. by rewrite Hc'.
Qed.

Lemma trail_params params n pos cs :
  fits params n pos = true → trail n pos = Some cs →
  Forall (λ c, n_Dynamic c = true → is_Some (params !! n_Title c)) cs.
Proof.
  revert n cs. induction pos as [|i pos IH]; intros n cs Hf; cbn [trail]; [by intros [= <-]|].
  cbn [fits] in Hf. destruct (n_Children n !! i) as [c|]; [|done].
  apply andb_true_iff in Hf as [Hv Hf].
  destruct (trail c pos) as [cs'|] eqn:Et; [|done]. intros [= <-].
  constructor; [|by eapply IH]. intros Hd. rewrite Hd in Hv. by destruct (params !! _).
Qed.

(** C38: Concrete and Lookup are inverse: in a well-formed tree (plain names below
    a root of at least two segments, the URI of a child its parent's and its
    own name, no two static siblings of one name and at most one dynamic), the
    concrete URI of any node, with a value for each dynamic segment on its path
    (not empty, and not the name of a static sibling), resolves to exactly that
    node, and the parameters captured are the values given; no value needs to
    avoid slashes, question marks or percent signs. *)
Theorem concrete_lookup t pos n params :
  tree_ok t = true → node_at (t_Root t) pos = Some n → fits params (t_Root t) pos = true →
  ∃ ps cs, Tree_Lookup t (Concrete n params) = Some (mkMatch n pos ps) ∧
    trail (t_Root t) pos = Some cs ∧ ps ⊆ params ∧
    Forall (λ c, n_Dynamic c = true → ps !! n_Title c = params !! n_Title c) cs.
Proof.
  intros Ht Hn Hf. unfold tree_ok in Ht. set (root := split_byte "/" (n_URI (t_Root t))) in *.
  apply andb_true_iff in Ht as [Ht Hnode]. apply andb_true_iff in Ht as [Ht Hlen].
  apply andb_true_iff in Ht as [Hroot Hleg]. apply bool_decide_eq_true in Hleg.
  unfold node_at in Hn. destruct (trail (t_Root t) pos) as [cs|] eqn:Et; [|done]. injection Hn as <-.
  destruct (capture_spec params cs ∅) as (Hps & Hcap & _);
    [by eapply trail_params|apply map_empty_subseteq|].
  exists (capture params ∅ cs), cs. split_and!; [|done..].
  destruct (segments_ok_parts params root Hroot) as (Hrp & Hrc & Hru).
  destruct (concrete_trail params _ _ _ Hnode Hf Et) as [Hcp Hcu].
  unfold Tree_Lookup, Concrete. fold root.
  rewrite (split_URI _ pos cs) by done. fold root. rewrite map_app, Hrc.
  assert (root ≠ []) as Hne by apply split_byte_nonnil.
  rewrite (Segments_join (root ++ _)).
  2: { by destruct root. }
  2: { by apply Forall_app. }
  rewrite map_app, Hru, Hcu.
  assert (Segments (n_URI (t_Root t)) = root) as ->.
  { by apply Segments_plain. }
  assert (lookup_segments t (root ++ map (value_of params) cs) = root ++ map (value_of params) cs)
    as ->.
  { destruct root as [|s0 [|s1 rest]]; [done|simpl in Hlen; lia|]. simpl in *. case_match; [|done].
    exfalso. apply (f_equal length) in Hleg. simpl in Hleg. lia. }
  rewrite below_root_app. by apply (descend_trail params _ pos cs []).
Qed.

(** ** Inheritance *)

(** The applicability of the nearest node of a trail that has its own. *)
Definition nearest (inherited : option Applicability) (ns : list Node) : option Applicability :=
  foldl (λ a n, match n_Applicability n with Some b => Some b | None => a end) inherited ns.

Lemma inherit_children a n :
  n_Children (inherit_walk a n) = map (inherit_walk (nearest a [n])) (n_Children n).
Proof. destruct n. done. Qed.

Lemma inherit_trail a n pos cs :
  trail n pos = Some cs →
  ∃ cs', trail (inherit_walk a n) pos = Some cs' ∧
    List.last cs' (inherit_walk a n) =
    set_applicability (nearest a (n :: cs))
      (map (inherit_walk (nearest a (n :: cs))) (n_Children (List.last cs n))) (List.last cs n).
Proof.
  revert a n cs. induction pos as [|i pos IH]; intros a n cs; cbn [trail].
  { intros [= <-]. exists []. split; [done|]. by destruct n. }
  destruct (n_Children n !! i) as [c|] eqn:Ec; [|done].
  destruct (trail c pos) as [cs1|] eqn:Et; [|done]. intros [= <-].
  destruct (IH (nearest a [n]) c cs1 Et) as (cs' & Ht & Hl).
  exists (inherit_walk (nearest a [n]) c :: cs'). rewrite inherit_children, list_lookup_fmap, Ec.
  cbn [fmap option_fmap option_map]. rewrite Ht. split; [done|]. by rewrite !last_cons_default, Hl.
Qed.

(** After Inherit every node carries the applicability of its nearest
    ancestor, itself included, that the source tree gives one, and is otherwise
    unchanged: the node at each position differs from the source's in nothing
    but that and its children's. *)
Theorem inherit_nearest t pos cs :
  trail (t_Root t) pos = Some cs →
  ∃ n', node_at (t_Root (Inherit t)) pos = Some n' ∧
    n_Applicability n' = nearest None (t_Root t :: cs) ∧
    set_applicability None [] n' = set_applicability None [] (List.last cs (t_Root t)).
Proof.
  intros Ht. destruct (inherit_trail None (t_Root t) pos cs Ht) as (cs' & Ht' & Hl).
  eexists. unfold node_at, Inherit. cbn [t_Root]. rewrite Ht'. split; [done|]. rewrite Hl.
  split; [done|]. by destruct (List.last cs (t_Root t)).
Qed.

(** ** Witnesses *)

Definition leaf_node (name title uri : string) (dynamic : bool) (format : Format)
    (access : list Access) (app : option Applicability) (cs : list Node) : Node :=
  mkNode name title uri format access "" "" "" false "" false dynamic (mkNaming "" "") app false
    None None "" "" "" false None [] cs.

(** Part of the VPNv2 tree. *)
Definition vpn_tree : Tree :=
  let app := mkApplicability ["10.0.10586"] "1.0" ["0x4"] false in
  let own := mkApplicability ["10.0.19041"] "1.3" [] false in
  mkTree "VPNv2" "VPNv2.xml" CScopeDevice false
    (leaf_node "VPNv2" "" "./Device/Vendor/MSFT/VPNv2" false FormatNode [AccessGet] (Some app)
      [leaf_node "" "ProfileName" "./Device/Vendor/MSFT/VPNv2/{ProfileName}" true FormatNode
         [AccessAdd; AccessDelete; AccessGet] None
         [leaf_node "AppTriggerList" "" "./Device/Vendor/MSFT/VPNv2/{ProfileName}/AppTriggerList"
            false FormatNode [AccessGet] (Some own)
            [leaf_node "" "appTriggerRowId"
               "./Device/Vendor/MSFT/VPNv2/{ProfileName}/AppTriggerList/{appTriggerRowId}" true
               FormatNode [AccessAdd; AccessGet] None []]]]).

Definition vpn_params : gmap string string :=
  {[ "ProfileName" := "Head office / 100%?"; "appTriggerRowId" := "0" ]}.

Lemma concrete_lookup_witness :
  ∃ n ps cs, Concrete n vpn_params =
      "./Device/Vendor/MSFT/VPNv2/Head%20office%20%2F%20100%25%3F/AppTriggerList/0" ∧
    Tree_Lookup vpn_tree (Concrete n vpn_params) = Some (mkMatch n [0; 0; 0]%nat ps) ∧
    trail (t_Root vpn_tree) [0; 0; 0]%nat = Some cs ∧ ps ⊆ vpn_params ∧
    Forall (λ c, n_Dynamic c = true → ps !! n_Title c = vpn_params !! n_Title c) cs.
Proof.
  destruct (node_at (t_Root vpn_tree) [0; 0; 0]%nat) as [n|] eqn:E; [|vm_compute in E; discriminate].
  exists n.
  destruct (concrete_lookup vpn_tree [0; 0; 0]%nat n vpn_params) as (ps & cs & H);
    [vm_compute; reflexivity|exact E|vm_compute; reflexivity|].
  exists ps, cs. split; [|exact H]. vm_compute in E. injection E as <-. vm_compute. reflexivity.
Defined.

Lemma inherit_nearest_witness :
  ∃ cs n', trail (t_Root vpn_tree) [0; 0; 0]%nat = Some cs ∧
    node_at (t_Root (Inherit vpn_tree)) [0; 0; 0]%nat = Some n' ∧
    n_Applicability n' = Some (mkApplicability ["10.0.19041"] "1.3" [] false).
Proof.
  destruct (trail (t_Root vpn_tree) [0; 0; 0]%nat) as [cs|] eqn:E; [|vm_compute in E; discriminate].
  destruct (inherit_nearest vpn_tree [0; 0; 0]%nat cs E) as (n' & H1 & H2 & _).
  exists cs, n'. split; [reflexivity|]. split; [exact H1|]. rewrite H2. vm_compute in E.
  injection E as <-. vm_compute. reflexivity.
Defined.
