(* ===== verification/CspRegistry.v ===== *)
(** * The registry of CSP trees

    schema/csp/registry.go: the index of trees by root, and the resolution of a
    URI across all trees, which agrees with trying every tree and keeping the
    one with the longest root. *)
From stdpp Require Import base gmap strings list.
From Stdlib Require Import ZArith Lia Ascii Sorted.
From S2P Require Import Prelude GoStrings GoUrl Csp CspProofs.

Local Open Scope Z_scope.

Record Registry := mkRegistry {
  r_trees : list Tree;
  r_byRoot : gmap string (list Tree) }.

Definition index_tree (m : gmap string (list Tree)) (t : Tree) : gmap string (list Tree) :=
  let key := go_lower (n_URI (t_Root t)) in
  <[key := default [] (m !! key) ++ [t]]> m.

Definition NewRegistry (trees : list Tree) : Registry :=
  mkRegistry trees (foldl index_tree ∅ trees).

Definition Trees (r : Registry) : list Tree := r_trees r.

Definition Registry_Tree (r : Registry) (name : string) (scope : CspScope) : option Tree :=
  List.find (λ t, EqualFold name (t_Name t) &&
    (bool_decide (scope = "") || bool_decide (t_Scope t = scope))) (r_trees r).

Definition hasScopePrefix (uri : string) : bool :=
  let l := go_lower uri in
  HasPrefix l "./device/" || HasPrefix l "./user/" || bool_decide (l = "./device") ||
  bool_decide (l = "./user").

Definition by_root (r : Registry) (segs : list string) : list Tree :=
  default [] (r_byRoot r !! go_lower (join_byte "/" segs)).

(** The first loop of [candidates]: [i] from the top down to 1, breaking off at
    the bare dot. *)
Fixpoint prefix_trees (r : Registry) (segs : list string) (i : nat) : list Tree :=
  match i with
  | O => []
  | S i' =>
      if Nat.eqb i 1 && bool_decide (segs !! 0%nat = Some ".") then []
      else by_root r (take i segs) ++ prefix_trees r segs i'
  end.

(** The second loop: [i] from the top down to 2, with ./Device left out. *)
Fixpoint legacy_trees (r : Registry) (s0 : string) (rest : list string) (i : nat) : list Tree :=
  filter (λ t, t_Scope t = CScopeLegacy) (by_root r (s0 :: take i rest)) ++
  match i with O => [] | S i => legacy_trees r s0 rest i end.

(** [sort.SliceStable] by the length of the root, longest first. *)
Definition root_len (t : Tree) : Z := len (n_URI (t_Root t)).
Fixpoint insert_tree (t : Tree) (l : list Tree) : list Tree :=
  match l with
  | [] => [t]
  | u :: l => if root_len t <? root_len u then u :: insert_tree t l else t :: u :: l
  end.
Definition sort_trees (l : list Tree) : list Tree := foldr insert_tree [] l.

Definition candidates (r : Registry) (uri : string) : list Tree :=
  let segs := Segments uri in
  sort_trees
    (prefix_trees r segs (length segs) ++
     match segs with
     | s0 :: s1 :: rest => if EqualFold s1 "Device" then legacy_trees r s0 rest (length rest) else []
     | _ => []
     end).

Fixpoint first_match (ts : list Tree) (uri : string) : option (Match * Tree) :=
  match ts with
  | [] => None
  | t :: ts =>
      match Tree_Lookup t uri with
      | Some m => Some (m, t)
      | None => first_match ts uri
      end
  end.

Definition TrimPrefix_byte (c : ascii) (s : string) : string :=
  match s with String d r => if Ascii.eqb d c then r else s | EmptyString => s end.

Definition aliased (uri : string) : string := "./Device" +:+ TrimPrefix_byte "." uri.

Definition Lookup (r : Registry) (uri : string) : option (Match * Tree) :=
  match first_match (candidates r uri) uri with
  | Some x => Some x
  | None =>
      if hasScopePrefix uri then None
      else first_match (candidates r (aliased uri)) (aliased uri)
  end.

(** ** Folding and lower case *)

Definition is_ascii (s : string) : bool := str_forall (λ c, byte_val c <? 128) s.

(** U+017F is the one character that folds to an ASCII letter but is not its
    capital. *)
Fixpoint has_long_s (s : string) : bool :=
  match s with
  | String a s1 =>
      match s1 with
      | String b _ => ((byte_val a =? 0xC5) && (byte_val b =? 0xBF)) || has_long_s s1
      | EmptyString => false
      end
  | EmptyString => false
  end.

Lemma ascii_lower_low c : byte_val c < 128 → byte_val (ascii_lower c) < 128.
Proof.
  intros Hc. unfold ascii_lower. destruct (_ && _) eqn:E; [|done]. btrue. rewrite byte_val_of; lia.
Qed.

Lemma ascii_lower_high c : 128 ≤ byte_val c → ascii_lower c = c.
Proof. intros Hc. unfold ascii_lower. destruct (_ && _) eqn:E; [|done]. btrue. lia. Qed.

(** Text that starts with an ASCII byte, or ends. *)
Definition ascii_head (s : string) : Prop :=
  match s with String c _ => byte_val c < 128 | EmptyString => True end.

Lemma go_lower_ascii c s :
  byte_val c < 128 → go_lower (String c s) = String (ascii_lower c) (go_lower s).
Proof.
  intros Hc. destruct s as [|b s]; [done|]. cbn [go_lower].
  destruct (Z.eqb_spec (byte_val c) 0xC4); [lia|]. cbn [andb].
  destruct s as [|d s]; [done|]. destruct (Z.eqb_spec (byte_val c) 0xE2); [lia|]. done.
Qed.

Lemma EqualFold_lower s r :
  is_ascii r = true → has_long_s s = false → EqualFold s r = true → go_lower s = go_lower r.
Proof.
  unfold is_ascii. revert s. induction r as [|d r IH]; intros s Hr Hs; [by destruct s|].
  cbn [str_forall] in Hr. apply andb_true_iff in Hr as [Hd Hr]. apply Z.ltb_lt in Hd.
  destruct s as [|c s]; [done|]. cbn [EqualFold]. rewrite (go_lower_ascii d r Hd).
  destruct (Ascii.eqb_spec (ascii_lower c) (ascii_lower d)) as [E|Hne].
  - assert (byte_val c < 128) as Hc.
    { destruct (Z.lt_ge_cases (byte_val c) 128) as [|Hc]; [done|]. rewrite (ascii_lower_high c Hc) in E.
      pose proof (ascii_lower_low d Hd). rewrite <- E in *. lia. }
    intros Hf. rewrite (go_lower_ascii c s Hc), E. f_equal. apply IH; [done| |done].
    cbn [has_long_s] in Hs. destruct s as [|b s]; [done|]. by apply orb_false_iff in Hs as [_ ?].
  - destruct s as [|c2 s2]; [done|]. cbn [has_long_s] in Hs. apply orb_false_iff in Hs as [H1 H2].
    rewrite H1. cbn [andb]. destruct s2 as [|c3 s3]; [done|].
    destruct (_ && Ascii.eqb (ascii_lower d) "k") eqn:Ek; [|done]. intros Hf.
    apply andb_true_iff in Ek as [Ek Hk]. apply Ascii.eqb_eq in Hk.
    apply andb_true_iff in Ek as [Ek H3]. apply andb_true_iff in Ek as [Hc Hc2].
    cbn [go_lower]. rewrite Hc, Hc2, H3. cbn [andb].
    replace (byte_val c =? 0xC4) with false by (symmetry; apply Z.eqb_neq; apply Z.eqb_eq in Hc; lia).
    cbn [andb]. rewrite Hk. f_equal. apply IH; [done| |done].
    cbn [has_long_s] in H2. apply orb_false_iff in H2 as [_ H2].
    destruct s3; [done|]. by apply orb_false_iff in H2 as [_ ?].
Qed.

Lemma go_lower_app s t : ascii_head t → go_lower (s +:+ t) = go_lower s +:+ go_lower t.
Proof.
  intros Ht. remember (String.length s) as n eqn:Hn. revert s Hn.
  induction (lt_wf n) as [n _ IH]. intros s ->.
  assert (∀ u, (String.length u < String.length s)%nat → go_lower (u +:+ t) = go_lower u +:+ go_lower t)
    as Hu by (intros u Hl; by apply (IH _ Hl)). clear IH.
  destruct s as [|a [|b [|c s]]]; [done|..]; rewrite ?str_app_cons, ?str_app_nil_l.
  - destruct t as [|d t]; [done|]. simpl in Ht. cbn [go_lower].
    replace (byte_val d =? 0xB0) with false by (symmetry; apply Z.eqb_neq; lia).
    replace (byte_val d =? 0x84) with false by (symmetry; apply Z.eqb_neq; lia).
    rewrite !andb_false_r. cbn [andb]. by destruct t.
  - pose proof (Hu (String b "") ltac:(simpl; lia)) as Hb. rewrite str_app_cons, str_app_nil_l in Hb.
    cbn [go_lower]. cbn [go_lower] in Hb. destruct ((byte_val a =? 0xC4) && _); [done|].
    destruct t as [|d t]; [done|]. simpl in Ht.
    replace (byte_val d =? 0xAA) with false by (symmetry; apply Z.eqb_neq; lia).
    rewrite andb_false_r. rewrite str_app_cons. by f_equal.
  - cbn [go_lower]. destruct ((byte_val a =? 0xC4) && _).
    + rewrite str_app_cons. f_equal. by apply (Hu (String c s)); simpl; lia.
    + destruct (_ && _ && _); rewrite str_app_cons; f_equal.
      * apply Hu. simpl. lia.
      * apply (Hu (String b (String c s))). simpl. lia.
Qed.

Lemma go_lower_join l : go_lower (join_byte "/" l) = join_byte "/" (map go_lower l).
Proof.
  induction l as [|p l IH]; [done|]. destruct l as [|q l]; [done|].
  change (go_lower (p +:+ String "/" (join_byte "/" (q :: l))) =
    go_lower p +:+ String "/" (join_byte "/" (map go_lower (q :: l)))).
  rewrite go_lower_app by (simpl; done). rewrite go_lower_ascii by done. by rewrite IH.
Qed.

Lemma below_root_lower root segs rest :
  forallb is_ascii root = true → forallb (λ s, negb (has_long_s s)) segs = true →
  below_root root segs = Some rest →
  (length root ≤ length segs)%nat ∧
  map go_lower (take (length root) segs) = map go_lower root.
Proof.
  revert segs. induction root as [|r root IH]; intros segs Hr Hs; cbn [below_root].
  { intros _. split; [simpl; lia|done]. }
  destruct segs as [|s segs]; [done|]. cbn in Hr, Hs. btrue.
  destruct (EqualFold s r) eqn:E; [|done]. intros Hb.
  destruct (IH segs) as [Hl He]; [done..|]. simpl. split; [lia|]. f_equal; [|done].
  by apply EqualFold_lower.
Qed.

(** ** The index *)

Definition root_key (t : Tree) : string := go_lower (n_URI (t_Root t)).

Lemma index_spec trees m k t :
  t ∈ default [] (foldl index_tree m trees !! k) ↔
  t ∈ default [] (m !! k) ∨ (t ∈ trees ∧ root_key t = k).
Proof.
  revert m. induction trees as [|u trees IH]; intros m; simpl; [set_solver|].
  rewrite IH. unfold index_tree at 1. fold (root_key u).
  destruct (decide (root_key u = k)) as [<-|Hne].
  - rewrite lookup_insert_eq. simpl. set_solver.
  - rewrite lookup_insert_ne by done. set_solver.
Qed.

Lemma by_root_spec trees segs t :
  t ∈ by_root (NewRegistry trees) segs ↔ t ∈ trees ∧ root_key t = go_lower (join_byte "/" segs).
Proof. unfold by_root, NewRegistry. cbn [r_byRoot]. rewrite index_spec, lookup_empty. set_solver. Qed.

Lemma prefix_trees_in r segs i t :
  t ∈ prefix_trees r segs i → ∃ j, t ∈ by_root r (take j segs).
Proof.
  induction i as [|i IH]; cbn [prefix_trees]; [set_solver|]. case_match; [set_solver|].
  rewrite elem_of_app. intros [?|?]; [eauto|by apply IH].
Qed.

Lemma prefix_trees_at r segs i j t :
  (2 ≤ j ≤ i)%nat → t ∈ by_root r (take j segs) → t ∈ prefix_trees r segs i.
Proof.
  induction i as [|i IH]; intros Hj Ht; [lia|]. cbn [prefix_trees].
  destruct (Nat.eqb_spec (S i) 1); [lia|]. cbn [andb]. rewrite elem_of_app.
  destruct (decide (j = S i)) as [->|]; [by left|]. right. apply IH; [lia|done].
Qed.

Lemma legacy_trees_spec r s0 rest i t :
  t ∈ legacy_trees r s0 rest i ↔
  t_Scope t = CScopeLegacy ∧ ∃ j, (j ≤ i)%nat ∧ t ∈ by_root r (s0 :: take j rest).
Proof.
  induction i as [|i IH]; cbn [legacy_trees]; rewrite elem_of_app, list_elem_of_filter.
  - split; [|intros (? & j & ? & ?); left; by replace j with 0%nat in * by lia].
    intros [[? ?]|?]; [|set_solver]. eauto.
  - rewrite IH. split.
    + intros [[? ?]|(? & j & ? & ?)]; [eauto|]. eauto.
    + intros (? & j & ? & ?). destruct (decide (j = S i)) as [->|]; [by left|].
      right. split; [done|]. exists j. split; [lia|done].
Qed.

Lemma insert_tree_in t u l : t ∈ insert_tree u l ↔ t = u ∨ t ∈ l.
Proof. induction l as [|v l IH]; simpl; [set_solver|]. case_match; set_solver. Qed.

Lemma sort_trees_in t l : t ∈ sort_trees l ↔ t ∈ l.
Proof.
  induction l as [|u l IH]; [done|]. unfold sort_trees. cbn [foldr]. fold (sort_trees l).
  rewrite insert_tree_in, IH. set_solver.
Qed.

Definition longer (t u : Tree) : Prop := root_len u ≤ root_len t.

Lemma insert_tree_sorted t l : StronglySorted longer l → StronglySorted longer (insert_tree t l).
Proof.
  induction 1 as [|u l Hl IH Hu]; simpl; [by repeat constructor|].
  destruct (Z.ltb_spec (root_len t) (root_len u)).
  - constructor; [done|]. rewrite Forall_forall in *. intros v Hv.
    apply insert_tree_in in Hv as [->|Hv]; [unfold longer; lia|by apply Hu].
  - constructor; [by constructor|]. constructor; [done|]. rewrite Forall_forall in *.
    intros v Hv. specialize (Hu v Hv). unfold longer in *. lia.
Qed.

Lemma sort_trees_sorted l : StronglySorted longer (sort_trees l).
Proof. induction l; [constructor|by apply insert_tree_sorted]. Qed.

(** ** Candidates *)

(** Root URIs as the generated packages have them: at least two plain ASCII
    segments. *)
Definition root_ok (t : Tree) : bool :=
  let root := split_byte "/" (n_URI (t_Root t)) in
  forallb segment_ok root && forallb is_ascii root && (2 <=? Z.of_nat (length root)).

(** A URI in which no segment holds U+017F. *)
Definition uri_ok (uri : string) : bool := forallb (λ s, negb (has_long_s s)) (Segments uri).

Lemma root_ok_spec t :
  root_ok t = true →
  let root := Segments (n_URI (t_Root t)) in
  forallb is_ascii root = true ∧ (2 ≤ length root)%nat ∧
  root_key t = join_byte "/" (map go_lower root).
Proof.
  unfold root_ok. intros E. btrue. rewrite Segments_plain by done. split_and!; [done|lia|].
  unfold root_key. by rewrite <- go_lower_join, join_split.
Qed.

Lemma candidates_in trees uri t : t ∈ candidates (NewRegistry trees) uri → t ∈ trees.
Proof.
  unfold candidates. rewrite sort_trees_in, elem_of_app. intros [Ht|Ht].
  - apply prefix_trees_in in Ht as [j Ht]. by apply by_root_spec in Ht as [? _].
  - destruct (Segments uri) as [|s0 [|s1 rest]]; [set_solver..|]. case_match; [|set_solver].
    apply legacy_trees_spec in Ht as (_ & j & _ & Ht). by apply by_root_spec in Ht as [? _].
Qed.

(** Every tree that resolves a URI is a candidate for it. *)
Lemma candidates_complete trees uri t m :
  t ∈ trees → root_ok t = true → uri_ok uri = true → Tree_Lookup t uri = Some m →
  t ∈ candidates (NewRegistry trees) uri.
Proof.
  intros Ht Hr Hu. apply root_ok_spec in Hr as (Hascii & Hlen & Hkey). unfold Tree_Lookup.
  set (root := Segments (n_URI (t_Root t))) in *. unfold uri_ok in Hu.
  destruct (below_root root _) as [rest'|] eqn:Hb; [|done]. intros _.
  unfold candidates. rewrite sort_trees_in, elem_of_app.
  assert (∀ segs, (length root ≤ length segs)%nat → map go_lower (take (length root) segs) = map go_lower root →
    t ∈ by_root (NewRegistry trees) (take (length root) segs)) as Hin.
  { intros segs _ E. apply by_root_spec. split; [done|]. by rewrite Hkey, go_lower_join, E. }
  assert (∀ segs, lookup_segments t (Segments uri) = segs → segs = Segments uri →
    t ∈ prefix_trees (NewRegistry trees) (Segments uri) (length (Segments uri))) as Hplain.
  { intros segs E ->. rewrite E in Hb. destruct (below_root_lower _ _ _ Hascii Hu Hb) as [Hl He].
    apply (prefix_trees_at _ _ _ (length root)); [lia|by apply Hin]. }
  unfold lookup_segments in Hb, Hplain. destruct (Segments uri) as [|s0 [|s1 rest]] eqn:Es;
    [left; by eapply Hplain..|].
  destruct (bool_decide (t_Scope t = CScopeLegacy)) eqn:El; [|left; by eapply Hplain].
  destruct (EqualFold s1 "Device") eqn:Ed; [|left; by eapply Hplain]. right. btrue.
  cbn [andb] in Hb. cbn [forallb] in Hu. btrue.
  assert (forallb (λ s, negb (has_long_s s)) (s0 :: rest) = true) as Hu'.
  { cbn [forallb]. apply andb_true_iff. split; [by apply negb_true_iff|done]. }
  destruct (below_root_lower _ _ _ Hascii Hu' Hb) as [Hl He].
  apply legacy_trees_spec. split; [done|]. exists (pred (length root)).
  simpl in Hl. split; [lia|]. specialize (Hin (s0 :: rest) Hl He).
  by destruct (length root) as [|k]; [lia|].
Qed.

Lemma first_match_spec ts uri :
  StronglySorted longer ts →
  match first_match ts uri with
  | Some (m, t) => t ∈ ts ∧ Tree_Lookup t uri = Some m ∧
      ∀ t', t' ∈ ts → Tree_Lookup t' uri ≠ None → root_len t' ≤ root_len t
  | None => ∀ t, t ∈ ts → Tree_Lookup t uri = None
  end.
Proof.
  induction 1 as [|t ts Hs IH Ht]; simpl; [set_solver|].
  destruct (Tree_Lookup t uri) as [m|] eqn:E.
  - split_and!; [set_solver|done|]. intros t' [->|Hin]%elem_of_cons _; [lia|].
    rewrite Forall_forall in Ht. by apply Ht.
  - destruct (first_match ts uri) as [[m u]|].
    + destruct IH as (? & ? & Hmax). split_and!; [set_solver|done|].
      intros t' [->|Hin]%elem_of_cons Hne; [done|]. by apply Hmax.
    + intros t' [->|Hin]%elem_of_cons; [done|]. by apply IH.
Qed.

(** What trying every tree gives: the one with the longest root, or none. *)
Definition longest_match (trees : list Tree) (uri : string) (r : option (Match * Tree)) : Prop :=
  match r with
  | Some (m, t) => t ∈ trees ∧ Tree_Lookup t uri = Some m ∧
      ∀ t', t' ∈ trees → Tree_Lookup t' uri ≠ None → root_len t' ≤ root_len t
  | None => ∀ t, t ∈ trees → Tree_Lookup t uri = None
  end.

Lemma candidates_match trees uri :
  forallb root_ok trees = true → uri_ok uri = true →
  longest_match trees uri (first_match (candidates (NewRegistry trees) uri) uri).
Proof.
  intros Htr Hu. pose proof (first_match_spec (candidates (NewRegistry trees) uri) uri) as Hf.
  specialize (Hf ltac:(apply sort_trees_sorted)). rewrite forallb_forall in Htr.
  assert (∀ t, t ∈ trees → Tree_Lookup t uri ≠ None → t ∈ candidates (NewRegistry trees) uri) as Hc.
  { intros t Ht Hne. destruct (Tree_Lookup t uri) as [m|] eqn:E; [|done].
    eapply candidates_complete; [done| |done..]. by apply Htr, list_elem_of_In. }
  unfold longest_match. destruct (first_match _ uri) as [[m t]|].
  - destruct Hf as (Hin & Hl & Hmax). split_and!; [by eapply candidates_in|done|]. intros t' Ht' Hne.
    apply Hmax; auto.
  - intros t Ht. destruct (Tree_Lookup t uri) as [m|] eqn:E; [|done].
    rewrite Hf in E; [done|]. apply Hc; [done|]. by rewrite E.
Qed.

(** C39: The registry's index loses nothing: Lookup returns what trying every
    registered tree would, the match of the tree with the longest root that
    resolves the URI, and, when no tree does and the URI names no scope, what
    the URI under ./Device resolves to; it fails exactly when no tree resolves
    either.  The roots of the trees are plain ASCII paths of at least two
    segments, as those of the generated packages are, and the URI is without
    U+017F, which folds to s but is not lowered to it. *)
Theorem registry_lookup_longest trees uri :
  forallb root_ok trees = true → uri_ok uri = true → uri_ok (aliased uri) = true →
  match Lookup (NewRegistry trees) uri with
  | Some x =>
      longest_match trees uri (Some x) ∨
      (longest_match trees uri None ∧ hasScopePrefix uri = false ∧
       longest_match trees (aliased uri) (Some x))
  | None =>
      longest_match trees uri None ∧
      (hasScopePrefix uri = false → longest_match trees (aliased uri) None)
  end.
Proof.
  intros Htr Hu Ha. unfold Lookup. pose proof (candidates_match trees uri Htr Hu) as H1.
  pose proof (candidates_match trees (aliased uri) Htr Ha) as H2.
  destruct (first_match _ uri) as [x|]; [by left|].
  destruct (hasScopePrefix uri); [done|]. destruct (first_match _ (aliased uri)) as [x|]; auto.
Qed.

(** ** Witness *)

Definition policy_tree : Tree :=
  mkTree "Policy" "Policy.xml" CScopeDevice false
    (leaf_node "Policy" "" "./Device/Vendor/MSFT/Policy" false FormatNode [AccessGet] None
      [leaf_node "Config" "" "./Device/Vendor/MSFT/Policy/Config" false FormatNode [AccessGet] None
         [leaf_node "" "Area" "./Device/Vendor/MSFT/Policy/Config/{Area}" true FormatNode [AccessGet]
            None []]]).
Definition bits_tree : Tree :=
  mkTree "BITS" "BITS.xml" CScopeDevice true
    (leaf_node "BITS" "" "./Device/Vendor/MSFT/Policy/Config/BITS" false FormatNode [AccessGet] None []).
Definition devinfo_tree : Tree :=
  mkTree "DevInfo" "DevInfo.xml" CScopeLegacy false
    (leaf_node "DevInfo" "" "./DevInfo" false FormatNode [AccessGet] None
      [leaf_node "DevId" "" "./DevInfo/DevId" false FormatChr [AccessGet] None []]).
Definition some_trees : list Tree := [policy_tree; bits_tree; devinfo_tree].

(** The policy area wins over the Policy skeleton, and a legacy node is found
    under ./Device. *)
Lemma registry_lookup_longest_witness :
  option_map (λ x, t_Name (snd x))
    (Lookup (NewRegistry some_trees) "./Vendor/MSFT/policy/config/bits") = Some "BITS" ∧
  option_map (λ x, t_Name (snd x))
    (Lookup (NewRegistry some_trees) "./Device/DevInfo/DevId") = Some "DevInfo" ∧
  match Lookup (NewRegistry some_trees) "./Device/DevInfo/DevId" with
  | Some x =>
      longest_match some_trees "./Device/DevInfo/DevId" (Some x) ∨
      (longest_match some_trees "./Device/DevInfo/DevId" None ∧
       hasScopePrefix "./Device/DevInfo/DevId" = false ∧
       longest_match some_trees (aliased "./Device/DevInfo/DevId") (Some x))
  | None =>
      longest_match some_trees "./Device/DevInfo/DevId" None ∧
      (hasScopePrefix "./Device/DevInfo/DevId" = false →
       longest_match some_trees (aliased "./Device/DevInfo/DevId") None)
  end.
Proof.
  split; [vm_compute; reflexivity|]. split; [vm_compute; reflexivity|].
  apply (registry_lookup_longest some_trees "./Device/DevInfo/DevId"); vm_compute; reflexivity.
Defined.
