(* ===== verification/CspSupport.v ===== *)
(** * Build applicability

    schema/support/support.go: Windows build numbers, the classes of DDF
    entries, servicing branches, and whether a node applies to a build or an
    edition. *)
From stdpp Require Import base gmap strings list.
From Stdlib Require Import ZArith Lia Ascii.
From S2P Require Import Prelude GoStrings GoUrl Csp CspProofs.

Local Open Scope Z_scope.
Local Open Scope go_scope.

Record Build := mkBuild {
  bd_Major : Z; bd_Minor : Z; bd_Build : Z; bd_Revision : Z }.

(** The loop over the parts: each a number that is not negative. *)
Fixpoint parse_parts (parts : list string) : option (list Z) :=
  match parts with
  | [] => Some []
  | p :: parts =>
      match Atoi p with
      | Some v => if v <? 0 then None else option_map (cons v) (parse_parts parts)
      | None => None
      end
  end.

Definition ParseBuild (s : string) : result Build :=
  let parts := split_byte "." (TrimSpace s) in
  if (Z.of_nat (length parts) <? 3) || (4 <? Z.of_nat (length parts)) then Err [support_ErrBuild]
  else match parse_parts parts with
       | Some n => Ok (mkBuild (nth 0 n 0) (nth 1 n 0) (nth 2 n 0) (nth 3 n 0))
       | None => Err [support_ErrBuild]
       end.

Definition Build_String (b : Build) : string :=
  if bd_Revision b =? 0
  then Itoa (bd_Major b) +:+ "." +:+ Itoa (bd_Minor b) +:+ "." +:+ Itoa (bd_Build b)
  else Itoa (bd_Major b) +:+ "." +:+ Itoa (bd_Minor b) +:+ "." +:+ Itoa (bd_Build b) +:+ "." +:+
       Itoa (bd_Revision b).

Inductive Kind := Released | Insider | Server | Unreleased.
#[global] Instance Kind_eq_dec : EqDecision Kind.
Proof. solve_decision. Defined.

Definition Kind_String (k : Kind) : string :=
  match k with
  | Released => "released" | Insider => "insider" | Server => "server" | Unreleased => "unreleased"
  end.

Definition Classify (entry : string) : result (Build * Kind) :=
  let? b := ParseBuild entry in
  if 88 <=? bd_Major b then Ok (b, Unreleased)
  else
    let b := if (bd_Major b =? 11) && (bd_Minor b =? 0)
             then mkBuild 10 (bd_Minor b) (bd_Build b) (bd_Revision b) else b in
    if bool_decide (bd_Build b ∈ [20348; 25398]) then Ok (b, Server)
    else if bool_decide (bd_Build b ∈ [25000; 26000; 25145; 25965]) then Ok (b, Insider)
    else Ok (b, Released).

Definition branch (build : Z) : Z :=
  if bool_decide (build ∈ [26200; 26300]) then 26100
  else if build =? 22631 then 22621
  else if bool_decide (build ∈ [19042; 19043; 19044; 19045]) then 19041
  else build.

Definition buildName (build : Z) : string :=
  if build =? 26100 then "24H2/25H2/26H2 (26100)"
  else if build =? 22621 then "22H2/23H2 (22621)"
  else if build =? 22000 then "21H2 (22000)"
  else if build =? 19041 then "Windows 10 2004 to 22H2 (19041)"
  else Itoa build.

Record SResult := mkSResult {
  sr_Supported : bool; sr_Reason : string; sr_Matched : string; sr_Deprecated : bool }.

(** Whether an entry decides for the build, and how. *)
Definition entry_result (build : Build) (entry : string) : option SResult :=
  match Classify entry with
  | Err _ => None
  | Ok (b, kind) =>
      if negb (bool_decide (kind = Released)) then None
      else
        let dev := branch (bd_Build build) in
        let eb := branch (bd_Build b) in
        if eb <? dev then
          Some (mkSResult true ("introduced in " +:+ Build_String b +:+ ", before the device's " +:+
            buildName dev +:+ " branch") entry false)
        else if (eb =? dev) && (bd_Revision b <=? bd_Revision build) then
          Some (mkSResult true ("introduced in " +:+ Build_String b +:+ " on the device's branch")
            entry false)
        else None
  end.

(** The loop over the entries stops at the first that decides. *)
Fixpoint first_entry (build : Build) (entries : list string) : option SResult :=
  match entries with
  | [] => None
  | e :: entries =>
      match entry_result build e with Some r => Some r | None => first_entry build entries end
  end.

Definition has_kind (k : Kind) (entries : list string) : bool :=
  existsb (λ e, match Classify e with Ok (_, k') => bool_decide (k' = k) | Err _ => false end) entries.

Fixpoint join_or (l : list string) : string :=
  match l with [] => "" | [p] => p | p :: ps => p +:+ " or " +:+ join_or ps end.

Definition unsupported_reason (build : Build) (entries : list string) : string :=
  if has_kind Unreleased entries && negb (has_kind Released entries)
  then "not in a released build (sentinel applicability)"
  else if has_kind Server entries && negb (has_kind Released entries) then "Windows Server only"
  else if has_kind Insider entries && negb (has_kind Released entries) then "Insider builds only"
  else "requires " +:+ join_or entries +:+ " or later; device is " +:+ Build_String build.

Definition deprecated_on (n : Node) (build : Build) : bool :=
  match n_Deprecated n with
  | None => false
  | Some d =>
      if bool_decide (dep_OsBuildDeprecated d = "") then true
      else match ParseBuild (dep_OsBuildDeprecated d) with
           | Err _ => false
           | Ok d =>
               let db := branch (bd_Build d) in
               let dev := branch (bd_Build build) in
               (db <? dev) || ((db =? dev) && (bd_Revision d <=? bd_Revision build))
           end
  end.

Definition SupportedOn (n : Node) (build : Build) : SResult :=
  match n_Applicability n with
  | None => mkSResult true "no applicability recorded; assumed supported" "" false
  | Some a =>
      match ap_OsBuildVersions a with
      | [] => mkSResult true "no applicability recorded; assumed supported" "" false
      | entries =>
          let res := match first_entry build entries with
                     | Some r => r
                     | None => mkSResult false (unsupported_reason build entries) "" false
                     end in
          mkSResult (sr_Supported res) (sr_Reason res) (sr_Matched res) (deprecated_on n build)
      end
  end.

Definition EditionAllowed (n : Node) (edition : string) : bool :=
  match n_Applicability n with
  | None => true
  | Some a =>
      match ap_EditionAllowList a with
      | [] => true
      | l => existsb (λ e, EqualFold edition e) l
      end
  end.

(** ** Specification *)

(** A released entry of an earlier branch, or of the device's branch and no
    later revision. *)
Definition applies (build : Build) (entry : string) : Prop :=
  ∃ b, Classify entry = Ok (b, Released) ∧
    (branch (bd_Build b) < branch (bd_Build build) ∨
     branch (bd_Build b) = branch (bd_Build build) ∧ bd_Revision b ≤ bd_Revision build).

(** A build as servicing orders them. *)
Definition serviced_before (b b' : Build) : Prop :=
  branch (bd_Build b) < branch (bd_Build b') ∨
  branch (bd_Build b) = branch (bd_Build b') ∧ bd_Revision b ≤ bd_Revision b'.

Lemma entry_result_spec build entry :
  match entry_result build entry with
  | Some r => applies build entry ∧ sr_Supported r = true ∧ sr_Matched r = entry
  | None => ¬ applies build entry
  end.
Proof.
  unfold entry_result, applies. destruct (Classify entry) as [[b k]|e]; [|by intros (? & ? & _)].
  case_bool_decide as Hk; cbn [negb]; [subst k|intros (? & ? & _); by simplify_eq].
  destruct (Z.ltb_spec (branch (bd_Build b)) (branch (bd_Build build))); [naive_solver|].
  destruct (Z.eqb_spec (branch (bd_Build b)) (branch (bd_Build build))); cbn [andb].
  2: { intros (? & ? & Hb). simplify_eq. lia. }
  destruct (Z.leb_spec (bd_Revision b) (bd_Revision build)); [naive_solver|].
  intros (? & ? & Hb). simplify_eq. lia.
Qed.

Lemma first_entry_spec build entries :
  match first_entry build entries with
  | Some r => sr_Supported r = true ∧ ∃ l e l', entries = l ++ e :: l' ∧
      Forall (λ e, ¬ applies build e) l ∧ applies build e ∧ sr_Matched r = e
  | None => Forall (λ e, ¬ applies build e) entries
  end.
Proof.
  induction entries as [|e entries IH]; simpl; [done|].
  pose proof (entry_result_spec build e) as He. destruct (entry_result build e) as [r|].
  { destruct He as (? & ? & ?). split; [done|]. by exists [], e, entries. }
  destruct (first_entry build entries) as [r|]; [|by constructor].
  destruct IH as (? & l & e' & l' & -> & ? & ? & ?). split; [done|].
  exists (e :: l), e', l'. split_and!; try done. by constructor.
Qed.

(** The entries of a node. *)
Definition entries_of (n : Node) : list string :=
  match n_Applicability n with Some a => ap_OsBuildVersions a | None => [] end.

Lemma SupportedOn_spec n build :
  if sr_Supported (SupportedOn n build)
  then entries_of n = [] ∧ sr_Matched (SupportedOn n build) = "" ∨
       ∃ l e l', entries_of n = l ++ e :: l' ∧ Forall (λ e, ¬ applies build e) l ∧
         applies build e ∧ sr_Matched (SupportedOn n build) = e
  else entries_of n ≠ [] ∧ Forall (λ e, ¬ applies build e) (entries_of n).
Proof.
  unfold SupportedOn, entries_of. destruct (n_Applicability n) as [a|]; [|by left].
  destruct (ap_OsBuildVersions a) as [|e0 es] eqn:E; [by left|].
  pose proof (first_entry_spec build (e0 :: es)) as Hf. destruct (first_entry build _) as [r|].
  - destruct Hf as (Hr & Hex). simpl. rewrite Hr. by right.
  - done.
Qed.

(** SupportedOn finds a node supported exactly when it records no build at
    all or some entry applies, reporting the first that does; an entry applies
    when it is a released build of an earlier servicing branch, or of the
    device's branch with a revision no later.  Deprecation is reported for a
    node with entries as the source says, but never for a node without
    them. *)
Theorem supported_on_iff n build :
  (sr_Supported (SupportedOn n build) = true ↔
   entries_of n = [] ∨ ∃ e, e ∈ entries_of n ∧ applies build e) ∧
  (sr_Matched (SupportedOn n build) ≠ "" →
   ∃ l l', entries_of n = l ++ sr_Matched (SupportedOn n build) :: l' ∧
     Forall (λ e, ¬ applies build e) l ∧ applies build (sr_Matched (SupportedOn n build))) ∧
  sr_Deprecated (SupportedOn n build) =
    (negb (bool_decide (entries_of n = [])) && deprecated_on n build).
Proof.
  pose proof (SupportedOn_spec n build) as Hs. split_and!.
  - destruct (sr_Supported _); split; try done.
    + intros _. destruct Hs as [[? _]|(l & e & l' & -> & _ & ? & _)]; [by left|].
      right. exists e. split; [set_solver|done].
    + intros [E|(e & He & Ha)]; destruct Hs as [Hne Hs]; [done|].
      rewrite Forall_forall in Hs. by destruct (Hs e He).
  - intros Hm. destruct (sr_Supported _) eqn:Esup.
    + destruct Hs as [[_ ?]|(l & e & l' & E & ? & ? & Em)]; [done|].
      exists l, l'. by rewrite Em.
    + exfalso. apply Hm. revert Esup. unfold SupportedOn.
      destruct (n_Applicability n) as [a|]; [|done]. destruct (ap_OsBuildVersions a) as [|e0 es]; [done|].
      pose proof (first_entry_spec build (e0 :: es)) as Hf. destruct (first_entry build _) as [r|]; [|done].
      destruct Hf as [Hr _]. simpl. by rewrite Hr.
  - unfold SupportedOn, entries_of. destruct (n_Applicability n) as [a|]; [|done].
    by destruct (ap_OsBuildVersions a).
Qed.

(** Support is never lost by servicing: a node supported on a build is
    supported on every build of a later branch and on every later revision of
    the same branch. *)
Theorem supported_monotone n b b' :
  serviced_before b b' → sr_Supported (SupportedOn n b) = true →
  sr_Supported (SupportedOn n b') = true.
Proof.
  intros Hb Hs. pose proof (SupportedOn_spec n b) as H1. rewrite Hs in H1.
  pose proof (SupportedOn_spec n b') as H2. destruct (sr_Supported (SupportedOn n b')); [done|].
  destruct H2 as [Hne H2]. destruct H1 as [[? _]|(l & e & l' & E & _ & Ha & _)]; [done|].
  rewrite Forall_forall in H2. exfalso. apply (H2 e); [rewrite E; set_solver|].
  destruct Ha as (c & Hc & Hor). exists c. split; [done|]. unfold serviced_before in Hb. lia.
Qed.

(** ** Printing and parsing *)

Definition build_ok (b : Build) : Prop :=
  0 ≤ bd_Major b ≤ max_int64 ∧ 0 ≤ bd_Minor b ≤ max_int64 ∧
  0 ≤ bd_Build b ≤ max_int64 ∧ 0 ≤ bd_Revision b ≤ max_int64.

Lemma Itoa_dotless n : 0 ≤ n → contains_byte "." (Itoa n) = false.
Proof. intros. by eapply str_forall_not_contains; [apply Itoa_digits|]. Qed.

Lemma parse_parts_Itoa l :
  Forall (λ n, 0 ≤ n ≤ max_int64) l → parse_parts (map Itoa l) = Some l.
Proof.
  induction 1 as [|n l Hn _ IH]; [done|]. cbn [map parse_parts].
  rewrite Atoi_Itoa by (unfold in_int64, min_int64; lia).
  by rewrite (proj2 (Z.ltb_ge n 0)), IH by lia.
Qed.

Lemma dotted_printable l :
  Forall (λ n, 0 ≤ n ≤ max_int64) l → str_forall printable (join_byte "." (map Itoa l)) = true.
Proof.
  induction 1 as [|n l Hn _ IH]; [done|].
  assert (str_forall printable (Itoa n) = true) as Hp.
  { eapply str_forall_impl; [|apply Itoa_digits; lia]. unfold is_digit, printable. intros c E. btrue.
    rewrite !(proj2 (Z.leb_le _ _)) by lia. done. }
  destruct l as [|m l]; [done|]. cbn [map join_byte] in *. by rewrite str_forall_app, Hp.
Qed.

Lemma ParseBuild_dotted l :
  (3 ≤ length l ≤ 4)%nat → Forall (λ n, 0 ≤ n ≤ max_int64) l →
  ParseBuild (join_byte "." (map Itoa l)) =
  Ok (mkBuild (nth 0 l 0) (nth 1 l 0) (nth 2 l 0) (nth 3 l 0)).
Proof.
  intros Hl Hf. unfold ParseBuild. rewrite TrimSpace_id by (by apply dotted_printable).
  rewrite split_join.
  - rewrite length_map, parse_parts_Itoa by done.
    destruct (Z.ltb_spec (Z.of_nat (length l)) 3); [lia|].
    by destruct (Z.ltb_spec 4 (Z.of_nat (length l))); [lia|].
  - destruct l; [simpl in Hl; lia|done].
  - apply Forall_fmap. eapply Forall_impl; [exact Hf|]. intros n Hn. simpl in Hn. by apply Itoa_dotless, Hn.
Qed.

(** A build number printed is parsed back. *)
Theorem build_string_roundtrip b : build_ok b → ParseBuild (Build_String b) = Ok b.
Proof.
  intros (H1 & H2 & H3 & H4). unfold Build_String. destruct (Z.eqb_spec (bd_Revision b) 0) as [E|].
  - etrans; [apply (ParseBuild_dotted [bd_Major b; bd_Minor b; bd_Build b]); [simpl; lia|]|].
    { by repeat (apply Forall_cons; split). }
    destruct b; simpl in *; by subst.
  - etrans; [apply (ParseBuild_dotted [bd_Major b; bd_Minor b; bd_Build b; bd_Revision b]);
      [simpl; lia|]|].
    { by repeat (apply Forall_cons; split). }
    by destruct b.
Qed.

(** ** Witnesses *)

Definition backported : Node :=
  leaf_node "X" "" "./X" false FormatInt [AccessGet]
    (Some (mkApplicability ["10.0.22000"; "10.0.19044.1288"; "99.9.99999"] "1.0" [] false)) [].

Lemma supported_monotone_witness :
  sr_Matched (SupportedOn backported (mkBuild 10 0 19045 1300)) = "10.0.19044.1288" ∧
  sr_Supported (SupportedOn backported (mkBuild 10 0 26100 1)) = true.
Proof.
  split; [vm_compute; reflexivity|].
  apply (supported_monotone backported (mkBuild 10 0 19045 1300)).
  - left. vm_compute. reflexivity.
  - vm_compute. reflexivity.
Defined.

Lemma build_string_roundtrip_witness :
  ParseBuild "10.0.26100.9278" = Ok (mkBuild 10 0 26100 9278).
Proof.
  apply (build_string_roundtrip (mkBuild 10 0 26100 9278)).
  unfold build_ok, max_int64; simpl; lia.
Defined.
