(* ===== verification/SyncmlAuth.v ===== *)
(** * Credentials and challenges

    mdmprotocol/syncml/auth.go: the syncml:auth-md5 and syncml:auth-basic
    credentials, over executable definitions of base64.StdEncoding and
    md5.Sum.  A Go [[]byte] is a [string]. *)
From stdpp Require Import base gmap strings list.
From Stdlib Require Import ZArith Lia Ascii.
From S2P Require Import Prelude GoStrings SyncmlModel.

Local Open Scope Z_scope.
Local Open Scope go_scope.

(** ** base64.StdEncoding *)

Definition b64_char (n : Z) : ascii :=
  if n <? 26 then byte_of (65 + n)
  else if n <? 52 then byte_of (71 + n)
  else if n <? 62 then byte_of (n - 4)
  else if n =? 62 then "+"%char else "/"%char.

Definition b64_val (c : ascii) : option Z :=
  let b := byte_val c in
  if (65 <=? b) && (b <=? 90) then Some (b - 65)
  else if (97 <=? b) && (b <=? 122) then Some (b - 71)
  else if (48 <=? b) && (b <=? 57) then Some (b + 4)
  else if b =? 43 then Some 62
  else if b =? 47 then Some 63
  else None.

(** [EncodeToString]: three bytes to four characters, the rest padded. *)
Fixpoint b64_encode (s : string) : string :=
  match s with
  | String a (String b (String c s)) =>
      let v := byte_val a * 65536 + byte_val b * 256 + byte_val c in
      String (b64_char (v / 262144)) (String (b64_char (v / 4096 mod 64))
        (String (b64_char (v / 64 mod 64)) (String (b64_char (v mod 64)) (b64_encode s))))
  | String a (String b EmptyString) =>
      let v := byte_val a * 1024 + byte_val b * 4 in
      String (b64_char (v / 4096)) (String (b64_char (v / 64 mod 64))
        (String (b64_char (v mod 64)) "="))
  | String a EmptyString =>
      let v := byte_val a * 16 in
      String (b64_char (v / 64)) (String (b64_char (v mod 64)) "==")
  | EmptyString => ""
  end.

Definition is_pad (c : ascii) : bool := Ascii.eqb c "=".

(** The decoder after line ends are skipped: a group of four characters, the
    last of them possibly padded.  Unused trailing bits are not checked. *)
Fixpoint b64_groups (s : string) : option string :=
  match s with
  | EmptyString => Some ""
  | String a (String b (String c (String d s))) =>
      match b64_val a, b64_val b with
      | Some x, Some y =>
          let b1 := byte_of (x * 4 + y / 16) in
          if is_pad c then
            if is_pad d && bool_decide (s = "") then Some (String b1 "") else None
          else match b64_val c with
          | Some z =>
              let b2 := byte_of (y mod 16 * 16 + z / 4) in
              if is_pad d then
                if decide (s = "") then Some (String b1 (String b2 "")) else None
              else match b64_val d, b64_groups s with
              | Some w, Some t =>
                  Some (String b1 (String b2 (String (byte_of (z mod 4 * 64 + w)) t)))
              | _, _ => None
              end
          | None => None
          end
      | _, _ => None
      end
  | _ => None
  end.

Fixpoint skip_line_ends (s : string) : string :=
  match s with
  | EmptyString => ""
  | String c s => if (byte_val c =? 10) || (byte_val c =? 13) then skip_line_ends s
                  else String c (skip_line_ends s)
  end.

(** [DecodeString]. *)
Definition b64_decode (s : string) : option string := b64_groups (skip_line_ends s).

(** ** md5.Sum (RFC 1321) *)

Definition u32 (z : Z) : Z := z mod 2 ^ 32.
Definition not32 (z : Z) : Z := 2 ^ 32 - 1 - z.
Definition rotl32 (x n : Z) : Z := u32 (Z.lor (Z.shiftl x n) (Z.shiftr x (32 - n))).

Definition md5_K : list Z :=
  [0xD76AA478; 0xE8C7B756; 0x242070DB; 0xC1BDCEEE; 0xF57C0FAF; 0x4787C62A;
   0xA8304613; 0xFD469501; 0x698098D8; 0x8B44F7AF; 0xFFFF5BB1; 0x895CD7BE;
   0x6B901122; 0xFD987193; 0xA679438E; 0x49B40821; 0xF61E2562; 0xC040B340;
   0x265E5A51; 0xE9B6C7AA; 0xD62F105D; 0x02441453; 0xD8A1E681; 0xE7D3FBC8;
   0x21E1CDE6; 0xC33707D6; 0xF4D50D87; 0x455A14ED; 0xA9E3E905; 0xFCEFA3F8;
   0x676F02D9; 0x8D2A4C8A; 0xFFFA3942; 0x8771F681; 0x6D9D6122; 0xFDE5380C;
   0xA4BEEA44; 0x4BDECFA9; 0xF6BB4B60; 0xBEBFBC70; 0x289B7EC6; 0xEAA127FA;
   0xD4EF3085; 0x04881D05; 0xD9D4D039; 0xE6DB99E5; 0x1FA27CF8; 0xC4AC5665;
   0xF4292244; 0x432AFF97; 0xAB9423A7; 0xFC93A039; 0x655B59C3; 0x8F0CCC92;
   0xFFEFF47D; 0x85845DD1; 0x6FA87E4F; 0xFE2CE6E0; 0xA3014314; 0x4E0811A1;
   0xF7537E82; 0xBD3AF235; 0x2AD7D2BB; 0xEB86D391].

Definition md5_shifts (i : Z) : Z :=
  let r := i mod 4 in
  match i / 16 with
  | 0 => if r =? 0 then 7 else if r =? 1 then 12 else if r =? 2 then 17 else 22
  | 1 => if r =? 0 then 5 else if r =? 1 then 9 else if r =? 2 then 14 else 20
  | 2 => if r =? 0 then 4 else if r =? 1 then 11 else if r =? 2 then 16 else 23
  | _ => if r =? 0 then 6 else if r =? 1 then 10 else if r =? 2 then 15 else 21
  end.

Record md5_state := mkMd5 { md5_a : Z; md5_b : Z; md5_c : Z; md5_d : Z }.

Definition md5_init : md5_state := mkMd5 0x67452301 0xefcdab89 0x98badcfe 0x10325476.

Definition md5_mix (i b c d : Z) : Z * Z :=
  match i / 16 with
  | 0 => (Z.lor (Z.land b c) (Z.land (not32 b) d), i)
  | 1 => (Z.lor (Z.land d b) (Z.land (not32 d) c), (5 * i + 1) mod 16)
  | 2 => (Z.lxor b (Z.lxor c d), (3 * i + 5) mod 16)
  | _ => (Z.lxor c (Z.lor b (not32 d)), (7 * i) mod 16)
  end.

Definition md5_step (words : list Z) (s : md5_state) (ik : Z * Z) : md5_state :=
  let '(i, k) := ik in
  let '(f, g) := md5_mix i (md5_b s) (md5_c s) (md5_d s) in
  let f' := u32 (f + md5_a s + k + nth (Z.to_nat g) words 0) in
  mkMd5 (md5_d s) (u32 (md5_b s + rotl32 f' (md5_shifts i))) (md5_b s) (md5_c s).

Definition md5_block (s : md5_state) (words : list Z) : md5_state :=
  let t := foldl (md5_step words) s (zip (seqZ 0 64) md5_K) in
  mkMd5 (u32 (md5_a s + md5_a t)) (u32 (md5_b s + md5_b t)) (u32 (md5_c s + md5_c t))
    (u32 (md5_d s + md5_d t)).

Fixpoint string_bytes (s : string) : list Z :=
  match s with EmptyString => [] | String c s => byte_val c :: string_bytes s end.
Fixpoint bytes_string (l : list Z) : string :=
  match l with [] => "" | b :: l => String (byte_of b) (bytes_string l) end.

Fixpoint le_bytes (n : nat) (v : Z) : list Z :=
  match n with O => [] | S n => v mod 256 :: le_bytes n (v / 256) end.

Definition md5_pad (m : list Z) : list Z :=
  let n := Z.of_nat (length m) in
  m ++ 128 :: replicate (Z.to_nat ((55 - n) mod 64)) 0 ++ le_bytes 8 ((n * 8) mod 2 ^ 64).

Fixpoint le_words (l : list Z) : list Z :=
  match l with
  | a :: b :: c :: d :: l => a + b * 256 + c * 65536 + d * 16777216 :: le_words l
  | _ => []
  end.

Fixpoint md5_blocks (fuel : nat) (s : md5_state) (words : list Z) : md5_state :=
  match fuel with
  | O => s
  | S fuel =>
      match words with
      | [] => s
      | _ => md5_blocks fuel (md5_block s (take 16 words)) (drop 16 words)
      end
  end.

Definition md5_Sum (m : string) : string :=
  let words := le_words (md5_pad (string_bytes m)) in
  let s := md5_blocks (length words) md5_init words in
  bytes_string (le_bytes 4 (md5_a s) ++ le_bytes 4 (md5_b s) ++ le_bytes 4 (md5_c s) ++
                le_bytes 4 (md5_d s)).

Lemma md5_Sum_nonempty m : md5_Sum m ≠ "".
Proof. unfold md5_Sum. generalize (md5_blocks (length (le_words (md5_pad (string_bytes m))))
  md5_init (le_words (md5_pad (string_bytes m)))). intros s. cbn [le_bytes app bytes_string]. done. Qed.

(** ** auth.go *)

Definition CredentialHash (username password : string) : string :=
  md5_Sum (username +:+ ":" +:+ password).

Definition MD5DigestFromHash (credHash nonce : string) : string :=
  let inner := b64_encode credHash in
  let buf := inner +:+ ":" +:+ nonce in
  b64_encode (md5_Sum buf).

Definition MD5Digest (username password nonce : string) : string :=
  MD5DigestFromHash (CredentialHash username password) nonce.

(** [subtle.ConstantTimeCompare] is 1 exactly on equal slices. *)
Definition VerifyMD5 (received credHash nonce : string) : bool :=
  let want := MD5DigestFromHash credHash nonce in
  bool_decide (received = want).

Definition BasicCredential (username password : string) : string :=
  b64_encode (username +:+ ":" +:+ password).

Definition ParseBasicCredential (data : string) : result (string * string) :=
  match b64_decode (TrimSpace data) with
  | None => Err [syncml_ErrAuth]
  | Some raw =>
      match cut_byte ":" raw with
      | None => Err [syncml_ErrAuth]
      | Some (u, p) => Ok (u, p)
      end
  end.

(** [NewNonce]; [rand n] is what crypto/rand fills [n] bytes with, [None] its
    failure. *)
Definition NewNonce (rand : Z → option string) (n : Z) : result string :=
  if n <? 1 then Err [syncml_ErrAuth]
  else match rand n with
  | Some b => Ok b
  | None => Err [syncml_ErrAuth]
  end.

Definition NewMD5Cred (digest : string) : Cred :=
  mkCred (mkMeta FormatB64 AuthMD5 "" 0 "" 0 0) digest.

Definition NewBasicCred (username password : string) : Cred :=
  mkCred (mkMeta FormatB64 AuthBasic "" 0 "" 0 0) (BasicCredential username password).

Definition NewMD5Chal (nonce : string) : Chal :=
  mkChal (mkMeta FormatB64 AuthMD5 "" 0 (b64_encode nonce) 0 0).

Definition NewBasicChal : Chal := mkChal (mkMeta FormatB64 AuthBasic "" 0 "" 0 0).

Definition Chal_Nonce (c : option Chal) : result string :=
  match c with
  | None => Err [syncml_ErrAuth]
  | Some c =>
      if decide (Meta_NextNonce (Chal_Meta c) = "") then Err [syncml_ErrAuth]
      else match b64_decode (TrimSpace (Meta_NextNonce (Chal_Meta c))) with
      | None => Err [syncml_ErrAuth]
      | Some b => if len b =? 0 then Err [] else Ok b
      end
  end.

(** ** Lemmas *)

(** Induction three bytes at a time. *)
Lemma string_ind3 (P : string → Prop) :
  P "" → (∀ a, P (String a "")) → (∀ a b, P (String a (String b ""))) →
  (∀ a b c s, P s → P (String a (String b (String c s)))) → ∀ s, P s.
Proof.
  intros H0 H1 H2 H3. fix IH 1. intros [|a [|b [|c s]]]; [done..|].
  apply H3, IH.
Qed.

Lemma b64_val_char n : 0 ≤ n < 64 → b64_val (b64_char n) = Some n.
Proof.
  intros Hn. unfold b64_char.
  destruct (Z.ltb_spec n 26); [|destruct (Z.ltb_spec n 52); [|destruct (Z.ltb_spec n 62);
    [|destruct (Z.eqb_spec n 62); [by subst|by replace n with 63 by lia]]]];
  unfold b64_val; rewrite byte_val_of by lia;
  repeat match goal with |- context [?a <=? ?b] => destruct (Z.leb_spec a b); try lia end;
  simpl; f_equal; lia.
Qed.

(** base64 writes printable ASCII, and padding only as such. *)
Lemma b64_char_ok n : 0 ≤ n < 64 → printable (b64_char n) = true ∧ is_pad (b64_char n) = false.
Proof.
  intros Hn.
  assert (forallb (λ n, printable (b64_char n) && negb (is_pad (b64_char n))) (seqZ 0 64) = true)
    as Hall by reflexivity.
  rewrite forallb_forall in Hall. specialize (Hall n).
  rewrite <- list_elem_of_In, elem_of_seqZ in Hall. specialize (Hall ltac:(lia)). btrue.
  done.
Qed.

Lemma b64_encode_nonempty s : s ≠ "" → b64_encode s ≠ "".
Proof. by destruct s as [|a [|b [|c s]]]. Qed.

Lemma b64_encode_ok s : str_forall printable (b64_encode s) = true.
Proof.
  assert (∀ v, 0 ≤ v < 64 → printable (b64_char v) = true) as Hv by (intros; by apply b64_char_ok).
  assert (∀ v, printable (b64_char (v mod 64)) = true) as Hm.
  { intros v. apply Hv. by apply Z.mod_pos_bound. }
  induction s as [|a|a b|a b c s IH] using string_ind3; cbn [b64_encode str_forall];
    rewrite ?Hm, ?IH; try done.
  all: pose proof (byte_val_range a); try pose proof (byte_val_range b);
    try pose proof (byte_val_range c).
  all: rewrite Hv; [done|split; [apply Z.div_pos|apply Z.div_lt_upper_bound]; lia].
Qed.

Lemma skip_line_ends_id s : str_forall printable s = true → skip_line_ends s = s.
Proof.
  induction s as [|c s IH]; simpl; [done|]. intros E. btrue.
  unfold printable in *. btrue. rewrite IH by done.
  destruct (Z.eqb_spec (byte_val c) 10); [lia|]. destruct (Z.eqb_spec (byte_val c) 13); [lia|].
  done.
Qed.

(** Bytes of a value below 256. *)
Lemma byte_of_eq n c : n = byte_val c → byte_of n = c.
Proof. intros ->. apply byte_of_val. Qed.

Lemma b64_groups_encode s : b64_groups (b64_encode s) = Some s.
Proof.
  assert (∀ v, 0 ≤ v < 64 → is_pad (b64_char v) = false) as Hp by (intros; by apply b64_char_ok).
  assert (∀ v, 0 ≤ v mod 64 < 64) as Hm by (intros; by apply Z.mod_pos_bound).
  induction s as [|a|a b|a b c s IH] using string_ind3; cbn [b64_encode b64_groups].
  - done.
  - pose proof (byte_val_range a). rewrite !b64_val_char by
      (first [apply Hm|split; [apply Z.div_pos|apply Z.div_lt_upper_bound]; lia]).
    simpl. do 2 f_equal. apply byte_of_eq. Z.to_euclidean_division_equations. lia.
  - pose proof (byte_val_range a). pose proof (byte_val_range b).
    rewrite Hp by apply Hm. rewrite !b64_val_char by
      (first [apply Hm|split; [apply Z.div_pos|apply Z.div_lt_upper_bound]; lia]).
    simpl. do 3 f_equal; [|f_equal]; apply byte_of_eq; Z.to_euclidean_division_equations; lia.
  - pose proof (byte_val_range a). pose proof (byte_val_range b). pose proof (byte_val_range c).
    rewrite !Hp by apply Hm. rewrite !b64_val_char by
      (first [apply Hm|split; [apply Z.div_pos|apply Z.div_lt_upper_bound]; lia]).
    rewrite IH.
    do 2 f_equal; [|f_equal; [|f_equal]]; apply byte_of_eq;
      Z.to_euclidean_division_equations; lia.
Qed.

Lemma b64_decode_encode s : b64_decode (TrimSpace (b64_encode s)) = Some s.
Proof.
  rewrite TrimSpace_id by apply b64_encode_ok. unfold b64_decode.
  rewrite skip_line_ends_id by apply b64_encode_ok. apply b64_groups_encode.
Qed.

(** ** Properties *)

(** A basic credential decodes to the user name and password it was made
    from, whatever bytes they hold, provided the user name has no colon. *)
Theorem basic_credential_roundtrip username password :
  contains_byte ":" username = false →
  ParseBasicCredential (Cred_Data (NewBasicCred username password)) = Ok (username, password).
Proof.
  intros Hu. unfold ParseBasicCredential, NewBasicCred, BasicCredential. simpl.
  rewrite b64_decode_encode.
  assert (cut_byte ":" (username +:+ ":" +:+ password) = Some (username, password)) as ->; [|done].
  by apply cut_byte_Some.
Qed.

Lemma basic_credential_roundtrip_witness :
  ParseBasicCredential (Cred_Data (NewBasicCred "Bruce2" "Oh:Behave")) =
  Ok ("Bruce2", "Oh:Behave").
Proof. apply basic_credential_roundtrip. reflexivity. Defined.

(** The worked example of OMA DM Security 5.3.2. *)
Example MD5Digest_example :
  MD5Digest "Bruce2" "OhBehave" "Nonce" = "Zz6EivR3yeaaENcRN6lpAQ==".
Proof. vm_compute. reflexivity. Qed.

(** The MD5 exchange: a client that reads the nonce out of the server's
    challenge and digests its user name and password with it is accepted by a
    server that stored only the credential hash, and no other answer to that
    challenge is. *)
Theorem md5_challenge_response username password nonce received :
  nonce ≠ "" →
  ∃ n, Chal_Nonce (Some (NewMD5Chal nonce)) = Ok n ∧
    (VerifyMD5 received (CredentialHash username password) nonce = true ↔
     received = MD5Digest username password n).
Proof.
  intros Hn. exists nonce. split.
  - unfold Chal_Nonce, NewMD5Chal; simpl.
    rewrite decide_False.
    + rewrite b64_decode_encode. destruct (Z.eqb_spec (len nonce) 0); [|done].
      by apply len_0 in e.
    + by destruct nonce as [|a [|b [|c ?]]].
  - unfold VerifyMD5, MD5Digest. by rewrite bool_decide_eq_true.
Qed.

Lemma md5_challenge_response_witness :
  ∃ n, Chal_Nonce (Some (NewMD5Chal "Nonce")) = Ok n ∧
    (VerifyMD5 "Zz6EivR3yeaaENcRN6lpAQ==" (CredentialHash "Bruce2" "OhBehave") "Nonce" = true ↔
     "Zz6EivR3yeaaENcRN6lpAQ==" = MD5Digest "Bruce2" "OhBehave" n).
Proof. apply md5_challenge_response. discriminate. Defined.
