(* ===== verification/GoCrypto.v ===== *)
(** * Hashes of the Go standard library

    SHA-1, SHA-256, HMAC and PBKDF2, as executable functions on byte strings:
    certificate thumbprints and the verifiers of basic credentials are made
    with them. *)
From stdpp Require Import base gmap strings list.
From Stdlib Require Import ZArith Lia Ascii.
From S2P Require Import Prelude GoStrings SyncmlAuth.

Local Open Scope Z_scope.

Definition rotr32 (x n : Z) : Z := u32 (Z.lor (Z.shiftr x n) (Z.shiftl x (32 - n))).

Definition be_bytes (n : nat) (v : Z) : list Z := rev (le_bytes n v).

(** Merkle-Damgard padding with a big-endian length. *)
Definition sha_pad (m : list Z) : list Z :=
  let n := Z.of_nat (length m) in
  m ++ 128 :: replicate (Z.to_nat ((55 - n) mod 64)) 0 ++ be_bytes 8 ((n * 8) mod 2 ^ 64).

Fixpoint be_words (l : list Z) : list Z :=
  match l with
  | a :: b :: c :: d :: l => a * 16777216 + b * 65536 + c * 256 + d :: be_words l
  | _ => []
  end.

(** Fold a compression function over blocks of sixteen words. *)
Fixpoint sha_blocks (f : list Z → list Z → list Z) (fuel : nat) (h : list Z) (words : list Z)
    : list Z :=
  match fuel with
  | O => h
  | S fuel =>
      match words with
      | [] => h
      | _ => sha_blocks f fuel (f h (take 16 words)) (drop 16 words)
      end
  end.

Definition word (l : list Z) (i : nat) : Z := nth i l 0.

(** ** crypto/sha256 *)

(** FIPS 180-4 takes its constants from the first primes: the round constants
    are the first 32 fractional bits of their cube roots, the initial state
    those of the square roots of the first eight. *)
Definition is_prime (n : Z) : bool :=
  forallb (λ d, negb (n mod d =? 0)) (seqZ 2 (Z.sqrt n - 1)).

Definition first_primes (n : nat) : list Z := take n (List.filter is_prime (seqZ 2 310)).

(** The integer cube root of a number below [2 ^ (3 * bits)], bit by bit. *)
Definition cube_root (bits n : Z) : Z :=
  foldr (λ b r, let r' := r + 2 ^ b in if r' ^ 3 <=? n then r' else r) 0 (seqZ 0 bits).

Definition sha256_K : list Z :=
  Eval vm_compute in map (λ p, u32 (cube_root 36 (p * 2 ^ 96))) (first_primes 64).

Definition sha256_H0 : list Z :=
  Eval vm_compute in map (λ p, u32 (Z.sqrt (p * 2 ^ 64))) (first_primes 8).

(** The message schedule, newest word first. *)
Fixpoint sha256_schedule (n : nat) (w : list Z) : list Z :=
  match n with
  | O => w
  | S n =>
      let x := word w 14 in
      let y := word w 1 in
      let s0 := Z.lxor (rotr32 x 7) (Z.lxor (rotr32 x 18) (Z.shiftr x 3)) in
      let s1 := Z.lxor (rotr32 y 17) (Z.lxor (rotr32 y 19) (Z.shiftr y 10)) in
      sha256_schedule n (u32 (word w 15 + s0 + word w 6 + s1) :: w)
  end.

Definition sha256_round (h : list Z) (kw : Z * Z) : list Z :=
  let '(k, w) := kw in
  let a := word h 0 in let b := word h 1 in let c := word h 2 in let d := word h 3 in
  let e := word h 4 in let f := word h 5 in let g := word h 6 in
  let s1 := Z.lxor (rotr32 e 6) (Z.lxor (rotr32 e 11) (rotr32 e 25)) in
  let ch := Z.lxor (Z.land e f) (Z.land (not32 e) g) in
  let t1 := word h 7 + s1 + ch + k + w in
  let s0 := Z.lxor (rotr32 a 2) (Z.lxor (rotr32 a 13) (rotr32 a 22)) in
  let maj := Z.lxor (Z.land a b) (Z.lxor (Z.land a c) (Z.land b c)) in
  [u32 (t1 + s0 + maj); a; b; c; u32 (d + t1); e; f; g].

Definition sha256_block (h words : list Z) : list Z :=
  let w := rev (sha256_schedule 48 (rev words)) in
  zip_with (λ x y, u32 (x + y)) h (foldl sha256_round h (zip sha256_K w)).

Definition digest_string (h : list Z) : string := bytes_string (concat (map (be_bytes 4) h)).

Definition sha256_Sum (m : string) : string :=
  let words := be_words (sha_pad (string_bytes m)) in
  digest_string (sha_blocks sha256_block (length words) sha256_H0 words).

(** ** crypto/sha1 *)

Definition sha1_H0 : list Z := [0x67452301; 0xefcdab89; 0x98badcfe; 0x10325476; 0xc3d2e1f0].

Fixpoint sha1_schedule (n : nat) (w : list Z) : list Z :=
  match n with
  | O => w
  | S n =>
      let x := Z.lxor (Z.lxor (word w 2) (word w 7)) (Z.lxor (word w 13) (word w 15)) in
      sha1_schedule n (rotl32 x 1 :: w)
  end.

Definition sha1_round (h : list Z) (iw : Z * Z) : list Z :=
  let '(i, w) := iw in
  let a := word h 0 in let b := word h 1 in let c := word h 2 in let d := word h 3 in
  let fk :=
    if i <? 20 then (Z.lor (Z.land b c) (Z.land (not32 b) d), 0x5a827999)
    else if i <? 40 then (Z.lxor b (Z.lxor c d), 0x6ed9eba1)
    else if i <? 60 then (Z.lor (Z.land b c) (Z.lor (Z.land b d) (Z.land c d)), 0x8f1bbcdc)
    else (Z.lxor b (Z.lxor c d), 0xca62c1d6) in
  [u32 (rotl32 a 5 + fk.1 + word h 4 + fk.2 + w); a; rotl32 b 30; c; d].

Definition sha1_block (h words : list Z) : list Z :=
  let w := rev (sha1_schedule 64 (rev words)) in
  zip_with (λ x y, u32 (x + y)) h (foldl sha1_round h (zip (seqZ 0 80) w)).

Definition sha1_Sum (m : string) : string :=
  let words := be_words (sha_pad (string_bytes m)) in
  digest_string (sha_blocks sha1_block (length words) sha1_H0 words).

(** ** HMAC-SHA256 and PBKDF2 *)

Definition xor_pad (k : Z) (key : list Z) : string :=
  bytes_string (map (Z.lxor k) (key ++ replicate (64 - length key) 0)).

Definition hmac_sha256 (key msg : string) : string :=
  let key := if 64 <? len key then sha256_Sum key else key in
  let k := string_bytes key in
  sha256_Sum (xor_pad 0x5c k +:+ sha256_Sum (xor_pad 0x36 k +:+ msg)).

Definition xor_bytes (a b : list Z) : list Z := zip_with Z.lxor a b.

(** [n] further iterations from U and the running exclusive or T. *)
Fixpoint pbkdf2_loop (n : nat) (password u : string) (t : list Z) : list Z :=
  match n with
  | O => t
  | S n => let u := hmac_sha256 password u in
           pbkdf2_loop n password u (xor_bytes t (string_bytes u))
  end.

(** [pbkdf2.Key(sha256.New, password, salt, iter, 32)]: one block. *)
Definition pbkdf2_Key (password salt : string) (iter : Z) : string :=
  let u1 := hmac_sha256 password (salt +:+ bytes_string (be_bytes 4 1)) in
  bytes_string (pbkdf2_loop (Z.to_nat (iter - 1)) password u1 (string_bytes u1)).

Definition hex_digit (n : Z) : ascii := byte_of (if n <? 10 then 48 + n else 87 + n).
(** [hex.EncodeToString] *)
Fixpoint hex_encode (s : string) : string :=
  match s with
  | EmptyString => ""
  | String c s => String (hex_digit (byte_val c / 16))
                    (String (hex_digit (byte_val c mod 16)) (hex_encode s))
  end.

(** ** Lengths *)

Lemma length_le_bytes n v : length (le_bytes n v) = n.
Proof. revert v. induction n as [|n IH]; intros v; simpl; [done|]. by rewrite IH. Qed.

Lemma length_be_bytes n v : length (be_bytes n v) = n.
Proof. unfold be_bytes. by rewrite length_rev, length_le_bytes. Qed.

Lemma length_bytes_string l : String.length (bytes_string l) = length l.
Proof. induction l as [|b l IH]; simpl; [done|]. by rewrite IH. Qed.

Lemma length_string_bytes s : length (string_bytes s) = String.length s.
Proof. induction s as [|c s IH]; simpl; [done|]. by rewrite IH. Qed.

Lemma length_digest h : String.length (digest_string h) = (4 * length h)%nat.
Proof.
  unfold digest_string. rewrite length_bytes_string.
  induction h as [|x h IH]; [done|]. cbn [map concat]. rewrite length_app, IH, length_be_bytes.
  simpl. lia.
Qed.

Lemma length_sha_blocks f n fuel h words :
  (∀ h w, length h = n → length (f h w) = n) → length h = n →
  length (sha_blocks f fuel h words) = n.
Proof.
  intros Hf. revert h words. induction fuel as [|fuel IH]; intros h words Hh; [done|].
  cbn [sha_blocks]. destruct words; [done|]. apply IH. by apply Hf.
Qed.

Lemma length_sha256 m : String.length (sha256_Sum m) = 32%nat.
Proof.
  unfold sha256_Sum. rewrite length_digest, (length_sha_blocks _ 8); [done| |done].
  intros h w Hh. unfold sha256_block. rewrite length_zip_with, Hh.
  assert (∀ l h, length h = 8%nat → length (foldl sha256_round h l) = 8%nat) as Hr.
  { clear. induction l as [|[k w] l IH]; intros h Hh; [done|]. by apply IH. }
  by rewrite Hr.
Qed.

Lemma length_pbkdf2_loop n p u t :
  length t = 32%nat → length (pbkdf2_loop n p u t) = 32%nat.
Proof.
  revert u t. induction n as [|n IH]; intros u t Ht; [done|]. cbn [pbkdf2_loop].
  apply IH. unfold xor_bytes. rewrite length_zip_with, Ht, length_string_bytes.
  unfold hmac_sha256. by rewrite length_sha256.
Qed.

Lemma length_pbkdf2 password salt iter : String.length (pbkdf2_Key password salt iter) = 32%nat.
Proof.
  unfold pbkdf2_Key. rewrite length_bytes_string. apply length_pbkdf2_loop.
  rewrite length_string_bytes. unfold hmac_sha256. apply length_sha256.
Qed.

(** ** Published test vectors *)

Example sha256_vector :
  hex_encode (sha256_Sum "abc") =
  "ba7816bf8f01cfea414140de5dae2223b00361a396177a9cb410ff61f20015ad".
Proof. vm_compute. reflexivity. Qed.

Example sha1_vector :
  hex_encode (sha1_Sum "abc") = "a9993e364706816aba3e25717850c26c9cd0d89d".
Proof. vm_compute. reflexivity. Qed.

Example pbkdf2_vector :
  hex_encode (pbkdf2_Key "password" "salt" 2) =
  "ae4d0c95af6b46d32d0adff928f06dd02a303f8ef3c251dfd6e2d85a95474c43".
Proof. vm_compute. reflexivity. Qed.
