(* ===== verification/MdmCommand.v ===== *)
(** * Management commands

    mdmprotocol/mdm/command.go (the builders, Validate) and build.go (CmdID
    assignment, deep copies, sizes). *)
From stdpp Require Import base gmap strings list.
From Stdlib Require Import ZArith Lia Ascii.
From S2P Require Import Prelude GoStrings GoUrl SyncmlModel Validate Response Encode.

Local Open Scope Z_scope.
Local Open Scope go_scope.

(** ** Scopes *)

(** [type Scope string] *)
Definition Scope := string.
Definition ScopeDevice : Scope := "device".
Definition ScopeUser : Scope := "user".

Definition ScopeOf (uri : string) : Scope :=
  let u := TrimSpace uri in
  if ((7 <=? len u) && EqualFold (stake 7 u) "./User/") || EqualFold u "./User"
  then ScopeUser else ScopeDevice.

(** ** [type Command struct] *)

(** A nil [*Command] and a Command with a nil Body, which every function
    treats alike, are both [None : option MCommand]. *)
Record MCommand := mkMCommand {
  cmd_ID : string;
  cmd_Scope : Scope;
  cmd_Body : Command;
  cmd_Internal : bool }.

(** ** Builder options *)

Record options := mkOptions {
  o_format : string; o_typ : string; o_xml : bool; o_id : string }.

Definition Option := options → options.

Definition WithFormat (f : string) : Option := λ o, mkOptions f (o_typ o) (o_xml o) (o_id o).
Definition WithType (t : string) : Option := λ o, mkOptions (o_format o) t (o_xml o) (o_id o).
Definition WithXML : Option := λ o, mkOptions (o_format o) (o_typ o) true (o_id o).
Definition WithID (id : string) : Option := λ o, mkOptions (o_format o) (o_typ o) (o_xml o) id.

Definition build (opts : list Option) : options :=
  foldl (λ o f, f o) (mkOptions "" "" false "") opts.

Definition item (uri : string) (value : option string) (o : options) : result Item :=
  match CheckLocURI uri with
  | Err e => Err (mdm_ErrCommand :: e)
  | Ok _ =>
      Ok (mkItem uri ""
        (if nonempty (o_format o) || nonempty (o_typ o)
         then Some (mkMeta (o_format o) (o_typ o) "" 0 "" 0 0) else None)
        (match value with
         | Some v => Some (if o_xml o then mkData "" v "" else mkData v "" "")
         | None => None
         end)
        false)
  end.

(** The bodies the builders start from, with no CmdID yet. *)
Definition add_of (its : list Item) : Command := CAdd (mkAdd "" false None None its).
Definition replace_of (its : list Item) : Command := CReplace (mkReplace "" false None None its).
Definition delete_of (its : list Item) : Command := CDelete (mkDelete "" false None None its).
Definition get_of (its : list Item) : Command := CGet (mkGet "" false "" None None its).
Definition exec_of (its : list Item) : Command := CExec (mkExec "" false None None "" its).

Definition NewAdd (uri value : string) (opts : list Option) : result MCommand :=
  let o := build opts in
  let? it := item uri (Some value) o in
  Ok (mkMCommand (o_id o) (ScopeOf uri) (add_of [it]) false).

Definition NewReplace (uri value : string) (opts : list Option) : result MCommand :=
  let o := build opts in
  let? it := item uri (Some value) o in
  Ok (mkMCommand (o_id o) (ScopeOf uri) (replace_of [it]) false).

Definition NewDelete (uri : string) (opts : list Option) : result MCommand :=
  let o := build opts in
  let? it := item uri None o in
  Ok (mkMCommand (o_id o) (ScopeOf uri) (delete_of [it]) false).

(** The loop of NewGet. *)
Fixpoint get_items (scope : Scope) (o : options) (uris : list string) : result (list Item) :=
  match uris with
  | [] => Ok []
  | u :: uris =>
      let? it := item u None o in
      if decide (ScopeOf u = scope) then
        let? its := get_items scope o uris in Ok (it :: its)
      else Err [mdm_ErrScope]
  end.

Definition NewGet (uris : list string) (opts : list Option) : result MCommand :=
  match uris with
  | [] => Err [mdm_ErrCommand]
  | u0 :: _ =>
      let o := build opts in
      let scope := ScopeOf u0 in
      let? its := get_items scope o uris in
      Ok (mkMCommand (o_id o) scope (get_of its) false)
  end.

Definition NewExec (uri value : string) (opts : list Option) : result MCommand :=
  let o := build opts in
  let v := if decide (value = "") then None else Some value in
  let? it := item uri v o in
  Ok (mkMCommand (o_id o) (ScopeOf uri) (exec_of [it]) false).

(** [itemsOf]: the items of a leaf command. *)
Definition itemsOf (c : Command) : list Item :=
  match c with
  | CAdd b => Add_Items b
  | CReplace b => Replace_Items b
  | CDelete b => Delete_Items b
  | CGet b => Get_Items b
  | CExec b => Exec_Items b
  | _ => []
  end.

Definition targets (c : Command) : list string := map Item_Target (itemsOf c).

(** [Leaves]. *)
Fixpoint Leaves (c : Command) : list Command :=
  match c with
  | CAtomic _ _ _ cs | CSequence _ _ _ cs => concat (map Leaves cs)
  | c => [c]
  end.

(** The refusals of NewAtomic's type switch. *)
Definition is_get_or_atomic (c : Command) : bool :=
  match c with CGet _ | CAtomic _ _ _ _ => true | _ => false end.
Definition atomic_refuses (c : Command) : bool :=
  match c with
  | CAtomic _ _ _ _ | CGet _ => true
  | CSequence _ _ _ inner => existsb is_get_or_atomic inner
  | _ => false
  end.

(** The loop over a member's targets; [seen] is what was last done to a node. *)
Fixpoint atomic_targets (seen : gmap string string) (name : string) (uris : list string)
    : result (gmap string string) :=
  match uris with
  | [] => Ok seen
  | uri :: uris =>
      if decide (default "" (seen !! uri) = CmdAdd ∧ name = CmdReplace)
      then Err [mdm_ErrCommand]
      else atomic_targets (<[uri := name]> seen) name uris
  end.

Fixpoint atomic_members (scope : Scope) (seen : gmap string string)
    (cmds : list (option MCommand)) : result (list Command) :=
  match cmds with
  | [] => Ok []
  | None :: _ => Err [mdm_ErrCommand]
  | Some c :: cmds =>
      if atomic_refuses (cmd_Body c) then Err [mdm_ErrCommand]
      else if decide (cmd_Scope c = scope) then
        let? seen := atomic_targets seen (Command_Name (cmd_Body c)) (targets (cmd_Body c)) in
        let? body := atomic_members scope seen cmds in
        Ok (cmd_Body c :: body)
      else Err [mdm_ErrScope]
  end.

Definition NewAtomic (cmds : list (option MCommand)) (opts : list Option) : result MCommand :=
  match cmds with
  | [] | None :: _ => Err [mdm_ErrCommand]
  | Some c0 :: _ =>
      let o := build opts in
      let? body := atomic_members (cmd_Scope c0) ∅ cmds in
      Ok (mkMCommand (o_id o) (cmd_Scope c0) (CAtomic "" false None body) false)
  end.

Definition is_group (c : Command) : bool :=
  match c with CAtomic _ _ _ _ | CSequence _ _ _ _ => true | _ => false end.

Fixpoint sequence_members (scope : Scope) (cmds : list (option MCommand))
    : result (list Command) :=
  match cmds with
  | [] => Ok []
  | None :: _ => Err [mdm_ErrCommand]
  | Some c :: cmds =>
      if is_group (cmd_Body c) then Err [mdm_ErrCommand]
      else if decide (cmd_Scope c = scope) then
        let? body := sequence_members scope cmds in Ok (cmd_Body c :: body)
      else Err [mdm_ErrScope]
  end.

Definition NewSequence (cmds : list (option MCommand)) (opts : list Option) : result MCommand :=
  match cmds with
  | [] | None :: _ => Err [mdm_ErrCommand]
  | Some c0 :: _ =>
      let o := build opts in
      let? body := sequence_members (cmd_Scope c0) cmds in
      Ok (mkMCommand (o_id o) (cmd_Scope c0) (CSequence "" false None body) false)
  end.

(** ** Validate *)

Fixpoint check_items (scope : Scope) (its : list Item) : result unit :=
  match its with
  | [] => Ok tt
  | it :: its =>
      match CheckLocURI (Item_Target it) with
      | Err e => Err (mdm_ErrCommand :: e)
      | Ok _ => if decide (ScopeOf (Item_Target it) = scope) then check_items scope its
                else Err [mdm_ErrScope]
      end
  end.

Definition is_exec (c : Command) : bool := match c with CExec _ => true | _ => false end.

Definition check_leaf (scope : Scope) (leaf : Command) : result unit :=
  let items := itemsOf leaf in
  if decide (items = []) then Err [mdm_ErrCommand]
  else if is_exec leaf && negb (Nat.eqb (length items) 1) then Err [mdm_ErrCommand]
  else check_items scope items.

Fixpoint check_leaves (scope : Scope) (leaves : list Command) : result unit :=
  match leaves with
  | [] => Ok tt
  | leaf :: leaves => let? _ := check_leaf scope leaf in check_leaves scope leaves
  end.

Definition is_client_command (c : Command) : bool :=
  match c with CStatus _ | CResults _ | CAlert _ => true | _ => false end.

Definition MValidate (c : option MCommand) : result unit :=
  match c with
  | None => Err [mdm_ErrCommand]
  | Some c =>
      if is_client_command (cmd_Body c) then Err [mdm_ErrCommand]
      else
        let leaves := Leaves (cmd_Body c) in
        if decide (leaves = []) then Err [mdm_ErrCommand]
        else
          let? _ := check_leaves (cmd_Scope c) leaves in
          match cmd_Body c with
          | CAtomic _ _ _ members =>
              let? _ := NewAtomic
                (map (λ inner, Some (mkMCommand "" (cmd_Scope c) inner false)) members) [] in
              Ok tt
          | _ => Ok tt
          end
  end.

(** ** Unenrolling *)

(** dmclient.DeviceProviderUnenroll and dmclient.DeviceUnenroll. *)
Definition DeviceProviderUnenroll (providerID : string) : string :=
  "./Device/Vendor/MSFT/DMClient/Provider/" +:+ PathEscape providerID +:+ "/Unenroll".
Definition DeviceUnenroll : string := "./Device/Vendor/MSFT/DMClient/Unenroll".

Definition NewUnenroll (providerID : string) : result MCommand :=
  if decide (providerID = "") then Err [mdm_ErrCommand]
  else NewExec (DeviceProviderUnenroll providerID) "" [].

Definition NewUnenrollDevice : result MCommand := NewExec DeviceUnenroll "" [].

(** ** build.go *)

Definition assignID (c : Command) (id : string) : Command :=
  match c with
  | CAdd b => CAdd (mkAdd id (Add_NoResp b) (Add_Cred b) (Add_Meta b) (Add_Items b))
  | CReplace b => CReplace (mkReplace id (Replace_NoResp b) (Replace_Cred b) (Replace_Meta b)
                    (Replace_Items b))
  | CDelete b => CDelete (mkDelete id (Delete_NoResp b) (Delete_Cred b) (Delete_Meta b)
                   (Delete_Items b))
  | CGet b => CGet (mkGet id (Get_NoResp b) (Get_Lang b) (Get_Cred b) (Get_Meta b) (Get_Items b))
  | CExec b => CExec (mkExec id (Exec_NoResp b) (Exec_Cred b) (Exec_Meta b) (Exec_Correlator b)
                 (Exec_Items b))
  | CAtomic _ n m cs => CAtomic id n m cs
  | CSequence _ n m cs => CSequence id n m cs
  | c => c
  end.

Definition setItems (c : Command) (items : list Item) : Command :=
  match c with
  | CAdd b => CAdd (mkAdd (Add_CmdID b) (Add_NoResp b) (Add_Cred b) (Add_Meta b) items)
  | CReplace b => CReplace (mkReplace (Replace_CmdID b) (Replace_NoResp b) (Replace_Cred b)
                    (Replace_Meta b) items)
  | CDelete b => CDelete (mkDelete (Delete_CmdID b) (Delete_NoResp b) (Delete_Cred b)
                   (Delete_Meta b) items)
  | CGet b => CGet (mkGet (Get_CmdID b) (Get_NoResp b) (Get_Lang b) (Get_Cred b) (Get_Meta b)
                items)
  | CExec b => CExec (mkExec (Exec_CmdID b) (Exec_NoResp b) (Exec_Cred b) (Exec_Meta b)
                 (Exec_Correlator b) items)
  | c => c
  end.

(** [cloneItems] and [cloneCommand] copy into fresh memory; as values the
    copies equal their originals ([cloneCommand_id]). *)
Definition cloneItems (items : list Item) : list Item :=
  map (λ it, mkItem (Item_Target it) (Item_Source it)
    (match Item_Meta it with Some m => Some m | None => None end)
    (match Item_Data it with Some d => Some d | None => None end) (Item_MoreData it)) items.

Fixpoint cloneCommand (c : Command) : Command :=
  match c with
  | CAdd b => setItems (CAdd b) (cloneItems (Add_Items b))
  | CReplace b => setItems (CReplace b) (cloneItems (Replace_Items b))
  | CDelete b => setItems (CDelete b) (cloneItems (Delete_Items b))
  | CGet b => setItems (CGet b) (cloneItems (Get_Items b))
  | CExec b => setItems (CExec b) (cloneItems (Exec_Items b))
  | CAtomic i n m cs => CAtomic i n m (map cloneCommand cs)
  | CSequence i n m cs => CSequence i n m (map cloneCommand cs)
  | c => c
  end.

Definition commandSize (c : Command) : Z :=
  match EncodeCommand c (mkEncodeOptions "" false) with
  | Ok b => len b
  | Err _ => 0
  end.

(** [itoa] fills a 20-byte array from its end. *)
Fixpoint itoa_loop (room : nat) (n : Z) (b : string) : string :=
  match room with
  | O => b
  | S room => if 0 <? n then itoa_loop room (n / 10) (String (byte_of (48 + n mod 10)) b) else b
  end.
Definition itoa (n : Z) : string :=
  if n =? 0 then "0"
  else
    let neg := n <? 0 in
    let n := if neg then wrap64 (- n) else n in
    let b := itoa_loop 20 n "" in
    if neg then String "-" b else b.

(** ** What a valid command is *)

Definition target_ok (scope : Scope) (it : Item) : Prop :=
  CheckLocURI (Item_Target it) = Ok tt ∧ ScopeOf (Item_Target it) = scope.

Definition leaf_ok (scope : Scope) (leaf : Command) : Prop :=
  itemsOf leaf ≠ [] ∧ (is_exec leaf = true → length (itemsOf leaf) = 1%nat) ∧
  Forall (target_ok scope) (itemsOf leaf).

(** The operations of an Atomic's members on nodes, in order. *)
Definition ops_of (members : list Command) : list (string * string) :=
  concat (map (λ c, map (λ u, (u, Command_Name c)) (targets c)) members).

(** The last operation on a node. *)
Definition last_op (ops : list (string * string)) (u : string) : option string :=
  last (omap (λ p, if decide (p.1 = u) then Some p.2 else None) ops).

(** A Replace never meets a node whose last operation was an Add. *)
Definition no_replace_after_add (ops : list (string * string)) : Prop :=
  ∀ pre u post, ops = pre ++ (u, CmdReplace) :: post → last_op pre u ≠ Some CmdAdd.

Definition atomic_ok (members : list Command) : Prop :=
  Forall (λ c, atomic_refuses c = false) members ∧ no_replace_after_add (ops_of members).

Definition mcommand_ok (c : MCommand) : Prop :=
  is_client_command (cmd_Body c) = false ∧
  Leaves (cmd_Body c) ≠ [] ∧
  Forall (leaf_ok (cmd_Scope c)) (Leaves (cmd_Body c)) ∧
  match cmd_Body c with CAtomic _ _ _ members => atomic_ok members | _ => True end.

(** ** Lemmas *)

Lemma check_items_iff scope its :
  check_items scope its = Ok tt ↔ Forall (target_ok scope) its.
Proof.
  induction its as [|it its IH]; simpl; [done|].
  rewrite Forall_cons, <- IH. unfold target_ok.
  destruct (CheckLocURI _) as [[]|e]; [|split; [done|by intros [[? _] _]]].
  case_decide; [naive_solver|]. split; [done|]. by intros [[_ ?] _].
Qed.

Lemma check_leaf_iff scope leaf : check_leaf scope leaf = Ok tt ↔ leaf_ok scope leaf.
Proof.
  unfold check_leaf, leaf_ok. rewrite <- check_items_iff.
  case_decide; [split; [done|by intros [? _]]|].
  destruct (is_exec leaf); simpl; [|naive_solver].
  destruct (Nat.eqb_spec (length (itemsOf leaf)) 1); simpl; [naive_solver|].
  split; [done|]. intros (_ & Hl & _). by destruct n; apply Hl.
Qed.

Lemma check_leaves_iff scope leaves :
  check_leaves scope leaves = Ok tt ↔ Forall (leaf_ok scope) leaves.
Proof.
  induction leaves as [|leaf leaves IH]; simpl; [done|].
  by rewrite result_bind_unit, Forall_cons, <- IH, <- check_leaf_iff.
Qed.

Lemma last_op_snoc ops u n v :
  last_op (ops ++ [(u, n)]) v = if decide (u = v) then Some n else last_op ops v.
Proof.
  unfold last_op. rewrite omap_app. simpl. case_decide; [by rewrite last_snoc|].
  by rewrite app_nil_r.
Qed.

(** [seen] is the last operation on each node of the prefix [ops]. *)
Definition seen_ok (seen : gmap string string) (ops : list (string * string)) : Prop :=
  ∀ u, seen !! u = last_op ops u.

Lemma seen_ok_snoc seen ops u n : seen_ok seen ops → seen_ok (<[u := n]> seen) (ops ++ [(u, n)]).
Proof.
  intros Hs v. rewrite last_op_snoc. case_decide as Hd.
  - subst. apply lookup_insert_eq.
  - rewrite lookup_insert_ne by done. apply Hs.
Qed.

(** The remaining operations [ops], after the prefix [pre]. *)
Definition rest_ok (pre ops : list (string * string)) : Prop :=
  ∀ mid u post, ops = mid ++ (u, CmdReplace) :: post → last_op (pre ++ mid) u ≠ Some CmdAdd.

Lemma rest_ok_cons pre u n ops :
  rest_ok pre ((u, n) :: ops) ↔
  ¬ (last_op pre u = Some CmdAdd ∧ n = CmdReplace) ∧ rest_ok (pre ++ [(u, n)]) ops.
Proof.
  split.
  - intros H. split.
    + intros [Hl ->]. apply (H [] u ops); [done|]. by rewrite app_nil_r.
    + intros mid v post ->. rewrite <- app_assoc. by apply (H ((u, n) :: mid) v post).
  - intros [Hn H] mid v post E. destruct mid as [|p mid]; simplify_eq/=.
    + rewrite app_nil_r. naive_solver.
    + specialize (H mid v post eq_refl). by rewrite <- app_assoc in H.
Qed.

Lemma rest_ok_nil pre : rest_ok pre [].
Proof. intros [|] ?? [=]. Qed.

Lemma rest_ok_app pre a b : rest_ok pre (a ++ b) ↔ rest_ok pre a ∧ rest_ok (pre ++ a) b.
Proof.
  revert pre. induction a as [|[u n] a IH]; intros pre; simpl.
  - rewrite app_nil_r. split; [|by intros [_ ?]]. intros; split; [apply rest_ok_nil|done].
  - rewrite !rest_ok_cons, IH, <- app_assoc. simpl. tauto.
Qed.

Lemma atomic_targets_iff pre seen name uris :
  seen_ok seen pre →
  let ops := map (λ u, (u, name)) uris in
  (∃ seen', atomic_targets seen name uris = Ok seen' ∧ seen_ok seen' (pre ++ ops) ∧
            rest_ok pre ops) ∨
  (∃ e, atomic_targets seen name uris = Err e) ∧ ¬ rest_ok pre ops.
Proof.
  revert pre seen. induction uris as [|u uris IH]; intros pre seen Hs; simpl.
  - left. exists seen. rewrite app_nil_r. auto using rest_ok_nil.
  - setoid_rewrite rest_ok_cons. rewrite <- (Hs u).
    assert (∀ o : option string, default "" o = CmdAdd ↔ o = Some CmdAdd) as Ho
      by (intros [?|]; naive_solver).
    case_decide as Hd; rewrite Ho in Hd; [right; split; [eauto|tauto]|].
    destruct (IH (pre ++ [(u, name)]) (<[u := name]> seen)) as [(s' & E & Hs' & Hr)|[E Hr]].
    + by apply seen_ok_snoc.
    + left. exists s'. rewrite <- app_assoc in Hs'. split; [exact E|]. split; [exact Hs'|]. split; [exact Hd|exact Hr].
    + right. split; [done|]. tauto.
Qed.

Lemma atomic_members_iff scope pre seen members body :
  seen_ok seen pre →
  atomic_members scope seen
    (map (λ c, Some (mkMCommand "" scope c false)) members) = Ok body ↔
  body = members ∧ Forall (λ c, atomic_refuses c = false) members ∧
  rest_ok pre (ops_of members).
Proof.
  revert pre seen body. induction members as [|c members IH]; intros pre seen body Hs; simpl.
  - split; [intros [= <-]; split_and!; auto using rest_ok_nil|by intros [-> _]].
  - rewrite Forall_cons. unfold ops_of. simpl. rewrite rest_ok_app.
    destruct (atomic_refuses c); [split; [done|by intros (_ & [[=] _] & _)]|].
    rewrite decide_True by done.
    destruct (atomic_targets_iff pre seen (Command_Name c) (targets c) Hs)
      as [(s' & -> & Hs' & Hr)|[[e ->] Hr]]; simpl; [|split; [done|by intros (_ & _ & ? & _)]].
    rewrite result_bind_Ok. split.
    + intros (b & E & [= <-]). apply (IH _ _ _ Hs') in E as (-> & ? & ?). done.
    + intros (-> & [_ ?] & _ & ?). exists members. split; [|done]. by apply (IH _ _ _ Hs').
Qed.

Lemma seen_ok_empty : seen_ok ∅ [].
Proof. intros u. apply lookup_empty. Qed.

Lemma NewAtomic_members scope members :
  members ≠ [] →
  (∃ c, NewAtomic (map (λ c, Some (mkMCommand "" scope c false)) members) [] = Ok c) ↔
  atomic_ok members.
Proof.
  intros Hm. destruct members as [|c0 members]; [done|]. unfold NewAtomic. simpl map at 1.
  cbn iota beta. set (ms := c0 :: members) in *. simpl cmd_Scope.
  change (Some (mkMCommand "" scope c0 false) :: map _ members) with
    (map (λ c, Some (mkMCommand "" scope c false)) ms).
  unfold atomic_ok, no_replace_after_add. split.
  - intros (c & E). inv_result. apply (atomic_members_iff _ _ _ _ _ seen_ok_empty) in H.
    naive_solver.
  - intros [? ?]. eexists. apply result_bind_Ok. exists ms. split; [|done].
    by apply (atomic_members_iff _ _ _ _ _ seen_ok_empty).
Qed.

Lemma MValidate_iff c : MValidate (Some c) = Ok tt ↔ mcommand_ok c.
Proof.
  unfold MValidate, mcommand_ok.
  destruct (is_client_command (cmd_Body c)) eqn:Hc; [split; [done|by intros [[=] _]]|].
  case_decide as Hl; [split; [done|by intros (_ & ? & _)]|].
  rewrite result_bind_unit, check_leaves_iff.
  destruct (cmd_Body c) as [| | | | | |i n m cs| | |] eqn:Eb; try tauto.
  assert (cs ≠ []) as Hcs by by intros ->.
  rewrite <- (NewAtomic_members (cmd_Scope c) cs Hcs), result_bind_Ok.
  split; [intros (? & c' & ? & _); eauto|intros (_ & _ & ? & c' & ?); eauto].
Qed.

Lemma item_Ok uri value o it :
  item uri value o = Ok it → Item_Target it = uri ∧ CheckLocURI uri = Ok tt.
Proof.
  unfold item. destruct (CheckLocURI uri) as [[]|] eqn:E; [|done]. by intros [= <-].
Qed.

(** A command of one leaf is valid when its items are. *)
Lemma leaf_command_ok id scope body i :
  is_client_command body = false → is_group body = false → leaf_ok scope body →
  mcommand_ok (mkMCommand id scope body i).
Proof.
  intros Hc Hg Hl. unfold mcommand_ok; simpl.
  assert (Leaves body = [body]) as -> by by destruct body.
  rewrite Forall_singleton. destruct body; done.
Qed.

Lemma one_item_ok uri scope (f : list Item → Command) it :
  (∀ its, itemsOf (f its) = its) →
  Item_Target it = uri ∧ CheckLocURI uri = Ok tt → ScopeOf uri = scope →
  leaf_ok scope (f [it]).
Proof.
  intros Hf [<- Hu] Hs. unfold leaf_ok. rewrite Hf, Forall_singleton. done.
Qed.

Lemma get_items_ok scope o uris its :
  get_items scope o uris = Ok its → length its = length uris ∧ Forall (target_ok scope) its.
Proof.
  revert its. induction uris as [|u uris IH]; intros its; simpl; [by intros [= <-]|].
  intros (it & Hit & E)%result_bind_Ok. apply item_Ok in Hit as [<- ?].
  case_decide; [|done]. apply result_bind_Ok in E as (its' & E & [= <-]).
  destruct (IH _ E). simpl. split; [by f_equal|]. by constructor.
Qed.

(** Members that are valid on their own, of one scope. *)
Lemma members_leaves scope cmds body :
  Forall2 (λ c b, ∃ m, c = Some m ∧ cmd_Body m = b ∧ cmd_Scope m = scope) cmds body →
  Forall (λ c, MValidate c = Ok tt) cmds → cmds ≠ [] →
  concat (map Leaves body) ≠ [] ∧ Forall (leaf_ok scope) (concat (map Leaves body)).
Proof.
  induction 1 as [|c b cmds body (m & -> & <- & <-) Hf IH]; [done|].
  rewrite Forall_cons, MValidate_iff. intros [(_ & Hne & Hl & _) Hc] _. simpl. split.
  - by destruct (Leaves (cmd_Body m)).
  - apply Forall_app. split; [done|].
    destruct cmds as [|c cmds]; [by apply Forall2_nil_inv_l in Hf as ->|].
    by apply IH.
Qed.

Lemma atomic_members_Forall2 scope seen cmds body :
  atomic_members scope seen cmds = Ok body →
  Forall2 (λ c b, ∃ m, c = Some m ∧ cmd_Body m = b ∧ cmd_Scope m = scope) cmds body.
Proof.
  revert seen body. induction cmds as [|[c|] cmds IH]; intros seen body; simpl;
    [by intros [= <-]| |done].
  destruct (atomic_refuses _); [done|]. case_decide; [|done].
  intros E. inv_result. constructor; [eauto|]. by eapply IH.
Qed.

Lemma sequence_members_Forall2 scope cmds body :
  sequence_members scope cmds = Ok body →
  Forall2 (λ c b, ∃ m, c = Some m ∧ cmd_Body m = b ∧ cmd_Scope m = scope) cmds body.
Proof.
  revert body. induction cmds as [|[c|] cmds IH]; intros body; simpl;
    [by intros [= <-]| |done].
  destruct (is_group _); [done|]. case_decide; [|done].
  intros E. inv_result. constructor; [eauto|]. by apply IH.
Qed.

(** Only the bodies and the scope of the members matter to NewAtomic. *)
Lemma atomic_members_bodies scope seen cmds body :
  atomic_members scope seen cmds = Ok body →
  atomic_members scope seen (map (λ c, Some (mkMCommand "" scope c false)) body) = Ok body.
Proof.
  revert seen body. induction cmds as [|[c|] cmds IH]; intros seen body; simpl;
    [by intros [= <-]| |done].
  destruct (atomic_refuses _) eqn:Ea; [done|]. case_decide; [|done].
  intros E. inv_result. simpl. rewrite Ea, decide_True by done. rewrite H0. simpl.
  by erewrite IH.
Qed.

Lemma NewAtomic_ok cmds opts c :
  Forall (λ c, MValidate c = Ok tt) cmds → NewAtomic cmds opts = Ok c →
  MValidate (Some c) = Ok tt.
Proof.
  unfold NewAtomic. destruct cmds as [|[c0|] cmds]; [done| |done]. intros Hv.
  intros (body & H & [= <-])%result_bind_Ok.
  pose proof (atomic_members_Forall2 _ _ _ _ H) as Hf.
  destruct (members_leaves _ _ _ Hf Hv) as [Hne Hl]; [done|].
  apply MValidate_iff. unfold mcommand_ok; simpl. split_and!; [done..|].
  apply (NewAtomic_members (cmd_Scope c0)); [by intros ->|].
  apply atomic_members_bodies in H. destruct body as [|b body]; [done|]. simpl in H |- *.
  rewrite H. eauto.
Qed.

Lemma NewSequence_ok cmds opts c :
  Forall (λ c, MValidate c = Ok tt) cmds → NewSequence cmds opts = Ok c →
  MValidate (Some c) = Ok tt.
Proof.
  unfold NewSequence. destruct cmds as [|[c0|] cmds]; [done| |done]. intros Hv.
  intros (body & H & [= <-])%result_bind_Ok.
  pose proof (sequence_members_Forall2 _ _ _ H) as Hf.
  destruct (members_leaves _ _ _ Hf Hv) as [Hne Hl]; [done|].
  apply MValidate_iff. unfold mcommand_ok; simpl. split_and!; done.
Qed.

Lemma NewExec_ok uri value opts c : NewExec uri value opts = Ok c → MValidate (Some c) = Ok tt.
Proof.
  unfold NewExec. intros E. inv_result. apply MValidate_iff, leaf_command_ok; [done..|].
  by eapply (one_item_ok uri); [|eapply item_Ok|].
Qed.

(** ** itoa *)

Lemma itoa_loop_digits f g n acc :
  0 ≤ n < 10 ^ Z.of_nat f → 0 ≤ n < 2 ^ Z.of_nat g →
  itoa_loop f n acc = digits_fuel g n acc.
Proof.
  revert g n acc. induction f as [|f IH]; intros g n acc Hf Hg.
  - change (10 ^ Z.of_nat 0) with 1 in Hf. replace n with 0 by lia. by destruct g.
  - cbn [itoa_loop]. destruct (Z.ltb_spec 0 n).
    + destruct g as [|g]; [change (2 ^ Z.of_nat 0) with 1 in Hg; lia|].
      rewrite Nat2Z.inj_succ, Z.pow_succ_r in Hf, Hg by lia.
      cbn [digits_fuel]. destruct (Z.ltb_spec 0 n); [|lia].
      unfold digit_char. rewrite (Z.add_comm 48).
      apply IH; (split; [apply Z.div_pos; lia|apply Z.div_lt_upper_bound; lia]).
    + replace n with 0 by lia. by destruct g.
Qed.

Lemma itoa_Itoa n : in_int64 n → n ≠ min_int64 → itoa n = Itoa n.
Proof.
  intros Hn Hm. unfold itoa, Itoa. destruct (Z.eqb_spec n 0); [done|].
  unfold in_int64, min_int64, max_int64 in *.
  destruct (Z.ltb_spec n 0).
  - rewrite wrap64_id by (unfold in_int64, min_int64, max_int64; lia). f_equal.
    apply itoa_loop_digits; [simpl; lia|apply digits_bound; lia].
  - apply itoa_loop_digits; [simpl; lia|apply digits_bound; lia].
Qed.

Lemma itoa_nonneg n : 0 ≤ n ≤ max_int64 → itoa n = Itoa n.
Proof.
  intros. apply itoa_Itoa; unfold in_int64, min_int64, max_int64 in *; lia.
Qed.

Lemma cloneItems_id items : cloneItems items = items.
Proof.
  unfold cloneItems. rewrite <- (map_id items) at 2. apply map_ext.
  intros []; simpl. by repeat case_match.
Qed.

Lemma cloneCommand_id c : cloneCommand c = c.
Proof.
  induction c as [[]|[]|[]|[]|[]| |? ? ? cs IH|? ? ? cs IH| |] using Command_nested_ind;
    cbn [cloneCommand]; rewrite ?cloneItems_id; try done.
  all: f_equal; induction IH; simpl; by f_equal.
Qed.

(** The characters of an escaped path segment. *)
Definition seg_char (c : ascii) : bool := negb (shouldEscape c) || Ascii.eqb c "%".

Lemma seg_char_hex n : 0 ≤ n < 16 → seg_char (upperhex n) = true.
Proof.
  intros Hn. assert (forallb (λ n, seg_char (upperhex n)) (seqZ 0 16) = true) as Ha
    by reflexivity.
  rewrite forallb_forall in Ha. apply Ha. rewrite <- list_elem_of_In, elem_of_seqZ. lia.
Qed.

Lemma PathEscape_seg p : str_forall seg_char (PathEscape p) = true.
Proof.
  induction p as [|d p IH]; [done|]. cbn [PathEscape].
  pose proof (byte_val_range d).
  destruct (shouldEscape d) eqn:E; cbn [str_forall].
  - rewrite !seg_char_hex; [done|apply Z.mod_pos_bound; lia|].
    split; [apply Z.div_pos; lia|apply Z.div_lt_upper_bound; lia].
  - unfold seg_char at 1. by rewrite E.
Qed.

Lemma seg_printable s : str_forall seg_char s = true → str_forall printable s = true.
Proof.
  induction s as [|c s IH]; [done|]. simpl. intros E. btrue. rewrite IH, andb_true_r by done.
  clear -H. destruct c as [[] [] [] [] [] [] [] []]; first [reflexivity|discriminate H].
Qed.

Lemma provider_path_ok p :
  p ≠ "" →
  CheckLocURI (DeviceProviderUnenroll p) = Ok tt ∧
  ScopeOf (DeviceProviderUnenroll p) = ScopeDevice.
Proof.
  intros Hp. pose proof (PathEscape_seg p) as Hs.
  assert (PathEscape p ≠ "") as Hne by (destruct p; [done|]; simpl; by case_match).
  unfold DeviceProviderUnenroll. set (e := PathEscape p) in *. clearbody e.
  assert (∀ c, seg_char c = false → contains_byte c e = false) as Hc
    by (intros; by eapply str_forall_not_contains).
  assert (e ≠ "*") as Hstar by by intros ->.
  split.
  - unfold CheckLocURI. rewrite decide_False by done.
    assert (cut_byte "?" ("./Device/Vendor/MSFT/DMClient/Provider/" +:+ e +:+ "/Unenroll")
      = None) as ->.
    { apply cut_byte_None. unfold contains_byte, str_exists. rewrite !str_forall_app.
      specialize (Hc "?"%char eq_refl). unfold contains_byte, str_exists in Hc.
      apply negb_false_iff in Hc. by rewrite Hc. }
    assert (split_byte "/" ("./Device/Vendor/MSFT/DMClient/Provider/" +:+ e +:+ "/Unenroll")
      = ["."; "Device"; "Vendor"; "MSFT"; "DMClient"; "Provider"; e; "Unenroll"]) as ->.
    { change (_ +:+ _) with ("." +:+ String "/" ("Device" +:+ String "/" ("Vendor" +:+ String "/"
        ("MSFT" +:+ String "/" ("DMClient" +:+ String "/" ("Provider" +:+ String "/"
        (e +:+ String "/" "Unenroll"))))))).
      rewrite !split_byte_app by (done || by apply Hc). by rewrite split_byte_none. }
    cbn [existsb]. by rewrite !bool_decide_eq_false_2 by done.
  - unfold ScopeOf. rewrite TrimSpace_id; [by destruct (7 <=? _)|].
    by rewrite !str_forall_app, (seg_printable e).
Qed.

(** ** Properties *)

(** A command passes Validate exactly when it is a server command, not an
    empty group, every leaf of it has items (an Exec exactly one) whose
    targets are well-formed URIs of the command's scope, and an Atomic holds
    no Atomic, no Get (not even through a Sequence), and no Replace of a node
    whose last operation in the group was an Add. *)
Theorem validate_command_iff c : MValidate (Some c) = Ok tt ↔ mcommand_ok c.
Proof. apply MValidate_iff. Qed.

(** Everything the builders can make. *)
Inductive built : MCommand → Prop :=
  | built_add uri v opts c : NewAdd uri v opts = Ok c → built c
  | built_replace uri v opts c : NewReplace uri v opts = Ok c → built c
  | built_delete uri opts c : NewDelete uri opts = Ok c → built c
  | built_get uris opts c : NewGet uris opts = Ok c → built c
  | built_exec uri v opts c : NewExec uri v opts = Ok c → built c
  | built_atomic ms opts c :
      (∀ m, m ∈ ms → built m) → NewAtomic (map Some ms) opts = Ok c → built c
  | built_sequence ms opts c :
      (∀ m, m ∈ ms → built m) → NewSequence (map Some ms) opts = Ok c → built c.

(** Whatever the builders make, groups of built commands included, passes
    Validate, so the queue accepts it. *)
Theorem built_valid c : built c → MValidate (Some c) = Ok tt.
Proof.
  assert (∀ ms, (∀ m, m ∈ ms → MValidate (Some m) = Ok tt) →
    Forall (λ c, MValidate c = Ok tt) (map Some ms)) as Hms.
  { intros ms H. apply Forall_forall. intros x (m & -> & ?)%list_elem_of_fmap. by apply H. }
  induction 1 as [uri v opts c E|uri v opts c E|uri opts c E|uris opts c E|uri v opts c E
    |ms opts c _ IH E|ms opts c _ IH E].
  1-3: apply result_bind_Ok in E as (it & Hit & [= <-]);
    apply MValidate_iff, leaf_command_ok; [done..|];
    by eapply (one_item_ok uri); [|eapply item_Ok|].
  - destruct uris as [|u uris]; [done|].
    apply result_bind_Ok in E as (its & Hits & [= <-]). apply get_items_ok in Hits as [Hlen Hits].
    apply MValidate_iff, leaf_command_ok; [done..|]. split_and!; [|done..].
    by destruct its.
  - by eapply NewExec_ok.
  - by eapply NewAtomic_ok; [apply Hms|].
  - by eapply NewSequence_ok; [apply Hms|].
Qed.

Definition ex_add : MCommand := mkMCommand "a" ScopeDevice
  (add_of [mkItem "./Device/Vendor/MSFT/X" "" None (Some (mkData "1" "" "")) false]) false.
Definition ex_exec : MCommand := mkMCommand "" ScopeDevice
  (exec_of [mkItem "./Device/Vendor/MSFT/Y" "" None None false]) false.

Lemma built_valid_witness :
  MValidate (Some (mkMCommand "g" ScopeDevice
    (CAtomic "" false None [cmd_Body ex_add; cmd_Body ex_exec]) false)) = Ok tt.
Proof.
  apply built_valid. apply (built_atomic [ex_add; ex_exec] [WithID "g"]); [|reflexivity].
  intros m Hm. apply elem_of_cons in Hm as [->|Hm].
  - apply (built_add "./Device/Vendor/MSFT/X" "1" [WithID "a"]). reflexivity.
  - apply list_elem_of_singleton in Hm as ->.
    apply (built_exec "./Device/Vendor/MSFT/Y" "" []). reflexivity.
Defined.

(** An unenroll command can be built for every non-empty provider id,
    whatever characters it holds; it targets the device scope and is valid. *)
Theorem new_unenroll_valid p :
  p ≠ "" →
  ∃ c, NewUnenroll p = Ok c ∧ cmd_Scope c = ScopeDevice ∧ MValidate (Some c) = Ok tt ∧
    targets (cmd_Body c) = [DeviceProviderUnenroll p].
Proof.
  intros Hp. destruct (provider_path_ok p Hp) as [Hu Hs].
  assert (∃ c, NewUnenroll p = Ok c ∧ cmd_Scope c = ScopeOf (DeviceProviderUnenroll p) ∧
    targets (cmd_Body c) = [DeviceProviderUnenroll p]) as (c & Hc & Hsc & Ht).
  { unfold NewUnenroll, NewExec, item. rewrite decide_False, Hu by done. eauto. }
  exists c. split_and!; [done|by rewrite Hsc|  |done].
  unfold NewUnenroll in Hc. rewrite decide_False in Hc by done. by eapply NewExec_ok.
Qed.

Lemma new_unenroll_valid_witness :
  ∃ c, NewUnenroll "MS DM/Server*" = Ok c ∧ cmd_Scope c = ScopeDevice ∧
    MValidate (Some c) = Ok tt ∧
    targets (cmd_Body c) = [DeviceProviderUnenroll "MS DM/Server*"].
Proof. apply new_unenroll_valid. discriminate. Defined.

(** The engine's own decimal formatter agrees with strconv.Itoa on every
    64-bit integer except the smallest, for which it writes only the sign. *)
Theorem itoa_correct n :
  in_int64 n → itoa n = if n =? min_int64 then "-" else Itoa n.
Proof.
  intros Hn. destruct (Z.eqb_spec n min_int64) as [->|]; [reflexivity|].
  by apply itoa_Itoa.
Qed.

Lemma itoa_correct_witness : itoa (-1048) = "-1048".
Proof.
  rewrite itoa_correct; [reflexivity|].
  unfold in_int64, min_int64, max_int64. lia.
Defined.
