(* ===== verification/CspValidation.v ===== *)
(** * Checking commands against the schema

    schema/validation/validation.go: Check and the rules it applies, and
    mdm.Check, which applies it to every leaf of a management command.
    package regexp and strconv.ParseFloat are parameters; the one fixed
    expression, rangeRE, is spelled out. *)
From stdpp Require Import base gmap strings list.
From Stdlib Require Import ZArith Lia Ascii.
From S2P Require Import Prelude GoStrings GoUrl SyncmlModel Response Encode GoXml SyncmlAuth.
From S2P Require Import MdmCommand Csp CspProofs CspRegistry.

Local Open Scope Z_scope.
Local Open Scope go_scope.

(** ** strconv.ParseInt with base 0 *)

(** The prefix of a literal: its base and what follows. *)
Definition base_prefix (s : string) : Z * string :=
  match s with
  | String z r =>
      if Ascii.eqb z "0" then
        match r with
        | String b (String _ _ as r') =>
            if Ascii.eqb (ascii_lower b) "b" then (2, r')
            else if Ascii.eqb (ascii_lower b) "o" then (8, r')
            else if Ascii.eqb (ascii_lower b) "x" then (16, r')
            else (8, r)
        | _ => (8, r)
        end
      else (10, s)
  | EmptyString => (10, s)
  end.

Definition digit_of (c : ascii) : option Z :=
  if is_digit c then Some (digit_val c)
  else let l := byte_val (ascii_lower c) in
       if (97 <=? l) && (l <=? 122) then Some (l - 87) else None.

(** The digits, underscores passed over. *)
Fixpoint parse_base (base acc : Z) (s : string) : option Z :=
  match s with
  | EmptyString => Some acc
  | String c s =>
      if Ascii.eqb c "_" then parse_base base acc s
      else match digit_of c with
           | Some d => if d <? base then parse_base base (acc * base + d) s else None
           | None => None
           end
  end.

(** [underscoreOK]: [saw] is a digit, an underscore, or anything else. *)
Inductive saw := SawDigit | SawUnderscore | SawOther.
Fixpoint underscores_ok (hex : bool) (w : saw) (s : string) : bool :=
  match s with
  | EmptyString => match w with SawUnderscore => false | _ => true end
  | String c s =>
      let l := byte_val (ascii_lower c) in
      if is_digit c || (hex && (97 <=? l) && (l <=? 102)) then underscores_ok hex SawDigit s
      else if Ascii.eqb c "_" then
        match w with SawDigit => underscores_ok hex SawUnderscore s | _ => false end
      else match w with SawUnderscore => false | _ => underscores_ok hex SawOther s end
  end.
Definition underscoreOK (s : string) : bool :=
  match s with
  | String z (String b r) =>
      let l := ascii_lower b in
      if Ascii.eqb z "0" && (Ascii.eqb l "b" || Ascii.eqb l "o" || Ascii.eqb l "x")
      then underscores_ok (Ascii.eqb l "x") SawDigit r
      else underscores_ok false SawOther s
  | _ => underscores_ok false SawOther s
  end.

Definition parse_uint0 (s : string) : option Z :=
  match s with
  | EmptyString => None
  | _ =>
      let '(base, r) := base_prefix s in
      match parse_base base 0 r with
      | Some n => if contains_byte "_" r && negb (underscoreOK s) then None else Some n
      | None => None
      end
  end.

(** [strconv.ParseInt(s, 0, 64)] *)
Definition ParseInt0 (s : string) : option Z :=
  let v :=
    match s with
    | String c r =>
        if Ascii.eqb c "-" then option_map Z.opp (parse_uint0 r)
        else if Ascii.eqb c "+" then parse_uint0 r
        else parse_uint0 s
    | EmptyString => None
    end in
  match v with
  | Some n => if (min_int64 <=? n) && (n <=? max_int64) then Some n else None
  | None => None
  end.

(** ** strings.Split by a string *)

Fixpoint cut_str (sep s : string) : option (string * string) :=
  if HasPrefix s sep then Some ("", sdrop (String.length sep) s)
  else match s with
       | EmptyString => None
       | String c s =>
           match cut_str sep s with Some (l, r) => Some (String c l, r) | None => None end
       end.
Fixpoint split_str (fuel : nat) (sep s : string) : list string :=
  match fuel with
  | O => [s]
  | S fuel =>
      match cut_str sep s with
      | Some (l, r) => l :: split_str fuel sep r
      | None => [s]
      end
  end.
(** For a separator that is not empty: a piece per separator. *)
Definition Split (s sep : string) : list string := split_str (String.length s) sep s.

(** ** Commands and results *)

Definition Verb := string.

(** [type Command struct] of package validation *)
Record VCommand := mkVCommand {
  vc_Verb : Verb;
  vc_URI : string;
  vc_Format : string;
  vc_Value : option string }.

(** The node is given by its match. *)
Record VResult := mkVResult {
  vr_Match : option (Match * Tree);
  vr_AtomicRequired : bool;
  vr_Unevaluated : list string;
  vr_Errors : list error }.

Definition VResult_Err (r : VResult) : error := concat (vr_Errors r).

(** [&Problem{Rule: rule}] *)
Definition Problem (rule : sentinel) : error := [validation_ErrInvalid; rule].

(** ** The path to a node *)

(** The loop over the children, until one of the walks below has met its
    target. *)
Definition first_child {A} (f : nat → Node → option A) : nat → list Node → option A :=
  fix go (i : nat) (cs : list Node) : option A :=
    match cs with
    | [] => None
    | c :: cs => match f i c with Some a => Some a | None => go (S i) cs end
    end.

Fixpoint atomic_walk (target here : list nat) (inherited : bool) (n : Node) : option bool :=
  let req := inherited || n_AtomicRequired n in
  if decide (here = target) then Some req
  else first_child (λ i c, atomic_walk target (here ++ [i]) req c) 0 (n_Children n).

Definition atomicRequired (t : Tree) (target : list nat) : bool :=
  default false (atomic_walk target [] false (t_Root t)).

(** The trail the walk of [checkDynamicNames] is at when it meets the target. *)
Fixpoint trail_walk (target here : list nat) (trail : list Node) (n : Node) : option (list Node) :=
  let trail := trail ++ [n] in
  if decide (here = target) then Some trail
  else first_child (λ i c, trail_walk target (here ++ [i]) trail c) 0 (n_Children n).

(** ** Formats and values *)

Definition inEnum (es : list EnumValue) (v : string) : bool :=
  existsb (λ e, EqualFold (TrimSpace v) (ev_Value e)) es.

Definition flag_mask (es : list EnumValue) : Z :=
  foldl (λ m e, match ParseInt0 (ev_Value e) with Some f => Z.lor m f | None => m end) 0 es.

(** Whether [v] is accepted. *)
Definition checkFlag (es : list EnumValue) (v : string) : bool :=
  match ParseInt0 (TrimSpace v) with
  | Some n => Z.ldiff n (flag_mask es) =? 0
  | None => false
  end.

(** [\s] *)
Definition is_re_space (c : ascii) : bool :=
  let v := byte_val c in (v =? 9) || (v =? 10) || (v =? 12) || (v =? 13) || (v =? 32).
Fixpoint skip_re_space (s : string) : string :=
  match s with
  | String c r => if is_re_space c then skip_re_space r else s
  | EmptyString => ""
  end.
Fixpoint span_digits (s : string) : string * string :=
  match s with
  | String c r => if is_digit c then let '(d, t) := span_digits r in (String c d, t) else ("", s)
  | EmptyString => ("", "")
  end.
(** [(-?\d+)] *)
Definition re_number (s : string) : option (string * string) :=
  let '(sign, r) := match s with
                    | String c r => if Ascii.eqb c "-" then ("-", r) else ("", s)
                    | EmptyString => ("", s)
                    end in
  match span_digits r with
  | (EmptyString, _) => None
  | (d, r) => Some (sign +:+ d, r)
  end.

(** [rangeRE.FindStringSubmatch]: the two groups.  What follows each choice
    decides it, so there is nothing to go back to. *)
Definition rangeRE (s : string) : option (string * string) :=
  match s with
  | String c r =>
      if Ascii.eqb c "[" then
        match re_number (skip_re_space r) with
        | Some (lo, r) =>
            let r := skip_re_space r in
            let '(hi, r) :=
              match r with
              | String c r' =>
                  if Ascii.eqb c "-" then
                    match re_number (skip_re_space r') with
                    | Some (hi, r) => (hi, skip_re_space r)
                    | None => ("", r)
                    end
                  else ("", r)
              | EmptyString => ("", r)
              end in
            if bool_decide (r = "]") then Some (lo, hi) else None
        | None => None
        end
      else None
  | EmptyString => None
  end.

(** [n, _ := strconv.ParseInt(s, 10, 64)] on digits: out of range it is the
    nearest end. *)
Definition clamp_int64 (z : Z) : Z := Z.max min_int64 (Z.min max_int64 z).
Definition ParseInt_digits (s : string) : Z :=
  match s with
  | String c r => if Ascii.eqb c "-" then clamp_int64 (- default 0 (parse_nat r))
                  else clamp_int64 (default 0 (parse_nat s))
  | EmptyString => 0
  end.

Fixpoint range_alternatives (n : Z) (alts : list string) : bool :=
  match alts with
  | [] => false
  | alt :: alts =>
      match rangeRE (TrimSpace alt) with
      | None => false
      | Some (m1, m2) =>
          let lo := ParseInt_digits m1 in
          let hi := if nonempty m2 then ParseInt_digits m2 else lo in
          if (lo <=? n) && (n <=? hi) then true else range_alternatives n alts
      end
  end.

Definition checkRange (spec v : string) : bool :=
  match Atoi (TrimSpace v) with
  | Some n => range_alternatives n (split_byte "," spec)
  | None => false
  end.

(** U+F000 *)
Definition list_mark : string := byte_str [0xEF; 0x80; 0x80].
Definition splitList (v delim : string) : list string :=
  let delim := if bool_decide (delim ∈ ["0xF000"; "\xF000"; list_mark]) then list_mark else delim in
  filter (λ p, p ≠ "") (Split v delim).

Section check.
Context `{NameTables}.
(** [regexp.Compile], giving the expression's MatchString. *)
Context (regexp_Compile : string → option (string → bool)).
(** Whether [strconv.ParseFloat(s, 64)] succeeds. *)
Context (ParseFloat_ok : string → bool).

(** [compile] with its cache. *)
Definition compile (cache : gmap string (string → bool)) (p : string)
    : gmap string (string → bool) * option (string → bool) :=
  match cache !! p with
  | Some re => (cache, Some re)
  | None =>
      match regexp_Compile p with
      | Some re => (<[p := re]> cache, Some re)
      | None => (cache, None)
      end
  end.

(** The decoder has no CharsetReader. *)
Definition no_charset (_ _ : string) : result string := Err xml_error.
Definition lex_value (v : string) : list (Token * Z) * error :=
  lex no_charset (NewDecoder ("<r>" +:+ v +:+ "</r>")).

Definition wellFormed (v : string) : bool := errors_Is (lex_value v).2 io_EOF.

Definition checkFormat (f : Format) (v : string) : bool :=
  if decide (f = FormatInt) then bool_decide (is_Some (Atoi (TrimSpace v)))
  else if decide (f = FormatBool) then
    bool_decide (go_lower (TrimSpace v) ∈ ["true"; "false"])
  else if decide (f = Csp.FormatB64) then bool_decide (is_Some (b64_decode (TrimSpace v)))
  else if decide (f = Csp.FormatXML) then wellFormed v
  else if decide (f = FormatFloat) then ParseFloat_ok (TrimSpace v)
  else if decide (f = Csp.FormatNull) then bool_decide (TrimSpace v = "")
  else true.

(** The attributes of a data element: whether it has an id and a value. *)
Definition admx_attrs (attrs : list Attr) : bool * bool :=
  foldl (λ '(hasID, hasValue) a,
    let l := go_lower (name_Local (at_Name a)) in
    if decide (l = "id") then (nonempty (at_Value a), hasValue)
    else if decide (l = "value") then (hasID, true)
    else (hasID, hasValue)) (false, false) attrs.

Fixpoint admx_loop (depth : Z) (state : string) (ts : list (Token * Z)) (last : error) : bool :=
  match ts with
  | [] => errors_Is last io_EOF && nonempty state
  | (t, _) :: ts =>
      match t with
      | StartElement n attrs =>
          let depth := depth + 1 in
          if depth =? 1 then admx_loop depth state ts last
          else if 2 <? depth then false
          else
            let l := go_lower (name_Local n) in
            if decide (l = "enabled") then
              if nonempty state then false else admx_loop depth "enabled" ts last
            else if decide (l = "disabled") then
              if nonempty state then false else admx_loop depth "disabled" ts last
            else if decide (l = "data") then
              if negb (bool_decide (state = "enabled")) then false
              else
                let '(hasID, hasValue) := admx_attrs attrs in
                if negb hasID || negb hasValue then false else admx_loop depth state ts last
            else false
      | EndElement _ => admx_loop (depth - 1) state ts last
      | CharData s =>
          if (1 <=? depth) && nonempty (TrimSpace s) then false
          else admx_loop depth state ts last
      | _ => admx_loop depth state ts last
      end
  end.
Definition checkADMX (v : string) : bool := let '(ts, last) := lex_value v in admx_loop 0 "" ts last.

(** [checkDynamicNames]: one problem per name that does not match. *)
Definition dynamic_problems (params : gmap string string) (path : list Node) : list error :=
  omap (λ n,
    if negb (n_Dynamic n) || negb (bool_decide (nm_Kind (n_Naming n) = NamingUniqueName)) ||
       bool_decide (nm_Pattern (n_Naming n) = "") then None
    else match params !! n_Title n with
         | None => None
         | Some v =>
             match regexp_Compile ("^(?:" +:+ nm_Pattern (n_Naming n) +:+ ")$") with
             | None => None
             | Some re => if re v then None else Some (Problem validation_ErrDynamicName)
             end
         end) path.
Definition checkDynamicNames (t : Tree) (target : list nat) (params : gmap string string)
    : list error :=
  dynamic_problems params (default [] (trail_walk target [] [] (t_Root t))).

(** One value against the allowed values: problems and constraints left
    unevaluated. *)
Definition check_value (av : AllowedValues) (one : string) : list error * list string :=
  let value (ok : bool) : list error * list string :=
    (if ok then [] else [Problem validation_ErrValue], []) in
  if decide (av_Type av = ValueTypeEnum) then value (inEnum (av_Enum av) one)
  else if decide (av_Type av = ValueTypeFlag) then value (checkFlag (av_Enum av) one)
  else if decide (av_Type av = ValueTypeRange) then value (checkRange (av_Value av) one)
  else if decide (av_Type av = ValueTypeRegEx) then
    match regexp_Compile (av_Value av) with
    | None => ([], ["RegEx (pattern does not compile in Go: " +:+ av_Value av +:+ ")"])
    | Some re => value (re one)
    end
  else if decide (av_Type av = ValueTypeADMX) then value (checkADMX one)
  else if bool_decide (av_Type av ∈ [ValueTypeXSD; ValueTypeSDDL; ValueTypeJSON])
  then ([], [av_Type av : string])
  else ([], []).

Definition check_values (av : AllowedValues) (v : string) : list error * list string :=
  let values := if nonempty (av_ListDelimiter av) then splitList v (av_ListDelimiter av) else [v] in
  let rs := map (check_value av) values in
  (concat (map fst rs), concat (map snd rs)).

(** The rules of a node that is written or executed. *)
Definition check_write (n : Node) (c : VCommand) : list error * list string :=
  if negb (Leaf n) then
    ((if nonempty (default "" (vc_Value c)) then [Problem validation_ErrInteriorValue] else []) ++
     (if nonempty (vc_Format c) && negb (bool_decide (vc_Format c = FormatNode))
      then [Problem validation_ErrFormat] else []), [])
  else
    let format :=
      if nonempty (vc_Format c) && negb (bool_decide (vc_Format c = n_Format n)) &&
         negb (bool_decide (n_Format n = Csp.FormatChr) && bool_decide (vc_Format c = "xml"))
      then [Problem validation_ErrFormat] else [] in
    match vc_Value c with
    | None =>
        (format ++ if negb (bool_decide (vc_Verb c = "Exec")) &&
                      negb (bool_decide (n_Format n = Csp.FormatNull))
                   then [Problem validation_ErrFormat] else [], [])
    | Some v =>
        let format := format ++ (if checkFormat (n_Format n) v then [] else [Problem validation_ErrFormat]) in
        match n_AllowedValues n with
        | None => (format, [])
        | Some av => let '(errs, un) := check_values av v in (format ++ errs, un)
        end
    end.

Definition Check (reg : Registry) (c : VCommand) : VResult :=
  match CspRegistry.Lookup reg (vc_URI c) with
  | None => mkVResult None false [] [Problem validation_ErrUnknownNode]
  | Some (m, tree) =>
      let n := m_Node m in
      let errs :=
        (if Allows n (vc_Verb c) then [] else [Problem validation_ErrVerb]) ++
        checkDynamicNames tree (m_pos m) (m_Params m) in
      let '(errs', un) :=
        if bool_decide (vc_Verb c ∈ ["Get"; "Delete"]) then ([], []) else check_write n c in
      mkVResult (Some (m, tree)) (atomicRequired tree (m_pos m)) un (errs ++ errs')
  end.

(** mdm.Check: a nil registry checks structure alone. *)
Definition leaf_problems (reg : Registry) (leaf : Command) : list error :=
  map (λ it, VResult_Err (Check reg (mkVCommand (Command_Name leaf) (Item_Target it)
    (match Item_Meta it with Some m => Meta_Format m | None => "" end)
    (option_map (λ d, Data_Text (Some d)) (Item_Data it))))) (itemsOf leaf).
Definition Check_command (reg : option Registry) (c : option MCommand) : result unit :=
  let? _ := MValidate c in
  match reg, c with
  | Some reg, Some c =>
      let errs := filter (λ e, e ≠ []) (concat (map (leaf_problems reg) (Leaves (cmd_Body c)))) in
      if bool_decide (errs = []) then Ok tt else Err (mdm_ErrCommand :: concat errs)
  | _, _ => Ok tt
  end.
End check.
