(* ===== verification/CspRules.v ===== *)
(** * The rules of values, specified

    What schema/validation accepts as a value, said without its code: how a
    list value falls into elements, which texts are ranges, which integers are
    made of flags, which token sequences are ADMX payloads, which texts each
    format takes.  Each recogniser of [CspValidation] is shown to accept
    exactly these.  Two rules are looser than the comments in the source: a
    flag value may mix the bits of different flags, and an ADMX payload may
    close and reopen the element it is wrapped in. *)
From stdpp Require Import base gmap strings list.
From Stdlib Require Import ZArith Lia Ascii.
From S2P Require Import Prelude GoStrings GoUrl SyncmlModel Response Encode GoXml SyncmlAuth.
From S2P Require Import MdmCommand Csp CspProofs CspRegistry CspValidation.

Local Open Scope Z_scope.
Local Open Scope go_scope.

(** ** List values *)

(** [v] falls at [sep], from the left, into pieces. *)
Inductive splits (sep : string) : string → list string → Prop :=
  | splits_last v : (∀ a b, v ≠ a +:+ sep +:+ b) → splits sep v [v]
  | splits_cut l r ps :
      (∀ a b, l +:+ sep +:+ r = a +:+ sep +:+ b → (String.length l ≤ String.length a)%nat) →
      splits sep r ps → splits sep (l +:+ sep +:+ r) (l :: ps).

(** The separator a delimiter of the DDF stands for: U+F000 for its two
    spellings, and otherwise itself. *)
Definition separator (delim : string) : string :=
  if decide (delim = "0xF000" ∨ delim = "\xF000") then list_mark else delim.

Lemma HasPrefix_app s p : HasPrefix s p = true ↔ ∃ t, s = p +:+ t.
Proof.
  unfold HasPrefix. revert s. induction p as [|c p IH]; intros s.
  { split; [|by destruct s]. exists s. by rewrite str_app_nil_l. }
  destruct s as [|d s]; cbn [String.prefix].
  { split; [done|]. intros [t E]. by rewrite str_app_cons in E. }
  destruct (ascii_dec c d) as [->|Hne].
  - rewrite IH. setoid_rewrite str_app_cons. split; intros [t E]; exists t; congruence.
  - split; [done|]. intros [t E]. rewrite str_app_cons in E. congruence.
Qed.

(** [cut_str] cuts at the first separator. *)
Lemma cut_str_Some sep v l r :
  cut_str sep v = Some (l, r) →
  v = l +:+ sep +:+ r ∧
  ∀ a b, v = a +:+ sep +:+ b → (String.length l ≤ String.length a)%nat.
Proof.
  revert l. induction v as [|c v IH]; intros l; cbn [cut_str].
  - destruct (HasPrefix "" sep) eqn:E; [|done]. destruct sep; [|done]. intros [= <- <-].
    split; [done|]. intros. simpl. lia.
  - destruct (HasPrefix (String c v) sep) eqn:E.
    + intros [= <- <-]. apply HasPrefix_app in E as [t E]. rewrite E, sdrop_app, str_app_nil_l.
      split; [done|]. intros. simpl. lia.
    + destruct (cut_str sep v) as [[l' r']|]; [|done]. intros [= <- <-].
      destruct (IH l' eq_refl) as [-> Hmin]. rewrite str_app_cons. split; [done|].
      intros a b Hab. destruct a as [|d a].
      * rewrite str_app_nil_l in Hab. rewrite Hab in E. exfalso.
        assert (HasPrefix (sep +:+ b) sep = true) by (apply HasPrefix_app; eauto). congruence.
      * rewrite str_app_cons in Hab. injection Hab as _ Hab. simpl. apply Hmin in Hab. lia.
Qed.

Lemma cut_str_None sep v : cut_str sep v = None → ∀ a b, v ≠ a +:+ sep +:+ b.
Proof.
  induction v as [|c v IH]; cbn [cut_str].
  - destruct (HasPrefix "" sep) eqn:E; [done|]. intros _ a b Hab.
    destruct a; [|done]. rewrite str_app_nil_l in Hab.
    assert (HasPrefix "" sep = true) by (apply HasPrefix_app; eauto). congruence.
  - destruct (HasPrefix (String c v) sep) eqn:E; [done|].
    destruct (cut_str sep v) as [[l r]|]; [done|]. intros _ a b Hab. destruct a as [|d a].
    + rewrite str_app_nil_l in Hab.
      assert (HasPrefix (String c v) sep = true) by (apply HasPrefix_app; eauto). congruence.
    + rewrite str_app_cons in Hab. injection Hab as _ Hab. by eapply IH.
Qed.

Lemma split_str_splits fuel sep v :
  sep ≠ "" → (String.length v ≤ fuel)%nat → splits sep v (split_str fuel sep v).
Proof.
  intros Hs. assert (0 < String.length sep)%nat as Hp by (destruct sep; [done|simpl; lia]).
  revert v. induction fuel as [|fuel IH]; intros v Hv; cbn [split_str].
  - destruct v; [|simpl in Hv; lia]. apply splits_last. intros a b E.
    apply (f_equal String.length) in E. rewrite !str_length_app in E. simpl in E. lia.
  - destruct (cut_str sep v) as [[l r]|] eqn:E.
    + apply cut_str_Some in E as [-> Hmin]. apply splits_cut; [done|]. apply IH.
      rewrite !str_length_app in Hv. lia.
    + apply splits_last. by apply cut_str_None.
Qed.

Lemma splits_fun sep v ps qs : splits sep v ps → splits sep v qs → ps = qs.
Proof.
  intros Hp. revert qs. induction Hp as [v Hno|l r ps Hmin _ IH]; intros qs Hq.
  - inversion Hq as [|l r ps' _ _ E]; [done|]. subst. by edestruct Hno.
  - inversion Hq as [v Hno E|l' r' ps' Hmin' Hq' E]; subst.
    + by edestruct Hno.
    + pose proof (Hmin _ _ (eq_sym E)) as H1. pose proof (Hmin' _ _ E) as H2.
      assert (l' = l ∧ r' = r) as [-> ->]; [|by f_equal; apply IH].
      assert (l' = l) as ->.
      { rewrite <- (stake_app l' (sep +:+ r')), <- (stake_app l (sep +:+ r)), E. f_equal. lia. }
      split; [done|]. by apply str_app_inj_l, str_app_inj_l in E.
Qed.

(** The elements of a list value are the pieces that are not empty. *)
Lemma splitList_spec v delim :
  delim ≠ "" → ∃ ps, splits (separator delim) v ps ∧ splitList v delim = filter (λ p, p ≠ "") ps.
Proof.
  intros Hd. unfold splitList. eexists (Split v (separator delim)).
  assert ((if bool_decide (delim ∈ ["0xF000"; "\xF000"; list_mark]) then list_mark else delim) =
    separator delim) as ->.
  { unfold separator. case_bool_decide as E; case_decide as E'; try done; [|set_solver].
    rewrite !elem_of_cons in E. set_solver. }
  split; [|done]. apply split_str_splits; [|done]. unfold separator. by case_decide.
Qed.

(** ** Ranges *)

Definition digits_text (d : string) : Prop := d ≠ "" ∧ str_forall is_digit d = true.
Definition spaces (s : string) : Prop := str_forall is_re_space s = true.

(** A decimal integer as the DDF writes it, and the 64-bit integer nearest to
    it. *)
Inductive numeral : string → Z → Prop :=
  | numeral_pos d : digits_text d → numeral d (clamp_int64 (default 0 (parse_nat d)))
  | numeral_neg d : digits_text d → numeral ("-" +:+ d) (clamp_int64 (- default 0 (parse_nat d))).

(** "[n]" and "[lo-hi]", with spaces inside. *)
Inductive bracket : string → Z → Z → Prop :=
  | bracket_one s1 t s2 n :
      spaces s1 → spaces s2 → numeral t n → bracket ("[" +:+ s1 +:+ t +:+ s2 +:+ "]") n n
  | bracket_two s1 t s2 s3 u s4 lo hi :
      spaces s1 → spaces s2 → spaces s3 → spaces s4 → numeral t lo → numeral u hi →
      bracket ("[" +:+ s1 +:+ t +:+ s2 +:+ "-" +:+ s3 +:+ u +:+ s4 +:+ "]") lo hi.

(** [n] lies in one of the alternatives, and every one in front of it can be
    read. *)
Definition in_range (spec : string) (n : Z) : Prop :=
  ∃ pre alt post lo hi, split_byte "," spec = pre ++ alt :: post ∧
    Forall (λ a, ∃ lo hi, bracket (TrimSpace a) lo hi) pre ∧
    bracket (TrimSpace alt) lo hi ∧ lo ≤ n ≤ hi.

Definition digitless (s : string) : Prop :=
  match s with String c _ => is_digit c = false | EmptyString => True end.
Definition spaceless (s : string) : Prop :=
  match s with String c _ => is_re_space c = false | EmptyString => True end.

Lemma span_digits_app d r :
  str_forall is_digit d = true → digitless r → span_digits (d +:+ r) = (d, r).
Proof.
  intros Hd Hr. induction d as [|c d IH].
  - rewrite str_app_nil_l. destruct r as [|c r]; [done|]. simpl in *. by rewrite Hr.
  - rewrite str_app_cons. cbn [str_forall] in Hd. apply andb_true_iff in Hd as [Hc Hd].
    cbn [span_digits]. by rewrite Hc, IH.
Qed.

Lemma span_digits_split s d r :
  span_digits s = (d, r) → s = d +:+ r ∧ str_forall is_digit d = true ∧ digitless r.
Proof.
  revert d. induction s as [|c s IH]; intros d; cbn [span_digits]; [by intros [= <- <-]|].
  destruct (is_digit c) eqn:Hc.
  - destruct (span_digits s) as [d' t]. intros [= <- <-].
    destruct (IH d' eq_refl) as (-> & Hd & Hr). cbn [str_forall]. by rewrite Hc.
  - intros [= <- <-]. by rewrite str_app_nil_l.
Qed.

Lemma skip_re_space_app s r : spaces s → spaceless r → skip_re_space (s +:+ r) = r.
Proof.
  unfold spaces. intros Hs Hr. induction s as [|c s IH].
  - rewrite str_app_nil_l. destruct r as [|c r]; [done|]. simpl in *. by rewrite Hr.
  - rewrite str_app_cons. cbn [str_forall] in Hs. apply andb_true_iff in Hs as [Hc Hs].
    cbn [skip_re_space]. rewrite Hc. by apply IH.
Qed.

Lemma skip_re_space_split s : ∃ sp, spaces sp ∧ s = sp +:+ skip_re_space s.
Proof.
  induction s as [|c s (sp & Hsp & E)]; [by exists ""|]. cbn [skip_re_space].
  destruct (is_re_space c) eqn:Hc; [|by exists ""].
  exists (String c sp). split; [|by rewrite str_app_cons; f_equal].
  unfold spaces. cbn [str_forall]. by rewrite Hc.
Qed.

Lemma digit_not_space c : is_digit c = true → is_re_space c = false ∧ Ascii.eqb c "-" = false.
Proof.
  unfold is_digit, is_re_space. intros E. btrue. split.
  - repeat match goal with |- context [byte_val c =? ?n] =>
      destruct (Z.eqb_spec (byte_val c) n); [lia|] end. done.
  - destruct (Ascii.eqb_spec c "-") as [->|]; [|done].
    change (byte_val "-") with 45 in *. lia.
Qed.

(** A numeral begins with a digit or a sign. *)
Lemma numeral_spaceless t n r : numeral t n → spaceless (t +:+ r).
Proof.
  intros [d [Hne Hd]|d _]; [|done]. destruct d as [|c d]; [done|]. rewrite str_app_cons. simpl.
  cbn [str_forall] in Hd. apply andb_true_iff in Hd as [Hc _]. by apply digit_not_space in Hc as [].
Qed.

Lemma re_number_numeral t n r :
  numeral t n → digitless r → re_number (t +:+ r) = Some (t, r) ∧ ParseInt_digits t = n.
Proof.
  intros [d [Hne Hd]|d [Hne Hd]] Hr; unfold re_number, ParseInt_digits;
    (destruct d as [|c d]; [done|]).
  - pose proof (span_digits_app _ _ Hd Hr) as Hs. rewrite str_app_cons in *.
    cbn [str_forall] in Hd. apply andb_true_iff in Hd as [Hc _].
    destruct (digit_not_space c Hc) as [_ ->]. rewrite Hs. by rewrite str_app_nil_l.
  - rewrite <- str_app_assoc.
    change ("-" +:+ (String c d +:+ r)) with (String "-" (String c d +:+ r)).
    change ("-" +:+ String c d) with (String "-" (String c d)).
    cbn [Ascii.eqb Bool.eqb]. by rewrite (span_digits_app _ _ Hd Hr).
Qed.

Lemma re_number_split s t r :
  re_number s = Some (t, r) → s = t +:+ r ∧ digitless r ∧ numeral t (ParseInt_digits t).
Proof.
  unfold re_number. intros E.
  assert (∃ sign b, s = sign +:+ b ∧ (sign = "" ∨ sign = "-") ∧ t ≠ "" ∧
    ∃ d, span_digits b = (d, r) ∧ d ≠ "" ∧ t = sign +:+ d) as (sign & b & -> & Hsign & _ & d & Hd & Hne & ->).
  { destruct s as [|c s]; [done|]. destruct (Ascii.eqb_spec c "-") as [->|].
    - destruct (span_digits s) as [[|x d] r'] eqn:Ed; [done|]. injection E as <- <-.
      exists "-", s. split_and!; [done|by right|done|]. by exists (String x d).
    - destruct (span_digits (String c s)) as [[|x d] r'] eqn:Ed; [done|]. injection E as <- <-.
      exists "", (String c s). split_and!; [done|by left|done|]. by exists (String x d). }
  apply span_digits_split in Hd as (-> & Hd & Hr). split; [by rewrite str_app_assoc|]. split; [done|].
  assert (numeral (sign +:+ d) (clamp_int64 ((if decide (sign = "") then 1 else -1) * default 0 (parse_nat d)))) as Hn.
  { destruct Hsign as [-> | ->].
    - rewrite decide_True, str_app_nil_l, Z.mul_1_l by done. by constructor.
    - rewrite decide_False by done.
      replace (-1 * default 0 (parse_nat d)) with (- default 0 (parse_nat d)) by lia. by constructor. }
  destruct (re_number_numeral _ _ "" Hn I) as [_ Hv]. by rewrite Hv.
Qed.

Lemma skip_re_space_spaceless s : spaceless (skip_re_space s).
Proof.
  induction s as [|c s IH]; [done|]. cbn [skip_re_space]. by destruct (is_re_space c) eqn:E.
Qed.

Lemma spaces_digitless s r : spaces s → digitless r → digitless (s +:+ r).
Proof.
  intros Hs Hr. destruct s as [|c s]; [by rewrite str_app_nil_l|]. rewrite str_app_cons. simpl.
  unfold spaces in Hs. cbn [str_forall] in Hs. apply andb_true_iff in Hs as [Hc _].
  destruct (is_digit c) eqn:E; [|done]. apply digit_not_space in E as [E _]. congruence.
Qed.

Lemma nonempty_numeral t n : numeral t n → nonempty t = true.
Proof. intros [d [Hne _]|d _]; by apply bool_decide_eq_true_2. Qed.

(** The groups of rangeRE, as bounds. *)
Definition bounds (g : string * string) : Z * Z :=
  (ParseInt_digits g.1, if nonempty g.2 then ParseInt_digits g.2 else ParseInt_digits g.1).

Lemma bracket_rangeRE s lo hi : bracket s lo hi → bounds <$> rangeRE s = Some (lo, hi).
Proof.
  intros [s1 t s2 n H1 H2 Ht|s1 t s2 s3 u s4 a b H1 H2 H3 H4 Ht Hu]; unfold rangeRE;
    rewrite str_app_cons, str_app_nil_l; cbn [Ascii.eqb Bool.eqb].
  - rewrite skip_re_space_app by (done || by eapply numeral_spaceless).
    destruct (re_number_numeral t n (s2 +:+ "]") Ht) as [-> Hn]; [by apply spaces_digitless|].
    rewrite skip_re_space_app by done. cbn. unfold bounds. simpl. by rewrite Hn.
  - rewrite skip_re_space_app by (done || by eapply numeral_spaceless).
    destruct (re_number_numeral t a (s2 +:+ "-" +:+ s3 +:+ u +:+ s4 +:+ "]") Ht) as [-> Hn];
      [by apply spaces_digitless|].
    rewrite skip_re_space_app by done. rewrite (str_app_cons "-"), str_app_nil_l. cbn [Ascii.eqb Bool.eqb].
    rewrite skip_re_space_app by (done || by eapply numeral_spaceless).
    destruct (re_number_numeral u b (s4 +:+ "]") Hu) as [-> Hm]; [by apply spaces_digitless|].
    rewrite skip_re_space_app by done. rewrite bool_decide_eq_true_2 by done.
    change (Some (bounds (t, u)) = Some (a, b)). unfold bounds. cbn [fst snd].
    by rewrite (nonempty_numeral _ _ Hu), Hn, Hm.
Qed.

Lemma rangeRE_bracket s g : rangeRE s = Some g → bracket s (bounds g).1 (bounds g).2.
Proof.
  unfold rangeRE. destruct s as [|c s]; [done|]. destruct (Ascii.eqb_spec c "[") as [->|]; [|done].
  destruct (skip_re_space_split s) as (s1 & H1 & Es).
  destruct (re_number (skip_re_space s)) as [[t r]|] eqn:Et; [|done].
  apply re_number_split in Et as (Et & _ & Hn). rewrite Et in Es. subst s.
  destruct (skip_re_space_split r) as (s2 & H2 & Er). clear Et.
  destruct (skip_re_space r) as [|d r'] eqn:Ed; [done|]. rewrite Er. clear Er.
  assert (∀ g, (if bool_decide (String d r' = "]") then Some (t, "") else None) = Some g →
    bracket (String "[" (s1 +:+ t +:+ s2 +:+ String d r')) (bounds g).1 (bounds g).2) as Hone.
  { intros g'. case_bool_decide as E; [|done]. intros [= <-]. rewrite E. unfold bounds. cbn [fst snd nonempty].
    by apply (bracket_one s1 t s2). }
  destruct (Ascii.eqb_spec d "-") as [->|]; [|by apply Hone].
  destruct (skip_re_space_split r') as (s3 & H3 & Er').
  destruct (re_number (skip_re_space r')) as [[u q]|] eqn:Eu; [|by apply Hone].
  apply re_number_split in Eu as (Eu & _ & Hu). rewrite Eu in Er'. subst r'.
  destruct (skip_re_space_split q) as (s4 & H4 & Eq).
  destruct (bool_decide (skip_re_space q = "]")) eqn:Eend; [|done]. apply bool_decide_eq_true in Eend.
  intros [= <-]. rewrite Eend in Eq. rewrite Eq. unfold bounds. cbn [fst snd].
  rewrite (nonempty_numeral _ _ Hu). by apply (bracket_two s1 t s2 s3 u s4).
Qed.

Lemma bracket_iff s lo hi : bracket s lo hi ↔ bounds <$> rangeRE s = Some (lo, hi).
Proof.
  split; [apply bracket_rangeRE|]. destruct (rangeRE s) as [g|] eqn:E; [|done].
  change (bounds <$> Some g) with (Some (bounds g)).
  intros Hb%(inj Some). apply rangeRE_bracket in E. by rewrite Hb in E.
Qed.

(** [checkRange] accepts the integers in range. *)
Lemma checkRange_spec spec v :
  checkRange spec v = true ↔ ∃ n, Atoi (TrimSpace v) = Some n ∧ in_range spec n.
Proof.
  unfold checkRange, in_range. destruct (Atoi (TrimSpace v)) as [n|]; [|naive_solver].
  transitivity (∃ pre alt post lo hi, split_byte "," spec = pre ++ alt :: post ∧
    Forall (λ a, ∃ lo hi, bracket (TrimSpace a) lo hi) pre ∧ bracket (TrimSpace alt) lo hi ∧
    lo ≤ n ≤ hi); [|naive_solver].
  induction (split_byte "," spec) as [|a alts IH]; cbn [range_alternatives].
  { split; [done|]. intros (pre & alt & post & lo & hi & E & _). by destruct pre. }
  pose proof (bracket_iff (TrimSpace a)) as Hb.
  destruct (rangeRE (TrimSpace a)) as [[m1 m2]|].
  - set (lo := ParseInt_digits m1). set (hi := if nonempty m2 then _ else _).
    assert (bracket (TrimSpace a) lo hi) as Ha by by apply Hb.
    destruct ((lo <=? n) && (n <=? hi)) eqn:Ein.
    + btrue. split; [|done]. intros _. exists [], a, alts, lo, hi. by split_and!.
    + rewrite IH. split.
      * intros (pre & alt & post & l & h & -> & Hp & ? & ?).
        exists (a :: pre), alt, post, l, h. split_and!; [done| |tauto..]. constructor; [|done]. eauto.
      * intros ([|a' pre] & alt & post & l & h & E & Hp & Hal & Hn); injection E as <- ->.
        -- apply Hb in Hal. simpl in Hal. injection Hal as <- <-.
           change (lo ≤ n ≤ hi) in Hn. apply andb_false_iff in Ein as [E|E]; btrue; lia.
        -- apply Forall_cons in Hp as [_ Hp]. by exists pre, alt, post, l, h.
  - split; [done|].
    intros ([|a' pre] & alt & post & l & h & E & Hp & Hal & Hn); injection E as <- ->.
    + by apply Hb in Hal.
    + apply Forall_cons in Hp as [(? & ? & Ha) _]. by apply Hb in Ha.
Qed.

(** ** ADMX payloads *)

Section admx_rules.
Context `{NameTables}.

(** How many elements are open after these tokens. *)
Definition token_depth (t : Token) : Z :=
  match t with StartElement _ _ => 1 | EndElement _ => -1 | _ => 0 end.
Definition depth (ts : list Token) : Z := foldr Z.add 0 (map token_depth ts).

(** The elements inside the outermost ones, in document order: their names in
    lower case and their attributes; [d] elements are open before. *)
Fixpoint inner_elements (d : Z) (ts : list Token) : list (string * list Attr) :=
  match ts with
  | [] => []
  | t :: ts =>
      match t with
      | StartElement n attrs =>
          if decide (d = 0) then inner_elements (d + 1) ts
          else (go_lower (name_Local n), attrs) :: inner_elements (d + 1) ts
      | _ => inner_elements (d + token_depth t) ts
      end
  end.

Definition attr_named (name : string) (a : Attr) : Prop := go_lower (name_Local (at_Name a)) = name.
#[local] Instance attr_named_dec name a : Decision (attr_named name a).
Proof. unfold attr_named. apply _. Defined.

(** A data element with a value and with an id, the last one of its ids, that
    is not empty. *)
Definition data_element (e : string * list Attr) : Prop :=
  e.1 = "data" ∧ (∃ a, a ∈ e.2 ∧ attr_named "value" a) ∧
  ∃ pre a post, e.2 = pre ++ a :: post ∧ attr_named "id" a ∧ at_Value a ≠ "" ∧
    Forall (λ b, ¬ attr_named "id" b) post.

(** One disabled element, or an enabled element followed by data elements. *)
Definition payload_elements (es : list (string * list Attr)) : Prop :=
  (∃ attrs, es = [("disabled", attrs)]) ∨
  (∃ attrs ds, es = ("enabled", attrs) :: ds ∧ Forall data_element ds).

(** The tokens of a payload and of the element around it, [d] elements being
    open before: no nesting below the second level, no text inside. *)
Definition flat_from (d : Z) (ts : list Token) : Prop :=
  (∀ pre n attrs post, ts = pre ++ StartElement n attrs :: post → d + depth pre < 2) ∧
  (∀ pre s post, ts = pre ++ CharData s :: post → 1 ≤ d + depth pre → TrimSpace s = "").

(** An ADMX payload: wrapped in an element it is XML, flat, and its elements
    are those of a payload. *)
Definition admx_payload (v : string) : Prop :=
  let ts := (lex_value v).1.*1 in
  errors_Is (lex_value v).2 io_EOF = true ∧ flat_from 0 ts ∧ payload_elements (inner_elements 0 ts).

Lemma flat_cons d t ts :
  flat_from d (t :: ts) ↔
  (∀ n attrs, t = StartElement n attrs → d < 2) ∧
  (∀ s, t = CharData s → 1 ≤ d → TrimSpace s = "") ∧ flat_from (d + token_depth t) ts.
Proof.
  assert (∀ pre, d + depth (t :: pre) = d + token_depth t + depth pre) as Hd
    by (intros pre; unfold depth; simpl; lia).
  unfold flat_from. split.
  - intros [Hs Hc]. split_and!.
    + intros n attrs ->. pose proof (Hs [] n attrs ts eq_refl) as Hx. unfold depth in Hx. simpl in Hx. lia.
    + intros s -> H1. apply (Hc [] s ts eq_refl). unfold depth. simpl. lia.
    + intros pre n attrs post ->. rewrite <- Hd. by apply (Hs (t :: pre) n attrs post).
    + intros pre s post ->. rewrite <- Hd. by apply (Hc (t :: pre) s post).
  - intros (H1 & H2 & Hs & Hc). split.
    + intros [|t' pre] n attrs post E; injection E as -> ->.
      * unfold depth. simpl. pose proof (H1 n attrs eq_refl). lia.
      * rewrite Hd. by eapply Hs.
    + intros [|t' pre] s post E; injection E as -> ->.
      * unfold depth. simpl. intros. apply H2; [done|lia].
      * rewrite Hd. by eapply Hc.
Qed.

(** What the loop still asks for, by its state. *)
Definition wanted (state : string) (es : list (string * list Attr)) : Prop :=
  (state = "" ∧ payload_elements es) ∨ (state = "disabled" ∧ es = []) ∨
  (state = "enabled" ∧ Forall data_element es).

Definition id_given (attrs : list Attr) : Prop :=
  ∃ pre a post, attrs = pre ++ a :: post ∧ attr_named "id" a ∧ at_Value a ≠ "" ∧
    Forall (λ b, ¬ attr_named "id" b) post.

Lemma id_given_snoc attrs b :
  id_given (attrs ++ [b]) ↔
  if decide (attr_named "id" b) then at_Value b ≠ "" else id_given attrs.
Proof.
  unfold id_given. split.
  - intros (pre & a & post & E & Ha & Hv & Hp). destruct post as [|x post _] using rev_ind.
    + apply app_inj_tail in E as [-> ->]. by rewrite decide_True.
    + rewrite app_comm_cons, app_assoc in E. apply app_inj_tail in E as [-> ->].
      apply Forall_app in Hp as [Hp Hx]. apply Forall_inv in Hx.
      rewrite decide_False by exact Hx. by exists pre, a, post.
  - case_decide as Hb; [intros Hv; by exists attrs, b, []|].
    intros (pre & a & post & -> & Ha & Hv & Hp). exists pre, a, (post ++ [b]).
    split_and!; [by rewrite <- app_assoc|done|done|]. apply Forall_app. by rewrite Forall_singleton.
Qed.

Lemma admx_attrs_snoc attrs b :
  admx_attrs (attrs ++ [b]) =
  (if decide (attr_named "id" b) then nonempty (at_Value b) else (admx_attrs attrs).1,
   if decide (attr_named "value" b) then true else (admx_attrs attrs).2).
Proof.
  unfold admx_attrs at 1. rewrite foldl_app. fold (admx_attrs attrs). cbn [foldl].
  destruct (admx_attrs attrs) as [i v].
  repeat case_decide; try done; unfold attr_named in *; congruence.
Qed.

Lemma admx_attrs_spec attrs :
  ((admx_attrs attrs).1 = true ↔ id_given attrs) ∧
  ((admx_attrs attrs).2 = true ↔ ∃ a, a ∈ attrs ∧ attr_named "value" a).
Proof.
  induction attrs as [|b attrs [IH1 IH2]] using rev_ind.
  { split; (split; [done|]).
    - intros (pre & a & post & E & _). by destruct pre.
    - intros (a & Ha & _). by apply elem_of_nil in Ha. }
  rewrite admx_attrs_snoc, id_given_snoc. cbn [fst snd]. split.
  - case_decide; [|done]. unfold nonempty. by rewrite bool_decide_eq_true.
  - setoid_rewrite elem_of_app. setoid_rewrite list_elem_of_singleton.
    case_decide; [naive_solver|]. rewrite IH2. naive_solver.
Qed.

Lemma data_element_iff n attrs :
  data_element (n, attrs) ↔
  n = "data" ∧ negb (admx_attrs attrs).1 || negb (admx_attrs attrs).2 = false.
Proof.
  destruct (admx_attrs_spec attrs) as [H1 H2]. unfold data_element. cbn [fst snd].
  fold (id_given attrs). rewrite <- H1, <- H2.
  destruct (admx_attrs attrs) as [[] []]; simpl; naive_solver.
Qed.

(** One more inner element, by the state. *)
Lemma wanted_cons state n attrs es :
  wanted state ((n, attrs) :: es) ↔
  (state = "" ∧ (n = "enabled" ∧ wanted "enabled" es ∨ n = "disabled" ∧ wanted "disabled" es)) ∨
  (state = "enabled" ∧ data_element (n, attrs) ∧ wanted "enabled" es).
Proof.
  unfold wanted, payload_elements. rewrite Forall_cons. split.
  - intros [(-> & [(a & E)|(a & ds & E & Hd)])|[(_ & E)|(-> & Hd & Hes)]]; [..|done|].
    + injection E as -> -> ->. left. split; [done|]. right. split; [done|]. by right; left.
    + injection E as -> -> ->. left. split; [done|]. left. split; [done|]. by right; right.
    + right. split_and!; [done..|]. by right; right.
  - assert (wanted "enabled" es → Forall data_element es) as He
      by (intros [[? _]|[[? _]|[_ ?]]]; done).
    assert (wanted "disabled" es → es = []) as Hdis
      by (intros [[? _]|[[_ ?]|[? _]]]; done).
    intros [[-> [[-> Hes]|[-> Hes]]]|(-> & Hd & Hes)].
    + left. split; [done|]. right. eauto.
    + left. split; [done|]. left. rewrite (Hdis Hes). eauto.
    + right. right. split_and!; [done..|]. by apply He.
Qed.

Lemma wanted_nil state : wanted state [] ↔ state = "disabled" ∨ state = "enabled".
Proof.
  unfold wanted, payload_elements. split.
  - intros [(_ & [(? & ?)|(? & ? & ? & _)])|[[-> _]|[-> _]]]; [done..|by left|by right].
  - intros [-> | ->]; [by right; left|by right; right].
Qed.

Lemma admx_loop_spec d state ts last :
  (state = "" ∨ state = "disabled" ∨ state = "enabled") →
  admx_loop d state ts last = true ↔
  errors_Is last io_EOF = true ∧ flat_from d ts.*1 ∧ wanted state (inner_elements d ts.*1).
Proof.
  revert d state. induction ts as [|[t o] ts IH]; intros d state Hst.
  { cbn [admx_loop fmap list_fmap inner_elements]. rewrite andb_true_iff, wanted_nil.
    unfold nonempty. rewrite bool_decide_eq_true.
    assert (flat_from d []) by (split; by intros [|]). naive_solver. }
  rewrite fmap_cons. cbn [fst]. rewrite flat_cons.
  destruct t as [n attrs|n|s| | |]; cbn [admx_loop inner_elements token_depth].
  - destruct (Z.eqb_spec (d + 1) 1) as [E1|E1].
    { rewrite (decide_True (P := d = 0)) by lia. rewrite IH by done.
      assert (∀ n0 a0, StartElement n attrs = StartElement n0 a0 → d < 2) by (intros; lia).
      naive_solver. }
    rewrite (decide_False (P := d = 0)) by lia.
    destruct (Z.ltb_spec 2 (d + 1)) as [E2|E2].
    { split; [done|]. intros (_ & [Hd _] & _). specialize (Hd _ _ eq_refl). lia. }
    rewrite wanted_cons, data_element_iff.
    assert (∀ n0 a0, StartElement n attrs = StartElement n0 a0 → d < 2) as Hd2 by (intros; lia).
    assert (∀ s, StartElement n attrs = CharData s → 1 ≤ d → TrimSpace s = "") as Hc2 by done.
    set (l := go_lower (name_Local n)). clearbody l. clear E1 E2.
    destruct (decide (l = "enabled")) as [->|He].
    { unfold nonempty. case_bool_decide as Hs; [naive_solver|]. subst state.
      rewrite IH by auto. naive_solver. }
    destruct (decide (l = "disabled")) as [->|Hdis].
    { unfold nonempty. case_bool_decide as Hs; [naive_solver|]. subst state.
      rewrite IH by auto. naive_solver. }
    destruct (decide (l = "data")) as [->|Hda]; [|naive_solver].
    case_bool_decide as Hs; cbn [negb]; [|naive_solver]. subst state.
    destruct (admx_attrs attrs) as [i v]. cbn [fst snd].
    destruct (negb i || negb v); [naive_solver|]. rewrite IH by auto. naive_solver.
  - rewrite IH by done. change (d - 1) with (d + -1). naive_solver.
  - destruct ((1 <=? d) && nonempty (TrimSpace s)) eqn:E.
    + btrue. split; [done|]. intros (_ & (_ & Hs & _) & _).
      unfold nonempty in *. btrue. naive_solver.
    + rewrite IH by done. rewrite Z.add_0_r.
      assert (1 ≤ d → TrimSpace s = "") as Hs.
      { intros Hd. apply andb_false_iff in E as [E|E]; [btrue; lia|]. unfold nonempty in E.
        apply bool_decide_eq_false in E. by apply dec_stable in E. }
      naive_solver.
  - rewrite IH, Z.add_0_r by done. naive_solver.
  - rewrite IH, Z.add_0_r by done. naive_solver.
  - rewrite IH, Z.add_0_r by done. naive_solver.
Qed.

(** [checkADMX] accepts the payloads. *)
Lemma checkADMX_spec v : checkADMX v = true ↔ admx_payload v.
Proof.
  unfold checkADMX, admx_payload. destruct (lex_value v) as [ts last]. cbn [fst snd].
  rewrite admx_loop_spec by auto. unfold wanted. naive_solver.
Qed.
End admx_rules.

(** ** Formats *)

Section formats.
Context `{NameTables} (ParseFloat_ok : string → bool).

(** The texts each format takes; a format that is not listed takes any. *)
Definition format_takes (f : Format) (v : string) : Prop :=
  (f = FormatInt → is_Some (Atoi (TrimSpace v))) ∧
  (f = FormatBool → go_lower (TrimSpace v) ∈ ["true"; "false"]) ∧
  (f = Csp.FormatB64 → is_Some (b64_decode (TrimSpace v))) ∧
  (f = Csp.FormatXML → errors_Is (lex_value v).2 io_EOF = true) ∧
  (f = FormatFloat → ParseFloat_ok (TrimSpace v) = true) ∧
  (f = Csp.FormatNull → TrimSpace v = "").

Lemma checkFormat_spec f v : checkFormat ParseFloat_ok f v = true ↔ format_takes f v.
Proof.
  unfold checkFormat, format_takes, wellFormed.
  repeat (case_decide; [subst f; rewrite ?bool_decide_eq_true; 
    (split; [intros Hx; split_and!; first [by intros _|discriminate]|]);
    intros (? & ? & ? & ? & ? & ?); auto|]).
  split; [intros _; split_and!; by intros ?|done].
Qed.
End formats.
