(* ===== verification/CspCheck.v ===== *)
(** * The schema check decides acceptability

    Check reports no problem exactly for the commands the schema accepts, the
    rules of values being those of [CspRules]; what the walks by pointer find
    is the path the lookup took. *)
From stdpp Require Import base gmap strings list.
From Stdlib Require Import ZArith Lia Ascii.
From S2P Require Import Prelude GoStrings GoUrl SyncmlModel Response Encode GoXml SyncmlAuth.
From S2P Require Import MdmCommand Csp CspProofs CspRegistry CspValidation CspRules.

Local Open Scope Z_scope.
Local Open Scope go_scope.

(** ** Induction on trees *)

Section node_ind.
Context (P : Node → Prop).
Hypothesis step : ∀ n, Forall P (n_Children n) → P n.

Fixpoint Node_nested_ind (n : Node) : P n :=
  step n ((fix go (cs : list Node) : Forall P cs :=
    match cs with
    | [] => Forall_nil_2 P
    | c :: cs => Forall_cons_2 P c cs (Node_nested_ind c) (go cs)
    end) (n_Children n)).
End node_ind.

(** ** Walks *)

Lemma first_child_at {A} (f : nat → Node → option A) i cs j c :
  cs !! j = Some c → (∀ k d, k ≠ j → cs !! k = Some d → f (i + k)%nat d = None) →
  first_child f i cs = f (i + j)%nat c.
Proof.
  revert i j. induction cs as [|d cs IH]; intros i j Hj Hother; [done|]. cbn [first_child].
  destruct j as [|j].
  - injection Hj as ->. rewrite Nat.add_0_r. destruct (f i c) as [a|]; [done|].
    assert (∀ i, (∀ k d, cs !! k = Some d → f (i + k)%nat d = None) → first_child f i cs = None) as Hn.
    { clear. induction cs as [|d cs IH]; intros i Hc; [done|]. cbn [first_child].
      pose proof (Hc 0%nat d eq_refl) as H0. rewrite Nat.add_0_r in H0. rewrite H0. apply IH.
      intros k e Hk. by replace (S i + k)%nat with (i + S k)%nat by lia; apply (Hc (S k)). }
    apply Hn. intros k d Hk. replace (S i + k)%nat with (i + S k)%nat by lia. by apply Hother.
  - pose proof (Hother 0%nat d ltac:(lia) eq_refl) as H0. rewrite Nat.add_0_r in H0. rewrite H0.
    replace (i + S j)%nat with (S i + j)%nat by lia. apply IH; [done|].
    intros k e Hk Hke. replace (S i + k)%nat with (i + S k)%nat by lia. apply Hother; [lia|done].
Qed.

(** Only the walk into the right child meets the target. *)
Lemma trail_walk_other target here pre n :
  ¬ here `prefix_of` target → trail_walk target here pre n = None.
Proof.
  revert here pre. induction n as [n IH] using Node_nested_ind. intros here pre Hp.
  assert (trail_walk target here pre n = if decide (here = target) then Some (pre ++ [n])
    else first_child (λ i c, trail_walk target (here ++ [i]) (pre ++ [n]) c) 0 (n_Children n)) as ->
    by (by destruct n).
  rewrite decide_False by (by intros ->; apply Hp).
  generalize 0%nat. induction IH as [|c cs Hc _ IHcs]; intros i; [done|]. cbn [first_child].
  rewrite Hc; [apply IHcs|]. intros [l E]. apply Hp. exists (i :: l). by rewrite E, <- app_assoc.
Qed.

Lemma prefix_other (here : list nat) i k pos : k ≠ i → ¬ (here ++ [k]) `prefix_of` (here ++ i :: pos).
Proof.
  intros Hne [l E]. rewrite <- app_assoc in E. apply app_inv_head in E. simpl in E. congruence.
Qed.

Lemma walk_ne (here : list nat) i pos : here ≠ here ++ i :: pos.
Proof. intros E. apply (f_equal length) in E. rewrite length_app in E. simpl in E. lia. Qed.

Lemma trail_walk_trail here pre n pos cs :
  trail n pos = Some cs → trail_walk (here ++ pos) here pre n = Some (pre ++ n :: cs).
Proof.
  revert here pre n cs. induction pos as [|i pos IH]; intros here pre n cs; cbn [trail].
  { intros [= <-]. rewrite app_nil_r. destruct n. cbn [trail_walk]. by rewrite decide_True. }
  destruct (n_Children n !! i) as [c|] eqn:Ec; [|done].
  destruct (trail c pos) as [ds|] eqn:Ed; [|done]. intros [= <-].
  assert (trail_walk (here ++ i :: pos) here pre n =
    first_child (λ j c, trail_walk (here ++ i :: pos) (here ++ [j]) (pre ++ [n]) c) 0 (n_Children n)) as ->.
  { destruct n. cbn [trail_walk]. rewrite decide_False by apply walk_ne. done. }
  rewrite (first_child_at _ 0 _ i c Ec).
  - simpl. pose proof (IH (here ++ [i]) (pre ++ [n]) c ds Ed) as E. rewrite <- !app_assoc in E. exact E.
  - intros k d Hk _. apply trail_walk_other. by apply prefix_other.
Qed.

Lemma atomic_walk_other target here inh n :
  ¬ here `prefix_of` target → atomic_walk target here inh n = None.
Proof.
  revert here inh. induction n as [n IH] using Node_nested_ind. intros here inh Hp.
  assert (atomic_walk target here inh n = if decide (here = target) then Some (inh || n_AtomicRequired n)
    else first_child (λ i c, atomic_walk target (here ++ [i]) (inh || n_AtomicRequired n) c) 0 (n_Children n))
    as -> by (by destruct n).
  rewrite decide_False by (by intros ->; apply Hp).
  generalize 0%nat. induction IH as [|c cs Hc _ IHcs]; intros i; [done|]. cbn [first_child].
  rewrite Hc; [apply IHcs|]. intros [l E]. apply Hp. exists (i :: l). by rewrite E, <- app_assoc.
Qed.

Lemma atomic_walk_trail here inh n pos cs :
  trail n pos = Some cs →
  atomic_walk (here ++ pos) here inh n = Some (inh || existsb n_AtomicRequired (n :: cs)).
Proof.
  revert here inh n cs. induction pos as [|i pos IH]; intros here inh n cs; cbn [trail].
  { intros [= <-]. rewrite app_nil_r. destruct n. cbn [atomic_walk]. rewrite decide_True by done.
    simpl. by rewrite orb_false_r. }
  destruct (n_Children n !! i) as [c|] eqn:Ec; [|done].
  destruct (trail c pos) as [ds|] eqn:Ed; [|done]. intros [= <-].
  assert (atomic_walk (here ++ i :: pos) here inh n =
    first_child (λ j c, atomic_walk (here ++ i :: pos) (here ++ [j]) (inh || n_AtomicRequired n) c) 0
      (n_Children n)) as ->.
  { destruct n. cbn [atomic_walk]. rewrite decide_False by apply walk_ne. done. }
  rewrite (first_child_at _ 0 _ i c Ec).
  - simpl. pose proof (IH (here ++ [i]) (inh || n_AtomicRequired n) c ds Ed) as E.
    rewrite <- app_assoc in E. etrans; [exact E|]. simpl. by rewrite !orb_assoc.
  - intros k d Hk _. apply atomic_walk_other. by apply prefix_other.
Qed.

(** A lookup knows where it ends. *)
Lemma lookup_child_in n seg ps i c ps' :
  lookup_child n seg ps = Some (i, c, ps') → n_Children n !! i = Some c.
Proof.
  unfold lookup_child. destruct (pick (names_child seg) 0 _) as [[k d]|] eqn:E.
  - intros [= <- <- _]. apply pick_spec in E as (j & -> & ? & _). done.
  - destruct (pick n_Dynamic 0 _) as [[k d]|] eqn:E'; [|done]. intros [= <- <- _].
    apply pick_spec in E' as (j & -> & ? & _). done.
Qed.

Lemma descend_at n here ps segs m :
  descend n here ps segs = Some m →
  ∃ pos cs, m_pos m = here ++ pos ∧ trail n pos = Some cs ∧ m_Node m = List.last cs n.
Proof.
  revert n here ps. induction segs as [|seg segs IH]; intros n here ps; cbn [descend].
  { intros [= <-]. exists [], []. by rewrite app_nil_r. }
  destruct (lookup_child n seg ps) as [[[i c] ps']|] eqn:E; [|done]. intros Hd.
  apply lookup_child_in in E. destruct (IH _ _ _ Hd) as (pos & cs & -> & Ht & ->).
  exists (i :: pos), (c :: cs). rewrite <- app_assoc. split; [done|]. cbn [trail].
  rewrite E, Ht. split; [done|]. by rewrite last_cons_default.
Qed.

Lemma Tree_Lookup_at t uri m :
  Tree_Lookup t uri = Some m →
  ∃ cs, trail (t_Root t) (m_pos m) = Some cs ∧ m_Node m = List.last cs (t_Root t).
Proof.
  unfold Tree_Lookup. destruct (below_root _ _); [|done].
  intros (pos & cs & -> & ? & ?)%descend_at. eauto.
Qed.

Lemma first_match_at ts uri m t : first_match ts uri = Some (m, t) → Tree_Lookup t uri = Some m.
Proof.
  induction ts as [|u ts IH]; simpl; [done|].
  destruct (Tree_Lookup u uri) eqn:E; [by intros [= <- <-]|done].
Qed.

Lemma Lookup_at reg uri m t :
  CspRegistry.Lookup reg uri = Some (m, t) →
  ∃ cs, trail (t_Root t) (m_pos m) = Some cs ∧ m_Node m = List.last cs (t_Root t).
Proof.
  unfold CspRegistry.Lookup. destruct (first_match _ uri) as [[m' t']|] eqn:E.
  - intros [= <- <-]. by eapply Tree_Lookup_at, first_match_at.
  - destruct (hasScopePrefix uri); [done|]. intros E'. by eapply Tree_Lookup_at, first_match_at.
Qed.

(** ** Acceptable commands *)

Lemma testbit_ldiff n m : Z.ldiff n m = 0 ↔ ∀ k, 0 ≤ k → Z.testbit n k = true → Z.testbit m k = true.
Proof.
  split.
  - intros E k Hk Hn. assert (Z.testbit (Z.ldiff n m) k = false) as Hb by (by rewrite E, Z.testbit_0_l).
    rewrite Z.ldiff_spec, Hn in Hb. by destruct (Z.testbit m k).
  - intros Hb. apply Z.bits_inj_0. intros k. destruct (Z.lt_ge_cases k 0); [by apply Z.testbit_neg_r|].
    rewrite Z.ldiff_spec. destruct (Z.testbit n k) eqn:E; [|done]. by rewrite (Hb k).
Qed.

(** A bit of the mask is a bit of some flag. *)
Lemma flag_mask_bit es k :
  Z.testbit (flag_mask es) k = true ↔
  ∃ e f, e ∈ es ∧ ParseInt0 (ev_Value e) = Some f ∧ Z.testbit f k = true.
Proof.
  unfold flag_mask. assert (∀ m, Z.testbit (foldl (λ m e, match ParseInt0 (ev_Value e) with
      Some f => Z.lor m f | None => m end) m es) k = true ↔ Z.testbit m k = true ∨
      ∃ e f, e ∈ es ∧ ParseInt0 (ev_Value e) = Some f ∧ Z.testbit f k = true) as Hm.
  { induction es as [|e es IH]; intros m; simpl; [set_solver|]. rewrite IH.
    destruct (ParseInt0 (ev_Value e)) as [f|] eqn:E; [rewrite Z.lor_spec, orb_true_iff|]; set_solver. }
  rewrite Hm, Z.testbit_0_l. naive_solver.
Qed.

(** The value is an integer all of whose bits belong to some flag. *)
Definition flags_allowed (es : list EnumValue) (v : string) : Prop :=
  ∃ n, ParseInt0 (TrimSpace v) = Some n ∧
    ∀ k, 0 ≤ k → Z.testbit n k = true →
      ∃ e f, e ∈ es ∧ ParseInt0 (ev_Value e) = Some f ∧ Z.testbit f k = true.

Lemma checkFlag_iff es v : checkFlag es v = true ↔ flags_allowed es v.
Proof.
  unfold checkFlag, flags_allowed. destruct (ParseInt0 (TrimSpace v)) as [n|]; [|naive_solver].
  rewrite Z.eqb_eq, testbit_ldiff. setoid_rewrite flag_mask_bit. naive_solver.
Qed.

Lemma inEnum_iff es v :
  inEnum es v = true ↔ ∃ e, e ∈ es ∧ EqualFold (TrimSpace v) (ev_Value e) = true.
Proof. unfold inEnum. rewrite existsb_exists. setoid_rewrite list_elem_of_In. done. Qed.

(** The cache of compiled expressions changes nothing. *)
Section cache.
Context (regexp_Compile : string → option (string → bool)).

Definition cache_ok (cache : gmap string (string → bool)) : Prop :=
  ∀ p re, cache !! p = Some re → regexp_Compile p = Some re.

Lemma compile_cached cache p cache' r :
  cache_ok cache → compile regexp_Compile cache p = (cache', r) →
  r = regexp_Compile p ∧ cache_ok cache'.
Proof.
  intros Hc. unfold compile. destruct (cache !! p) as [re|] eqn:E.
  { intros [= <- <-]. by rewrite (Hc p re E). }
  destruct (regexp_Compile p) as [re|] eqn:Er; intros [= <- <-]; [|done]. split; [done|].
  intros q re'. rewrite lookup_insert. case_decide; [|apply Hc]. intros [= <-]. by subst q.
Qed.
End cache.

Section acceptable.
Context `{NameTables} (regexp_Compile : string → option (string → bool)).
Context (ParseFloat_ok : string → bool).

(** The allowed values, by their type; what the package does not evaluate is
    allowed. *)
Definition value_allowed (av : AllowedValues) (v : string) : Prop :=
  if decide (av_Type av = ValueTypeEnum) then
    ∃ e, e ∈ av_Enum av ∧ EqualFold (TrimSpace v) (ev_Value e) = true
  else if decide (av_Type av = ValueTypeFlag) then flags_allowed (av_Enum av) v
  else if decide (av_Type av = ValueTypeRange) then
    ∃ n, Atoi (TrimSpace v) = Some n ∧ in_range (av_Value av) n
  else if decide (av_Type av = ValueTypeRegEx) then
    ∀ re, regexp_Compile (av_Value av) = Some re → re v = true
  else if decide (av_Type av = ValueTypeADMX) then admx_payload v
  else True.

(** The value is allowed, or each element of a list value that is not empty. *)
Definition values_allowed (av : AllowedValues) (v : string) : Prop :=
  if decide (av_ListDelimiter av = "") then value_allowed av v
  else ∃ ps, splits (separator (av_ListDelimiter av)) v ps ∧
    Forall (λ p, p ≠ "" → value_allowed av p) ps.

Definition format_accepted (n : Node) (f : string) : Prop :=
  f = "" ∨ f = n_Format n ∨ n_Format n = Csp.FormatChr ∧ f = "xml".

Definition write_accepted (n : Node) (c : VCommand) : Prop :=
  if Leaf n then
    format_accepted n (vc_Format c) ∧
    match vc_Value c with
    | None => vc_Verb c = "Exec" ∨ n_Format n = Csp.FormatNull
    | Some v => format_takes ParseFloat_ok (n_Format n) v ∧
        ∀ av, n_AllowedValues n = Some av → values_allowed av v
    end
  else default "" (vc_Value c) = "" ∧ (vc_Format c = "" ∨ vc_Format c = FormatNode).

(** A name chosen by the server matches the pattern its node asks for. *)
Definition name_accepted (params : gmap string string) (n : Node) : Prop :=
  n_Dynamic n = true → nm_Kind (n_Naming n) = NamingUniqueName → nm_Pattern (n_Naming n) ≠ "" →
  ∀ v re, params !! n_Title n = Some v →
    regexp_Compile ("^(?:" +:+ nm_Pattern (n_Naming n) +:+ ")$") = Some re → re v = true.

Definition acceptable (reg : Registry) (c : VCommand) : Prop :=
  ∃ m t cs, CspRegistry.Lookup reg (vc_URI c) = Some (m, t) ∧
    trail (t_Root t) (m_pos m) = Some cs ∧
    vc_Verb c ∈ n_Access (m_Node m) ∧
    Forall (name_accepted (m_Params m)) (t_Root t :: cs) ∧
    (vc_Verb c = "Get" ∨ vc_Verb c = "Delete" ∨ write_accepted (m_Node m) c).

Lemma if_nil (b : bool) (e : error) : (if b then [] else [e]) = [] ↔ b = true.
Proof. by destruct b. Qed.
Lemma if_nil' (b : bool) (e : error) : (if b then [e] else []) = [] ↔ b = false.
Proof. by destruct b. Qed.

Lemma check_value_iff av v : (check_value regexp_Compile av v).1 = [] ↔ value_allowed av v.
Proof.
  unfold check_value, value_allowed. case_decide; [cbn; by rewrite if_nil, inEnum_iff|].
  case_decide; [cbn; by rewrite if_nil, checkFlag_iff|].
  case_decide; [cbn; by rewrite if_nil, checkRange_spec|].
  case_decide. { destruct (regexp_Compile (av_Value av)) as [re|]; cbn; [rewrite if_nil|]; naive_solver. }
  case_decide; [cbn; by rewrite if_nil, checkADMX_spec|]. by case_bool_decide.
Qed.

Lemma concat_nil {A} (l : list (list A)) : concat l = [] ↔ Forall (λ x, x = []) l.
Proof.
  induction l as [|x l IH]; simpl; [done|]. rewrite app_nil, IH, Forall_cons. done.
Qed.

(** The value, or its elements. *)
Definition values_of (av : AllowedValues) (v : string) : list string :=
  if nonempty (av_ListDelimiter av) then splitList v (av_ListDelimiter av) else [v].

Lemma values_of_iff av v : Forall (value_allowed av) (values_of av v) ↔ values_allowed av v.
Proof.
  unfold values_of, values_allowed, nonempty. case_bool_decide as Hd.
  - rewrite decide_False by done. destruct (splitList_spec v _ Hd) as (ps & Hps & ->).
    assert (Forall (value_allowed av) (filter (λ p, p ≠ "") ps) ↔
      Forall (λ p, p ≠ "" → value_allowed av p) ps) as ->.
    { rewrite !Forall_forall. setoid_rewrite list_elem_of_filter. naive_solver. }
    split; [eauto|]. intros (qs & Hqs & Hf). by rewrite (splits_fun _ _ _ _ Hps Hqs).
  - rewrite decide_True by done. by rewrite Forall_singleton.
Qed.

Lemma check_values_iff av v : (check_values regexp_Compile av v).1 = [] ↔ values_allowed av v.
Proof.
  rewrite <- values_of_iff. unfold check_values. cbn [fst]. fold (values_of av v).
  rewrite concat_nil, map_map, Forall_map. apply Forall_proper; [|done]. intros x. apply check_value_iff.
Qed.

Lemma nonempty_false s : nonempty s = false ↔ s = "".
Proof. unfold nonempty. case_bool_decide; naive_solver. Qed.

Lemma format_check n f :
  nonempty f && negb (bool_decide (f = n_Format n)) &&
  negb (bool_decide (n_Format n = Csp.FormatChr) && bool_decide (f = "xml")) = false ↔
  format_accepted n f.
Proof.
  unfold format_accepted, nonempty. repeat case_bool_decide; cbn; naive_solver.
Qed.

Lemma check_write_iff n c :
  (check_write regexp_Compile ParseFloat_ok n c).1 = [] ↔ write_accepted n c.
Proof.
  unfold check_write, write_accepted. destruct (Leaf n); cbn [negb].
  - destruct (vc_Value c) as [v|].
    + destruct (n_AllowedValues n) as [av|].
      * destruct (check_values regexp_Compile av v) as [errs un] eqn:E. cbn [fst].
        pose proof (check_values_iff av v) as Hv. rewrite E in Hv. cbn [fst] in Hv.
        rewrite !app_nil, if_nil, if_nil', format_check, Hv, checkFormat_spec. naive_solver.
      * cbn [fst]. rewrite !app_nil, if_nil, if_nil', format_check, checkFormat_spec. naive_solver.
    + cbn [fst]. rewrite app_nil, !if_nil', format_check, andb_false_iff, !negb_false_iff,
        !bool_decide_eq_true. done.
  - cbn [fst]. by rewrite app_nil, !if_nil', andb_false_iff, negb_false_iff, bool_decide_eq_true,
      !nonempty_false.
Qed.

Lemma dynamic_problems_iff params path :
  dynamic_problems regexp_Compile params path = [] ↔ Forall (name_accepted params) path.
Proof.
  unfold dynamic_problems. induction path as [|n path IH]; [done|]. rewrite Forall_cons, <- IH.
  cbn [omap list_omap]. unfold name_accepted. destruct (n_Dynamic n); [|naive_solver].
  case_bool_decide as Hk; [|naive_solver]. case_bool_decide as Hp; [naive_solver|]. cbn [negb orb].
  destruct (params !! n_Title n) as [v|]; [|naive_solver].
  destruct (regexp_Compile _) as [re|]; [|naive_solver]. destruct (re v) eqn:E.
  - split; [|by intros [_ ?]]. intros ->. split; [|done]. intros _ _ _ v' re' [= <-] [= <-]. done.
  - split; [done|]. intros [Hall _]. by rewrite (Hall eq_refl Hk Hp v re eq_refl eq_refl) in E.
Qed.

Lemma Allows_iff n a : Allows n a = true ↔ a ∈ n_Access n.
Proof.
  unfold Allows. rewrite existsb_exists. split.
  - intros (x & Hx & E). btrue. subst. by apply list_elem_of_In.
  - intros Ha. exists a. split; [by apply list_elem_of_In|by apply bool_decide_eq_true_2].
Qed.

(** Check in terms of what it decides. *)
Lemma Check_spec reg c :
  (vr_Errors (Check regexp_Compile ParseFloat_ok reg c) = [] ↔ acceptable reg c) ∧
  (∀ m t, CspRegistry.Lookup reg (vc_URI c) = Some (m, t) →
    ∃ cs, trail (t_Root t) (m_pos m) = Some cs ∧
      vr_AtomicRequired (Check regexp_Compile ParseFloat_ok reg c) =
        existsb n_AtomicRequired (t_Root t :: cs)).
Proof.
  unfold Check, acceptable. destruct (CspRegistry.Lookup reg (vc_URI c)) as [[m t]|] eqn:El.
  2: { split; [|done]. split; [done|]. by intros (m & t & cs & ? & _). }
  destruct (Lookup_at _ _ _ _ El) as (cs & Ht & Hm).
  pose proof (trail_walk_trail [] [] (t_Root t) (m_pos m) cs Ht) as Htw. simpl in Htw.
  split.
  - pose proof (check_write_iff (m_Node m) c) as Hw.
    assert (checkDynamicNames regexp_Compile t (m_pos m) (m_Params m) = [] ↔
      Forall (name_accepted (m_Params m)) (t_Root t :: cs)) as Hd.
    { unfold checkDynamicNames. rewrite Htw. apply dynamic_problems_iff. }
    transitivity (vc_Verb c ∈ n_Access (m_Node m) ∧ Forall (name_accepted (m_Params m)) (t_Root t :: cs) ∧
      (vc_Verb c = "Get" ∨ vc_Verb c = "Delete" ∨ write_accepted (m_Node m) c)); [|naive_solver].
    rewrite <- Hd, <- Hw, <- Allows_iff. case_bool_decide as Hv; cbn [vr_Errors].
    + rewrite !app_nil, if_nil. set_solver.
    + destruct (check_write _ _ (m_Node m) c) as [errs un]. cbn [vr_Errors fst].
      rewrite !app_nil, if_nil. set_solver.
  - intros m' t' [= <- <-]. exists cs. split; [done|].
    assert (atomicRequired t (m_pos m) = existsb n_AtomicRequired (t_Root t :: cs)) as <-.
    { unfold atomicRequired. pose proof (atomic_walk_trail [] false (t_Root t) (m_pos m) cs Ht) as E.
      simpl in E. by rewrite E. }
    case_bool_decide; [done|]. by destruct (check_write _ _ (m_Node m) c).
Qed.

(** The command one item of a leaf stands for. *)
Definition item_command (leaf : Command) (it : Item) : VCommand :=
  mkVCommand (Command_Name leaf) (Item_Target it)
    (match Item_Meta it with Some m => Meta_Format m | None => "" end)
    (option_map (λ d, Data_Text (Some d)) (Item_Data it)).

(** A problem is never empty. *)
Definition problems (l : list error) : Prop := Forall (λ e, e ≠ []) l.

Lemma problems_app l k : problems l → problems k → problems (l ++ k).
Proof. intros. by apply Forall_app. Qed.
Lemma problems_if b r : problems (if b : bool then [] else [Problem r]).
Proof. destruct b; by repeat constructor. Qed.
Lemma problems_if' b r : problems (if b : bool then [Problem r] else []).
Proof. destruct b; by repeat constructor. Qed.
#[local] Hint Resolve problems_app problems_if problems_if' : core.
#[local] Hint Extern 1 (problems []) => constructor : core.

Lemma problems_value av v : problems (check_value regexp_Compile av v).1.
Proof. unfold check_value. repeat (case_match; try (cbn; by auto)). Qed.

Lemma problems_values av v : problems (check_values regexp_Compile av v).1.
Proof.
  unfold check_values. cbn [fst]. fold (values_of av v). generalize (values_of av v). intros l. induction l as [|x l IH]; [constructor|]. cbn. apply problems_app; [apply problems_value|done].
Qed.

Lemma problems_write n c : problems (check_write regexp_Compile ParseFloat_ok n c).1.
Proof.
  unfold check_write. destruct (Leaf n); cbn [negb]; [|cbn; auto].
  destruct (vc_Value c) as [v|]; [|cbn; auto].
  destruct (n_AllowedValues n) as [av|]; [|cbn; auto].
  pose proof (problems_values av v). destruct (check_values regexp_Compile av v). cbn in *. auto.
Qed.

Lemma problems_dynamic params path : problems (dynamic_problems regexp_Compile params path).
Proof.
  unfold dynamic_problems. induction path as [|n path IH]; [constructor|]. cbn [omap list_omap].
  destruct (_ || _ || _); [done|]. destruct (params !! _); [|done].
  destruct (regexp_Compile _) as [re|]; [|done]. destruct (re s); [done|]. by constructor.
Qed.

Lemma Check_problems reg c : problems (vr_Errors (Check regexp_Compile ParseFloat_ok reg c)).
Proof.
  unfold Check. destruct (CspRegistry.Lookup reg (vc_URI c)) as [[m t]|]; [|by repeat constructor].
  pose proof (problems_write (m_Node m) c) as Hw.
  destruct (bool_decide _); [|destruct (check_write _ _ _ _)]; cbn [vr_Errors];
    unfold checkDynamicNames; auto 6 using problems_dynamic.
Qed.

Lemma Err_nil reg c :
  VResult_Err (Check regexp_Compile ParseFloat_ok reg c) = [] ↔ acceptable reg c.
Proof.
  rewrite <- (proj1 (Check_spec reg c)). unfold VResult_Err. rewrite concat_nil.
  pose proof (Check_problems reg c) as Hp. split; [|by intros ->].
  intros Hn. destruct (vr_Errors _) as [|e l]; [done|]. apply Forall_cons in Hp as [Hp _].
  by apply Forall_cons in Hn as [Hn _].
Qed.

(** C40: Check reports no problem exactly when the command is acceptable: its URI
    resolves, the node permits the verb, every server-chosen name on its path
    matches its pattern, and, unless it reads or deletes, format and value are
    ones the node takes; and it asks for an Atomic exactly when a node on the
    path does.  Values, element by element for a list, are a listed one up to
    case, an integer made of bits of the flags, an integer in a range [n] or
    [lo-hi] with only readable ranges in front of it, a match of the expression,
    or an ADMX payload: flat XML without text, whose elements are disabled alone
    or enabled and then data elements with id and value.  Types that are left
    unevaluated and an expression that does not compile allow any value.  Flags
    and payloads are taken as the code takes them, looser than its comments: the
    bits of different flags mix, and a payload may close the element it is
    wrapped in. *)
Theorem check_iff_acceptable reg c :
  (vr_Errors (Check regexp_Compile ParseFloat_ok reg c) = [] ↔ acceptable reg c) ∧
  (∀ m t, CspRegistry.Lookup reg (vc_URI c) = Some (m, t) →
    ∃ cs, trail (t_Root t) (m_pos m) = Some cs ∧
      vr_AtomicRequired (Check regexp_Compile ParseFloat_ok reg c) =
        existsb n_AtomicRequired (t_Root t :: cs)).
Proof. apply Check_spec. Qed.

(** Mdm.Check accepts a management command exactly when it is valid and, if
    there is a schema, every item of every leaf, inside groups too, is
    acceptable to it; otherwise the error is ErrCommand and says which rules
    are broken. *)
Theorem check_command_iff reg c :
  (Check_command regexp_Compile ParseFloat_ok reg c = Ok tt ↔
   MValidate c = Ok tt ∧
   ∀ r cmd, reg = Some r → c = Some cmd →
     Forall (λ leaf, Forall (λ it, acceptable r (item_command leaf it)) (itemsOf leaf))
       (Leaves (cmd_Body cmd))) ∧
  (∀ e, MValidate c = Ok tt → Check_command regexp_Compile ParseFloat_ok reg c = Err e →
     errors_Is e mdm_ErrCommand = true).
Proof.
  unfold Check_command. destruct (MValidate c) as [[]|e0]; cbn [result_bind]; [|naive_solver].
  destruct reg as [r|]; [|naive_solver]. destruct c as [cmd|]; [|naive_solver].
  set (errs := filter _ _).
  assert (errs = [] ↔ Forall (λ leaf, Forall (λ it, acceptable r (item_command leaf it)) (itemsOf leaf))
       (Leaves (cmd_Body cmd))) as He.
  { subst errs. assert (∀ l : list error, filter (λ e, e ≠ []) l = [] ↔ Forall (λ e, e = []) l) as Hf.
    { induction l as [|e l IH]; [done|]. rewrite Forall_cons, <- IH, filter_cons.
      case_decide; naive_solver. }
    rewrite Hf, Forall_concat, Forall_map. apply Forall_proper; [|done]. intros leaf.
    unfold leaf_problems. rewrite Forall_map. apply Forall_proper; [|done]. intros it.
    apply (Err_nil r (item_command leaf it)). }
  split.
  - case_bool_decide as Hb; [naive_solver|]. split; [done|]. intros [_ Hall].
    destruct Hb. by apply He, Hall.
  - intros e _. case_bool_decide; [done|]. by intros [= <-].
Qed.
End acceptable.
