(* ===== verification/CspValues.v ===== *)
(** * Ranges and ADMX payloads

    The two small grammars schema/validation recognises by hand: ranges as the
    DDF writes them, and ADMX payloads as the administrator writes them. *)
From stdpp Require Import base gmap strings list.
From Stdlib Require Import ZArith Lia Ascii.
From S2P Require Import Prelude GoStrings GoUrl SyncmlModel Response Encode Utf8 GoXml XmlLex.
From S2P Require Import SyncmlAuth MdmCommand Csp CspProofs CspRegistry CspValidation CspRules.

Local Open Scope Z_scope.

(** ** Ranges *)

(** "[lo-hi]" *)
Definition range_text (r : Z * Z) : string :=
  "[" +:+ Itoa r.1 +:+ "-" +:+ Itoa r.2 +:+ "]".

(** The printed form of an integer: a sign and digits. *)
Lemma Itoa_shape n :
  ∃ d, str_forall is_digit d = true ∧ d ≠ "" ∧ parse_nat d = Some (Z.abs n) ∧
    Itoa n = (if n <? 0 then "-" else "") +:+ d.
Proof.
  unfold Itoa. destruct (Z.eqb_spec n 0) as [->|Hn]; [by exists "0"|].
  exists (digits (Z.abs n)). split_and!.
  - by apply digits_fuel_all.
  - apply digits_nonempty. lia.
  - apply parse_nat_digits. lia.
  - destruct (Z.ltb_spec n 0); [|by rewrite Z.abs_eq by lia].
    by rewrite Z.abs_neq by lia.
Qed.

Lemma re_number_Itoa n r : digitless r → re_number (Itoa n +:+ r) = Some (Itoa n, r).
Proof.
  intros Hr. destruct (Itoa_shape n) as (d & Hd & Hne & _ & ->). unfold re_number.
  destruct d as [|c d]; [done|]. pose proof (span_digits_app _ _ Hd Hr) as Hs.
  destruct (n <? 0).
  - rewrite <- str_app_assoc. change ("-" +:+ (String c d +:+ r)) with (String "-" (String c d +:+ r)).
    cbn [Ascii.eqb Bool.eqb]. by rewrite Hs.
  - rewrite str_app_nil_l. rewrite str_app_cons in *. cbn [str_forall] in Hd.
    apply andb_true_iff in Hd as [Hc _]. destruct (Ascii.eqb_spec c "-") as [->|]; [done|].
    by rewrite Hs.
Qed.

Lemma ParseInt_digits_Itoa n : in_int64 n → ParseInt_digits (Itoa n) = n.
Proof.
  intros [Hlo Hhi]. destruct (Itoa_shape n) as (d & Hd & Hne & Hp & ->). unfold ParseInt_digits.
  destruct (Z.ltb_spec n 0).
  - rewrite str_app_cons, str_app_nil_l. cbn [Ascii.eqb Bool.eqb]. rewrite Hp. simpl.
    unfold clamp_int64. lia.
  - rewrite str_app_nil_l. destruct d as [|c d]; [done|]. cbn [str_forall] in Hd.
    apply andb_true_iff in Hd as [Hc _]. destruct (Ascii.eqb_spec c "-") as [->|]; [done|].
    rewrite Hp. simpl. unfold clamp_int64. lia.
Qed.

Lemma skip_re_space_Itoa n r : skip_re_space (Itoa n +:+ r) = Itoa n +:+ r.
Proof.
  destruct (Itoa_shape n) as (d & Hd & Hne & _ & ->). destruct (n <? 0); [done|].
  destruct d as [|c d]; [done|]. rewrite str_app_nil_l, str_app_cons. cbn [skip_re_space].
  cbn [str_forall] in Hd. apply andb_true_iff in Hd as [Hc _]. unfold is_digit in Hc. btrue.
  unfold is_re_space. repeat match goal with |- context [byte_val c =? ?n] =>
    destruct (Z.eqb_spec (byte_val c) n); [lia|] end. done.
Qed.

Lemma rangeRE_text r : rangeRE (range_text r) = Some (Itoa r.1, Itoa r.2).
Proof.
  unfold range_text. rewrite str_app_cons, str_app_nil_l. unfold rangeRE.
  cbn [Ascii.eqb Bool.eqb]. rewrite skip_re_space_Itoa, re_number_Itoa by done.
  rewrite str_app_cons, str_app_nil_l. cbn [skip_re_space]. 
  change (is_re_space "-") with false. cbv iota. cbn [Ascii.eqb Bool.eqb].
  rewrite skip_re_space_Itoa, re_number_Itoa by done. cbn. done.
Qed.

Lemma Itoa_forall (p : ascii → bool) n :
  p "-"%char = true → (∀ c, is_digit c = true → p c = true) → str_forall p (Itoa n) = true.
Proof.
  intros Hm Hp. destruct (Itoa_shape n) as (d & Hd & _ & _ & ->). rewrite str_forall_app.
  rewrite (str_forall_impl is_digit p d) by done. destruct (n <? 0); [|done]. cbn. by rewrite Hm.
Qed.

Lemma range_text_forall (p : ascii → bool) r :
  p "["%char = true → p "]"%char = true → p "-"%char = true →
  (∀ c, is_digit c = true → p c = true) → str_forall p (range_text r) = true.
Proof.
  intros H1 H2 H3 H4. unfold range_text. rewrite !str_forall_app, !(Itoa_forall p) by done.
  cbn. by rewrite H1, H2, H3.
Qed.

Lemma range_text_trim r : TrimSpace (range_text r) = range_text r.
Proof.
  apply TrimSpace_id, range_text_forall; try done. unfold is_digit, printable. intros c E. btrue.
  by rewrite !(proj2 (Z.leb_le _ _)) by lia.
Qed.

Lemma range_text_comma r : contains_byte "," (range_text r) = false.
Proof.
  unfold contains_byte, str_exists. apply negb_false_iff, range_text_forall; try done.
  intros c Hc. destruct (Ascii.eqb_spec "," c) as [<-|]; [by vm_compute in Hc|done].
Qed.

Definition range_ok (r : Z * Z) : Prop := in_int64 r.1 ∧ in_int64 r.2.

Lemma range_alternatives_iff n rs :
  Forall range_ok rs →
  range_alternatives n (map range_text rs) = true ↔ ∃ r, r ∈ rs ∧ r.1 ≤ n ≤ r.2.
Proof.
  induction 1 as [|r rs [H1 H2] _ IH]; [set_solver|]. cbn [map range_alternatives].
  rewrite range_text_trim, rangeRE_text.
  assert (nonempty (Itoa r.2) = true) as -> by (apply bool_decide_eq_true_2, Itoa_nonempty).
  rewrite !ParseInt_digits_Itoa by done. destruct (_ && _) eqn:E.
  - split; [|done]. intros _. btrue. exists r. split; [set_solver|lia].
  - rewrite IH. split; [set_solver|]. intros (r' & [->|Hin]%elem_of_cons & Hr); [|eauto].
    apply andb_false_iff in E as [E|E]; btrue; lia.
Qed.

(** A value passes a range specification, alternatives of the form [lo-hi]
    with 64-bit bounds separated by commas, exactly when it is an integer, space
    around it aside, that lies in one of them; negative bounds included. *)
Theorem check_range_iff rs v :
  rs ≠ [] → Forall range_ok rs →
  checkRange (join_byte "," (map range_text rs)) v = true ↔
  ∃ n r, Atoi (TrimSpace v) = Some n ∧ r ∈ rs ∧ r.1 ≤ n ≤ r.2.
Proof.
  intros Hne Hrs. unfold checkRange. rewrite split_join.
  - destruct (Atoi (TrimSpace v)) as [n|]; [|naive_solver].
    rewrite range_alternatives_iff by done. naive_solver.
  - by destruct rs.
  - apply Forall_fmap. eapply Forall_impl; [exact Hrs|]. intros r _. apply range_text_comma.
Qed.

Lemma check_range_iff_witness :
  join_byte "," (map range_text [(0, 5); (-20, -10)]) = "[0-5],[-20--10]" ∧
  (checkRange "[0-5],[-20--10]" " -15 " = true ↔
   ∃ n r, Atoi (TrimSpace " -15 ") = Some n ∧ r ∈ [(0, 5); (-20, -10)] ∧ r.1 ≤ n ≤ r.2).
Proof.
  split; [vm_compute; reflexivity|].
  change "[0-5],[-20--10]" with (join_byte "," (map range_text [(0, 5); (-20, -10)])).
  apply (check_range_iff [(0, 5); (-20, -10)] " -15 "); [discriminate|].
  repeat apply Forall_cons_2; try apply Forall_nil_2;
    (split; unfold in_int64, min_int64, max_int64; simpl; lia).
Defined.

(** ** ADMX payloads *)

(** <enabled/> followed by data elements. *)
Definition admx_data (d : string * string) : xnode :=
  XElem "data" [mkAttr "id" d.1; mkAttr "value" d.2] [].
Definition enabled_payload (ds : list (string * string)) : string :=
  render_all "" 1 (XEmpty "enabled" :: map admx_data ds).

Section admx.
Context `{NameTables}.

Lemma admx_loop_end n o state last :
  nonempty state = true → errors_Is last io_EOF = true →
  admx_loop 1 state [(EndElement n, o)] last = true.
Proof. intros Hs Hl. cbn [admx_loop]. by rewrite Hl, Hs. Qed.

(** The tokens of the data elements are taken one element after the other. *)
Lemma admx_loop_data ns ds ts rest last :
  Forall (λ d, d.1 ≠ "") ds → ts.*1 = concat (map (xtok ns) (map admx_data ds)) →
  admx_loop 1 "enabled" (ts ++ rest) last = admx_loop 1 "enabled" rest last.
Proof.
  intros Hds. revert ts. induction Hds as [|[id v] ds Hid _ IH]; intros ts Hts.
  { by destruct ts. }
  cbn [map admx_data xtok concat app] in Hts.
  destruct ts as [|[t1 o1] [|[t2 o2] ts]]; [done..|]. injection Hts as -> -> Hts.
  cbn [app]. unfold start_tok, end_tok. cbn [admx_loop].
  rewrite translate_Local. change (go_lower (name_Local (name_of "data"))) with "data".
  change (1 + 1 =? 1) with false. change (2 <? 1 + 1) with false. cbv iota.
  rewrite decide_False, decide_False, decide_True, bool_decide_eq_true_2 by done. cbn [negb map].
  unfold admx_attrs. cbn [foldl at_Name at_Value]. rewrite !translate_Local.
  change (go_lower (name_Local (at_Name (attr_tok (mkAttr "id" id))))) with "id".
  change (go_lower (name_Local (at_Name (attr_tok (mkAttr "value" v))))) with "value".
  rewrite decide_True, decide_False, decide_True by done.
  change (at_Value (attr_tok (mkAttr "id" id))) with id.
  unfold nonempty at 1. rewrite (bool_decide_eq_true_2 (id ≠ "")) by done. cbn [negb orb].
  change (1 + 1 - 1) with 1. by apply IH.
Qed.

Lemma admx_data_ok d :
  xml_chars d.1 = true → xml_chars d.2 = true → x_ok (admx_data d) = true.
Proof.
  intros H1 H2. unfold admx_data. cbn [x_ok forallb]. unfold attr_ok. cbn [attr_name attr_value].
  by rewrite H1, H2.
Qed.

(** The ADMX payloads an administrator is meant to write are accepted:
    <enabled/> followed by any number of data elements, their ids not empty and
    ids and values any XML text. *)
Theorem admx_enabled_accepted ds :
  Forall (λ d, d.1 ≠ "" ∧ xml_chars d.1 = true ∧ xml_chars d.2 = true) ds →
  checkADMX (enabled_payload ds) = true.
Proof.
  intros Hds. set (tree := XElem "r" [] (XEmpty "enabled" :: map admx_data ds)).
  assert (x_ok tree = true) as Hok.
  { subst tree. cbn [x_ok forallb]. apply andb_true_iff. split; [done|]. apply andb_true_iff. split; [done|].
    induction Hds as [|d ds (_ & H1 & H2) _ IH]; [done|]. cbn [map forallb].
    by rewrite admx_data_ok, IH. }
  assert (∀ label s s', no_charset label s = Ok s' → (questions s' ≤ questions s)%nat) as Hq by done.
  destruct (lexes_xtok no_charset Hq tree 0 [] ∅ Hok I 0 "") as (ts & off & Hts & El).
  unfold checkADMX, lex_value.
  assert ("<r>" +:+ enabled_payload ds +:+ "</r>" = render "" 0 tree) as ->.
  { subst tree. cbn [render]. unfold line_pad, line_end, enabled_payload, render_all.
    rewrite !decide_True by done. change (0 + 1) with 1. rewrite !str_app_nil_l, str_app_nil_r. done. }
  rewrite str_app_nil_r in El. unfold NewDecoder. rewrite El, lex_unfold by done.
  cbn [Decoder_Token d_toClose d_in raw_token d_stk]. rewrite app_nil_r.
  change (errors_Is [io_EOF] io_EOF && negb (bool_decide ([] = ([] : list frame)))) with false.
  cbn [fst snd]. subst tree. cbn [xtok map concat app] in Hts.
  destruct ts as [|[t1 o1] [|[t2 o2] [|[t3 o3] ts]]]; [done..|]. injection Hts as -> -> -> Hts.
  apply fmap_app_inv in Hts as (td & te & Hd & He & ->).
  destruct te as [|[te oe] [|]]; [done| |done]. injection He as <-.
  unfold start_tok, end_tok. cbn [admx_loop]. rewrite !translate_Local.
  change (go_lower (name_Local (name_of "enabled"))) with "enabled".
  change (0 + 1 =? 1) with true. cbv iota. change (0 + 1 + 1 =? 1) with false.
  change (2 <? 0 + 1 + 1) with false. cbv iota. rewrite decide_True by done.
  change (0 + 1 + 1 - 1) with 1. unfold nonempty at 1. rewrite bool_decide_eq_false_2 by (by intros []).
  rewrite (admx_loop_data (declare ∅ []) ds td); [|by eapply Forall_impl; [exact Hds|]; intros ? []|done].
  by apply admx_loop_end.
Qed.

(** The wrapper the payload is parsed in can be closed from inside: a
    payload that ends the wrapper, continues with arbitrary text and elements,
    and opens it again is accepted, both as an ADMX payload and as well-formed
    XML, though it is neither. *)
Theorem admx_wrapper_escapes :
  checkADMX "</r>text<payload/><r><enabled/>" = true ∧ wellFormed "</r><r>" = true.
Proof. split; vm_compute; reflexivity. Qed.
End admx.

Lemma admx_enabled_accepted_witness :
  enabled_payload [("Prompt", "a<b")] =
    "<enabled/><data id=" +:+ quote +:+ "Prompt" +:+ quote +:+ " value=" +:+ quote +:+ "a&lt;b" +:+
    quote +:+ "></data>" ∧
  @checkADMX ascii_names (enabled_payload [("Prompt", "a<b")]) = true.
Proof.
  split; [vm_compute; reflexivity|].
  apply (@admx_enabled_accepted ascii_names [("Prompt", "a<b")]).
  repeat apply Forall_cons_2; try apply Forall_nil_2.
  split; [discriminate|]. split; vm_compute; reflexivity.
Defined.
