(* ===== verification/Paging.v ===== *)
(** * Paging

    paging/paging.go and the in-memory backend's [page]
    (storage/inmem/inmem.go): the property is that following the cursors
    returns every item once, in order. *)
From stdpp Require Import base gmap strings list.
From Stdlib Require Import ZArith Lia Ascii.
From S2P Require Import Prelude GoStrings.

Local Open Scope Z_scope.
Local Open Scope go_scope.

Record Page := mkPage { Page_Cursor : string; Page_Limit : Z }.

(** [type Result[T any] struct] *)
Record PageResult (T : Type) := mkPageResult { PR_Items : list T; PR_NextCursor : string }.
Arguments mkPageResult {T} _ _.
Arguments PR_Items {T} _.
Arguments PR_NextCursor {T} _.

Definition DefaultPageSize : Z := 100.
Definition MaxPageSize : Z := 1000.

Definition Page_Size (p : Page) : Z :=
  if Page_Limit p <=? 0 then DefaultPageSize
  else if MaxPageSize <? Page_Limit p then MaxPageSize
  else Page_Limit p.

(** [all[lo:hi]] for [0 <= lo <= hi <= len(all)]. *)
Definition slice {T} (all : list T) (lo hi : Z) : list T :=
  take (Z.to_nat hi - Z.to_nat lo) (drop (Z.to_nat lo) all).

Definition zlength {T} (l : list T) : Z := Z.of_nat (length l).

(** The offset a cursor stands for. *)
Definition cursor_offset (cursor : string) : result Z :=
  if decide (cursor = "") then Ok 0
  else match Atoi cursor with
  | Some n => if n <? 0 then Err [storage_ErrInvalid] else Ok n
  | None => Err [storage_ErrInvalid]
  end.

Definition page {T} (all : list T) (p : Page) : result (PageResult T) :=
  let? offset := cursor_offset (Page_Cursor p) in
  let size := Page_Size p in
  let offset := if zlength all <? offset then zlength all else offset in
  let e := offset + size in
  let e := if zlength all <? e then zlength all else e in
  Ok (mkPageResult (slice all offset e) (if e <? zlength all then Itoa e else "")).

(** A caller that follows NextCursor until it is empty. *)
Fixpoint page_all {T} (fuel : nat) (all : list T) (cursor : string) (limit : Z)
    : result (list (list T)) :=
  match fuel with
  | O => Err []
  | S fuel =>
      let? r := page all (mkPage cursor limit) in
      if decide (PR_NextCursor r = "") then Ok [PR_Items r]
      else let? rest := page_all fuel all (PR_NextCursor r) limit in Ok (PR_Items r :: rest)
  end.

(** ** Lemmas *)

Lemma Page_Size_range p : 1 ≤ Page_Size p ≤ MaxPageSize.
Proof.
  unfold Page_Size, MaxPageSize, DefaultPageSize.
  destruct (Z.leb_spec (Page_Limit p) 0); [lia|]. destruct (Z.ltb_spec 1000 (Page_Limit p)); lia.
Qed.

Lemma page_at {T} (all : list T) cursor limit off :
  cursor_offset cursor = Ok off → 0 ≤ off ≤ zlength all →
  let e := Z.min (zlength all) (off + Page_Size (mkPage cursor limit)) in
  page all (mkPage cursor limit) =
  Ok (mkPageResult (slice all off e) (if e <? zlength all then Itoa e else "")).
Proof.
  intros Hc Ho. unfold page; simpl. rewrite Hc. simpl.
  destruct (Z.ltb_spec (zlength all) off); [lia|].
  match goal with |- context [?a <? ?b] => destruct (Z.ltb_spec a b) end.
  - by rewrite Z.min_l by lia.
  - by rewrite Z.min_r by lia.
Qed.

Lemma slice_length {T} (all : list T) lo hi :
  0 ≤ lo ≤ hi → hi ≤ zlength all → zlength (slice all lo hi) = hi - lo.
Proof. unfold zlength, slice. intros. rewrite length_take, length_drop. lia. Qed.

Lemma slice_drop {T} (all : list T) lo hi :
  0 ≤ lo ≤ hi → slice all lo hi ++ drop (Z.to_nat hi) all = drop (Z.to_nat lo) all.
Proof.
  intros. unfold slice.
  replace (Z.to_nat hi) with (Z.to_nat lo + (Z.to_nat hi - Z.to_nat lo))%nat at 2 by lia.
  rewrite <- drop_drop. apply take_drop.
Qed.

Lemma cursor_offset_Itoa n : 0 ≤ n ≤ max_int64 → cursor_offset (Itoa n) = Ok n.
Proof.
  intros Hn. unfold cursor_offset. rewrite decide_False by apply Itoa_nonempty.
  rewrite Atoi_Itoa by (unfold in_int64, min_int64, max_int64 in *; lia).
  destruct (Z.ltb_spec n 0); [lia|done].
Qed.

Lemma page_all_from {T} fuel (all : list T) cursor limit off :
  zlength all ≤ max_int64 → cursor_offset cursor = Ok off → 0 ≤ off ≤ zlength all →
  zlength all - off < Z.of_nat fuel →
  ∃ pages, page_all fuel all cursor limit = Ok pages ∧
    concat pages = drop (Z.to_nat off) all ∧ Forall (λ pg, zlength pg ≤ MaxPageSize) pages.
Proof.
  intros Hmax. revert cursor off. induction fuel as [|fuel IH]; intros cursor off Hc Ho Hf; [lia|].
  cbn [page_all]. rewrite (page_at _ _ _ off) by done. simpl.
  pose proof (Page_Size_range (mkPage cursor limit)) as Hs.
  set (e := Z.min _ _). set (sz := Page_Size (mkPage cursor limit)) in *.
  assert (off ≤ e ≤ zlength all) as He by lia.
  assert (zlength (slice all off e) ≤ MaxPageSize) as Hlen by (rewrite slice_length by lia; lia).
  destruct (Z.ltb_spec e (zlength all)).
  - rewrite decide_False by apply Itoa_nonempty.
    destruct (IH (Itoa e) e) as (pages & -> & Hcat & Hall); [apply cursor_offset_Itoa; lia|lia..|].
    exists (slice all off e :: pages). split_and!; [done| |by constructor].
    simpl. rewrite Hcat. apply slice_drop. lia.
  - rewrite decide_True by done. exists [slice all off e]. split_and!; [done| |by constructor].
    simpl. rewrite app_nil_r, <- (slice_drop all off e) by lia.
    rewrite (drop_ge all (Z.to_nat e)) by (unfold zlength in *; lia). by rewrite app_nil_r.
Qed.

(** ** Properties *)

(** Following the cursors of [page] from the start ends, within one
    request more than there are items, and returns every item exactly once and
    in order, in pages of at most MaxPageSize items, whatever limit is asked
    for. *)
Theorem paging_complete {T} (all : list T) limit :
  zlength all ≤ max_int64 →
  ∃ pages, page_all (S (length all)) all "" limit = Ok pages ∧ concat pages = all ∧
    Forall (λ pg, zlength pg ≤ MaxPageSize) pages.
Proof.
  intros Hmax. apply (page_all_from _ all "" limit 0); [done|done|..]; unfold zlength; lia.
Qed.

Lemma paging_complete_witness :
  ∃ pages, page_all 4 [1; 2; 3] "" 2 = Ok pages ∧ concat pages = [1; 2; 3] ∧
    Forall (λ pg, zlength pg ≤ MaxPageSize) pages.
Proof. apply (paging_complete [1; 2; 3] 2). vm_compute. discriminate. Defined.
