(* ===== verification/StateStore.v ===== *)
(** * The shared state store

    state/state.go: Memory, the transactional key-value store that holds
    nonces and rate-limit cells.  [ctx] is the error of a cancelled context,
    [None] while it is live.  Methods run under the mutex and are atomic. *)
From stdpp Require Import base gmap strings list sorting.
From Stdlib Require Import ZArith Lia Ascii Sorted.
From S2P Require Import Prelude GoStrings.

Local Open Scope Z_scope.
Local Open Scope go_scope.

Record StateRecord := mkStateRecord { Rec_Key : string; Rec_Value : string; Rec_ExpiresAt : Time }.

Definition ValidKey (k : string) : bool :=
  if (len k =? 0) || (255 <? len k) then false
  else str_forall (λ c, negb ((byte_val c <? 33) || (126 <? byte_val c))) k.

(** [type Memory struct]: the records; [now] is passed in. *)
Record Memory := mkMemory { mem_records : gmap string StateRecord }.
Definition NewMemory : Memory := mkMemory ∅.

(** [type memoryTx struct]; a nil pointer in [writes] is a deletion. *)
Record memoryTx := mkTx {
  tx_records : gmap string StateRecord;
  tx_writes : gmap string (option StateRecord);
  tx_now : Time }.

Definition ctx_check (ctx : option error) : result unit :=
  match ctx with Some e => Err e | None => Ok tt end.

Definition memoryTx_Get (ctx : option error) (k : string) (t : memoryTx) : result StateRecord :=
  let? _ := ctx_check ctx in
  if negb (ValidKey k) then Err [state_ErrInvalid]
  else match tx_writes t !! k with
  | Some None => Err [state_ErrNotFound]
  | Some (Some r) => Ok r
  | None =>
      match tx_records t !! k with
      | None => Err [state_ErrNotFound]
      | Some r => Ok r
      end
  end.

Definition memoryTx_Put (ctx : option error) (r : StateRecord) : M memoryTx unit := λ t,
  match ctx_check ctx with
  | Err e => (t, Err e)
  | Ok _ =>
      if negb (ValidKey (Rec_Key r)) then (t, Err [state_ErrInvalid])
      else (mkTx (tx_records t) (<[Rec_Key r := Some r]> (tx_writes t)) (tx_now t), Ok tt)
  end.

Definition memoryTx_Delete (ctx : option error) (k : string) : M memoryTx unit := λ t,
  match ctx_check ctx with
  | Err e => (t, Err e)
  | Ok _ =>
      if negb (ValidKey k) then (t, Err [state_ErrInvalid])
      else (mkTx (tx_records t) (<[k := None]> (tx_writes t)) (tx_now t), Ok tt)
  end.

(** Go's order on strings: bytewise. *)
Fixpoint str_leb (a b : string) : bool :=
  match a, b with
  | EmptyString, _ => true
  | String _ _, EmptyString => false
  | String c a, String d b =>
      if byte_val c <? byte_val d then true
      else if byte_val d <? byte_val c then false
      else str_leb a b
  end.
Definition str_le (a b : string) : Prop := str_leb a b = true.
#[global] Instance str_le_dec a b : Decision (str_le a b).
Proof. unfold str_le. apply _. Defined.

(** The map a transaction sees: the records overlaid with its writes. *)
Definition overlay (records : gmap string StateRecord)
    (writes : gmap string (option StateRecord)) : gmap string StateRecord :=
  merge (λ r w, match w with Some w => w | None => r end) records writes.

(** The loop over the sorted keys calls Get on each. *)
Fixpoint get_all (ctx : option error) (t : memoryTx) (ks : list string)
    : result (list StateRecord) :=
  match ks with
  | [] => Ok []
  | k :: ks => let? r := memoryTx_Get ctx k t in
               let? rs := get_all ctx t ks in Ok (r :: rs)
  end.

(** [keys[k]] is true for the records and for the writes that are not
    deletions. *)
Definition live_keys (t : memoryTx) : list string :=
  let keys := map_fold (λ k w ks, <[k := bool_decide (w ≠ None)]> ks)
    ((λ _, true) <$> tx_records t) (tx_writes t) in
  (map_to_list (filter (λ kv, kv.2 = true) keys)).*1.

Definition memoryTx_List (ctx : option error) (prefix after : string) (limit : Z)
    (t : memoryTx) : result (list StateRecord) :=
  let? _ := ctx_check ctx in
  if (limit <=? 0) || (10000 <? limit) then Err [state_ErrInvalid]
  else
    let sorted := merge_sort str_le
      (List.filter (λ k, HasPrefix k prefix && negb (str_leb k after)) (live_keys t)) in
    get_all ctx t (take (Z.to_nat limit) sorted).

Definition Memory_Get (ctx : option error) (key : string) (m : Memory) : result StateRecord :=
  memoryTx_Get ctx key (mkTx (mem_records m) ∅ 0).

Definition Memory_List (ctx : option error) (prefix after : string) (limit : Z) (m : Memory)
    : result (list StateRecord) :=
  memoryTx_List ctx prefix after limit (mkTx (mem_records m) ∅ 0).

(** [Update]: [ctx_after] is the context once the callback has returned.  The
    final loop ranges over a map of distinct keys, so its order is
    immaterial: it is the overlay of the writes. *)
Definition Memory_Update (ctx ctx_after : option error) (now : Time) (keys : list string)
    (fn : option (M memoryTx unit)) (m : Memory) : Memory * result unit :=
  match fn with
  | None => (m, Err [state_ErrInvalid])
  | Some fn =>
      if decide (keys = []) then (m, Err [state_ErrInvalid])
      else if existsb (λ k, negb (ValidKey k)) keys then (m, Err [state_ErrInvalid])
      else match ctx_check ctx with
      | Err e => (m, Err e)
      | Ok _ =>
          match fn (mkTx (mem_records m) ∅ (time_UTC now)) with
          | (_, Err e) => (m, Err e)
          | (t, Ok _) =>
              match ctx_check ctx_after with
              | Err e => (m, Err e)
              | Ok _ =>
                  (mkMemory (map_fold (λ k r recs, match r with
                                                   | None => delete k recs
                                                   | Some r => <[k := r]> recs
                                                   end) (mem_records m) (tx_writes t)), Ok tt)
              end
          end
      end
  end.

Definition expired (now : Time) (r : StateRecord) : bool :=
  negb (time_IsZero (Rec_ExpiresAt r)) && negb (time_Before now (Rec_ExpiresAt r)).

(** Prune ranges over the map, in the order [order]. *)
Fixpoint prune_records (now : Time) (limit n : Z) (order : list string)
    (recs : gmap string StateRecord) : gmap string StateRecord * Z :=
  match order with
  | [] => (recs, n)
  | k :: order =>
      match recs !! k with
      | Some r =>
          if expired now r then
            let recs := delete k recs in
            let n := n + 1 in
            if n =? limit then (recs, n) else prune_records now limit n order recs
          else prune_records now limit n order recs
      | None => prune_records now limit n order recs
      end
  end.

Definition Memory_Prune (ctx : option error) (now : Time) (order : list string) (limit : Z)
    (m : Memory) : Memory * result Z :=
  if (limit <=? 0) || (10000 <? limit) then (m, Err [state_ErrInvalid])
  else match ctx_check ctx with
  | Err e => (m, Err e)
  | Ok _ => let '(recs, n) := prune_records now limit 0 order (mem_records m) in
            (mkMemory recs, Ok n)
  end.

(** ** Lemmas *)

Lemma lookup_overlay records writes k :
  overlay records writes !! k =
  match writes !! k with Some w => w | None => records !! k end.
Proof.
  unfold overlay. rewrite lookup_merge.
  by destruct (records !! k), (writes !! k) as [[]|].
Qed.

Lemma commit_overlay records writes :
  map_fold (λ k r recs, match r with
                        | None => delete k recs
                        | Some r => <[k := r]> recs
                        end) records writes = overlay records writes.
Proof.
  apply (map_fold_weak_ind (λ m w, m = overlay records w)); clear writes.
  - apply map_eq. intros k. by rewrite lookup_overlay, lookup_empty.
  - intros k r writes recs Hk ->. apply map_eq. intros j. rewrite lookup_overlay.
    destruct (decide (j = k)) as [->|Hne].
    + rewrite lookup_insert_eq. destruct r; [by rewrite lookup_insert_eq|].
      by rewrite lookup_delete_eq.
    + rewrite (lookup_insert_ne writes) by done. rewrite <- lookup_overlay.
      destruct r; [by rewrite lookup_insert_ne|by rewrite lookup_delete_ne].
Qed.

(** What a transaction sees. *)
Definition view (t : memoryTx) : gmap string StateRecord := overlay (tx_records t) (tx_writes t).

Lemma memoryTx_Get_view k t :
  memoryTx_Get None k t =
  if ValidKey k then match view t !! k with Some r => Ok r | None => Err [state_ErrNotFound] end
  else Err [state_ErrInvalid].
Proof.
  unfold memoryTx_Get, view. simpl. destruct (ValidKey k); [|done]. simpl.
  rewrite lookup_overlay. by destruct (tx_writes t !! k) as [[]|].
Qed.

Lemma view_empty recs now : view (mkTx recs ∅ now) = recs.
Proof. apply map_eq. intros k. unfold view. rewrite lookup_overlay. simpl. by rewrite lookup_empty. Qed.

Lemma Memory_Get_spec k m :
  Memory_Get None k m =
  if ValidKey k then match mem_records m !! k with Some r => Ok r | None => Err [state_ErrNotFound] end
  else Err [state_ErrInvalid].
Proof. unfold Memory_Get. by rewrite memoryTx_Get_view, view_empty. Qed.

Lemma Memory_Update_cases ctx ctx' now keys fn m :
  (∃ e, Memory_Update ctx ctx' now keys fn m = (m, Err e)) ∨
  (∃ f t, fn = Some f ∧ f (mkTx (mem_records m) ∅ now) = (t, Ok tt) ∧
    keys ≠ [] ∧ Forall (λ k, ValidKey k = true) keys ∧
    Memory_Update ctx ctx' now keys fn m =
      (mkMemory (overlay (mem_records m) (tx_writes t)), Ok tt)).
Proof.
  unfold Memory_Update. destruct fn as [f|]; [|eauto]. case_decide; [eauto|].
  destruct (existsb _ _) eqn:Ek; [eauto|].
  destruct (ctx_check ctx) as [[]|]; [|eauto]. unfold time_UTC.
  destruct (f _) as [t [[]|e]] eqn:Ef; [|eauto].
  destruct (ctx_check ctx') as [[]|]; [|eauto].
  right. exists f, t. rewrite commit_overlay. split_and!; try done.
  apply Forall_forall. intros k Hk. destruct (ValidKey k) eqn:Ev; [done|].
  assert (existsb (λ k, negb (ValidKey k)) keys = true); [|congruence].
  apply existsb_exists. exists k. rewrite <- list_elem_of_In. by rewrite Ev.
Qed.

Lemma str_leb_refl a : str_leb a a = true.
Proof. induction a as [|c a IH]; [done|]. simpl. by rewrite Z.ltb_irrefl. Qed.

Lemma str_leb_total a b : str_leb a b = true ∨ str_leb b a = true.
Proof.
  revert b. induction a as [|c a IH]; intros [|d b]; simpl; auto.
  destruct (Z.ltb_spec (byte_val c) (byte_val d)); [auto|].
  destruct (Z.ltb_spec (byte_val d) (byte_val c)); [auto|]. apply IH.
Qed.

Lemma str_leb_trans a b c : str_leb a b = true → str_leb b c = true → str_leb a c = true.
Proof.
  revert b c. induction a as [|x a IH]; intros [|y b] [|z c]; simpl; try done.
  destruct (Z.ltb_spec (byte_val x) (byte_val y)), (Z.ltb_spec (byte_val y) (byte_val z)),
    (Z.ltb_spec (byte_val y) (byte_val x)), (Z.ltb_spec (byte_val z) (byte_val y)); try lia;
    destruct (Z.ltb_spec (byte_val x) (byte_val z)), (Z.ltb_spec (byte_val z) (byte_val x));
    try lia; try done. apply IH.
Qed.

Lemma str_leb_antisym a b : str_leb a b = true → str_leb b a = true → a = b.
Proof.
  revert b. induction a as [|x a IH]; intros [|y b]; simpl; try done.
  destruct (Z.ltb_spec (byte_val x) (byte_val y)), (Z.ltb_spec (byte_val y) (byte_val x));
    try lia; try done. intros. f_equal; [apply byte_val_inj; lia|by apply IH].
Qed.

#[global] Instance str_le_total : Total str_le.
Proof. intros a b. apply str_leb_total. Qed.
#[global] Instance str_le_trans : Transitive str_le.
Proof. intros a b c. apply str_leb_trans. Qed.

(** The keys of a List are those of the view. *)
Lemma elem_of_live_keys t k : k ∈ live_keys t ↔ is_Some (view t !! k).
Proof.
  unfold live_keys. rewrite list_elem_of_fmap.
  assert (∀ k, map_fold (λ k w ks, <[k := bool_decide (w ≠ None)]> ks)
    ((λ _, true) <$> tx_records t) (tx_writes t) !! k =
    match tx_writes t !! k with
    | Some w => Some (bool_decide (w ≠ None))
    | None => (λ _, true) <$> (tx_records t !! k)
    end) as Hk.
  { clear k. apply (map_fold_weak_ind (λ m w, ∀ k, m !! k =
      match w !! k with
      | Some w => Some (bool_decide (w ≠ None))
      | None => (λ _, true) <$> (tx_records t !! k)
      end)).
    - intros k. by rewrite lookup_empty, lookup_fmap.
    - intros j w m ks _ IH k. destruct (decide (k = j)) as [->|];
        [by rewrite !lookup_insert_eq|by rewrite !lookup_insert_ne]. }
  unfold view. rewrite lookup_overlay. split.
  - intros ([k' b] & -> & Hin). apply elem_of_map_to_list in Hin. simpl.
    apply map_lookup_filter_Some in Hin as [Hin Hb]. simpl in Hb. subst b.
    rewrite Hk in Hin. destruct (tx_writes t !! k') as [w|].
    + injection Hin as Hin. btrue. destruct w; [done|by destruct Hin].
    + by destruct (tx_records t !! k').
  - intros Hs. exists (k, true). split; [done|]. apply elem_of_map_to_list.
    apply map_lookup_filter_Some. split; [|done]. rewrite Hk.
    destruct (tx_writes t !! k) as [[w|]|]; [done|by destruct Hs|].
    by destruct (tx_records t !! k); [|destruct Hs].
Qed.

Lemma NoDup_live_keys t : NoDup (live_keys t).
Proof. apply NoDup_fst_map_to_list. Qed.

(** Every record is stored under its own, valid key. *)
Definition recs_ok (recs : gmap string StateRecord) : Prop :=
  ∀ k r, recs !! k = Some r → ValidKey k = true ∧ Rec_Key r = k.

Lemma get_all_view t ks :
  recs_ok (view t) → Forall (λ k, is_Some (view t !! k)) ks →
  ∃ rs, get_all None t ks = Ok rs ∧ map Rec_Key rs = ks ∧
    Forall (λ r, view t !! Rec_Key r = Some r) rs.
Proof.
  intros Hok. induction 1 as [|k ks [r Hr] _ (rs & Hg & Hks & Hrs)]; [by exists []|].
  destruct (Hok _ _ Hr) as [Hv Hk]. exists (r :: rs). cbn [get_all].
  rewrite memoryTx_Get_view, Hv, Hr, Hg. simpl. rewrite Hks, Hk. split_and!; [done..|].
  constructor; [by rewrite Hk|done].
Qed.

Lemma prune_records_spec now limit n order recs recs' n' :
  NoDup order → n < limit →
  prune_records now limit n order recs = (recs', n') →
  recs' ⊆ recs ∧ n ≤ n' ≤ limit ∧
  n' - n = Z.of_nat (size recs) - Z.of_nat (size recs') ∧
  (∀ k r, recs !! k = Some r → recs' !! k = None → expired now r = true) ∧
  (n' < limit → ∀ k r, k ∈ order → recs' !! k = Some r → expired now r = false).
Proof.
  revert n recs. induction order as [|k order IH]; intros n recs Hnd Hn; simpl.
  - intros [= <- <-]. split; [done|]. split; [lia|]. split; [lia|]. split.
    + intros k r Hr. by rewrite Hr.
    + intros _ k r Hin. by apply not_elem_of_nil in Hin.
  - apply NoDup_cons in Hnd as [Hnot Hnd].
    destruct (recs !! k) as [r|] eqn:Er; [destruct (expired now r) eqn:Ex|].
    + assert (Z.of_nat (size (delete k recs)) = Z.of_nat (size recs) - 1) as Hsz.
      { rewrite map_size_delete_Some by eauto.
        assert (size recs ≠ 0%nat); [|lia]. intros H0. apply map_size_empty_inv in H0.
        by rewrite H0, lookup_empty in Er. }
      assert (∀ j s, recs !! j = Some s → delete k recs !! j = None → expired now s = true)
        as Hone.
      { intros j s Hj Hd. destruct (decide (j = k)) as [->|]; [congruence|].
        rewrite lookup_delete_ne in Hd by done. congruence. }
      destruct (Z.eqb_spec (n + 1) limit) as [Heq|Hne].
      * intros [= <- <-]. split; [apply delete_subseteq|]. split; [lia|]. split; [lia|].
        split; [done|lia].
      * intros E. apply IH in E as (Hsub & Hr & Hs & Hd & Hall); [|done|lia].
        split; [by etrans; [|apply delete_subseteq]|]. split; [lia|]. split; [lia|]. split.
        -- intros j s Hj Hd'. destruct (delete k recs !! j) as [s'|] eqn:Ej; [|by eapply Hone].
           apply (Hd j); [|done]. rewrite Ej. apply lookup_delete_Some in Ej as [_ Ej]. congruence.
        -- intros Hlt j s [->|Hin]%elem_of_cons Hj; [|by eapply Hall].
           eapply lookup_weaken in Hj; [|done]. by rewrite lookup_delete_eq in Hj.
    + intros E. apply IH in E as (Hsub & Hr & Hs & Hd & Hall); [|done..].
      split_and!; try done; try lia.
      intros Hlt j s [->|Hin]%elem_of_cons Hj; [|by eapply Hall].
      eapply lookup_weaken in Hj; [|done]. congruence.
    + intros E. apply IH in E as (Hsub & Hr & Hs & Hd & Hall); [|done..].
      split_and!; try done; try lia.
      intros Hlt j s [->|Hin]%elem_of_cons Hj; [|by eapply Hall].
      eapply lookup_weaken in Hj; [|done]. congruence.
Qed.

Lemma Put_view ctx r t t' :
  memoryTx_Put ctx r t = (t', Ok tt) →
  ValidKey (Rec_Key r) = true ∧ view t' = <[Rec_Key r := r]> (view t).
Proof.
  unfold memoryTx_Put. destruct (ctx_check ctx); [|done].
  destruct (ValidKey (Rec_Key r)); [|done]. intros [= <-]. split; [done|].
  apply map_eq. intros k. unfold view. simpl.
  destruct (decide (k = Rec_Key r)) as [->|Hne].
  - by rewrite lookup_overlay, !lookup_insert_eq.
  - rewrite lookup_overlay, !lookup_insert_ne by done. by rewrite lookup_overlay.
Qed.

Lemma sorted_strict l :
  NoDup l → StronglySorted str_le l → StronglySorted (λ a b, str_leb b a = false) l.
Proof.
  intros Hnd Hs. induction Hs as [|a l Hs IH Hall]; constructor; apply NoDup_cons in Hnd as [Hn Hnd].
  - by apply IH.
  - rewrite Forall_forall in Hall |- *. intros b Hb. apply not_true_is_false. intros Hba.
    apply Hn. by rewrite (str_leb_antisym a b (Hall b Hb) Hba).
Qed.

Lemma StronglySorted_take {A} (R : relation A) l n : StronglySorted R l → StronglySorted R (take n l).
Proof.
  revert n. induction l as [|a l IH]; intros [|n] Hs; simpl; try constructor.
  - apply IH. by apply StronglySorted_inv in Hs as [? _].
  - apply StronglySorted_inv in Hs as [_ Hall]. rewrite Forall_forall in Hall |- *.
    intros b Hb. apply Hall. eapply subseteq_take; eauto.
Qed.

(** ** Properties *)

(** Update is all or nothing: when it returns an error the store is as it
    was, and when it succeeds the callback succeeded and the store then holds
    exactly what the transaction saw at its end: every key reads as it did
    inside the transaction. *)
Theorem update_atomic ctx ctx_after now keys fn m :
  let '(m', r) := Memory_Update ctx ctx_after now keys fn m in
  match r with
  | Err _ => m' = m
  | Ok _ => ∃ f t, fn = Some f ∧ f (mkTx (mem_records m) ∅ now) = (t, Ok tt) ∧
      mem_records m' = overlay (mem_records m) (tx_writes t) ∧
      (tx_records t = mem_records m → ∀ k, Memory_Get None k m' = memoryTx_Get None k t)
  end.
Proof.
  destruct (Memory_Update_cases ctx ctx_after now keys fn m)
    as [(e & ->)|(f & t & -> & Hf & _ & _ & ->)]; [done|].
  exists f, t. split_and!; try done. intros Ht k.
  rewrite Memory_Get_spec, memoryTx_Get_view. unfold view. simpl. by rewrite Ht.
Qed.

(** Inside a transaction a Put is read back at once, hides what was stored
    under the key, and leaves every other key as it was; a Delete makes the
    key not found. *)
Theorem tx_read_your_writes r t t' k :
  memoryTx_Put None r t = (t', Ok tt) →
  memoryTx_Get None (Rec_Key r) t' = Ok r ∧
  (k ≠ Rec_Key r → memoryTx_Get None k t' = memoryTx_Get None k t) ∧
  memoryTx_Get None (Rec_Key r) (memoryTx_Delete None (Rec_Key r) t').1 =
    Err [state_ErrNotFound].
Proof.
  intros E. destruct (Put_view _ _ _ _ E) as [Hv Hw].
  rewrite !memoryTx_Get_view, Hw, Hv, lookup_insert_eq. split_and!; [done| |].
  - intros Hne. by rewrite lookup_insert_ne.
  - unfold memoryTx_Delete, view. simpl. rewrite Hv. simpl.
    by rewrite lookup_overlay, lookup_insert_eq.
Qed.

Lemma tx_read_your_writes_witness :
  memoryTx_Get None "k" (memoryTx_Put None (mkStateRecord "k" "v" 0) (mkTx ∅ ∅ 5)).1 =
  Ok (mkStateRecord "k" "v" 0).
Proof.
  apply (tx_read_your_writes (mkStateRecord "k" "v" 0) (mkTx ∅ ∅ 5) _ "k"). reflexivity.
Defined.

(** List returns, in strictly increasing key order, live records under the
    prefix and after the cursor, at most [limit] of them, and leaves a
    matching record out only when the page is full and the record's key comes
    after every key on it; so resuming from the last key loses nothing. *)
Theorem list_correct prefix after limit t :
  recs_ok (view t) → 0 < limit ≤ 10000 →
  ∃ rs, memoryTx_List None prefix after limit t = Ok rs ∧
    StronglySorted (λ a b, str_leb b a = false) (map Rec_Key rs) ∧
    Z.of_nat (length rs) ≤ limit ∧
    Forall (λ r, view t !! Rec_Key r = Some r ∧ HasPrefix (Rec_Key r) prefix = true ∧
                 str_leb (Rec_Key r) after = false) rs ∧
    ∀ k r, view t !! k = Some r → HasPrefix k prefix = true → str_leb k after = false →
      r ∈ rs ∨ (Z.of_nat (length rs) = limit ∧ Forall (λ r', str_leb (Rec_Key r') k = true) rs).
Proof.
  intros Hok Hl. unfold memoryTx_List. simpl.
  destruct (Z.leb_spec limit 0); [lia|]. destruct (Z.ltb_spec 10000 limit); [lia|]. simpl.
  set (sel := List.filter _ (live_keys t)).
  assert (∀ k, k ∈ sel ↔ is_Some (view t !! k) ∧ HasPrefix k prefix = true ∧
    str_leb k after = false) as Hsel.
  { intros k. subst sel. rewrite list_elem_of_In, filter_In, <- list_elem_of_In, elem_of_live_keys,
      andb_true_iff, negb_true_iff. done. }
  assert (NoDup sel) as Hnd by (apply NoDup_ListNoDup, List.NoDup_filter, NoDup_ListNoDup,
    NoDup_live_keys).
  set (ks := merge_sort str_le sel).
  assert (ks ≡ₚ sel) as Hp by apply merge_sort_Permutation.
  assert (StronglySorted (λ a b, str_leb b a = false) ks) as Hss.
  { apply sorted_strict; [by rewrite Hp|]. apply StronglySorted_merge_sort; apply _. }
  set (pg := take (Z.to_nat limit) ks).
  assert (Forall (λ k, k ∈ sel) pg) as Hpg.
  { apply Forall_forall. intros k Hk. rewrite <- Hp. eapply subseteq_take; eauto. }
  destruct (get_all_view t pg Hok) as (rs & Hg & Hks & Hrs).
  { eapply Forall_impl; [exact Hpg|]. intros k Hk. by apply Hsel in Hk as [? _]. }
  assert (length rs = length pg) as Hlen by by rewrite <- Hks, length_map.
  exists rs. split_and!; [done| | | |].
  - rewrite Hks. by apply StronglySorted_take.
  - rewrite Hlen. subst pg. rewrite length_take. lia.
  - apply Forall_forall. intros r Hr. rewrite Forall_forall in Hrs. rewrite Forall_forall in Hpg.
    assert (Rec_Key r ∈ pg) as Hin by (rewrite <- Hks; by apply list_elem_of_fmap_2).
    apply Hpg, Hsel in Hin as (_ & ? & ?). auto.
  - intros k r Hv Hpre Haf.
    assert (k ∈ ks) as Hin by (rewrite Hp; apply Hsel; eauto).
    rewrite <- (take_drop (Z.to_nat limit) ks) in Hin. apply elem_of_app in Hin as [Hin|Hin].
    + left. change (k ∈ pg) in Hin. rewrite <- Hks in Hin.
      apply list_elem_of_fmap in Hin as (r' & -> & Hr').
      rewrite Forall_forall in Hrs. specialize (Hrs _ Hr'). congruence.
    + right. split.
      * rewrite Hlen. subst pg. rewrite length_take.
        assert (length (drop (Z.to_nat limit) ks) ≠ 0%nat) as Hd
          by (intros Hz%nil_length_inv; rewrite Hz in Hin; by apply not_elem_of_nil in Hin).
        rewrite length_drop in Hd. lia.
      * apply Forall_forall. intros r' Hr'.
        assert (Rec_Key r' ∈ pg) as Hin' by (rewrite <- Hks; by apply list_elem_of_fmap_2).
        rewrite <- (take_drop (Z.to_nat limit) ks) in Hss.
        pose proof (StronglySorted_app_1_elem_of _ _ _ _ _ Hss Hin' Hin) as Hlt. simpl in Hlt.
        destruct (str_leb_total (Rec_Key r') k); congruence.
Qed.

Lemma list_correct_witness :
  ∃ rs, memoryTx_List None "n/" "" 10 (mkTx {["n/a" := mkStateRecord "n/a" "x" 0]} ∅ 7) = Ok rs ∧
    StronglySorted (λ a b, str_leb b a = false) (map Rec_Key rs).
Proof.
  destruct (list_correct "n/" "" 10 (mkTx {["n/a" := mkStateRecord "n/a" "x" 0]} ∅ 7))
    as (rs & H & H' & _).
  - intros k r Hk. rewrite view_empty in Hk. apply lookup_singleton_Some in Hk as [<- <-].
    split; reflexivity.
  - lia.
  - exists rs. split; assumption.
Defined.

(** Prune, whatever order Go visits the records in, deletes only expired
    records, reports how many, deletes at most [limit], and when it stopped
    below the limit no expired record is left. *)
Theorem state_prune_correct now order limit m m' n :
  order ≡ₚ (map_to_list (mem_records m)).*1 →
  Memory_Prune None now order limit m = (m', Ok n) →
  mem_records m' ⊆ mem_records m ∧ 0 ≤ n ≤ limit ∧
  n = Z.of_nat (size (mem_records m)) - Z.of_nat (size (mem_records m')) ∧
  (∀ k r, mem_records m !! k = Some r → mem_records m' !! k = None → expired now r = true) ∧
  (n < limit → ∀ k r, mem_records m' !! k = Some r → expired now r = false).
Proof.
  intros Hp. unfold Memory_Prune.
  destruct (Z.leb_spec limit 0); [done|]. destruct (10000 <? limit); [done|]. simpl.
  destruct (prune_records _ _ _ _ _) as [recs n'] eqn:E. intros [= <- <-]. simpl.
  assert (NoDup order) as Hnd by (rewrite Hp; apply NoDup_fst_map_to_list).
  destruct (prune_records_spec _ _ _ _ _ _ _ Hnd H E) as (Hsub & Hr & Hs & Hd & Hall).
  split_and!; try done; try lia.
  intros Hlt k r Hk. apply (Hall Hlt k r); [|done]. rewrite Hp.
  apply list_elem_of_fmap. exists (k, r). split; [done|]. apply elem_of_map_to_list.
  by eapply lookup_weaken.
Qed.

Lemma state_prune_correct_witness :
  let m := mkMemory {["a" := mkStateRecord "a" "" 5]} in
  mem_records (Memory_Prune None 9 ["a"] 3 m).1 ⊆ mem_records m.
Proof.
  apply (state_prune_correct 9 ["a"] 3 (mkMemory {["a" := mkStateRecord "a" "" 5]}) _ 1).
  - vm_compute. reflexivity.
  - vm_compute. reflexivity.
Defined.
