(* ===== verification/RateLimit.v ===== *)
(** * Rate limiting

    ratelimit/ratelimit.go: the generic cell rate algorithm over the shared
    state store.  A bucket's cell is the theoretical arrival time (TAT) of its
    next request, kept in microseconds; a request is admitted when every one
    of its buckets is at most its burst behind. *)
From stdpp Require Import base gmap strings list.
From Stdlib Require Import ZArith Lia Ascii Sorted.
From S2P Require Import Prelude GoStrings SyncmlAuth GoCrypto StateStore.

Local Open Scope Z_scope.
Local Open Scope go_scope.

(** ** Package time and encoding/binary *)

(** The Unix epoch, counted from Go's zero time. *)
Definition unix_epoch : Time := 62135596800 * Second.

Definition time_Truncate (t : Time) (d : Duration) : Time :=
  if d <=? 0 then t else t - t mod d.
Definition time_UnixMicro (t : Time) : Z := wrap64 ((t - unix_epoch) / Microsecond).
Definition UnixMicro (us : Z) : Time := unix_epoch + us * Microsecond.

(** [binary.BigEndian.PutUint64] of an int64, and back. *)
Definition put_int64 (v : Z) : string := bytes_string (be_bytes 8 (v mod 2 ^ 64)).
Definition get_int64 (s : string) : Z :=
  wrap64 (foldl (λ acc b, acc * 256 + b) 0 (string_bytes s)).

(** ** ratelimit.go *)

Record Bucket := mkBucket { b_Key : string; b_Interval : Duration; b_Burst : Z }.

Definition Bucket_Validate (b : Bucket) : result unit :=
  if bool_decide (b_Key b = "") || (b_Interval b <? Microsecond) ||
     negb (b_Interval b mod Microsecond =? 0) || (24 * Hour <? b_Interval b) ||
     (b_Burst b <? 1) || (1000000 <? b_Burst b) ||
     ((30 * 24 * Hour) / b_Interval b <? b_Burst b)
  then Err [ratelimit_ErrInvalid] else Ok tt.

Record Decision := mkDecision { d_Allowed : bool; d_RetryAfter : Duration }.
#[global] Instance Decision_eq_dec : EqDecision Decision.
Proof. solve_decision. Defined.

(** [type Limiter struct]; its Store is passed to [Check]. *)
Record Limiter := mkLimiter { l_MaxEntries : Z; l_Namespace : string }.

Definition key (s : string) : string := hex_encode (sha256_Sum s).

(** The loop that validates the buckets and makes their keys. *)
Fixpoint bucket_keys (prefix : string) (seen : list string) (buckets : list Bucket)
    : result (list string) :=
  match buckets with
  | [] => Ok seen
  | b :: buckets =>
      let? _ := Bucket_Validate b in
      let k := prefix +:+ key (b_Key b) in
      if decide (k ∈ seen) then Err [ratelimit_ErrInvalid]
      else bucket_keys prefix (seen ++ [k]) buckets
  end.

(** The TAT of a bucket; [true] when its key is new. *)
Definition bucket_tat (ctx : option error) (now : Time) (k : string) (t : memoryTx)
    : result (Time * bool) :=
  match memoryTx_Get ctx k t with
  | Err e => if errors_Is e state_ErrNotFound then Ok (now, true) else Err e
  | Ok r =>
      if negb (len (Rec_Value r) =? 8) then Err []
      else Ok (UnixMicro (get_int64 (Rec_Value r)), false)
  end.

(** The instant a bucket admits its next request. *)
Definition allow_at (b : Bucket) (tat : Time) : Time :=
  time_Add tat (wrap64 (- (b_Burst b - 1) * b_Interval b)).

Definition next_tat (b : Bucket) (now tat : Time) : Time :=
  time_Add (if time_Before tat now then now else tat) (b_Interval b).

(** The first loop of the transaction: the decision, the records to write and
    the number of new keys. *)
Fixpoint weigh (ctx : option error) (now : Time) (t : memoryTx) (kbs : list (string * Bucket))
    (d : Decision) (pending : list StateRecord) (newKeys : Z)
    : result (Decision * list StateRecord * Z) :=
  match kbs with
  | [] => Ok (d, pending, newKeys)
  | (k, b) :: kbs =>
      let? tf := bucket_tat ctx now k t in
      let '(tat, fresh) := tf in
      let allowAt := allow_at b tat in
      let d := if time_After allowAt now
               then mkDecision false (Z.max (d_RetryAfter d) (time_Sub allowAt now)) else d in
      let next := next_tat b now tat in
      weigh ctx now t kbs d
        (pending ++ [mkStateRecord k (put_int64 (time_UnixMicro next)) next])
        (newKeys + (if fresh : bool then 1 else 0))
  end.

(** The loop that reclaims expired buckets and counts the live ones. *)
Fixpoint reclaim (ctx : option error) (now : Time) (seen : list string)
    (records : list StateRecord) (live : Z) : M memoryTx Z :=
  match records with
  | [] => ret live
  | r :: records =>
      if negb (time_IsZero (Rec_ExpiresAt r)) && negb (time_Before now (Rec_ExpiresAt r)) &&
         negb (bool_decide (Rec_Key r ∈ seen))
      then memoryTx_Delete ctx (Rec_Key r) ;! reclaim ctx now seen records live
      else reclaim ctx now seen records (live + 1)
  end.

(** The callback of Update, with the decision it assigns. *)
Definition check_tx (ctx : option error) (prefix : string) (limit : Z) (keys : list string)
    (buckets : list Bucket) : M memoryTx Decision := λ t,
  let now := time_Truncate (tx_now t) Microsecond in
  match weigh ctx now t (zip keys buckets) (mkDecision true 0) [] 0 with
  | Err e => (t, Err e)
  | Ok (d, pending, newKeys) =>
      if negb (d_Allowed d) then (t, Ok d)
      else
        ((if 0 <? newKeys then
            let! records := λ t, (t, memoryTx_List ctx prefix "" limit t) in
            let! live := reclaim ctx now keys records 0 in
            if limit <? live + newKeys then throw [ratelimit_ErrCapacity] else ret tt
          else ret tt) ;!
         mfor (memoryTx_Put ctx) pending ;!
         ret d) t
  end.

(** [Check] over the Memory store; a nil Store is [None].  Memory's Update
    runs its callback once, on the store as it is, so the decision is the one
    of that run.  (A store whose Update retries runs the callback again; that
    case is not modelled here.) *)
Definition Check (l : Limiter) (ctx ctx_after : option error) (now : Time)
    (buckets : list Bucket) (store : option Memory) : option Memory * result Decision :=
  match store with
  | None => (None, Err [ratelimit_ErrInvalid])
  | Some m =>
      if Nat.eqb (length buckets) 0 || Nat.ltb 32 (length buckets)
      then (Some m, Err [ratelimit_ErrInvalid])
      else
        let limit := if l_MaxEntries l =? 0 then 4096 else l_MaxEntries l in
        if (limit <? 1) || (10000 <? limit) then (Some m, Err [ratelimit_ErrInvalid])
        else
          let prefix := "rate/" +:+ key (l_Namespace l) +:+ "/" in
          match bucket_keys prefix [] buckets with
          | Err e => (Some m, Err e)
          | Ok keys =>
              let run := check_tx ctx prefix limit keys buckets in
              let fn := λ t, let '(t, r) := run t in
                             (t, match r with Ok _ => Ok tt | Err e => Err e end) in
              match Memory_Update ctx ctx_after now ((prefix +:+ "capacity") :: keys) (Some fn) m with
              | (m', Err e) => (Some m', Err (ratelimit_ErrUnavailable :: e))
              | (m', Ok _) => (Some m', (run (mkTx (mem_records m) ∅ (time_UTC now))).2)
              end
          end
  end.

(** ** Lemmas: cells *)

(** Instants whose microseconds fit an int64. *)
Definition time_ok (t : Time) : Prop := 0 ≤ t ≤ 2 ^ 72.

Lemma string_bytes_of l : Forall (λ b, 0 ≤ b < 256) l → string_bytes (bytes_string l) = l.
Proof. induction 1 as [|b l Hb _ IH]; simpl; [done|]. by rewrite IH, byte_val_of. Qed.

Lemma le_bytes_range n v : Forall (λ b, 0 ≤ b < 256) (le_bytes n v).
Proof.
  revert v. induction n as [|n IH]; intros v; simpl; constructor; [|apply IH].
  by apply Z.mod_pos_bound.
Qed.

Lemma be_value n v :
  foldl (λ acc b, acc * 256 + b) 0 (be_bytes n v) = v mod 256 ^ Z.of_nat n.
Proof.
  unfold be_bytes. revert v. induction n as [|n IH]; intros v; cbn [le_bytes rev].
  - simpl. by rewrite Z.mod_1_r.
  - rewrite foldl_app, IH. cbn [foldl]. rewrite Nat2Z.inj_succ, Z.pow_succ_r by lia.
    rewrite Z.rem_mul_r by lia. lia.
Qed.

Lemma get_put_int64 v : in_int64 v → get_int64 (put_int64 v) = v.
Proof.
  intros Hv. unfold get_int64, put_int64. rewrite string_bytes_of.
  - rewrite be_value. change (256 ^ Z.of_nat 8) with (2 ^ 64).
    rewrite Z.mod_mod by lia. unfold wrap64, in_int64, min_int64, max_int64 in *.
    rewrite Zplus_mod_idemp_l, Z.mod_small; lia.
  - unfold be_bytes. apply Forall_rev, le_bytes_range.
Qed.

Lemma len_put_int64 v : len (put_int64 v) = 8.
Proof. unfold len, put_int64. by rewrite length_bytes_string, length_be_bytes. Qed.

Lemma UnixMicro_time t :
  time_ok t → t mod Microsecond = 0 → UnixMicro (get_int64 (put_int64 (time_UnixMicro t))) = t.
Proof.
  intros Ht Ha. rewrite get_put_int64 by apply wrap64_range.
  unfold time_ok, UnixMicro, time_UnixMicro, unix_epoch, Microsecond, Second in *.
  rewrite wrap64_id; [|unfold in_int64, min_int64, max_int64];
    Z.to_euclidean_division_equations; lia.
Qed.

(** ** Lemmas: one check *)

Definition rec_tat (r : StateRecord) : Time := UnixMicro (get_int64 (Rec_Value r)).

(** The TAT a check at [now] reads for a key. *)
Definition tat_in (recs : gmap string StateRecord) (now : Time) (k : string) : Time :=
  match recs !! k with Some r => rec_tat r | None => now end.

Definition admits (recs : gmap string StateRecord) (now at_ : Time) (kb : string * Bucket) : bool :=
  allow_at kb.2 (tat_in recs now kb.1) <=? at_.

Definition next_record (recs : gmap string StateRecord) (now : Time) (kb : string * Bucket)
    : StateRecord :=
  let next := next_tat kb.2 now (tat_in recs now kb.1) in
  mkStateRecord kb.1 (put_int64 (time_UnixMicro next)) next.

Lemma bucket_tat_view now k t tat fresh :
  bucket_tat None now k t = Ok (tat, fresh) →
  ValidKey k = true ∧ tat = tat_in (view t) now k ∧ fresh = bool_decide (view t !! k = None).
Proof.
  unfold bucket_tat, tat_in. rewrite memoryTx_Get_view.
  destruct (ValidKey k); [|done]. destruct (view t !! k) as [r|]; [|by intros [= <- <-]].
  destruct (negb _); [done|]. by intros [= <- <-].
Qed.

(** The decision as a function of the cells. *)
Definition delay (recs : gmap string StateRecord) (now : Time) (kb : string * Bucket) : Duration :=
  if admits recs now now kb then 0 else time_Sub (allow_at kb.2 (tat_in recs now kb.1)) now.

Lemma weigh_spec now t kbs d p n d' p' n' :
  weigh None now t kbs d p n = Ok (d', p', n') →
  d_Allowed d' = d_Allowed d && forallb (admits (view t) now now) kbs ∧
  d_RetryAfter d' = foldl (λ a kb, if admits (view t) now now kb then a
                                   else Z.max a (delay (view t) now kb)) (d_RetryAfter d) kbs ∧
  p' = p ++ map (next_record (view t) now) kbs ∧
  Forall (λ kb, ValidKey kb.1 = true) kbs.
Proof.
  revert d p n. induction kbs as [|[k b] kbs IH]; intros d p n; cbn [weigh].
  - intros [= <- <- <-]. rewrite andb_true_r, app_nil_r. done.
  - intros (tf & Ht & E)%result_bind_Ok. destruct tf as [tat fresh].
    apply bucket_tat_view in Ht as (Hk & -> & ->).
    apply IH in E as (Ha & Hr & -> & Hv). rewrite Ha, Hr. cbn [forallb foldl map].
    assert (time_After (allow_at b (tat_in (view t) now k)) now =
      negb (admits (view t) now now (k, b))) as ->
      by (unfold time_After, admits; simpl; by rewrite Z.ltb_antisym).
    unfold delay. rewrite <- app_assoc. destruct (admits (view t) now now (k, b)); cbn.
    + split_and!; try done. by constructor.
    + rewrite andb_false_r. split_and!; try done. by constructor.
Qed.

Lemma get_all_sound ctx t ks rs :
  get_all ctx t ks = Ok rs → Forall2 (λ k r, view t !! k = Some r) ks rs.
Proof.
  revert rs. induction ks as [|k ks IH]; intros rs; cbn [get_all]; [by intros [= <-]|].
  intros (r & Hr & E)%result_bind_Ok. apply result_bind_Ok in E as (rs' & Hrs & [= <-]).
  constructor; [|by apply IH]. revert Hr. unfold memoryTx_Get, view.
  destruct (ctx_check ctx) as [[]|]; [|done]. cbn [result_bind].
  destruct (negb _); [done|]. rewrite lookup_overlay.
  destruct (tx_writes t !! k) as [[r'|]|]; [by intros [= ->]|done|].
  destruct (tx_records t !! k); [by intros [= ->]|done].
Qed.

Lemma list_sound ctx p a limit t rs :
  memoryTx_List ctx p a limit t = Ok rs → recs_ok (view t) →
  Forall (λ r, view t !! Rec_Key r = Some r) rs.
Proof.
  unfold memoryTx_List. destruct (ctx_check ctx) as [[]|]; [|done]. cbn [result_bind].
  destruct (_ || _); [done|]. intros E%get_all_sound Hok.
  apply Forall_forall. intros r [i Hi]%list_elem_of_lookup_1.
  destruct (Forall2_lookup_r _ _ _ _ _ E Hi) as (k & _ & Hk).
  destruct (Hok _ _ Hk) as [_ ->]. done.
Qed.

Lemma Delete_view ctx k t t' :
  memoryTx_Delete ctx k t = (t', Ok tt) →
  tx_records t' = tx_records t ∧ view t' = delete k (view t).
Proof.
  unfold memoryTx_Delete. destruct (ctx_check ctx); [|done]. destruct (negb _); [done|].
  intros [= <-]. split; [done|]. apply map_eq. intros j. unfold view. simpl.
  rewrite lookup_overlay. destruct (decide (j = k)) as [->|Hne].
  - by rewrite lookup_insert_eq, lookup_delete_eq.
  - by rewrite lookup_insert_ne, lookup_delete_ne, lookup_overlay by done.
Qed.

Definition reclaimable (now : Time) (r : StateRecord) : Prop :=
  Rec_ExpiresAt r ≠ 0 ∧ Rec_ExpiresAt r ≤ now.

Lemma reclaim_spec ctx now seen records live t t' n :
  reclaim ctx now seen records live t = (t', Ok n) →
  tx_records t' = tx_records t ∧
  ∀ k, view t' !! k = view t !! k ∨
    (view t' !! k = None ∧ k ∉ seen ∧ ∃ r, r ∈ records ∧ Rec_Key r = k ∧ reclaimable now r).
Proof.
  revert live t. induction records as [|r records IH]; intros live t; cbn [reclaim].
  { intros [= <- _]. auto. }
  destruct (negb _ && negb _ && negb _) eqn:Ec.
  - intros (t1 & [] & Ed & E)%bind_Ok. apply Delete_view in Ed as [Hr1 Hv1].
    apply IH in E as [Hr Hv]. split; [congruence|]. intros k. rewrite Hv1 in Hv.
    destruct (decide (k = Rec_Key r)) as [->|Hne].
    + right. btrue. split_and!; try done.
      * destruct (Hv (Rec_Key r)) as [->|[-> _]]; [apply lookup_delete_eq|done].
      * exists r. split_and!; [apply list_elem_of_here|done|].
        unfold reclaimable, time_IsZero, time_Before in *. btrue. lia.
    + destruct (Hv k) as [->|(? & ? & r' & ? & ? & ?)].
      * left. by apply lookup_delete_ne.
      * right. split_and!; try done. exists r'. split_and!; try done.
        by apply list_elem_of_further.
  - intros [Hr Hv]%IH. split; [done|]. intros k.
    destruct (Hv k) as [?|(? & ? & r' & ? & ? & ?)]; [by left|]. right. split_and!; try done.
    exists r'. split_and!; try done. by apply list_elem_of_further.
Qed.

Lemma puts_spec ctx rs t t' :
  mfor (memoryTx_Put ctx) rs t = (t', Ok tt) → NoDup (map Rec_Key rs) →
  tx_records t' = tx_records t ∧
  (∀ r, r ∈ rs → view t' !! Rec_Key r = Some r) ∧
  (∀ k, k ∉ map Rec_Key rs → view t' !! k = view t !! k).
Proof.
  revert t. induction rs as [|r rs IH]; intros t; cbn [mfor map].
  { intros [= <-] _. split_and!; [done| |done]. intros r Hr. by apply not_elem_of_nil in Hr. }
  intros (t1 & [] & Ep & E)%bind_Ok Hnd. apply NoDup_cons in Hnd as [Hni Hnd].
  assert (tx_records t1 = tx_records t) as Hr1.
  { revert Ep. unfold memoryTx_Put. destruct (ctx_check ctx); [|done].
    destruct (negb _); [done|]. by intros [= <-]. }
  apply Put_view in Ep as [_ Hv1]. destruct (IH _ E Hnd) as (Hr & Hin & Hout).
  split_and!; [congruence| |].
  - intros r' [->|Hr']%elem_of_cons; [|by apply Hin].
    rewrite Hout by done. rewrite Hv1. apply lookup_insert_eq.
  - intros k [Hne Hk]%not_elem_of_cons. rewrite Hout by done. rewrite Hv1.
    by apply lookup_insert_ne.
Qed.

(** What a check leaves of a key that is not its own. *)
Definition kept (now : Time) (recs recs' : gmap string StateRecord) (k : string) : Prop :=
  recs' !! k = recs !! k ∨
  (recs' !! k = None ∧ ∃ r, recs !! k = Some r ∧ reclaimable now r).

Lemma map_Rec_Key recs now keys bs :
  length keys = length bs → map Rec_Key (map (next_record recs now) (zip keys bs)) = keys.
Proof.
  rewrite map_map. revert bs. induction keys as [|k keys IH]; intros [|b bs] Hl; try done.
  simpl. f_equal. apply IH. simpl in Hl. lia.
Qed.

Lemma check_tx_spec prefix limit keys bs t t' d :
  check_tx None prefix limit keys bs t = (t', Ok d) →
  NoDup keys → length keys = length bs → recs_ok (view t) →
  let now := time_Truncate (tx_now t) Microsecond in
  let kbs := zip keys bs in
  tx_records t' = tx_records t ∧
  d_Allowed d = forallb (admits (view t) now now) kbs ∧
  d_RetryAfter d = foldl (λ a kb, if admits (view t) now now kb then a
                                  else Z.max a (delay (view t) now kb)) 0 kbs ∧
  if d_Allowed d then
    (∀ kb, kb ∈ kbs → view t' !! kb.1 = Some (next_record (view t) now kb)) ∧
    (∀ k, k ∉ keys → kept now (view t) (view t') k)
  else t' = t.
Proof.
  intros E Hnd Hl Hok now kbs. unfold check_tx in E. fold now kbs in E.
  destruct (weigh None now t kbs (mkDecision true 0) [] 0) as [[[d1 p] n]|e] eqn:Ew; [|done].
  apply weigh_spec in Ew as (Ha & Hr & -> & _). simpl in Ha.
  destruct (d_Allowed d1) eqn:Ed; cbn [negb] in E.
  2: { injection E as <- <-. rewrite Ed. split_and!; try done. }
  apply bind_Ok in E as (t1 & [] & E1 & E). apply bind_Ok in E as (t2 & [] & E2 & [= <- <-]).
  assert (tx_records t1 = tx_records t ∧ ∀ k, k ∉ keys → kept now (view t) (view t1) k)
    as [Hr1 Hk1].
  { destruct (0 <? n); [|injection E1 as <-; split; [done|]; intros; by left].
    apply bind_Ok in E1 as (t0 & rs & [= <- Hlist] & E1).
    apply bind_Ok in E1 as (t3 & live & E1 & E3).
    apply reclaim_spec in E1 as [Hr1 Hv].
    assert (t1 = t3) as -> by (destruct (limit <? live + n); [done|by injection E3]).
    split; [done|]. intros k Hk. destruct (Hv k) as [?|(? & _ & r & Hin & <- & Hex)]; [by left|].
    right. split; [done|]. exists r. split; [|done].
    apply list_sound in Hlist; [|done]. rewrite Forall_forall in Hlist. by apply Hlist. }
  simpl in E2.
  apply puts_spec in E2 as (Hr2 & Hin & Hout); [|unfold kbs; by rewrite map_Rec_Key].
  unfold kbs in Hout. rewrite map_Rec_Key in Hout by done.
  rewrite Ed. split_and!; try done; [congruence| |].
  - intros kb Hkb. assert (kb.1 = Rec_Key (next_record (view t) now kb)) as -> by done.
    apply Hin. by apply list_elem_of_fmap_2.
  - intros k Hk. unfold kept. rewrite Hout by done. by apply Hk1.
Qed.

Definition rate_prefix (l : Limiter) : string := "rate/" +:+ key (l_Namespace l) +:+ "/".
Definition bucket_key (l : Limiter) (b : Bucket) : string := rate_prefix l +:+ key (b_Key b).
Definition keyed_buckets (l : Limiter) (bs : list Bucket) : list (string * Bucket) :=
  map (λ b, (bucket_key l b, b)) bs.

Lemma bucket_keys_spec prefix seen bs ks :
  bucket_keys prefix seen bs = Ok ks → NoDup seen →
  NoDup ks ∧ ks = seen ++ map (λ b, prefix +:+ key (b_Key b)) bs ∧
  Forall (λ b, Bucket_Validate b = Ok tt) bs.
Proof.
  revert seen. induction bs as [|b bs IH]; intros seen; cbn [bucket_keys map].
  { intros [= <-] Hnd. by rewrite app_nil_r. }
  intros [Hv E]%result_bind_unit Hnd. case_decide as Hin; [done|].
  apply IH in E as (Hnd' & -> & Hvs).
  - rewrite <- app_assoc. split_and!; [by rewrite <- app_assoc in Hnd'|done|by constructor].
  - apply NoDup_app. split_and!; [done| |apply NoDup_singleton].
    intros k Hk ->%list_elem_of_singleton. done.
Qed.

Lemma zip_keys l bs :
  zip (map (λ b, bucket_key l b) bs) bs = keyed_buckets l bs.
Proof. induction bs as [|b bs IH]; simpl; [done|]. by rewrite IH. Qed.

(** A check that gives a decision, in terms of the cells. *)
Lemma Check_Ok l now bs m m' d :
  recs_ok (mem_records m) → Check l None None now bs (Some m) = (m', Ok d) →
  let recs := mem_records m in
  let t := time_Truncate now Microsecond in
  let kbs := keyed_buckets l bs in
  Forall (λ b, Bucket_Validate b = Ok tt) bs ∧
  Forall (λ kb, ValidKey kb.1 = true) kbs ∧
  d_Allowed d = forallb (admits recs t t) kbs ∧
  d_RetryAfter d = foldl (λ a kb, if admits recs t t kb then a
                                  else Z.max a (delay recs t kb)) 0 kbs ∧
  ∃ m1, m' = Some m1 ∧
  if d_Allowed d then
    (∀ kb, kb ∈ kbs → mem_records m1 !! kb.1 = Some (next_record recs t kb)) ∧
    (∀ k, k ∉ map fst kbs → kept t recs (mem_records m1) k)
  else m1 = m.
Proof.
  intros Hok E recs t kbs. unfold Check in E. fold (rate_prefix l) in E.
  destruct (Nat.eqb _ _ || _); [done|]. destruct ((_ <? 1) || _); [done|].
  set (limit := if l_MaxEntries l =? 0 then _ else _) in E. clearbody limit.
  destruct (bucket_keys (rate_prefix l) [] bs) as [keys|] eqn:Ek; [|done].
  apply bucket_keys_spec in Ek as (Hnd & -> & Hv); [|apply NoDup_nil_2]. cbn [app] in *.
  set (keys := map _ bs) in *.
  match type of E with context [Memory_Update ?a ?b ?c ?k ?f ?m] =>
    destruct (Memory_Update_cases a b c k f m) as [[e He]|(f' & t1 & [= <-] & Ef & _ & Hvk & He)] end;
    rewrite He in E; [done|]. clear He.
  unfold time_UTC in E. destruct (check_tx _ _ _ _ _ _) as [t2 r] eqn:Ec in Ef, E.
  injection E as <- Er. cbn in Er. subst r. injection Ef as <-.
  assert (length keys = length bs) as Hl by (unfold keys; by rewrite length_map).
  destruct (check_tx_spec _ _ _ _ _ _ _ Ec Hnd Hl) as (Hrec & Ha & Hr & Hd);
    [by rewrite view_empty|].
  cbn [tx_now] in *. fold t in Ha, Hr, Hd. rewrite view_empty in *.
  change (zip keys bs) with (zip (map (λ b, bucket_key l b) bs) bs) in *.
  rewrite zip_keys in *. fold kbs recs in Ha, Hr, Hd |- *.
  split_and!; try done.
  { apply Forall_cons in Hvk as [_ Hvk]. unfold kbs, keyed_buckets, keys in *.
    apply Forall_fmap in Hvk. by apply Forall_fmap. }
  eexists. split; [done|]. cbn [mem_records].
  assert (view t2 = overlay recs (tx_writes t2)) as Hview by (unfold view; by rewrite Hrec).
  destruct (d_Allowed d).
  - rewrite <- Hview. destruct Hd as [Hd1 Hd2]. split; [done|]. intros k Hk. apply Hd2.
    intros Hin. apply Hk. unfold kbs, keyed_buckets. rewrite map_map. exact Hin.
  - rewrite Hd. cbn [tx_writes]. destruct m as [recs0]. f_equal. apply map_eq. intros k.
    by rewrite lookup_overlay, lookup_empty.
Qed.

Lemma Check_Err l now bs m m' e :
  Check l None None now bs (Some m) = (m', Err e) → m' = Some m.
Proof.
  unfold Check. destruct (Nat.eqb _ _ || _); [by intros [= <- _]|].
  destruct ((_ <? 1) || _); [by intros [= <- _]|].
  destruct (bucket_keys _ _ _) as [keys|]; [|by intros [= <- _]].
  match goal with |- context [Memory_Update ?a ?b ?c ?k ?f ?m] =>
    destruct (Memory_Update_cases a b c k f m) as [[e' He]|(f' & t1 & [= <-] & Ef & _ & _ & He)] end;
    rewrite He; [by intros [= <- _]|].
  unfold time_UTC. destruct (check_tx _ _ _ _ _ _) as [t2 r] eqn:Ec in Ef |- *.
  cbn. intros [= <- ->]. done.
Qed.

(** ** Lemmas: quotas *)

Lemma valid_bucket b :
  Bucket_Validate b = Ok tt →
  1 ≤ b_Burst b ∧ 1000 ≤ b_Interval b ∧ b_Interval b mod Microsecond = 0 ∧
  b_Burst b * b_Interval b ≤ 30 * 24 * Hour ∧
  ∀ t, allow_at b t = t - (b_Burst b - 1) * b_Interval b.
Proof.
  unfold Bucket_Validate. destruct (_ || _) eqn:E; [done|]. intros _.
  repeat (apply orb_false_iff in E as [E ?]).
  assert (1000 ≤ b_Interval b ∧ 1 ≤ b_Burst b) as [Hi Hb]
    by (unfold Microsecond in *; split; lia).
  assert (b_Burst b * b_Interval b ≤ 30 * 24 * Hour) as Hp.
  { assert (b_Burst b ≤ (30 * 24 * Hour) / b_Interval b) as Hle by lia.
    pose proof (Z.mul_div_le (30 * 24 * Hour) (b_Interval b)) as Hm. nia. }
  split_and!; try done.
  - by apply Z.eqb_eq, negb_false_iff.
  - intros t. unfold allow_at, time_Add. rewrite wrap64_id; [lia|].
    unfold in_int64, min_int64, max_int64, Hour, Minute, Second in *. nia.
Qed.

(** A running maximum over the elements that fail a test. *)
Lemma foldl_max_spec {A} (p : A → bool) (f : A → Z) l z :
  let R := foldl (λ a x, if p x then a else Z.max a (f x)) z l in
  z ≤ R ∧ (∀ x, x ∈ l → p x = false → f x ≤ R) ∧
  (R = z ∨ ∃ x, x ∈ l ∧ p x = false ∧ f x = R).
Proof.
  revert z. induction l as [|x l IH]; intros z; cbn [foldl].
  { split_and!; [done| |by left]. intros x Hx. by apply not_elem_of_nil in Hx. }
  destruct (IH (if p x then z else Z.max z (f x))) as (H1 & H2 & H3).
  set (R := foldl _ _ l) in *. clearbody R. split_and!.
  - destruct (p x); lia.
  - intros y [->|Hy]%elem_of_cons Hp; [rewrite Hp in H1; lia|by apply H2].
  - destruct H3 as [->|(y & Hy & Hp & Hf)].
    + destruct (p x) eqn:Hp; [by left|]. destruct (Z.max_spec z (f x)) as [[? ->]|[? ->]].
      * right. exists x. split_and!; [apply list_elem_of_here|done|done].
      * by left.
    + right. exists y. split_and!; [by apply list_elem_of_further|done..].
Qed.

Lemma elem_of_keyed l bs kb : kb ∈ keyed_buckets l bs ↔ kb.1 = bucket_key l kb.2 ∧ kb.2 ∈ bs.
Proof.
  unfold keyed_buckets. rewrite list_elem_of_fmap. destruct kb as [k b]. simpl. naive_solver.
Qed.

(** A bucket that refuses has a cell, and the same cell is read later. *)
Lemma refuses_cell recs now at_ kb :
  Bucket_Validate kb.2 = Ok tt → admits recs now now kb = false →
  allow_at kb.2 (tat_in recs now kb.1) = allow_at kb.2 (tat_in recs at_ kb.1).
Proof.
  intros Hv. unfold admits, tat_in. destruct (recs !! kb.1); [done|].
  destruct (valid_bucket _ Hv) as (? & ? & _ & _ & ->). intros E. btrue. nia.
Qed.

Lemma admits_later recs now at_ kb :
  Bucket_Validate kb.2 = Ok tt → now ≤ at_ → admits recs now now kb = true →
  admits recs at_ at_ kb = true.
Proof.
  intros Hv Hle. unfold admits, tat_in.
  destruct (valid_bucket _ Hv) as (? & ? & _ & _ & Ha). rewrite !Ha.
  destruct (recs !! kb.1); intros E; btrue; apply Z.leb_le; [lia|nia].
Qed.

(** ** Properties *)

(** A check consumes every bucket or none: a refusal or an error leaves
    the store untouched, while an admission moves the cell of each requested
    bucket one interval past the later of its old value and now, and touches
    no other record except to drop expired ones.  A request is refused exactly
    when some bucket is not yet due, and the RetryAfter of a refusal is exact:
    unless the store changes, the same request is still refused at every
    instant before it has passed and admitted at every instant after. *)
Theorem check_all_or_nothing l now bs m m' res :
  recs_ok (mem_records m) → Check l None None now bs (Some m) = (m', res) →
  let recs := mem_records m in
  let t := time_Truncate now Microsecond in
  let kbs := keyed_buckets l bs in
  match res with
  | Err _ => m' = Some m
  | Ok d =>
      d_Allowed d = forallb (admits recs t t) kbs ∧
      if d_Allowed d then ∃ m1, m' = Some m1 ∧
        (∀ kb, kb ∈ kbs → mem_records m1 !! kb.1 = Some (next_record recs t kb)) ∧
        (∀ k, k ∉ map fst kbs → kept t recs (mem_records m1) k)
      else m' = Some m ∧
        (d_RetryAfter d < max_int64 → ∀ at_, t ≤ at_ →
         forallb (admits recs at_ at_) kbs = (t + d_RetryAfter d <=? at_))
  end.
Proof.
  intros Hok E recs t kbs. destruct res as [d|e]; [|by eapply Check_Err].
  destruct (Check_Ok _ _ _ _ _ _ Hok E) as (Hv & _ & Ha & Hr & m1 & -> & Hd).
  fold recs t kbs in Ha, Hr, Hd. split; [done|]. destruct (d_Allowed d); [by exists m1|].
  split; [by rewrite Hd|]. intros Hmax at_ Hat.
  destruct (foldl_max_spec (admits recs t t) (delay recs t) kbs 0) as (H0 & Hall & Hex).
  rewrite <- Hr in *. clear Hr.
  assert (∀ kb, kb ∈ kbs → Bucket_Validate kb.2 = Ok tt) as Hval.
  { intros kb [_ Hin]%elem_of_keyed. rewrite Forall_forall in Hv. by apply Hv. }
  assert (∀ kb, kb ∈ kbs → admits recs t t kb = false → delay recs t kb ≤ d_RetryAfter d →
    allow_at kb.2 (tat_in recs at_ kb.1) - t = delay recs t kb) as Hdelay.
  { intros kb Hin Hk. rewrite <- (refuses_cell recs t at_ kb (Hval _ Hin) Hk).
    unfold delay. rewrite Hk. unfold admits, time_Sub in *. btrue.
    unfold max_int64, min_int64 in *. lia. }
  apply eq_true_iff_eq. rewrite forallb_forall, Z.leb_le. split.
  - intros Hadm. destruct Hex as [->|(kb & Hin & Hk & Hf)]; [lia|].
    specialize (Hadm kb (proj1 (list_elem_of_In _ _) Hin)). unfold admits in Hadm. btrue.
    specialize (Hdelay kb Hin Hk). lia.
  - intros Hle kb Hin%list_elem_of_In. destruct (admits recs t t kb) eqn:Hk.
    + eapply admits_later; [by apply Hval| |done]. lia.
    + specialize (Hall kb Hin Hk). specialize (Hdelay kb Hin Hk Hall).
      unfold admits. apply Z.leb_le. lia.
Qed.

Definition ex_bucket : Bucket := mkBucket "token" Second 2.
Definition ex_limiter : Limiter := mkLimiter 0 "".
Definition ex_now : Time := unix_epoch + 1000 * Hour.

Lemma check_all_or_nothing_witness :
  let m := mkMemory ∅ in
  ∃ m1, (Check ex_limiter None None ex_now [ex_bucket] (Some m)).1 = Some m1 ∧
    ∀ kb, kb ∈ keyed_buckets ex_limiter [ex_bucket] →
      mem_records m1 !! kb.1 = Some (next_record ∅ (time_Truncate ex_now Microsecond) kb).
Proof.
  pose proof (check_all_or_nothing ex_limiter ex_now [ex_bucket] (mkMemory ∅)
    (Check ex_limiter None None ex_now [ex_bucket] (Some (mkMemory ∅))).1 (Ok (mkDecision true 0)))
    as H.
  destruct H as (_ & m1 & Hm & Hk & _).
  - intros k r Hr. cbn in Hr. rewrite lookup_empty in Hr. discriminate Hr.
  - vm_compute. reflexivity.
  - exists m1. exact (conj Hm Hk).
Defined.

(** A sequence of checks on one store, with the decisions. *)
Fixpoint run_checks (l : Limiter) (calls : list (Time * list Bucket)) (store : option Memory)
    : list (result Decision) :=
  match calls with
  | [] => []
  | (now, bs) :: calls =>
      let '(store, d) := Check l None None now bs store in d :: run_checks l calls store
  end.

(** The calls that were admitted and drew on the bucket [b]. *)
Definition drew (b : Bucket) (call : Time * list Bucket) (d : result Decision) : bool :=
  match d with Ok d => d_Allowed d && bool_decide (b_Key b ∈ map b_Key call.2) | Err _ => false end.

Definition count_drawn (b : Bucket) (calls : list (Time * list Bucket))
    (ds : list (result Decision)) : Z :=
  Z.of_nat (length (List.filter (λ cd, drew b cd.1 cd.2) (zip calls ds))).

Section bound.
Context (l : Limiter) (b : Bucket) (t0 : Time).
Hypothesis b_valid : Bucket_Validate b = Ok tt.
Local Notation bk := (bucket_key l b).
Local Notation iv := (b_Interval b).

(** After [n] admissions the cell, or the clock where it has overtaken the
    cell, is at least [n] intervals past the start. *)
Definition charged (n : Z) (t : Time) (m : Memory) : Prop :=
  recs_ok (mem_records m) ∧ t0 ≤ t ∧
  (∀ r, mem_records m !! bk = Some r → Rec_ExpiresAt r = rec_tat r) ∧
  t0 + n * iv ≤ match mem_records m !! bk with Some r => Z.max (rec_tat r) t | None => t end ∧
  n * iv ≤ t - t0 + b_Burst b * iv.

Lemma charged_later n t t' m : t ≤ t' → charged n t m → charged n t' m.
Proof.
  intros Hle (Hok & H0 & He & Hc & Hb). split_and!; try done; [lia| |lia].
  destruct (mem_records m !! bk); lia.
Qed.

Lemma charged_kept n t m recs' :
  charged n t m → kept t (mem_records m) recs' bk → recs_ok recs' → charged n t (mkMemory recs').
Proof.
  intros (Hok & H0 & He & Hc & Hb) Hk Hok'. split_and!; try done; cbn [mem_records].
  - destruct Hk as [->|[-> _]]; done.
  - destruct Hk as [->|(-> & r & Hr & Hx)]; [done|]. rewrite Hr in Hc.
    rewrite <- (He _ Hr) in Hc. unfold reclaimable in Hx. lia.
Qed.

(** One admission. *)
Lemma charged_drawn n t m recs' :
  charged n t m → 0 ≤ n → t mod Microsecond = 0 → 0 ≤ t ≤ 2 ^ 71 →
  admits (mem_records m) t t (bk, b) = true →
  recs' !! bk = Some (next_record (mem_records m) t (bk, b)) → recs_ok recs' →
  charged (n + 1) t (mkMemory recs').
Proof using b_valid.
  intros (Hok & H0 & He & Hc & Hb) Hn Hal Hrange Hadm Hk Hok'.
  destruct (valid_bucket _ b_valid) as (Hb1 & Hi & Hia & Hbi & Hallow).
  unfold admits in Hadm. cbn in Hadm. rewrite Hallow in Hadm.  btrue.
  set (tat := tat_in (mem_records m) t bk) in *.
  assert (t0 + n * iv ≤ Z.max tat t) as Hc'.
  { unfold tat, tat_in. destruct (mem_records m !! bk); lia. }
  assert (tat mod Microsecond = 0) as Hta.
  { unfold tat, tat_in. destruct (mem_records m !! bk); [|done].
    unfold rec_tat, UnixMicro, unix_epoch, Microsecond, Second.
    Z.to_euclidean_division_equations; lia. }
  assert (next_tat b t tat = Z.max tat t + iv) as Hnext.
  { unfold next_tat, time_Add, time_Before.  destruct (Z.ltb_spec tat t); lia. }
  assert (rec_tat (next_record (mem_records m) t (bk, b)) = Z.max tat t + iv) as Htat.
  { unfold rec_tat, next_record. cbn [Rec_Value fst snd]. fold tat. rewrite Hnext.
    apply UnixMicro_time.
    - unfold time_ok, Hour, Minute, Second in *. nia.
    - rewrite Zplus_mod, Hia, Z.add_0_r, Zmod_mod.
      destruct (Z.max_spec tat t) as [[_ ->]|[_ ->]]; done. }
  split_and!; try done; cbn [mem_records].
  - intros r. rewrite Hk. intros [= <-]. rewrite Htat. unfold next_record. cbn. fold tat.
    by rewrite Hnext.
  - rewrite Hk, Htat. nia.
  - nia.
Qed.

(** A check keeps every record under its own valid key. *)
Lemma Check_recs_ok now bs m m1 d :
  recs_ok (mem_records m) → Check l None None now bs (Some m) = (Some m1, Ok d) →
  recs_ok (mem_records m1).
Proof using.
  intros Hok E. destruct (Check_Ok _ _ _ _ _ _ Hok E) as (_ & Hvk & _ & _ & m2 & [= <-] & Hd).
  destruct (d_Allowed d); [|by subst]. destruct Hd as [Hin Hout]. intros j r Hr.
  destruct (decide (j ∈ map fst (keyed_buckets l bs))) as [(kb & -> & Hkb)%list_elem_of_fmap|Hj].
  - rewrite (Hin _ Hkb) in Hr. injection Hr as <-. rewrite Forall_forall in Hvk.
    split; [by apply Hvk|done].
  - destruct (Hout j Hj) as [E1|[E1 _]]; rewrite E1 in Hr; [by apply Hok|done].
Qed.

(** Buckets that share a cell with [b] are [b]. *)
Definition one_quota (bs : list Bucket) : Prop :=
  ∀ b', b' ∈ bs → bucket_key l b' = bk → b' = b.

Lemma charged_check n t now bs m m' res :
  charged n t m → 0 ≤ n → t ≤ time_Truncate now Microsecond → 0 ≤ now ≤ 2 ^ 71 →
  one_quota bs → Check l None None now bs (Some m) = (m', res) →
  ∃ m1, m' = Some m1 ∧
    charged (n + if drew b (now, bs) res then 1 else 0) (time_Truncate now Microsecond) m1.
Proof using b_valid.
  intros Hch Hn Ht Hnow Hone E. set (t' := time_Truncate now Microsecond) in *.
  apply (charged_later _ _ t') in Hch; [|done].
  destruct res as [d|e]; cbn [drew].
  2: { apply Check_Err in E as ->. exists m. by rewrite Z.add_0_r. }
  assert (recs_ok (mem_records m)) as Hok by apply Hch.
  destruct (Check_Ok _ _ _ _ _ _ Hok E) as (_ & _ & Ha & _ & m1 & -> & Hd).
  fold t' in Ha, Hd. exists m1. split; [done|].
  destruct (d_Allowed d) eqn:Ed; [|subst m1; by rewrite Z.add_0_r].
  assert (recs_ok (mem_records m1)) as Hok1 by (by eapply Check_recs_ok).
  destruct Hd as [Hin Hout]. cbn [andb snd]. destruct m1 as [recs1]. cbn [mem_records] in *.
  case_bool_decide as Hb.
  - apply list_elem_of_fmap in Hb as (b' & Hk & Hb').
    assert (b' = b) as -> by (apply Hone; [done|]; unfold bucket_key; by rewrite <- Hk).
    assert ((bk, b) ∈ keyed_buckets l bs) as Hkb by (by apply elem_of_keyed).
    symmetry in Ha. rewrite forallb_forall in Ha.
    eapply charged_drawn; try done.
    + unfold t', time_Truncate, Microsecond. simpl.
      Z.to_euclidean_division_equations; lia.
    + unfold t', time_Truncate, Microsecond. simpl.
      Z.to_euclidean_division_equations; lia.
    + by apply Ha, list_elem_of_In.
    + by apply (Hin (bk, b)).
  - rewrite Z.add_0_r. eapply charged_kept; [done| |done]. apply Hout.
    intros (kb & Hbk & [Hk1 Hk2]%elem_of_keyed)%list_elem_of_fmap.
    apply Hb. rewrite <- (Hone kb.2 Hk2) by congruence. by apply list_elem_of_fmap_2.
Qed.

(** The instant of the last call, [t] when there is none. *)
Fixpoint end_time (t : Time) (calls : list (Time * list Bucket)) : Time :=
  match calls with
  | [] => t
  | (now, _) :: calls => end_time (time_Truncate now Microsecond) calls
  end.

Lemma run_charged calls : ∀ n t m,
  charged n t m → 0 ≤ n →
  StronglySorted Z.le (t :: map (λ c, time_Truncate c.1 Microsecond) calls) →
  Forall (λ c, 0 ≤ c.1 ≤ 2 ^ 71 ∧ one_quota c.2) calls →
  (n + count_drawn b calls (run_checks l calls (Some m))) * iv ≤
    end_time t calls - t0 + b_Burst b * iv.
Proof using b_valid.
  induction calls as [|[now bs] calls IH]; intros n t m Hch Hn Hs Hc.
  { unfold count_drawn. cbn. rewrite Z.add_0_r. apply Hch. }
  apply Forall_cons in Hc as [[Hnow Hone] Hc]. cbn [map fst] in Hs.
  apply StronglySorted_inv in Hs as [Hs Ht]. apply Forall_cons in Ht as [Ht _].
  cbn [run_checks end_time]. destruct (Check l None None now bs (Some m)) as [m' d] eqn:E.
  destruct (charged_check _ _ _ _ _ _ _ Hch Hn Ht Hnow Hone E) as (m1 & -> & Hch1).
  set (x := if drew b (now, bs) d then 1 else 0) in *.
  assert (0 ≤ x) as Hx by (unfold x; by destruct (drew _ _ _)).
  specialize (IH (n + x) _ m1 Hch1 ltac:(lia) Hs Hc).
  assert (count_drawn b ((now, bs) :: calls) (d :: run_checks l calls (Some m1)) =
    x + count_drawn b calls (run_checks l calls (Some m1))) as ->; [|nia].
  unfold count_drawn, x. cbn [zip zip_with List.filter fst snd].
  destruct (drew b (now, bs) d); [|done]. cbn [length]. lia.
Qed.
End bound.

Lemma sorted_map f l :
  (∀ a c, a ≤ c → f a ≤ f c) → StronglySorted Z.le l → StronglySorted Z.le (map f l).
Proof.
  intros Hf. induction 1 as [|a l Hs IH Hall]; cbn [map]; constructor; [done|].
  apply List.Forall_map. eapply Forall_impl; [exact Hall|]. auto.
Qed.

(** C19: The quota holds over every history: whatever checks are made on the
    store, by whichever combinations of buckets, with a clock that does not run
    backwards, the number of admitted requests that drew on a bucket between
    two instants is at most its burst plus the number of whole intervals
    between them. *)
Theorem rate_bound l b now bs calls m :
  Bucket_Validate b = Ok tt → recs_ok (mem_records m) →
  (∀ r, mem_records m !! bucket_key l b = Some r → Rec_ExpiresAt r = rec_tat r) →
  StronglySorted Z.le (map fst ((now, bs) :: calls)) →
  Forall (λ c, 0 ≤ c.1 ≤ 2 ^ 71 ∧ one_quota l b c.2) ((now, bs) :: calls) →
  let all := (now, bs) :: calls in
  let t0 := time_Truncate now Microsecond in
  count_drawn b all (run_checks l all (Some m)) ≤
    b_Burst b + (end_time t0 all - t0) / b_Interval b.
Proof.
  intros Hv Hok Hx Hs Hc all t0.
  destruct (valid_bucket _ Hv) as (Hb1 & Hi & _).
  assert (StronglySorted Z.le (t0 :: map (λ c, time_Truncate c.1 Microsecond) all)) as Hs'.
  { assert (∀ a c, a ≤ c → time_Truncate a Microsecond ≤ time_Truncate c Microsecond) as Hmono.
    { intros a c Hac. unfold time_Truncate, Microsecond. simpl.
      Z.to_euclidean_division_equations; lia. }
    assert (StronglySorted Z.le (map (λ c, time_Truncate c.1 Microsecond) all)) as H1.
    { rewrite <- (map_map fst (λ a, time_Truncate a Microsecond)). by apply sorted_map. }
    constructor; [done|]. constructor; [done|]. cbn [map] in H1.
    apply StronglySorted_inv in H1 as [_ H1]. exact H1. }
  assert (charged l b t0 0 t0 m) as Hch.
  { split_and!; try done; try nia. destruct (_ !! _); lia. }
  pose proof (run_charged l b t0 Hv all 0 t0 m Hch ltac:(lia) Hs' Hc) as Hr.
  set (n := count_drawn _ _ _) in *. set (e := end_time _ _) in *.
  assert (n - b_Burst b ≤ (e - t0) / b_Interval b); [|lia].
  apply Z.div_le_lower_bound; nia.
Qed.

Lemma rate_bound_witness :
  count_drawn ex_bucket [(ex_now, [ex_bucket]); (ex_now, [ex_bucket]); (ex_now + Second, [ex_bucket])]
    (run_checks ex_limiter
       [(ex_now, [ex_bucket]); (ex_now, [ex_bucket]); (ex_now + Second, [ex_bucket])]
       (Some NewMemory)) ≤ 2 + Second / Second.
Proof.
  apply (rate_bound ex_limiter ex_bucket ex_now [ex_bucket]
    [(ex_now, [ex_bucket]); (ex_now + Second, [ex_bucket])] NewMemory).
  - reflexivity.
  - intros k r Hr. cbn in Hr. rewrite lookup_empty in Hr. discriminate Hr.
  - intros r Hr. cbn in Hr. rewrite lookup_empty in Hr. discriminate Hr.
  - repeat constructor; vm_compute; discriminate.
  - assert (one_quota ex_limiter ex_bucket [ex_bucket]) as Hq.
    { intros b' Hb' _. apply list_elem_of_singleton in Hb'. exact Hb'. }
    repeat constructor; try exact Hq; vm_compute; discriminate.
Defined.
