(* ===== verification/RateHttp.v ===== *)
(** * The rate limiter in front of HTTP

    ratelimit/http.go: PeerKey, which names the client a quota belongs to, and
    Middleware, which spends the quotas before a request reaches the handler
    behind it.  Addresses and networks are net/netip's. *)
From stdpp Require Import base gmap strings list.
From Stdlib Require Import ZArith Lia Ascii ZifyBool.
From S2P Require Import Prelude GoStrings StateStore RateLimit.

Local Open Scope Z_scope.

(** ** PeerKey *)

(** What PeerKey uses of net and net/netip. *)
Class NetIP := {
  Addr : Type;
  Prefix : Type;
  ParseAddr : string → option Addr;
  Unmap : Addr → Addr;
  Addr_String : Addr → string;
  Contains : Prefix → Addr → bool;
  (** The host of host:port. *)
  SplitHostPort : string → option string }.

(** [Header.Get]: the first line of that name. *)
Definition first_line (lines : list string) : string := hd "" lines.

Section peer.
Context `{NetIP} (trusted : list Prefix).

Definition isTrusted (a : Addr) : bool := existsb (λ p, Contains p a) trusted.

(** The loop, over the chain from its end; [None] for a malformed address. *)
Fixpoint walk_chain (chain : list string) (peer : Addr) : option Addr :=
  match chain with
  | [] => Some peer
  | s :: chain =>
      match ParseAddr (TrimSpace s) with
      | None => None
      | Some next => let peer := Unmap next in if isTrusted peer then walk_chain chain peer else Some peer
      end
  end.

(** [remote] is RemoteAddr, [forwarded] the X-Forwarded-For lines. *)
Definition PeerKey (remote : string) (forwarded : list string) : string :=
  match ParseAddr (default remote (SplitHostPort remote)) with
  | None => "unknown"
  | Some ip =>
      let ip := Unmap ip in
      if negb (isTrusted ip) then Addr_String ip
      else
      let chain := split_byte "," (first_line forwarded) in
      if Nat.ltb 32 (length chain) then Addr_String ip
      else Addr_String (default ip (walk_chain (reverse chain) ip))
  end.
End peer.

(** ** Middleware *)

(** The Retry-After of a refusal, in seconds; the sum wraps at 64 bits. *)
Definition retry_seconds (retryAfter : Duration) : Z :=
  Z.max 1 (Z.quot (wrap64 (wrap64 (retryAfter + Second) - 1)) Second).

(** An answer: the handler's, or a refusal with its status and Retry-After;
    [custom] when Reject writes it. *)
Inductive gated (A : Type) : Type :=
  | Served (a : A)
  | Refused (status : Z) (retryAfter : option string) (custom : bool).
Arguments Served {A} a.
Arguments Refused {A} status retryAfter custom.

Section middleware.
Context {Req St W A : Type}.
(** A nil Limiter, Buckets or Reject is [None] or [false]. *)
Context (limiter : option (list Bucket → St → St * result Decision))
  (buckets : option (Req → list Bucket)) (reject : bool) (next : Req → W → W * A).

Definition Middleware (r : Req) (store : St) (w : W) : St * W * gated A :=
  let serve store := let '(w, a) := next r w in (store, w, Served a) in
  match limiter, buckets with
  | Some check, Some buckets =>
      let b := buckets r in
      if Nat.eqb (length b) 0 then serve store
      else match check b store with
      | (store, Err _) => (store, w, Refused 503 None reject)
      | (store, Ok d) =>
          if d_Allowed d then serve store
          else (store, w, Refused 429 (Some (Itoa (retry_seconds (d_RetryAfter d)))) reject)
      end
  | _, _ => serve store
  end.
End middleware.

(** ** Theorems *)

Section peer_theorems.
Context `{NetIP} (trusted : list Prefix).

(** A hop that a trusted proxy appended. *)
Definition trusted_hop (s : string) : Prop :=
  ∃ a, ParseAddr (TrimSpace s) = Some a ∧ isTrusted trusted (Unmap a) = true.

(** The chain of the first X-Forwarded-For line; with no line, one empty entry. *)
Definition forwarded_chain (forwarded : list string) : list string :=
  split_byte "," (first_line forwarded).

Lemma walk_trusted hops rest ip :
  Forall trusted_hop hops → ∃ ip', walk_chain trusted (hops ++ rest) ip = walk_chain trusted rest ip'.
Proof.
  intros Hf. revert ip. induction Hf as [|s hops (a & Ha & Ht) _ IH]; intros ip; [by exists ip|].
  cbn [app walk_chain]. rewrite Ha, Ht. apply IH.
Qed.

(** The walk past trusted hops to the entry [s]. *)
Lemma walk_to front s hops ip :
  Forall trusted_hop hops →
  ∃ ip', walk_chain trusted (reverse (front ++ s :: hops)) ip = walk_chain trusted (s :: reverse front) ip'.
Proof.
  intros Hp. rewrite reverse_app, reverse_cons, <- app_assoc. apply walk_trusted.
  by apply Forall_reverse.
Qed.

(** What the walk finds: the nearest entry that is no trusted hop decides, and
    when all are trusted the farthest one is it. *)
Lemma walk_cases chain ip :
  (∀ front s hops, chain = front ++ s :: hops → Forall trusted_hop hops → ¬ trusted_hop s →
     walk_chain trusted (reverse chain) ip = Unmap <$> ParseAddr (TrimSpace s)) ∧
  (∀ s hops, chain = s :: hops → Forall trusted_hop chain →
     walk_chain trusted (reverse chain) ip = Unmap <$> ParseAddr (TrimSpace s)).
Proof.
  split.
  - intros front s hops -> Hp Hs. destruct (walk_to front s hops ip Hp) as [ip' ->].
    cbn [walk_chain]. destruct (ParseAddr (TrimSpace s)) as [a|] eqn:Ea; [|done].
    destruct (isTrusted trusted (Unmap a)) eqn:Et; [|done]. destruct Hs. by exists a.
  - intros s hops -> [(a & Ha & Ht) Hp]%Forall_cons.
    destruct (walk_to [] s hops ip Hp) as [ip' E]. cbn [app] in E. rewrite E. cbn [walk_chain].
    rewrite Ha, Ht. done.
Qed.

(** C21: The key of a peer, for every remote address and every header.  A remote
    address that does not parse has the key unknown.  A peer that is no trusted
    proxy is known by its socket address, whatever X-Forwarded-For lines it
    sends.  For a trusted proxy only the first line counts.  A chain of more
    than 32 entries leaves the proxy's own address.  In a shorter one the entry
    nearest to the server that is not a trusted address decides, whatever stands
    in front of it: it is the key when it is an address, and leaves the proxy's
    own when it is malformed (as the empty entry of an absent header is); a
    chain of trusted addresses only gives its farthest one. *)
Theorem peer_key_unforgeable remote forwarded :
  let key := PeerKey trusted remote forwarded in
  let chain := forwarded_chain forwarded in
  match ParseAddr (default remote (SplitHostPort remote)) with
  | None => key = "unknown"
  | Some ip =>
      let socket := Addr_String (Unmap ip) in
      (isTrusted trusted (Unmap ip) = false → key = socket) ∧
      (isTrusted trusted (Unmap ip) = true →
        ((32 < length chain)%nat → key = socket) ∧
        ((length chain ≤ 32)%nat →
          (∀ front s hops, chain = front ++ s :: hops → Forall trusted_hop hops → ¬ trusted_hop s →
             key = match ParseAddr (TrimSpace s) with
                   | Some client => Addr_String (Unmap client)
                   | None => socket
                   end) ∧
          (Forall trusted_hop chain →
             ∃ s hops a, chain = s :: hops ∧ ParseAddr (TrimSpace s) = Some a ∧
               key = Addr_String (Unmap a))))
  end.
Proof.
  intros key chain. subst key. unfold PeerKey. fold (forwarded_chain forwarded). fold chain.
  destruct (ParseAddr (default remote (SplitHostPort remote))) as [ip|]; [|done]. cbv zeta.
  destruct (isTrusted trusted (Unmap ip)); cbn [negb]; split; try done. intros _.
  destruct (walk_cases chain (Unmap ip)) as [Hne Hall]. split; intros Hlen.
  - destruct (Nat.ltb_spec 32 (length chain)); [done|lia].
  - destruct (Nat.ltb_spec 32 (length chain)); [lia|]. split.
    + intros front s hops Hc Hp Hs. rewrite (Hne _ _ _ Hc Hp Hs). by destruct (ParseAddr (TrimSpace s)).
    + intros Hf. destruct chain as [|s hops] eqn:Ec; [by apply split_byte_nonnil in Ec|].
      rewrite (Hall s hops eq_refl Hf). apply Forall_cons in Hf as [(a & Ha & _) _].
      exists s, hops, a. by rewrite Ha.
Qed.
End peer_theorems.

(** ** Refusals *)

(** The seconds a refusal announces cover the wait, and not a second more. *)
Lemma retry_covers d :
  0 ≤ d → d + Second ≤ max_int64 →
  d ≤ retry_seconds d * Second ∧ (1 < retry_seconds d → (retry_seconds d - 1) * Second < d).
Proof.
  unfold retry_seconds, Second, max_int64. intros Hd Hm.
  rewrite !wrap64_id by (unfold in_int64, min_int64, max_int64; try rewrite wrap64_id; unfold in_int64, min_int64, max_int64; lia).
  rewrite Z.quot_div_nonneg by lia.
  pose proof (Z.div_mod (d + 1000000000 - 1) 1000000000 ltac:(lia)).
  pose proof (Z.mod_pos_bound (d + 1000000000 - 1) 1000000000 ltac:(lia)). lia.
Qed.

Lemma truncate_add now n :
  0 ≤ n → time_Truncate now Microsecond + n * Second ≤ time_Truncate (now + n * Second) Microsecond.
Proof.
  intros Hn. unfold time_Truncate, Microsecond, Second. cbn [Z.leb Z.compare].
  replace (n * 1000000000) with (n * 1000000 * 1000) by lia. rewrite Z.mod_add by lia. lia.
Qed.
Lemma truncate_mono a b : a ≤ b → time_Truncate a Microsecond ≤ time_Truncate b Microsecond.
Proof.
  intros Hab. unfold time_Truncate, Microsecond. cbn [Z.leb Z.compare].
  pose proof (Z.div_mod a 1000 ltac:(lia)). pose proof (Z.div_mod b 1000 ltac:(lia)).
  pose proof (Z.div_le_mono a b 1000 ltac:(lia) Hab). lia.
Qed.

Lemma refusal_expires l now at_ bs m m1 d m2 d2 :
  recs_ok (mem_records m) → Check l None None now bs (Some m) = (m1, Ok d) → d_Allowed d = false →
  d_RetryAfter d + Second ≤ max_int64 → 0 ≤ d_RetryAfter d →
  now + retry_seconds (d_RetryAfter d) * Second ≤ at_ →
  Check l None None at_ bs (Some m) = (m2, Ok d2) → d_Allowed d2 = true.
Proof.
  intros Hok E Ha Hm H0 Hat E2.
  pose proof (check_all_or_nothing l now bs m m1 (Ok d) Hok E) as H1. cbn beta iota zeta in H1.
  rewrite Ha in H1. destruct H1 as (_ & _ & Hr).
  destruct (check_all_or_nothing l at_ bs m m2 (Ok d2) Hok E2) as [-> _].
  destruct (retry_covers (d_RetryAfter d) H0 Hm) as [Hc _].
  assert (1 ≤ retry_seconds (d_RetryAfter d)) by (unfold retry_seconds; lia).
  pose proof (truncate_mono _ _ Hat). pose proof (truncate_add now (retry_seconds (d_RetryAfter d)) ltac:(lia)).
  rewrite Hr; [apply Z.leb_le; lia|unfold max_int64, Second in *; lia|unfold Second in *; lia].
Qed.

Lemma retry_nonneg l now bs m m1 d :
  recs_ok (mem_records m) → Check l None None now bs (Some m) = (m1, Ok d) → 0 ≤ d_RetryAfter d.
Proof.
  intros Hok E. destruct (Check_Ok _ _ _ _ _ _ Hok E) as (_ & _ & _ & Hr & _). rewrite Hr.
  by destruct (foldl_max_spec (admits (mem_records m) (time_Truncate now Microsecond) (time_Truncate now Microsecond))
    (delay (mem_records m) (time_Truncate now Microsecond)) (keyed_buckets l bs) 0) as [H0 _].
Qed.

Section gate.
Context {Req W A : Type} (l : Limiter) (now : Time) (buckets : Req → list Bucket) (reject : bool)
  (next : Req → W → W * A).

(** The limiter's Check at an instant. *)
Definition check_at (at_ : Time) (bs : list Bucket) (store : option Memory) : option Memory * result Decision :=
  Check l None None at_ bs store.

(** C20: Nothing passes the gate unpaid.  With a limiter on the Memory store and
    buckets configured, the handler runs exactly for a request without buckets
    or with all of them admitted; a refusal leaves the handler's state and the
    store alone, and answers 503 when Check fails and 429 when it denies the
    quota.  A 429 tells the client how long to wait, and it is enough: unless
    the wait overflows 64 bits, while nothing else draws on the buckets, the
    same request is never refused for its quota from that many seconds on. *)
Theorem middleware_gates r m w store w' ans :
  recs_ok (mem_records m) →
  Middleware (Some (check_at now)) (Some buckets) reject next r (Some m) w = (store, w', ans) →
  match ans with
  | Served a =>
      next r w = (w', a) ∧
      (buckets r = [] ∨ ∃ d, check_at now (buckets r) (Some m) = (store, Ok d) ∧ d_Allowed d = true)
  | Refused status retry custom =>
      w' = w ∧ store = Some m ∧ buckets r ≠ [] ∧ custom = reject ∧
      ((status = 503 ∧ retry = None ∧ ∃ e, check_at now (buckets r) (Some m) = (Some m, Err e)) ∨
       ∃ d, status = 429 ∧ retry = Some (Itoa (retry_seconds (d_RetryAfter d))) ∧
         check_at now (buckets r) (Some m) = (Some m, Ok d) ∧ d_Allowed d = false ∧
         (d_RetryAfter d + Second ≤ max_int64 →
          ∀ at_ m2 d2, now + retry_seconds (d_RetryAfter d) * Second ≤ at_ →
            check_at at_ (buckets r) (Some m) = (m2, Ok d2) → d_Allowed d2 = true))
  end.
Proof.
  intros Hok. unfold Middleware. destruct (Nat.eqb_spec (length (buckets r)) 0) as [E0|E0].
  - destruct (next r w) as [w1 a]. intros [= <- <- <-]. split; [done|]. left. by apply nil_length_inv.
  - unfold check_at. destruct (Check l None None now (buckets r) (Some m)) as [st [d|e]] eqn:Ec.
    + destruct (d_Allowed d) eqn:Ea.
      * destruct (next r w) as [w1 a]. intros [= <- <- <-]. split; [done|]. right. by exists d.
      * intros [= <- <- <-].
        pose proof (check_all_or_nothing l now (buckets r) m st (Ok d) Hok Ec) as H1. cbn beta iota zeta in H1.
        rewrite Ea in H1. destruct H1 as (_ & -> & _).
        split_and!; [done|done|by intros E; rewrite E in E0|done|]. right. exists d. split_and!; [done..|].
        intros Hm at_ m2 d2 Hat E2.
        exact (refusal_expires l now at_ _ m _ d m2 d2 Hok Ec Ea Hm (retry_nonneg _ _ _ _ _ _ Hok Ec) Hat E2).
    + intros [= <- <- <-].
      pose proof (check_all_or_nothing l now (buckets r) m st (Err e) Hok Ec) as H1. cbn beta iota zeta in H1. subst st.
      split_and!; [done|done|by intros E; rewrite E in E0|done|left]. eauto.
Qed.
End gate.

(** ** Witnesses *)

(** Addresses are their text; 10.x is the proxies' network. *)
Definition ex_net : NetIP := {| Addr := string; Prefix := string;
  ParseAddr s := if decide (s = "") then None else Some s; Unmap a := a; Addr_String a := a;
  Contains p a := String.prefix p a; SplitHostPort s := option_map fst (cut_byte ":" s) |}.

Lemma peer_key_unforgeable_witness :
  PeerKey (H := ex_net) ["10."] "10.0.0.1:443" ["1.1.1.1, 2.2.2.2,9.9.9.9, 10.0.0.2"] = "9.9.9.9" ∧
  PeerKey (H := ex_net) ["10."] "10.0.0.1:443" [] = "10.0.0.1".
Proof.
  split.
  - destruct (peer_key_unforgeable (H := ex_net) ["10."] "10.0.0.1:443"
      ["1.1.1.1, 2.2.2.2,9.9.9.9, 10.0.0.2"]) as [_ Ht].
    destruct (Ht eq_refl) as [_ Hs]. destruct Hs as [Hn _]; [cbn; lia|].
    apply (Hn ["1.1.1.1"; " 2.2.2.2"] "9.9.9.9" [" 10.0.0.2"]).
    + reflexivity.
    + constructor; [exists "10.0.0.2"; split; reflexivity|constructor].
    + intros (a & Ha & Hta). injection Ha as <-. discriminate Hta.
  - destruct (peer_key_unforgeable (H := ex_net) ["10."] "10.0.0.1:443" []) as [_ Ht].
    destruct (Ht eq_refl) as [_ Hs]. destruct Hs as [Hn _]; [cbn; lia|].
    apply (Hn [] "" []).
    + reflexivity.
    + constructor.
    + intros (a & Ha & _). discriminate Ha.
Defined.

(** A bucket of two, drawn on twice, and the state in between. *)
Definition drawn (m : Memory) : Memory :=
  match check_at ex_limiter ex_now [ex_bucket] (Some m) with (Some m, _) => m | _ => m end.
Definition full : Memory := mkMemory ∅.
Definition once : Memory := drawn full.
Definition spent : Memory := drawn once.
Definition passed : result Decision := Ok (mkDecision true 0).

Lemma first_draw : Check ex_limiter None None ex_now [ex_bucket] (Some full) = (Some once, passed).
Proof. vm_cast_no_check (eq_refl (Some once, passed)). Qed.
Lemma second_draw : Check ex_limiter None None ex_now [ex_bucket] (Some once) = (Some spent, passed).
Proof. vm_cast_no_check (eq_refl (Some spent, passed)). Qed.
Lemma full_ok : recs_ok (mem_records full).
Proof. intros k r Hr. unfold full in Hr. cbn [mem_records] in Hr. by rewrite lookup_empty in Hr. Qed.
Lemma spent_ok : recs_ok (mem_records spent).
Proof.
  exact (Check_recs_ok ex_limiter ex_now [ex_bucket] once spent _
    (Check_recs_ok ex_limiter ex_now [ex_bucket] full once _ full_ok first_draw) second_draw).
Qed.

Definition refused : option Memory * nat * gated unit := (Some spent, 0%nat, Refused 429 (Some "1") false).
Lemma middleware_gates_witness :
  Middleware (Some (check_at ex_limiter ex_now)) (Some (λ _ : unit, [ex_bucket])) false
    (λ _ w, (S w, tt)) tt (Some spent) 0%nat = refused ∧
  ∃ d, Some "1" = Some (Itoa (retry_seconds (d_RetryAfter d))) ∧
    check_at ex_limiter ex_now [ex_bucket] (Some spent) = (Some spent, Ok d).
Proof.
  assert (Middleware (Some (check_at ex_limiter ex_now)) (Some (λ _ : unit, [ex_bucket])) false
    (λ _ w, (S w, tt)) tt (Some spent) 0%nat = refused) as E by (vm_cast_no_check (eq_refl refused)).
  split; [exact E|].
  destruct (middleware_gates ex_limiter ex_now (λ _ : unit, [ex_bucket]) false (λ _ w, (S w, tt)) tt spent 0%nat
    _ _ _ spent_ok E) as (_ & _ & _ & _ & [[E3 _]|(d & _ & Hr & Hc & _)]); [discriminate E3|].
  exists d. exact (conj Hr Hc).
Defined.
