(* ===== verification/MdmAuth.v ===== *)
(** * Authenticating a session

    mdmprotocol/mdm/auth.go, basic.go and the parts of transport.go the engine
    calls: identities, credential verification, salted verifiers of basic
    credentials, the nonce key, and the TLS evidence a certificate must have. *)
From stdpp Require Import base gmap strings list.
From Stdlib Require Import ZArith Lia Ascii.
From S2P Require Import Prelude GoStrings SyncmlModel Encode SyncmlAuth GoCrypto.
From S2P Require Import StateStore.

Local Open Scope Z_scope.
Local Open Scope go_scope.

(** ** auth.go *)

(** [type AuthType string] *)
Definition AuthType := string.
Definition AuthCertificate : AuthType := "certificate".
Definition AuthDigest : AuthType := "md5".
Definition AuthBasicType : AuthType := "basic".

Record Identity := mkIdentity {
  id_DeviceID : string;
  id_EnrollmentKey : string;
  id_CertificateThumbprint : string;
  id_AuthType : AuthType;
  id_CredentialHash : string }.

(** What the engine reads of an x509.Certificate. *)
Record Certificate509 := mkCert { cert_Raw : string; cert_SerialNumber : option Z }.

(** [[][]*x509.Certificate]; a nil pointer is [None]. *)
Abbreviation Chains := (list (list (option Certificate509))).

(** [type Authenticator interface], over what the storage tier holds now. *)
Record Authenticator := mkAuthenticator {
  auth_Lookup : string → result Identity;
  auth_TrustCertificate : Identity → Chains → bool }.

Inductive authOutcome : Set := authTrusted | authChallenge | authRejected.

(** ** basic.go *)

Definition basicVerifierVersion : Z := 1.
Definition basicSaltSize : Z := 16.
Definition basicIterations : Z := 600000.
Definition basicVerifierSize : Z := 1 + basicSaltSize + 32.

Definition basic_key (username password salt : string) : string :=
  pbkdf2_Key (username +:+ ":" +:+ password) salt basicIterations.
(** Six hundred thousand iterations are not for the proof checker to run. *)
#[global] Opaque basic_key.

(** [rand] fills the salt; [None] is its failure. *)
Definition HashBasicCredential (rand : Z → option string) (username password : string)
    : result string :=
  if contains_byte ":" username then Err [mdm_ErrAuth]
  else match rand basicSaltSize with
  | None => Err [mdm_ErrAuth]
  | Some salt =>
      Ok (String (byte_of basicVerifierVersion) (salt +:+ basic_key username password salt))
  end.

Definition VerifyBasicCredential (verifier username password : string) : bool :=
  if negb (len verifier =? basicVerifierSize) then false
  else match verifier with
  | String v rest =>
      if negb (byte_val v =? basicVerifierVersion) || contains_byte ":" username then false
      else bool_decide (basic_key username password (stake (Z.to_nat basicSaltSize) rest) =
                        sdrop (Z.to_nat basicSaltSize) rest)
  | EmptyString => false
  end.

(** [verifyCredential]; both names AuthBasic exist, one per package. *)
Definition verifyCredential (id : Identity) (cred : option Cred) (nonce : string) : bool :=
  match cred with
  | None => false
  | Some cred =>
      if decide (id_AuthType id = AuthDigest) then
        if negb (bool_decide (Meta_Type (Cred_Meta cred) = AuthMD5)) || (len nonce =? 0) ||
           (len (id_CredentialHash id) =? 0)
        then false
        else VerifyMD5 (TrimSpace (Cred_Data cred)) (id_CredentialHash id) nonce
      else if decide (id_AuthType id = AuthBasicType) then
        if negb (bool_decide (Meta_Type (Cred_Meta cred) = AuthBasic)) then false
        else match ParseBasicCredential (Cred_Data cred) with
        | Err _ => false
        | Ok (u, p) => VerifyBasicCredential (id_CredentialHash id) u p
        end
      else false
  end.

(** [strings.Map] with the printable-or-underscore mapping, rune by rune. *)
Fixpoint map_printable (fuel : nat) (s : string) : string :=
  match fuel, s with
  | S fuel, String c _ =>
      let '(r, w) := decode_rune s in
      String (if (r <=? 32) || (126 <? r) then "_"%char else c) (map_printable fuel (sdrop w s))
  | _, _ => ""
  end.
Definition nonceKey (deviceID : string) : string :=
  "mdm/nonce/" +:+ map_printable (String.length deviceID) deviceID.

(** ** transport.go *)

Definition Mode := string.
Definition ModeMaintenance : Mode := "Maintenance".
Definition ModeMachine : Mode := "Machine".

Definition HeaderMSSignature : string := "MS-Signature".
Definition HeaderDeviceToken : string := "DeviceToken".
Definition HeaderGenericAlert : string := "MDM-GenericAlert".
Definition HeaderClientRequestID : string := "client-request-id".
Definition HeaderCorrelation : string := "MS-CV".
Definition HeaderUserAgentOrigin : string := "UserAgentOrigin".

Record Transport := mkTransport {
  t_Mode : Mode;
  t_Platform : string;
  t_UserAgent : string;
  t_BearerToken : string;
  t_DeviceToken : string;
  t_MSSignature : string;
  t_GenericAlerts : list string;
  t_ClientRequestID : string;
  t_CorrelationVector : string;
  t_UserAgentOrigin : string;
  t_ContentType : string;
  t_Certificates : list (option Certificate509);
  t_VerifiedChains : Chains }.

(** [c.Equal]: the DER encodings agree. *)
Definition cert_Equal (a b : Certificate509) : bool := bool_decide (cert_Raw a = cert_Raw b).

Definition verifiedPeerChains (t : option Transport) : Chains :=
  match t with
  | None => []
  | Some t =>
      match t_Certificates t with
      | Some leaf :: _ =>
          if len (cert_Raw leaf) =? 0 then []
          else List.filter (λ chain, match chain with
                                     | Some c :: _ => cert_Equal leaf c
                                     | _ => false
                                     end) (t_VerifiedChains t)
      | _ => []
      end
  end.

(** [strings.TrimSuffix(s, ">")] *)
Definition trim_gt (s : string) : string :=
  match srev s with
  | String c r => if Ascii.eqb c ">" then srev r else s
  | EmptyString => s
  end.

Definition ParseGenericAlerts (v : string) : list string :=
  List.filter nonempty
    (map (λ part, TrimSpace (trim_gt (TrimSpace part))) (split_byte "<" v)).

(** ** Lemmas *)

Lemma length_basic_key u p salt : String.length (basic_key u p salt) = 32%nat.
Proof. Transparent basic_key. unfold basic_key. apply length_pbkdf2. Qed.
#[global] Opaque basic_key.

Lemma map_printable_printable f s :
  str_forall printable (map_printable f s) = true ∧
  (String.length (map_printable f s) ≤ String.length s)%nat.
Proof.
  revert s. induction f as [|f IH]; intros s; [by destruct s; simpl; split; try lia|].
  destruct s as [|c s]; [done|]. cbn [map_printable].
  pose proof (decode_rune_cases c s) as Hd. destruct (decode_rune (String c s)) as [r w].
  destruct (IH (sdrop w (String c s))) as [H1 H2].
  assert (1 ≤ w)%nat as Hw by (destruct Hd as [(_ & _ & ->)|(_ & ? & _)]; [done|lia]).
  rewrite length_sdrop in H2. simpl str_forall. simpl String.length in *. split; [|lia].
  rewrite H1, andb_true_r. destruct ((r <=? 32) || (126 <? r)) eqn:E; [done|]. btrue.
  destruct Hd as [(-> & _ & _)|(_ & _ & ? & _)]; [|lia].
  unfold printable. apply andb_true_iff. split; apply Z.leb_le; lia.
Qed.

(** ** Properties *)

(** The state key of a device's nonce is valid for the state store for
    every device id of at most 245 bytes, whatever bytes it holds. *)
Theorem nonceKey_valid deviceID :
  len deviceID ≤ 245 → ValidKey (nonceKey deviceID) = true.
Proof.
  intros Hl. unfold ValidKey, nonceKey.
  destruct (map_printable_printable (String.length deviceID) deviceID) as [Hp Hlen].
  set (k := map_printable _ _) in *. rewrite len_app. change (len "mdm/nonce/") with 10.
  unfold len in *. destruct (Z.eqb_spec (10 + Z.of_nat (String.length k)) 0); [lia|].
  destruct (Z.ltb_spec 255 (10 + Z.of_nat (String.length k))); [lia|]. simpl.
  rewrite str_forall_app. apply andb_true_iff. split; [reflexivity|].
  clear -Hp. induction k as [|c k IH]; [done|]. simpl in *. btrue. rewrite IH by done.
  unfold printable in *. btrue.
  destruct (Z.ltb_spec (byte_val c) 33); [lia|]. destruct (Z.ltb_spec 126 (byte_val c)); [lia|].
  done.
Qed.

Lemma nonceKey_valid_witness : ValidKey (nonceKey "dév 1") = true.
Proof. apply nonceKey_valid. vm_compute. discriminate. Defined.

(** A salted verifier made for a user name and password accepts exactly
    that pair's derived key: the pair it was made from always verifies, a
    different key never does, and neither does any verifier of another length
    or version. *)
Theorem basic_verifier_roundtrip rand username password verifier :
  (∀ n b, rand n = Some b → len b = n) →
  HashBasicCredential rand username password = Ok verifier →
  VerifyBasicCredential verifier username password = true ∧
  (∀ u p, VerifyBasicCredential verifier u p = true →
   ∃ salt, rand basicSaltSize = Some salt ∧ contains_byte ":" u = false ∧
     basic_key u p salt = basic_key username password salt) ∧
  (∀ v u p, len v ≠ 49 ∨ HasPrefix v (String (byte_of 1) "") = false →
   VerifyBasicCredential v u p = false).
Proof.
  intros Hr. unfold HashBasicCredential.
  destruct (contains_byte ":" username) eqn:Hu; [done|].
  destruct (rand basicSaltSize) as [salt|] eqn:Hs; [|done]. intros [= <-].
  apply Hr in Hs as Hlen.
  assert (Z.to_nat basicSaltSize = String.length salt) as Hsz by (unfold len in Hlen; lia).
  unfold VerifyBasicCredential. rewrite Hsz, stake_app, sdrop_app.
  assert (len (String (byte_of basicVerifierVersion) (salt +:+ basic_key username password salt))
    = basicVerifierSize) as ->.
  { unfold len in *. simpl String.length. rewrite str_length_app, length_basic_key.
    unfold basicVerifierSize. lia. }
  split_and!.
  - rewrite Hu. simpl. exact (bool_decide_eq_true_2 _ eq_refl).
  - intros u p. simpl. destruct (contains_byte ":" u); [discriminate|]. simpl. intros E. btrue.
    exists salt. split; [reflexivity|]. split; [reflexivity|exact E].
  - intros v u p Hv. destruct (Z.eqb_spec (len v) basicVerifierSize) as [E|]; [|done]. simpl.
    destruct v as [|c v]; [done|]. destruct Hv as [Hv|Hv]; [done|].
    destruct (Z.eqb_spec (byte_val c) basicVerifierVersion) as [Ec|]; [|done].
    replace c with (byte_of 1) in Hv by (rewrite <- (byte_of_val c); by rewrite Ec).
    unfold HasPrefix in Hv. by destruct v.
Qed.

Lemma basic_verifier_roundtrip_witness :
  let rand := λ n, Some (str_repeat (Z.to_nat n) "s") in
  VerifyBasicCredential
    (String (byte_of 1) (str_repeat 16 "s" +:+ basic_key "bob" "pw" (str_repeat 16 "s"))) "bob" "pw"
  = true.
Proof.
  apply (basic_verifier_roundtrip (λ n, if n =? 16 then Some (str_repeat 16 "s") else None)).
  - intros n b. destruct (Z.eqb_spec n 16); [|discriminate]. intros H. injection H as <-.
    subst. reflexivity.
  - reflexivity.
Defined.

(** Certificate evidence counts only for the certificate that
    authenticated the connection: a chain reaches the trust policy exactly
    when it is one of the listener's verified chains and its leaf has the
    peer's encoding; with no peer certificate, or an empty one, none does. *)
Theorem verified_peer_chains_leaf t chain :
  chain ∈ verifiedPeerChains t ↔
  ∃ tr leaf others c rest,
    t = Some tr ∧ t_Certificates tr = Some leaf :: others ∧ cert_Raw leaf ≠ "" ∧
    chain ∈ t_VerifiedChains tr ∧ chain = Some c :: rest ∧ cert_Raw c = cert_Raw leaf.
Proof.
  unfold verifiedPeerChains. destruct t as [tr|].
  2: { split; [by intros ?%not_elem_of_nil|]. by intros (? & ? & ? & ? & ? & [=] & _). }
  split.
  - destruct (t_Certificates tr) as [|[leaf|] others] eqn:Ec; [by intros ?%not_elem_of_nil| |
      by intros ?%not_elem_of_nil].
    destruct (Z.eqb_spec (len (cert_Raw leaf)) 0) as [|Hne]; [by intros ?%not_elem_of_nil|].
    rewrite list_elem_of_In, filter_In, <- list_elem_of_In. intros [Hin Hm].
    destruct chain as [|[c|] rest]; try done. unfold cert_Equal in Hm. btrue.
    exists tr, leaf, others, c, rest. split_and!; try done. intros E. by rewrite E in Hne.
  - intros (tr' & leaf & others & c & rest & [= <-] & -> & Hne & Hin & -> & Hraw).
    destruct (Z.eqb_spec (len (cert_Raw leaf)) 0) as [Hz|]; [by apply len_0 in Hz|].
    rewrite list_elem_of_In, filter_In, <- list_elem_of_In. split; [done|].
    unfold cert_Equal. by apply bool_decide_eq_true.
Qed.
