(* ===== verification/EnrollTypes.v ===== *)
(** * The enrollment protocol: constants, versions and the enrollment context

    mdmprotocol/enroll/constants.go, version.go and the types of rst.go that
    the storage layer shares. *)
From stdpp Require Import base gmap strings list.
From Stdlib Require Import ZArith Lia Ascii.
From S2P Require Import Prelude GoStrings.

Local Open Scope Z_scope.

(** ** constants.go *)

Definition DiscoveryPath : string := "/EnrollmentServer/Discovery.svc".
Definition NamespaceDiscovery : string :=
  "http://schemas.microsoft.com/windows/management/2012/01/enrollment".
Definition NamespacePolicy : string :=
  "http://schemas.microsoft.com/windows/pki/2009/01/enrollmentpolicy".

Definition ActionDiscover : string :=
  "http://schemas.microsoft.com/windows/management/2012/01/enrollment/IDiscoveryService/Discover".
Definition ActionDiscoverResponse : string :=
  "http://schemas.microsoft.com/windows/management/2012/01/enrollment/IDiscoveryService/DiscoverResponse".
Definition ActionGetPolicies : string :=
  "http://schemas.microsoft.com/windows/pki/2009/01/enrollmentpolicy/IPolicy/GetPolicies".
Definition ActionGetPoliciesResponse : string :=
  "http://schemas.microsoft.com/windows/pki/2009/01/enrollmentpolicy/IPolicy/GetPoliciesResponse".
Definition ActionRST : string :=
  "http://schemas.microsoft.com/windows/pki/2009/01/enrollment/RST/wstep".
Definition ActionRSTRC : string :=
  "http://schemas.microsoft.com/windows/pki/2009/01/enrollment/RSTRC/wstep".

Definition TokenTypeDeviceEnrollment : string :=
  "http://schemas.microsoft.com/5.0.0.0/ConfigurationManager/Enrollment/DeviceEnrollmentToken".
Definition RequestTypeIssue : string := "http://docs.oasis-open.org/ws-sx/ws-trust/200512/Issue".
Definition RequestTypeRenew : string := "http://docs.oasis-open.org/ws-sx/ws-trust/200512/Renew".
Definition ValueTypePKCS10 : string :=
  "http://schemas.microsoft.com/windows/pki/2009/01/enrollment#PKCS10".
Definition ValueTypePKCS7 : string :=
  "http://schemas.microsoft.com/windows/pki/2009/01/enrollment#PKCS7".
Definition ValueTypeProvisionDoc : string :=
  "http://schemas.microsoft.com/5.0.0.0/ConfigurationManager/Enrollment/DeviceEnrollmentProvisionDoc".

Definition AuthPolicy := string.
Definition AuthPolicyOnPremise : AuthPolicy := "OnPremise".
Definition AuthPolicyFederated : AuthPolicy := "Federated".
Definition AuthPolicyCertificate : AuthPolicy := "Certificate".
Definition AuthPolicy_Valid (p : AuthPolicy) : bool :=
  bool_decide (p ∈ [AuthPolicyOnPremise; AuthPolicyFederated; AuthPolicyCertificate]).

Definition DeviceType := string.
Definition DeviceTypeWindows : DeviceType := "CIMClient_Windows".
Definition DeviceTypeWindowsPhone : DeviceType := "WindowsPhone".
Definition DeviceTypeWindowsHandheld : DeviceType := "WindowsHandheld".

Definition EnrollmentType := string.
Definition EnrollmentTypeFull : EnrollmentType := "Full".
Definition EnrollmentTypeDevice : EnrollmentType := "Device".
Definition EnrollmentType_Valid (e : EnrollmentType) : bool :=
  bool_decide (e = EnrollmentTypeFull) || bool_decide (e = EnrollmentTypeDevice).

Definition MinRequestVersion : Z := 1.
Definition MaxRequestVersion : Z := 9.
Definition MinEnrollmentVersion : Z := 3.
Definition DefaultEnrollmentVersion : string := "3.0".

(** ** version.go *)

Definition ParseVersion (s : string) : result Z :=
  match cut_byte "." (TrimSpace s) with
  | Some (major, frac) =>
      if decide (frac = "0") then
        match Atoi major with
        | Some n => if (n <? MinRequestVersion) || (MaxRequestVersion <? n) then Err [enroll_ErrVersion]
                    else Ok n
        | None => Err [enroll_ErrVersion]
        end
      else Err [enroll_ErrVersion]
  | None => Err [enroll_ErrVersion]
  end.

Definition FormatVersion (n : Z) : string := Itoa n +:+ ".0".

(** ** The types of rst.go *)

Record ContextItem := mkContextItem { ci_Name : string; ci_Value : string }.

Record AdditionalContext := mkAdditionalContext {
  ac_OSEdition : string;
  ac_OSVersion : string;
  ac_DeviceName : string;
  ac_EnrollmentType : EnrollmentType;
  ac_DeviceType : string;
  ac_ApplicationVersion : string;
  ac_DeviceID : string;
  ac_EnrollmentData : string;
  ac_MAC : list string;
  ac_IMEI : list string;
  ac_TargetedUserLoggedIn : bool;
  ac_Locale : string;
  ac_HWDevID : string;
  ac_BulkAADJ : bool;
  ac_ZeroTouchProvisioning : string;
  ac_OfflineAutoPilotEnrollmentCorrelator : string;
  ac_UXInitiated : bool;
  ac_ExternalMgmtAgentHint : string;
  ac_DomainName : string;
  ac_BootstrapDomainJoin : bool;
  ac_PlugandForget : bool;
  ac_WhiteGlove : bool;
  ac_WhiteGloveHybridJoin : bool;
  ac_NotInOobe : bool;
  ac_AIKAttestationClaim : string;
  ac_AIKPub : string;
  ac_AIKCert : string;
  ac_AadAIKAttestationClaim : string;
  ac_AADPub : string;
  ac_EmmDeviceID : string;
  ac_RequestVersion : string;
  ac_AzureAttestationBlob : string;
  ac_AttestationStatus : string;
  ac_AttestationStatusHResult : string;
  ac_AzureAttestationCorrelationVector : string;
  ac_AIKAlgorithm : string;
  ac_Unknown : list ContextItem;
  ac_Items : list ContextItem }.

(** ** Versions *)

(** The versions of the protocol round trip. *)
Lemma parse_format_version n :
  MinRequestVersion ≤ n ≤ MaxRequestVersion → ParseVersion (FormatVersion n) = Ok n.
Proof.
  unfold MinRequestVersion, MaxRequestVersion. intros Hn.
  assert (n ∈ [1; 2; 3; 4; 5; 6; 7; 8; 9]) as Hin.
  { rewrite !elem_of_cons. lia. }
  repeat (apply elem_of_cons in Hin as [->|Hin]; [by vm_compute|]). by apply elem_of_nil in Hin.
Qed.

Lemma parse_version_range s n : ParseVersion s = Ok n → MinRequestVersion ≤ n ≤ MaxRequestVersion.
Proof.
  unfold ParseVersion. destruct (cut_byte "." (TrimSpace s)) as [[major frac]|]; [|done].
  case_decide; [|done]. destruct (Atoi major) as [k|]; [|done].
  destruct (k <? MinRequestVersion) eqn:E1; [done|]. destruct (MaxRequestVersion <? k) eqn:E2; [done|].
  intros [= <-]. apply Z.ltb_ge in E1, E2. lia.
Qed.
