(* ===== verification/Storage.v ===== *)
(** * Enrollment storage

    storage/storage.go, storage/inmem/inmem.go and credential.go (the
    in-memory Store), storage/mdmauth.go (the engine's Authenticator over it)
    and storage/recorder.go.  Methods run under the store's mutex and are
    atomic.  Records are copied on the way in and out. *)
From stdpp Require Import base gmap strings list sorting.
From Stdlib Require Import ZArith Lia Ascii.
From S2P Require Import Prelude GoStrings SyncmlAuth GoCrypto Paging StateStore.
From S2P Require Import MdmAuth EnrollTypes.

Local Open Scope Z_scope.
Local Open Scope go_scope.

(** ** storage.go *)

(** [type State string] *)
Definition EState := string.
Definition StateActive : EState := "active".
Definition StateSuperseded : EState := "superseded".
Definition StateUnenrolled : EState := "unenrolled".
Definition EState_Valid (s : EState) : bool :=
  bool_decide (s = StateActive) || bool_decide (s = StateSuperseded) ||
  bool_decide (s = StateUnenrolled).

Record Enrollment := mkEnrollment {
  e_Serial : string;
  e_Thumbprint : string;
  e_DeviceID : string;
  e_HWDevID : string;
  e_EnrollmentType : EnrollmentType;
  e_UPN : string;
  e_Context : AdditionalContext;
  e_State : EState;
  e_EnrolledAt : Time;
  e_UpdatedAt : Time;
  e_LastSeenAt : Time }.

Definition Enrollment_Validate (e : option Enrollment) : result unit :=
  match e with
  | None => Err []
  | Some e =>
      if decide (e_Serial e = "") then Err []
      else if decide (e_Thumbprint e = "") then Err []
      else if decide (e_DeviceID e = "") then Err []
      else if negb (EnrollmentType_Valid (e_EnrollmentType e)) then Err []
      else if time_IsZero (e_EnrolledAt e) then Err []
      else Ok tt
  end.

Record EnrollmentQuery := mkEnrollmentQuery {
  eq_State : EState; eq_EnrollmentType : EnrollmentType; eq_UPN : string; eq_DeviceID : string }.

Record Certificate := mkCertificate {
  c_Serial : string;
  c_Thumbprint : string;
  c_Subject : string;
  c_DeviceID : string;
  c_NotBefore : Time;
  c_NotAfter : Time;
  c_Raw : string;
  c_Revoked : bool;
  c_RevokedAt : Time }.

Definition Certificate_Validate (c : option Certificate) : result unit :=
  match c with
  | None => Err []
  | Some c =>
      if decide (c_Serial c = "") then Err []
      else if decide (c_Thumbprint c = "") then Err []
      else if len (c_Raw c) =? 0 then Err []
      else if time_IsZero (c_NotBefore c) || time_IsZero (c_NotAfter c) ||
              negb (time_After (c_NotAfter c) (c_NotBefore c)) then Err []
      else Ok tt
  end.

Record CertificateQuery := mkCertificateQuery {
  cq_DeviceID : string; cq_Revoked : option bool; cq_ExpiresBefore : Time }.

(** [type MDMCredential struct] *)
Record MDMCredential := mkMDMCredential {
  mc_DeviceID : string; mc_AuthType : AuthType; mc_CredentialHash : string }.

(** ** The in-memory Store *)

Record Store := mkStore {
  st_enrollments : gmap string Enrollment;
  st_active : gmap string string;
  st_byThumb : gmap string string;
  st_certs : gmap string Certificate;
  st_certThumb : gmap string string;
  st_creds : gmap string MDMCredential }.

Definition New : Store := mkStore ∅ ∅ ∅ ∅ ∅ ∅.

(** Assignments through a stored pointer. *)
Definition set_estate (s : EState) (at_ : Time) (e : Enrollment) : Enrollment :=
  mkEnrollment (e_Serial e) (e_Thumbprint e) (e_DeviceID e) (e_HWDevID e) (e_EnrollmentType e)
    (e_UPN e) (e_Context e) s (e_EnrolledAt e) at_ (e_LastSeenAt e).
Definition set_LastSeenAt (at_ : Time) (e : Enrollment) : Enrollment :=
  mkEnrollment (e_Serial e) (e_Thumbprint e) (e_DeviceID e) (e_HWDevID e) (e_EnrollmentType e)
    (e_UPN e) (e_Context e) (e_State e) (e_EnrolledAt e) (e_UpdatedAt e) at_.
Definition set_revoked (at_ : Time) (c : Certificate) : Certificate :=
  mkCertificate (c_Serial c) (c_Thumbprint c) (c_Subject c) (c_DeviceID c) (c_NotBefore c)
    (c_NotAfter c) (c_Raw c) true at_.

(** An enrollment another one takes over from; the invariant keeps the
    pointer of an active serial non-nil. *)
Definition supersede (prev : option string) (at_ : Time) (es : gmap string Enrollment)
    : gmap string Enrollment :=
  match prev with
  | Some prev => alter (set_estate StateSuperseded at_) prev es
  | None => es
  end.

Definition Create (e : option Enrollment) : M Store unit := λ s,
  match Enrollment_Validate e, e with
  | Err err, _ => (s, Err (storage_ErrInvalid :: err))
  | Ok _, None => (s, Ok tt)
  | Ok _, Some e =>
      match st_enrollments s !! e_Serial e with
      | Some _ => (s, Err [storage_ErrConflict])
      | None =>
          match st_byThumb s !! e_Thumbprint e with
          | Some _ => (s, Err [storage_ErrConflict])
          | None =>
              let rec := set_estate StateActive (e_EnrolledAt e) e in
              let es := supersede (st_active s !! e_DeviceID e) (e_EnrolledAt e)
                          (st_enrollments s) in
              (mkStore (<[e_Serial e := rec]> es)
                 (<[e_DeviceID e := e_Serial e]> (st_active s))
                 (<[e_Thumbprint e := e_Serial e]> (st_byThumb s))
                 (st_certs s) (st_certThumb s) (st_creds s), Ok tt)
          end
      end
  end.

(** A pointer the maps lead to; [None] would be a nil dereference. *)
Definition deref {A} (m : gmap string A) (k : string) : result A :=
  match m !! k with Some a => Ok a | None => Err [] end.

Definition Get (deviceID : string) (s : Store) : result Enrollment :=
  match st_active s !! deviceID with
  | None => Err [storage_ErrNotFound]
  | Some serial => deref (st_enrollments s) serial
  end.

Definition GetBySerial (serial : string) (s : Store) : result Enrollment :=
  match st_enrollments s !! serial with
  | None => Err [storage_ErrNotFound]
  | Some e => Ok e
  end.

Definition GetByThumbprint (thumbprint : string) (s : Store) : result Enrollment :=
  match st_byThumb s !! thumbprint with
  | None => Err [storage_ErrNotFound]
  | Some serial => deref (st_enrollments s) serial
  end.

(** [sortEnrollments]: by EnrolledAt, then Serial. *)
Definition enr_le (a b : Enrollment) : Prop :=
  e_EnrolledAt a < e_EnrolledAt b ∨
  (e_EnrolledAt a = e_EnrolledAt b ∧ str_le (e_Serial a) (e_Serial b)).
#[global] Instance enr_le_dec a b : Decision (enr_le a b).
Proof. unfold enr_le. apply _. Defined.

Definition sortEnrollments (es : list Enrollment) : list Enrollment := merge_sort enr_le es.

Definition ListByHWDevID (hwDevID : string) (s : Store) : result (list Enrollment) :=
  if decide (hwDevID = "") then Err [storage_ErrInvalid]
  else Ok (sortEnrollments (List.filter (λ e, bool_decide (e_HWDevID e = hwDevID))
         (map_to_list (st_enrollments s)).*2)).

Definition SetState (serial : string) (state : EState) (at_ : Time) : M Store unit := λ s,
  if negb (EState_Valid state) then (s, Err [storage_ErrInvalid])
  else match st_enrollments s !! serial with
  | None => (s, Err [storage_ErrNotFound])
  | Some e =>
      let es := <[serial := set_estate state (time_UTC at_) e]> (st_enrollments s) in
      let dev := e_DeviceID e in
      let act := if decide (state ≠ StateActive ∧ st_active s !! dev = Some serial)
                 then delete dev (st_active s) else st_active s in
      if decide (state = StateActive) then
        let es := match act !! dev with
                  | Some prev => if decide (prev ≠ serial)
                                 then supersede (Some prev) (time_UTC at_) es else es
                  | None => es
                  end in
        (mkStore es (<[dev := serial]> act) (st_byThumb s) (st_certs s) (st_certThumb s)
           (st_creds s), Ok tt)
      else (mkStore es act (st_byThumb s) (st_certs s) (st_certThumb s) (st_creds s), Ok tt)
  end.

Definition TouchLastSeen (serial : string) (at_ : Time) : M Store unit := λ s,
  match st_enrollments s !! serial with
  | None => (s, Err [storage_ErrNotFound])
  | Some e =>
      if time_After at_ (e_LastSeenAt e)
      then (mkStore (<[serial := set_LastSeenAt (time_UTC at_) e]> (st_enrollments s))
              (st_active s) (st_byThumb s) (st_certs s) (st_certThumb s) (st_creds s), Ok tt)
      else (s, Ok tt)
  end.

Definition enr_matches (q : EnrollmentQuery) (e : Enrollment) : bool :=
  (bool_decide (eq_State q = "") || bool_decide (e_State e = eq_State q)) &&
  (bool_decide (eq_EnrollmentType q = "") ||
   bool_decide (e_EnrollmentType e = eq_EnrollmentType q)) &&
  (bool_decide (eq_UPN q = "") || bool_decide (e_UPN e = eq_UPN q)) &&
  (bool_decide (eq_DeviceID q = "") || bool_decide (e_DeviceID e = eq_DeviceID q)).

Definition ListEnrollments (q : EnrollmentQuery) (p : Page) (s : Store) : result (PageResult Enrollment) :=
  page (sortEnrollments (List.filter (enr_matches q) (map_to_list (st_enrollments s)).*2)) p.

Definition PutCertificate (c : option Certificate) : M Store unit := λ s,
  match Certificate_Validate c, c with
  | Err err, _ => (s, Err (storage_ErrInvalid :: err))
  | Ok _, None => (s, Ok tt)
  | Ok _, Some c =>
      match st_certs s !! c_Serial c with
      | Some _ => (s, Err [storage_ErrConflict])
      | None =>
          match st_certThumb s !! c_Thumbprint c with
          | Some _ => (s, Err [storage_ErrConflict])
          | None =>
              (mkStore (st_enrollments s) (st_active s) (st_byThumb s)
                 (<[c_Serial c := c]> (st_certs s))
                 (<[c_Thumbprint c := c_Serial c]> (st_certThumb s)) (st_creds s), Ok tt)
          end
      end
  end.

Definition GetCertificate (serial : string) (s : Store) : result Certificate :=
  match st_certs s !! serial with
  | None => Err [storage_ErrNotFound]
  | Some c => Ok c
  end.

Definition CertificateByThumbprint (thumbprint : string) (s : Store) : result Certificate :=
  match st_certThumb s !! thumbprint with
  | None => Err [storage_ErrNotFound]
  | Some serial => deref (st_certs s) serial
  end.

Definition Revoke (serial : string) (at_ : Time) : M Store unit := λ s,
  match st_certs s !! serial with
  | None => (s, Err [storage_ErrNotFound])
  | Some c =>
      if c_Revoked c then (s, Ok tt)
      else (mkStore (st_enrollments s) (st_active s) (st_byThumb s)
              (<[serial := set_revoked (time_UTC at_) c]> (st_certs s)) (st_certThumb s)
              (st_creds s), Ok tt)
  end.

Definition cert_le (a b : Certificate) : Prop :=
  c_NotBefore a < c_NotBefore b ∨
  (c_NotBefore a = c_NotBefore b ∧ str_le (c_Serial a) (c_Serial b)).
#[global] Instance cert_le_dec a b : Decision (cert_le a b).
Proof. unfold cert_le. apply _. Defined.

Definition cert_matches (q : CertificateQuery) (c : Certificate) : bool :=
  (bool_decide (cq_DeviceID q = "") || bool_decide (c_DeviceID c = cq_DeviceID q)) &&
  match cq_Revoked q with Some r => Bool.eqb (c_Revoked c) r | None => true end &&
  (time_IsZero (cq_ExpiresBefore q) || time_Before (c_NotAfter c) (cq_ExpiresBefore q)).

Definition ListCertificates (q : CertificateQuery) (p : Page) (s : Store)
    : result (PageResult Certificate) :=
  page (merge_sort cert_le (List.filter (cert_matches q) (map_to_list (st_certs s)).*2)) p.

(** *** credential.go *)

Definition PutMDMCredential (c : MDMCredential) : M Store unit := λ s,
  if decide (mc_DeviceID c = "") then (s, Err [storage_ErrInvalid])
  else (mkStore (st_enrollments s) (st_active s) (st_byThumb s) (st_certs s) (st_certThumb s)
          (<[mc_DeviceID c := c]> (st_creds s)), Ok tt).

Definition GetMDMCredential (deviceID : string) (s : Store) : result MDMCredential :=
  match st_creds s !! deviceID with
  | None => Err [storage_ErrNotFound]
  | Some c => Ok c
  end.

(** ** mdmauth.go *)

(** [wapprov.Thumbprint] *)
Definition Thumbprint (der : string) : string := ToUpper (hex_encode (sha1_Sum der)).

(** [type MDMAuthenticator struct]: whether it has a credential store, and the
    policy that replaces the enrollment binding. *)
Record MDMAuthenticator := mkMDMAuthenticator {
  ma_Credentials : bool;
  ma_TrustCert : option (Identity → Chains → bool) }.

Definition Lookup (a : MDMAuthenticator) (s : Store) (deviceID : string) : result Identity :=
  match Get deviceID s with
  | Err e => if errors_Is e storage_ErrNotFound then Err [mdm_ErrUnenrolled] else Err e
  | Ok e =>
      let id ty hash := mkIdentity (e_DeviceID e) (e_Serial e) (e_Thumbprint e) ty hash in
      if ma_Credentials a then
        match GetMDMCredential deviceID s with
        | Ok c => Ok (id (mc_AuthType c) (mc_CredentialHash c))
        | Err err => if errors_Is err storage_ErrNotFound then Ok (id AuthCertificate "") else Err err
        end
      else Ok (id AuthCertificate "")
  end.

(** [SerialNumber.String()] *)
Definition serial_String (n : option Z) : string :=
  match n with Some n => Itoa n | None => "<nil>" end.

Definition TrustCertificate (a : MDMAuthenticator) (id : Identity) (chains : Chains) : bool :=
  if decide (chains = []) then false
  else match ma_TrustCert a with
  | Some f => f id chains
  | None =>
      if decide (id_EnrollmentKey id = "" ∨ id_CertificateThumbprint id = "") then false
      else existsb (λ chain, match chain with
        | Some c :: _ =>
            bool_decide (is_Some (cert_SerialNumber c)) && (0 <? len (cert_Raw c)) &&
            bool_decide (serial_String (cert_SerialNumber c) = id_EnrollmentKey id) &&
            bool_decide (Thumbprint (cert_Raw c) = id_CertificateThumbprint id)
        | _ => false
        end) chains
  end.

(** The engine's authenticator over the store as it is now. *)
Definition authenticator (a : MDMAuthenticator) (s : Store) : Authenticator :=
  mkAuthenticator (Lookup a s) (TrustCertificate a).

(** ** recorder.go *)

Record Conflict := mkConflict {
  cf_HWDevID : string; cf_Existing : list Enrollment; cf_New : Enrollment }.

(** What Record reads of an enroll.Enrollment. *)
Record IssuedEnrollment := mkIssued {
  ie_Certificate : Certificate509;
  ie_Subject : string;
  ie_NotBefore : Time;
  ie_NotAfter : Time;
  ie_Context : AdditionalContext;
  ie_UPN : string;
  ie_EnrolledAt : Time }.

Definition record_enrollment (e : IssuedEnrollment) : Enrollment :=
  let cert := ie_Certificate e in
  mkEnrollment (serial_String (cert_SerialNumber cert)) (Thumbprint (cert_Raw cert))
    (ac_DeviceID (ie_Context e)) (ac_HWDevID (ie_Context e)) (ac_EnrollmentType (ie_Context e))
    (ie_UPN e) (ie_Context e) "" (ie_EnrolledAt e) 0 0.

Definition record_certificate (e : IssuedEnrollment) : Certificate :=
  let rec := record_enrollment e in
  mkCertificate (e_Serial rec) (e_Thumbprint rec) (ie_Subject e) (e_DeviceID rec)
    (ie_NotBefore e) (ie_NotAfter e) (cert_Raw (ie_Certificate e)) false 0.

(** [Record]; a nil enrollment, certificate or request is [None], and so is a
    nil conflict sink. *)
Definition Recorder_Record (sink : option (Conflict → result unit)) (e : option IssuedEnrollment)
    : M Store unit :=
  match e with
  | None => throw [storage_ErrInvalid]
  | Some e =>
      let rec := record_enrollment e in
      PutCertificate (Some (record_certificate e)) ;!
      let! existing :=
        if decide (e_HWDevID rec = "") then ret []
        else let! all := λ s, (s, ListByHWDevID (e_HWDevID rec) s) in
             ret (List.filter (λ prev, negb (bool_decide (e_DeviceID prev = e_DeviceID rec))) all) in
      Create (Some rec) ;!
      match sink with
      | Some sink => if decide (existing = []) then ret tt
                     else lift (sink (mkConflict (e_HWDevID rec) existing rec))
      | None => ret tt
      end
  end.

Definition Unenroll (serial : string) (at_ : Time) : M Store unit :=
  SetState serial StateUnenrolled at_ ;! Revoke serial at_.

(** ** Lemmas *)

#[local] Arguments Enrollment_Validate : simpl never.
#[local] Arguments Certificate_Validate : simpl never.

(** What every operation keeps: records are stored under their own serial,
    thumbprints index them exactly, and the active map leads to exactly the
    enrollments in the active state, so a device has at most one. *)
Record store_inv (s : Store) : Prop := {
  inv_serial : ∀ k e, st_enrollments s !! k = Some e →
    e_Serial e = k ∧ Enrollment_Validate (Some e) = Ok tt ∧ EState_Valid (e_State e) = true ∧
    st_byThumb s !! e_Thumbprint e = Some k;
  inv_active : ∀ d k, st_active s !! d = Some k ↔
    ∃ e, st_enrollments s !! k = Some e ∧ e_DeviceID e = d ∧ e_State e = StateActive;
  inv_thumb : ∀ th k, st_byThumb s !! th = Some k →
    ∃ e, st_enrollments s !! k = Some e ∧ e_Thumbprint e = th;
  inv_certs : ∀ k c, st_certs s !! k = Some c →
    c_Serial c = k ∧ Certificate_Validate (Some c) = Ok tt ∧ st_certThumb s !! c_Thumbprint c = Some k;
  inv_certThumb : ∀ th k, st_certThumb s !! th = Some k →
    ∃ c, st_certs s !! k = Some c ∧ c_Thumbprint c = th }.

Lemma New_inv : store_inv New.
Proof.
  split; unfold New; cbn; intros *; rewrite ?lookup_empty; try done. split; [done|].
  by intros (e & He & _).
Qed.

(** A change of state, time stamps aside, leaves the rest of a record. *)
Lemma set_estate_frame st at_ e :
  let e' := set_estate st at_ e in
  e_Serial e' = e_Serial e ∧ e_Thumbprint e' = e_Thumbprint e ∧ e_DeviceID e' = e_DeviceID e ∧
  e_HWDevID e' = e_HWDevID e ∧ e_EnrolledAt e' = e_EnrolledAt e ∧
  Enrollment_Validate (Some e') = Enrollment_Validate (Some e) ∧ e_State e' = st.
Proof. done. Qed.

(** The enrollments after the active one of a device is superseded. *)
Lemma lookup_supersede prev at_ es k :
  supersede prev at_ es !! k =
  if decide (prev = Some k) then set_estate StateSuperseded at_ <$> es !! k else es !! k.
Proof.
  destruct prev as [p|]; [|done]. cbn [supersede]. case_decide as Hd.
  - injection Hd as ->. apply lookup_alter_eq.
  - apply lookup_alter_ne. congruence.
Qed.

Lemma Create_inv e s s' r : store_inv s → Create e s = (s', r) → store_inv s'.
Proof.
  intros Hi. unfold Create. destruct (Enrollment_Validate e) as [[]|] eqn:Ev; [|by intros [= <- _]].
  destruct e as [e|]; [|by intros [= <- _]].
  destruct (st_enrollments s !! e_Serial e) eqn:Es; [by intros [= <- _]|].
  destruct (st_byThumb s !! e_Thumbprint e) eqn:Et; [by intros [= <- _]|].
  intros [= <- _]. destruct Hi as [Is Ia It Ic Ict]. split; cbn; try done.
  - intros k e'. rewrite lookup_insert_Some, lookup_supersede.
    intros [[<- <-]|[Hne He']].
    { split_and!; try done. by rewrite lookup_insert_eq. }
    assert (∃ e0, st_enrollments s !! k = Some e0 ∧ e_Serial e' = e_Serial e0 ∧
      e_Thumbprint e' = e_Thumbprint e0 ∧ EState_Valid (e_State e') = true ∧
      Enrollment_Validate (Some e') = Ok tt) as (e0 & He0 & -> & -> & Hst & Hv).
    { case_decide.
      - destruct (st_enrollments s !! k) as [e0|] eqn:E0; [|done]. injection He' as <-.
        exists e0. destruct (Is _ _ E0) as (_ & ? & _). done.
      - exists e'. destruct (Is _ _ He') as (_ & ? & ? & _). done. }
    destruct (Is _ _ He0) as (-> & _ & _ & Hth). split_and!; try done.
    rewrite lookup_insert_ne; [done|]. congruence.
  - intros d k. rewrite lookup_insert_Some. split.
    + intros [[<- <-]|[Hne Hk]].
      * eexists. rewrite lookup_insert_eq. done.
      * apply Ia in Hk as (e0 & He0 & Hd & Hst). exists e0.
        rewrite lookup_insert_ne by congruence. rewrite lookup_supersede, decide_False; [done|].
        intros Hp%Ia. destruct Hp as (e1 & He1 & Hd1 & _). congruence.
    + intros (e0 & He0 & Hd & Hst). apply lookup_insert_Some in He0 as [[<- <-]|[Hne He0]].
      { by left. }
      rewrite lookup_supersede in He0. case_decide as Hp.
      { destruct (st_enrollments s !! k); [|done]. injection He0 as <-. done. }
      right. split; [|by apply Ia; eauto]. intros <-. apply Hp. apply Ia. eauto.
  - intros th k. rewrite lookup_insert_Some. intros [[<- <-]|[Hne Hk]].
    + eexists. rewrite lookup_insert_eq. done.
    + apply It in Hk as (e0 & He0 & Hth). rewrite lookup_insert_ne by congruence.
      rewrite lookup_supersede, He0. case_decide; simpl; eauto.
Qed.

(** Records that agree on everything but state and time stamps. *)
Definition same_record (e' e : Enrollment) : Prop :=
  e_Serial e' = e_Serial e ∧ e_Thumbprint e' = e_Thumbprint e ∧ e_DeviceID e' = e_DeviceID e ∧
  Enrollment_Validate (Some e') = Enrollment_Validate (Some e).

Lemma inv_restate s es act :
  store_inv s →
  (∀ k e', es !! k = Some e' → ∃ e, st_enrollments s !! k = Some e ∧ same_record e' e ∧
     EState_Valid (e_State e') = true) →
  (∀ k e, st_enrollments s !! k = Some e → ∃ e', es !! k = Some e' ∧ same_record e' e) →
  (∀ d k, act !! d = Some k ↔
     ∃ e, es !! k = Some e ∧ e_DeviceID e = d ∧ e_State e = StateActive) →
  store_inv (mkStore es act (st_byThumb s) (st_certs s) (st_certThumb s) (st_creds s)).
Proof.
  intros [Is Ia It Ic Ict] Hb Hf Hact. split; cbn; try done.
  - intros k e' (e & He & (-> & -> & _ & ->) & Hst)%Hb. destruct (Is _ _ He) as (? & ? & _ & ?).
    done.
  - intros th k (e & He & <-)%It. destruct (Hf _ _ He) as (e' & He' & _ & ? & _). eauto.
Qed.

(** Setting a record's state, in the two cases of [SetState]. *)
Section set_state.
Context (serial : string) (at_ : Time) (s : Store) (e : Enrollment).
Context (Hi : store_inv s) (Ee : st_enrollments s !! serial = Some e).

Lemma lookup_restated st k :
  <[serial := set_estate st at_ e]> (st_enrollments s) !! k =
  if decide (k = serial) then Some (set_estate st at_ e) else st_enrollments s !! k.
Proof.
  destruct (decide (k = serial)) as [->|];
    [by rewrite lookup_insert_eq|by rewrite lookup_insert_ne].
Qed.

Lemma activate_inv es :
  (∀ k, es !! k =
    if decide (k = serial) then Some (set_estate StateActive at_ e)
    else if decide (st_active s !! e_DeviceID e = Some k)
         then set_estate StateSuperseded at_ <$> st_enrollments s !! k
         else st_enrollments s !! k) →
  store_inv (mkStore es (<[e_DeviceID e := serial]> (st_active s)) (st_byThumb s) (st_certs s)
    (st_certThumb s) (st_creds s)).
Proof.
  intros Hes. pose proof Hi as [Is Ia _ _ _]. destruct (Is _ _ Ee) as (Hser & Hval & _ & _).
  apply inv_restate; [done|..].
  - intros k e'. rewrite Hes. case_decide; [intros [= <-]; subst; exists e; done|].
    case_decide.
    + destruct (st_enrollments s !! k) as [e0|]; [|done]. intros [= <-]. by exists e0.
    + intros He'. exists e'. by destruct (Is _ _ He') as (_ & _ & ? & _).
  - intros k e0 He0. rewrite Hes. case_decide; [subst; simplify_eq; eexists; done|].
    rewrite He0. case_decide; eexists; done.
  - intros d k. rewrite lookup_insert_Some. rewrite Hes. split.
    + intros [[<- <-]|[Hne Hk]]; [rewrite decide_True by done; eexists; done|].
      apply Ia in Hk as (e0 & He0 & Hd & Hs0). exists e0.
      rewrite !decide_False; [done|..]; [|congruence].
      intros (e1 & He1 & Hd1 & _)%Ia. congruence.
    + intros (e0 & He0 & Hd & Hs0). case_decide; [simplify_eq; by left|].
      case_decide as Hp; [by destruct (st_enrollments s !! k); simplify_eq/=|].
      right. split; [|by apply Ia; eauto]. intros <-. apply Hp, Ia. eauto.
Qed.

Lemma deactivate_inv st act :
  st ≠ StateActive → EState_Valid st = true →
  (∀ d k, act !! d = Some k ↔ st_active s !! d = Some k ∧ k ≠ serial) →
  store_inv (mkStore (<[serial := set_estate st at_ e]> (st_enrollments s)) act (st_byThumb s)
    (st_certs s) (st_certThumb s) (st_creds s)).
Proof.
  intros Hst Ev Hact. pose proof Hi as [Is Ia _ _ _].
  destruct (Is _ _ Ee) as (Hser & Hval & _ & _). apply inv_restate; [done|..].
  - intros k e'. rewrite lookup_restated. case_decide; [intros [= <-]; subst; by exists e|].
    intros He'. exists e'. by destruct (Is _ _ He') as (_ & _ & ? & _).
  - intros k e0 He0. rewrite lookup_restated. case_decide; [subst; simplify_eq; eexists; done|].
    eexists. done.
  - intros d k. rewrite Hact, Ia, lookup_restated. split.
    + intros [(e0 & ?) Hne]. exists e0. by rewrite decide_False.
    + intros (e0 & He0 & Hd & Hs0). case_decide; [by simplify_eq/=|]. eauto.
Qed.
End set_state.

Lemma SetState_inv serial st at_ s s' r :
  store_inv s → SetState serial st at_ s = (s', r) → store_inv s'.
Proof.
  intros Hi. unfold SetState. destruct (EState_Valid st) eqn:Ev; [|by intros [= <- _]].
  cbn [negb]. destruct (st_enrollments s !! serial) as [e|] eqn:Ee; [|by intros [= <- _]].
  unfold time_UTC. destruct (decide (st = StateActive)) as [->|Hst].
  - rewrite (decide_False (P := _ ≠ _ ∧ _)) by naive_solver.
    intros [<- _]%pair_equal_spec. apply (activate_inv _ at_); [done..|]. intros k.
    destruct (st_active s !! e_DeviceID e) as [p|];
      [destruct (decide (p ≠ serial)); [rewrite lookup_supersede|]|]; rewrite (lookup_restated _ at_);
      destruct (decide (k = serial)) as [->|]; repeat case_decide; naive_solver.
  - intros [= <- _]. apply (deactivate_inv _ at_); [done..|]. pose proof (inv_active _ Hi) as Ia.
    intros d k. case_decide as Hd.
    + destruct Hd as [_ Hd]. rewrite lookup_delete_Some. split.
      * intros [Hne Hk]. split; [done|]. intros ->. apply Ia in Hk as (e1 & ? & ? & _). congruence.
      * intros [Hk Hne]. split; [congruence|done].
    + split; [|by intros [? _]]. intros Hk. split; [done|]. intros ->. apply Hd. split; [done|].
      pose proof Hk as (e1 & ? & <- & _)%Ia. congruence.
Qed.

Lemma TouchLastSeen_inv serial at_ s s' r :
  store_inv s → TouchLastSeen serial at_ s = (s', r) → store_inv s'.
Proof.
  intros Hi. unfold TouchLastSeen. destruct (st_enrollments s !! serial) as [e|] eqn:Ee;
    [|by intros [= <- _]]. destruct (time_After _ _); intros [= <- _]; [|done].
  destruct Hi as [Is Ia It Ic Ict] eqn:Hi'. apply inv_restate; [done|..].
  - intros k e' [[<- <-]|[Hne He']]%lookup_insert_Some.
    + exists e. by destruct (Is _ _ Ee) as (_ & _ & ? & _).
    + exists e'. by destruct (Is _ _ He') as (_ & _ & ? & _).
  - intros k e0 He0. destruct (decide (k = serial)) as [->|].
    + rewrite lookup_insert_eq. simplify_eq. eexists. done.
    + rewrite lookup_insert_ne by done. eexists. done.
  - intros d k. rewrite Ia. destruct (decide (k = serial)) as [->|].
    + rewrite lookup_insert_eq. split; intros (e0 & He0 & Hd & Hs); simplify_eq; eexists; done.
    + by rewrite lookup_insert_ne.
Qed.

(** Operations on certificates and credentials leave the enrollments alone. *)
Lemma inv_recert s certs th creds :
  store_inv s →
  (∀ k c, certs !! k = Some c →
     c_Serial c = k ∧ Certificate_Validate (Some c) = Ok tt ∧ th !! c_Thumbprint c = Some k) →
  (∀ t k, th !! t = Some k → ∃ c, certs !! k = Some c ∧ c_Thumbprint c = t) →
  store_inv (mkStore (st_enrollments s) (st_active s) (st_byThumb s) certs th creds).
Proof. intros [] ??. by split. Qed.

Lemma PutCertificate_inv c s s' r : store_inv s → PutCertificate c s = (s', r) → store_inv s'.
Proof.
  intros Hi. unfold PutCertificate.
  destruct (Certificate_Validate c) as [[]|] eqn:Ev; [|by intros [= <- _]].
  destruct c as [c|]; [|by intros [= <- _]].
  destruct (st_certs s !! c_Serial c) eqn:Es; [by intros [= <- _]|].
  destruct (st_certThumb s !! c_Thumbprint c) eqn:Et; [by intros [= <- _]|].
  intros [= <- _]. apply inv_recert; [done|..].
  - intros k c'. rewrite lookup_insert_Some. intros [[<- <-]|[Hne Hc]].
    + by rewrite lookup_insert_eq.
    + destruct (inv_certs _ Hi _ _ Hc) as (? & ? & ?). rewrite lookup_insert_ne by congruence. done.
  - intros t k. rewrite lookup_insert_Some. intros [[<- <-]|[Hne Hk]].
    + rewrite lookup_insert_eq. eauto.
    + apply (inv_certThumb _ Hi) in Hk as (c' & Hc & Hth).
      rewrite lookup_insert_ne by congruence. eauto.
Qed.

Lemma Revoke_inv serial at_ s s' r : store_inv s → Revoke serial at_ s = (s', r) → store_inv s'.
Proof.
  intros Hi. unfold Revoke. destruct (st_certs s !! serial) as [c|] eqn:Ec; [|by intros [= <- _]].
  destruct (c_Revoked c); intros [= <- _]; [done|]. apply inv_recert; [done|..].
  - intros k c'. rewrite lookup_insert_Some. intros [[<- <-]|[Hne Hc]];
      [by apply (inv_certs _ Hi) in Ec|by apply (inv_certs _ Hi) in Hc].
  - intros t k (c' & Hc & Hth)%(inv_certThumb _ Hi). destruct (decide (k = serial)) as [->|].
    + rewrite lookup_insert_eq. simplify_eq. eexists. done.
    + rewrite lookup_insert_ne by done. eauto.
Qed.

Lemma PutMDMCredential_inv c s s' r :
  store_inv s → PutMDMCredential c s = (s', r) → store_inv s'.
Proof.
  intros Hi. unfold PutMDMCredential. case_decide; intros [= <- _]; [done|].
  apply inv_recert; [done|apply Hi|apply Hi].
Qed.

(** A computation whose every run keeps the invariant. *)
Definition preserves {A} (m : M Store A) : Prop :=
  ∀ s s' r, store_inv s → m s = (s', r) → store_inv s'.

Lemma preserves_bind {A B} (m : M Store A) (k : A → M Store B) :
  preserves m → (∀ a, preserves (k a)) → preserves (bind m k).
Proof.
  intros Hm Hk s s' r Hi. unfold bind. destruct (m s) as [s1 [a|e]] eqn:E.
  - intros E'. eapply Hk, E'. by eapply Hm.
  - intros [= <- _]. by eapply Hm.
Qed.

Lemma preserves_same {A} (m : M Store A) : (∀ s, (m s).1 = s) → preserves m.
Proof. intros Hm s s' r Hi E. specialize (Hm s). rewrite E in Hm. by subst. Qed.

Lemma Record_inv sink e s s' r :
  store_inv s → Recorder_Record sink e s = (s', r) → store_inv s'.
Proof.
  revert s s' r. change (preserves (Recorder_Record sink e)). unfold Recorder_Record.
  destruct e as [e|]; [|by apply preserves_same].
  apply preserves_bind; [intros ???; apply PutCertificate_inv|intros _].
  apply preserves_bind.
  { case_decide; [by apply preserves_same|].
    apply preserves_bind; [by apply preserves_same|intros; by apply preserves_same]. }
  intros existing. apply preserves_bind; [intros ???; apply Create_inv|intros _].
  destruct sink; [case_decide|]; by apply preserves_same.
Qed.

Lemma Unenroll_inv serial at_ s s' r : store_inv s → Unenroll serial at_ s = (s', r) → store_inv s'.
Proof.
  revert s s' r. change (preserves (Unenroll serial at_)). apply preserves_bind.
  - intros ???. apply SetState_inv.
  - intros _ ???. apply Revoke_inv.
Qed.

(** The operations of the store, as steps. *)
Inductive store_step : Store → Store → Prop :=
  | step_create e s : store_step s (Create e s).1
  | step_set_state serial st at_ s : store_step s (SetState serial st at_ s).1
  | step_touch serial at_ s : store_step s (TouchLastSeen serial at_ s).1
  | step_put_certificate c s : store_step s (PutCertificate c s).1
  | step_revoke serial at_ s : store_step s (Revoke serial at_ s).1
  | step_put_credential c s : store_step s (PutMDMCredential c s).1
  | step_record sink e s : store_step s (Recorder_Record sink e s).1
  | step_unenroll serial at_ s : store_step s (Unenroll serial at_ s).1.

Lemma step_inv s s' : store_step s s' → store_inv s → store_inv s'.
Proof.
  intros Hs Hi. destruct Hs;
    [eapply Create_inv|eapply SetState_inv|eapply TouchLastSeen_inv|eapply PutCertificate_inv
    |eapply Revoke_inv|eapply PutMDMCredential_inv|eapply Record_inv|eapply Unenroll_inv];
    try exact Hi; apply surjective_pairing.
Qed.

Lemma reachable_inv s : rtc store_step New s → store_inv s.
Proof.
  intros Hr. cut (∀ s0, store_inv s0 → rtc store_step s0 s → store_inv s); [eauto using New_inv|].
  clear Hr. intros s0 Hi. induction 1 as [|s0 s1 s2 Hs _ IH]; [done|]. apply IH. by eapply step_inv.
Qed.

Lemma Get_active s d e :
  store_inv s →
  Get d s = Ok e ↔
    st_enrollments s !! e_Serial e = Some e ∧ e_DeviceID e = d ∧ e_State e = StateActive.
Proof.
  intros Hi. unfold Get, deref. split.
  - destruct (st_active s !! d) as [k|] eqn:Ek; [|done].
    apply (inv_active _ Hi) in Ek as (e0 & He0 & Hd & Hst). rewrite He0. intros [= ->].
    destruct (inv_serial _ Hi _ _ He0) as (-> & _). done.
  - intros (He & Hd & Hst).
    assert (st_active s !! d = Some (e_Serial e)) as -> by (apply (inv_active _ Hi); eauto).
    by rewrite He.
Qed.

Lemma Get_cases s d :
  store_inv s → (∃ e, Get d s = Ok e) ∨ Get d s = Err [storage_ErrNotFound].
Proof.
  intros Hi. unfold Get, deref. destruct (st_active s !! d) as [k|] eqn:Ek; [|by right].
  apply (inv_active _ Hi) in Ek as (e0 & -> & _). left. eauto.
Qed.

(** ** Properties *)

(** C25: In every reachable store a device has at most one active enrollment,
    and Get returns it; looking a record up by serial or by thumbprint finds
    the same record; a lookup fails only because there is nothing to find, so
    no index leads to a missing record; and the same holds for certificates. *)
Theorem store_consistent s :
  rtc store_step New s →
  (∀ d e, Get d s = Ok e ↔
     GetBySerial (e_Serial e) s = Ok e ∧ e_DeviceID e = d ∧ e_State e = StateActive) ∧
  (∀ th e, GetByThumbprint th s = Ok e ↔
     GetBySerial (e_Serial e) s = Ok e ∧ e_Thumbprint e = th) ∧
  (∀ th c, CertificateByThumbprint th s = Ok c ↔
     GetCertificate (c_Serial c) s = Ok c ∧ c_Thumbprint c = th) ∧
  (∀ x err, Get x s = Err err ∨ GetByThumbprint x s = Err err ∨
     CertificateByThumbprint x s = Err err → err = [storage_ErrNotFound]).
Proof.
  intros Hi%reachable_inv.
  assert (∀ k e, GetBySerial k s = Ok e ↔ st_enrollments s !! k = Some e) as Hg.
  { intros k e. unfold GetBySerial. destruct (_ !! k); naive_solver. }
  split_and!.
  - intros d e. by rewrite Hg, Get_active.
  - intros th e. rewrite Hg. unfold GetByThumbprint, deref. split.
    + destruct (st_byThumb s !! th) as [k|] eqn:Ek; [|done].
      apply (inv_thumb _ Hi) in Ek as (e0 & He0 & Hth). rewrite He0. intros [= ->].
      by destruct (inv_serial _ Hi _ _ He0) as (-> & _).
    + intros [He <-]. destruct (inv_serial _ Hi _ _ He) as (_ & _ & _ & ->). by rewrite He.
  - intros th c. unfold CertificateByThumbprint, GetCertificate, deref. split.
    + destruct (st_certThumb s !! th) as [k|] eqn:Ek; [|done].
      apply (inv_certThumb _ Hi) in Ek as (c0 & Hc0 & Hth). rewrite Hc0. intros [= ->].
      destruct (inv_certs _ Hi _ _ Hc0) as (-> & _). by rewrite Hc0.
    + intros [Hc <-]. destruct (st_certs s !! c_Serial c) as [c0|] eqn:Ec; [|done].
      injection Hc as ->. destruct (inv_certs _ Hi _ _ Ec) as (_ & _ & ->). by rewrite Ec.
  - intros x err. unfold GetByThumbprint, CertificateByThumbprint, deref. intros [E|[E|E]].
    + destruct (Get_cases s x Hi) as [[e He]|He]; congruence.
    + destruct (st_byThumb s !! x) as [k|] eqn:Ek; [|congruence].
      apply (inv_thumb _ Hi) in Ek as (e0 & He0 & _). by rewrite He0 in E.
    + destruct (st_certThumb s !! x) as [k|] eqn:Ek; [|congruence].
      apply (inv_certThumb _ Hi) in Ek as (c0 & Hc0 & _). by rewrite Hc0 in E.
Qed.

Lemma Lookup_Get a s d :
  store_inv s →
  match Get d s with
  | Ok e => ∃ ty h, Lookup a s d = Ok (mkIdentity d (e_Serial e) (e_Thumbprint e) ty h) ∧
      (ma_Credentials a = false → ty = AuthCertificate)
  | Err _ => Lookup a s d = Err [mdm_ErrUnenrolled]
  end.
Proof.
  intros Hi. unfold Lookup. destruct (Get d s) as [e|err] eqn:Eg.
  - apply Get_active in Eg as (_ & <- & _); [|done].
    destruct (ma_Credentials a); [|by eexists _, _].
    unfold GetMDMCredential. destruct (st_creds s !! _); by eexists _, _.
  - destruct (Get_cases s d Hi) as [[e He]|He]; rewrite He in Eg; [done|].
    injection Eg as <-. done.
Qed.

(** The authenticator over the store knows exactly the devices with an
    active enrollment and refuses every other as unenrolled; the identity it
    gives carries the device asked for and the current certificate's serial
    and thumbprint, and no two devices share an enrollment key; without a
    custom policy a certificate is trusted exactly when the leaf of one of the
    verified chains has that serial and that thumbprint. *)
Theorem authenticator_follows_enrollment a s :
  rtc store_step New s →
  (∀ d, match Get d s with
        | Ok e => ∃ ty h, Lookup a s d = Ok (mkIdentity d (e_Serial e) (e_Thumbprint e) ty h)
        | Err _ => Lookup a s d = Err [mdm_ErrUnenrolled]
        end) ∧
  (∃ owner : string → string, ∀ d id,
     auth_Lookup (authenticator a s) d = Ok id → owner (id_EnrollmentKey id) = d) ∧
  (ma_TrustCert a = None → ∀ d id chains, Lookup a s d = Ok id →
     (TrustCertificate a id chains = true ↔
      ∃ c rest n, (Some c :: rest) ∈ chains ∧ cert_SerialNumber c = Some n ∧ cert_Raw c ≠ "" ∧
        Itoa n = id_EnrollmentKey id ∧ Thumbprint (cert_Raw c) = id_CertificateThumbprint id)).
Proof.
  intros Hi%reachable_inv. pose proof (λ d, Lookup_Get a s d Hi) as Hl. split_and!.
  - intros d. specialize (Hl d). destruct (Get d s); [|done].
    destruct Hl as (ty & h & E & _). eauto.
  - exists (λ k, match st_enrollments s !! k with Some e => e_DeviceID e | None => "" end).
    intros d id E. cbn in E. specialize (Hl d). destruct (Get d s) as [e|] eqn:Eg; [|congruence].
    destruct Hl as (ty & h & E' & _). rewrite E in E'. injection E' as ->. cbn.
    apply Get_active in Eg as (-> & ? & _); done.
  - intros Hp d id chains E. specialize (Hl d).
    destruct (Get d s) as [e|] eqn:Eg; [|congruence].
    destruct Hl as (ty & h & E' & _). rewrite E in E'. injection E' as ->. cbn.
    apply Get_active in Eg as (He & _ & _); [|done].
    destruct (inv_serial _ Hi _ _ He) as (_ & Hv & _ & _).
    assert (e_Serial e ≠ "" ∧ e_Thumbprint e ≠ "") as [Hs Ht]
      by (unfold Enrollment_Validate in Hv; repeat case_decide; done).
    unfold TrustCertificate. rewrite Hp. cbn.
    rewrite (decide_False (P := _ ∨ _)) by naive_solver. case_decide as Hc.
    { subst chains. split; [done|]. intros (? & ? & ? & Hin & _). by apply not_elem_of_nil in Hin. }
    rewrite existsb_exists. split.
    + intros (chain & Hin & Hm). destruct chain as [|[c|] rest]; try done.
      rewrite !andb_true_iff, !bool_decide_eq_true, Z.ltb_lt in Hm.
      destruct Hm as [[[[n Hn] Hlen] Hser] Hth]. rewrite Hn in Hser.
      exists c, rest, n. rewrite list_elem_of_In. split_and!; try done.
      intros E0. by rewrite E0 in Hlen.
    + intros (c & rest & n & Hin & Hn & Hraw & Hser & Hth). exists (Some c :: rest).
      split; [by apply list_elem_of_In|].
      rewrite !andb_true_iff, !bool_decide_eq_true, Z.ltb_lt, Hn.
      split; [split; [split; [eauto|]|exact Hser]|exact Hth].
      clear Hth. pose proof (len_nonneg (cert_Raw c)).
      assert (len (cert_Raw c) ≠ 0); [|lia]. intros E0%len_0. exact (Hraw E0).
Qed.

#[local] Opaque Thumbprint.

Lemma Create_Ok e s s' :
  Create (Some e) s = (s', Ok tt) →
  Enrollment_Validate (Some e) = Ok tt ∧ st_enrollments s !! e_Serial e = None ∧
  s' = mkStore
    (<[e_Serial e := set_estate StateActive (e_EnrolledAt e) e]>
       (supersede (st_active s !! e_DeviceID e) (e_EnrolledAt e) (st_enrollments s)))
    (<[e_DeviceID e := e_Serial e]> (st_active s))
    (<[e_Thumbprint e := e_Serial e]> (st_byThumb s)) (st_certs s) (st_certThumb s) (st_creds s).
Proof.
  unfold Create. destruct (Enrollment_Validate (Some e)) as [[]|]; [|done].
  destruct (st_enrollments s !! e_Serial e); [done|].
  destruct (st_byThumb s !! e_Thumbprint e); [done|]. by intros [= <-].
Qed.

Lemma Create_Err e s s' err : Create e s = (s', Err err) → s' = s.
Proof.
  unfold Create. destruct (Enrollment_Validate e) as [[]|], e as [e|]; try by intros [= <- _].
  destruct (st_enrollments s !! e_Serial e); [by intros [= <- _]|].
  destruct (st_byThumb s !! e_Thumbprint e); by intros [= <- _].
Qed.

Lemma PutCertificate_creds c s s' r : PutCertificate c s = (s', r) → st_creds s' = st_creds s.
Proof.
  unfold PutCertificate. destruct (Certificate_Validate c) as [[]|], c as [c|]; try by intros [= <- _].
  destruct (st_certs s !! c_Serial c); [by intros [= <- _]|].
  destruct (st_certThumb s !! c_Thumbprint c); by intros [= <- _].
Qed.

Lemma PutCertificate_frame c s s' r :
  PutCertificate (Some c) s = (s', r) →
  st_enrollments s' = st_enrollments s ∧ st_active s' = st_active s ∧
  match r with Ok _ => st_certs s' = <[c_Serial c := c]> (st_certs s) | Err _ => s' = s end.
Proof.
  unfold PutCertificate. destruct (Certificate_Validate (Some c)) as [[]|];
    [|by intros [= <- <-]].
  destruct (st_certs s !! c_Serial c); [by intros [= <- <-]|].
  destruct (st_certThumb s !! c_Thumbprint c); by intros [= <- <-].
Qed.

(** The enrollments right after a device's new enrollment is recorded. *)
Definition enrolled_as (e : IssuedEnrollment) (s s' : Store) : Prop :=
  let rec := record_enrollment e in
  Get (e_DeviceID rec) s' = Ok (set_estate StateActive (e_EnrolledAt rec) rec) ∧
  st_certs s' !! e_Serial rec = Some (record_certificate e) ∧
  (∀ prev, Get (e_DeviceID rec) s = Ok prev →
     GetBySerial (e_Serial prev) s' = Ok (set_estate StateSuperseded (e_EnrolledAt rec) prev)) ∧
  (∀ k, k ≠ e_Serial rec → (∀ prev, Get (e_DeviceID rec) s = Ok prev → k ≠ e_Serial prev) →
     st_enrollments s' !! k = st_enrollments s !! k).

Lemma recorded e s s1 s2 :
  store_inv s → PutCertificate (Some (record_certificate e)) s = (s1, Ok tt) →
  Create (Some (record_enrollment e)) s1 = (s2, Ok tt) → enrolled_as e s s2.
Proof.
  intros Hi (He1 & Ha1 & Hc1)%PutCertificate_frame (_ & Hnew & ->)%Create_Ok.
  set (rec := record_enrollment e) in *. rewrite He1 in Hnew.
  split_and!; unfold Get, GetBySerial, deref; cbn -[record_enrollment]; fold rec;
    rewrite ?He1, ?Ha1.
  - by rewrite !lookup_insert_eq.
  - rewrite Hc1. apply lookup_insert_eq.
  - intros prev Hp. destruct (st_active s !! e_DeviceID rec) as [k|] eqn:Ek; [|done].
    pose proof Ek as (e0 & He0 & _)%(inv_active _ Hi). rewrite He0 in Hp. injection Hp as ->.
    destruct (inv_serial _ Hi _ _ He0) as (-> & _).
    rewrite lookup_insert_ne by congruence. rewrite lookup_supersede, decide_True, He0; done.
  - intros k Hk Hprev. rewrite lookup_insert_ne, lookup_supersede by done. rewrite decide_False; [done|].
    intros Hact. pose proof Hact as (e0 & He0 & _)%(inv_active _ Hi).
    rewrite Hact, He0 in Hprev. destruct (inv_serial _ Hi _ _ He0) as (Hs & _).
    by apply (Hprev e0 eq_refl).
Qed.

(** Recording an enrollment makes it the device's active one, keeps its
    certificate, marks the device's previous enrollment superseded and changes
    no other record.  It fails without touching any enrollment, with one
    exception: when the conflict sink returns an error Record returns that
    error although the new enrollment is already active, so the sink does not
    abort the enrollment. *)
Theorem record_enrolls sink e s s' r :
  rtc store_step New s → Recorder_Record sink (Some e) s = (s', r) →
  match r with
  | Ok _ => enrolled_as e s s'
  | Err err => st_enrollments s' = st_enrollments s ∨
      (enrolled_as e s s' ∧ ∃ f c, sink = Some f ∧ f c = Err err)
  end.
Proof.
  intros Hi%reachable_inv. unfold Recorder_Record. set (rec := record_enrollment e).
  unfold bind at 1. destruct (PutCertificate _ s) as [s1 [[]|err]] eqn:Ep.
  2: { intros [= <- <-]. apply PutCertificate_frame in Ep as (-> & _). by left. }
  unfold bind at 1.
  destruct ((if decide (e_HWDevID rec = "") then ret [] else _) s1) as [s2 [ex|err]] eqn:Ex.
  - assert (s2 = s1) as ->.
    { case_decide; [by inversion Ex|]. apply bind_Ok in Ex as (? & ? & E1 & E2).
      by inversion E1; inversion E2; subst. }
    unfold bind at 1. destruct (Create (Some rec) s1) as [s3 [[]|err]] eqn:Ec.
    + pose proof (recorded _ _ _ _ Hi Ep Ec) as Hen.
      clear Ex. destruct sink as [f|]; [|by intros [= <- <-]].
      destruct (decide (ex = [])); [by intros [= <- <-]|].
      unfold lift. intros E. inversion E; subst.
      destruct (f _) as [[]|err] eqn:Ef; [done|]. right. split; [done|]. by eexists _, _.
    + intros [= <- <-]. left. apply Create_Err in Ec as ->.
      by apply PutCertificate_frame in Ep as (-> & _).
  - intros [= <- <-]. left. apply PutCertificate_frame in Ep as (<- & _).
    case_decide; [done|]. unfold bind in Ex. destruct (ListByHWDevID _ _); [done|].
    by injection Ex as <-.
Qed.

Lemma Unenroll_locks a serial at_ s s' e :
  store_inv s → GetBySerial serial s = Ok e →
  Unenroll serial at_ s = (s', Ok tt) →
  GetBySerial serial s' = Ok (set_estate StateUnenrolled at_ e) ∧
  (∃ c, GetCertificate serial s' = Ok c ∧ c_Revoked c = true) ∧
  (e_State e = StateActive → Lookup a s' (e_DeviceID e) = Err [mdm_ErrUnenrolled]).
Proof.
  intros Hi He E. pose proof (Unenroll_inv _ _ _ _ _ Hi E) as Hi'.
  apply bind_Ok in E as (s1 & [] & E1 & E2).
  assert (st_enrollments s !! serial = Some e) as He0
    by (unfold GetBySerial in He; destruct (_ !! serial); congruence).
  unfold SetState in E1. rewrite He0 in E1. cbn [EState_Valid negb] in E1.
  change (negb (EState_Valid StateUnenrolled)) with false in E1. cbn iota in E1.
  rewrite (decide_False (P := StateUnenrolled = StateActive)) in E1 by done.
  injection E1 as <-. unfold Revoke in E2. cbn in E2.
  destruct (st_certs s !! serial) as [c|] eqn:Ec; [|done].
  assert (st_enrollments s' = <[serial := set_estate StateUnenrolled at_ e]> (st_enrollments s) ∧
    st_active s' = (if decide (StateUnenrolled ≠ StateActive ∧
      st_active s !! e_DeviceID e = Some serial) then delete (e_DeviceID e) (st_active s)
      else st_active s) ∧
    ∃ c', st_certs s' !! serial = Some c' ∧ c_Revoked c' = true) as (Hes & Hact & c' & Hc' & Hrev).
  { destruct (c_Revoked c) eqn:Er; injection E2 as <-; cbn; split_and!; try done; [eauto|].
    eexists. rewrite lookup_insert_eq. done. }
  unfold GetBySerial, GetCertificate. rewrite Hes, lookup_insert_eq, Hc'. split_and!; [done|eauto|].
  intros Hst. pose proof (Lookup_Get a s' (e_DeviceID e) Hi') as Hl.
  unfold Get in Hl. rewrite Hact, decide_True in Hl.
  - by rewrite lookup_delete_eq in Hl.
  - split; [done|]. apply (inv_active _ Hi). eauto.
Qed.

(** Unenrolling shuts the device out: once Unenroll returns, the
    enrollment is in the unenrolled state, its certificate is revoked, the
    device has no active enrollment left if this was its active one, and the
    authenticator then answers every request of the device as unenrolled. *)
Theorem unenroll_locks_out a serial at_ s s' e :
  rtc store_step New s → GetBySerial serial s = Ok e →
  Unenroll serial at_ s = (s', Ok tt) →
  GetBySerial serial s' = Ok (set_estate StateUnenrolled at_ e) ∧
  (∃ c, GetCertificate serial s' = Ok c ∧ c_Revoked c = true) ∧
  (e_State e = StateActive → Lookup a s' (e_DeviceID e) = Err [mdm_ErrUnenrolled]).
Proof. intros Hi%reachable_inv. by apply Unenroll_locks. Qed.

(** ** Examples *)

Definition ex_context : AdditionalContext :=
  mkAdditionalContext "4" "10.0" "PC" EnrollmentTypeFull "CIMClient_Windows" "10.0" "dev" "" [] []
    true "" "HW-1" false "" "" false "" "" false false false false false "" "" "" "" "" "" "" "" ""
    "" "" "" [] [].
Definition ex_issued (serial : Z) (at_ : Time) : IssuedEnrollment :=
  mkIssued (mkCert ("der" +:+ Itoa serial) (Some serial)) "CN=dev" 1 (1 + Hour) ex_context "u@c" at_.
Definition ex_store : Store := (Recorder_Record None (Some (ex_issued 7 5)) New).1.

Lemma ex_store_reachable : rtc store_step New ex_store.
Proof. apply rtc_once. constructor. Qed.

Lemma store_consistent_witness :
  (∃ e, Get "dev" ex_store = Ok e) ∧
  (∀ d e, Get d ex_store = Ok e ↔
     GetBySerial (e_Serial e) ex_store = Ok e ∧ e_DeviceID e = d ∧ e_State e = StateActive).
Proof.
  split.
  - eexists. vm_compute. reflexivity.
  - apply (store_consistent ex_store ex_store_reachable).
Defined.

Lemma authenticator_follows_enrollment_witness :
  ∃ owner : string → string, ∀ d id,
    auth_Lookup (authenticator (mkMDMAuthenticator true None) ex_store) d = Ok id →
    owner (id_EnrollmentKey id) = d.
Proof.
  apply (authenticator_follows_enrollment (mkMDMAuthenticator true None) ex_store
    ex_store_reachable).
Defined.

Lemma record_enrolls_witness :
  enrolled_as (ex_issued 8 6) ex_store (Recorder_Record None (Some (ex_issued 8 6)) ex_store).1.
Proof.
  apply (record_enrolls None (ex_issued 8 6) ex_store _ (Ok tt) ex_store_reachable).
  vm_compute. reflexivity.
Defined.

Lemma unenroll_locks_out_witness :
  Lookup (mkMDMAuthenticator true None) (Unenroll "7" 9 ex_store).1 "dev" = Err [mdm_ErrUnenrolled].
Proof.
  apply (unenroll_locks_out (mkMDMAuthenticator true None) "7" 9 ex_store _
    (set_estate StateActive 5 (record_enrollment (ex_issued 7 5))) ex_store_reachable).
  - vm_compute. reflexivity.
  - vm_compute. reflexivity.
  - reflexivity.
Defined.
