(* ===== verification/MdmQueue.v ===== *)
(** * Command queues

    mdmprotocol/mdm/queue.go: the data of a queued command, and the interface
    CommandQueue with the laws its comments and the storage contract state.
    The session engine is verified against the interface; storage/inmem is
    shown to implement it in [InmemQueue]. *)
From stdpp Require Import base gmap strings list.
From Stdlib Require Import ZArith Lia Ascii.
From S2P Require Import Prelude GoStrings SyncmlModel MdmCommand Paging.

Local Open Scope Z_scope.
Local Open Scope go_scope.

(** [type State string] *)
Definition State := string.
Definition StatePending : State := "pending".
Definition StateSent : State := "sent".
Definition StateAcknowledged : State := "acknowledged".
Definition StateFailed : State := "failed".
Definition StateCancelled : State := "cancelled".

(** The states the program gives a command. *)
Definition knownStates : list State :=
  [StatePending; StateSent; StateAcknowledged; StateFailed; StateCancelled].

Definition State_Terminal (s : State) : bool :=
  bool_decide (s = StateAcknowledged) || bool_decide (s = StateFailed) ||
  bool_decide (s = StateCancelled).

Record ChildResult := mkChildResult {
  CR_Name : string;
  CR_Target : string;
  CR_Status : StatusCode;
  CR_OriginalError : string;
  CR_Items : list Item }.

Record Result := mkResult {
  Res_Status : StatusCode;
  Res_OriginalError : string;
  Res_Items : list Item;
  Res_Children : list ChildResult;
  Res_ReceivedAt : Time }.

Record QueuedCommand := mkQueuedCommand {
  qc_Command : MCommand;
  qc_Seq : Z;
  qc_State : State;
  qc_EnqueuedAt : Time;
  qc_LastSentAt : Time;
  qc_SentMsgID : string;
  qc_Attempts : Z;
  qc_Result : option Result;
  qc_CompletedAt : Time }.

(** The embedded Command's fields. *)
Definition qc_ID (qc : QueuedCommand) : string := cmd_ID (qc_Command qc).
Definition qc_Scope (qc : QueuedCommand) : Scope := cmd_Scope (qc_Command qc).
Definition qc_Body (qc : QueuedCommand) : Command := cmd_Body (qc_Command qc).
Definition qc_Internal (qc : QueuedCommand) : bool := cmd_Internal (qc_Command qc).

Record Query := mkQuery {
  Query_States : list State;
  Query_Internal : option bool;
  Query_Scope : Scope }.

Record Delivery := mkDelivery {
  Delivery_CommandID : string;
  Delivery_MsgID : string;
  Delivery_At : Time }.

(** The state a client's Status moves a command to. *)
Definition result_state (code : StatusCode) : State :=
  if StatusCode_Success code then StateAcknowledged else StateFailed.

(** A command to send: never delivered, or delivered and unanswered. *)
Definition deliverable (qc : QueuedCommand) : bool :=
  bool_decide (qc_State qc = StatePending ∨ qc_State qc = StateSent).

(** A command in a state the program gives it waits exactly when it is not
    done. *)
Lemma deliverable_known qc :
  qc_State qc ∈ knownStates → deliverable qc = negb (State_Terminal (qc_State qc)).
Proof.
  unfold deliverable, knownStates. rewrite !elem_of_cons, elem_of_nil.
  by intros [-> | [-> | [-> | [-> | [-> | []]]]]].
Qed.

(** The first [limit] of a list, or all of it when [limit] is not positive. *)
Definition upto {A} (limit : Z) (l : list A) : list A :=
  if 0 <? limit then take (Z.to_nat limit) l else l.

(** A delivery and an answer, as seen on one command. *)
Definition sent_by (d : Delivery) (qc : QueuedCommand) : QueuedCommand :=
  mkQueuedCommand (qc_Command qc) (qc_Seq qc) StateSent (qc_EnqueuedAt qc)
    (time_UTC (Delivery_At d)) (Delivery_MsgID d) (wrap64 (qc_Attempts qc + 1)) (qc_Result qc)
    (qc_CompletedAt qc).
Definition answered_by (r : Result) (qc : QueuedCommand) : QueuedCommand :=
  mkQueuedCommand (qc_Command qc) (qc_Seq qc) (result_state (Res_Status r)) (qc_EnqueuedAt qc)
    (qc_LastSentAt qc) (qc_SentMsgID qc) (qc_Attempts qc) (Some r)
    (time_UTC (Res_ReceivedAt r)).
Definition cancelled_at (at_ : Time) (qc : QueuedCommand) : QueuedCommand :=
  mkQueuedCommand (qc_Command qc) (qc_Seq qc) StateCancelled (qc_EnqueuedAt qc)
    (qc_LastSentAt qc) (qc_SentMsgID qc) (qc_Attempts qc) (qc_Result qc) (time_UTC at_).

(** Update the command with an id; ids are unique in a device's queue. *)
Definition update_id (id : string) (f : QueuedCommand → QueuedCommand)
    (cmds : list QueuedCommand) : list QueuedCommand :=
  map (λ qc, if decide (qc_ID qc = id) then f qc else qc) cmds.

Definition ids (cmds : list QueuedCommand) : list string := map qc_ID cmds.

(** A device's commands: distinct, non-empty ids, and each one valid. *)
Record cmds_wf (cmds : list QueuedCommand) : Prop := {
  wf_ids : NoDup (ids cmds);
  wf_named : Forall (λ qc, qc_ID qc ≠ "") cmds;
  wf_valid : Forall (λ qc, mcommand_ok (qc_Command qc)) cmds }.

(** ** The interface

    The methods thread the store's state; [q_cmds q dev] is the device's
    commands in Seq order. *)
Class CommandQueue (Q : Type) := {
  q_Enqueue : string → option MCommand → Time → Q → Q * result QueuedCommand;
  q_Deliverable : string → Z → Q → result (list QueuedCommand);
  q_MarkSent : string → list Delivery → Q → Q * result unit;
  q_StoreResult : string → string → Result → Q → Q * result unit;
  q_Get : string → string → Q → result QueuedCommand;
  q_cmds : Q → string → list QueuedCommand;
  q_wf : Q → Prop }.

(** What the engine relies on. *)
Class CommandQueueLaws (Q : Type) `{CommandQueue Q} : Prop := {
  law_wf q dev : q_wf q → cmds_wf (q_cmds q dev);
  law_enqueue dev c at_ q q' r :
    q_wf q → q_Enqueue dev c at_ q = (q', r) →
    q_wf q' ∧ (∀ d, d ≠ dev → q_cmds q' d = q_cmds q d) ∧
    match r with
    | Ok qc =>
        q_cmds q' dev = q_cmds q dev ++ [qc] ∧ qc_State qc = StatePending ∧
        (∃ m, c = Some m ∧ MValidate (Some m) = Ok tt ∧ qc_Body qc = cmd_Body m ∧
              qc_Scope qc = cmd_Scope m ∧ qc_Internal qc = cmd_Internal m ∧
              (cmd_ID m ≠ "" → qc_ID qc = cmd_ID m))
    | Err e => q_cmds q' dev = q_cmds q dev
    end;
  law_deliverable q dev limit :
    q_wf q →
    q_Deliverable dev limit q = Ok (upto limit (List.filter deliverable (q_cmds q dev)));
  law_mark_sent dev ds q q' r :
    q_wf q → q_MarkSent dev ds q = (q', r) →
    q_wf q' ∧ (∀ d, d ≠ dev → q_cmds q' d = q_cmds q d) ∧
    (r = Ok tt ↔ Forall (λ d, Delivery_CommandID d ∈ ids (q_cmds q dev)) ds) ∧
    (r = Ok tt →
     q_cmds q' dev =
     foldl (λ cs d, update_id (Delivery_CommandID d) (sent_by d) cs) (q_cmds q dev) ds);
  law_store_result dev id r q q' res :
    q_wf q → q_StoreResult dev id r q = (q', res) →
    q_wf q' ∧ (∀ d, d ≠ dev → q_cmds q' d = q_cmds q d) ∧
    match res with
    | Ok _ => id ∈ ids (q_cmds q dev) ∧
              q_cmds q' dev = update_id id (answered_by r) (q_cmds q dev)
    | Err e => id ∉ ids (q_cmds q dev) ∧ q' = q ∧ errors_Is e mdm_ErrNotFound = true
    end;
  law_get dev id q :
    q_wf q →
    match q_Get dev id q with
    | Ok qc => qc ∈ q_cmds q dev ∧ qc_ID qc = id
    | Err e => id ∉ ids (q_cmds q dev) ∧ errors_Is e mdm_ErrNotFound = true
    end }.

(** ** Lemmas *)

Lemma ids_update id f cmds :
  (∀ qc, qc_Command (f qc) = qc_Command qc) → ids (update_id id f cmds) = ids cmds.
Proof.
  intros Hf. unfold ids, update_id. rewrite map_map. apply map_ext. intros qc.
  case_decide; [|done]. unfold qc_ID. by rewrite Hf.
Qed.

(** Updates that keep a command's identity keep the queue well formed. *)
Lemma cmds_wf_map f cmds :
  (∀ qc, qc_Command (f qc) = qc_Command qc) →
  cmds_wf cmds → cmds_wf (map f cmds).
Proof.
  intros Hf [Hi Hn Hv]. split.
  - unfold ids. rewrite map_map.
    assert (map (λ x, qc_ID (f x)) cmds = map qc_ID cmds) as ->; [|done].
    apply map_ext. intros qc. unfold qc_ID. by rewrite Hf.
  - rewrite Forall_forall in Hn |- *. intros x (y & -> & Hy)%list_elem_of_fmap.
    unfold qc_ID. rewrite Hf. by apply Hn.
  - rewrite Forall_forall in Hv |- *. intros x (y & -> & Hy)%list_elem_of_fmap.
    rewrite Hf. by apply Hv.
Qed.

Lemma cmds_wf_update id f cmds :
  (∀ qc, qc_Command (f qc) = qc_Command qc) →
  cmds_wf cmds → cmds_wf (update_id id f cmds).
Proof. intros Hf. apply cmds_wf_map. intros qc. by case_decide. Qed.
