(* ===== verification/InmemQueue.v ===== *)
(** * The in-memory command queue

    storage/inmem/queue.go, the reference implementation of
    mdm.CommandQueue, and the proof that it meets the interface's laws.  The
    commands a device's slice points to are values here: no other object holds
    the pointers.  Each method runs under the mutex, so the methods are atomic
    steps. *)
From stdpp Require Import base gmap strings list.
From Stdlib Require Import ZArith Lia Ascii Sorted.
From S2P Require Import Prelude GoStrings SyncmlModel MdmCommand Paging MdmQueue.

Local Open Scope Z_scope.
Local Open Scope go_scope.

Record Queue := mkQueue {
  q_byDev : gmap string (list QueuedCommand);
  q_nextID : Z;
  q_seq : gmap string Z }.

Definition NewQueue : Queue := mkQueue ∅ 0 ∅.

(** [q.byDev[deviceID]]; a missing key is a nil slice. *)
Definition dev_cmds (q : Queue) (dev : string) : list QueuedCommand :=
  default [] (q_byDev q !! dev).
Definition set_cmds (q : Queue) (dev : string) (cmds : list QueuedCommand) : Queue :=
  mkQueue (<[dev := cmds]> (q_byDev q)) (q_nextID q) (q_seq q).
(** An update through the pointers of an existing slice writes no map key. *)
Definition update_cmds (q : Queue) (dev : string)
    (f : list QueuedCommand → list QueuedCommand) : Queue :=
  mkQueue (alter f dev (q_byDev q)) (q_nextID q) (q_seq q).

Definition has_id (id : string) (qc : QueuedCommand) : bool := bool_decide (qc_ID qc = id).

Definition Queue_Enqueue (dev : string) (cmd : option MCommand) (at_ : Time) (q : Queue)
    : Queue * result QueuedCommand :=
  if decide (dev = "") then (q, Err [mdm_ErrNotFound])
  else match MValidate cmd with
  | Err e => (q, Err e)
  | Ok _ =>
      match cmd with
      | None => (q, Err [])
      | Some c =>
          let '(q, id) :=
            if decide (cmd_ID c = "") then
              let n := wrap64 (q_nextID q + 1) in
              (mkQueue (q_byDev q) n (q_seq q), "cmd-" +:+ Itoa n)
            else (q, cmd_ID c) in
          if existsb (has_id id) (dev_cmds q dev) then (q, Err [mdm_ErrConflict])
          else
            let s := wrap64 (default 0 (q_seq q !! dev) + 1) in
            let stored := mkMCommand id (cmd_Scope c) (cmd_Body c) (cmd_Internal c) in
            let qc := mkQueuedCommand stored s StatePending (time_UTC at_) time_zero "" 0 None
                        time_zero in
            (mkQueue (<[dev := dev_cmds q dev ++ [qc]]> (q_byDev q)) (q_nextID q)
               (<[dev := s]> (q_seq q)),
             Ok qc)
      end
  end.

(** The loop of Deliverable, [out] reversed into a count. *)
Fixpoint deliverable_loop (limit : Z) (n : Z) (cmds : list QueuedCommand)
    : list QueuedCommand :=
  match cmds with
  | [] => []
  | qc :: cmds =>
      if decide (qc_State qc = StatePending ∨ qc_State qc = StateSent) then
        if (0 <? limit) && (limit <=? n + 1) then [qc]
        else qc :: deliverable_loop limit (n + 1) cmds
      else deliverable_loop limit n cmds
  end.

Definition Queue_Deliverable (dev : string) (limit : Z) (q : Queue)
    : result (list QueuedCommand) :=
  Ok (deliverable_loop limit 0 (dev_cmds q dev)).

(** [index[qc.ID] = qc]: an id's last command, by position. *)
Fixpoint index_of (i : nat) (cmds : list QueuedCommand) (index : gmap string nat)
    : gmap string nat :=
  match cmds with
  | [] => index
  | qc :: cmds => index_of (S i) cmds (<[qc_ID qc := i]> index)
  end.

Definition mark (d : Delivery) (qc : QueuedCommand) : QueuedCommand :=
  mkQueuedCommand (qc_Command qc) (qc_Seq qc) StateSent (qc_EnqueuedAt qc)
    (time_UTC (Delivery_At d)) (Delivery_MsgID d) (wrap64 (qc_Attempts qc + 1)) (qc_Result qc)
    (qc_CompletedAt qc).

Fixpoint mark_loop (index : gmap string nat) (ds : list Delivery) (cmds : list QueuedCommand)
    : list QueuedCommand * result unit :=
  match ds with
  | [] => (cmds, Ok tt)
  | d :: ds =>
      match index !! Delivery_CommandID d with
      | None => (cmds, Err [mdm_ErrNotFound])
      | Some i => mark_loop index ds (alter (mark d) i cmds)
      end
  end.

Definition Queue_MarkSent (dev : string) (ds : list Delivery) (q : Queue)
    : Queue * result unit :=
  let index := index_of 0 (dev_cmds q dev) ∅ in
  let '(cmds, r) := mark_loop index ds (dev_cmds q dev) in
  (update_cmds q dev (λ _, cmds), r).

Definition store (r : Result) (qc : QueuedCommand) : QueuedCommand :=
  mkQueuedCommand (qc_Command qc) (qc_Seq qc)
    (if StatusCode_Success (Res_Status r) then StateAcknowledged else StateFailed)
    (qc_EnqueuedAt qc) (qc_LastSentAt qc) (qc_SentMsgID qc) (qc_Attempts qc) (Some r)
    (time_UTC (Res_ReceivedAt r)).

(** The first command with the id, or nothing. *)
Fixpoint store_first (id : string) (r : Result) (cmds : list QueuedCommand)
    : option (list QueuedCommand) :=
  match cmds with
  | [] => None
  | qc :: cmds =>
      if decide (qc_ID qc = id) then Some (store r qc :: cmds)
      else match store_first id r cmds with Some cs => Some (qc :: cs) | None => None end
  end.

Definition Queue_StoreResult (dev id : string) (r : Result) (q : Queue) : Queue * result unit :=
  match store_first id r (dev_cmds q dev) with
  | Some cmds => (update_cmds q dev (λ _, cmds), Ok tt)
  | None => (q, Err [mdm_ErrNotFound])
  end.

Definition Queue_Get (dev id : string) (q : Queue) : result QueuedCommand :=
  match List.find (has_id id) (dev_cmds q dev) with
  | Some qc => Ok qc
  | None => Err [mdm_ErrNotFound]
  end.

Definition matches (qc : QueuedCommand) (query : Query) : bool :=
  match Query_Internal query with
  | Some b => Bool.eqb (qc_Internal qc) b
  | None => true
  end &&
  (bool_decide (Query_Scope query = "") || bool_decide (qc_Scope qc = Query_Scope query)) &&
  match Query_States query with
  | [] => true
  | sts => existsb (λ st, bool_decide (qc_State qc = st)) sts
  end.

Definition Queue_List (dev : string) (query : Query) (p : Page) (q : Queue)
    : result (PageResult QueuedCommand) :=
  page (List.filter (λ qc, matches qc query) (dev_cmds q dev)) p.

Fixpoint cancel_loop (want : gset string) (at_ : Time) (cmds : list QueuedCommand)
    : list QueuedCommand * Z :=
  match cmds with
  | [] => ([], 0)
  | qc :: cmds =>
      let '(cs, n) := cancel_loop want at_ cmds in
      if bool_decide (qc_ID qc ∈ want) && negb (State_Terminal (qc_State qc))
      then (cancelled_at at_ qc :: cs, n + 1)
      else (qc :: cs, n)
  end.

Definition Queue_Cancel (dev : string) (cids : list string) (at_ : Time) (q : Queue)
    : Queue * result Z :=
  let '(cmds, n) := cancel_loop (list_to_set cids) at_ (dev_cmds q dev) in
  (update_cmds q dev (λ _, cmds), Ok n).

(** Prune ranges over a map: [order] is the order Go happens to visit the
    devices in. *)
Definition prunable (before : Time) (qc : QueuedCommand) : bool :=
  State_Terminal (qc_State qc) && negb (time_IsZero (qc_CompletedAt qc)) &&
  time_Before (qc_CompletedAt qc) before.

Fixpoint prune_loop (before : Time) (limit n : Z) (cmds : list QueuedCommand)
    : list QueuedCommand * Z :=
  match cmds with
  | [] => ([], n)
  | qc :: cmds =>
      if prunable before qc && ((limit <=? 0) || (n <? limit))
      then prune_loop before limit (n + 1) cmds
      else let '(kept, n) := prune_loop before limit n cmds in (qc :: kept, n)
  end.

Fixpoint prune_devices (before : Time) (limit n : Z) (order : list string) (q : Queue)
    : Queue * Z :=
  match order with
  | [] => (q, n)
  | dev :: order =>
      let '(kept, n) := prune_loop before limit n (dev_cmds q dev) in
      prune_devices before limit n order (set_cmds q dev kept)
  end.

Definition Queue_Prune (order : list string) (before : Time) (limit : Z) (q : Queue)
    : Queue * result Z :=
  let '(q, n) := prune_devices before limit 0 order q in (q, Ok n).

(** ** Lemmas *)

Lemma existsb_has_id id cmds : existsb (has_id id) cmds = true ↔ id ∈ ids cmds.
Proof.
  unfold ids. rewrite existsb_exists. split.
  - intros (qc & Hin & H). unfold has_id in H. btrue. subst.
    apply list_elem_of_fmap. exists qc. split; [done|]. by apply list_elem_of_In.
  - intros (qc & -> & Hin)%list_elem_of_fmap. exists qc.
    split; [by apply list_elem_of_In|]. by apply bool_decide_eq_true.
Qed.

Lemma deliverable_loop_all limit n cmds :
  limit ≤ 0 → deliverable_loop limit n cmds = List.filter deliverable cmds.
Proof.
  intros Hl. revert n. induction cmds as [|qc cmds IH]; intros n; simpl; [done|].
  destruct (Z.ltb_spec 0 limit); [lia|]. simpl. unfold deliverable at 1.
  case_decide as Hd; rewrite IH; [by rewrite bool_decide_true|by rewrite bool_decide_false].
Qed.

Lemma deliverable_loop_take limit n cmds :
  0 ≤ n < limit →
  deliverable_loop limit n cmds =
  take (Z.to_nat (limit - n)) (List.filter deliverable cmds).
Proof.
  revert n. induction cmds as [|qc cmds IH]; intros n Hn; simpl; [by rewrite take_nil|].
  destruct (Z.ltb_spec 0 limit); [|lia]. simpl. unfold deliverable at 1.
  case_decide as Hd.
  - rewrite bool_decide_true by done. destruct (Z.leb_spec limit (n + 1)).
    + replace (Z.to_nat (limit - n)) with 1%nat by lia. done.
    + rewrite IH by lia. replace (Z.to_nat (limit - n)) with (S (Z.to_nat (limit - (n + 1)))) by lia.
      done.
  - rewrite IH by done. by rewrite bool_decide_false.
Qed.

Lemma Deliverable_spec q dev limit :
  Queue_Deliverable dev limit q = Ok (upto limit (List.filter deliverable (dev_cmds q dev))).
Proof.
  unfold Queue_Deliverable, upto. f_equal. destruct (Z.ltb_spec 0 limit).
  - rewrite deliverable_loop_take by lia. by rewrite Z.sub_0_r.
  - by apply deliverable_loop_all.
Qed.

Lemma index_of_spec i cmds idx id j :
  NoDup (ids cmds) →
  index_of i cmds idx !! id = Some j ↔
  (∃ k, j = (i + k)%nat ∧ ids cmds !! k = Some id) ∨ (id ∉ ids cmds ∧ idx !! id = Some j).
Proof.
  revert i idx. induction cmds as [|qc cmds IH]; intros i idx Hnd; simpl.
  - split; [intros H; right; split; [apply not_elem_of_nil|done]|].
    intros [(k & _ & ?)|[_ ?]]; done.
  - apply NoDup_cons in Hnd as [Hnot Hnd]. rewrite (IH (S i) _ Hnd). split.
    + intros [(k & -> & Hk)|[Hni Hlk]].
      * left. exists (S k). split; [lia|done].
      * destruct (decide (qc_ID qc = id)) as [<-|Hne].
        -- rewrite lookup_insert_eq in Hlk. injection Hlk as <-. left. exists 0%nat.
           split; [lia|done].
        -- rewrite lookup_insert_ne in Hlk by done. right. split; [|done].
           apply not_elem_of_cons. auto.
    + intros [([|k] & -> & Hk)|[Hni Hlk]].
      * simpl in Hk. injection Hk as <-. right. split; [done|].
        rewrite lookup_insert_eq. f_equal. lia.
      * left. exists k. split; [lia|done].
      * apply not_elem_of_cons in Hni as [Hne Hni]. right. split; [done|].
        by rewrite lookup_insert_ne.
Qed.

Lemma alter_update f j id cmds :
  NoDup (ids cmds) → ids cmds !! j = Some id → alter f j cmds = update_id id f cmds.
Proof.
  unfold ids, update_id. intros Hnd Hj. apply list_eq. intros k.
  change (map ?f ?l) with (f <$> l) in *. rewrite list_lookup_fmap.
  destruct (decide (k = j)) as [->|Hne].
  - rewrite list_lookup_alter. rewrite list_lookup_fmap in Hj.
    destruct (cmds !! j) as [qc|]; [|done]. simpl in *. injection Hj as <-.
    by rewrite !decide_True by done.
  - rewrite list_lookup_alter_ne by done. destruct (cmds !! k) as [qc|] eqn:Hk; [|done].
    simpl. rewrite decide_False; [done|]. intros Heq. apply Hne.
    eapply (NoDup_lookup _ _ _ id Hnd); [|done]. by rewrite list_lookup_fmap, Hk, <- Heq.
Qed.

(** The deliveries of a MarkSent, applied in order. *)
Definition marked (ds : list Delivery) (cmds : list QueuedCommand) : list QueuedCommand :=
  foldl (λ cs d, update_id (Delivery_CommandID d) (sent_by d) cs) cmds ds.

Lemma ids_marked ds cmds : ids (marked ds cmds) = ids cmds.
Proof.
  revert cmds. induction ds as [|d ds IH]; intros cmds; simpl; [done|].
  rewrite IH. by apply ids_update.
Qed.

Lemma cmds_wf_marked ds cmds : cmds_wf cmds → cmds_wf (marked ds cmds).
Proof.
  revert cmds. induction ds as [|d ds IH]; intros cmds Hw; simpl; [done|].
  apply IH. by apply cmds_wf_update.
Qed.

Lemma mark_loop_spec index ds cmds cmds' r :
  NoDup (ids cmds) → (∀ id j, index !! id = Some j ↔ ids cmds !! j = Some id) →
  mark_loop index ds cmds = (cmds', r) →
  (∃ n, cmds' = marked (take n ds) cmds ∧ (r = Ok tt → n = length ds)) ∧
  (r = Ok tt ↔ Forall (λ d, Delivery_CommandID d ∈ ids cmds) ds).
Proof.
  revert cmds. induction ds as [|d ds IH]; intros cmds Hnd Hidx; simpl.
  - intros [= <- <-]. split; [by exists 0%nat|done].
  - destruct (index !! Delivery_CommandID d) as [j|] eqn:Ej.
    + apply Hidx in Ej. rewrite (alter_update _ _ _ _ Hnd Ej). intros E.
      assert (ids (update_id (Delivery_CommandID d) (mark d) cmds) = ids cmds) as Hids
        by by apply ids_update.
      rewrite <- Hids in Hnd, Hidx. destruct (IH _ Hnd Hidx E) as [(n & -> & Hn) Hr].
      split.
      * exists (S n). split; [done|]. intros Hok. by rewrite Hn.
      * rewrite Forall_cons, <- Hids, <- Hr. rewrite Hids. split; [|by intros [_ ?]].
        intros. split; [|done]. by eapply list_elem_of_lookup_2.
    + intros [= <- <-]. split; [by exists 0%nat|]. split; [done|].
      intros [Hin _]%Forall_cons. apply list_elem_of_lookup in Hin as [j Hj].
      apply Hidx in Hj. congruence.
Qed.

Lemma store_first_spec id r cmds :
  NoDup (ids cmds) →
  store_first id r cmds =
  if decide (id ∈ ids cmds) then Some (update_id id (answered_by r) cmds) else None.
Proof.
  induction cmds as [|qc cmds IH]; intros Hnd; [done|].
  apply NoDup_cons in Hnd as [Hnot Hnd]. cbn [store_first].
  assert (∀ cs, id ∉ ids cs → update_id id (answered_by r) cs = cs) as Hno.
  { intros cs Hni. unfold update_id. rewrite <- (map_id cs) at 2. apply map_ext_in.
    intros c Hc. rewrite decide_False; [done|]. intros <-. apply Hni.
    apply list_elem_of_fmap. exists c. split; [done|]. by apply list_elem_of_In. }
  destruct (decide (qc_ID qc = id)) as [<-|Hne].
  - rewrite decide_True by (simpl; apply list_elem_of_here). simpl. rewrite decide_True by done.
    by rewrite Hno.
  - rewrite IH by done. simpl. rewrite (decide_False (P := qc_ID qc = id)) by done.
    assert (id ∈ ids (qc :: cmds) ↔ id ∈ ids cmds) as Hiff.
    { simpl. rewrite elem_of_cons. naive_solver. }
    simpl in Hiff. do 2 case_decide; naive_solver.
Qed.

Lemma find_has_id id cmds :
  match List.find (has_id id) cmds with
  | Some qc => qc ∈ cmds ∧ qc_ID qc = id
  | None => id ∉ ids cmds
  end.
Proof.
  destruct (List.find _ _) as [qc|] eqn:E.
  - apply List.find_some in E as [Hin H]. unfold has_id in H. btrue.
    split; [by apply list_elem_of_In|done].
  - intros (qc & -> & Hin)%list_elem_of_fmap. apply list_elem_of_In in Hin.
    apply (List.find_none _ _ E) in Hin. unfold has_id in Hin. by btrue.
Qed.

(** ** Well-formedness *)

Definition queue_wf (q : Queue) : Prop := ∀ dev, cmds_wf (dev_cmds q dev).

Lemma dev_cmds_update q dev f d :
  (f [] = [] ∨ is_Some (q_byDev q !! dev)) →
  dev_cmds (update_cmds q dev f) d = if decide (d = dev) then f (dev_cmds q dev) else dev_cmds q d.
Proof.
  intros Hf. unfold dev_cmds, update_cmds; simpl. case_decide as Hd.
  - subst. rewrite lookup_alter_eq. destruct (q_byDev q !! dev) eqn:E; [done|].
    simpl. destruct Hf as [Hf|[? Hf]]; [done|congruence].
  - by rewrite lookup_alter_ne.
Qed.

Lemma dev_cmds_Some q dev qc : qc ∈ dev_cmds q dev → is_Some (q_byDev q !! dev).
Proof.
  unfold dev_cmds. destruct (q_byDev q !! dev); [done|]. by intros ?%not_elem_of_nil.
Qed.

Lemma Enqueue_spec dev c at_ q q' r :
  Queue_Enqueue dev c at_ q = (q', r) →
  match r with
  | Ok qc =>
      q_byDev q' = <[dev := dev_cmds q dev ++ [qc]]> (q_byDev q) ∧
      q_seq q' = <[dev := qc_Seq qc]> (q_seq q) ∧
      qc_Seq qc = wrap64 (default 0 (q_seq q !! dev) + 1) ∧
      qc_State qc = StatePending ∧ qc_ID qc ∉ ids (dev_cmds q dev) ∧ qc_ID qc ≠ "" ∧
      ∃ m, c = Some m ∧ MValidate (Some m) = Ok tt ∧
           qc_Body qc = cmd_Body m ∧ qc_Scope qc = cmd_Scope m ∧
           qc_Internal qc = cmd_Internal m ∧ (cmd_ID m ≠ "" → qc_ID qc = cmd_ID m)
  | Err e => q_byDev q' = q_byDev q ∧ q_seq q' = q_seq q
  end.
Proof.
  unfold Queue_Enqueue. case_decide; [by intros [= <- <-]|].
  destruct (MValidate c) as [[]|e] eqn:Ev; [|by intros [= <- <-]].
  destruct c as [m|]; [|by intros [= <- <-]].
  set (p := if decide (cmd_ID m = "") then _ else _).
  assert (q_byDev p.1 = q_byDev q ∧ q_seq p.1 = q_seq q ∧ p.2 ≠ "" ∧
    (cmd_ID m ≠ "" → p.2 = cmd_ID m)) as (Hb & Hs & Hne & Hid).
  { subst p. by case_decide. }
  destruct p as [q1 id]; simpl in *.
  assert (dev_cmds q1 dev = dev_cmds q dev) as Hd by (unfold dev_cmds; by rewrite Hb).
  rewrite Hd. destruct (existsb _ _) eqn:Ex; intros [= <- <-]; [done|]. simpl.
  rewrite Hb, Hs. split_and!; try done.
  - unfold qc_ID; simpl. rewrite <- existsb_has_id. by rewrite Ex.
  - by exists m.
Qed.

Lemma cmds_wf_snoc cmds qc :
  cmds_wf cmds → qc_ID qc ∉ ids cmds → qc_ID qc ≠ "" → mcommand_ok (qc_Command qc) →
  cmds_wf (cmds ++ [qc]).
Proof.
  intros [Hi Hn Hv] Hnot Hne Hok. split.
  - unfold ids. rewrite map_app. apply NoDup_app. split_and!; [done| |apply NoDup_singleton].
    intros x Hx ->%list_elem_of_singleton. done.
  - apply Forall_app. by rewrite Forall_singleton.
  - apply Forall_app. by rewrite Forall_singleton.
Qed.

Lemma dev_cmds_byDev q q' d : q_byDev q' = q_byDev q → dev_cmds q' d = dev_cmds q d.
Proof. unfold dev_cmds. by intros ->. Qed.

Lemma dev_cmds_insert q q' dev cmds d :
  q_byDev q' = <[dev := cmds]> (q_byDev q) →
  dev_cmds q' d = if decide (d = dev) then cmds else dev_cmds q d.
Proof.
  unfold dev_cmds. intros ->. case_decide; [subst; by rewrite lookup_insert_eq|].
  by rewrite lookup_insert_ne.
Qed.

Lemma queue_wf_dev q q' dev :
  queue_wf q → cmds_wf (dev_cmds q' dev) → (∀ d, d ≠ dev → dev_cmds q' d = dev_cmds q d) →
  queue_wf q'.
Proof.
  intros Hw Hd Ho d. destruct (decide (d = dev)) as [->|]; [done|]. by rewrite Ho.
Qed.

Lemma Enqueue_law dev c at_ q q' r :
  queue_wf q → Queue_Enqueue dev c at_ q = (q', r) →
  queue_wf q' ∧ (∀ d, d ≠ dev → dev_cmds q' d = dev_cmds q d) ∧
  match r with
  | Ok qc =>
      dev_cmds q' dev = dev_cmds q dev ++ [qc] ∧ qc_State qc = StatePending ∧
      (∃ m, c = Some m ∧ MValidate (Some m) = Ok tt ∧ qc_Body qc = cmd_Body m ∧
            qc_Scope qc = cmd_Scope m ∧ qc_Internal qc = cmd_Internal m ∧
            (cmd_ID m ≠ "" → qc_ID qc = cmd_ID m))
  | Err e => dev_cmds q' dev = dev_cmds q dev
  end.
Proof.
  intros Hw E. apply Enqueue_spec in E. destruct r as [qc|e].
  - destruct E as (Hb & _ & _ & Hst & Hnot & Hne & m & -> & Hv & Hbd & Hsc & Hin & Hid).
    pose proof (dev_cmds_insert q q' dev _ dev Hb) as Hdev. rewrite decide_True in Hdev by done.
    assert (∀ d, d ≠ dev → dev_cmds q' d = dev_cmds q d) as Ho.
    { intros d Hd. rewrite (dev_cmds_insert _ _ _ _ d Hb). by rewrite decide_False. }
    split_and!; [|done..|by exists m].
    apply (queue_wf_dev q q' dev); [done| |done]. rewrite Hdev.
    apply cmds_wf_snoc; [apply Hw|done..|]. apply MValidate_iff in Hv.
    unfold mcommand_ok in *. unfold qc_Body, qc_Scope in *. by rewrite Hbd, Hsc.
  - destruct E as [Hb _]. split_and!; [|by intros; apply dev_cmds_byDev..|by apply dev_cmds_byDev].
    intros d. by rewrite (dev_cmds_byDev q).
Qed.

Lemma MarkSent_law dev ds q q' r :
  queue_wf q → Queue_MarkSent dev ds q = (q', r) →
  ∃ n, dev_cmds q' dev = marked (take n ds) (dev_cmds q dev) ∧
  q_seq q' = q_seq q ∧
  (r = Ok tt → n = length ds) ∧
  queue_wf q' ∧ (∀ d, d ≠ dev → dev_cmds q' d = dev_cmds q d) ∧
  (r = Ok tt ↔ Forall (λ d, Delivery_CommandID d ∈ ids (dev_cmds q dev)) ds).
Proof.
  intros Hw. unfold Queue_MarkSent.
  destruct (mark_loop _ _ _) as [cmds r'] eqn:E. intros [= <- <-].
  pose proof (wf_ids _ (Hw dev)) as Hnd.
  apply mark_loop_spec in E; [|done|].
  2: { intros id j. rewrite index_of_spec by done. rewrite lookup_empty. split.
       - intros [(k & -> & ?)|[_ [=]]]. done.
       - intros ?. left. by exists j. }
  destruct E as [(n & -> & Hn) Hr].
  assert (∀ d, dev_cmds (update_cmds q dev (λ _, marked (take n ds) (dev_cmds q dev))) d =
    if decide (d = dev) then marked (take n ds) (dev_cmds q dev) else dev_cmds q d) as Hd.
  { intros d. destruct (q_byDev q !! dev) eqn:Eb.
    - rewrite dev_cmds_update; [done|rewrite Eb; eauto].
    - assert (dev_cmds q dev = []) as Hnil by (unfold dev_cmds; by rewrite Eb).
      assert (∀ l, marked l [] = []) as Hm by (intros l; induction l; done).
      rewrite Hnil, Hm. rewrite dev_cmds_update by auto. done. }
  exists n. rewrite Hd, decide_True by done. split_and!; try done.
  - apply (queue_wf_dev q _ dev); [done|rewrite Hd, decide_True by done|].
    + apply cmds_wf_marked, Hw.
    + intros d Hne. by rewrite Hd, decide_False.
  - intros d Hne. by rewrite Hd, decide_False.
Qed.

Lemma StoreResult_law dev id r q q' res :
  queue_wf q → Queue_StoreResult dev id r q = (q', res) →
  q_seq q' = q_seq q ∧ queue_wf q' ∧ (∀ d, d ≠ dev → dev_cmds q' d = dev_cmds q d) ∧
  match res with
  | Ok _ => id ∈ ids (dev_cmds q dev) ∧
            dev_cmds q' dev = update_id id (answered_by r) (dev_cmds q dev)
  | Err e => id ∉ ids (dev_cmds q dev) ∧ q' = q ∧ errors_Is e mdm_ErrNotFound = true
  end.
Proof.
  intros Hw. unfold Queue_StoreResult.
  rewrite store_first_spec by apply wf_ids, Hw.
  case_decide as Hin; intros [= <- <-]; [|split_and!; done].
  pose proof Hin as (qc & _ & Hqc)%list_elem_of_fmap. apply dev_cmds_Some in Hqc.
  assert (∀ d, dev_cmds (update_cmds q dev (λ _, update_id id (answered_by r) (dev_cmds q dev))) d =
    if decide (d = dev) then update_id id (answered_by r) (dev_cmds q dev) else dev_cmds q d)
    as Hd by (intros; rewrite dev_cmds_update; auto).
  split_and!; [done| | |done|by rewrite Hd, decide_True].
  - apply (queue_wf_dev q _ dev); [done|rewrite Hd, decide_True by done|].
    + apply cmds_wf_update; [done|apply Hw].
    + intros d Hne. by rewrite Hd, decide_False.
  - intros d Hne. by rewrite Hd, decide_False.
Qed.

Lemma Get_law dev id q :
  match Queue_Get dev id q with
  | Ok qc => qc ∈ dev_cmds q dev ∧ qc_ID qc = id
  | Err e => id ∉ ids (dev_cmds q dev) ∧ errors_Is e mdm_ErrNotFound = true
  end.
Proof.
  unfold Queue_Get. pose proof (find_has_id id (dev_cmds q dev)) as H.
  by destruct (List.find _ _).
Qed.

(** ** The interface is implemented *)

#[global] Instance inmem_queue : CommandQueue Queue := {
  q_Enqueue := Queue_Enqueue;
  q_Deliverable := Queue_Deliverable;
  q_MarkSent := Queue_MarkSent;
  q_StoreResult := Queue_StoreResult;
  q_Get := Queue_Get;
  q_cmds := dev_cmds;
  q_wf := queue_wf }.

#[global] Instance inmem_queue_laws : CommandQueueLaws Queue.
Proof.
  split; simpl.
  - intros q dev Hw. apply Hw.
  - apply Enqueue_law.
  - intros. apply Deliverable_spec.
  - intros dev ds q q' r Hw E. destruct (MarkSent_law _ _ _ _ _ Hw E)
      as (n & Hc & _ & Hn & Hw' & Ho & Hr).
    split_and!; [done..|]. intros Hok. rewrite Hc, Hn by done. by rewrite firstn_all.
  - intros dev id r q q' res Hw E. by destruct (StoreResult_law _ _ _ _ _ _ Hw E) as [_ ?].
  - intros. apply Get_law.
Qed.

(** ** Cancel and Prune *)

Lemma cancel_loop_spec want at_ cmds :
  cancel_loop want at_ cmds =
  (map (λ qc, if bool_decide (qc_ID qc ∈ want) && negb (State_Terminal (qc_State qc))
              then cancelled_at at_ qc else qc) cmds,
   zlength (List.filter
     (λ qc, bool_decide (qc_ID qc ∈ want) && negb (State_Terminal (qc_State qc))) cmds)).
Proof.
  induction cmds as [|qc cmds IH]; simpl; [done|]. rewrite IH.
  destruct (_ && _); [|done]. f_equal. unfold zlength; simpl length. lia.
Qed.

(** What pruning one device's list does: [k] commands go, all of them
    prunable, and the rest stay in order. *)
Definition pruned (before : Time) (k : Z) (cmds kept : list QueuedCommand) : Prop :=
  kept `sublist_of` cmds ∧
  List.filter (λ qc, negb (prunable before qc)) kept =
  List.filter (λ qc, negb (prunable before qc)) cmds ∧
  zlength kept = zlength cmds - k.

Lemma prune_loop_spec before limit n cmds kept n' :
  prune_loop before limit n cmds = (kept, n') →
  pruned before (n' - n) cmds kept ∧ n ≤ n' ∧
  (0 < limit → n ≤ limit → n' ≤ limit) ∧
  ((limit ≤ 0 ∨ n' < limit) → List.filter (prunable before) kept = []).
Proof.
  revert n kept. induction cmds as [|qc cmds IH]; intros n kept; simpl.
  - intros [= <- <-]. unfold pruned, zlength. split_and!; [done..|simpl; lia|lia|lia|done].
  - destruct (prunable before qc) eqn:Ep; simpl;
      [destruct ((limit <=? 0) || (n <? limit)) eqn:El|].
    + intros E. destruct (IH _ _ E) as ((Hsub & Hf & Hl) & Hn & Hlim & Hall).
      unfold pruned, zlength in *. split_and!; try done.
      * by apply sublist_cons.
      * simpl. by rewrite Ep.
      * simpl length. lia.
      * lia.
      * intros Hp Hnl. apply Hlim; [done|]. apply orb_true_iff in El as [El|El]; btrue; lia.
    + destruct (prune_loop _ _ _ _) as [k m] eqn:E. intros [= <- <-].
      destruct (IH _ _ E) as ((Hsub & Hf & Hl) & Hn & Hlim & Hall).
      apply orb_false_iff in El as [El1 El2]. btrue.
      unfold pruned, zlength in *. split_and!; try done.
      * by apply sublist_skip.
      * simpl. by rewrite Ep.
      * simpl length. lia.
      * lia.
    + destruct (prune_loop _ _ _ _) as [k m] eqn:E. intros [= <- <-].
      destruct (IH _ _ E) as ((Hsub & Hf & Hl) & Hn & Hlim & Hall).
      unfold pruned, zlength in *. split_and!; try done.
      * by apply sublist_skip.
      * simpl. by rewrite Ep, Hf.
      * simpl length. lia.
      * intros Hor. simpl. rewrite Ep. by apply Hall.
Qed.

(** The commands of the devices in [order], counted. *)
Definition total (q : Queue) (order : list string) : Z :=
  foldr (λ dev n, zlength (dev_cmds q dev) + n) 0 order.

Lemma prune_devices_spec before limit n order q q' n' :
  NoDup order → prune_devices before limit n order q = (q', n') →
  q_seq q' = q_seq q ∧
  (∀ dev, dev ∉ order → dev_cmds q' dev = dev_cmds q dev) ∧
  (∀ dev, dev ∈ order → ∃ k, pruned before k (dev_cmds q dev) (dev_cmds q' dev)) ∧
  total q' order = total q order - (n' - n) ∧ n ≤ n' ∧
  (0 < limit → n ≤ limit → n' ≤ limit) ∧
  ((limit ≤ 0 ∨ n' < limit) →
   ∀ dev, dev ∈ order → List.filter (prunable before) (dev_cmds q' dev) = []).
Proof.
  revert n q. induction order as [|dev order IH]; intros n q Hnd; simpl.
  - intros [= <- <-]. split_and!; try done; try lia; intros; by set_solver.
  - apply NoDup_cons in Hnd as [Hnot Hnd].
    destruct (prune_loop _ _ _ _) as [kept n1] eqn:El. intros E.
    destruct (prune_loop_spec _ _ _ _ _ _ El) as ([Hsub [Hf Hl]] & Hn1 & Hlim1 & Hall1).
    destruct (IH _ _ Hnd E) as (Hseq & Ho & Hin & Ht & Hn & Hlim & Hall).
    assert (∀ d, dev_cmds (set_cmds q dev kept) d = if decide (d = dev) then kept else dev_cmds q d)
      as Hd by (intros; by apply dev_cmds_insert).
    assert (dev_cmds q' dev = kept) as Hdev by (rewrite Ho, Hd by done; by rewrite decide_True).
    assert (total (set_cmds q dev kept) order = total q order) as Htot.
    { clear -Hd Hnot. induction order as [|d order IH]; [done|]. simpl.
      apply not_elem_of_cons in Hnot as [Hne Hnot]. rewrite Hd, decide_False, IH; done. }
    split_and!; try lia.
    + done.
    + intros d Hnd'. apply not_elem_of_cons in Hnd' as [Hne Hnd'].
      rewrite Ho, Hd by done. by rewrite decide_False.
    + intros d [->|Hdin]%elem_of_cons.
      * exists (n1 - n). by rewrite Hdev.
      * destruct (Hin d Hdin) as [k Hk]. rewrite Hd, decide_False in Hk by set_solver.
        by exists k.
    + rewrite Hdev. lia.
    + intros Hor d [->|Hdin]%elem_of_cons; [rewrite Hdev; apply Hall1; lia|].
      by apply Hall.
Qed.

(** ** Reachable queues *)

Definition keys (q : Queue) : list string := (map_to_list (q_byDev q)).*1.

Inductive queue_step : Queue → Queue → Prop :=
  | step_enqueue dev c at_ q : queue_step q (Queue_Enqueue dev c at_ q).1
  | step_mark_sent dev ds q : queue_step q (Queue_MarkSent dev ds q).1
  | step_store_result dev id r q : queue_step q (Queue_StoreResult dev id r q).1
  | step_cancel dev cids at_ q : queue_step q (Queue_Cancel dev cids at_ q).1
  | step_prune order before limit q :
      order ≡ₚ keys q → queue_step q (Queue_Prune order before limit q).1.

(** Seqs strictly increase along a device's list, up to the last one given
    out. *)
Definition seq_sorted (last : Z) (cmds : list QueuedCommand) : Prop :=
  StronglySorted (λ a b, qc_Seq a < qc_Seq b) cmds ∧
  Forall (λ qc, 1 ≤ qc_Seq qc ≤ last) cmds.

Definition queue_inv (n : Z) (q : Queue) : Prop :=
  queue_wf q ∧
  ∀ dev, 0 ≤ default 0 (q_seq q !! dev) ≤ n ∧
         seq_sorted (default 0 (q_seq q !! dev)) (dev_cmds q dev).

Lemma seq_sorted_map last f cmds :
  (∀ qc, qc_Seq (f qc) = qc_Seq qc) → seq_sorted last cmds → seq_sorted last (map f cmds).
Proof.
  intros Hf [Hs Hb]. split.
  - clear Hb. induction Hs as [|qc cs Hs IH Hall]; simpl; constructor; [done|].
    rewrite Forall_forall in Hall |- *. intros x (y & -> & Hy)%list_elem_of_fmap.
    rewrite !Hf. by apply Hall.
  - rewrite Forall_forall in Hb |- *. intros x (y & -> & Hy)%list_elem_of_fmap.
    rewrite Hf. by apply Hb.
Qed.

Lemma Forall_sublist {A} (P : A → Prop) (cs l : list A) :
  cs `sublist_of` l → Forall P l → Forall P cs.
Proof. induction 1; rewrite ?Forall_cons; naive_solver. Qed.

Lemma seq_sorted_sublist last cs cmds :
  cs `sublist_of` cmds → seq_sorted last cmds → seq_sorted last cs.
Proof.
  intros Hsub [Hs Hb]. split.
  - clear Hb. induction Hsub as [|qc cs cmds Hsub IH|qc cs cmds Hsub IH]; [done|..];
      apply StronglySorted_inv in Hs as [Hs Hall]; [|by apply IH].
    constructor; [by apply IH|]. by eapply Forall_sublist.
  - by eapply Forall_sublist.
Qed.

Lemma cmds_wf_sublist cs cmds : cs `sublist_of` cmds → cmds_wf cmds → cmds_wf cs.
Proof.
  intros Hsub [Hi Hn Hv]. split; [|by eapply Forall_sublist..].
  eapply sublist_NoDup; [done|]. unfold ids. change (map qc_ID) with (fmap (M:=list) qc_ID).
  by apply fmap_sublist.
Qed.

Lemma seq_sorted_snoc s cmds qc :
  seq_sorted s cmds → qc_Seq qc = s + 1 → 0 ≤ s → seq_sorted (s + 1) (cmds ++ [qc]).
Proof.
  intros [Hs Hb] Hq H0. split.
  - clear H0. induction Hs as [|c cs Hs IH Hall]; simpl.
    + repeat constructor.
    + apply Forall_cons in Hb as [Hc Hb]. constructor; [by apply IH|].
      apply Forall_app. rewrite Forall_singleton. split; [done|lia].
  - apply Forall_app. rewrite Forall_singleton. split; [|lia].
    eapply Forall_impl; [done|]. simpl. lia.
Qed.

Lemma Cancel_spec dev cids at_ q :
  let sel qc := bool_decide (qc_ID qc ∈ (list_to_set cids : gset string)) &&
                negb (State_Terminal (qc_State qc)) in
  let q' := (Queue_Cancel dev cids at_ q).1 in
  (Queue_Cancel dev cids at_ q).2 = Ok (zlength (List.filter sel (dev_cmds q dev))) ∧
  q_seq q' = q_seq q ∧
  ∀ d, dev_cmds q' d =
    if decide (d = dev)
    then map (λ qc, if sel qc then cancelled_at at_ qc else qc) (dev_cmds q dev)
    else dev_cmds q d.
Proof.
  simpl. unfold Queue_Cancel. rewrite cancel_loop_spec. simpl. split_and!; [done..|].
  intros d. destruct (q_byDev q !! dev) eqn:Eb.
  - rewrite dev_cmds_update; [done|rewrite Eb; eauto].
  - assert (dev_cmds q dev = []) as -> by (unfold dev_cmds; by rewrite Eb).
    rewrite dev_cmds_update by auto. done.
Qed.

Lemma NoDup_keys q order : order ≡ₚ keys q → NoDup order ∧ ∀ dev, dev_cmds q dev ≠ [] → dev ∈ order.
Proof.
  intros Hp. split.
  - rewrite Hp. apply NoDup_fst_map_to_list.
  - intros dev Hne. rewrite Hp. unfold keys, dev_cmds in *.
    destruct (q_byDev q !! dev) as [cs|] eqn:E; [|done].
    apply list_elem_of_fmap. exists (dev, cs). split; [done|]. by apply elem_of_map_to_list.
Qed.

Lemma prune_sublist order before limit q dev :
  NoDup order → dev_cmds (Queue_Prune order before limit q).1 dev `sublist_of` dev_cmds q dev.
Proof.
  intros Hnd. unfold Queue_Prune. destruct (prune_devices _ _ _ _ _) as [q' n] eqn:E.
  destruct (prune_devices_spec _ _ _ _ _ _ _ Hnd E) as (_ & Ho & Hin & _). simpl.
  destruct (decide (dev ∈ order)) as [Hd|Hd].
  - by destruct (Hin dev Hd) as (k & ? & _).
  - by rewrite Ho.
Qed.

Lemma prune_seq order before limit q :
  NoDup order → q_seq (Queue_Prune order before limit q).1 = q_seq q.
Proof.
  intros Hnd. unfold Queue_Prune. destruct (prune_devices _ _ _ _ _) as [q' n] eqn:E.
  by destruct (prune_devices_spec _ _ _ _ _ _ _ Hnd E) as (? & _).
Qed.

Lemma seq_sorted_marked last ds cmds : seq_sorted last cmds → seq_sorted last (marked ds cmds).
Proof.
  revert cmds. induction ds as [|d ds IH]; intros cmds Hs; simpl; [done|].
  apply IH. apply seq_sorted_map; [|done]. intros qc. by case_decide.
Qed.

(** A step that gives out no Seq. *)
Lemma queue_inv_same n q q' :
  queue_wf q' → q_seq q' = q_seq q →
  (∀ dev last, seq_sorted last (dev_cmds q dev) → seq_sorted last (dev_cmds q' dev)) →
  queue_inv n q → queue_inv (n + 1) q'.
Proof.
  intros Hw Hs Hk [_ Hi]. split; [done|]. intros dev. rewrite Hs. destruct (Hi dev) as [Hb Hso].
  split; [lia|by apply Hk].
Qed.

Lemma queue_inv_enqueue n dev c at_ q :
  n < max_int64 → queue_inv n q → queue_inv (n + 1) (Queue_Enqueue dev c at_ q).1.
Proof.
  intros Hn Hinv. destruct (Queue_Enqueue dev c at_ q) as [q' r] eqn:E. simpl.
  pose proof (Enqueue_law _ _ _ _ _ _ (proj1 Hinv) E) as (Hw & Ho & _).
  apply Enqueue_spec in E. destruct r as [qc|e].
  - destruct E as (Hb & Hs & Hq & _). split; [done|]. intros d.
    rewrite Hs, (dev_cmds_insert _ _ _ _ d Hb). destruct Hinv as [_ Hi].
    destruct (Hi dev) as [Hr Hso].
    rewrite wrap64_id in Hq by (unfold in_int64, min_int64, max_int64 in *; lia).
    case_decide as Hd.
    + subst d. rewrite lookup_insert_eq. simpl. rewrite Hq.
      split; [lia|]. by apply seq_sorted_snoc; [|rewrite Hq|lia].
    + rewrite lookup_insert_ne by done. destruct (Hi d). split; [lia|done].
  - destruct E as [Hb Hs]. apply (queue_inv_same _ q); [done..| |done].
    intros d last. by rewrite (dev_cmds_byDev q q').
Qed.

Lemma queue_inv_step n q q' :
  n < max_int64 → queue_inv n q → queue_step q q' → queue_inv (n + 1) q'.
Proof.
  intros Hn Hinv Hstep. pose proof (proj1 Hinv) as Hw.
  destruct Hstep as [dev c at_ q|dev ds q|dev id r q|dev cids at_ q|order before limit q Hp].
  - by apply queue_inv_enqueue.
  - destruct (Queue_MarkSent dev ds q) as [q' r] eqn:E.
    destruct (MarkSent_law _ _ _ _ _ Hw E) as (m & Hc & Hs & _ & Hw' & Ho & _).
    apply (queue_inv_same _ q); [done..| |done]. intros d last. simpl.
    destruct (decide (d = dev)) as [->|]; [rewrite Hc; apply seq_sorted_marked|by rewrite Ho].
  - destruct (Queue_StoreResult dev id r q) as [q' res] eqn:E.
    destruct (StoreResult_law _ _ _ _ _ _ Hw E) as (Hs & Hw' & Ho & Hc).
    apply (queue_inv_same _ q); [done..| |done]. intros d last. simpl.
    destruct (decide (d = dev)) as [->|]; [|by rewrite Ho].
    destruct res; [destruct Hc as [_ ->]|by destruct Hc as (_ & -> & _)].
    apply seq_sorted_map. intros qc. by case_decide.
  - destruct (Cancel_spec dev cids at_ q) as (_ & Hs & Hc).
    apply (queue_inv_same _ q); [|done| |done].
    + intros d. rewrite Hc. case_decide; [|apply Hw]. apply cmds_wf_map; [|apply Hw].
      intros qc. by case_match.
    + intros d last. rewrite Hc. case_decide; [subst|done]. apply seq_sorted_map.
      intros qc. by case_match.
  - destruct (NoDup_keys q order Hp) as [Hnd _].
    apply (queue_inv_same _ q); [|by apply prune_seq| |done].
    + intros d. eapply cmds_wf_sublist; [by apply prune_sublist|apply Hw].
    + intros d last. apply seq_sorted_sublist. by apply prune_sublist.
Qed.

Lemma queue_wf_empty : queue_wf NewQueue.
Proof. intros dev. split; simpl; constructor. Qed.

Lemma queue_inv_empty : queue_inv 0 NewQueue.
Proof.
  split; [apply queue_wf_empty|]. intros dev. simpl. split; [done|]. split; constructor.
Qed.

Lemma queue_inv_reachable k n q q' :
  nsteps queue_step k q q' → 0 ≤ n → n + Z.of_nat k ≤ max_int64 → queue_inv n q →
  queue_inv (n + Z.of_nat k) q'.
Proof.
  intros Hs. revert n. induction Hs as [q|k q1 q2 q3 Hstep Hs IH]; intros n Hn Hk Hinv.
  - by rewrite Z.add_0_r.
  - replace (n + Z.of_nat (S k)) with ((n + 1) + Z.of_nat k) by lia.
    apply IH; [lia..|]. eapply queue_inv_step; [|done..]. lia.
Qed.

(** ** Properties *)

(** C22: The in-memory Queue implements the CommandQueue contract the session
    engine is verified against. *)
Theorem inmem_implements_queue : CommandQueueLaws Queue.
Proof. apply _. Qed.

(** After any sequence of queue operations (fewer than 2^63 of them), with
    Prune visiting the devices in any order, every device's commands have
    distinct non-empty ids, are all valid commands, and stand in strictly
    increasing Seq order, so Deliverable sends them in the order they were
    enqueued. *)
Theorem inmem_queue_invariant k q dev :
  nsteps queue_step k NewQueue q → Z.of_nat k ≤ max_int64 →
  NoDup (ids (dev_cmds q dev)) ∧
  Forall (λ qc, qc_ID qc ≠ "" ∧ MValidate (Some (qc_Command qc)) = Ok tt) (dev_cmds q dev) ∧
  StronglySorted (λ a b, qc_Seq a < qc_Seq b) (dev_cmds q dev) ∧
  Forall (λ qc, 1 ≤ qc_Seq qc ≤ Z.of_nat k) (dev_cmds q dev).
Proof.
  intros Hs Hk.
  destruct (queue_inv_reachable _ 0 _ _ Hs (Z.le_refl 0) Hk queue_inv_empty) as [Hw Hi].
  destruct (Hw dev) as [Hids Hn Hv]. destruct (Hi dev) as [Hb [Hso Hr]].
  split_and!; try done.
  - apply Forall_forall. intros qc Hin. rewrite Forall_forall in Hn, Hv.
    rewrite MValidate_iff. auto.
  - eapply Forall_impl; [exact Hr|]. simpl. lia.
Qed.

Lemma inmem_queue_invariant_witness :
  NoDup (ids (dev_cmds (Queue_Enqueue "d" (Some ex_exec) 5
    (Queue_Enqueue "d" (Some ex_add) 4 NewQueue).1).1 "d")).
Proof.
  apply (inmem_queue_invariant 2).
  - eapply nsteps_l; [apply (step_enqueue "d" (Some ex_add) 4)|].
    eapply nsteps_l; [apply (step_enqueue "d" (Some ex_exec) 5)|]. apply nsteps_O.
  - vm_compute. discriminate.
Defined.

(** Enqueueing a valid command under an id of the caller's: a duplicate
    id for the device is refused with ErrConflict and changes nothing; a fresh
    one is stored pending at the end of the device's list, and is returned. *)
Theorem enqueue_outcome dev m at_ q :
  dev ≠ "" → MValidate (Some m) = Ok tt → cmd_ID m ≠ "" →
  (cmd_ID m ∈ ids (dev_cmds q dev) →
   Queue_Enqueue dev (Some m) at_ q = (q, Err [mdm_ErrConflict])) ∧
  (cmd_ID m ∉ ids (dev_cmds q dev) →
   ∃ q' qc, Queue_Enqueue dev (Some m) at_ q = (q', Ok qc) ∧
     qc_Command qc = m ∧ qc_State qc = StatePending ∧ qc_Attempts qc = 0 ∧
     qc_EnqueuedAt qc = at_ ∧ dev_cmds q' dev = dev_cmds q dev ++ [qc] ∧
     ∀ d, d ≠ dev → dev_cmds q' d = dev_cmds q d).
Proof.
  intros Hd Hv Hid. unfold Queue_Enqueue. rewrite decide_False by done. rewrite Hv.
  rewrite (decide_False (P := cmd_ID m = "")) by done. rewrite <- existsb_has_id.
  split; [by intros ->|]. intros ->%not_true_is_false.
  eexists _, _. split; [done|]. simpl. destruct m; simpl. split_and!; try done.
  - unfold dev_cmds; simpl. by rewrite lookup_insert_eq.
  - intros d Hne. unfold dev_cmds; simpl. by rewrite lookup_insert_ne.
Qed.

Lemma enqueue_outcome_witness :
  ∃ q' qc, Queue_Enqueue "d" (Some ex_add) 5 NewQueue = (q', Ok qc) ∧
     qc_Command qc = ex_add ∧ qc_State qc = StatePending ∧ qc_Attempts qc = 0 ∧
     qc_EnqueuedAt qc = 5 ∧ dev_cmds q' "d" = dev_cmds NewQueue "d" ++ [qc] ∧
     ∀ d, d ≠ "d" → dev_cmds q' d = dev_cmds NewQueue d.
Proof.
  apply (enqueue_outcome "d" ex_add 5 NewQueue); try discriminate; [reflexivity|].
  vm_compute. inversion 1.
Defined.

(** Cancel withdraws exactly the named commands that are not yet in a
    terminal state, reports how many, and touches no other command. *)
Theorem cancel_correct dev cids at_ q :
  let sel qc := bool_decide (qc_ID qc ∈ cids) && negb (State_Terminal (qc_State qc)) in
  let '(q', r) := Queue_Cancel dev cids at_ q in
  r = Ok (zlength (List.filter sel (dev_cmds q dev))) ∧
  dev_cmds q' dev = map (λ qc, if sel qc then cancelled_at at_ qc else qc) (dev_cmds q dev) ∧
  ∀ d, d ≠ dev → dev_cmds q' d = dev_cmds q d.
Proof.
  simpl. destruct (Cancel_spec dev cids at_ q) as (Hr & _ & Hc).
  destruct (Queue_Cancel dev cids at_ q) as [q' r]. simpl in *.
  assert (∀ qc, bool_decide (qc_ID qc ∈ (list_to_set cids : gset string)) =
    bool_decide (qc_ID qc ∈ cids)) as Hb.
  { intros qc. apply bool_decide_ext. apply elem_of_list_to_set. }
  split_and!.
  - rewrite Hr. do 2 f_equal. apply filter_ext. intros qc. by rewrite Hb.
  - rewrite Hc, decide_True by done. apply map_ext. intros qc. by rewrite Hb.
  - intros d Hne. by rewrite Hc, decide_False.
Qed.

(** Prune, whatever order Go visits the devices in, removes only terminal
    commands completed before the given time, keeps the others in order,
    reports exactly how many it removed, never removes more than a positive
    limit, and leaves none behind when it had room to remove them all. *)
Theorem prune_correct order before limit q q' n :
  order ≡ₚ keys q → Queue_Prune order before limit q = (q', Ok n) →
  (∀ dev, ∃ k, pruned before k (dev_cmds q dev) (dev_cmds q' dev)) ∧
  total q' order = total q order - n ∧ 0 ≤ n ∧ (0 < limit → n ≤ limit) ∧
  ((limit ≤ 0 ∨ n < limit) → ∀ dev, List.filter (prunable before) (dev_cmds q' dev) = []).
Proof.
  intros Hp. destruct (NoDup_keys q order Hp) as [Hnd Hkeys]. unfold Queue_Prune.
  destruct (prune_devices _ _ _ _ _) as [q1 n1] eqn:E. intros [= <- <-].
  destruct (prune_devices_spec _ _ _ _ _ _ _ Hnd E) as (_ & Ho & Hin & Ht & Hn & Hlim & Hall).
  assert (∀ dev, dev ∉ order → dev_cmds q1 dev = [] ∧ dev_cmds q dev = []) as Hout.
  { intros dev Hd. rewrite Ho by done. destruct (dev_cmds q dev) eqn:Ed; [done|].
    destruct Hd. apply Hkeys. by rewrite Ed. }
  split_and!; try lia.
  - intros dev. destruct (decide (dev ∈ order)) as [Hd|Hd]; [by apply Hin|].
    destruct (Hout dev Hd) as [-> ->]. exists 0. by split_and!.
  - intros Hor dev. destruct (decide (dev ∈ order)) as [Hd|Hd]; [by apply Hall|].
    by destruct (Hout dev Hd) as [-> _].
Qed.

Definition ex_queue : Queue :=
  (Queue_Cancel "d" ["a"] 7 (Queue_Enqueue "d" (Some ex_add) 4 NewQueue).1).1.

Lemma prune_correct_witness :
  let q' := (Queue_Prune ["d"] 100 5 ex_queue).1 in
  total ex_queue ["d"] = 1 ∧ total q' ["d"] = total ex_queue ["d"] - 1 ∧
  ∀ dev, List.filter (prunable 100) (dev_cmds q' dev) = [].
Proof.
  destruct (prune_correct ["d"] 100 5 ex_queue (Queue_Prune ["d"] 100 5 ex_queue).1 1)
    as (_ & Ht & _ & _ & Hall); [reflexivity|reflexivity|].
  split; [reflexivity|]. split; [exact Ht|]. apply Hall. right. reflexivity.
Defined.
