(* ===== verification/SqlBase.v ===== *)
(** * The SQL stores: tables, statements and transactions

    server/sqlstore/sqlstore.go, dialect.go and schema.go: the tables of the
    schema with their primary keys, the statements the stores issue as
    functions on the tables, and the transactions around them.

    A table is the list of its rows.  Text compares exactly, as in SQLite and
    in PostgreSQL; ORDER BY is applied wherever the order of a result is used.
    What the database answers to each call is a list of replies [c_replies]:
    [Some e] refuses the call with the error [e] and without an effect, [None]
    carries it out.  A transaction that is not committed leaves the tables as
    they were, but the variables of the Go function that ran in it keep what it
    wrote into them. *)
From stdpp Require Import base gmap strings list sorting.
From Stdlib Require Import ZArith Lia Ascii.
From S2P Require Import Prelude GoStrings.

Local Open Scope Z_scope.
Local Open Scope go_scope.

(** ** dialect.go *)

Inductive Kind : Set := SQLite | Postgres | MySQL | OtherKind (name : string).
#[global] Instance Kind_eq_dec : EqDecision Kind.
Proof. solve_decision. Defined.

Record dialect := mkDialect {
  d_kind : Kind;
  d_driver : string;
  d_blob : string;
  d_autoID : string;
  d_postgresPlaceholders : bool }.

Definition dialectFor (k : Kind) : result dialect :=
  match k with
  | SQLite => Ok (mkDialect SQLite "sqlite" "BLOB" "INTEGER PRIMARY KEY AUTOINCREMENT" false)
  | Postgres => Ok (mkDialect Postgres "pgx" "BYTEA" "BIGSERIAL PRIMARY KEY" true)
  | MySQL => Ok (mkDialect MySQL "mysql" "LONGBLOB" "BIGINT AUTO_INCREMENT PRIMARY KEY" false)
  | OtherKind _ => Err [sqlstore_ErrDialect]
  end.

(** The loop of [rebind]: [n] placeholders written so far. *)
Fixpoint rebind_from (n : Z) (query : string) : string :=
  match query with
  | EmptyString => ""
  | String c query =>
      if Ascii.eqb c "?"%char then "$" +:+ Itoa (n + 1) +:+ rebind_from (n + 1) query
      else String c (rebind_from n query)
  end.
Definition rebind (d : dialect) (query : string) : string :=
  if negb (d_postgresPlaceholders d) then query else rebind_from 0 query.

Definition incrementSeq (d : dialect) : string :=
  if decide (d_kind d = MySQL) then " ON DUPLICATE KEY UPDATE next_seq = next_seq + 1"
  else " ON CONFLICT (device_id) DO UPDATE SET next_seq = command_seq.next_seq + 1".

Definition createIndex (d : dialect) (name table cols : string) : string :=
  if decide (d_kind d = MySQL) then "CREATE INDEX " +:+ name +:+ " ON " +:+ table +:+ " (" +:+ cols +:+ ")"
  else "CREATE INDEX IF NOT EXISTS " +:+ name +:+ " ON " +:+ table +:+ " (" +:+ cols +:+ ")".

(** [strings.Join(l, ", ")] *)
Fixpoint join_comma (l : list string) : string :=
  match l with
  | [] => ""
  | [s] => s
  | s :: l => s +:+ ", " +:+ join_comma l
  end.
Definition upsert (d : dialect) (keyCols cols : list string) : string :=
  if decide (d_kind d = MySQL) then
    " ON DUPLICATE KEY UPDATE " +:+ join_comma (map (λ c, c +:+ " = VALUES(" +:+ c +:+ ")") cols)
  else
    " ON CONFLICT (" +:+ join_comma keyCols +:+ ") DO UPDATE SET " +:+
    join_comma (map (λ c, c +:+ " = EXCLUDED." +:+ c) cols).

(** [whereClause] *)
Definition whereClause (clauses : list string) : string :=
  match clauses with
  | [] => ""
  | c :: cs => " WHERE " +:+ foldl (λ out c, out +:+ " AND " +:+ c) c cs
  end.

(** ** Times and booleans in columns *)

(** January 1, 1970, as an instant. *)
Definition unix_epoch : Time := 62135596800 * Second.

(** [UnixNano] wraps outside the years 1678 to 2262. *)
Definition nanos (t : Time) : Z := if time_IsZero t then 0 else wrap64 (t - unix_epoch).
Definition fromNanos (n : Z) : Time := if n =? 0 then time_zero else n + unix_epoch.
Definition boolInt (b : bool) : Z := if b then 1 else 0.

(** The instants a column keeps. *)
Definition time_kept (t : Time) : Prop := t = 0 ∨ (in_int64 (t - unix_epoch) ∧ t ≠ unix_epoch).

Lemma fromNanos_nanos t : time_kept t → fromNanos (nanos t) = t.
Proof.
  unfold fromNanos, nanos, time_IsZero. destruct (Z.eqb_spec t 0) as [->|Ht]; [done|].
  intros [->|[Hr Hne]]; [done|]. rewrite wrap64_id by done.
  destruct (Z.eqb_spec (t - unix_epoch) 0); lia.
Qed.

Lemma nanos_lt a b :
  time_kept a → time_kept b → a ≠ 0 → b ≠ 0 → (nanos a <? nanos b) = (a <? b).
Proof.
  intros [->|[Ha _]] [->|[Hb _]] Ha0 Hb0; try done. unfold nanos, time_IsZero.
  destruct (Z.eqb_spec a 0); [done|]. destruct (Z.eqb_spec b 0); [done|]. rewrite !wrap64_id by done.
  destruct (Z.ltb_spec a b), (Z.ltb_spec (a - unix_epoch) (b - unix_epoch)); lia.
Qed.

Lemma boolInt_neq b : negb (boolInt b =? 0) = b.
Proof. by destruct b. Qed.

(** A BIGINT column counted up; out of range is an error. *)
Definition bigint_succ (n : Z) : result Z :=
  if n =? max_int64 then Err [sql_PgError "22003"] else Ok (n + 1).

(** ** Rows *)

Section rows.
Context {Row : Type}.

(** UPDATE ... SET ... WHERE: the table, and RowsAffected. *)
Definition sql_update (where_ : Row → bool) (set : Row → Row) (t : list Row) : list Row * Z :=
  (map (λ r, if where_ r then set r else r) t, Z.of_nat (length (List.filter where_ t))).
(** SELECT of one row: the first the server returns. *)
Definition sql_row (where_ : Row → bool) (t : list Row) : result Row :=
  match List.filter where_ t with r :: _ => Ok r | [] => Err [sql_ErrNoRows] end.
(** SELECT 1 ... Scan *)
Definition sql_exists (where_ : Row → bool) (t : list Row) : result unit :=
  match List.filter where_ t with _ :: _ => Ok tt | [] => Err [sql_ErrNoRows] end.
Definition sql_limit (limit : Z) (t : list Row) : list Row :=
  if 0 <? limit then take (Z.to_nat limit) t else t.
End rows.

(** ** The tables *)

Record CommandRow := mkCommandRow {
  cr_device_id : string;
  cr_id : string;
  cr_seq : Z;
  cr_scope : string;
  cr_internal : Z;
  cr_state : string;
  cr_body : string;
  cr_enqueued_at : Z;
  cr_last_sent_at : Z;
  cr_sent_msg_id : string;
  cr_attempts : Z;
  cr_completed_at : Z;
  cr_result : option string }.

Record EnrollmentRow := mkEnrollmentRow {
  er_serial : string;
  er_thumbprint : string;
  er_device_id : string;
  er_hwdevid : string;
  er_enrollment_type : string;
  er_upn : string;
  er_context : string;
  er_state : string;
  er_enrolled_at : Z;
  er_updated_at : Z;
  er_last_seen_at : Z }.

Record CertificateRow := mkCertificateRow {
  xr_serial : string;
  xr_thumbprint : string;
  xr_subject : string;
  xr_device_id : string;
  xr_not_before : Z;
  xr_not_after : Z;
  xr_raw : string;
  xr_revoked : Z;
  xr_revoked_at : Z }.

Record CredentialRow := mkCredentialRow {
  kr_auth_type : string;
  kr_credential_hash : string;
  kr_basic_username : string;
  kr_basic_password : string }.

Record FactsRow := mkFactsRow {
  fr_devinfo : string;
  fr_login_status : string;
  fr_sync_type : string;
  fr_device_prep_sync : string;
  fr_channel_uri : string;
  fr_updated_at : Z }.

Record PushRow := mkPushRow {
  pr_uri : string;
  pr_uri_hash : string;
  pr_first_seen : Z;
  pr_observed_at : Z;
  pr_dead : Z;
  pr_push_status : string }.

Record TokenRow := mkTokenRow {
  ar_serial : string;
  ar_token_hash : string;
  ar_created_at : Z }.

Record EventRow := mkEventRow {
  vr_id : Z;
  vr_device_id : string;
  vr_kind : string;
  vr_detail : string;
  vr_at : Z }.

(** The tables with a one-column primary key that is only ever looked up are
    maps by that key; [t_event_id] is the auto-increment column's last value. *)
Record DB := mkDB {
  t_enrollments : list EnrollmentRow;
  t_certificates : list CertificateRow;
  t_credentials : gmap string CredentialRow;
  t_command_seq : gmap string Z;
  t_commands : list CommandRow;
  t_facts : gmap string FactsRow;
  t_push : gmap string PushRow;
  t_tokens : gmap string TokenRow;
  t_events : list EventRow;
  t_event_id : Z }.

Definition set_enrollments (t : list EnrollmentRow) (db : DB) : DB :=
  mkDB t (t_certificates db) (t_credentials db) (t_command_seq db) (t_commands db) (t_facts db) (t_push db)
    (t_tokens db) (t_events db) (t_event_id db).
Definition set_certificates (t : list CertificateRow) (db : DB) : DB :=
  mkDB (t_enrollments db) t (t_credentials db) (t_command_seq db) (t_commands db) (t_facts db) (t_push db)
    (t_tokens db) (t_events db) (t_event_id db).
Definition set_credentials (t : gmap string CredentialRow) (db : DB) : DB :=
  mkDB (t_enrollments db) (t_certificates db) t (t_command_seq db) (t_commands db) (t_facts db) (t_push db)
    (t_tokens db) (t_events db) (t_event_id db).
Definition set_command_seq (t : gmap string Z) (db : DB) : DB :=
  mkDB (t_enrollments db) (t_certificates db) (t_credentials db) t (t_commands db) (t_facts db) (t_push db)
    (t_tokens db) (t_events db) (t_event_id db).
Definition set_commands (t : list CommandRow) (db : DB) : DB :=
  mkDB (t_enrollments db) (t_certificates db) (t_credentials db) (t_command_seq db) t (t_facts db) (t_push db)
    (t_tokens db) (t_events db) (t_event_id db).
Definition set_facts (t : gmap string FactsRow) (db : DB) : DB :=
  mkDB (t_enrollments db) (t_certificates db) (t_credentials db) (t_command_seq db) (t_commands db) t (t_push db)
    (t_tokens db) (t_events db) (t_event_id db).
Definition set_push (t : gmap string PushRow) (db : DB) : DB :=
  mkDB (t_enrollments db) (t_certificates db) (t_credentials db) (t_command_seq db) (t_commands db) (t_facts db) t
    (t_tokens db) (t_events db) (t_event_id db).
Definition set_tokens (t : gmap string TokenRow) (db : DB) : DB :=
  mkDB (t_enrollments db) (t_certificates db) (t_credentials db) (t_command_seq db) (t_commands db) (t_facts db)
    (t_push db) t (t_events db) (t_event_id db).
Definition set_events (t : list EventRow) (n : Z) (db : DB) : DB :=
  mkDB (t_enrollments db) (t_certificates db) (t_credentials db) (t_command_seq db) (t_commands db) (t_facts db)
    (t_push db) (t_tokens db) t n.

Definition empty_db : DB := mkDB [] [] ∅ ∅ [] ∅ ∅ ∅ [] 0.

(** ** The connection *)

Record Conn := mkConn { c_db : DB; c_replies : list (option error) }.

(** One call to the database. *)
Definition call {A} (f : DB → DB * result A) : M Conn A := λ c,
  match c_replies c with
  | Some e :: l => (mkConn (c_db c) l, Err e)
  | None :: l => let '(db, r) := f (c_db c) in (mkConn db l, r)
  | [] => let '(db, r) := f (c_db c) in (mkConn db [], r)
  end.
(** A call that only reads. *)
Definition query_ {A} (f : DB → result A) : M Conn A := call (λ db, (db, f db)).

(** In a transaction the variables [g] of the surrounding function are at
    hand. *)
Definition in_tx {G A} (m : M Conn A) : M (G * Conn) A := λ '(g, c),
  let '(c, r) := m c in ((g, c), r).
Definition set_var {G} (f : G → G) : M (G * Conn) unit := λ '(g, c), ((f g, c), Ok tt).

Definition is_MySQLError (s : sentinel) : bool := match s with sql_MySQLError _ => true | _ => false end.
Definition is_PgError (s : sentinel) : bool := match s with sql_PgError _ => true | _ => false end.

Definition isRetriable (err : error) : bool :=
  match List.find is_MySQLError err with
  | Some (sql_MySQLError n) => (n =? 1213) || (n =? 1205)
  | _ =>
      match List.find is_PgError err with
      | Some (sql_PgError code) => bool_decide (code = "40001") || bool_decide (code = "40P01")
      | _ => false
      end
  end.

Definition isDuplicateIndex (err : error) : bool :=
  match List.find is_MySQLError err with Some (sql_MySQLError n) => n =? 1061 | _ => false end.

Section tx.
Context {G : Type} (fn : M (G * Conn) unit).

(** [txOnce]: the rollback brings the tables back, not the variables. *)
Definition txOnce : M (G * Conn) unit := λ '(g, c),
  match query_ (λ _, Ok tt) c with
  | (c, Err e) => ((g, c), Err e)
  | (c, Ok _) =>
      match fn (g, c) with
      | ((g, c'), Err e) => ((g, mkConn (c_db c) (c_replies c')), Err e)
      | ((g, c'), Ok _) =>
          match query_ (λ _, Ok tt) c' with
          | (c'', Err e) => ((g, mkConn (c_db c) (c_replies c'')), Err e)
          | (c'', Ok _) => ((g, c''), Ok tt)
          end
      end
  end.

Definition maxAttempts : nat := 10.

(** [ctx] is the context's error, once it is done. *)
Fixpoint tx_loop (ctx : option error) (attempts : nat) (last : result unit) : M (G * Conn) unit := λ s,
  match attempts with
  | O => (s, last)
  | S attempts =>
      match txOnce s with
      | (s, Ok _) => (s, Ok tt)
      | (s, Err e) =>
          if negb (isRetriable e) then (s, Err e)
          else match ctx with
          | Some e' => (s, Err e')
          | None => tx_loop ctx attempts (Err e) s
          end
      end
  end.
Definition tx (ctx : option error) : M (G * Conn) unit := tx_loop ctx maxAttempts (Ok tt).
End tx.

(** A transaction that sets no variable. *)
Definition tx_ (ctx : option error) (fn : M Conn unit) : M Conn unit := λ c,
  let '((_, c), r) := tx (G := unit) (in_tx fn) ctx (tt, c) in (c, r).

(** ** Lemmas *)

(** A database that carries out every call. *)
Definition sound (c : Conn) : Prop := c_replies c = [].

Lemma call_sound {A} (f : DB → DB * result A) db :
  call f (mkConn db []) = let '(db', r) := f db in (mkConn db' [], r).
Proof. done. Qed.

Lemma tx_commits {G} (fn : M (G * Conn) unit) ctx g db g' db' :
  fn (g, mkConn db []) = ((g', mkConn db' []), Ok tt) →
  tx fn ctx (g, mkConn db []) = ((g', mkConn db' []), Ok tt).
Proof. intros E. unfold tx. cbn. by rewrite E. Qed.

Lemma tx_aborts {G} (fn : M (G * Conn) unit) ctx g db g' db' e :
  fn (g, mkConn db []) = ((g', mkConn db' []), Err e) → isRetriable e = false →
  tx fn ctx (g, mkConn db []) = ((g', mkConn db []), Err e).
Proof. intros E He. unfold tx. cbn. rewrite E. cbn. by rewrite He. Qed.

(** *** A transaction under any replies

    [fn] run from whatever variables and replies: it either fails or changes the
    tables in the way [R]. *)
Definition writes {G} (fn : M (G * Conn) unit) (R : DB → DB → Prop) : Prop :=
  ∀ g c g' c', fn (g, c) = ((g', c'), Ok tt) → R (c_db c) (c_db c').

Lemma query_db {A} (f : DB → result A) c c' r : query_ f c = (c', r) → c_db c' = c_db c.
Proof. unfold query_, call. destruct (c_replies c) as [|[e|] l]; by intros [= <- _]. Qed.

Lemma txOnce_atomic {G} (fn : M (G * Conn) unit) R g c g' c' r :
  writes fn R → txOnce fn (g, c) = ((g', c'), r) →
  match r with Ok _ => R (c_db c) (c_db c') | Err _ => c_db c' = c_db c end.
Proof.
  intros Hw. unfold txOnce. destruct (query_ _ c) as [c1 [[]|e]] eqn:E1; apply query_db in E1.
  - destruct (fn (g, c1)) as [[g2 c2] [[]|e]] eqn:E2.
    + apply Hw in E2. destruct (query_ _ c2) as [c3 [[]|e]] eqn:E3; apply query_db in E3.
      * intros [= _ <- <-]. by rewrite E3, <- E1.
      * intros [= _ <- <-]. done.
    + intros [= _ <- <-]. done.
  - intros [= _ <- <-]. done.
Qed.

Lemma tx_atomic {G} (fn : M (G * Conn) unit) R ctx g c g' c' r :
  writes fn R → tx fn ctx (g, c) = ((g', c'), r) →
  match r with Ok _ => R (c_db c) (c_db c') | Err _ => c_db c' = c_db c end.
Proof.
  intros Hw. unfold tx.
  assert (∀ n last g c, (∃ e, last = Err e) ∨ n ≠ O → tx_loop fn ctx n last (g, c) = ((g', c'), r) →
    match r with Ok _ => R (c_db c) (c_db c') | Err _ => c_db c' = c_db c end) as Hl.
  { induction n as [|n IH]; intros last g0 c0 Hlast; cbn [tx_loop].
    - destruct Hlast as [[e ->]|]; [|done]. by intros [= _ <- <-].
    - destruct (txOnce fn (g0, c0)) as [[g1 c1] r1] eqn:E.
      pose proof (txOnce_atomic _ _ _ _ _ _ _ Hw E) as Ha. destruct r1 as [[]|e].
      + by intros [= _ <- <-].
      + destruct (negb _); [by intros [= _ <- <-]|]. destruct ctx; [by intros [= _ <- <-]|].
        intros El. apply IH in El; [|left; eauto]. by rewrite Ha in El. }
  apply Hl. by right.
Qed.

(** *** Placeholders *)

Fixpoint qmarks (query : string) : Z :=
  match query with
  | EmptyString => 0
  | String c query => (if Ascii.eqb c "?"%char then 1 else 0) + qmarks query
  end.

Lemma qmarks_app a b : qmarks (a +:+ b) = qmarks a + qmarks b.
Proof. induction a as [|c a IH]; [done|]. cbn [qmarks]. change (String c a +:+ b) with (String c (a +:+ b)). cbn [qmarks]. lia. Qed.

Lemma qmarks_digits s : str_forall is_digit s = true → qmarks s = 0.
Proof.
  induction s as [|c s IH]; [done|]. cbn [str_forall qmarks]. intros [Hc Hs]%andb_true_iff. rewrite (IH Hs).
  destruct (Ascii.eqb_spec c "?") as [->|]; [by vm_compute in Hc|done].
Qed.

(** Rebinding leaves the text of a statement alone for SQLite and MySQL, and
    turns every question mark into a numbered marker for PostgreSQL. *)
Theorem rebind_markers d query :
  if d_postgresPlaceholders d then qmarks (rebind d query) = 0 else rebind d query = query.
Proof.
  unfold rebind. destruct (d_postgresPlaceholders d); [|done]. cbn [negb].
  assert (∀ n, 0 ≤ n → qmarks (rebind_from n query) = 0) as Hn; [|by apply Hn].
  induction query as [|c query IH]; intros n Hn; [done|]. cbn [rebind_from]. destruct (Ascii.eqb c "?") eqn:E.
  - change ("$" +:+ ?x) with (String "$" x). cbn [qmarks]. rewrite qmarks_app, IH by lia.
    rewrite qmarks_digits; [done|]. apply Itoa_digits. lia.
  - cbn [qmarks]. by rewrite E, IH by done.
Qed.
