(* ===== verification/SqlQueue.v ===== *)
(** * The SQL command queue

    server/sqlstore/queue.go: mdm.CommandQueue over the tables commands and
    command_seq.  A command's body is stored as the fragment EncodeCommand
    writes and read back with DecodeCommand; a result is stored as JSON, and
    encoding/json is a parameter. *)
From stdpp Require Import base gmap strings list sorting.
From Stdlib Require Import ZArith Lia Ascii Sorted.
From S2P Require Import Prelude GoStrings SyncmlModel Validate Response Encode Utf8 GoXml Decode MdmCommand Paging MdmQueue SqlBase.

Local Open Scope Z_scope.
Local Open Scope go_scope.

(** [json.Marshal] and [json.Unmarshal] of a Result. *)
Class ResultCodec := {
  marshal_Result : Result → result string;
  unmarshal_Result : string → result Result }.

(** What is marshalled is not empty and reads back. *)
Class ResultCodecLaws `{ResultCodec} : Prop :=
  result_roundtrip r b : marshal_Result r = Ok b → b ≠ "" ∧ unmarshal_Result b = Ok r.

(** WHERE device_id = ? AND id = ?, and WHERE device_id = ? *)
Definition is_key (dev id : string) (r : CommandRow) : bool :=
  bool_decide (cr_device_id r = dev) && bool_decide (cr_id r = id).
Definition of_device (dev : string) (r : CommandRow) : bool := bool_decide (cr_device_id r = dev).
Definition state_in (l : list State) (r : CommandRow) : bool :=
  bool_decide (cr_state r ∈ l).

(** ORDER BY seq *)
Definition seq_le (a b : CommandRow) : Prop := cr_seq a ≤ cr_seq b.
#[global] Instance seq_le_dec a b : Decision (seq_le a b).
Proof. unfold seq_le. apply _. Defined.
Definition completed_le (a b : CommandRow) : Prop := cr_completed_at a ≤ cr_completed_at b.
#[global] Instance completed_le_dec a b : Decision (completed_le a b).
Proof. unfold completed_le. apply _. Defined.

Section queue.
Context `{NameTables} `{ResultCodec} (ctx : option error).

(** *** Enqueue *)

(** INSERT INTO command_seq ... ON CONFLICT: counted up, or 1. *)
Definition increment_seq (dev : string) (db : DB) : DB * result unit :=
  match t_command_seq db !! dev with
  | None => (set_command_seq (<[dev := 1]> (t_command_seq db)) db, Ok tt)
  | Some n =>
      match bigint_succ n with
      | Ok m => (set_command_seq (<[dev := m]> (t_command_seq db)) db, Ok tt)
      | Err e => (db, Err e)
      end
  end.
Definition select_seq (dev : string) (db : DB) : result Z :=
  match t_command_seq db !! dev with Some n => Ok n | None => Err [sql_ErrNoRows] end.
(** INSERT INTO commands; the primary key is (device_id, id). *)
Definition insert_command (r : CommandRow) (db : DB) : DB * result unit :=
  if existsb (is_key (cr_device_id r) (cr_id r)) (t_commands db) then (db, Err [sql_PgError "23505"])
  else (set_commands (t_commands db ++ [r]) db, Ok tt).

(** SELECT 1 FROM commands WHERE device_id = ? AND id = ?: whether the id is
    taken. *)
Definition taken {G} (dev id : string) : M (G * Conn) bool := λ s,
  match in_tx (query_ (λ db, sql_exists (is_key dev id) (t_commands db))) s with
  | (s, Ok _) => (s, Ok true)
  | (s, Err e) => if errors_Is e sql_ErrNoRows then (s, Ok false) else (s, Err e)
  end.

(** The loop that appends "x" until the id is free. *)
Fixpoint fresh_loop {G} (fuel : nat) (dev id : string) : M (G * Conn) string :=
  match fuel with
  | O => lift (Err [])
  | S fuel => let! t := taken dev id in if t then fresh_loop fuel dev (id +:+ "x") else ret id
  end.
(** One more turn than there are rows. *)
Definition fresh_id {G} (dev id : string) : M (G * Conn) string := λ s,
  fresh_loop (S (length (t_commands (c_db (snd s))))) dev id s.

Definition new_row (dev id : string) (seq : Z) (c : MCommand) (body : string) (at_ : Time) : CommandRow :=
  mkCommandRow dev id seq (cmd_Scope c) (boolInt (cmd_Internal c)) StatePending body (nanos at_)
    0 "" 0 0 None.
Definition new_queued (id : string) (seq : Z) (c : MCommand) (at_ : Time) : QueuedCommand :=
  mkQueuedCommand (mkMCommand id (cmd_Scope c) (cmd_Body c) (cmd_Internal c)) seq StatePending (time_UTC at_)
    time_zero "" 0 None time_zero.

(** The transaction; its variable is [out], set at the end. *)
Definition enqueue_steps {G} (dev : string) (c : MCommand) (body : string) (at_ : Time)
    : M (G * Conn) QueuedCommand :=
  (if decide (cmd_ID c = "") then ret tt
   else let! t := taken dev (cmd_ID c) in if t then lift (Err [mdm_ErrConflict]) else ret tt) ;!
  in_tx (call (increment_seq dev)) ;!
  let! seq := in_tx (query_ (select_seq dev)) in
  let! id := if decide (cmd_ID c = "") then fresh_id dev ("cmd-" +:+ Itoa seq) else ret (cmd_ID c) in
  in_tx (call (insert_command (new_row dev id seq c body at_))) ;!
  ret (new_queued id seq c at_).
Definition enqueue_tx (dev : string) (c : MCommand) (body : string) (at_ : Time)
    : M (option QueuedCommand * Conn) unit :=
  let! qc := enqueue_steps dev c body at_ in set_var (λ _, Some qc).

Definition SQ_Enqueue (dev : string) (cmd : option MCommand) (at_ : Time) : M Conn QueuedCommand := λ conn,
  if decide (dev = "") then (conn, Err [mdm_ErrNotFound])
  else match MValidate cmd, cmd with
  | Err e, _ => (conn, Err e)
  | Ok _, None => (conn, Err [])
  | Ok _, Some c =>
      match EncodeCommand (cmd_Body c) (mkEncodeOptions "" false) with
      | Err e => (conn, Err e)
      | Ok body =>
          match tx (enqueue_tx dev c body at_) ctx (None, conn) with
          | ((_, conn), Err e) => (conn, Err e)
          | ((out, conn), Ok _) => (conn, match out with Some qc => Ok qc | None => Err [] end)
          end
      end
  end.

(** *** Reading rows *)

Definition scanCommand (r : CommandRow) : result QueuedCommand :=
  let? body := DecodeCommand (cr_body r) in
  let? res := match cr_result r with
              | None => Ok None
              | Some b => if len b =? 0 then Ok None else let? x := unmarshal_Result b in Ok (Some x)
              end in
  Ok (mkQueuedCommand (mkMCommand (cr_id r) (cr_scope r) body (negb (cr_internal r =? 0))) (cr_seq r) (cr_state r)
        (fromNanos (cr_enqueued_at r)) (fromNanos (cr_last_sent_at r)) (cr_sent_msg_id r) (cr_attempts r) res
        (fromNanos (cr_completed_at r))).

(** The loop over rows.Next(). *)
Fixpoint scan_all (rows : list CommandRow) : result (list QueuedCommand) :=
  match rows with
  | [] => Ok []
  | r :: rows => let? qc := scanCommand r in let? qcs := scan_all rows in Ok (qc :: qcs)
  end.

Definition SQ_Deliverable (dev : string) (limit : Z) : M Conn (list QueuedCommand) :=
  let! rows := query_ (λ db, Ok (sql_limit limit (merge_sort seq_le
    (List.filter (λ r, of_device dev r && state_in [StatePending; StateSent] r) (t_commands db))))) in
  lift (scan_all rows).

Definition SQ_Get (dev id : string) : M Conn QueuedCommand := λ c,
  match query_ (λ db, sql_row (is_key dev id) (t_commands db)) c with
  | (c, Err e) => if errors_Is e sql_ErrNoRows then (c, Err [mdm_ErrNotFound]) else (c, Err e)
  | (c, Ok r) => (c, scanCommand r)
  end.

(** *** MarkSent *)

Definition sent_row (d : Delivery) (r : CommandRow) : CommandRow :=
  mkCommandRow (cr_device_id r) (cr_id r) (cr_seq r) (cr_scope r) (cr_internal r) StateSent (cr_body r)
    (cr_enqueued_at r) (nanos (Delivery_At d)) (Delivery_MsgID d) (cr_attempts r + 1) (cr_completed_at r) (cr_result r).
(** UPDATE ... attempts = attempts + 1 *)
Definition update_sent (dev : string) (d : Delivery) (db : DB) : DB * result Z :=
  let key := is_key dev (Delivery_CommandID d) in
  if existsb (λ r, key r && (cr_attempts r =? max_int64)) (t_commands db) then (db, Err [sql_PgError "22003"])
  else let '(t, n) := sql_update key (sent_row d) (t_commands db) in (set_commands t db, Ok n).

Definition mark_one (dev : string) (d : Delivery) : M Conn unit :=
  let! n := call (update_sent dev d) in if n =? 0 then lift (Err [mdm_ErrNotFound]) else ret tt.
Definition SQ_MarkSent (dev : string) (ds : list Delivery) : M Conn unit :=
  tx_ ctx (mfor (mark_one dev) ds).

(** *** StoreResult *)

Definition result_row (st : State) (blob : string) (at_ : Time) (r : CommandRow) : CommandRow :=
  mkCommandRow (cr_device_id r) (cr_id r) (cr_seq r) (cr_scope r) (cr_internal r) st (cr_body r)
    (cr_enqueued_at r) (cr_last_sent_at r) (cr_sent_msg_id r) (cr_attempts r) (nanos at_) (Some blob).
Definition SQ_StoreResult (dev id : string) (r : Result) : M Conn unit :=
  let! blob := lift (marshal_Result r) in
  let st := if negb (StatusCode_Success (Res_Status r)) then StateFailed else StateAcknowledged in
  let! n := call (λ db, let '(t, n) := sql_update (is_key dev id) (result_row st blob (Res_ReceivedAt r)) (t_commands db) in
    (set_commands t db, Ok n)) in
  if n =? 0 then lift (Err [mdm_ErrNotFound]) else ret tt.

(** *** List *)

Definition offsetOf (p : Page) : result Z :=
  if decide (Page_Cursor p = "") then Ok 0
  else match Atoi (Page_Cursor p) with
  | Some n => if n <? 0 then Err [storage_ErrInvalid] else Ok n
  | None => Err [storage_ErrInvalid]
  end.
Definition pageResult {T} (items : list T) (size offset : Z) : PageResult T :=
  if size <? zlength items then mkPageResult (take (Z.to_nat size) items) (Itoa (wrap64 (offset + size)))
  else mkPageResult items "".

Definition row_matches (dev : string) (q : Query) (r : CommandRow) : bool :=
  of_device dev r &&
  match Query_Internal q with Some b => cr_internal r =? boolInt b | None => true end &&
  (bool_decide (Query_Scope q = "") || bool_decide (cr_scope r = Query_Scope q)) &&
  match Query_States q with [] => true | sts => state_in sts r end.

Definition SQ_List (dev : string) (q : Query) (p : Page) : M Conn (PageResult QueuedCommand) :=
  let! offset := lift (offsetOf p) in
  let size := Page_Size p in
  let! rows := query_ (λ db, Ok (take (Z.to_nat (size + 1)) (drop (Z.to_nat offset)
    (merge_sort seq_le (List.filter (row_matches dev q) (t_commands db)))))) in
  let! items := lift (scan_all rows) in
  ret (pageResult items size offset).

(** *** Cancel *)

Definition cancelled_row (at_ : Time) (r : CommandRow) : CommandRow :=
  mkCommandRow (cr_device_id r) (cr_id r) (cr_seq r) (cr_scope r) (cr_internal r) StateCancelled (cr_body r)
    (cr_enqueued_at r) (cr_last_sent_at r) (cr_sent_msg_id r) (cr_attempts r) (nanos at_) (cr_result r).
Definition update_cancelled (dev id : string) (at_ : Time) (db : DB) : DB * result Z :=
  let '(t, n) := sql_update (λ r, is_key dev id r && state_in [StatePending; StateSent] r) (cancelled_row at_)
    (t_commands db) in
  (set_commands t db, Ok n).
(** The transaction; its variable is the count [n]. *)
Definition cancel_one (dev : string) (at_ : Time) (id : string) : M (Z * Conn) unit :=
  let! c := in_tx (call (update_cancelled dev id at_)) in
  if 0 <? c then set_var (λ n, wrap64 (n + 1)) else ret tt.
Definition SQ_Cancel (dev : string) (cids : list string) (at_ : Time) : M Conn Z := λ c,
  match tx (mfor (cancel_one dev at_) cids) ctx (0, c) with
  | ((_, c), Err e) => (c, Err e)
  | ((n, c), Ok _) => (c, Ok n)
  end.

(** *** Prune *)

Definition prunable_row (before : Time) (r : CommandRow) : bool :=
  state_in [StateAcknowledged; StateFailed; StateCancelled] r && (0 <? cr_completed_at r) &&
  (cr_completed_at r <? nanos before).
Definition delete_command (dev id : string) (db : DB) : DB * result unit :=
  (set_commands (List.filter (λ r, negb (is_key dev id r)) (t_commands db)) db, Ok tt).
Definition prune_one (k : string * string) : M (Z * Conn) unit :=
  in_tx (call (delete_command (fst k) (snd k))) ;! set_var (λ n, wrap64 (n + 1)).
(** ORDER BY completed_at leaves rows of one instant in any order: [ties] is
    the order the server happens to read them in. *)
Definition SQ_Prune (ties : list CommandRow → list CommandRow) (before : Time) (limit : Z) : M Conn Z :=
  let! keys := query_ (λ db, Ok (map (λ r, (cr_device_id r, cr_id r)) (sql_limit limit (merge_sort completed_le
    (ties (List.filter (prunable_row before) (t_commands db))))))) in
  λ c, match tx (mfor prune_one keys) ctx (0, c) with
       | ((_, c), Err e) => (c, Err e)
       | ((n, c), Ok _) => (c, Ok n)
       end.
End queue.
