(* ===== verification/SqlQueueProofs.v ===== *)
(** * The SQL command queue keeps the interface's promises

    The tables seen as the queues of the devices, and what each operation of
    [SqlQueue] does to them. *)
From stdpp Require Import base gmap strings list sorting.
From Stdlib Require Import ZArith Lia Ascii Sorted.
From S2P Require Import Prelude GoStrings SyncmlModel Validate Response Encode Utf8 GoXml Decode DecodeProofs DecodeTheorems.
From S2P Require Import MdmCommand Paging MdmQueue InmemQueue SqlBase SqlQueue.

Local Open Scope Z_scope.
Local Open Scope go_scope.

(** ** Lists *)

Lemma filter_andb {A} (p q : A → bool) l :
  List.filter (λ x, p x && q x) l = List.filter q (List.filter p l).
Proof. induction l as [|x l IH]; [done|]. cbn. destruct (p x); cbn; [|done]. by rewrite IH. Qed.

Lemma length_filter_le {A} (p : A → bool) l : (length (List.filter p l) ≤ length l)%nat.
Proof. induction l as [|x l IH]; [done|]. cbn [List.filter]. destruct (p x); cbn [length]; lia. Qed.

Lemma StronglySorted_filter {A} (R : A → A → Prop) (p : A → bool) l :
  StronglySorted R l → StronglySorted R (List.filter p l).
Proof.
  induction 1 as [|x l Hs IH Hf]; [constructor|]. cbn. destruct (p x); [|done]. constructor; [done|].
  rewrite Forall_forall in *. intros y Hy. apply Hf.
  rewrite list_elem_of_In in *. by apply filter_In in Hy as [? _].
Qed.

(** Rows in the order of a strictly growing column are already sorted. *)
Lemma merge_sort_sorted (l : list CommandRow) :
  StronglySorted Z.lt (map cr_seq l) → merge_sort seq_le l = l.
Proof.
  intros Hs. assert (StronglySorted seq_le l ∧ ∀ a b, a ∈ l → b ∈ l → cr_seq a = cr_seq b → a = b) as [Hl Hu].
  { induction l as [|r l IH]; [split; [constructor|]; intros ? ? []%elem_of_nil|].
    inversion Hs as [|? ? Hs' Hf]; subst. destruct (IH Hs') as [Hl Hu].
    rewrite Forall_forall in Hf.
    assert (∀ y, y ∈ l → cr_seq r < cr_seq y) as Hlt.
    { intros y Hy. apply Hf. apply list_elem_of_fmap. eauto. }
    split.
    - constructor; [done|]. rewrite Forall_forall. intros y Hy. apply Hlt in Hy. unfold seq_le. lia.
    - intros a b [->|Ha]%elem_of_cons [->|Hb]%elem_of_cons E; [done|apply Hlt in Hb; lia|apply Hlt in Ha; lia|].
      by apply Hu. }
  apply (StronglySorted_unique_strong seq_le).
  - intros a b Ha Hb Hab Hba. rewrite merge_sort_Permutation in Ha. unfold seq_le in *.
    apply Hu; [done|done|lia].
  - apply StronglySorted_merge_sort; [intros a b c; unfold seq_le; lia|intros a b; unfold seq_le; lia].
  - done.
  - apply merge_sort_Permutation.
Qed.

Section proofs.
Context `{NameTables} `{ResultCodecLaws} (ctx : option error).

(** ** The queues in the tables *)

Definition no_command : QueuedCommand :=
  mkQueuedCommand (mkMCommand "" "" (CAtomic "" false None []) false) 0 StatePending 0 0 "" 0 None 0.
Definition decode_row (r : CommandRow) : QueuedCommand :=
  match scanCommand r with Ok qc => qc | Err _ => no_command end.
Definition dev_rows (dev : string) (db : DB) : list CommandRow := List.filter (of_device dev) (t_commands db).
(** The commands of a device. *)
Definition sql_cmds (db : DB) (dev : string) : list QueuedCommand := map decode_row (dev_rows dev db).

Definition row_ok (r : CommandRow) : Prop :=
  ∃ qc, scanCommand r = Ok qc ∧ mcommand_ok (qc_Command qc) ∧ cr_id r ≠ "" ∧ in_int64 (cr_attempts r) ∧
    cr_internal r = boolInt (qc_Internal qc) ∧ cr_state r ∈ knownStates.

(** The tables are a queue: keys are unique, the rows of a device are in the
    order of their numbers, no number is ahead of the counter, and every row
    reads back as a valid command in a known state. *)
Record queue_ok (db : DB) : Prop := mk_queue_ok {
  qo_keys : ∀ dev, NoDup (map cr_id (dev_rows dev db));
  qo_sorted : ∀ dev, StronglySorted Z.lt (map cr_seq (dev_rows dev db));
  qo_seq : ∀ r, r ∈ t_commands db → ∃ n, t_command_seq db !! cr_device_id r = Some n ∧ cr_seq r ≤ n;
  qo_rows : Forall row_ok (t_commands db) }.

Lemma scan_shape r qc : scanCommand r = Ok qc →
  qc_ID qc = cr_id r ∧ qc_Seq qc = cr_seq r ∧ qc_Scope qc = cr_scope r ∧
  qc_Internal qc = negb (cr_internal r =? 0) ∧ cr_state r = qc_State qc.
Proof.
  unfold scanCommand.
  intros (body & _ & (res & _ & [= <-])%result_bind_Ok)%result_bind_Ok. done.
Qed.

Lemma decode_id r : row_ok r → qc_ID (decode_row r) = cr_id r.
Proof. intros (qc & E & _). unfold decode_row. rewrite E. by apply scan_shape. Qed.

Lemma dev_rows_ok dev db : queue_ok db → Forall row_ok (dev_rows dev db).
Proof.
  intros Hq. pose proof (qo_rows _ Hq) as Hr. rewrite Forall_forall in *. intros r Hin. apply Hr.
  unfold dev_rows in Hin. rewrite list_elem_of_In in *. by apply filter_In in Hin as [? _].
Qed.

Lemma sql_ids dev db : queue_ok db → ids (sql_cmds db dev) = map cr_id (dev_rows dev db).
Proof.
  intros Hq. pose proof (dev_rows_ok dev db Hq) as Hr. unfold ids, sql_cmds. rewrite map_map.
  induction Hr as [|r l Hr _ IH]; [done|]. cbn [map]. by rewrite decode_id, IH.
Qed.

Lemma queue_ok_wf db dev : queue_ok db → cmds_wf (sql_cmds db dev).
Proof.
  intros Hq. pose proof (dev_rows_ok dev db Hq) as Hr. split.
  - rewrite sql_ids by done. apply Hq.
  - apply Forall_map. eapply Forall_impl; [exact Hr|]. intros r Hrow. rewrite decode_id by done.
    by destruct Hrow as (? & _ & _ & ? & _).
  - apply Forall_map. eapply Forall_impl; [exact Hr|]. intros r (qc & E & Hc & _). unfold decode_row. by rewrite E.
Qed.

Lemma state_in_decode l r : row_ok r → state_in l r = bool_decide (qc_State (decode_row r) ∈ l).
Proof.
  intros (qc & E & _). unfold decode_row. rewrite E. unfold state_in.
  by destruct (scan_shape _ _ E) as (_ & _ & _ & _ & ->).
Qed.

(** ** Reading *)

Lemma scan_all_decode rows : Forall row_ok rows → scan_all rows = Ok (map decode_row rows).
Proof.
  induction 1 as [|r rows (qc & E & _) _ IH]; [done|]. cbn [scan_all map]. rewrite E, IH.
  assert (decode_row r = qc) as -> by (unfold decode_row; by rewrite E). done.
Qed.

(** The rows of a device that satisfy [p], as ORDER BY seq returns them. *)
Lemma select_device dev db (p : CommandRow → bool) :
  queue_ok db →
  merge_sort seq_le (List.filter (λ r, of_device dev r && p r) (t_commands db)) = List.filter p (dev_rows dev db).
Proof.
  intros Hq. rewrite filter_andb. apply merge_sort_sorted. fold (dev_rows dev db).
  pose proof (qo_sorted _ Hq dev) as Hs.
  assert (∀ l, StronglySorted Z.lt (map cr_seq l) → StronglySorted Z.lt (map cr_seq (List.filter p l))) as Hf.
  { clear. induction l as [|r l IH]; [done|]. intros Hs. inversion Hs as [|? ? Hs' Ha]; subst.
    cbn. destruct (p r); [|by apply IH]. cbn. constructor; [by apply IH|].
    rewrite Forall_forall in *. intros x (y & -> & Hy)%list_elem_of_fmap. apply Ha.
    apply list_elem_of_fmap. exists y. split; [done|]. rewrite list_elem_of_In in *.
    by apply filter_In in Hy as [? _]. }
  by apply Hf.
Qed.

Lemma filter_decode (p : CommandRow → bool) (q : QueuedCommand → bool) rows :
  Forall row_ok rows → (∀ r, row_ok r → p r = q (decode_row r)) →
  map decode_row (List.filter p rows) = List.filter q (map decode_row rows).
Proof.
  intros Hr Hpq. induction Hr as [|r rows Hr _ IH]; [done|]. cbn [List.filter map]. rewrite (Hpq r Hr).
  destruct (q (decode_row r)); cbn [map]; by rewrite IH.
Qed.

Lemma sql_limit_map {A B} (f : A → B) limit l : map f (sql_limit limit l) = upto limit (map f l).
Proof. unfold sql_limit, upto. destruct (0 <? limit); [|done]. symmetry. apply firstn_map. Qed.

Lemma Forall_filter_ok {A} (P : A → Prop) (p : A → bool) l : Forall P l → Forall P (List.filter p l).
Proof. intros Hl. induction Hl; cbn; [constructor|]. destruct (p _); [by constructor|done]. Qed.

Lemma Forall_limit {A} (P : A → Prop) limit l : Forall P l → Forall P (sql_limit limit l).
Proof. unfold sql_limit. destruct (0 <? limit); [apply Forall_take|done]. Qed.

Lemma Deliverable_sql db dev limit :
  queue_ok db →
  SQ_Deliverable dev limit (mkConn db []) =
  (mkConn db [], Ok (upto limit (List.filter deliverable (sql_cmds db dev)))).
Proof.
  intros Hq. unfold SQ_Deliverable, bind, query_, call. cbn [c_replies c_db].
  rewrite select_device by done. unfold lift. pose proof (dev_rows_ok dev db Hq) as Hr.
  rewrite scan_all_decode by by apply Forall_limit, Forall_filter_ok. rewrite sql_limit_map.
  rewrite (filter_decode _ deliverable) by
    (done || (intros r Hrow; rewrite state_in_decode by done; unfold deliverable; apply bool_decide_ext; set_solver)).
  done.
Qed.

Lemma filter_key dev id db :
  List.filter (is_key dev id) (t_commands db) = List.filter (λ r, bool_decide (cr_id r = id)) (dev_rows dev db).
Proof. unfold is_key. by rewrite filter_andb. Qed.

Lemma Get_sql db dev id :
  queue_ok db →
  ∃ res, SQ_Get dev id (mkConn db []) = (mkConn db [], res) ∧
  match res with
  | Ok qc => qc ∈ sql_cmds db dev ∧ qc_ID qc = id
  | Err e => id ∉ ids (sql_cmds db dev) ∧ errors_Is e mdm_ErrNotFound = true
  end.
Proof.
  intros Hq. unfold SQ_Get, query_, call. cbn [c_replies c_db]. unfold sql_row. rewrite filter_key.
  destruct (List.filter _ (dev_rows dev db)) as [|r l] eqn:E.
  - eexists. split; [done|]. split; [|done]. rewrite sql_ids by done.
    intros (r & -> & Hin)%list_elem_of_fmap.
    assert (r ∈ List.filter (λ r', bool_decide (cr_id r' = cr_id r)) (dev_rows dev db)) as Hr.
    { rewrite list_elem_of_In in *. apply filter_In. split; [done|]. by apply bool_decide_eq_true. }
    rewrite E in Hr. by apply elem_of_nil in Hr.
  - assert (In r (List.filter (λ r', bool_decide (cr_id r' = id)) (dev_rows dev db))) as Hr by (rewrite E; by left).
    apply filter_In in Hr as [Hin Hid]. apply bool_decide_eq_true in Hid. rewrite <- list_elem_of_In in Hin.
    pose proof (dev_rows_ok dev db Hq) as Hrow. rewrite Forall_forall in Hrow. pose proof (Hrow r Hin) as (qc & Eq & _).
    eexists. split; [done|]. rewrite Eq. split; [|destruct (scan_shape _ _ Eq) as (-> & _); done].
    apply list_elem_of_fmap. exists r. split; [|done]. unfold decode_row. by rewrite Eq.
Qed.

(** ** Writing *)

Lemma filter_map_same {A} (p : A → bool) (f : A → A) l :
  (∀ x, p (f x) = p x) → List.filter p (map f l) = map f (List.filter p l).
Proof.
  intros Hp. induction l as [|x l IH]; [done|]. cbn [map List.filter]. rewrite Hp.
  destruct (p x); cbn [map]; by rewrite IH.
Qed.

(** A row changed in columns that are no part of a key or an order. *)
Record rewrites (f : CommandRow → CommandRow) (g : QueuedCommand → QueuedCommand) : Prop := mk_rewrites {
  rw_dev r : cr_device_id (f r) = cr_device_id r;
  rw_id r : cr_id (f r) = cr_id r;
  rw_seq r : cr_seq (f r) = cr_seq r;
  rw_attempts r : in_int64 (cr_attempts r) → in_int64 (cr_attempts (f r));
  rw_internal r : cr_internal (f r) = cr_internal r;
  rw_state r : cr_state r ∈ knownStates → cr_state (f r) ∈ knownStates;
  rw_scan r qc : scanCommand r = Ok qc → scanCommand (f r) = Ok (g qc);
  rw_cmd qc : qc_Command (g qc) = qc_Command qc }.

Lemma rewrites_decode f g r : rewrites f g → row_ok r → decode_row (f r) = g (decode_row r).
Proof.
  intros Hf (qc & E & _). assert (decode_row r = qc) as -> by (unfold decode_row; by rewrite E).
  apply (rw_scan _ _ Hf) in E. unfold decode_row. by rewrite E.
Qed.

Lemma rewrites_ok f g r : rewrites f g → row_ok r → row_ok (f r).
Proof.
  intros Hf (qc & E & Hc & Hid & Ha & Hi & Hs). exists (g qc).
  rewrite (rw_id _ _ Hf), (rw_cmd _ _ Hf), (rw_internal _ _ Hf). unfold qc_Internal. rewrite (rw_cmd _ _ Hf).
  split_and!; [by apply Hf|done..|by apply Hf|done|by apply Hf].
Qed.

Lemma rewrites_when f g (p : CommandRow → bool) (q : QueuedCommand → bool) :
  rewrites f g → ∀ r, row_ok r → p r = q (decode_row r) →
  let r' := if p r then f r else r in
  row_ok r' ∧ cr_device_id r' = cr_device_id r ∧ cr_id r' = cr_id r ∧ cr_seq r' = cr_seq r ∧
  decode_row r' = if q (decode_row r) then g (decode_row r) else decode_row r.
Proof.
  intros Hf r Hr E. cbv zeta. rewrite <- E. destruct (p r); [|done].
  split_and!; [by eapply rewrites_ok|apply Hf..|by apply rewrites_decode].
Qed.

Definition change_where (dev id : string) (q : QueuedCommand → bool) (g : QueuedCommand → QueuedCommand)
    (cmds : list QueuedCommand) : list QueuedCommand :=
  map (λ qc, if bool_decide (qc_ID qc = id) && q qc then g qc else qc) cmds.

Lemma update_sql db dev id (w : CommandRow → bool) (q : QueuedCommand → bool) f g :
  queue_ok db → rewrites f g → (∀ r, row_ok r → w r = is_key dev id r && q (decode_row r)) →
  let db' := set_commands (fst (sql_update w f (t_commands db))) db in
  queue_ok db' ∧ (∀ d, d ≠ dev → sql_cmds db' d = sql_cmds db d) ∧
  sql_cmds db' dev = change_where dev id q g (sql_cmds db dev).
Proof.
  intros Hq Hf Hp db'. set (step := λ r, if w r then f r else r).
  assert (t_commands db' = map step (t_commands db)) as Ht by reflexivity.
  assert (∀ r, cr_device_id (step r) = cr_device_id r ∧ cr_id (step r) = cr_id r ∧ cr_seq (step r) = cr_seq r) as Hs.
  { intros r. unfold step. destruct (w r); [split_and!; apply Hf|done]. }
  assert (∀ r, row_ok r → row_ok (step r)) as Hok.
  { intros r Hr. unfold step. destruct (w r); [by eapply rewrites_ok|done]. }
  assert (∀ d, dev_rows d db' = map step (dev_rows d db)) as Hd.
  { intros d. unfold dev_rows. rewrite Ht.
    apply filter_map_same. intros r. unfold of_device. by destruct (Hs r) as (-> & _). }
  assert (∀ (c : CommandRow → string) l, (∀ r, c (step r) = c r) → map c (map step l) = map c l) as Hm.
  { intros c l Hc. rewrite map_map. by apply map_ext. }
  split_and!.
  - split.
    + intros d. rewrite Hd, Hm by apply Hs. apply Hq.
    + intros d. rewrite Hd, map_map. erewrite map_ext; [apply Hq|]. apply Hs.
    + rewrite Ht. change (t_command_seq db') with (t_command_seq db).
      intros r (r0 & -> & Hin)%list_elem_of_fmap. destruct (Hs r0) as (-> & _ & ->). by apply Hq.
    + rewrite Ht. apply Forall_map.
      eapply Forall_impl; [apply Hq|]. exact Hok.
  - intros d Hne. unfold sql_cmds. rewrite Hd, map_map. apply map_ext_in. intros r Hin.
    pose proof (dev_rows_ok d db Hq) as Hr. rewrite Forall_forall in Hr.
    assert (row_ok r) as Hrow by (by apply Hr, list_elem_of_In).
    unfold dev_rows in Hin. apply filter_In in Hin as [_ Hdev]. apply bool_decide_eq_true in Hdev.
    unfold step. rewrite (Hp r Hrow). unfold is_key. rewrite Hdev, bool_decide_false by done. done.
  - unfold sql_cmds, change_where. rewrite Hd, !map_map. apply map_ext_in. intros r Hin.
    pose proof (dev_rows_ok dev db Hq) as Hr. rewrite Forall_forall in Hr.
    assert (row_ok r) as Hrow by (by apply Hr, list_elem_of_In).
    unfold dev_rows in Hin. apply filter_In in Hin as [_ Hdev]. apply bool_decide_eq_true in Hdev.
    unfold step. rewrite (Hp r Hrow). unfold is_key. rewrite Hdev, (bool_decide_true (dev = dev)) by done. cbn [andb].
    rewrite decode_id by done. destruct (bool_decide (cr_id r = id) && q (decode_row r)); [|done].
    by apply rewrites_decode.
Qed.

Lemma sql_count dev id db :
  (snd (sql_update (is_key dev id) (λ r, r) (t_commands db)) =? 0) = false ↔ id ∈ map cr_id (dev_rows dev db).
Proof.
  cbn [snd sql_update]. rewrite filter_key. rewrite Z.eqb_neq, list_elem_of_fmap. split.
  - destruct (List.filter _ _) as [|r l] eqn:E; [done|]. intros _.
    assert (In r (List.filter (λ r', bool_decide (cr_id r' = id)) (dev_rows dev db))) as Hr by (rewrite E; by left).
    apply filter_In in Hr as [Hin Hid]. apply bool_decide_eq_true in Hid. exists r. rewrite list_elem_of_In. done.
  - intros (r & -> & Hin). rewrite list_elem_of_In in Hin.
    assert (In r (List.filter (λ r', bool_decide (cr_id r' = cr_id r)) (dev_rows dev db))) as Hr.
    { apply filter_In. split; [done|]. by apply bool_decide_eq_true. }
    destruct (List.filter _ _); [done|]. cbn [length]. lia.
Qed.

Lemma scan_fields r qc :
  scanCommand r = Ok qc →
  DecodeCommand (cr_body r) = Ok (qc_Body qc) ∧
  match cr_result r with
  | None => qc_Result qc = None
  | Some b => if len b =? 0 then qc_Result qc = None else ∃ x, unmarshal_Result b = Ok x ∧ qc_Result qc = Some x
  end ∧ qc_EnqueuedAt qc = fromNanos (cr_enqueued_at r) ∧ qc_LastSentAt qc = fromNanos (cr_last_sent_at r) ∧
  qc_SentMsgID qc = cr_sent_msg_id r ∧ qc_Attempts qc = cr_attempts r ∧
  qc_CompletedAt qc = fromNanos (cr_completed_at r).
Proof.
  unfold scanCommand.
  intros (body & Eb & (res & Er & [= <-])%result_bind_Ok)%result_bind_Ok. split_and!; try done.
  destruct (cr_result r) as [b|]; [|by injection Er as <-]. destruct (len b =? 0); [by injection Er as <-|].
  apply result_bind_Ok in Er as (x & Ex & [= <-]). by exists x.
Qed.

(** A row that scans, from the parts it is made of. *)
Lemma scan_make dev id seq scope internal st body enq sent msg att comp res qc c x :
  DecodeCommand body = Ok c →
  match res with None => Ok None | Some b => if len b =? 0 then Ok None else let? x := unmarshal_Result b in Ok (Some x) end
    = Ok x →
  qc = mkQueuedCommand (mkMCommand id scope c (negb (internal =? 0))) seq st (fromNanos enq) (fromNanos sent) msg att x
    (fromNanos comp) →
  scanCommand (mkCommandRow dev id seq scope internal st body enq sent msg att comp res) = Ok qc.
Proof.
  intros Hb Hr ->. unfold scanCommand. cbn [cr_state cr_body cr_result]. rewrite Hb.
  cbn [result_bind]. by rewrite Hr.
Qed.

(** What a scan says of the row and the command, at once. *)
Lemma scan_eta r qc :
  scanCommand r = Ok qc →
  qc = mkQueuedCommand (mkMCommand (cr_id r) (cr_scope r) (qc_Body qc) (negb (cr_internal r =? 0))) (cr_seq r)
    (qc_State qc) (fromNanos (cr_enqueued_at r)) (fromNanos (cr_last_sent_at r)) (cr_sent_msg_id r) (cr_attempts r)
    (qc_Result qc) (fromNanos (cr_completed_at r)).
Proof.
  unfold scanCommand.
  intros (body & Eb & (res & Er & [= <-])%result_bind_Ok)%result_bind_Ok. done.
Qed.

Lemma scan_result r qc :
  scanCommand r = Ok qc →
  match cr_result r with None => Ok None | Some b => if len b =? 0 then Ok None else let? x := unmarshal_Result b in Ok (Some x) end
    = Ok (qc_Result qc).
Proof.
  unfold scanCommand.
  by intros (body & Eb & (res & Er & [= <-])%result_bind_Ok)%result_bind_Ok.
Qed.

Lemma rewrites_result blob r :
  marshal_Result r = Ok blob → time_kept (Res_ReceivedAt r) →
  rewrites (result_row (result_state (Res_Status r)) blob (Res_ReceivedAt r)) (answered_by r).
Proof.
  intros Hm Ht. destruct (result_roundtrip _ _ Hm) as [Hne Hu]. split; try done.
  { intros r0 _. cbn [result_row cr_state]. unfold result_state, knownStates.
    destruct (StatusCode_Success _); set_solver. }
  intros row qc E. pose proof (scan_fields _ _ E) as (Hb & _). pose proof (scan_eta _ _ E) as Heta.
  apply (scan_make) with (c := qc_Body qc) (x := Some r); [exact Hb| |].
  - destruct (Z.eqb_spec (len blob) 0) as [Hz|_]; [by apply len_0 in Hz|]. rewrite Hu. reflexivity.
  - rewrite fromNanos_nanos by done. rewrite Heta. done.
Qed.

Lemma change_all id g dev cmds : change_where dev id (λ _, true) g cmds = update_id id g cmds.
Proof.
  unfold change_where, update_id. apply map_ext. intros qc. rewrite andb_true_r.
  case_decide; [by rewrite bool_decide_true|by rewrite bool_decide_false].
Qed.

Lemma update_none dev id f db :
  id ∉ map cr_id (dev_rows dev db) → fst (sql_update (is_key dev id) f (t_commands db)) = t_commands db.
Proof.
  intros Hni. cbn [fst sql_update]. rewrite <- (map_id (t_commands db)) at 2. apply map_ext_in. intros r Hin.
  destruct (is_key dev id r) eqn:Ek; [|done]. exfalso. apply Hni. apply list_elem_of_fmap. exists r.
  unfold is_key in Ek. apply andb_true_iff in Ek as [Hd Hid]. apply bool_decide_eq_true in Hid.
  split; [done|]. apply list_elem_of_In, filter_In. done.
Qed.

Lemma set_commands_same db : set_commands (t_commands db) db = db.
Proof. by destruct db. Qed.

Lemma StoreResult_sql db dev id r blob :
  queue_ok db → marshal_Result r = Ok blob → time_kept (Res_ReceivedAt r) →
  ∃ db' res, SQ_StoreResult dev id r (mkConn db []) = (mkConn db' [], res) ∧
  queue_ok db' ∧ (∀ d, d ≠ dev → sql_cmds db' d = sql_cmds db d) ∧
  match res with
  | Ok _ => id ∈ ids (sql_cmds db dev) ∧ sql_cmds db' dev = update_id id (answered_by r) (sql_cmds db dev)
  | Err e => id ∉ ids (sql_cmds db dev) ∧ db' = db ∧ errors_Is e mdm_ErrNotFound = true
  end.
Proof.
  intros Hq Hm Ht. rewrite sql_ids by done. unfold SQ_StoreResult, bind, lift. rewrite Hm.
  replace (if negb (StatusCode_Success (Res_Status r)) then StateFailed else StateAcknowledged)
    with (result_state (Res_Status r)) by (unfold result_state; by destruct (StatusCode_Success _)).
  unfold call. cbn [c_replies c_db]. set (f := result_row _ _ _).
  pose proof (update_sql db dev id (is_key dev id) (λ _, true) f (answered_by r) Hq (rewrites_result _ _ Hm Ht)
    (λ x _, eq_sym (andb_true_r _))) as Hu.
  rewrite change_all in Hu. cbv zeta in Hu.
  pose proof (sql_count dev id db) as Hc.
  pose proof (update_none dev id f db) as Hnone. unfold sql_update in *. cbn [fst snd] in *.
  destruct (Z.of_nat (length (List.filter (is_key dev id) (t_commands db))) =? 0) eqn:En.
  - assert (id ∉ map cr_id (dev_rows dev db)) as Hni by (intros Hin; by apply Hc in Hin).
    eexists _, _. split; [reflexivity|]. rewrite (Hnone Hni), set_commands_same. split_and!; done.
  - eexists _, _. split; [reflexivity|]. destruct Hu as (? & ? & ?). split_and!; try done. by apply Hc.
Qed.

(** *** MarkSent *)

Definition sent_row_wrap (d : Delivery) (r : CommandRow) : CommandRow :=
  mkCommandRow (cr_device_id r) (cr_id r) (cr_seq r) (cr_scope r) (cr_internal r) StateSent (cr_body r)
    (cr_enqueued_at r) (nanos (Delivery_At d)) (Delivery_MsgID d) (wrap64 (cr_attempts r + 1)) (cr_completed_at r)
    (cr_result r).

Lemma rewrites_sent d : time_kept (Delivery_At d) → rewrites (sent_row_wrap d) (sent_by d).
Proof.
  intros Ht. split; try done.
  - intros r _. apply wrap64_range.
  - intros r _. cbn [sent_row_wrap cr_state]. unfold knownStates. set_solver.
  - intros row qc E. pose proof (scan_fields _ _ E) as (Hb & _). pose proof (scan_eta _ _ E) as Heta.
    apply (scan_make) with (c := qc_Body qc) (x := qc_Result qc); [exact Hb|by apply scan_result|].
    rewrite fromNanos_nanos by done. rewrite Heta. done.
Qed.

(** Room in the attempts column for [k] more deliveries. *)
Definition spare (k : Z) (cmds : list QueuedCommand) : Prop :=
  Forall (λ qc, in_int64 (qc_Attempts qc) ∧ qc_Attempts qc + k ≤ max_int64) cmds.

Lemma spare_sent k id d cmds : 0 ≤ k → spare (k + 1) cmds → spare k (update_id id (sent_by d) cmds).
Proof.
  intros Hk Hs. unfold update_id. apply Forall_map. eapply Forall_impl; [exact Hs|]. intros qc [Hi Hm].
  case_decide; [|split; [done|lia]]. cbn [sent_by qc_Attempts]. rewrite wrap64_id; [split; [|lia]|];
  unfold in_int64, min_int64, max_int64 in *; lia.
Qed.

Lemma decode_attempts r : row_ok r → qc_Attempts (decode_row r) = cr_attempts r.
Proof.
  intros (qc & E & _). unfold decode_row. rewrite E. by pose proof (scan_fields _ _ E) as (_ & _ & _ & _ & _ & ? & _).
Qed.

Lemma update_sent_sql db dev d k :
  queue_ok db → time_kept (Delivery_At d) → 0 ≤ k → spare (k + 1) (sql_cmds db dev) →
  ∃ db' n, update_sent dev d db = (db', Ok n) ∧ queue_ok db' ∧
    (∀ d', d' ≠ dev → sql_cmds db' d' = sql_cmds db d') ∧
    sql_cmds db' dev = update_id (Delivery_CommandID d) (sent_by d) (sql_cmds db dev) ∧
    ((n =? 0) = false ↔ Delivery_CommandID d ∈ ids (sql_cmds db dev)).
Proof.
  intros Hq Ht Hk Hs. unfold update_sent. set (key := is_key dev (Delivery_CommandID d)).
  assert (∀ r, r ∈ t_commands db → key r = true → cr_attempts r + 1 ≤ max_int64 ∧ in_int64 (cr_attempts r)) as Hroom.
  { intros r Hin Hkey. unfold key, is_key in Hkey. apply andb_true_iff in Hkey as [Hd _].
    assert (r ∈ dev_rows dev db) as Hdr by (rewrite list_elem_of_In in *; by apply filter_In).
    pose proof (dev_rows_ok dev db Hq) as Hr. rewrite Forall_forall in Hr. specialize (Hr r Hdr).
    unfold spare in Hs. rewrite Forall_forall in Hs.
    destruct (Hs (decode_row r)) as [Hi Hm]; [apply list_elem_of_fmap; eauto|].
    rewrite decode_attempts in Hi, Hm by done. split; [lia|done]. }
  assert (existsb (λ r, key r && (cr_attempts r =? max_int64)) (t_commands db) = false) as ->.
  { apply not_true_is_false. intros (r & Hin & Hr)%existsb_exists. apply andb_true_iff in Hr as [Hkey Hm].
    apply Z.eqb_eq in Hm. destruct (Hroom r) as [? _]; [by apply list_elem_of_In|done|lia]. }
  assert (sql_update key (sent_row d) (t_commands db) = sql_update key (sent_row_wrap d) (t_commands db)) as ->.
  { unfold sql_update. f_equal. apply map_ext_in. intros r Hin. destruct (key r) eqn:Hkey; [|done].
    destruct (Hroom r) as [? Hi]; [by apply list_elem_of_In|done|]. unfold sent_row, sent_row_wrap.
    rewrite wrap64_id; [done|]. unfold in_int64, min_int64, max_int64 in *. lia. }
  pose proof (update_sql db dev (Delivery_CommandID d) key (λ _, true) (sent_row_wrap d) (sent_by d) Hq
    (rewrites_sent d Ht) (λ x _, eq_sym (andb_true_r _))) as (Hq' & Ho & Hd').
  rewrite change_all in Hd'. rewrite sql_ids by done.
  pose proof (sql_count dev (Delivery_CommandID d) db) as Hc. unfold sql_update in *. cbn [fst snd] in *.
  eexists _, _. split; [reflexivity|]. split_and!; done.
Qed.

Lemma mark_loop_sql db dev ds :
  queue_ok db → Forall (λ d, time_kept (Delivery_At d)) ds → spare (zlength ds) (sql_cmds db dev) →
  ∃ db' res, mfor (mark_one dev) ds (mkConn db []) = (mkConn db' [], res) ∧
    (res = Ok tt ↔ Forall (λ d, Delivery_CommandID d ∈ ids (sql_cmds db dev)) ds) ∧
    match res with
    | Ok _ => queue_ok db' ∧ (∀ d', d' ≠ dev → sql_cmds db' d' = sql_cmds db d') ∧
        sql_cmds db' dev = marked ds (sql_cmds db dev)
    | Err e => e = [mdm_ErrNotFound]
    end.
Proof.
  intros Hq Ht. revert db Hq. induction Ht as [|d ds Hd Ht IH]; intros db Hq Hs.
  - eexists _, _. split; [reflexivity|]. split; [done|]. by split_and!.
  - destruct (update_sent_sql db dev d (zlength ds)) as (db1 & n & E & Hq1 & Ho1 & Hd1 & Hn);
      [done|done|unfold zlength; lia| |].
    { replace (zlength ds + 1) with (zlength (d :: ds)) by (unfold zlength; cbn [length]; lia). done. }
    cbn [mfor]. unfold bind at 1, mark_one. unfold bind at 1. unfold call. cbn [c_replies c_db]. rewrite E.
    destruct (n =? 0) eqn:En.
    + eexists _, _. split; [reflexivity|]. split; [|done]. split; [done|]. intros [Hin _]%Forall_cons. by apply Hn in Hin.
    + assert (spare (zlength ds) (sql_cmds db1 dev)) as Hs1.
      { rewrite Hd1. apply spare_sent; [unfold zlength; lia|].
        replace (zlength ds + 1) with (zlength (d :: ds)) by (unfold zlength; cbn [length]; lia). done. }
      destruct (IH db1 Hq1 Hs1) as (db2 & res & E2 & Hiff & Hres). eexists _, _. split; [exact E2|].
      assert (ids (sql_cmds db1 dev) = ids (sql_cmds db dev)) as Hids by (rewrite Hd1; by apply ids_update).
      rewrite Hids in Hiff. split.
      * rewrite Hiff, Forall_cons. split; [|by intros [_ ?]]. intros ?. split; [|done]. by apply Hn.
      * destruct res; [|done]. destruct Hres as (? & Ho2 & Hd2). split_and!; [done| |].
        -- intros d' Hne. by rewrite Ho2, Ho1.
        -- rewrite Hd2, Hd1. done.
Qed.

Lemma tx_sound (fn : M Conn unit) db db' res :
  fn (mkConn db []) = (mkConn db' [], res) →
  match res with Ok _ => True | Err e => isRetriable e = false end →
  tx_ ctx fn (mkConn db []) = (match res with Ok _ => mkConn db' [] | Err _ => mkConn db [] end, res).
Proof.
  intros E Hr. unfold tx_. destruct res as [[]|e].
  - rewrite (tx_commits _ _ tt db tt db'); [done|]. unfold in_tx. by rewrite E.
  - rewrite (tx_aborts _ _ tt db tt db' e); [done| |done]. unfold in_tx. by rewrite E.
Qed.

Lemma MarkSent_sql db dev ds :
  queue_ok db → Forall (λ d, time_kept (Delivery_At d)) ds → spare (zlength ds) (sql_cmds db dev) →
  ∃ db' res, SQ_MarkSent ctx dev ds (mkConn db []) = (mkConn db' [], res) ∧ queue_ok db' ∧
    (∀ d', d' ≠ dev → sql_cmds db' d' = sql_cmds db d') ∧
    (res = Ok tt ↔ Forall (λ d, Delivery_CommandID d ∈ ids (sql_cmds db dev)) ds) ∧
    match res with
    | Ok _ => sql_cmds db' dev = marked ds (sql_cmds db dev)
    | Err e => db' = db ∧ errors_Is e mdm_ErrNotFound = true
    end.
Proof.
  intros Hq Ht Hs. destruct (mark_loop_sql db dev ds Hq Ht Hs) as (db1 & res & E & Hiff & Hres).
  unfold SQ_MarkSent. rewrite (tx_sound _ _ _ _ E) by (by destruct res; [|rewrite Hres]).
  destruct res as [[]|e].
  - destruct Hres as (? & ? & ?). exists db1, (Ok tt). by split_and!.
  - subst e. exists db, (Err [mdm_ErrNotFound]). by split_and!.
Qed.

(** *** Enqueue *)

Lemma taken_sql {G} db dev id (g : G) :
  taken dev id (g, mkConn db []) = ((g, mkConn db []), Ok (bool_decide (id ∈ map cr_id (dev_rows dev db)))).
Proof.
  unfold taken, in_tx, query_, call. cbn [c_replies c_db]. unfold sql_exists. rewrite filter_key.
  destruct (List.filter _ _) as [|r l] eqn:E.
  - rewrite bool_decide_false; [done|]. intros (r & -> & Hin)%list_elem_of_fmap.
    assert (In r (List.filter (λ r', bool_decide (cr_id r' = cr_id r)) (dev_rows dev db))) as Hr.
    { apply filter_In. rewrite list_elem_of_In in Hin. split; [done|]. by apply bool_decide_eq_true. }
    by rewrite E in Hr.
  - rewrite bool_decide_true; [done|].
    assert (In r (List.filter (λ r', bool_decide (cr_id r' = id)) (dev_rows dev db))) as Hr by (rewrite E; by left).
    apply filter_In in Hr as [Hin Hid]. apply bool_decide_eq_true in Hid. apply list_elem_of_fmap. exists r.
    rewrite list_elem_of_In. done.
Qed.

(** The ids at least as long as [id]: each turn of the loop leaves fewer. *)
Definition as_long (id : string) (l : list string) : list string :=
  List.filter (λ x, Nat.leb (String.length id) (String.length x)) l.

Lemma as_long_step id l :
  id ∈ l → (length (as_long (id +:+ "x") l) < length (as_long id l))%nat.
Proof.
  unfold as_long. rewrite str_length_app. cbn [String.length].
  assert (∀ l, (length (List.filter (λ x, Nat.leb (String.length id + 1) (String.length x)) l) ≤
    length (List.filter (λ x, Nat.leb (String.length id) (String.length x)) l))%nat) as Hle.
  { induction l0 as [|x l0 IH]; [done|]. cbn [List.filter].
    destruct (Nat.leb_spec (String.length id + 1) (String.length x)), (Nat.leb_spec (String.length id) (String.length x));
      cbn [length]; lia. }
  induction l as [|x l IH]; [by intros ?%elem_of_nil|]. cbn [List.filter]. intros [->|Hin]%elem_of_cons.
  - specialize (Hle l). destruct (Nat.leb_spec (String.length x + 1) (String.length x)); [lia|].
    destruct (Nat.leb_spec (String.length x) (String.length x)); [|lia]. cbn [length]. lia.
  - specialize (IH Hin).
    destruct (Nat.leb_spec (String.length id + 1) (String.length x)), (Nat.leb_spec (String.length id) (String.length x));
      cbn [length]; lia.
Qed.

Lemma fresh_loop_sql {G} db dev fuel id (g : G) :
  id ≠ "" → (length (as_long id (map cr_id (dev_rows dev db))) < fuel)%nat →
  ∃ id', fresh_loop fuel dev id (g, mkConn db []) = ((g, mkConn db []), Ok id') ∧
    id' ∉ map cr_id (dev_rows dev db) ∧ id' ≠ "".
Proof.
  revert id. induction fuel as [|fuel IH]; intros id Hne Hf; [lia|]. cbn [fresh_loop]. unfold bind. rewrite taken_sql.
  case_bool_decide as Hin.
  - apply IH; [by destruct id|]. pose proof (as_long_step _ _ Hin). lia.
  - by exists id.
Qed.

Lemma fresh_id_sql {G} db dev id (g : G) :
  id ≠ "" → ∃ id', fresh_id dev id (g, mkConn db []) = ((g, mkConn db []), Ok id') ∧
    id' ∉ map cr_id (dev_rows dev db) ∧ id' ≠ "".
Proof.
  intros Hne. unfold fresh_id. cbn [snd c_db]. apply fresh_loop_sql; [done|]. unfold as_long.
  pose proof (length_filter_le (λ x, Nat.leb (String.length id) (String.length x)) (map cr_id (dev_rows dev db))).
  pose proof (length_filter_le (of_device dev) (t_commands db)). rewrite length_map in *. unfold dev_rows in *. lia.
Qed.

(** A command whose fragment reads back. *)
Definition survives (c : Command) : Prop :=
  ∃ b, EncodeCommand c (mkEncodeOptions "" false) = Ok b ∧ DecodeCommand b = Ok c.

(** The tables after a row was added for the next number of its device. *)
Lemma insert_sql db dev id seq c body at_ :
  queue_ok db → DecodeCommand body = Ok (cmd_Body c) → mcommand_ok c → time_kept at_ →
  id ∉ map cr_id (dev_rows dev db) → id ≠ "" →
  (t_command_seq db !! dev = None ∨ ∃ n, t_command_seq db !! dev = Some n ∧ n < seq) →
  let db1 := set_command_seq (<[dev := seq]> (t_command_seq db)) db in
  ∃ db', insert_command (new_row dev id seq c body at_) db1 = (db', Ok tt) ∧ queue_ok db' ∧
    (∀ d, d ≠ dev → sql_cmds db' d = sql_cmds db d) ∧
    sql_cmds db' dev = sql_cmds db dev ++ [new_queued id seq c at_].
Proof.
  intros Hq Hb Hc Ht Hid Hne Hseq db1. set (row := new_row dev id seq c body at_).
  assert (scanCommand row = Ok (new_queued id seq c at_)) as Hscan.
  { apply (scan_make) with (c := cmd_Body c) (x := None); [done|done|].
    rewrite fromNanos_nanos, boolInt_neq by done. done. }
  assert (∀ n, (∃ r, r ∈ dev_rows dev db ∧ n = cr_seq r) → n < seq) as Hlt.
  { intros n (r & Hin & ->). unfold dev_rows in Hin. rewrite list_elem_of_In in Hin. apply filter_In in Hin as [Hin Hd].
    apply bool_decide_eq_true in Hd. rewrite <- list_elem_of_In in Hin.
    destruct (qo_seq _ Hq r Hin) as (m & Hm & Hle). rewrite Hd in Hm.
    destruct Hseq as [E|(m' & E & ?)]; rewrite E in Hm; [done|]. injection Hm as <-. lia. }
  unfold insert_command. change (t_commands db1) with (t_commands db). cbn [cr_device_id cr_id row new_row].
  assert (existsb (is_key dev id) (t_commands db) = false) as ->.
  { apply not_true_is_false. intros (r & Hin & Hk)%existsb_exists. unfold is_key in Hk.
    apply andb_true_iff in Hk as [Hd Hk]. apply bool_decide_eq_true in Hk. apply Hid, list_elem_of_fmap. exists r.
    split; [done|]. apply list_elem_of_In, filter_In. done. }
  eexists. split; [reflexivity|].
  set (db' := set_commands (t_commands db ++ [row]) db1).
  assert (∀ d, dev_rows d db' = dev_rows d db ++ if decide (d = dev) then [row] else []) as Hd.
  { intros d. unfold dev_rows, db'. cbn [t_commands set_commands]. rewrite List.filter_app. f_equal. cbn.
    unfold of_device. cbn [row new_row cr_device_id]. case_decide; [by rewrite bool_decide_true|].
    by rewrite bool_decide_false. }
  split_and!.
  - split.
    + intros d. rewrite Hd. case_decide as E; [subst d|rewrite app_nil_r; apply Hq]. rewrite map_app.
      apply NoDup_app. split_and!; [apply Hq| |by repeat constructor; intros ?%elem_of_nil].
      intros x Hx ->%list_elem_of_singleton. done.
    + intros d. rewrite Hd. case_decide as E; [subst d|rewrite app_nil_r; apply Hq]. rewrite map_app.
      assert (∀ l, StronglySorted Z.lt l → Forall (λ n, n < seq) l → StronglySorted Z.lt (l ++ [seq])) as Hsn.
      { clear. intros l. induction 1 as [|n l Hs IH Hf]; intros Hl; [by repeat constructor|]. cbn.
        apply Forall_cons in Hl as [Hn Hl]. constructor; [by apply IH|]. apply Forall_app. by repeat constructor. }
      apply Hsn; [apply Hq|]. rewrite Forall_forall. intros n (r & -> & Hin)%list_elem_of_fmap. apply Hlt. eauto.
    + intros r Hin. unfold db' in Hin. cbn [t_commands set_commands] in Hin.
      change (t_command_seq db') with (<[dev := seq]> (t_command_seq db)).
      apply elem_of_app in Hin as [Hin| ->%list_elem_of_singleton].
      * destruct (qo_seq _ Hq r Hin) as (n & Hn & Hle). destruct (decide (cr_device_id r = dev)) as [E|E].
        -- rewrite E, lookup_insert_eq. exists seq. split; [done|]. apply Z.lt_le_incl, Hlt. exists r. split; [|done].
           apply list_elem_of_In, filter_In. rewrite list_elem_of_In in Hin. split; [done|]. by apply bool_decide_eq_true.
        -- rewrite lookup_insert_ne by done. eauto.
      * cbn [row new_row cr_device_id cr_seq]. rewrite lookup_insert_eq. eauto with lia.
    + unfold db'. cbn [t_commands set_commands]. apply Forall_app. split; [apply Hq|]. constructor; [|constructor].
      exists (new_queued id seq c at_). split_and!; [done..|]. cbn. unfold knownStates. set_solver.
  - intros d Hdne. unfold sql_cmds. rewrite Hd, decide_False by done. by rewrite app_nil_r.
  - unfold sql_cmds. rewrite Hd, decide_True, map_app by done. f_equal. cbn [map]. unfold decode_row. by rewrite Hscan.
Qed.

Lemma bind_run {S A B} (m : M S A) (k : A → M S B) s s' a : m s = (s', Ok a) → bind m k s = k a s'.
Proof. intros E. unfold bind. by rewrite E. Qed.

(** The counter's next value. *)
Definition next_seq (dev : string) (db : DB) : Z := default 0 (t_command_seq db !! dev) + 1.

Lemma increment_sql db dev :
  default 0 (t_command_seq db !! dev) < max_int64 →
  increment_seq dev db = (set_command_seq (<[dev := next_seq dev db]> (t_command_seq db)) db, Ok tt).
Proof.
  unfold increment_seq, next_seq, bigint_succ. destruct (t_command_seq db !! dev) as [n|]; [|done]. cbn [default].
  intros Hn. destruct (Z.eqb_spec n max_int64); [cbn in Hn; lia|done].
Qed.

Lemma enqueue_steps_sql {G} (g : G) db dev c body at_ :
  queue_ok db → DecodeCommand body = Ok (cmd_Body c) → mcommand_ok c → time_kept at_ →
  default 0 (t_command_seq db !! dev) < max_int64 →
  (cmd_ID c ∈ ids (sql_cmds db dev) ∧
   enqueue_steps dev c body at_ (g, mkConn db []) = ((g, mkConn db []), Err [mdm_ErrConflict])) ∨
  (∃ id db', enqueue_steps dev c body at_ (g, mkConn db []) =
      ((g, mkConn db' []), Ok (new_queued id (next_seq dev db) c at_)) ∧
    id ∉ ids (sql_cmds db dev) ∧ (cmd_ID c ≠ "" → id = cmd_ID c) ∧ queue_ok db' ∧
    (∀ d, d ≠ dev → sql_cmds db' d = sql_cmds db d) ∧
    sql_cmds db' dev = sql_cmds db dev ++ [new_queued id (next_seq dev db) c at_]).
Proof.
  intros Hq Hb Hc Ht Hmax. rewrite sql_ids by done. unfold enqueue_steps.
  set (db1 := set_command_seq (<[dev := next_seq dev db]> (t_command_seq db)) db).
  assert (t_command_seq db !! dev = None ∨ ∃ n, t_command_seq db !! dev = Some n ∧ n < next_seq dev db) as Hseq.
  { unfold next_seq. destruct (t_command_seq db !! dev) as [n|]; [|by left]. right. exists n. cbn. split; [done|lia]. }
  assert (∀ id, id ∉ map cr_id (dev_rows dev db) → id ≠ "" → ∃ db',
    (in_tx (call (insert_command (new_row dev id (next_seq dev db) c body at_))) ;!
     ret (new_queued id (next_seq dev db) c at_)) (g, mkConn db1 []) =
      ((g, mkConn db' []), Ok (new_queued id (next_seq dev db) c at_)) ∧ queue_ok db' ∧
    (∀ d, d ≠ dev → sql_cmds db' d = sql_cmds db d) ∧
    sql_cmds db' dev = sql_cmds db dev ++ [new_queued id (next_seq dev db) c at_]) as Hins.
  { intros id Hni Hne. destruct (insert_sql db dev id (next_seq dev db) c body at_) as (db' & E & ? & ? & ?); [done..|].
    exists db'. split; [|done]. unfold bind, in_tx, call. cbn [c_replies c_db]. fold db1 in E. rewrite E. done. }
  assert ((in_tx (call (increment_seq dev))) (g, mkConn db []) = ((g, mkConn db1 []), Ok tt)) as Einc.
  { unfold in_tx, call. cbn [c_replies c_db]. by rewrite increment_sql. }
  assert ((in_tx (query_ (select_seq dev))) (g, mkConn db1 []) = ((g, mkConn db1 []), Ok (next_seq dev db))) as Esel.
  { unfold in_tx, query_, call. cbn [c_replies c_db]. unfold select_seq, db1. cbn [t_command_seq set_command_seq].
    by rewrite lookup_insert_eq. }
  destruct (decide (cmd_ID c = "")) as [Hid|Hid].
  - destruct (fresh_id_sql db1 dev ("cmd-" +:+ Itoa (next_seq dev db)) g) as (id & Ef & Hni & Hne); [done|].
    change (dev_rows dev db1) with (dev_rows dev db) in Hni. destruct (Hins id Hni Hne) as (db' & Ei & ? & ? & ?).
    right. exists id, db'. split; [|by split_and!].
    rewrite (bind_run _ _ _ (g, mkConn db []) tt) by done. rewrite (bind_run _ _ _ _ _ Einc).
    rewrite (bind_run _ _ _ _ _ Esel), (bind_run _ _ _ _ _ Ef). exact Ei.
  - pose proof (taken_sql db dev (cmd_ID c) g) as Et. case_bool_decide as Hin.
    + left. split; [done|]. unfold bind at 1. rewrite (bind_run _ _ _ _ _ Et). done.
    + right. destruct (Hins (cmd_ID c) Hin Hid) as (db' & Ei & ? & ? & ?).
      exists (cmd_ID c), db'. split; [|by split_and!].
      rewrite (bind_run _ _ _ (g, mkConn db []) tt) by (by rewrite (bind_run _ _ _ _ _ Et)).
      rewrite (bind_run _ _ _ _ _ Einc), (bind_run _ _ _ _ _ Esel).
      by rewrite (bind_run _ _ _ (g, mkConn db1 []) (cmd_ID c)).
Qed.

Lemma Enqueue_sql db dev cmd at_ :
  queue_ok db → (∀ m, cmd = Some m → survives (cmd_Body m)) → time_kept at_ →
  default 0 (t_command_seq db !! dev) < max_int64 →
  ∃ db' res, SQ_Enqueue ctx dev cmd at_ (mkConn db []) = (mkConn db' [], res) ∧ queue_ok db' ∧
  (∀ d, d ≠ dev → sql_cmds db' d = sql_cmds db d) ∧
  match res with
  | Ok qc =>
      sql_cmds db' dev = sql_cmds db dev ++ [qc] ∧ qc_State qc = StatePending ∧
      (∃ m, cmd = Some m ∧ MValidate (Some m) = Ok tt ∧ qc_Body qc = cmd_Body m ∧
            qc_Scope qc = cmd_Scope m ∧ qc_Internal qc = cmd_Internal m ∧
            (cmd_ID m ≠ "" → qc_ID qc = cmd_ID m))
  | Err e => db' = db
  end.
Proof.
  intros Hq Hsv Ht Hmax. unfold SQ_Enqueue.
  assert (∀ e, ∃ db' res, (mkConn db [], Err e) = (mkConn db' [], res) ∧ queue_ok db' ∧
    (∀ d, d ≠ dev → sql_cmds db' d = sql_cmds db d) ∧
    match res with
    | Ok qc => sql_cmds db' dev = sql_cmds db dev ++ [qc] ∧ qc_State qc = StatePending ∧
      (∃ m, cmd = Some m ∧ MValidate (Some m) = Ok tt ∧ qc_Body qc = cmd_Body m ∧ qc_Scope qc = cmd_Scope m ∧
        qc_Internal qc = cmd_Internal m ∧ (cmd_ID m ≠ "" → qc_ID qc = cmd_ID m))
    | Err e => db' = db
    end) as Hfail by (intros e; exists db, (Err e); by split_and!).
  case_decide; [apply Hfail|]. destruct (MValidate cmd) as [[]|e] eqn:Ev; [|apply Hfail].
  destruct cmd as [m|]; [|done]. destruct (Hsv m eq_refl) as (b & Eb & Db). rewrite Eb.
  destruct (enqueue_steps_sql (None : option QueuedCommand) db dev m b at_)
    as [[_ E]|(id & db' & E & Hni & Hid & Hq' & Ho & Hd)];
    [done|done|by apply MValidate_iff|done|done| |].
  - rewrite (tx_aborts _ _ None db None db [mdm_ErrConflict]); [apply Hfail| |done].
    unfold enqueue_tx, bind at 1. by rewrite E.
  - rewrite (tx_commits _ _ None db (Some (new_queued id (next_seq dev db) m at_)) db')
      by (unfold enqueue_tx; by rewrite (bind_run _ _ _ _ _ E)). eexists _, _. split; [reflexivity|]. split_and!; [done..|].
    exists m. by split_and!.
Qed.

(** *** Cancel *)

Lemma rewrites_cancelled at_ : time_kept at_ → rewrites (cancelled_row at_) (cancelled_at at_).
Proof.
  intros Ht. split; try done.
  { intros r _. cbn [cancelled_row cr_state]. unfold knownStates. set_solver. }
  intros row qc E. pose proof (scan_fields _ _ E) as (Hb & _).
  pose proof (scan_eta _ _ E) as Heta.
  apply (scan_make) with (c := qc_Body qc) (x := qc_Result qc); [exact Hb|by apply scan_result|].
  rewrite fromNanos_nanos by done. rewrite Heta. done.
Qed.

Definition cancels (p : string → bool) (qc : QueuedCommand) : bool := p (qc_ID qc) && deliverable qc.

Definition states_known (cmds : list QueuedCommand) : Prop :=
  Forall (λ qc, qc_State qc ∈ knownStates) cmds.

Lemma sql_states db dev : queue_ok db → states_known (sql_cmds db dev).
Proof.
  intros Hq. apply Forall_map. eapply Forall_impl; [by apply dev_rows_ok|].
  intros r (qc & E & _ & _ & _ & _ & Hs). unfold decode_row. rewrite E.
  by destruct (scan_shape _ _ E) as (_ & _ & _ & _ & <-).
Qed.

Lemma cancel_loop_eq want at_ cmds :
  states_known cmds →
  cancel_loop want at_ cmds =
  (map (λ qc, if cancels (λ i, bool_decide (i ∈ want)) qc then cancelled_at at_ qc else qc) cmds,
   zlength (List.filter (cancels (λ i, bool_decide (i ∈ want))) cmds)).
Proof.
  induction 1 as [|qc cmds Hs _ IH]; [done|]. cbn [cancel_loop map List.filter]. rewrite IH. unfold cancels at 5 6.
  rewrite <- (deliverable_known qc) by done.
  change (bool_decide (qc_ID qc ∈ want) && deliverable qc) with (cancels (λ i, bool_decide (i ∈ want)) qc).
  destruct (cancels _ qc); [|done]. f_equal. unfold zlength. cbn [length]. lia.
Qed.

Lemma change_states dev id q at_ cmds :
  states_known cmds → states_known (change_where dev id q (cancelled_at at_) cmds).
Proof.
  intros Hs. apply Forall_map. eapply Forall_impl; [exact Hs|]. intros qc Hqc.
  destruct (_ && _); [|done]. unfold knownStates. set_solver.
Qed.

Lemma cancel_cons dev id l at_ cmds :
  states_known cmds →
  let cmds1 := change_where dev id deliverable (cancelled_at at_) cmds in
  let n1 := zlength (List.filter (cancels (λ i, bool_decide (i = id))) cmds) in
  cancel_loop (list_to_set (id :: l)) at_ cmds =
  (fst (cancel_loop (list_to_set l) at_ cmds1), snd (cancel_loop (list_to_set l) at_ cmds1) + n1).
Proof.
  intros Hs. cbv zeta. assert (∀ i, i ∈ list_to_set (C := gset string) (id :: l) ↔ i = id ∨ i ∈ list_to_set (C := gset string) l)
    as HW by set_solver.
  revert HW. generalize (list_to_set (C := gset string) (id :: l)) (list_to_set (C := gset string) l). intros W W' HW.
  rewrite !cancel_loop_eq by first [done|by apply change_states]. cbn [fst snd]. clear Hs.
  induction cmds as [|qc cmds IH]; [done|]. injection IH as IHm IHn.
  unfold change_where in *. cbn [map List.filter]. rewrite IHm.
  assert (cancels (λ i, bool_decide (i ∈ W)) qc =
    (bool_decide (qc_ID qc = id) && deliverable qc) || cancels (λ i, bool_decide (i ∈ W')) qc) as ->.
  { unfold cancels. rewrite <- andb_orb_distrib_l. f_equal. destruct (decide (qc_ID qc = id)) as [E|E].
    - rewrite (bool_decide_true (qc_ID qc = id)) by done. cbn [orb]. apply bool_decide_eq_true, HW. by left.
    - rewrite (bool_decide_false (qc_ID qc = id)) by done. cbn [orb]. apply bool_decide_ext. rewrite HW. naive_solver. }
  change (cancels (λ i, bool_decide (i = id)) qc) with (bool_decide (qc_ID qc = id) && deliverable qc).
  destruct (bool_decide (qc_ID qc = id) && deliverable qc) eqn:E; cbn [orb].
  - assert (∀ p, cancels p (cancelled_at at_ qc) = false) as Hc by (intros p; unfold cancels; apply andb_false_r).
    rewrite !Hc. f_equal. unfold zlength in *. cbn [length]. lia.
  - destruct (cancels (λ i, bool_decide (i ∈ W')) qc); f_equal; unfold zlength in *; cbn [length]; lia.
Qed.

Lemma cancel_loop_nil at_ cmds : cancel_loop (list_to_set []) at_ cmds = (cmds, 0).
Proof. induction cmds as [|qc cmds IH]; [done|]. cbn [cancel_loop]. rewrite IH. by rewrite bool_decide_false by set_solver. Qed.

(** An id names one command at most. *)
Lemma one_command (p : QueuedCommand → bool) id cmds :
  NoDup (ids cmds) → (length (List.filter (λ qc, bool_decide (qc_ID qc = id) && p qc) cmds) ≤ 1)%nat.
Proof.
  induction cmds as [|qc cmds IH]; cbn [ids map List.filter length]; [lia|]. intros [Hn Hd]%NoDup_cons.
  specialize (IH Hd). destruct (decide (qc_ID qc = id)) as [E|E].
  - assert (List.filter (λ qc, bool_decide (qc_ID qc = id) && p qc) cmds = []) as ->.
    { destruct (List.filter _ cmds) as [|x l] eqn:Ef; [done|]. exfalso.
      assert (In x (List.filter (λ qc, bool_decide (qc_ID qc = id) && p qc) cmds)) as Hx by (rewrite Ef; by left).
      apply filter_In in Hx as [Hin Hx]. apply andb_true_iff in Hx as [Hx _]. apply bool_decide_eq_true in Hx.
      apply Hn, list_elem_of_fmap. exists x. rewrite list_elem_of_In. split; [by rewrite Hx|done]. }
    destruct (bool_decide _ && p qc); cbn [length]; lia.
  - rewrite bool_decide_false by done. cbn [andb]. lia.
Qed.

Lemma count_cancelled db dev id :
  queue_ok db →
  Z.of_nat (length (List.filter (λ r, is_key dev id r && state_in [StatePending; StateSent] r) (t_commands db))) =
  zlength (List.filter (cancels (λ i, bool_decide (i = id))) (sql_cmds db dev)).
Proof.
  intros Hq. unfold zlength, sql_cmds. f_equal. rewrite filter_andb, filter_key, <- filter_andb.
  rewrite <- (filter_decode (λ r, bool_decide (cr_id r = id) && state_in [StatePending; StateSent] r)).
  - by rewrite length_map.
  - by apply dev_rows_ok.
  - intros r Hr. unfold cancels. rewrite decode_id, state_in_decode by done. f_equal.
    unfold deliverable. apply bool_decide_ext. set_solver.
Qed.

Lemma cancel_loop_sql db dev at_ cids k :
  queue_ok db → time_kept at_ → 0 ≤ k → k + snd (cancel_loop (list_to_set cids) at_ (sql_cmds db dev)) ≤ max_int64 →
  ∃ db' n, mfor (cancel_one dev at_) cids (k, mkConn db []) = ((n, mkConn db' []), Ok tt) ∧ queue_ok db' ∧
    (∀ d, d ≠ dev → sql_cmds db' d = sql_cmds db d) ∧
    cancel_loop (list_to_set cids) at_ (sql_cmds db dev) = (sql_cmds db' dev, n - k).
Proof.
  intros Hq Ht. revert db k Hq. induction cids as [|id cids IH]; intros db k Hq Hk Hmax.
  { exists db, k. split_and!; try done. rewrite Z.sub_diag. apply cancel_loop_nil. }
  pose proof (update_sql db dev id (λ r, is_key dev id r && state_in [StatePending; StateSent] r) deliverable
    (cancelled_row at_) (cancelled_at at_) Hq (rewrites_cancelled at_ Ht)) as Hu.
  destruct Hu as (Hq1 & Ho1 & Hd1).
  { intros r Hr. rewrite state_in_decode by done. f_equal. unfold deliverable. apply bool_decide_ext. set_solver. }
  pose proof (cancel_cons dev id cids at_ (sql_cmds db dev) (sql_states db dev Hq)) as Hcc. cbv zeta in Hcc. rewrite <- Hd1 in Hcc.
  pose proof (one_command deliverable id (sql_cmds db dev) (wf_ids _ (queue_ok_wf db dev Hq))) as Hone.
  pose proof (count_cancelled db dev id Hq) as Hcount.
  set (db1 := set_commands _ db) in *.
  set (n1 := zlength (List.filter (cancels (λ i, bool_decide (i = id))) (sql_cmds db dev))) in *.
  assert (n1 = 0 ∨ n1 = 1) as Hn1 by (unfold n1, zlength, cancels in *; lia).
  assert (cancel_one dev at_ id (k, mkConn db []) = ((k + n1, mkConn db1 []), Ok tt)) as E1.
  { unfold cancel_one, bind, in_tx, call, update_cancelled. cbn [c_replies c_db sql_update]. rewrite Hcount. fold n1.
    destruct Hn1 as [-> | ->]; cbn [Z.ltb Z.compare]; [by rewrite Z.add_0_r|].
    unfold set_var. rewrite wrap64_id; [done|]. rewrite Hcc in Hmax. cbn [snd] in Hmax.
    rewrite cancel_loop_eq in Hmax by by apply sql_states.
    cbn [snd] in Hmax. unfold zlength in Hmax. unfold in_int64, min_int64, max_int64 in *. lia. }
  rewrite Hcc in Hmax. cbn [snd] in Hmax.
  destruct (IH db1 (k + n1)) as (db2 & n & E2 & Hq2 & Ho2 & Hl2); [done|lia|lia|].
  exists db2, n. split_and!; [|done|intros d Hne; by rewrite Ho2, Ho1|].
  - cbn [mfor]. by rewrite (bind_run _ _ _ _ _ E1).
  - rewrite Hcc, Hl2. cbn [fst snd]. f_equal. lia.
Qed.

Lemma Cancel_sql db dev at_ cids :
  queue_ok db → time_kept at_ → zlength (sql_cmds db dev) ≤ max_int64 →
  ∃ db' n, SQ_Cancel ctx dev cids at_ (mkConn db []) = (mkConn db' [], Ok n) ∧ queue_ok db' ∧
    (∀ d, d ≠ dev → sql_cmds db' d = sql_cmds db d) ∧
    cancel_loop (list_to_set cids) at_ (sql_cmds db dev) = (sql_cmds db' dev, n).
Proof.
  intros Hq Ht Hmax. destruct (cancel_loop_sql db dev at_ cids 0) as (db' & n & E & Hq' & Ho & Hl); [done|done|lia| |].
  { rewrite cancel_loop_eq by by apply sql_states. cbn [snd]. unfold zlength in *.
    pose proof (length_filter_le (cancels (λ i, bool_decide (i ∈ list_to_set (C := gset string) cids))) (sql_cmds db dev)). lia. }
  exists db', n. unfold SQ_Cancel. rewrite (tx_commits _ _ _ _ _ _ E). split_and!; [done..|].
  rewrite Hl. f_equal. lia.
Qed.

(** *** List *)

Lemma row_matches_decode q r :
  row_ok r →
  (match Query_Internal q with Some b => cr_internal r =? boolInt b | None => true end &&
   (bool_decide (Query_Scope q = "") || bool_decide (cr_scope r = Query_Scope q)) &&
   match Query_States q with [] => true | sts => state_in sts r end) = matches (decode_row r) q.
Proof.
  intros Hr. pose proof (state_in_decode (Query_States q) r Hr) as Hst. destruct Hr as (qc & E & _ & _ & _ & Hi & _).
  unfold decode_row in *. rewrite E in *. destruct (scan_shape _ _ E) as (_ & _ & Hsc & _).
  unfold matches. rewrite <- Hsc. f_equal; [f_equal|].
  - rewrite Hi. destruct (Query_Internal q) as [[]|]; by destruct (qc_Internal qc).
  - destruct (Query_States q) as [|st sts]; [done|]. rewrite Hst.
    destruct (existsb (λ st0, bool_decide (qc_State qc = st0)) (st :: sts)) eqn:Ex.
    + apply bool_decide_eq_true. apply existsb_exists in Ex as (x & Hin & Hx). apply bool_decide_eq_true in Hx as ->.
      by apply list_elem_of_In.
    + apply bool_decide_eq_false. intros Hin. apply not_true_iff_false in Ex. apply Ex. apply existsb_exists.
      exists (qc_State qc). rewrite <- list_elem_of_In. split; [done|]. by apply bool_decide_eq_true.
Qed.

(** Fetching one row more than a page says whether there is a next page. *)
Lemma pageResult_page {T} (all : list T) p offset :
  offsetOf p = Ok offset → zlength all ≤ max_int64 →
  Ok (pageResult (take (Z.to_nat (Page_Size p + 1)) (drop (Z.to_nat offset) all)) (Page_Size p) offset) = page all p.
Proof.
  intros Ho Hmax. unfold page. unfold offsetOf in Ho. unfold cursor_offset. rewrite Ho. cbn [result_bind]. f_equal.
  pose proof (Page_Size_range p) as Hs. unfold MaxPageSize in Hs.
  assert (0 ≤ offset) as Hoff.
  { revert Ho. case_decide; [by intros [= <-]|]. destruct (Atoi _) as [n|]; [|done].
    destruct (Z.ltb_spec n 0); [done|]. by intros [= <-]. }
  unfold pageResult, slice, zlength in *. rewrite length_take, length_drop.
  destruct (Z.ltb_spec (Z.of_nat (length all)) offset) as [Hlt|Hge].
  - rewrite (drop_ge all (Z.to_nat offset)) by lia. rewrite take_nil.
    destruct (Z.ltb_spec (Page_Size p) (Z.of_nat (Z.to_nat (Page_Size p + 1) `min` (length all - Z.to_nat offset)))); [lia|].
    destruct (Z.ltb_spec (Z.of_nat (length all)) (Z.of_nat (length all) + Page_Size p)); [|lia].
    rewrite Z.ltb_irrefl. f_equal. rewrite (drop_ge all) by lia. by rewrite take_nil.
  - destruct (Z.ltb_spec (Page_Size p) (Z.of_nat (Z.to_nat (Page_Size p + 1) `min` (length all - Z.to_nat offset)))).
    + destruct (Z.ltb_spec (Z.of_nat (length all)) (offset + Page_Size p)); [lia|].
      destruct (Z.ltb_spec (offset + Page_Size p) (Z.of_nat (length all))); [|lia]. rewrite wrap64_id.
      * f_equal. rewrite take_take. f_equal. lia.
      * unfold in_int64, min_int64, max_int64 in *. lia.
    + destruct (Z.ltb_spec (Z.of_nat (length all)) (offset + Page_Size p)).
      * rewrite Z.ltb_irrefl. f_equal. rewrite !take_ge; [done|rewrite length_drop; lia..].
      * destruct (Z.ltb_spec (offset + Page_Size p) (Z.of_nat (length all))); [lia|]. f_equal.
        rewrite !take_ge; [done|rewrite length_drop; lia..].
Qed.

Lemma List_sql db dev q p :
  queue_ok db → zlength (sql_cmds db dev) ≤ max_int64 →
  SQ_List dev q p (mkConn db []) =
  (mkConn db [], page (List.filter (λ qc, matches qc q) (sql_cmds db dev)) p).
Proof.
  intros Hq Hmax. unfold SQ_List, bind, lift. destruct (offsetOf p) as [offset|e] eqn:Eo.
  - unfold query_, call. cbn [c_replies c_db].
    set (pr := λ r, match Query_Internal q with Some b => cr_internal r =? boolInt b | None => true end &&
      (bool_decide (Query_Scope q = "") || bool_decide (cr_scope r = Query_Scope q)) &&
      match Query_States q with [] => true | sts => state_in sts r end).
    rewrite (List.filter_ext (row_matches dev q) (λ r, of_device dev r && pr r))
      by (intros r; unfold row_matches, pr; by rewrite !andb_assoc).
    rewrite select_device by done. pose proof (dev_rows_ok dev db Hq) as Hr.
    rewrite scan_all_decode by by apply Forall_take, Forall_drop, Forall_filter_ok.
    change (map ?f ?l) with (f <$> l). rewrite fmap_take, fmap_drop. change (?f <$> ?l) with (map f l).
    rewrite (filter_decode pr (λ qc, matches qc q)) by (done || intros r Hrow; by apply row_matches_decode).
    cbn [ret]. unfold ret. f_equal. apply pageResult_page; [done|].
    unfold zlength in *. pose proof (length_filter_le (λ qc, matches qc q) (sql_cmds db dev)). unfold sql_cmds in *. lia.
  - f_equal. unfold page. unfold offsetOf in Eo. unfold cursor_offset. by rewrite Eo.
Qed.

(** *** Prune *)

Definition row_key (r : CommandRow) : string * string := (cr_device_id r, cr_id r).

Lemma is_key_iff dev id r : is_key dev id r = true ↔ row_key r = (dev, id).
Proof.
  unfold is_key, row_key. rewrite andb_true_iff, !bool_decide_eq_true. split; [by intros [-> ->]|by intros [= -> ->]].
Qed.

Lemma prune_loop_sql db keys k :
  0 ≤ k → k + zlength keys ≤ max_int64 →
  mfor prune_one keys (k, mkConn db []) =
  ((k + zlength keys,
    mkConn (set_commands (List.filter (λ r, negb (bool_decide (row_key r ∈ keys))) (t_commands db)) db) []), Ok tt).
Proof.
  revert db k. induction keys as [|[dev id] keys IH]; intros db k Hk Hmax.
  - cbn [mfor]. unfold ret, zlength. cbn [length Z.of_nat]. rewrite Z.add_0_r.
    assert (List.filter (λ r, negb (bool_decide (row_key r ∈ []))) (t_commands db) = t_commands db) as ->.
    { induction (t_commands db) as [|r l IHl]; [done|]. cbn [List.filter].
      rewrite bool_decide_false by (by apply not_elem_of_nil). cbn [negb]. by rewrite IHl. }
    by rewrite set_commands_same.
  - assert (zlength ((dev, id) :: keys) = zlength keys + 1) as Hz by (unfold zlength; cbn [length]; lia).
    rewrite Hz in *. cbn [mfor].
    set (db1 := set_commands (List.filter (λ r, negb (is_key dev id r)) (t_commands db)) db).
    assert (prune_one (dev, id) (k, mkConn db []) = ((k + 1, mkConn db1 []), Ok tt)) as E.
    { unfold prune_one, bind, in_tx, call, set_var. cbn [c_replies c_db delete_command fst snd].
      rewrite wrap64_id; [done|]. unfold zlength in *. unfold in_int64, min_int64, max_int64 in *. lia. }
    rewrite (bind_run _ _ _ _ _ E), IH by (unfold zlength in *; lia).
    replace (k + 1 + zlength keys) with (k + (zlength keys + 1)) by lia. unfold db1. cbn [t_commands set_commands].
    change (set_commands ?a (set_commands ?b ?d)) with (set_commands a d). do 4 f_equal. rewrite <- filter_andb. apply List.filter_ext. intros r.
    rewrite <- negb_orb. f_equal. destruct (is_key dev id r) eqn:Ek.
    + apply is_key_iff in Ek. cbn [orb]. symmetry. apply bool_decide_eq_true. rewrite Ek. apply list_elem_of_here.
    + cbn [orb]. apply bool_decide_ext. rewrite elem_of_cons. split; [auto|]. intros [Hr|Hr]; [|done].
      exfalso. by rewrite (proj2 (is_key_iff dev id r) Hr) in Ek.
Qed.

Lemma keys_NoDup db : queue_ok db → NoDup (map row_key (t_commands db)).
Proof.
  intros Hq. pose proof (qo_keys _ Hq) as Hk. unfold dev_rows in Hk.
  induction (t_commands db) as [|r l IH]; [constructor|]. cbn [map]. constructor.
  - intros (r' & E & Hin)%list_elem_of_fmap. specialize (Hk (cr_device_id r)). cbn [List.filter] in Hk.
    unfold of_device at 1 in Hk. rewrite bool_decide_true in Hk by done. cbn [map] in Hk.
    apply NoDup_cons in Hk as [Hni _]. apply Hni, list_elem_of_fmap. injection E as E1 E2. exists r'.
    split; [done|]. apply list_elem_of_In, filter_In. rewrite <- list_elem_of_In. split; [done|].
    unfold of_device. by apply bool_decide_eq_true.
  - apply IH. intros dev. specialize (Hk dev). cbn [List.filter] in Hk. destruct (of_device dev r); [|done].
    by apply NoDup_cons in Hk as [_ ?].
Qed.

Lemma keys_inj db r r' :
  queue_ok db → r ∈ t_commands db → r' ∈ t_commands db → row_key r = row_key r' → r = r'.
Proof.
  intros Hq Hr Hr' E. pose proof (keys_NoDup db Hq) as Hnd. apply list_elem_of_lookup in Hr as [i Hi], Hr' as [j Hj].
  assert (i = j) as ->; [|congruence]. eapply (NoDup_lookup (map row_key (t_commands db))); [done| |];
    rewrite list_lookup_fmap; [by rewrite Hi|by rewrite Hj, E].
Qed.

Lemma NoDup_filter_list {A} (p : A → bool) l : NoDup l → NoDup (List.filter p l).
Proof.
  induction 1 as [|x l Hx Hl IH]; [constructor|]. cbn [List.filter]. destruct (p x); [|done]. constructor; [|done].
  intros Hin. apply Hx. rewrite list_elem_of_In in *. by apply filter_In in Hin as [? _].
Qed.

Lemma queue_ok_filter (p : CommandRow → bool) db :
  queue_ok db → queue_ok (set_commands (List.filter p (t_commands db)) db).
Proof.
  intros Hq. assert (∀ dev, dev_rows dev (set_commands (List.filter p (t_commands db)) db) =
    List.filter p (dev_rows dev db)) as Hd.
  { intros dev. unfold dev_rows. cbn [t_commands set_commands]. rewrite <- !filter_andb. apply List.filter_ext.
    intros r. apply andb_comm. }
  assert (∀ {B} (c : CommandRow → B) l, sublist (map c (List.filter p l)) (map c l)) as Hsub.
  { intros B c l. induction l as [|r l IH]; [done|]. cbn [List.filter map]. destruct (p r); by constructor. }
  split.
  - intros dev. rewrite Hd. eapply sublist_NoDup; [apply Hq|apply Hsub].
  - intros dev. rewrite Hd. pose proof (qo_sorted _ Hq dev) as Hs. revert Hs. generalize (dev_rows dev db). clear.
    induction l as [|r l IH]; [done|]. cbn [List.filter map]. intros Hs. inversion Hs as [|? ? Hs' Hf]; subst.
    destruct (p r); [|by apply IH]. cbn [map]. constructor; [by apply IH|]. rewrite Forall_forall in *.
    intros n (y & -> & Hy)%list_elem_of_fmap. apply Hf, list_elem_of_fmap. exists y. split; [done|].
    rewrite list_elem_of_In in *. by apply filter_In in Hy as [? _].
  - cbn [t_commands set_commands t_command_seq]. intros r Hin. apply Hq. rewrite list_elem_of_In in *.
    by apply filter_In in Hin as [? _].
  - cbn [t_commands set_commands]. apply Forall_filter_ok, Hq.
Qed.

Lemma prunable_decode before r :
  row_ok r → time_kept before → prunable_row before r = true → prunable before (decode_row r) = true.
Proof.
  intros Hr Ht. unfold prunable_row. rewrite state_in_decode by done. rewrite !andb_true_iff, Z.ltb_lt, Z.ltb_lt.
  intros [[Hst Hpos] Hlt]. apply bool_decide_eq_true in Hst.
  assert (qc_CompletedAt (decode_row r) = cr_completed_at r + unix_epoch) as Hc.
  { destruct Hr as (qc & E & _). unfold decode_row. rewrite E.
    pose proof (scan_fields _ _ E) as (_ & _ & _ & _ & _ & _ & ->). unfold fromNanos.
    destruct (Z.eqb_spec (cr_completed_at r) 0); [lia|done]. }
  assert (nanos before = before - unix_epoch) as Hb.
  { unfold nanos, time_IsZero in *. destruct (Z.eqb_spec before 0); [lia|]. destruct Ht as [?|[Hi _]]; [done|].
    by rewrite wrap64_id. }
  unfold prunable, time_IsZero, time_Before. rewrite Hc, !andb_true_iff. split_and!.
  - repeat (apply elem_of_cons in Hst as [->|Hst]; [done|]). by apply elem_of_nil in Hst.
  - destruct (Z.eqb_spec (cr_completed_at r + unix_epoch) 0); [|done]. unfold unix_epoch, Second in *. lia.
  - apply Z.ltb_lt. lia.
Qed.

Lemma Prune_sql db ties before limit :
  queue_ok db → time_kept before → zlength (t_commands db) ≤ max_int64 → (∀ l, ties l ≡ₚ l) →
  ∃ db' n (gone : CommandRow → bool), SQ_Prune ctx ties before limit (mkConn db []) = (mkConn db' [], Ok n) ∧ queue_ok db' ∧
    t_commands db' = List.filter (λ r, negb (gone r)) (t_commands db) ∧
    n = zlength (List.filter gone (t_commands db)) ∧
    (∀ r, gone r = true → r ∈ t_commands db → prunable_row before r = true) ∧
    (0 < limit → n ≤ limit) ∧
    (limit ≤ 0 ∨ n < limit → List.filter (prunable_row before) (t_commands db') = []) ∧
    (∀ r r', r ∈ t_commands db → gone r = true → r' ∈ t_commands db' → prunable_row before r' = true →
      cr_completed_at r ≤ cr_completed_at r').
Proof.
  intros Hq Ht Hmax Hties. unfold SQ_Prune, bind, query_, call. cbn [c_replies c_db].
  set (sel := List.filter (prunable_row before) (t_commands db)).
  set (sorted := merge_sort completed_le (ties sel)). set (pick := sql_limit limit sorted).
  assert (sorted ≡ₚ sel) as Hperm by (unfold sorted; by rewrite merge_sort_Permutation, Hties).
  assert (StronglySorted completed_le sorted) as Hsorted.
  { apply StronglySorted_merge_sort; [intros a b c; unfold completed_le; lia|intros a b; unfold completed_le; lia]. }
  assert (∃ rest, sorted = pick ++ rest ∧ (limit ≤ 0 ∨ zlength pick < limit → rest = []) ∧ (0 < limit → zlength pick ≤ limit))
    as (rest & Hsplit & Hrest & Hlim).
  { unfold pick, sql_limit, zlength. destruct (Z.ltb_spec 0 limit).
    - exists (drop (Z.to_nat limit) sorted). rewrite take_drop, length_take. split_and!; [done| |lia].
      intros Hl. apply drop_ge. lia.
    - exists []. rewrite app_nil_r. split_and!; [done|done|lia]. }
  assert (NoDup (t_commands db)) as Hnd by (by eapply NoDup_fmap_1, (keys_NoDup db)).
  assert (NoDup sorted) as Hnds by (rewrite Hperm; by apply NoDup_filter_list).
  assert (NoDup pick) as Hndp by (rewrite Hsplit in Hnds; by apply NoDup_app in Hnds as [? _]).
  assert (∀ r, r ∈ sorted ↔ r ∈ t_commands db ∧ prunable_row before r = true) as Hin.
  { intros r. rewrite Hperm, list_elem_of_In, list_elem_of_In. apply filter_In. }
  set (gone := λ r, bool_decide (row_key r ∈ map row_key pick)).
  assert (∀ r, r ∈ t_commands db → gone r = true ↔ r ∈ pick) as Hgone.
  { intros r Hr. unfold gone. rewrite bool_decide_eq_true, list_elem_of_fmap. split; [|eauto].
    intros (r' & E & Hp). assert (r' ∈ t_commands db) as Hr' by (apply Hin; rewrite Hsplit; set_solver).
    replace r with r'; [done|]. by apply (keys_inj db). }
  assert (List.filter gone (t_commands db) ≡ₚ pick) as Hcount.
  { apply NoDup_Permutation; [by apply NoDup_filter_list|done|]. intros r.
    rewrite list_elem_of_In, filter_In, <- list_elem_of_In. split; [intros [Hr Hg]; by apply Hgone|].
    intros Hp. assert (r ∈ t_commands db) as Hr by (apply Hin; rewrite Hsplit; set_solver). by rewrite Hgone. }
  assert (zlength (map row_key pick) = zlength (List.filter gone (t_commands db))) as Hn.
  { unfold zlength. rewrite length_map. by rewrite Hcount. }
  pose proof (length_filter_le gone (t_commands db)) as Hle.
  pose proof (prune_loop_sql db (map row_key pick) 0 ltac:(lia) ltac:(unfold zlength in *; lia)) as E.
  exists (set_commands (List.filter (λ r, negb (gone r)) (t_commands db)) db), (zlength (List.filter gone (t_commands db))), gone.
  assert (zlength pick = zlength (List.filter gone (t_commands db))) as Hnp by (rewrite <- Hn; unfold zlength; by rewrite length_map).
  rewrite <- Hnp. cbn [t_commands set_commands].
  split_and!; [|by apply queue_ok_filter|done|done| |done| |].
  - rewrite (tx_commits _ _ _ _ _ _ E). rewrite Hn, <- Hnp. done.
  - intros r Hg Hr. apply Hgone in Hg; [|done]. apply Hin. rewrite Hsplit. set_solver.
  - intros Hl. apply Hrest in Hl as ->. rewrite app_nil_r in Hsplit.
    destruct (List.filter (prunable_row before) (List.filter (λ r, negb (gone r)) (t_commands db))) as [|r l] eqn:El;
      [done|]. exfalso.
    assert (In r (List.filter (prunable_row before) (List.filter (λ r, negb (gone r)) (t_commands db)))) as Hr
      by (rewrite El; by left).
    apply filter_In in Hr as [Hr Hp]. apply filter_In in Hr as [Hr Hg]. rewrite <- list_elem_of_In in Hr.
    apply negb_true_iff in Hg. assert (gone r = true) as Hg'; [|congruence]. apply Hgone; [done|].
    rewrite <- Hsplit. by apply Hin.
  - intros r r' Hr Hg Hr' Hp. apply Hgone in Hg; [|done]. rewrite list_elem_of_In in Hr'.
    apply filter_In in Hr' as [Hr' Hg']. rewrite <- list_elem_of_In in Hr'. apply negb_true_iff in Hg'.
    assert (r' ∈ sorted) as Hs by by apply Hin. rewrite Hsplit in Hs, Hsorted. apply elem_of_app in Hs as [Hs|Hs].
    { apply Hgone in Hs; [congruence|done]. }
    revert Hsorted Hg Hs. clear. induction pick as [|x l IH]; [by intros _ ?%elem_of_nil|].
    intros Hs [->|Hin]%elem_of_cons Hr'; inversion Hs as [|? ? Hs' Hf]; subst; [|by apply IH].
    rewrite Forall_forall in Hf. apply (Hf r'). set_solver.
Qed.
End proofs.
