(* ===== verification/SqlTheorems.v ===== *)
(** * Theorems about the SQL command queue

    The queue in the tables keeps the promises of mdm.CommandQueue while the
    database carries out its calls, and fails without a trace when the database
    does not; two flaws are shown on examples. *)
From stdpp Require Import base gmap strings list sorting.
From Stdlib Require Import ZArith Lia Ascii Sorted.
From S2P Require Import Prelude GoStrings SyncmlModel Validate Response Encode Utf8 GoXml Decode DecodeProofs DecodeTheorems.
From S2P Require Import MdmCommand Paging MdmQueue InmemQueue SqlBase SqlQueue SqlQueueProofs.

Local Open Scope Z_scope.
Local Open Scope go_scope.

(** ** Any replies *)

(** The server does not pretend that a row is missing: sql.ErrNoRows comes from
    reading an empty result. *)
Definition honest (c : Conn) : Prop :=
  Forall (λ r, match r with Some e => errors_Is e sql_ErrNoRows = false | None => True end) (c_replies c).

(** What [m] answers and writes when it succeeds does not depend on the replies
    or on the variables. *)
Definition steady {G A} (m : M (G * Conn) A) : Prop :=
  ∀ g c g' c' res, honest c → m (g, c) = ((g', c'), res) →
    honest c' ∧
    ∀ a, res = Ok a → ∀ g0, ∃ g0', m (g0, mkConn (c_db c) []) = ((g0', mkConn (c_db c') []), Ok a).

Lemma steady_bind {G A B} (m : M (G * Conn) A) (k : A → M (G * Conn) B) :
  steady m → (∀ a, steady (k a)) → steady (bind m k).
Proof.
  intros Hm Hk g c g' c' res Hh. unfold bind. destruct (m (g, c)) as [[g1 c1] [a|e]] eqn:E1.
  - destruct (Hm _ _ _ _ _ Hh E1) as [Hh1 H1]. intros E2. destruct (Hk a _ _ _ _ _ Hh1 E2) as [Hh2 H2].
    split; [done|]. intros b Hb g0. destruct (H1 a eq_refl g0) as (g1' & ->). apply (H2 b Hb).
  - intros [= <- <- <-]. split; [by destruct (Hm _ _ _ _ _ Hh E1)|done].
Qed.

Lemma steady_ret {G A} (a : A) : steady (G := G) (ret a).
Proof. intros g c g' c' res Hh [= <- <- <-]. split; [done|]. intros b [= <-] g0. by exists g0. Qed.

Lemma steady_lift {G A} (r : result A) : steady (G := G) (lift r).
Proof. intros g c g' c' res Hh [= <- <- <-]. split; [done|]. intros b -> g0. by exists g0. Qed.

Lemma steady_set {G} (f : G → G) : steady (set_var f).
Proof. intros g c g' c' res Hh [= <- <- <-]. split; [done|]. intros b [= <-] g0. by eexists. Qed.

Lemma honest_tail db db' e l : honest (mkConn db (e :: l)) → honest (mkConn db' l).
Proof. unfold honest. cbn. by intros [_ ?]%Forall_cons. Qed.

Lemma steady_call {G A} (f : DB → DB * result A) : steady (G := G) (in_tx (call f)).
Proof.
  intros g [db l] g' c' res Hh. unfold in_tx, call. cbn [c_replies c_db]. destruct l as [|[e|] l].
  - destruct (f db) as [db1 r] eqn:E. intros [= <- <- <-]. split; [done|]. intros a -> g0. cbn. rewrite ?E. by exists g0.
  - intros [= <- <- <-]. split; [by eapply honest_tail|done].
  - destruct (f db) as [db1 r] eqn:E. intros [= <- <- <-]. split; [by eapply honest_tail|].
    intros a -> g0. cbn. rewrite ?E. by exists g0.
Qed.

Lemma steady_query {G A} (f : DB → result A) : steady (G := G) (in_tx (query_ f)).
Proof. apply steady_call. Qed.

Lemma steady_mfor {G A} (f : A → M (G * Conn) unit) l : (∀ a, steady (f a)) → steady (mfor f l).
Proof. intros Hf. induction l as [|a l IH]; [apply steady_ret|]. cbn [mfor]. by apply steady_bind. Qed.

Lemma steady_in_tx_bind {G A B} (m : M Conn A) (k : A → M Conn B) :
  steady (G := G) (in_tx m) → (∀ a, steady (G := G) (in_tx (k a))) → steady (G := G) (in_tx (bind m k)).
Proof.
  intros Hm Hk. assert (∀ s : G * Conn, in_tx (bind m k) s = bind (in_tx m) (λ a, in_tx (k a)) s) as He.
  { intros [g c]. unfold in_tx, bind. by destruct (m c) as [c1 [a|e]]. }
  intros g c g' c' res Hh. rewrite He. intros E. destruct (steady_bind _ _ Hm Hk _ _ _ _ _ Hh E) as [Hh' Hr].
  split; [done|]. intros a Ha g0. rewrite He. by apply Hr.
Qed.

Lemma steady_in_tx_lift {G A} (r : result A) : steady (G := G) (in_tx (lift r)).
Proof. intros g c g' c' res Hh [= <- <- <-]. split; [done|]. intros b -> g0. by exists g0. Qed.

Lemma steady_in_tx_mfor {G A} (f : A → M Conn unit) l :
  (∀ a, steady (G := G) (in_tx (f a))) → steady (G := G) (in_tx (mfor f l)).
Proof.
  intros Hf. induction l as [|a l IH]; [apply (steady_in_tx_lift (Ok tt))|]. cbn [mfor]. by apply steady_in_tx_bind.
Qed.

Lemma steady_taken {G} dev id : steady (G := G) (taken dev id).
Proof.
  intros g [db l] g' c' res Hh. unfold taken, in_tx, query_, call. cbn [c_replies c_db].
  destruct l as [|[e|] l].
  - destruct (sql_exists _ _) as [[]|e] eqn:E; [|destruct (errors_Is e sql_ErrNoRows) eqn:En]; intros [= <- <- <-];
      (split; [done|]); intros a Ha g0; cbn; rewrite ?E, ?En; try done; injection Ha as <-; by exists g0.
  - inversion Hh as [|? ? He Hl]; subst. cbn in He. rewrite He. intros [= <- <- <-]. split; [exact Hl|done].
  - destruct (sql_exists _ _) as [[]|e] eqn:E; [|destruct (errors_Is e sql_ErrNoRows) eqn:En]; intros [= <- <- <-];
      (split; [by eapply honest_tail|]); intros a Ha g0; cbn; rewrite ?E, ?En; try done; injection Ha as <-; by exists g0.
Qed.

Lemma steady_fresh {G} fuel dev id : steady (G := G) (fresh_loop fuel dev id).
Proof.
  revert id. induction fuel as [|fuel IH]; intros id; cbn [fresh_loop]; [apply steady_lift|].
  apply steady_bind; [apply steady_taken|]. intros []; [apply IH|apply steady_ret].
Qed.

Lemma steady_fresh_id {G} dev id : steady (G := G) (fresh_id dev id).
Proof. intros g c g' c' res Hh E. unfold fresh_id in *. cbn [snd c_db] in *. by eapply steady_fresh. Qed.

Lemma steady_enqueue {G} dev c body at_ : steady (G := G) (enqueue_steps dev c body at_).
Proof.
  unfold enqueue_steps. apply steady_bind.
  { case_decide; [apply steady_ret|]. apply steady_bind; [apply steady_taken|].
    intros []; [apply steady_lift|apply steady_ret]. }
  intros _. apply steady_bind; [apply steady_call|]. intros _. apply steady_bind; [apply steady_query|]. intros seq.
  apply steady_bind; [case_decide; [apply steady_fresh_id|apply steady_ret]|]. intros id.
  apply steady_bind; [apply steady_call|]. intros _. apply steady_ret.
Qed.

Lemma steady_enqueue_tx dev c body at_ : steady (enqueue_tx dev c body at_).
Proof. apply steady_bind; [apply steady_enqueue|]. intros qc. apply steady_set. Qed.

(** The attempt of a transaction that was committed, and what is left when none
    was. *)
Lemma tx_outcome {G} (fn : M (G * Conn) unit) ctx g c g' c' res :
  steady fn → honest c → tx fn ctx (g, c) = ((g', c'), res) →
  match res with
  | Err _ => c_db c' = c_db c
  | Ok _ => ∃ g1 c1 c2, c_db c1 = c_db c ∧ honest c1 ∧ fn (g1, c1) = ((g', c2), Ok tt) ∧ c_db c' = c_db c2
  end.
Proof.
  intros Hs Hh. unfold tx.
  assert (∀ n last g c, honest c → (∃ e, last = Err e) ∨ n ≠ O → tx_loop fn ctx n last (g, c) = ((g', c'), res) →
    match res with
    | Err _ => c_db c' = c_db c
    | Ok _ => ∃ g1 c1 c2, c_db c1 = c_db c ∧ honest c1 ∧ fn (g1, c1) = ((g', c2), Ok tt) ∧ c_db c' = c_db c2
    end) as Hl; [|apply Hl; [done|by right]].
  clear g c Hh. induction n as [|n IH]; intros last g c Hh Hlast; cbn [tx_loop].
  { destruct Hlast as [[e ->]|]; [|done]. by intros [= _ <- <-]. }
  assert (∀ f c1 c2 r, honest c1 → query_ (A := unit) f c1 = (c2, r) → honest c2) as Hqh.
  { intros f [db l] c2 r Hc1. unfold query_, call. cbn [c_replies c_db].
    destruct l as [|[e|] l]; intros [= <- _]; [done|by eapply honest_tail..]. }
  unfold txOnce. destruct (query_ (λ _, Ok tt) c) as [c1 [[]|e]] eqn:E1; pose proof (Hqh _ _ _ _ Hh E1) as Hh1; apply query_db in E1.
  2: { destruct (negb _); [by intros [= _ <- <-]|]. destruct ctx; [by intros [= _ <- <-]|].
       intros El. apply IH in El; [|done|left; eauto]. by rewrite E1 in El. }
  destruct (fn (g, c1)) as [[g2 c2] [[]|e]] eqn:E2; destruct (Hs _ _ _ _ _ Hh1 E2) as [Hh2 _].
  2: { destruct (negb _); [by intros [= _ <- <-]|]. destruct ctx; [by intros [= _ <- <-]|].
       intros El. apply IH in El; [|done|left; eauto]. by rewrite E1 in El. }
  destruct (query_ (λ _, Ok tt) c2) as [c3 [[]|e]] eqn:E3; pose proof (Hqh _ _ _ _ Hh2 E3) as Hh3; apply query_db in E3.
  - intros [= <- <- <-]. exists g, c1, c2. done.
  - destruct (negb _); [by intros [= _ <- <-]|]. destruct ctx; [by intros [= _ <- <-]|].
    intros El. apply IH in El; [|done|left; eauto]. by rewrite E1 in El.
Qed.

Section queue.
Context `{NameTables} `{ResultCodecLaws} (ctx : option error).

(** ** The queue keeps its promises *)

(** C23: The SQL queue implements mdm.CommandQueue over a database that carries
    out its calls: on tables that hold queues, every operation answers and
    changes the commands of the device as the interface promises and leaves
    those of other devices alone, List pages and Cancel counts as the in-memory
    backend does, MarkSent either marks every delivery or none, Prune removes the
    longest finished commands first; and the tables hold queues afterwards.  A
    command must survive its encoding, a time its column. *)
Theorem sql_implements_queue db dev :
  queue_ok db → zlength (t_commands db) ≤ max_int64 →
  cmds_wf (sql_cmds db dev) ∧
  (∀ cmd at_, (∀ m, cmd = Some m → survives (cmd_Body m)) → time_kept at_ →
    default 0 (t_command_seq db !! dev) < max_int64 →
    ∃ db' res, SQ_Enqueue ctx dev cmd at_ (mkConn db []) = (mkConn db' [], res) ∧ queue_ok db' ∧
    (∀ d, d ≠ dev → sql_cmds db' d = sql_cmds db d) ∧
    match res with
    | Ok qc =>
        sql_cmds db' dev = sql_cmds db dev ++ [qc] ∧ qc_State qc = StatePending ∧
        (∃ m, cmd = Some m ∧ MValidate (Some m) = Ok tt ∧ qc_Body qc = cmd_Body m ∧
              qc_Scope qc = cmd_Scope m ∧ qc_Internal qc = cmd_Internal m ∧
              (cmd_ID m ≠ "" → qc_ID qc = cmd_ID m))
    | Err e => db' = db
    end) ∧
  (∀ limit, SQ_Deliverable dev limit (mkConn db []) =
    (mkConn db [], Ok (upto limit (List.filter deliverable (sql_cmds db dev))))) ∧
  (∀ ds, Forall (λ d, time_kept (Delivery_At d)) ds → spare (zlength ds) (sql_cmds db dev) →
    ∃ db' res, SQ_MarkSent ctx dev ds (mkConn db []) = (mkConn db' [], res) ∧ queue_ok db' ∧
    (∀ d', d' ≠ dev → sql_cmds db' d' = sql_cmds db d') ∧
    (res = Ok tt ↔ Forall (λ d, Delivery_CommandID d ∈ ids (sql_cmds db dev)) ds) ∧
    match res with
    | Ok _ => sql_cmds db' dev = marked ds (sql_cmds db dev)
    | Err e => db' = db ∧ errors_Is e mdm_ErrNotFound = true
    end) ∧
  (∀ id r blob, marshal_Result r = Ok blob → time_kept (Res_ReceivedAt r) →
    ∃ db' res, SQ_StoreResult dev id r (mkConn db []) = (mkConn db' [], res) ∧ queue_ok db' ∧
    (∀ d, d ≠ dev → sql_cmds db' d = sql_cmds db d) ∧
    match res with
    | Ok _ => id ∈ ids (sql_cmds db dev) ∧ sql_cmds db' dev = update_id id (answered_by r) (sql_cmds db dev)
    | Err e => id ∉ ids (sql_cmds db dev) ∧ db' = db ∧ errors_Is e mdm_ErrNotFound = true
    end) ∧
  (∀ id, ∃ res, SQ_Get dev id (mkConn db []) = (mkConn db [], res) ∧
    match res with
    | Ok qc => qc ∈ sql_cmds db dev ∧ qc_ID qc = id
    | Err e => id ∉ ids (sql_cmds db dev) ∧ errors_Is e mdm_ErrNotFound = true
    end) ∧
  (∀ q p, SQ_List dev q p (mkConn db []) =
    (mkConn db [], page (List.filter (λ qc, matches qc q) (sql_cmds db dev)) p)) ∧
  (∀ cids at_, time_kept at_ →
    ∃ db' n, SQ_Cancel ctx dev cids at_ (mkConn db []) = (mkConn db' [], Ok n) ∧ queue_ok db' ∧
    (∀ d, d ≠ dev → sql_cmds db' d = sql_cmds db d) ∧
    cancel_loop (list_to_set cids) at_ (sql_cmds db dev) = (sql_cmds db' dev, n)) ∧
  (∀ ties before limit, (∀ l, ties l ≡ₚ l) → time_kept before →
    ∃ db' n (gone : CommandRow → bool), SQ_Prune ctx ties before limit (mkConn db []) = (mkConn db' [], Ok n) ∧
    queue_ok db' ∧ t_commands db' = List.filter (λ r, negb (gone r)) (t_commands db) ∧
    n = zlength (List.filter gone (t_commands db)) ∧ (0 < limit → n ≤ limit) ∧
    (∀ r, r ∈ t_commands db → gone r = true → prunable before (decode_row r) = true) ∧
    (limit ≤ 0 ∨ n < limit → List.filter (prunable_row before) (t_commands db') = []) ∧
    (∀ r r', r ∈ t_commands db → gone r = true → r' ∈ t_commands db' → prunable_row before r' = true →
      cr_completed_at r ≤ cr_completed_at r')).
Proof.
  intros Hq Hmax.
  assert (zlength (sql_cmds db dev) ≤ max_int64) as Hmax'.
  { pose proof (length_filter_le (of_device dev) (t_commands db)). unfold zlength, sql_cmds, dev_rows in *.
    rewrite length_map. lia. }
  split_and!; [by apply queue_ok_wf|intros; by apply Enqueue_sql|intros; by apply Deliverable_sql|
    intros; by apply MarkSent_sql|intros; by eapply StoreResult_sql|intros; by apply Get_sql|intros; by apply List_sql|
    intros; by apply Cancel_sql|].
  intros ties before limit Hties Ht.
  destruct (Prune_sql ctx db ties before limit Hq Ht Hmax Hties) as (db' & n & gone & E & Hq' & Hd & Hn & Hg & Hl & Hr & Ho).
  exists db', n, gone. split_and!; try done. intros r Hin Hgr. apply prunable_decode; [|done|by apply Hg].
  pose proof (qo_rows _ Hq) as Hrows. rewrite Forall_forall in Hrows. by apply Hrows.
Qed.

(** ** Failures leave no trace *)

Lemma steady_mark {G} dev d : steady (G := G) (in_tx (mark_one dev d)).
Proof.
  unfold mark_one. apply steady_in_tx_bind; [apply steady_call|]. intros n.
  destruct (n =? 0); [apply steady_in_tx_lift|apply (steady_in_tx_lift (Ok tt))].
Qed.

Lemma steady_cancel dev at_ id : steady (cancel_one dev at_ id).
Proof.
  unfold cancel_one. apply steady_bind; [apply steady_call|]. intros c.
  destruct (0 <? c); [apply steady_set|apply steady_ret].
Qed.

Lemma steady_prune k : steady (prune_one k).
Proof. unfold prune_one. apply steady_bind; [apply steady_call|]. intros _. apply steady_set. Qed.

(** A committed transaction does what it does without failures. *)
Lemma tx_committed {G} (fn : M (G * Conn) unit) g db replies g' c' :
  steady fn → honest (mkConn db replies) → tx fn ctx (g, mkConn db replies) = ((g', c'), Ok tt) →
  ∀ g0, ∃ g0', tx fn ctx (g0, mkConn db []) = ((g0', mkConn (c_db c') []), Ok tt).
Proof.
  intros Hs Hh E g0. destruct (tx_outcome _ _ _ _ _ _ _ Hs Hh E) as (g1 & c1 & c2 & Hdb & Hh1 & Ef & Hc).
  destruct (Hs _ _ _ _ _ Hh1 Ef) as [_ Hf]. destruct (Hf tt eq_refl g0) as (g0' & E0). rewrite Hdb in E0.
  exists g0'. rewrite Hc. by apply tx_commits.
Qed.

Lemma update_nothing (w : CommandRow → bool) f db :
  List.filter w (t_commands db) = [] → set_commands (fst (sql_update w f (t_commands db))) db = db.
Proof.
  intros Hf. assert (fst (sql_update w f (t_commands db)) = t_commands db) as ->; [|apply set_commands_same].
  cbn [fst sql_update]. rewrite <- (map_id (t_commands db)) at 2. apply map_ext_in. intros r Hr.
  destruct (w r) eqn:E; [|done]. assert (In r (List.filter w (t_commands db))) as Hin by by apply filter_In.
  by rewrite Hf in Hin.
Qed.

Lemma Enqueue_atomic db dev replies :
  honest (mkConn db replies) →
  ∀ cmd at_ c' res, SQ_Enqueue ctx dev cmd at_ (mkConn db replies) = (c', res) →
  match res with
  | Err _ => c_db c' = db
  | Ok qc => SQ_Enqueue ctx dev cmd at_ (mkConn db []) = (mkConn (c_db c') [], Ok qc)
  end.
Proof.
  intros Hh. intros cmd at_ c' res. unfold SQ_Enqueue. case_decide; [by intros [= <- <-]|].
  destruct (MValidate cmd) as [[]|e]; [|by intros [= <- <-]]. destruct cmd as [m|]; [|by intros [= <- <-]].
  destruct (EncodeCommand _ _) as [body|e]; [|by intros [= <- <-]].
  destruct (tx _ _ (None, mkConn db replies)) as [[out c1] [[]|e]] eqn:E.
  + destruct (tx_outcome _ _ _ _ _ _ _ (steady_enqueue_tx dev m body at_) Hh E) as (g1 & c2 & c3 & Hdb & Hh1 & Ef & Hc).
    unfold enqueue_tx in Ef. apply bind_Ok in Ef as ([g2 c4] & qc & Es & [= <- <-]). intros [= <- <-].
    destruct (steady_enqueue dev m body at_ _ _ _ _ _ Hh1 Es) as [_ Hf].
    destruct (Hf qc eq_refl None) as (g0' & E0). rewrite Hdb in E0.
    rewrite (tx_commits _ _ None db (Some qc) (c_db c4)) by (unfold enqueue_tx; by rewrite (bind_run _ _ _ _ _ E0)).
    by rewrite Hc.
  + apply tx_outcome in E; [|apply steady_enqueue_tx|done]. by intros [= <- <-].
Qed.

Lemma MarkSent_atomic db dev replies :
  honest (mkConn db replies) →
  ∀ ds c' res, SQ_MarkSent ctx dev ds (mkConn db replies) = (c', res) →
  match res with
  | Err _ => c_db c' = db
  | Ok _ => SQ_MarkSent ctx dev ds (mkConn db []) = (mkConn (c_db c') [], Ok tt)
  end.
Proof.
  intros Hh. intros ds c' res. unfold SQ_MarkSent, tx_.
  destruct (tx _ _ (tt, mkConn db replies)) as [[[] c1] r] eqn:E. intros [= <- <-].
  pose proof (steady_in_tx_mfor (G := unit) (mark_one dev) ds (steady_mark dev)) as Hs. destruct r as [[]|e].
  + by destruct (tx_committed _ _ _ _ _ _ Hs Hh E tt) as ([] & ->).
  + by apply tx_outcome in E.
Qed.

Lemma StoreResult_atomic db dev replies :
  honest (mkConn db replies) →
  ∀ id r c' res, SQ_StoreResult dev id r (mkConn db replies) = (c', res) →
  match res with
  | Err _ => c_db c' = db
  | Ok _ => SQ_StoreResult dev id r (mkConn db []) = (mkConn (c_db c') [], Ok tt)
  end.
Proof.
  intros Hh. intros id r c' res. unfold SQ_StoreResult, bind, lift. destruct (marshal_Result r) as [blob|e]; [|by intros [= <- <-]].
  unfold call. cbn [c_replies c_db]. unfold sql_update.
  pose proof (update_nothing (is_key dev id)
    (result_row (if negb (StatusCode_Success (Res_Status r)) then StateFailed else StateAcknowledged) blob (Res_ReceivedAt r)) db)
    as Hn. cbn [fst sql_update] in Hn.
  assert ((Z.of_nat (length (List.filter (is_key dev id) (t_commands db))) =? 0) = true →
    List.filter (is_key dev id) (t_commands db) = []) as Hz by (intros ?%Z.eqb_eq; apply nil_length_inv; lia).
  destruct replies as [|[e|] l]; [|by intros [= <- <-]|];
    destruct (Z.of_nat (length (List.filter (is_key dev id) (t_commands db))) =? 0); intros [= <- <-]; cbn [c_db]; try done;
    by apply Hn, Hz.
Qed.

Lemma Cancel_atomic db dev replies :
  honest (mkConn db replies) →
  ∀ cids at_ c' res, SQ_Cancel ctx dev cids at_ (mkConn db replies) = (c', res) →
  match res with
  | Err _ => c_db c' = db
  | Ok _ => fst (SQ_Cancel ctx dev cids at_ (mkConn db [])) = mkConn (c_db c') []
  end.
Proof.
  intros Hh. intros cids at_ c' res. unfold SQ_Cancel.
  destruct (tx _ _ (0, mkConn db replies)) as [[n c1] r] eqn:E.
  pose proof (steady_mfor (cancel_one dev at_) cids (steady_cancel dev at_)) as Hs.
  destruct r as [[]|e]; intros [= <- <-].
  + by destruct (tx_committed _ _ _ _ _ _ Hs Hh E 0) as (n0 & ->).
  + by apply tx_outcome in E.
Qed.

Lemma Prune_atomic db replies :
  honest (mkConn db replies) →
  ∀ ties before limit c' res, SQ_Prune ctx ties before limit (mkConn db replies) = (c', res) →
  match res with
  | Err _ => c_db c' = db
  | Ok _ => fst (SQ_Prune ctx ties before limit (mkConn db [])) = mkConn (c_db c') []
  end.
Proof.
  intros Hh. intros ties before limit c' res. unfold SQ_Prune, bind, query_, call. cbn [c_replies c_db].
  assert (∀ keys l, honest (mkConn db l) →
    match tx (mfor prune_one keys) ctx (0, mkConn db l) with
    | ((_, c), Err e) => (c, Err e) | ((n, c), Ok _) => (c, Ok n) end = (c', res) →
    match res with Err _ => c_db c' = db | Ok _ =>
      fst (match tx (mfor prune_one keys) ctx (0, mkConn db []) with
           | ((_, c), Err e) => (c, Err e) | ((n, c), Ok _) => (c, Ok n) end) = mkConn (c_db c') [] end) as Hk.
  { intros keys l Hl. destruct (tx _ _ (0, mkConn db l)) as [[n c1] r] eqn:E.
    pose proof (steady_mfor prune_one keys steady_prune) as Hs. destruct r as [[]|e]; intros [= <- <-].
    - by destruct (tx_committed _ _ _ _ _ _ Hs Hl E 0) as (n0 & ->).
    - by apply tx_outcome in E. }
  destruct replies as [|[e|] l]; [by apply Hk|by intros [= <- <-]|apply Hk; by eapply honest_tail].
Qed.

(** C24: Whatever calls the database refuses, and however often a transaction is
    tried again, an operation that reports an error has changed nothing, and one
    that succeeds has changed the tables as it does without failures: a command
    is enqueued once, and under the answer the caller gets. *)
Theorem sql_queue_atomic db dev replies :
  honest (mkConn db replies) →
  (∀ cmd at_ c' res, SQ_Enqueue ctx dev cmd at_ (mkConn db replies) = (c', res) →
    match res with
    | Err _ => c_db c' = db
    | Ok qc => SQ_Enqueue ctx dev cmd at_ (mkConn db []) = (mkConn (c_db c') [], Ok qc)
    end) ∧
  (∀ ds c' res, SQ_MarkSent ctx dev ds (mkConn db replies) = (c', res) →
    match res with
    | Err _ => c_db c' = db
    | Ok _ => SQ_MarkSent ctx dev ds (mkConn db []) = (mkConn (c_db c') [], Ok tt)
    end) ∧
  (∀ id r c' res, SQ_StoreResult dev id r (mkConn db replies) = (c', res) →
    match res with
    | Err _ => c_db c' = db
    | Ok _ => SQ_StoreResult dev id r (mkConn db []) = (mkConn (c_db c') [], Ok tt)
    end) ∧
  (∀ cids at_ c' res, SQ_Cancel ctx dev cids at_ (mkConn db replies) = (c', res) →
    match res with
    | Err _ => c_db c' = db
    | Ok _ => fst (SQ_Cancel ctx dev cids at_ (mkConn db [])) = mkConn (c_db c') []
    end) ∧
  (∀ ties before limit c' res, SQ_Prune ctx ties before limit (mkConn db replies) = (c', res) →
    match res with
    | Err _ => c_db c' = db
    | Ok _ => fst (SQ_Prune ctx ties before limit (mkConn db [])) = mkConn (c_db c') []
    end).
Proof.
  intros Hh. split_and!; [by apply Enqueue_atomic|by apply MarkSent_atomic|by apply StoreResult_atomic|
    by apply Cancel_atomic|by apply Prune_atomic].
Qed.

(** ** Two flaws *)

(** A run of the loop: what it counts does not depend on the count before. *)
Lemma cancel_run dev at_ cids db :
  ∃ db' k, ∀ g l, in_int64 g →
    mfor (cancel_one dev at_) cids (g, mkConn db (replicate (length cids) None ++ l)) =
    ((wrap64 (g + k), mkConn db' l), Ok tt).
Proof.
  revert db. induction cids as [|id cids IH]; intros db.
  - exists db, 0. intros g l Hg. cbn. rewrite Z.add_0_r, wrap64_id by done. done.
  - set (t := sql_update (λ r, is_key dev id r && state_in [StatePending; StateSent] r) (cancelled_row at_) (t_commands db)).
    destruct (IH (set_commands (fst t) db)) as (db' & k & Hk).
    exists db', ((if 0 <? snd t then 1 else 0) + k). intros g l Hg. cbn [length replicate app mfor].
    assert (cancel_one dev at_ id (g, mkConn db (None :: replicate (length cids) None ++ l)) =
      ((wrap64 (g + if 0 <? snd t then 1 else 0), mkConn (set_commands (fst t) db) (replicate (length cids) None ++ l)), Ok tt)) as E.
    { unfold cancel_one, bind, in_tx, call, update_cancelled. cbn [c_replies c_db]. fold t. destruct t as [rows n].
      cbn [fst snd]. destruct (0 <? n); [done|]. unfold ret. by rewrite Z.add_0_r, wrap64_id. }
    rewrite (bind_run _ _ _ _ _ E), Hk by apply wrap64_range. do 2 f_equal.
    rewrite wrap64_add_l, Z.add_assoc. done.
Qed.

(** A Cancel whose first commit the database refuses with a serialization
    failure is tried again, and counts its commands again: it cancels them once
    and reports twice their number. *)
Theorem cancel_counted_twice db dev cids at_ db' n :
  SQ_Cancel None dev cids at_ (mkConn db (None :: replicate (length cids) None ++ [None])) = (mkConn db' [], Ok n) →
  SQ_Cancel None dev cids at_
    (mkConn db (None :: replicate (length cids) None ++
      Some [sql_PgError "40001"] :: None :: replicate (length cids) None ++ [None])) =
  (mkConn db' [], Ok (wrap64 (n + n))).
Proof.
  destruct (cancel_run dev at_ cids db) as (db1 & k & Hk). unfold SQ_Cancel, tx. cbn [maxAttempts tx_loop].
  unfold txOnce at 1. cbn [query_ call c_replies c_db]. rewrite Hk by done. cbn. intros [= <- <-].
  unfold txOnce at 1. cbn [query_ call c_replies c_db]. rewrite Hk by done. cbn.
  unfold txOnce at 1. cbn [query_ call c_replies c_db]. rewrite Hk by apply wrap64_range. cbn.
  do 2 f_equal. rewrite !Z.add_0_l. transitivity (wrap64 (k + k)); [by rewrite wrap64_add_l|].
  symmetry. by rewrite wrap64_add_l, Z.add_comm, wrap64_add_l.
Qed.
End queue.

(** ** Examples *)

Definition ex_at : Time := unix_epoch + Hour.

(** A codec of the results that carry no values and came at one instant. *)
#[local] Instance plain_codec : ResultCodec := {
  marshal_Result r :=
    if decide (in_int64 (Res_Status r) ∧ Res_OriginalError r = "" ∧ Res_Items r = [] ∧ Res_Children r = [] ∧
        Res_ReceivedAt r = ex_at) then Ok (Itoa (Res_Status r)) else Err [];
  unmarshal_Result b :=
    match Atoi b with Some st => Ok (mkResult st "" [] [] ex_at) | None => Err [] end }.
#[local] Instance plain_codec_laws : ResultCodecLaws.
Proof.
  intros [st oe items children at_] b. unfold marshal_Result, unmarshal_Result, plain_codec. cbn.
  case_decide as Hr; [|done]. destruct Hr as (Hst & -> & -> & -> & ->). intros [= <-].
  rewrite Atoi_Itoa by done. split; [|done]. intros E. pose proof (Atoi_Itoa _ Hst) as Ha. by rewrite E in Ha.
Qed.

(** Tables with one command of "d". *)
Definition ex_db : DB := c_db (SQ_Enqueue None "d" (Some ex_exec) ex_at (mkConn empty_db [])).1.
Definition ex_lost : MCommand := mkMCommand "lost" ScopeDevice
  (CReplace (mkReplace "" false None None [mkItem "./Vendor/MSFT/X" "" None (Some (mkData "" "<x>" "")) false])) false.

Lemma empty_queue_ok : @queue_ok ascii_names plain_codec empty_db.
Proof. constructor; [constructor|constructor|by intros r ?%not_elem_of_nil|constructor]. Qed.
Lemma exec_survives : @survives ascii_names (cmd_Body ex_exec).
Proof. eexists. split; [vm_compute; reflexivity|]. vm_compute. reflexivity. Qed.

Lemma ex_at_kept : time_kept ex_at.
Proof. right. done. Qed.

Lemma ex_db_ok : @queue_ok ascii_names plain_codec ex_db.
Proof.
  destruct (Enqueue_sql (H := ascii_names) None empty_db "d" (Some ex_exec) ex_at) as (db' & res & E & Hq & _).
  - exact empty_queue_ok.
  - intros m [= <-]. exact exec_survives.
  - exact ex_at_kept.
  - done.
  - unfold ex_db. by rewrite E.
Qed.

(** After one command was enqueued the queue hands it out. *)
Lemma sql_implements_queue_witness :
  ∃ qc, SQ_Deliverable (H := ascii_names) "d" 0 (mkConn ex_db []) = (mkConn ex_db [], Ok [qc]) ∧
    qc_Body qc = cmd_Body ex_exec.
Proof.
  destruct (sql_implements_queue (H := ascii_names) None ex_db "d" ex_db_ok) as (_ & _ & Hd & _).
  - vm_compute. done.
  - eexists. rewrite Hd. vm_compute. done.
Defined.

(** The commit is refused with a deadlock, then carried out. *)
Definition ex_deadlock : list (option error) :=
  replicate 4 None ++ [Some [sql_PgError "40P01"]].

Lemma sql_queue_atomic_witness :
  is_ok (SQ_Enqueue None "d" (Some ex_lost) ex_at (mkConn ex_db ex_deadlock)).2 = true ∧
  SQ_Enqueue None "d" (Some ex_lost) ex_at (mkConn ex_db []) =
  (mkConn (c_db (SQ_Enqueue None "d" (Some ex_lost) ex_at (mkConn ex_db ex_deadlock)).1) [],
   (SQ_Enqueue None "d" (Some ex_lost) ex_at (mkConn ex_db ex_deadlock)).2).
Proof.
  split; [vm_compute; done|].
  destruct (sql_queue_atomic None ex_db "d" ex_deadlock) as (He & _).
  - repeat constructor.
  - specialize (He (Some ex_lost) ex_at _ _ (surjective_pairing _)). revert He.
    assert (is_ok (SQ_Enqueue None "d" (Some ex_lost) ex_at (mkConn ex_db ex_deadlock)).2 = true) as Hok
      by (vm_compute; done).
    destruct (SQ_Enqueue _ _ _ _ (mkConn ex_db ex_deadlock)).2 as [qc|e]; [|done]. intros ->. done.
Defined.

Lemma cancel_counted_twice_witness :
  (SQ_Cancel None "d" ["cmd-1"] ex_at
    (mkConn ex_db [None; None; Some [sql_PgError "40001"]; None; None; None])).2 = Ok 2.
Proof.
  pose proof (cancel_counted_twice ex_db "d" ["cmd-1"] ex_at
    (c_db (SQ_Cancel None "d" ["cmd-1"] ex_at (mkConn ex_db [None; None; None])).1) 1) as Hc.
  cbn [length replicate app] in Hc. rewrite Hc; vm_compute; reflexivity.
Defined.

(** Enqueue accepts a command that Deliverable cannot read back, and the
    device's queue is blocked: the commands before it are not handed out
    either. *)
Example poison_command_blocks :
  ∃ db' qc, SQ_Enqueue None "d" (Some ex_lost) ex_at (mkConn ex_db []) = (mkConn db' [], Ok qc) ∧
  SQ_Deliverable (H := ascii_names) "d" 0 (mkConn ex_db []) ≠ (mkConn ex_db [], Ok []) ∧
  SQ_Deliverable (H := ascii_names) "d" 0 (mkConn db' []) = (mkConn db' [], Err []).
Proof. eexists _, _. split; [vm_compute; reflexivity|]. split; vm_compute; [discriminate|reflexivity]. Qed.
