(* ===== verification/SqlStore.v ===== *)
(** * The SQL store

    server/sqlstore/enrollment.go, certificate.go, credential.go, facts.go,
    push.go, agent.go, credential_migration.go, schema.go and Open: the
    enrollments, certificates, credentials, device facts, events, push channels
    and agent tokens over the tables of [SqlBase].

    ORDER BY of text columns is by bytes, as in SQLite and in PostgreSQL's C
    collation.  encoding/json, crypto/rand and the clock are parameters. *)
From stdpp Require Import base gmap strings list sorting.
From Stdlib Require Import ZArith Lia Ascii Sorted.
From S2P Require Import Prelude GoStrings SyncmlAuth GoCrypto Paging StateStore MdmAuth EnrollTypes Storage MdmQueue.
From S2P Require Import SqlBase SqlQueue.

Local Open Scope Z_scope.
Local Open Scope go_scope.

(** [json.Marshal] and [json.Unmarshal] of the request context and of the
    DevInfo map. *)
Class StoreCodec := {
  marshal_Context : AdditionalContext → result string;
  unmarshal_Context : string → result AdditionalContext;
  marshal_DevInfo : gmap string string → result string;
  unmarshal_DevInfo : string → result (gmap string string) }.

(** What is marshalled is not empty and reads back. *)
Class StoreCodecLaws `{StoreCodec} : Prop := {
  context_roundtrip c b : marshal_Context c = Ok b → b ≠ "" ∧ unmarshal_Context b = Ok c;
  devinfo_roundtrip m b : marshal_DevInfo m = Ok b → b ≠ "" ∧ unmarshal_DevInfo b = Ok m }.

(** ** Statements *)

(** SELECT 1 ... Scan: an existing row is the error [e]. *)
Definition refuse_existing {Row} (e : error) (table : DB → list Row) (where_ : Row → bool) : M Conn unit := λ c,
  match query_ (λ db, sql_exists where_ (table db)) c with
  | (c, Ok _) => (c, Err e)
  | (c, Err err) => if errors_Is err sql_ErrNoRows then (c, Ok tt) else (c, Err err)
  end.
(** SELECT 1 ... Scan: no row is the error [e]. *)
Definition require_existing {Row} (e : error) (table : DB → list Row) (where_ : Row → bool) : M Conn unit := λ c,
  match query_ (λ db, sql_exists where_ (table db)) c with
  | (c, Ok _) => (c, Ok tt)
  | (c, Err err) => if errors_Is err sql_ErrNoRows then (c, Err e) else (c, Err err)
  end.
(** A row read with [scan]; no row is the error [e]. *)
Definition read_row {Row A} (e : error) (table : DB → list Row) (where_ : Row → bool) (scan : Row → result A)
    : M Conn A := λ c,
  match query_ (λ db, sql_row where_ (table db)) c with
  | (c, Ok r) => (c, match scan r with
                     | Err err => if errors_Is err sql_ErrNoRows then Err e else Err err
                     | Ok a => Ok a
                     end)
  | (c, Err err) => if errors_Is err sql_ErrNoRows then (c, Err e) else (c, Err err)
  end.
(** The loop over rows.Next(). *)
Fixpoint scan_rows {Row A} (scan : Row → result A) (rows : list Row) : result (list A) :=
  match rows with
  | [] => Ok []
  | r :: rows => let? a := scan r in let? l := scan_rows scan rows in Ok (a :: l)
  end.
(** LIMIT size+1 OFFSET offset, and the page. *)
Definition read_page {Row A} (select : DB → list Row) (scan : Row → result A) (p : Page) : M Conn (PageResult A) :=
  let! offset := lift (offsetOf p) in
  let size := Page_Size p in
  let! rows := query_ (λ db, Ok (take (Z.to_nat (size + 1)) (drop (Z.to_nat offset) (select db)))) in
  let! items := lift (scan_rows scan rows) in
  ret (pageResult items size offset).
(** UPDATE of a table with its setter. *)
Definition update_table {Row} (table : DB → list Row) (set : list Row → DB → DB) (where_ : Row → bool) (f : Row → Row)
    : M Conn Z :=
  call (λ db, let '(t, n) := sql_update where_ f (table db) in (set t db, Ok n)).

(** ** enrollment.go *)

Section store.
Context `{StoreCodec} (ctx : option error).

Definition has_serial (serial : string) (r : EnrollmentRow) : bool := bool_decide (er_serial r = serial).
Definition has_thumbprint (th : string) (r : EnrollmentRow) : bool := bool_decide (er_thumbprint r = th).
Definition active_of (dev : string) (r : EnrollmentRow) : bool :=
  bool_decide (er_device_id r = dev) && bool_decide (er_state r = StateActive).

(** UPDATE enrollments SET state = ?, updated_at = ? *)
Definition state_row (st : EState) (at_ : Time) (r : EnrollmentRow) : EnrollmentRow :=
  mkEnrollmentRow (er_serial r) (er_thumbprint r) (er_device_id r) (er_hwdevid r) (er_enrollment_type r) (er_upn r)
    (er_context r) st (er_enrolled_at r) (nanos at_) (er_last_seen_at r).
Definition seen_row (at_ : Time) (r : EnrollmentRow) : EnrollmentRow :=
  mkEnrollmentRow (er_serial r) (er_thumbprint r) (er_device_id r) (er_hwdevid r) (er_enrollment_type r) (er_upn r)
    (er_context r) (er_state r) (er_enrolled_at r) (er_updated_at r) (nanos at_).
Definition update_enrollments (where_ : EnrollmentRow → bool) (f : EnrollmentRow → EnrollmentRow) : M Conn Z :=
  update_table t_enrollments set_enrollments where_ f.

(** INSERT INTO enrollments: serial is the primary key, thumbprint is UNIQUE. *)
Definition insert_enrollment (r : EnrollmentRow) (db : DB) : DB * result unit :=
  if existsb (λ x, has_serial (er_serial r) x || has_thumbprint (er_thumbprint r) x) (t_enrollments db)
  then (db, Err [sql_PgError "23505"])
  else (set_enrollments (t_enrollments db ++ [r]) db, Ok tt).

Definition enrollment_row (e : Enrollment) (ctxJSON : string) : EnrollmentRow :=
  mkEnrollmentRow (e_Serial e) (e_Thumbprint e) (e_DeviceID e) (e_HWDevID e) (e_EnrollmentType e) (e_UPN e)
    ctxJSON StateActive (nanos (e_EnrolledAt e)) (nanos (e_EnrolledAt e)) (nanos (e_LastSeenAt e)).

Definition create_tx (e : Enrollment) (ctxJSON : string) : M Conn unit :=
  refuse_existing [storage_ErrConflict] t_enrollments (has_serial (e_Serial e)) ;!
  refuse_existing [storage_ErrConflict] t_enrollments (has_thumbprint (e_Thumbprint e)) ;!
  update_enrollments (active_of (e_DeviceID e)) (state_row StateSuperseded (e_EnrolledAt e)) ;!
  call (insert_enrollment (enrollment_row e ctxJSON)).

Definition SS_Create (e : option Enrollment) : M Conn unit := λ c,
  match Enrollment_Validate e, e with
  | Err err, _ => (c, Err (storage_ErrInvalid :: err))
  | Ok _, None => (c, Ok tt)
  | Ok _, Some e =>
      match marshal_Context (e_Context e) with
      | Err err => (c, Err err)
      | Ok ctxJSON => tx_ ctx (create_tx e ctxJSON) c
      end
  end.

Definition no_context : AdditionalContext :=
  mkAdditionalContext "" "" "" "" "" "" "" "" [] [] false "" "" false "" "" false "" "" false false false false false
    "" "" "" "" "" "" "" "" "" "" "" "" [] [].

Definition scanEnrollment (r : EnrollmentRow) : result Enrollment :=
  let? context := if 0 <? len (er_context r) then unmarshal_Context (er_context r) else Ok no_context in
  Ok (mkEnrollment (er_serial r) (er_thumbprint r) (er_device_id r) (er_hwdevid r) (er_enrollment_type r) (er_upn r)
        context (er_state r) (fromNanos (er_enrolled_at r)) (fromNanos (er_updated_at r))
        (fromNanos (er_last_seen_at r))).

Definition SS_Get (deviceID : string) : M Conn Enrollment :=
  read_row [storage_ErrNotFound] t_enrollments (active_of deviceID) scanEnrollment.
Definition SS_GetBySerial (serial : string) : M Conn Enrollment :=
  read_row [storage_ErrNotFound] t_enrollments (has_serial serial) scanEnrollment.
Definition SS_GetByThumbprint (thumbprint : string) : M Conn Enrollment :=
  read_row [storage_ErrNotFound] t_enrollments (has_thumbprint thumbprint) scanEnrollment.

(** ORDER BY enrolled_at, serial *)
Definition enr_row_le (a b : EnrollmentRow) : Prop :=
  er_enrolled_at a < er_enrolled_at b ∨
  (er_enrolled_at a = er_enrolled_at b ∧ str_le (er_serial a) (er_serial b)).
#[global] Instance enr_row_le_dec a b : Decision (enr_row_le a b).
Proof. unfold enr_row_le. apply _. Defined.

Definition SS_ListByHWDevID (hwDevID : string) : M Conn (list Enrollment) :=
  if decide (hwDevID = "") then throw [storage_ErrInvalid]
  else
    let! rows := query_ (λ db, Ok (merge_sort enr_row_le
      (List.filter (λ r, bool_decide (er_hwdevid r = hwDevID)) (t_enrollments db)))) in
    lift (scan_rows scanEnrollment rows).

(** SELECT device_id FROM enrollments WHERE serial = ? *)
Definition device_of (serial : string) : M Conn string :=
  read_row [storage_ErrNotFound] t_enrollments (has_serial serial) (λ r, Ok (er_device_id r)).

Definition set_state_tx (serial : string) (state : EState) (at_ : Time) : M Conn unit :=
  let! deviceID := device_of serial in
  (if decide (state = StateActive) then
     update_enrollments (λ r, active_of deviceID r && negb (has_serial serial r)) (state_row StateSuperseded at_) ;! ret tt
   else ret tt) ;!
  update_enrollments (has_serial serial) (state_row state at_) ;! ret tt.
Definition SS_SetState (serial : string) (state : EState) (at_ : Time) : M Conn unit := λ c,
  if negb (EState_Valid state) then (c, Err [storage_ErrInvalid])
  else tx_ ctx (set_state_tx serial state at_) c.

Definition SS_TouchLastSeen (serial : string) (at_ : Time) : M Conn unit :=
  let! n := update_enrollments (λ r, has_serial serial r && (er_last_seen_at r <? nanos at_)) (seen_row at_) in
  if n =? 0 then require_existing [storage_ErrNotFound] t_enrollments (has_serial serial) else ret tt.

Definition enrollmentWhere (q : EnrollmentQuery) (r : EnrollmentRow) : bool :=
  (bool_decide (eq_State q = "") || bool_decide (er_state r = eq_State q)) &&
  (bool_decide (eq_EnrollmentType q = "") || bool_decide (er_enrollment_type r = eq_EnrollmentType q)) &&
  (bool_decide (eq_UPN q = "") || bool_decide (er_upn r = eq_UPN q)) &&
  (bool_decide (eq_DeviceID q = "") || bool_decide (er_device_id r = eq_DeviceID q)).

Definition SS_List (q : EnrollmentQuery) (p : Page) : M Conn (PageResult Enrollment) :=
  read_page (λ db, merge_sort enr_row_le (List.filter (enrollmentWhere q) (t_enrollments db))) scanEnrollment p.

(** ** certificate.go *)

Definition cert_serial (serial : string) (r : CertificateRow) : bool := bool_decide (xr_serial r = serial).
Definition cert_thumbprint (th : string) (r : CertificateRow) : bool := bool_decide (xr_thumbprint r = th).

Definition scanCertificate (r : CertificateRow) : result Certificate :=
  Ok (mkCertificate (xr_serial r) (xr_thumbprint r) (xr_subject r) (xr_device_id r) (fromNanos (xr_not_before r))
        (fromNanos (xr_not_after r)) (xr_raw r) (negb (xr_revoked r =? 0)) (fromNanos (xr_revoked_at r))).

Definition certificate_row (c : Certificate) : CertificateRow :=
  mkCertificateRow (c_Serial c) (c_Thumbprint c) (c_Subject c) (c_DeviceID c) (nanos (c_NotBefore c))
    (nanos (c_NotAfter c)) (c_Raw c) (boolInt (c_Revoked c)) (nanos (c_RevokedAt c)).
Definition insert_certificate (r : CertificateRow) (db : DB) : DB * result unit :=
  if existsb (λ x, cert_serial (xr_serial r) x || cert_thumbprint (xr_thumbprint r) x) (t_certificates db)
  then (db, Err [sql_PgError "23505"])
  else (set_certificates (t_certificates db ++ [r]) db, Ok tt).

Definition put_certificate_tx (c : Certificate) : M Conn unit :=
  refuse_existing [storage_ErrConflict] t_certificates (cert_serial (c_Serial c)) ;!
  refuse_existing [storage_ErrConflict] t_certificates (cert_thumbprint (c_Thumbprint c)) ;!
  call (insert_certificate (certificate_row c)).
Definition SS_PutCertificate (c : option Certificate) : M Conn unit := λ conn,
  match Certificate_Validate c, c with
  | Err err, _ => (conn, Err (storage_ErrInvalid :: err))
  | Ok _, None => (conn, Ok tt)
  | Ok _, Some c => tx_ ctx (put_certificate_tx c) conn
  end.

Definition SS_Certificate (serial : string) : M Conn Certificate :=
  read_row [storage_ErrNotFound] t_certificates (cert_serial serial) scanCertificate.
Definition SS_CertificateByThumbprint (thumbprint : string) : M Conn Certificate :=
  read_row [storage_ErrNotFound] t_certificates (cert_thumbprint thumbprint) scanCertificate.

Definition revoked_row (at_ : Time) (r : CertificateRow) : CertificateRow :=
  mkCertificateRow (xr_serial r) (xr_thumbprint r) (xr_subject r) (xr_device_id r) (xr_not_before r) (xr_not_after r)
    (xr_raw r) 1 (nanos at_).
Definition SS_Revoke (serial : string) (at_ : Time) : M Conn unit :=
  let! n := update_table t_certificates set_certificates (λ r, cert_serial serial r && (xr_revoked r =? 0))
              (revoked_row at_) in
  if n =? 0 then require_existing [storage_ErrNotFound] t_certificates (cert_serial serial) else ret tt.

(** ORDER BY not_before, serial *)
Definition cert_row_le (a b : CertificateRow) : Prop :=
  xr_not_before a < xr_not_before b ∨
  (xr_not_before a = xr_not_before b ∧ str_le (xr_serial a) (xr_serial b)).
#[global] Instance cert_row_le_dec a b : Decision (cert_row_le a b).
Proof. unfold cert_row_le. apply _. Defined.

Definition certificateWhere (q : CertificateQuery) (r : CertificateRow) : bool :=
  (bool_decide (cq_DeviceID q = "") || bool_decide (xr_device_id r = cq_DeviceID q)) &&
  match cq_Revoked q with Some b => xr_revoked r =? boolInt b | None => true end &&
  (time_IsZero (cq_ExpiresBefore q) || (xr_not_after r <? nanos (cq_ExpiresBefore q))).
Definition SS_ListCertificates (q : CertificateQuery) (p : Page) : M Conn (PageResult Certificate) :=
  read_page (λ db, merge_sort cert_row_le (List.filter (certificateWhere q) (t_certificates db))) scanCertificate p.

(** ** credential.go *)

(** A row of a table kept as a map; no row is the error [e]. *)
Definition read_key {Row A} (e : error) (table : DB → gmap string Row) (k : string) (scan : Row → result A)
    : M Conn A := λ c,
  match query_ (λ db, match table db !! k with Some r => Ok r | None => Err [sql_ErrNoRows] end) c with
  | (c, Ok r) => (c, scan r)
  | (c, Err err) => if errors_Is err sql_ErrNoRows then (c, Err e) else (c, Err err)
  end.

Definition SS_PutMDMCredential (c : MDMCredential) : M Conn unit :=
  if decide (mc_DeviceID c = "") then throw [storage_ErrInvalid]
  else call (λ db, (set_credentials
    (<[mc_DeviceID c := mkCredentialRow (mc_AuthType c) (mc_CredentialHash c) "" ""]> (t_credentials db)) db, Ok tt)).
Definition SS_MDMCredential (deviceID : string) : M Conn MDMCredential :=
  read_key [storage_ErrNotFound] t_credentials deviceID
    (λ r, Ok (mkMDMCredential deviceID (kr_auth_type r) (kr_credential_hash r))).

(** ** credential_migration.go *)

(** What crypto/rand answers at a device's turn. *)
Context (rand : string → Z → option string).

(** The rows in the order the server returns them. *)
Definition legacyBasicCredentials : M Conn (list (string * string)) :=
  let! rows := query_ (λ db, Ok (List.filter
    (λ '(_, r), bool_decide (kr_auth_type r = AuthBasicType) &&
                (negb (bool_decide (kr_basic_username r = "")) || negb (bool_decide (kr_basic_password r = ""))))
    (map_to_list (t_credentials db)))) in
  lift (scan_rows (λ '(dev, r),
    let? hash := HashBasicCredential (rand dev) (kr_basic_username r) (kr_basic_password r) in Ok (dev, hash)) rows).

(** UPDATE mdm_credentials SET credential_hash = ?, basic_username = '', basic_password = '' *)
Definition migrate_row (hash : string) (r : CredentialRow) : CredentialRow :=
  mkCredentialRow (kr_auth_type r) hash "" "".
Definition migrateBasicCredentials : M Conn unit :=
  tx_ ctx (
    let! credentials := legacyBasicCredentials in
    mfor (λ '(dev, hash), call (λ db,
      (set_credentials (alter (migrate_row hash) dev (t_credentials db)) db, Ok tt))) credentials).

(** ** schema.go and Open *)

Definition indexes (d : dialect) : list string :=
  [createIndex d "idx_enrollments_device" "enrollments" "device_id";
   createIndex d "idx_enrollments_hwdevid" "enrollments" "hwdevid";
   createIndex d "idx_enrollments_order" "enrollments" "enrolled_at, serial";
   createIndex d "idx_certificates_device" "certificates" "device_id";
   createIndex d "idx_certificates_order" "certificates" "not_before, serial";
   createIndex d "idx_commands_seq" "commands" "device_id, seq";
   createIndex d "idx_events_device" "events" "device_id, id"].

(** CREATE ... IF NOT EXISTS on tables that exist: no effect on the rows. *)
Definition exec_ddl (tolerated : error → bool) (stmt : string) : M Conn unit := λ c,
  match call (λ db, (db, Ok tt)) c with
  | (c, Ok _) => (c, Ok tt)
  | (c, Err e) => if tolerated e then (c, Ok tt) else (c, Err e)
  end.
(** [tables] are the CREATE TABLE statements. *)
Definition migrate (d : dialect) (tables : list string) : M Conn unit :=
  mfor (exec_ddl (λ _, false)) tables ;!
  mfor (exec_ddl isDuplicateIndex) (indexes d) ;!
  migrateBasicCredentials.

(** [Open]: sql.Open and the ping are calls of the driver. *)
Definition Open (kind : Kind) (dsn : string) (tables : list string) : M Conn dialect :=
  let! d := lift (dialectFor kind) in
  if decide (dsn = "") then throw [sqlstore_ErrConfig]
  else
    query_ (λ _, Ok tt) ;! query_ (λ _, Ok tt) ;!
    migrate d tables ;! ret d.

(** ** facts.go *)

Record Facts := mkFacts {
  f_DeviceID : string;
  f_DevInfo : gmap string string;
  f_LoginStatus : string;
  f_SyncType : string;
  f_DevicePrepSync : string;
  f_ChannelURI : string;
  f_UpdatedAt : Time }.

Definition SS_PutFacts (f : Facts) : M Conn unit :=
  if decide (f_DeviceID f = "") then throw [sqlstore_ErrConfig]
  else
    let! devinfo := lift (marshal_DevInfo (f_DevInfo f)) in
    call (λ db, (set_facts (<[f_DeviceID f := mkFactsRow devinfo (f_LoginStatus f) (f_SyncType f) (f_DevicePrepSync f)
      (f_ChannelURI f) (nanos (f_UpdatedAt f))]> (t_facts db)) db, Ok tt)).
Definition scanFacts (deviceID : string) (r : FactsRow) : result Facts :=
  let? devinfo := if 0 <? len (fr_devinfo r) then unmarshal_DevInfo (fr_devinfo r) else Ok ∅ in
  Ok (mkFacts deviceID devinfo (fr_login_status r) (fr_sync_type r) (fr_device_prep_sync r) (fr_channel_uri r)
        (fromNanos (fr_updated_at r))).
Definition SS_Facts (deviceID : string) : M Conn Facts :=
  read_key [sqlstore_ErrNotFound] t_facts deviceID (scanFacts deviceID).

Record Event := mkEvent {
  ev_ID : Z;
  ev_DeviceID : string;
  ev_Kind : string;
  ev_Detail : string;
  ev_At : Time }.

(** [detail] is what json.Marshal answers; [now] is the clock. *)
Definition SS_LogEvent (deviceID kind : string) (detail : result string) (now : Time) : M Conn unit :=
  let! blob := lift detail in
  call (λ db, match bigint_succ (t_event_id db) with
    | Err e => (db, Err e)
    | Ok id => (set_events (t_events db ++ [mkEventRow id deviceID kind blob (nanos now)]) id db, Ok tt)
    end).
Definition event_le (a b : EventRow) : Prop := vr_id a ≤ vr_id b.
#[global] Instance event_le_dec a b : Decision (event_le a b).
Proof. unfold event_le. apply _. Defined.
Definition scanEvent (r : EventRow) : result Event :=
  Ok (mkEvent (vr_id r) (vr_device_id r) (vr_kind r) (vr_detail r) (fromNanos (vr_at r))).
Definition SS_Events (deviceID : string) (limit : Z) : M Conn (list Event) :=
  let! rows := query_ (λ db, Ok (sql_limit limit (merge_sort event_le
    (List.filter (λ r, bool_decide (vr_device_id r = deviceID)) (t_events db))))) in
  lift (scan_rows scanEvent rows).

(** ** push.go *)

Record PushChannel := mkPushChannel {
  pc_Serial : string;
  pc_URI : string;
  pc_FirstSeen : Time;
  pc_ObservedAt : Time;
  pc_Dead : bool;
  pc_Status : string }.

Definition pushURIHash (uri : string) : string := hex_encode (sha256_Sum uri).

Definition scanPush (serial : string) (r : PushRow) : PushChannel :=
  mkPushChannel serial (pr_uri r) (fromNanos (pr_first_seen r)) (fromNanos (pr_observed_at r)) (negb (pr_dead r =? 0))
    (pr_push_status r).
Definition SS_PushChannel (serial : string) : M Conn PushChannel :=
  read_key [sqlstore_ErrNotFound] t_push serial (λ r, Ok (scanPush serial r)).

(** The CASEs of the UPDATE read the hash before it is written. *)
Definition observed_row (uri : string) (at_ : Time) (r : PushRow) : PushRow :=
  let hash := pushURIHash uri in
  if pr_observed_at r <=? nanos at_ then
    mkPushRow uri hash (if decide (pr_uri_hash r = hash) then pr_first_seen r else nanos at_) (nanos at_)
      (if decide (pr_uri_hash r = hash) then pr_dead r else 0) (pr_push_status r)
  else r.
Definition status_row (status : string) (r : PushRow) : PushRow :=
  mkPushRow (pr_uri r) (pr_uri_hash r) (pr_first_seen r) (pr_observed_at r) (pr_dead r) status.
Definition dead_row (uri : string) (r : PushRow) : PushRow :=
  if decide (pr_uri_hash r = pushURIHash uri) then
    mkPushRow (pr_uri r) (pr_uri_hash r) (pr_first_seen r) (pr_observed_at r) 1 (pr_push_status r)
  else r.
Definition update_push (serial : string) (f : PushRow → PushRow) : M Conn unit :=
  call (λ db, (set_push (alter f serial (t_push db)) db, Ok tt)).

Definition SS_ObservePush (serial : string) (uri status : option string) (at_ : Time) : M Conn unit :=
  call (λ db, (set_push (partial_alter (λ r, match r with
    | Some r => Some r | None => Some (mkPushRow "" (pushURIHash "") 0 0 0 "") end) serial (t_push db)) db, Ok tt)) ;!
  match uri with Some u => update_push serial (observed_row u at_) | None => ret tt end ;!
  match status with Some st => update_push serial (status_row st) | None => ret tt end.
Definition SS_MarkPushDead (serial uri : string) : M Conn unit := update_push serial (dead_row uri).

(** ** agent.go *)

(** [base64.RawURLEncoding.EncodeToString] *)
Fixpoint raw_url (s : string) : string :=
  match s with
  | EmptyString => ""
  | String c s =>
      if Ascii.eqb c "=" then raw_url s
      else String (if Ascii.eqb c "+" then "-" else if Ascii.eqb c "/" then "_" else c)%char (raw_url s)
  end.
Definition b64_raw_url (s : string) : string := raw_url (b64_encode s).

Definition token_hash (token : string) : string := hex_encode (sha256_Sum token).

(** [entropy] is what rand.Read fills 32 bytes with; [now] is the clock. *)
Definition SS_IssueAgentToken (deviceID : string) (entropy : result string) (now : Time) : M Conn string :=
  let! e := SS_Get deviceID in
  if decide (e_State e ≠ StateActive) then throw [storage_ErrNotFound]
  else
    let! raw := lift entropy in
    let token := b64_raw_url raw in
    tx_ ctx (
      call (λ db, (set_tokens (delete deviceID (t_tokens db)) db, Ok tt)) ;!
      call (λ db, match t_tokens db !! deviceID with
        | Some _ => (db, Err [sql_PgError "23505"])
        | None => (set_tokens (<[deviceID := mkTokenRow (e_Serial e) (token_hash token) (nanos now)]> (t_tokens db)) db,
                   Ok tt)
        end)) ;!
    ret token.

(** ORDER BY seq DESC LIMIT 1 *)
Definition seq_ge (a b : CommandRow) : Prop := cr_seq b ≤ cr_seq a.
#[global] Instance seq_ge_dec a b : Decision (seq_ge a b).
Proof. unfold seq_ge. apply _. Defined.
Definition outstanding (dev : string) (r : CommandRow) : bool :=
  of_device dev r && (cr_internal r =? 0) && state_in [StatePending; StateSent] r.

Definition SS_AgentWake (deviceID token : string) : M Conn string :=
  if decide (token = "" ∨ 128 < len token) then throw [storage_ErrNotFound]
  else
    let! e := SS_Get deviceID in
    let! r := read_key [storage_ErrNotFound] t_tokens deviceID Ok in
    if decide (e_State e ≠ StateActive ∨ ar_serial r ≠ e_Serial e ∨ token_hash token ≠ ar_token_hash r)
    then throw [storage_ErrNotFound]
    else λ c,
      match query_ (λ db, sql_row (λ _, true) (merge_sort seq_ge (List.filter (outstanding deviceID) (t_commands db)))) c with
      | (c, Ok r) => (c, Ok (cr_id r))
      | (c, Err err) => if errors_Is err sql_ErrNoRows then (c, Ok "") else (c, Err err)
      end.
End store.
