(* ===== verification/SqlStoreProofs.v ===== *)
(** * The SQL store against the in-memory store

    Both implement storage.Store and storage.CredentialStore.  A table stands
    for the map the in-memory store keeps ([holds]); each operation over the
    table does what the operation over the map does. *)
From stdpp Require Import base gmap strings list sorting.
From Stdlib Require Import ZArith Lia Ascii Sorted.
From S2P Require Import Prelude GoStrings SyncmlAuth GoCrypto Paging StateStore MdmAuth EnrollTypes Storage MdmQueue.
From S2P Require Import SqlBase SqlQueue SqlQueueProofs SqlStore.

Local Open Scope Z_scope.
Local Open Scope go_scope.

(** ** Times a server stamps *)

(** The zero time, or after 1970 and before 2262. *)
Definition recent (t : Time) : Prop := t = 0 ∨ (unix_epoch < t ∧ t - unix_epoch ≤ max_int64).

Lemma recent_kept t : recent t → time_kept t.
Proof. unfold recent, time_kept, in_int64, min_int64, unix_epoch. intros [->|]; [by left|right; lia]. Qed.

Lemma recent_roundtrip t : recent t → fromNanos (nanos t) = t.
Proof. intros. by apply fromNanos_nanos, recent_kept. Qed.

Lemma nanos_recent t : recent t → nanos t = if decide (t = 0) then 0 else t - unix_epoch.
Proof.
  unfold recent, nanos, time_IsZero. intros Ht. destruct (Z.eqb_spec t 0), (decide (t = 0)); try done.
  destruct Ht as [|[? ?]]; [done|]. apply wrap64_id. unfold in_int64, min_int64. lia.
Qed.

Lemma recent_lt a b : recent a → recent b → (nanos a <? nanos b) = (a <? b).
Proof.
  intros Ha Hb. rewrite !nanos_recent by done. unfold recent, unix_epoch, Second in *.
  destruct (decide (a = 0)), (decide (b = 0)); apply eq_true_iff_eq; rewrite !Z.ltb_lt; lia.
Qed.

Lemma recent_eq a b : recent a → recent b → nanos a = nanos b ↔ a = b.
Proof. intros Ha Hb. split; [|by intros ->]. intros E. by rewrite <- (recent_roundtrip a), <- (recent_roundtrip b), E. Qed.

(** ** A table and a map *)

Lemma Forall2_in_r {A B} (P : A → B → Prop) l k y : Forall2 P l k → y ∈ k → ∃ x, x ∈ l ∧ P x y.
Proof.
  induction 1 as [|a b l k Hab _ IH]; [by intros ?%not_elem_of_nil|]. intros [->|Hin]%elem_of_cons.
  - exists a. split; [left|done].
  - destruct (IH Hin) as (x & Hx & HP). exists x. split; [by right|done].
Qed.

Lemma Forall2_in_l {A B} (P : A → B → Prop) l k x : Forall2 P l k → x ∈ l → ∃ y, y ∈ k ∧ P x y.
Proof. intros Hf Hin. by apply (Forall2_in_r (flip P) k l x); [apply Forall2_flip|]. Qed.

Lemma Permutation_filter {A} (w : A → bool) l k : l ≡ₚ k → List.filter w l ≡ₚ List.filter w k.
Proof.
  induction 1 as [|x l k _ IH|x y l|l k j _ IH1 _ IH2]; cbn [List.filter]; [done| | |by rewrite IH1].
  - destruct (w x); [by rewrite IH|done].
  - destruct (w x), (w y); try done. apply Permutation_swap.
Qed.

Section table.
Context {Row A : Type} (key : A → string) (stands : Row → A → Prop).

(** The rows stand for the records of the map, each under its key. *)
Definition holds (rows : list Row) (m : gmap string A) : Prop :=
  ∃ es, Forall2 stands rows es ∧ NoDup (map key es) ∧ m = list_to_map (map (λ e, (key e, e)) es).

Lemma keyed_fst (es : list A) : (map (λ e, (key e, e)) es).*1 = map key es.
Proof. induction es; [done|]. cbn. f_equal. done. Qed.
Lemma keyed_snd (es : list A) : (map (λ e, (key e, e)) es).*2 = es.
Proof. induction es; [done|]. cbn. f_equal. done. Qed.

Lemma keyed_lookup es k e :
  NoDup (map key es) →
  (list_to_map (map (λ e, (key e, e)) es) : gmap string A) !! k = Some e ↔ e ∈ es ∧ key e = k.
Proof.
  intros Hn. rewrite <- elem_of_list_to_map by by rewrite keyed_fst. rewrite list_elem_of_fmap. split.
  - intros (e' & [= -> ->] & Hin). done.
  - intros [Hin <-]. by exists e.
Qed.

Lemma holds_nil : holds [] ∅.
Proof. exists []. split_and!; constructor. Qed.

Lemma holds_key rows m k e : holds rows m → m !! k = Some e → key e = k.
Proof. intros (es & _ & Hn & ->). rewrite keyed_lookup by done. tauto. Qed.

Lemma holds_length rows m : holds rows m → length rows = size m.
Proof.
  intros (es & Hs & Hn & ->). rewrite (Forall2_length _ _ _ Hs).
  rewrite <- length_map_to_list, map_to_list_to_map by by rewrite keyed_fst. by rewrite length_map.
Qed.

Lemma holds_insert rows m r e :
  holds rows m → stands r e → m !! key e = None → holds (rows ++ [r]) (<[key e := e]> m).
Proof.
  intros (es & Hs & Hn & ->) Hr Hk. exists (es ++ [e]).
  assert (NoDup (map key (es ++ [e]))) as Hn'.
  { rewrite map_app, NoDup_app. split_and!; [done| |apply NoDup_singleton]. intros k Hin ->%list_elem_of_singleton.
    apply list_elem_of_fmap in Hin as (e' & Hke & Hin). eapply eq_None_not_Some; [exact Hk|].
    exists e'. rewrite keyed_lookup by done. done. }
  split_and!; [by apply Forall2_app; [|constructor]|done|].
  apply map_eq. intros k. apply option_eq. intros x. rewrite keyed_lookup by done.
  rewrite elem_of_app, list_elem_of_singleton. destruct (decide (key e = k)) as [<-|Hne].
  - rewrite lookup_insert_eq. split; [intros [= ->]; auto|]. intros [[Hin| ->] Hx]; [|done]. exfalso.
    eapply eq_None_not_Some; [exact Hk|]. exists x. rewrite keyed_lookup by done. done.
  - rewrite lookup_insert_ne, keyed_lookup by done. naive_solver.
Qed.

(** UPDATE, over the map. *)
Lemma holds_update rows m w f w' g :
  holds rows m →
  (∀ r e, stands r e → w r = w' e) → (∀ r e, stands r e → w' e = true → stands (f r) (g e)) →
  (∀ e, key (g e) = key e) →
  holds (sql_update w f rows).1 ((λ e, if w' e then g e else e) <$> m) ∧
  ((sql_update w f rows).2 = 0 ↔ ∀ k e, m !! k = Some e → w' e = false).
Proof.
  intros (es & Hs & Hn & ->) Hw Hf Hg. set (h := λ e, if w' e then g e else e).
  assert (∀ e, key (h e) = key e) as Hh by (intros e; unfold h; destruct (w' e); auto).
  assert (map key (map h es) = map key es) as Hk.
  { rewrite map_map. apply map_ext. intros e. apply Hh. }
  split.
  - exists (map h es). split_and!; [|by rewrite Hk|].
    + cbn [fst sql_update]. apply Forall2_fmap. eapply Forall2_impl; [exact Hs|]. intros r e Hr. unfold h.
      rewrite (Hw r e Hr). destruct (w' e) eqn:E; [by apply Hf|done].
    + apply map_eq. intros k. apply option_eq. intros x. rewrite lookup_fmap, keyed_lookup by by rewrite Hk.
      rewrite fmap_Some. setoid_rewrite keyed_lookup; [|done]. rewrite list_elem_of_fmap. split.
      * intros (e & [Hin <-] & ->). split; [by exists e|apply Hh].
      * intros [(e & -> & Hin) <-]. exists e. by rewrite Hh.
  - cbn [snd sql_update]. setoid_rewrite keyed_lookup; [|done]. clear Hn Hk. split.
    + intros Hz k e [Hin _]. assert (List.filter w rows = []) as Hnil by (apply nil_length_inv; lia).
      destruct (Forall2_in_r _ _ _ _ Hs Hin) as (r & Hinr & Hr).
      rewrite <- (Hw r e Hr). destruct (w r) eqn:E; [|done]. exfalso.
      apply list_elem_of_In in Hinr. assert (In r (List.filter w rows)) as Hf' by by apply filter_In.
      by rewrite Hnil in Hf'.
    + intros Hz. assert (List.filter w rows = []) as ->; [|done]. clear Hf Hg Hh.
      induction Hs as [|r e rows es Hr Hs IH]; [done|]. cbn [List.filter].
      rewrite (Hw r e Hr), (Hz (key e) e) by (split; [left|done]). apply IH. intros k e' [Hin Hk]. apply (Hz k).
      split; [by right|done].
Qed.

(** SELECT of one row, over the map. *)
Lemma holds_row rows m w w' :
  holds rows m → (∀ r e, stands r e → w r = w' e) →
  (∃ r e, sql_row w rows = Ok r ∧ sql_exists w rows = Ok tt ∧ existsb w rows = true ∧ stands r e ∧
    m !! key e = Some e ∧ w' e = true) ∨
  (sql_row w rows = Err [sql_ErrNoRows] ∧ sql_exists w rows = Err [sql_ErrNoRows] ∧ existsb w rows = false ∧
    ∀ k e, m !! k = Some e → w' e = false).
Proof.
  intros (es & Hs & Hn & ->) Hw. setoid_rewrite (λ k e, keyed_lookup es k e Hn). clear Hn.
  unfold sql_row, sql_exists. induction Hs as [|r e rows es Hr Hs IH]; cbn [List.filter existsb].
  { right. split_and!; try done. by intros k e [?%not_elem_of_nil _]. }
  rewrite (Hw r e Hr). destruct (w' e) eqn:E; cbn [orb].
  - left. exists r, e. split_and!; try done. left.
  - destruct IH as [(r' & e' & H1 & H2 & H3 & H4 & [H5 _] & H6)|(H1 & H2 & H3 & H4)].
    + left. exists r', e'. split_and!; try done. by right.
    + right. split_and!; try done. intros k e' [[->|Hin]%elem_of_cons Hk]; [done|]. by apply (H4 k).
Qed.

(** ORDER BY, over the records of the map. *)
Context (scan : Row → result A) (Rr : relation Row) (Re : relation A).
Context `{!RelDecision Rr} `{!RelDecision Re} `{!Transitive Rr} `{!Total Rr} `{!Transitive Re} `{!Total Re}.

Lemma scan_stands rows es : (∀ r e, stands r e → scan r = Ok e) → Forall2 stands rows es → scan_rows scan rows = Ok es.
Proof.
  intros Hscan. induction 1 as [|r e rows es Hr Hs IH]; [done|]. cbn [scan_rows]. rewrite (Hscan r e Hr). cbn.
  by rewrite IH.
Qed.

Lemma sorted_stands rows es :
  (∀ r e r' e', stands r e → stands r' e' → Rr r r' → Re e e') →
  Forall2 stands rows es → StronglySorted Rr rows → StronglySorted Re es.
Proof.
  intros HR. induction 1 as [|r e rows es Hr Hs IH]; [constructor|]. inversion 1 as [|? ? Hss Hf]; subst.
  constructor; [by apply IH|]. clear IH Hss. induction Hs as [|r' e' rows es Hr' Hs IH]; [constructor|].
  apply Forall_cons in Hf as [H1 H2]. constructor; [by eapply HR|]. apply IH; [|done].
  assert (StronglySorted Rr (r :: r' :: rows)) as Hx by done. inversion Hx as [|? ? H3 H4]; subst.
  inversion H3; subst. constructor; [done|]. by apply Forall_cons in H4 as [_ ?].
Qed.

Lemma holds_select rows m w w' :
  holds rows m → (∀ r e, stands r e → w r = w' e) → (∀ r e r' e', stands r e → stands r' e' → Rr r r' → Re e e') →
  (∀ e e', m !! key e = Some e → m !! key e' = Some e' → Re e e' → Re e' e → e = e') →
  Forall2 stands (merge_sort Rr (List.filter w rows)) (merge_sort Re (List.filter w' (map_to_list m).*2)).
Proof.
  intros Hh Hw HR Hanti. pose proof Hh as (es & Hs & Hn & Hm).
  assert (Forall2 stands (List.filter w rows) (List.filter w' es)) as Hf.
  { clear - Hs Hw. induction Hs as [|r e rows es Hr Hs IH]; [constructor|]. cbn [List.filter].
    rewrite (Hw r e Hr). destruct (w' e); [by constructor|done]. }
  assert (List.filter w rows ≡ₚ merge_sort Rr (List.filter w rows)) as Hpr by (symmetry; apply merge_sort_Permutation).
  destruct (Permutation_Forall2 Hpr Hf) as (es' & Hp & Hs').
  assert (es' = merge_sort Re (List.filter w' (map_to_list m).*2)) as <-; [|done].
  assert (List.filter w' es ≡ₚ List.filter w' (map_to_list m).*2) as Hpe.
  { apply Permutation_filter. rewrite Hm, map_to_list_to_map by by rewrite keyed_fst. by rewrite keyed_snd. }
  eapply (StronglySorted_unique_strong Re).
  - intros e1 e2 H1 H2. assert (∀ e, e ∈ es → m !! key e = Some e) as Hin.
    { intros e He. rewrite Hm, keyed_lookup by done. done. }
    apply Hanti; apply Hin.
    + rewrite <- Hp in H1. apply list_elem_of_In, filter_In in H1 as [H1 _]. by apply list_elem_of_In.
    + rewrite merge_sort_Permutation, <- Hpe in H2. apply list_elem_of_In, filter_In in H2 as [H2 _]. by apply list_elem_of_In.
  - eapply sorted_stands; [exact HR|exact Hs'|]. apply StronglySorted_merge_sort; apply _.
  - apply StronglySorted_merge_sort; apply _.
  - rewrite <- Hp, merge_sort_Permutation. done.
Qed.
End table.

(** *** Two keys: a time, then a serial *)

Section lex.
Context {A : Type} (f : A → Z) (g : A → string).
Definition lex_le (a b : A) : Prop := f a < f b ∨ (f a = f b ∧ str_le (g a) (g b)).
Lemma lex_le_trans : Transitive lex_le.
Proof.
  intros a b c [?|[? Hab]] [?|[? Hbc]]; [left; lia..|]. right. split; [lia|]. by eapply str_le_trans.
Qed.
Lemma lex_le_total : Total lex_le.
Proof.
  intros a b. unfold lex_le. destruct (Z.lt_trichotomy (f a) (f b)) as [?|[?|?]]; [auto| |auto].
  destruct (str_le_total (g a) (g b)); auto.
Qed.
Lemma lex_le_key a b : lex_le a b → lex_le b a → g a = g b.
Proof. intros [?|[? H1]] [?|[? H2]]; try lia. by apply str_leb_antisym. Qed.
End lex.
#[export] Instance enr_le_trans : Transitive enr_le := lex_le_trans e_EnrolledAt e_Serial.
#[export] Instance enr_le_total : Total enr_le := lex_le_total e_EnrolledAt e_Serial.
#[export] Instance cert_le_trans : Transitive cert_le := lex_le_trans c_NotBefore c_Serial.
#[export] Instance cert_le_total : Total cert_le := lex_le_total c_NotBefore c_Serial.
#[export] Instance enr_row_le_trans : Transitive enr_row_le := lex_le_trans er_enrolled_at er_serial.
#[export] Instance enr_row_le_total : Total enr_row_le := lex_le_total er_enrolled_at er_serial.
#[export] Instance cert_row_le_trans : Transitive cert_row_le := lex_le_trans xr_not_before xr_serial.
#[export] Instance cert_row_le_total : Total cert_row_le := lex_le_total xr_not_before xr_serial.

(** ** Running statements on tables that answer *)

Lemma bind_err {S A B} (m : M S A) (k : A → M S B) s s' e : m s = (s', Err e) → bind m k s = (s', Err e).
Proof. intros E. unfold bind. by rewrite E. Qed.

(** ** The relation *)

Section store.
Context `{StoreCodecLaws} (ctx : option error).

Definition enr_stands (r : EnrollmentRow) (e : Enrollment) : Prop :=
  ∃ blob, marshal_Context (e_Context e) = Ok blob ∧
  r = mkEnrollmentRow (e_Serial e) (e_Thumbprint e) (e_DeviceID e) (e_HWDevID e) (e_EnrollmentType e) (e_UPN e) blob
        (e_State e) (nanos (e_EnrolledAt e)) (nanos (e_UpdatedAt e)) (nanos (e_LastSeenAt e)) ∧
  recent (e_EnrolledAt e) ∧ recent (e_UpdatedAt e) ∧ recent (e_LastSeenAt e).

Definition cert_recent (c : Certificate) : Prop :=
  recent (c_NotBefore c) ∧ recent (c_NotAfter c) ∧ recent (c_RevokedAt c).
Definition cert_stands (r : CertificateRow) (c : Certificate) : Prop := r = certificate_row c ∧ cert_recent c.

Record same_store (db : DB) (s : Store) : Prop := mk_same_store {
  sm_inv : store_inv s;
  sm_enr : holds e_Serial enr_stands (t_enrollments db) (st_enrollments s);
  sm_cert : holds c_Serial cert_stands (t_certificates db) (st_certs s);
  sm_cred : ∀ dev, st_creds s !! dev =
    (λ r, mkMDMCredential dev (kr_auth_type r) (kr_credential_hash r)) <$> t_credentials db !! dev }.

Lemma enr_scan r e : enr_stands r e → scanEnrollment r = Ok e.
Proof.
  intros (blob & Hm & -> & H1 & H2 & H3). destruct (context_roundtrip _ _ Hm) as [Hne Hu]. unfold scanEnrollment. cbn.
  destruct (Z.ltb_spec 0 (len blob)) as [_|Hl].
  - rewrite Hu. cbn. rewrite !recent_roundtrip by done. by destruct e.
  - exfalso. apply Hne. apply len_0. pose proof (len_nonneg blob). lia.
Qed.

Lemma cert_scan r c : cert_stands r c → scanCertificate r = Ok c.
Proof.
  intros [-> (H1 & H2 & H3)]. unfold scanCertificate, certificate_row. cbn.
  rewrite boolInt_neq, !recent_roundtrip by done. by destruct c.
Qed.

(** A row that reads back, with the error when there is none. *)
Lemma read_row_holds {Row A} (key : A → string) (stands : Row → A → Prop) table w w' scan err db m :
  (∀ r e, stands r e → scan r = Ok e) → holds key stands (table db) m → (∀ r e, stands r e → w r = w' e) →
  (∃ e, read_row err table w scan (mkConn db []) = (mkConn db [], Ok e) ∧ m !! key e = Some e ∧ w' e = true) ∨
  (read_row err table w scan (mkConn db []) = (mkConn db [], Err err) ∧ ∀ k e, m !! k = Some e → w' e = false).
Proof.
  intros Hscan Hh Hw. unfold read_row, query_, call. cbn [c_replies c_db].
  destruct (holds_row key stands _ _ w w' Hh Hw) as [(r & e & -> & _ & _ & Hr & Hin & He)|(-> & _ & _ & Hno)].
  - left. exists e. by rewrite (Hscan r e Hr).
  - right. done.
Qed.

Lemma serial_agree k r e : enr_stands r e → has_serial k r = bool_decide (e_Serial e = k).
Proof. by intros (? & _ & -> & _). Qed.
Lemma thumb_agree th r e : enr_stands r e → has_thumbprint th r = bool_decide (e_Thumbprint e = th).
Proof. by intros (? & _ & -> & _). Qed.
Definition is_active (dev : string) (e : Enrollment) : bool :=
  bool_decide (e_DeviceID e = dev) && bool_decide (e_State e = StateActive).
Lemma active_agree dev r e : enr_stands r e → active_of dev r = is_active dev e.
Proof. by intros (? & _ & -> & _). Qed.

Lemma Get_same db s d : same_store db s → SS_Get d (mkConn db []) = (mkConn db [], Get d s).
Proof.
  intros Hs. destruct (read_row_holds e_Serial enr_stands t_enrollments (active_of d) (is_active d) scanEnrollment
    [storage_ErrNotFound] db _ enr_scan (sm_enr _ _ Hs) (active_agree d)) as [(e & E & Hin & He)|[E Hno]];
    unfold SS_Get; rewrite E; f_equal.
  - unfold is_active in He. btrue. symmetry. apply Get_active; [apply Hs|]. naive_solver.
  - destruct (Get_cases s d (sm_inv _ _ Hs)) as [[e He]| ->]; [|done]. apply Get_active in He as (Hin & Hd & Hst); [|apply Hs].
    apply Hno in Hin. unfold is_active in Hin. rewrite !bool_decide_eq_true_2 in Hin by done. done.
Qed.

Lemma GetBySerial_same db s k : same_store db s → SS_GetBySerial k (mkConn db []) = (mkConn db [], GetBySerial k s).
Proof.
  intros Hs. destruct (read_row_holds e_Serial enr_stands t_enrollments (has_serial k) (λ e, bool_decide (e_Serial e = k))
    scanEnrollment [storage_ErrNotFound] db _ enr_scan (sm_enr _ _ Hs) (serial_agree k)) as [(e & E & Hin & He)|[E Hno]];
    unfold SS_GetBySerial, GetBySerial; rewrite E; f_equal.
  - btrue. subst k. by rewrite Hin.
  - destruct (st_enrollments s !! k) as [e|] eqn:Ek; [|done]. pose proof (holds_key _ _ _ _ _ _ (sm_enr _ _ Hs) Ek).
    apply Hno in Ek. by rewrite bool_decide_eq_true_2 in Ek.
Qed.

Lemma GetByThumbprint_same db s th :
  same_store db s → SS_GetByThumbprint th (mkConn db []) = (mkConn db [], GetByThumbprint th s).
Proof.
  intros Hs. destruct (read_row_holds e_Serial enr_stands t_enrollments (has_thumbprint th)
    (λ e, bool_decide (e_Thumbprint e = th)) scanEnrollment [storage_ErrNotFound] db _ enr_scan (sm_enr _ _ Hs) (thumb_agree th))
    as [(e & E & Hin & He)|[E Hno]]; unfold SS_GetByThumbprint, GetByThumbprint; rewrite E; f_equal.
  - btrue. subst th. destruct (inv_serial _ (sm_inv _ _ Hs) _ _ Hin) as (_ & _ & _ & ->). unfold deref. by rewrite Hin.
  - destruct (st_byThumb s !! th) as [k|] eqn:Ek; [|done]. apply (inv_thumb _ (sm_inv _ _ Hs)) in Ek as (e & Hin & Hth).
    apply Hno in Hin. by rewrite bool_decide_eq_true_2 in Hin.
Qed.

(** *** Updates *)

Lemma state_stands st at_ r e :
  recent at_ → enr_stands r e → enr_stands (state_row st at_ r) (set_estate st at_ e).
Proof. intros Ha (blob & Hm & -> & H1 & H2 & H3). exists blob. split_and!; done. Qed.
Lemma seen_stands at_ r e : recent at_ → enr_stands r e → enr_stands (seen_row at_ r) (set_LastSeenAt at_ e).
Proof. intros Ha (blob & Hm & -> & H1 & H2 & H3). exists blob. split_and!; done. Qed.

(** UPDATE enrollments: the new tables stand for the updated map. *)
Lemma update_enrollments_same db s w f w' g :
  holds e_Serial enr_stands (t_enrollments db) (st_enrollments s) →
  (∀ r e, enr_stands r e → w r = w' e) → (∀ r e, enr_stands r e → w' e = true → enr_stands (f r) (g e)) →
  (∀ e, e_Serial (g e) = e_Serial e) →
  ∃ t n, update_enrollments w f (mkConn db []) = (mkConn (set_enrollments t db) [], Ok n) ∧
    holds e_Serial enr_stands t ((λ e, if w' e then g e else e) <$> st_enrollments s) ∧
    (n = 0 ↔ ∀ k e, st_enrollments s !! k = Some e → w' e = false).
Proof.
  intros Hh Hw Hf Hg. destruct (holds_update e_Serial enr_stands _ _ w f w' g Hh Hw Hf Hg) as [H1 H2].
  eexists _, _. split; [|exact (conj H1 H2)]. done.
Qed.

Lemma refuse_holds {Row A} (key : A → string) (stands : Row → A → Prop) table w w' err db m :
  holds key stands (table db) m → (∀ r e, stands r e → w r = w' e) →
  (refuse_existing err table w (mkConn db []) = (mkConn db [], Err err) ∧
    require_existing err table w (mkConn db []) = (mkConn db [], Ok tt) ∧ ∃ e, m !! key e = Some e ∧ w' e = true) ∨
  (refuse_existing err table w (mkConn db []) = (mkConn db [], Ok tt) ∧
    require_existing err table w (mkConn db []) = (mkConn db [], Err err) ∧ ∀ k e, m !! k = Some e → w' e = false).
Proof.
  intros Hh Hw. unfold refuse_existing, require_existing, query_, call. cbn [c_replies c_db].
  destruct (holds_row key stands _ _ w w' Hh Hw) as [(r & e & _ & -> & _ & Hr & Hin & He)|(_ & -> & _ & Hno)].
  - left. split_and!; try done. by exists e.
  - right. done.
Qed.

(** The device's active enrollments, one at most, are superseded. *)
Lemma supersede_same s dev at_ :
  store_inv s →
  supersede (st_active s !! dev) at_ (st_enrollments s) =
  (λ e, if is_active dev e then set_estate StateSuperseded at_ e else e) <$> st_enrollments s.
Proof.
  intros Hi. apply map_eq. intros k. rewrite lookup_supersede, lookup_fmap.
  destruct (st_enrollments s !! k) as [e|] eqn:Ek; [|by case_decide].
  assert (is_active dev e = true ↔ st_active s !! dev = Some k) as Ha.
  { unfold is_active. rewrite andb_true_iff, !bool_decide_eq_true, (inv_active _ Hi). split.
    - intros [??]. eauto.
    - intros (e' & He' & ?). rewrite Ek in He'. injection He' as ->. done. }
  case_decide as Hd; cbn; f_equal.
  - by rewrite (proj2 Ha Hd).
  - destruct (is_active dev e) eqn:E; [|done]. exfalso. by apply Hd, Ha.
Qed.

Definition enr_recent (e : Enrollment) : Prop :=
  recent (e_EnrolledAt e) ∧ recent (e_LastSeenAt e) ∧ ∃ blob, marshal_Context (e_Context e) = Ok blob.

Lemma create_conflict db s e (Hs : same_store db s) :
  (∃ err, refuse_existing [storage_ErrConflict] t_enrollments (has_serial (e_Serial e)) (mkConn db []) =
            (mkConn db [], err) ∧
    match err with Ok _ => st_enrollments s !! e_Serial e = None
      | Err err => err = [storage_ErrConflict] ∧ is_Some (st_enrollments s !! e_Serial e) end) ∧
  (∃ err, refuse_existing [storage_ErrConflict] t_enrollments (has_thumbprint (e_Thumbprint e)) (mkConn db []) =
            (mkConn db [], err) ∧
    match err with Ok _ => (∀ k x, st_enrollments s !! k = Some x → e_Thumbprint x ≠ e_Thumbprint e) ∧
                           st_byThumb s !! e_Thumbprint e = None
      | Err err => err = [storage_ErrConflict] ∧ is_Some (st_byThumb s !! e_Thumbprint e) end).
Proof.
  split.
  - destruct (refuse_holds e_Serial enr_stands t_enrollments _ _ [storage_ErrConflict] db _ (sm_enr _ _ Hs)
      (serial_agree (e_Serial e))) as [(-> & _ & x & Hx & Hxs)|(-> & _ & Hno)]; (eexists; split; [done|]).
    + btrue. rewrite Hxs in Hx. rewrite Hx. done.
    + destruct (_ !! e_Serial e) as [x|] eqn:Ex; [|done]. pose proof (holds_key _ _ _ _ _ _ (sm_enr _ _ Hs) Ex).
      apply Hno in Ex. by rewrite bool_decide_eq_true_2 in Ex.
  - destruct (refuse_holds e_Serial enr_stands t_enrollments _ _ [storage_ErrConflict] db _ (sm_enr _ _ Hs)
      (thumb_agree (e_Thumbprint e))) as [(-> & _ & x & Hx & Hxs)|(-> & _ & Hno)]; (eexists; split; [done|]).
    + btrue. destruct (inv_serial _ (sm_inv _ _ Hs) _ _ Hx) as (_ & _ & _ & Hth). rewrite Hxs in Hth. by rewrite Hth.
    + assert (∀ k x, st_enrollments s !! k = Some x → e_Thumbprint x ≠ e_Thumbprint e) as Hne.
      { intros k x Hx. apply Hno in Hx. by apply bool_decide_eq_false in Hx. }
      split; [done|]. destruct (st_byThumb s !! _) as [k|] eqn:Ek; [|done].
      apply (inv_thumb _ (sm_inv _ _ Hs)) in Ek as (x & Hx & Hth). by apply Hne in Hx.
Qed.

Lemma insert_enrollment_same db m e blob :
  holds e_Serial enr_stands (t_enrollments db) m → enr_stands (enrollment_row e blob) (set_estate StateActive (e_EnrolledAt e) e) →
  m !! e_Serial e = None → (∀ k x, m !! k = Some x → e_Thumbprint x ≠ e_Thumbprint e) →
  let t := t_enrollments db ++ [enrollment_row e blob] in
  insert_enrollment (enrollment_row e blob) db = (set_enrollments t db, Ok tt) ∧
  holds e_Serial enr_stands t (<[e_Serial e := set_estate StateActive (e_EnrolledAt e) e]> m).
Proof.
  intros Hh Hr Hk Hth t. split.
  - unfold insert_enrollment. destruct (holds_row e_Serial enr_stands (t_enrollments db) m
      (λ x, has_serial (e_Serial e) x || has_thumbprint (e_Thumbprint e) x)
      (λ x, bool_decide (e_Serial x = e_Serial e) || bool_decide (e_Thumbprint x = e_Thumbprint e)) Hh)
      as [(r & x & _ & _ & _ & _ & Hx & Hxw)|(_ & _ & Ex & _)].
    + intros r x Hrx. by rewrite (serial_agree _ _ _ Hrx), (thumb_agree _ _ _ Hrx).
    + exfalso. apply orb_true_iff in Hxw as [E|E]; btrue; [rewrite E in Hx; congruence|by apply Hth in Hx].
    + cbn [enrollment_row er_serial er_thumbprint] in *. by rewrite Ex.
  - apply (holds_insert e_Serial enr_stands _ _ _ (set_estate StateActive (e_EnrolledAt e) e)); done.
Qed.

Lemma create_tx_same db s e blob :
  same_store db s → recent (e_EnrolledAt e) → recent (e_LastSeenAt e) → marshal_Context (e_Context e) = Ok blob →
  st_enrollments s !! e_Serial e = None →
  (∀ k x, st_enrollments s !! k = Some x → e_Thumbprint x ≠ e_Thumbprint e) →
  ∃ t, (update_enrollments (active_of (e_DeviceID e)) (state_row StateSuperseded (e_EnrolledAt e)) ;!
        call (insert_enrollment (enrollment_row e blob))) (mkConn db []) = (mkConn (set_enrollments t db) [], Ok tt) ∧
    holds e_Serial enr_stands t (<[e_Serial e := set_estate StateActive (e_EnrolledAt e) e]>
      (supersede (st_active s !! e_DeviceID e) (e_EnrolledAt e) (st_enrollments s))).
Proof.
  intros Hs Hr1 Hr2 Hm Hk Hth.
  destruct (update_enrollments_same db s (active_of (e_DeviceID e)) (state_row StateSuperseded (e_EnrolledAt e))
    (is_active (e_DeviceID e)) (set_estate StateSuperseded (e_EnrolledAt e)) (sm_enr _ _ Hs)) as (t & n & E & Ht & _);
    [apply active_agree|intros; by apply state_stands|done|].
  rewrite supersede_same by apply Hs. rewrite (bind_run _ _ _ _ _ E), call_sound.
  destruct (insert_enrollment_same (set_enrollments t db) _ e blob Ht) as [Ei Hi].
  - exists blob. done.
  - by rewrite lookup_fmap, Hk.
  - intros k x Hx. rewrite lookup_fmap in Hx. apply fmap_Some in Hx as (y & Hy & ->). apply Hth in Hy.
    by destruct (is_active _ y).
  - rewrite Ei. eexists. split; [done|exact Hi].
Qed.

Lemma Create_same db s e :
  same_store db s → (∀ x, e = Some x → enr_recent x) →
  ∃ db' s' r, SS_Create ctx e (mkConn db []) = (mkConn db' [], r) ∧ Create e s = (s', r) ∧ same_store db' s' ∧
    t_tokens db' = t_tokens db.
Proof.
  intros Hs Hrec. destruct (Create e s) as [s' r] eqn:Ec. pose proof (Create_inv _ _ _ _ (sm_inv _ _ Hs) Ec) as Hi'.
  revert Ec. unfold SS_Create, Create. destruct (Enrollment_Validate e) as [[]|err], e as [e|];
    try (intros [= <- <-]; exists db, s; eexists; split_and!; done).
  destruct (Hrec e eq_refl) as (Hr1 & Hr2 & blob & Hm). rewrite Hm. unfold create_tx.
  destruct (create_conflict db s e Hs) as [([[]|err1] & E1 & H1) ([[]|err2] & E2 & H2)].
  - destruct H2 as [Hth Hnone]. destruct (create_tx_same db s e blob Hs Hr1 Hr2 Hm H1 Hth) as (t & E & Ht).
    rewrite H1, Hnone. intros [= <- <-]. do 3 eexists.
    rewrite (tx_sound ctx _ db (set_enrollments t db) (Ok tt)); [split_and!; [done..| |done]| |done].
    + constructor; [done|exact Ht|apply Hs|apply Hs].
    + by rewrite (bind_run _ _ _ _ _ E1), (bind_run _ _ _ _ _ E2).
  - destruct H2 as [-> [k Hk]]. rewrite H1, Hk. intros [= <- <-]. exists db, s, (Err [storage_ErrConflict]).
    rewrite (tx_sound ctx _ db db (Err [storage_ErrConflict])); [done| |done].
    rewrite (bind_run _ _ _ _ _ E1). by apply bind_err.
  - destruct H1 as [-> [k Hk]]. rewrite Hk. intros [= <- <-]. exists db, s, (Err [storage_ErrConflict]).
    rewrite (tx_sound ctx _ db db (Err [storage_ErrConflict])); [done| |done]. by apply bind_err.
  - destruct H1 as [-> [k Hk]]. rewrite Hk. intros [= <- <-]. exists db, s, (Err [storage_ErrConflict]).
    rewrite (tx_sound ctx _ db db (Err [storage_ErrConflict])); [done| |done]. by apply bind_err.
Qed.

(** What SetState does to the map, as two updates. *)
Lemma SetState_map s serial st at_ e :
  store_inv s → EState_Valid st = true → st_enrollments s !! serial = Some e →
  let m1 := if decide (st = StateActive) then
      (λ x, if is_active (e_DeviceID e) x && negb (bool_decide (e_Serial x = serial))
            then set_estate StateSuperseded at_ x else x) <$> st_enrollments s
    else st_enrollments s in
  st_enrollments (SetState serial st at_ s).1 =
    (λ x, if bool_decide (e_Serial x = serial) then set_estate st at_ x else x) <$> m1 ∧
  st_certs (SetState serial st at_ s).1 = st_certs s ∧ st_creds (SetState serial st at_ s).1 = st_creds s ∧
  (SetState serial st at_ s).2 = Ok tt.
Proof.
  intros Hi Hv He. unfold SetState. rewrite Hv, He. cbn [negb].
  assert (∀ k x, st_enrollments s !! k = Some x → e_Serial x = k) as Hkey
    by (intros k x Hx; by destruct (inv_serial _ Hi _ _ Hx)).
  destruct (decide (st = StateActive)) as [->|Hne].
  - rewrite (decide_False (P := StateActive ≠ StateActive ∧ _)) by (intros [? _]; done). cbn. split_and!; try done.
    apply map_eq. intros k. rewrite !lookup_fmap.
    assert (∀ prev, st_active s !! e_DeviceID e = Some prev ↔
      ∃ x, st_enrollments s !! prev = Some x ∧ is_active (e_DeviceID e) x = true) as Hact.
    { intros prev. rewrite (inv_active _ Hi). unfold is_active.
      split; intros (x & Hx & Ha); exists x; (split; [done|]); [|btrue; naive_solver].
      destruct Ha as [-> ->]. by rewrite !bool_decide_eq_true_2. }
    destruct (decide (k = serial)) as [->|Hk].
    + rewrite He. cbn [fmap option_fmap option_map].
      rewrite (bool_decide_eq_true_2 (e_Serial e = serial)) by (by apply Hkey). rewrite andb_false_r.
      rewrite (bool_decide_eq_true_2 (e_Serial e = serial)) by (by apply Hkey).
      destruct (st_active s !! e_DeviceID e) as [prev|] eqn:Ep; [case_decide|]; cbn [supersede];
        rewrite ?lookup_alter_ne, lookup_insert_eq by done; done.
    + assert ((<[serial := set_estate StateActive (time_UTC at_) e]> (st_enrollments s)) !! k = st_enrollments s !! k)
        as Hins by by rewrite lookup_insert_ne.
      destruct (st_enrollments s !! k) as [x|] eqn:Ek; cbn [fmap option_fmap option_map].
      * rewrite (bool_decide_eq_false_2 (e_Serial x = serial)) by (rewrite (Hkey _ _ Ek); done).
        rewrite andb_true_r. destruct (is_active (e_DeviceID e) x) eqn:Ex.
        -- assert (st_active s !! e_DeviceID e = Some k) as -> by (apply Hact; eauto). rewrite decide_True by done.
           cbn. rewrite bool_decide_eq_false_2 by (rewrite (Hkey _ _ Ek); done).
           rewrite lookup_alter_eq, Hins, ?Ek. done.
        -- rewrite bool_decide_eq_false_2 by (rewrite (Hkey _ _ Ek); done).
           destruct (st_active s !! e_DeviceID e) as [prev|] eqn:Ep; [|by rewrite Hins, ?Ek].
           destruct (proj1 (Hact prev) eq_refl) as (y & Hy & Hya). assert (prev ≠ k) by (intros ->; congruence).
           case_decide; cbn [supersede]; rewrite ?lookup_alter_ne by done; by rewrite Hins, ?Ek.
      * destruct (st_active s !! e_DeviceID e) as [prev|] eqn:Ep; [|by rewrite Hins, ?Ek].
        destruct (proj1 (Hact prev) eq_refl) as (y & Hy & Hya). assert (prev ≠ k) by (intros ->; congruence).
        case_decide; cbn [supersede]; rewrite ?lookup_alter_ne by done; by rewrite Hins, ?Ek.
  - cbn. split_and!; try done. apply map_eq. intros k. rewrite lookup_fmap. destruct (decide (k = serial)) as [->|Hk].
    + rewrite lookup_insert_eq, He. cbn. by rewrite bool_decide_eq_true_2 by by apply Hkey.
    + rewrite lookup_insert_ne by done. destruct (st_enrollments s !! k) as [x|] eqn:Ek; [|done]. cbn.
      by rewrite bool_decide_eq_false_2 by (rewrite (Hkey _ _ Ek); done).
Qed.

Lemma set_enrollments_twice t t' db : set_enrollments t (set_enrollments t' db) = set_enrollments t db.
Proof. done. Qed.

(** The updates of SetState, after the device was read. *)
Lemma set_state_updates db m serial st at_ dev :
  holds e_Serial enr_stands (t_enrollments db) m → recent at_ →
  let m1 := if decide (st = StateActive) then
      (λ x, if is_active dev x && negb (bool_decide (e_Serial x = serial))
            then set_estate StateSuperseded at_ x else x) <$> m
    else m in
  ∃ t, ((if decide (st = StateActive) then
           update_enrollments (λ r, active_of dev r && negb (has_serial serial r)) (state_row StateSuperseded at_) ;! ret tt
         else ret tt) ;!
        update_enrollments (has_serial serial) (state_row st at_) ;! ret tt) (mkConn db []) =
       (mkConn (set_enrollments t db) [], Ok tt) ∧
    holds e_Serial enr_stands t ((λ x, if bool_decide (e_Serial x = serial) then set_estate st at_ x else x) <$> m1).
Proof.
  intros Hh Ha m1.
  assert (∃ t1, (if decide (st = StateActive) then
           update_enrollments (λ r, active_of dev r && negb (has_serial serial r)) (state_row StateSuperseded at_) ;! ret tt
         else ret tt) (mkConn db []) = (mkConn (set_enrollments t1 db) [], Ok tt) ∧ holds e_Serial enr_stands t1 m1)
    as (t1 & E1 & H1).
  { unfold m1. case_decide.
    - destruct (holds_update e_Serial enr_stands _ _ (λ r, active_of dev r && negb (has_serial serial r))
        (state_row StateSuperseded at_) (λ x, is_active dev x && negb (bool_decide (e_Serial x = serial)))
        (set_estate StateSuperseded at_) Hh) as [Hu _].
      + intros r x Hr. by rewrite (active_agree _ _ _ Hr), (serial_agree _ _ _ Hr).
      + intros. by apply state_stands.
      + done.
      + eexists. split; [|exact Hu]. done.
    - exists (t_enrollments db). split; [|done]. by destruct db. }
  rewrite (bind_run _ _ _ _ _ E1).
  destruct (holds_update e_Serial enr_stands _ _ (has_serial serial) (state_row st at_)
    (λ x, bool_decide (e_Serial x = serial)) (set_estate st at_) H1) as [Hu _];
    [apply serial_agree|intros; by apply state_stands|done|].
  eexists. split; [|exact Hu]. done.
Qed.

Lemma SetState_same db s serial st at_ :
  same_store db s → recent at_ →
  ∃ db' s' r, SS_SetState ctx serial st at_ (mkConn db []) = (mkConn db' [], r) ∧ SetState serial st at_ s = (s', r) ∧
    same_store db' s' ∧ t_tokens db' = t_tokens db.
Proof.
  intros Hs Ha. destruct (SetState serial st at_ s) as [s' r] eqn:Ec.
  pose proof (SetState_inv _ _ _ _ _ _ (sm_inv _ _ Hs) Ec) as Hi'. unfold SS_SetState.
  destruct (EState_Valid st) eqn:Hv; cbn [negb].
  2: { unfold SetState in Ec. rewrite Hv in Ec. injection Ec as <- <-. exists db, s. eexists. done. }
  unfold set_state_tx, device_of.
  destruct (holds_row e_Serial enr_stands _ _ _ _ (sm_enr _ _ Hs) (serial_agree serial))
    as [(row & e & Er & _ & _ & Hr & Hin & He)|(Er & _ & _ & Hno)].
  - btrue. subst serial.
    assert (read_row [storage_ErrNotFound] t_enrollments (has_serial (e_Serial e)) (λ r, Ok (er_device_id r)) (mkConn db []) =
      (mkConn db [], Ok (e_DeviceID e))) as E1.
    { unfold read_row, query_, call. cbn [c_replies c_db]. rewrite Er. by destruct Hr as (? & _ & -> & _). }
    destruct (set_state_updates db _ (e_Serial e) st at_ (e_DeviceID e) (sm_enr _ _ Hs) Ha) as (t & E2 & Ht).
    destruct (SetState_map s (e_Serial e) st at_ e (sm_inv _ _ Hs) Hv Hin) as (H1 & H2 & H3 & H4).
    rewrite Ec in H1, H2, H3, H4. cbn [fst snd] in *. subst r.
    exists (set_enrollments t db), s', (Ok tt). split_and!; [|done| |done].
    + rewrite (tx_sound ctx _ db (set_enrollments t db) (Ok tt)); [done| |done]. by rewrite (bind_run _ _ _ _ _ E1).
    + constructor; [done|by rewrite H1|rewrite H2; apply Hs|rewrite H3; apply Hs].
  - assert (st_enrollments s !! serial = None) as Hn.
    { destruct (_ !! serial) as [x|] eqn:Ex; [|done]. pose proof (holds_key _ _ _ _ _ _ (sm_enr _ _ Hs) Ex).
      apply Hno in Ex. by rewrite bool_decide_eq_true_2 in Ex. }
    unfold SetState in Ec. rewrite Hv, Hn in Ec. injection Ec as <- <-. exists db, s, (Err [storage_ErrNotFound]).
    split_and!; [|done..]. rewrite (tx_sound ctx _ db db (Err [storage_ErrNotFound])); [done| |done].
    apply bind_err. unfold read_row, query_, call. cbn [c_replies c_db]. by rewrite Er.
Qed.

Lemma lookup_none_serial db s serial :
  same_store db s → (∀ k e, st_enrollments s !! k = Some e → bool_decide (e_Serial e = serial) = false) →
  st_enrollments s !! serial = None.
Proof.
  intros Hs Hno. destruct (_ !! serial) as [x|] eqn:Ex; [|done]. pose proof (holds_key _ _ _ _ _ _ (sm_enr _ _ Hs) Ex).
  apply Hno in Ex. by rewrite bool_decide_eq_true_2 in Ex.
Qed.

(** The in-memory update, as an update of the map. *)
Lemma TouchLastSeen_map s serial at_ e :
  store_inv s → st_enrollments s !! serial = Some e →
  st_enrollments (TouchLastSeen serial at_ s).1 =
    (λ x, if bool_decide (e_Serial x = serial) && (e_LastSeenAt x <? at_) then set_LastSeenAt at_ x else x)
      <$> st_enrollments s ∧
  st_certs (TouchLastSeen serial at_ s).1 = st_certs s ∧ st_creds (TouchLastSeen serial at_ s).1 = st_creds s ∧
  (TouchLastSeen serial at_ s).2 = Ok tt.
Proof.
  intros Hi He. unfold TouchLastSeen. rewrite He. unfold time_After.
  assert (∀ k x, st_enrollments s !! k = Some x → e_Serial x = k) as Hkey
    by (intros k x Hx; by destruct (inv_serial _ Hi _ _ Hx)).
  destruct (e_LastSeenAt e <? at_) eqn:El; cbn; split_and!; try done; apply map_eq; intros k; rewrite lookup_fmap;
    (destruct (decide (k = serial)) as [->|Hk]; [rewrite ?lookup_insert_eq, He; cbn; rewrite El;
       rewrite bool_decide_eq_true_2 by (by apply Hkey); done|]);
    rewrite ?lookup_insert_ne by done; destruct (st_enrollments s !! k) as [x|] eqn:Ek; try done; cbn;
    by rewrite bool_decide_eq_false_2 by (rewrite (Hkey _ _ Ek); done).
Qed.

Lemma TouchLastSeen_same db s serial at_ :
  same_store db s → recent at_ →
  ∃ db' s' r, SS_TouchLastSeen serial at_ (mkConn db []) = (mkConn db' [], r) ∧ TouchLastSeen serial at_ s = (s', r) ∧
    same_store db' s'.
Proof.
  intros Hs Ha. destruct (TouchLastSeen serial at_ s) as [s' r] eqn:Ec.
  pose proof (TouchLastSeen_inv _ _ _ _ _ (sm_inv _ _ Hs) Ec) as Hi'. unfold SS_TouchLastSeen.
  destruct (update_enrollments_same db s (λ r, has_serial serial r && (er_last_seen_at r <? nanos at_)) (seen_row at_)
    (λ x, bool_decide (e_Serial x = serial) && (e_LastSeenAt x <? at_)) (set_LastSeenAt at_) (sm_enr _ _ Hs))
    as (t & n & E & Ht & Hn); [|intros; by apply seen_stands|done|].
  { intros r' x Hr. rewrite (serial_agree _ _ _ Hr). f_equal. destruct Hr as (? & _ & -> & _ & _ & ?). cbn.
    by apply recent_lt. }
  rewrite (bind_run _ _ _ _ _ E).
  destruct (refuse_holds e_Serial enr_stands t_enrollments (has_serial serial) (λ x, bool_decide (e_Serial x = serial))
    [storage_ErrNotFound] (set_enrollments t db) _ Ht (serial_agree serial)) as [(_ & Er & x & Hx & Hxs)|(_ & Er & Hno)].
  - assert (∃ e, st_enrollments s !! serial = Some e) as [e He].
    { btrue. subst serial. rewrite lookup_fmap in Hx. apply fmap_Some in Hx as (y & Hy & _). eauto. }
    destruct (TouchLastSeen_map s serial at_ e (sm_inv _ _ Hs) He) as (H1 & H2 & H3 & H4).
    rewrite Ec in H1, H2, H3, H4. cbn [fst snd] in *. subst r. exists (set_enrollments t db), s', (Ok tt).
    split_and!; [|done|constructor; [done|by rewrite H1|rewrite H2; apply Hs|rewrite H3; apply Hs]].
    destruct (n =? 0); [|done]. exact Er.
  - assert (st_enrollments s !! serial = None) as Hnone.
    { apply (lookup_none_serial db); [done|]. intros k e Hk. specialize (Hno k). rewrite lookup_fmap, Hk in Hno.
      specialize (Hno _ eq_refl). cbn in Hno. destruct (bool_decide (e_Serial e = serial)) eqn:Es; [|done].
      cbn [andb] in Hno. destruct (e_LastSeenAt e <? at_); cbn in Hno; congruence. }
    unfold TouchLastSeen in Ec. rewrite Hnone in Ec. injection Ec as <- <-.
    assert (n = 0) as ->.
    { apply Hn. intros k e Hk. assert (bool_decide (e_Serial e = serial) = false) as ->; [|done].
      apply bool_decide_eq_false. intros <-. pose proof (holds_key _ _ _ _ _ _ (sm_enr _ _ Hs) Hk). congruence. }
    exists (set_enrollments t db), s, (Err [storage_ErrNotFound]). split_and!; [exact Er|done|].
    constructor; [done| |apply Hs|apply Hs].
    assert ((λ x, if bool_decide (e_Serial x = serial) && (e_LastSeenAt x <? at_) then set_LastSeenAt at_ x else x)
      <$> st_enrollments s = st_enrollments s) as Hid; [|by rewrite Hid in Ht].
    apply map_eq. intros k. rewrite lookup_fmap. destruct (st_enrollments s !! k) as [x|] eqn:Ek; [|done]. cbn.
    by rewrite (proj1 Hn eq_refl k x Ek).
Qed.

(** *** Lists *)

(** A page of the sorted rows that match. *)
Lemma read_page_same {Row A} (key : A → string) (stands : Row → A → Prop) scan select sorted db p :
  (∀ r e, stands r e → scan r = Ok e) → Forall2 stands (select db) sorted → zlength sorted ≤ max_int64 →
  read_page (A := A) (Row := Row) select scan p (mkConn db []) = (mkConn db [], page sorted p).
Proof.
  intros Hscan Hs Hmax. unfold read_page, bind, lift. destruct (offsetOf p) as [offset|e] eqn:Eo.
  - unfold query_, call. cbn [c_replies c_db].
    rewrite (scan_stands stands scan _ (take (Z.to_nat (Page_Size p + 1)) (drop (Z.to_nat offset) sorted))).
    + unfold ret. f_equal. by apply pageResult_page.
    + done.
    + by apply Forall2_take, Forall2_drop.
  - f_equal. unfold page. unfold offsetOf in Eo. unfold cursor_offset. by rewrite Eo.
Qed.

Lemma enr_sorted_stands db s w w' :
  same_store db s → (∀ r e, enr_stands r e → w r = w' e) →
  Forall2 enr_stands (merge_sort enr_row_le (List.filter w (t_enrollments db)))
    (sortEnrollments (List.filter w' (map_to_list (st_enrollments s)).*2)).
Proof.
  intros Hs Hw. apply (holds_select e_Serial enr_stands enr_row_le enr_le); [apply Hs|done| |].
  - intros r e r' e' (? & _ & -> & H1 & _) (? & _ & -> & H2 & _). unfold enr_row_le, enr_le. cbn.
    pose proof (recent_lt _ _ H1 H2) as Hlt. pose proof (recent_eq _ _ H1 H2) as Heq.
    intros [Hl|[Hl ?]]; [left|right; split; [by apply Heq|done]]. apply Z.ltb_lt. rewrite <- Hlt. by apply Z.ltb_lt.
  - intros e e' H1 H2 H3 H4. pose proof (lex_le_key e_EnrolledAt e_Serial e e' H3 H4) as E. rewrite E in H1. congruence.
Qed.

Lemma select_bound {A} (m : gmap string A) (R : relation A) `{!RelDecision R} w :
  Z.of_nat (size m) ≤ max_int64 → zlength (merge_sort R (List.filter w (map_to_list m).*2)) ≤ max_int64.
Proof.
  unfold zlength. rewrite merge_sort_Permutation. pose proof (length_filter_le w (map_to_list m).*2) as Hl.
  rewrite length_fmap, length_map_to_list in Hl. lia.
Qed.

Lemma ListByHWDevID_same db s hw :
  same_store db s → SS_ListByHWDevID hw (mkConn db []) = (mkConn db [], ListByHWDevID hw s).
Proof.
  intros Hs. unfold SS_ListByHWDevID, ListByHWDevID. case_decide; [done|].
  unfold bind, query_, call, lift. cbn [c_replies c_db]. f_equal.
  apply (scan_stands enr_stands); [apply enr_scan|]. apply enr_sorted_stands; [done|]. by intros r e (? & _ & -> & _).
Qed.

Lemma List_same db s q p :
  same_store db s → Z.of_nat (size (st_enrollments s)) ≤ max_int64 →
  SS_List q p (mkConn db []) = (mkConn db [], ListEnrollments q p s).
Proof.
  intros Hs Hmax. apply (read_page_same e_Serial enr_stands); [apply enr_scan| |by apply select_bound].
  apply enr_sorted_stands; [done|]. by intros r e (? & _ & -> & _).
Qed.

(** *** Certificates *)

Lemma cert_serial_agree k r c : cert_stands r c → cert_serial k r = bool_decide (c_Serial c = k).
Proof. by intros [-> _]. Qed.
Lemma cert_thumb_agree th r c : cert_stands r c → cert_thumbprint th r = bool_decide (c_Thumbprint c = th).
Proof. by intros [-> _]. Qed.

Lemma cert_none db s serial :
  same_store db s → (∀ k c, st_certs s !! k = Some c → bool_decide (c_Serial c = serial) = false) →
  st_certs s !! serial = None.
Proof.
  intros Hs Hno. destruct (_ !! serial) as [x|] eqn:Ex; [|done]. pose proof (holds_key _ _ _ _ _ _ (sm_cert _ _ Hs) Ex).
  apply Hno in Ex. by rewrite bool_decide_eq_true_2 in Ex.
Qed.

Lemma Certificate_same db s k : same_store db s → SS_Certificate k (mkConn db []) = (mkConn db [], GetCertificate k s).
Proof.
  intros Hs. destruct (read_row_holds c_Serial cert_stands t_certificates (cert_serial k) (λ c, bool_decide (c_Serial c = k))
    scanCertificate [storage_ErrNotFound] db _ cert_scan (sm_cert _ _ Hs) (cert_serial_agree k))
    as [(c & E & Hin & Hc)|[E Hno]]; unfold SS_Certificate, GetCertificate; rewrite E; f_equal.
  - btrue. subst k. by rewrite Hin.
  - by rewrite (cert_none db).
Qed.

Lemma CertificateByThumbprint_same db s th :
  same_store db s → SS_CertificateByThumbprint th (mkConn db []) = (mkConn db [], CertificateByThumbprint th s).
Proof.
  intros Hs. destruct (read_row_holds c_Serial cert_stands t_certificates (cert_thumbprint th)
    (λ c, bool_decide (c_Thumbprint c = th)) scanCertificate [storage_ErrNotFound] db _ cert_scan (sm_cert _ _ Hs)
    (cert_thumb_agree th)) as [(c & E & Hin & Hc)|[E Hno]]; unfold SS_CertificateByThumbprint, CertificateByThumbprint;
    rewrite E; f_equal.
  - btrue. subst th. destruct (inv_certs _ (sm_inv _ _ Hs) _ _ Hin) as (_ & _ & ->). unfold deref. by rewrite Hin.
  - destruct (st_certThumb s !! th) as [k|] eqn:Ek; [|done]. apply (inv_certThumb _ (sm_inv _ _ Hs)) in Ek as (c & Hin & Hth).
    apply Hno in Hin. by rewrite bool_decide_eq_true_2 in Hin.
Qed.

Lemma put_conflict db s c (Hs : same_store db s) :
  (∃ err, refuse_existing [storage_ErrConflict] t_certificates (cert_serial (c_Serial c)) (mkConn db []) =
            (mkConn db [], err) ∧
    match err with Ok _ => st_certs s !! c_Serial c = None
      | Err err => err = [storage_ErrConflict] ∧ is_Some (st_certs s !! c_Serial c) end) ∧
  (∃ err, refuse_existing [storage_ErrConflict] t_certificates (cert_thumbprint (c_Thumbprint c)) (mkConn db []) =
            (mkConn db [], err) ∧
    match err with Ok _ => (∀ k x, st_certs s !! k = Some x → c_Thumbprint x ≠ c_Thumbprint c) ∧
                           st_certThumb s !! c_Thumbprint c = None
      | Err err => err = [storage_ErrConflict] ∧ is_Some (st_certThumb s !! c_Thumbprint c) end).
Proof.
  split.
  - destruct (refuse_holds c_Serial cert_stands t_certificates _ _ [storage_ErrConflict] db _ (sm_cert _ _ Hs)
      (cert_serial_agree (c_Serial c))) as [(-> & _ & x & Hx & Hxs)|(-> & _ & Hno)]; (eexists; split; [done|]).
    + btrue. rewrite Hxs in Hx. rewrite Hx. done.
    + by apply (cert_none db).
  - destruct (refuse_holds c_Serial cert_stands t_certificates _ _ [storage_ErrConflict] db _ (sm_cert _ _ Hs)
      (cert_thumb_agree (c_Thumbprint c))) as [(-> & _ & x & Hx & Hxs)|(-> & _ & Hno)]; (eexists; split; [done|]).
    + btrue. destruct (inv_certs _ (sm_inv _ _ Hs) _ _ Hx) as (_ & _ & Hth). rewrite Hxs in Hth. by rewrite Hth.
    + assert (∀ k x, st_certs s !! k = Some x → c_Thumbprint x ≠ c_Thumbprint c) as Hne.
      { intros k x Hx. apply Hno in Hx. by apply bool_decide_eq_false in Hx. }
      split; [done|]. destruct (st_certThumb s !! _) as [k|] eqn:Ek; [|done].
      apply (inv_certThumb _ (sm_inv _ _ Hs)) in Ek as (x & Hx & Hth). by apply Hne in Hx.
Qed.

Lemma insert_certificate_same db m c :
  holds c_Serial cert_stands (t_certificates db) m → cert_recent c → m !! c_Serial c = None →
  (∀ k x, m !! k = Some x → c_Thumbprint x ≠ c_Thumbprint c) →
  let t := t_certificates db ++ [certificate_row c] in
  insert_certificate (certificate_row c) db = (set_certificates t db, Ok tt) ∧
  holds c_Serial cert_stands t (<[c_Serial c := c]> m).
Proof.
  intros Hh Hr Hk Hth t. split; [|by apply (holds_insert c_Serial cert_stands)].
  unfold insert_certificate. destruct (holds_row c_Serial cert_stands (t_certificates db) m
    (λ x, cert_serial (c_Serial c) x || cert_thumbprint (c_Thumbprint c) x)
    (λ x, bool_decide (c_Serial x = c_Serial c) || bool_decide (c_Thumbprint x = c_Thumbprint c)) Hh)
    as [(r & x & _ & _ & _ & _ & Hx & Hxw)|(_ & _ & Ex & _)].
  - intros r x Hrx. by rewrite (cert_serial_agree _ _ _ Hrx), (cert_thumb_agree _ _ _ Hrx).
  - exfalso. apply orb_true_iff in Hxw as [E|E]; btrue; [rewrite E in Hx; congruence|by apply Hth in Hx].
  - cbn [certificate_row xr_serial xr_thumbprint] in *. by rewrite Ex.
Qed.

Lemma PutCertificate_same db s c :
  same_store db s → (∀ x, c = Some x → cert_recent x) →
  ∃ db' s' r, SS_PutCertificate ctx c (mkConn db []) = (mkConn db' [], r) ∧ PutCertificate c s = (s', r) ∧
    same_store db' s'.
Proof.
  intros Hs Hrec. destruct (PutCertificate c s) as [s' r] eqn:Ec.
  pose proof (PutCertificate_inv _ _ _ _ (sm_inv _ _ Hs) Ec) as Hi'. revert Ec. unfold SS_PutCertificate, PutCertificate.
  destruct (Certificate_Validate c) as [[]|err], c as [c|];
    try (intros [= <- <-]; exists db, s; eexists; split_and!; done).
  unfold put_certificate_tx. destruct (put_conflict db s c Hs) as [([[]|err1] & E1 & H1) ([[]|err2] & E2 & H2)].
  - destruct H2 as [Hth Hnone]. rewrite H1, Hnone. intros [= <- <-].
    destruct (insert_certificate_same db _ c (sm_cert _ _ Hs) (Hrec c eq_refl) H1 Hth) as [Ei Hi]. do 3 eexists.
    rewrite (tx_sound ctx _ db (set_certificates (t_certificates db ++ [certificate_row c]) db) (Ok tt));
      [split_and!; [done..|]| |done].
    + constructor; [done|apply Hs|exact Hi|apply Hs].
    + by rewrite (bind_run _ _ _ _ _ E1), (bind_run _ _ _ _ _ E2), call_sound, Ei.
  - destruct H2 as [-> [k Hk]]. rewrite H1, Hk. intros [= <- <-]. exists db, s, (Err [storage_ErrConflict]).
    rewrite (tx_sound ctx _ db db (Err [storage_ErrConflict])); [done| |done].
    rewrite (bind_run _ _ _ _ _ E1). by apply bind_err.
  - destruct H1 as [-> [k Hk]]. rewrite Hk. intros [= <- <-]. exists db, s, (Err [storage_ErrConflict]).
    rewrite (tx_sound ctx _ db db (Err [storage_ErrConflict])); [done| |done]. by apply bind_err.
  - destruct H1 as [-> [k Hk]]. rewrite Hk. intros [= <- <-]. exists db, s, (Err [storage_ErrConflict]).
    rewrite (tx_sound ctx _ db db (Err [storage_ErrConflict])); [done| |done]. by apply bind_err.
Qed.

Lemma Revoke_map s serial at_ c :
  store_inv s → st_certs s !! serial = Some c →
  st_certs (Revoke serial at_ s).1 =
    (λ x, if bool_decide (c_Serial x = serial) && negb (c_Revoked x) then set_revoked at_ x else x) <$> st_certs s ∧
  st_enrollments (Revoke serial at_ s).1 = st_enrollments s ∧ st_creds (Revoke serial at_ s).1 = st_creds s ∧
  (Revoke serial at_ s).2 = Ok tt.
Proof.
  intros Hi Hc. unfold Revoke. rewrite Hc.
  assert (∀ k x, st_certs s !! k = Some x → c_Serial x = k) as Hkey
    by (intros k x Hx; by destruct (inv_certs _ Hi _ _ Hx)).
  destruct (c_Revoked c) eqn:Er; cbn; split_and!; try done; apply map_eq; intros k; rewrite lookup_fmap;
    (destruct (decide (k = serial)) as [->|Hk]; [rewrite ?lookup_insert_eq, Hc; cbn; rewrite Er;
       rewrite bool_decide_eq_true_2 by (by apply Hkey); done|]);
    rewrite ?lookup_insert_ne by done; destruct (st_certs s !! k) as [x|] eqn:Ek; try done; cbn;
    by rewrite bool_decide_eq_false_2 by (rewrite (Hkey _ _ Ek); done).
Qed.

Lemma revoked_zero r c : cert_stands r c → (xr_revoked r =? 0) = negb (c_Revoked c).
Proof. intros [-> _]. cbn. by destruct (c_Revoked c). Qed.

Lemma Revoke_same db s serial at_ :
  same_store db s → recent at_ →
  ∃ db' s' r, SS_Revoke serial at_ (mkConn db []) = (mkConn db' [], r) ∧ Revoke serial at_ s = (s', r) ∧
    same_store db' s'.
Proof.
  intros Hs Ha. destruct (Revoke serial at_ s) as [s' r] eqn:Ec.
  pose proof (Revoke_inv _ _ _ _ _ (sm_inv _ _ Hs) Ec) as Hi'. unfold SS_Revoke.
  set (w' := λ x, bool_decide (c_Serial x = serial) && negb (c_Revoked x)).
  destruct (holds_update c_Serial cert_stands _ _ (λ r, cert_serial serial r && (xr_revoked r =? 0)) (revoked_row at_)
    w' (set_revoked at_) (sm_cert _ _ Hs)) as (Ht & Hn).
  { intros r' x Hr. by rewrite (cert_serial_agree _ _ _ Hr), (revoked_zero _ _ Hr). }
  { intros r' x [-> (?&?&?)] _. split; done. }
  { done. }
  revert Ht Hn. unfold bind, update_table. rewrite call_sound. destruct (sql_update _ _ _) as [t n]. cbn [fst snd]. intros Ht Hn.
  destruct (refuse_holds c_Serial cert_stands t_certificates (cert_serial serial) (λ x, bool_decide (c_Serial x = serial))
    [storage_ErrNotFound] (set_certificates t db) _ Ht (cert_serial_agree serial)) as [(_ & Er & x & Hx & Hxs)|(_ & Er & Hno)].
  - assert (∃ c, st_certs s !! serial = Some c) as [c Hc].
    { btrue. subst serial. rewrite lookup_fmap in Hx. apply fmap_Some in Hx as (y & Hy & _). eauto. }
    destruct (Revoke_map s serial at_ c (sm_inv _ _ Hs) Hc) as (H1 & H2 & H3 & H4).
    rewrite Ec in H1, H2, H3, H4. cbn [fst snd] in *. subst r. exists (set_certificates t db), s', (Ok tt).
    split_and!; [|done|constructor; [done|rewrite H2; apply Hs|by rewrite H1|rewrite H3; apply Hs]].
    destruct (n =? 0); [|done]. exact Er.
  - assert (st_certs s !! serial = None) as Hnone.
    { apply (cert_none db); [done|]. intros k c Hk. specialize (Hno k). rewrite lookup_fmap, Hk in Hno.
      specialize (Hno _ eq_refl). unfold w' in Hno. destruct (bool_decide (c_Serial c = serial)) eqn:Es; [|done].
      cbn [andb] in Hno. destruct (c_Revoked c); cbn in Hno; congruence. }
    unfold Revoke in Ec. rewrite Hnone in Ec. injection Ec as <- <-.
    assert (n = 0) as ->.
    { apply Hn. intros k c Hk. unfold w'. assert (bool_decide (c_Serial c = serial) = false) as ->; [|done].
      apply bool_decide_eq_false. intros <-. pose proof (holds_key _ _ _ _ _ _ (sm_cert _ _ Hs) Hk). congruence. }
    exists (set_certificates t db), s, (Err [storage_ErrNotFound]). split_and!; [exact Er|done|].
    constructor; [done|apply Hs| |apply Hs].
    assert ((λ x, if w' x then set_revoked at_ x else x) <$> st_certs s = st_certs s) as Hid; [|by rewrite Hid in Ht].
    apply map_eq. intros k. rewrite lookup_fmap. destruct (st_certs s !! k) as [x|] eqn:Ek; [|done]. cbn.
    by rewrite (proj1 Hn eq_refl k x Ek).
Qed.

Lemma certificateWhere_agree q r c :
  recent (cq_ExpiresBefore q) → cert_stands r c → certificateWhere q r = cert_matches q c.
Proof.
  intros Hq [-> (H1 & H2 & H3)]. unfold certificateWhere, cert_matches, time_Before. cbn. rewrite recent_lt by done.
  f_equal. f_equal. destruct (cq_Revoked q) as [b|]; [|done]. by destruct (c_Revoked c), b.
Qed.

Lemma ListCertificates_same db s q p :
  same_store db s → recent (cq_ExpiresBefore q) → Z.of_nat (size (st_certs s)) ≤ max_int64 →
  SS_ListCertificates q p (mkConn db []) = (mkConn db [], ListCertificates q p s).
Proof.
  intros Hs Hq Hmax. apply (read_page_same c_Serial cert_stands); [apply cert_scan| |by apply select_bound].
  apply (holds_select c_Serial cert_stands cert_row_le cert_le); [apply Hs|intros; by apply certificateWhere_agree| |].
  - intros r e r' e' [-> (H1 & _)] [-> (H2 & _)]. unfold cert_row_le, cert_le. cbn.
    pose proof (recent_lt _ _ H1 H2) as Hlt. pose proof (recent_eq _ _ H1 H2) as Heq.
    intros [Hl|[Hl ?]]; [left|right; split; [by apply Heq|done]]. apply Z.ltb_lt. rewrite <- Hlt. by apply Z.ltb_lt.
  - intros e e' H1 H2 H3 H4. pose proof (lex_le_key c_NotBefore c_Serial e e' H3 H4) as E. rewrite E in H1. congruence.
Qed.

(** *** Credentials *)

Lemma PutMDMCredential_same db s c :
  same_store db s →
  ∃ db' s' r, SS_PutMDMCredential c (mkConn db []) = (mkConn db' [], r) ∧ PutMDMCredential c s = (s', r) ∧
    same_store db' s'.
Proof.
  intros Hs. destruct (PutMDMCredential c s) as [s' r] eqn:Ec.
  pose proof (PutMDMCredential_inv _ _ _ _ (sm_inv _ _ Hs) Ec) as Hi'. revert Ec. unfold SS_PutMDMCredential, PutMDMCredential.
  case_decide; intros [= <- <-]; [by exists db, s; eexists|]. do 3 eexists. split_and!; [done..|].
  constructor; [done|apply Hs|apply Hs|]. intros dev. cbn. destruct (decide (dev = mc_DeviceID c)) as [->|Hne].
  - rewrite !lookup_insert_eq. cbn. by destruct c.
  - rewrite !lookup_insert_ne by done. apply Hs.
Qed.

Lemma MDMCredential_same db s dev :
  same_store db s → SS_MDMCredential dev (mkConn db []) = (mkConn db [], GetMDMCredential dev s).
Proof.
  intros Hs. unfold SS_MDMCredential, GetMDMCredential, read_key, query_, call. cbn [c_replies c_db].
  rewrite (sm_cred _ _ Hs). by destruct (t_credentials db !! dev).
Qed.
End store.
