(* ===== verification/SqlStoreTheorems.v ===== *)
(** * Theorems about the SQL store

    The SQL store cannot be told from the in-memory store by its answers; the
    agent tokens, the push channels and the credential migration do what their
    comments promise. *)
From stdpp Require Import base gmap strings list sorting.
From Stdlib Require Import ZArith Lia Ascii Sorted.
From S2P Require Import Prelude GoStrings SyncmlAuth GoCrypto Paging StateStore MdmAuth EnrollTypes Storage MdmQueue.
From S2P Require Import SqlBase SqlQueue SqlQueueProofs SqlStore SqlStoreProofs.

Local Open Scope Z_scope.
Local Open Scope go_scope.

(** ** storage.Store and storage.CredentialStore *)

Inductive store_call :=
  | Call_Create (e : option Enrollment)
  | Call_Get (deviceID : string)
  | Call_GetBySerial (serial : string)
  | Call_GetByThumbprint (thumbprint : string)
  | Call_ListByHWDevID (hwDevID : string)
  | Call_SetState (serial : string) (state : EState) (at_ : Time)
  | Call_TouchLastSeen (serial : string) (at_ : Time)
  | Call_List (q : EnrollmentQuery) (p : Page)
  | Call_PutCertificate (c : option Certificate)
  | Call_Certificate (serial : string)
  | Call_CertificateByThumbprint (thumbprint : string)
  | Call_Revoke (serial : string) (at_ : Time)
  | Call_ListCertificates (q : CertificateQuery) (p : Page)
  | Call_PutMDMCredential (c : MDMCredential)
  | Call_MDMCredential (deviceID : string).

Inductive store_answer :=
  | Answer_unit
  | Answer_enrollment (e : Enrollment)
  | Answer_enrollments (es : list Enrollment)
  | Answer_page (p : PageResult Enrollment)
  | Answer_certificate (c : Certificate)
  | Answer_certificates (p : PageResult Certificate)
  | Answer_credential (c : MDMCredential).

(** An answer wrapped, and a method that only reads. *)
Definition answering {S A} (f : A → store_answer) (m : M S A) : M S store_answer := let! a := m in ret (f a).
Definition reading {S A} (f : A → store_answer) (m : S → result A) : M S store_answer := answering f (λ s, (s, m s)).
Definition done_ (_ : unit) : store_answer := Answer_unit.

Definition run_inmem (c : store_call) : M Store store_answer :=
  match c with
  | Call_Create e => answering done_ (Create e)
  | Call_Get d => reading Answer_enrollment (Get d)
  | Call_GetBySerial k => reading Answer_enrollment (GetBySerial k)
  | Call_GetByThumbprint th => reading Answer_enrollment (GetByThumbprint th)
  | Call_ListByHWDevID hw => reading Answer_enrollments (ListByHWDevID hw)
  | Call_SetState k st at_ => answering done_ (SetState k st at_)
  | Call_TouchLastSeen k at_ => answering done_ (TouchLastSeen k at_)
  | Call_List q p => reading Answer_page (ListEnrollments q p)
  | Call_PutCertificate c => answering done_ (PutCertificate c)
  | Call_Certificate k => reading Answer_certificate (GetCertificate k)
  | Call_CertificateByThumbprint th => reading Answer_certificate (CertificateByThumbprint th)
  | Call_Revoke k at_ => answering done_ (Revoke k at_)
  | Call_ListCertificates q p => reading Answer_certificates (ListCertificates q p)
  | Call_PutMDMCredential c => answering done_ (PutMDMCredential c)
  | Call_MDMCredential d => reading Answer_credential (GetMDMCredential d)
  end.

(** Calls one after the other, with their answers. *)
Fixpoint run_calls {S} (run : store_call → M S store_answer) (calls : list store_call) (s : S)
    : S * list (result store_answer) :=
  match calls with
  | [] => (s, [])
  | c :: calls => let '(s, r) := run c s in let '(s, rs) := run_calls run calls s in (s, r :: rs)
  end.

Section store.
Context `{StoreCodecLaws} (ctx : option error).

Definition run_sql (c : store_call) : M Conn store_answer :=
  match c with
  | Call_Create e => answering done_ (SS_Create ctx e)
  | Call_Get d => answering Answer_enrollment (SS_Get d)
  | Call_GetBySerial k => answering Answer_enrollment (SS_GetBySerial k)
  | Call_GetByThumbprint th => answering Answer_enrollment (SS_GetByThumbprint th)
  | Call_ListByHWDevID hw => answering Answer_enrollments (SS_ListByHWDevID hw)
  | Call_SetState k st at_ => answering done_ (SS_SetState ctx k st at_)
  | Call_TouchLastSeen k at_ => answering done_ (SS_TouchLastSeen k at_)
  | Call_List q p => answering Answer_page (SS_List q p)
  | Call_PutCertificate c => answering done_ (SS_PutCertificate ctx c)
  | Call_Certificate k => answering Answer_certificate (SS_Certificate k)
  | Call_CertificateByThumbprint th => answering Answer_certificate (SS_CertificateByThumbprint th)
  | Call_Revoke k at_ => answering done_ (SS_Revoke k at_)
  | Call_ListCertificates q p => answering Answer_certificates (SS_ListCertificates q p)
  | Call_PutMDMCredential c => answering done_ (SS_PutMDMCredential c)
  | Call_MDMCredential d => answering Answer_credential (SS_MDMCredential d)
  end.

(** The times of a call are zero or between 1970 and 2262, and the context of an
    enrollment can be marshalled. *)
Definition call_ok (c : store_call) : Prop :=
  match c with
  | Call_Create (Some e) => enr_recent e
  | Call_PutCertificate (Some c) => cert_recent c
  | Call_SetState _ _ at_ | Call_TouchLastSeen _ at_ | Call_Revoke _ at_ => recent at_
  | Call_ListCertificates q _ => recent (cq_ExpiresBefore q)
  | _ => True
  end.

(** How many records there are. *)
Definition records (s : Store) : nat := (size (st_enrollments s) + size (st_certs s))%nat.

Lemma answering_same {A} (f : A → store_answer) (m : M Conn A) (k : M Store A) db s :
  (∃ db' s' r, m (mkConn db []) = (mkConn db' [], r) ∧ k s = (s', r) ∧ same_store db' s') →
  ∃ db' s' r, answering f m (mkConn db []) = (mkConn db' [], r) ∧ answering f k s = (s', r) ∧ same_store db' s'.
Proof.
  intros (db' & s' & r & E1 & E2 & Hs). unfold answering, bind. rewrite E1, E2.
  destruct r; do 3 eexists; split_and!; done.
Qed.

Lemma reading_same {A} (f : A → store_answer) (m : M Conn A) (k : Store → result A) db s :
  same_store db s → m (mkConn db []) = (mkConn db [], k s) →
  ∃ db' s' r, answering f m (mkConn db []) = (mkConn db' [], r) ∧ reading f k s = (s', r) ∧ same_store db' s'.
Proof. intros Hs E. apply answering_same. by exists db, s, (k s). Qed.

Lemma call_same db s c :
  same_store db s → call_ok c → Z.of_nat (records s) ≤ max_int64 →
  ∃ db' s' r, run_sql c (mkConn db []) = (mkConn db' [], r) ∧ run_inmem c s = (s', r) ∧ same_store db' s'.
Proof.
  intros Hs Hc Hmax. unfold records in Hmax. destruct c; cbn [run_sql run_inmem];
    first [apply reading_same; [done|]|apply answering_same].
  - destruct (Create_same ctx db s e Hs) as (db' & s' & r & ? & ? & ? & _); [by intros x ->|eauto 8].
  - by apply Get_same.
  - by apply GetBySerial_same.
  - by apply GetByThumbprint_same.
  - by apply ListByHWDevID_same.
  - destruct (SetState_same ctx db s serial state at_ Hs Hc) as (db' & s' & r & ? & ? & ? & _). eauto 8.
  - by apply TouchLastSeen_same.
  - apply List_same; [done|lia].
  - apply PutCertificate_same; [done|]. by intros x ->.
  - by apply Certificate_same.
  - by apply CertificateByThumbprint_same.
  - by apply Revoke_same.
  - apply ListCertificates_same; [done|done|lia].
  - by apply PutMDMCredential_same.
  - by apply MDMCredential_same.
Qed.

Lemma answering_state {S A} (f : A → store_answer) (m : M S A) s : (answering f m s).1 = (m s).1.
Proof. unfold answering, bind. by destruct (m s) as [? []]. Qed.

Lemma size_insert_le {A} (m : gmap string A) k a : (size (<[k := a]> m) ≤ S (size m))%nat.
Proof. rewrite map_size_insert. destruct (m !! k); cbn; lia. Qed.

(** A call adds one record at most. *)
Lemma call_grows c s : store_inv s → (records (run_inmem c s).1 ≤ S (records s))%nat.
Proof.
  intros Hi. destruct c; cbn [run_inmem]; unfold reading; rewrite answering_state; try (cbn [fst]; lia).
  - destruct (Create e s) as [s' [[]|err]] eqn:E; cbn [fst].
    + destruct e as [e|]; [|done]. apply Create_Ok in E as (_ & _ & ->). unfold records. cbn.
      rewrite supersede_same by done.
      pose proof (size_insert_le
        ((λ x, if is_active (e_DeviceID e) x then set_estate StateSuperseded (e_EnrolledAt e) x else x) <$> st_enrollments s)
        (e_Serial e) (set_estate StateActive (e_EnrolledAt e) e)) as Hle.
      rewrite map_size_fmap in Hle. lia.
    + apply Create_Err in E as ->. lia.
  - destruct (EState_Valid state) eqn:Hv; [|unfold SetState; rewrite Hv; cbn; lia].
    destruct (st_enrollments s !! serial) as [e|] eqn:Ee; [|unfold SetState; rewrite Hv, Ee; cbn; lia].
    destruct (SetState_map s serial state at_ e Hi Hv Ee) as (H1 & H2 & _). unfold records. rewrite H1, H2, map_size_fmap.
    case_decide; rewrite ?map_size_fmap; lia.
  - destruct (st_enrollments s !! serial) as [e|] eqn:Ee; [|unfold TouchLastSeen; rewrite Ee; cbn; lia].
    destruct (TouchLastSeen_map s serial at_ e Hi Ee) as (H1 & H2 & _). unfold records. rewrite H1, H2, map_size_fmap. lia.
  - destruct c as [c|]; [|cbn; lia]. destruct (PutCertificate (Some c) s) as [s' r] eqn:E.
    apply PutCertificate_frame in E as (H1 & _ & H2). cbn [fst]. destruct r; [|subst; lia]. unfold records.
    rewrite H1, H2. pose proof (size_insert_le (st_certs s) (c_Serial c) c). lia.
  - destruct (st_certs s !! serial) as [c|] eqn:Ee; [|unfold Revoke; rewrite Ee; cbn; lia].
    destruct (Revoke_map s serial at_ c Hi Ee) as (H1 & H2 & _). unfold records. rewrite H1, H2, map_size_fmap. lia.
  - unfold PutMDMCredential. case_decide; cbn; unfold records; cbn; lia.
Qed.

(** C26: The SQL store answers every sequence of storage.Store and
    storage.CredentialStore calls exactly as the in-memory store does, errors
    included, over a database that carries out its calls: with the times of the
    calls between 1970 and 2262 and contexts that marshal. *)
Theorem sql_store_equivalent calls :
  Forall call_ok calls → zlength calls ≤ max_int64 →
  (run_calls run_sql calls (mkConn empty_db [])).2 = (run_calls run_inmem calls New).2.
Proof.
  intros Hok Hlen.
  assert (same_store empty_db New) as Hs.
  { constructor; [apply New_inv|apply holds_nil|apply holds_nil|done]. }
  assert (Z.of_nat (records New) + zlength calls ≤ max_int64) as Hmax by done. clear Hlen.
  revert Hs Hmax. generalize empty_db New. unfold zlength. induction Hok as [|c calls Hc _ IH]; intros db s Hs Hmax; [done|].
  cbn [length] in Hmax. destruct (call_same db s c Hs Hc) as (db' & s' & r & E1 & E2 & Hs'); [lia|].
  pose proof (call_grows c s (sm_inv _ _ Hs)) as Hg. rewrite E2 in Hg. cbn [fst] in Hg.
  specialize (IH db' s' Hs'). cbn [run_calls]. rewrite E1, E2.
  destruct (run_calls run_sql calls (mkConn db' [])) as [? rs1], (run_calls run_inmem calls s') as [? rs2].
  cbn [snd] in *. f_equal. apply IH. lia.
Qed.

(** ** Agent tokens *)

Lemma raw_url_len s : len (raw_url s) ≤ len s.
Proof.
  induction s as [|c s IH]; [done|]. cbn [raw_url]. unfold len in *. cbn [String.length].
  destruct (Ascii.eqb c "="); cbn [String.length]; lia.
Qed.

Lemma b64_len s : len (b64_encode s) ≤ 4 * len s.
Proof.
  induction s as [|a|a b|a b c s IH] using string_ind3; [done..|]. unfold len in *. cbn [b64_encode String.length] in *. lia.
Qed.

Lemma raw_url_nonempty raw : raw ≠ "" → b64_raw_url raw ≠ "".
Proof.
  assert (∀ v s, 0 ≤ v < 64 → raw_url (String (b64_char v) s) ≠ "") as Hv.
  { intros v s Hv. destruct (b64_char_ok v Hv) as [_ Hp]. cbn [raw_url]. unfold is_pad in Hp. by rewrite Hp. }
  unfold b64_raw_url. destruct raw as [|a [|b [|c raw]]]; [done|..]; intros _; cbn [b64_encode]; apply Hv;
    pose proof (byte_val_range a); try pose proof (byte_val_range b); try pose proof (byte_val_range c);
    (split; [apply Z.div_pos|apply Z.div_lt_upper_bound]; lia).
Qed.

(** The newest command of the users that waits to be delivered, if any. *)
Definition newest (dev : string) (db : DB) (id : string) : Prop :=
  (id = "" ∧ ∀ r, r ∈ t_commands db → outstanding dev r = false) ∨
  ∃ r, r ∈ t_commands db ∧ outstanding dev r = true ∧ cr_id r = id ∧
    ∀ r', r' ∈ t_commands db → outstanding dev r' = true → cr_seq r' ≤ cr_seq r.

Lemma newest_row dev db :
  ∃ res, sql_row (λ _, true) (merge_sort seq_ge (List.filter (outstanding dev) (t_commands db))) = res ∧
  match res with Ok r => newest dev db (cr_id r) | Err e => e = [sql_ErrNoRows] ∧ newest dev db "" end.
Proof.
  eexists. split; [done|]. assert (Transitive seq_ge) by (intros ???; unfold seq_ge; lia).
  assert (Total seq_ge) by (intros ??; unfold seq_ge; lia).
  pose proof (StronglySorted_merge_sort seq_ge (List.filter (outstanding dev) (t_commands db))) as Hs.
  pose proof (merge_sort_Permutation seq_ge (List.filter (outstanding dev) (t_commands db))) as Hp.
  destruct (merge_sort seq_ge _) as [|r l]; unfold sql_row; cbn.
  - split; [done|]. left. split; [done|]. intros r Hr. destruct (outstanding dev r) eqn:E; [|done]. exfalso.
    apply Permutation_nil_l in Hp. assert (In r (List.filter (outstanding dev) (t_commands db))) as Hin
      by (apply filter_In; split; [by apply list_elem_of_In|done]). by rewrite <- Hp in Hin.
  - right. assert (∀ x, x ∈ r :: l ↔ x ∈ t_commands db ∧ outstanding dev x = true) as Hin.
    { intros x. rewrite Hp, list_elem_of_In, filter_In, <- list_elem_of_In. done. }
    exists r. destruct (proj1 (Hin r)) as [? ?]; [by left|]. split_and!; try done. intros r' Hr' Ho.
    pose proof (proj2 (Hin r') (conj Hr' Ho)) as [->|Hx]%elem_of_cons; [done|].
    inversion Hs as [|? ? _ Hf]; subst. rewrite Forall_forall in Hf. by apply Hf.
Qed.

Lemma same_store_tokens db s t : same_store db s → same_store (set_tokens t db) s.
Proof. intros []. by constructor. Qed.

(** AgentWake, written out. *)
Lemma AgentWake_run db s dev t :
  same_store db s →
  ∃ res, SS_AgentWake dev t (mkConn db []) = (mkConn db [], res) ∧
  match res with
  | Err e => e = [storage_ErrNotFound]
  | Ok id => newest dev db id
  end ∧
  ((∃ id, res = Ok id) ↔ t ≠ "" ∧ len t ≤ 128 ∧
    ∃ e r, Get dev s = Ok e ∧ t_tokens db !! dev = Some r ∧ ar_serial r = e_Serial e ∧ ar_token_hash r = token_hash t).
Proof.
  intros Hs. unfold SS_AgentWake.
  assert (∀ (P : Prop), ¬ P → (∃ id : string, Err (A := string) [storage_ErrNotFound] = Ok id) ↔ P) as Hno.
  { intros P HP. split; [by intros [? ?]|done]. }
  case_decide as Ht; [eexists; split_and!; [done|done|apply Hno; intros (? & ? & _); destruct Ht; [done|lia]]|].
  unfold bind at 1. rewrite Get_same with (s := s) by done.
  destruct (Get_cases s dev (sm_inv _ _ Hs)) as [[e He]|He]; rewrite He.
  2: { eexists; split_and!; [done|done|apply Hno]. by intros (_ & _ & ? & ? & ? & _). }
  unfold bind, read_key, query_, call. cbn [c_replies c_db].
  destruct (t_tokens db !! dev) as [r|] eqn:Er.
  2: { eexists; split_and!; [done|done|apply Hno]. by intros (_ & _ & ? & ? & ? & ? & _). }
  apply Get_active in He as (_ & _ & Hst); [|apply Hs].
  assert (t ≠ "" ∧ len t ≤ 128) as [Ht1 Ht2].
  { split; [intros ->; apply Ht; by left|]. apply Z.nlt_ge. intros ?. apply Ht. by right. }
  case_decide as Hd.
  { eexists; split_and!; [done|done|apply Hno]. intros (_ & _ & e' & r' & [= <-] & [= <-] & Hse & Hha).
    destruct Hd as [?|[?|Hh]]; [done|done|]. by apply Hh. }
  assert (ar_serial r = e_Serial e ∧ ar_token_hash r = token_hash t) as [Hse Hha].
  { split; [destruct (decide (ar_serial r = e_Serial e)) as [|Hx]; [done|]; exfalso; apply Hd; by right; left|].
    destruct (decide (token_hash t = ar_token_hash r)) as [|Hx]; [done|]. exfalso. apply Hd. by right; right. }
  cbn [c_replies c_db]. destruct (newest_row dev db) as ([row|err] & -> & Hn); [|destruct Hn as [-> Hn]];
    (eexists; split_and!; [done|done|]; split; [|eauto]); intros _; split_and!; try done; by exists e, r.
Qed.

Lemma IssueAgentToken_run db s dev raw now :
  same_store db s →
  SS_IssueAgentToken ctx dev (Ok raw) now (mkConn db []) =
  match Get dev s with
  | Err e => (mkConn db [], Err e)
  | Ok e =>
      let row := mkTokenRow (e_Serial e) (token_hash (b64_raw_url raw)) (nanos now) in
      (mkConn (set_tokens (<[dev := row]> (delete dev (t_tokens db))) db) [], Ok (b64_raw_url raw))
  end.
Proof.
  intros Hs. unfold SS_IssueAgentToken. unfold bind at 1. rewrite Get_same with (s := s) by done.
  destruct (Get dev s) as [e|err] eqn:He; [|done]. apply Get_active in He as (_ & _ & Hst); [|apply Hs].
  rewrite decide_False by (intros Hx; by apply Hx). unfold bind at 1, lift. cbn iota beta.
  set (row := mkTokenRow (e_Serial e) (token_hash (b64_raw_url raw)) (nanos now)).
  match goal with |- context [tx_ ctx ?f] =>
    assert (f (mkConn db []) = (mkConn (set_tokens (<[dev := row]> (delete dev (t_tokens db))) db) [], Ok tt)) as E end.
  { unfold bind, call. cbn [c_replies c_db]. cbn [t_tokens set_tokens]. by rewrite lookup_delete_eq. }
  unfold bind at 1. rewrite (tx_sound ctx _ _ _ _ E) by done. done.
Qed.

(** C28: The agent credential is bound to the current enrollment.  Right after a
    token is issued the device's agent is let in with it and told the newest
    user command that waits for delivery (or that there is none); every string
    with another digest is refused, so earlier tokens are; and once the device
    enrolls again, or its enrollment leaves the active state, no token is
    accepted. *)
Theorem agent_token_current db s dev raw now db1 token :
  same_store db s → len raw = 32 →
  SS_IssueAgentToken ctx dev (Ok raw) now (mkConn db []) = (mkConn db1 [], Ok token) →
  (∃ id, SS_AgentWake dev token (mkConn db1 []) = (mkConn db1 [], Ok id) ∧ newest dev db1 id) ∧
  (∀ t, token_hash t ≠ token_hash token →
    SS_AgentWake dev t (mkConn db1 []) = (mkConn db1 [], Err [storage_ErrNotFound])) ∧
  (∀ e db2 t, enr_recent e → e_DeviceID e = dev →
    SS_Create ctx (Some e) (mkConn db1 []) = (mkConn db2 [], Ok tt) →
    SS_AgentWake dev t (mkConn db2 []) = (mkConn db2 [], Err [storage_ErrNotFound])) ∧
  (∀ e st at_ db2 t, SS_Get dev (mkConn db1 []) = (mkConn db1 [], Ok e) → st ≠ StateActive → recent at_ →
    SS_SetState ctx (e_Serial e) st at_ (mkConn db1 []) = (mkConn db2 [], Ok tt) →
    SS_AgentWake dev t (mkConn db2 []) = (mkConn db2 [], Err [storage_ErrNotFound])).
Proof.
  intros Hs Hlen. rewrite (IssueAgentToken_run db s) by done. destruct (Get dev s) as [e0|err] eqn:He; [|done].
  set (row := mkTokenRow (e_Serial e0) (token_hash (b64_raw_url raw)) (nanos now)).
  set (t1 := <[dev := row]> (delete dev (t_tokens db))). intros E1.
  assert (db1 = set_tokens t1 db) as -> by (by injection E1). assert (token = b64_raw_url raw) as -> by congruence. clear E1.
  pose proof (same_store_tokens db s t1 Hs) as Hs1.
  assert (t_tokens (set_tokens t1 db) !! dev = Some row) as Hrow by apply lookup_insert_eq.
  assert (∀ db2 s2 t, same_store db2 s2 → t_tokens db2 = t1 →
    (∀ e, Get dev s2 = Ok e → e_Serial e ≠ e_Serial e0) →
    SS_AgentWake dev t (mkConn db2 []) = (mkConn db2 [], Err [storage_ErrNotFound])) as Hgone.
  { intros db2 s2 t Hs2 Ht Hne. destruct (AgentWake_run db2 s2 dev t Hs2) as ([id|err] & -> & Hr & Hiff); [|by rewrite Hr].
    exfalso. destruct (proj1 Hiff ltac:(eauto)) as (_ & _ & e & r & Hg & Hrow2 & Hser & _). rewrite Ht in Hrow2.
    unfold t1 in Hrow2. rewrite lookup_insert_eq in Hrow2. injection Hrow2 as <-. by apply (Hne e). }
  split_and!.
  - destruct (AgentWake_run (set_tokens t1 db) s dev (b64_raw_url raw) Hs1) as (res & -> & Hr & Hiff).
    destruct (proj2 Hiff) as [id ->]; [|eauto]. split_and!.
    + apply raw_url_nonempty. intros ->. done.
    + unfold b64_raw_url. pose proof (raw_url_len (b64_encode raw)). pose proof (b64_len raw). lia.
    + exists e0, row. done.
  - intros t Ht. destruct (AgentWake_run (set_tokens t1 db) s dev t Hs1) as ([id|err] & -> & Hr & Hiff); [|by rewrite Hr].
    exfalso. destruct (proj1 Hiff ltac:(eauto)) as (_ & _ & e & r & _ & Hr2 & _ & Hh). rewrite Hrow in Hr2.
    injection Hr2 as <-. by apply Ht.
  - intros e db2 t Hrec Hdev E. destruct (Create_same ctx _ s (Some e) Hs1) as (db2' & s2 & r & E' & Em & Hs2 & Ht2);
      [by intros x [= <-]|]. rewrite E in E'. injection E' as <- <-. apply (Hgone db2 s2); [done|done|].
    intros x Hx. apply Create_Ok in Em as (_ & Hnone & ->).
    apply Get_active in He as (Hin & _ & _); [|apply Hs]. unfold Get, deref in Hx. cbn in Hx.
    rewrite Hdev, !lookup_insert_eq in Hx. injection Hx as <-. cbn. congruence.
  - intros e st at_ db2 t Hget Hst Hrec E. rewrite (Get_same _ s) in Hget by done. injection Hget as Hget.
    rewrite He in Hget. injection Hget as <-.
    destruct (SetState_same ctx _ s (e_Serial e0) st at_ Hs1 Hrec) as (db2' & s2 & r & E' & Em & Hs2 & Ht2).
    rewrite E in E'. injection E' as <- <-. apply (Hgone db2 s2); [done|done|].
    intros x Hx Hser. apply Get_active in Hx as (Hin & _ & Hact); [|apply Hs2].
    apply Get_active in He as (Hin0 & _ & _); [|apply Hs].
    assert (EState_Valid st = true) as Hv.
    { unfold SetState in Em. by destruct (EState_Valid st). }
    destruct (SetState_map s (e_Serial e0) st at_ e0 (sm_inv _ _ Hs) Hv Hin0) as (Hm & _).
    rewrite Em in Hm. cbn [fst] in Hm. rewrite Hser, Hm, decide_False, lookup_fmap, Hin0 in Hin by done.
    cbn in Hin. rewrite bool_decide_eq_true_2 in Hin by done. by injection Hin as <-.
Qed.
End store.

(** ** Facts and events *)

(** Facts answers what the last PutFacts wrote, whatever was recorded before:
    values that were not reported again are gone, not merged. *)
Theorem facts_replaced `{StoreCodecLaws} f b db :
  f_DeviceID f ≠ "" → marshal_DevInfo (f_DevInfo f) = Ok b → recent (f_UpdatedAt f) →
  ∃ db', SS_PutFacts f (mkConn db []) = (mkConn db' [], Ok tt) ∧
    SS_Facts (f_DeviceID f) (mkConn db' []) = (mkConn db' [], Ok f) ∧
    ∀ d, d ≠ f_DeviceID f → t_facts db' !! d = t_facts db !! d.
Proof.
  intros Hne Hm Ht. unfold SS_PutFacts. rewrite decide_False by done. unfold bind, lift. rewrite Hm, call_sound.
  eexists. split; [done|]. unfold SS_Facts, read_key, query_, call. cbn [c_replies c_db t_facts set_facts].
  rewrite lookup_insert_eq. split; [|intros d Hd; by rewrite lookup_insert_ne].
  destruct (devinfo_roundtrip _ _ Hm) as [Hb Hu]. unfold scanFacts. cbn [fr_devinfo].
  destruct (Z.ltb_spec 0 (len b)) as [_|Hl].
  - rewrite Hu. cbn. rewrite recent_roundtrip by done. by destruct f.
  - exfalso. apply Hb, len_0. pose proof (len_nonneg b). lia.
Qed.

Definition event_lt (a b : EventRow) : Prop := vr_id a < vr_id b.
(** Ids grow with the log. *)
Definition log_ok (db : DB) : Prop :=
  StronglySorted event_lt (t_events db) ∧ Forall (λ r, vr_id r ≤ t_event_id db) (t_events db).

Lemma filter_sorted {A} (R : relation A) w l : StronglySorted R l → StronglySorted R (List.filter w l).
Proof.
  induction 1 as [|a l _ IH Hf]; [constructor|]. cbn [List.filter]. destruct (w a); [|done]. constructor; [done|].
  rewrite Forall_forall in *. intros x Hx. apply Hf. apply list_elem_of_In, filter_In in Hx as [Hx _]. by apply list_elem_of_In.
Qed.

Lemma sorted_trichotomy l a b : StronglySorted event_lt l → a ∈ l → b ∈ l → a = b ∨ event_lt a b ∨ event_lt b a.
Proof.
  induction 1 as [|x l _ IH Hf]; [by intros ?%not_elem_of_nil|]. rewrite Forall_forall in Hf.
  intros [->|Ha]%elem_of_cons [->|Hb]%elem_of_cons; auto.
Qed.

Lemma sort_events l : StronglySorted event_lt l → merge_sort event_le l = l.
Proof.
  intros Hs. apply (StronglySorted_unique_strong event_le).
  - intros a b Ha Hb Hab Hba. rewrite merge_sort_Permutation in Ha.
    destruct (sorted_trichotomy l a b Hs Ha Hb) as [?|[?|?]]; unfold event_lt, event_le in *; [done|lia..].
  - apply StronglySorted_merge_sort; [intros a b c; unfold event_le; lia|intros a b; unfold event_le; lia].
  - clear -Hs. induction Hs as [|a l _ IH Hf]; constructor; [done|]. eapply Forall_impl; [exact Hf|].
    unfold event_lt, event_le. intros; lia.
  - apply merge_sort_Permutation.
Qed.

(** The event log only grows, in order: after LogEvent the device's events are
    those before followed by the new one. *)
Theorem events_append dev kind blob now db :
  log_ok db → t_event_id db < max_int64 → recent now →
  ∃ db' before id, SS_LogEvent dev kind (Ok blob) now (mkConn db []) = (mkConn db' [], Ok tt) ∧ log_ok db' ∧
    SS_Events dev 0 (mkConn db []) = (mkConn db [], Ok before) ∧
    SS_Events dev 0 (mkConn db' []) = (mkConn db' [], Ok (before ++ [mkEvent id dev kind blob now])).
Proof.
  intros [Hs Hf] Hmax Ht. unfold SS_LogEvent, bind, lift. rewrite call_sound. unfold bigint_succ.
  destruct (Z.eqb_spec (t_event_id db) max_int64); [lia|].
  set (row := mkEventRow (t_event_id db + 1) dev kind blob (nanos now)).
  set (db' := set_events (t_events db ++ [row]) (t_event_id db + 1) db).
  assert (log_ok db') as Hl'.
  { split; cbn.
    - clear -Hs Hf. induction Hs as [|x l _ IH Hx]; [repeat constructor|]. apply Forall_cons in Hf as [Hx' Hf].
      cbn. constructor; [by apply IH|]. apply Forall_app. split; [done|]. constructor; [|constructor].
      unfold event_lt. cbn. lia.
    - apply Forall_app. split; [|constructor; [cbn; lia|constructor]]. eapply Forall_impl; [exact Hf|]. cbn. lia. }
  assert (∀ db0, log_ok db0 → SS_Events dev 0 (mkConn db0 []) = (mkConn db0 [], Ok (map (λ r,
    mkEvent (vr_id r) (vr_device_id r) (vr_kind r) (vr_detail r) (fromNanos (vr_at r)))
    (List.filter (λ r, bool_decide (vr_device_id r = dev)) (t_events db0))))) as Hev.
  { intros db0 [Hs0 _]. unfold SS_Events, bind, query_, call, lift. cbn [c_replies c_db]. f_equal. unfold sql_limit. cbn [Z.ltb Z.compare].
    rewrite sort_events by by apply filter_sorted. clear. induction (List.filter _ _) as [|r l IH]; [done|].
    cbn [scan_rows map]. by rewrite IH. }
  exists db'. do 2 eexists. split_and!; [done|done|by apply Hev|]. rewrite Hev by done. cbn [t_events db' set_events].
  rewrite List.filter_app, map_app. cbn. rewrite bool_decide_eq_true_2 by done. cbn. rewrite recent_roundtrip by done. done.
Qed.

(** ** Push channels *)

Inductive push_call :=
  | Push_Observe (uri status : option string) (at_ : Time)
  | Push_Dead (uri : string).

Definition run_push (serial : string) (c : push_call) : M Conn unit :=
  match c with
  | Push_Observe uri status at_ => SS_ObservePush serial uri status at_
  | Push_Dead uri => SS_MarkPushDead serial uri
  end.

Definition with_status (status : option string) (c : PushChannel) : PushChannel :=
  match status with
  | Some st => mkPushChannel (pc_Serial c) (pc_URI c) (pc_FirstSeen c) (pc_ObservedAt c) (pc_Dead c) st
  | None => c
  end.
(** A URI was read: an older reading changes nothing, the same URI keeps its age
    and its death, a new one is born now. *)
Definition seen_uri (u : string) (at_ : Time) (c : PushChannel) : PushChannel :=
  if at_ <? pc_ObservedAt c then c
  else if decide (u = pc_URI c) then
    mkPushChannel (pc_Serial c) u (pc_FirstSeen c) at_ (pc_Dead c) (pc_Status c)
  else mkPushChannel (pc_Serial c) u at_ at_ false (pc_Status c).
Definition push_spec (serial : string) (c : option PushChannel) (call : push_call) : option PushChannel :=
  match call with
  | Push_Observe uri status at_ =>
      let c := default (mkPushChannel serial "" 0 0 false "") c in
      Some (with_status status (match uri with Some u => seen_uri u at_ c | None => c end))
  | Push_Dead u =>
      match c with
      | Some c => Some (if decide (u = pc_URI c) then
          mkPushChannel (pc_Serial c) (pc_URI c) (pc_FirstSeen c) (pc_ObservedAt c) true (pc_Status c) else c)
      | None => None
      end
  end.

Definition push_uris (c : push_call) : list string :=
  match c with Push_Observe (Some u) _ _ => [u] | Push_Observe None _ _ => [] | Push_Dead u => [u] end.
Definition push_time (c : push_call) : Prop := match c with Push_Observe _ _ at_ => recent at_ | Push_Dead _ => True end.

(** The row of a channel. *)
Definition push_row (c : PushChannel) : PushRow :=
  mkPushRow (pc_URI c) (pushURIHash (pc_URI c)) (nanos (pc_FirstSeen c)) (nanos (pc_ObservedAt c)) (boolInt (pc_Dead c))
    (pc_Status c).
Record channel_ok (serial : string) (uris : list string) (c : PushChannel) : Prop := mk_channel_ok {
  co_serial : pc_Serial c = serial;
  co_uri : pc_URI c ∈ uris;
  co_first : recent (pc_FirstSeen c);
  co_observed : recent (pc_ObservedAt c) }.

#[local] Opaque pushURIHash.

Lemma scan_push_row serial uris c : channel_ok serial uris c → scanPush serial (push_row c) = c.
Proof.
  intros [Hs _ H1 H2]. unfold scanPush, push_row. cbn. rewrite !recent_roundtrip, boolInt_neq by done.
  destruct c; cbn in *; by subst.
Qed.

Lemma recent_le a b : recent a → recent b → (nanos a <=? nanos b) = negb (b <? a).
Proof. intros Ha Hb. rewrite Z.leb_antisym. f_equal. by apply recent_lt. Qed.

Section push.
Context (serial : string) (uris : list string).
Context (Hinj : ∀ u v, u ∈ uris → v ∈ uris → pushURIHash u = pushURIHash v → u = v) (Hempty : "" ∈ uris).

Lemma hash_decide u v : u ∈ uris → v ∈ uris → pushURIHash v = pushURIHash u ↔ u = v.
Proof. intros Hu Hv. split; [intros E; symmetry; by apply Hinj|by intros ->]. Qed.

Lemma observed_same u at_ c :
  u ∈ uris → recent at_ → channel_ok serial uris c →
  observed_row u at_ (push_row c) = push_row (seen_uri u at_ c) ∧ channel_ok serial uris (seen_uri u at_ c).
Proof.
  intros Hu Ha [Hs Hc H1 H2]. unfold observed_row, seen_uri. cbn [push_row pr_observed_at pr_uri_hash]. rewrite recent_le by done.
  destruct (at_ <? pc_ObservedAt c); cbn [negb]; [by split|].
  pose proof (hash_decide u (pc_URI c) Hu Hc) as Hd. destruct (decide (u = pc_URI c)) as [->|Hne].
  - rewrite !decide_True by done. by split.
  - rewrite !decide_False by (by rewrite Hd). split; [done|]. by constructor.
Qed.

Lemma push_call_same db ch call :
  (∀ u, u ∈ push_uris call → u ∈ uris) → push_time call →
  t_push db !! serial = push_row <$> ch → (∀ c, ch = Some c → channel_ok serial uris c) →
  ∃ db', run_push serial call (mkConn db []) = (mkConn db' [], Ok tt) ∧
    t_push db' !! serial = push_row <$> push_spec serial ch call ∧
    (∀ c, push_spec serial ch call = Some c → channel_ok serial uris c).
Proof.
  intros Hu Ht Hrow Hok. destruct call as [uri status at_|u]; cbn [run_push push_spec].
  - set (c0 := default (mkPushChannel serial "" 0 0 false "") ch).
    assert (channel_ok serial uris c0) as Hc0.
    { unfold c0. destruct ch as [c|]; [by apply Hok|]. constructor; [done|done|by left|by left]. }
    set (c1 := match uri with Some u => seen_uri u at_ c0 | None => c0 end).
    assert (match uri with Some u => observed_row u at_ (push_row c0) | None => push_row c0 end = push_row c1 ∧
      channel_ok serial uris c1) as [Hr1 Hc1].
    { unfold c1. destruct uri as [u|]; [|done]. apply observed_same; [apply Hu; left|done|done]. }
    assert (partial_alter (λ r, match r with Some r => Some r | None => Some (mkPushRow "" (pushURIHash "") 0 0 0 "") end)
      serial (t_push db) !! serial = Some (push_row c0)) as Hi.
    { rewrite lookup_partial_alter_eq, Hrow. unfold c0. by destruct ch. }
    assert (channel_ok serial uris (with_status status c1)) as Hc2.
    { unfold with_status. destruct status; [|done]. destruct Hc1. by constructor. }
    unfold SS_ObservePush, bind, update_push. rewrite call_sound.
    destruct uri as [u|]; [rewrite call_sound|unfold ret]; (destruct status as [st|]; [rewrite call_sound|unfold ret]);
      (eexists; split; [done|]); (split; [|by intros c [= <-]]); cbn [t_push set_push];
      rewrite ?lookup_alter_eq, Hi; cbn [fmap option_fmap option_map]; first [done|by rewrite Hr1].
  - unfold SS_MarkPushDead, update_push. rewrite call_sound. eexists. split; [done|]. cbn [t_push set_push].
    rewrite lookup_alter_eq, Hrow. destruct ch as [c|]; [|done]. destruct (Hok c eq_refl) as [Hs Hc H1 H2].
    cbn [fmap option_fmap option_map]. unfold dead_row. cbn [push_row pr_uri_hash].
    pose proof (hash_decide u (pc_URI c)) as Hd. split.
    + f_equal. destruct (decide (u = pc_URI c)) as [->|Hne]; [by rewrite decide_True|].
      rewrite decide_False; [done|]. intros E. apply Hne, Hd; [apply Hu; left|done|done].
    + intros x [= <-]. destruct (decide (u = pc_URI c)); by constructor.
Qed.
End push.

(** The push channel of an enrollment follows the history of what was read
    and what failed: reading the same URI again moves only the time of the last
    reading, a new URI starts a live channel now, a reading older than the last
    one is ignored, and a failed URI kills the channel only while it is the
    current one; provided SHA-256 tells the URIs of the history apart. *)
Theorem push_channel_history serial calls :
  Forall push_time calls →
  (∀ u v, u ∈ "" :: concat (map push_uris calls) → v ∈ "" :: concat (map push_uris calls) →
     pushURIHash u = pushURIHash v → u = v) →
  ∃ db, mfor (run_push serial) calls (mkConn empty_db []) = (mkConn db [], Ok tt) ∧
    SS_PushChannel serial (mkConn db []) =
      (mkConn db [], match foldl (push_spec serial) None calls with Some c => Ok c | None => Err [sqlstore_ErrNotFound] end).
Proof.
  intros Ht Hinj. set (uris := "" :: concat (map push_uris calls)) in *.
  assert (∀ calls' db ch, Forall push_time calls' → (∀ u, u ∈ concat (map push_uris calls') → u ∈ uris) →
    t_push db !! serial = push_row <$> ch → (∀ c, ch = Some c → channel_ok serial uris c) →
    ∃ db', mfor (run_push serial) calls' (mkConn db []) = (mkConn db' [], Ok tt) ∧
      t_push db' !! serial = push_row <$> foldl (push_spec serial) ch calls' ∧
      (∀ c, foldl (push_spec serial) ch calls' = Some c → channel_ok serial uris c)) as Hrun.
  { induction calls' as [|c calls' IH]; intros db ch Hts Hus Hrow Hok; [by exists db|].
    apply Forall_cons in Hts as [Htc Hts]. cbn [map concat] in Hus.
    destruct (push_call_same serial uris Hinj ltac:(left) db ch c) as (db1 & E & Hrow1 & Hok1); [|done|done|done|].
    { intros u Hu. apply Hus. apply elem_of_app. by left. }
    cbn [mfor foldl]. rewrite (bind_run _ _ _ _ _ E). apply IH; [done| |done|done].
    intros u Hu. apply Hus. apply elem_of_app. by right. }
  destruct (Hrun calls empty_db None) as (db & E & Hrow & Hok); [done|intros u Hu; by right|done|done|].
  exists db. split; [done|]. unfold SS_PushChannel, read_key, query_, call. cbn [c_replies c_db]. rewrite Hrow.
  destruct (foldl _ _ _) as [c|]; [|done]. cbn. f_equal. f_equal. by apply (scan_push_row serial uris), Hok.
Qed.

(** ** The credential migration *)

Section migration.
Context (rand : string → Z → option string).

Definition legacy (r : CredentialRow) : bool :=
  bool_decide (kr_auth_type r = AuthBasicType) &&
  (negb (bool_decide (kr_basic_username r = "")) || negb (bool_decide (kr_basic_password r = ""))).
Definition legacy_rows (m : gmap string CredentialRow) : list (string * CredentialRow) :=
  List.filter (λ '(_, r), legacy r) (map_to_list m).
Definition hashed (kr : string * CredentialRow) : result (string * string) :=
  let '(dev, r) := kr in
  let? hash := HashBasicCredential (rand dev) (kr_basic_username r) (kr_basic_password r) in Ok (dev, hash).
Definition rehash (m : gmap string CredentialRow) (kh : string * string) : gmap string CredentialRow :=
  alter (migrate_row kh.2) kh.1 m.

(** What a committed migration has written. *)
Definition migrated (db db' : DB) : Prop :=
  ∃ l, scan_rows hashed (legacy_rows (t_credentials db)) = Ok l ∧
    t_credentials db' = foldl rehash (t_credentials db) l.

Lemma set_credentials_same db : set_credentials (t_credentials db) db = db.
Proof. by destruct db. Qed.

Lemma update_all {G} l (g : G) c g' c' :
  in_tx (mfor (λ '(dev, hash), call (λ db,
    (set_credentials (alter (migrate_row hash) dev (t_credentials db)) db, Ok tt))) l) (g, c) = ((g', c'), Ok tt) →
  c_db c' = set_credentials (foldl rehash (t_credentials (c_db c)) l) (c_db c).
Proof.
  unfold in_tx. revert c. induction l as [|[dev hash] l IH]; intros c; cbn [mfor foldl].
  { intros [= _ <-]. by rewrite set_credentials_same. }
  unfold bind, call. destruct (c_replies c) as [|[e|] reps] eqn:E; [| |]; intros Hr; try done;
    by apply IH in Hr.
Qed.

Lemma query_Ok {A} (f : DB → result A) c c' a : query_ f c = (c', Ok a) → c_db c' = c_db c ∧ f (c_db c) = Ok a.
Proof. unfold query_, call. destruct (c_replies c) as [|[e|] l]; by intros [= <- ?]. Qed.

Lemma migration_writes :
  writes (G := unit) (in_tx (let! credentials := legacyBasicCredentials rand in
    mfor (λ '(dev, hash), call (λ db,
      (set_credentials (alter (migrate_row hash) dev (t_credentials db)) db, Ok tt))) credentials)) migrated.
Proof.
  intros g c g' c' E. unfold in_tx in E. destruct (bind _ _ c) as [c2 r2] eqn:Eb. injection E as <- <- ->.
  apply bind_Ok in Eb as (c1 & l & El & Em). unfold legacyBasicCredentials in El.
  apply bind_Ok in El as (c0 & rows & Eq & [= -> Es]). apply query_Ok in Eq as [Hdb [= <-]].
  exists l. split; [done|]. rewrite <- Hdb.
  rewrite (update_all (G := unit) l tt c1 tt c2); [done|]. unfold in_tx. by rewrite Em.
Qed.

Lemma rehash_lookup l m dev :
  NoDup l.*1 →
  (∀ hash, (dev, hash) ∈ l → foldl rehash m l !! dev = migrate_row hash <$> m !! dev) ∧
  (dev ∉ l.*1 → foldl rehash m l !! dev = m !! dev).
Proof.
  revert m. induction l as [|[k h] l IH]; intros m Hn; [by split; [intros ? ?%not_elem_of_nil|]|].
  cbn [fmap list_fmap fst] in Hn. apply NoDup_cons in Hn as [Hk Hn]. specialize (IH (rehash m (k, h)) Hn) as [IH1 IH2].
  cbn [foldl]. split.
  - intros hash [E|Hin]%elem_of_cons.
    + injection E as E1 E2. subst k h. rewrite IH2 by done. unfold rehash. cbn. by rewrite lookup_alter_eq.
    + rewrite (IH1 _ Hin). unfold rehash. cbn. rewrite lookup_alter_ne; [done|]. intros ->. apply Hk.
      apply list_elem_of_fmap. by exists (dev, hash).
  - cbn [fmap list_fmap fst]. intros [Hne Hl]%not_elem_of_cons. rewrite IH2 by done. unfold rehash. cbn. by rewrite lookup_alter_ne.
Qed.

Lemma scan_rows_inv {Row A} (scan : Row → result A) rows l :
  scan_rows scan rows = Ok l → Forall2 (λ r a, scan r = Ok a) rows l.
Proof.
  revert l. induction rows as [|r rows IH]; intros l; cbn [scan_rows]; [by intros [= <-]|].
  intros (a & Ea & (l' & El & [= <-])%result_bind_Ok)%result_bind_Ok. constructor; [done|by apply IH].
Qed.

Lemma hashed_inv k r kh :
  hashed (k, r) = Ok kh → kh.1 = k ∧ HashBasicCredential (rand k) (kr_basic_username r) (kr_basic_password r) = Ok kh.2.
Proof. unfold hashed. by intros (h & Eh & [= <-])%result_bind_Ok. Qed.

Lemma hashed_keys rows l : Forall2 (λ r a, hashed r = Ok a) rows l → l.*1 = rows.*1.
Proof. induction 1 as [|[k r] kh rows l Hr _ IH]; [done|]. apply hashed_inv in Hr as [<- _]. cbn. by f_equal. Qed.

Lemma legacy_rows_elem m dev r : (dev, r) ∈ legacy_rows m ↔ m !! dev = Some r ∧ legacy r = true.
Proof. unfold legacy_rows. rewrite list_elem_of_In, filter_In, <- list_elem_of_In, elem_of_map_to_list. done. Qed.

Lemma legacy_rows_NoDup m : NoDup (legacy_rows m).*1.
Proof.
  unfold legacy_rows. pose proof (NoDup_fst_map_to_list m) as Hn. induction (map_to_list m) as [|[k r] l IH]; [constructor|].
  cbn [fmap list_fmap fst] in Hn. apply NoDup_cons in Hn as [Hk Hn]. cbn [List.filter]. destruct (legacy r); [|by apply IH].
  cbn [fmap list_fmap fst]. apply NoDup_cons. split; [|by apply IH]. intros Hin. apply Hk.
  apply list_elem_of_fmap in Hin as ([k' r'] & -> & Hin). apply list_elem_of_fmap. exists (k', r'). split; [done|].
  apply list_elem_of_In, filter_In in Hin as [Hin _]. by apply list_elem_of_In.
Qed.

(** C29: Opening a database migrates the plaintext credentials of the basic type
    whole or not at all: when the migration fails, whatever the database
    refuses, the table is as it was; when it succeeds no credential of the basic
    type holds a user name or a password any more, the name and password of
    every migrated one verify against its new hash, and all other rows are
    unchanged. *)
Theorem basic_credentials_migrated ctx c c' res :
  (∀ dev n b, rand dev n = Some b → len b = n) →
  migrateBasicCredentials ctx rand c = (c', res) →
  match res with
  | Err _ => c_db c' = c_db c
  | Ok _ => ∀ dev,
      match t_credentials (c_db c) !! dev, t_credentials (c_db c') !! dev with
      | Some r, Some r' =>
          if legacy r then
            kr_auth_type r' = AuthBasicType ∧ kr_basic_username r' = "" ∧ kr_basic_password r' = "" ∧
            VerifyBasicCredential (kr_credential_hash r') (kr_basic_username r) (kr_basic_password r) = true
          else r' = r
      | None, None => True
      | _, _ => False
      end
  end.
Proof.
  intros Hrand. unfold migrateBasicCredentials, tx_. destruct (tx _ _ _) as [[[] c1] r1] eqn:E. intros [= <- <-].
  apply (tx_atomic _ migrated) in E; [|apply migration_writes]. destruct r1 as [[]|]; [|done].
  destruct E as (l & Hl%scan_rows_inv & ->). intros dev.
  assert (NoDup l.*1) as Hn by (rewrite (hashed_keys _ _ Hl); apply legacy_rows_NoDup).
  destruct (rehash_lookup l (t_credentials (c_db c)) dev Hn) as [H1 H2].
  destruct (t_credentials (c_db c) !! dev) as [r|] eqn:Er.
  - destruct (legacy r) eqn:Eg.
    + assert ((dev, r) ∈ legacy_rows (t_credentials (c_db c))) as Hin by by apply legacy_rows_elem.
      destruct (Forall2_in_l _ _ _ _ Hl Hin) as ([k h] & Hkh & [<- Hh]%hashed_inv). cbn in Hh.
      rewrite (H1 h Hkh). cbn. unfold legacy in Eg. btrue. split_and!; try done.
      by apply (basic_verifier_roundtrip (rand k)); [apply Hrand|].
    + rewrite H2; [done|]. rewrite (hashed_keys _ _ Hl). intros ([k r'] & -> & Hin)%list_elem_of_fmap.
      apply legacy_rows_elem in Hin as [Hr' Hg]. cbn in Er. congruence.
  - rewrite H2; [done|]. rewrite (hashed_keys _ _ Hl). intros ([k r'] & -> & Hin)%list_elem_of_fmap.
    apply legacy_rows_elem in Hin as [Hr' Hg]. cbn in Er. congruence.
Qed.
End migration.

(** ** Examples *)

#[local] Instance ContextItem_eq_dec : EqDecision ContextItem.
Proof. solve_decision. Defined.
#[local] Instance AdditionalContext_eq_dec : EqDecision AdditionalContext.
Proof. solve_decision. Defined.

(** A codec of one context and of the empty map. *)
#[local] Instance one_codec : StoreCodec := {
  marshal_Context c := if decide (c = ex_context) then Ok "ctx" else Err [];
  unmarshal_Context b := if decide (b = "ctx") then Ok ex_context else Err [];
  marshal_DevInfo m := if decide (m = ∅) then Ok "{}" else Err [];
  unmarshal_DevInfo b := if decide (b = "{}") then Ok ∅ else Err [] }.
#[local] Instance one_codec_laws : StoreCodecLaws.
Proof.
  split; unfold marshal_Context, unmarshal_Context, marshal_DevInfo, unmarshal_DevInfo, one_codec.
  - intros c b. case_decide as Hc; [|done]. subst c. by intros [= <-].
  - intros m b. case_decide as Hm; [|done]. subst m. by intros [= <-].
Qed.

Definition ex_stamp : Time := unix_epoch + Hour.
Definition ex_enrollment : Enrollment :=
  mkEnrollment "7" "AB" "dev" "HW-1" EnrollmentTypeFull "u@c" ex_context "" ex_stamp 0 0.

Lemma ex_enrollment_recent : enr_recent ex_enrollment.
Proof.
  split_and!; [by right|by left|]. exists "ctx". unfold marshal_Context, one_codec. by rewrite decide_True.
Qed.

Lemma sql_store_equivalent_witness :
  (run_calls (run_sql None) [Call_Create (Some ex_enrollment); Call_Get "dev"; Call_Get "other"]
    (mkConn empty_db [])).2 =
  [Ok Answer_unit; Ok (Answer_enrollment (set_estate StateActive ex_stamp ex_enrollment)); Err [storage_ErrNotFound]].
Proof.
  rewrite sql_store_equivalent.
  - vm_compute. reflexivity.
  - constructor; [exact ex_enrollment_recent|repeat constructor].
  - vm_compute. discriminate.
Defined.

(** The tables once the device is enrolled. *)
Definition ex_tables : DB := c_db (SS_Create None (Some ex_enrollment) (mkConn empty_db [])).1.
Lemma ex_tables_same : ∃ s, same_store ex_tables s.
Proof.
  destruct (Create_same None empty_db New (Some ex_enrollment)) as (db' & s' & r & E & _ & Hs & _).
  - constructor; [apply New_inv|apply holds_nil|apply holds_nil|done].
  - intros x [= <-]. exact ex_enrollment_recent.
  - exists s'. unfold ex_tables. by rewrite E.
Qed.

Definition ex_raw : string := "0123456789abcdef0123456789abcdef".
Lemma agent_token_current_witness :
  ∃ db1 token id, SS_IssueAgentToken None "dev" (Ok ex_raw) ex_stamp (mkConn ex_tables []) = (mkConn db1 [], Ok token) ∧
    SS_AgentWake "dev" token (mkConn db1 []) = (mkConn db1 [], Ok id).
Proof.
  destruct ex_tables_same as [s Hs].
  destruct (SS_IssueAgentToken None "dev" (Ok ex_raw) ex_stamp (mkConn ex_tables [])) as [[db1 l] r] eqn:E.
  assert (l = [] ∧ ∃ token, r = Ok token) as [-> [token ->]].
  { assert (c_replies (SS_IssueAgentToken None "dev" (Ok ex_raw) ex_stamp (mkConn ex_tables [])).1 = [] ∧
      is_ok (SS_IssueAgentToken None "dev" (Ok ex_raw) ex_stamp (mkConn ex_tables [])).2 = true) as [H1 H2]
      by (split; vm_compute; reflexivity).
    rewrite E in H1, H2. split; [exact H1|]. destruct r as [token|]; [by exists token|discriminate]. }
  destruct (agent_token_current None ex_tables s "dev" ex_raw ex_stamp db1 token Hs eq_refl E) as ((id & Hid & _) & _).
  exists db1, token, id. split; [reflexivity|exact Hid].
Defined.

Lemma push_channel_history_witness :
  ∃ db, mfor (run_push "7") [Push_Observe (Some "u") None ex_stamp; Push_Dead "u"] (mkConn empty_db []) =
      (mkConn db [], Ok tt) ∧
    SS_PushChannel "7" (mkConn db []) = (mkConn db [], Ok (mkPushChannel "7" "u" ex_stamp ex_stamp true "")).
Proof.
  apply (push_channel_history "7" [Push_Observe (Some "u") None ex_stamp; Push_Dead "u"]).
  - constructor; [by right|constructor; [done|constructor]].
  - assert (pushURIHash "" ≠ pushURIHash "u") as Hne by (vm_compute; discriminate).
    intros u v Hu Hv E. cbn in Hu, Hv. rewrite !elem_of_cons in Hu, Hv.
    destruct Hu as [->|[->|[->|?%not_elem_of_nil]]]; [| | |contradiction];
      (destruct Hv as [->|[->|[->|?%not_elem_of_nil]]]; [| | |contradiction]); try reflexivity; exfalso;
      first [exact (Hne E)|exact (Hne (eq_sym E))].
Defined.

Definition ex_legacy : DB :=
  set_credentials {["d" := mkCredentialRow AuthBasicType "" "bob" "pw"]} empty_db.
Definition ex_salt (dev : string) (n : Z) : option string := if n =? 16 then Some ("ssssssssssssssss") else None.
Lemma basic_credentials_migrated_witness :
  ∃ db', migrateBasicCredentials None ex_salt (mkConn ex_legacy []) = (mkConn db' [], Ok tt) ∧
  ∃ r', t_credentials db' !! "d" = Some r' ∧ kr_basic_password r' = "" ∧
    VerifyBasicCredential (kr_credential_hash r') "bob" "pw" = true.
Proof.
  destruct (migrateBasicCredentials None ex_salt (mkConn ex_legacy [])) as [[db' l] res] eqn:E.
  assert (l = [] ∧ res = Ok tt) as [-> ->].
  { assert (c_replies (migrateBasicCredentials None ex_salt (mkConn ex_legacy [])).1 = [] ∧
      (migrateBasicCredentials None ex_salt (mkConn ex_legacy [])).2 = Ok tt) as [H1 H2] by (split; reflexivity).
    rewrite E in H1, H2. split; [exact H1|exact H2]. }
  exists db'. split; [reflexivity|].
  assert (∀ dev n b, ex_salt dev n = Some b → len b = n) as Hsalt.
  { intros dev n b. unfold ex_salt. destruct (Z.eqb_spec n 16) as [->|]; [|discriminate]. intros [= <-]. reflexivity. }
  pose proof (basic_credentials_migrated ex_salt None _ _ _ Hsalt E "d") as Hm. cbn [c_db] in Hm.
  change (t_credentials ex_legacy !! "d") with (Some (mkCredentialRow AuthBasicType "" "bob" "pw")) in Hm.
  destruct (t_credentials db' !! "d") as [r'|]; [|destruct Hm].
  exists r'. change (legacy _) with true in Hm. destruct Hm as (_ & _ & Hp & Hv).
  split; [reflexivity|]. split; [exact Hp|exact Hv].
Defined.
