(* ===== verification/Wns.v ===== *)
(** * The push notification client

    msplatformservices/wns/client.go and token.go: classifying the answers of
    the Windows push service, the sender with its one forced token refresh and
    its retries, and the OAuth source with its cache.

    The world the sender talks to is a type [W] with a step per outside call:
    the token source, the HTTP exchange, the clock and a wait that cancellation
    may cut short.  url.Parse and http.ParseTime are parameters.  The calls the
    sender makes are written into a list of [wns_event]s. *)
From stdpp Require Import base gmap strings list.
From Stdlib Require Import ZArith Lia Ascii.
From S2P Require Import Prelude GoStrings.

Local Open Scope Z_scope.
Local Open Scope go_scope.

(** ** client.go *)

(** [type Outcome string]; [NoOutcome] is the zero value. *)
Inductive Outcome : Set :=
  | NoOutcome | Accepted | Unauthorized | Forbidden | DeadChannel | Throttled | TooLarge | Transient | Rejected.
#[global] Instance Outcome_eq_dec : EqDecision Outcome.
Proof. solve_decision. Defined.

(** [type Result struct] *)
Record WResult := mkWResult {
  wr_HTTPStatus : Z;
  wr_Outcome : Outcome;
  wr_NotificationStatus : string;
  wr_DeviceConnectionStatus : string;
  wr_MessageID : string;
  wr_CorrelationVector : string;
  wr_RetryAfter : Duration }.
(** [Result{}] *)
Definition no_result : WResult := mkWResult 0 NoOutcome "" "" "" "" 0.

(** What the sender reads of a response: the status and five headers. *)
Record WResponse := mkWResponse {
  rs_StatusCode : Z;
  rs_Status : string;
  rs_ConnectionStatus : string;
  rs_MsgID : string;
  rs_CV : string;
  rs_RetryAfter : string }.

(** What ValidateChannel reads of a URL. *)
Record WURL := mkWURL {
  wu_Scheme : string;
  wu_User : bool;
  wu_Fragment : string;
  wu_Opaque : string;
  wu_Port : string;
  wu_Hostname : string }.
Class WnsParsers := {
  wns_Parse : string → option WURL;
  http_ParseTime : string → option Time }.

(** [strings.HasSuffix] *)
Definition HasSuffix (s t : string) : bool := HasPrefix (srev s) (srev t).
(** [strings.ContainsAny(s, "\r\n")] *)
Fixpoint has_line_end (s : string) : bool :=
  match s with
  | EmptyString => false
  | String c s => (byte_val c =? 13) || (byte_val c =? 10) || has_line_end s
  end.

Section wns.
Context `{WnsParsers}.

Definition ValidateChannel (channel : string) : result unit :=
  match wns_Parse channel with
  | None => Err [wns_ErrConfig]
  | Some u =>
      if negb (bool_decide (wu_Scheme u = "https")) || wu_User u || negb (bool_decide (wu_Fragment u = "")) ||
         negb (bool_decide (wu_Opaque u = "")) ||
         (negb (bool_decide (wu_Port u = "")) && negb (bool_decide (wu_Port u = "443")))
      then Err [wns_ErrConfig]
      else
        let host := go_lower (wu_Hostname u) in
        if negb (bool_decide (host = "notify.windows.com")) && negb (HasSuffix host ".notify.windows.com")
        then Err [wns_ErrConfig] else Ok tt
  end.

(** [strconv.ParseInt(s, 10, 32)] *)
Definition ParseInt32 (s : string) : option Z :=
  match Atoi s with
  | Some n => if (- 2 ^ 31 <=? n) && (n <? 2 ^ 31) then Some n else None
  | None => None
  end.

Definition retry_after (value : string) (now : Time) : Duration :=
  if decide (value = "") then 0
  else match ParseInt32 value with
  | Some seconds => if 0 <=? seconds then seconds * Second
                    else match http_ParseTime value with Some at_ => Z.max 0 (time_Sub at_ now) | None => 0 end
  | None => match http_ParseTime value with Some at_ => Z.max 0 (time_Sub at_ now) | None => 0 end
  end.

Definition outcome_of (code : Z) (status : string) : Outcome :=
  if code =? 200 then
    if decide (status = "channelthrottled") then Throttled
    else if decide (status = "" ∨ status = "received") then Accepted else Rejected
  else if code =? 401 then Unauthorized
  else if code =? 403 then Forbidden
  else if (code =? 404) || (code =? 410) then DeadChannel
  else if (code =? 406) || (code =? 429) then Throttled
  else if code =? 413 then TooLarge
  else if (500 <=? code) && (code <=? 599) then Transient
  else Rejected.

Definition classify (r : WResponse) (now : Time) : WResult :=
  mkWResult (rs_StatusCode r) (outcome_of (rs_StatusCode r) (rs_Status r)) (rs_Status r) (rs_ConnectionStatus r)
    (rs_MsgID r) (rs_CV r) (retry_after (rs_RetryAfter r) now).

(** [type Config struct], the source and the transport being parameters. *)
Record WConfig := mkWConfig { wc_Retries : Z; wc_Backoff : Duration }.
Definition WNew (tokens : bool) (cfg : WConfig) : result WConfig :=
  if negb tokens || (wc_Retries cfg <? 0) || (10 <? wc_Retries cfg) || (wc_Backoff cfg <? 0) then Err [wns_ErrConfig]
  else Ok (mkWConfig (wc_Retries cfg) (if wc_Backoff cfg =? 0 then Second else wc_Backoff cfg)).

Record Notification := mkNotification {
  nt_Body : string;
  nt_TTLSeconds : option Z;
  nt_CorrelationVector : string }.

Inductive wns_event :=
  | EvToken (refresh : bool)
  | EvPush (channel token : string) (n : Notification)
  | EvDelay (d : Duration).

Section send.
Context {W : Type} (cfg : WConfig).
Context (tokens : bool → W → W * result string).
Context (http_do : string → string → Notification → W → W * result WResponse).
Context (clock_now : W → Time) (wait : Duration → W → W * option error) (ctx_Err : W → option error).

(** [safeTransportError]; the fixed text carries no sentinel. *)
Definition safeTransportError (w : W) : error := match ctx_Err w with Some e => e | None => [] end.

(** Backoff*time.Duration(1<<retries) *)
Definition backoff (retries : Z) : Duration := wrap64 (wc_Backoff cfg * 2 ^ retries).

(** The loop of [Send]; [None] is out of fuel. *)
Fixpoint send_loop (fuel : nat) (channel : string) (n : Notification) (refreshed force : bool) (retries : Z)
    (w : W) (evs : list wns_event) : option (W * list wns_event * (WResult * option error)) :=
  match fuel with
  | O => None
  | S fuel =>
      let evs := evs ++ [EvToken force] in
      match tokens force w with
      | (w, Err e) => Some (w, evs, (no_result, Some e))
      | (w, Ok token) =>
          if bool_decide (token = "") || has_line_end token then Some (w, evs, (no_result, Some [wns_ErrConfig]))
          else
            let evs := evs ++ [EvPush channel token n] in
            match http_do channel token n w with
            | (w, Err _) => Some (w, evs, (no_result, Some (safeTransportError w)))
            | (w, Ok resp) =>
                let result := classify resp (clock_now w) in
                if decide (wr_Outcome result = Accepted) then Some (w, evs, (result, None))
                else if bool_decide (wr_Outcome result = Unauthorized) && negb refreshed then
                  send_loop fuel channel n true true retries w evs
                else if (bool_decide (wr_Outcome result = Transient) || bool_decide (wr_Outcome result = Throttled)) &&
                        (retries <? wc_Retries cfg) then
                  let delay := Z.max (wr_RetryAfter result) (backoff retries) in
                  let evs := evs ++ [EvDelay delay] in
                  match wait delay w with
                  | (w, Some e) => Some (w, evs, (result, Some e))
                  | (w, None) => send_loop fuel channel n refreshed false (retries + 1) w evs
                  end
                else Some (w, evs, (result, Some [wns_ResponseError]))
            end
      end
  end.

(** Every retry, the refresh, and the first attempt. *)
Definition send_fuel : nat := Z.to_nat (wc_Retries cfg) + 2.

(** [Send].  The error of NewRequestWithContext is left out: it is returned for
    a method, URL or context that is not valid, and the URL is the channel that
    ValidateChannel has parsed. *)
Definition Send (channel : string) (n : Notification) (w : W)
    : option (W * list wns_event * (WResult * option error)) :=
  match ValidateChannel channel with
  | Err e => Some (w, [], (no_result, Some e))
  | Ok _ =>
      if (len (nt_Body n) =? 0) || (5000 <? len (nt_Body n)) ||
         match nt_TTLSeconds n with Some t => t <? 0 | None => false end || has_line_end (nt_CorrelationVector n)
      then Some (w, [], (no_result, Some [wns_ErrConfig]))
      else send_loop send_fuel channel n false false 0 w []
  end.
End send.
End wns.

(** ** token.go *)

(** The answer of the token endpoint: the status, and the three fields of the
    body when it is JSON.  [tw_ExpiresIn] is the raw value, empty when absent. *)
Record TokenWire := mkTokenWire { tw_AccessToken : string; tw_TokenType : string; tw_ExpiresIn : string }.
Record TokenReply := mkTokenReply { tr_StatusCode : Z; tr_Wire : option TokenWire }.

Record OAuthSource := mkOAuthSource {
  os_ClientID : string;
  os_ClientSecret : string;
  os_endpoint : string;
  os_scope : string;
  os_token : string;
  os_expires : Time }.

Definition newOAuth (clientID secret endpoint scope : string) : result OAuthSource :=
  if decide (clientID = "" ∨ secret = "") then Err [wns_ErrConfig]
  else Ok (mkOAuthSource clientID secret endpoint scope "" 0).
Definition NewLegacy (clientID secret : string) : result OAuthSource :=
  newOAuth clientID secret "https://login.live.com/accesstoken.srf" "notify.windows.com".
(** [strings.ContainsAny(tenant, "/\\?#% \t\r\n")] *)
Fixpoint has_delimiter (s : string) : bool :=
  match s with
  | EmptyString => false
  | String c s => existsb (λ b, byte_val c =? b) [47; 92; 63; 35; 37; 32; 9; 13; 10] || has_delimiter s
  end.
Definition NewEntra (clientID secret tenantID : string) : result OAuthSource :=
  if bool_decide (tenantID = "") || has_delimiter tenantID then Err [wns_ErrConfig]
  else newOAuth clientID secret ("https://login.microsoftonline.com/" +:+ tenantID +:+ "/oauth2/v2.0/token")
         "https://wns.windows.com/.default".

(** [strings.Trim] of double quotes. *)
Fixpoint trim_quotes (s : string) : string :=
  match s with
  | String c s' => if byte_val c =? 34 then trim_quotes s' else s
  | EmptyString => ""
  end.
Definition Trim_quotes (s : string) : string := srev (trim_quotes (srev (trim_quotes s))).

(** The lifetime of a token, less the margin. *)
Definition token_lifetime (expiresIn : string) : result Duration :=
  if decide (expiresIn = "" ∨ expiresIn = "null") then Ok 0
  else match Atoi (Trim_quotes expiresIn) with
  | None => Err []
  | Some seconds =>
      if (seconds <=? 0) || (max_int64 / Second <? seconds) then Err []
      else
        let lifetime := seconds * Second in
        Ok (lifetime - Z.min Minute (lifetime / 10))
  end.

Definition set_token (token : string) (expires : Time) (s : OAuthSource) : OAuthSource :=
  mkOAuthSource (os_ClientID s) (os_ClientSecret s) (os_endpoint s) (os_scope s) token expires.

Section token.
Context {W : Type} (post : OAuthSource → W → W * result TokenReply).
Context (clock_now : W → Time) (ctx_Err : W → option error).

(** [Token]; the third component tells whether the endpoint was asked. *)
Definition Token (refresh : bool) (s : OAuthSource) (w : W) : OAuthSource * W * bool * result string :=
  if negb refresh && negb (bool_decide (os_token s = "")) && time_Before (clock_now w) (os_expires s)
  then (s, w, false, Ok (os_token s))
  else
    let s := set_token "" (os_expires s) s in
    match post s w with
    | (w, Err _) => (s, w, true, Err (safeTransportError ctx_Err w))
    | (w, Ok reply) =>
        if negb (tr_StatusCode reply =? 200) then (s, w, true, Err [])
        else match tr_Wire reply with
        | None => (s, w, true, Err [])
        | Some wire =>
            if bool_decide (tw_AccessToken wire = "") || has_line_end (tw_AccessToken wire) ||
               negb (EqualFold (tw_TokenType wire) "bearer") then (s, w, true, Err [])
            else match token_lifetime (tw_ExpiresIn wire) with
            | Err e => (s, w, true, Err e)
            | Ok lifetime =>
                (set_token (tw_AccessToken wire) (time_Add (clock_now w) lifetime) s, w, true, Ok (tw_AccessToken wire))
            end
        end
    end.
End token.

(** ** Properties *)

Section send_properties.
Context `{WnsParsers} {W : Type} (cfg : WConfig).
Context (tokens : bool → W → W * result string).
Context (http_do : string → string → Notification → W → W * result WResponse).
Context (clock_now : W → Time) (wait : Duration → W → W * option error) (ctx_Err : W → option error).

Definition is_push (e : wns_event) : bool := match e with EvPush _ _ _ => true | _ => false end.
Definition is_refresh (e : wns_event) : bool := match e with EvToken b => b | _ => false end.
Definition count (p : wns_event → bool) (evs : list wns_event) : nat := length (List.filter p evs).
(** The waits, in order. *)
Definition delays (evs : list wns_event) : list Duration :=
  omap (M := list) (λ e : wns_event, match e with EvDelay d => Some d | _ => None end : option Z) evs.
(** A request carries the notification to the channel with a clean token. *)
Definition push_ok (channel : string) (n : Notification) (e : wns_event) : Prop :=
  match e with
  | EvPush c t n' => c = channel ∧ n' = n ∧ t ≠ "" ∧ has_line_end t = false
  | _ => True
  end.

Lemma count_app p a b : count p (a ++ b) = (count p a + count p b)%nat.
Proof. unfold count. rewrite List.filter_app. apply length_app. Qed.

Lemma send_loop_run fuel channel n (refreshed force : bool) retries w evs :
  (Z.to_nat (wc_Retries cfg - retries) + (if refreshed then 0 else 1) < fuel)%nat →
  0 ≤ retries ≤ wc_Retries cfg → 0 ≤ wc_Backoff cfg → wc_Backoff cfg * 2 ^ wc_Retries cfg ≤ max_int64 →
  ∃ w' new r err, send_loop cfg tokens http_do clock_now wait ctx_Err fuel channel n refreshed force retries w evs =
      Some (w', evs ++ new, (r, err)) ∧
    (count is_push new ≤ Z.to_nat (wc_Retries cfg - retries) + (if refreshed then 0 else 1) + 1)%nat ∧
    (count is_refresh new ≤ (if force then 1 else 0) + (if refreshed then 0 else 1))%nat ∧
    (Z.of_nat (length (delays new)) ≤ wc_Retries cfg - retries) ∧
    (∀ i d, delays new !! i = Some d → wc_Backoff cfg * 2 ^ (retries + Z.of_nat i) ≤ d) ∧
    Forall (push_ok channel n) new ∧ (err = None ↔ wr_Outcome r = Accepted).
Proof.
  intros Hf Hr Hb Hmax. revert refreshed force retries w evs Hf Hr.
  induction fuel as [|fuel IH]; intros refreshed force retries w evs Hf Hr; [lia|]. cbn [send_loop].
  destruct (tokens force w) as [w1 [token|e]].
  2: { exists w1, [EvToken force], no_result, (Some e). split_and!; [done|cbn; lia|destruct force; cbn; lia|cbn; lia|done| |done].
       by repeat constructor. }
  destruct (bool_decide (token = "") || has_line_end token) eqn:Et.
  { exists w1, [EvToken force], no_result, (Some [wns_ErrConfig]).
    split_and!; [done|cbn; lia|destruct force; cbn; lia|cbn; lia|done| |done]. by repeat constructor. }
  apply orb_false_iff in Et as [Et1 Et2]. apply bool_decide_eq_false in Et1.
  rewrite <- app_assoc. cbn [app]. set (head := [EvToken force; EvPush channel token n]).
  assert (Forall (push_ok channel n) head) as Hhead by (repeat constructor; done).
  (* a last attempt *)
  assert (∀ (w' : W) r (err : option error), (err = None ↔ wr_Outcome r = Accepted) →
    ∃ w0 new r0 err0, Some (w', evs ++ head, (r, err)) = Some (w0, evs ++ new, (r0, err0)) ∧
    (count is_push new ≤ Z.to_nat (wc_Retries cfg - retries) + (if refreshed then 0 else 1) + 1)%nat ∧
    (count is_refresh new ≤ (if force then 1 else 0) + (if refreshed then 0 else 1))%nat ∧
    (Z.of_nat (length (delays new)) ≤ wc_Retries cfg - retries) ∧
    (∀ i d, delays new !! i = Some d → wc_Backoff cfg * 2 ^ (retries + Z.of_nat i) ≤ d) ∧
    Forall (push_ok channel n) new ∧ (err0 = None ↔ wr_Outcome r0 = Accepted)) as Hlast.
  { intros w' r err Herr. exists w', head, r, err. split_and!; try done; cbn; try lia. destruct force; cbn; lia. }
  destruct (http_do channel token n w1) as [w2 [resp|e]]; [|by apply Hlast].
  set (res := classify resp (clock_now w2)). destruct (decide (wr_Outcome res = Accepted)) as [Ha|Ha]; [by apply Hlast|].
  destruct (bool_decide (wr_Outcome res = Unauthorized) && negb refreshed) eqn:Eu.
  { apply andb_true_iff in Eu as [_ Eu]. destruct refreshed; [done|].
    destruct (IH true true retries w2 (evs ++ head)) as (w' & new & r & err & -> & H1 & H2 & H3 & H4 & H5 & H6); [lia|lia|].
    exists w', (head ++ new), r, err. rewrite app_assoc. split_and!; [done|rewrite count_app; cbn; lia| |done|done| |done].
    - rewrite count_app. destruct force; cbn; lia.
    - by apply Forall_app. }
  destruct ((bool_decide (wr_Outcome res = Transient) || _) && _) eqn:Er; [|by apply Hlast].
  apply andb_true_iff in Er as [_ Er]. apply Z.ltb_lt in Er. cbv zeta. rewrite <- app_assoc. cbn [app head].
  set (d := Z.max (wr_RetryAfter res) (backoff cfg retries)).
  assert (wc_Backoff cfg * 2 ^ retries ≤ d) as Hd.
  { unfold d, backoff. rewrite wrap64_id; [lia|]. unfold in_int64, min_int64.
    assert (2 ^ retries ≤ 2 ^ wc_Retries cfg) by (apply Z.pow_le_mono_r; lia).
    assert (0 < 2 ^ retries) by (apply Z.pow_pos_nonneg; lia). nia. }
  set (head' := [EvToken force; EvPush channel token n; EvDelay d]).
  assert (Forall (push_ok channel n) head') as Hhead' by (repeat constructor; done).
  destruct (wait d w2) as [w3 [e|]].
  { exists w3, head', res, (Some e). split_and!; try done; cbn; try lia; [destruct force; cbn; lia|].
    intros [|i] x; cbn; [|done]. intros [= <-]. by rewrite Z.add_0_r. }
  destruct (IH refreshed false (retries + 1) w3 (evs ++ head')) as (w' & new & r & err & -> & H1 & H2 & H3 & H4 & H5 & H6);
    [destruct refreshed; lia|lia|].
  exists w', (head' ++ new), r, err. rewrite app_assoc. split_and!; [done|rewrite count_app; cbn; lia| | | | |done].
  - rewrite count_app. destruct force; cbn in *; lia.
  - unfold delays in *. cbn. lia.
  - intros [|i] x; cbn; [intros [= <-]; by rewrite Z.add_0_r|]. intros Hx. apply H4 in Hx.
    replace (retries + Z.of_nat (S i)) with (retries + 1 + Z.of_nat i) by lia. done.
  - by apply Forall_app.
Qed.

(** C31: Sending a notification always comes to an end, whatever the token source
    and the push service answer: after at most Retries + 2 requests, one forced
    token refresh and Retries waits, the i-th of them at least Backoff * 2^i.
    Nothing is sent to a channel that was not validated, every request carries
    the notification with a token free of line ends, and Send reports success
    exactly when the service accepted. *)
Theorem send_bounded channel n w :
  0 ≤ wc_Retries cfg → 0 ≤ wc_Backoff cfg → wc_Backoff cfg * 2 ^ wc_Retries cfg ≤ max_int64 →
  ∃ w' evs r err, Send cfg tokens http_do clock_now wait ctx_Err channel n w = Some (w', evs, (r, err)) ∧
    Z.of_nat (count is_push evs) ≤ wc_Retries cfg + 2 ∧ (count is_refresh evs ≤ 1)%nat ∧
    Z.of_nat (length (delays evs)) ≤ wc_Retries cfg ∧
    (∀ i d, delays evs !! i = Some d → wc_Backoff cfg * 2 ^ Z.of_nat i ≤ d) ∧
    (evs ≠ [] → ValidateChannel channel = Ok tt) ∧ Forall (push_ok channel n) evs ∧
    (err = None ↔ wr_Outcome r = Accepted).
Proof.
  intros Hr Hb Hmax. unfold Send. destruct (ValidateChannel channel) as [[]|e].
  2: { exists w, [], no_result, (Some e). split_and!; try done; cbn; lia. }
  destruct (_ || has_line_end _).
  { exists w, [], no_result, (Some [wns_ErrConfig]). split_and!; try done; cbn; lia. }
  destruct (send_loop_run (send_fuel cfg) channel n false false 0 w []) as (w' & new & r & err & E & H1 & H2 & H3 & H4 & H5 & H6);
    [unfold send_fuel; lia|lia|done|done|].
  exists w', new, r, err. cbn [app] in E. rewrite Z.sub_0_r in *. split_and!; try done; lia.
Qed.
End send_properties.

(** *** The host of a channel *)

(** The host of an accepted channel is notify.windows.com or a name under it,
    in any case of letters; but strings.ToLower also takes U+0130 to an i, so a
    host that spells it so is accepted, and an HTTP client looks that name up
    in another domain. *)
Theorem channel_host `{WnsParsers} channel :
  ValidateChannel channel = Ok tt ↔
  ∃ u, wns_Parse channel = Some u ∧ wu_Scheme u = "https" ∧ wu_User u = false ∧ wu_Fragment u = "" ∧ wu_Opaque u = "" ∧
    (wu_Port u = "" ∨ wu_Port u = "443") ∧
    (go_lower (wu_Hostname u) = "notify.windows.com" ∨
     HasSuffix (go_lower (wu_Hostname u)) ".notify.windows.com" = true).
Proof.
  unfold ValidateChannel. destruct (wns_Parse channel) as [u|]; [|split; [done|by intros (? & ? & _)]].
  destruct (negb _ || _ || _ || _ || _) eqn:E1.
  { split; [done|]. intros (? & [= <-] & Hs & Hu & Hf & Ho & Hp & _). exfalso. rewrite Hs, Hu, Hf, Ho in E1. cbn in E1.
    destruct Hp as [Hp|Hp]; rewrite Hp in E1; by vm_compute in E1. }
  rewrite !orb_false_iff, andb_false_iff, !negb_false_iff, !bool_decide_eq_true in E1.
  destruct E1 as [[[[Hs Hu] Hf] Ho] Hp]. cbn zeta.
  destruct (negb _ && negb _) eqn:E2.
  - split; [done|]. intros (? & [= <-] & _ & _ & _ & _ & _ & Hh). exfalso. btrue.
    destruct Hh as [Hh|Hh]; [done|congruence].
  - split; [|done]. intros _. exists u. split_and!; try done.
    apply andb_false_iff in E2 as [E2|E2]; btrue; auto.
Qed.

(** The Latin capital letter I with dot above, in UTF-8. *)
Definition dotted_I : string := String (byte_of 0xC4) (String (byte_of 0xB0) "").

Example channel_homograph :
  let P : WnsParsers := {| wns_Parse _ := Some (mkWURL "https" false "" "" "" ("a.notify.w" +:+ dotted_I +:+ "ndows.com"));
                           http_ParseTime _ := None |} in
  ValidateChannel ("https://a.notify.w" +:+ dotted_I +:+ "ndows.com/") = Ok tt.
Proof. vm_compute. reflexivity. Qed.

(** *** The token cache *)

Lemma token_lifetime_ok expiresIn d :
  token_lifetime expiresIn = Ok d →
  (expiresIn = "" ∨ expiresIn = "null") ∧ d = 0 ∨
  ∃ seconds, Atoi (Trim_quotes expiresIn) = Some seconds ∧ 0 < seconds ∧ seconds * Second ≤ max_int64 ∧
    seconds * Second - Minute ≤ d < seconds * Second.
Proof.
  unfold token_lifetime. case_decide as He; [intros [= <-]; by left|].
  destruct (Atoi _) as [n|]; [|done]. destruct (_ || _) eqn:E; [done|]. btrue. intros [= <-]. right. exists n.
  assert (n * Second ≤ max_int64) by (unfold max_int64, Second in *; Z.to_euclidean_division_equations; lia).
  split_and!; try done.
  - pose proof (Z.le_min_l Minute (n * Second / 10)). lia.
  - assert (0 < Z.min Minute (n * Second / 10)); [|lia].
    apply Z.min_glb_lt; [done|]. apply Z.div_str_pos. unfold Second. lia.
Qed.

(** A token is served from the cache only without a forced refresh and before
    the expiry; otherwise the endpoint is asked, a failure leaves no token
    behind, and a new token is kept until at most the lifetime the endpoint
    reported, less a margin of up to a minute (not at all when none was
    reported). *)
Theorem token_cache {W} post (clock_now : W → Time) ctx_Err refresh s w s' w' asked r :
  Token post clock_now ctx_Err refresh s w = (s', w', asked, r) →
  if asked then
    match r with
    | Err _ => os_token s' = ""
    | Ok t =>
        ∃ wire, post (set_token "" (os_expires s) s) w = (w', Ok (mkTokenReply 200 (Some wire))) ∧
        tw_AccessToken wire = t ∧ t ≠ "" ∧ has_line_end t = false ∧ os_token s' = t ∧
        ((tw_ExpiresIn wire = "" ∨ tw_ExpiresIn wire = "null") ∧ os_expires s' = clock_now w' ∨
         ∃ seconds, Atoi (Trim_quotes (tw_ExpiresIn wire)) = Some seconds ∧ 0 < seconds ∧
           clock_now w' + seconds * Second - Minute ≤ os_expires s' < clock_now w' + seconds * Second)
    end
  else refresh = false ∧ r = Ok (os_token s) ∧ os_token s ≠ "" ∧ s' = s ∧ w' = w ∧ clock_now w < os_expires s.
Proof.
  unfold Token. destruct (negb refresh && _ && _) eqn:Ec.
  { intros [= <- <- <- <-]. unfold time_Before in Ec. btrue. done. }
  destruct (post _ w) as [w1 [[code wire]|e]] eqn:Ep; [|by intros [= <- <- <- <-]]. cbn [tr_StatusCode tr_Wire].
  destruct (Z.eqb_spec code 200) as [->|]; cbn [negb]; [|by intros [= <- <- <- <-]].
  destruct wire as [wire|]; [|by intros [= <- <- <- <-]].
  destruct (_ || _ || _) eqn:Eb; [by intros [= <- <- <- <-]|].
  destruct (token_lifetime _) as [d|e] eqn:El; [|by intros [= <- <- <- <-]]. intros [= <- <- <- <-].
  exists wire. btrue. split_and!; try done. cbn. unfold time_Add.
  apply token_lifetime_ok in El as [[He ->]|(n & Hn & Hp & _ & Hd)]; [left; split; [done|lia]|right; exists n; split_and!; try done; lia].
Qed.

(** ** Examples *)

Definition ex_parsers : WnsParsers := {|
  wns_Parse u := if decide (u = "https://db5.notify.windows.com/?token=1")
    then Some (mkWURL "https" false "" "" "" "db5.notify.windows.com") else None;
  http_ParseTime _ := None |}.
(** A service that is busy once and then accepts. *)
Definition ex_service_turn (n : nat) : nat * result WResponse :=
  (S n, Ok (match n with O => mkWResponse 503 "" "" "" "" "7" | _ => mkWResponse 200 "received" "" "" "" "" end)).

Lemma send_bounded_witness :
  ∃ w' evs r, Send (H := ex_parsers) (mkWConfig 3 Second) (λ _ w, (w, Ok "tok")) (λ _ _ _, ex_service_turn) (λ _, 0)
      (λ _ w, (w, None)) (λ _, None) "https://db5.notify.windows.com/?token=1" (mkNotification "x" None "") O =
      Some (w', evs, (r, None)) ∧
    delays evs = [7 * Second] ∧ Z.of_nat (count is_push evs) ≤ 5 ∧ wr_Outcome r = Accepted.
Proof.
  destruct (send_bounded (H := ex_parsers) (mkWConfig 3 Second) (λ _ w, (w, Ok "tok")) (λ _ _ _, ex_service_turn) (λ _, 0)
    (λ _ w, (w, None)) (λ _, None) "https://db5.notify.windows.com/?token=1" (mkNotification "x" None "") O)
    as (w' & evs & r & err & E & Hp & _ & _ & _ & _ & _ & Hok); [done|done|done|].
  vm_compute in E. injection E as <- <- <- <-. do 3 eexists.
  split; [vm_compute; reflexivity|]. split; [vm_compute; reflexivity|]. split; [exact Hp|]. apply Hok. reflexivity.
Defined.
