(* ===== verification/PushNotify.v ===== *)
(** * Waking devices

    server/pushnotify/push.go over the SQL store: Wake, the check for devices
    that stopped checking in, and the queue that records the channels devices
    report.

    The sender is a function from a channel to what Send answers.  The clock's
    readings and the details json.Marshal writes are parameters. *)
From stdpp Require Import base gmap strings list sorting.
From Stdlib Require Import ZArith Lia Ascii Sorted.
From S2P Require Import Prelude GoStrings GoUrl SyncmlModel Validate Response Encode Utf8 GoXml Decode SyncmlAuth GoCrypto Paging StateStore.
From S2P Require Import MdmCommand MdmAuth EnrollTypes Storage MdmQueue SqlBase SqlQueue SqlQueueProofs SqlStore SqlStoreProofs SqlStoreTheorems Wns.

Local Open Scope Z_scope.
Local Open Scope go_scope.

Definition Day : Duration := 24 * Hour.

Section service.
Context `{StoreCodec}.

(** [Wake]; [clock] is read for the age, for the renewal and by LogEvent. *)
Definition channel_usable (c : PushChannel) (now : Time) : bool :=
  negb (bool_decide (pc_URI c = "")) && negb (pc_Dead c) && negb (time_IsZero (pc_FirstSeen c)) &&
  (time_Sub now (pc_FirstSeen c) <? 30 * Day).

(** What Wake answers: the result, and the error. *)
Definition wake_after_send (detail : WResult → bool → bool → result string) (clock : nat → Time) (deviceID serial : string)
    (c : PushChannel) (answer : WResult * option error) (conn : Conn) : Conn * (WResult * option error) :=
  let '(r, sendErr) := answer in
  let joined e := Some (default [] sendErr ++ e) in
  match (if decide (wr_Outcome r = DeadChannel) then SS_MarkPushDead serial (pc_URI c) else ret tt) conn with
  | (conn, Err e) => (conn, (r, joined e))
  | (conn, Ok _) =>
      match SS_LogEvent deviceID "push" (detail r (bool_decide (is_Some sendErr))
              (15 * Day <=? time_Sub (clock 1%nat) (pc_FirstSeen c))) (clock 2%nat) conn with
      | (conn, Err e) => (conn, (r, joined e))
      | (conn, Ok _) => (conn, (r, sendErr))
      end
  end.

Definition Wake (send : string → WResult * option error) (detail : WResult → bool → bool → result string)
    (clock : nat → Time) (deviceID : string) (conn : Conn) : Conn * (WResult * option error) :=
  match SS_Get deviceID conn with
  | (conn, Err e) => (conn, (no_result, Some e))
  | (conn, Ok e) =>
      if decide (e_State e ≠ StateActive) then (conn, (no_result, Some [pushnotify_ErrUnavailable]))
      else match SS_PushChannel (e_Serial e) conn with
      | (conn, Err err) =>
          (conn, (no_result, Some (if errors_Is err sqlstore_ErrNotFound then [pushnotify_ErrUnavailable] else err)))
      | (conn, Ok c) =>
          if negb (channel_usable c (clock O)) then (conn, (no_result, Some [pushnotify_ErrUnavailable]))
          else wake_after_send detail clock deviceID (e_Serial e) c (send (pc_URI c)) conn
      end
  end.

(** ** CheckIns *)

Record MissingCheckIn := mkMissingCheckIn { mi_DeviceID : string; mi_LastActivity : Time }.

(** The last time anything was heard of an enrollment. *)
Definition last_activity (e : Enrollment) : Time :=
  if time_IsZero (e_LastSeenAt e) then e_EnrolledAt e else e_LastSeenAt e.

(** Readings of the clock at an enrollment's turn: for its age, and for the
    event. *)
Context (age_clock event_clock : string → Time) (detail : MissingCheckIn → result string) (maxAge : Duration).

Definition overdue (e : Enrollment) : bool :=
  bool_decide (e_State e = StateActive) && (maxAge <? time_Sub (age_clock (e_Serial e)) (last_activity e)).

Definition alert_of (e : Enrollment) : MissingCheckIn := mkMissingCheckIn (e_DeviceID e) (last_activity e).

(** The loop over one page. *)
Fixpoint check_page (items : list Enrollment) (out : list MissingCheckIn) : M Conn (list MissingCheckIn) :=
  match items with
  | [] => ret out
  | e :: items =>
      if negb (bool_decide (e_State e = StateActive)) ||
         (time_Sub (age_clock (e_Serial e)) (last_activity e) <=? maxAge) then check_page items out
      else
        SS_LogEvent (e_DeviceID e) "missing_checkin" (detail (alert_of e)) (event_clock (e_Serial e)) ;!
        check_page items (out ++ [alert_of e])
  end.

(** The loop over the pages. *)
Fixpoint check_loop (fuel : nat) (cursor : string) (out : list MissingCheckIn) : M Conn (list MissingCheckIn) :=
  match fuel with
  | O => throw []
  | S fuel =>
      let! res := SS_List (mkEnrollmentQuery "" "" "" "") (mkPage cursor MaxPageSize) in
      let! out := check_page (PR_Items res) out in
      if decide (PR_NextCursor res = "") then ret out else check_loop fuel (PR_NextCursor res) out
  end.

(** One request more than there are enrollments. *)
Definition CheckIns : M Conn (list MissingCheckIn) := λ conn,
  if maxAge <=? 0 then (conn, Err [])
  else check_loop (S (length (t_enrollments (c_db conn)))) "" [] conn.
End service.

(** ** TrackingQueue *)

(** dmclient.DeviceProviderPushChannelURI and dmclient.DeviceProviderPushStatus *)
Definition DeviceProviderPushChannelURI (providerID : string) : string :=
  "./Device/Vendor/MSFT/DMClient/Provider/" +:+ PathEscape providerID +:+ "/Push/ChannelURI".
Definition DeviceProviderPushStatus (providerID : string) : string :=
  "./Device/Vendor/MSFT/DMClient/Provider/" +:+ PathEscape providerID +:+ "/Push/Status".

Section tracking.
Context `{NameTables} `{ResultCodec} `{StoreCodec} `{WnsParsers} (providerID : string).

(** What an item reports about a requested node: a channel, a status, or
    nothing to record. *)
Definition observation (requested item : Item) : option (option string * option string) :=
  match Item_Data item with
  | None => None
  | Some _ =>
      if negb (bool_decide (Item_LocURI item = Item_Target requested)) then None
      else
        let value := Data_Text (Item_Data item) in
        if decide (Item_Target requested = DeviceProviderPushChannelURI providerID) then
          if negb (bool_decide (value = "")) && negb (is_ok (ValidateChannel value)) then None else Some (Some value, None)
        else if decide (Item_Target requested = DeviceProviderPushStatus providerID) then Some (None, Some value)
        else None
  end.

Definition observe_one (deviceID : string) (at_ : Time) (requested item : Item) : M Conn unit :=
  match observation requested item with
  | None => ret tt
  | Some (uri, status) =>
      let! e := SS_Get deviceID in
      if decide (e_State e ≠ StateActive) then ret tt
      else SS_ObservePush (e_Serial e) uri status at_
  end.

Definition TQ_StoreResult (deviceID commandID : string) (r : Result) : M Conn unit :=
  (if decide (Res_Status r = StatusOK ∧ Res_Items r ≠ []) then
     let! cmd := SQ_Get deviceID commandID in
     match qc_Body cmd with
     | CGet g => mfor (λ requested, mfor (observe_one deviceID (Res_ReceivedAt r) requested) (Res_Items r)) (Get_Items g)
     | _ => ret tt
     end
   else ret tt) ;!
  SQ_StoreResult deviceID commandID r.
End tracking.

(** ** Properties *)

(** *** Only validated channels are woken *)

(** The hash of every row is that of its URI, and the URI is empty or one that
    ValidateChannel accepts. *)
Definition channels_valid `{WnsParsers} (db : DB) : Prop :=
  ∀ serial r, t_push db !! serial = Some r →
    pr_uri_hash r = pushURIHash (pr_uri r) ∧ (pr_uri r = "" ∨ ValidateChannel (pr_uri r) = Ok tt).

#[local] Opaque pushURIHash.

Section valid.
Context `{NameTables} `{ResultCodec} `{StoreCodec} `{WnsParsers}.

(** [m] retains the rows valid, whatever the database refuses. *)
Definition retains {A} (m : M Conn A) : Prop :=
  ∀ c c' r, channels_valid (c_db c) → m c = (c', r) → channels_valid (c_db c').

Lemma retains_bind {A B} (m : M Conn A) (k : A → M Conn B) : retains m → (∀ a, retains (k a)) → retains (bind m k).
Proof.
  intros Hm Hk c c' r Hc. unfold bind. destruct (m c) as [c1 [a|e]] eqn:E; apply Hm in E; [|done| |done].
  - intros E'. by apply Hk in E'.
  - by intros [= <- _].
Qed.
Lemma retains_ret {A} (a : A) : retains (ret a).
Proof. by intros c c' r Hc [= <- _]. Qed.
Lemma retains_lift {A} (x : result A) : retains (lift x).
Proof. by intros c c' r Hc [= <- _]. Qed.
Lemma retains_mfor {A} (f : A → M Conn unit) l : (∀ a, retains (f a)) → retains (mfor f l).
Proof. intros Hf. induction l as [|a l IH]; [apply retains_ret|]. cbn [mfor]. by apply retains_bind. Qed.
Lemma retains_call {A} (f : DB → DB * result A) : (∀ db, channels_valid db → channels_valid (f db).1) → retains (call f).
Proof.
  intros Hf c c' r Hc. unfold call. specialize (Hf _ Hc).
  destruct (c_replies c) as [|[e|] l]; [|by intros [= <- _]|]; destruct (f (c_db c)) as [db x]; by intros [= <- _].
Qed.
Lemma retains_query {A} (f : DB → result A) : retains (query_ f).
Proof. by apply retains_call. Qed.
Lemma retains_read_row {Row A} e table w (scan : Row → result A) : retains (read_row e table w scan).
Proof.
  intros c c' r Hc. unfold read_row. destruct (query_ _ c) as [c1 [a|err]] eqn:E; apply retains_query in E; try done;
    [by intros [= <- _]|]. destruct (errors_Is _ _); by intros [= <- _].
Qed.

Lemma retains_update serial f :
  (∀ r, pr_uri_hash r = pushURIHash (pr_uri r) ∧ (pr_uri r = "" ∨ ValidateChannel (pr_uri r) = Ok tt) →
    pr_uri_hash (f r) = pushURIHash (pr_uri (f r)) ∧ (pr_uri (f r) = "" ∨ ValidateChannel (pr_uri (f r)) = Ok tt)) →
  retains (update_push serial f).
Proof.
  intros Hf. apply retains_call. intros db Hdb k r. cbn. destruct (decide (serial = k)) as [->|Hne].
  - rewrite lookup_alter_eq. intros (x & Hx & ->)%fmap_Some. apply Hf. by apply (Hdb k).
  - rewrite lookup_alter_ne by done. apply Hdb.
Qed.

Lemma retains_observe serial uri status at_ :
  (∀ u, uri = Some u → u = "" ∨ ValidateChannel u = Ok tt) → retains (SS_ObservePush serial uri status at_).
Proof.
  intros Hu. apply retains_bind.
  { apply retains_call. intros db Hdb k r. cbn. destruct (decide (serial = k)) as [->|Hne].
    - rewrite lookup_partial_alter_eq. destruct (t_push db !! k) as [x|] eqn:Ex; intros [= <-]; [by apply (Hdb k)|].
      split; [done|by left].
    - rewrite lookup_partial_alter_ne by done. apply Hdb. }
  intros _. apply retains_bind.
  - destruct uri as [u|]; [|apply retains_ret]. apply retains_update. intros r Hr. unfold observed_row.
    destruct (_ <=? _); [|done]. cbn. split; [done|by apply Hu].
  - intros _. destruct status as [st|]; [|apply retains_ret]. apply retains_update. by intros r Hr.
Qed.

Lemma observation_valid providerID requested item uri status :
  observation providerID requested item = Some (uri, status) →
  ∀ u, uri = Some u → u = "" ∨ ValidateChannel u = Ok tt.
Proof.
  unfold observation. destruct (Item_Data item) as [d|]; [|done]. destruct (negb _); [done|].
  case_decide; [|case_decide; [|done]; by intros [= <- _]].
  destruct (negb _ && negb _) eqn:E; [done|]. intros [= <- _] u [= <-].
  apply andb_false_iff in E as [E|E]; apply negb_false_iff in E; [left; by apply bool_decide_eq_true in E|right].
  unfold is_ok in E. by destruct (ValidateChannel _) as [[]|].
Qed.

Lemma retains_tracking providerID dev id r : retains (TQ_StoreResult providerID dev id r).
Proof.
  apply retains_bind.
  - case_decide; [|apply retains_ret]. apply retains_bind.
    + intros c c' x Hc. unfold SQ_Get. destruct (query_ _ c) as [c1 [a|err]] eqn:E; apply retains_query in E; try done;
        [by intros [= <- _]|]. destruct (errors_Is _ _); by intros [= <- _].
    + intros cmd. destruct (qc_Body cmd); try apply retains_ret. apply retains_mfor. intros requested. apply retains_mfor.
      intros item. unfold observe_one. destruct (observation providerID requested item) as [[uri status]|] eqn:Eo; [|apply retains_ret].
      apply retains_bind; [apply retains_read_row|]. intros e. case_decide; [apply retains_ret|].
      apply retains_observe. by eapply observation_valid.
  - intros _. apply retains_bind; [apply retains_lift|]. intros blob. apply retains_bind.
    + apply retains_call. intros db Hdb. by destruct (sql_update _ _ _).
    + intros n. destruct (n =? 0); [apply retains_lift|apply retains_ret].
Qed.

Lemma retains_dead serial uri : retains (SS_MarkPushDead serial uri).
Proof. apply retains_update. intros r Hr. unfold dead_row. by case_decide. Qed.

Lemma retains_log dev kind detail now : retains (SS_LogEvent dev kind detail now).
Proof.
  apply retains_bind; [apply retains_lift|]. intros blob. apply retains_call. intros db Hdb. by destruct (bigint_succ _).
Qed.

Lemma wake_after_keeps detail clock dev serial c answer conn :
  channels_valid (c_db conn) → channels_valid (c_db (wake_after_send detail clock dev serial c answer conn).1).
Proof.
  intros Hc. unfold wake_after_send. destruct answer as [r err].
  destruct ((if decide _ then SS_MarkPushDead serial (pc_URI c) else ret tt) conn) as [conn1 [[]|e]] eqn:E1;
    (assert (channels_valid (c_db conn1)) as Hc1; [revert E1; case_decide;
      [by apply retains_dead|by apply retains_ret]|]); [|done].
  destruct (SS_LogEvent _ _ _ _ conn1) as [conn2 [[]|e]] eqn:E2; by apply retains_log in E2.
Qed.

Lemma PushChannel_run serial c c' r :
  SS_PushChannel serial c = (c', r) →
  c_db c' = c_db c ∧ match r with
    | Ok ch => ∃ row, t_push (c_db c) !! serial = Some row ∧ ch = scanPush serial row
    | Err _ => True
    end.
Proof.
  unfold SS_PushChannel, read_key, query_, call. destruct (c_replies c) as [|[e|] l].
  - destruct (t_push (c_db c) !! serial) as [row|] eqn:E; cbn; intros [= <- <-]; eauto.
  - destruct (errors_Is e _); by intros [= <- <-].
  - destruct (t_push (c_db c) !! serial) as [row|] eqn:E; cbn; intros [= <- <-]; eauto.
Qed.

(** C30: Whatever devices report and whatever the database refuses, every push
    channel on record is empty or passes ValidateChannel: it holds before the
    first result, TrackingQueue retains it, Wake retains it; and Wake hands the
    sender no other channel, so what it does cannot depend on the sender's
    answer for one. *)
Theorem only_valid_channels_woken :
  channels_valid empty_db ∧
  (∀ providerID dev id r c, channels_valid (c_db c) → channels_valid (c_db (TQ_StoreResult providerID dev id r c).1)) ∧
  (∀ send detail clock dev c, channels_valid (c_db c) → channels_valid (c_db (Wake send detail clock dev c).1)) ∧
  (∀ send send' detail clock dev c, channels_valid (c_db c) → (∀ u, ValidateChannel u = Ok tt → send u = send' u) →
    Wake send detail clock dev c = Wake send' detail clock dev c).
Proof.
  split_and!.
  - done.
  - intros providerID dev id r c Hc. destruct (TQ_StoreResult _ _ _ _ c) as [c' x] eqn:E. by apply retains_tracking in E.
  - intros send detail clock dev c Hc. unfold Wake. destruct (SS_Get dev c) as [c1 [e|err]] eqn:E1;
      (assert (channels_valid (c_db c1)) as Hc1 by (by eapply retains_read_row)); [|done].
    case_decide; [done|]. destruct (SS_PushChannel _ c1) as [c2 [ch|err]] eqn:E2; apply PushChannel_run in E2 as [Hdb _];
      rewrite <- Hdb in Hc1; [|done]. destruct (negb _); [done|]. by apply wake_after_keeps.
  - intros send send' detail clock dev c Hc Hs. unfold Wake. destruct (SS_Get dev c) as [c1 [e|err]] eqn:E1;
      (assert (channels_valid (c_db c1)) as Hc1 by (by eapply retains_read_row)); [|done].
    case_decide; [done|]. destruct (SS_PushChannel _ c1) as [c2 [ch|err]] eqn:E2; [|done].
    apply PushChannel_run in E2 as [_ (row & Hrow & ->)]. destruct (negb _) eqn:Eu; [done|].
    rewrite Hs; [done|]. apply negb_false_iff in Eu. unfold channel_usable in Eu. btrue. cbn in *.
    by destruct (Hc1 _ _ Hrow) as [_ [?|?]].
Qed.
End valid.

(** *** A dead channel is not tried again *)

Section dead.
Context `{StoreCodecLaws}.

Lemma same_store_frame db db' s :
  t_enrollments db' = t_enrollments db → t_certificates db' = t_certificates db → t_credentials db' = t_credentials db →
  same_store db s → same_store db' s.
Proof. intros E1 E2 E3 []. constructor; rewrite ?E1, ?E2, ?E3; done. Qed.

Lemma LogEvent_frame dev kind detail now db :
  ∃ db' r, SS_LogEvent dev kind detail now (mkConn db []) = (mkConn db' [], r) ∧
    t_enrollments db' = t_enrollments db ∧ t_certificates db' = t_certificates db ∧ t_credentials db' = t_credentials db ∧
    t_push db' = t_push db.
Proof.
  unfold SS_LogEvent, bind, lift. destruct detail as [blob|e]; [|by eexists _, _]. rewrite call_sound.
  destruct (bigint_succ _); by eexists _, _.
Qed.

(** A channel marked dead is not usable. *)
Lemma Wake_dead db s dev e row send detail clock :
  same_store db s → Storage.Get dev s = Ok e → t_push db !! e_Serial e = Some row → pr_dead row ≠ 0 →
  Wake send detail clock dev (mkConn db []) = (mkConn db [], (no_result, Some [pushnotify_ErrUnavailable])).
Proof.
  intros Hs He Hrow Hd. unfold Wake. rewrite (Get_same _ s), He by done. case_decide; [done|].
  unfold SS_PushChannel, read_key, query_, call. cbn [c_replies c_db]. rewrite Hrow.
  assert (channel_usable (scanPush (e_Serial e) row) (clock O) = false) as ->; [|done].
  unfold channel_usable. cbn. destruct (Z.eqb_spec (pr_dead row) 0); [done|]. cbn. by rewrite andb_false_r.
Qed.

(** Nothing was sent. *)
Local Ltac no_send := match goal with |- _ = (_, (?r, _)) → _ => intros E; assert (r = no_result) as -> by (cbn in E; congruence); done end.

(** Once the push service has called a channel dead, Wake does not use it
    again: every later Wake of the device, with any sender and at any time,
    reports that no channel is usable, until another reading changes the row. *)
Theorem dead_channel_suppressed db s send detail clock dev r err db1 :
  same_store db s →
  (∀ serial row, t_push db !! serial = Some row → pr_uri_hash row = pushURIHash (pr_uri row)) →
  Wake send detail clock dev (mkConn db []) = (mkConn db1 [], (r, err)) → wr_Outcome r = DeadChannel →
  ∀ send' detail' clock',
    Wake send' detail' clock' dev (mkConn db1 []) = (mkConn db1 [], (no_result, Some [pushnotify_ErrUnavailable])).
Proof.
  intros Hs Hh. unfold Wake at 1. rewrite (Get_same _ s) by done.
  destruct (Storage.Get dev s) as [e|e0] eqn:He; [|no_send]. case_decide; [no_send|].
  unfold SS_PushChannel, read_key, query_, call. cbn [c_replies c_db].
  destruct (t_push db !! e_Serial e) as [row|] eqn:Hrow; cbn iota beta;
    [|change (errors_Is [sql_ErrNoRows] sql_ErrNoRows) with true; no_send].
  destruct (negb _); [no_send|]. unfold wake_after_send. cbn [pc_URI scanPush].
  destruct (send (pr_uri row)) as [r0 e0]. set (db2 := set_push (alter (dead_row (pr_uri row)) (e_Serial e) (t_push db)) db).
  destruct (LogEvent_frame dev "push" (detail r0 (bool_decide (is_Some e0))
    (15 * Day <=? time_Sub (clock 1%nat) (pc_FirstSeen (scanPush (e_Serial e) row)))) (clock 2%nat) db2)
    as (db3 & x & El & F1 & F2 & F3 & F4).
  intros E Hr send' detail' clock'. assert (r = r0) as ->.
  { revert E. case_decide; [|unfold ret; clear El; destruct (SS_LogEvent _ _ _ _ _) as [? [[]|?]]; congruence].
    unfold SS_MarkPushDead, update_push. rewrite call_sound. fold db2. rewrite El. destruct x as [[]|?]; congruence. }
  rewrite decide_True in E by done. unfold SS_MarkPushDead, update_push in E. rewrite call_sound in E. fold db2 in E.
  rewrite El in E. assert (db1 = db3) as -> by (destruct x as [[]|?]; by injection E).
  apply (Wake_dead db3 s dev e (dead_row (pr_uri row) row)); [|done| |].
  - by apply (same_store_frame db2); [..|apply (same_store_frame db)].
  - rewrite F4. cbn. by rewrite lookup_alter_eq, Hrow.
  - unfold dead_row. rewrite decide_True by by apply (Hh (e_Serial e)). done.
Qed.
End dead.

(** *** Check-ins *)

Section check_ins.
Context `{StoreCodecLaws} (age_clock event_clock : string → Time) (detail : MissingCheckIn → result string) (maxAge : Duration).
Context (Hdetail : ∀ a, is_ok (detail a) = true).

#[local] Notation late := (overdue age_clock maxAge).

(** The alerts were logged, and nothing else changed. *)
Record logged (alerts : list MissingCheckIn) (db db' : DB) : Prop := mk_logged {
  lg_enrollments : t_enrollments db' = t_enrollments db;
  lg_certificates : t_certificates db' = t_certificates db;
  lg_credentials : t_credentials db' = t_credentials db;
  lg_commands : t_commands db' = t_commands db;
  lg_push : t_push db' = t_push db;
  lg_id : t_event_id db' = t_event_id db + zlength alerts;
  lg_events : ∃ rows, t_events db' = t_events db ++ rows ∧ map vr_device_id rows = map mi_DeviceID alerts ∧
    Forall (λ r, vr_kind r = "missing_checkin") rows }.

Lemma logged_nil db : logged [] db db.
Proof. constructor; try done; [unfold zlength; cbn; lia|]. exists []. by rewrite app_nil_r. Qed.

Lemma logged_app a b db1 db2 db3 : logged a db1 db2 → logged b db2 db3 → logged (a ++ b) db1 db3.
Proof.
  intros [A1 A2 A3 A4 A5 A6 (ra & A7 & A8 & A9)] [B1 B2 B3 B4 B5 B6 (rb & B7 & B8 & B9)].
  constructor; try congruence.
  - rewrite B6, A6. unfold zlength. rewrite length_app. lia.
  - exists (ra ++ rb). rewrite B7, A7, !map_app, A8, B8, app_assoc. split_and!; try done. by apply Forall_app.
Qed.

Lemma logged_one e db :
  t_event_id db < max_int64 →
  ∃ db', SS_LogEvent (e_DeviceID e) "missing_checkin" (detail (alert_of e)) (event_clock (e_Serial e)) (mkConn db []) =
      (mkConn db' [], Ok tt) ∧ logged [alert_of e] db db'.
Proof.
  intros Hmax. pose proof (Hdetail (alert_of e)) as Hd. unfold SS_LogEvent, bind, lift.
  destruct (detail (alert_of e)) as [blob|]; [|done]. rewrite call_sound. unfold bigint_succ.
  destruct (Z.eqb_spec (t_event_id db) max_int64); [lia|]. eexists. split; [done|].
  constructor; try done. eexists. split; [done|]. by repeat constructor.
Qed.

Lemma check_page_run items out db :
  t_event_id db + zlength items ≤ max_int64 →
  ∃ db', check_page age_clock event_clock detail maxAge items out (mkConn db []) =
      (mkConn db' [], Ok (out ++ map alert_of (List.filter late items))) ∧
    logged (map alert_of (List.filter late items)) db db'.
Proof.
  revert out db. induction items as [|e items IH]; intros out db Hmax; cbn [check_page List.filter].
  { exists db. rewrite app_nil_r. split; [done|apply logged_nil]. }
  assert (negb (bool_decide (e_State e = StateActive)) ||
    (time_Sub (age_clock (e_Serial e)) (last_activity e) <=? maxAge) = negb (late e)) as ->.
  { unfold overdue. rewrite negb_andb, Z.leb_antisym. done. }
  unfold zlength in *. cbn [length] in Hmax. destruct (late e); cbn [negb].
  - destruct (logged_one e db) as (db1 & E1 & L1); [lia|]. rewrite (bind_run _ _ _ _ _ E1).
    destruct (IH (out ++ [alert_of e]) db1) as (db2 & E2 & L2).
    { rewrite (lg_id _ _ _ L1). unfold zlength. cbn. lia. }
    exists db2. rewrite E2, <- app_assoc. split; [done|]. by apply (logged_app [alert_of e] _ db db1).
  - apply IH. lia.
Qed.

Lemma check_loop_run s all fuel cursor out db pages :
  (∀ p, ListEnrollments (mkEnrollmentQuery "" "" "" "") p s = page all p) →
  same_store db s → Z.of_nat (size (st_enrollments s)) ≤ max_int64 →
  page_all fuel all cursor MaxPageSize = Ok pages → t_event_id db + zlength (concat pages) ≤ max_int64 →
  ∃ db', check_loop age_clock event_clock detail maxAge fuel cursor out (mkConn db []) =
      (mkConn db' [], Ok (out ++ map alert_of (List.filter late (concat pages)))) ∧
    logged (map alert_of (List.filter late (concat pages))) db db'.
Proof.
  intros Hall Hs Hsize. revert cursor out db pages Hs. induction fuel as [|fuel IH]; intros cursor out db pages Hs; [done|].
  cbn [page_all check_loop]. unfold bind at 1. rewrite (List_same _ s), Hall by done.
  destruct (page all (mkPage cursor MaxPageSize)) as [res|e]; [|done]. cbn [result_bind].
  assert (∀ n, t_event_id db + zlength (PR_Items res) + n ≤ max_int64 → 0 ≤ n → ∃ db',
    check_page age_clock event_clock detail maxAge (PR_Items res) out (mkConn db []) =
      (mkConn db' [], Ok (out ++ map alert_of (List.filter late (PR_Items res)))) ∧
    logged (map alert_of (List.filter late (PR_Items res))) db db') as Hpage.
  { intros n Hn Hn0. apply check_page_run. lia. }
  case_decide as Hnext.
  - intros [= <-]. cbn [concat]. rewrite app_nil_r. intros Hmax. destruct (Hpage 0) as (db1 & E1 & L1); [lia|done|].
    rewrite (bind_run _ _ _ _ _ E1). by exists db1.
  - intros (rest & Hrest & [= <-])%result_bind_Ok. cbn [concat]. intros Hmax.
    assert (0 ≤ zlength (concat rest)) by (unfold zlength; lia).
    assert (zlength (PR_Items res ++ concat rest) = zlength (PR_Items res) + zlength (concat rest)) as Hl
      by (unfold zlength; rewrite length_app; lia).
    destruct (Hpage (zlength (concat rest))) as (db1 & E1 & L1); [lia|done|]. rewrite (bind_run _ _ _ _ _ E1).
    assert (zlength (map alert_of (List.filter late (PR_Items res))) ≤ zlength (PR_Items res)) as Hfl.
    { unfold zlength. rewrite length_map. pose proof (length_filter_le late (PR_Items res)). lia. }
    destruct (IH (PR_NextCursor res) (out ++ map alert_of (List.filter late (PR_Items res))) db1 rest) as (db2 & E2 & L2).
    + apply (same_store_frame db); [apply L1..|done].
    + done.
    + rewrite (lg_id _ _ _ L1). lia.
    + exists db2. rewrite E2, List.filter_app, map_app, app_assoc. split; [done|]. by apply (logged_app _ _ db db1).
Qed.

Lemma list_all (l : list Enrollment) : List.filter (enr_matches (mkEnrollmentQuery "" "" "" "")) l = l.
Proof. induction l as [|e l IH]; [done|]. cbn [List.filter]. change (enr_matches _ e) with true. by rewrite IH. Qed.

End check_ins.

(** ** Examples *)

#[local] Existing Instance one_codec.
#[local] Existing Instance one_codec_laws.

Definition ex_channel : string := "https://db5.notify.windows.com/?token=1".
Definition ex_pushed : DB :=
  set_push {["7" := mkPushRow ex_channel (pushURIHash ex_channel) (nanos ex_stamp) (nanos ex_stamp) 0 ""]} ex_tables.
Definition ex_gone : WResult := mkWResult 410 DeadChannel "" "" "" "" 0.
Definition ex_detail (_ : WResult) (_ _ : bool) : result string := Ok "null".
Definition ex_clock (_ : nat) : Time := ex_stamp + Hour.

Lemma ex_pushed_same : ∃ s, @same_store one_codec ex_pushed s.
Proof. destruct ex_tables_same as [s Hs]. exists s. by apply (same_store_frame ex_tables). Qed.

Lemma dead_channel_suppressed_witness :
  ∃ db1, Wake (H := one_codec) (λ _, (ex_gone, Some [wns_ResponseError])) ex_detail ex_clock "dev" (mkConn ex_pushed []) =
      (mkConn db1 [], (ex_gone, Some [wns_ResponseError])) ∧
    Wake (H := one_codec) (λ _, (no_result, None)) ex_detail ex_clock "dev" (mkConn db1 []) =
      (mkConn db1 [], (no_result, Some [pushnotify_ErrUnavailable])).
Proof.
  destruct ex_pushed_same as [s Hs].
  destruct (Wake (λ _, (ex_gone, Some [wns_ResponseError])) ex_detail ex_clock "dev" (mkConn ex_pushed []))
    as [[db1 l] [r err]] eqn:E.
  assert (l = [] ∧ r = ex_gone ∧ err = Some [wns_ResponseError]) as (-> & -> & ->).
  { assert (c_replies (Wake (λ _, (ex_gone, Some [wns_ResponseError])) ex_detail ex_clock "dev" (mkConn ex_pushed [])).1 = [] ∧
      (Wake (λ _, (ex_gone, Some [wns_ResponseError])) ex_detail ex_clock "dev" (mkConn ex_pushed [])).2 =
      (ex_gone, Some [wns_ResponseError])) as [H1 H2] by (split; vm_compute; reflexivity).
    rewrite E in H1, H2. cbn [fst snd c_replies] in H1, H2. injection H2 as -> ->. split; [exact H1|split; reflexivity]. }
  exists db1. split; [reflexivity|].
  apply (dead_channel_suppressed ex_pushed s (λ _, (ex_gone, Some [wns_ResponseError])) ex_detail ex_clock "dev" ex_gone
    (Some [wns_ResponseError]) db1 Hs); [|exact E|reflexivity].
  intros serial row. unfold ex_pushed. cbn [t_push set_push]. intros [<- <-]%lookup_singleton_Some. reflexivity.
Defined.

