(* ===== verification/Reconcile.v ===== *)
(** * Reconciling desired settings

    mdmprotocol/mdm/reconcile.go: Diff computes the commands a device still
    needs, AcknowledgedValues what it is known to hold.  [sort.Slice] leaves
    the order of equal URIs open; the merge sort used here picks one, and the
    statements are about settings with distinct URIs. *)
From stdpp Require Import base gmap strings list sorting.
From Stdlib Require Import ZArith Lia Ascii Sorted.
From S2P Require Import Prelude GoStrings SyncmlModel Validate MdmCommand Paging.
From S2P Require Import StateStore MdmQueue InmemQueue.

Local Open Scope Z_scope.
Local Open Scope go_scope.

Record Setting := mkSetting { Set_URI : string; Set_Value : string; Set_Format : string }.

Definition uri_le (a b : Setting) : Prop := str_le (Set_URI a) (Set_URI b).
#[global] Instance uri_le_dec a b : base.Decision (uri_le a b).
Proof. unfold uri_le. apply _. Defined.

(** One turn of Diff's loop. *)
Definition diff_setting (acknowledged : gmap string string) (s : Setting) : list MCommand :=
  if decide (acknowledged !! Set_URI s = Some (Set_Value s)) then []
  else
    let opts := if decide (Set_Format s = "") then [] else [WithFormat (Set_Format s)] in
    match NewReplace (Set_URI s) (Set_Value s) opts with
    | Err _ => []
    | Ok cmd => [cmd]
    end.

Definition Diff (desired : list Setting) (acknowledged : gmap string string) : list MCommand :=
  concat (map (diff_setting acknowledged) (merge_sort uri_le desired)).

Definition record_item (uri : string) (it : Item) (out : gmap string string)
    : gmap string string :=
  match Item_Data it with
  | Some d => if decide (uri = "") then out else <[uri := Data_Text (Some d)]> out
  | None => out
  end.

Definition collect_leaf (out : gmap string string) (leaf : Command) : gmap string string :=
  match leaf with
  | CAdd _ | CReplace _ =>
      foldl (λ out it, record_item (Item_Target it) it out) out (itemsOf leaf)
  | _ => out
  end.

Definition collectValues (out : gmap string string) (qc : QueuedCommand) : gmap string string :=
  let out := foldl collect_leaf out (Leaves (qc_Body qc)) in
  match qc_Result qc with
  | Some r => foldl (λ out it, record_item (Item_LocURI it) it out) out (Res_Items r)
  | None => out
  end.

(** The loop of AcknowledgedValues over the pages. *)
Fixpoint acknowledged_pages (fuel : nat) (q : Queue) (dev cursor : string)
    (out : gmap string string) : result (gmap string string) :=
  match fuel with
  | O => Err []
  | S fuel =>
      let? res := Queue_List dev (mkQuery [StateAcknowledged] None "")
                    (mkPage cursor MaxPageSize) q in
      let out := foldl collectValues out (PR_Items res) in
      if decide (PR_NextCursor res = "") then Ok out
      else acknowledged_pages fuel q dev (PR_NextCursor res) out
  end.

(** [AcknowledgedValues]; one page more than there are commands is fuel enough
    ([acknowledged_values_fold]). *)
Definition AcknowledgedValues (q : Queue) (dev : string) : result (gmap string string) :=
  acknowledged_pages (S (length (dev_cmds q dev))) q dev "" ∅.

(** ** Lemmas *)

Definition acked (q : Queue) (dev : string) : list QueuedCommand :=
  List.filter (λ qc, bool_decide (qc_State qc = StateAcknowledged)) (dev_cmds q dev).

Lemma filter_acked q dev :
  List.filter (λ qc, matches qc (mkQuery [StateAcknowledged] None "")) (dev_cmds q dev) =
  acked q dev.
Proof.
  apply filter_ext. intros qc. unfold matches. cbn. by rewrite orb_false_r.
Qed.

Lemma pages_fold fuel q dev cursor off out :
  zlength (acked q dev) ≤ max_int64 → cursor_offset cursor = Ok off →
  0 ≤ off ≤ zlength (acked q dev) → zlength (acked q dev) - off < Z.of_nat fuel →
  acknowledged_pages fuel q dev cursor out =
    Ok (foldl collectValues out (drop (Z.to_nat off) (acked q dev))).
Proof.
  intros Hmax. revert cursor off out. induction fuel as [|fuel IH]; intros cursor off out Hc Ho Hf;
    [lia|].
  cbn [acknowledged_pages]. unfold Queue_List. rewrite filter_acked, (page_at _ _ _ off) by done.
  cbn [result_bind PR_Items PR_NextCursor].
  pose proof (Page_Size_range (mkPage cursor MaxPageSize)) as Hs.
  set (e := Z.min _ _). set (sz := Page_Size (mkPage cursor MaxPageSize)) in *.
  assert (off ≤ e ≤ zlength (acked q dev)) as He by lia.
  rewrite <- (slice_drop (acked q dev) off e) by lia. rewrite foldl_app.
  destruct (Z.ltb_spec e (zlength (acked q dev))).
  - rewrite decide_False by apply Itoa_nonempty. apply IH; [apply cursor_offset_Itoa; lia|lia..].
  - rewrite decide_True by done. rewrite (drop_ge _ (Z.to_nat e)) by (unfold zlength in *; lia).
    done.
Qed.

Lemma length_acked q dev : (length (acked q dev) ≤ length (dev_cmds q dev))%nat.
Proof. apply filter_length_le. Qed.

Lemma NewReplace_Ok uri v opts c :
  NewReplace uri v opts = Ok c → opts = [] ∨ (∃ f, opts = [WithFormat f]) →
  CheckLocURI uri = Ok tt ∧ ∃ it, cmd_Body c = replace_of [it] ∧ Item_Target it = uri ∧
    Item_Data it = Some (mkData v "" "").
Proof.
  unfold NewReplace. intros (it & Hit & [= <-])%result_bind_Ok Hopts.
  unfold item in Hit. destruct (CheckLocURI uri) as [[]|]; [|done]. injection Hit as <-.
  split; [done|]. eexists. split; [done|]. split; [done|].
  by destruct Hopts as [->|[f ->]].
Qed.

Lemma diff_setting_spec ack s :
  CheckLocURI (Set_URI s) = Ok tt →
  (ack !! Set_URI s = Some (Set_Value s) ∧ diff_setting ack s = []) ∨
  (ack !! Set_URI s ≠ Some (Set_Value s) ∧
   ∃ c it, diff_setting ack s = [c] ∧ cmd_Body c = replace_of [it] ∧
     Item_Target it = Set_URI s ∧ Item_Data it = Some (mkData (Set_Value s) "" "")).
Proof.
  intros Hu. unfold diff_setting. case_decide as Hd; [by left|]. right. split; [done|].
  set (opts := if decide (Set_Format s = "") then _ else _).
  assert (opts = [] ∨ ∃ f, opts = [WithFormat f]) as Hopts
    by (unfold opts; case_decide; eauto).
  destruct (NewReplace (Set_URI s) (Set_Value s) opts) as [c|e] eqn:E.
  - destruct (NewReplace_Ok _ _ _ _ E Hopts) as (_ & it & ? & ? & ?). eauto 10.
  - unfold NewReplace, item in E. by rewrite Hu in E.
Qed.

(** The answer to a Replace or a Delete carries no items. *)
Definition no_items (qc : QueuedCommand) : Prop :=
  ∀ r, qc_Result qc = Some r → Res_Items r = [].

(** Acknowledging a command that carries one value records that value. *)
Lemma collect_replace out qc it u v :
  qc_Body qc = replace_of [it] → Item_Target it = u → Item_Data it = Some (mkData v "" "") →
  u ≠ "" → no_items qc → collectValues out qc = <[u := v]> out.
Proof.
  intros Hb <- Hd Hu Hr. unfold collectValues. rewrite Hb.
  assert (foldl collect_leaf out (Leaves (replace_of [it])) = <[Item_Target it := v]> out) as ->.
  { cbn. unfold record_item. by rewrite Hd, decide_False by done. }
  unfold no_items in Hr.
  destruct (qc_Result qc) as [r|]; [|done]. by rewrite (Hr r eq_refl).
Qed.

Lemma CheckLocURI_nonempty u : CheckLocURI u = Ok tt → u ≠ "".
Proof. by intros E ->. Qed.

(** Acknowledging the commands of a list of settings leaves each at its
    desired value. *)
Lemma collect_diff ack ds : ∀ qcs out,
  NoDup (map Set_URI ds) → Forall (λ s, CheckLocURI (Set_URI s) = Ok tt) ds →
  (∀ s, s ∈ ds → out !! Set_URI s = ack !! Set_URI s) →
  map qc_Body qcs = map cmd_Body (concat (map (diff_setting ack) ds)) → Forall no_items qcs →
  (∀ s, s ∈ ds → foldl collectValues out qcs !! Set_URI s = Some (Set_Value s)) ∧
  (∀ u, u ∉ map Set_URI ds → foldl collectValues out qcs !! u = out !! u).
Proof.
  induction ds as [|s ds IH]; intros qcs out Hnd Hu Hout Hq Hr; cbn [map concat] in *.
  { apply map_eq_nil in Hq as ->. split; [|done]. intros s Hs. by apply not_elem_of_nil in Hs. }
  apply NoDup_cons in Hnd as [Hni Hnd]. apply Forall_cons in Hu as [Hu Hus].
  assert (∀ s', s' ∈ ds → Set_URI s' ≠ Set_URI s) as Hne
    by (intros s' Hs' E; apply Hni; rewrite <- E; by apply list_elem_of_fmap_2).
  destruct (diff_setting_spec ack s Hu) as [[Hack Hd]|(Hack & c & it & Hd & Hb & Ht & Hdat)];
    rewrite Hd in Hq.
  - destruct (IH qcs out Hnd Hus) as [Hin Hother]; try done.
    { intros s' Hs'. apply Hout. by apply list_elem_of_further. }
    split.
    + intros s' [->|Hs']%elem_of_cons; [|by apply Hin]. rewrite Hother by done.
      rewrite Hout by apply list_elem_of_here. done.
    + intros u [_ Hu']%not_elem_of_cons. by apply Hother.
  - destruct qcs as [|qc qcs]; [done|]. cbn [map app] in Hq. injection Hq as Hqb Hq.
    apply Forall_cons in Hr as [Hr0 Hr]. cbn [foldl].
    rewrite (collect_replace out qc it (Set_URI s) (Set_Value s)); try done;
      [|by rewrite Hqb|by apply CheckLocURI_nonempty].
    destruct (IH qcs (<[Set_URI s := Set_Value s]> out) Hnd Hus) as [Hin Hother]; try done.
    { intros s' Hs'. rewrite lookup_insert_ne by (intros E; by apply (Hne s')).
      apply Hout. by apply list_elem_of_further. }
    split.
    + intros s' [->|Hs']%elem_of_cons; [|by apply Hin]. rewrite Hother by done.
      apply lookup_insert_eq.
    + intros u [Hu1 Hu']%not_elem_of_cons. rewrite Hother by done.
      by apply lookup_insert_ne.
Qed.

Lemma diff_nothing ack ds :
  (∀ s, s ∈ ds → ack !! Set_URI s = Some (Set_Value s)) →
  concat (map (diff_setting ack) ds) = [].
Proof.
  induction ds as [|s ds IH]; intros Hs; [done|]. cbn [map concat].
  unfold diff_setting at 1. rewrite decide_True by (apply Hs; apply list_elem_of_here).
  apply IH. intros s' Hs'. apply Hs. by apply list_elem_of_further.
Qed.

(** ** Properties *)

(** Reading back a device's values pages through the queue to its end and
    gives the values of all its acknowledged commands, taken in queue order. *)
Theorem acknowledged_values_fold q dev :
  zlength (dev_cmds q dev) ≤ max_int64 →
  AcknowledgedValues q dev = Ok (foldl collectValues ∅ (acked q dev)).
Proof.
  intros Hmax. unfold AcknowledgedValues. pose proof (length_acked q dev) as Hl.
  unfold zlength in *. rewrite (pages_fold _ _ _ "" 0); try done; unfold zlength; lia.
Qed.

(** C33: Diff converges: for settings with distinct, well-formed URIs it issues
    one Replace per setting whose known value differs, in URI order, carrying
    the desired value, and nothing for the others; and once the device has
    acknowledged those commands there is nothing left to issue. *)
Theorem reconcile_converges desired ack :
  NoDup (map Set_URI desired) → Forall (λ s, CheckLocURI (Set_URI s) = Ok tt) desired →
  (∃ todo, Forall2 (λ s c, ∃ it, cmd_Body c = replace_of [it] ∧ Item_Target it = Set_URI s ∧
       Item_Data it = Some (mkData (Set_Value s) "" "")) todo (Diff desired ack) ∧
     Sorted uri_le todo ∧
     ∀ s, s ∈ todo ↔ s ∈ desired ∧ ack !! Set_URI s ≠ Some (Set_Value s)) ∧
  ∀ qcs, map qc_Body qcs = map cmd_Body (Diff desired ack) → Forall no_items qcs →
    Diff desired (foldl collectValues ack qcs) = [].
Proof.
  intros Hnd Hu. unfold Diff. set (ds := merge_sort uri_le desired).
  assert (ds ≡ₚ desired) as Hp by apply merge_sort_Permutation.
  assert (NoDup (map Set_URI ds)) as Hnd'
    by (change (NoDup (Set_URI <$> ds)); by rewrite Hp).
  assert (Forall (λ s, CheckLocURI (Set_URI s) = Ok tt) ds) as Hu' by by rewrite Hp.
  assert (StronglySorted uri_le ds) as Hss.
  { assert (Transitive uri_le) by (intros ???; apply str_le_trans).
    assert (Total uri_le) by (intros ??; apply str_le_total).
    apply Sorted_StronglySorted; [done|]. by apply Sorted_merge_sort. }
  split.
  - exists (List.filter (λ s, negb (bool_decide (ack !! Set_URI s = Some (Set_Value s)))) ds).
    split_and!.
    + clear - Hu'. induction Hu' as [|s ds Hs _ IH]; [constructor|]. cbn [List.filter map concat].
      destruct (diff_setting_spec ack s Hs) as [[Ha ->]|(Ha & c & it & -> & Hb)].
      * rewrite bool_decide_eq_true_2 by done. exact IH.
      * rewrite bool_decide_eq_false_2 by done. constructor; [eauto|exact IH].
    + apply StronglySorted_Sorted. clear - Hss.
      induction Hss as [|s ds Hs IH Hall]; [constructor|]. cbn [List.filter].
      destruct (negb _); [|done]. constructor; [done|].
      rewrite Forall_forall in Hall |- *. intros x Hx. apply Hall.
      apply list_elem_of_In, filter_In in Hx as [Hx _]. by apply list_elem_of_In.
    + intros s. rewrite list_elem_of_In, filter_In, <- list_elem_of_In, Hp.
      rewrite negb_true_iff, bool_decide_eq_false. done.
  - intros qcs Hq Hr. apply diff_nothing.
    destruct (collect_diff ack ds qcs ack Hnd' Hu') as [Hin _]; done.
Qed.

Definition ex_desired : list Setting :=
  [mkSetting "./Device/B" "2" "int"; mkSetting "./Device/A" "1" ""].

(** Two settings reconciled on an empty device: the commands of [Diff] are
    enqueued, and the device acknowledges both. *)
Definition ex_ok : Result := mkResult StatusOK "" [] [] 9.
Definition ex_enqueued : Queue :=
  foldl (λ q c, (Queue_Enqueue "d" (Some c) 5 q).1) NewQueue (Diff ex_desired ∅).
Definition ex_acked : Queue :=
  foldl (λ q id, (Queue_StoreResult "d" id ex_ok q).1) ex_enqueued ["cmd-1"; "cmd-2"].

Lemma acknowledged_values_fold_witness :
  AcknowledgedValues ex_acked "d" = Ok (foldl collectValues ∅ (acked ex_acked "d")) ∧
  foldl collectValues ∅ (acked ex_acked "d") = {["./Device/A" := "1"; "./Device/B" := "2"]}.
Proof.
  split.
  - apply (acknowledged_values_fold ex_acked "d"). vm_compute. discriminate.
  - vm_compute. reflexivity.
Defined.

Lemma reconcile_converges_witness :
  map cmd_Body (Diff ex_desired ∅) ≠ [] ∧
  Diff ex_desired (foldl collectValues ∅ (acked ex_acked "d")) = [].
Proof.
  split; [vm_compute; discriminate|].
  apply (reconcile_converges ex_desired ∅).
  - apply NoDup_ListNoDup. repeat constructor; simpl; intuition discriminate.
  - repeat constructor.
  - vm_compute. reflexivity.
  - repeat constructor; intros r [= <-]; reflexivity.
Defined.

(** Acknowledging a Delete leaves the value it removed among the acknowledged
    ones, so Diff issues nothing to restore it. *)
Lemma deleted_value_kept out qc b :
  qc_Body qc = CDelete b → no_items qc → collectValues out qc = out.
Proof.
  intros Hb Hr. unfold collectValues. rewrite Hb. cbn. unfold no_items in Hr.
  destruct (qc_Result qc) as [r|]; [|done]. by rewrite (Hr r eq_refl).
Qed.
