(* ===== verification/MdmSession.v ===== *)
(** * Sessions

    mdmprotocol/mdm/session.go: the state of one OMA DM session and the
    in-memory session store, with the bookkeeping of results.go, collect.go
    and build.go that reads and writes only the session.

    GetSession and PutSession copy the Session struct, but the maps and
    pointers in it are shared between the copies.  A request that fails part
    way therefore leaves its marks on the stored session; a request that
    succeeds replaces or deletes it.  After a failure only the fields of the
    struct itself are as the model has them, and statements about the store
    are limited to these. *)
From stdpp Require Import base gmap strings list.
From Stdlib Require Import ZArith Lia Ascii.
From S2P Require Import Prelude GoStrings SyncmlModel LargeObject Validate Response.
From S2P Require Import Encode MdmCommand Paging MdmQueue.

Local Open Scope Z_scope.
Local Open Scope go_scope.

Record Facts := mkFacts {
  f_DevInfo : gmap string string;
  f_LoginStatus : string;
  f_SyncType : string;
  f_DevicePrepSync : string;
  f_UserAgentOrigin : string }.

Record Outgoing := mkOutgoing {
  out_CommandID : string;
  out_Chunks : list Item;
  out_Name : string }.

(** [type pendingResult struct] of collect.go. *)
Record pendingResult := mkPending {
  pr_status : option StatusCode;
  pr_origErr : string;
  pr_items : list Item;
  pr_children : list ChildResult }.

(** [type Session struct]; a nil map is an empty one. *)
Record Session := mkSession {
  s_Key : string;
  s_DeviceID : string;
  s_SessionID : string;
  s_EnrollmentKey : string;
  s_ClientMsgID : Z;
  s_ServerMsgID : Z;
  s_Authenticated : bool;
  s_AuthType : string;
  s_Challenged : Z;
  s_ServerNonce : string;
  s_Facts : Facts;
  s_gotPackageOne : bool;
  s_Sent : gmap string string;
  s_Children : gmap string string;
  s_Outgoing : option Outgoing;
  s_Assembler : option Assembler;
  s_AssemblingCommand : string;
  s_results : gmap string pendingResult;
  s_MaxMsgSize : Z;
  s_MaxObjSize : Z;
  s_Namespace : string;
  s_StartedAt : Time;
  s_LastSeen : Time;
  s_Closed : bool;
  s_unenroll : bool }.

(** Assignments to one field. *)
Definition set_ClientMsgID (v : Z) (s : Session) : Session :=
  mkSession (s_Key s) (s_DeviceID s) (s_SessionID s) (s_EnrollmentKey s) v
    (s_ServerMsgID s) (s_Authenticated s) (s_AuthType s) (s_Challenged s) (s_ServerNonce s)
    (s_Facts s) (s_gotPackageOne s) (s_Sent s) (s_Children s) (s_Outgoing s)
    (s_Assembler s) (s_AssemblingCommand s) (s_results s) (s_MaxMsgSize s) (s_MaxObjSize s)
    (s_Namespace s) (s_StartedAt s) (s_LastSeen s) (s_Closed s) (s_unenroll s).
Definition set_ServerMsgID (v : Z) (s : Session) : Session :=
  mkSession (s_Key s) (s_DeviceID s) (s_SessionID s) (s_EnrollmentKey s) (s_ClientMsgID s)
    v (s_Authenticated s) (s_AuthType s) (s_Challenged s) (s_ServerNonce s) (s_Facts s)
    (s_gotPackageOne s) (s_Sent s) (s_Children s) (s_Outgoing s) (s_Assembler s)
    (s_AssemblingCommand s) (s_results s) (s_MaxMsgSize s) (s_MaxObjSize s) (s_Namespace s)
    (s_StartedAt s) (s_LastSeen s) (s_Closed s) (s_unenroll s).
Definition set_Challenged (v : Z) (s : Session) : Session :=
  mkSession (s_Key s) (s_DeviceID s) (s_SessionID s) (s_EnrollmentKey s) (s_ClientMsgID s)
    (s_ServerMsgID s) (s_Authenticated s) (s_AuthType s) v (s_ServerNonce s) (s_Facts s)
    (s_gotPackageOne s) (s_Sent s) (s_Children s) (s_Outgoing s) (s_Assembler s)
    (s_AssemblingCommand s) (s_results s) (s_MaxMsgSize s) (s_MaxObjSize s) (s_Namespace s)
    (s_StartedAt s) (s_LastSeen s) (s_Closed s) (s_unenroll s).
Definition set_Facts (v : Facts) (s : Session) : Session :=
  mkSession (s_Key s) (s_DeviceID s) (s_SessionID s) (s_EnrollmentKey s) (s_ClientMsgID s)
    (s_ServerMsgID s) (s_Authenticated s) (s_AuthType s) (s_Challenged s) (s_ServerNonce s)
    v (s_gotPackageOne s) (s_Sent s) (s_Children s) (s_Outgoing s) (s_Assembler s)
    (s_AssemblingCommand s) (s_results s) (s_MaxMsgSize s) (s_MaxObjSize s) (s_Namespace s)
    (s_StartedAt s) (s_LastSeen s) (s_Closed s) (s_unenroll s).
Definition set_gotPackageOne (v : bool) (s : Session) : Session :=
  mkSession (s_Key s) (s_DeviceID s) (s_SessionID s) (s_EnrollmentKey s) (s_ClientMsgID s)
    (s_ServerMsgID s) (s_Authenticated s) (s_AuthType s) (s_Challenged s) (s_ServerNonce s)
    (s_Facts s) v (s_Sent s) (s_Children s) (s_Outgoing s) (s_Assembler s)
    (s_AssemblingCommand s) (s_results s) (s_MaxMsgSize s) (s_MaxObjSize s) (s_Namespace s)
    (s_StartedAt s) (s_LastSeen s) (s_Closed s) (s_unenroll s).
Definition set_Sent (v : gmap string string) (s : Session) : Session :=
  mkSession (s_Key s) (s_DeviceID s) (s_SessionID s) (s_EnrollmentKey s) (s_ClientMsgID s)
    (s_ServerMsgID s) (s_Authenticated s) (s_AuthType s) (s_Challenged s) (s_ServerNonce s)
    (s_Facts s) (s_gotPackageOne s) v (s_Children s) (s_Outgoing s) (s_Assembler s)
    (s_AssemblingCommand s) (s_results s) (s_MaxMsgSize s) (s_MaxObjSize s) (s_Namespace s)
    (s_StartedAt s) (s_LastSeen s) (s_Closed s) (s_unenroll s).
Definition set_Children (v : gmap string string) (s : Session) : Session :=
  mkSession (s_Key s) (s_DeviceID s) (s_SessionID s) (s_EnrollmentKey s) (s_ClientMsgID s)
    (s_ServerMsgID s) (s_Authenticated s) (s_AuthType s) (s_Challenged s) (s_ServerNonce s)
    (s_Facts s) (s_gotPackageOne s) (s_Sent s) v (s_Outgoing s) (s_Assembler s)
    (s_AssemblingCommand s) (s_results s) (s_MaxMsgSize s) (s_MaxObjSize s) (s_Namespace s)
    (s_StartedAt s) (s_LastSeen s) (s_Closed s) (s_unenroll s).
Definition set_Outgoing (v : option Outgoing) (s : Session) : Session :=
  mkSession (s_Key s) (s_DeviceID s) (s_SessionID s) (s_EnrollmentKey s) (s_ClientMsgID s)
    (s_ServerMsgID s) (s_Authenticated s) (s_AuthType s) (s_Challenged s) (s_ServerNonce s)
    (s_Facts s) (s_gotPackageOne s) (s_Sent s) (s_Children s) v (s_Assembler s)
    (s_AssemblingCommand s) (s_results s) (s_MaxMsgSize s) (s_MaxObjSize s) (s_Namespace s)
    (s_StartedAt s) (s_LastSeen s) (s_Closed s) (s_unenroll s).
Definition set_Assembler (v : option Assembler) (s : Session) : Session :=
  mkSession (s_Key s) (s_DeviceID s) (s_SessionID s) (s_EnrollmentKey s) (s_ClientMsgID s)
    (s_ServerMsgID s) (s_Authenticated s) (s_AuthType s) (s_Challenged s) (s_ServerNonce s)
    (s_Facts s) (s_gotPackageOne s) (s_Sent s) (s_Children s) (s_Outgoing s) v
    (s_AssemblingCommand s) (s_results s) (s_MaxMsgSize s) (s_MaxObjSize s) (s_Namespace s)
    (s_StartedAt s) (s_LastSeen s) (s_Closed s) (s_unenroll s).
Definition set_AssemblingCommand (v : string) (s : Session) : Session :=
  mkSession (s_Key s) (s_DeviceID s) (s_SessionID s) (s_EnrollmentKey s) (s_ClientMsgID s)
    (s_ServerMsgID s) (s_Authenticated s) (s_AuthType s) (s_Challenged s) (s_ServerNonce s)
    (s_Facts s) (s_gotPackageOne s) (s_Sent s) (s_Children s) (s_Outgoing s)
    (s_Assembler s) v (s_results s) (s_MaxMsgSize s) (s_MaxObjSize s) (s_Namespace s)
    (s_StartedAt s) (s_LastSeen s) (s_Closed s) (s_unenroll s).
Definition set_results (v : gmap string pendingResult) (s : Session) : Session :=
  mkSession (s_Key s) (s_DeviceID s) (s_SessionID s) (s_EnrollmentKey s) (s_ClientMsgID s)
    (s_ServerMsgID s) (s_Authenticated s) (s_AuthType s) (s_Challenged s) (s_ServerNonce s)
    (s_Facts s) (s_gotPackageOne s) (s_Sent s) (s_Children s) (s_Outgoing s)
    (s_Assembler s) (s_AssemblingCommand s) v (s_MaxMsgSize s) (s_MaxObjSize s)
    (s_Namespace s) (s_StartedAt s) (s_LastSeen s) (s_Closed s) (s_unenroll s).
Definition set_MaxMsgSize (v : Z) (s : Session) : Session :=
  mkSession (s_Key s) (s_DeviceID s) (s_SessionID s) (s_EnrollmentKey s) (s_ClientMsgID s)
    (s_ServerMsgID s) (s_Authenticated s) (s_AuthType s) (s_Challenged s) (s_ServerNonce s)
    (s_Facts s) (s_gotPackageOne s) (s_Sent s) (s_Children s) (s_Outgoing s)
    (s_Assembler s) (s_AssemblingCommand s) (s_results s) v (s_MaxObjSize s)
    (s_Namespace s) (s_StartedAt s) (s_LastSeen s) (s_Closed s) (s_unenroll s).
Definition set_MaxObjSize (v : Z) (s : Session) : Session :=
  mkSession (s_Key s) (s_DeviceID s) (s_SessionID s) (s_EnrollmentKey s) (s_ClientMsgID s)
    (s_ServerMsgID s) (s_Authenticated s) (s_AuthType s) (s_Challenged s) (s_ServerNonce s)
    (s_Facts s) (s_gotPackageOne s) (s_Sent s) (s_Children s) (s_Outgoing s)
    (s_Assembler s) (s_AssemblingCommand s) (s_results s) (s_MaxMsgSize s) v
    (s_Namespace s) (s_StartedAt s) (s_LastSeen s) (s_Closed s) (s_unenroll s).
Definition set_LastSeen (v : Time) (s : Session) : Session :=
  mkSession (s_Key s) (s_DeviceID s) (s_SessionID s) (s_EnrollmentKey s) (s_ClientMsgID s)
    (s_ServerMsgID s) (s_Authenticated s) (s_AuthType s) (s_Challenged s) (s_ServerNonce s)
    (s_Facts s) (s_gotPackageOne s) (s_Sent s) (s_Children s) (s_Outgoing s)
    (s_Assembler s) (s_AssemblingCommand s) (s_results s) (s_MaxMsgSize s) (s_MaxObjSize s)
    (s_Namespace s) (s_StartedAt s) v (s_Closed s) (s_unenroll s).
Definition set_Closed (v : bool) (s : Session) : Session :=
  mkSession (s_Key s) (s_DeviceID s) (s_SessionID s) (s_EnrollmentKey s) (s_ClientMsgID s)
    (s_ServerMsgID s) (s_Authenticated s) (s_AuthType s) (s_Challenged s) (s_ServerNonce s)
    (s_Facts s) (s_gotPackageOne s) (s_Sent s) (s_Children s) (s_Outgoing s)
    (s_Assembler s) (s_AssemblingCommand s) (s_results s) (s_MaxMsgSize s) (s_MaxObjSize s)
    (s_Namespace s) (s_StartedAt s) (s_LastSeen s) v (s_unenroll s).
Definition set_auth (ok : bool) (ty : string) (s : Session) : Session :=
  mkSession (s_Key s) (s_DeviceID s) (s_SessionID s) (s_EnrollmentKey s) (s_ClientMsgID s)
    (s_ServerMsgID s) ok ty (s_Challenged s) (s_ServerNonce s) (s_Facts s)
    (s_gotPackageOne s) (s_Sent s) (s_Children s) (s_Outgoing s) (s_Assembler s)
    (s_AssemblingCommand s) (s_results s) (s_MaxMsgSize s) (s_MaxObjSize s) (s_Namespace s)
    (s_StartedAt s) (s_LastSeen s) (s_Closed s) (s_unenroll s).
Definition set_closed_unenroll (s : Session) : Session :=
  mkSession (s_Key s) (s_DeviceID s) (s_SessionID s) (s_EnrollmentKey s) (s_ClientMsgID s)
    (s_ServerMsgID s) (s_Authenticated s) (s_AuthType s) (s_Challenged s) (s_ServerNonce s)
    (s_Facts s) (s_gotPackageOne s) (s_Sent s) (s_Children s) (s_Outgoing s)
    (s_Assembler s) (s_AssemblingCommand s) (s_results s) (s_MaxMsgSize s) (s_MaxObjSize s)
    (s_Namespace s) (s_StartedAt s) (s_LastSeen s) true true.

Definition SessionKey (deviceID sessionID : string) : string :=
  deviceID +:+ "/" +:+ sessionID.

(** ** MemorySessions *)

Record MemorySessions := mkMemorySessions {
  ms_sessions : gmap string Session;
  ms_TTL : Duration }.

Definition NewMemorySessions : MemorySessions := mkMemorySessions ∅ Hour.

(** [GetSession]: an idle session is discarded on the way. *)
Definition GetSession (now : Time) (key : string) (m : MemorySessions)
    : MemorySessions * result Session :=
  match ms_sessions m !! key with
  | None => (m, Err [mdm_ErrNotFound])
  | Some s =>
      let ttl := if ms_TTL m =? 0 then Hour else ms_TTL m in
      if ttl <? time_Sub now (s_LastSeen s)
      then (mkMemorySessions (delete key (ms_sessions m)) (ms_TTL m), Err [mdm_ErrNotFound])
      else (m, Ok s)
  end.

Definition PutSession (s : Session) (m : MemorySessions) : MemorySessions :=
  mkMemorySessions (<[s_Key s := s]> (ms_sessions m)) (ms_TTL m).

Definition DeleteSession (key : string) (m : MemorySessions) : MemorySessions :=
  mkMemorySessions (delete key (ms_sessions m)) (ms_TTL m).

(** ** collect.go *)

Definition pending0 : pendingResult := mkPending None "" [] [].

(** [ensurePending] returns a pointer into the map; the caller's update goes
    through it. *)
Definition update_pending (id : string) (f : pendingResult → pendingResult) (s : Session)
    : Session :=
  set_results (<[id := f (default pending0 (s_results s !! id))]> (s_results s)) s.

Definition pendingStatus (id : string) (st : Status) : Session → Session :=
  update_pending id (λ pr, mkPending (Some (Status_Code st))
    (Data_OriginalError (Status_Data st)) (pr_items pr) (pr_children pr)).

Definition recordChild (parent : string) (st : Status) : Session → Session :=
  update_pending parent (λ pr, mkPending (pr_status pr) (pr_origErr pr) (pr_items pr)
    (pr_children pr ++ [mkChildResult (Status_Cmd st) "" (Status_Code st)
       (Data_OriginalError (Status_Data st)) []])).

Definition stashResults (id : string) (items : list Item) : Session → Session :=
  update_pending id (λ pr, mkPending (pr_status pr) (pr_origErr pr) (pr_items pr ++ items)
    (pr_children pr)).

(** ** results.go *)

Definition ref_key (msg cmd : string) : string := msg +:+ "/" +:+ cmd.

Definition fileStatus (st : Status) (s : Session) : Session :=
  if decide (Status_CmdRef st = "0") then s
  else
    let key := ref_key (Status_MsgRef st) (Status_CmdRef st) in
    match s_Children s !! key with
    | Some parent =>
        let s := recordChild parent st s in
        set_Children (delete key (s_Children s)) s
    | None =>
        match s_Sent s !! key with
        | None => s
        | Some id =>
            let s := pendingStatus id st s in
            if decide (s_AssemblingCommand s = id) then s
            else set_Sent (delete key (s_Sent s)) s
        end
    end.

(** The loop of fileResults over the items. *)
Fixpoint assemble_items (id : string) (items : list Item) (assembled : list Item)
    (a : Assembler) (s : Session) : (Assembler * Session) * result (list Item) :=
  match items with
  | [] => ((a, s), Ok assembled)
  | it :: items =>
      match Assembler_Add a it with
      | (a, Err e) => ((a, s), Err e)
      | (a, Ok (out, done)) =>
          if done : bool then assemble_items id items (assembled ++ [out]) a s
          else assemble_items id items assembled a (set_AssemblingCommand id s)
      end
  end.

Definition fileResults (maxRequestSize : Z) (res : Results) : M Session unit := λ s,
  let key := ref_key (if decide (Results_MsgRef res = "") then "1" else Results_MsgRef res)
               (Results_CmdRef res) in
  match (match s_Sent s !! key with Some id => Some id | None => s_Children s !! key end) with
  | None => (s, Ok tt)
  | Some id =>
      let a := default (newAssembler maxRequestSize) (s_Assembler s) in
      let '((a, s), r) := assemble_items id (Results_Items res) [] a s in
      let s := set_Assembler (Some a) s in
      match r with
      | Err e => (s, Err e)
      | Ok assembled =>
          if Assembler_Pending a then (s, Ok tt)
          else (stashResults id assembled (set_AssemblingCommand "" s), Ok tt)
      end
  end.

(** ** mapChildren of build.go *)

Definition zsize (m : gmap string string) : Z := Z.of_nat (size m).

(** The members after [assignID], and the new Children entries. *)
Fixpoint map_members (msgID parentID : string) (next : Z) (members : list Command)
    (children : gmap string string) : list Command * gmap string string :=
  match members with
  | [] => ([], children)
  | m :: members =>
      let next := wrap64 (next + 1) in
      let cid := itoa next in
      let children := <[ref_key msgID cid := parentID]> children in
      let '(ms, children) := map_members msgID parentID next members children in
      (assignID m cid :: ms, children)
  end.

Definition mapChildren (msgID : string) (c : Command) (parentID : string) (s : Session)
    : Session * Command :=
  let next := zsize (s_Sent s) + zsize (s_Children s) + 1000 in
  match c with
  | CAtomic i n m members =>
      let '(ms, ch) := map_members msgID parentID next members (s_Children s) in
      (set_Children ch s, CAtomic i n m ms)
  | CSequence i n m members =>
      let '(ms, ch) := map_members msgID parentID next members (s_Children s) in
      (set_Children ch s, CSequence i n m ms)
  | c => (s, c)
  end.

(** ** scopeAllows of deliver.go and hasWork of finish.go *)

Definition scopeAllows (f : Facts) (sc : Scope) : bool :=
  if decide (f_SyncType f = LoginStatusUser ∧ sc ≠ ScopeUser) then false
  else if decide (f_SyncType f = "device" ∧ sc ≠ ScopeDevice) then false
  else if decide (sc = ScopeUser) then bool_decide (f_LoginStatus f = LoginStatusUser)
  else true.

Definition upload_pending (s : Session) : bool :=
  match s_Assembler s with Some a => Assembler_Pending a | None => false end.

Definition hasWork (s : Session) : bool :=
  (0 <? zsize (s_Sent s)) || (0 <? zsize (s_Children s)) ||
  bool_decide (is_Some (s_Outgoing s)) || upload_pending s.

Definition onlyHeaderStatus (cmds : list Command) : bool :=
  match cmds with
  | [CStatus st] => bool_decide (Status_CmdRef st = "0")
  | _ => false
  end.

Definition firstNonEmpty (a b : string) : string :=
  if decide (a = "") then b else a.
