(* ===== verification/MdmEngine.v ===== *)
(** * The session engine

    mdmprotocol/mdm/service.go with alerts.go, collect.go, deliver.go,
    finish.go and nonce.go: what Handle does with one decoded request.  The
    engine runs against any CommandQueue; sessions and nonces are kept in the
    default stores, MemorySessions and state.Memory.

    A request reads the clock once ([now]); [rand] is crypto/rand and [order]
    the order in which Go visits a map of pending results. *)
From stdpp Require Import base gmap strings list.
From Stdlib Require Import ZArith Lia Ascii.
From S2P Require Import Prelude GoStrings GoUrl SyncmlModel LargeObject Validate Response.
From S2P Require Import Encode SyncmlAuth MdmCommand Paging StateStore MdmAuth.
From S2P Require Import MdmQueue MdmSession.

Local Open Scope Z_scope.
Local Open Scope go_scope.

(** ** hooks.go *)

Record Event := mkEvent {
  ev_DeviceID : string;
  ev_SessionID : string;
  ev_Alert : Z;
  ev_Type : string;
  ev_Data : string;
  ev_Mark : string;
  ev_Source : string }.

(** The calls of the interface Hooks. *)
Inductive HookCall : Type :=
  | PackageOne (deviceID sessionID : string) (facts : Facts)
  | GenericAlert (e : Event)
  | ClientEvent (e : Event)
  | Unenrolled (deviceID : string).

(** ** Config *)

Record Config := mkConfig {
  cfg_ServerURL : string;
  cfg_Auth : Authenticator;
  cfg_Hooks : option (HookCall → result unit);
  cfg_MaxRequestSize : Z;
  cfg_NonceTTL : Duration;
  cfg_MaxMessageBytes : Z;
  cfg_AllowBasic : bool;
  cfg_ProviderID : string }.

(** [New]: a missing Auth or Queue is [None] or [false]. *)
Definition New (serverURL : string) (auth : option Authenticator) (hasQueue : bool)
    (hooks : option (HookCall → result unit)) (maxRequestSize nonceTTL maxMessageBytes : Z)
    (allowBasic : bool) (providerID : string) : result Config :=
  if decide (serverURL = "") then Err [mdm_ErrConfig]
  else match auth, hasQueue with
  | Some auth, true =>
      Ok (mkConfig serverURL auth hooks
        (if maxRequestSize <=? 0 then DefaultMaxSize else maxRequestSize)
        (if nonceTTL <=? 0 then 10 * Minute else nonceTTL)
        (if maxMessageBytes <=? 0 then Z.shiftl 512 10 else maxMessageBytes)
        allowBasic providerID)
  | _, _ => Err [mdm_ErrConfig]
  end.

(** What persists between requests, and the hooks called so far. *)
Record World (Q : Type) := mkWorld {
  w_queue : Q;
  w_sessions : MemorySessions;
  w_nonce : Memory;
  w_log : list HookCall }.
Arguments mkWorld {Q} _ _ _ _.
Arguments w_queue {Q} _.
Arguments w_sessions {Q} _.
Arguments w_nonce {Q} _.
Arguments w_log {Q} _.

(** The variables of a running Handle. *)
Record Run (Q : Type) := mkRun {
  r_world : World Q;
  r_sess : Session;
  r_resp : Message;
  r_ids : CmdIDs }.
Arguments mkRun {Q} _ _ _ _.
Arguments r_world {Q} _.
Arguments r_sess {Q} _.
Arguments r_resp {Q} _.
Arguments r_ids {Q} _.

Definition mustAtoi (s : string) : Z := default 0 (Atoi s).

Definition internalID (s : Session) (name : string) : string :=
  "mdm-internal/" +:+ s_DeviceID s +:+ "/" +:+ name.

(** devdetail, devicemanageability and dmclient URIs. *)
Definition firstReads : list string :=
  ["./DevDetail/SwV"; "./DevDetail/LrgObj"; "./DevDetail/URI/MaxSegLen";
   "./Device/Vendor/MSFT/DeviceManageability/Capabilities/CSPVersions"].
Definition pushReads (providerID : string) : list string :=
  let p := "./Device/Vendor/MSFT/DMClient/Provider/" +:+ PathEscape providerID in
  [p +:+ "/Push/ChannelURI"; p +:+ "/Push/Status"].

Definition isConflict (e : error) : bool := errors_Is e mdm_ErrConflict.

Definition isConsumedEvent (it : Item) : bool :=
  match Item_Meta it with
  | None => false
  | Some m => bool_decide (Meta_Type m ∈
      [AlertTypeLoginStatus; AlertTypeSyncType; AlertTypeDevicePrepSync])
  end.

Definition isUnenrollAlert (it : Item) : bool :=
  match Item_Meta it with
  | None => false
  | Some m => EqualFold (Meta_Type m) AlertTypeUnenrollmentUserRequest
  end.

(** The facts package 1 carries: the 1224 items, a later one replacing an
    earlier one. *)
Definition event_fact (f : Facts) (it : Item) : Facts :=
  match Item_Meta it with
  | None => f
  | Some m =>
      if decide (Meta_Type m = AlertTypeSyncType) then
        mkFacts (f_DevInfo f) (f_LoginStatus f) (Data_Text (Item_Data it)) (f_DevicePrepSync f)
          (f_UserAgentOrigin f)
      else if decide (Meta_Type m = AlertTypeDevicePrepSync) then
        mkFacts (f_DevInfo f) (f_LoginStatus f) (f_SyncType f) (Data_Text (Item_Data it))
          (f_UserAgentOrigin f)
      else f
  end.

Definition packageOneFacts (req : Message) (f : Facts) : Facts :=
  foldl event_fact
    (mkFacts (DevInfo req) (LoginStatus req) (f_SyncType f) (f_DevicePrepSync f)
       (f_UserAgentOrigin f))
    (alert_items_of AlertClientEvent req).

(** [prepare]: the body to send, and the chunks after the first. *)
Definition prepare (maxObjSize : Z) (qc : QueuedCommand) : Command * option (list Item) :=
  let body := cloneCommand (qc_Body qc) in
  if maxObjSize <=? 0 then (body, None)
  else match itemsOf body with
  | [it] =>
      match Item_Data it with
      | None => (body, None)
      | Some d =>
          if len (Data_Value d) <=? maxObjSize then (body, None)
          else match SplitItem it maxObjSize with
          | Ok (c0 :: c1 :: cs) => (setItems body [c0], Some (c1 :: cs))
          | _ => (body, None)
          end
      end
  | _ => (body, None)
  end.

Section Engine.
Context {Q : Type} `{CommandQueue Q}.
Context (cfg : Config) (now : Time) (rand : Z → option string)
  (order : gmap string pendingResult → list string).

Abbreviation E := (M (Run Q)).

(** *** Reading and writing the run *)

Definition sess : E Session := let! r := get in ret (r_sess r).
Definition upd_sess (f : Session → Session) : E unit :=
  modify (λ r, mkRun (r_world r) (f (r_sess r)) (r_resp r) (r_ids r)).
Definition upd_world (f : World Q → World Q) : E unit :=
  modify (λ r, mkRun (f (r_world r)) (r_sess r) (r_resp r) (r_ids r)).
Definition upd_resp (f : Message → Message) : E unit :=
  modify (λ r, mkRun (r_world r) (r_sess r) (f (r_resp r)) (r_ids r)).

Definition resp_cmds (r : Run Q) : list Command := Body_Commands (Msg_Body (r_resp r)).

(** [resp.Body.Commands = append(resp.Body.Commands, c)] *)
Definition add_cmd (c : Command) : E unit :=
  upd_resp (λ m, set_body m (Body_Commands (Msg_Body m) ++ [c]) (Body_Final (Msg_Body m))).
Definition set_final (b : bool) : E unit :=
  upd_resp (λ m, set_body m (Body_Commands (Msg_Body m)) b).

Definition next_id : E string := λ r,
  let '(n, id) := CmdIDs_Next (r_ids r) in
  (mkRun (r_world r) (r_sess r) (r_resp r) n, Ok id).

(** A call of the queue that changes it. *)
Definition on_queue {A} (f : Q → Q * result A) : E A := λ r,
  let '(q, res) := f (w_queue (r_world r)) in
  (mkRun (mkWorld q (w_sessions (r_world r)) (w_nonce (r_world r)) (w_log (r_world r)))
     (r_sess r) (r_resp r) (r_ids r), res).

Definition set_sessions (f : MemorySessions → MemorySessions) : E unit :=
  upd_world (λ w, mkWorld (w_queue w) (f (w_sessions w)) (w_nonce w) (w_log w)).

(** A hook call, when hooks are configured. *)
Definition hook (c : HookCall) : E unit :=
  match cfg_Hooks cfg with
  | None => ret tt
  | Some h =>
      upd_world (λ w, mkWorld (w_queue w) (w_sessions w) (w_nonce w) (w_log w ++ [c])) ;!
      lift (h c)
  end.

(** *** nonce.go *)

Definition currentNonce (deviceID : string) (m : Memory) : string :=
  match Memory_Get None (nonceKey deviceID) m with
  | Err _ => ""
  | Ok rec =>
      if negb (time_IsZero (Rec_ExpiresAt rec)) && negb (time_After (Rec_ExpiresAt rec) now)
      then "" else Rec_Value rec
  end.

Definition issueNonce (deviceID : string) : E string := λ r,
  match NewNonce rand 16 with
  | Err e => (r, Err (mdm_ErrAuth :: e))
  | Ok nonce =>
      let key := nonceKey deviceID in
      let w := r_world r in
      let '(mem, res) := Memory_Update None None now [key]
        (Some (λ t, memoryTx_Put None
           (mkStateRecord key nonce (time_Add (tx_now t) (cfg_NonceTTL cfg))) t)) (w_nonce w) in
      (mkRun (mkWorld (w_queue w) (w_sessions w) mem (w_log w)) (r_sess r) (r_resp r) (r_ids r),
       match res with Ok _ => Ok nonce | Err e => Err (mdm_ErrAuth :: e) end)
  end.

(** *** service.go: session, authenticate, challenge *)

(** The updates [session] makes to a found or new session. *)
Definition enter_session (req : Message) (t : option Transport) (clientMsg : Z) (s : Session)
    : Session :=
  let s := set_LastSeen now (set_ClientMsgID clientMsg s) in
  let s := match Hdr_Meta (Msg_Header req) with
           | None => s
           | Some m =>
               let s := if 0 <? Meta_MaxMsgSize m then set_MaxMsgSize (Meta_MaxMsgSize m) s
                        else s in
               if 0 <? Meta_MaxObjSize m then set_MaxObjSize (Meta_MaxObjSize m) s else s
           end in
  match t with
  | None => s
  | Some t =>
      let f := s_Facts s in
      set_Facts (mkFacts (f_DevInfo f) (f_LoginStatus f) (f_SyncType f) (f_DevicePrepSync f)
        (firstNonEmpty (t_UserAgentOrigin t) (f_UserAgentOrigin f))) s
  end.

Definition new_session (req : Message) (id : Identity) (key : string) : Session :=
  mkSession key (LocURI (Hdr_Source (Msg_Header req))) (Hdr_SessionID (Msg_Header req))
    (id_EnrollmentKey id) 0 0 false "" 0 "" (mkFacts ∅ "" "" "" "") false ∅ ∅ None None "" ∅
    0 0 (Msg_Namespace req) now now false false.

(** A session of an earlier enrollment counts as not found. *)
Definition session_for (id : Identity) (r : result Session) : result Session :=
  match r with
  | Ok s => if decide (s_EnrollmentKey s = id_EnrollmentKey id) then Ok s
            else Err [mdm_ErrNotFound]
  | Err e => Err e
  end.

Definition session (req : Message) (id : Identity) (t : option Transport) (w : World Q)
    : World Q * result Session :=
  let h := Msg_Header req in
  let key := SessionKey (LocURI (Hdr_Source h)) (Hdr_SessionID h) in
  let clientMsg := mustAtoi (Hdr_MsgID h) in
  let '(ms, found) := GetSession now key (w_sessions w) in
  let w := mkWorld (w_queue w) ms (w_nonce w) (w_log w) in
  match session_for id found with
  | Err e =>
      if errors_Is e mdm_ErrNotFound then
        if negb (clientMsg =? 1) then (w, Err [syncml_ErrInvalid])
        else if negb (IsPackageOne req) then (w, Err [syncml_ErrInvalid])
        else (w, Ok (enter_session req t clientMsg (new_session req id key)))
      else (w, Err e)
  | Ok s =>
      if negb (clientMsg =? wrap64 (s_ClientMsgID s + 1)) then (w, Err [syncml_ErrInvalid])
      else (w, Ok (enter_session req t clientMsg s))
  end.

Definition authenticate (req : Message) (id : Identity) (t : option Transport) (mem : Memory)
    (s : Session) : Session * authOutcome :=
  if s_Authenticated s && negb (bool_decide (s_AuthType s = AuthCertificate))
  then (s, authTrusted)
  else
    let chains := verifiedPeerChains t in
    if bool_decide (chains ≠ []) && auth_TrustCertificate (cfg_Auth cfg) id chains
    then (set_auth true AuthCertificate s, authTrusted)
    else
      let s := if decide (s_AuthType s = AuthCertificate) then set_auth false "" s else s in
      if bool_decide (id_AuthType id = AuthBasicType) && negb (cfg_AllowBasic cfg)
      then (s, authChallenge)
      else
        let nonce := currentNonce (id_DeviceID id) mem in
        match Hdr_Cred (Msg_Header req) with
        | None => (s, authChallenge)
        | Some cred =>
            if verifyCredential id (Some cred) nonce
            then (set_auth true (id_AuthType id) s, authTrusted)
            else (s, authRejected)
        end.

Definition with_chal (st : Status) (c : Chal) : Status :=
  mkStatus (Status_CmdID st) (Status_MsgRef st) (Status_CmdRef st) (Status_Cmd st)
    (Status_TargetRef st) (Status_SourceRef st) (Status_Cred st) (Some c) (Status_Data st)
    (Status_Items st).

Definition challenge (req : Message) (id : Identity) (outcome : authOutcome) : E unit :=
  let code := match outcome with
              | authRejected => StatusInvalidCredentials
              | _ => StatusAuthenticationRequired
              end in
  let! cmdID := next_id in
  let st := StatusForHeader req cmdID code in
  let! chal :=
    if decide (id_AuthType id = AuthBasicType) then ret NewBasicChal
    else let! nonce := issueNonce (id_DeviceID id) in ret (NewMD5Chal nonce) in
  add_cmd (CStatus (with_chal st chal)) ;!
  upd_sess (λ s, set_Challenged (wrap64 (s_Challenged s + 1)) s).

(** *** alerts.go *)

(** An enqueue of the engine's own. *)
Definition enqueue (c : MCommand) : E QueuedCommand :=
  let! s := sess in on_queue (q_Enqueue (s_DeviceID s) (Some c) now).

Definition internal (c : MCommand) : MCommand :=
  mkMCommand (cmd_ID c) (cmd_Scope c) (cmd_Body c) true.

(** Ignore a conflict. *)
Definition unless_conflict {A} (m : E A) : E unit := λ r,
  match m r with
  | (r, Ok _) => (r, Ok tt)
  | (r, Err e) => if isConflict e then (r, Ok tt) else (r, Err e)
  end.

Definition queueFirstSessionReads : E unit :=
  let! s := sess in
  let! g := lift (NewGet firstReads [WithID (internalID s "first-reads")]) in
  unless_conflict (enqueue (internal g)) ;!
  if decide (cfg_ProviderID cfg = "") then ret tt
  else mfor (λ uri,
    let! read := lift (NewGet [uri] []) in
    enqueue (internal read) ;! ret tt) (pushReads (cfg_ProviderID cfg)).

Definition recordPackageOne (req : Message) : E unit :=
  upd_sess (λ s, set_gotPackageOne true (set_Facts (packageOneFacts req (s_Facts s)) s)) ;!
  let! s := sess in
  hook (PackageOne (s_DeviceID s) (s_SessionID s) (s_Facts s)) ;!
  if s_Closed s then ret tt else queueFirstSessionReads.

(** The status that answers a client's alert. *)
Definition alert_status (s : Session) (a : Alert) (cmdID : string) : Status :=
  mkStatus cmdID (Itoa (s_ClientMsgID s)) (Alert_CmdID a) CmdAlert [] [] None None
    (DataValue (StatusCode_Wire StatusOK)) [].

Definition alert_event (s : Session) (code : AlertCode) (it : Item) : Event :=
  mkEvent (s_DeviceID s) (s_SessionID s) code
    (match Item_Meta it with Some m => Meta_Type m | None => "" end)
    (Data_Text (Item_Data it))
    (match Item_Meta it with Some m => Meta_Mark m | None => "" end)
    (Item_Source it).

(** One item of an alert that goes to the hooks. *)
Definition alert_item (code : AlertCode) (it : Item) : E unit :=
  let! s := sess in
  let e := alert_event s code it in
  if code =? AlertGeneric then
    hook (GenericAlert e) ;!
    (if isUnenrollAlert it then upd_sess set_closed_unenroll else ret tt)
  else if code =? AlertClientEvent then
    if isConsumedEvent it then ret tt else hook (ClientEvent e)
  else ret tt.

Definition handleAlert (a : Alert) : E unit :=
  let code := Alert_Code a in
  let! cmdID := next_id in
  let! s := sess in
  add_cmd (CStatus (alert_status s a cmdID)) ;!
  if (code =? AlertNextMessage) || (code =? AlertServerInitiated) ||
     (code =? AlertClientInitiated) then ret tt
  else if code =? AlertSessionAbort then upd_sess (set_Closed true)
  else if code =? AlertNoEndOfData then
    upd_sess (λ s, set_AssemblingCommand ""
      (match s_Assembler s with
       | Some a => set_Assembler (Some (Assembler_Reset a)) s
       | None => s
       end))
  else match cfg_Hooks cfg with
  | None => ret tt
  | Some _ => mfor (alert_item code) (Alert_Items a)
  end.

(** *** service.go: ackAndFile *)

Definition ack_command (req : Message) (c : Command) : E unit :=
  match c with
  | CStatus _ => ret tt
  | CResults res => λ r,
      let '(s, res) := fileResults (cfg_MaxRequestSize cfg) res (r_sess r) in
      (mkRun (r_world r) s (r_resp r) (r_ids r), res)
  | CAlert a => handleAlert a
  | _ => let! cmdID := next_id in add_cmd (CStatus (StatusFor req c cmdID StatusOK))
  end.

Definition ackAndFile (req : Message) : E unit :=
  mfor (ack_command req) (Body_Commands (Msg_Body req)) ;!
  mfor (λ st, upd_sess (fileStatus st)) (Body_Statuses (Msg_Body req)) ;!
  let! s := sess in
  if IsPackageOne req && negb (s_gotPackageOne s) then recordPackageOne req else ret tt.

(** *** deliver.go *)

(** The byte budget is a plain integer here: it would leave 64 bits only with
    a reply of 2^63 bytes. *)

(** Put one command in the reply. *)
Definition send_command (qc : QueuedCommand) (body : Command) : E unit :=
  let! cmdID := next_id in
  let! r := get in
  let msgID := Hdr_MsgID (Msg_Header (r_resp r)) in
  let body := assignID body cmdID in
  upd_sess (λ s, set_Sent (<[ref_key (Itoa (mustAtoi msgID)) cmdID := qc_ID qc]> (s_Sent s)) s) ;!
  let! r := get in
  let '(s, body) := mapChildren msgID body (qc_ID qc) (r_sess r) in
  upd_sess (λ _, s) ;!
  add_cmd body.

Fixpoint deliver_loop (cmds : list QueuedCommand) (budget : Z) (ds : list Delivery)
    : E (list Delivery) :=
  match cmds with
  | [] => ret ds
  | qc :: cmds =>
      let! r := get in
      let s := r_sess r in
      if negb (scopeAllows (s_Facts s) (qc_Scope qc)) then deliver_loop cmds budget ds
      else
        let '(body, chunks) := prepare (s_MaxObjSize s) qc in
        let size := commandSize body in
        if (budget <=? 0) && (0 <? zlength ds) then ret ds
        else
          send_command qc body ;!
          let ds := ds ++ [mkDelivery (qc_ID qc) (Hdr_MsgID (Msg_Header (r_resp r))) now] in
          match chunks with
          | Some cs =>
              upd_sess (set_Outgoing (Some (mkOutgoing (qc_ID qc) cs (Command_Name body)))) ;!
              ret ds
          | None => deliver_loop cmds (budget - size) ds
          end
  end.

Definition deliver : E unit :=
  let! r := get in
  let s := r_sess r in
  if upload_pending s then
    let! id1 := next_id in
    add_cmd (CStatus (mkStatus id1 (Itoa (s_ClientMsgID s)) "0" CmdResults [] [] None None
      (DataValue (StatusCode_Wire StatusChunkedItemAccepted)) [])) ;!
    let! id2 := next_id in
    add_cmd (CAlert (plainAlert id2 AlertNextMessage)) ;!
    set_final false
  else
    let! cmds := lift (q_Deliverable (s_DeviceID s) 256 (w_queue (r_world r))) in
    let budget := cfg_MaxMessageBytes cfg - zlength (resp_cmds r) * 128 in
    let! ds := deliver_loop cmds budget [] in
    (if decide (ds = []) then ret tt else on_queue (q_MarkSent (s_DeviceID s) ds)) ;!
    let! r := get in
    set_final (bool_decide (s_Outgoing (r_sess r) = None)).

Definition continueOrNext : E unit :=
  let! r := get in
  match s_Outgoing (r_sess r) with
  | Some (mkOutgoing cid (next :: chunks) name) =>
      let! cmdID := next_id in
      add_cmd (CReplace (mkReplace cmdID false None None [next])) ;!
      upd_sess (λ s, set_Sent
        (<[ref_key (Hdr_MsgID (Msg_Header (r_resp r))) cmdID := cid]> (s_Sent s)) s) ;!
      match chunks with
      | [] => upd_sess (set_Outgoing None) ;! set_final true
      | _ => upd_sess (set_Outgoing (Some (mkOutgoing cid chunks name)))
      end
  | _ => deliver
  end.

(** *** collect.go and finish.go *)

Definition flush_one (id : string) : E unit :=
  let! r := get in
  let s := r_sess r in
  match s_results s !! id with
  | None => ret tt
  | Some pr =>
      match pr_status pr with
      | None => ret tt
      | Some code =>
          on_queue (q_StoreResult (s_DeviceID s) id
            (mkResult code (pr_origErr pr) (pr_items pr) (pr_children pr) now)) ;!
          upd_sess (λ s, set_results (delete id (s_results s)) s)
      end
  end.

Definition flushResults : E unit :=
  let! s := sess in mfor flush_one (order (s_results s)).

(** Delete or store the session, and tell the hooks of an unenroll. *)
Definition settle (ending : bool) (s : Session) : E unit :=
  if ending then
    set_sessions (DeleteSession (s_Key s)) ;!
    (if s_unenroll s then hook (Unenrolled (s_DeviceID s)) else ret tt)
  else set_sessions (PutSession s).

Definition finish : E (option string) :=
  flushResults ;!
  let! r := get in
  upd_sess (set_ServerMsgID (mustAtoi (Hdr_MsgID (Msg_Header (r_resp r))))) ;!
  let! r := get in
  let s := r_sess r in
  let ending := s_Closed s || (Body_Final (Msg_Body (r_resp r)) && negb (hasWork s)) in
  settle ending s ;!
  if ending && onlyHeaderStatus (resp_cmds r) then ret None
  else let! out := lift (Encode (r_resp r) (mkEncodeOptions "" false)) in ret (Some out).

(** *** Handle, once the request is decoded *)

Definition run_trusted (req : Message) : E (option string) :=
  let! id := next_id in
  add_cmd (CStatus (StatusForHeader req id StatusOK)) ;!
  ackAndFile req ;!
  let! s := sess in
  (if s_Closed s then set_final true
   else if IsNextMessageRequest req && Nat.leb (length (Body_Statuses (Msg_Body req))) 1
   then continueOrNext
   else deliver) ;!
  finish.

Definition run_untrusted (req : Message) (id : Identity) (outcome : authOutcome)
    : E (option string) :=
  challenge req id outcome ;! finish.

(** The run from the moment the session is known. *)
Definition handle_run (req : Message) (id : Identity) (t : option Transport) (s : Session)
    (w : World Q) : Run Q * result (option string) :=
  let '(s, outcome) := authenticate req id t (w_nonce w) s in
  let resp := NewResponse req (cfg_ServerURL cfg) (Itoa (wrap64 (s_ServerMsgID s + 1))) in
  let r := mkRun w s resp 0 in
  match outcome with
  | authTrusted => run_trusted req r
  | o => run_untrusted req id o r
  end.

(** [Handle]; the reply [None] is the empty body. *)
Definition Handle (req : Message) (t : option Transport) (w : World Q)
    : World Q * result (option string) :=
  match Validate req with
  | _ :: _ => (w, Err (Validate_error req))
  | [] =>
      match auth_Lookup (cfg_Auth cfg) (LocURI (Hdr_Source (Msg_Header req))) with
      | Err e => (w, Err e)
      | Ok id =>
          match session req id t w with
          | (w, Err e) => (w, Err e)
          | (w, Ok s) =>
              let '(r, res) := handle_run req id t s w in (r_world r, res)
          end
      end
  end.
End Engine.
