(* ===== verification/MdmEngineProofs.v ===== *)
(** * The engine is correct

    Theorems about [MdmEngine]: who is trusted, what an untrusted request
    gets, how sessions advance, what is delivered, and how answers are filed.
    They hold for every queue that meets the CommandQueue laws. *)
From stdpp Require Import base gmap strings list.
From Stdlib Require Import ZArith Lia Ascii.
From S2P Require Import Prelude GoStrings SyncmlModel LargeObject Validate Response.
From S2P Require Import Encode SyncmlAuth GoCrypto MdmCommand Paging StateStore.
From S2P Require Import MdmAuth MdmQueue InmemQueue MdmSession MdmEngine.

Local Open Scope Z_scope.
Local Open Scope go_scope.

#[local] Arguments verifyCredential : simpl never.
#[local] Opaque Encode.

(** No pending result has its Status yet: what a finished request leaves. *)
Definition no_ready (s : Session) : Prop :=
  ∀ id pr, s_results s !! id = Some pr → pr_status pr = None.

Section Proofs.
Context {Q : Type} `{CommandQueueLaws Q}.
Context (cfg : Config) (now : Time) (rand : Z → option string)
  (order : gmap string pendingResult → list string).
Implicit Types (r : Run Q) (w : World Q).

(** ** Authentication *)

(** A request that may be acted on was authenticated by one of three
    means. *)
Definition trusted_by (req : Message) (id : Identity) (t : option Transport) (mem : Memory)
    (s s' : Session) : Prop :=
  (s' = s ∧ s_Authenticated s = true ∧ s_AuthType s ≠ AuthCertificate) ∨
  (s_AuthType s' = AuthCertificate ∧ verifiedPeerChains t ≠ [] ∧
   auth_TrustCertificate (cfg_Auth cfg) id (verifiedPeerChains t) = true) ∨
  (s_AuthType s' = id_AuthType id ∧ (id_AuthType id = AuthBasicType → cfg_AllowBasic cfg = true) ∧
   ∃ cred, Hdr_Cred (Msg_Header req) = Some cred ∧
     verifyCredential id (Some cred) (currentNonce now (id_DeviceID id) mem) = true).

Lemma authenticate_cases req id t mem s s' o :
  authenticate cfg now req id t mem s = (s', o) →
  (o = authTrusted ∧ s_Authenticated s' = true ∧ trusted_by req id t mem s s') ∨
  (o ≠ authTrusted ∧ s_Authenticated s' = false ∧
   (o = authRejected ↔
    (id_AuthType id = AuthBasicType → cfg_AllowBasic cfg = true) ∧
    is_Some (Hdr_Cred (Msg_Header req))) ∧
   s_results s' = s_results s ∧ s_Closed s' = s_Closed s ∧ s_Key s' = s_Key s).
Proof.
  unfold authenticate, trusted_by.
  destruct (s_Authenticated s) eqn:Ea; simpl;
    [destruct (bool_decide (s_AuthType s = AuthCertificate)) eqn:Et; simpl|].
  2: { intros [= <- <-]. btrue. left. split_and!; [done..|]. left. done. }
  all: destruct (bool_decide (verifiedPeerChains t ≠ []) &&
    auth_TrustCertificate (cfg_Auth cfg) id (verifiedPeerChains t)) eqn:Ec;
    [intros [= <- <-]; btrue; left; simpl; split_and!; [done..|]; right; left; done|].
  all: set (s1 := if decide (s_AuthType s = AuthCertificate) then set_auth false "" s else s);
    assert (s_Authenticated s1 = false ∧ s_results s1 = s_results s ∧
      s_Closed s1 = s_Closed s ∧ s_Key s1 = s_Key s) as (H1 & H2 & H3 & H4)
      by (subst s1; btrue; case_decide; done).
  all: clearbody s1;
    destruct (bool_decide (id_AuthType id = AuthBasicType) && negb (cfg_AllowBasic cfg)) eqn:Eb;
    [intros [= <- <-]; btrue; right; split_and!; try done; split; [done|];
     intros [Hb _]; rewrite Hb in *; done|].
  all: assert (id_AuthType id = AuthBasicType → cfg_AllowBasic cfg = true) as Hb
    by (intros Hid; rewrite bool_decide_eq_true_2 in Eb by done; simpl in Eb; by btrue).
  all: destruct (Hdr_Cred (Msg_Header req)) as [cred|] eqn:Ecr;
    [|intros [= <- <-]; right; split_and!; try done; split; [done|by intros [_ [? [=]]]]].
  all: destruct (verifyCredential _ _ _) eqn:Ev; intros [= <- <-];
    [left; simpl; split; [done|]; split; [done|]; right; right; eauto 10
    |right; split; [done|]; split; [done|]; split; [split; eauto|done]].
Qed.

Lemma next_id_eq r :
  next_id r = (mkRun (r_world r) (r_sess r) (r_resp r) (wrap64 (r_ids r + 1)),
               Ok (Itoa (wrap64 (r_ids r + 1)))).
Proof. done. Qed.

(** ** Flushing with nothing ready *)

Lemma flush_one_idle id r : no_ready (r_sess r) → flush_one now id r = (r, Ok tt).
Proof.
  intros Hn. unfold flush_one, bind, get.
  destruct (s_results (r_sess r) !! id) as [pr|] eqn:E; [|done].
  by rewrite (Hn _ _ E).
Qed.

Lemma flush_idle r : no_ready (r_sess r) → flushResults now order r = (r, Ok tt).
Proof.
  intros Hn. unfold flushResults, sess, bind, get, ret.
  induction (order (s_results (r_sess r))) as [|id l IH]; simpl; [done|].
  unfold bind. by rewrite flush_one_idle, IH.
Qed.

(** The fields of a session that no step after authentication changes. *)
Definition ident (s : Session) :=
  (s_Key s, s_DeviceID s, s_SessionID s, s_EnrollmentKey s, s_ClientMsgID s,
   s_Authenticated s, s_AuthType s, s_LastSeen s).

(** ** The challenge *)

Definition challenge_code (o : authOutcome) : StatusCode :=
  match o with authRejected => StatusInvalidCredentials | _ => StatusAuthenticationRequired end.

Lemma issueNonce_frame dev r r' n :
  issueNonce cfg now rand dev r = (r', n) →
  r_sess r' = r_sess r ∧ r_resp r' = r_resp r ∧ r_ids r' = r_ids r ∧
  w_queue (r_world r') = w_queue (r_world r) ∧ w_log (r_world r') = w_log (r_world r) ∧
  w_sessions (r_world r') = w_sessions (r_world r).
Proof.
  unfold issueNonce. destruct (NewNonce rand 16); [|by intros [= <- <-]].
  destruct (Memory_Update _ _ _ _ _ _) as [m res]. by intros [= <- <-].
Qed.

Lemma challenge_spec req id o r r' res :
  challenge cfg now rand req id o r = (r', res) →
  w_queue (r_world r') = w_queue (r_world r) ∧ w_log (r_world r') = w_log (r_world r) ∧
  w_sessions (r_world r') = w_sessions (r_world r) ∧
  ident (r_sess r') = ident (r_sess r) ∧
  (res = Ok tt → ∃ chal,
    r_resp r' = set_body (r_resp r)
      (resp_cmds r ++ [CStatus (with_chal
        (StatusForHeader req (Itoa (wrap64 (r_ids r + 1))) (challenge_code o)) chal)])
      (Body_Final (Msg_Body (r_resp r))) ∧
    r_sess r' = set_Challenged (wrap64 (s_Challenged (r_sess r) + 1)) (r_sess r)).
Proof.
  unfold challenge. unfold bind at 1. rewrite next_id_eq.
  set (r1 := mkRun (r_world r) _ _ _). unfold bind at 1.
  destruct (if decide (id_AuthType id = AuthBasicType) then _ else _) as [r2 [chal|e]] eqn:Ec.
  - assert (r_sess r2 = r_sess r1 ∧ r_resp r2 = r_resp r1 ∧
      w_queue (r_world r2) = w_queue (r_world r1) ∧ w_log (r_world r2) = w_log (r_world r1) ∧
      w_sessions (r_world r2) = w_sessions (r_world r1)) as (Hs & Hp & Hq & Hl & Hm).
    { case_decide; [by inversion Ec|]. unfold bind in Ec.
      destruct (issueNonce _ _ _ _ _) as [r3 [n|e]] eqn:Ei; [|done].
      apply issueNonce_frame in Ei. inversion Ec; subst. naive_solver. }
    intros [= <- <-]. simpl. split_and!; [done..|by rewrite Hs|]. intros _. exists chal.
    unfold resp_cmds. rewrite Hs, Hp. done.
  - intros [= <- <-].
    assert (r_sess r2 = r_sess r1 ∧
      w_queue (r_world r2) = w_queue (r_world r1) ∧ w_log (r_world r2) = w_log (r_world r1) ∧
      w_sessions (r_world r2) = w_sessions (r_world r1)) as (Hs & Hq & Hl & Hm).
    { case_decide; [by inversion Ec|]. unfold bind in Ec.
      destruct (issueNonce _ _ _ _ _) as [r3 [n|e']] eqn:Ei; [done|].
      apply issueNonce_frame in Ei. inversion Ec; subst. naive_solver. }
    split_and!; try done. by rewrite Hs.
Qed.

(** ** Finishing *)

(** Flushing touches the queue and the pending results only. *)
Definition flush_frame r r' : Prop :=
  r_resp r' = r_resp r ∧ w_log (r_world r') = w_log (r_world r) ∧
  w_sessions (r_world r') = w_sessions (r_world r) ∧
  w_nonce (r_world r') = w_nonce (r_world r) ∧
  r_sess r' = set_results (s_results (r_sess r')) (r_sess r).

Lemma flush_frame_refl r : flush_frame r r.
Proof. repeat split. by destruct r as [? [] ? ?]. Qed.

Lemma flush_one_frame id r0 r r' res :
  flush_frame r0 r → flush_one now id r = (r', res) → flush_frame r0 r'.
Proof.
  intros (Hp & Hl & Hm & Hn & Hs). unfold flush_one. unfold bind at 1. unfold get.
  destruct (s_results (r_sess r) !! id) as [pr|]; [|by intros [= <- _]].
  destruct (pr_status pr) as [code|]; [|by intros [= <- _]].
  unfold bind, on_queue. destruct (q_StoreResult _ _ _ _) as [q [[]|e]];
    intros [= <- _]; unfold flush_frame; simpl; split_and!; try done.
  by rewrite Hs.
Qed.

Lemma flush_frame_all r r' res : flushResults now order r = (r', res) → flush_frame r r'.
Proof.
  unfold flushResults, sess. unfold bind, get, ret. intros E.
  eapply (mfor_inv (flush_frame r)); [|apply flush_frame_refl|exact E].
  intros id r1 r2 f _. apply flush_one_frame.
Qed.

Definition is_ending r : bool :=
  s_Closed (r_sess r) || (Body_Final (Msg_Body (r_resp r)) && negb (hasWork (r_sess r))).

Definition unenrolled_calls (ending : bool) (s : Session) : list HookCall :=
  match cfg_Hooks cfg with
  | Some _ => if ending && s_unenroll s then [Unenrolled (s_DeviceID s)] else []
  | None => []
  end.

Lemma settle_spec ending s r r' res :
  settle cfg ending s r = (r', res) →
  r_sess r' = r_sess r ∧ r_resp r' = r_resp r ∧
  w_queue (r_world r') = w_queue (r_world r) ∧
  w_sessions (r_world r') =
    (if ending then DeleteSession (s_Key s) else PutSession s) (w_sessions (r_world r)) ∧
  w_log (r_world r') = w_log (r_world r) ++ unenrolled_calls ending s.
Proof.
  unfold settle, unenrolled_calls. destruct ending; simpl.
  - unfold hook, set_sessions, upd_world, lift, modify.
    destruct (s_unenroll s), (cfg_Hooks cfg) as [h|]; unfold bind; simpl; intros [= <- _];
      simpl; rewrite ?app_nil_r; done.
  - unfold set_sessions, upd_world, modify. intros [= <- _]. simpl.
    destruct (cfg_Hooks cfg); by rewrite ?app_nil_r.
Qed.

(** What a successful finish leaves: [r'] is the run after it. *)
Lemma finish_Ok r r' out :
  finish cfg now order r = (r', Ok out) →
  ∃ r1, flushResults now order r = (r1, Ok tt) ∧
    r_sess r' = set_ServerMsgID (mustAtoi (Hdr_MsgID (Msg_Header (r_resp r)))) (r_sess r1) ∧
    r_resp r' = r_resp r ∧
    w_queue (r_world r') = w_queue (r_world r1) ∧
    w_sessions (r_world r') =
      (if is_ending r' then DeleteSession (s_Key (r_sess r')) else PutSession (r_sess r'))
        (w_sessions (r_world r)) ∧
    w_log (r_world r') = w_log (r_world r) ++ unenrolled_calls (is_ending r') (r_sess r') ∧
    (if is_ending r' && onlyHeaderStatus (resp_cmds r') then out = None
     else ∃ b, Marshal (r_resp r') = Ok b ∧ out = Some b).
Proof.
  intros E. unfold finish in E.
  apply bind_Ok in E as (r1 & [] & Ef & E).
  pose proof (flush_frame_all _ _ _ Ef) as (Hp & Hl & Hm & Hn & Hs).
  exists r1. split; [done|].
  apply bind_Ok in E as (? & ? & [= <- <-] & E).
  apply bind_Ok in E as (r2 & ? & [= <- _] & E).
  apply bind_Ok in E as (? & ? & [= <- <-] & E). rewrite Hp in E.
  set (s' := set_ServerMsgID _ (r_sess r1)) in E.
  set (r2 := mkRun (r_world r1) s' (r_resp r) (r_ids r1)) in E.
  apply bind_Ok in E as (r3 & [] & Es & E).
  change (s_Closed (r_sess r2) || _) with (is_ending r2) in Es, E.
  apply settle_spec in Es as (Hs3 & Hp3 & Hq3 & Hm3 & Hl3).
  assert (is_ending r3 = is_ending r2 ∧ resp_cmds r3 = resp_cmds r2) as [He3 Hc3]
    by (unfold is_ending, resp_cmds; by rewrite Hs3, Hp3).
  assert (r' = r3 ∧ if is_ending r2 && onlyHeaderStatus (resp_cmds r2) then out = None
              else ∃ b, Marshal (r_resp r2) = Ok b ∧ out = Some b) as [-> Ho].
  { destruct (is_ending r2 && onlyHeaderStatus (resp_cmds r2)); [by inversion E|].
    apply bind_Ok in E as (r4 & b & Eb & E). unfold lift in Eb. injection Eb as <- Eb.
    unfold ret in E. injection E as <- <-. split; [done|]. by exists b. }
  rewrite He3, Hc3, Hs3, Hp3, Hq3, Hm3, Hl3. subst r2; simpl in *. rewrite Hm, Hl.
  split_and!; done.
Qed.

(** The session that [finish] settles, after the flush left [r1]. *)
Definition settled r r1 : Session :=
  set_ServerMsgID (mustAtoi (Hdr_MsgID (Msg_Header (r_resp r)))) (r_sess r1).

(** What a finish leaves whether it succeeds or fails: the queue is what the
    flush left; the store and the hook log are as before, or the session has
    been settled. *)
Lemma finish_any r r' res :
  finish cfg now order r = (r', res) →
  ∃ r1 x, flushResults now order r = (r1, x) ∧ w_queue (r_world r') = w_queue (r_world r1) ∧
    (w_sessions (r_world r') = w_sessions (r_world r) ∧
       w_log (r_world r') = w_log (r_world r) ∨
     let s := settled r r1 in
     let ending := s_Closed s || (Body_Final (Msg_Body (r_resp r)) && negb (hasWork s)) in
     w_sessions (r_world r') =
       (if ending then DeleteSession (s_Key s) else PutSession s) (w_sessions (r_world r)) ∧
     w_log (r_world r') = w_log (r_world r) ++ unenrolled_calls ending s).
Proof.
  unfold finish. unfold bind at 1.
  destruct (flushResults now order r) as [r1 x] eqn:Ef. intros E.
  exists r1, x. split; [done|]. revert E.
  pose proof (flush_frame_all _ _ _ Ef) as (Hp & Hl & Hm & Hn & Hs).
  destruct x as [[]|e]; [|intros [= <- _]; split; [done|by left]].
  unfold bind at 1, get at 1. unfold bind at 1, upd_sess at 1, modify at 1.
  unfold bind at 1, get at 1. rewrite Hp. cbn [r_world r_sess r_resp].
  fold (settled r r1). unfold bind at 1.
  destruct (settle cfg _ _ _) as [r3 y] eqn:Es.
  apply settle_spec in Es as (_ & _ & Hq & Hm3 & Hl3). cbn [r_world] in *.
  rewrite Hm in Hm3. rewrite Hl in Hl3.
  intros E. assert (r' = r3) as ->; [|split; [exact Hq|right; exact (conj Hm3 Hl3)]].
  destruct y as [[]|e]; [|by injection E].
  case_match; [by injection E|]. unfold bind, lift in E. destruct (Encode _ _); by injection E.
Qed.

(** An answer that is complete in [s] goes to the queue. *)
Definition filed (s : Session) (q q' : Q) : Prop :=
  ∃ id pr code, s_results s !! id = Some pr ∧ pr_status pr = Some code ∧
    q' = (q_StoreResult (s_DeviceID s) id
            (mkResult code (pr_origErr pr) (pr_items pr) (pr_children pr) now) q).1.

(** A flush does nothing to the queue but file such answers. *)
Lemma flush_filed s r r' res :
  s_results (r_sess r) = s_results s → s_DeviceID (r_sess r) = s_DeviceID s →
  flushResults now order r = (r', res) →
  rtc (filed s) (w_queue (r_world r)) (w_queue (r_world r')).
Proof.
  intros Hr Hd. unfold flushResults, sess. unfold bind at 1 2, get, ret. intros E.
  assert (s_results (r_sess r') ⊆ s_results s ∧ s_DeviceID (r_sess r') = s_DeviceID s ∧
    rtc (filed s) (w_queue (r_world r)) (w_queue (r_world r'))) as (_ & _ & ?); [|done].
  eapply (mfor_inv (λ x, s_results (r_sess x) ⊆ s_results s ∧
    s_DeviceID (r_sess x) = s_DeviceID s ∧
    rtc (filed s) (w_queue (r_world r)) (w_queue (r_world x)))); [| |exact E].
  2: { by rewrite Hr. }
  clear Hr Hd E r' res. intros id r1 r2 x _ (Hsub & Hd & Hrt).
  unfold flush_one, bind, get, ret, on_queue, upd_sess, modify. rewrite Hd.
  destruct (s_results (r_sess r1) !! id) as [pr|] eqn:Epr; [|by intros [= <- _]].
  destruct (pr_status pr) as [code|] eqn:Ec; [|by intros [= <- _]].
  destruct (q_StoreResult _ _ _ _) as [q y] eqn:Eq.
  assert (rtc (filed s) (w_queue (r_world r)) q) as Hq.
  { eapply rtc_r; [exact Hrt|]. exists id, pr, code.
    split; [by eapply lookup_weaken|]. split; [done|]. by rewrite Eq. }
  destruct y as [[]|e]; intros [= <- _]; cbn; split_and!; try done.
  etrans; [apply delete_subseteq|done].
Qed.

Lemma filed_none s q q' : no_ready s → rtc (filed s) q q' → q' = q.
Proof.
  intros Hn Hq. destruct Hq as [|? ? ? (id & pr & code & Hi & Hc & _)]; [done|].
  apply Hn in Hi. congruence.
Qed.

(** ** What every step keeps *)

(** A relation every step of a computation respects. *)
Definition keeps {A} (P : Run Q → Run Q → Prop) (m : M (Run Q) A) : Prop :=
  ∀ r r' res, m r = (r', res) → P r r'.

Section keeps.
Context (P : Run Q → Run Q → Prop) `{!PreOrder P}.

Lemma keeps_bind {A B} (m : M (Run Q) A) (k : A → M (Run Q) B) :
  keeps P m → (∀ a, keeps P (k a)) → keeps P (bind m k).
Proof using PreOrder0.
  intros Hm Hk r r' res. unfold bind. destruct (m r) as [r1 [a|e]] eqn:E.
  - intros E'. etrans; [by eapply Hm|by eapply Hk].
  - intros [= <- _]. by eapply Hm.
Qed.

Lemma keeps_same {A} (m : M (Run Q) A) : (∀ r, (m r).1 = r) → keeps P m.
Proof using PreOrder0. intros Hm r r' res E. specialize (Hm r). rewrite E in Hm. by subst. Qed.

Lemma keeps_ret {A} (a : A) : keeps P (ret a).
Proof using PreOrder0. by apply keeps_same. Qed.
Lemma keeps_get : keeps P get.
Proof using PreOrder0. by apply keeps_same. Qed.
Lemma keeps_lift {A} (x : result A) : keeps P (lift x).
Proof using PreOrder0. by apply keeps_same. Qed.
Lemma keeps_sess : keeps P sess.
Proof using PreOrder0. by apply keeps_same. Qed.

Lemma keeps_mfor {A} (f : A → M (Run Q) unit) l :
  (∀ a, keeps P (f a)) → keeps P (mfor f l).
Proof using PreOrder0.
  intros Hf. induction l as [|a l IH]; simpl; [apply keeps_ret|].
  apply keeps_bind; [apply Hf|by intros _].
Qed.

Lemma keeps_if {A} (b : bool) (m k : M (Run Q) A) :
  keeps P m → keeps P k → keeps P (if b then m else k).
Proof using. by destruct b. Qed.

Lemma keeps_decide {A} (X : Prop) `{Decision X} (m k : M (Run Q) A) :
  keeps P m → keeps P k → keeps P (if decide X then m else k).
Proof using. by case_decide. Qed.
End keeps.

(** Steps keep the session's identity and the reply's header; they only add
    to the reply and to the hook log; and they leave other devices' commands
    alone. *)
Record stable r r' : Prop := {
  st_ident : ident (r_sess r') = ident (r_sess r);
  st_header : Msg_Header (r_resp r') = Msg_Header (r_resp r);
  st_cmds : resp_cmds r `prefix_of` resp_cmds r';
  st_log : w_log (r_world r) `prefix_of` w_log (r_world r');
  st_sessions : w_sessions (r_world r') = w_sessions (r_world r);
  st_nonce : w_nonce (r_world r') = w_nonce (r_world r);
  st_queue : q_wf (w_queue (r_world r)) →
    q_wf (w_queue (r_world r')) ∧
    ∀ d, d ≠ s_DeviceID (r_sess r) →
      q_cmds (w_queue (r_world r')) d = q_cmds (w_queue (r_world r)) d }.

Lemma ident_device s s' : ident s' = ident s → s_DeviceID s' = s_DeviceID s.
Proof. unfold ident. congruence. Qed.

#[local] Instance stable_preorder : PreOrder stable.
Proof.
  split.
  - intros r. by split.
  - intros r1 r2 r3 [] []. split; try (by etrans); try congruence.
    intros Hw. destruct (st_queue0 Hw) as [Hw2 Ho2]. destruct (st_queue1 Hw2) as [Hw3 Ho3].
    split; [done|]. intros d Hd. rewrite Ho3, Ho2; [done..|].
    by rewrite (ident_device _ _ st_ident0).
Qed.

Lemma stable_upd_sess f : (∀ s, ident (f s) = ident s) → keeps stable (upd_sess f).
Proof. intros Hf r r' res [= <- _]. split; simpl; try done. Qed.

Lemma stable_add_cmd c : keeps stable (add_cmd c).
Proof.
  intros r r' res [= <- _]. split; simpl; try done. unfold resp_cmds; simpl.
  by apply prefix_app_r.
Qed.

Lemma stable_set_final b : keeps stable (set_final b).
Proof. intros r r' res [= <- _]. by split. Qed.

Lemma stable_next_id : keeps stable next_id.
Proof. intros r r' res E. rewrite next_id_eq in E. injection E as <- _. by split. Qed.

Lemma stable_hook c : keeps stable (hook cfg c).
Proof.
  unfold hook. destruct (cfg_Hooks cfg) as [h|]; [|apply keeps_ret; apply _].
  apply keeps_bind; [apply _| |intros _; apply keeps_lift; apply _].
  intros r r' res [= <- _]. split; simpl; try done. by apply prefix_app_r.
Qed.

(** A queue operation on the session's own device. *)
Lemma stable_on_queue {A} (f : string → Q → Q * result A) :
  (∀ dev q q' x, q_wf q → f dev q = (q', x) →
    q_wf q' ∧ ∀ d, d ≠ dev → q_cmds q' d = q_cmds q d) →
  ∀ r r' res, on_queue (f (s_DeviceID (r_sess r))) r = (r', res) → stable r r'.
Proof.
  intros Hf r r' res. unfold on_queue.
  destruct (f _ _) as [q x] eqn:E. intros [= <- _]. split; simpl; try done.
  intros Hw. by eapply Hf.
Qed.

Lemma stable_enqueue c : keeps stable (enqueue now c).
Proof.
  unfold enqueue. intros r r' res E. unfold bind, sess, bind, get, ret in E. simpl in E.
  eapply (stable_on_queue (λ dev, q_Enqueue dev (Some c) now)); [|exact E].
  intros dev q q' x Hw Ex. by destruct (law_enqueue _ _ _ _ _ _ Hw Ex) as (? & ? & _).
Qed.

(** Follow a computation to its primitive steps. *)
Ltac keep :=
  repeat lazymatch goal with
    | |- keeps stable (ret _) => apply (keeps_ret stable)
    | |- keeps stable get => apply (keeps_get stable)
    | |- keeps stable (lift _) => apply (keeps_lift stable)
    | |- keeps stable sess => apply (keeps_sess stable)
    | |- keeps stable (add_cmd _) => apply stable_add_cmd
    | |- keeps stable (set_final _) => apply stable_set_final
    | |- keeps stable next_id => apply stable_next_id
    | |- keeps stable (hook _ _) => apply stable_hook
    | |- keeps stable (enqueue _ _) => apply stable_enqueue
    | |- keeps stable (mfor _ _) => apply (keeps_mfor stable); intros
    | |- keeps stable (if decide _ then _ else _) => apply keeps_decide
    | |- keeps stable (if _ then _ else _) => apply keeps_if
    | |- keeps stable (bind _ _) => apply (keeps_bind stable); [|intros]
    | |- keeps stable (upd_sess _) => apply stable_upd_sess; intros; reflexivity
    end.

Lemma stable_unless_conflict {A} (m : M (Run Q) A) :
  keeps stable m → keeps stable (unless_conflict m).
Proof.
  intros Hm r r' res. unfold unless_conflict. destruct (m r) as [r1 [a|e]] eqn:E.
  - intros [= <- _]. by eapply Hm.
  - destruct (isConflict e); intros [= <- _]; by eapply Hm.
Qed.

Lemma stable_queueFirstSessionReads : keeps stable (queueFirstSessionReads cfg now).
Proof. unfold queueFirstSessionReads. keep. apply stable_unless_conflict. keep. Qed.

Lemma stable_recordPackageOne req : keeps stable (recordPackageOne cfg now req).
Proof. unfold recordPackageOne. keep. apply stable_queueFirstSessionReads. Qed.

Lemma stable_alert_item code it : keeps stable (alert_item cfg code it).
Proof. unfold alert_item. keep. Qed.

Lemma stable_handleAlert a : keeps stable (handleAlert cfg a).
Proof.
  unfold handleAlert. keep.
  - apply stable_upd_sess. intros s. by destruct (s_Assembler s).
  - destruct (cfg_Hooks cfg); keep. apply stable_alert_item.
Qed.

Lemma fileStatus_ident st s : ident (fileStatus st s) = ident s.
Proof. unfold fileStatus. repeat case_match; done. Qed.

Lemma assemble_items_ident id items acc a s a' s' res :
  assemble_items id items acc a s = ((a', s'), res) → ident s' = ident s.
Proof.
  revert acc a s. induction items as [|it items IH]; intros acc a s; simpl;
    [by inversion 1|].
  destruct (Assembler_Add a it) as [a1 [[out b]|e]]; [destruct b|by inversion 1];
    [apply IH|].
  intros E. apply IH in E. by rewrite E.
Qed.

Lemma fileResults_ident n x s s' res : fileResults n x s = (s', res) → ident s' = ident s.
Proof.
  unfold fileResults. destruct (match s_Sent s !! _ with Some id => _ | None => _ end) as [id|];
    [|by inversion 1].
  destruct (assemble_items _ _ _ _ _) as [[a s1] r1] eqn:E. apply assemble_items_ident in E.
  destruct r1; [destruct (Assembler_Pending a)|]; intros E'; inversion E'; subst; by rewrite <- E.
Qed.

Lemma stable_ack_command req c : keeps stable (ack_command cfg req c).
Proof.
  destruct c; simpl; keep; try apply stable_handleAlert.
  intros r r' res. destruct (fileResults _ _ _) as [s1 res1] eqn:E. intros [= <- _].
  apply fileResults_ident in E. by split.
Qed.

Lemma stable_ackAndFile req : keeps stable (ackAndFile cfg now req).
Proof.
  unfold ackAndFile. keep.
  - apply stable_ack_command.
  - apply stable_upd_sess. intros. apply fileStatus_ident.
  - apply stable_recordPackageOne.
Qed.

Lemma mapChildren_ident msgID c pid s : ident (mapChildren msgID c pid s).1 = ident s.
Proof. unfold mapChildren. destruct c; simpl; try done; by destruct (map_members _ _ _ _ _). Qed.

(** ** Sending one command *)

Definition sent_session r (qc : QueuedCommand) : Session :=
  set_Sent (<[ref_key (Itoa (mustAtoi (Hdr_MsgID (Msg_Header (r_resp r)))))
                (Itoa (wrap64 (r_ids r + 1))) := qc_ID qc]> (s_Sent (r_sess r))) (r_sess r).

Definition sent_body r (qc : QueuedCommand) (body : Command) : Session * Command :=
  mapChildren (Hdr_MsgID (Msg_Header (r_resp r)))
    (assignID body (Itoa (wrap64 (r_ids r + 1)))) (qc_ID qc) (sent_session r qc).

Lemma send_command_run qc body r :
  send_command qc body r =
  (mkRun (r_world r) (sent_body r qc body).1
     (set_body (r_resp r) (resp_cmds r ++ [(sent_body r qc body).2])
        (Body_Final (Msg_Body (r_resp r))))
     (wrap64 (r_ids r + 1)), Ok tt).
Proof.
  unfold send_command. unfold bind at 1. rewrite next_id_eq.
  unfold bind at 1, get at 1. unfold bind at 1, upd_sess at 1, modify at 1.
  unfold bind at 1, get at 1. unfold sent_body, sent_session.
  simpl r_resp. simpl r_sess.
  destruct (mapChildren _ _ _ _) as [s2 b2]. done.
Qed.

Lemma stable_send_command qc body : keeps stable (send_command qc body).
Proof.
  intros r r' res. rewrite send_command_run. intros [= <- _].
  split; simpl; try done.
  - unfold sent_body. by rewrite mapChildren_ident.
  - unfold resp_cmds; simpl. by apply prefix_app_r.
Qed.

Lemma stable_deliver_loop cmds : ∀ budget ds, keeps stable (deliver_loop now cmds budget ds).
Proof.
  induction cmds as [|qc cmds IH]; intros budget ds; simpl; keep; [apply IH|].
  destruct (prepare _ _) as [body chunks]. keep; [apply stable_send_command|].
  destruct chunks; keep. apply IH.
Qed.

Lemma stable_mark dev ds r r' res :
  dev = s_DeviceID (r_sess r) → on_queue (q_MarkSent dev ds) r = (r', res) → stable r r'.
Proof.
  intros ->. apply (stable_on_queue (λ dev, q_MarkSent dev ds)).
  intros dev q q' x Hw Ex. by destruct (law_mark_sent _ _ _ _ _ Hw Ex) as (? & ? & _).
Qed.

Lemma stable_deliver : keeps stable (deliver cfg now).
Proof.
  intros r r' res E. unfold deliver in E. unfold bind at 1, get at 1 in E.
  destruct (upload_pending (r_sess r)).
  - revert E. match goal with |- ?m r = _ → _ => assert (keeps stable m) as Hk by keep end.
    apply Hk.
  - unfold bind at 1, lift at 1 in E.
    destruct (q_Deliverable _ _ _) as [cmds|e]; [|inversion E; subst; reflexivity].
    unfold bind at 1 in E.
    destruct (deliver_loop _ _ _ _ _) as [r1 [ds|e]] eqn:Ed;
      apply stable_deliver_loop in Ed as Hs; [|by inversion E; subst].
    unfold bind at 1 in E.
    destruct ((if decide (ds = []) then ret tt else _) r1) as [r2 [[]|e]] eqn:Em.
    all: assert (stable r1 r2) as Hs2 by (case_decide; [by inversion Em; subst|];
      eapply stable_mark; [|exact Em]; symmetry; apply ident_device, Hs).
    + etrans; [exact Hs|]. etrans; [exact Hs2|]. revert E.
      match goal with |- ?m r2 = _ → _ => assert (keeps stable m) as Hk by keep end. apply Hk.
    + inversion E; subst. by etrans.
Qed.

Lemma stable_continueOrNext : keeps stable (continueOrNext cfg now).
Proof.
  unfold continueOrNext. keep. destruct (s_Outgoing _) as [[cid [|next chunks] name]|];
    try apply stable_deliver. keep. destruct chunks; keep.
Qed.

(** The part of a trusted run before finish. *)
Definition answer (req : Message) : M (Run Q) unit :=
  let! id := next_id in
  add_cmd (CStatus (StatusForHeader req id StatusOK)) ;!
  ackAndFile cfg now req ;!
  let! s := sess in
  if s_Closed s then set_final true
  else if IsNextMessageRequest req && Nat.leb (length (Body_Statuses (Msg_Body req))) 1
  then continueOrNext cfg now
  else deliver cfg now.

Lemma run_trusted_answer req r :
  run_trusted cfg now order req r = bind (answer req) (λ _, finish cfg now order) r.
Proof.
  unfold run_trusted, answer, bind.
  destruct (next_id r) as [r1 [id|e]]; [|done].
  destruct (add_cmd _ r1) as [r2 [[]|e]]; [|done].
  destruct (ackAndFile _ _ _ r2) as [r3 [[]|e]]; [|done].
  by destruct (sess r3) as [r4 [s|e]].
Qed.

Lemma stable_answer req : keeps stable (answer req).
Proof.
  unfold answer. keep; [apply stable_ackAndFile|apply stable_continueOrNext|apply stable_deliver].
Qed.

(** Flushing writes to the session's own device. *)
Lemma stable_flush_one id : keeps stable (flush_one now id).
Proof.
  intros r r' res. unfold flush_one. unfold bind at 1, get at 1.
  destruct (s_results (r_sess r) !! id) as [pr|]; [|by intros [= <- _]].
  destruct (pr_status pr) as [code|]; [|by intros [= <- _]].
  unfold bind at 1. destruct (on_queue _ r) as [r1 [[]|e]] eqn:E;
    apply (stable_on_queue (λ dev, q_StoreResult dev id
      (mkResult code (pr_origErr pr) (pr_items pr) (pr_children pr) now))) in E.
  2, 4: intros dev q q' x Hw Ex; by destruct (law_store_result _ _ _ _ _ _ Hw Ex) as (? & ? & _).
  - intros [= <- _]. etrans; [exact E|]. by split.
  - by intros [= <- _].
Qed.

Lemma stable_flush : keeps stable (flushResults now order).
Proof. unfold flushResults. keep. apply stable_flush_one. Qed.

(** What a whole request may touch. *)
Record localr r r' : Prop := {
  lo_ident : ident (r_sess r') = ident (r_sess r);
  lo_queue : q_wf (w_queue (r_world r)) →
    q_wf (w_queue (r_world r')) ∧
    ∀ d, d ≠ s_DeviceID (r_sess r) →
      q_cmds (w_queue (r_world r')) d = q_cmds (w_queue (r_world r)) d;
  lo_sessions : ∀ k, k ≠ s_Key (r_sess r) →
    ms_sessions (w_sessions (r_world r')) !! k = ms_sessions (w_sessions (r_world r)) !! k }.

Lemma stable_localr r r' : stable r r' → localr r r'.
Proof. intros []. split; [done..|]. intros. by rewrite st_sessions0. Qed.

#[local] Instance localr_preorder : PreOrder localr.
Proof.
  split.
  - intros r. by split.
  - intros r1 r2 r3 [] []. split; [congruence| |].
    + intros Hw. destruct (lo_queue0 Hw) as [Hw2 Ho2]. destruct (lo_queue1 Hw2) as [Hw3 Ho3].
      split; [done|]. intros d Hd. rewrite Ho3, Ho2; [done..|].
      by rewrite (ident_device _ _ lo_ident0).
    + intros k Hk. rewrite lo_sessions1, lo_sessions0; [done..|].
      unfold ident in lo_ident0. congruence.
Qed.

Lemma finish_local r r' res : finish cfg now order r = (r', res) → localr r r'.
Proof.
  unfold finish. unfold bind at 1.
  destruct (flushResults now order r) as [r1 [[]|e]] eqn:Ef;
    pose proof (stable_localr _ _ (stable_flush _ _ _ Ef)) as Hf; [|by intros [= <- _]].
  unfold bind at 1, get at 1. unfold bind at 1, upd_sess at 1, modify at 1.
  unfold bind at 1, get at 1.
  set (r2 := mkRun (r_world r1) _ (r_resp r1) (r_ids r1)).
  assert (localr r r2) as H2 by (etrans; [exact Hf|]; by split).
  clearbody r2. clear Hf Ef r1. unfold bind at 1.
  destruct (settle cfg _ (r_sess r2) r2) as [r3 x] eqn:Es.
  assert (localr r r3) as H3.
  { etrans; [exact H2|]. apply settle_spec in Es as (Hs & _ & Hq & Hm & _).
    split; [by rewrite Hs|by rewrite Hq|]. intros k Hk. rewrite Hm.
    case_match; simpl; [by rewrite lookup_delete_ne|by rewrite lookup_insert_ne]. }
  destruct x as [[]|e]; [|by intros [= <- _]].
  case_match; [by intros [= <- _]|]. unfold bind, lift.
  destruct (Encode _ _); by intros [= <- _].
Qed.

Lemma challenge_local req id o r r' res :
  challenge cfg now rand req id o r = (r', res) → localr r r'.
Proof.
  intros (Hq & _ & Hm & Hi & _)%challenge_spec.
  split; [done|by rewrite Hq|by rewrite Hm].
Qed.

(** The identity a request's session has after authentication. *)
Lemma authenticate_ident req id t mem s s' o :
  authenticate cfg now req id t mem s = (s', o) →
  s_Key s' = s_Key s ∧ s_DeviceID s' = s_DeviceID s ∧ s_SessionID s' = s_SessionID s ∧
  s_EnrollmentKey s' = s_EnrollmentKey s ∧ s_ClientMsgID s' = s_ClientMsgID s ∧
  s_ServerMsgID s' = s_ServerMsgID s ∧ s_LastSeen s' = s_LastSeen s.
Proof.
  unfold authenticate. intros E.
  repeat match type of E with
    | (if ?b then _ else _) = _ => destruct b
    | match ?x with Some _ => _ | None => _ end = _ => destruct x
    | (_, _) = (_, _) => injection E as <- _
    end; by try case_decide.
Qed.

Lemma handle_run_local req id t s w r res :
  handle_run cfg now rand order req id t s w = (r, res) →
  ∃ s1 o, authenticate cfg now req id t (w_nonce w) s = (s1, o) ∧
    localr (mkRun w s1 (NewResponse req (cfg_ServerURL cfg)
      (Itoa (wrap64 (s_ServerMsgID s1 + 1)))) 0) r.
Proof.
  unfold handle_run. destruct (authenticate _ _ _ _ _ _ _) as [s1 o]. intros E.
  exists s1, o. split; [done|]. set (r0 := mkRun w s1 _ 0) in *. clearbody r0.
  assert (∀ m, keeps localr m → bind m (λ _ : (), finish cfg now order) r0 = (r, res) →
    localr r0 r) as Hm.
  { intros m Hk. unfold bind. destruct (m r0) as [r1 [[]|e]] eqn:Em.
    - intros Ef. etrans; [by eapply Hk|by eapply finish_local].
    - intros [= <- _]. by eapply Hk. }
  destruct o.
  - rewrite run_trusted_answer in E. eapply Hm; [|exact E].
    intros r1 r2 x Ex. by eapply stable_localr, stable_answer.
  - eapply Hm; [|exact E]. intros r1 r2 x. apply challenge_local.
  - eapply Hm; [|exact E]. intros r1 r2 x. apply challenge_local.
Qed.

(** ** Flushing the answers *)

Definition ready (o : option pendingResult) : bool :=
  match o with Some pr => bool_decide (is_Some (pr_status pr)) | None => false end.

(** The command after the answer collected for it, if that has a Status. *)
Definition answer_one (res : gmap string pendingResult) (qc : QueuedCommand) : QueuedCommand :=
  match res !! qc_ID qc with
  | Some pr =>
      match pr_status pr with
      | Some code => answered_by
          (mkResult code (pr_origErr pr) (pr_items pr) (pr_children pr) now) qc
      | None => qc
      end
  | None => qc
  end.

Lemma answer_one_command res qc : qc_Command (answer_one res qc) = qc_Command qc.
Proof. unfold answer_one. by repeat case_match. Qed.

Lemma flush_one_Ok id r r' :
  q_wf (w_queue (r_world r)) → flush_one now id r = (r', Ok tt) →
  q_cmds (w_queue (r_world r')) (s_DeviceID (r_sess r)) =
    update_id id (answer_one (s_results (r_sess r)))
      (q_cmds (w_queue (r_world r)) (s_DeviceID (r_sess r))) ∧
  s_results (r_sess r') =
    if ready (s_results (r_sess r) !! id) then delete id (s_results (r_sess r))
    else s_results (r_sess r).
Proof.
  intros Hw. unfold flush_one. unfold bind at 1, get at 1.
  assert (∀ f cs, (∀ qc, qc_ID qc = id → f qc = qc) → update_id id f cs = cs) as Hid.
  { intros f cs Hf. unfold update_id. rewrite <- (map_id cs) at 2. apply map_ext.
    intros qc. case_decide; auto. }
  destruct (s_results (r_sess r) !! id) as [pr|] eqn:Er.
  2: { intros [= <-]. rewrite Hid; [done|]. intros qc <-. unfold answer_one. by rewrite Er. }
  destruct (pr_status pr) as [code|] eqn:Ec.
  2: { intros [= <-]. simpl. rewrite Ec. rewrite Hid; [done|].
       intros qc <-. unfold answer_one. by rewrite Er, Ec. }
  unfold bind, on_queue. destruct (q_StoreResult _ _ _ _) as [q [[]|e]] eqn:E; [|done].
  intros [= <-]. simpl. rewrite Ec. simpl. split; [|done].
  destruct (law_store_result _ _ _ _ _ _ Hw E) as (_ & _ & _ & ->).
  unfold update_id. apply map_ext. intros qc. case_decide as Hd; [|done].
  unfold answer_one. by rewrite Hd, Er, Ec.
Qed.

Lemma flush_loop l r r' :
  NoDup l → q_wf (w_queue (r_world r)) → mfor (flush_one now) l r = (r', Ok tt) →
  let dev := s_DeviceID (r_sess r) in
  let res := s_results (r_sess r) in
  q_cmds (w_queue (r_world r')) dev =
    map (λ qc, if decide (qc_ID qc ∈ l) then answer_one res qc else qc)
      (q_cmds (w_queue (r_world r)) dev) ∧
  ∀ id, s_results (r_sess r') !! id =
    if decide (id ∈ l) then (if ready (res !! id) then None else res !! id) else res !! id.
Proof.
  revert r. induction l as [|i l IH]; intros r Hnd Hw; cbn [mfor].
  - intros [= <-]. split.
    + rewrite <- (map_id (q_cmds _ _)) at 1. apply map_ext. intros qc.
      rewrite decide_False; [done|]. apply not_elem_of_nil.
    + intros id. rewrite decide_False; [done|]. apply not_elem_of_nil.
  - apply NoDup_cons in Hnd as [Hni Hnd]. intros (r1 & [] & E1 & E)%bind_Ok.
    pose proof (stable_flush_one _ _ _ _ E1) as Hst. destruct (st_queue _ _ Hst Hw) as [Hw1 _].
    destruct (flush_one_Ok _ _ _ Hw E1) as [Hc1 Hr1].
    destruct (IH r1 Hnd Hw1 E) as [Hc Hr].
    rewrite (ident_device _ _ (st_ident _ _ Hst)) in Hc. split.
    + rewrite Hc, Hc1. unfold update_id. rewrite map_map. apply map_ext. intros qc.
      destruct (decide (qc_ID qc = i)) as [<-|Hne].
      * rewrite (decide_True (P := qc_ID qc ∈ qc_ID qc :: l)) by apply list_elem_of_here.
        rewrite decide_False; [done|]. unfold qc_ID. by rewrite answer_one_command.
      * assert (qc_ID qc ∈ i :: l ↔ qc_ID qc ∈ l) as Hiff
          by (rewrite elem_of_cons; naive_solver).
        rewrite (decide_ext _ _ _ _ Hiff). case_decide; [|done].
        unfold answer_one. rewrite Hr1. destruct (ready _); [|done].
        by rewrite lookup_delete_ne.
    + intros id. rewrite Hr, Hr1. destruct (decide (id = i)) as [->|Hne].
      * rewrite (decide_False (P := i ∈ l)) by done.
        rewrite decide_True by apply list_elem_of_here.
        destruct (ready (s_results (r_sess r) !! i)); [apply lookup_delete_eq|done].
      * assert (id ∈ i :: l ↔ id ∈ l) as Hiff by (rewrite elem_of_cons; naive_solver).
        rewrite (decide_ext _ _ _ _ Hiff).
        destruct (ready (s_results (r_sess r) !! i)); [|done].
        by rewrite lookup_delete_ne.
Qed.

Lemma flush_Ok r r' :
  (∀ m, order m ≡ₚ (map_to_list m).*1) →
  q_wf (w_queue (r_world r)) → flushResults now order r = (r', Ok tt) →
  q_cmds (w_queue (r_world r')) (s_DeviceID (r_sess r)) =
    map (answer_one (s_results (r_sess r)))
      (q_cmds (w_queue (r_world r)) (s_DeviceID (r_sess r))) ∧
  no_ready (r_sess r').
Proof.
  intros Ho Hw E. unfold flushResults in E. apply bind_Ok in E as (r1 & s & Es & E).
  unfold sess, bind, get, ret in Es. injection Es as <- <-.
  assert (∀ id pr, s_results (r_sess r) !! id = Some pr → id ∈ order (s_results (r_sess r)))
    as Hin.
  { intros id pr Hid. rewrite Ho. apply list_elem_of_fmap. exists (id, pr). split; [done|].
    by apply elem_of_map_to_list. }
  apply flush_loop in E as [Hc Hr]; [|rewrite Ho; apply NoDup_fst_map_to_list|done].
  split.
  - rewrite Hc. apply map_ext. intros qc. case_decide as Hd; [done|].
    unfold answer_one. destruct (s_results (r_sess r) !! qc_ID qc) as [pr|] eqn:Ep; [|done].
    by destruct Hd; eapply Hin.
  - intros id pr Hid. rewrite Hr in Hid.
    destruct (s_results (r_sess r) !! id) as [pr'|] eqn:Ep; [|by case_decide].
    rewrite decide_True in Hid by by eapply Hin. simpl in Hid.
    destruct (pr_status pr') eqn:Est; [done|]. by injection Hid as <-.
Qed.

(** Flushing succeeds when every answered command is in the queue. *)
Lemma flush_loop_total l r :
  q_wf (w_queue (r_world r)) →
  (∀ id, ready (s_results (r_sess r) !! id) = true →
     id ∈ ids (q_cmds (w_queue (r_world r)) (s_DeviceID (r_sess r)))) →
  ∃ r', mfor (flush_one now) l r = (r', Ok tt).
Proof.
  revert r. induction l as [|i l IH]; intros r Hw Hin; cbn [mfor]; [by exists r|].
  unfold bind. destruct (flush_one now i r) as [r1 res] eqn:E1.
  assert (res = Ok tt) as ->.
  { revert E1. unfold flush_one. unfold bind at 1, get at 1. specialize (Hin i).
    destruct (s_results (r_sess r) !! i) as [pr|]; [|by intros [= _ <-]].
    unfold ready in Hin. destruct (pr_status pr) as [code|]; [|by intros [= _ <-]].
    unfold bind, on_queue. destruct (q_StoreResult _ _ _ _) as [q [[]|e]] eqn:E;
      [by intros [= _ <-]|].
    destruct (law_store_result _ _ _ _ _ _ Hw E) as (_ & _ & Hni & _).
    destruct Hni. apply Hin. by rewrite bool_decide_eq_true. }
  pose proof (stable_flush_one _ _ _ _ E1) as Hst. destruct (st_queue _ _ Hst Hw) as [Hw1 _].
  destruct (flush_one_Ok _ _ _ Hw E1) as [Hc Hr]. apply IH; [done|]. intros id Hid.
  rewrite (ident_device _ _ (st_ident _ _ Hst)), Hc, ids_update by apply answer_one_command.
  apply Hin. rewrite Hr in Hid. destruct (ready (s_results (r_sess r) !! i)); [|done].
  destruct (decide (id = i)) as [->|Hne]; [by rewrite lookup_delete_eq in Hid|].
  by rewrite lookup_delete_ne in Hid.
Qed.

(** ** Delivering *)

(** The items a command carries, leaf by leaf. *)
Definition payload (c : Command) : list (list Item) := map itemsOf (Leaves c).

Lemma payload_assignID c id : payload (assignID c id) = payload c.
Proof. by destruct c. Qed.

Lemma payload_map_members msgID pid next ms ch :
  concat (map payload (map_members msgID pid next ms ch).1) = concat (map payload ms).
Proof.
  revert next ch. induction ms as [|m ms IH]; intros next ch; simpl; [done|].
  set (ch' := <[_ := _]> ch).
  destruct (map_members msgID pid _ ms ch') as [ms' ch''] eqn:E. simpl.
  rewrite payload_assignID. f_equal. specialize (IH (wrap64 (next + 1)) ch').
  by rewrite E in IH.
Qed.

Lemma payload_group ms : map itemsOf (concat (map Leaves ms)) = concat (map payload ms).
Proof. rewrite concat_map, map_map. done. Qed.

Lemma mapChildren_body msgID c pid s :
  let b := (mapChildren msgID c pid s).2 in
  Command_Name b = Command_Name c ∧ Command_ID b = Command_ID c ∧ payload b = payload c.
Proof.
  unfold mapChildren. destruct c as [| | | | | |i n m ms|i n m ms| |]; simpl; try done;
    pose proof (payload_map_members msgID pid (zsize (s_Sent s) + zsize (s_Children s) + 1000)
      ms (s_Children s)) as Hp;
    destruct (map_members _ _ _ _ _) as [ms' ch]; simpl in *; split_and!; try done;
    unfold payload; simpl; by rewrite !payload_group.
Qed.

Lemma assignID_ID c id : is_client_command c = false → Command_ID (assignID c id) = id.
Proof. by destruct c. Qed.

Lemma assignID_Name c id : Command_Name (assignID c id) = Command_Name c.
Proof. by destruct c. Qed.

Lemma mapChildren_frame msgID c pid s :
  let s' := (mapChildren msgID c pid s).1 in
  s_Sent s' = s_Sent s ∧ s_Facts s' = s_Facts s ∧ s_MaxObjSize s' = s_MaxObjSize s ∧
  s_Outgoing s' = s_Outgoing s ∧ s_results s' = s_results s.
Proof. unfold mapChildren. destruct c; simpl; try done; by destruct (map_members _ _ _ _ _). Qed.

(** A delivered command: its body is in the reply under a CmdID that the
    session maps back to it. *)
Definition delivered (msg : string) (maxObj : Z) (s : Session) (qc : QueuedCommand)
    (b : Command) : Prop :=
  Command_Name b = Command_Name (qc_Body qc) ∧
  payload b = payload (prepare maxObj qc).1 ∧
  s_Sent s !! ref_key msg (Command_ID b) = Some (qc_ID qc).

Definition sizes (maxObj : Z) (qcs : list QueuedCommand) : Z :=
  foldr (λ qc n, commandSize (prepare maxObj qc).1 + n) 0 qcs.

Definition allowed (f : Facts) (cmds : list QueuedCommand) : list QueuedCommand :=
  List.filter (λ qc, scopeAllows f (qc_Scope qc)) cmds.

Lemma prepare_Name maxObj qc :
  Command_Name (prepare maxObj qc).1 = Command_Name (qc_Body qc).
Proof.
  unfold prepare. rewrite cloneCommand_id. repeat case_match; simpl; try done.
  by destruct (qc_Body qc).
Qed.

Lemma prepare_client maxObj qc :
  is_client_command (prepare maxObj qc).1 = is_client_command (qc_Body qc).
Proof.
  unfold prepare. rewrite cloneCommand_id. repeat case_match; simpl; try done.
  by destruct (qc_Body qc).
Qed.

Lemma ref_key_inj msg a b : ref_key msg a = ref_key msg b → a = b.
Proof. unfold ref_key. intros E. apply str_app_inj_l in E. by apply str_app_inj_l in E. Qed.

Section loop.
Context (msgID : string) (f : Facts) (maxObj : Z).
Let msg := Itoa (mustAtoi msgID).

(** What the delivery loop achieves from a run with this reply header,
    these facts and this object limit. *)
Record loop_post (cmds : list QueuedCommand) (budget : Z) (ds : list Delivery) r r'
    (out : list Delivery) (sent : list QueuedCommand) (bodies : list Command) : Prop := {
  lp_world : r_world r' = r_world r;
  lp_results : s_results (r_sess r') = s_results (r_sess r);
  lp_out : out = ds ++ map (λ qc, mkDelivery (qc_ID qc) msgID now) sent;
  lp_cmds : resp_cmds r' = resp_cmds r ++ bodies;
  lp_sent : Forall2 (delivered msg maxObj (r_sess r')) sent bodies;
  lp_old : ∀ j, 0 ≤ j ≤ r_ids r →
    s_Sent (r_sess r') !! ref_key msg (Itoa j) = s_Sent (r_sess r) !! ref_key msg (Itoa j);
  lp_budget : ∀ init z tl, sent = init ++ z :: tl → ds ≠ [] ∨ init ≠ [] →
    sizes maxObj init < budget;
  lp_rest : ∃ rest, allowed f cmds = sent ++ rest ∧
    (rest ≠ [] →
     (budget ≤ sizes maxObj sent ∧ (ds ≠ [] ∨ sent ≠ [])) ∨
     (∃ init z cs, sent = init ++ [z] ∧ (prepare maxObj z).2 = Some cs ∧
        s_Outgoing (r_sess r') =
          Some (mkOutgoing (qc_ID z) cs (Command_Name (prepare maxObj z).1)))) }.

Definition loop_pre (cmds : list QueuedCommand) r : Prop :=
  Hdr_MsgID (Msg_Header (r_resp r)) = msgID ∧ s_Facts (r_sess r) = f ∧
  s_MaxObjSize (r_sess r) = maxObj ∧
  0 ≤ r_ids r ∧ r_ids r + zlength cmds ≤ max_int64 ∧
  Forall (λ qc, is_client_command (qc_Body qc) = false) cmds.

(** The run after one command is sent. *)
Lemma send_post qc cmds r :
  loop_pre (qc :: cmds) r →
  let body := (prepare maxObj qc).1 in
  ∃ r1 b, send_command qc body r = (r1, Ok tt) ∧ loop_pre cmds r1 ∧
    r_ids r1 = r_ids r + 1 ∧ r_world r1 = r_world r ∧
    s_results (r_sess r1) = s_results (r_sess r) ∧
    s_Outgoing (r_sess r1) = s_Outgoing (r_sess r) ∧
    resp_cmds r1 = resp_cmds r ++ [b] ∧ delivered msg maxObj (r_sess r1) qc b ∧
    Command_ID b = Itoa (r_ids r + 1) ∧
    ∀ j, 0 ≤ j ≤ r_ids r →
      s_Sent (r_sess r1) !! ref_key msg (Itoa j) = s_Sent (r_sess r) !! ref_key msg (Itoa j).
Proof.
  intros (Hm & Hf & Ho & Hi & Hb & Hcl) body.
  apply Forall_cons in Hcl as [Hc Hcl].
  unfold zlength in *. simpl length in Hb.
  assert (wrap64 (r_ids r + 1) = r_ids r + 1) as Hw.
  { apply wrap64_id. unfold in_int64, min_int64, max_int64 in *. lia. }
  rewrite send_command_run, Hw.
  eexists _, (sent_body r qc body).2. split; [done|].
  pose proof (mapChildren_frame (Hdr_MsgID (Msg_Header (r_resp r)))
    (assignID body (Itoa (wrap64 (r_ids r + 1)))) (qc_ID qc) (sent_session r qc))
    as (Fs & Ff & Fm & Fo & Fr).
  pose proof (mapChildren_body (Hdr_MsgID (Msg_Header (r_resp r)))
    (assignID body (Itoa (wrap64 (r_ids r + 1)))) (qc_ID qc) (sent_session r qc))
    as (Bn & Bi & Bp).
  change (mapChildren _ _ _ _) with (sent_body r qc body) in *.
  rewrite Hw in Bn, Bi, Bp.
  assert (s_Sent (sent_body r qc body).1 =
    <[ref_key msg (Itoa (r_ids r + 1)) := qc_ID qc]> (s_Sent (r_sess r))) as HS.
  { rewrite Fs. unfold sent_session. simpl. by rewrite Hw, Hm. }
  rewrite assignID_ID in Bi by (subst body; by rewrite prepare_client).
  split_and!; try done.
  - unfold loop_pre. simpl. rewrite Ff, Fm. unfold sent_session; simpl. unfold zlength.
    split_and!; try done; lia.
  - unfold delivered. simpl. rewrite Bn, Bp, Bi, HS, lookup_insert_eq.
    rewrite assignID_Name, payload_assignID. split_and!; [apply prepare_Name|done..].
  - intros j Hj. simpl. rewrite HS, lookup_insert_ne; [done|].
    intros E%ref_key_inj. apply Itoa_inj in E; unfold in_int64, min_int64, max_int64 in *; lia.
Qed.

Lemma delivered_Sent s s' qc b :
  s_Sent s' !! ref_key msg (Command_ID b) = s_Sent s !! ref_key msg (Command_ID b) →
  delivered msg maxObj s qc b → delivered msg maxObj s' qc b.
Proof. intros E (? & ? & ?). unfold delivered. by rewrite E. Qed.

(** The loop stops with nothing sent, for want of commands or of budget. *)
Lemma loop_stop cmds budget ds r :
  (allowed f cmds ≠ [] → budget ≤ 0 ∧ ds ≠ []) → loop_post cmds budget ds r r ds [] [].
Proof.
  intros Hstop. split; try done.
  - by rewrite app_nil_r.
  - by rewrite app_nil_r.
  - intros [|] ?? [=].
  - exists (allowed f cmds). split; [done|]. intros [??]%Hstop. left. split; [done|by left].
Qed.

(** One command sent whole, and the loop gone on from there. *)
Lemma loop_more qc cmds budget ds r r1 r' b body out sent bodies :
  allowed f (qc :: cmds) = qc :: allowed f cmds → prepare maxObj qc = (body, None) →
  (ds ≠ [] → 0 < budget) →
  0 ≤ r_ids r → r_ids r1 = r_ids r + 1 → r_world r1 = r_world r →
  s_results (r_sess r1) = s_results (r_sess r) → resp_cmds r1 = resp_cmds r ++ [b] →
  delivered msg maxObj (r_sess r1) qc b → Command_ID b = Itoa (r_ids r + 1) →
  (∀ j, 0 ≤ j ≤ r_ids r →
     s_Sent (r_sess r1) !! ref_key msg (Itoa j) = s_Sent (r_sess r) !! ref_key msg (Itoa j)) →
  loop_post cmds (budget - commandSize body) (ds ++ [mkDelivery (qc_ID qc) msgID now]) r1 r' out
    sent bodies →
  loop_post (qc :: cmds) budget ds r r' out (qc :: sent) (b :: bodies).
Proof.
  intros Hall Ep Hbud Hi Hid1 Hw1 Hr1 Hc1 Hd1 Hbid Hold1
    [Lw Lr Lo Lc Ls Lold Lb (rest & Lrest & Lstop)].
  split.
  - by rewrite Lw.
  - by rewrite Lr.
  - rewrite Lo, <- app_assoc. done.
  - rewrite Lc, Hc1, <- app_assoc. done.
  - constructor; [|done]. eapply delivered_Sent; [|exact Hd1]. rewrite Hbid. apply Lold. lia.
  - intros j Hj. rewrite Lold by lia. by apply Hold1.
  - intros [|q0 init] z tl Heq Hor; simplify_eq/=.
    + destruct Hor as [Hds|]; [auto|done].
    + rewrite Ep. simpl. assert (sizes maxObj init < budget - commandSize body); [|lia].
      eapply Lb; [done|]. left. by destruct ds.
  - exists rest. rewrite Hall, Lrest. split; [done|]. intros Hrest.
    destruct (Lstop Hrest) as [[Hz _]|(init & z & cs & -> & ? & ?)].
    + left. simpl. rewrite Ep. simpl. split; [lia|by right].
    + right. exists (qc :: init), z, cs. done.
Qed.

Lemma deliver_loop_post cmds : ∀ budget ds r,
  loop_pre cmds r →
  ∃ r' out sent bodies, deliver_loop now cmds budget ds r = (r', Ok out) ∧
    loop_post cmds budget ds r r' out sent bodies.
Proof.
  induction cmds as [|qc cmds IH]; intros budget ds r Hpre.
  { exists r, ds, [], []. split; [done|]. by apply loop_stop. }
  pose proof Hpre as (Hm & Hf & Ho & Hi & Hb & Hcl). cbn [deliver_loop].
  unfold bind at 1, get at 1. rewrite Hf, Ho.
  assert (allowed f (qc :: cmds) = if scopeAllows f (qc_Scope qc) then qc :: allowed f cmds
    else allowed f cmds) as Hall by done.
  destruct (scopeAllows f (qc_Scope qc)); simpl negb; cbn iota.
  2: { destruct (IH budget ds r) as (r' & out & sent & bodies & E & Hp).
       { unfold loop_pre, zlength in *. simpl length in Hb. apply Forall_cons in Hcl as [_ ?].
         split_and!; try done; lia. }
       exists r', out, sent, bodies. split; [done|]. destruct Hp. split; try done.
       by rewrite Hall. }
  destruct (prepare maxObj qc) as [body chunks] eqn:Ep.
  destruct ((budget <=? 0) && (0 <? zlength ds)) eqn:Eb.
  { btrue. exists r, ds, [], []. split; [done|]. apply loop_stop. intros _.
    split; [done|]. intros ->. unfold zlength in *. simpl in *. lia. }
  assert (ds ≠ [] → 0 < budget) as Hbud.
  { intros Hds. apply andb_false_iff in Eb as [Eb|Eb]; btrue; [done|].
    destruct ds; [done|]. unfold zlength in Eb. simpl length in Eb. lia. }
  destruct (send_post qc cmds r Hpre)
    as (r1 & b & Esend & Hpre1 & Hid1 & Hw1 & Hr1 & Ho1 & Hc1 & Hd1 & Hbid & Hold1).
  rewrite Ep in Esend. simpl in Esend. unfold bind at 1. cbn [negb]. rewrite Esend.
  destruct chunks as [cs|].
  - unfold bind at 1, upd_sess at 1, modify at 1. rewrite Hm.
    eexists _, _, [qc], [b]. split; [done|]. split; try done.
    + by constructor.
    + intros [|? [|]] z tl Heq; try discriminate Heq. intros [Hds|Hds]; [auto|done].
    + exists (allowed f cmds). rewrite Hall. split; [done|]. intros _. right.
      exists [], qc, cs. by rewrite Ep.
  - rewrite Hm. destruct (IH (budget - commandSize body) (ds ++ [mkDelivery (qc_ID qc) msgID now])
      r1 Hpre1) as (r' & out & sent & bodies & E & Hp).
    exists r', out, (qc :: sent), (b :: bodies). split; [done|].
    by eapply (loop_more qc cmds budget ds r r1).
Qed.
End loop.

Lemma filter_sublist {A} (p : A → bool) l : List.filter p l `sublist_of` l.
Proof.
  induction l as [|a l IH]; simpl; [done|].
  destruct (p a); [by apply sublist_skip|by apply sublist_cons].
Qed.

Lemma upto_sublist {A} n (l : list A) : upto n l `sublist_of` l.
Proof. unfold upto. destruct (0 <? n); [apply sublist_take|done]. Qed.

(** Marking distinct commands sent, one by one, marks each of them. *)
Lemma marked_map msgID sent cmds :
  NoDup (ids sent) →
  foldl (λ cs d, update_id (Delivery_CommandID d) (sent_by d) cs) cmds
    (map (λ qc, mkDelivery (qc_ID qc) msgID now) sent) =
  map (λ qc, if decide (qc_ID qc ∈ ids sent)
             then sent_by (mkDelivery (qc_ID qc) msgID now) qc else qc) cmds.
Proof using.
  clear cfg rand order. revert cmds.
  induction sent as [|q0 sent IH]; intros cmds Hnd; cbn [foldl map ids].
  - rewrite <- (map_id cmds) at 1. apply map_ext. intros qc.
    rewrite decide_False; [done|]. apply not_elem_of_nil.
  - apply NoDup_cons in Hnd as [Hni Hnd]. rewrite IH by done. unfold update_id.
    rewrite map_map. apply map_ext. intros qc. cbn [Delivery_CommandID].
    destruct (decide (qc_ID qc = qc_ID q0)) as [Heq|Hne].
    + rewrite (decide_True (P := qc_ID qc ∈ qc_ID q0 :: _)) by (rewrite Heq; apply list_elem_of_here).
      rewrite decide_False; [by rewrite Heq|].
      change (qc_ID qc ∉ ids sent). by rewrite Heq.
    + assert (qc_ID qc ∈ qc_ID q0 :: map qc_ID sent ↔ qc_ID qc ∈ ids sent) as Hiff
        by (rewrite elem_of_cons; naive_solver).
      by rewrite (decide_ext _ _ _ _ Hiff).
Qed.

(** Recording a delivery of commands that are in the queue. *)
Lemma mark_delivered msgID dev sent r1 :
  q_wf (w_queue (r_world r1)) → sent `sublist_of` q_cmds (w_queue (r_world r1)) dev →
  NoDup (ids sent) →
  let ds := map (λ qc, mkDelivery (qc_ID qc) msgID now) sent in
  ∃ r2, (if decide (ds = []) then ret tt else on_queue (q_MarkSent dev ds)) r1 = (r2, Ok tt) ∧
    r_sess r2 = r_sess r1 ∧ r_resp r2 = r_resp r1 ∧
    q_cmds (w_queue (r_world r2)) dev =
      map (λ qc, if decide (qc_ID qc ∈ ids sent)
                 then sent_by (mkDelivery (qc_ID qc) msgID now) qc else qc)
        (q_cmds (w_queue (r_world r1)) dev).
Proof using H0.
  clear cfg rand order. intros Hw Hss Hnd. set (q := w_queue (r_world r1)) in *. intros ds. subst ds. case_decide as Hd.
  - exists r1. split_and!; try done. fold q.
    apply map_eq_nil in Hd. subst sent. rewrite <- (map_id (q_cmds q dev)) at 1.
    apply map_ext. intros qc. rewrite decide_False; [done|]. apply not_elem_of_nil.
  - unfold on_queue. fold q. destruct (q_MarkSent _ _ _) as [q2 res] eqn:Eq.
    destruct (law_mark_sent _ _ _ _ _ Hw Eq) as (_ & _ & Hok & Hfold).
    assert (res = Ok tt) as ->.
    { apply Hok. apply Forall_forall. intros d (qc & -> & Hqc)%list_elem_of_fmap. simpl.
      apply list_elem_of_fmap_2. by eapply sublist_submseteq, elem_of_submseteq in Hss. }
    eexists. split; [done|]. simpl. split_and!; try done.
    rewrite Hfold by done. by apply marked_map.
Qed.

(** The commands of a device that may be sent now. *)
Definition waiting r : list QueuedCommand :=
  allowed (s_Facts (r_sess r)) (upto 256 (List.filter deliverable
    (q_cmds (w_queue (r_world r)) (s_DeviceID (r_sess r))))).

Definition reply_budget r : Z := cfg_MaxMessageBytes cfg - zlength (resp_cmds r) * 128.

(** What a delivery from [r] to [r'] does. *)
Record delivery_ok r r' (sent : list QueuedCommand) (bodies : list Command) : Prop := {
  do_reply : resp_cmds r' = resp_cmds r ++ bodies;
  do_mapped : Forall2 (delivered (Itoa (mustAtoi (Hdr_MsgID (Msg_Header (r_resp r)))))
    (s_MaxObjSize (r_sess r)) (r_sess r')) sent bodies;
  do_queue : q_cmds (w_queue (r_world r')) (s_DeviceID (r_sess r)) =
    map (λ qc, if decide (qc_ID qc ∈ ids sent)
               then sent_by (mkDelivery (qc_ID qc) (Hdr_MsgID (Msg_Header (r_resp r))) now) qc
               else qc)
      (q_cmds (w_queue (r_world r)) (s_DeviceID (r_sess r)));
  do_order : ∃ rest, waiting r = sent ++ rest ∧
    (rest ≠ [] → sent ≠ [] ∧
      (reply_budget r ≤ sizes (s_MaxObjSize (r_sess r)) sent ∨
       is_Some (s_Outgoing (r_sess r'))));
  do_budget : ∀ init z tl, sent = init ++ z :: tl → init ≠ [] →
    sizes (s_MaxObjSize (r_sess r)) init < reply_budget r;
  do_final : Body_Final (Msg_Body (r_resp r')) = bool_decide (s_Outgoing (r_sess r') = None);
  do_results : s_results (r_sess r') = s_results (r_sess r) }.

(** ** Issuing a nonce *)

(** The nonce that goes out is the one the state store keeps, until it
    expires. *)
Lemma issueNonce_stored dev r r' n :
  issueNonce cfg now rand dev r = (r', Ok n) →
  rand 16 = Some n ∧ ValidKey (nonceKey dev) = true ∧
  mem_records (w_nonce (r_world r')) !! nonceKey dev =
    Some (mkStateRecord (nonceKey dev) n (time_Add now (cfg_NonceTTL cfg))).
Proof.
  unfold issueNonce, NewNonce. change (16 <? 1) with false.
  destruct (rand 16) as [b|]; [|done]. cbv beta iota zeta.
  destruct (Memory_Update _ _ _ _ _ _) as [mem res] eqn:Eu.
  match type of Eu with Memory_Update ?a ?b ?c ?d ?f ?m = _ =>
    destruct (Memory_Update_cases a b c d f m)
      as [[e He]|(f' & t & [= <-] & Ef & _ & Hk & He)] end;
    rewrite He in Eu; injection Eu as <- <-; [done|].
  apply Forall_cons in Hk as [Hk _]. unfold memoryTx_Put in Ef. cbn in Ef.
  rewrite Hk in Ef. cbn in Ef. injection Ef as <-. intros E. injection E as <- <-. cbn.
  split_and!; [done..|]. rewrite lookup_overlay. by rewrite lookup_insert_eq.
Qed.

Lemma currentNonce_stored dev mem n exp :
  ValidKey (nonceKey dev) = true → exp ≠ 0 →
  mem_records mem !! nonceKey dev = Some (mkStateRecord (nonceKey dev) n exp) →
  currentNonce now dev mem = if now <? exp then n else "".
Proof.
  intros Hk Hx Hm. unfold currentNonce. rewrite Memory_Get_spec, Hk, Hm. cbn.
  unfold time_IsZero, time_After. destruct (Z.eqb_spec exp 0); [done|]. cbn.
  by destruct (now <? exp).
Qed.
End Proofs.
