(* ===== verification/MdmEngineTheorems.v ===== *)
(** * What the engine guarantees

    Properties of [MdmEngine], for every queue that meets the CommandQueue
    laws: who is trusted and what the others get, how sessions advance, what
    is delivered and how answers are filed.  The witnesses run the engine on
    the in-memory queue. *)
From stdpp Require Import base gmap strings list.
From Stdlib Require Import ZArith Lia Ascii.
From S2P Require Import Prelude GoStrings SyncmlModel LargeObject Validate Response.
From S2P Require Import Encode SyncmlAuth GoCrypto MdmCommand Paging StateStore.
From S2P Require Import MdmAuth MdmQueue InmemQueue MdmSession MdmEngine.
From S2P Require Import MdmEngineProofs.

Local Open Scope Z_scope.
Local Open Scope go_scope.

#[local] Arguments verifyCredential : simpl never.
#[local] Opaque Encode.

Section Theorems.
Context {Q : Type} `{CommandQueueLaws Q}.
Context (cfg : Config) (now : Time) (rand : Z → option string)
  (order : gmap string pendingResult → list string).
Implicit Types (r : Run Q) (w : World Q).

(** C2: A request is acted on only when the session was already authenticated
    at the application layer, or this very request came over a connection
    whose verified chains the authenticator trusts, or its credential
    verifies against the nonce issued to the device (basic credentials only
    where allowed); otherwise the session is left unauthenticated, and the
    answer is 401 exactly when an acceptable credential type was presented
    and did not verify. *)
Theorem authenticate_sound req id t mem s s' o :
  authenticate cfg now req id t mem s = (s', o) →
  (o = authTrusted → s_Authenticated s' = true ∧ trusted_by cfg now req id t mem s s') ∧
  (o ≠ authTrusted → s_Authenticated s' = false ∧
    (o = authRejected ↔
     (id_AuthType id = AuthBasicType → cfg_AllowBasic cfg = true) ∧
     is_Some (Hdr_Cred (Msg_Header req)))).
Proof.
  intros E. destruct (authenticate_cases _ _ _ _ _ _ _ _ _ E)
    as [(-> & ? & ?)|(? & ? & ? & _)]; split; done.
Qed.

Lemma MD5Digest_trim u p n : TrimSpace (MD5Digest u p n) = MD5Digest u p n.
Proof. apply TrimSpace_id, b64_encode_ok. Qed.

(** A digest challenge carries the nonce the store keeps. *)
Lemma challenge_nonce req id o r r' :
  id_AuthType id = AuthDigest → challenge cfg now rand req id o r = (r', Ok tt) →
  ∃ n, rand 16 = Some n ∧ ValidKey (nonceKey (id_DeviceID id)) = true ∧
    mem_records (w_nonce (r_world r')) !! nonceKey (id_DeviceID id) =
      Some (mkStateRecord (nonceKey (id_DeviceID id)) n (time_Add now (cfg_NonceTTL cfg))) ∧
    resp_cmds r' = resp_cmds r ++ [CStatus (with_chal
      (StatusForHeader req (Itoa (wrap64 (r_ids r + 1))) (challenge_code o)) (NewMD5Chal n))].
Proof.
  intros Hid. unfold challenge. rewrite decide_False by (rewrite Hid; discriminate).
  unfold bind at 1. rewrite next_id_eq. set (r1 := mkRun (r_world r) _ _ _).
  intros (r2 & chal & Ec & E)%bind_Ok. apply bind_Ok in Ec as (r3 & n & Ei & [= <- <-]).
  pose proof (issueNonce_frame _ _ _ _ _ _ _ Ei) as (_ & Hp & _).
  apply issueNonce_stored in Ei as (Hr & Hk & Hm). exists n.
  injection E as <-. split_and!; try done. unfold resp_cmds. simpl. by rewrite Hp.
Qed.

(** The digest login: the nonce in a challenge is kept by the server and
    read back by the client; from then on, until the nonce expires and not
    after, the device is trusted exactly when its credential is the digest of
    its user name and password with that nonce. *)
Theorem digest_login_roundtrip user password req id o r r' req2 t2 s2 now2 cred :
  id_AuthType id = AuthDigest → id_CredentialHash id = CredentialHash user password →
  (∀ b, rand 16 = Some b → len b = 16) → 0 < now → 0 < cfg_NonceTTL cfg →
  challenge cfg now rand req id o r = (r', Ok tt) →
  s_Authenticated s2 = false → verifiedPeerChains t2 = [] →
  Hdr_Cred (Msg_Header req2) = Some cred → Meta_Type (Cred_Meta cred) = AuthMD5 →
  ∃ st chal n, resp_cmds r' = resp_cmds r ++ [CStatus (with_chal st chal)] ∧
    Chal_Nonce (Some chal) = Ok n ∧
    ((authenticate cfg now2 req2 id t2 (w_nonce (r_world r')) s2).2 = authTrusted ↔
     now2 < now + cfg_NonceTTL cfg ∧ TrimSpace (Cred_Data cred) = MD5Digest user password n).
Proof.
  intros Hid Hh Hrand Hnow Httl Ech Hs2 Ht2 Hc Hct.
  destruct (challenge_nonce _ _ _ _ _ Hid Ech) as (n & Hr & Hk & Hm & Hcmds).
  assert (n ≠ "") as Hn by (intros ->; by apply Hrand in Hr).
  eexists _, (NewMD5Chal n), n. split; [exact Hcmds|].
  split.
  { unfold Chal_Nonce, NewMD5Chal; simpl. rewrite decide_False.
    - rewrite b64_decode_encode. destruct (Z.eqb_spec (len n) 0); [by apply len_0 in e|done].
    - by destruct n as [|a [|b [|c ?]]]. }
  unfold authenticate. rewrite Hs2, Ht2, Hc. cbn -[verifyCredential currentNonce MD5Digest].
  rewrite Hid, (bool_decide_eq_false_2 (AuthDigest = AuthBasicType)) by discriminate.
  assert (time_Add now (cfg_NonceTTL cfg) ≠ 0) as Hx by (unfold time_Add; lia).
  rewrite (currentNonce_stored _ _ _ _ _ Hk Hx Hm).
  unfold verifyCredential. rewrite Hid, Hct, Hh.
  rewrite (decide_True (P := AuthDigest = AuthDigest)) by done.
  rewrite (bool_decide_eq_true_2 (AuthMD5 = AuthMD5)) by done. unfold time_Add.
  destruct (Z.eqb_spec (len (CredentialHash user password)) 0) as [Hz|_];
    [by apply len_0, md5_Sum_nonempty in Hz|].
  destruct (Z.ltb_spec now2 (now + cfg_NonceTTL cfg)) as [Hlt|Hge].
  - destruct (Z.eqb_spec (len n) 0) as [Hz|_]; [by apply len_0 in Hz|].
    unfold VerifyMD5, MD5Digest. simpl negb. cbn [orb].
    destruct (bool_decide (TrimSpace _ = _)) eqn:Eb; btrue; simpl; naive_solver.
  - simpl. split; [done|lia].
Qed.

(** ** Sessions *)

(** The key, the message number and the session a request refers to. *)
Definition req_key (req : Message) : string :=
  SessionKey (LocURI (Hdr_Source (Msg_Header req))) (Hdr_SessionID (Msg_Header req)).
Definition req_msg (req : Message) : Z := mustAtoi (Hdr_MsgID (Msg_Header req)).

(** The stored session, unless idle for too long or of another enrollment. *)
Definition live_session (at_ : Time) (id : Identity) (key : string) w : option Session :=
  let ms := w_sessions w in
  match ms_sessions ms !! key with
  | Some s =>
      if decide (time_Sub at_ (s_LastSeen s) ≤ (if ms_TTL ms =? 0 then Hour else ms_TTL ms) ∧
                 s_EnrollmentKey s = id_EnrollmentKey id) then Some s else None
  | None => None
  end.

(** Every session is stored under its own key. *)
Definition keyed w : Prop := ∀ k s, ms_sessions (w_sessions w) !! k = Some s → s_Key s = k.

Lemma live_session_Some at_ id key w s :
  live_session at_ id key w = Some s →
  ms_sessions (w_sessions w) !! key = Some s ∧ s_EnrollmentKey s = id_EnrollmentKey id.
Proof.
  unfold live_session. destruct (_ !! key); [|done]. case_decide as Hd; [|done].
  intros [= <-]. naive_solver.
Qed.

Lemma enter_session_ident req t n s :
  let s' := enter_session now req t n s in
  s_Key s' = s_Key s ∧ s_DeviceID s' = s_DeviceID s ∧ s_EnrollmentKey s' = s_EnrollmentKey s ∧
  s_ServerMsgID s' = s_ServerMsgID s ∧ s_ClientMsgID s' = n ∧ s_LastSeen s' = now ∧
  s_results s' = s_results s ∧ s_Authenticated s' = s_Authenticated s ∧
  s_Closed s' = s_Closed s.
Proof. unfold enter_session. destruct (Hdr_Meta _), t; simpl; repeat case_match; done. Qed.

Lemma session_cases at_ req id t w w1 res :
  session at_ req id t w = (w1, res) →
  w_queue w1 = w_queue w ∧ w_nonce w1 = w_nonce w ∧ w_log w1 = w_log w ∧
  ms_sessions (w_sessions w1) ⊆ ms_sessions (w_sessions w) ∧
  (∀ k, k ≠ req_key req →
    ms_sessions (w_sessions w1) !! k = ms_sessions (w_sessions w) !! k) ∧
  res = match live_session at_ id (req_key req) w with
        | Some s => if decide (req_msg req = wrap64 (s_ClientMsgID s + 1))
                    then Ok (enter_session at_ req t (req_msg req) s)
                    else Err [syncml_ErrInvalid]
        | None => if decide (req_msg req = 1 ∧ IsPackageOne req = true)
                  then Ok (enter_session at_ req t 1 (new_session at_ req id (req_key req)))
                  else Err [syncml_ErrInvalid]
        end.
Proof.
  unfold session, live_session. fold (req_key req) (req_msg req).
  set (key := req_key req). set (n := req_msg req).
  assert (∀ (w2 : World Q) e, errors_Is e mdm_ErrNotFound = true →
    (if errors_Is e mdm_ErrNotFound then
       if negb (n =? 1) then (w2, Err [syncml_ErrInvalid])
       else if negb (IsPackageOne req) then (w2, Err [syncml_ErrInvalid])
       else (w2, Ok (enter_session at_ req t n (new_session at_ req id key)))
     else (w2, Err e)) = (w1, res) →
    w1 = w2 ∧ res = if decide (n = 1 ∧ IsPackageOne req = true)
      then Ok (enter_session at_ req t 1 (new_session at_ req id key))
      else Err [syncml_ErrInvalid]) as Hnew.
  { intros w2 e ->. destruct (Z.eqb_spec n 1) as [->|Hn]; cbn [negb].
    - destruct (IsPackageOne req); cbn [negb]; intros [= <- <-]; done.
    - intros [= <- <-]. rewrite decide_False; [done|naive_solver]. }
  unfold GetSession. destruct (ms_sessions (w_sessions w) !! key) as [s|] eqn:Es.
  - destruct (Z.ltb_spec (if ms_TTL (w_sessions w) =? 0 then Hour else ms_TTL (w_sessions w))
      (time_Sub at_ (s_LastSeen s))) as [Hlt|Hge]; cbn [session_for].
    + intros [-> ->]%Hnew; [|done]. simpl.
      rewrite (decide_False (P := _ ≤ _ ∧ _)) by (intros [Hle%Z.le_ngt _]; done).
      split_and!; try done; [apply delete_subseteq|]. intros k Hk. by rewrite lookup_delete_ne.
    + destruct (decide (s_EnrollmentKey s = id_EnrollmentKey id)) as [He|He].
      * rewrite (decide_True (P := _ ≤ _ ∧ _)) by done. destruct (Z.eqb_spec n (wrap64 (s_ClientMsgID s + 1)));
          cbn [negb]; intros [= <- <-]; simpl;
          [rewrite decide_True by done|rewrite decide_False by done]; done.
      * intros [-> ->]%Hnew; [|done].
        rewrite (decide_False (P := _ ≤ _ ∧ _)) by naive_solver. done.
  - cbn [session_for]. intros [-> ->]%Hnew; [|done]. done.
Qed.

(** A finished request leaves its session stored under its key with both
    message numbers moved on, or no session. *)
Lemma finish_stored s1 n r r' out :
  ident (r_sess r) = ident s1 → in_int64 n → Hdr_MsgID (Msg_Header (r_resp r)) = Itoa n →
  finish cfg now order r = (r', Ok out) →
  ident (r_sess r') = ident s1 ∧ s_ServerMsgID (r_sess r') = n ∧ r_resp r' = r_resp r ∧
  ms_sessions (w_sessions (r_world r')) =
    (if is_ending r' then delete (s_Key s1) (ms_sessions (w_sessions (r_world r)))
     else <[s_Key s1 := r_sess r']> (ms_sessions (w_sessions (r_world r)))).
Proof.
  intros Hi Hn Hm (r1 & Hf & Hs & Hp & _ & Hse & _)%finish_Ok.
  apply flush_frame_all in Hf as (_ & _ & _ & _ & Hfs).
  assert (ident (r_sess r') = ident s1) as Hid by (rewrite Hs, Hfs, <- Hi; done).
  assert (s_Key (r_sess r') = s_Key s1) as Hk by (unfold ident in Hid; congruence).
  split_and!; try done.
  - rewrite Hs, Hm. simpl. unfold mustAtoi. by rewrite Atoi_Itoa.
  - rewrite Hse, Hk. destruct (is_ending r'); simpl; [done|by rewrite Hk].
Qed.

Lemma handle_run_stored req id t s w r out :
  handle_run cfg now rand order req id t s w = (r, Ok out) →
  s_Key (r_sess r) = s_Key s ∧ s_DeviceID (r_sess r) = s_DeviceID s ∧
  s_EnrollmentKey (r_sess r) = s_EnrollmentKey s ∧
  s_ClientMsgID (r_sess r) = s_ClientMsgID s ∧ s_LastSeen (r_sess r) = s_LastSeen s ∧
  s_ServerMsgID (r_sess r) = wrap64 (s_ServerMsgID s + 1) ∧
  ms_sessions (w_sessions (r_world r)) =
    (if is_ending r then delete (s_Key s) (ms_sessions (w_sessions w))
     else <[s_Key s := r_sess r]> (ms_sessions (w_sessions w))).
Proof.
  unfold handle_run. destruct (authenticate _ _ _ _ _ _ _) as [s1 o] eqn:Ea.
  apply authenticate_ident in Ea as (Hk & Hd & _ & He & Hc & Hsv & Hl). intros E.
  set (r0 := mkRun w s1 _ 0) in E.
  assert (∃ r1, ident (r_sess r1) = ident s1 ∧
    Hdr_MsgID (Msg_Header (r_resp r1)) = Itoa (wrap64 (s_ServerMsgID s1 + 1)) ∧
    w_sessions (r_world r1) = w_sessions w ∧ finish cfg now order r1 = (r, Ok out))
    as (r1 & Hi & Hm & Hw & Ef).
  { destruct o; [rewrite run_trusted_answer in E|..]; apply bind_Ok in E as (r1 & [] & E1 & E);
      exists r1.
    - apply stable_answer in E1 as []. split_and!; try done. by rewrite st_header.
    - apply challenge_spec in E1 as (_ & _ & Hms & Hi & Hok).
      destruct (Hok eq_refl) as (? & Hp & _). split_and!; try done. by rewrite Hp.
    - apply challenge_spec in E1 as (_ & _ & Hms & Hi & Hok).
      destruct (Hok eq_refl) as (? & Hp & _). split_and!; try done. by rewrite Hp. }
  destruct (finish_stored _ _ _ _ _ Hi (wrap64_range _) Hm Ef) as (Hid & Hsm & _ & Hst).
  rewrite Hw in Hst. rewrite <- Hk, <- Hd, <- He, <- Hc, <- Hl, <- Hsv.
  unfold ident in Hid. split_and!; congruence.
Qed.

Lemma Handle_Ok req t w w' out :
  Handle cfg now rand order req t w = (w', Ok out) →
  ∃ id s w1 r, Validate req = [] ∧
    auth_Lookup (cfg_Auth cfg) (LocURI (Hdr_Source (Msg_Header req))) = Ok id ∧
    session now req id t w = (w1, Ok s) ∧
    handle_run cfg now rand order req id t s w1 = (r, Ok out) ∧ w' = r_world r.
Proof.
  unfold Handle. destruct (Validate req) as [|]; [|done].
  destruct (auth_Lookup _ _) as [id|]; [|done].
  destruct (session _ _ _ _ _) as [w1 [s|e]] eqn:Es; [|done].
  destruct (handle_run _ _ _ _ _ _ _ _ _) as [r res] eqn:Er. intros [= <- ->].
  exists id, s, w1, r. done.
Qed.

(** The session a request that is answered runs in. *)
Lemma session_entered req id t w w1 s :
  keyed w → session now req id t w = (w1, Ok s) →
  s_Key s = req_key req ∧ s_EnrollmentKey s = id_EnrollmentKey id ∧
  s_ClientMsgID s = req_msg req ∧ s_LastSeen s = now ∧
  match live_session now id (req_key req) w with
  | Some s0 => s = enter_session now req t (req_msg req) s0 ∧
      req_msg req = wrap64 (s_ClientMsgID s0 + 1)
  | None => s = enter_session now req t (req_msg req) (new_session now req id (req_key req)) ∧
      req_msg req = 1 ∧ IsPackageOne req = true
  end ∧ keyed w1.
Proof.
  intros Hkey (_ & _ & _ & Hsub & _ & Hres)%session_cases.
  assert (keyed w1) as Hk1 by (intros k s' Hs'; eapply Hkey, lookup_weaken; done).
  destruct (live_session now id (req_key req) w) as [s0|] eqn:El.
  - apply live_session_Some in El as (E0 & He0). apply Hkey in E0.
    case_decide; [|done]. simplify_eq.
    destruct (enter_session_ident req t (req_msg req) s0) as (-> & _ & -> & _ & -> & -> & _).
    done.
  - case_decide as Hd; [|done]. destruct Hd as [Hn ?]. injection Hres as ->.
    rewrite Hn.
    destruct (enter_session_ident req t 1 (new_session now req id (req_key req)))
      as (-> & _ & -> & _ & -> & -> & _). done.
Qed.

(** C9: The messages of a session are taken strictly in order: a request that
    is answered is the next message of the live session of the device's
    current enrollment, or, with no such session, a package 1 numbered 1;
    afterwards the store holds under the session's key either nothing or a
    session of that enrollment, last heard of now, whose message numbers are
    this request's and the previous reply's plus one. *)
Theorem session_sequencing req t w w' out :
  keyed w → Handle cfg now rand order req t w = (w', Ok out) →
  ∃ id, auth_Lookup (cfg_Auth cfg) (LocURI (Hdr_Source (Msg_Header req))) = Ok id ∧
    let prev := live_session now id (req_key req) w in
    match prev with
    | Some s => req_msg req = wrap64 (s_ClientMsgID s + 1)
    | None => req_msg req = 1 ∧ IsPackageOne req = true
    end ∧
    match ms_sessions (w_sessions w') !! req_key req with
    | Some s' =>
        s_ClientMsgID s' = req_msg req ∧ s_EnrollmentKey s' = id_EnrollmentKey id ∧
        s_LastSeen s' = now ∧
        s_ServerMsgID s' = match prev with
                           | Some s => wrap64 (s_ServerMsgID s + 1)
                           | None => 1
                           end
    | None => True
    end ∧ keyed w'.
Proof.
  intros Hkey (id & s & w1 & r & _ & Hl & Es & Er & ->)%Handle_Ok. exists id. split; [done|].
  apply session_entered in Es as (Sk & Se & Sc & Sl & Hp & Hk1); [|done].
  apply handle_run_stored in Er as (Hk & _ & He & Hc & Hls & Hsv & Hst).
  assert (wrap64 (s_ServerMsgID s + 1) = match live_session now id (req_key req) w with
    | Some s => wrap64 (s_ServerMsgID s + 1) | None => 1 end) as Ss.
  { destruct (live_session _ _ _ _) as [s0|]; destruct Hp as (-> & _);
      match goal with |- context [enter_session ?a ?b ?c ?d ?e] =>
        by destruct (enter_session_ident b c d e) as (_ & _ & _ & -> & _) end. }
  split_and!.
  - destruct (live_session _ _ _ _); naive_solver.
  - rewrite Hst, Sk. destruct (is_ending r); [by rewrite lookup_delete_eq|].
    rewrite lookup_insert_eq. split_and!; congruence.
  - intros k s'. rewrite Hst, Sk. destruct (is_ending r).
    + intros [_ ?]%lookup_delete_Some. by apply Hk1.
    + intros [[<- <-]|[_ ?]]%lookup_insert_Some; [congruence|by apply Hk1].
Qed.

(** *** The session store after any request *)

(** Stored sessions are open: a session that is closed is deleted. *)
Definition open_sessions w : Prop :=
  ∀ k s, ms_sessions (w_sessions w) !! k = Some s → s_Closed s = false.

(** A request would open a session: no session of the enrollment is live
    under its key, and it is a package 1 numbered 1. *)
Definition opens (at_ : Time) (req : Message) w : Prop :=
  ∃ id, auth_Lookup (cfg_Auth cfg) (LocURI (Hdr_Source (Msg_Header req))) = Ok id ∧
    live_session at_ id (req_key req) w = None ∧ req_msg req = 1 ∧ IsPackageOne req = true.

(** Whether it succeeds or fails, a run leaves the store as it was, or with
    its own session deleted or stored. *)
Lemma handle_run_sessions req id t s w r res :
  handle_run cfg now rand order req id t s w = (r, res) →
  let ms := ms_sessions (w_sessions w) in
  let ms' := ms_sessions (w_sessions (r_world r)) in
  ms' = ms ∨ ms' = delete (s_Key s) ms ∨
  ∃ s', ms' = <[s_Key s := s']> ms ∧ s_Key s' = s_Key s ∧
    s_ClientMsgID s' = s_ClientMsgID s ∧ s_Closed s' = false.
Proof.
  unfold handle_run. destruct (authenticate _ _ _ _ _ _ _) as [s1 o] eqn:Ea.
  apply authenticate_ident in Ea as (Hk & _ & _ & _ & Hc & _). intros E.
  set (r0 := mkRun w s1 _ 0) in E.
  assert (∀ m : M (Run Q) unit,
    keeps (λ a b, ident (r_sess b) = ident (r_sess a) ∧
      w_sessions (r_world b) = w_sessions (r_world a)) m →
    bind m (λ _, finish cfg now order) r0 = (r, res) →
    ∃ r1, ident (r_sess r1) = ident s1 ∧ w_sessions (r_world r1) = w_sessions w ∧
      (r = r1 ∨ finish cfg now order r1 = (r, res))) as Hm.
  { intros m Hkeep. unfold bind. destruct (m r0) as [r1 x] eqn:Em.
    destruct (Hkeep _ _ _ Em) as [Hi Hw]. destruct x as [[]|e].
    - intros Ef. exists r1. auto.
    - intros [= <- _]. exists r1. auto. }
  assert (∃ r1, ident (r_sess r1) = ident s1 ∧ w_sessions (r_world r1) = w_sessions w ∧
    (r = r1 ∨ finish cfg now order r1 = (r, res))) as (r1 & Hi & Hw & Hor).
  { destruct o; [rewrite run_trusted_answer in E|..]; (eapply Hm; [|exact E]);
      intros a b x Ex; [by apply stable_answer in Ex as []|..];
      by apply challenge_spec in Ex as (_ & _ & ? & ? & _). }
  unfold ident in Hi. destruct Hor as [->|Ef]; [left; by rewrite Hw|].
  destruct (finish_any _ _ _ _ _ _ Ef) as (r2 & x & Hf & _ & [[Hs _]|[Hs _]]);
    [left; by rewrite Hs, Hw|right].
  apply flush_frame_all in Hf as (_ & _ & _ & _ & Hfs).
  rewrite Hw in Hs. rewrite Hs. set (s2 := settled r1 r2) in *.
  assert (s_Key s2 = s_Key s ∧ s_ClientMsgID s2 = s_ClientMsgID s) as [Hk2 Hc2].
  { unfold s2, settled. rewrite Hfs. simpl. split; congruence. }
  clearbody s2. destruct (s_Closed s2) eqn:Hcl; cbn [orb].
  - left. simpl. by rewrite Hk2.
  - destruct (_ && _); simpl; rewrite Hk2; [by left|right; by exists s2].
Qed.

(** What a request leaves in the store. *)
Lemma Handle_sessions req t w w' res :
  keyed w → Handle cfg now rand order req t w = (w', res) →
  keyed w' ∧ (open_sessions w → open_sessions w') ∧
  (∀ k, k ≠ req_key req →
     ms_sessions (w_sessions w') !! k = ms_sessions (w_sessions w) !! k) ∧
  ∀ s', ms_sessions (w_sessions w') !! req_key req = Some s' →
    ms_sessions (w_sessions w) !! req_key req = Some s' ∨
    Validate req = [] ∧ s_ClientMsgID s' = req_msg req ∧
    (opens now req w ∨ ∃ s, ms_sessions (w_sessions w) !! req_key req = Some s ∧
       req_msg req = wrap64 (s_ClientMsgID s + 1)).
Proof.
  intros Hkey. unfold Handle.
  destruct (Validate req) as [|]; [|by intros [= <- _]; eauto].
  destruct (auth_Lookup _ _) as [id|] eqn:Hl; [|by intros [= <- _]; eauto].
  destruct (session _ _ _ _ _) as [w1 [s|e]] eqn:Es;
    pose proof Es as (_ & _ & _ & Hsub & Hoth & _)%session_cases.
  2: { intros [= <- _]. split_and!; [| |done|].
       - intros k s Hs. by eapply Hkey, lookup_weaken.
       - intros Hop k s Hs. by eapply Hop, lookup_weaken.
       - intros s Hs. left. by eapply lookup_weaken. }
  destruct (handle_run _ _ _ _ _ _ _ _ _) as [r x] eqn:Er. intros [= <- _].
  apply session_entered in Es as (Sk & _ & Sc & _ & Hp & Hk1); [|done].
  assert (opens now req w ∨ ∃ s0, ms_sessions (w_sessions w) !! req_key req = Some s0 ∧
    req_msg req = wrap64 (s_ClientMsgID s0 + 1)) as Ho.
  { destruct (live_session now id (req_key req) w) as [s0|] eqn:El.
    - apply live_session_Some in El as [El _]. right. naive_solver.
    - left. exists id. naive_solver. }
  assert (open_sessions w → open_sessions w1) as Hop
    by (intros Hw k s0 Hs; eapply Hw, lookup_weaken; done).
  apply handle_run_sessions in Er as [Er|[Er|(s' & Er & Hk' & Hc' & Hcl')]];
    try rewrite Sk in Er; try rewrite Sk in Hk'; unfold keyed, open_sessions in *; rewrite Er.
  - split_and!; try done. intros s' Hs'. left. by eapply lookup_weaken.
  - split_and!.
    + intros k s0 [_ ?]%lookup_delete_Some. auto.
    + intros Hw k s0 [_ ?]%lookup_delete_Some. by eapply Hop.
    + intros k Hk. rewrite lookup_delete_ne by done. auto.
    + intros s0. by rewrite lookup_delete_eq.
  - split_and!.
    + intros k s0 [[<- <-]|[_ ?]]%lookup_insert_Some; [congruence|auto].
    + intros Hw k s0 [[<- <-]|[_ ?]]%lookup_insert_Some; [done|by eapply Hop].
    + intros k Hk. rewrite lookup_insert_ne by done. auto.
    + intros s0. rewrite lookup_insert_eq. intros [= <-]. right. rewrite Hc', Sc. auto.
Qed.


(** A request runs in an open session under its own key. *)
Lemma session_open req id t w w1 s :
  keyed w → open_sessions w → session now req id t w = (w1, Ok s) →
  s_Closed s = false ∧ s_Key s = req_key req.
Proof.
  intros Hkey Hop (Hk & _ & _ & _ & Hp & _)%session_entered; [|done]. split; [|done].
  destruct (live_session now id (req_key req) w) as [s0|] eqn:El; destruct Hp as (-> & _).
  - apply live_session_Some in El as [El%Hop _].
    by destruct (enter_session_ident req t (req_msg req) s0) as (_ & _ & _ & _ & _ & _ & _ & _ & ->).
  - by destruct (enter_session_ident req t (req_msg req) (new_session now req id (req_key req)))
      as (_ & _ & _ & _ & _ & _ & _ & _ & ->).
Qed.

(** The run of a request that is not trusted, in an open session. *)
Lemma untrusted_run req id t s w s1 o r res :
  authenticate cfg now req id t (w_nonce w) s = (s1, o) → o ≠ authTrusted →
  s_Closed s = false → handle_run cfg now rand order req id t s w = (r, res) →
  w_log (r_world r) = w_log w ∧ rtc (filed now s) (w_queue w) (w_queue (r_world r)) ∧
  (∀ out, res = Ok out → ∃ chal b,
    out = Some b ∧ Marshal (r_resp r) = Ok b ∧
    resp_cmds r = [CStatus (with_chal (StatusForHeader req "1" (challenge_code o)) chal)] ∧
    s_Authenticated (r_sess r) = false ∧
    ms_sessions (w_sessions (r_world r)) =
      <[s_Key s := r_sess r]> (ms_sessions (w_sessions w))).
Proof.
  intros Ea Ho Hc. unfold handle_run. rewrite Ea.
  destruct (authenticate_cases _ _ _ _ _ _ _ _ _ Ea)
    as [(-> & _)|(_ & Hauth & _ & Hr & Hcl & Hk)]; [done|].
  pose proof (authenticate_ident _ _ _ _ _ _ _ _ _ Ea) as (_ & Hd & _).
  intros E. assert (run_untrusted cfg now rand order req id o
    (mkRun w s1 (NewResponse req (cfg_ServerURL cfg) (Itoa (wrap64 (s_ServerMsgID s1 + 1)))) 0)
    = (r, res)) as E' by (by destruct o).
  clear E. unfold run_untrusted, bind in E'.
  destruct (challenge _ _ _ _ _ _ _) as [r1 [[]|e]] eqn:Ech;
    apply challenge_spec in Ech as (Hq & Hlg & Hm & _ & Hok).
  2: { injection E' as <- <-. split_and!; [done| |done]. by rewrite Hq. }
  destruct (Hok eq_refl) as (chal & Hp & Hs). simpl in *. clear Hok.
  assert (∀ r2 x, flushResults now order r1 = (r2, x) → s_Closed (r_sess r2) = false) as Hcl2.
  { intros r2 x (_ & _ & _ & _ & Hfs)%flush_frame_all. rewrite Hfs, Hs. simpl. congruence. }
  assert (∀ b s', unenrolled_calls cfg (b && false) s' = []) as Hun
    by (intros b s'; unfold unenrolled_calls; rewrite andb_false_r; by destruct (cfg_Hooks cfg)).
  split; [|split].
  - destruct (finish_any _ _ _ _ _ _ E') as (r2 & x & Hf & _ & [[_ Hl2]|[_ Hl2]]);
      [congruence|]. rewrite Hl2, Hp. cbn [set_body Msg_Body Body_Final NewResponse].
    unfold settled. simpl. rewrite (Hcl2 _ _ Hf). cbn [orb andb].
    rewrite (Hun false). by rewrite app_nil_r.
  - destruct (finish_any _ _ _ _ _ _ E') as (r2 & x & Hf & Hq2 & _). rewrite Hq2, <- Hq.
    eapply flush_filed; [..|exact Hf]; rewrite Hs; simpl; congruence.
  - intros out ->. apply finish_Ok in E' as (r2 & Hf & Hs2 & Hp2 & _ & Hm2 & _ & Hout).
    pose proof (flush_frame_all _ _ _ _ _ Hf) as (_ & _ & _ & _ & Hfs).
    assert (is_ending r = false) as Hend.
    { unfold is_ending. rewrite Hs2, Hp2, Hp. simpl. by rewrite (Hcl2 _ _ Hf). }
    rewrite Hend in *. simpl in Hout, Hm2. destruct Hout as (b & Hb & ->).
    rewrite Hfs, Hs in Hs2. exists chal, b. split_and!; try done.
    + unfold resp_cmds. by rewrite Hp2, Hp.
    + by rewrite Hs2.
    + rewrite Hm2, Hm. simpl. rewrite Hs2. simpl. by rewrite Hk.
Qed.

(** C1: A request that is not trusted is not acted on.  Whether it succeeds or
    fails, no hook is called, and the queue changes only by the filing of
    answers that were complete in the session before the request came, left
    there by an earlier request that failed; with none left it does not
    change.  A reply that does go out holds one Status on the SyncHdr, with
    the code 407 or 401 and a challenge, and no command, and the session is
    stored unauthenticated.  Stored sessions are taken to be open and under
    their own keys, as every request leaves them. *)
Theorem untrusted_only_challenge req id t w w1 s s1 o w' res :
  keyed w → open_sessions w →
  auth_Lookup (cfg_Auth cfg) (LocURI (Hdr_Source (Msg_Header req))) = Ok id →
  session now req id t w = (w1, Ok s) →
  authenticate cfg now req id t (w_nonce w) s = (s1, o) → o ≠ authTrusted →
  Handle cfg now rand order req t w = (w', res) →
  keyed w' ∧ open_sessions w' ∧ w_log w' = w_log w ∧
  rtc (filed now s) (w_queue w) (w_queue w') ∧ (no_ready s → w_queue w' = w_queue w) ∧
  (∀ out, res = Ok out → ∃ m b chal s',
    out = Some b ∧ Marshal m = Ok b ∧
    Body_Commands (Msg_Body m) =
      [CStatus (with_chal (StatusForHeader req "1" (challenge_code o)) chal)] ∧
    ms_sessions (w_sessions w') !! req_key req = Some s' ∧ s_Authenticated s' = false).
Proof.
  intros Hkey Hop Hl Es Ea Ho E.
  destruct (Handle_sessions _ _ _ _ _ Hkey E) as (Hk' & Ho' & _).
  split; [done|]. split; [by apply Ho'|]. clear Hk' Ho'.
  cut (w_log w' = w_log w ∧ rtc (filed now s) (w_queue w) (w_queue w') ∧
    (∀ out, res = Ok out → ∃ m b chal s',
      out = Some b ∧ Marshal m = Ok b ∧
      Body_Commands (Msg_Body m) =
        [CStatus (with_chal (StatusForHeader req "1" (challenge_code o)) chal)] ∧
      ms_sessions (w_sessions w') !! req_key req = Some s' ∧ s_Authenticated s' = false)).
  { intros (? & ? & ?). split_and!; try done. intros Hn. by eapply filed_none. }
  unfold Handle in E. destruct (Validate req) as [|].
  2: { injection E as <- <-. split_and!; done. }
  rewrite Hl, Es in E. pose proof Es as (Hq1 & Hn1 & Hl1 & _)%session_cases.
  apply session_open in Es as [Hcl Hk]; [|done..].
  destruct (handle_run _ _ _ _ _ _ _ _ _) as [r x] eqn:Er. injection E as <- <-.
  rewrite <- Hn1 in Ea. rewrite <- Hl1, <- Hq1.
  destruct (untrusted_run _ _ _ _ _ _ _ _ _ Ea Ho Hcl Er) as (? & ? & Hok).
  split_and!; try done. intros out ->. destruct (Hok out eq_refl) as (chal & b & ? & ? & ? & ? & Hst).
  exists (r_resp r), b, chal, (r_sess r). split_and!; try done.
  rewrite Hst, Hk. apply lookup_insert_eq.
Qed.

(** Enrollment keys identify devices: [owner k] is the device enrolled under
    [k], for what the authenticator finds and for every stored session. *)
Definition owned (owner : string → string) w : Prop :=
  ∀ k s, ms_sessions (w_sessions w) !! k = Some s → owner (s_EnrollmentKey s) = s_DeviceID s.

(** C7: A request touches its own device and session only: whatever it
    holds and whether it succeeds or fails, the commands queued for every
    other device and the sessions stored under every other key are what they
    were, and the queue stays well formed. *)
Theorem device_isolation owner req t w w' res :
  (∀ dev id, auth_Lookup (cfg_Auth cfg) dev = Ok id → owner (id_EnrollmentKey id) = dev) →
  keyed w → owned owner w → q_wf (w_queue w) →
  Handle cfg now rand order req t w = (w', res) →
  q_wf (w_queue w') ∧
  (∀ d, d ≠ LocURI (Hdr_Source (Msg_Header req)) →
     q_cmds (w_queue w') d = q_cmds (w_queue w) d) ∧
  (∀ k, k ≠ req_key req →
     ms_sessions (w_sessions w') !! k = ms_sessions (w_sessions w) !! k).
Proof.
  intros Hown Hkey Howned Hwf. unfold Handle.
  destruct (Validate req) as [|]; [|by intros [= <- _]].
  destruct (auth_Lookup _ _) as [id|] eqn:Hl; [|by intros [= <- _]].
  destruct (session _ _ _ _ _) as [w1 [s|e]] eqn:Es;
    pose proof Es as (Hq & _ & _ & _ & Hoth & _)%session_cases.
  2: { intros [= <- _]. by rewrite Hq. }
  destruct (handle_run _ _ _ _ _ _ _ _ _) as [r x] eqn:Er. intros [= <- _].
  apply handle_run_local in Er as (s1 & o & Ea & []). simpl in *.
  apply authenticate_ident in Ea as (Hk & Hd & _).
  pose proof Es as (Sk & Se & _ & _ & Hp & _)%session_entered; [|done].
  assert (s_DeviceID s = LocURI (Hdr_Source (Msg_Header req))) as Hdev.
  { destruct (live_session now id (req_key req) w) as [s0|] eqn:El; destruct Hp as (-> & _).
    - apply live_session_Some in El as [El He]. apply Howned in El.
      destruct (enter_session_ident req t (req_msg req) s0) as (_ & -> & _).
      rewrite <- El, He. by apply Hown.
    - by destruct (enter_session_ident req t (req_msg req)
        (new_session now req id (req_key req))) as (_ & -> & _). }
  rewrite Hq in lo_queue. destruct (lo_queue Hwf) as [Hwf' Hd'].
  split_and!; [done| |].
  - intros d Hne. apply Hd'. congruence.
  - intros k Hne. rewrite lo_sessions by congruence. by apply Hoth.
Qed.

(** ** Delivery *)


(** A large object is sent in pieces that give it back: the command
    [prepare] puts in the reply keeps its kind and carries the first chunk,
    each chunk holds at most the negotiated number of bytes, and an assembler
    fed the first chunk and the rest returns the queued item. *)
Theorem prepare_reassembles maxObj qc body cs maxSize :
  prepare maxObj qc = (body, Some cs) →
  Forall (λ it, len (item_value it) ≤ Assembler_limit (newAssembler maxSize))
    (itemsOf (qc_Body qc)) →
  ∃ it d c0, itemsOf (qc_Body qc) = [it] ∧ Item_Data it = Some d ∧
    Command_Name body = Command_Name (qc_Body qc) ∧ itemsOf body = [c0] ∧ cs ≠ [] ∧
    Forall (λ c, 0 < len (item_value c) ≤ maxObj) (c0 :: cs) ∧
    feed (newAssembler maxSize) (c0 :: cs) =
      (newAssembler maxSize,
       replicate (length cs) (Ok (Item0, false)) ++ [Ok (reassembled it d, true)]).
Proof.
  intros E Hlim. pose proof (prepare_Name maxObj qc) as Hname. rewrite E in Hname. revert E.
  unfold prepare. rewrite cloneCommand_id.
  destruct (Z.leb_spec maxObj 0) as [|Hpos]; [done|].
  destruct (itemsOf (qc_Body qc)) as [|it [|]] eqn:Hits; [done| |done].
  destruct (Item_Data it) as [d|] eqn:Hd; [|done].
  destruct (Z.leb_spec (len (Data_Value d)) maxObj) as [|Hlong]; [done|].
  destruct (SplitItem it maxObj) as [[|c0 [|c1 cs']]|] eqn:Es; try done. intros [= <- <-].
  apply Forall_cons in Hlim as [Hlim _]. unfold item_value in Hlim. rewrite Hd in Hlim.
  assert (Data_XML d = "") as Hx.
  { revert Es. unfold SplitItem. rewrite Hd. case_match; [done|].
    case_bool_decide; [done|]. simpl. by intros [= ]. }
  exists it, d, c0. split_and!; try done.
  - by destruct (qc_Body qc).
  - destruct (split_chunking _ _ _ _ Hd Hx Hlong Es) as (_ & _ & Hc).
    apply chunking_bound in Hc. eapply Forall_impl; [exact Hc|].
    intros c [Hne Hle]. simpl in *. unfold len in *. destruct (item_value c); [done|].
    simpl in *. lia.
  - rewrite (split_feed it d maxObj); [|done..]. done.
Qed.

(** ** Answers *)

(** What the session knows of a command's answer once its Status is in. *)
Definition answer_of (s : Session) (id : string) (st : Status) : Result :=
  let pr := default pending0 (s_results s !! id) in
  mkResult (Status_Code st) (Data_OriginalError (Status_Data st)) (pr_items pr)
    (pr_children pr) now.

Lemma fileStatus_top st s id :
  Status_CmdRef st ≠ "0" →
  s_Children s !! ref_key (Status_MsgRef st) (Status_CmdRef st) = None →
  s_Sent s !! ref_key (Status_MsgRef st) (Status_CmdRef st) = Some id →
  let s' := fileStatus st s in
  s_DeviceID s' = s_DeviceID s ∧
  s_results s' = <[id := mkPending (Some (Status_Code st)) (Data_OriginalError (Status_Data st))
    (pr_items (default pending0 (s_results s !! id)))
    (pr_children (default pending0 (s_results s !! id)))]> (s_results s) ∧
  (s_AssemblingCommand s ≠ id →
   s_Sent s' = delete (ref_key (Status_MsgRef st) (Status_CmdRef st)) (s_Sent s)).
Proof.
  intros H0' Hc Hs. unfold fileStatus. rewrite decide_False, Hc, Hs by done.
  case_decide; simpl in *; split_and!; done.
Qed.

(** C11: A device's Status closes the command it answers: filing a Status on
    a delivered command and flushing records, for that command, the status
    code, the original error and the results collected so far, moves it to
    acknowledged on a 2xx code and to failed on any other, changes no other
    command, and leaves nothing to flush. *)
Theorem status_closes_command st r r1 id :
  (∀ m, order m ≡ₚ (map_to_list m).*1) →
  q_wf (w_queue (r_world r)) → no_ready (r_sess r) → Status_CmdRef st ≠ "0" →
  s_Children (r_sess r) !! ref_key (Status_MsgRef st) (Status_CmdRef st) = None →
  s_Sent (r_sess r) !! ref_key (Status_MsgRef st) (Status_CmdRef st) = Some id →
  id ∈ ids (q_cmds (w_queue (r_world r)) (s_DeviceID (r_sess r))) →
  upd_sess (fileStatus st) r = (r1, Ok tt) →
  ∃ r2, flushResults now order r1 = (r2, Ok tt) ∧
    q_cmds (w_queue (r_world r2)) (s_DeviceID (r_sess r)) =
      update_id id (answered_by (answer_of (r_sess r) id st))
        (q_cmds (w_queue (r_world r)) (s_DeviceID (r_sess r))) ∧
    no_ready (r_sess r2).
Proof.
  intros Ho Hw Hn H0' Hc Hs Hin [= <-].
  destruct (fileStatus_top _ _ _ H0' Hc Hs) as (Hd & Hr & _).
  set (r1 := mkRun _ _ _ _).
  destruct (flush_loop_total now (order (s_results (r_sess r1))) r1) as [r2 Ef]; [done| |].
  { intros i. subst r1. cbn [r_sess r_world]. rewrite Hr, Hd.
    destruct (decide (i = id)) as [->|Hne]; [done|]. rewrite lookup_insert_ne by done.
    destruct (s_results (r_sess r) !! i) as [pr|] eqn:Ei; [|done]. simpl.
    by rewrite (Hn _ _ Ei). }
  exists r2. assert (flushResults now order r1 = (r2, Ok tt)) as Ef' by exact Ef.
  split; [done|]. destruct (flush_Ok now rand order r1 r2 Ho Hw Ef') as [Hq Hnr].
  split; [|done]. subst r1. cbn [r_sess r_world] in Hq. rewrite Hd in Hq. rewrite Hq.
  unfold update_id. apply map_ext. intros qc. unfold answer_one. rewrite Hr.
  destruct (decide (qc_ID qc = id)) as [->|Hne].
  - by rewrite lookup_insert_eq.
  - rewrite lookup_insert_ne by done.
    destruct (s_results (r_sess r) !! qc_ID qc) as [pr|] eqn:Ei; [|done].
    by rewrite (Hn _ _ Ei).
Qed.

(** How a request ends: every answer whose Status is in is recorded and
    none is left over; the session is dropped when it is closed or when the
    reply is final and nothing is outstanding, and stored otherwise with the
    reply's number; the unenrolled hook runs exactly when a session that saw
    the unenroll alert is dropped; and the reply is empty only when the
    session ends with nothing to say beyond the header's status. *)
Theorem finish_correct r r' out :
  (∀ m, order m ≡ₚ (map_to_list m).*1) → q_wf (w_queue (r_world r)) →
  finish cfg now order r = (r', Ok out) →
  let ending := s_Closed (r_sess r) ||
    (Body_Final (Msg_Body (r_resp r)) && negb (hasWork (r_sess r))) in
  q_cmds (w_queue (r_world r')) (s_DeviceID (r_sess r)) =
    map (answer_one now (s_results (r_sess r)))
      (q_cmds (w_queue (r_world r)) (s_DeviceID (r_sess r))) ∧
  no_ready (r_sess r') ∧
  s_ServerMsgID (r_sess r') = mustAtoi (Hdr_MsgID (Msg_Header (r_resp r))) ∧
  ms_sessions (w_sessions (r_world r')) =
    (if ending then delete (s_Key (r_sess r)) else <[s_Key (r_sess r) := r_sess r']>)
      (ms_sessions (w_sessions (r_world r))) ∧
  w_log (r_world r') = w_log (r_world r) ++
    (if ending && s_unenroll (r_sess r) && bool_decide (is_Some (cfg_Hooks cfg))
     then [Unenrolled (s_DeviceID (r_sess r))] else []) ∧
  (out = None ↔ ending = true ∧ onlyHeaderStatus (resp_cmds r) = true) ∧
  (∀ b, out = Some b → Marshal (r_resp r) = Ok b).
Proof.
  intros Ho Hw E ending. apply finish_Ok in E as (r1 & Hf & Hs & Hp & Hq & Hse & Hl & Hout).
  destruct (flush_Ok now rand order _ _ Ho Hw Hf) as [Hc Hn].
  apply flush_frame_all in Hf as (_ & _ & _ & _ & Hfs).
  set (res := s_results (r_sess r1)) in Hfs.
  assert (is_ending r' = ending) as He
    by (unfold is_ending; rewrite Hs, Hp, Hfs; reflexivity).
  rewrite He in *. unfold resp_cmds in *. rewrite Hp in Hout. split_and!.
  - by rewrite Hq.
  - by rewrite Hs.
  - by rewrite Hs.
  - rewrite Hse. assert (s_Key (r_sess r') = s_Key (r_sess r)) as Hk by (by rewrite Hs, Hfs).
    destruct ending; simpl; by rewrite Hk.
  - rewrite Hl. f_equal. unfold unenrolled_calls.
    assert (s_unenroll (r_sess r') = s_unenroll (r_sess r) ∧
      s_DeviceID (r_sess r') = s_DeviceID (r_sess r)) as [-> ->] by (by rewrite Hs, Hfs).
    destruct (cfg_Hooks cfg); simpl; [by rewrite andb_true_r|by rewrite andb_false_r].
  - destruct (ending && _) eqn:Ee; [subst; btrue; done|].
    destruct Hout as (b & _ & ->). split; [done|]. intros [-> E]. simpl in Ee. congruence.
  - intros b ->. destruct (ending && _); [done|]. by destruct Hout as (b' & ? & [= ->]).
Qed.
End Theorems.

(** ** Replays *)

Section Replays.
Context {Q : Type} `{CommandQueueLaws Q}.
Context (cfg : Config).
Implicit Types w : World Q.

(** A step of the server under which no session is opened under [key]: any
    request at any time, answered or refused, that does not open one. *)
Definition goes_on (key : string) w w' : Prop :=
  ∃ at_ rnd ord req t res, Handle cfg at_ rnd ord req t w = (w', res) ∧
    (req_key req = key → ¬ opens cfg at_ req w).

(** No session under [key] has yet to take message [n]. *)
Definition past (key : string) (n : Z) w : Prop :=
  ∀ s, ms_sessions (w_sessions w) !! key = Some s → n ≤ s_ClientMsgID s ≤ max_int64.

Lemma Atoi_range a n : Atoi a = Some n → in_int64 n.
Proof.
  unfold Atoi. destruct (match a with String _ _ => _ | EmptyString => _ end) as [m|]; [|done].
  destruct ((_ <=? m) && _) eqn:E; [|done]. intros [= <-]. by btrue.
Qed.

Lemma Validate_MsgID req : Validate req = [] → 1 ≤ req_msg req ≤ max_int64.
Proof.
  intros ((_ & _ & _ & _ & (n & Hn & Hpos) & _) & _)%Validate_iff.
  unfold req_msg, mustAtoi. rewrite Hn. apply Atoi_range in Hn as [_ ?]. done.
Qed.

(** The number that comes next is never one that is past. *)
Lemma next_number n c m :
  1 ≤ n → 1 ≤ m → n ≤ c ≤ max_int64 → m = wrap64 (c + 1) → n < m.
Proof.
  intros Hn Hm Hc ->. destruct (decide (c = max_int64)) as [->|Hne].
  - change (wrap64 (max_int64 + 1)) with min_int64 in Hm. unfold min_int64 in Hm. lia.
  - rewrite wrap64_id in *; unfold in_int64, min_int64, max_int64 in *; lia.
Qed.

Lemma goes_on_past key n w w' :
  1 ≤ n → goes_on key w w' → keyed w ∧ past key n w → keyed w' ∧ past key n w'.
Proof.
  intros Hn (at_ & rnd & ord & req & t & res & E & Hno) [Hkey Hp].
  destruct (Handle_sessions _ _ _ _ _ _ _ _ _ Hkey E) as (Hk' & _ & Hoth & Hs).
  split; [done|]. intros s Hls. destruct (decide (key = req_key req)) as [->|Hne].
  - destruct (Hs _ Hls) as [?|(Hv & Hc & [Ho|(s0 & Hs0 & Hm)])]; [auto|by apply Hno in Ho|].
    apply Validate_MsgID in Hv. rewrite Hc.
    pose proof (next_number n _ _ Hn (proj1 Hv) (Hp _ Hs0) Hm). lia.
  - rewrite Hoth in Hls by done. auto.
Qed.

Lemma steps_past key n w w' :
  1 ≤ n → rtc (goes_on key) w w' → keyed w ∧ past key n w → keyed w' ∧ past key n w'.
Proof.
  intros Hn Hs. induction Hs as [|a b c Hab _ IH]; [done|].
  intros Ha. by eapply IH, goes_on_past.
Qed.

(** C8: No client message is acted on twice in a session: once a request has
    been answered, a request under the same key with the same message number
    is refused, whatever else it holds, however much later and whatever
    requests, of this or other devices, were handled in between, as long as
    none of these, nor the request itself, opens a new session under the key
    (a package 1 numbered 1 with no session of the enrollment alive, from
    which the numbers start over).  The refusal leaves the queue, the hooks
    and the nonces alone. *)
Theorem replay_rejected now rand order req t w w' out w2 now2 rand2 order2 req2 t2 :
  keyed w → Handle cfg now rand order req t w = (w', Ok out) →
  rtc (goes_on (req_key req)) w' w2 →
  req_key req2 = req_key req → Hdr_MsgID (Msg_Header req2) = Hdr_MsgID (Msg_Header req) →
  ¬ opens cfg now2 req2 w2 →
  ∃ e w3, Handle cfg now2 rand2 order2 req2 t2 w2 = (w3, Err e) ∧
    w_queue w3 = w_queue w2 ∧ w_log w3 = w_log w2 ∧ w_nonce w3 = w_nonce w2.
Proof.
  intros Hkey E Hsteps Hk2 Hm2 Hno.
  assert (req_msg req2 = req_msg req) as Hmsg by (unfold req_msg; by rewrite Hm2).
  pose proof (Handle_Ok _ _ _ _ _ _ _ _ _ E) as (id & s & w1 & r & Hv & _ & Es & Er & ->).
  apply Validate_MsgID in Hv.
  assert (keyed w2 ∧ past (req_key req) (req_msg req) w2) as [_ Hp].
  { eapply steps_past; [|exact Hsteps|].
    - lia.
    - destruct (Handle_sessions _ _ _ _ _ _ _ _ _ Hkey E) as (Hk' & _). split; [done|].
      apply session_entered in Es as (Sk & _ & Sc & _); [|done..].
      apply handle_run_stored in Er as (_ & _ & _ & Hc & _ & _ & Hst).
      intros s'. rewrite Hst, Sk. destruct (is_ending r); [by rewrite lookup_delete_eq|].
      rewrite lookup_insert_eq. intros [= <-]. rewrite Hc, Sc. lia. }
  unfold Handle. destruct (Validate req2) as [|v vs]; [|by eauto 10].
  destruct (auth_Lookup _ _) as [id2|e] eqn:Hl2; [|by eauto 10].
  destruct (session now2 req2 id2 t2 w2) as [w3 res] eqn:E2.
  apply session_cases in E2 as (Hq & Hn & Hlog & _ & _ & Hres).
  assert (res = Err [syncml_ErrInvalid]) as ->; [|by eauto 10].
  destruct (live_session now2 id2 (req_key req2) w2) as [s2|] eqn:El.
  - rewrite Hres, decide_False; [done|]. apply live_session_Some in El as [El _]; [|done..].
    rewrite Hk2 in El. intros Hx. rewrite Hmsg in Hx.
    pose proof (next_number _ _ _ (proj1 Hv) (proj1 Hv) (Hp _ El) Hx). lia.
  - rewrite Hres, decide_False; [done|]. intros [H1' H2']. apply Hno. by exists id2.
Qed.

End Replays.

(** ** A run on the in-memory queue *)

Module Scenario.
Definition leaf : Certificate509 := mkCert "der" (Some 7).
Definition tls : option Transport := Some (mkTransport "" "" "" "" "" "" [] "" "" "" ContentTypeXML [Some leaf] [[Some leaf]]).
Definition device : Identity :=
  mkIdentity "dev" "enr-1" "" AuthDigest (CredentialHash "bob" "pw").
Definition auth : Authenticator :=
  mkAuthenticator (λ d, if decide (d = "dev") then Ok device else Err [mdm_ErrNotFound])
    (λ _ chains, bool_decide (chains ≠ [])).
Definition cfg : Config :=
  mkConfig "https://mdm.example/" auth (Some (λ _, Ok tt)) DefaultMaxSize (10 * Minute)
    (Z.shiftl 512 10) false "".
Definition order (m : gmap string pendingResult) : list string := (map_to_list m).*1.
Definition rand (n : Z) : option string :=
  if n =? 16 then Some (str_repeat 16 "n") else None.

Definition header (msgID : string) (cred : option Cred) : Header :=
  mkHeader VerDTD VerProto "1" msgID (mkLocation "https://mdm.example/" "")
    (mkLocation "dev" "") "" false cred None.
Definition package1 (cred : option Cred) : Message :=
  mkMessage NamespaceSyncML12 (header "1" cred)
    (mkBody [CAlert (plainAlert "1" AlertClientInitiated);
             CReplace (mkReplace "2" false None None
               [mkItem "" "./DevInfo/DevId" None (Some (DataValue "dev")) false])] true false).
Definition status (id ref cmd : string) (code : StatusCode) : Command :=
  CStatus (mkStatus id "1" ref cmd [] [] None None (DataValue (StatusCode_Wire code)) []).
(** Statuses for the header and for the command under CmdID 4. *)
Definition package3 : Message :=
  mkMessage NamespaceSyncML12 (header "2" None)
    (mkBody [status "1" "0" "SyncHdr" StatusOK; status "2" "4" "Exec" StatusOK] true false).

Definition world0 : World Queue :=
  mkWorld (Queue_Enqueue "dev" (Some ex_exec) 5 NewQueue).1 NewMemorySessions NewMemory [].
Definition t1 : Time := 1000 * Hour.
(** The replies and the worlds after them. *)
Definition step1 := Handle cfg t1 rand order (package1 None) tls world0.
Definition step2 := Handle cfg (t1 + Second) rand order package3 tls step1.1.
(** The device id of [device] answers to its enrollment key only. *)
Definition owner (k : string) : string := if decide (k = "enr-1") then "dev" else "".

Lemma keyed0 : keyed world0.
Proof. intros k s Hs. vm_compute in Hs. discriminate. Qed.
Lemma owned0 : owned owner world0.
Proof. intros k s Hs. vm_compute in Hs. discriminate. Qed.
Lemma wf0 : q_wf (w_queue world0).
Proof.
  change (queue_wf (Queue_Enqueue "dev" (Some ex_exec) 5 NewQueue).1).
  destruct (Queue_Enqueue _ _ _ _) as [q r] eqn:E.
  by destruct (Enqueue_law "dev" (Some ex_exec) 5 NewQueue q r queue_wf_empty E).
Qed.
Lemma auth_owner dev id : auth_Lookup (cfg_Auth cfg) dev = Ok id → owner (id_EnrollmentKey id) = dev.
Proof. simpl. case_decide; [|done]. intros [= <-]. by subst. Qed.

(** The session of package 1 before authentication, and the run after. *)
Definition session1 : Session :=
  enter_session t1 (package1 None) tls 1 (new_session t1 (package1 None) device "dev/1").
Definition run0 : Run Queue :=
  mkRun world0 session1 (NewResponse (package1 None) "https://mdm.example/" "1") 0.
End Scenario.


Lemma authenticate_sound_witness :
  trusted_by Scenario.cfg Scenario.t1 (Scenario.package1 None) Scenario.device Scenario.tls NewMemory
    Scenario.session1 (set_auth true AuthCertificate Scenario.session1).
Proof.
  apply (authenticate_sound Scenario.cfg Scenario.t1 (Scenario.package1 None) Scenario.device
    Scenario.tls NewMemory Scenario.session1 _ authTrusted); reflexivity.
Defined.

Lemma untrusted_only_challenge_witness :
  let step := Handle Scenario.cfg Scenario.t1 Scenario.rand Scenario.order
    (Scenario.package1 None) None Scenario.world0 in
  w_log step.1 = [] ∧ w_queue step.1 = w_queue Scenario.world0 ∧ ∃ out, step.2 = Ok out.
Proof.
  intros step.
  destruct (untrusted_only_challenge Scenario.cfg Scenario.t1 Scenario.rand Scenario.order
    (Scenario.package1 None) Scenario.device None Scenario.world0 Scenario.world0
    (enter_session Scenario.t1 (Scenario.package1 None) None 1
       (new_session Scenario.t1 (Scenario.package1 None) Scenario.device "dev/1"))
    (enter_session Scenario.t1 (Scenario.package1 None) None 1
       (new_session Scenario.t1 (Scenario.package1 None) Scenario.device "dev/1"))
    authChallenge step.1 step.2) as (_ & _ & Hl & _ & Hq & _).
  - exact Scenario.keyed0.
  - intros k s Hs. vm_compute in Hs. discriminate.
  - vm_compute. reflexivity.
  - vm_compute. reflexivity.
  - vm_compute. reflexivity.
  - discriminate.
  - exact (surjective_pairing step).
  - split; [exact Hl|]. split; [|eexists; vm_compute; reflexivity].
    apply Hq. intros id pr Hid. vm_compute in Hid. discriminate.
Defined.

Module Witnesses.
Import Scenario.

Definition login : Message :=
  package1 (Some (NewMD5Cred (MD5Digest "bob" "pw" (str_repeat 16 "n")))).
Definition challenged : Run Queue := (challenge cfg t1 rand (package1 None) device authChallenge run0).1.

Lemma digest_login_roundtrip_witness :
  ∃ st chal n, resp_cmds challenged = resp_cmds run0 ++ [CStatus (with_chal st chal)] ∧
    Chal_Nonce (Some chal) = Ok n ∧
    ((authenticate cfg (t1 + Minute) login device None (w_nonce (r_world challenged)) session1).2
       = authTrusted ↔
     t1 + Minute < t1 + cfg_NonceTTL cfg ∧
     TrimSpace (MD5Digest "bob" "pw" (str_repeat 16 "n")) = MD5Digest "bob" "pw" n).
Proof.
  apply (digest_login_roundtrip cfg t1 rand "bob" "pw" (package1 None) device authChallenge run0
    challenged login None session1 (t1 + Minute)
    (NewMD5Cred (MD5Digest "bob" "pw" (str_repeat 16 "n")))).
  - reflexivity.
  - reflexivity.
  - intros b Hb. injection Hb as <-. reflexivity.
  - reflexivity.
  - reflexivity.
  - vm_compute. reflexivity.
  - reflexivity.
  - reflexivity.
  - reflexivity.
  - reflexivity.
Defined.

Lemma step1_Ok : ∃ out, step1 = (step1.1, Ok out).
Proof. eexists. vm_compute. reflexivity. Qed.

Lemma session_sequencing_witness :
  ∃ id, auth_Lookup (cfg_Auth cfg) "dev" = Ok id ∧
    req_msg (package1 None) = 1 ∧ keyed step1.1.
Proof.
  destruct step1_Ok as [out Hout].
  destruct (session_sequencing cfg t1 rand order (package1 None) tls world0 _ _ keyed0 Hout)
    as (id & Hid & _ & _ & Hk).
  exists id. split; [exact Hid|]. split; [reflexivity|exact Hk].
Defined.

(** Package 1 again, after package 3 of the same session. *)
Lemma replay_rejected_witness :
  ∃ e w3, Handle cfg (t1 + Minute) rand order (package1 None) tls step2.1 = (w3, Err e) ∧
    w_queue w3 = w_queue step2.1 ∧ w_log w3 = w_log step2.1 ∧ w_nonce w3 = w_nonce step2.1.
Proof.
  destruct step1_Ok as [out Hout].
  eapply (replay_rejected cfg t1 rand order (package1 None) tls world0 _ _ _ _ _ _ _ _ keyed0 Hout).
  - apply rtc_once. exists (t1 + Second), rand, order, package3, tls, step2.2. split.
    + change (step2 = (step2.1, step2.2)). by destruct step2.
    + intros _ (id & _ & _ & Hm & _). vm_compute in Hm. discriminate.
  - reflexivity.
  - reflexivity.
  - intros (id & Hid & Hlive & _). vm_compute in Hid. injection Hid as <-.
    vm_compute in Hlive. discriminate.
Defined.

Lemma device_isolation_witness : q_wf (w_queue step1.1) ∧ q_cmds (w_queue step1.1) "other" = [].
Proof.
  destruct step1_Ok as [out Hout].
  destruct (device_isolation cfg t1 rand order owner (package1 None) tls world0 _ _ auth_owner
    keyed0 owned0 wf0 Hout) as (Hw & Hd & _).
  split; [exact Hw|]. rewrite Hd; [reflexivity|discriminate].
Defined.


Definition big : QueuedCommand :=
  mkQueuedCommand (mkMCommand "b" ScopeDevice (CAdd (mkAdd "" false None None [sample_item])) false)
    1 StatePending 0 0 "" 0 None 0.

Lemma prepare_reassembles_witness :
  ∃ it d c0, itemsOf (qc_Body big) = [it] ∧ Item_Data it = Some d ∧
    Command_Name (prepare 4 big).1 = Command_Name (qc_Body big) ∧
    itemsOf (prepare 4 big).1 = [c0] ∧ default [] (prepare 4 big).2 ≠ [] ∧
    Forall (λ c, 0 < len (item_value c) ≤ 4) (c0 :: default [] (prepare 4 big).2) ∧
    feed (newAssembler 100) (c0 :: default [] (prepare 4 big).2) =
      (newAssembler 100, replicate (length (default [] (prepare 4 big).2)) (Ok (Item0, false)) ++
         [Ok (reassembled it d, true)]).
Proof.
  apply (prepare_reassembles 4 big (prepare 4 big).1 (default [] (prepare 4 big).2) 100).
  - vm_compute. reflexivity.
  - vm_compute. repeat constructor; discriminate.
Defined.

(** The run of package 1 after delivery: the Exec is out under CmdID 4. *)
Definition delivered_run : Run Queue := (deliver cfg t1 run0).1.
Definition answer1 : Status :=
  mkStatus "2" "1" "1" "Exec" [] [] None None (DataValue (StatusCode_Wire StatusOK)) [].

Lemma delivered_wf : q_wf (w_queue (r_world delivered_run)).
Proof.
  apply (stable_deliver cfg t1 run0 _ _ (surjective_pairing _)). exact wf0.
Qed.

Lemma status_closes_command_witness :
  ∃ r2, flushResults t1 order (upd_sess (fileStatus answer1) delivered_run).1 = (r2, Ok tt) ∧
    q_cmds (w_queue (r_world r2)) "dev" =
      update_id "cmd-1" (answered_by (answer_of t1 (r_sess delivered_run) "cmd-1" answer1))
        (q_cmds (w_queue (r_world delivered_run)) "dev") ∧
    no_ready (r_sess r2).
Proof.
  apply (status_closes_command t1 rand order answer1 delivered_run
    (upd_sess (fileStatus answer1) delivered_run).1 "cmd-1").
  - intros m. reflexivity.
  - exact delivered_wf.
  - intros id pr Hid. vm_compute in Hid. discriminate.
  - discriminate.
  - vm_compute. reflexivity.
  - vm_compute. reflexivity.
  - vm_compute. constructor.
  - reflexivity.
Defined.

Lemma finish_correct_witness :
  s_ServerMsgID (r_sess (finish cfg t1 order delivered_run).1) = 1.
Proof.
  eapply (finish_correct cfg t1 rand order delivered_run).
  - intros m. reflexivity.
  - exact delivered_wf.
  - vm_compute. reflexivity.
Defined.
End Witnesses.

(** A command is sent once more after its answer has arrived: in this
    session the device answers the Exec delivered in reply 1 with a 200 in
    message 2; the reply to message 2 delivers it again, because delivery reads
    the queue before the answer is flushed to it, and the command ends
    acknowledged after two attempts, the second of them made when it was
    already answered. *)
Example answered_command_sent_again :
  map (λ qc, (qc_ID qc, qc_State qc, qc_Attempts qc, qc_SentMsgID qc))
    (take 1 (q_cmds (w_queue Scenario.step1.1) "dev")) = [("cmd-1", StateSent, 1, "1")] ∧
  In (Scenario.status "2" "4" "Exec" StatusOK) (Body_Commands (Msg_Body Scenario.package3)) ∧
  map (λ qc, (qc_ID qc, qc_State qc, qc_Attempts qc, qc_SentMsgID qc))
    (take 1 (q_cmds (w_queue Scenario.step2.1) "dev")) = [("cmd-1", StateAcknowledged, 2, "2")].
Proof.
  split; [vm_compute; reflexivity|]. split; [right; left; reflexivity|].
  vm_compute. reflexivity.
Qed.
