(* ===== verification/MdmHttp.v ===== *)
(** * The management endpoint

    mdmprotocol/mdm/http.go and the parsing of transport.go: an HTTP request
    becomes a Transport and a message, Handle answers it, and its outcome
    becomes a response.  [Handle] of [MdmEngine] is the engine on a decoded
    request; [Handle_body] is Handle itself.  The texts of error responses are
    left out.  mime.ParseMediaType is a parameter, and a request carries its
    query as net/url parsed it. *)
From stdpp Require Import base gmap strings list.
From Stdlib Require Import ZArith Lia Ascii.
From S2P Require Import Prelude GoStrings SyncmlModel GoXml Decode MdmAuth MdmQueue MdmSession MdmEngine.

Local Open Scope Z_scope.
Local Open Scope go_scope.

(** ** transport.go *)

(** [mime.ParseMediaType]: the media type, without its parameters. *)
Class MimeParser := { ParseMediaType : string → option string }.

(** [url.Values.Get] and [http.Header.Get]: the first value of a name; header
    names compare without regard to case. *)
Definition query_Get (name : string) (q : list (string * string)) : string :=
  match List.find (λ p, bool_decide (p.1 = name)) q with Some p => p.2 | None => "" end.
Definition header_Get (name : string) (h : list (string * string)) : string :=
  match List.find (λ p, bool_decide (ToUpper p.1 = ToUpper name)) h with Some p => p.2 | None => "" end.

(** What the handler reads of an http.Request; reading the body may fail. *)
Record MRequest := mkMRequest {
  mq_Method : string;
  mq_Query : list (string * string);
  mq_Header : list (string * string);
  mq_TLS : option (list (option Certificate509) * Chains);
  mq_Body : option string }.

Definition parseQuery (q : list (string * string)) : result (Mode * string) :=
  let m := query_Get "mode" q in
  if decide (m = "" ∨ m = ModeMaintenance ∨ m = ModeMachine) then Ok (m, query_Get "Platform" q)
  else Err [mdm_ErrMode].

Definition bearer_token (auth : string) : string :=
  match cut_byte " " auth with
  | Some (scheme, tok) => if EqualFold scheme "Bearer" then TrimSpace tok else ""
  | None => ""
  end.

(** The media type of a request that is accepted. *)
Definition content_type `{MimeParser} (ct : string) : result string :=
  if decide (ct = "") then Ok ContentTypeXML
  else match ParseMediaType ct with
  | None => Err [mdm_ErrContentType]
  | Some mt =>
      if decide (mt ∈ [ContentTypeXML; "text/xml"; "application/xml"]) then Ok mt
      else Err [mdm_ErrContentType]
  end.

Definition ParseTransport `{MimeParser} (r : MRequest) : result Transport :=
  let? mp := parseQuery (mq_Query r) in
  let get n := header_Get n (mq_Header r) in
  let '(certs, chains) := default ([], []) (mq_TLS r) in
  let? ct := content_type (get "Content-Type") in
  Ok (mkTransport mp.1 mp.2 (get "User-Agent") (bearer_token (get "Authorization"))
    (get HeaderDeviceToken) (get HeaderMSSignature) (ParseGenericAlerts (get HeaderGenericAlert))
    (get HeaderClientRequestID) (get HeaderCorrelation) (get HeaderUserAgentOrigin) ct certs chains).

(** ** http.go *)

Definition statusFor (e : error) : Z :=
  if errors_Is e mdm_ErrUnenrolled then 403
  else if existsb (errors_Is e) [syncml_ErrSyntax; syncml_ErrInvalid; syncml_ErrTooLarge; syncml_ErrNamespace]
  then 400 else 500.

(** A response: http.Error with its status, or 200 with the SyncML content type
    and the length of the body. *)
Inductive MReply : Type :=
  | MError (status : Z) (allow : option string)
  | MAnswer (body : string).

Section endpoint.
Context `{NameTables} `{MimeParser} {Q : Type} `{CommandQueue Q}.
Context (cfg : Config) (now : Time) (rand : Z → option string)
  (order : gmap string pendingResult → list string).

(** Handle on the bytes of a request. *)
Definition Handle_body (body : string) (t : option Transport) (w : World Q)
    : World Q * result (option string) :=
  match Decode body (mkDecodeOptions (cfg_MaxRequestSize cfg)) with
  | Err e => (w, Err e)
  | Ok req => Handle cfg now rand order req t w
  end.

(** [ServeHTTP]: the reply, and what Log receives. *)
Definition ServeHTTP (r : MRequest) (w : World Q) : World Q * (MReply * list error) :=
  if negb (bool_decide (mq_Method r = "POST")) then (w, (MError 405 (Some "POST"), []))
  else match ParseTransport r with
  | Err e => (w, (MError (if errors_Is e mdm_ErrContentType then 415 else 400) None, []))
  | Ok t =>
      match mq_Body r with
      | None => (w, (MError 400 None, []))
      | Some full =>
          let body := stake (Z.to_nat (wrap64 (cfg_MaxRequestSize cfg + 1))) full in
          if cfg_MaxRequestSize cfg <? len body then (w, (MError 413 None, []))
          else match Handle_body body (Some t) w with
          | (w, Err e) => (w, (MError (statusFor e) None, [e]))
          | (w, Ok out) => (w, (MAnswer (default "" out), []))
          end
      end
  end.
End endpoint.
