(* ===== verification/SimDevice.v ===== *)
(** * The simulated device

    simulator/session.go and simulator/answer.go: a software OMA DM client.
    [RunSession] opens a session with package 1 and answers the server until
    it ends the session; [answer] is what it does with one server message.

    The server is a parameter of the section: [Do] is the http.Client's Do,
    from a server state and a request to the next state and the response. *)
From stdpp Require Import base gmap strings list.
From Stdlib Require Import ZArith Lia Ascii.
From S2P Require Import Prelude GoStrings SyncmlModel LargeObject Validate Response.
From S2P Require Import Encode GoXml Decode SyncmlAuth.

Local Open Scope Z_scope.
Local Open Scope go_scope.

(** ** session.go: the data *)

(** [type GenericAlert struct]. *)
Record GAlert := mkGAlert {
  ga_Type : string; ga_Format : string; ga_Mark : string; ga_Source : string;
  ga_Data : string }.

(** [type Device struct]; the HTTP client is the parameter [Do] below, and
    [DevInfo] is [None] while the map is nil. *)
Record Device := mkDevice {
  dev_ManagementURL : string;
  dev_DeviceID : string;
  dev_Username : string;
  dev_Password : string;
  dev_DevInfo : option (gmap string string);
  dev_LoginStatus : string;
  dev_SyncType : string;
  dev_Tree : gmap string string;
  dev_Namespace : string;
  dev_MaxObjSize : Z;
  dev_Mode : string;
  dev_Generics : list GAlert;
  dev_UploadChunkSize : Z }.

Definition set_Tree (t : gmap string string) (c : Device) : Device :=
  mkDevice (dev_ManagementURL c) (dev_DeviceID c) (dev_Username c) (dev_Password c)
    (dev_DevInfo c) (dev_LoginStatus c) (dev_SyncType c) t (dev_Namespace c)
    (dev_MaxObjSize c) (dev_Mode c) (dev_Generics c) (dev_UploadChunkSize c).

(** [type Transcript struct]. *)
Record Transcript := mkTranscript {
  tr_ServerCommands : list Command;
  tr_Statuses : gmap string StatusCode;
  tr_Messages : Z;
  tr_Challenged : Z;
  tr_Results : list string;
  tr_Final : bool;
  tr_Ended : bool }.

Definition Transcript0 : Transcript := mkTranscript [] ∅ 0 0 [] false false.

Definition tr_command (cmd : Command) (t : Transcript) : Transcript :=
  mkTranscript (tr_ServerCommands t ++ [cmd]) (tr_Statuses t) (tr_Messages t)
    (tr_Challenged t) (tr_Results t) (tr_Final t) (tr_Ended t).
Definition tr_status (id : string) (code : StatusCode) (t : Transcript) : Transcript :=
  mkTranscript (tr_ServerCommands t) (<[id := code]> (tr_Statuses t)) (tr_Messages t)
    (tr_Challenged t) (tr_Results t) (tr_Final t) (tr_Ended t).
Definition tr_result (uri : string) (t : Transcript) : Transcript :=
  mkTranscript (tr_ServerCommands t) (tr_Statuses t) (tr_Messages t)
    (tr_Challenged t) (tr_Results t ++ [uri]) (tr_Final t) (tr_Ended t).
Definition tr_challenge (t : Transcript) : Transcript :=
  mkTranscript (tr_ServerCommands t) (tr_Statuses t) (tr_Messages t)
    (wrap64 (tr_Challenged t + 1)) (tr_Results t) (tr_Final t) (tr_Ended t).
Definition tr_message (t : Transcript) : Transcript :=
  mkTranscript (tr_ServerCommands t) (tr_Statuses t) (wrap64 (tr_Messages t + 1))
    (tr_Challenged t) (tr_Results t) (tr_Final t) (tr_Ended t).
Definition tr_end (final : bool) (t : Transcript) : Transcript :=
  mkTranscript (tr_ServerCommands t) (tr_Statuses t) (tr_Messages t)
    (tr_Challenged t) (tr_Results t) final true.

(** [func (c *Device) defaults()]. *)
Definition default_leaf (uri v : string) (t : gmap string string) : gmap string string :=
  if decide (default "" (t !! uri) = "") then <[uri := v]> t else t.

Definition defaults (c : Device) : Device :=
  mkDevice (dev_ManagementURL c) (dev_DeviceID c) (dev_Username c) (dev_Password c)
    (Some (default
       (list_to_map [("DevId", dev_DeviceID c); ("Man", "VMware, Inc."); ("Mod", "VMware7,1");
          ("DmV", "1.3"); ("Lang", "en-US")]) (dev_DevInfo c)))
    (dev_LoginStatus c) (dev_SyncType c)
    (default_leaf "./DevDetail/LrgObj" "true"
       (default_leaf "./DevDetail/SwV" "10.0.26100.1" (dev_Tree c)))
    (dev_Namespace c) (dev_MaxObjSize c)
    (if decide (dev_Mode c = "") then "Machine" else dev_Mode c)
    (dev_Generics c) (dev_UploadChunkSize c).

(** [type sessionState struct]; [uploadRef] is the pair (msgRef, cmdRef). *)
Record sessionState := mkSess {
  st_sessionID : string;
  st_clientMsg : Z;
  st_nonce : string;
  st_authSent : bool;
  st_assembler : Assembler;
  st_transcript : Transcript;
  st_upload : list Item;
  st_uploadGet : option Command;
  st_uploadRef : string * string }.

Definition newState (sessionID : string) : sessionState :=
  mkSess sessionID 0 "" false (newAssembler 0) Transcript0 [] None ("", "").

Definition set_clientMsg (n : Z) (st : sessionState) : sessionState :=
  mkSess (st_sessionID st) n (st_nonce st) (st_authSent st) (st_assembler st)
    (st_transcript st) (st_upload st) (st_uploadGet st) (st_uploadRef st).
Definition set_challenge (nonce : string) (st : sessionState) : sessionState :=
  mkSess (st_sessionID st) (st_clientMsg st) nonce true (st_assembler st)
    (tr_challenge (st_transcript st)) (st_upload st) (st_uploadGet st) (st_uploadRef st).
Definition set_assembler (a : Assembler) (st : sessionState) : sessionState :=
  mkSess (st_sessionID st) (st_clientMsg st) (st_nonce st) (st_authSent st) a
    (st_transcript st) (st_upload st) (st_uploadGet st) (st_uploadRef st).
Definition on_transcript (f : Transcript → Transcript) (st : sessionState) : sessionState :=
  mkSess (st_sessionID st) (st_clientMsg st) (st_nonce st) (st_authSent st) (st_assembler st)
    (f (st_transcript st)) (st_upload st) (st_uploadGet st) (st_uploadRef st).
Definition set_upload (up : list Item) (g : option Command) (ref : string * string)
    (st : sessionState) : sessionState :=
  mkSess (st_sessionID st) (st_clientMsg st) (st_nonce st) (st_authSent st) (st_assembler st)
    (st_transcript st) up g ref.

(** ** answer.go: package 1 *)

(** The SyncHdr of the next client message. *)
Definition header (c : Device) (st : sessionState) : Header :=
  mkHeader VerDTD VerProto (st_sessionID st) (Itoa (st_clientMsg st))
    (mkLocation (dev_ManagementURL c) "") (mkLocation (dev_DeviceID c) "") "" false
    (if st_authSent st && (0 <? len (st_nonce st)) && negb (bool_decide (dev_Password c = ""))
     then Some (NewMD5Cred (MD5Digest (dev_Username c) (dev_Password c) (st_nonce st)))
     else None)
    (if 0 <? dev_MaxObjSize c then Some (mkMeta "" "" "" 0 "" 0 (dev_MaxObjSize c)) else None).

Definition loginAlert (cmdID typ data : string) : Alert :=
  mkAlert cmdID false None (AlertCode_Wire AlertClientEvent) ""
    [mkItem "" "" (Some (mkMeta FormatChr typ "" 0 "" 0 0)) (Some (DataValue data)) false].

(** An optional 1224 alert. *)
Definition login_cmd (typ data : string) (p : CmdIDs * list Command) : CmdIDs * list Command :=
  if decide (data = "") then p
  else let '(ids, id) := CmdIDs_Next (fst p) in
       (ids, snd p ++ [CAlert (loginAlert id typ data)]).

Definition devinfo_items (info : gmap string string) : list Item :=
  omap (λ leaf, v ← info !! leaf;
          Some (mkItem "" ("./DevInfo/" +:+ leaf) None (Some (DataValue v)) false))
    ["DevId"; "Man"; "Mod"; "DmV"; "Lang"].

Definition generic_cmd (p : CmdIDs * list Command) (g : GAlert) : CmdIDs * list Command :=
  let '(ids, id) := CmdIDs_Next (fst p) in
  (ids, snd p ++ [CAlert (mkAlert id false None (AlertCode_Wire AlertGeneric) ""
     [mkItem "" (ga_Source g) (Some (mkMeta (ga_Format g) (ga_Type g) (ga_Mark g) 0 "" 0 0))
        (Some (DataValue (ga_Data g))) false])]).

Definition packageOne_cmds (c : Device) : list Command :=
  let '(ids, id) := CmdIDs_Next 0 in
  let p := (ids, [CAlert (plainAlert id AlertClientInitiated)]) in
  let p := login_cmd AlertTypeLoginStatus (dev_LoginStatus c) p in
  let p := login_cmd AlertTypeSyncType (dev_SyncType c) p in
  let '(ids, id) := CmdIDs_Next (fst p) in
  let p := (ids, snd p ++
    [CReplace (mkReplace id false None None (devinfo_items (default ∅ (dev_DevInfo c))))]) in
  snd (foldl generic_cmd p (dev_Generics c)).

Definition packageOne (c : Device) (st : sessionState) : sessionState * Message :=
  let st := set_clientMsg 1 st in
  (st, mkMessage (dev_Namespace c) (header c st) (mkBody (packageOne_cmds c) true false)).

Definition with_id_cred (id : string) (cred : option Cred) (m : Message) : Message :=
  let h := Msg_Header m in
  mkMessage (Msg_Namespace m)
    (mkHeader (Hdr_VerDTD h) (Hdr_VerProto h) (Hdr_SessionID h) id (Hdr_Target h) (Hdr_Source h)
       (Hdr_RespURI h) (Hdr_NoResp h) cred (Hdr_Meta h)) (Msg_Body m).

(** [reAuth]: package 1 again, with credentials, under the current message
    number. *)
Definition reAuth (c : Device) (st : sessionState) : sessionState * Message :=
  let saved := st_clientMsg st in
  let '(st, m) := packageOne c st in
  let st := set_clientMsg saved st in
  (st, with_id_cred (Itoa saved)
     (if (0 <? len (st_nonce st)) && negb (bool_decide (dev_Password c = ""))
      then Some (NewMD5Cred (MD5Digest (dev_Username c) (dev_Password c) (st_nonce st)))
      else Hdr_Cred (Msg_Header m)) m).

(** ** answer.go: answering commands

    The variables of a running [answer]: the device, whose tree the commands
    change, the session, the reply's commands and Final, and the CmdIDs. *)
Record Ans := mkAns {
  an_dev : Device;
  an_st : sessionState;
  an_cmds : list Command;
  an_final : bool;
  an_ids : CmdIDs }.

Definition an_session (f : sessionState → sessionState) (a : Ans) : Ans :=
  mkAns (an_dev a) (f (an_st a)) (an_cmds a) (an_final a) (an_ids a).
Definition an_tree (f : gmap string string → gmap string string) (a : Ans) : Ans :=
  mkAns (set_Tree (f (dev_Tree (an_dev a))) (an_dev a)) (an_st a) (an_cmds a) (an_final a)
    (an_ids a).
Definition set_an_final (b : bool) (a : Ans) : Ans :=
  mkAns (an_dev a) (an_st a) (an_cmds a) b (an_ids a).
(** [reply.Body.Commands = append(reply.Body.Commands, f(ids.Next()))] *)
Definition an_append (f : string → Command) (a : Ans) : Ans :=
  let '(ids, id) := CmdIDs_Next (an_ids a) in
  mkAns (an_dev a) (an_st a) (an_cmds a ++ [f id]) (an_final a) ids.

Section answer.
(** The server message being answered. *)
Context (req : Message).

Definition req_MsgID : string := Hdr_MsgID (Msg_Header req).

Definition status (cmd : Command) (code : StatusCode) (a : Ans) : Ans :=
  an_append (λ id, CStatus (StatusFor req cmd id code))
    (an_session (on_transcript (tr_status (Command_ID cmd) code)) a).

(** [emitUpload]; the caller has a chunk to send. *)
Definition emitUpload (a : Ans) : Ans :=
  let st := an_st a in
  match st_upload st with
  | [] => a
  | chunk :: rest =>
      let '(msgRef, cmdRef) := st_uploadRef st in
      let a := an_session (set_upload rest (st_uploadGet st) (msgRef, cmdRef)) a in
      let a := an_append (λ id, CResults
        (mkResults id msgRef cmdRef CmdGet None "" "" [chunk])) a in
      match rest with
      | [] =>
          let a := an_append (λ id, CStatus
            (mkStatus id msgRef cmdRef CmdGet [] [] None None
               (DataValue (StatusCode_Wire StatusOK)) [])) a in
          set_an_final true (an_session (set_upload [] None (msgRef, cmdRef)) a)
      | _ => set_an_final false a
      end
  end.

(** The chunks a Get result is sent in, when it needs more than one. *)
Definition upload_chunks (c : Device) (item : Item) (v : string) : option (list Item) :=
  if (0 <? dev_UploadChunkSize c) && (dev_UploadChunkSize c <? len v) then
    match SplitItem item (dev_UploadChunkSize c) with
    | Ok (c0 :: c1 :: cs) => Some (c0 :: c1 :: cs)
    | _ => None
    end
  else None.

Definition get_item (uri v : string) : Item :=
  mkItem "" uri (Some (mkMeta FormatChr "" "" 0 "" 0 0)) (Some (DataValue v)) false.

(** The loop over a Get's items; [None] is the early return that leaves the
    Status to the last chunk. *)
Fixpoint get_items (g : Get) (code : StatusCode) (its : list Item) (a : Ans)
    : Ans * option StatusCode :=
  match its with
  | [] => (a, Some code)
  | it :: its =>
      match dev_Tree (an_dev a) !! Item_Target it with
      | None => get_items g StatusNotFound its a
      | Some v =>
          let a := an_session (on_transcript (tr_result (Item_Target it))) a in
          let item := get_item (Item_Target it) v in
          match upload_chunks (an_dev a) item v with
          | Some chunks =>
              let a := an_session
                (set_upload chunks (Some (CGet g)) (req_MsgID, Get_CmdID g)) a in
              (emitUpload a, None)
          | None =>
              get_items g code its
                (an_append (λ id, CResults
                   (mkResults id req_MsgID (Get_CmdID g) CmdGet None "" "" [item])) a)
          end
      end
  end.

(** One item of [applyItems]: an item the assembler refuses, or that waits for
    more chunks, writes nothing. *)
Definition apply_item (a : Ans) (it : Item) : Ans :=
  let '(asm, r) := Assembler_Add (st_assembler (an_st a)) it in
  let a := an_session (set_assembler asm) a in
  match r with
  | Ok (full, true) =>
      if decide (Item_Target full = "") then a
      else an_tree (<[Item_Target full := Data_Text (Item_Data full)]>) a
  | _ => a
  end.

Definition applyItems (emit : bool) (items : list Item) (cmd : Command) (a : Ans) : Ans :=
  let a := foldl apply_item a items in
  if emit then status cmd StatusOK a else a.

Definition record_command (cmd : Command) : Ans → Ans :=
  an_session (on_transcript (tr_command cmd)).

(** [handleCommand] and [handleGroup]. *)
Fixpoint handleCommand (emit : bool) (cmd : Command) (a : Ans) : Ans :=
  let handleGroup := fix handleGroup (members : list Command) (a : Ans) : Ans :=
    match members with
    | [] => a
    | m :: members => handleGroup members (handleCommand emit m a)
    end in
  let a := record_command cmd a in
  match cmd with
  | CGet b =>
      if negb emit then a
      else match get_items b StatusOK (Get_Items b) a with
      | (a, Some code) => status cmd code a
      | (a, None) => a
      end
  | CAdd b => applyItems emit (Add_Items b) cmd a
  | CReplace b => applyItems emit (Replace_Items b) cmd a
  | CDelete b =>
      if negb emit then a
      else status cmd StatusOK
             (an_tree (λ t, foldl (λ t it, delete (Item_Target it) t) t (Delete_Items b)) a)
  | CAtomic _ _ _ members | CSequence _ _ _ members =>
      let a := handleGroup members a in
      if emit then status cmd StatusOK a else a
  | _ => if emit then status cmd StatusOK a else a
  end.

Definition handleGroup (emit : bool) (members : list Command) (a : Ans) : Ans :=
  foldl (λ a m, handleCommand emit m a) a members.

(** The loop over the message's commands; it stops when an upload begins.
    Returns [needsResponse]. *)
Fixpoint answer_loop (emit : bool) (cmds : list Command) (needs : bool) (a : Ans) : Ans * bool :=
  match cmds with
  | [] => (a, needs)
  | CStatus _ :: cmds => answer_loop emit cmds needs a
  | cmd :: cmds =>
      let a := handleCommand emit cmd a in
      match st_upload (an_st a) with
      | [] => answer_loop emit cmds true a
      | _ => (a, true)
      end
  end.

Definition is_challenge (s : Status) : bool :=
  bool_decide (Status_CmdRef s = "0") &&
  match Status_Chal s with Some _ => true | None => false end.

(** [answer]: the next message, and whether the session is over. *)
Definition answer (c : Device) (st : sessionState)
    : Device * sessionState * result (option Message * bool) :=
  match List.find is_challenge (Body_Statuses (Msg_Body req)) with
  | Some s =>
      let nonce := match Chal_Nonce (Status_Chal s) with
                   | Ok n => n
                   | Err _ => st_nonce st
                   end in
      let st := set_challenge nonce st in
      if 2 <? tr_Challenged (st_transcript st) then (c, st, Err [simulator_ErrChallengeLoop])
      else
        let '(st, m) := reAuth c (set_clientMsg (wrap64 (st_clientMsg st + 1)) st) in
        (c, st, Ok (Some m, false))
  | None =>
      let st := set_clientMsg (wrap64 (st_clientMsg st + 1)) st in
      let hdr := header c st in
      let reply (cmds : list Command) (final : bool) :=
        mkMessage (dev_Namespace c) hdr (mkBody cmds final false) in
      let a := an_append (λ id, CStatus (StatusForHeader req id StatusOK))
                 (mkAns c st [] false 0) in
      match st_upload st with
      | _ :: _ =>
          let a := emitUpload a in
          (an_dev a, an_st a, Ok (Some (reply (an_cmds a) (an_final a)), false))
      | [] =>
          let emit := Body_Final (Msg_Body req) in
          let '(a, needs) := answer_loop emit (Body_Commands (Msg_Body req)) false a in
          if negb emit then
            (an_dev a, an_st a, Ok (Some (reply
               [CStatus (StatusForHeader req "1" StatusOK);
                CAlert (plainAlert "2" AlertNextMessage)] (an_final a)), false))
          else match st_upload (an_st a) with
          | _ :: _ => (an_dev a, an_st a, Ok (Some (reply (an_cmds a) false), false))
          | [] =>
              if negb needs then (an_dev a, an_st a, Ok (None, true))
              else (an_dev a, an_st a, Ok (Some (reply (an_cmds a) true), false))
          end
      end
  end.
End answer.

(** ** session.go: exchange and RunSession *)

Record HTTPRequest := mkHTTPRequest {
  hq_Method : string;
  hq_URL : string;
  hq_Header : list (string * string);
  hq_Body : string }.

(** A response as the client sees it; reading the body may fail. *)
Record HTTPResponse := mkHTTPResponse {
  hr_StatusCode : Z;
  hr_TransferEncoding : list string;
  hr_ContentLength : Z;
  hr_Body : result string }.

(** [io.LimitReader(r, n)] over a body that is at hand. *)
Definition limit_read (n : Z) (s : string) : string :=
  if len s <=? n then s else stake (Z.to_nat n) s.

Section session.
Context `{NameTables} {Srv : Type} (Do : HTTPRequest → Srv → Srv * result HTTPResponse).

(** What [exchange] makes of the response: [None] is an empty 200. *)
Definition read_response (resp : HTTPResponse) : result (option Message) :=
  match hr_Body resp with
  | Err e => Err e
  | Ok body =>
      let raw := limit_read DefaultMaxSize body in
      if bool_decide ("chunked" ∈ hr_TransferEncoding resp) then Err [simulator_ErrProtocol]
      else if negb (hr_StatusCode resp =? 200) then Err [simulator_ErrSession]
      else if len (TrimSpace raw) =? 0 then Ok None
      else let? m := Decode raw (mkDecodeOptions 0) in Ok (Some m)
  end.

Definition dm_request (c : Device) (body : string) : HTTPRequest :=
  mkHTTPRequest "POST" (dev_ManagementURL c +:+ "?mode=" +:+ dev_Mode c +:+ "&Platform=WoA")
    [("Content-Type", ContentTypeXML); ("User-Agent", "MSFT OMA DM Client/1.2.0.1")] body.

Definition exchange (c : Device) (msg : Message) (srv : Srv)
    : Srv * result (option Message) :=
  match Encode msg (mkEncodeOptions "" false) with
  | Err e => (srv, Err e)
  | Ok body =>
      match Do (dm_request c body) srv with
      | (srv, Err e) => (srv, Err e)
      | (srv, Ok resp) => (srv, read_response resp)
      end
  end.

Definition maxMessages : nat := 64.

(** The state of a running session. *)
Record SimState := mkSim { sim_srv : Srv; sim_dev : Device; sim_st : sessionState }.

(** One turn of the loop: [inl] the next request, [inr] the outcome. *)
Definition session_step (req : Message) (s : SimState) : SimState * (Message + result unit) :=
  match exchange (sim_dev s) req (sim_srv s) with
  | (srv, Err e) => (mkSim srv (sim_dev s) (sim_st s), inr (Err e))
  | (srv, Ok resp) =>
      let st := on_transcript tr_message (sim_st s) in
      match resp with
      | None => (mkSim srv (sim_dev s)
                   (on_transcript (λ t, tr_end (tr_Final t) t) st), inr (Ok tt))
      | Some resp =>
          match answer resp (sim_dev s) st with
          | (c, st, Err e) => (mkSim srv c st, inr (Err e))
          | (c, st, Ok (Some next, false)) => (mkSim srv c st, inl next)
          | (c, st, Ok (_, _)) =>
              (mkSim srv c (on_transcript (tr_end (Body_Final (Msg_Body resp))) st), inr (Ok tt))
          end
      end
  end.

(** [for st.transcript.Messages < maxMessages]; every turn that continues has
    counted one message. *)
Fixpoint session_loop (turns : nat) (req : Message) (s : SimState) : SimState * result unit :=
  match turns with
  | O => (s, Err [simulator_ErrSession])
  | S turns =>
      match session_step req s with
      | (s, inl next) => session_loop turns next s
      | (s, inr r) => (s, r)
      end
  end.

Definition RunSession (c : Device) (sessionID : string) (srv : Srv) : SimState * result unit :=
  let c := defaults c in
  let '(st, req) := packageOne c (newState sessionID) in
  session_loop maxMessages req (mkSim srv c st).
End session.
Arguments mkSim {Srv} _ _ _.
Arguments sim_srv {Srv} _.
Arguments sim_dev {Srv} _.
Arguments sim_st {Srv} _.
