(* ===== verification/SimProofs.v ===== *)
(** * What the simulated device sends

    Theorems about [SimDevice]: every message it builds obeys the rules the
    server checks ([message_ok]), each server command is acknowledged once,
    a challenge is answered with the credential the server expects, and a
    large result reaches the server in as many messages as it has chunks. *)
From stdpp Require Import base gmap strings list.
From Stdlib Require Import ZArith Lia Ascii.
From S2P Require Import Prelude GoStrings SyncmlModel LargeObject Validate Response.
From S2P Require Import Encode GoXml Decode SyncmlAuth MdmAuth SimDevice.

Local Open Scope Z_scope.

(** ** The reply under construction *)

(** CmdIDs are handed out in order. *)
Definition numbered (n : CmdIDs) (cmds : list Command) : Prop :=
  n = wrap64 (Z.of_nat (length cmds)) ∧
  map Command_ID cmds = map (λ i, Itoa (wrap64 i)) (seqZ 1 (Z.of_nat (length cmds))).

(** The transfer in progress can be continued. *)
Definition upload_ok (st : sessionState) : Prop :=
  Forall item_ok (st_upload st) ∧
  (st_upload st ≠ [] → positive_int (fst (st_uploadRef st)) ∧
     snd (st_uploadRef st) ≠ "" ∧ snd (st_uploadRef st) ≠ "0").

(** What one message leaves alone: the session's identity and credentials. *)
Definition sess_hdr (st : sessionState) : string * Z * string * bool :=
  (st_sessionID st, st_clientMsg st, st_nonce st, st_authSent st).

(** The reply to one message of a session that was [st0], by the device [c0];
    it begins with [pre]. *)
Section reply.
Context (c0 : Device) (st0 : sessionState) (pre : list Command).

Record ans_ok (a : Ans) : Prop := mkAnsOk {
  ao_dev : ∃ t, an_dev a = set_Tree t c0;
  ao_hdr : sess_hdr (an_st a) = sess_hdr st0;
  ao_pre : pre `prefix_of` an_cmds a;
  ao_ids : numbered (an_ids a) (an_cmds a);
  ao_tree : dev_Tree (an_dev a) !! "" = None;
  ao_cmds : Forall (command_ok false) (an_cmds a);
  ao_flat : Forall (λ c, flatten c = [c]) (an_cmds a);
  ao_upload : upload_ok (an_st a) }.

Lemma numbered_snoc n cmds c :
  Command_ID c = Itoa (wrap64 (n + 1)) → numbered n cmds →
  numbered (wrap64 (n + 1)) (cmds ++ [c]).
Proof.
  intros Hc [-> Hi]. unfold numbered.
  rewrite wrap64_add_l in Hc |- *. rewrite length_app, Nat2Z.inj_add. split; [done|].
  rewrite map_app, Hi. simpl. rewrite Hc. change (Z.of_nat 1) with 1.
  rewrite seqZ_app by lia. rewrite map_app. f_equal. simpl. by rewrite Z.add_comm.
Qed.

Lemma wrap64_small z : 0 ≤ z ≤ max_int64 → wrap64 z = z.
Proof. intros Hz. unfold wrap64, max_int64 in *. rewrite Z.mod_small; lia. Qed.

(** Commands numbered in order have the CmdIDs a valid message needs. *)
Lemma numbered_fresh n cmds :
  numbered n cmds → Z.of_nat (length cmds) ≤ max_int64 → Forall (λ c, flatten c = [c]) cmds →
  ids_fresh ∅ (map Command_ID (flatten_all cmds)).
Proof.
  intros [_ Hi] Hl Hf.
  assert (flatten_all cmds = cmds) as ->.
  { unfold flatten_all. clear -Hf. induction Hf as [|c cs Hc _ IH]; [done|]. simpl.
    by rewrite Hc, IH. }
  rewrite Hi.
  assert (∀ i, i ∈ seqZ 1 (Z.of_nat (length cmds)) → wrap64 i = i ∧ 1 ≤ i ∧ in_int64 i) as Hr.
  { intros i Hin. apply elem_of_seqZ in Hin. rewrite wrap64_small by (unfold max_int64 in *; lia).
    unfold in_int64, min_int64, max_int64 in *. lia. }
  split.
  - apply NoDup_fmap_2_strong; [|apply NoDup_seqZ].
    intros i j Hin Hjn E. destruct (Hr _ Hin) as (Ei & ? & ?). destruct (Hr _ Hjn) as (Ej & ? & ?).
    rewrite Ei, Ej in E. by apply Itoa_inj in E.
  - rewrite Forall_map, Forall_forall. intros i Hin. destruct (Hr _ Hin) as (Ei & Hi1 & Hb).
    unfold compose. rewrite Ei. pose proof (Atoi_Itoa _ Hb) as Ha. split_and!.
    + intros E. by rewrite E in Ha.
    + intros E. rewrite E in Ha. assert (Some i = Some 0) as [= ->] by (by rewrite <- Ha). lia.
    + set_solver.
Qed.

Lemma ans_ok_append f a :
  (∀ id, Command_ID (f id) = id) → (∀ id, flatten (f id) = [f id]) →
  (∀ id, command_ok false (f id)) → ans_ok a → ans_ok (an_append f a).
Proof.
  intros Hi Hl Hf []. constructor; [done|done|by apply prefix_app_r|by apply numbered_snoc|done| | |done];
  unfold an_append, CmdIDs_Next; simpl; apply Forall_app_2; eauto.
Qed.

Lemma ans_ok_final b a : ans_ok a → ans_ok (set_an_final b a).
Proof. intros []. by constructor. Qed.

Lemma ans_ok_session f a :
  ans_ok a → upload_ok (f (an_st a)) → sess_hdr (f (an_st a)) = sess_hdr (an_st a) →
  ans_ok (an_session f a).
Proof. intros [? Hh] ? Hf. constructor; try done. by rewrite <- Hh, <- Hf. Qed.

Lemma ans_ok_transcript f a : ans_ok a → ans_ok (an_session (on_transcript f) a).
Proof. intros H. apply ans_ok_session; [done|apply H|done]. Qed.

Lemma ans_ok_tree f a :
  ans_ok a → f (dev_Tree (an_dev a)) !! "" = None → ans_ok (an_tree f a).
Proof. intros [[t Ht]] ?. constructor; try done. exists (f (dev_Tree (an_dev a))). simpl. by rewrite Ht. Qed.

(** ** Each step keeps the reply valid *)

Section steps.
Context (req : Message) (Hreq : message_ok req).

Let msgid_ok : positive_int (req_MsgID req).
Proof. destruct Hreq as [Hh _]. apply Hh. Qed.

(** What is known of the CmdID of a command in a valid message. *)
Definition id_ok (id : string) : Prop := id ≠ "" ∧ id ≠ "0".

Lemma positive_int_nonempty s : positive_int s → s ≠ "".
Proof. intros (n & E & _) ->. done. Qed.

Lemma Command_Name_known c : Command_Name c ∈ statusCmdNames.
Proof. destruct c; unfold statusCmdNames; simpl; set_solver. Qed.

Lemma status_ans_ok cmd code a :
  id_ok (Command_ID cmd) → 100 ≤ code ≤ 999 → ans_ok a → ans_ok (status req cmd code a).
Proof.
  intros [H1 H2] Hc Ha. unfold status.
  apply ans_ok_append; [done|done| |by apply ans_ok_transcript].
  intros id. simpl. unfold status_ok; simpl. split_and!; try done.
  - by apply positive_int_nonempty.
  - apply Command_Name_known.
  - by rewrite wire_code_ok.
Qed.

Lemma results_ans_ok it cmdRef msgRef a :
  item_ok it → cmdRef ≠ "" → positive_int msgRef → ans_ok a →
  ans_ok (an_append (λ id, CResults (mkResults id msgRef cmdRef CmdGet None "" "" [it])) a).
Proof.
  intros Hi Hr Hm Ha. apply ans_ok_append; [done|done| |done]. intros id. simpl. unfold results_ok.
  simpl. split_and!; [done|by right|done| |done]. by constructor.
Qed.

Lemma emitUpload_ans_ok a : ans_ok a → ans_ok (emitUpload a).
Proof.
  intros Ha. pose proof (ao_upload _ Ha) as [Hi Hr]. unfold emitUpload.
  destruct (st_upload (an_st a)) as [|chunk rest] eqn:Eu; [done|].
  destruct (st_uploadRef (an_st a)) as [msgRef cmdRef] eqn:Er.
  destruct Hr as (Hm & Hc & Hc0); [done|]. simpl in *.
  inversion Hi as [|? ? Hch Hrest]; subst.
  set (a1 := an_session _ a).
  assert (ans_ok a1) as Ha1.
  { apply ans_ok_session; [done| |done]. split; [done|]. by intros _. }
  pose proof (results_ans_ok chunk cmdRef msgRef a1 Hch Hc Hm Ha1) as Ha2.
  destruct rest as [|c2 rest]; [|by apply ans_ok_final].
  apply ans_ok_final, ans_ok_session; [|split; [constructor|done]|done].
  apply ans_ok_append; [done|done| |done]. intros id. simpl. unfold status_ok; simpl.
  split_and!; try done.
  - by apply positive_int_nonempty.
  - unfold statusCmdNames. set_solver.
Qed.

(** The chunks of a valid item are valid. *)
Lemma upload_chunks_ok c it v d chunks :
  item_ok it → Item_Data it = Some d → Data_XML d = "" → Data_Value d = v →
  upload_chunks c it v = Some chunks → Forall item_ok chunks ∧ (1 < length chunks)%nat.
Proof.
  intros Hit Hd Hx Hv. unfold upload_chunks.
  destruct (Z.ltb_spec 0 (dev_UploadChunkSize c)); [|done].
  destruct (Z.ltb_spec (dev_UploadChunkSize c) (len v)) as [Hl|]; [|done]. simpl.
  destruct (SplitItem it (dev_UploadChunkSize c)) as [[|k0 [|k1 cs]]|] eqn:Es; [done|done| |done].
  intros [= <-]. split; [|simpl; lia]. subst v.
  destruct (split_chunking _ _ _ _ Hd Hx Hl Es) as (_ & _ & Hc). clear Es.
  destruct Hit as (Hu & Hm & _).
  remember true as b eqn:Eb. clear Eb.
  assert (∀ first part more, item_ok (chunk_of it d first part more)) as Hok.
  { intros first part more. split_and!; [done| |by right].
    unfold chunk_of; simpl. destruct first; [|done]. destruct (Item_Meta it); [done|by left]. }
  clear -Hok Hc. induction Hc ; constructor; auto.
Qed.

Lemma get_items_ans_ok g code its a a' r :
  id_ok (Get_CmdID g) → Forall item_ok its → ans_ok a → code = StatusOK ∨ code = StatusNotFound →
  get_items req g code its a = (a', r) →
  ans_ok a' ∧ match r with Some code => code = StatusOK ∨ code = StatusNotFound | None => True end.
Proof.
  intros Hg Hits. revert code a. induction Hits as [|it its Hit _ IH]; intros code a Ha Hc; simpl.
  { by intros [= <- <-]. }
  destruct (dev_Tree (an_dev a) !! Item_Target it) as [v|] eqn:Et; [|apply IH; auto].
  assert (item_ok (get_item (Item_Target it) v)) as Hi.
  { destruct Hit as (Hu & _ & _). unfold item_ok, Item_LocURI, get_item in *; simpl.
    assert (Item_Target it ≠ "") as Hne.
    { intros E. rewrite E, (ao_tree _ Ha) in Et. done. }
    rewrite decide_False in Hu by done.
    split_and!; [done|right; unfold knownFormats; set_solver|by right]. }
  set (a1 := an_session _ a). assert (ans_ok a1) as Ha1 by by apply ans_ok_transcript.
  destruct (upload_chunks (an_dev a) (get_item (Item_Target it) v) v) as [chunks|] eqn:Ec.
  - intros [= <- <-]. split; [|done]. apply emitUpload_ans_ok, ans_ok_session; [done| |done].
    destruct (upload_chunks_ok _ _ _ _ _ Hi eq_refl eq_refl eq_refl Ec) as [Hf _].
    split; [done|]. intros _. split; [apply msgid_ok|apply Hg].
  - apply IH; [|done]. apply results_ans_ok; [done|apply Hg|apply msgid_ok|done].
Qed.

Lemma apply_item_ans_ok a it : ans_ok a → ans_ok (apply_item a it).
Proof.
  intros Ha. unfold apply_item. destruct (Assembler_Add _ it) as [asm r].
  assert (ans_ok (an_session (set_assembler asm) a)) as H1
    by (apply ans_ok_session; [done|apply Ha|done]).
  destruct r as [[full []]|]; [|done..].
  destruct (decide (Item_Target full = "")) as [|Hne]; [done|].
  apply ans_ok_tree; [done|]. rewrite lookup_insert_ne by done. apply H1.
Qed.

Lemma foldl_ans_ok {A} (f : Ans → A → Ans) l a :
  (∀ a x, x ∈ l → ans_ok a → ans_ok (f a x)) → ans_ok a → ans_ok (foldl f a l).
Proof.
  revert a. induction l as [|x l IH]; intros a Hf Ha; simpl; [done|].
  apply IH; [|apply Hf; [apply list_elem_of_here|done]].
  intros. apply Hf; [by apply list_elem_of_further|done].
Qed.

Lemma applyItems_ans_ok emit items cmd a :
  id_ok (Command_ID cmd) → ans_ok a → ans_ok (applyItems req emit items cmd a).
Proof.
  intros Hid Ha. unfold applyItems.
  assert (ans_ok (foldl apply_item a items)) as Hf
    by (apply foldl_ans_ok; [intros; by apply apply_item_ans_ok|done]).
  destruct emit; [|done]. by apply status_ans_ok.
Qed.

Lemma handleGroup_eq emit members a :
  (fix handleGroup (members : list Command) (a : Ans) : Ans :=
     match members with
     | [] => a
     | m :: members => handleGroup members (handleCommand req emit m a)
     end) members a = handleGroup req emit members a.
Proof. revert a. induction members as [|m ms IH]; intros a; [done|]. apply IH. Qed.

Lemma flatten_members (P : Command → Prop) c cs x :
  (∃ i n m, c = CAtomic i n m cs ∨ c = CSequence i n m cs) →
  Forall P (flatten c) → x ∈ cs → Forall P (flatten x).
Proof.
  intros Hg. assert (flatten c = c :: flatten_all cs) as ->
    by (destruct Hg as (? & ? & ? & [-> | ->]); simpl; by rewrite flatten_group_eq).
  intros H Hx. apply Forall_cons in H as [_ H]. unfold flatten_all in H.
  rewrite Forall_concat, Forall_map, Forall_forall in H. by apply (H x).
Qed.

Lemma handleCommand_ans_ok emit cmd inA a :
  command_ok inA cmd → Forall (λ c, id_ok (Command_ID c)) (flatten cmd) →
  ans_ok a → ans_ok (handleCommand req emit cmd a).
Proof.
  revert inA a. induction cmd as
    [b|b|b|b|b|b|i n m cs IH|i n m cs IH|b|b] using Command_nested_ind;
  intros inA a Hc Hid Ha; pose proof (Forall_inv Hid) as H1;
  assert (∀ c, ans_ok (record_command c a)) as Hr by (intros c; by apply ans_ok_transcript);
  cbn [handleCommand].
  1,2: by apply applyItems_ans_ok.
  - destruct emit; cbn [negb]; [|apply Hr]. apply status_ans_ok; [done|done|].
    apply ans_ok_tree; [done|]. pose proof (ao_tree _ (Hr (CDelete b))) as Ht.
    revert Ht. generalize (dev_Tree (an_dev (record_command (CDelete b) a))).
    induction (Delete_Items b) as [|it its IH']; intros t Ht; simpl; [done|].
    apply IH'. destruct (decide (Item_Target it = "")) as [->|]; [apply lookup_delete_eq|].
    by rewrite lookup_delete_ne.
  - destruct emit; cbn [negb]; [|apply Hr].
    destruct (get_items _ _ _ _ _) as [a' r] eqn:Eg.
    apply get_items_ans_ok in Eg as [Ha' Hcode]; [|done|apply Hc|done|by left].
    destruct r as [code|]; [|done]. apply status_ans_ok; [done| |done].
    destruct Hcode as [-> | ->]; unfold StatusOK, StatusNotFound; lia.
  - destruct emit; [|first [apply Hr|done]]. by apply status_ans_ok.
  - destruct emit; [|first [apply Hr|done]]. by apply status_ans_ok.
  - rewrite handleGroup_eq.
    assert (ans_ok (handleGroup req emit cs (record_command (CAtomic i n m cs) a))) as Hg.
    { apply foldl_ans_ok; [|done]. intros a' x Hx Ha'. rewrite Forall_forall in IH.
      apply (IH x Hx true); [|eapply (flatten_members _ _ cs x); [by eexists _, _, _; left|done..]|done].
      destruct Hc as (_ & _ & _ & Hc). rewrite command_all_eq, Forall_forall in Hc. by apply Hc. }
    destruct emit; [|first [apply Hr|done]]. by apply status_ans_ok.
  - rewrite handleGroup_eq.
    assert (ans_ok (handleGroup req emit cs (record_command (CSequence i n m cs) a))) as Hg.
    { apply foldl_ans_ok; [|done]. intros a' x Hx Ha'. rewrite Forall_forall in IH.
      apply (IH x Hx inA); [|eapply (flatten_members _ _ cs x); [by eexists _, _, _; right|done..]|done].
      destruct Hc as (_ & Hc). rewrite command_all_eq, Forall_forall in Hc. by apply Hc. }
    destruct emit; [|first [apply Hr|done]]. by apply status_ans_ok.
  - destruct emit; [|first [apply Hr|done]]. by apply status_ans_ok.
  - destruct emit; [|first [apply Hr|done]]. by apply status_ans_ok.
Qed.
End steps.
End reply.

(** ** Package 1 *)

Definition galert_ok (g : GAlert) : Prop :=
  ga_Type g ≠ "" ∧ (ga_Format g = "" ∨ ga_Format g ∈ knownFormats).

(** A device that can open a session: addresses, at least one DevInfo leaf,
    no value at the empty address, and generic alerts that have a type and a
    known format.  Its namespace may be anything, the empty one of the default
    device included: what is sent is 1.1 or 1.2. *)
Record device_ok (c : Device) : Prop := mkDeviceOk {
  do_url : dev_ManagementURL c ≠ "";
  do_id : dev_DeviceID c ≠ "";
  do_tree : dev_Tree c !! "" = None;
  do_info : devinfo_items (default ∅ (dev_DevInfo c)) ≠ [];
  do_generics : Forall galert_ok (dev_Generics c) }.

Lemma MD5Digest_nonempty u p n : MD5Digest u p n ≠ "".
Proof. unfold MD5Digest, MD5DigestFromHash. apply b64_encode_nonempty, md5_Sum_nonempty. Qed.

Lemma md5_cred_ok u p n : cred_ok (Some (NewMD5Cred (MD5Digest u p n))).
Proof. split; [by right|apply MD5Digest_nonempty]. Qed.

Lemma positive_Itoa n : 1 ≤ n ≤ max_int64 → positive_int (Itoa n).
Proof.
  intros Hn. exists n. split; [|lia]. apply Atoi_Itoa.
  unfold in_int64, min_int64, max_int64 in *. lia.
Qed.

(** A message with the namespace it is written with. *)
Definition as_sent (m : Message) : Message :=
  mkMessage (wire_namespace m) (Msg_Header m) (Msg_Body m).

Lemma wire_namespace_known m :
  wire_namespace m = NamespaceSyncML12 ∨ wire_namespace m = NamespaceSyncML11.
Proof. unfold wire_namespace. case_decide; auto. Qed.

(** It is the same on the wire. *)
Lemma Marshal_as_sent m : Marshal (as_sent m) = Marshal m.
Proof.
  unfold Marshal, Encode. replace (wire_namespace (as_sent m)) with (wire_namespace m); [done|].
  unfold as_sent, wire_namespace. cbn [Msg_Namespace]. by repeat case_decide.
Qed.

Lemma as_sent_id m :
  Msg_Namespace m = NamespaceSyncML12 ∨ Msg_Namespace m = NamespaceSyncML11 → as_sent m = m.
Proof.
  unfold as_sent, wire_namespace. destruct m. simpl. intros [-> | ->]; by case_decide.
Qed.

Lemma header_header_ok c st ns :
  device_ok c → st_sessionID st ≠ "" → 1 ≤ st_clientMsg st ≤ max_int64 →
  ns = NamespaceSyncML12 ∨ ns = NamespaceSyncML11 → header_ok ns (header c st).
Proof.
  intros [? ? _ _ _] Hs Hm Hns. unfold header_ok, header; simpl.
  split_and!; [done|done|done|done|by apply positive_Itoa|done|done| |].
  - case_match; [apply md5_cred_ok|done].
  - case_match; [by left|done].
Qed.

Lemma devinfo_items_ok info : Forall item_ok (devinfo_items info).
Proof.
  unfold devinfo_items.
  assert (∀ leaf v, leaf ∈ ["DevId"; "Man"; "Mod"; "DmV"; "Lang"] →
    item_ok (mkItem "" ("./DevInfo/" +:+ leaf) None (Some (DataValue v)) false)) as Hi.
  { intros leaf v Hl. split_and!; [|done|by right].
    repeat (apply elem_of_cons in Hl as [->|Hl]; [reflexivity|]). by apply elem_of_nil in Hl. }
  rewrite Forall_forall. intros it Hit. apply list_elem_of_omap in Hit as (leaf & Hl & E).
  destruct (info !! leaf); [|done]. injection E as <-. by apply Hi.
Qed.

(** Commands numbered, flat and valid. *)
Definition cmds_ok (p : CmdIDs * list Command) : Prop :=
  numbered (fst p) (snd p) ∧ Forall (λ c, flatten c = [c]) (snd p) ∧
  Forall (command_ok false) (snd p).

Lemma cmds_ok_snoc p f :
  (∀ id, Command_ID (f id) = id) → (∀ id, flatten (f id) = [f id]) →
  (∀ id, command_ok false (f id)) → cmds_ok p →
  cmds_ok (wrap64 (fst p + 1), snd p ++ [f (Itoa (wrap64 (fst p + 1)))]).
Proof.
  intros Hi Hl Hf (? & ? & ?). split_and!; simpl;
  [by apply numbered_snoc|apply Forall_app_2; auto|apply Forall_app_2; auto].
Qed.

Lemma login_cmd_ok typ data p : typ ≠ "" → cmds_ok p → cmds_ok (login_cmd typ data p).
Proof.
  intros Ht Hp. unfold login_cmd. destruct (decide (data = "")); [done|]. unfold CmdIDs_Next.
  apply (cmds_ok_snoc p (λ id, CAlert (loginAlert id typ data))); [done|done| |done].
  intros id. simpl. unfold alert_ok; simpl. split_and!; [done|done| |].
  - intros _. split; [done|]. by repeat econstructor.
  - constructor; [|constructor]. right. unfold knownFormats. set_solver.
Qed.

Lemma generic_cmd_ok p g : galert_ok g → cmds_ok p → cmds_ok (generic_cmd p g).
Proof.
  intros [Ht Hf] Hp. unfold generic_cmd, CmdIDs_Next.
  apply (cmds_ok_snoc p (λ id, CAlert (mkAlert id false None (AlertCode_Wire AlertGeneric) ""
     [mkItem "" (ga_Source g) (Some (mkMeta (ga_Format g) (ga_Type g) (ga_Mark g) 0 "" 0 0))
        (Some (DataValue (ga_Data g))) false]))); [done|done| |done].
  intros id. simpl. unfold alert_ok; simpl. split_and!; [done|done| |].
  - intros _. split; [done|]. by repeat econstructor.
  - by constructor; [|constructor].
Qed.

Lemma packageOne_cmds_ok c :
  device_ok c → ∃ n, cmds_ok (n, packageOne_cmds c).
Proof.
  intros Hd. unfold packageOne_cmds, CmdIDs_Next.
  set (p0 := (_, [CAlert _])). assert (cmds_ok p0) as H0.
  { apply (cmds_ok_snoc (0, []) (λ id, CAlert (plainAlert id AlertClientInitiated)));
      [done|done| |by repeat split].
    intros id. simpl. unfold alert_ok; simpl. split_and!; [done|done| |constructor].
    by intros [|]. }
  assert (cmds_ok (login_cmd AlertTypeSyncType (dev_SyncType c)
    (login_cmd AlertTypeLoginStatus (dev_LoginStatus c) p0))) as H1 by by repeat apply login_cmd_ok.
  revert H1. generalize (login_cmd AlertTypeSyncType (dev_SyncType c)
    (login_cmd AlertTypeLoginStatus (dev_LoginStatus c) p0)). intros p1 H1.
  cbv zeta beta iota. match goal with |- context [foldl generic_cmd ?p _] => set (p2 := p) end.
  assert (cmds_ok p2) as Hp2.
  { apply (cmds_ok_snoc p1 (λ id, CReplace (mkReplace id false None None
      (devinfo_items (default ∅ (dev_DevInfo c)))))); [done|done| |done].
    intros id. simpl. split_and!; [apply Hd|apply devinfo_items_ok|done]. }
  clearbody p2.
  clear -Hd Hp2. pose proof (do_generics _ Hd) as Hg. revert p2 Hp2.
  induction Hg as [|g gs Hg _ IH]; intros p2 Hp2; simpl.
  - exists (fst p2). by destruct p2.
  - by apply IH, generic_cmd_ok.
Qed.

Lemma login_cmd_prefix typ data p : snd p `prefix_of` snd (login_cmd typ data p).
Proof. unfold login_cmd. destruct (decide (data = "")); [done|]. by apply prefix_app_r. Qed.

Lemma generic_cmds_prefix gs p : snd p `prefix_of` snd (foldl generic_cmd p gs).
Proof.
  revert p. induction gs as [|g gs IH]; intros p; simpl; [done|].
  etrans; [|apply IH]. by apply prefix_app_r.
Qed.

(** The shape of package 1: the session alert first, then the DevInfo. *)
Lemma packageOne_cmds_shape c :
  ∃ l1 l2 id, packageOne_cmds c =
    CAlert (plainAlert "1" AlertClientInitiated) :: l1 ++
    CReplace (mkReplace id false None None (devinfo_items (default ∅ (dev_DevInfo c)))) :: l2.
Proof.
  unfold packageOne_cmds, CmdIDs_Next. set (p0 := (_, [CAlert _])).
  cbv zeta beta iota. set (p1 := login_cmd _ _ (login_cmd _ _ p0)).
  assert (snd p0 `prefix_of` snd p1) as [l1 H1] by (etrans; apply login_cmd_prefix).
  match goal with |- context [foldl generic_cmd ?p ?l] =>
    destruct (generic_cmds_prefix l p) as [l2 ->] end.
  simpl. rewrite H1. eexists l1, l2, _. by rewrite <- !app_assoc.
Qed.

(** ** A whole answer *)

Lemma cons_neq_nil {A} (x : A) l : x :: l ≠ [].
Proof. done. Qed.

Lemma answer_loop_ans_ok c0 st0 pre req emit cmds needs a a' r :
  message_ok req →
  Forall (command_ok false) cmds →
  Forall (λ c, id_ok (Command_ID c)) (flatten_all cmds) →
  ans_ok c0 st0 pre a → answer_loop req emit cmds needs a = (a', r) → ans_ok c0 st0 pre a'.
Proof.
  intros Hreq Hc. revert needs a. induction Hc as [|cmd cmds Hc Hcs IH]; intros needs a Hid Ha.
  { by intros [= <- <-]. }
  unfold flatten_all in Hid. simpl in Hid. apply Forall_app in Hid as [Hid1 Hid2].
  assert (ans_ok c0 st0 pre (handleCommand req emit cmd a)) as Hh
    by by eapply handleCommand_ans_ok.
  destruct cmd; cbn [answer_loop];
  try (destruct (st_upload (an_st (handleCommand _ _ _ _))); [by apply IH|by intros [= <- <-]]).
  by apply IH.
Qed.

Lemma message_ids_ok m :
  message_ok m → Forall (λ c, id_ok (Command_ID c)) (flatten_all (Body_Commands (Msg_Body m))).
Proof.
  intros (_ & _ & _ & _ & Hf). rewrite Forall_map in Hf. eapply Forall_impl; [exact Hf|].
  intros c (? & ? & _). by split.
Qed.

Lemma device_ok_tree c t : device_ok c → t !! "" = None → device_ok (set_Tree t c).
Proof. intros [] ?. by constructor. Qed.

Lemma reply_message_ok c st cmds n final :
  device_ok c → st_sessionID st ≠ "" → 1 ≤ st_clientMsg st ≤ max_int64 →
  cmds_ok (n, cmds) → cmds ≠ [] → Z.of_nat (length cmds) ≤ max_int64 →
  message_ok (as_sent (mkMessage (dev_Namespace c) (header c st) (mkBody cmds final false))).
Proof.
  intros Hd Hs Hm (Hn & Hf & Hc) Hne Hl.
  split_and!; simpl; [by apply header_header_ok, wire_namespace_known|done|done|].
  by eapply numbered_fresh.
Qed.

(** The message that asks for the rest of the server's package. *)
Lemma next_message_cmds_ok req :
  message_ok req →
  cmds_ok (2, [CStatus (StatusForHeader req "1" StatusOK); CAlert (plainAlert "2" AlertNextMessage)]).
Proof.
  intros [Hh _]. split_and!; [done|by repeat constructor|]. constructor; [|constructor; [|done]].
  - simpl. unfold status_ok; simpl. split_and!; try done.
    + apply positive_int_nonempty, Hh.
    + unfold statusCmdNames. set_solver.
  - simpl. unfold alert_ok; simpl. split_and!; [done|done| |constructor]. by intros [|].
Qed.

Lemma header_status_ans_ok req c st :
  message_ok req → device_ok c → upload_ok st →
  let h := CStatus (StatusForHeader req (Itoa (wrap64 (0 + 1))) StatusOK) in
  ans_ok c st [h] (an_append (λ id, CStatus (StatusForHeader req id StatusOK)) (mkAns c st [] false 0)).
Proof.
  intros Hreq Hd Hu h. destruct (next_message_cmds_ok _ Hreq) as (_ & _ & Hs).
  apply Forall_inv in Hs. constructor; simpl.
  - exists (dev_Tree c). by destruct c.
  - done.
  - done.
  - by apply (numbered_snoc 0 []).
  - apply Hd.
  - by constructor; [|constructor].
  - by repeat constructor.
  - done.
Qed.

Lemma ans_reply_ok c st pre a final :
  device_ok c → st_sessionID st ≠ "" → 1 ≤ st_clientMsg st ≤ max_int64 → pre ≠ [] →
  ans_ok c st pre a → Z.of_nat (length (an_cmds a)) ≤ max_int64 →
  message_ok (as_sent (mkMessage (dev_Namespace c) (header c st) (mkBody (an_cmds a) final false))) ∧
  device_ok (an_dev a) ∧ upload_ok (an_st a) ∧ sess_hdr (an_st a) = sess_hdr st.
Proof.
  intros Hd Hs Hm Hp Ha Hl. split_and!; [|destruct (ao_dev _ _ _ _ Ha) as [t Ht]; rewrite Ht|apply Ha..].
  - apply (reply_message_ok _ _ _ (an_ids a)); [done..| | |done]; [by split_and!; apply Ha|].
    intros E. pose proof (ao_pre _ _ _ _ Ha) as Hpre. rewrite E in Hpre.
    by apply prefix_nil_inv in Hpre.
  - apply device_ok_tree; [done|]. pose proof (ao_tree _ _ _ _ Ha) as Htr. by rewrite Ht in Htr.
Qed.

(** What the device knows between two messages. *)
Definition state_ok (st : sessionState) : Prop :=
  st_sessionID st ≠ "" ∧ upload_ok st ∧ 0 ≤ st_clientMsg st < max_int64.

Lemma answer_reply_ok req c st c' st' m done :
  message_ok req → device_ok c → state_ok st →
  answer req c st = (c', st', Ok (Some m, done)) →
  Z.of_nat (length (Body_Commands (Msg_Body m))) ≤ max_int64 →
  message_ok (as_sent m) ∧ device_ok c' ∧ upload_ok st' ∧
  st_sessionID st' = st_sessionID st ∧ st_clientMsg st' = st_clientMsg st + 1.
Proof.
  intros Hreq Hd (Hs & Hu & Hm). unfold answer.
  pose proof (wrap64_small (st_clientMsg st + 1) ltac:(lia)) as Hw.
  destruct (List.find _ _) as [s|] eqn:Ef.
  - destruct (2 <? _); [done|]. unfold reAuth, packageOne. simpl. intros [= <- <- <- _] Hl.
    split_and!; [|done..]. simpl in Hl.
    destruct (packageOne_cmds_ok c Hd) as (n & Hn & Hf & Hc). simpl in *.
    split_and!; simpl; [|by destruct (packageOne_cmds_shape c) as (? & ? & ? & ->)|done|by eapply numbered_fresh].
    destruct (header_header_ok c (set_clientMsg (st_clientMsg st + 1) st) NamespaceSyncML12)
      as (_ & ? & ? & ? & ? & ? & ? & ? & ?); [done|done|simpl; lia|by left|].
    unfold header_ok; simpl in *. split; [apply wire_namespace_known|]. rewrite Hw. split_and!; try done.
    repeat match goal with |- context [if ?b then _ else _] => destruct b end;
      first [exact I|apply md5_cred_ok].
  - rewrite Hw. set (st1 := set_clientMsg _ st).
    pose proof (header_status_ans_ok req c st1 Hreq Hd Hu) as Ha. cbv zeta in Ha.
    set (a := an_append _ _) in *.
    assert (1 ≤ st_clientMsg st1 ≤ max_int64) as Hm1 by (simpl; lia).
    pose proof (λ x f, ans_reply_ok c st1 [CStatus (StatusForHeader req (Itoa (wrap64 (0 + 1)))
      StatusOK)] x f Hd Hs Hm1 (cons_neq_nil _ _)) as Hok.
    assert (∀ x, sess_hdr (an_st x) = sess_hdr st1 →
      st_sessionID (an_st x) = st_sessionID st ∧ st_clientMsg (an_st x) = st_clientMsg st + 1) as Hh.
    { intros x [= ?]. by split. }
    change (st_upload st1) with (st_upload st). destruct (st_upload st) as [|ch up] eqn:Eu.
    + destruct (answer_loop _ _ _ _ _) as [a' needs] eqn:El.
      eapply answer_loop_ans_ok in El; [|exact Hreq|apply Hreq|by apply message_ids_ok|exact Ha].
      pose proof (λ f, Hok a' f El) as Hok'.
      destruct (Body_Final (Msg_Body req)); simpl.
      * destruct (st_upload (an_st a')).
        { destruct needs; simpl; [|by intros [=]]. intros [= <- <- <- _] Hl.
          destruct (Hok' true Hl) as (? & ? & ? & ?). split_and!; [done..|by apply Hh|by apply Hh]. }
        intros [= <- <- <- _] Hl. destruct (Hok' false Hl) as (? & ? & ? & ?).
        split_and!; [done..|by apply Hh|by apply Hh].
      * intros [= <- <- <- _] Hl. destruct (ao_dev _ _ _ _ El) as [t Ht].
        split_and!; [| |apply El|apply Hh, El|apply Hh, El].
        { apply (reply_message_ok _ _ _ 2); [done|done|simpl; lia|by apply next_message_cmds_ok|done|done]. }
        rewrite Ht. apply device_ok_tree; [done|].
        pose proof (ao_tree _ _ _ _ El) as Htr. by rewrite Ht in Htr.
    + intros [= <- <- <- _] Hl.
      destruct (Hok (emitUpload a) (an_final (emitUpload a)) (emitUpload_ans_ok _ _ _ _ Hreq _ Ha) Hl)
        as (? & ? & ? & ?).
      split_and!; [done..|by apply Hh|by apply Hh].
Qed.
