(* ===== verification/SimTheorems.v ===== *)
(** * Theorems about the simulated device

    The replies are valid messages, every command of a package is answered by
    exactly one Status and has its effect on the device's tree, a challenge is
    met with the credential the server verifies, a large result is handed over
    in as many messages as it has chunks, and a session is bounded. *)
From stdpp Require Import base gmap strings list.
From Stdlib Require Import ZArith Lia Ascii.
From S2P Require Import Prelude GoStrings SyncmlModel LargeObject Validate Response.
From S2P Require Import Encode GoXml Decode SyncmlAuth MdmAuth SimDevice SimProofs.

Local Open Scope Z_scope.

(** ** One answer per command *)

(** The commands of a command in the order they are answered: a group after
    its members. *)
Fixpoint acked (c : Command) : list Command :=
  match c with
  | CAtomic _ _ _ cs | CSequence _ _ _ cs =>
      (fix all (cs : list Command) : list Command :=
         match cs with [] => [] | c :: cs => acked c ++ all cs end) cs ++ [c]
  | _ => [c]
  end.
Definition acked_all (cs : list Command) : list Command := concat (map acked cs).

Lemma acked_group_eq cs :
  (fix all (cs : list Command) : list Command :=
     match cs with [] => [] | c :: cs => acked c ++ all cs end) cs = acked_all cs.
Proof. induction cs as [|c cs IH]; [done|]. unfold acked_all in *; simpl. by rewrite IH. Qed.

(** What a message acknowledges: (MsgRef, CmdRef, Cmd) of its statuses. *)
Definition status_ref (c : Command) : option (string * string * string) :=
  match c with
  | CStatus s => Some (Status_MsgRef s, Status_CmdRef s, Status_Cmd s)
  | _ => None
  end.
Definition status_refs (cs : list Command) : list (string * string * string) :=
  omap status_ref cs.

Definition is_status (c : Command) : bool := match c with CStatus _ => true | _ => false end.

(** The commands of a message that need an answer. *)
Definition pending_cmds (m : Message) : list Command :=
  List.filter (λ c, negb (is_status c)) (Body_Commands (Msg_Body m)).

(** What one leaf command means for a tree of values. *)
Definition write_item (t : gmap string string) (it : Item) : gmap string string :=
  if decide (Item_Target it = "") then t
  else <[Item_Target it := Data_Text (Item_Data it)]> t.
Definition leaf_effect (t : gmap string string) (c : Command) : gmap string string :=
  match c with
  | CAdd b => foldl write_item t (Add_Items b)
  | CReplace b => foldl write_item t (Replace_Items b)
  | CDelete b => foldl (λ t it, delete (Item_Target it) t) t (Delete_Items b)
  | _ => t
  end.
Definition tree_effect (cs : list Command) (t : gmap string string) : gmap string string :=
  foldl leaf_effect t cs.

(** No item of the command is a chunk. *)
Definition whole_items (c : Command) : bool :=
  match c with
  | CAdd b => forallb (λ it, negb (Item_MoreData it)) (Add_Items b)
  | CReplace b => forallb (λ it, negb (Item_MoreData it)) (Replace_Items b)
  | _ => true
  end.

(** The reply went from [a] to [a'] by answering [acks], with the effect of
    [fl] on the tree. *)
Record answered (req : Message) (acks fl : list Command) (a a' : Ans) : Prop := mkAnswered {
  aw_refs : status_refs (an_cmds a') = status_refs (an_cmds a) ++
    map (λ c, (req_MsgID req, Command_ID c, Command_Name c)) acks;
  aw_tree : an_dev a' = set_Tree (tree_effect fl (dev_Tree (an_dev a))) (an_dev a);
  aw_asm : st_assembler (an_st a') = st_assembler (an_st a);
  aw_upload : st_upload (an_st a') = st_upload (an_st a);
  aw_seen : tr_ServerCommands (st_transcript (an_st a')) =
    tr_ServerCommands (st_transcript (an_st a)) ++ fl }.

Lemma status_refs_app l k : status_refs (l ++ k) = status_refs l ++ status_refs k.
Proof. apply omap_app. Qed.

Lemma set_Tree_Tree c : set_Tree (dev_Tree c) c = c.
Proof. by destruct c. Qed.

Lemma set_Tree_twice t u c : set_Tree t (set_Tree u c) = set_Tree t c.
Proof. done. Qed.

Lemma answered_trans req k1 k2 l1 l2 a b c :
  answered req k1 l1 a b → answered req k2 l2 b c → answered req (k1 ++ k2) (l1 ++ l2) a c.
Proof.
  intros [R1 T1 A1 U1 S1] [R2 T2 A2 U2 S2]. constructor.
  - by rewrite R2, R1, map_app, app_assoc.
  - rewrite T2, T1. simpl. unfold tree_effect. by rewrite foldl_app.
  - by rewrite A2.
  - by rewrite U2.
  - by rewrite S2, S1, app_assoc.
Qed.

Section answers.
Context (req : Message).

Lemma record_answered cmd a :
  leaf_effect (dev_Tree (an_dev a)) cmd = dev_Tree (an_dev a) →
  answered req [] [cmd] a (record_command cmd a).
Proof.
  intros E. constructor; simpl; [by rewrite app_nil_r| |done..].
  unfold tree_effect; simpl. by rewrite E, set_Tree_Tree.
Qed.

Lemma status_answered cmd code a : answered req [cmd] [] a (status req cmd code a).
Proof.
  unfold status, an_append, CmdIDs_Next. constructor; simpl; [|by rewrite set_Tree_Tree|done..|by rewrite app_nil_r].
  by rewrite status_refs_app.
Qed.

Lemma get_items_answered g code its a :
  dev_UploadChunkSize (an_dev a) ≤ 0 →
  ∃ a' code', get_items req g code its a = (a', Some code') ∧ answered req [] [] a a'.
Proof.
  revert code a. induction its as [|it its IH]; intros code a Hu; simpl.
  { exists a, code. split; [done|]. constructor; simpl; by rewrite ?app_nil_r, ?set_Tree_Tree. }
  destruct (dev_Tree (an_dev a) !! Item_Target it) as [v|]; [|by apply IH].
  unfold upload_chunks. replace (0 <? dev_UploadChunkSize (an_dev a)) with false
    by (symmetry; apply Z.ltb_ge; lia). simpl.
  edestruct IH as (a' & code' & -> & H); [|exists a', code'; split; [done|]]; [done|].
  eapply (answered_trans req [] [] [] []); [|exact H].
  constructor; simpl; rewrite ?app_nil_r, ?set_Tree_Tree; try done.
  rewrite status_refs_app. by rewrite app_nil_r.
Qed.

Lemma apply_items_tree its a :
  Asm_pending (st_assembler (an_st a)) = false →
  forallb (λ it, negb (Item_MoreData it)) its = true →
  foldl apply_item a its =
  mkAns (set_Tree (foldl write_item (dev_Tree (an_dev a)) its) (an_dev a)) (an_st a)
    (an_cmds a) (an_final a) (an_ids a).
Proof.
  revert a. induction its as [|it its IH]; intros a Hp Hm; simpl.
  { rewrite set_Tree_Tree. by destruct a. }
  simpl in Hm. apply andb_true_iff in Hm as [Hm1 Hm2].
  assert (apply_item a it = mkAns (set_Tree (write_item (dev_Tree (an_dev a)) it) (an_dev a))
    (an_st a) (an_cmds a) (an_final a) (an_ids a)) as ->; [|by rewrite IH].
  unfold apply_item, Assembler_Add. rewrite Hp. simpl. rewrite Hm1. unfold write_item.
  assert (an_session (set_assembler (st_assembler (an_st a))) a = a) as ->
    by (destruct a as [? [] ? ? ?]; done).
  destruct (decide (Item_Target it = "")); [|done]. rewrite set_Tree_Tree. by destruct a.
Qed.

Lemma applyItems_answered items cmd a :
  Asm_pending (st_assembler (an_st a)) = false →
  forallb (λ it, negb (Item_MoreData it)) items = true →
  (∀ t, leaf_effect t cmd = foldl write_item t items) →
  answered req [cmd] [cmd] a (applyItems req true items cmd (record_command cmd a)).
Proof.
  intros Hp Hm He. unfold applyItems. rewrite apply_items_tree by done.
  apply (answered_trans req [] [cmd] [cmd] [] _
    (mkAns (set_Tree (foldl write_item (dev_Tree (an_dev a)) items) (an_dev a))
      (an_st (record_command cmd a)) (an_cmds a) (an_final a) (an_ids a)));
    [|apply status_answered].
  constructor; simpl; [by rewrite app_nil_r| |done..].
  unfold tree_effect; simpl. by rewrite He.
Qed.

Lemma leaf_answered cmd a :
  leaf_effect (dev_Tree (an_dev a)) cmd = dev_Tree (an_dev a) →
  answered req [cmd] [cmd] a (status req cmd StatusOK (record_command cmd a)).
Proof.
  intros E. apply (answered_trans req [] [cmd] [cmd] [] _ (record_command cmd a));
  [by apply record_answered|apply status_answered].
Qed.

(** The conditions under which a message is answered at once: no transfer in
    either direction. *)
Definition settled_dev (a : Ans) : Prop :=
  Asm_pending (st_assembler (an_st a)) = false ∧ dev_UploadChunkSize (an_dev a) ≤ 0.

Lemma answered_settled acks fl a a' : answered req acks fl a a' → settled_dev a → settled_dev a'.
Proof. intros [_ T A _ _] [H1 H2]. split; [by rewrite A|by rewrite T]. Qed.

Lemma handleGroup_answered cs a :
  Forall (λ c, ∀ a, settled_dev a → forallb whole_items (flatten c) = true →
    answered req (acked c) (flatten c) a (handleCommand req true c a)) cs →
  settled_dev a → forallb whole_items (flatten_all cs) = true →
  answered req (acked_all cs) (flatten_all cs) a (handleGroup req true cs a).
Proof.
  intros Hc. revert a. induction Hc as [|c cs Hc _ IH]; intros a Ha Hw.
  { constructor; simpl; by rewrite ?app_nil_r, ?set_Tree_Tree. }
  unfold acked_all, flatten_all in *; simpl in *. rewrite forallb_app in Hw.
  apply andb_true_iff in Hw as [Hw1 Hw2].
  pose proof (Hc a Ha Hw1) as H1. eapply answered_trans; [exact H1|].
  apply IH; [by eapply answered_settled|done].
Qed.

Lemma group_answered c cs a :
  (∃ i n m, c = CAtomic i n m cs ∨ c = CSequence i n m cs) →
  Forall (λ c, ∀ a, settled_dev a → forallb whole_items (flatten c) = true →
    answered req (acked c) (flatten c) a (handleCommand req true c a)) cs →
  settled_dev a → forallb whole_items (flatten c) = true →
  answered req (acked c) (flatten c) a (handleCommand req true c a).
Proof.
  intros Hg Hcs Ha Hw.
  assert (flatten c = [c] ++ flatten_all cs ++ [] ∧ acked c = [] ++ acked_all cs ++ [c] ∧
    handleCommand req true c a =
      status req c StatusOK (handleGroup req true cs (record_command c a))) as (Ef & Ea & Eh).
  { destruct Hg as (i & n & m & [-> | ->]); simpl;
    by rewrite app_nil_r, flatten_group_eq, acked_group_eq, handleGroup_eq. }
  rewrite Ea, Eh. rewrite Ef in *. rewrite app_nil_r in Hw. simpl in Hw.
  apply andb_true_iff in Hw as [_ Hw].
  assert (answered req [] [c] a (record_command c a)) as Hr
    by (apply record_answered; by destruct Hg as (? & ? & ? & [-> | ->])).
  eapply answered_trans; [exact Hr|]. eapply answered_trans; [|apply status_answered].
  apply handleGroup_answered; [done|by eapply answered_settled|done].
Qed.

Lemma handleCommand_answered cmd a :
  settled_dev a → forallb whole_items (flatten cmd) = true →
  answered req (acked cmd) (flatten cmd) a (handleCommand req true cmd a).
Proof.
  revert a. induction cmd as [b|b|b|b|b|b|i n m cs IH|i n m cs IH|b|b] using Command_nested_ind;
  intros a Ha Hw.
  1,2: simpl in Hw; rewrite andb_true_r in Hw; apply applyItems_answered; [apply Ha|done|done].
  3,4,7,8: by apply leaf_answered.
  3,4: apply (group_answered _ cs); [eexists _, _, _; by (left + right)|done..].
  - cbn [handleCommand negb].
    apply (answered_trans req [] [CDelete b] [CDelete b] [] _
      (an_tree (λ t, foldl (λ t it, delete (Item_Target it) t) t (Delete_Items b))
         (record_command (CDelete b) a))); [|apply status_answered].
    constructor; simpl; [by rewrite app_nil_r|done..].
  - cbn [handleCommand negb].
    edestruct get_items_answered as (a' & code & -> & H); [|].
    2: { eapply (answered_trans req [] [CGet b] [CGet b] []); [|apply status_answered].
         apply (answered_trans req [] [] [CGet b] [] _ (record_command (CGet b) a)); [|exact H].
         by apply record_answered. }
    apply Ha.
Qed.

Lemma answer_loop_answered cmds needs a :
  settled_dev a → st_upload (an_st a) = [] →
  forallb whole_items (flatten_all (List.filter (λ c, negb (is_status c)) cmds)) = true →
  ∃ a', answer_loop req true cmds needs a =
          (a', needs || existsb (λ c, negb (is_status c)) cmds) ∧
    answered req (acked_all (List.filter (λ c, negb (is_status c)) cmds))
      (flatten_all (List.filter (λ c, negb (is_status c)) cmds)) a a'.
Proof.
  revert needs a. induction cmds as [|c cmds IH]; intros needs a Ha Hu Hw.
  { exists a. rewrite orb_false_r. split; [done|].
    constructor; simpl; by rewrite ?app_nil_r, ?set_Tree_Tree. }
  destruct (is_status c) eqn:Ec.
  { destruct c; try done. simpl in *. by apply IH. }
  cbn [List.filter existsb] in *. rewrite Ec in *. cbn [negb] in *.
  unfold flatten_all, acked_all in *. simpl in *. rewrite forallb_app in Hw.
  apply andb_true_iff in Hw as [Hw1 Hw2].
  pose proof (handleCommand_answered c a Ha Hw1) as H1.
  assert (st_upload (an_st (handleCommand req true c a)) = []) as Hu1
    by by rewrite (aw_upload _ _ _ _ _ H1).
  destruct (IH true _ (answered_settled _ _ _ _ H1 Ha) Hu1 Hw2) as (a' & E & H2).
  exists a'. split; [|by eapply answered_trans].
  rewrite orb_true_r. destruct c; try done; cbn [answer_loop]; by rewrite Hu1.
Qed.
End answers.

(** C17: A package of the server is answered command by command, by a device
    that sends its results whole (no upload chunk size): to a final message
    that carries commands, none of whose items is a chunk and whose statuses
    hold no challenge, received while no object is being transferred either
    way, the device replies with a final message whose statuses acknowledge
    the header and then every command exactly once, members before their
    group, and its tree is changed as the commands say in document order.  (A
    device that chunks its results leaves the rest of a package unanswered
    once a result is large.) *)
Theorem package_answered req c st :
  Body_Final (Msg_Body req) = true →
  List.find is_challenge (Body_Statuses (Msg_Body req)) = None →
  st_upload st = [] → Asm_pending (st_assembler st) = false → dev_UploadChunkSize c ≤ 0 →
  forallb whole_items (flatten_all (pending_cmds req)) = true →
  pending_cmds req ≠ [] →
  ∃ c' st' m, answer req c st = (c', st', Ok (Some m, false)) ∧
    status_refs (Body_Commands (Msg_Body m)) =
      (req_MsgID req, "0", CmdSyncHdr) ::
      map (λ k, (req_MsgID req, Command_ID k, Command_Name k)) (acked_all (pending_cmds req)) ∧
    Body_Final (Msg_Body m) = true ∧
    dev_Tree c' = tree_effect (flatten_all (pending_cmds req)) (dev_Tree c) ∧
    st_upload st' = [].
Proof.
  intros Hf Hc Hu Ha Hn Hw Hp. unfold answer. rewrite Hc.
  set (st1 := set_clientMsg _ st). change (st_upload st1) with (st_upload st). rewrite Hu, Hf.
  set (a := an_append _ _).
  destruct (answer_loop_answered req (Body_Commands (Msg_Body req)) false a) as (a' & El & Haw);
    [by split|done|done|].
  rewrite El. cbn [negb].
  replace (existsb (λ c, negb (is_status c)) (Body_Commands (Msg_Body req))) with true; last first.
  { unfold pending_cmds in Hp. clear -Hp. induction (Body_Commands (Msg_Body req)) as [|k l IH];
    [done|]. simpl in *. by destruct (is_status k); [apply IH|]. }
  rewrite (aw_upload _ _ _ _ _ Haw). change (st_upload (an_st a)) with (st_upload st). rewrite Hu.
  eexists _, _, _. split; [done|]. split_and!; simpl.
  - rewrite (aw_refs _ _ _ _ _ Haw). done.
  - done.
  - by rewrite (aw_tree _ _ _ _ _ Haw).
  - rewrite (aw_upload _ _ _ _ _ Haw). done.
Qed.

(** ** Challenges *)

Lemma packageOne_recognised ns h c :
  devinfo_items (default ∅ (dev_DevInfo c)) ≠ [] →
  IsPackageOne (mkMessage ns h (mkBody (packageOne_cmds c) true false)) = true.
Proof.
  intros Hd. unfold IsPackageOne, Body_HasAlert, Body_Alerts. cbn [Msg_Body Body_Commands].
  destruct (packageOne_cmds_shape c) as (l1 & l2 & id & ->). simpl.
  apply existsb_exists. exists (CReplace (mkReplace id false None None
    (devinfo_items (default ∅ (dev_DevInfo c))))). split.
  - apply in_app_iff. right. by left.
  - simpl. revert Hd. unfold devinfo_items. generalize (default ∅ (dev_DevInfo c)). intros info Hd.
    destruct (omap _ _) as [|it its] eqn:E; [done|]. cbn [existsb].
    assert (it ∈ it :: its) as Hin by apply list_elem_of_here. rewrite <- E in Hin.
    apply list_elem_of_omap in Hin as (leaf & Hleaf & Hl). destruct (info !! leaf); [|done].
    injection Hl as <-. clear E.
    repeat (apply elem_of_cons in Hleaf as [->|Hleaf]; [done|]). by apply elem_of_nil in Hleaf.
Qed.

(** The device's answer to a challenge: package 1 with the digest. *)
Lemma challenge_reauths req c st s nonce :
  List.find is_challenge (Body_Statuses (Msg_Body req)) = Some s →
  Status_Chal s = Some (NewMD5Chal nonce) → nonce ≠ "" →
  0 ≤ tr_Challenged (st_transcript st) < 2 → dev_Password c ≠ "" →
  ∃ st', answer req c st = (c, st', Ok (Some
    (with_id_cred (Itoa (wrap64 (st_clientMsg st + 1)))
       (Some (NewMD5Cred (MD5Digest (dev_Username c) (dev_Password c) nonce)))
       (snd (packageOne c (newState (st_sessionID st))))), false)).
Proof.
  intros Hf Hs Hn Hc Hp. unfold answer. rewrite Hf, Hs.
  assert (Chal_Nonce (Some (NewMD5Chal nonce)) = Ok nonce) as ->.
  { unfold Chal_Nonce, NewMD5Chal; simpl. rewrite decide_False by by apply b64_encode_nonempty.
    rewrite b64_decode_encode. destruct (Z.eqb_spec (len nonce) 0) as [E|]; [|done].
    by apply len_0 in E. }
  assert (0 < len nonce) as Hl.
  { pose proof (len_nonneg nonce). destruct (decide (len nonce = 0)) as [E|]; [|lia].
    by apply len_0 in E. }
  cbn [st_transcript set_challenge tr_Challenged tr_challenge].
  replace (2 <? wrap64 (tr_Challenged (st_transcript st) + 1)) with false; last first.
  { symmetry. apply Z.ltb_ge. rewrite wrap64_small; unfold max_int64; lia. }
  unfold reAuth, packageOne. cbn -[Itoa wrap64 MD5Digest packageOne_cmds].
  replace (0 <? len nonce) with true by (symmetry; by apply Z.ltb_lt).
  rewrite bool_decide_eq_false_2 by done. cbn -[Itoa wrap64 MD5Digest packageOne_cmds].
  by eexists.
Qed.

Lemma digest_verifies c id nonce :
  nonce ≠ "" → id_AuthType id = AuthDigest →
  id_CredentialHash id = CredentialHash (dev_Username c) (dev_Password c) →
  verifyCredential id (Some (NewMD5Cred (MD5Digest (dev_Username c) (dev_Password c) nonce))) nonce = true.
Proof.
  intros Hn Hid Hh. unfold verifyCredential. rewrite decide_True by done.
  cbn [NewMD5Cred Cred_Meta Cred_Data Meta_Type].
  rewrite bool_decide_true by done. destruct (Z.eqb_spec (len nonce) 0) as [E|_]; [by apply len_0 in E|].
  destruct (Z.eqb_spec (len (id_CredentialHash id)) 0) as [E|_].
  { apply len_0 in E. rewrite Hh in E. by apply md5_Sum_nonempty in E. }
  cbn [negb orb]. rewrite TrimSpace_id by apply b64_encode_ok.
  unfold VerifyMD5. rewrite Hh. by rewrite bool_decide_true.
Qed.

(** A challenge is met with what the server verifies: when the server
    answers with a digest challenge for a nonce, and holds the hash of the
    device's user name and password, the device's next message is package 1
    again, with the next message number and a credential the server's check
    accepts for that nonce. *)
Theorem challenge_answered req c st s nonce id :
  List.find is_challenge (Body_Statuses (Msg_Body req)) = Some s →
  Status_Chal s = Some (NewMD5Chal nonce) → nonce ≠ "" →
  0 ≤ tr_Challenged (st_transcript st) < 2 → dev_Password c ≠ "" →
  devinfo_items (default ∅ (dev_DevInfo c)) ≠ [] →
  id_AuthType id = AuthDigest →
  id_CredentialHash id = CredentialHash (dev_Username c) (dev_Password c) →
  ∃ st' m, answer req c st = (c, st', Ok (Some m, false)) ∧
    verifyCredential id (Hdr_Cred (Msg_Header m)) nonce = true ∧
    IsPackageOne m = true ∧
    Hdr_MsgID (Msg_Header m) = Itoa (wrap64 (st_clientMsg st + 1)) ∧
    Hdr_SessionID (Msg_Header m) = st_sessionID st.
Proof.
  intros Hf Hs Hn Hc Hp Hd Hid Hh. destruct (challenge_reauths req c st s nonce) as [st' E]; [done..|].
  eexists st', _. split; [exact E|]. split_and!; [by apply digest_verifies|by apply packageOne_recognised|done..].
Qed.

(** ** Large results *)

(** The replies to a run of server messages. *)
Fixpoint answers (c : Device) (st : sessionState) (reqs : list Message)
    : Device * sessionState * list Message :=
  match reqs with
  | [] => (c, st, [])
  | req :: reqs =>
      match answer req c st with
      | (c, st, Ok (Some m, _)) =>
          let '(c', st', ms) := answers c st reqs in (c', st', m :: ms)
      | (c, st, _) => (c, st, [])
      end
  end.

Definition results_items (m : Message) : list Item :=
  concat (omap (λ c, match c with CResults r => Some (Results_Items r) | _ => None end)
    (Body_Commands (Msg_Body m))).

Definition unchallenged (m : Message) : Prop :=
  List.find is_challenge (Body_Statuses (Msg_Body m)) = None.

(** Continuing a transfer: each message carries one chunk, the last one the
    Status of the Get. *)
Lemma upload_answers c st up msgRef cmdRef rs :
  st_upload st = up → up ≠ [] → st_uploadRef st = (msgRef, cmdRef) →
  Forall unchallenged rs → length rs = length up →
  ∃ st' ms, answers c st rs = (c, st', ms) ∧ st_upload st' = [] ∧
    concat (map results_items ms) = up ∧
    map (λ m, Body_Final (Msg_Body m)) ms = replicate (length up - 1) false ++ [true] ∧
    ∃ init m, ms = init ++ [m] ∧
      (msgRef, cmdRef, CmdGet) ∈ status_refs (Body_Commands (Msg_Body m)).
Proof.
  revert st up. induction rs as [|r rs IH]; intros st up Hu Hne Href Hr Hl.
  { by destruct up. }
  destruct up as [|ch up]; [done|]. inversion Hr as [|? ? Hr1 Hr2]; subst.
  injection Hl as Hl. cbn [answers]. unfold answer. rewrite Hr1.
  set (st1 := set_clientMsg _ st). change (st_upload st1) with (st_upload st). rewrite Hu.
  unfold emitUpload. cbn [an_append an_st CmdIDs_Next].
  change (st_upload st1) with (st_upload st). change (st_uploadRef st1) with (st_uploadRef st).
  rewrite Hu, Href. destruct up as [|ch2 up].
  - destruct rs; [|done]. cbn [answers]. eexists _, _. split; [done|]. split_and!; [done..|].
    eexists [], _. split; [done|]. simpl. set_solver.
  - edestruct (IH (set_upload (ch2 :: up) (st_uploadGet st1) (msgRef, cmdRef) st1) (ch2 :: up))
      as (st' & ms & Ea & Hu' & Hi & Hf & init & m & -> & Hm); [done..|].
    cbn -[answers]. cbn in Ea. rewrite Ea. eexists _, _. split; [done|]. split_and!.
    + done.
    + cbn [map concat]. by rewrite Hi.
    + cbn [map]. rewrite Hf. simpl. by rewrite Nat.sub_0_r.
    + eexists (_ :: init), m. split; [done|]. done.
Qed.

(** Every chunk holds at least one byte. *)
Lemma chunks_le_length it d maxb first full cs :
  chunking it d maxb first full cs → (length cs ≤ String.length full)%nat.
Proof.
  induction 1 as [first part Hp _|first part rest cs Hp _ _ _ IH]; simpl.
  - destruct part; [done|simpl; lia].
  - rewrite str_length_app. destruct part; [done|simpl; lia].
Qed.

Lemma answers_cons req reqs c st c1 st1 m d :
  answer req c st = (c1, st1, Ok (Some m, d)) →
  answers c st (req :: reqs) =
    (let '(c', st', ms) := answers c1 st1 reqs in (c', st', m :: ms)).
Proof. intros E. cbn [answers]. by rewrite E. Qed.

(** The message that starts a transfer. *)
Lemma upload_begins req c st g it v chunks :
  unchallenged req → Body_Final (Msg_Body req) = true →
  Body_Commands (Msg_Body req) = [CGet g] → Get_Items g = [it] →
  st_upload st = [] → dev_Tree c !! Item_Target it = Some v →
  upload_chunks c (get_item (Item_Target it) v) v = Some chunks →
  ∃ ch ch2 rest st' m, chunks = ch :: ch2 :: rest ∧
    answer req c st = (c, st', Ok (Some m, false)) ∧
    st_upload st' = ch2 :: rest ∧ st_uploadRef st' = (req_MsgID req, Get_CmdID g) ∧
    results_items m = [ch] ∧ Body_Final (Msg_Body m) = false.
Proof.
  intros Hc Hf Hcmds Hits Hu Ht Hch.
  assert (∃ ch ch2 rest, chunks = ch :: ch2 :: rest) as (ch & ch2 & rest & ->).
  { unfold upload_chunks in Hch. destruct (_ && _); [|done].
    destruct (SplitItem _ _) as [[|? [|? ?]]|]; try done. injection Hch as <-. eauto. }
  unfold answer. rewrite Hc, Hf, Hcmds.
  set (st1 := set_clientMsg _ st). change (st_upload st1) with (st_upload st). rewrite Hu.
  cbn -[Itoa wrap64 upload_chunks get_item header lookup get_items]. rewrite Hits.
  cbn -[Itoa wrap64 upload_chunks get_item header lookup]. rewrite Ht.
  cbn -[Itoa wrap64 upload_chunks get_item header lookup]. rewrite Hch.
  cbn -[Itoa wrap64 get_item header].
  eexists ch, ch2, rest, _, _. split; [done|]. split; [done|]. by split_and!.
Qed.

(** C37: A large result gets through.  The server asks, in a final message without
    a challenge that holds one Get of one node, for a value in UTF-8 that
    exceeds the device's chunk size (at least four bytes) and not the
    receiver's limit, while nothing is being uploaded.  Then the device needs
    exactly as many messages as the value has chunks, at most one per byte.
    Whatever messages without a challenge the server sends meanwhile, the
    Results of the device's messages are the chunks in order, only the last
    message is final and it carries the Status of the Get; a receiver that
    assembles them obtains the value of the node, and nothing is left to
    send. *)
Theorem large_result_delivered req c st g it v :
  unchallenged req → Body_Final (Msg_Body req) = true →
  Body_Commands (Msg_Body req) = [CGet g] → Get_Items g = [it] →
  st_upload st = [] → dev_Tree c !! Item_Target it = Some v →
  4 ≤ dev_UploadChunkSize c < len v → len v ≤ DefaultMaxSize → utf8_shape v = true →
  ∃ k, (0 < k ≤ String.length v)%nat ∧
    ∀ rs, Forall unchallenged rs → length rs = k →
    ∃ st' ms full, answers c st (req :: rs) = (c, st', ms) ∧ st_upload st' = [] ∧
      map (λ m, Body_Final (Msg_Body m)) ms = replicate k false ++ [true] ∧
      (∃ init m, ms = init ++ [m] ∧
         (req_MsgID req, Get_CmdID g, CmdGet) ∈ status_refs (Body_Commands (Msg_Body m))) ∧
      feed (newAssembler 0) (concat (map results_items ms)) =
        (newAssembler 0, replicate k (Ok (Item0, false)) ++ [Ok (full, true)]) ∧
      Item_Source full = Item_Target it ∧ item_value full = v.
Proof.
  intros Hc Hf Hcmds Hits Hu Ht Hn Hmax Hshape.
  set (item := get_item (Item_Target it) v).
  destruct (split_total item (dev_UploadChunkSize c)) as (chunks & Hs & Hne); [lia|done|done|].
  destruct (split_chunking item (DataValue v) (dev_UploadChunkSize c) chunks) as (_ & _ & Hck);
    [done|done|simpl; lia|done|].
  pose proof (split_feed item (DataValue v) (dev_UploadChunkSize c) chunks 0 eq_refl eq_refl) as Hfeed.
  cbn [Data_Value DataValue] in Hfeed. specialize (Hfeed ltac:(lia) Hmax Hs).
  assert (upload_chunks c item v = Some chunks) as Hup.
  { unfold upload_chunks. replace (0 <? dev_UploadChunkSize c) with true by (symmetry; apply Z.ltb_lt; lia).
    replace (dev_UploadChunkSize c <? len v) with true by (symmetry; apply Z.ltb_lt; lia). simpl.
    rewrite Hs. destruct chunks as [|k0 [|k1 ks]]; [done| |done].
    exfalso. pose proof (chunking_concat _ _ _ _ _ _ Hck) as E.
    pose proof (chunking_bound _ _ _ _ _ _ Hck) as Hb. apply Forall_inv in Hb as [_ Hb].
    simpl in E. rewrite str_app_nil_r in E. rewrite E in Hb. unfold len in *. simpl in *. lia. }
  destruct (upload_begins req c st g it v chunks Hc Hf Hcmds Hits Hu Ht Hup)
    as (ch & ch2 & rest & st1 & m1 & -> & Ea & Hu1 & Href & Hi1 & Hf1).
  exists (length (ch2 :: rest)). split.
  { split; [simpl; lia|]. pose proof (chunks_le_length _ _ _ _ _ _ Hck). simpl in *. lia. }
  intros rs Hrs Hl.
  destruct (upload_answers c st1 (ch2 :: rest) (req_MsgID req) (Get_CmdID g) rs Hu1)
    as (st' & ms & Eas & Hu' & Hi & Hfin & init & m & Em & Hm); [done..|].
  rewrite (answers_cons _ _ _ _ _ _ _ _ Ea), Eas.
  exists st', (m1 :: ms), (reassembled item (DataValue v)). split_and!; [done|done| | | |done|done].
  - cbn [map]. rewrite Hf1, Hfin. simpl. by rewrite Nat.sub_0_r.
  - exists (m1 :: init), m. by rewrite Em.
  - cbn [map concat]. rewrite Hi1, Hi. cbn [app]. rewrite Hfeed. simpl. done.
Qed.

(** ** Sessions *)

(** What answering commands leaves alone in the transcript. *)
Definition counters (st : sessionState) : Z * Z * bool :=
  let t := st_transcript st in (tr_Messages t, tr_Challenged t, tr_Ended t).

Definition same_counters (a a' : Ans) : Prop := counters (an_st a') = counters (an_st a).

Lemma emitUpload_counters a : same_counters a (emitUpload a).
Proof.
  unfold emitUpload, same_counters. destruct (st_upload (an_st a)) as [|ch rest]; [done|].
  destruct (st_uploadRef (an_st a)). by destruct rest.
Qed.

Lemma get_items_counters req g code its a a' r :
  get_items req g code its a = (a', r) → same_counters a a'.
Proof.
  revert code a. induction its as [|it its IH]; intros code a; simpl; [by intros [= <- _]|].
  destruct (dev_Tree (an_dev a) !! Item_Target it); [|apply IH].
  destruct (upload_chunks _ _ _); [|by intros H%IH].
  intros [= <- _]. unfold same_counters. by rewrite emitUpload_counters.
Qed.

Lemma apply_items_counters its a : same_counters a (foldl apply_item a its).
Proof.
  revert a. induction its as [|it its IH]; intros a; [done|]. simpl. unfold same_counters in *.
  rewrite IH. unfold apply_item. destruct (Assembler_Add _ _) as [asm [[full []]|]]; try done.
  by destruct (decide _).
Qed.

Lemma group_counters req emit cs a :
  Forall (λ c, ∀ a, same_counters a (handleCommand req emit c a)) cs →
  same_counters a (handleGroup req emit cs a).
Proof.
  intros H. revert a. induction H as [|c cs Hc _ IH]; intros a; [done|].
  unfold handleGroup, same_counters in *. simpl. etrans; [apply IH|apply Hc].
Qed.

Lemma handleCommand_counters req emit cmd a : same_counters a (handleCommand req emit cmd a).
Proof.
  revert a. induction cmd as [b|b|b|b|b|b|i n m cs IH|i n m cs IH|b|b] using Command_nested_ind;
  intros a; cbn [handleCommand].
  1,2: unfold applyItems, same_counters; destruct emit; apply (apply_items_counters _ (record_command _ a)).
  1,3,4,7,8: by destruct emit.
  - destruct emit; [|done]. cbn [negb]. destruct (get_items _ _ _ _ _) as [a' [code|]] eqn:E;
    apply get_items_counters in E; unfold same_counters in *; [|done].
    unfold status, an_append, CmdIDs_Next. by simpl.
  - rewrite handleGroup_eq. pose proof (group_counters req emit cs (record_command (CAtomic i n m cs) a) IH).
    by destruct emit.
  - rewrite handleGroup_eq. pose proof (group_counters req emit cs (record_command (CSequence i n m cs) a) IH).
    by destruct emit.
Qed.

Lemma answer_loop_counters req emit cmds needs a a' r :
  answer_loop req emit cmds needs a = (a', r) → same_counters a a'.
Proof.
  revert needs a. induction cmds as [|c cmds IH]; intros needs a; [by intros [= <- _]|].
  pose proof (handleCommand_counters req emit c a) as Hc.
  destruct c; cbn [answer_loop]; try apply IH;
  (destruct (st_upload _); [intros H%IH; unfold same_counters in *; by rewrite H|by intros [= <- _]]).
Qed.

(** A message changes the counters only by a challenge, and the third
    challenge ends the session. *)
Lemma answer_counters req c st c' st' r :
  answer req c st = (c', st', r) → 0 ≤ tr_Challenged (st_transcript st) ≤ 2 →
  tr_Messages (st_transcript st') = tr_Messages (st_transcript st) ∧
  tr_Ended (st_transcript st') = tr_Ended (st_transcript st) ∧
  0 ≤ tr_Challenged (st_transcript st') ≤ 3 ∧
  (is_ok r = true → tr_Challenged (st_transcript st') ≤ 2).
Proof.
  intros E Hc. unfold answer in E. destruct (List.find _ _) as [s|].
  - cbn [st_transcript set_challenge tr_Challenged tr_challenge] in E.
    rewrite wrap64_small in E by (unfold max_int64; lia).
    destruct (Z.ltb_spec 2 (tr_Challenged (st_transcript st) + 1)).
    + injection E as <- <- <-. simpl. rewrite wrap64_small by (unfold max_int64; lia).
      split_and!; [done|done|lia|lia|done].
    + injection E as <- <- <-. simpl. rewrite wrap64_small by (unfold max_int64; lia).
      split_and!; [done|done|lia|lia|lia].
  - assert (counters st' = counters st) as Hk.
    { change (counters st) with (counters (set_clientMsg (wrap64 (st_clientMsg st + 1)) st)).
      set (st1 := set_clientMsg _ st) in *. set (a := an_append _ _) in *.
      change (counters st1) with (counters (an_st a)).
      destruct (st_upload st1) as [|ch up].
      - destruct (answer_loop _ _ _ _ _) as [a' needs] eqn:El. apply answer_loop_counters in El.
        destruct (negb _); [by injection E as _ <- _|].
        destruct (st_upload (an_st a')); [|by injection E as _ <- _].
        destruct (negb needs); by injection E as _ <- _.
      - injection E as _ <- _. apply emitUpload_counters. }
    injection Hk as -> -> ->. split_and!; [done|done|lia|lia|lia].
Qed.

Section session.
Context `{NameTables} {Srv : Type} (Do : HTTPRequest → Srv → Srv * result HTTPResponse).

(** What holds of a session after [n] messages while it goes on. *)
Definition running (n : Z) (s : SimState (Srv := Srv)) : Prop :=
  let t := st_transcript (sim_st s) in
  tr_Messages t = n ∧ tr_Ended t = false ∧ 0 ≤ tr_Challenged t ≤ 2.

Lemma session_step_running n req s s' r :
  0 ≤ n < 64 → running n s → session_step Do req s = (s', r) →
  match r with
  | inl _ => running (n + 1) s'
  | inr r =>
      let t := st_transcript (sim_st s') in
      n ≤ tr_Messages t ≤ n + 1 ∧ tr_Ended t = is_ok r ∧ 0 ≤ tr_Challenged t ≤ 3
  end.
Proof.
  intros Hn (Hm & He & Hc). unfold session_step.
  destruct (exchange _ _ _ _) as [srv [[resp|]|e]].
  - destruct (answer _ _ _) as [[c st] r'] eqn:Ea. apply answer_counters in Ea; [|done].
    cbn [st_transcript on_transcript tr_Messages tr_message tr_Ended] in Ea.
    rewrite Hm, He, wrap64_small in Ea by (unfold max_int64; lia).
    destruct Ea as (E1 & E2 & E3 & E4).
    destruct r' as [[[next|] []]|e]; intros [= <- <-]; simpl;
      rewrite ?E1, ?E2; unfold running; simpl; rewrite ?E1, ?E2; split_and!; try done; try lia;
      by apply E4.
  - intros [= <- <-]. cbn -[wrap64 Z.le]. rewrite Hm, wrap64_small by (unfold max_int64; lia).
    split_and!; [lia..|done|lia|lia].
  - intros [= <- <-]. cbn -[Z.le]. rewrite Hm, He. split_and!; [lia..|done|lia|lia].
Qed.

Lemma session_loop_bounded turns n req s s' r :
  n + Z.of_nat turns = 64 → 0 ≤ n → running n s → session_loop Do turns req s = (s', r) →
  let t := st_transcript (sim_st s') in
  tr_Messages t ≤ 64 ∧ tr_Ended t = is_ok r ∧ tr_Challenged t ≤ 3.
Proof.
  revert n req s. induction turns as [|turns IH]; intros n req s Hn H0 Hr.
  { intros [= <- <-]. destruct Hr as (E1 & E2 & ?). cbv zeta. rewrite E1, E2. split_and!; [lia|done|lia]. }
  cbn [session_loop]. destruct (session_step Do req s) as [s1 r1] eqn:Es.
  apply (session_step_running n) in Es; [|lia|done]. destruct r1 as [next|r1].
  - apply (IH (n + 1)); [lia|lia|done].
  - intros [= <- <-]. destruct Es as (? & ? & ?). split_and!; [lia|done|lia].
Qed.

(** A session is bounded whatever the server does: after at most 64
    messages and three challenges [RunSession] returns, and the transcript says
    the session ended exactly when it returns without an error. *)
Theorem session_bounded c sessionID srv s r :
  RunSession Do c sessionID srv = (s, r) →
  let t := st_transcript (sim_st s) in
  tr_Messages t ≤ 64 ∧ tr_Ended t = is_ok r ∧ tr_Challenged t ≤ 3.
Proof.
  unfold RunSession. apply (session_loop_bounded maxMessages 0); [done|done|].
  by split_and!.
Qed.
End session.

Lemma answer_MsgID req c st c' st' m d :
  answer req c st = (c', st', Ok (Some m, d)) →
  Hdr_MsgID (Msg_Header m) = Itoa (wrap64 (st_clientMsg st + 1)).
Proof.
  unfold answer. destruct (List.find _ _).
  - destruct (2 <? _); [done|]. by intros [= _ _ <- _].
  - set (st1 := set_clientMsg _ st). destruct (st_upload st1).
    + destruct (answer_loop _ _ _ _ _) as [a needs].
      destruct (negb _); [by intros [= _ _ <- _]|].
      destruct (st_upload (an_st a)); [|by intros [= _ _ <- _]].
      destruct (negb needs); [done|by intros [= _ _ <- _]].
    + by intros [= _ _ <- _].
Qed.

(** C18: Every message of the device is one the server accepts.  Take a device
    with a management address and a device id, at least one DevInfo leaf, no
    value at the empty address and generic alerts that have a type and a known
    format, in a session with an id, a pending upload that is sound and a
    message number below the largest integer.  Whatever valid message it
    answers, if it replies at all, the reply as it is written (with the
    namespace Encode gives it) obeys all the rules of the protocol that
    Validate checks and carries the next message number; and the device and
    its session meet these conditions again for the next message, as long as
    there is a next number.  (The reply has fewer than 2^63 commands.) *)
Theorem device_reply_valid req c st c' st' m d :
  message_ok req → device_ok c → state_ok st →
  answer req c st = (c', st', Ok (Some m, d)) →
  Z.of_nat (length (Body_Commands (Msg_Body m))) ≤ max_int64 →
  Validate (as_sent m) = [] ∧ Marshal (as_sent m) = Marshal m ∧
  Hdr_MsgID (Msg_Header m) = Itoa (st_clientMsg st + 1) ∧
  st_clientMsg st' = st_clientMsg st + 1 ∧
  device_ok c' ∧ (st_clientMsg st' < max_int64 → state_ok st').
Proof.
  intros Hreq Hd Hs Ha Hl.
  destruct (answer_reply_ok _ _ _ _ _ _ _ Hreq Hd Hs Ha Hl) as (? & ? & ? & Hid & Hn).
  destruct Hs as (Hne & _ & Hm).
  split_and!; [by apply Validate_iff|apply Marshal_as_sent| |done|done|].
  - rewrite (answer_MsgID _ _ _ _ _ _ _ Ha). by rewrite wrap64_small by lia.
  - intros Hlt. split_and!; [by rewrite Hid|done|lia|done].
Qed.

(** ** Examples *)

Definition sim_device : Device :=
  defaults (mkDevice "https://mdm.example/manage" "dev-1" "Bruce2" "OhBehave" None "user" ""
    (list_to_map [("./A/B", "0123456789")]) NamespaceSyncML12 0 "" [] 0).
Definition sim_chunked : Device :=
  mkDevice "https://mdm.example/manage" "dev-1" "Bruce2" "OhBehave" None "user" ""
    (list_to_map [("./A/B", "0123456789")]) NamespaceSyncML12 0 "" [] 4.

Definition sim_server_msg (cmds : list Command) : Message :=
  mkMessage NamespaceSyncML12
    (mkHeader VerDTD VerProto "1" "1" (mkLocation "dev-1" "") (mkLocation "https://mdm.example/manage" "")
       "" false None None) (mkBody cmds true false).
Definition sim_get : Get :=
  mkGet "5" false "" None None [mkItem "./A/B" "" None None false].
Definition sim_request : Message :=
  sim_server_msg [CGet sim_get;
    CAtomic "6" false None
      [CReplace (mkReplace "7" false None None
         [mkItem "./A/C" "" None (Some (DataValue "x")) false]);
       CDelete (mkDelete "8" false None None [mkItem "./A/B" "" None None false])]].
Definition sim_challenge : Status :=
  mkStatus "1" "1" "0" CmdSyncHdr [] [] None (Some (NewMD5Chal "Nonce"))
    (DataValue (StatusCode_Wire StatusAuthenticationRequired)) [].

Lemma package_answered_witness :
  ∃ c' st' m, answer sim_request sim_device (newState "1") = (c', st', Ok (Some m, false)) ∧
    status_refs (Body_Commands (Msg_Body m)) =
      [("1", "0", "SyncHdr"); ("1", "5", "Get"); ("1", "7", "Replace"); ("1", "8", "Delete");
       ("1", "6", "Atomic")] ∧
    dev_Tree c' = tree_effect (flatten_all (pending_cmds sim_request)) (dev_Tree sim_device).
Proof.
  destruct (package_answered sim_request sim_device (newState "1")) as (c' & st' & m & E & R & _ & T & _);
    try reflexivity; try discriminate.
  exists c', st', m. split; [exact E|]. split; [exact R|exact T].
Defined.

Lemma challenge_answered_witness :
  ∃ st' m, answer (sim_server_msg [CStatus sim_challenge]) sim_device (newState "1") =
      (sim_device, st', Ok (Some m, false)) ∧
    verifyCredential (mkIdentity "dev-1" "key" "" AuthDigest (CredentialHash "Bruce2" "OhBehave"))
      (Hdr_Cred (Msg_Header m)) "Nonce" = true.
Proof.
  destruct (challenge_answered (sim_server_msg [CStatus sim_challenge]) sim_device (newState "1")
    sim_challenge "Nonce" (mkIdentity "dev-1" "key" "" AuthDigest (CredentialHash "Bruce2" "OhBehave")))
    as (st' & m & E & V & _); try reflexivity; try discriminate.
  - simpl. lia.
  - exists st', m. split; [exact E|exact V].
Defined.

Lemma large_result_delivered_witness :
  ∃ k, (0 < k ≤ 10)%nat ∧
    ∀ rs, Forall unchallenged rs → length rs = k →
    ∃ st' ms full, answers sim_chunked (newState "1") (sim_server_msg [CGet sim_get] :: rs) =
        (sim_chunked, st', ms) ∧ st_upload st' = [] ∧
      map (λ m, Body_Final (Msg_Body m)) ms = replicate k false ++ [true] ∧
      (∃ init m, ms = init ++ [m] ∧
         ("1", "5", "Get") ∈ status_refs (Body_Commands (Msg_Body m))) ∧
      feed (newAssembler 0) (concat (map results_items ms)) =
        (newAssembler 0, replicate k (Ok (Item0, false)) ++ [Ok (full, true)]) ∧
      Item_Source full = "./A/B" ∧ item_value full = "0123456789".
Proof.
  apply (large_result_delivered (sim_server_msg [CGet sim_get]) sim_chunked (newState "1") sim_get
    (mkItem "./A/B" "" None None false) "0123456789"); try reflexivity.
  - split; reflexivity || discriminate.
  - vm_compute. discriminate.
Defined.

(** A server that ends every session with an empty 200. *)
Definition sim_server (r : HTTPRequest) (n : nat) : nat * result HTTPResponse :=
  (S n, Ok (mkHTTPResponse 200 [] 0 (Ok ""))).

Lemma session_bounded_witness :
  let t := st_transcript (sim_st (fst (RunSession (H := ascii_names) sim_server sim_device "1" 0%nat))) in
  tr_Messages t ≤ 64 ∧
  tr_Ended t = is_ok (snd (RunSession (H := ascii_names) sim_server sim_device "1" 0%nat)) ∧
  tr_Challenged t ≤ 3.
Proof.
  apply (session_bounded (H := ascii_names) sim_server sim_device "1" 0%nat).
  apply surjective_pairing.
Defined.

(** The default device names no namespace. *)
Definition sim_default : Device :=
  defaults (mkDevice "https://mdm.example/manage" "dev-1" "" "" None "" "" ∅ "" 0 "" [] 0).

Lemma device_reply_valid_witness :
  match answer sim_request sim_default (newState "1") with
  | (_, st', Ok (Some m, _)) => Validate (as_sent m) = [] ∧ Hdr_MsgID (Msg_Header m) = "1" ∧ state_ok st'
  | _ => False
  end.
Proof.
  destruct (answer sim_request sim_default (newState "1")) as [[c' st'] [[[m|] d]|]] eqn:E.
  2,3: vm_compute in E; discriminate E.
  edestruct (device_reply_valid sim_request sim_default (newState "1") c' st' m d)
    as (V & _ & I & Hn & _ & Hs); [| | |exact E| |split; [exact V|split; [exact I|]]].
  - apply Validate_iff. vm_compute. reflexivity.
  - constructor; try discriminate; try reflexivity; constructor.
  - split; [discriminate|]. split; [split; [constructor|intros F; exfalso; apply F; reflexivity]|].
    split; reflexivity || discriminate.
  - vm_compute in E. injection E as _ _ <- _. vm_compute. discriminate.
  - apply Hs. rewrite Hn. reflexivity.
Defined.

(** The commands after a Get whose result is sent in chunks are not answered
    when the transfer is over: the last message acknowledges the Get only. *)
Example rest_of_package_unanswered :
  let req := sim_server_msg [CGet sim_get;
    CDelete (mkDelete "9" false None None [mkItem "./A/B" "" None None false])] in
  let '(_, st, ms) := answers sim_chunked (newState "1")
    [req; sim_server_msg []; sim_server_msg []] in
  st_upload st = [] ∧ map (λ m, Body_Final (Msg_Body m)) ms = [false; false; true] ∧
  concat (map (λ m, status_refs (Body_Commands (Msg_Body m))) ms) =
    [("1", "0", "SyncHdr"); ("1", "0", "SyncHdr"); ("1", "0", "SyncHdr"); ("1", "5", "Get")].
Proof. vm_compute. repeat split. Qed.

(** A session abort from the server is acknowledged like any other alert; it
    does not end the session. *)
Example server_abort_acknowledged :
  match answer (sim_server_msg [CAlert (plainAlert "5" AlertSessionAbort)]) sim_device (newState "1") with
  | (_, _, Ok (Some m, d)) =>
      d = false ∧ status_refs (Body_Commands (Msg_Body m)) = [("1", "0", "SyncHdr"); ("1", "5", "Alert")]
  | _ => False
  end.
Proof. vm_compute. repeat split. Qed.
