(* ===== verification/MdmLogin.v ===== *)
(** * A device logs in

    The simulated device against the management endpoint, over the bytes both
    put on the wire: its first message is challenged, and its answer to the
    challenge is trusted. *)
From stdpp Require Import base gmap strings list.
From Stdlib Require Import ZArith Lia Ascii ZifyBool.
From S2P Require Import Prelude GoStrings SyncmlModel Validate Response SyncmlAuth Encode Utf8 GoXml Decode.
From S2P Require Import DecodeProofs DecodeTheorems StateStore MdmAuth MdmQueue MdmSession MdmEngine MdmEngineProofs.
From S2P Require Import MdmEngineTheorems InmemQueue MdmHttp SimDevice SimProofs SimTheorems.

Local Open Scope Z_scope.
(** [Marshal] is unfolded to [Encode], and [Encode] no further. *)
Local Strategy 100 [Encode].

(** ** The wire *)

Section wire.
Context `{NameTables} `{MimeParser} {Q : Type} `{CommandQueueLaws Q}.
Context (cfg : Config) (rand : Z → option string) (order : gmap string pendingResult → list string).
(** How net/url reads the query of an address. *)
Context (query : string → list (string * string)).

(** The endpoint as the device's HTTP client sees it, at an instant. *)
Definition served (r : MReply) : HTTPResponse :=
  match r with
  | MError status _ => mkHTTPResponse status [] 0 (Ok "")
  | MAnswer body => mkHTTPResponse 200 [] (len body) (Ok body)
  end.
Definition mdm_Do (now : Time) (q : HTTPRequest) (w : World Q) : World Q * result HTTPResponse :=
  let '(w, (r, _)) := ServeHTTP cfg now rand order
    (mkMRequest (hq_Method q) (query (hq_URL q)) (hq_Header q) None (Some (hq_Body q))) w in
  (w, Ok (served r)).

(** The transport of the device's requests. *)
Definition device_transport (c : Device) : Transport :=
  mkTransport (dev_Mode c) "WoA" "MSFT OMA DM Client/1.2.0.1" "" "" "" [] "" "" "" ContentTypeXML [] [].

(** The device's address is read as it was written. *)
Record endpoint_ok (c : Device) : Prop := mk_endpoint_ok {
  eo_query : query (dev_ManagementURL c +:+ "?mode=" +:+ dev_Mode c +:+ "&Platform=WoA") =
    [("mode", dev_Mode c); ("Platform", "WoA")];
  eo_mode : dev_Mode c = ModeMaintenance ∨ dev_Mode c = ModeMachine;
  eo_mime : ParseMediaType ContentTypeXML = Some ContentTypeXML;
  eo_limit : 0 < cfg_MaxRequestSize cfg < 2 ^ 63 - 1 }.

Lemma device_transport_parsed c body :
  endpoint_ok c →
  ParseTransport (mkMRequest "POST" (query (hq_URL (dm_request c body))) (hq_Header (dm_request c body)) None
    (Some body)) = Ok (device_transport c).
Proof.
  intros [Hq Hm Ht _]. unfold ParseTransport, dm_request. cbn [mq_Query mq_Header mq_TLS hq_URL hq_Header default].
  rewrite Hq. unfold parseQuery, query_Get. cbn [List.find fst snd].
  rewrite bool_decide_true by done. cbn [fst snd].
  rewrite decide_True by (right; exact Hm). cbn [result_bind]. unfold content_type.
  change (header_Get "Content-Type" _) with ContentTypeXML. rewrite decide_False by done. rewrite Ht.
  rewrite decide_True by (by left). cbn [result_bind fst snd]. reflexivity.
Qed.

(** A request of the device that decodes is handled. *)
Lemma endpoint_handles now c b m w :
  endpoint_ok c → len b ≤ cfg_MaxRequestSize cfg →
  Decode b (mkDecodeOptions (cfg_MaxRequestSize cfg)) = Ok m →
  mdm_Do now (dm_request c b) w =
  match Handle cfg now rand order m (Some (device_transport c)) w with
  | (w', Ok out) => (w', Ok (served (MAnswer (default "" out))))
  | (w', Err e) => (w', Ok (served (MError (statusFor e) None)))
  end.
Proof.
  intros Hep Hl Ed. destruct (eo_limit c Hep) as [Hlo Hhi]. unfold mdm_Do, ServeHTTP.
  change (hq_Method (dm_request c b)) with "POST". change (hq_Body (dm_request c b)) with b.
  cbn [mq_Method]. change (negb (bool_decide ("POST" = "POST"))) with false. cbn iota.
  rewrite device_transport_parsed by done. cbn [mq_Body].
  rewrite wrap64_id by (unfold in_int64, min_int64, max_int64; lia).
  rewrite stake_over by (unfold len in Hl; lia).
  destruct (Z.ltb_spec (cfg_MaxRequestSize cfg) (len b)); [lia|].
  unfold Handle_body. rewrite Ed.
  by destruct (Handle cfg now rand order m (Some (device_transport c)) w) as [w' [out|e]].
Qed.

Lemma error_read e : read_response (served (MError (statusFor e) None)) = Err [simulator_ErrSession].
Proof.
  unfold read_response, served. cbn [hr_Body hr_TransferEncoding hr_StatusCode].
  rewrite bool_decide_false by (by apply not_elem_of_nil).
  by unfold statusFor; destruct (errors_Is e mdm_ErrUnenrolled); [|destruct (existsb _ _)].
Qed.

(** A message that goes over the wire as it is: canonical, of a protocol name
    space, and no longer than either end reads. *)
Record wire_ok (limit : Z) (m : Message) : Prop := mk_wire_ok {
  wo_canon : message_canon m = true;
  wo_ns : Msg_Namespace m = NamespaceSyncML12 ∨ Msg_Namespace m = NamespaceSyncML11;
  wo_size : len (render "" 0 (x_message m)) ≤ limit }.

Lemma wire_ok_Decode limit m opts :
  wire_ok limit m → limit = (if do_MaxSize opts <=? 0 then DefaultMaxSize else do_MaxSize opts) →
  Decode (render "" 0 (x_message m)) opts = Ok m.
Proof.
  intros [Hc Hns Hl] ->. rewrite Decode_Encode by done.
  replace (wire_namespace m) with (Msg_Namespace m) by (unfold wire_namespace; by destruct Hns as [E|E]; rewrite E).
  by destruct m.
Qed.

(** What travels, abstractly: the bytes of a message and how they read. *)
Definition travels (limit : Z) (m : Message) (b : string) : Prop :=
  Marshal m = Ok b ∧ (∃ t, b = "<" +:+ t +:+ ">") ∧ len b ≤ limit ∧
  ∀ opts, limit = (if do_MaxSize opts <=? 0 then DefaultMaxSize else do_MaxSize opts) → Decode b opts = Ok m.

Lemma message_bracketed m : ∃ t, render "" 0 (x_message m) = "<" +:+ t +:+ ">".
Proof.
  unfold x_message. generalize [x_header (Msg_Header m); x_body (Msg_Body m)]. intros xs. cbn [render].
  change (line_pad "" 0) with "". change (line_end "") with "". rewrite ?str_app_nil_l, ?str_app_nil_r.
  generalize (str_concat (map (render "" (0 + 1)) xs)) (render_attrs [mkAttr "xmlns" (wire_namespace m)]).
  intros u a. exists ("SyncML" +:+ a +:+ ">" +:+ u +:+ "</SyncML"). by rewrite <- !str_app_assoc.
Qed.

Lemma wire_ok_travels limit m : wire_ok limit m → ∃ b, travels limit m b.
Proof.
  intros Hw. exists (render "" 0 (x_message m)). split_and!.
  - exact (Marshal_render m data_ok data_ok_clean (wo_canon _ _ Hw)).
  - apply message_bracketed.
  - exact (wo_size _ _ Hw).
  - intros opts. by apply wire_ok_Decode.
Qed.

(** A reply that travels is read by the device. *)
Lemma reply_read m b : travels DefaultMaxSize m b → read_response (served (MAnswer b)) = Ok (Some m).
Proof.
  intros (_ & Hb & Hl & Ed). unfold read_response, served. cbn [hr_Body hr_TransferEncoding hr_StatusCode].
  rewrite bool_decide_false by (by apply not_elem_of_nil). cbn [Z.eqb negb Pos.eqb].
  unfold limit_read. destruct (Z.leb_spec (len b) DefaultMaxSize); [|lia].
  destruct Hb as [t Hb]. rewrite (bracketed_body _ _ Hb), Ed by done. done.
Qed.

(** A message of the device, over the wire and handled. *)
Lemma exchange_handled now c m b w :
  endpoint_ok c → travels (cfg_MaxRequestSize cfg) m b →
  exchange (mdm_Do now) c m w =
  match Handle cfg now rand order m (Some (device_transport c)) w with
  | (w', Ok out) => (w', read_response (served (MAnswer (default "" out))))
  | (w', Err e) => (w', Err [simulator_ErrSession])
  end.
Proof.
  intros Hep (Em & _ & Hl & Ed). destruct (eo_limit c Hep) as [Hlo Hhi].
  unfold Marshal in Em. unfold exchange. rewrite Em, (endpoint_handles now c b m w); [|done..|].
  - destruct (Handle cfg now rand order m (Some (device_transport c)) w) as [w' [out|e]]; [done|].
    by rewrite error_read.
  - apply Ed. cbn [do_MaxSize]. by destruct (Z.leb_spec (cfg_MaxRequestSize cfg) 0); [lia|].
Qed.
End wire.

(** ** The server's two answers *)

Section server.
Context {Q : Type} `{CommandQueueLaws Q}.
Context (cfg : Config) (rand : Z → option string) (order : gmap string pendingResult → list string).
Context (id : Identity) (Hdigest : id_AuthType id = AuthDigest).
Implicit Types (r : Run Q) (w : World Q).

(** The reply that asks the sender of [req] for its credential. *)
Definition challenge_reply (req : Message) (nonce : string) : Message :=
  set_body (NewResponse req (cfg_ServerURL cfg) "1")
    [CStatus (with_chal (StatusForHeader req "1" StatusAuthenticationRequired) (NewMD5Chal nonce))] false.

Lemma issueNonce_issues now dev n r :
  rand 16 = Some n → ValidKey (nonceKey dev) = true →
  ∃ r', issueNonce cfg now rand dev r = (r', Ok n).
Proof.
  intros Hr Hk. unfold issueNonce, NewNonce. change (16 <? 1) with false. rewrite Hr. cbv beta iota zeta.
  unfold Memory_Update. rewrite decide_False by done. cbn [existsb]. rewrite Hk. cbn [negb orb ctx_check].
  unfold memoryTx_Put. cbn. rewrite Hk. cbn. eauto.
Qed.

Lemma challenge_issues now req n r :
  rand 16 = Some n → ValidKey (nonceKey (id_DeviceID id)) = true →
  ∃ r', challenge cfg now rand req id authChallenge r = (r', Ok tt).
Proof.
  intros Hr Hk. unfold challenge. rewrite decide_False by (rewrite Hdigest; discriminate).
  unfold bind at 1. rewrite next_id_eq. unfold bind at 1 2.
  match goal with |- context [issueNonce _ _ _ _ ?r] =>
    destruct (issueNonce_issues now (id_DeviceID id) n r Hr Hk) as [r' ->] end.
  eexists. reflexivity.
Qed.

Lemma finish_replies now r b :
  no_ready (r_sess r) → s_Closed (r_sess r) = false → Body_Final (Msg_Body (r_resp r)) = false →
  Marshal (r_resp r) = Ok b →
  ∃ r', finish cfg now order r = (r', Ok (Some b)) ∧
    r_world r' = mkWorld (w_queue (r_world r))
      (PutSession (set_ServerMsgID (mustAtoi (Hdr_MsgID (Msg_Header (r_resp r)))) (r_sess r)) (w_sessions (r_world r)))
      (w_nonce (r_world r)) (w_log (r_world r)).
Proof.
  intros Hn Hc Hf Hm. unfold Marshal in Hm. unfold finish. unfold bind at 1. rewrite flush_idle by done.
  cbn [bind get upd_sess modify]. cbn. rewrite Hc, Hf. cbn. unfold lift. cbn. rewrite Hm. eauto.
Qed.

(** A request that opens a session without a credential: it is challenged for
    a new nonce, and the session waits, unauthenticated, for message 2. *)
Lemma Handle_challenges now req t w n b :
  Validate req = [] → auth_Lookup (cfg_Auth cfg) (LocURI (Hdr_Source (Msg_Header req))) = Ok id →
  verifiedPeerChains t = [] → Hdr_Cred (Msg_Header req) = None →
  ms_sessions (w_sessions w) !! req_key req = None → req_msg req = 1 → IsPackageOne req = true →
  rand 16 = Some n → ValidKey (nonceKey (id_DeviceID id)) = true →
  Marshal (challenge_reply req n) = Ok b →
  ∃ w' s, Handle cfg now rand order req t w = (w', Ok (Some b)) ∧
    w_queue w' = w_queue w ∧ w_log w' = w_log w ∧
    mem_records (w_nonce w') !! nonceKey (id_DeviceID id) =
      Some (mkStateRecord (nonceKey (id_DeviceID id)) n (time_Add now (cfg_NonceTTL cfg))) ∧
    w_sessions w' = PutSession s (w_sessions w) ∧ s_Key s = req_key req ∧
    s_EnrollmentKey s = id_EnrollmentKey id ∧ s_ClientMsgID s = 1 ∧ s_ServerMsgID s = 1 ∧
    s_LastSeen s = now ∧ s_Authenticated s = false ∧ s_AuthType s = "".
Proof.
  intros Hv Hl Ht Hc Hnone Hm Hp Hr Hk Hb. unfold Handle. rewrite Hv, Hl.
  assert (session now req id t w =
    (w, Ok (enter_session now req t 1 (new_session now req id (req_key req))))) as ->.
  { unfold session. fold (req_key req) (req_msg req). unfold GetSession. rewrite Hnone, Hm, Hp. by destruct w. }
  set (s0 := enter_session now req t 1 (new_session now req id (req_key req))).
  assert (s_Authenticated s0 = false ∧ s_AuthType s0 = "" ∧ s_results s0 = ∅ ∧ s_Closed s0 = false ∧
    s_ServerMsgID s0 = 0 ∧ s_Key s0 = req_key req ∧ s_EnrollmentKey s0 = id_EnrollmentKey id ∧
    s_ClientMsgID s0 = 1 ∧ s_LastSeen s0 = now) as (Ha & Hat & Hres & Hcl & Hsm & Hkey & Hek & Hcm & Hls).
  { unfold s0, enter_session. destruct (Hdr_Meta _), t; simpl; repeat case_match; done. }
  clearbody s0. unfold handle_run.
  assert (authenticate cfg now req id t (w_nonce w) s0 = (s0, authChallenge)) as ->.
  { unfold authenticate. rewrite Ha, Ht, Hat, Hc, Hdigest. done. }
  rewrite Hsm. unfold run_untrusted, bind. set (r0 := mkRun w s0 _ 0).
  destruct (challenge_issues now req n r0 Hr Hk) as [r1 Ech]. rewrite Ech.
  destruct (challenge_nonce _ _ _ _ _ _ _ _ Hdigest Ech) as (n' & Hn' & _ & Hmem & Hcmds).
  rewrite Hr in Hn'. injection Hn' as <-.
  destruct (challenge_spec _ _ _ _ _ _ _ _ _ Ech) as (Hq & Hlog & Hms & _ & Hok).
  destruct (Hok eq_refl) as (chal & Hresp & Hs). clear Hok.
  assert (r_resp r1 = challenge_reply req n) as Hrep.
  { unfold resp_cmds in Hcmds. rewrite Hresp in Hcmds. cbn in Hcmds. injection Hcmds as ->. by rewrite Hresp. }
  destruct (finish_replies now r1 b) as (r2 & Hfin & Hw).
  { rewrite Hs. intros i pr. cbn. by rewrite Hres. }
  { by rewrite Hs. }
  { by rewrite Hrep. }
  { by rewrite Hrep. }
  rewrite Hfin, Hw, Hs, Hrep, Hq, Hlog, Hms. eexists _, _. split; [reflexivity|].
  cbn [w_queue w_log w_nonce w_sessions]. by split_and!.
Qed.

(** A request whose credential answers the nonce the device was given, as the
    next message of its session: it is handled as authenticated. *)
Lemma Handle_trusts now req t w n exp s :
  Validate req = [] → auth_Lookup (cfg_Auth cfg) (LocURI (Hdr_Source (Msg_Header req))) = Ok id →
  verifiedPeerChains t = [] → verifyCredential id (Hdr_Cred (Msg_Header req)) n = true →
  live_session now id (req_key req) w = Some s → req_msg req = wrap64 (s_ClientMsgID s + 1) →
  s_Authenticated s = false → s_AuthType s = "" →
  ValidKey (nonceKey (id_DeviceID id)) = true → exp ≠ 0 → now < exp →
  mem_records (w_nonce w) !! nonceKey (id_DeviceID id) =
    Some (mkStateRecord (nonceKey (id_DeviceID id)) n exp) →
  ∃ s', s_Authenticated s' = true ∧ s_AuthType s' = AuthDigest ∧ s_Key s' = s_Key s ∧
    Handle cfg now rand order req t w =
    let '(r, res) := run_trusted cfg now order req
      (mkRun w s' (NewResponse req (cfg_ServerURL cfg) (Itoa (wrap64 (s_ServerMsgID s + 1)))) 0) in
    (r_world r, res).
Proof.
  intros Hv Hl Ht Hc Hlive Hm Ha Hat Hk Hx Hnow Hmem. unfold Handle. rewrite Hv, Hl.
  assert (session now req id t w = (w, Ok (enter_session now req t (req_msg req) s))) as ->.
  { unfold live_session in Hlive. unfold session. fold (req_key req) (req_msg req). unfold GetSession.
    destruct (ms_sessions (w_sessions w) !! req_key req) as [s1|]; [|done].
    case_decide as Hd; [|done]. injection Hlive as ->. destruct Hd as [Httl Hek].
    replace (_ <? time_Sub now (s_LastSeen s)) with false by (symmetry; apply Z.ltb_ge; exact Httl).
    cbn [session_for]. rewrite decide_True by done. rewrite <- Hm, Z.eqb_refl. by destruct w. }
  destruct (enter_session_ident now req t (req_msg req) s) as (Hkey & _ & _ & Hsm & _ & _ & _ & Ha' & _).
  set (s0 := enter_session now req t (req_msg req) s) in *. rewrite Ha in Ha'.
  exists (set_auth true AuthDigest s0). split_and!; [done|done|exact Hkey|].
  assert (s_AuthType s0 = "") as Hat0.
  { rewrite <- Hat. unfold s0, enter_session. destruct (Hdr_Meta _), t; simpl; repeat case_match; done. }
  assert (authenticate cfg now req id t (w_nonce w) s0 = (set_auth true AuthDigest s0, authTrusted)) as Eauth.
  { unfold authenticate. rewrite Ha', Ht, Hat0, (currentNonce_stored _ _ _ _ _ Hk Hx Hmem), Hdigest.
    replace (now <? exp) with true by (symmetry; by apply Z.ltb_lt).
    destruct (Hdr_Cred (Msg_Header req)) as [cred|]; [|done]. by rewrite Hc. }
  unfold handle_run. rewrite Eauth. cbn [s_ServerMsgID set_auth]. by rewrite Hsm.
Qed.
End server.

(** ** The login *)

Section login.
Context `{NameTables} `{MimeParser} {Q : Type} `{CommandQueueLaws Q}.
Context (cfg : Config) (rand : Z → option string) (order : gmap string pendingResult → list string).
Context (query : string → list (string * string)).
Context (c : Device) (sid : string) (id : Identity) (nonce : string).

(** Package 1, and package 1 again with the digest for the nonce. *)
Definition opening : Message := snd (packageOne c (newState sid)).
Definition opening_again : Message :=
  with_id_cred "2" (Some (NewMD5Cred (MD5Digest (dev_Username c) (dev_Password c) nonce))) opening.

(** The device has a password, the server its hash; the random source answers
    [nonce]; the three messages of the login fit. *)
Record login_ok : Prop := mk_login_ok {
  lo_endpoint : endpoint_ok cfg query c;
  lo_device : device_ok c;
  lo_session : sid ≠ "";
  lo_cmds : Z.of_nat (length (packageOne_cmds c)) ≤ max_int64;
  lo_password : dev_Password c ≠ "";
  lo_lookup : auth_Lookup (cfg_Auth cfg) (dev_DeviceID c) = Ok id;
  lo_digest : id_AuthType id = AuthDigest;
  lo_hash : id_CredentialHash id = CredentialHash (dev_Username c) (dev_Password c);
  lo_key : ValidKey (nonceKey (id_DeviceID id)) = true;
  lo_rand : rand 16 = Some nonce;
  lo_nonce : nonce ≠ "";
  lo_opening : wire_ok (cfg_MaxRequestSize cfg) opening;
  lo_reply : wire_ok DefaultMaxSize (challenge_reply cfg opening nonce);
  lo_again : wire_ok (cfg_MaxRequestSize cfg) opening_again }.

Lemma opening_valid : login_ok → Validate opening = [] ∧ Validate opening_again = [].
Proof.
  intros L. pose proof (lo_device L) as Hd. destruct (packageOne_cmds_ok c Hd) as (k & Hk).
  assert (message_ok opening) as Ho.
  { rewrite <- (as_sent_id opening) by apply (lo_opening L).
    apply (reply_message_ok c (set_clientMsg 1 (newState sid)) _ k); [done|apply L|done|done| |apply L].
    by destruct (packageOne_cmds_shape c) as (? & ? & ? & ->). }
  split; apply Validate_iff; [done|]. destruct Ho as (Hh & Hb). split; [|done].
  destruct Hh as (? & ? & ? & ? & ? & ? & ? & ? & ?). split_and!; try done.
  - by exists 2.
  - apply md5_cred_ok.
Qed.

(** How far apart the two messages may be. *)
Definition in_time (now1 now2 : Time) (w : World Q) : Prop :=
  0 < now1 ∧ 0 < cfg_NonceTTL cfg ∧ now2 < now1 + cfg_NonceTTL cfg ∧
  time_Sub now2 now1 ≤ (if ms_TTL (w_sessions w) =? 0 then Hour else ms_TTL (w_sessions w)).

(** C4: A device logs in over the wire: its package 1 reaches the endpoint and
    is answered with a challenge for a new nonce, nothing in it having been
    acted on; the device answers the challenge with package 1 again under the
    next message number; and the endpoint, when that message arrives while the
    nonce and the session are good, handles it as authenticated, in the same
    session, and the device reads what that run replies. *)
Theorem device_logs_in now1 now2 w :
  login_ok → ms_sessions (w_sessions w) !! SessionKey (dev_DeviceID c) sid = None → in_time now1 now2 w →
  ∃ w1 st s, session_step (mdm_Do cfg rand order query now1) opening
      (mkSim w c (fst (packageOne c (newState sid)))) = (mkSim w1 c st, inl opening_again) ∧
    w_queue w1 = w_queue w ∧ w_log w1 = w_log w ∧
    s_Authenticated s = true ∧ s_AuthType s = AuthDigest ∧ s_Key s = SessionKey (dev_DeviceID c) sid ∧
    exchange (mdm_Do cfg rand order query now2) c opening_again w1 =
      match run_trusted cfg now2 order opening_again
              (mkRun w1 s (NewResponse opening_again (cfg_ServerURL cfg) "2") 0) with
      | (r, Ok out) => (r_world r, read_response (served (MAnswer (default "" out))))
      | (r, Err _) => (r_world r, Err [simulator_ErrSession])
      end.
Proof.
  intros L Hnone (Hnow1 & Httl & Hnow2 & Hidle).
  destruct (opening_valid L) as [Hv1 Hv2].
  destruct (wire_ok_travels _ _ (lo_opening L)) as [b1 Hb1].
  destruct (wire_ok_travels _ _ (lo_reply L)) as [b2 Hb2].
  destruct (wire_ok_travels _ _ (lo_again L)) as [b3 Hb3].
  destruct (Handle_challenges cfg rand order id (lo_digest L) now1 opening (Some (device_transport c)) w nonce b2)
    as (w1 & s & EH & Hq & Hlog & Hmem & Hms & Hkey & Hek & Hcm & Hsm & Hls & Ha & Hat);
    [done|apply L|done|done|done|done|by apply packageOne_recognised, L|apply L|apply L|apply Hb2|].
  set (st0 := on_transcript tr_message (fst (packageOne c (newState sid)))).
  destruct (challenge_reauths (challenge_reply cfg opening nonce) c st0
    (with_chal (StatusForHeader opening "1" StatusAuthenticationRequired) (NewMD5Chal nonce)) nonce)
    as [st Hst]; [done|done|apply L|done|apply L|].
  assert (live_session now2 id (req_key opening_again) w1 = Some s) as Hlive.
  { unfold live_session. rewrite Hms. change (req_key opening_again) with (req_key opening).
    cbn [PutSession ms_sessions ms_TTL]. rewrite Hkey, lookup_insert_eq, decide_True; [done|].
    by rewrite Hls. }
  destruct (Handle_trusts cfg rand order id (lo_digest L) now2 opening_again (Some (device_transport c)) w1 nonce
    (time_Add now1 (cfg_NonceTTL cfg)) s) as (s2 & Ha2 & Hat2 & Hk2 & EH2);
    [done|apply L|done|by apply digest_verifies; apply L|done|by rewrite Hcm|done|done|apply L|unfold time_Add; lia..|
     exact Hmem|].
  exists w1, st, s2. split_and!; [|done..|by rewrite Hk2|].
  - unfold session_step. cbn [sim_dev sim_srv sim_st].
    rewrite (exchange_handled cfg rand order query now1 c opening b1 w (lo_endpoint L) Hb1), EH. change (default "" (Some b2)) with b2.
    rewrite (reply_read _ b2 Hb2). fold st0. rewrite Hst. done.
  - rewrite (exchange_handled cfg rand order query now2 c opening_again b3 w1 (lo_endpoint L) Hb3), EH2, Hsm.
    change (Itoa (wrap64 (1 + 1))) with "2".
    clear EH2. by destruct (run_trusted _ _ _ _ _) as [r [out|e]].
Qed.
End login.

(** ** A login *)

Module LoginScenario.
Definition identity : Identity :=
  mkIdentity "dev-1" "key" "" AuthDigest (CredentialHash "Bruce2" "OhBehave").
Definition auth : Authenticator :=
  mkAuthenticator (λ d, if decide (d = "dev-1") then Ok identity else Err [mdm_ErrNotFound]) (λ _ _, false).
Definition cfg : Config :=
  mkConfig "https://mdm.example/manage" auth None DefaultMaxSize (10 * Minute) (Z.shiftl 512 10) false "".
Definition query (_ : string) : list (string * string) := [("mode", "Machine"); ("Platform", "WoA")].
Definition mime : MimeParser := {| ParseMediaType := Some |}.
Definition world : World Queue := mkWorld NewQueue NewMemorySessions NewMemory [].
Definition nonce : string := str_repeat 16 "n".

Lemma fits limit m :
  message_canon m && (len (render "" 0 (x_message m)) <=? limit) &&
    bool_decide (Msg_Namespace m = NamespaceSyncML12) = true → wire_ok limit m.
Proof.
  intros E. apply andb_true_iff in E as [E Hn]. apply andb_true_iff in E as [Hc Hl].
  constructor; [exact Hc|left; by apply bool_decide_eq_true in Hn|by apply Z.leb_le].
Qed.

Lemma login : @login_ok mime cfg Scenario.rand query sim_device "1" identity nonce.
Proof.
  constructor; try reflexivity; try discriminate.
  - by constructor; [|right| |].
  - constructor; try discriminate; try reflexivity; constructor.
  - apply fits. vm_compute. reflexivity.
  - apply fits. vm_compute. reflexivity.
  - apply fits. vm_compute. reflexivity.
Qed.
End LoginScenario.

#[local] Existing Instance ascii_names.
#[local] Existing Instance LoginScenario.mime.
Lemma device_logs_in_witness :
  ∃ w1 st, session_step
      (mdm_Do LoginScenario.cfg Scenario.rand Scenario.order LoginScenario.query Scenario.t1)
      (opening sim_device "1") (mkSim LoginScenario.world sim_device (fst (packageOne sim_device (newState "1")))) =
    (mkSim w1 sim_device st, inl (opening_again sim_device "1" LoginScenario.nonce)).
Proof.
  destruct (device_logs_in LoginScenario.cfg Scenario.rand Scenario.order
    LoginScenario.query sim_device "1" LoginScenario.identity LoginScenario.nonce
    Scenario.t1 (Scenario.t1 + Minute) LoginScenario.world LoginScenario.login) as (w1 & st & s & E & _).
  - reflexivity.
  - repeat split; vm_compute; congruence.
  - exists w1, st. exact E.
Defined.
