(* ===== verification/WapProv.v ===== *)
(** * Provisioning documents

    mdmprotocol/wapprov: model.go (the wap-provisioningdoc, its XML form and
    its rules) and builders.go (the characteristics an enrollment writes). *)
From stdpp Require Import base gmap strings list.
From Stdlib Require Import ZArith Lia Ascii.
From S2P Require Import Prelude GoStrings SyncmlModel Encode Utf8 GoXml XmlLex XmlDoc.
From S2P Require Import SyncmlAuth GoCrypto Storage.

Local Open Scope Z_scope.
Local Open Scope go_scope.

(** [strings.ToUpper]: ASCII text letter by letter, other text rune by rune
    with the upper case of package unicode, which is a parameter above ASCII. *)
Class CaseTables := { table_upper : Z → Z }.

Definition upper_rune `{CaseTables} (r : Z) : Z :=
  if r <? 128 then (if (97 <=? r) && (r <=? 122) then r - 32 else r) else table_upper r.

Fixpoint map_upper_fuel `{CaseTables} (fuel : nat) (s : string) : string :=
  match fuel, s with
  | S fuel, String _ _ =>
      let '(r, n) := decode_rune s in
      encode_rune (upper_rune r) +:+ map_upper_fuel fuel (sdrop n s)
  | _, _ => ""
  end.

Definition strings_ToUpper `{CaseTables} (s : string) : string :=
  if str_forall (λ c, byte_val c <? 128) s then ToUpper s
  else map_upper_fuel (String.length s) s.

(** ** model.go *)

Definition WapVersion : string := "1.1".
Definition TypeString : string := "string".
Definition TypeInteger : string := "integer".
Definition TypeBoolean : string := "boolean".

Record Parm := mkParm {
  p_Name : string; p_Value : string; p_DataType : string; p_Flag : bool }.

(** [type Characteristic struct { Type; Parms; Children }]. *)
Inductive Characteristic : Type :=
  | mkChar (ch_Type : string) (ch_Parms : list Parm) (ch_Children : list Characteristic).

Definition ch_Type (c : Characteristic) : string := match c with mkChar t _ _ => t end.
Definition ch_Parms (c : Characteristic) : list Parm := match c with mkChar _ p _ => p end.
Definition ch_Children (c : Characteristic) : list Characteristic :=
  match c with mkChar _ _ cs => cs end.

Record Document := mkDocument {
  doc_Version : string; doc_Characteristics : list Characteristic }.

Definition of_type (typ : string) (c : Characteristic) : bool := bool_decide (ch_Type c = typ).

Definition Document_Find (typ : string) (d : Document) : option Characteristic :=
  List.find (of_type typ) (doc_Characteristics d).
Definition Document_FindAll (typ : string) (d : Document) : list Characteristic :=
  List.filter (of_type typ) (doc_Characteristics d).

(** The methods on a possibly nil characteristic. *)
Definition Characteristic_Child (typ : string) (c : option Characteristic)
    : option Characteristic :=
  match c with
  | None => None
  | Some c => List.find (of_type typ) (ch_Children c)
  end.
Definition Characteristic_Path (types : list string) (c : option Characteristic)
    : option Characteristic :=
  foldl (λ cur t, Characteristic_Child t cur) c types.
Definition Characteristic_Parm (name : string) (c : option Characteristic) : option Parm :=
  match c with
  | None => None
  | Some c => List.find (λ p, bool_decide (p_Name p = name)) (ch_Parms c)
  end.
Definition Characteristic_Value (name : string) (c : option Characteristic) : string :=
  match Characteristic_Parm name c with Some p => p_Value p | None => "" end.

(** *** Validate *)

Definition TypeApplication : string := "APPLICATION".

Section validate.
Context `{CaseTables}.

Fixpoint validate_parms (upper : bool) (ps : list Parm) : result unit :=
  match ps with
  | [] => Ok tt
  | p :: ps =>
      if decide (p_Name p = "") then Err [wapprov_ErrInvalid]
      else if upper && negb (bool_decide (p_Name p = strings_ToUpper (p_Name p)))
      then Err [wapprov_ErrInvalid]
      else validate_parms upper ps
  end.

Fixpoint validateCharacteristic (upper : bool) (c : Characteristic) : result unit :=
  let children := fix children (cs : list Characteristic) : result unit :=
    match cs with
    | [] => Ok tt
    | c :: cs => let? _ := validateCharacteristic upper c in children cs
    end in
  match c with
  | mkChar t ps cs =>
      if decide (t = "") then Err [wapprov_ErrInvalid]
      else if upper && negb (bool_decide (t = strings_ToUpper t)) then Err [wapprov_ErrInvalid]
      else let? _ := validate_parms upper ps in children cs
  end.

Fixpoint validate_all (cs : list Characteristic) : result unit :=
  match cs with
  | [] => Ok tt
  | c :: cs =>
      let? _ := validateCharacteristic (bool_decide (ch_Type c = TypeApplication)) c in
      validate_all cs
  end.

(** A nil document is [None]. *)
Definition WapValidate (d : option Document) : result unit :=
  match d with
  | None => Err [wapprov_ErrInvalid]
  | Some d =>
      if decide (doc_Version d = "") then Err [wapprov_ErrInvalid]
      else if decide (doc_Characteristics d = []) then Err [wapprov_ErrInvalid]
      else validate_all (doc_Characteristics d)
  end.

(** *** Encode *)

Record WapOptions := mkWapOptions { wo_Indent : bool; wo_XMLDeclaration : bool }.

Definition wap_newline (depth : nat) (indent : bool) : string :=
  if indent then String (byte_of 10) (str_concat (replicate depth "  ")) else "".

Definition write_parm (depth : nat) (indent : bool) (p : Parm) : string :=
  wap_newline depth indent +:+ "<parm name=" +:+ quote +:+ EscapeText (p_Name p) +:+ quote +:+
  (if p_Flag p then "" else " value=" +:+ quote +:+ EscapeText (p_Value p) +:+ quote) +:+
  (if decide (p_DataType p = "") then ""
   else " datatype=" +:+ quote +:+ EscapeText (p_DataType p) +:+ quote) +:+ "/>".

Fixpoint writeCharacteristic (depth : nat) (indent : bool) (c : Characteristic) : string :=
  match c with
  | mkChar t ps cs =>
      wap_newline depth indent +:+ "<characteristic type=" +:+ quote +:+ EscapeText t +:+
      if decide (ps = [] ∧ cs = []) then quote +:+ "/>"
      else
        quote +:+ ">" +:+ str_concat (map (write_parm (S depth) indent) ps) +:+
        str_concat (map (writeCharacteristic (S depth) indent) cs) +:+
        wap_newline depth indent +:+ "</characteristic>"
  end.

Definition WapEncode (d : option Document) (o : WapOptions) : result string :=
  let? _ := WapValidate d in
  match d with
  | None => Err [wapprov_ErrInvalid]
  | Some d =>
      let nl := String (byte_of 10) "" in
      Ok ((if wo_XMLDeclaration o
           then "<?xml version=" +:+ quote +:+ "1.0" +:+ quote +:+ " encoding=" +:+ quote +:+
                "UTF-8" +:+ quote +:+ "?>" +:+ (if wo_Indent o then nl else "")
           else "") +:+
          "<wap-provisioningdoc version=" +:+ quote +:+ EscapeText (doc_Version d) +:+ quote +:+ ">" +:+
          str_concat (map (writeCharacteristic 1 (wo_Indent o)) (doc_Characteristics d)) +:+
          (if wo_Indent o then nl else "") +:+ "</wap-provisioningdoc>")
  end.

(** *** Decode *)

(** encoding/xml's limit on nested values; a slice element counts twice. *)
Definition maxUnmarshalDepth : Z := 10000.

Definition read_parm (t : xtree) : Parm :=
  mkParm (default "" (attr_last (Tag "name") t)) (default "" (attr_last (Tag "value") t))
    (default "" (attr_last (Tag "datatype") t))
    (match attr_last (Tag "value") t with Some _ => false | None => true end).

(** An element of the slice field [characteristic], read at a depth, with its
    parms and children. *)
Fixpoint read_char (depth : Z) (t : xtree) : result Characteristic :=
  let children := fix children (ks : list xtree) : result (list Parm * list Characteristic) :=
    match ks with
    | [] => Ok ([], [])
    | (TElem n _ _ as k) :: ks =>
        if decide (name_Local n = "parm") then
          if maxUnmarshalDepth <=? depth + 2 then Err xml_error
          else let? (ps, cs) := children ks in Ok (read_parm k :: ps, cs)
        else if decide (name_Local n = "characteristic") then
          let? c := read_char (depth + 2) k in
          let? (ps, cs) := children ks in Ok (ps, c :: cs)
        else children ks
    | TText _ :: ks => children ks
    end in
  if maxUnmarshalDepth <=? depth then Err xml_error
  else
    match t with
    | TElem _ _ ks =>
        let? (ps, cs) := children ks in
        Ok (mkChar (default "" (attr_last (Tag "type") t)) ps cs)
    | TText _ => Err xml_error
    end.

Fixpoint read_chars (ks : list xtree) : result (list Characteristic) :=
  match ks with
  | [] => Ok []
  | k :: ks => let? c := read_char 2 k in let? cs := read_chars ks in Ok (c :: cs)
  end.

Definition read_document (t : xtree) : result Document :=
  match tree_name t with
  | Some n =>
      if decide (name_Local n = "wap-provisioningdoc") then
        let? cs := read_chars (kids_of (Tag "characteristic") t) in
        Ok (mkDocument (default "" (attr_last (Tag "version") t)) cs)
      else Err xml_error
  | None => Err xml_error
  end.

Definition WapDecode `{NameTables} (data : string) : result Document :=
  match result_bind (Unmarshal_tree data) read_document with
  | Err e => Err (wapprov_ErrSyntax :: e)
  | Ok d => let? _ := WapValidate (Some d) in Ok d
  end.
End validate.
