(* ===== verification/Foundation.v ===== *)
(** * The clock and the secret providers

    clock/clock.go (the Fake clock as a state machine over its waiters) and
    secrets/secrets.go (the providers and their chain).  A channel is a number;
    a directory is a function that opens a name inside it. *)
From stdpp Require Import base gmap strings list.
From Stdlib Require Import ZArith Lia Ascii.
From S2P Require Import Prelude GoStrings WapProv.

Local Open Scope Z_scope.
Local Open Scope go_scope.

(** ** clock.go *)

(** [Fake]: the time, the waiters with the time they wait for, and what was sent
    on each channel made so far. *)
Record Fake := mkFake {
  fk_now : Time;
  fk_waiters : list (Time * nat);
  fk_sent : list (nat * Time);
  fk_channels : nat }.

Definition NewFake (now : Time) : Fake := mkFake now [] [] 0.

Definition fake_Since (f : Fake) (t : Time) : Duration := time_Sub (fk_now f) t.

Definition fake_After (d : Duration) (f : Fake) : Fake * nat :=
  let ch := fk_channels f in
  (if d <=? 0 then mkFake (fk_now f) (fk_waiters f) (fk_sent f ++ [(ch, fk_now f)]) (S ch)
   else mkFake (fk_now f) (fk_waiters f ++ [(time_Add (fk_now f) d, ch)]) (fk_sent f) (S ch), ch).

Definition due (now : Time) (w : Time * nat) : bool := negb (time_After w.1 now).
Definition fireLocked (f : Fake) : Fake :=
  mkFake (fk_now f) (List.filter (λ w, negb (due (fk_now f) w)) (fk_waiters f))
    (fk_sent f ++ map (λ w, (w.2, fk_now f)) (List.filter (due (fk_now f)) (fk_waiters f))) (fk_channels f).

Definition fake_Set (t : Time) (f : Fake) : Fake := fireLocked (mkFake t (fk_waiters f) (fk_sent f) (fk_channels f)).
Definition fake_Advance (d : Duration) (f : Fake) : Fake := fake_Set (time_Add (fk_now f) d) f.
Definition fake_Pending (f : Fake) : nat := length (fk_waiters f).

Inductive clock_step : Fake → Fake → Prop :=
  | step_After d f : clock_step f (fake_After d f).1
  | step_Advance d f : clock_step f (fake_Advance d f)
  | step_Set t f : clock_step f (fake_Set t f).

(** ** secrets.go *)

(** [Provider] *)
Definition Provider : Type := string → result string.

Definition Static_Get (s : gmap string string) : Provider := λ name,
  match s !! name with Some v => Ok v | None => Err [secrets_ErrNotFound] end.

(** strings.NewReplacer of the three separators. *)
Definition replace_separator (c : ascii) : ascii :=
  if (byte_val c =? 46) || (byte_val c =? 45) || (byte_val c =? 47) then "_"%char else c.
Fixpoint replace_separators (s : string) : string :=
  match s with EmptyString => "" | String c s => String (replace_separator c) (replace_separators s) end.
Section env.
Context `{CaseTables} (prefix : string) (lookup : string → option string).
Definition Env_Key (name : string) : string := prefix +:+ strings_ToUpper (replace_separators name).
Definition Env_Get : Provider := λ name,
  match lookup (Env_Key name) with
  | Some v => if decide (v = "") then Err [secrets_ErrNotFound] else Ok v
  | None => Err [secrets_ErrNotFound]
  end.
End env.

Definition maxSize : Z := 2 ^ 20.

(** strings.TrimRight of line ends *)
Fixpoint drop_line_ends (r : string) : string :=
  match r with
  | EmptyString => ""
  | String c t => if (byte_val c =? 13) || (byte_val c =? 10) then drop_line_ends t else r
  end.
Definition TrimRight_line_ends (s : string) : string := srev (drop_line_ends (srev s)).

(** The opened directory: the bytes of a file or the error of reading it; when it
    cannot be opened, whether it is missing. *)
Definition Root : Type := string → result string + bool.
Definition bad_name (name : string) : bool :=
  bool_decide (name = "") || str_exists (λ c, (byte_val c =? 47) || (byte_val c =? 92)) name ||
  bool_decide (name = ".") || bool_decide (name = "..").
Definition Dir_Get (root : Root) : Provider := λ name,
  if bad_name name then Err [secrets_ErrName]
  else match root name with
  | inr missing => if missing then Err [secrets_ErrNotFound] else Err []
  | inl (Err e) => Err e
  | inl (Ok content) =>
      let b := stake (Z.to_nat (maxSize + 1)) content in
      if maxSize <? len b then Err [] else Ok (TrimRight_line_ends b)
  end.

(** [Chain.Get] *)
Fixpoint Chain_Get (c : list Provider) (name : string) : result string :=
  match c with
  | [] => Err [secrets_ErrNotFound]
  | p :: c =>
      match p name with
      | Ok s => Ok s
      | Err e => if errors_Is e secrets_ErrNotFound then Chain_Get c name else Err e
      end
  end.

(** ** Properties *)

(** The state of the clock between calls: every waiter waits for a time to come,
    and every channel made either has a waiter or was sent to, once. *)
Record clock_inv (f : Fake) : Prop := mk_clock_inv {
  ci_waiting : ∀ at_ ch, (at_, ch) ∈ fk_waiters f → fk_now f < at_;
  ci_channels : map snd (fk_waiters f) ++ map fst (fk_sent f) ≡ₚ seq 0 (fk_channels f) }.

Lemma filter_split {A} (p : A → bool) (l : list A) : List.filter (λ x, negb (p x)) l ++ List.filter p l ≡ₚ l.
Proof.
  induction l as [|a l IH]; [done|]. cbn [List.filter]. destruct (p a); cbn [negb app].
  - by rewrite <- Permutation_middle, IH.
  - by rewrite IH.
Qed.

Lemma fire_inv f :
  map snd (fk_waiters f) ++ map fst (fk_sent f) ≡ₚ seq 0 (fk_channels f) → clock_inv (fireLocked f).
Proof.
  intros Hc. split; cbn [fireLocked fk_waiters fk_now fk_sent fk_channels].
  - intros at_ ch [Hin Hd]%list_elem_of_In%filter_In. unfold due, time_After in Hd. cbn in Hd.
    rewrite negb_involutive in Hd. by apply Z.ltb_lt.
  - rewrite map_app, map_map. cbn. rewrite app_assoc, (Permutation_app_comm _ (map fst (fk_sent f))), <- Hc.
    rewrite (Permutation_app_comm (map snd (fk_waiters f))), <- app_assoc. apply Permutation_app_head.
    rewrite <- (filter_split (due (fk_now f)) (fk_waiters f)) at 3. by rewrite map_app.
Qed.

Lemma clock_step_inv f f' : clock_inv f → clock_step f f' → clock_inv f'.
Proof.
  intros [Hw Hc]. destruct 1 as [d f|d f|t f]; [|by apply fire_inv|by apply fire_inv].
  unfold fake_After. cbn [fst]. destruct (Z.leb_spec d 0); split; cbn [fk_waiters fk_now fk_sent fk_channels].
  - exact Hw.
  - rewrite seq_S, map_app, app_assoc, Hc. done.
  - intros at_ ch [Hin|Hin]%elem_of_app; [by eapply Hw|]. apply list_elem_of_singleton in Hin as [= -> ->].
    unfold time_Add. lia.
  - rewrite seq_S, <- Hc, map_app, <- !app_assoc. apply Permutation_app_head. cbn. by rewrite Permutation_app_comm.
Qed.

(** Whatever is done to a fake clock, no waiter is overdue, and a channel that
    After made is waiting or was sent to exactly once. *)
Theorem fake_clock_consistent now f : rtc clock_step (NewFake now) f → clock_inv f.
Proof.
  assert (∀ a b, rtc clock_step a b → clock_inv a → clock_inv b) as Hr
    by (induction 1 as [|a b c Hs _ IH]; [done|intros Ha; apply IH; by eapply clock_step_inv]).
  intros Hf. apply (Hr _ _ Hf). split; cbn; [by intros ? ? ?%not_elem_of_nil|done].
Qed.

(** The chain answers with the first provider that has the secret, and stops at
    the first error that is not a missing secret. *)
Theorem chain_first_hit c name r :
  Chain_Get c name = r ↔
  (∃ before p after, c = before ++ p :: after ∧
     Forall (λ q : Provider, ∃ e, q name = Err e ∧ errors_Is e secrets_ErrNotFound = true) before ∧
     p name = r ∧ match r with Ok _ => True | Err e => errors_Is e secrets_ErrNotFound = false end) ∨
  (r = Err [secrets_ErrNotFound] ∧
     Forall (λ q : Provider, ∃ e, q name = Err e ∧ errors_Is e secrets_ErrNotFound = true) c).
Proof.
  induction c as [|p c IH]; cbn [Chain_Get].
  - split; [intros <-; right; done|]. intros [(b & p & a & E & _)|[-> _]]; [by destruct b|done].
  - destruct (p name) as [v|e] eqn:Ep; [|destruct (errors_Is e secrets_ErrNotFound) eqn:Ee].
    + split; [intros <-; left; by exists [], p, c|]. intros [(b & q & a & E & Hb & Hq & _)|[_ Hb]].
      * destruct b as [|x b]; injection E as -> ->; [congruence|]. inversion_clear Hb as [|? ? (e & He & _)]. congruence.
      * inversion_clear Hb as [|? ? (e & He & _)]. congruence.
    + rewrite IH. split; (intros [(b & q & a & E & Hb & Hq & Hr)|[Hr Hb]]; [left|right]).
      * exists (p :: b), q, a. subst c. split_and!; [done|apply Forall_cons; eauto|done|done].
      * split; [done|apply Forall_cons; eauto].
      * destruct b as [|x b]; injection E as -> ->; [subst r; rewrite Ep in Hr; congruence|].
        apply Forall_cons in Hb as [_ Hb]. by exists b, q, a.
      * by apply Forall_cons in Hb as [_ Hb].
    + split; [intros <-; left; by exists [], p, c|]. intros [(b & q & a & E & Hb & Hq & _)|[_ Hb]].
      * destruct b as [|x b]; injection E as -> ->; [congruence|]. inversion_clear Hb as [|? ? (e' & He & Hn)]. congruence.
      * inversion_clear Hb as [|? ? (e' & He & Hn)]. congruence.
Qed.

(** A directory is only asked for names that name an entry of it. *)
Theorem dir_stays_inside (root root' : Root) name :
  (∀ n, bad_name n = false → root n = root' n) → Dir_Get root name = Dir_Get root' name.
Proof. intros Hr. unfold Dir_Get. destruct (bad_name name) eqn:E; [done|]. by rewrite Hr. Qed.
