(* ===== verification/WapBuild.v ===== *)
(** * Building provisioning documents

    mdmprotocol/wapprov/builders.go: the characteristics CertificateStore,
    RootCATrustedCertificates, APPLICATION and DMClient. *)
From stdpp Require Import base gmap strings list.
From Stdlib Require Import ZArith Lia Ascii.
From S2P Require Import Prelude GoStrings GoUrl SyncmlModel Encode Utf8 GoXml XmlLex XmlDoc.
From S2P Require Import SyncmlAuth GoCrypto Storage WapProv.

Local Open Scope Z_scope.
Local Open Scope go_scope.

Definition TypeCertificateStore : string := "CertificateStore".
Definition TypeDMClient : string := "DMClient".
Definition TypeRootCATrustedCertificates : string := "RootCATrustedCertificates".

(** [type Store string] *)
Definition WStore := string.
Definition StoreUser : WStore := "User".
Definition StoreSystem : WStore := "System".

Record Renew := mkRenew {
  rn_ROBOSupport : bool; rn_RenewPeriod : Z; rn_RetryInterval : Z; rn_ServerURL : string }.

Record CertificateStoreConfig := mkCertificateStoreConfig {
  cs_Roots : list string;
  cs_Intermediates : list string;
  cs_Client : string;
  cs_Store : WStore;
  cs_Renew : option Renew }.

Definition certEntry (der : string) : Characteristic :=
  mkChar (Thumbprint der) [mkParm "EncodedCertificate" (b64_encode der) "" false] [].
Definition certEntries (ders : list string) : list Characteristic := map certEntry ders.

Definition renew_char (r : Renew) : Characteristic :=
  mkChar "Renew"
    ([mkParm "ROBOSupport" (strconv_FormatBool (rn_ROBOSupport r)) TypeBoolean false;
      mkParm "RenewPeriod" (Itoa (rn_RenewPeriod r)) TypeInteger false;
      mkParm "RetryInterval" (Itoa (rn_RetryInterval r)) TypeInteger false] ++
     if decide (rn_ServerURL r = "") then []
     else [mkParm "ServerURL" (rn_ServerURL r) TypeString false]) [].

Definition CertificateStore (cfg : CertificateStoreConfig) : result Characteristic :=
  if decide (cs_Roots cfg = []) then Err [wapprov_ErrInvalid]
  else if decide (1 < length (cs_Intermediates cfg))%nat then Err [wapprov_ErrInvalid]
  else if decide (cs_Client cfg = "") then Err [wapprov_ErrInvalid]
  else if negb (bool_decide (cs_Store cfg = StoreUser)) && negb (bool_decide (cs_Store cfg = StoreSystem))
  then Err [wapprov_ErrInvalid]
  else if existsb (λ der, bool_decide (der = "")) (cs_Roots cfg ++ cs_Intermediates cfg)
  then Err [wapprov_ErrInvalid]
  else
    let root := mkChar "Root" [] [mkChar "System" [] (certEntries (cs_Roots cfg))] in
    let ca := if decide (length (cs_Intermediates cfg) = 1%nat)
              then [mkChar "CA" [] [mkChar "System" [] (certEntries (cs_Intermediates cfg))]]
              else [] in
    let mine := mkChar (cs_Store cfg) []
      (certEntries [cs_Client cfg] ++ [mkChar "PrivateKeyContainer" [] []]) in
    let? wstep :=
      match cs_Renew cfg with
      | None => Ok []
      | Some r =>
          if (rn_RenewPeriod r <=? 0) || (rn_RetryInterval r <=? 0)
          then Err [wapprov_ErrInvalid]
          else Ok [mkChar "WSTEP" [] [renew_char r]]
      end in
    Ok (mkChar TypeCertificateStore [] (root :: ca ++ [mkChar "My" [] (mine :: wstep)])).

Definition RootCATrustedCertificates (roots : list string) : result Characteristic :=
  if decide (roots = []) then Err [wapprov_ErrInvalid]
  else if existsb (λ der, bool_decide (der = "")) roots then Err [wapprov_ErrInvalid]
  else Ok (mkChar TypeRootCATrustedCertificates [] [mkChar "Root" [] (certEntries roots)]).

(** ** The w7 APPLICATION *)

(** [type AuthType string] and [type Encoding string] of this package. *)
Definition WAuthType := string.
Definition WAuthBasic : WAuthType := "BASIC".
Definition WAuthDigest : WAuthType := "DIGEST".
Definition Encoding := string.
Definition EncodingXML : Encoding := "application/vnd.syncml.dm+xml".
Definition EncodingWBXML : Encoding := "application/vnd.syncml.dm+wbxml".

Record Credential := mkCredential {
  cr_Type : WAuthType; cr_Name : string; cr_Secret : string; cr_Nonce : string }.

Record ApplicationConfig := mkApplicationConfig {
  app_ProviderID : string;
  app_Name : string;
  app_Address : string;
  app_ConnRetryFreq : Z;
  app_InitialBackoffTime : Z;
  app_MaxBackoffTime : Z;
  app_BackCompatRetryDisabled : bool;
  app_DefaultEncoding : Encoding;
  app_ProtoVer : string;
  app_UseHWDevID : bool;
  app_SSLClientCertSearchCriteria : string;
  app_ServerAuth : Credential;
  app_ClientAuth : Credential }.

(** A parm that is written when its value is there. *)
Definition parm_unless_empty (name v typ : string) : list Parm :=
  if decide (v = "") then [] else [mkParm name v typ false].
Definition parm_positive (name : string) (n : Z) : list Parm :=
  if 0 <? n then [mkParm name (Itoa n) "" false] else [].
Definition parm_flag (name : string) (b : bool) : list Parm :=
  if b then [mkParm name "" "" true] else [].

Definition appAuth (level : string) (c : Credential) : result Characteristic :=
  if negb (bool_decide (cr_Type c = WAuthBasic)) && negb (bool_decide (cr_Type c = WAuthDigest))
  then Err [wapprov_ErrInvalid]
  else if bool_decide (level = "CLIENT") && negb (bool_decide (cr_Type c = WAuthDigest))
  then Err [wapprov_ErrInvalid]
  else if decide (cr_Secret c = "") then Err [wapprov_ErrInvalid]
  else if bool_decide (level = "APPSRV") && bool_decide (cr_Name c = "")
  then Err [wapprov_ErrInvalid]
  else Ok (mkChar "APPAUTH"
    ([mkParm "AAUTHLEVEL" level "" false; mkParm "AAUTHTYPE" (cr_Type c) "" false] ++
     parm_unless_empty "AAUTHNAME" (cr_Name c) "" ++
     [mkParm "AAUTHSECRET" (cr_Secret c) "" false] ++
     (if decide (cr_Nonce c = "") then []
      else [mkParm "AAUTHDATA" (b64_encode (cr_Nonce c)) "" false])) []).

Definition Application (cfg : ApplicationConfig) : result Characteristic :=
  if decide (app_ProviderID cfg = "") then Err [wapprov_ErrInvalid]
  else if decide (app_Address cfg = "") then Err [wapprov_ErrInvalid]
  else if negb (bool_decide (app_ProtoVer cfg ∈ [""; "1.1"; "1.2"])) then Err [wapprov_ErrInvalid]
  else if negb (bool_decide (app_DefaultEncoding cfg ∈ [""; EncodingXML; EncodingWBXML]))
  then Err [wapprov_ErrInvalid]
  else
    let? srv := appAuth "APPSRV" (app_ServerAuth cfg) in
    let? cli := appAuth "CLIENT" (app_ClientAuth cfg) in
    Ok (mkChar TypeApplication
      ([mkParm "APPID" "w7" "" false; mkParm "PROVIDER-ID" (app_ProviderID cfg) "" false] ++
       parm_unless_empty "NAME" (app_Name cfg) "" ++
       [mkParm "ADDR" (app_Address cfg) "" false] ++
       parm_unless_empty "PROTOVER" (app_ProtoVer cfg) "" ++
       parm_positive "CONNRETRYFREQ" (app_ConnRetryFreq cfg) ++
       parm_positive "INITIALBACKOFFTIME" (app_InitialBackoffTime cfg) ++
       parm_positive "MAXBACKOFFTIME" (app_MaxBackoffTime cfg) ++
       parm_flag "BACKCOMPATRETRYDISABLED" (app_BackCompatRetryDisabled cfg) ++
       parm_unless_empty "DEFAULTENCODING" (app_DefaultEncoding cfg) "" ++
       parm_flag "USEHWDEVID" (app_UseHWDevID cfg) ++
       parm_unless_empty "SSLCLIENTCERTSEARCHCRITERIA" (app_SSLClientCertSearchCriteria cfg) "")
      [srv; cli]).

(** ** SearchCriteria *)

Record SearchCriteria := mkSearchCriteria { sc_Subject : string; sc_Stores : list string }.

Definition StoreMyUser : string := "My\User".

Definition criteria_plain (c : ascii) : bool :=
  let v := byte_val c in
  ((97 <=? v) && (v <=? 122)) || ((65 <=? v) && (v <=? 90)) || ((48 <=? v) && (v <=? 57)) ||
  bool_decide (c ∈ ["-"; "_"; "."; "!"; "~"; "*"; "'"; "("; ")"; ","]%char).

(** [fmt.Fprintf(&b, "%%%02X", c)] *)
Fixpoint criteriaEscape (s : string) : string :=
  match s with
  | EmptyString => ""
  | String c s =>
      if criteria_plain c then String c (criteriaEscape s)
      else String "%" (String (upperhex (byte_val c / 16)) (String (upperhex (byte_val c mod 16))
             (criteriaEscape s)))
  end.

(** [strings.Join] *)
Fixpoint join_with (sep : string) (l : list string) : string :=
  match l with
  | [] => ""
  | [s] => s
  | s :: l => s +:+ sep +:+ join_with sep l
  end.

Definition SearchCriteria_String (s : SearchCriteria) : string :=
  join_with "&"
    ((if decide (sc_Subject s = "") then [] else ["Subject=" +:+ criteriaEscape (sc_Subject s)]) ++
     (if decide (sc_Stores s = []) then []
      else ["Stores=" +:+ join_with "%EF%80%80" (map criteriaEscape (sc_Stores s))])).

(** ** DMClient *)

Record Poll := mkPoll {
  po_IntervalForFirstSetOfRetries : Z;
  po_NumberOfFirstRetries : Z;
  po_IntervalForSecondSetOfRetries : Z;
  po_NumberOfSecondRetries : Z;
  po_IntervalForRemainingScheduledRetries : Z;
  po_NumberOfRemainingScheduledRetries : Z;
  po_PollOnLogin : bool;
  po_AllUsersPollOnFirstLogin : bool }.

Definition DefaultPoll : Poll := mkPoll 15 5 60 10 1440 0 false false.

Definition Poll_Validate (p : Poll) : result unit :=
  if po_NumberOfFirstRetries p =? 0 then Err [wapprov_ErrInvalid]
  else if (po_IntervalForFirstSetOfRetries p <=? 0) || (po_IntervalForSecondSetOfRetries p <? 0) ||
          (po_NumberOfFirstRetries p <? 0) || (po_NumberOfSecondRetries p <? 0) ||
          (po_NumberOfRemainingScheduledRetries p <? 0) then Err [wapprov_ErrInvalid]
  else if po_IntervalForRemainingScheduledRetries p <? 1440 then Err [wapprov_ErrInvalid]
  else Ok tt.

Record DMClientConfig := mkDMClientConfig {
  dm_ProviderID : string;
  dm_UPN : string;
  dm_EntDeviceName : string;
  dm_EntDMID : string;
  dm_Poll : option Poll;
  dm_PushPFN : string;
  dm_Extra : list Parm }.

Definition int_parm (name : string) (n : Z) : Parm := mkParm name (Itoa n) TypeInteger false.
Definition true_parm (name : string) (b : bool) : list Parm :=
  if b then [mkParm name "true" TypeBoolean false] else [].

Definition poll_char (p : Poll) : Characteristic :=
  mkChar "Poll"
    ([int_parm "IntervalForFirstSetOfRetries" (po_IntervalForFirstSetOfRetries p);
      int_parm "NumberOfFirstRetries" (po_NumberOfFirstRetries p);
      int_parm "IntervalForSecondSetOfRetries" (po_IntervalForSecondSetOfRetries p);
      int_parm "NumberOfSecondRetries" (po_NumberOfSecondRetries p);
      int_parm "IntervalForRemainingScheduledRetries" (po_IntervalForRemainingScheduledRetries p);
      int_parm "NumberOfRemainingScheduledRetries" (po_NumberOfRemainingScheduledRetries p)] ++
     true_parm "PollOnLogin" (po_PollOnLogin p) ++
     true_parm "AllUsersPollOnFirstLogin" (po_AllUsersPollOnFirstLogin p)) [].

Definition DMClient (cfg : DMClientConfig) : result Characteristic :=
  if decide (dm_ProviderID cfg = "") then Err [wapprov_ErrInvalid]
  else
    let poll := default DefaultPoll (dm_Poll cfg) in
    let? _ := Poll_Validate poll in
    if existsb (λ p, bool_decide (p_Name p = "")) (dm_Extra cfg) then Err [wapprov_ErrInvalid]
    else
      let prov := mkChar (dm_ProviderID cfg)
        (parm_unless_empty "UPN" (dm_UPN cfg) TypeString ++
         parm_unless_empty "EntDeviceName" (dm_EntDeviceName cfg) TypeString ++
         parm_unless_empty "EntDMID" (dm_EntDMID cfg) TypeString ++ dm_Extra cfg)
        (poll_char poll ::
         if decide (dm_PushPFN cfg = "") then []
         else [mkChar "Push" [mkParm "PFN" (dm_PushPFN cfg) TypeString false] []]) in
      Ok (mkChar TypeDMClient [] [mkChar "Provider" [] [prov]]).

(** ** Escaped criteria *)

(** The escaping can be undone: what the client decodes is the original. *)
Lemma criteria_unescape s : PathUnescape (criteriaEscape s) = Some s.
Proof.
  induction s as [|c s IH]; [done|]. cbn [criteriaEscape]. destruct (criteria_plain c) eqn:E.
  - cbn [PathUnescape]. destruct (Ascii.eqb_spec c "%") as [->|]; [done|]. by rewrite IH.
  - by rewrite PathUnescape_escaped, IH.
Qed.
