(* ===== verification/WapTheorems.v ===== *)
(** * Theorems about provisioning documents

    A valid document survives being written and read ([wap_roundtrip]). *)
From stdpp Require Import base gmap strings list.
From Stdlib Require Import ZArith Lia Ascii.
From S2P Require Import Prelude GoStrings GoUrl SyncmlModel Encode Utf8 GoXml XmlLex XmlDoc.
From S2P Require Import SyncmlAuth GoCrypto Storage WapProv WapBuild.

Local Open Scope Z_scope.

(** ** The document as a tree of elements *)

Definition parm_doc (p : Parm) : xdoc :=
  DEmpty "parm" (mkAttr "name" (p_Name p) ::
    (if p_Flag p then [] else [mkAttr "value" (p_Value p)]) ++
    (if decide (p_DataType p = "") then [] else [mkAttr "datatype" (p_DataType p)])).

Fixpoint char_doc (c : Characteristic) : xdoc :=
  match c with
  | mkChar t ps cs =>
      if decide (ps = [] ∧ cs = []) then DEmpty "characteristic" [mkAttr "type" t]
      else DNode "characteristic" [mkAttr "type" t] (map parm_doc ps ++ map char_doc cs)
  end.

Definition document_doc (d : Document) : xdoc :=
  DNode "wap-provisioningdoc" [mkAttr "version" (doc_Version d)]
    (map char_doc (doc_Characteristics d)).

Section Characteristic_ind.
Context (Q : Characteristic → Prop).
Context (Hchar : ∀ t ps cs, Forall Q cs → Q (mkChar t ps cs)).
Fixpoint Characteristic_nested_ind (c : Characteristic) : Q c :=
  match c with
  | mkChar t ps cs =>
      Hchar t ps cs ((fix go cs : Forall Q cs :=
        match cs with
        | [] => Forall_nil_2 Q
        | c :: cs => Forall_cons_2 Q c cs (Characteristic_nested_ind c) (go cs)
        end) cs)
  end.
End Characteristic_ind.

Lemma write_parm_render depth p : write_parm depth false p = doc_render (parm_doc p).
Proof.
  unfold write_parm, parm_doc, wap_newline. cbn [doc_render]. unfold render_attrs.
  destruct (p_Flag p), (decide (p_DataType p = "")); cbn [map str_concat app attr_name attr_value];
  rewrite ?str_app_nil_l, ?str_app_nil_r, <- ?str_app_assoc; reflexivity.
Qed.

Lemma writeCharacteristic_render c : ∀ depth,
  writeCharacteristic depth false c = doc_render (char_doc c).
Proof.
  induction c as [t ps cs IH] using Characteristic_nested_ind. intros depth.
  cbn [writeCharacteristic char_doc]. unfold wap_newline.
  destruct (decide (ps = [] ∧ cs = [])); cbn [doc_render]; unfold render_attrs;
  cbn [map str_concat attr_name attr_value]; rewrite ?str_app_nil_l, ?str_app_nil_r, <- ?str_app_assoc.
  { reflexivity. }
  rewrite map_app, str_concat_app, <- ?str_app_assoc.
  replace (str_concat (map (write_parm (S depth) false) ps)) with (str_concat (map doc_render (map parm_doc ps))).
  2: { rewrite map_map. f_equal. apply map_ext. intros p. by rewrite write_parm_render. }
  replace (str_concat (map (writeCharacteristic (S depth) false) cs)) with
    (str_concat (map doc_render (map char_doc cs))).
  2: { rewrite map_map. clear -IH. induction IH as [|c cs Hc _ IH]; [done|]. simpl. by rewrite IH, Hc. }
  reflexivity.
Qed.

(** ** Reading it back *)

(** Text a document can carry: XML characters; a flag has no value. *)
Definition parm_ok (p : Parm) : bool :=
  xml_chars (p_Name p) && xml_chars (p_Value p) && xml_chars (p_DataType p) &&
  (negb (p_Flag p) || bool_decide (p_Value p = "")).
Fixpoint char_ok (c : Characteristic) : bool :=
  match c with mkChar t ps cs => xml_chars t && forallb parm_ok ps && forallb char_ok cs end.
Definition document_ok (d : Document) : bool :=
  xml_chars (doc_Version d) && forallb char_ok (doc_Characteristics d).

(** How deep a characteristic nests. *)
Fixpoint nest (c : Characteristic) : Z :=
  match c with
  | mkChar _ ps cs => 1 + Z.max (if decide (ps = []) then 0 else 1) (foldr Z.max 0 (map nest cs))
  end.

Lemma read_parm_doc p : parm_ok p = true → read_parm (tree_of ∅ (parm_doc p)) = p.
Proof.
  destruct p as [n v t f]. unfold parm_ok; simpl. intros E. btrue. unfold parm_doc; simpl.
  destruct f; simpl in *.
  - apply bool_decide_eq_true in H0 as ->. by destruct (decide (t = "")) as [->|].
  - by destruct (decide (t = "")) as [->|].
Qed.

Lemma parm_doc_name p : tree_name (tree_of ∅ (parm_doc p)) = Some (mkName "" "parm").
Proof. unfold parm_doc. by destruct (p_Flag p), (decide (p_DataType p = "")). Qed.

Lemma char_doc_name c : tree_name (tree_of ∅ (char_doc c)) = Some (mkName "" "characteristic").
Proof. destruct c as [t ps cs]. simpl. by destruct (decide _). Qed.

(** The inner loop of [read_char], by itself. *)
Fixpoint read_kids (depth : Z) (ks : list xtree) : result (list Parm * list Characteristic) :=
  match ks with
  | [] => Ok ([], [])
  | (TElem n _ _ as k) :: ks =>
      if decide (name_Local n = "parm") then
        if maxUnmarshalDepth <=? depth + 2 then Err xml_error
        else let? (ps, cs) := read_kids depth ks in Ok (read_parm k :: ps, cs)
      else if decide (name_Local n = "characteristic") then
        let? c := read_char (depth + 2) k in
        let? (ps, cs) := read_kids depth ks in Ok (ps, c :: cs)
      else read_kids depth ks
  | TText _ :: ks => read_kids depth ks
  end%go.

Lemma read_char_eq depth n a ks :
  read_char depth (TElem n a ks) =
  (if maxUnmarshalDepth <=? depth then Err xml_error
   else let? (ps, cs) := read_kids depth ks in
        Ok (mkChar (default "" (attr_last (Tag "type") (TElem n a ks))) ps cs))%go.
Proof.
  cbn [read_char]. destruct (maxUnmarshalDepth <=? depth); [done|]. f_equal.
  induction ks as [|[m b ls|s] ks IH]; [done| |done]. cbn [read_kids].
  by rewrite <- IH.
Qed.

Lemma read_kids_parms depth ps ks :
  forallb parm_ok ps = true → (ps ≠ [] → depth + 2 < maxUnmarshalDepth) →
  read_kids depth (map (tree_of ∅) (map parm_doc ps) ++ ks) =
  (let? (qs, cs) := read_kids depth ks in Ok (ps ++ qs, cs))%go.
Proof.
  intros Hp Hd. induction ps as [|p ps IH]; cbn [map app forallb] in *.
  { by destruct (read_kids depth ks) as [[qs cs]|]. }
  btrue. pose proof (parm_doc_name p) as Hn. pose proof (read_parm_doc p H) as Hr.
  destruct (tree_of ∅ (parm_doc p)) as [n b ls|]; [|done]. injection Hn as ->. cbn [read_kids].
  rewrite decide_True by done. destruct (Z.leb_spec maxUnmarshalDepth (depth + 2)); [specialize (Hd ltac:(done)); lia|].
  rewrite IH by (try done; intros; lia). rewrite Hr. by destruct (read_kids depth ks) as [[qs cs]|].
Qed.

Lemma nest_pos c : 1 ≤ nest c.
Proof. destruct c. simpl. destruct (decide _); lia. Qed.

Lemma nest_child c cs : c ∈ cs → nest c ≤ foldr Z.max 0 (map nest cs).
Proof.
  intros Hc. induction cs as [|d cs IH]; [by apply elem_of_nil in Hc|]. simpl.
  apply elem_of_cons in Hc as [->|Hc]; [lia|]. specialize (IH Hc). lia.
Qed.

Lemma read_char_doc c : ∀ depth,
  char_ok c = true → depth + 2 * (nest c - 1) < maxUnmarshalDepth →
  read_char depth (tree_of ∅ (char_doc c)) = Ok c.
Proof.
  induction c as [t ps cs IH] using Characteristic_nested_ind. intros depth Hok Hd.
  cbn [char_doc]. pose proof (nest_pos (mkChar t ps cs)) as Hn.
  cbn [char_ok] in Hok. btrue.
  assert (Hlt : depth < maxUnmarshalDepth) by lia.
  destruct (decide (ps = [] ∧ cs = [])) as [[-> ->]|Hne].
  { cbn [tree_of]. rewrite read_char_eq. destruct (Z.leb_spec maxUnmarshalDepth depth); [lia|]. done. }
  cbn [tree_of]. rewrite read_char_eq. destruct (Z.leb_spec maxUnmarshalDepth depth); [lia|].
  change (scope ∅ [mkAttr "type" t]) with (∅ : gmap string string).
  rewrite map_app. rewrite read_kids_parms; [|done|].
  2: { intros Hps. simpl in Hd. rewrite decide_False in Hd by done. lia. }
  assert (read_kids depth (map (tree_of ∅) (map char_doc cs)) = Ok ([], cs)) as ->.
  { assert (∀ c, c ∈ cs → depth + 2 + 2 * (nest c - 1) < maxUnmarshalDepth) as Hcs.
    { intros c Hc. apply nest_child in Hc. simpl in Hd. lia. }
    rename H0 into Hf. clear -IH Hf Hcs. induction IH as [|c cs Hc _ IH']; [done|]. simpl in Hf. btrue.
    cbn [map]. pose proof (char_doc_name c) as Hn.
    pose proof (Hc (depth + 2) ltac:(done) (Hcs c (list_elem_of_here _ _))) as Hr.
    destruct (tree_of ∅ (char_doc c)) as [n b ls|]; [|done]. injection Hn as ->. cbn [read_kids].
    rewrite decide_False, decide_True by done. rewrite Hr. cbn [result_bind].
    rewrite IH'; [done|done|]. intros d Hin. apply Hcs. by apply list_elem_of_further. }
  cbn [result_bind]. by rewrite app_nil_r.
Qed.

Lemma parm_doc_ok p : parm_ok p = true → doc_ok (parm_doc p) = true.
Proof.
  unfold parm_ok, parm_doc. intros E. btrue. cbn [doc_ok forallb app].
  change (tag_name "parm") with true. unfold attr_ok at 1. cbn [attr_name attr_value].
  rewrite H. change (tag_name "name") with true. cbn [andb].
  destruct (p_Flag p), (decide (p_DataType p = "")); cbn [app forallb]; unfold attr_ok;
  cbn [attr_name attr_value]; change (tag_name "value") with true; change (tag_name "datatype") with true;
  rewrite ?H1, ?H2; done.
Qed.

Lemma char_doc_ok c : char_ok c = true → doc_ok (char_doc c) = true.
Proof.
  induction c as [t ps cs IH] using Characteristic_nested_ind. cbn [char_ok char_doc]. intros E. btrue.
  assert (forallb attr_ok [mkAttr "type" t] = true) as Ha.
  { cbn [forallb]. unfold attr_ok. cbn [attr_name attr_value]. rewrite H. done. }
  destruct (decide _); cbn [doc_ok]; rewrite Ha; [done|].
  rewrite forallb_app. apply andb_true_iff. split; [done|]. apply andb_true_iff.
  rewrite !forallb_forall in *. split.
  - intros x Hx. apply in_map_iff in Hx as (p & <- & Hp). apply parm_doc_ok. auto.
  - intros x Hx. apply in_map_iff in Hx as (c & <- & Hc). rewrite Forall_forall in IH.
    apply IH; [by apply list_elem_of_In|auto].
Qed.

Section roundtrip.
Context `{CaseTables} `{NameTables}.

Lemma WapEncode_render d :
  WapValidate (Some d) = Ok tt →
  WapEncode (Some d) (mkWapOptions false false) = Ok (doc_render (document_doc d)).
Proof.
  intros Hv. unfold WapEncode. rewrite Hv. cbn [result_bind wo_Indent wo_XMLDeclaration]. f_equal.
  unfold document_doc. cbn [doc_render]. unfold render_attrs.
  cbn [map str_concat attr_name attr_value]. rewrite ?str_app_nil_l, ?str_app_nil_r, <- ?str_app_assoc.
  replace (str_concat (map (writeCharacteristic 1 false) (doc_Characteristics d))) with
    (str_concat (map doc_render (map char_doc (doc_Characteristics d)))); [reflexivity|].
  rewrite map_map. f_equal. apply map_ext. intros c. by rewrite writeCharacteristic_render.
Qed.

Lemma read_document_doc d :
  document_ok d = true → Forall (λ c, nest c < 5000) (doc_Characteristics d) →
  read_document (tree_of ∅ (document_doc d)) = Ok d.
Proof.
  destruct d as [v cs]. unfold document_ok, document_doc. cbn [doc_Version doc_Characteristics].
  intros E Hn. btrue.
  assert (∃ n a, tree_of ∅ (DNode "wap-provisioningdoc" [mkAttr "version" v] (map char_doc cs)) =
    TElem n a (map (tree_of ∅) (map char_doc cs)) ∧ name_Local n = "wap-provisioningdoc" ∧
    attr_last (Tag "version") (TElem n a []) = Some v) as (n & a & -> & Hl & Ha).
  { eexists _, _. split; [reflexivity|]. done. }
  unfold read_document. cbn [tree_name]. rewrite decide_True by done.
  unfold kids_of. cbn [tree_kids]. unfold attr_last in *. cbn [tree_attrs] in *. rewrite Ha.
  assert (read_chars (List.filter (λ k, match k with TElem n _ _ => tag_match (Tag "characteristic") n
    | TText _ => false end) (map (tree_of ∅) (map char_doc cs))) = Ok cs) as ->; [|done].
  rename H2 into Hok. clear -Hn Hok. induction Hn as [|c cs Hc _ IH]; [done|].
  cbn [map forallb List.filter] in *. btrue. pose proof (char_doc_name c) as Hname.
  assert (read_char 2 (tree_of ∅ (char_doc c)) = Ok c) as Hr.
  { apply read_char_doc; [done|]. unfold maxUnmarshalDepth. lia. }
  destruct (tree_of ∅ (char_doc c)) as [m b ls|]; [|done]. injection Hname as ->.
  change (tag_match (Tag "characteristic") (mkName "" "characteristic")) with true. cbn iota.
  cbn [read_chars]. rewrite Hr. cbn [result_bind]. by rewrite IH.
Qed.

Lemma WapDecode_render d :
  WapValidate (Some d) = Ok tt → document_ok d = true →
  Forall (λ c, nest c < 5000) (doc_Characteristics d) →
  WapDecode (doc_render (document_doc d)) = Ok d.
Proof.
  intros Hv Hok Hn. unfold WapDecode. rewrite unmarshal_render.
  - cbn [result_bind]. by rewrite read_document_doc, Hv.
  - unfold document_ok in Hok. btrue. unfold document_doc. cbn [doc_ok].
    change (tag_name "wap-provisioningdoc") with true. cbn [forallb]. unfold attr_ok.
    cbn [attr_name attr_value]. change (tag_name "version") with true.
    assert (xml_chars (doc_Version d) = true) as -> by done. cbn [andb].
    rewrite forallb_forall in *. intros x Hx. apply in_map_iff in Hx as (c & <- & Hc).
    apply char_doc_ok. auto.
Qed.

(** A valid provisioning document survives the wire: written and read again,
    it is the same document, for every document whose texts are XML characters,
    whose flags carry no value and that nests less than 5000 deep, the limit of
    encoding/xml. *)
Theorem wap_roundtrip d :
  WapValidate (Some d) = Ok tt → document_ok d = true →
  Forall (λ c, nest c < 5000) (doc_Characteristics d) →
  ∃ s, WapEncode (Some d) (mkWapOptions false false) = Ok s ∧ WapDecode s = Ok d.
Proof. intros. eexists. split; [by apply WapEncode_render|by apply WapDecode_render]. Qed.
End roundtrip.

Definition ascii_case : CaseTables := Build_CaseTables (λ r, r).
Definition sample_document_wap : Document :=
  mkDocument "1.1" [mkChar "APPLICATION"
    [mkParm "APPID" "w7" "" false; mkParm "USEHWDEVID" "" "" true]
    [mkChar "APPAUTH" [mkParm "AAUTHSECRET" "a<&b" "" false] []]; mkChar "Empty" [] []].

Lemma wap_roundtrip_witness :
  ∃ s, WapEncode (H := ascii_case) (Some sample_document_wap) (mkWapOptions false false) = Ok s ∧
    WapDecode (H := ascii_case) (H0 := ascii_names) s = Ok sample_document_wap.
Proof.
  apply (wap_roundtrip (H := ascii_case) (H0 := ascii_names)); [reflexivity..|].
  repeat constructor.
Defined.
