(* ===== verification/GoTime.v ===== *)
(** * Calendar dates

    What package time computes for [Format]: the date and the clock of an
    instant in UTC, and the layout the SOAP timestamps use. *)
From stdpp Require Import base gmap strings list.
From Stdlib Require Import ZArith Lia Ascii ZifyBool.
From S2P Require Import Prelude GoStrings.

Local Open Scope Z_scope.

Definition isLeap (year : Z) : bool :=
  (year mod 4 =? 0) && (negb (year mod 100 =? 0) || (year mod 400 =? 0)).

Definition days_in (leap : bool) (month : Z) : Z :=
  if month =? 2 then (if leap then 29 else 28)
  else if (month =? 4) || (month =? 6) || (month =? 9) || (month =? 11) then 30 else 31.

(** The month and day of a day of the year, counted from zero. *)
Fixpoint month_day (fuel : nat) (leap : bool) (month yday : Z) : Z * Z :=
  match fuel with
  | O => (month, yday + 1)
  | S fuel =>
      if yday <? days_in leap month then (month, yday + 1)
      else month_day fuel leap (month + 1) (yday - days_in leap month)
  end.

(** The date of a day, counted from January 1 of year 1: whole cycles of 400,
    100, 4 and 1 years are taken off; the last year of a cycle may be longer. *)
Definition civil (days : Z) : Z * Z * Z :=
  let n400 := days / 146097 in
  let d := days mod 146097 in
  let n100 := Z.min (d / 36524) 3 in
  let d := d - n100 * 36524 in
  let n4 := d / 1461 in
  let d := d - n4 * 1461 in
  let n1 := Z.min (d / 365) 3 in
  let yday := d - n1 * 365 in
  let year := n400 * 400 + n100 * 100 + n4 * 4 + n1 + 1 in
  let '(m, md) := month_day 11 (isLeap year) 1 yday in
  (year, m, md).

(** An integer in at least [width] digits. *)
Definition pad_int (width : nat) (n : Z) : string :=
  let d := digits (Z.abs n) in
  (if n <? 0 then "-" else "") +:+
  str_concat (replicate (width - String.length d) "0") +:+ d.

Definition DayNs : Z := 24 * Hour.

(** [t.UTC().Format("2006-01-02T15:04:05.000Z")]; the milliseconds are cut off,
    not rounded. *)
Definition format_timestamp (t : Time) : string :=
  let '(year, month, day) := civil (t / DayNs) in
  let ns := t mod DayNs in
  pad_int 4 year +:+ "-" +:+ pad_int 2 month +:+ "-" +:+ pad_int 2 day +:+ "T" +:+
  pad_int 2 (ns / Hour) +:+ ":" +:+ pad_int 2 (ns mod Hour / Minute) +:+ ":" +:+
  pad_int 2 (ns mod Minute / Second) +:+ "." +:+ pad_int 3 (ns mod Second / 1000000) +:+ "Z".

(** The hour the sources of Go are named after, and the ends of some years. *)
Example format_2006 : format_timestamp (time_Add 63271811045000000000 999999) =
  "2006-01-02T15:04:05.000Z".
Proof. reflexivity. Qed.
Example civil_first : civil 0 = (1, 1, 1).
Proof. reflexivity. Qed.
Example civil_leap_day : civil (730119 + 59) = (2000, 2, 29).
Proof. reflexivity. Qed.
Example civil_new_year : civil (730119 + 365) = (2000, 12, 31) ∧ civil (730119 + 366) = (2001, 1, 1).
Proof. split; reflexivity. Qed.

(** Timestamps are made of digits and their separators. *)
Lemma pad_int_printable w n : str_forall printable (pad_int w n) = true.
Proof.
  unfold pad_int. rewrite !str_forall_app, !andb_true_iff. split_and!.
  - by destruct (n <? 0).
  - by induction (w - String.length (digits (Z.abs n)))%nat as [|k IH].
  - eapply str_forall_impl; [|by apply digits_fuel_all].
    intros c. unfold is_digit, printable. lia.
Qed.

Lemma format_timestamp_printable t : str_forall printable (format_timestamp t) = true.
Proof.
  unfold format_timestamp. destruct (civil (t / DayNs)) as [[y m] d].
  by rewrite !str_forall_app, !pad_int_printable.
Qed.
