(* ===== verification/Soap.v ===== *)
(** * SOAP envelopes and faults

    mdmprotocol/soap: message.go (the decoded request envelope), encode.go (the
    reply envelope and the element writer) and fault.go (the faults of
    MS-MDE2).  The body type of an envelope is a parameter: its zero value and
    a reader that fills it from a Body element. *)
From stdpp Require Import base gmap strings list.
From Stdlib Require Import ZArith Lia Ascii.
From S2P Require Import Prelude GoStrings GoTime SyncmlModel Encode Utf8 GoXml XmlLex XmlDoc.
From S2P Require Import SyncmlAuth.

Local Open Scope Z_scope.
Local Open Scope go_scope.

(** ** constants.go *)

Definition NamespaceEnvelope : string := "http://www.w3.org/2003/05/soap-envelope".
Definition NamespaceEnvelope11 : string := "http://schemas.xmlsoap.org/soap/envelope/".
Definition NamespaceAddressing : string := "http://www.w3.org/2005/08/addressing".
Definition NamespaceSecurity : string :=
  "http://docs.oasis-open.org/wss/2004/01/oasis-200401-wss-wssecurity-secext-1.0.xsd".
Definition NamespaceUtility : string :=
  "http://docs.oasis-open.org/wss/2004/01/oasis-200401-wss-wssecurity-utility-1.0.xsd".
Definition NamespaceTrust : string := "http://docs.oasis-open.org/ws-sx/ws-trust/200512".
Definition NamespaceAuthorization : string := "http://schemas.xmlsoap.org/ws/2006/12/authorization".
Definition NamespaceSchemaInstance : string := "http://www.w3.org/2001/XMLSchema-instance".
Definition NamespaceSchema : string := "http://www.w3.org/2001/XMLSchema".
Definition NamespaceDiagnostics : string :=
  "http://schemas.microsoft.com/2004/09/ServiceModel/Diagnostics".
Definition NamespaceEnrollment : string := "http://schemas.microsoft.com/windows/pki/2009/01/enrollment".
Definition AnonymousAddress : string := "http://www.w3.org/2005/08/addressing/anonymous".
Definition EncodingBase64 : string :=
  "http://docs.oasis-open.org/wss/2004/01/oasis-200401-wss-wssecurity-secext-1.0.xsd#base64binary".
Definition PasswordText : string :=
  "http://docs.oasis-open.org/wss/2004/01/oasis-200401-wss-username-token-profile-1.0#PasswordText".
Definition UsernameTokenID : string := "uuid-cc1ccc1f-2fba-4bcf-b063-ffc0cac77917-4".
Definition FaultLang : string := "en-US".
Definition SoapMaxSize : Z := Z.shiftl 1 20.

(** ** message.go *)

Record BinarySecurityToken := mkBST {
  bst_ValueType : string; bst_EncodingType : string; bst_Value : string }.
Record Password := mkPassword { pw_Type : string; pw_Value : string }.
Record UsernameToken := mkUsernameToken {
  ut_ID : string; ut_Username : string; ut_Password : Password }.
Record Timestamp := mkTimestamp { ts_ID : string; ts_Created : string; ts_Expires : string }.
Record Security := mkSecurity {
  sec_MustUnderstand : string;
  sec_Timestamp : option Timestamp;
  sec_UsernameToken : option UsernameToken;
  sec_BinarySecurityToken : option BinarySecurityToken }.
(** [ReplyTo] is the address of the endpoint, when there is one. *)
Record SoapHeader := mkSoapHeader {
  sh_Action : string;
  sh_MessageID : string;
  sh_ReplyTo : option string;
  sh_To : string;
  sh_Security : option Security }.
Record Envelope (B : Type) := mkEnvelope {
  env_XMLName : Name; env_Header : SoapHeader; env_Body : B }.
Arguments mkEnvelope {B} _ _ _.
Arguments env_XMLName {B} _.
Arguments env_Header {B} _.
Arguments env_Body {B} _.

(** The zero values. *)
Definition BST0 : BinarySecurityToken := mkBST "" "" "".
Definition UsernameToken0 : UsernameToken := mkUsernameToken "" "" (mkPassword "" "").
Definition Security0 : Security := mkSecurity "" None None None.
Definition SoapHeader0 : SoapHeader := mkSoapHeader "" "" None "" None.

(** *** Reading the header

    Each reader takes the value the field already has: an element that occurs
    again writes over it. *)
Definition attr_or (g : tag) (t : xtree) (old : string) : string := default old (attr_last g t).

Definition read_bst (t : xtree) (b : BinarySecurityToken) : BinarySecurityToken :=
  mkBST (attr_or (Tag "ValueType") t (bst_ValueType b))
    (attr_or (Tag "EncodingType") t (bst_EncodingType b)) (chardata t).

Definition read_password (t : xtree) (p : Password) : Password :=
  mkPassword (attr_or (Tag "Type") t (pw_Type p)) (chardata t).

Definition read_username (t : xtree) (u : UsernameToken) : UsernameToken :=
  fold_kids (λ u n k,
    if tag_match (Tag "Username") n then mkUsernameToken (ut_ID u) (chardata k) (ut_Password u)
    else if tag_match (Tag "Password") n
    then mkUsernameToken (ut_ID u) (ut_Username u) (read_password k (ut_Password u))
    else u)
    (mkUsernameToken (attr_or (TagNS NamespaceUtility "Id") t (ut_ID u)) (ut_Username u)
       (ut_Password u)) t.

Definition read_timestamp (t : xtree) (s : Timestamp) : Timestamp :=
  mkTimestamp (attr_or (TagNS NamespaceUtility "Id") t (ts_ID s))
    (text_field (TagNS NamespaceUtility "Created") t (ts_Created s))
    (text_field (TagNS NamespaceUtility "Expires") t (ts_Expires s)).

Definition read_security (t : xtree) (s : Security) : Security :=
  fold_kids (λ s n k,
    if tag_match (TagNS NamespaceUtility "Timestamp") n then
      mkSecurity (sec_MustUnderstand s)
        (Some (read_timestamp k (default (mkTimestamp "" "" "") (sec_Timestamp s))))
        (sec_UsernameToken s) (sec_BinarySecurityToken s)
    else if tag_match (Tag "UsernameToken") n then
      mkSecurity (sec_MustUnderstand s) (sec_Timestamp s)
        (Some (read_username k (default UsernameToken0 (sec_UsernameToken s))))
        (sec_BinarySecurityToken s)
    else if tag_match (Tag "BinarySecurityToken") n then
      mkSecurity (sec_MustUnderstand s) (sec_Timestamp s) (sec_UsernameToken s)
        (Some (read_bst k (default BST0 (sec_BinarySecurityToken s))))
    else s)
    (mkSecurity (attr_or (Tag "mustUnderstand") t (sec_MustUnderstand s)) (sec_Timestamp s)
       (sec_UsernameToken s) (sec_BinarySecurityToken s)) t.

Definition read_header (t : xtree) (h : SoapHeader) : SoapHeader :=
  fold_kids (λ h n k,
    if tag_match (TagNS NamespaceAddressing "Action") n then
      mkSoapHeader (chardata k) (sh_MessageID h) (sh_ReplyTo h) (sh_To h) (sh_Security h)
    else if tag_match (TagNS NamespaceAddressing "MessageID") n then
      mkSoapHeader (sh_Action h) (chardata k) (sh_ReplyTo h) (sh_To h) (sh_Security h)
    else if tag_match (TagNS NamespaceAddressing "ReplyTo") n then
      mkSoapHeader (sh_Action h) (sh_MessageID h)
        (Some (text_field (TagNS NamespaceAddressing "Address") k (default "" (sh_ReplyTo h))))
        (sh_To h) (sh_Security h)
    else if tag_match (TagNS NamespaceAddressing "To") n then
      mkSoapHeader (sh_Action h) (sh_MessageID h) (sh_ReplyTo h) (chardata k) (sh_Security h)
    else if tag_match (TagNS NamespaceSecurity "Security") n then
      mkSoapHeader (sh_Action h) (sh_MessageID h) (sh_ReplyTo h) (sh_To h)
        (Some (read_security k (default Security0 (sh_Security h))))
    else h) h t.

(** *** Tokens *)

(** [strings.Map] over the runes: the four white space characters go; a byte
    that is not part of a rune becomes U+FFFD. *)
Fixpoint drop_space_fuel (fuel : nat) (s : string) : string :=
  match fuel, s with
  | S fuel, String _ _ =>
      let '(r, n) := decode_rune s in
      (if (r =? 32) || (r =? 9) || (r =? 13) || (r =? 10) then "" else encode_rune r) +:+
      drop_space_fuel fuel (sdrop n s)
  | _, _ => ""
  end.
Definition drop_space (s : string) : string := drop_space_fuel (String.length s) s.

(** [func (t *BinarySecurityToken) Bytes()]; a nil token is [None]. *)
Definition BST_Bytes (t : option BinarySecurityToken) : result string :=
  match t with
  | None => Err [soap_ErrEncoding]
  | Some t =>
      if negb (bool_decide (bst_EncodingType t ∈ [""; EncodingBase64])) then Err [soap_ErrEncoding]
      else match b64_decode (drop_space (bst_Value t)) with
      | Some out => Ok out
      | None => Err [soap_ErrEncoding]
      end
  end.

(** *** Decode *)

(** The trimming Decode does at the end. *)
Definition trim_header (h : SoapHeader) : SoapHeader :=
  mkSoapHeader (TrimSpace (sh_Action h)) (TrimSpace (sh_MessageID h))
    (option_map TrimSpace (sh_ReplyTo h)) (TrimSpace (sh_To h))
    (option_map (λ s, mkSecurity (sec_MustUnderstand s) (sec_Timestamp s)
       (option_map (λ u, mkUsernameToken (ut_ID u) (TrimSpace (ut_Username u)) (ut_Password u))
          (sec_UsernameToken s)) (sec_BinarySecurityToken s)) (sh_Security h)).

Section decode.
Context `{NameTables} {B : Type} (B0 : B) (read_body : xtree → B → result B).

Fixpoint read_envelope (ks : list xtree) (h : SoapHeader) (b : B) : result (SoapHeader * B) :=
  match ks with
  | [] => Ok (h, b)
  | (TElem n _ _ as k) :: ks =>
      if tag_match (Tag "Header") n then read_envelope ks (read_header k h) b
      else if tag_match (Tag "Body") n then let? b := read_body k b in read_envelope ks h b
      else read_envelope ks h b
  | TText _ :: ks => read_envelope ks h b
  end.

Definition Unmarshal_envelope (data : string) : result (Envelope B) :=
  let? t := Unmarshal_tree data in
  match t with
  | TElem n _ ks =>
      if decide (name_Local n = "Envelope") then
        let? (h, b) := read_envelope ks SoapHeader0 B0 in Ok (mkEnvelope n h b)
      else Err xml_error
  | TText _ => Err xml_error
  end.

Definition SoapDecode (data : string) (maxSize : Z) : result (Envelope B) :=
  let maxSize := if maxSize <=? 0 then SoapMaxSize else maxSize in
  if maxSize <? len data then Err [soap_ErrTooLarge]
  else match Unmarshal_envelope data with
  | Err e => Err (soap_ErrSyntax :: e)
  | Ok env =>
      if negb (bool_decide (name_Space (env_XMLName env) ∈ [NamespaceEnvelope; NamespaceEnvelope11]))
      then Err [soap_ErrSyntax]
      else Ok (mkEnvelope (env_XMLName env) (trim_header (env_Header env)) (env_Body env))
  end.

Definition Envelope_Version (e : Envelope B) : string :=
  if decide (name_Space (env_XMLName e) = NamespaceEnvelope11) then NamespaceEnvelope11
  else NamespaceEnvelope.
End decode.

(** ** encode.go *)

(** [type Element struct] and [Write]. *)
Record Element := mkElement {
  el_Name : string; el_Attrs : list (string * string); el_Text : string; el_Empty : bool }.

Definition Element_Write (e : Element) : string :=
  "<" +:+ el_Name e +:+
  str_concat (map (λ a, " " +:+ fst a +:+ "=" +:+ quote +:+ EscapeText (snd a) +:+ quote) (el_Attrs e)) +:+
  (if bool_decide (el_Text e = "") && el_Empty e then "/>"
   else ">" +:+ EscapeText (el_Text e) +:+ "</" +:+ el_Name e +:+ ">").

(** The elements most writers write. *)
Definition text_elem (name text : string) : string := Element_Write (mkElement name [] text false).

Record TimestampRange := mkTimestampRange { tr_Created : Time; tr_Expires : Time }.

Record Response := mkResponse {
  rsp_Action : string;
  rsp_RelatesTo : string;
  rsp_ActivityID : string;
  rsp_Timestamp : option TimestampRange;
  rsp_SchemaAttributes : bool;
  rsp_Body : string }.

Definition SoapEncode (r : Response) : result string :=
  if decide (rsp_Action r = "") then Err [soap_ErrResponse]
  else if decide (rsp_RelatesTo r = "") then Err [soap_ErrResponse]
  else if len (TrimSpace (rsp_Body r)) =? 0 then Err [soap_ErrResponse]
  else Ok (
    "<s:Envelope xmlns:s=" +:+ quote +:+ NamespaceEnvelope +:+ quote +:+ " xmlns:a=" +:+ quote +:+
    NamespaceAddressing +:+ quote +:+
    (match rsp_Timestamp r with
     | Some _ => " xmlns:u=" +:+ quote +:+ NamespaceUtility +:+ quote
     | None => ""
     end) +:+
    "><s:Header><a:Action s:mustUnderstand=" +:+ quote +:+ "1" +:+ quote +:+ ">" +:+
    EscapeText (rsp_Action r) +:+ "</a:Action>" +:+
    (if decide (rsp_ActivityID r = "") then ""
     else "<ActivityId CorrelationId=" +:+ quote +:+ EscapeText (rsp_ActivityID r) +:+ quote +:+
          " xmlns=" +:+ quote +:+ NamespaceDiagnostics +:+ quote +:+ ">" +:+
          EscapeText (rsp_ActivityID r) +:+ "</ActivityId>") +:+
    "<a:RelatesTo>" +:+ EscapeText (rsp_RelatesTo r) +:+ "</a:RelatesTo>" +:+
    (match rsp_Timestamp r with
     | Some ts =>
         "<o:Security s:mustUnderstand=" +:+ quote +:+ "1" +:+ quote +:+ " xmlns:o=" +:+ quote +:+
         NamespaceSecurity +:+ quote +:+ "><u:Timestamp u:Id=" +:+ quote +:+ "_0" +:+ quote +:+
         "><u:Created>" +:+ format_timestamp (tr_Created ts) +:+ "</u:Created><u:Expires>" +:+
         format_timestamp (tr_Expires ts) +:+ "</u:Expires></u:Timestamp></o:Security>"
     | None => ""
     end) +:+
    "</s:Header><s:Body" +:+
    (if rsp_SchemaAttributes r
     then " xmlns:xsi=" +:+ quote +:+ NamespaceSchemaInstance +:+ quote +:+ " xmlns:xsd=" +:+ quote +:+
          NamespaceSchema +:+ quote
     else "") +:+
    ">" +:+ rsp_Body r +:+ "</s:Body></s:Envelope>").

(** ** fault.go *)

Definition Subcode := string.
Definition SubcodeMessageFormat : Subcode := "s:MessageFormat".
Definition SubcodeAuthentication : Subcode := "s:Authentication".
Definition SubcodeAuthorization : Subcode := "s:Authorization".
Definition SubcodeCertificateRequest : Subcode := "s:CertificateRequest".
Definition SubcodeEnrollmentServer : Subcode := "s:EnrollmentServer".
Definition SubcodeInternalServiceFault : Subcode := "a:InternalServiceFault".
Definition SubcodeInvalidSecurity : Subcode := "a:InvalidSecurity".

Fixpoint assoc_str (k : string) (l : list (string * Z)) : Z :=
  match l with
  | [] => 0
  | (k', v) :: l => if decide (k = k') then v else assoc_str k l
  end.

Definition Subcode_HResult (s : Subcode) : Z :=
  assoc_str s
    [(SubcodeMessageFormat, 0x80180001); (SubcodeAuthentication, 0x80180002);
     (SubcodeAuthorization, 0x80180003); (SubcodeCertificateRequest, 0x80180004);
     (SubcodeEnrollmentServer, 0x80180005); (SubcodeInternalServiceFault, 0x80180006);
     (SubcodeInvalidSecurity, 0x80180007)].
Definition Subcode_Valid (s : Subcode) : bool := negb (Subcode_HResult s =? 0).

Definition ErrorType := string.
Definition ErrorDeviceCapReached : ErrorType := "DeviceCapReached".
Definition ErrorDeviceNotSupported : ErrorType := "DeviceNotSupported".
Definition ErrorNotSupported : ErrorType := "NotSupported".
Definition ErrorNotEligibleToRenew : ErrorType := "NotEligibleToRenew".
Definition ErrorInMaintenance : ErrorType := "InMaintenance".
Definition ErrorUserLicense : ErrorType := "UserLicense".
Definition ErrorInvalidEnrollmentData : ErrorType := "InvalidEnrollmentData".
Definition ErrorCustomServerError : ErrorType := "CustomServerError".

Definition ErrorType_HResult (e : ErrorType) : Z :=
  assoc_str e
    [(ErrorDeviceCapReached, 0x80180013); (ErrorDeviceNotSupported, 0x80180014);
     (ErrorNotSupported, 0x80180015); (ErrorNotEligibleToRenew, 0x80180016);
     (ErrorInMaintenance, 0x80180017); (ErrorUserLicense, 0x80180018);
     (ErrorInvalidEnrollmentData, 0x80180019); (ErrorCustomServerError, 0x80180032)].
Definition ErrorType_Valid (e : ErrorType) : bool := negb (ErrorType_HResult e =? 0).

(** [type Fault struct]; the cause is what errors.Is sees through it. *)
Record Fault := mkFault {
  f_Subcode : Subcode;
  f_Reason : string;
  f_Detail : ErrorType;
  f_TraceID : string;
  f_Cause : error }.

(** An error value where a *Fault matters: the sentinels errors.Is finds, and
    the *Fault errors.As finds. *)
Record ferror := mkFerror { fe_is : error; fe_as : option Fault }.

Definition fault_error (f : Fault) : ferror := mkFerror (f_Cause f) (Some f).
Definition plain_error (e : error) : ferror := mkFerror e None.

Definition NewFault (sub : Subcode) (reason : string) : Fault := mkFault sub reason "" "" [].
Definition WithDetail (t : ErrorType) (traceID : string) (f : Fault) : Fault :=
  mkFault (f_Subcode f) (f_Reason f) t traceID (f_Cause f).
Definition WithCause (e : error) (f : Fault) : Fault :=
  mkFault (f_Subcode f) (f_Reason f) (f_Detail f) (f_TraceID f) e.

(** [AsFault] on an error that is not nil. *)
Definition AsFault (e : ferror) : Fault :=
  match fe_as e with
  | Some f => f
  | None => mkFault SubcodeInternalServiceFault "internal service fault" "" "" (fe_is e)
  end.

Definition fault_body (f : Fault) : string :=
  "<s:Fault><s:Code><s:Value>s:Receiver</s:Value><s:Subcode><s:Value>" +:+ EscapeText (f_Subcode f) +:+
  "</s:Value></s:Subcode></s:Code><s:Reason><s:Text xml:lang=" +:+ quote +:+ FaultLang +:+ quote +:+
  ">" +:+ EscapeText (f_Reason f) +:+ "</s:Text></s:Reason>" +:+
  (if decide (f_Detail f = "") then ""
   else "<s:Detail><deviceenrollmentserviceerror xmlns=" +:+ quote +:+ NamespaceEnrollment +:+ quote +:+
        ">" +:+ text_elem "errortype" (f_Detail f) +:+ text_elem "message" (f_Reason f) +:+
        text_elem "traceid" (f_TraceID f) +:+ "</deviceenrollmentserviceerror></s:Detail>") +:+
  "</s:Fault>".

(** [EncodeFault] of a fault that is not nil. *)
Definition EncodeFault (f : Fault) (action relatesTo : string) : result string :=
  if negb (Subcode_Valid (f_Subcode f)) then Err [soap_ErrResponse]
  else if negb (bool_decide (f_Detail f = "")) && negb (ErrorType_Valid (f_Detail f))
  then Err [soap_ErrResponse]
  else SoapEncode (mkResponse action relatesTo (f_TraceID f) None false (fault_body f)).

(** *** Reading faults *)

Record ErrorDetail := mkErrorDetail {
  ed_ErrorType : string; ed_Message : string; ed_TraceID : string }.
Record DecodedFault := mkDecodedFault {
  df_Code : string; df_Subcode : string; df_Reason : string; df_Detail : option ErrorDetail }.

(** [faultBody]: the fields of the Fault element. *)
Definition DecodedFault0 : DecodedFault := mkDecodedFault "" "" "" None.

(** [Code struct { Value; Subcode struct { Value } }] *)
Definition read_code (t : xtree) (d : DecodedFault) : DecodedFault :=
  fold_kids (λ d n k,
    if tag_match (Tag "Value") n then
      mkDecodedFault (chardata k) (df_Subcode d) (df_Reason d) (df_Detail d)
    else if tag_match (Tag "Subcode") n then
      mkDecodedFault (df_Code d) (text_field (Tag "Value") k (df_Subcode d)) (df_Reason d) (df_Detail d)
    else d) d t.

Definition read_error_detail (t : xtree) (e : ErrorDetail) : ErrorDetail :=
  mkErrorDetail (text_field (Tag "errortype") t (ed_ErrorType e))
    (text_field (Tag "message") t (ed_Message e)) (text_field (Tag "traceid") t (ed_TraceID e)).

Definition read_detail (t : xtree) (e : option ErrorDetail) : option ErrorDetail :=
  foldl (λ e k, Some (read_error_detail k (default (mkErrorDetail "" "" "") e))) e
    (kids_of (Tag "deviceenrollmentserviceerror") t).

Definition read_fault (t : xtree) (d : DecodedFault) : DecodedFault :=
  fold_kids (λ d n k,
    if tag_match (Tag "Code") n then read_code k d
    else if tag_match (Tag "Reason") n then
      mkDecodedFault (df_Code d) (df_Subcode d) (text_field (Tag "Text") k (df_Reason d)) (df_Detail d)
    else if tag_match (Tag "Detail") n then
      mkDecodedFault (df_Code d) (df_Subcode d) (df_Reason d) (read_detail k (df_Detail d))
    else d) d t.

Definition read_fault_body (t : xtree) (b : option DecodedFault) : result (option DecodedFault) :=
  Ok (foldl (λ b k, Some (read_fault k (default DecodedFault0 b))) b (kids_of (Tag "Fault") t)).

(** [DecodeFault]: [None] for an envelope without a fault. *)
Definition DecodeFault `{NameTables} (data : string) : result (option DecodedFault) :=
  let? env := SoapDecode None read_fault_body data 0 in Ok (env_Body env).
