(* ===== verification/SoapProofs.v ===== *)
(** * SOAP envelopes on the wire

    The reply envelope as a document, what a client reads from it, and that a
    fault arrives as it was sent ([fault_roundtrip]). *)
From stdpp Require Import base gmap strings list.
From Stdlib Require Import ZArith Lia Ascii ZifyBool.
From S2P Require Import Prelude GoStrings GoTime SyncmlModel Encode Utf8 GoXml XmlLex XmlDoc.
From S2P Require Import SyncmlAuth Soap.

Local Open Scope Z_scope.

(** ** The reply envelope *)

Definition activity_docs (id : string) : list xdoc :=
  if decide (id = "") then []
  else [DLeaf "ActivityId" [mkAttr "CorrelationId" id; mkAttr "xmlns" NamespaceDiagnostics] id].
Definition timestamp_docs (ts : option TimestampRange) : list xdoc :=
  match ts with
  | None => []
  | Some ts =>
      [DNode "o:Security" [mkAttr "s:mustUnderstand" "1"; mkAttr "xmlns:o" NamespaceSecurity]
        [DNode "u:Timestamp" [mkAttr "u:Id" "_0"]
          [DLeaf "u:Created" [] (format_timestamp (tr_Created ts));
           DLeaf "u:Expires" [] (format_timestamp (tr_Expires ts))]]]
  end.
Definition env_attrs (ts : option TimestampRange) : list attr :=
  [mkAttr "xmlns:s" NamespaceEnvelope; mkAttr "xmlns:a" NamespaceAddressing] ++
  match ts with None => [] | Some _ => [mkAttr "xmlns:u" NamespaceUtility] end.
Definition body_attrs (schema : bool) : list attr :=
  if schema
  then [mkAttr "xmlns:xsi" NamespaceSchemaInstance; mkAttr "xmlns:xsd" NamespaceSchema] else [].

Definition env_doc (r : Response) (docs : list xdoc) : xdoc :=
  DNode "s:Envelope" (env_attrs (rsp_Timestamp r))
    [DNode "s:Header" []
       (DLeaf "a:Action" [mkAttr "s:mustUnderstand" "1"] (rsp_Action r) ::
        activity_docs (rsp_ActivityID r) ++
        DLeaf "a:RelatesTo" [] (rsp_RelatesTo r) :: timestamp_docs (rsp_Timestamp r));
     DNode "s:Body" (body_attrs (rsp_SchemaAttributes r)) docs].

Lemma timestamp_plain t : str_forall plain_text (format_timestamp t) = true.
Proof.
  unfold format_timestamp. destruct (civil (t / DayNs)) as [[y m] d].
  assert (∀ w n, str_forall plain_text (pad_int w n) = true) as Hp.
  { intros w n. unfold pad_int. rewrite !str_forall_app, !andb_true_iff. split_and!.
    - by destruct (n <? 0).
    - by induction (w - String.length (digits (Z.abs n)))%nat as [|k IH].
    - eapply str_forall_impl; [|by apply digits_fuel_all].
      intros c. unfold is_digit, plain_text. lia. }
  by rewrite !str_forall_app, !Hp.
Qed.

(** The constants of the envelopes need no escaping. *)
Ltac escape_consts :=
  repeat match goal with
    | |- context [EscapeText (format_timestamp ?t)] =>
        rewrite (EscapeText_plain (format_timestamp t)) by apply timestamp_plain
    | |- context [EscapeText ?s] => rewrite (EscapeText_plain s) by reflexivity
    end.

Lemma SoapEncode_doc r docs s :
  rsp_Body r = str_concat (map doc_render docs) → SoapEncode r = Ok s →
  s = doc_render (env_doc r docs).
Proof.
  intros Hb. unfold SoapEncode. repeat (case_decide; [done|]). destruct (_ =? 0); [done|].
  intros [= <-]. rewrite Hb. unfold env_doc, env_attrs, body_attrs, activity_docs, timestamp_docs.
  destruct (rsp_Timestamp r) as [ts|], (decide (rsp_ActivityID r = "")), (rsp_SchemaAttributes r);
  cbn [doc_render map str_concat app]; unfold render_attrs; cbn [map str_concat attr_name attr_value];
  escape_consts; rewrite ?str_app_nil_l, ?str_app_nil_r, <- ?str_app_assoc; reflexivity.
Qed.

(** ** What a client reads *)

Definition env_ns (ts : option TimestampRange) : gmap string string := scope ∅ (env_attrs ts).

(** The header of a reply, as the client has it. *)
Definition reply_header (r : Response) : SoapHeader :=
  mkSoapHeader (TrimSpace (rsp_Action r)) "" None ""
    (match rsp_Timestamp r with
     | None => None
     | Some ts => Some (mkSecurity "1"
         (Some (mkTimestamp "_0" (format_timestamp (tr_Created ts)) (format_timestamp (tr_Expires ts))))
         None None)
     end).

(** The resolved names of the envelope's elements do not depend on the texts. *)
Ltac soap_cbn := cbn [sh_Security sh_Action sh_MessageID sh_ReplyTo sh_To SoapHeader0 default
  sec_MustUnderstand sec_Timestamp Security0 sec_UsernameToken sec_BinarySecurityToken
  ts_ID ts_Created ts_Expires].

Lemma read_security_reply ts c e :
  read_security (tree_of (scope (env_ns (Some ts)) [])
    (DNode "o:Security" [mkAttr "s:mustUnderstand" "1"; mkAttr "xmlns:o" NamespaceSecurity]
      [DNode "u:Timestamp" [mkAttr "u:Id" "_0"] [DLeaf "u:Created" [] c; DLeaf "u:Expires" [] e]]))
    Security0 =
  mkSecurity "1" (Some (mkTimestamp "_0" c e)) None None.
Proof.
  unfold read_security. rewrite fold_kids_node. fold_docs soap_cbn.
  unfold read_timestamp, attr_or, attr_last. rewrite !tree_of_attrs, !text_field_node. cbn [doc_attrs].
  fold_docs ltac:(rewrite ?chardata_leaf). reflexivity.
Qed.

Lemma read_header_reply r :
  read_header (tree_of (env_ns (rsp_Timestamp r)) (DNode "s:Header" []
       (DLeaf "a:Action" [mkAttr "s:mustUnderstand" "1"] (rsp_Action r) ::
        activity_docs (rsp_ActivityID r) ++
        DLeaf "a:RelatesTo" [] (rsp_RelatesTo r) :: timestamp_docs (rsp_Timestamp r)))) SoapHeader0 =
  mkSoapHeader (rsp_Action r) "" None "" (sh_Security (reply_header r)).
Proof.
  unfold read_header. rewrite fold_kids_node. unfold activity_docs, timestamp_docs, reply_header.
  destruct (rsp_Timestamp r) as [ts|], (decide (rsp_ActivityID r = "")); cbn [app];
  fold_docs ltac:(soap_cbn; rewrite ?chardata_leaf, ?read_security_reply); reflexivity.
Qed.

Section decode.
Context `{NameTables} {B : Type} (B0 : B) (read_body : xtree → B → result B).

(** Any envelope in the SOAP 1.2 name space. *)
Lemma SoapDecode_env eattrs hdr battrs docs h maxSize :
  let x := DNode "s:Envelope" eattrs [DNode "s:Header" [] hdr; DNode "s:Body" battrs docs] in
  let ns := scope ∅ eattrs in
  doc_ok x = true → ns !! "s" = Some NamespaceEnvelope →
  len (doc_render x) ≤ (if maxSize <=? 0 then SoapMaxSize else maxSize) →
  read_header (tree_of ns (DNode "s:Header" [] hdr)) SoapHeader0 = h →
  SoapDecode B0 read_body (doc_render x) maxSize =
  match read_body (tree_of ns (DNode "s:Body" battrs docs)) B0 with
  | Ok b => Ok (mkEnvelope (mkName NamespaceEnvelope "Envelope") (trim_header h) b)
  | Err e => Err (soap_ErrSyntax :: e)
  end.
Proof.
  intros x ns Hok Hs Hl Hh. unfold SoapDecode.
  destruct (Z.ltb_spec (if maxSize <=? 0 then SoapMaxSize else maxSize) (len (doc_render x))); [lia|].
  unfold Unmarshal_envelope. rewrite unmarshal_render by done. cbn [result_bind].
  change (tree_of ∅ x) with (TElem (translate ns true (name_of "s:Envelope"))
    (map (tree_attr ns) eattrs)
    [tree_of ns (DNode "s:Header" [] hdr); tree_of ns (DNode "s:Body" battrs docs)]).
  cbn iota beta.
  assert (translate ns true (name_of "s:Envelope") = mkName NamespaceEnvelope "Envelope") as ->.
  { change (mkName (default "s" (ns !! "s")) "Envelope" = mkName NamespaceEnvelope "Envelope").
    by rewrite Hs. }
  rewrite decide_True by done.
  set (hd := DNode "s:Header" [] hdr) in *. set (bd := DNode "s:Body" battrs docs) in *.
  destruct (tree_of_elem ns hd) as (a1 & k1 & E1), (tree_of_elem ns bd) as (a2 & k2 & E2).
  rewrite E1 in Hh |- *. rewrite E2 at 1. cbn [read_envelope].
  rewrite !doc_name_local, Hh. cbn [doc_tag hd bd]. change (name_of "s:Header") with (mkName "s" "Header").
  change (name_of "s:Body") with (mkName "s" "Body"). cbn [name_Local].
  rewrite (bool_decide_true ("Header" = "Header")), (bool_decide_false ("Body" = "Header")),
    (bool_decide_true ("Body" = "Body")) by done.
  rewrite <- E2. destruct (read_body (tree_of ns bd) B0) as [b|e]; [|reflexivity].
  cbn [result_bind env_XMLName name_Space]. rewrite bool_decide_true by set_solver. reflexivity.
Qed.

(** The body of a reply, read where its name spaces are declared. *)
Definition body_tree (r : Response) (docs : list xdoc) : xtree :=
  tree_of (env_ns (rsp_Timestamp r)) (DNode "s:Body" (body_attrs (rsp_SchemaAttributes r)) docs).

Lemma SoapDecode_doc r docs :
  doc_ok (env_doc r docs) = true → len (doc_render (env_doc r docs)) ≤ SoapMaxSize →
  SoapDecode B0 read_body (doc_render (env_doc r docs)) 0 =
  match read_body (body_tree r docs) B0 with
  | Ok b => Ok (mkEnvelope (mkName NamespaceEnvelope "Envelope") (reply_header r) b)
  | Err e => Err (soap_ErrSyntax :: e)
  end.
Proof.
  intros Hok Hl. unfold env_doc. erewrite SoapDecode_env; [| | | |apply read_header_reply]; try done.
  - fold (env_ns (rsp_Timestamp r)). fold (body_tree r docs).
    destruct (read_body (body_tree r docs) B0) as [b|e]; [|done]. do 2 f_equal.
    unfold trim_header, reply_header. cbn [sh_Action sh_Security sh_MessageID sh_ReplyTo sh_To].
    by destruct (rsp_Timestamp r).
  - by destruct (rsp_Timestamp r).
Qed.
End decode.

(** ** Well-formed envelopes *)

Definition response_chars (r : Response) : bool :=
  xml_chars (rsp_Action r) && xml_chars (rsp_RelatesTo r) && xml_chars (rsp_ActivityID r).

Lemma env_doc_ok r docs :
  response_chars r = true → forallb doc_ok docs = true → doc_ok (env_doc r docs) = true.
Proof.
  unfold response_chars. intros E Hd. btrue. unfold env_doc, env_attrs, body_attrs, activity_docs, timestamp_docs.
  destruct (rsp_Timestamp r) as [ts|], (decide (rsp_ActivityID r = "")), (rsp_SchemaAttributes r);
  cbn [app doc_ok forallb attr_ok attr_name attr_value]; unfold attr_ok; cbn [attr_name attr_value];
  rewrite ?H, ?H0, ?H1, ?Hd, ?(xml_chars_plain (format_timestamp _)) by apply timestamp_plain; reflexivity.
Qed.

(** ** Faults *)

Definition fault_doc (f : Fault) : xdoc :=
  DNode "s:Fault" []
    ([DNode "s:Code" []
        [DLeaf "s:Value" [] "s:Receiver";
         DNode "s:Subcode" [] [DLeaf "s:Value" [] (f_Subcode f)]];
      DNode "s:Reason" [] [DLeaf "s:Text" [mkAttr "xml:lang" FaultLang] (f_Reason f)]] ++
     (if decide (f_Detail f = "") then []
      else [DNode "s:Detail" []
              [DNode "deviceenrollmentserviceerror" [mkAttr "xmlns" NamespaceEnrollment]
                 [DLeaf "errortype" [] (f_Detail f); DLeaf "message" [] (f_Reason f);
                  DLeaf "traceid" [] (f_TraceID f)]]])).

Lemma fault_body_doc f : fault_body f = str_concat (map doc_render [fault_doc f]).
Proof.
  unfold fault_body, fault_doc, text_elem, Element_Write.
  destruct (decide (f_Detail f = "")) as [E|E];
  cbn [doc_render map str_concat app el_Name el_Attrs el_Text el_Empty];
  unfold render_attrs; cbn [map str_concat attr_name attr_value]; rewrite ?andb_false_r;
  rewrite (EscapeText_plain "s:Receiver"), (EscapeText_plain FaultLang),
    ?(EscapeText_plain NamespaceEnrollment) by reflexivity;
  rewrite ?str_app_nil_l, ?str_app_nil_r, <- ?str_app_assoc; reflexivity.
Qed.

(** The fault as the device has it. *)
Definition decoded (f : Fault) : DecodedFault :=
  mkDecodedFault "s:Receiver" (f_Subcode f) (f_Reason f)
    (if decide (f_Detail f = "") then None
     else Some (mkErrorDetail (f_Detail f) (f_Reason f) (f_TraceID f))).

Definition fault_ns : gmap string string := scope (env_ns None) [].
Ltac fault_cbn := cbn [df_Code df_Subcode df_Reason df_Detail DecodedFault0].

Lemma read_code_doc sub d :
  read_code (tree_of (scope fault_ns []) (DNode "s:Code" []
    [DLeaf "s:Value" [] "s:Receiver"; DNode "s:Subcode" [] [DLeaf "s:Value" [] sub]])) d =
  mkDecodedFault "s:Receiver" sub (df_Reason d) (df_Detail d).
Proof.
  unfold read_code. rewrite fold_kids_node.
  fold_docs ltac:(rewrite ?text_field_node; fold_docs idtac; rewrite ?chardata_leaf; fault_cbn).
  reflexivity.
Qed.

Lemma read_detail_doc ty msg tr :
  read_detail (tree_of (scope fault_ns []) (DNode "s:Detail" []
    [DNode "deviceenrollmentserviceerror" [mkAttr "xmlns" NamespaceEnrollment]
       [DLeaf "errortype" [] ty; DLeaf "message" [] msg; DLeaf "traceid" [] tr]])) None =
  Some (mkErrorDetail ty msg tr).
Proof.
  unfold read_detail. rewrite kids_of_node. cbn [List.filter]. doc_names. cbn [map foldl default].
  unfold read_error_detail. cbn [ed_ErrorType ed_Message ed_TraceID]. rewrite !text_field_node.
  fold_docs idtac. by rewrite !chardata_leaf.
Qed.

Lemma read_fault_doc f : read_fault (tree_of fault_ns (fault_doc f)) DecodedFault0 = decoded f.
Proof.
  unfold read_fault, fault_doc, decoded. rewrite fold_kids_node.
  destruct (decide (f_Detail f = "")); cbn [app];
  fold_docs ltac:(rewrite ?read_code_doc, ?text_field_node; fault_cbn; rewrite ?read_detail_doc;
    fold_docs idtac; rewrite ?chardata_leaf); reflexivity.
Qed.

Definition fault_chars (f : Fault) : bool :=
  xml_chars (f_Reason f) && xml_chars (f_TraceID f).

(** The table of error words holds plain words. *)
Lemma subcode_plain s : Subcode_Valid s = true → str_forall plain_text s = true.
Proof. unfold Subcode_Valid, Subcode_HResult, assoc_str. repeat (case_decide; [subst; done|]). done. Qed.
Lemma errortype_plain e : ErrorType_Valid e = true → str_forall plain_text e = true.
Proof. unfold ErrorType_Valid, ErrorType_HResult, assoc_str. repeat (case_decide; [subst; done|]). done. Qed.

Lemma fault_doc_ok f :
  Subcode_Valid (f_Subcode f) = true → f_Detail f = "" ∨ ErrorType_Valid (f_Detail f) = true →
  fault_chars f = true → doc_ok (fault_doc f) = true.
Proof.
  intros Hs Hd Hc. unfold fault_chars in Hc. btrue. unfold fault_doc.
  pose proof (xml_chars_plain _ (subcode_plain _ Hs)) as Hs'.
  destruct (decide (f_Detail f = "")) as [E|E];
  cbn [app doc_ok forallb attr_ok attr_name attr_value]; unfold attr_ok; cbn [attr_name attr_value].
  - by rewrite Hs', H.
  - destruct Hd as [Hd|Hd]; [done|]. by rewrite Hs', H, H0, (xml_chars_plain _ (errortype_plain _ Hd)).
Qed.

(** The fault a server encodes is the fault a device reads: its subcode, its
    reason, and its detail with the trace id. *)
Theorem fault_roundtrip `{NameTables} f action relatesTo s :
  EncodeFault f action relatesTo = Ok s →
  xml_chars action && xml_chars relatesTo && fault_chars f = true → len s ≤ SoapMaxSize →
  DecodeFault s = Ok (Some (decoded f)).
Proof.
  intros He Hc Hl. unfold EncodeFault in He.
  destruct (Subcode_Valid (f_Subcode f)) eqn:Hs; [|done]. cbn [negb] in He.
  destruct (negb (bool_decide (f_Detail f = "")) && negb (ErrorType_Valid (f_Detail f))) eqn:Hd; [done|].
  apply (SoapEncode_doc _ [fault_doc f]) in He; [|apply fault_body_doc]. subst s. btrue.
  unfold DecodeFault. rewrite SoapDecode_doc; [|apply env_doc_ok|done].
  - unfold read_fault_body, body_tree. cbn [rsp_Timestamp rsp_SchemaAttributes body_attrs].
    rewrite kids_of_node. cbn [List.filter]. fold fault_ns.
    assert (tag_match (Tag "Fault") (doc_name fault_ns (fault_doc f)) = true) as -> by done.
    cbn [map foldl default result_bind env_Body]. by rewrite read_fault_doc.
  - unfold response_chars, fault_chars in *. cbn [rsp_Action rsp_RelatesTo rsp_ActivityID]. btrue. by rewrite H0, H2, H3.
  - cbn [forallb]. rewrite fault_doc_ok; [done..| |done].
    destruct (decide (f_Detail f = "")); [by left|right]. rewrite bool_decide_false in Hd by done.
    by destruct (ErrorType_Valid (f_Detail f)).
Qed.

Definition cap_fault : Fault :=
  WithDetail ErrorDeviceCapReached "trace-1" (NewFault SubcodeAuthorization "too many <devices>").
Definition cap_text : string :=
  match EncodeFault cap_fault "a:action" "urn:uuid:1" with Ok s => s | Err _ => "" end.
Lemma fault_roundtrip_witness :
  EncodeFault cap_fault "a:action" "urn:uuid:1" = Ok cap_text ∧
  @DecodeFault ascii_names cap_text = Ok (Some (decoded cap_fault)).
Proof.
  assert (EncodeFault cap_fault "a:action" "urn:uuid:1" = Ok cap_text) as E by (vm_compute; reflexivity).
  split; [exact E|]. apply (@fault_roundtrip ascii_names _ _ _ _ E).
  - vm_compute. reflexivity.
  - apply Z.leb_le. vm_compute. reflexivity.
Defined.
