(* ===== verification/EnrollMsg.v ===== *)
(** * The messages of the enrollment protocol

    mdmprotocol/enroll/discover.go, policy.go and rst.go: the request and reply
    bodies of Discover, GetPolicies and RequestSecurityToken, with both ends of
    each.  A decoder returns the header it could read next to the message, as
    the sources do; a client's decoder returns a fault of the server as such. *)
From stdpp Require Import base gmap strings list.
From Stdlib Require Import ZArith Lia Ascii.
From S2P Require Import Prelude GoStrings SyncmlAuth Encode Utf8 GoXml XmlLex XmlDoc.
From S2P Require Import GoTime Soap EnrollTypes.

Local Open Scope Z_scope.
Local Open Scope go_scope.

(** ** discover.go *)

Record DiscoverRequest := mkDiscoverRequest {
  dq_EmailAddress : string;
  dq_RequestVersion : string;
  dq_DeviceType : DeviceType;
  dq_ApplicationVersion : string;
  dq_OSEdition : string;
  dq_AuthPolicies : list AuthPolicy }.

Record DiscoverResponse := mkDiscoverResponse {
  dr_AuthPolicy : AuthPolicy;
  dr_EnrollmentVersion : string;
  dr_EnrollmentPolicyServiceURL : string;
  dr_EnrollmentServiceURL : string;
  dr_AuthenticationServiceURL : string;
  dr_DeviceAssociationMaaURL : string;
  dr_GatewayService : string }.

(** A body with one pointer to a struct: the elements that filled it, [] for a
    nil pointer. *)
Definition body_ptr (g : tag) (t : xtree) (b : list xtree) : result (list xtree) :=
  Ok (b ++ kids_of g t).

(** The fields of a struct that several elements fill. *)
Definition ptr_texts (b : list xtree) (gs : list tag) : list string :=
  flat_map (path_texts gs) b.
Definition ptr_text (b : list xtree) (gs : list tag) : string := List.last (ptr_texts b gs) "".

Definition tag_Discover : tag := TagNS NamespaceDiscovery "Discover".
Definition discover_request (b : list xtree) : DiscoverRequest :=
  let f n := TrimSpace (ptr_text b [Tag "request"; Tag n]) in
  mkDiscoverRequest (f "EmailAddress") (f "RequestVersion") (f "DeviceType")
    (f "ApplicationVersion") (f "OSEdition")
    (map TrimSpace (ptr_texts b [Tag "request"; Tag "AuthPolicies"; Tag "AuthPolicy"])).

(** What a decoder on the server returns: no header, with an error, or the
    header next to the message or an error. *)
Inductive request (A : Type) : Type :=
  | Unread (e : error)
  | Headed (h : SoapHeader) (r : result A).
Arguments Unread {A} e.
Arguments Headed {A} h r.

Definition decoded_with {A} `{NameTables} (g : tag) (view : list xtree → A)
    (data : string) (maxSize : Z) : request A :=
  match SoapDecode [] (body_ptr g) data maxSize with
  | Err e => Unread e
  | Ok env =>
      Headed (env_Header env)
        (match env_Body env with [] => Err [enroll_ErrMessage] | b => Ok (view b) end)
  end.

Definition DecodeDiscover `{NameTables} : string → Z → request DiscoverRequest :=
  decoded_with tag_Discover discover_request.

Definition Supports (p : AuthPolicy) (r : DiscoverRequest) : bool :=
  existsb (λ q, bool_decide (q = p)) (dq_AuthPolicies r).

(** The optional elements. *)
Definition text_elem_opt (name text : string) : string :=
  if decide (text = "") then "" else text_elem name text.

Definition EncodeDiscoverResponse (resp : DiscoverResponse) (relatesTo activityID : string)
    : result string :=
  if negb (AuthPolicy_Valid (dr_AuthPolicy resp)) then Err [enroll_ErrMessage]
  else if decide (dr_EnrollmentServiceURL resp = "") then Err [enroll_ErrMessage]
  else SoapEncode (mkResponse ActionDiscoverResponse relatesTo activityID None true
    ("<DiscoverResponse xmlns=" +:+ quote +:+ NamespaceDiscovery +:+ quote +:+ "><DiscoverResult>" +:+
     text_elem "AuthPolicy" (dr_AuthPolicy resp) +:+
     text_elem_opt "EnrollmentVersion" (dr_EnrollmentVersion resp) +:+
     text_elem_opt "EnrollmentPolicyServiceUrl" (dr_EnrollmentPolicyServiceURL resp) +:+
     text_elem "EnrollmentServiceUrl" (dr_EnrollmentServiceURL resp) +:+
     text_elem_opt "AuthenticationServiceUrl" (dr_AuthenticationServiceURL resp) +:+
     text_elem_opt "DeviceAssociationMaaUrl" (dr_DeviceAssociationMaaURL resp) +:+
     text_elem_opt "GatewayService" (dr_GatewayService resp) +:+
     "</DiscoverResult></DiscoverResponse>")).

Record Credentials := mkCredentials { cr_Username : string; cr_Password : string }.
#[export] Instance Credentials_eq_dec : EqDecision Credentials.
Proof. solve_decision. Defined.

Definition encodeRequest (action messageID to : string) (creds : option Credentials) (body : string)
    : result string :=
  if decide (messageID = "" ∨ to = "") then Err [enroll_ErrMessage]
  else Ok (
    "<s:Envelope xmlns:s=" +:+ quote +:+ NamespaceEnvelope +:+ quote +:+ " xmlns:a=" +:+ quote +:+
    NamespaceAddressing +:+ quote +:+ " xmlns:u=" +:+ quote +:+ NamespaceUtility +:+ quote +:+
    " xmlns:wsse=" +:+ quote +:+ NamespaceSecurity +:+ quote +:+ " xmlns:wst=" +:+ quote +:+
    NamespaceTrust +:+ quote +:+ " xmlns:ac=" +:+ quote +:+ NamespaceAuthorization +:+ quote +:+ ">" +:+
    "<s:Header>" +:+
    Element_Write (mkElement "a:Action" [("s:mustUnderstand", "1")] action false) +:+
    text_elem "a:MessageID" messageID +:+
    "<a:ReplyTo><a:Address>" +:+ AnonymousAddress +:+ "</a:Address></a:ReplyTo>" +:+
    Element_Write (mkElement "a:To" [("s:mustUnderstand", "1")] to false) +:+
    match creds with
    | None => ""
    | Some c =>
        "<wsse:Security s:mustUnderstand=" +:+ quote +:+ "1" +:+ quote +:+
        "><wsse:UsernameToken u:Id=" +:+ quote +:+ UsernameTokenID +:+ quote +:+ ">" +:+
        text_elem "wsse:Username" (cr_Username c) +:+
        Element_Write (mkElement "wsse:Password" [("wsse:Type", PasswordText)] (cr_Password c) false) +:+
        "</wsse:UsernameToken></wsse:Security>"
    end +:+
    "</s:Header><s:Body xmlns:xsi=" +:+ quote +:+ NamespaceSchemaInstance +:+ quote +:+ " xmlns:xsd=" +:+
    quote +:+ NamespaceSchema +:+ quote +:+ ">" +:+ body +:+ "</s:Body></s:Envelope>").

Definition EncodeDiscover (req : DiscoverRequest) (messageID to : string) : result string :=
  if decide (dq_EmailAddress req = "" ∨ dq_RequestVersion req = "" ∨ dq_AuthPolicies req = [])
  then Err [enroll_ErrMessage]
  else encodeRequest ActionDiscover messageID to None
    ("<Discover xmlns=" +:+ quote +:+ NamespaceDiscovery +:+ quote +:+ "><request xmlns:i=" +:+ quote +:+
     NamespaceSchemaInstance +:+ quote +:+ ">" +:+
     text_elem "EmailAddress" (dq_EmailAddress req) +:+ text_elem "OSEdition" (dq_OSEdition req) +:+
     text_elem "RequestVersion" (dq_RequestVersion req) +:+ text_elem "DeviceType" (dq_DeviceType req) +:+
     text_elem "ApplicationVersion" (dq_ApplicationVersion req) +:+
     "<AuthPolicies>" +:+ str_concat (map (text_elem "AuthPolicy") (dq_AuthPolicies req)) +:+
     "</AuthPolicies></request></Discover>").

(** What a client's decoder returns: the message, the server's fault, which is
    then the error, or another error. *)
Inductive reply (A : Type) : Type :=
  | ROk (a : A)
  | RFault (f : DecodedFault)
  | RErr (e : error).
Arguments ROk {A} a.
Arguments RFault {A} f.
Arguments RErr {A} e.

(** A client's decoder: a fault first, then the body. *)
Definition reply_with {A} `{NameTables} (read_body : xtree → list xtree → result (list xtree))
    (view : list xtree → result A) (data : string) : option SoapHeader * reply A :=
  match DecodeFault data with
  | Err e => (None, RErr e)
  | Ok (Some f) => (None, RFault f)
  | Ok None =>
      match SoapDecode [] read_body data 0 with
      | Err e => (None, RErr e)
      | Ok env =>
          (Some (env_Header env),
           match env_Body env with
           | [] => RErr [enroll_ErrMessage]
           | b => match view b with Ok a => ROk a | Err e => RErr e end
           end)
      end
  end.

Definition tag_DiscoverResponse : tag := TagNS NamespaceDiscovery "DiscoverResponse".
Definition discover_response (b : list xtree) : DiscoverResponse :=
  let f n := TrimSpace (ptr_text b [Tag "DiscoverResult"; Tag n]) in
  mkDiscoverResponse (f "AuthPolicy") (f "EnrollmentVersion") (f "EnrollmentPolicyServiceUrl")
    (f "EnrollmentServiceUrl") (f "AuthenticationServiceUrl") (f "DeviceAssociationMaaUrl")
    (f "GatewayService").

Definition DecodeDiscoverResponse `{NameTables} : string → option SoapHeader * reply DiscoverResponse :=
  reply_with (body_ptr tag_DiscoverResponse) (λ b, Ok (discover_response b)).

(** ** policy.go *)

Record GetPoliciesRequest := mkGetPoliciesRequest {
  gp_LastUpdate : string; gp_PreferredLanguage : string }.

Record OID := mkOID {
  oid_Value : string; oid_Group : Z; oid_ReferenceID : Z; oid_DefaultName : string }.

Record PolicyResponse := mkPolicyResponse {
  pr_PolicyID : string;
  pr_CommonName : string;
  pr_PolicyOIDReference : Z;
  pr_Validity : Duration;
  pr_Renewal : Duration;
  pr_Enroll : bool;
  pr_AutoEnroll : bool;
  pr_MinimalKeyLength : Z;
  pr_CryptoProviders : list string;
  pr_MajorRevision : Z;
  pr_MinorRevision : Z;
  pr_HashAlgorithm : OID }.

Definition SHA256 : OID := mkOID "2.16.840.1.101.3.4.2.1" 4 0 "szOID_NIST_sha256".

Definition DefaultPolicy : PolicyResponse :=
  mkPolicyResponse "" "go-microsoft-dm" 0 (365 * 24 * Hour) (60 * 24 * Hour) true false 2048
    ["Microsoft Platform Crypto Provider"; "Microsoft Software Key Storage Provider"] 101 0 SHA256.

Definition PolicyResponse_Validate (p : option PolicyResponse) : result unit :=
  match p with
  | None => Err [enroll_ErrMessage]
  | Some p =>
      if (pr_Validity p <=? 0) || (pr_Renewal p <=? 0) then Err [enroll_ErrMessage]
      else if pr_Validity p <=? pr_Renewal p then Err [enroll_ErrMessage]
      else if pr_MinimalKeyLength p <? 2048 then Err [enroll_ErrMessage]
      else if decide (oid_Value (pr_HashAlgorithm p) = "") then Err [enroll_ErrMessage]
      else Ok tt
  end.

Definition tag_GetPolicies : tag := TagNS NamespacePolicy "GetPolicies".
Definition get_policies_request (b : list xtree) : GetPoliciesRequest :=
  mkGetPoliciesRequest (ptr_text b [Tag "client"; Tag "lastUpdate"])
    (ptr_text b [Tag "client"; Tag "preferredLanguage"]).

Definition DecodeGetPolicies `{NameTables} : string → Z → request GetPoliciesRequest :=
  decoded_with tag_GetPolicies get_policies_request.

Definition nilElement (name : string) : string :=
  "<" +:+ name +:+ " xsi:nil=" +:+ quote +:+ "true" +:+ quote +:+ "/>".
Definition intElement (name : string) (n : Z) : string := text_elem name (Itoa n).

Definition EncodeGetPolicies (messageID to : string) (creds : option Credentials) : result string :=
  encodeRequest ActionGetPolicies messageID to creds
    ("<GetPolicies xmlns=" +:+ quote +:+ NamespacePolicy +:+ quote +:+ "><client>" +:+
     nilElement "lastUpdate" +:+ nilElement "preferredLanguage" +:+ "</client>" +:+
     nilElement "requestFilter" +:+ "</GetPolicies>").

(** [Validity/time.Second]: the division of int64 truncates towards zero. *)
Definition policy_body (p : PolicyResponse) : string :=
  "<GetPoliciesResponse xmlns=" +:+ quote +:+ NamespacePolicy +:+ quote +:+ "><response>" +:+
  Element_Write (mkElement "policyID" [] (pr_PolicyID p) true) +:+
  nilElement "policyFriendlyName" +:+ nilElement "nextUpdateHours" +:+ nilElement "policiesNotChanged" +:+
  "<policies><policy>" +:+
  intElement "policyOIDReference" (pr_PolicyOIDReference p) +:+ nilElement "cAs" +:+
  "<attributes>" +:+ text_elem "commonName" (pr_CommonName p) +:+
  "<policySchema>3</policySchema><certificateValidity>" +:+
  intElement "validityPeriodSeconds" (Z.quot (pr_Validity p) Second) +:+
  intElement "renewalPeriodSeconds" (Z.quot (pr_Renewal p) Second) +:+
  "</certificateValidity><permission>" +:+
  text_elem "enroll" (strconv_FormatBool (pr_Enroll p)) +:+ text_elem "autoEnroll" (strconv_FormatBool (pr_AutoEnroll p)) +:+
  "</permission><privateKeyAttributes>" +:+
  intElement "minimalKeyLength" (pr_MinimalKeyLength p) +:+
  nilElement "keySpec" +:+ nilElement "keyUsageProperty" +:+ nilElement "permissions" +:+
  nilElement "algorithmOIDReference" +:+
  (if decide (pr_CryptoProviders p = []) then ""
   else "<cryptoProviders>" +:+ str_concat (map (text_elem "provider") (pr_CryptoProviders p)) +:+
        "</cryptoProviders>") +:+
  "</privateKeyAttributes><revision>" +:+
  intElement "majorRevision" (pr_MajorRevision p) +:+ intElement "minorRevision" (pr_MinorRevision p) +:+
  "</revision>" +:+
  str_concat (map nilElement ["supersededPolicies"; "privateKeyFlags"; "subjectNameFlags";
    "enrollmentFlags"; "generalFlags"]) +:+
  intElement "hashAlgorithmOIDReference" (oid_ReferenceID (pr_HashAlgorithm p)) +:+
  str_concat (map nilElement ["rARequirements"; "keyArchivalAttributes"; "extensions"]) +:+
  "</attributes></policy></policies></response>" +:+ nilElement "cAs" +:+ "<oIDs><oID>" +:+
  text_elem "value" (oid_Value (pr_HashAlgorithm p)) +:+
  intElement "group" (oid_Group (pr_HashAlgorithm p)) +:+
  intElement "oIDReferenceID" (oid_ReferenceID (pr_HashAlgorithm p)) +:+
  text_elem "defaultName" (oid_DefaultName (pr_HashAlgorithm p)) +:+
  "</oID></oIDs></GetPoliciesResponse>".

Definition EncodePolicyResponse (p : option PolicyResponse) (relatesTo : string) : result string :=
  let? _ := PolicyResponse_Validate p in
  match p with
  | None => Err [enroll_ErrMessage]
  | Some p => SoapEncode (mkResponse ActionGetPoliciesResponse relatesTo "" None true (policy_body p))
  end.

(** *** Reading a policy *)

(** int and bool fields of encoding/xml: an empty element is the zero value. *)
Definition xml_int (s : string) : option Z := if decide (s = "") then Some 0 else Atoi (TrimSpace s).
Definition xml_bool (s : string) : option bool :=
  if decide (s = "") then Some false else ParseBool (TrimSpace s).

Definition tag_PolicyResponse : tag := TagNS NamespacePolicy "GetPoliciesResponse".
Definition policy_path : list tag := [Tag "response"; Tag "policies"; Tag "policy"].
Definition attributes_path : list tag := policy_path ++ [Tag "attributes"].
Definition oid_path : list tag := [Tag "oIDs"; Tag "oID"].

(** The int and the bool fields of [policyResponseBody]. *)
Definition policy_ints : list (list tag) :=
  [policy_path ++ [Tag "policyOIDReference"];
   attributes_path ++ [Tag "certificateValidity"; Tag "validityPeriodSeconds"];
   attributes_path ++ [Tag "certificateValidity"; Tag "renewalPeriodSeconds"];
   attributes_path ++ [Tag "privateKeyAttributes"; Tag "minimalKeyLength"];
   attributes_path ++ [Tag "revision"; Tag "majorRevision"];
   attributes_path ++ [Tag "revision"; Tag "minorRevision"];
   attributes_path ++ [Tag "hashAlgorithmOIDReference"];
   oid_path ++ [Tag "group"]; oid_path ++ [Tag "oIDReferenceID"]].
Definition policy_bools : list (list tag) :=
  [attributes_path ++ [Tag "permission"; Tag "enroll"];
   attributes_path ++ [Tag "permission"; Tag "autoEnroll"]].

(** A field that does not parse fails the whole document. *)
Definition policy_fields_ok (t : xtree) : bool :=
  forallb (λ gs, forallb (λ s, bool_decide (is_Some (xml_int s))) (path_texts gs t)) policy_ints &&
  forallb (λ gs, forallb (λ s, bool_decide (is_Some (xml_bool s))) (path_texts gs t)) policy_bools.

Definition read_policy_body (t : xtree) (b : list xtree) : result (list xtree) :=
  let ks := kids_of tag_PolicyResponse t in
  if forallb policy_fields_ok ks then Ok (b ++ ks) else Err xml_error.

Definition ptr_int (b : list xtree) (gs : list tag) : Z := default 0 (xml_int (ptr_text b gs)).
Definition ptr_bool (b : list xtree) (gs : list tag) : bool := default false (xml_bool (ptr_text b gs)).

Definition read_oid (t : xtree) : OID :=
  mkOID (path_text [Tag "value"] t) (default 0 (xml_int (path_text [Tag "group"] t)))
    (default 0 (xml_int (path_text [Tag "oIDReferenceID"] t))) (path_text [Tag "defaultName"] t).

(** [time.Duration(n) * time.Second] wraps at 64 bits. *)
Definition policy_response (b : list xtree) : PolicyResponse :=
  let at_ gs := ptr_int b (attributes_path ++ gs) in
  let ref := at_ [Tag "hashAlgorithmOIDReference"] in
  mkPolicyResponse (ptr_text b [Tag "response"; Tag "policyID"])
    (ptr_text b (attributes_path ++ [Tag "commonName"]))
    (ptr_int b (policy_path ++ [Tag "policyOIDReference"]))
    (wrap64 (at_ [Tag "certificateValidity"; Tag "validityPeriodSeconds"] * Second))
    (wrap64 (at_ [Tag "certificateValidity"; Tag "renewalPeriodSeconds"] * Second))
    (ptr_bool b (attributes_path ++ [Tag "permission"; Tag "enroll"]))
    (ptr_bool b (attributes_path ++ [Tag "permission"; Tag "autoEnroll"]))
    (at_ [Tag "privateKeyAttributes"; Tag "minimalKeyLength"])
    (ptr_texts b (attributes_path ++ [Tag "privateKeyAttributes"; Tag "cryptoProviders"; Tag "provider"]))
    (at_ [Tag "revision"; Tag "majorRevision"]) (at_ [Tag "revision"; Tag "minorRevision"])
    (foldl (λ h o, if oid_ReferenceID o =? ref then o else h) (mkOID "" 0 0 "")
       (map read_oid (flat_map (at_path oid_path) b))).

Definition DecodePolicyResponse `{NameTables} : string → option SoapHeader * reply PolicyResponse :=
  reply_with read_policy_body (λ b, Ok (policy_response b)).

(** ** rst.go *)

(** [func (c *AdditionalContext) Get]; the second result reports presence. *)
Definition Context_Get (name : string) (c : AdditionalContext) : option string :=
  option_map ci_Value (List.find (λ it, bool_decide (ci_Name it = name)) (ac_Items c)).

Definition isTrue (v : string) : bool := EqualFold v "true".

Definition trim_item (raw : ContextItem) : ContextItem :=
  mkContextItem (TrimSpace (ci_Name raw)) (TrimSpace (ci_Value raw)).

(** The names the switch knows. *)
Definition context_names : list string :=
  ["OSEdition"; "OSVersion"; "DeviceName"; "EnrollmentType"; "DeviceType"; "ApplicationVersion";
   "DeviceID"; "EnrollmentData"; "MAC"; "IMEI"; "TargetedUserLoggedIn"; "Locale"; "HWDevID"; "BulkAADJ";
   "ZeroTouchProvisioning"; "OfflineAutoPilotEnrollmentCorrelator"; "UXInitiated";
   "ExternalMgmtAgentHint"; "DomainName"; "BootstrapDomainJoin"; "PlugandForget"; "WhiteGlove";
   "WhiteGloveHybridJoin"; "NotInOobe"; "AIKAttestationClaim"; "AIKPub"; "AIKCert";
   "AadAIKAttestationClaim"; "AADPub"; "EmmDeviceId"; "RequestVersion"; "AzureAttestationBlob";
   "AttestationStatus"; "AttestationStatusHResult"; "AzureAttestationCorrelationVector"; "AIKAlgorithm"].

(** [ParseAdditionalContext]: the loop assigns each field at every item of its
    name, so the last one stands; MAC and IMEI collect. *)
Definition ParseAdditionalContext (items : list ContextItem) : AdditionalContext :=
  let its := map trim_item items in
  let all n := map ci_Value (List.filter (λ it, bool_decide (ci_Name it = n)) its) in
  let str n := List.last (all n) "" in
  let flag n := isTrue (str n) in
  mkAdditionalContext (str "OSEdition") (str "OSVersion") (str "DeviceName") (str "EnrollmentType")
    (str "DeviceType") (str "ApplicationVersion") (str "DeviceID") (str "EnrollmentData")
    (all "MAC") (all "IMEI") (flag "TargetedUserLoggedIn") (str "Locale") (str "HWDevID")
    (flag "BulkAADJ") (str "ZeroTouchProvisioning") (str "OfflineAutoPilotEnrollmentCorrelator")
    (flag "UXInitiated") (str "ExternalMgmtAgentHint") (str "DomainName") (flag "BootstrapDomainJoin")
    (flag "PlugandForget") (flag "WhiteGlove") (flag "WhiteGloveHybridJoin") (flag "NotInOobe")
    (str "AIKAttestationClaim") (str "AIKPub") (str "AIKCert") (str "AadAIKAttestationClaim")
    (str "AADPub") (str "EmmDeviceId") (str "RequestVersion") (str "AzureAttestationBlob")
    (str "AttestationStatus") (str "AttestationStatusHResult") (str "AzureAttestationCorrelationVector")
    (str "AIKAlgorithm")
    (List.filter (λ it, negb (bool_decide (ci_Name it ∈ context_names))) its) its.

Record RequestSecurityToken := mkRST {
  rst_TokenType : string;
  rst_RequestType : string;
  rst_Token : BinarySecurityToken;
  rst_Context : AdditionalContext }.

Definition tag_RST : tag := TagNS NamespaceTrust "RequestSecurityToken".
Definition tag_BST : tag := TagNS NamespaceSecurity "BinarySecurityToken".

(** The token the elements fill, attribute by attribute; [None] for nil. *)
Definition read_token (ks : list xtree) : option BinarySecurityToken :=
  foldl (λ b k, Some (read_bst k (default BST0 b))) None ks.

Definition context_items (b : list xtree) : list ContextItem :=
  map (λ k, mkContextItem (attr_or (Tag "Name") k "") (path_text [Tag "Value"] k))
    (flat_map (at_path [TagNS NamespaceAuthorization "AdditionalContext"; Tag "ContextItem"]) b).

Definition request_token (b : list xtree) : RequestSecurityToken :=
  mkRST (TrimSpace (ptr_text b [Tag "TokenType"])) (TrimSpace (ptr_text b [Tag "RequestType"]))
    (match read_token (flat_map (at_path [tag_BST]) b) with
     | Some t => mkBST (TrimSpace (bst_ValueType t)) (TrimSpace (bst_EncodingType t)) (bst_Value t)
     | None => BST0
     end)
    (ParseAdditionalContext (context_items b)).

Definition DecodeRequestSecurityToken `{NameTables}
    : string → Z → request RequestSecurityToken :=
  decoded_with tag_RST request_token.

Definition EncodeRequestSecurityToken (messageID to : string) (creds : option Credentials)
    (csr : string) (items : list ContextItem) : result string :=
  if len csr =? 0 then Err [enroll_ErrMessage]
  else encodeRequest ActionRST messageID to creds
    ("<wst:RequestSecurityToken>" +:+
     text_elem "wst:TokenType" TokenTypeDeviceEnrollment +:+
     text_elem "wst:RequestType" RequestTypeIssue +:+
     Element_Write (mkElement "wsse:BinarySecurityToken"
       [("ValueType", ValueTypePKCS10); ("EncodingType", EncodingBase64)] (b64_encode csr) false) +:+
     "<ac:AdditionalContext xmlns=" +:+ quote +:+ NamespaceAuthorization +:+ quote +:+ ">" +:+
     str_concat (map (λ it,
       "<ac:ContextItem Name=" +:+ quote +:+ EscapeText (ci_Name it) +:+ quote +:+ ">" +:+
       text_elem "ac:Value" (ci_Value it) +:+ "</ac:ContextItem>") items) +:+
     "</ac:AdditionalContext></wst:RequestSecurityToken>").

Definition token_body (doc : string) : string :=
  "<RequestSecurityTokenResponseCollection xmlns=" +:+ quote +:+ NamespaceTrust +:+ quote +:+
  "><RequestSecurityTokenResponse>" +:+ text_elem "TokenType" TokenTypeDeviceEnrollment +:+
  "<DispositionMessage xmlns=" +:+ quote +:+ NamespaceEnrollment +:+ quote +:+
  "></DispositionMessage><RequestedSecurityToken>" +:+
  Element_Write (mkElement "BinarySecurityToken"
    [("ValueType", ValueTypeProvisionDoc); ("EncodingType", EncodingBase64);
     ("xmlns", NamespaceSecurity)] (b64_encode doc) false) +:+
  "</RequestedSecurityToken><RequestID xmlns=" +:+ quote +:+ NamespaceEnrollment +:+ quote +:+
  ">0</RequestID>" +:+
  "</RequestSecurityTokenResponse></RequestSecurityTokenResponseCollection>".

Definition EncodeTokenResponse (doc relatesTo : string) (ts : option TimestampRange) : result string :=
  if len (TrimSpace doc) =? 0 then Err [enroll_ErrMessage]
  else SoapEncode (mkResponse ActionRSTRC relatesTo "" ts false (token_body doc)).

Definition tag_RSTRC : tag := TagNS NamespaceTrust "RequestSecurityTokenResponseCollection".

Definition token_document (b : list xtree) : result string :=
  let rsp := [Tag "RequestSecurityTokenResponse"] in
  if negb (bool_decide (TrimSpace (ptr_text b (rsp ++ [Tag "TokenType"])) = TokenTypeDeviceEnrollment))
  then Err [enroll_ErrMessage]
  else match read_token (flat_map (at_path (rsp ++ [Tag "RequestedSecurityToken"; tag_BST])) b) with
  | Some t =>
      if negb (bool_decide (TrimSpace (bst_ValueType t) = ValueTypeProvisionDoc))
      then Err [enroll_ErrMessage] else BST_Bytes (Some t)
  | None => Err [enroll_ErrMessage]
  end.

Definition DecodeTokenResponse `{NameTables} : string → option SoapHeader * reply string :=
  reply_with (body_ptr tag_RSTRC) token_document.
