(* ===== verification/EnrollProofs.v ===== *)
(** * Enrollment messages on the wire

    The request envelope and the bodies of discovery, policy and token messages
    as documents, and what the readers get from them. *)
From stdpp Require Import base gmap strings list.
From Stdlib Require Import ZArith Lia Ascii ZifyBool.
From S2P Require Import Prelude GoStrings GoTime SyncmlModel SyncmlAuth Encode Utf8 GoXml XmlLex XmlDoc.
From S2P Require Import Soap SoapProofs EnrollTypes EnrollMsg.

Local Open Scope Z_scope.

(** ** Elements and documents *)

Lemma Element_doc n attrs v :
  Element_Write (mkElement n attrs v false) = doc_render (DLeaf n (map (λ a, mkAttr a.1 a.2) attrs) v).
Proof.
  unfold Element_Write. cbn [el_Name el_Attrs el_Text el_Empty doc_render]. rewrite andb_false_r.
  unfold render_attrs. rewrite map_map. reflexivity.
Qed.
Lemma text_elem_doc n v : text_elem n v = doc_render (DLeaf n [] v).
Proof. apply Element_doc. Qed.

Definition opt_doc (n v : string) : list xdoc := if decide (v = "") then [] else [DLeaf n [] v].
Lemma text_elem_opt_doc n v : text_elem_opt n v = str_concat (map doc_render (opt_doc n v)).
Proof.
  unfold text_elem_opt, opt_doc. case_decide; [done|]. cbn [map str_concat].
  by rewrite text_elem_doc, str_app_nil_r.
Qed.
Lemma text_elems_doc n vs :
  str_concat (map (text_elem n) vs) = str_concat (map doc_render (map (DLeaf n []) vs)).
Proof. rewrite map_map. f_equal. apply map_ext. intros v. apply text_elem_doc. Qed.

(** Compare two texts piece by piece. *)
Ltac texts :=
  repeat first [rewrite map_app|rewrite str_concat_app|progress cbn [map str_concat doc_render]];
  unfold render_attrs; cbn [map str_concat attr_name attr_value];
  rewrite ?str_app_nil_l, ?str_app_nil_r, <- ?str_app_assoc.

(** ** Requests *)

Definition req_attrs : list attr :=
  [mkAttr "xmlns:s" NamespaceEnvelope; mkAttr "xmlns:a" NamespaceAddressing;
   mkAttr "xmlns:u" NamespaceUtility; mkAttr "xmlns:wsse" NamespaceSecurity;
   mkAttr "xmlns:wst" NamespaceTrust; mkAttr "xmlns:ac" NamespaceAuthorization].
Definition must_understand : attr := mkAttr "s:mustUnderstand" "1".
Definition cred_docs (c : option Credentials) : list xdoc :=
  match c with
  | None => []
  | Some c =>
      [DNode "wsse:Security" [must_understand]
        [DNode "wsse:UsernameToken" [mkAttr "u:Id" UsernameTokenID]
          [DLeaf "wsse:Username" [] (cr_Username c);
           DLeaf "wsse:Password" [mkAttr "wsse:Type" PasswordText] (cr_Password c)]]]
  end.
Definition req_header (action mid to : string) (c : option Credentials) : list xdoc :=
  DLeaf "a:Action" [must_understand] action :: DLeaf "a:MessageID" [] mid ::
  DNode "a:ReplyTo" [] [DLeaf "a:Address" [] AnonymousAddress] ::
  DLeaf "a:To" [must_understand] to :: cred_docs c.
Definition req_doc (action mid to : string) (c : option Credentials) (docs : list xdoc) : xdoc :=
  DNode "s:Envelope" req_attrs
    [DNode "s:Header" [] (req_header action mid to c); DNode "s:Body" (body_attrs true) docs].

Lemma encodeRequest_doc action mid to c body docs s :
  body = str_concat (map doc_render docs) → encodeRequest action mid to c body = Ok s →
  s = doc_render (req_doc action mid to c docs) ∧ mid ≠ "" ∧ to ≠ "".
Proof.
  intros -> E. unfold encodeRequest in E. case_decide as Hm; [done|]. injection E as <-.
  split; [|by split; intros ->; apply Hm; auto].
  unfold req_doc, req_header, cred_docs, req_attrs, body_attrs, must_understand.
  rewrite !Element_doc, !text_elem_doc.
  destruct c as [c|]; [rewrite !Element_doc, !text_elem_doc|];
  cbn [doc_render map fst snd]; unfold render_attrs; cbn [map str_concat attr_name attr_value];
  escape_consts; texts; reflexivity.
Qed.

Definition req_ns : gmap string string := scope ∅ req_attrs.
Definition req_body_ns : gmap string string := scope req_ns (body_attrs true).

(** The security header of a request. *)
Definition req_security (c : option Credentials) : option Security :=
  match c with
  | None => None
  | Some c => Some (mkSecurity "1" None
      (Some (mkUsernameToken UsernameTokenID (cr_Username c) (mkPassword PasswordText (cr_Password c)))) None)
  end.

Lemma read_username_req c :
  read_username (tree_of (scope (scope req_ns []) [must_understand])
    (DNode "wsse:UsernameToken" [mkAttr "u:Id" UsernameTokenID]
      [DLeaf "wsse:Username" [] (cr_Username c);
       DLeaf "wsse:Password" [mkAttr "wsse:Type" PasswordText] (cr_Password c)])) UsernameToken0 =
  mkUsernameToken UsernameTokenID (cr_Username c) (mkPassword PasswordText (cr_Password c)).
Proof.
  unfold read_username. rewrite fold_kids_node.
  fold_docs ltac:(cbn [ut_ID ut_Username ut_Password UsernameToken0]; rewrite ?chardata_leaf).
  unfold read_password. rewrite chardata_leaf. unfold attr_or, attr_last. rewrite !tree_of_attrs. reflexivity.
Qed.

Lemma read_security_req c :
  read_security (tree_of (scope req_ns []) (DNode "wsse:Security" [must_understand]
    [DNode "wsse:UsernameToken" [mkAttr "u:Id" UsernameTokenID]
      [DLeaf "wsse:Username" [] (cr_Username c);
       DLeaf "wsse:Password" [mkAttr "wsse:Type" PasswordText] (cr_Password c)]])) Security0 =
  mkSecurity "1" None
    (Some (mkUsernameToken UsernameTokenID (cr_Username c) (mkPassword PasswordText (cr_Password c)))) None.
Proof.
  unfold read_security. rewrite fold_kids_node.
  fold_docs ltac:(soap_cbn; rewrite ?read_username_req). unfold attr_or, attr_last. rewrite tree_of_attrs.
  reflexivity.
Qed.

Lemma read_header_req action mid to c :
  read_header (tree_of req_ns (DNode "s:Header" [] (req_header action mid to c))) SoapHeader0 =
  mkSoapHeader action mid (Some AnonymousAddress) to (req_security c).
Proof.
  unfold read_header, req_header. rewrite fold_kids_node. unfold cred_docs, req_security.
  destruct c as [c|];
  fold_docs ltac:(soap_cbn; rewrite ?chardata_leaf, ?text_field_node, ?read_security_req;
    fold_docs idtac; rewrite ?chardata_leaf); reflexivity.
Qed.

(** The header a server gets. *)
Definition request_header (action mid to : string) (c : option Credentials) : SoapHeader :=
  trim_header (mkSoapHeader action mid (Some AnonymousAddress) to (req_security c)).

Definition creds_chars (c : option Credentials) : bool :=
  match c with None => true | Some c => xml_chars (cr_Username c) && xml_chars (cr_Password c) end.

Lemma req_doc_ok action mid to c docs :
  xml_chars action = true → xml_chars mid && xml_chars to && creds_chars c = true →
  forallb doc_ok docs = true → doc_ok (req_doc action mid to c docs) = true.
Proof.
  intros Ha E Hd. btrue. unfold req_doc, req_header, cred_docs, req_attrs, body_attrs.
  cbn [doc_ok forallb]. rewrite Hd, Ha, H, H1.
  destruct c as [c|]; cbn [creds_chars] in *; btrue; cbn [doc_ok forallb]; [rewrite H0, H2|]; reflexivity.
Qed.

Section server.
Context `{NameTables} {A : Type} (g : tag) (view : list xtree → A).

(** What a server's decoder makes of a request with one body element. *)
Lemma decoded_with_req action mid to c x maxSize :
  doc_ok (req_doc action mid to c [x]) = true →
  len (doc_render (req_doc action mid to c [x])) ≤ (if maxSize <=? 0 then SoapMaxSize else maxSize) →
  tag_match g (doc_name req_body_ns x) = true →
  decoded_with g view (doc_render (req_doc action mid to c [x])) maxSize =
  Headed (request_header action mid to c) (Ok (view [tree_of req_body_ns x])).
Proof.
  intros Hok Hl Hg. unfold decoded_with, req_doc.
  erewrite (SoapDecode_env [] (body_ptr g) req_attrs); [|done|done|done|apply read_header_req].
  unfold body_ptr. rewrite kids_of_node. fold req_ns req_body_ns. cbn [List.filter]. rewrite Hg. reflexivity.
Qed.
End server.

(** ** Replies *)

Definition reply_ns (r : Response) : gmap string string :=
  scope (env_ns (rsp_Timestamp r)) (body_attrs (rsp_SchemaAttributes r)).

(** What a client's decoder makes of a reply with one body element that is no
    fault. *)
Lemma reply_with_doc `{NameTables} {A} read_body (view : list xtree → result A) r x :
  doc_ok (env_doc r [x]) = true → len (doc_render (env_doc r [x])) ≤ SoapMaxSize →
  tag_match (Tag "Fault") (doc_name (reply_ns r) x) = false →
  read_body (body_tree r [x]) [] = Ok [tree_of (reply_ns r) x] →
  reply_with read_body view (doc_render (env_doc r [x])) =
  (Some (reply_header r),
   match view [tree_of (reply_ns r) x] with Ok a => ROk a | Err e => RErr e end).
Proof.
  intros Hok Hl Hf Hr. unfold reply_with, DecodeFault. rewrite !SoapDecode_doc by done. rewrite Hr.
  unfold read_fault_body, body_tree. rewrite kids_of_node. fold (reply_ns r). cbn [List.filter]. rewrite Hf.
  reflexivity.
Qed.

Lemma body_ptr_doc g r x :
  tag_match g (doc_name (reply_ns r) x) = true →
  body_ptr g (body_tree r [x]) [] = Ok [tree_of (reply_ns r) x].
Proof.
  intros Hg. unfold body_ptr, body_tree. rewrite kids_of_node. fold (reply_ns r). cbn [List.filter].
  by rewrite Hg.
Qed.

(** Fields of a document. *)
Lemma ptr_texts_doc ns x gs :
  ptr_texts [tree_of ns x] gs = map (λ p, doc_text p.2) (doc_path ns gs x).
Proof. unfold ptr_texts. cbn [flat_map]. by rewrite app_nil_r, path_texts_doc. Qed.
Lemma ptr_text_doc ns x gs :
  ptr_text [tree_of ns x] gs = List.last (map (λ p, doc_text p.2) (doc_path ns gs x)) "".
Proof. unfold ptr_text. by rewrite ptr_texts_doc. Qed.

Lemma ptr_path_doc ns x gs :
  flat_map (at_path gs) [tree_of ns x] = map (λ p, tree_of p.1 p.2) (doc_path ns gs x).
Proof. cbn [flat_map]. by rewrite app_nil_r, at_path_doc. Qed.

Lemma doc_path_app ns gs gs' x :
  doc_path ns (gs ++ gs') x = flat_map (λ p, doc_path p.1 gs' p.2) (doc_path ns gs x).
Proof.
  revert ns x. induction gs as [|g gs IH]; intros ns x; [by cbn; rewrite app_nil_r|].
  cbn [app doc_path]. destruct x as [| |n a xs]; [done..|].
  induction xs as [|y xs IHxs]; [done|]. cbn [flat_map]. rewrite IHxs, flat_map_app. f_equal.
  by destruct (tag_match g (doc_name (scope ns a) y)).
Qed.

Lemma leaves_text ns n0 a g n at_ vs :
  tag_match g (translate (scope (scope ns a) at_) true (name_of n)) = true →
  map (λ p, doc_text p.2) (doc_path ns [g] (DNode n0 a (map (DLeaf n at_) vs))) = vs.
Proof.
  intros Hg. cbn [doc_path]. induction vs as [|v vs IH]; [done|]. cbn [map flat_map].
  unfold doc_name at 1. cbn [doc_tag doc_attrs]. rewrite Hg. cbn [app map snd doc_text]. by f_equal.
Qed.

Lemma leaves_at ns gs g x ns' n0 a n at_ vs :
  doc_path ns gs x = [(ns', DNode n0 a (map (DLeaf n at_) vs))] →
  tag_match g (translate (scope (scope ns' a) at_) true (name_of n)) = true →
  map (λ p, doc_text p.2) (doc_path ns (gs ++ [g]) x) = vs.
Proof.
  intros E Hg. rewrite doc_path_app, E. cbn [flat_map fst snd]. rewrite app_nil_r. by apply leaves_text.
Qed.

(** ** Discovery *)

Definition discover_doc (q : DiscoverRequest) : xdoc :=
  DNode "Discover" [mkAttr "xmlns" NamespaceDiscovery]
    [DNode "request" [mkAttr "xmlns:i" NamespaceSchemaInstance]
      [DLeaf "EmailAddress" [] (dq_EmailAddress q); DLeaf "OSEdition" [] (dq_OSEdition q);
       DLeaf "RequestVersion" [] (dq_RequestVersion q); DLeaf "DeviceType" [] (dq_DeviceType q);
       DLeaf "ApplicationVersion" [] (dq_ApplicationVersion q);
       DNode "AuthPolicies" [] (map (DLeaf "AuthPolicy" []) (dq_AuthPolicies q))]].

Definition trim_discover (q : DiscoverRequest) : DiscoverRequest :=
  mkDiscoverRequest (TrimSpace (dq_EmailAddress q)) (TrimSpace (dq_RequestVersion q))
    (TrimSpace (dq_DeviceType q)) (TrimSpace (dq_ApplicationVersion q)) (TrimSpace (dq_OSEdition q))
    (map TrimSpace (dq_AuthPolicies q)).

Lemma discover_request_doc q :
  discover_request [tree_of req_body_ns (discover_doc q)] = trim_discover q.
Proof.
  unfold discover_request, trim_discover. rewrite !ptr_text_doc, ptr_texts_doc.
  f_equal; [by vm_compute..|].
  f_equal. by eapply (leaves_at _ [Tag "request"; Tag "AuthPolicies"] (Tag "AuthPolicy")).
Qed.

Definition discover_chars (q : DiscoverRequest) : bool :=
  xml_chars (dq_EmailAddress q) && xml_chars (dq_RequestVersion q) && xml_chars (dq_DeviceType q) &&
  xml_chars (dq_ApplicationVersion q) && xml_chars (dq_OSEdition q) &&
  forallb xml_chars (dq_AuthPolicies q).

Lemma leaves_ok n vs : tag_name n = true → forallb doc_ok (map (DLeaf n []) vs) = forallb xml_chars vs.
Proof. intros Hn. induction vs as [|v vs IH]; [done|]. cbn [map forallb doc_ok]. by rewrite Hn, IH. Qed.

Lemma discover_doc_ok q : discover_chars q = true → doc_ok (discover_doc q) = true.
Proof.
  unfold discover_chars. intros E. btrue. unfold discover_doc. cbn [doc_ok forallb].
  rewrite leaves_ok by done. rewrite H, H0, H1, H2, H3, H4. reflexivity.
Qed.

(** Both sides of an equation between a writer and its document. *)
Ltac writer_doc :=
  rewrite ?Element_doc, ?text_elem_doc, ?text_elem_opt_doc, ?text_elems_doc;
  cbn [doc_render map fst snd]; unfold render_attrs; cbn [map str_concat attr_name attr_value];
  escape_consts; texts; reflexivity.

Lemma EncodeDiscover_doc q mid to s :
  EncodeDiscover q mid to = Ok s → s = doc_render (req_doc ActionDiscover mid to None [discover_doc q]).
Proof.
  unfold EncodeDiscover. case_decide; [done|].
  intros E. apply (encodeRequest_doc _ _ _ _ _ [discover_doc q]) in E as [-> _]; [done|].
  unfold discover_doc. writer_doc.
Qed.

Definition discover_response_doc (r : DiscoverResponse) : xdoc :=
  DNode "DiscoverResponse" [mkAttr "xmlns" NamespaceDiscovery]
    [DNode "DiscoverResult" []
      (DLeaf "AuthPolicy" [] (dr_AuthPolicy r) ::
       opt_doc "EnrollmentVersion" (dr_EnrollmentVersion r) ++
       opt_doc "EnrollmentPolicyServiceUrl" (dr_EnrollmentPolicyServiceURL r) ++
       DLeaf "EnrollmentServiceUrl" [] (dr_EnrollmentServiceURL r) ::
       opt_doc "AuthenticationServiceUrl" (dr_AuthenticationServiceURL r) ++
       opt_doc "DeviceAssociationMaaUrl" (dr_DeviceAssociationMaaURL r) ++
       opt_doc "GatewayService" (dr_GatewayService r))].

Lemma EncodeDiscoverResponse_doc r rel act s :
  EncodeDiscoverResponse r rel act = Ok s →
  s = doc_render (env_doc (mkResponse ActionDiscoverResponse rel act None true
        (str_concat (map doc_render [discover_response_doc r]))) [discover_response_doc r]) ∧
  AuthPolicy_Valid (dr_AuthPolicy r) = true ∧ rel ≠ "".
Proof.
  unfold EncodeDiscoverResponse. destruct (AuthPolicy_Valid (dr_AuthPolicy r)) eqn:Ev; [|done].
  cbn [negb]. case_decide; [done|]. intros E. split; [|split; [done|]].
  - eapply SoapEncode_doc; [reflexivity|]. rewrite <- E. do 2 f_equal.
    unfold discover_response_doc. writer_doc.
  - revert E. unfold SoapEncode. cbn [rsp_RelatesTo rsp_Action]. repeat (case_decide; [done|]). done.
Qed.

Definition trim_response (r : DiscoverResponse) : DiscoverResponse :=
  mkDiscoverResponse (TrimSpace (dr_AuthPolicy r)) (TrimSpace (dr_EnrollmentVersion r))
    (TrimSpace (dr_EnrollmentPolicyServiceURL r)) (TrimSpace (dr_EnrollmentServiceURL r))
    (TrimSpace (dr_AuthenticationServiceURL r)) (TrimSpace (dr_DeviceAssociationMaaURL r))
    (TrimSpace (dr_GatewayService r)).

Definition body_ns (schema : bool) : gmap string string := scope (env_ns None) (body_attrs schema).

(** Evaluate the comparisons of constants. *)
Ltac closed_tests :=
  repeat match goal with
    | |- context [bool_decide (name_Local (name_of ?s) = ?t)] =>
        let b := eval vm_compute in (bool_decide (name_Local (name_of s) = t)) in
        change (bool_decide (name_Local (name_of s) = t)) with b
    end; cbn iota.

(** Tags without a name space look at local names only. *)
Definition pick (g : string) (y : xdoc) : list string :=
  if bool_decide (name_Local (name_of (doc_tag y)) = g) then [doc_text y] else [].
Lemma doc_path_pick ns g n a kids :
  map (λ p, doc_text p.2) (doc_path ns [Tag g] (DNode n a kids)) = flat_map (pick g) kids.
Proof.
  cbn [doc_path]. induction kids as [|y kids IH]; [done|]. cbn [flat_map]. rewrite map_app, IH. f_equal.
  unfold pick. rewrite doc_name_local. by case_bool_decide.
Qed.
Lemma doc_path_below ns t g x ns' n a kids :
  doc_path ns [t] x = [(ns', DNode n a kids)] →
  map (λ p, doc_text p.2) (doc_path ns [t; Tag g] x) = flat_map (pick g) kids.
Proof.
  intros E. rewrite (doc_path_app ns [t] [Tag g]), E. cbn [flat_map fst snd].
  by rewrite app_nil_r, doc_path_pick.
Qed.
Lemma opt_pick g n v :
  flat_map (pick g) (opt_doc n v) =
  if bool_decide (name_Local (name_of n) = g) then (if decide (v = "") then [] else [v]) else [].
Proof. unfold opt_doc. case_decide; cbn [flat_map app]; [by case_bool_decide|]. unfold pick. by rewrite app_nil_r. Qed.
Lemma last_opt (v : string) : List.last (if decide (v = "") then [] else [v]) "" = v.
Proof. by case_decide. Qed.

Lemma discover_response_reads r :
  discover_response [tree_of (body_ns true) (discover_response_doc r)] = trim_response r.
Proof.
  assert (∀ g, ptr_text [tree_of (body_ns true) (discover_response_doc r)] [Tag "DiscoverResult"; Tag g] =
    List.last (flat_map (pick g) (DLeaf "AuthPolicy" [] (dr_AuthPolicy r) ::
       opt_doc "EnrollmentVersion" (dr_EnrollmentVersion r) ++
       opt_doc "EnrollmentPolicyServiceUrl" (dr_EnrollmentPolicyServiceURL r) ++
       DLeaf "EnrollmentServiceUrl" [] (dr_EnrollmentServiceURL r) ::
       opt_doc "AuthenticationServiceUrl" (dr_AuthenticationServiceURL r) ++
       opt_doc "DeviceAssociationMaaUrl" (dr_DeviceAssociationMaaURL r) ++
       opt_doc "GatewayService" (dr_GatewayService r))) "") as E.
  { intros g. by rewrite ptr_text_doc; erewrite (doc_path_below _ (Tag "DiscoverResult")). }
  unfold discover_response, trim_response. rewrite !E.
  cbn [flat_map]. rewrite !flat_map_app. cbn [flat_map]. rewrite !flat_map_app, !opt_pick.
  unfold pick; cbn [doc_tag doc_text]. closed_tests. cbn [app].
  f_equal; f_equal; rewrite ?app_nil_r; first [apply last_opt|done].
Qed.

(** ** Tokens *)

Definition item_doc (it : ContextItem) : xdoc :=
  DNode "ac:ContextItem" [mkAttr "Name" (ci_Name it)] [DLeaf "ac:Value" [] (ci_Value it)].
Definition rst_doc (csr : string) (items : list ContextItem) : xdoc :=
  DNode "wst:RequestSecurityToken" []
    [DLeaf "wst:TokenType" [] TokenTypeDeviceEnrollment;
     DLeaf "wst:RequestType" [] RequestTypeIssue;
     DLeaf "wsse:BinarySecurityToken"
       [mkAttr "ValueType" ValueTypePKCS10; mkAttr "EncodingType" EncodingBase64] (b64_encode csr);
     DNode "ac:AdditionalContext" [mkAttr "xmlns" NamespaceAuthorization] (map item_doc items)].

Lemma EncodeRST_doc mid to c csr items s :
  EncodeRequestSecurityToken mid to c csr items = Ok s →
  s = doc_render (req_doc ActionRST mid to c [rst_doc csr items]) ∧ csr ≠ "".
Proof.
  unfold EncodeRequestSecurityToken. destruct (Z.eqb_spec (len csr) 0) as [|Hl]; [done|].
  intros E. apply (encodeRequest_doc _ _ _ _ _ [rst_doc csr items]) in E as [-> _].
  - split; [done|]. by intros ->.
  - unfold rst_doc. rewrite ?Element_doc, ?text_elem_doc.
    assert (str_concat (map (λ it, "<ac:ContextItem Name=" +:+ quote +:+ EscapeText (ci_Name it) +:+ quote +:+
      ">" +:+ text_elem "ac:Value" (ci_Value it) +:+ "</ac:ContextItem>") items) =
      str_concat (map doc_render (map item_doc items))) as ->.
    { rewrite map_map. f_equal. apply map_ext. intros it. unfold item_doc. writer_doc. }
    writer_doc.
Qed.

Lemma item_read ns it :
  mkContextItem (attr_or (Tag "Name") (tree_of ns (item_doc it)) "")
    (path_text [Tag "Value"] (tree_of ns (item_doc it))) = it.
Proof.
  unfold attr_or, attr_last, path_text. rewrite tree_of_attrs, path_texts_doc.
  unfold item_doc. rewrite doc_path_pick. by destruct it.
Qed.

Lemma context_items_doc csr items :
  context_items [tree_of req_body_ns (rst_doc csr items)] = items.
Proof.
  unfold context_items. rewrite ptr_path_doc.
  rewrite (doc_path_app _ [TagNS NamespaceAuthorization "AdditionalContext"] [Tag "ContextItem"]).
  assert (∃ ns, doc_path req_body_ns [TagNS NamespaceAuthorization "AdditionalContext"] (rst_doc csr items) =
    [(ns, DNode "ac:AdditionalContext" [mkAttr "xmlns" NamespaceAuthorization] (map item_doc items))]) as [ns ->].
  { eexists. unfold rst_doc. cbn [doc_path flat_map]. doc_names. reflexivity. }
  cbn [flat_map fst snd doc_path]. rewrite app_nil_r.
  induction items as [|it items IH]; [done|]. cbn [map flat_map].
  rewrite doc_name_local. change (bool_decide _) with true at 1. cbn [app map fst snd].
  rewrite item_read. by f_equal.
Qed.

Lemma read_token_leaf ns n vt et v :
  read_token [tree_of ns (DLeaf n [mkAttr "ValueType" vt; mkAttr "EncodingType" et] v)] =
  Some (mkBST vt et v).
Proof.
  unfold read_token, read_bst, attr_or, attr_last. cbn [foldl default].
  rewrite !tree_of_attrs, chardata_leaf. reflexivity.
Qed.

Definition request_of (csr : string) (items : list ContextItem) : RequestSecurityToken :=
  mkRST TokenTypeDeviceEnrollment RequestTypeIssue (mkBST ValueTypePKCS10 EncodingBase64 (b64_encode csr))
    (ParseAdditionalContext items).

Lemma request_token_doc csr items :
  request_token [tree_of req_body_ns (rst_doc csr items)] = request_of csr items.
Proof.
  unfold request_token, request_of. rewrite context_items_doc, !ptr_text_doc, ptr_path_doc.
  assert (∃ ns, doc_path req_body_ns [tag_BST] (rst_doc csr items) =
    [(ns, DLeaf "wsse:BinarySecurityToken"
       [mkAttr "ValueType" ValueTypePKCS10; mkAttr "EncodingType" EncodingBase64] (b64_encode csr))])
    as [ns ->].
  { eexists. unfold rst_doc, tag_BST. cbn [doc_path flat_map]. doc_names. reflexivity. }
  cbn [map fst snd]. rewrite read_token_leaf. unfold rst_doc. by rewrite !doc_path_pick.
Qed.

Definition token_doc (doc : string) : xdoc :=
  DNode "RequestSecurityTokenResponseCollection" [mkAttr "xmlns" NamespaceTrust]
    [DNode "RequestSecurityTokenResponse" []
      [DLeaf "TokenType" [] TokenTypeDeviceEnrollment;
       DLeaf "DispositionMessage" [mkAttr "xmlns" NamespaceEnrollment] "";
       DNode "RequestedSecurityToken" []
         [DLeaf "BinarySecurityToken"
            [mkAttr "ValueType" ValueTypeProvisionDoc; mkAttr "EncodingType" EncodingBase64;
             mkAttr "xmlns" NamespaceSecurity] (b64_encode doc)];
       DLeaf "RequestID" [mkAttr "xmlns" NamespaceEnrollment] "0"]].

Lemma EncodeTokenResponse_doc doc rel ts s :
  EncodeTokenResponse doc rel ts = Ok s →
  s = doc_render (env_doc (mkResponse ActionRSTRC rel "" ts false (token_body doc)) [token_doc doc]).
Proof.
  unfold EncodeTokenResponse. destruct (len (TrimSpace doc) =? 0); [done|].
  apply SoapEncode_doc. cbn [rsp_Body]. unfold token_body, token_doc. writer_doc.
Qed.

Lemma drop_space_printable s : str_forall printable s = true → drop_space s = s.
Proof.
  unfold drop_space. induction s as [|c s IH]; [done|]. cbn [str_forall String.length drop_space_fuel].
  intros E. btrue. unfold printable in *. btrue.
  assert (decode_rune (String c s) = (byte_val c, 1%nat)) as ->.
  { unfold decode_rune. by destruct (Z.ltb_spec (byte_val c) 128); [|lia]. }
  cbn [sdrop]. rewrite IH by done.
  destruct (Z.eqb_spec (byte_val c) 32), (Z.eqb_spec (byte_val c) 9), (Z.eqb_spec (byte_val c) 13),
    (Z.eqb_spec (byte_val c) 10); try lia. cbn [orb].
  unfold encode_rune. destruct (Z.ltb_spec (byte_val c) 0), (Z.ltb_spec 1114111 (byte_val c)),
    (Z.leb_spec 55296 (byte_val c)); try lia. cbn [orb andb].
  destruct (Z.ltb_spec (byte_val c) 128); [|lia]. unfold byte_str. cbn. by rewrite byte_of_val.
Qed.

Lemma BST_Bytes_encode vt doc : BST_Bytes (Some (mkBST vt EncodingBase64 (b64_encode doc))) = Ok doc.
Proof.
  unfold BST_Bytes. cbn [bst_EncodingType bst_Value].
  rewrite bool_decide_true by set_solver. cbn [negb].
  rewrite drop_space_printable by apply b64_encode_ok.
  pose proof (b64_decode_encode doc) as E. rewrite TrimSpace_id in E by apply b64_encode_ok. by rewrite E.
Qed.

Lemma read_token_provision ns doc :
  read_token [tree_of ns (DLeaf "BinarySecurityToken"
    [mkAttr "ValueType" ValueTypeProvisionDoc; mkAttr "EncodingType" EncodingBase64;
     mkAttr "xmlns" NamespaceSecurity] (b64_encode doc))] =
  Some (mkBST ValueTypeProvisionDoc EncodingBase64 (b64_encode doc)).
Proof.
  unfold read_token, read_bst, attr_or, attr_last. cbn [foldl default].
  rewrite !tree_of_attrs, chardata_leaf. reflexivity.
Qed.

Lemma token_document_doc r doc :
  rsp_SchemaAttributes r = false →
  token_document [tree_of (reply_ns r) (token_doc doc)] = Ok doc.
Proof.
  intros Hs. unfold token_document, reply_ns. rewrite Hs, ptr_text_doc, ptr_path_doc.
  assert (List.last (map (λ p, doc_text p.2) (doc_path (scope (env_ns (rsp_Timestamp r)) (body_attrs false))
    ([Tag "RequestSecurityTokenResponse"] ++ [Tag "TokenType"]) (token_doc doc))) "" =
    TokenTypeDeviceEnrollment) as ->.
  { cbn [app]. by erewrite (doc_path_below _ (Tag "RequestSecurityTokenResponse")) by reflexivity. }
  assert (∃ ns, doc_path (scope (env_ns (rsp_Timestamp r)) (body_attrs false))
    ([Tag "RequestSecurityTokenResponse"] ++ [Tag "RequestedSecurityToken"; tag_BST]) (token_doc doc) =
    [(ns, DLeaf "BinarySecurityToken"
       [mkAttr "ValueType" ValueTypeProvisionDoc; mkAttr "EncodingType" EncodingBase64;
        mkAttr "xmlns" NamespaceSecurity] (b64_encode doc))]) as [ns ->].
  { unfold token_doc, tag_BST.
    destruct (rsp_Timestamp r); eexists; cbn [app doc_path flat_map]; doc_names; reflexivity. }
  cbn [map fst snd]. rewrite read_token_provision. cbn [bst_ValueType]. by rewrite BST_Bytes_encode.
Qed.
