(* ===== verification/EnrollPolicy.v ===== *)
(** * Policies on the wire

    The GetPoliciesResponse of mdmprotocol/enroll/policy.go as a document, and
    what a client reads from it. *)
From stdpp Require Import base gmap strings list.
From Stdlib Require Import ZArith Lia Ascii ZifyBool.
From S2P Require Import Prelude GoStrings GoTime SyncmlModel SyncmlAuth Encode Utf8 GoXml XmlLex XmlDoc.
From S2P Require Import Soap SoapProofs EnrollTypes EnrollMsg EnrollProofs.

Local Open Scope Z_scope.

(** ** The document *)

Definition nil_doc (n : string) : xdoc := DEmpty n [mkAttr "xsi:nil" "true"].
Lemma nilElement_doc n : nilElement n = doc_render (nil_doc n).
Proof.
  unfold nilElement, nil_doc. cbn [doc_render]. unfold render_attrs. cbn [map str_concat attr_name attr_value].
  escape_consts. by rewrite ?str_app_nil_r, <- ?str_app_assoc.
Qed.

Definition policy_id_doc (id : string) : xdoc :=
  if decide (id = "") then DEmpty "policyID" [] else DLeaf "policyID" [] id.
Lemma policy_id_render id :
  Element_Write (mkElement "policyID" [] id true) = doc_render (policy_id_doc id).
Proof.
  unfold Element_Write, policy_id_doc. cbn [el_Name el_Attrs el_Text el_Empty]. rewrite andb_true_r.
  destruct (decide (id = "")) as [->|Hn]; [done|]. rewrite bool_decide_false by done. reflexivity.
Qed.

Definition providers_docs (ps : list string) : list xdoc :=
  if decide (ps = []) then [] else [DNode "cryptoProviders" [] (map (DLeaf "provider" []) ps)].

(** The document over its texts. *)
Definition key_attributes (kl : string) (provs : list xdoc) : xdoc :=
  DNode "privateKeyAttributes" []
    ([DLeaf "minimalKeyLength" [] kl; nil_doc "keySpec"; nil_doc "keyUsageProperty"; nil_doc "permissions";
      nil_doc "algorithmOIDReference"] ++ provs).
Definition policy_frame (pid : xdoc) (ref cn val ren en au : string) (keys : xdoc)
    (maj mnr href ov og on : string) : xdoc :=
  DNode "GetPoliciesResponse" [mkAttr "xmlns" NamespacePolicy]
    [DNode "response" []
      [pid; nil_doc "policyFriendlyName"; nil_doc "nextUpdateHours"; nil_doc "policiesNotChanged";
       DNode "policies" []
         [DNode "policy" []
           [DLeaf "policyOIDReference" [] ref; nil_doc "cAs";
            DNode "attributes" []
              [DLeaf "commonName" [] cn; DLeaf "policySchema" [] "3";
               DNode "certificateValidity" []
                 [DLeaf "validityPeriodSeconds" [] val; DLeaf "renewalPeriodSeconds" [] ren];
               DNode "permission" [] [DLeaf "enroll" [] en; DLeaf "autoEnroll" [] au];
               keys;
               DNode "revision" [] [DLeaf "majorRevision" [] maj; DLeaf "minorRevision" [] mnr];
               nil_doc "supersededPolicies"; nil_doc "privateKeyFlags"; nil_doc "subjectNameFlags";
               nil_doc "enrollmentFlags"; nil_doc "generalFlags";
               DLeaf "hashAlgorithmOIDReference" [] href;
               nil_doc "rARequirements"; nil_doc "keyArchivalAttributes"; nil_doc "extensions"]]]];
     nil_doc "cAs";
     DNode "oIDs" []
       [DNode "oID" []
         [DLeaf "value" [] ov; DLeaf "group" [] og; DLeaf "oIDReferenceID" [] href;
          DLeaf "defaultName" [] on]]].
Definition policy_doc (p : PolicyResponse) : xdoc :=
  policy_frame (policy_id_doc (pr_PolicyID p)) (Itoa (pr_PolicyOIDReference p)) (pr_CommonName p)
    (Itoa (Z.quot (pr_Validity p) Second)) (Itoa (Z.quot (pr_Renewal p) Second))
    (strconv_FormatBool (pr_Enroll p)) (strconv_FormatBool (pr_AutoEnroll p))
    (key_attributes (Itoa (pr_MinimalKeyLength p)) (providers_docs (pr_CryptoProviders p)))
    (Itoa (pr_MajorRevision p)) (Itoa (pr_MinorRevision p)) (Itoa (oid_ReferenceID (pr_HashAlgorithm p)))
    (oid_Value (pr_HashAlgorithm p)) (Itoa (oid_Group (pr_HashAlgorithm p)))
    (oid_DefaultName (pr_HashAlgorithm p)).

Lemma providers_render ps :
  (if decide (ps = []) then ""
   else "<cryptoProviders>" +:+ str_concat (map (text_elem "provider") ps) +:+ "</cryptoProviders>") =
  str_concat (map doc_render (providers_docs ps)).
Proof. unfold providers_docs. case_decide; [done|]. writer_doc. Qed.

Lemma policy_body_doc p : policy_body p = str_concat (map doc_render [policy_doc p]).
Proof.
  unfold policy_body, policy_doc, policy_frame, key_attributes, intElement.
  rewrite policy_id_render, providers_render. cbn [map]. rewrite !nilElement_doc, !text_elem_doc.
  generalize (policy_id_doc (pr_PolicyID p)) (providers_docs (pr_CryptoProviders p)).
  intros pid provs.
  repeat first [rewrite map_app|rewrite str_concat_app|progress cbn [map str_concat doc_render]].
  unfold render_attrs; cbn [map str_concat attr_name attr_value]; escape_consts.
  rewrite ?str_app_nil_l, ?str_app_nil_r, <- ?str_app_assoc. reflexivity.
Qed.

(** ** The texts at the paths of the reader *)

Section frame.
Context (pid ref cn val ren en au kl maj mnr href ov og on : string) (provs : list string).
Let x : xdoc := policy_frame (policy_id_doc pid) ref cn val ren en au
  (key_attributes kl (providers_docs provs)) maj mnr href ov og on.
Let texts_at (gs : list tag) : list string := map (λ p, doc_text p.2) (doc_path (body_ns true) gs x).

Lemma frame_texts :
  texts_at (policy_path ++ [Tag "policyOIDReference"]) = [ref] ∧
  texts_at (attributes_path ++ [Tag "commonName"]) = [cn] ∧
  texts_at (attributes_path ++ [Tag "certificateValidity"; Tag "validityPeriodSeconds"]) = [val] ∧
  texts_at (attributes_path ++ [Tag "certificateValidity"; Tag "renewalPeriodSeconds"]) = [ren] ∧
  texts_at (attributes_path ++ [Tag "permission"; Tag "enroll"]) = [en] ∧
  texts_at (attributes_path ++ [Tag "permission"; Tag "autoEnroll"]) = [au] ∧
  texts_at (attributes_path ++ [Tag "privateKeyAttributes"; Tag "minimalKeyLength"]) = [kl] ∧
  texts_at (attributes_path ++ [Tag "revision"; Tag "majorRevision"]) = [maj] ∧
  texts_at (attributes_path ++ [Tag "revision"; Tag "minorRevision"]) = [mnr] ∧
  texts_at (attributes_path ++ [Tag "hashAlgorithmOIDReference"]) = [href] ∧
  texts_at (oid_path ++ [Tag "group"]) = [og] ∧ texts_at (oid_path ++ [Tag "oIDReferenceID"]) = [href].
Proof.
  unfold texts_at, x, policy_id_doc, providers_docs.
  destruct (decide (pid = "")), (decide (provs = [])); split_and!; vm_compute; reflexivity.
Qed.

Lemma frame_id : List.last (texts_at [Tag "response"; Tag "policyID"]) "" = pid.
Proof. unfold texts_at, x, policy_id_doc. destruct (decide (pid = "")) as [->|]; vm_compute; reflexivity. Qed.

Lemma frame_providers :
  texts_at (attributes_path ++ [Tag "privateKeyAttributes"; Tag "cryptoProviders"; Tag "provider"]) = provs.
Proof.
  unfold texts_at.
  assert (attributes_path ++ [Tag "privateKeyAttributes"; Tag "cryptoProviders"; Tag "provider"] =
    (attributes_path ++ [Tag "privateKeyAttributes"; Tag "cryptoProviders"]) ++ [Tag "provider"]) as -> by done.
  unfold x, providers_docs, policy_id_doc. destruct (decide (provs = [])) as [->|Hn].
  - destruct (decide (pid = "")); vm_compute; reflexivity.
  - destruct (decide (pid = "")); eapply leaves_at; reflexivity.
Qed.

Lemma frame_oids :
  map read_oid (flat_map (at_path oid_path) [tree_of (body_ns true) x]) =
  [mkOID ov (default 0 (xml_int og)) (default 0 (xml_int href)) on].
Proof.
  rewrite ptr_path_doc.
  assert (∃ ns, doc_path (body_ns true) oid_path x = [(ns, DNode "oID" []
    [DLeaf "value" [] ov; DLeaf "group" [] og; DLeaf "oIDReferenceID" [] href; DLeaf "defaultName" [] on])])
    as [ns ->].
  { unfold x, policy_id_doc. destruct (decide (pid = "")); by eexists. }
  cbn [map fst snd]. unfold read_oid, path_text. rewrite !path_texts_doc, !doc_path_pick.
  unfold pick. cbn [flat_map doc_tag doc_text]. closed_tests. reflexivity.
Qed.
End frame.

(** ** Reading *)

Lemma Itoa_printable n : str_forall printable (Itoa n) = true.
Proof.
  assert (∀ k, 0 ≤ k → str_forall printable (Itoa k) = true) as Hp.
  { intros k Hk. eapply str_forall_impl; [|by apply Itoa_digits]. intros c. unfold is_digit, printable. lia. }
  destruct (Z.ltb_spec n 0); [|by apply Hp].
  assert (Itoa n = "-" +:+ Itoa (-n)) as ->.
  { unfold Itoa. by destruct (Z.eqb_spec n 0), (Z.eqb_spec (- n) 0), (Z.ltb_spec n 0), (Z.ltb_spec (- n) 0);
      try lia. }
  rewrite str_forall_app, Hp by lia. done.
Qed.

Lemma xml_int_Itoa n : in_int64 n → xml_int (Itoa n) = Some n.
Proof.
  intros Hn. unfold xml_int. rewrite decide_False by apply Itoa_nonempty.
  rewrite TrimSpace_id by apply Itoa_printable. by apply Atoi_Itoa.
Qed.
Lemma xml_bool_format b : xml_bool (strconv_FormatBool b) = Some b.
Proof. by destruct b. Qed.

Record policy_range (p : PolicyResponse) : Prop := {
  prg_ref : in_int64 (pr_PolicyOIDReference p);
  prg_val : in_int64 (pr_Validity p);
  prg_ren : in_int64 (pr_Renewal p);
  prg_key : in_int64 (pr_MinimalKeyLength p);
  prg_maj : in_int64 (pr_MajorRevision p);
  prg_min : in_int64 (pr_MinorRevision p);
  prg_grp : in_int64 (oid_Group (pr_HashAlgorithm p));
  prg_oid : in_int64 (oid_ReferenceID (pr_HashAlgorithm p)) }.

(** Periods travel as whole seconds. *)
Definition whole_seconds (d : Duration) : Duration := Z.quot d Second * Second.
Definition sent_policy (p : PolicyResponse) : PolicyResponse :=
  mkPolicyResponse (pr_PolicyID p) (pr_CommonName p) (pr_PolicyOIDReference p)
    (whole_seconds (pr_Validity p)) (whole_seconds (pr_Renewal p)) (pr_Enroll p) (pr_AutoEnroll p)
    (pr_MinimalKeyLength p) (pr_CryptoProviders p) (pr_MajorRevision p) (pr_MinorRevision p)
    (pr_HashAlgorithm p).

Lemma whole_seconds_range d : in_int64 d → in_int64 (Z.quot d Second) ∧ in_int64 (whole_seconds d).
Proof.
  unfold in_int64, min_int64, max_int64, whole_seconds, Second. intros Hd.
  pose proof (Z.quot_rem d 1000000000 ltac:(lia)) as E.
  destruct (Z.lt_ge_cases d 0).
  - pose proof (Z.rem_bound_pos (- d) 1000000000 ltac:(lia) ltac:(lia)) as Hb.
    rewrite Z.rem_opp_l in Hb by lia. lia.
  - pose proof (Z.rem_bound_pos d 1000000000 ltac:(lia) ltac:(lia)).
    pose proof (Z.quot_pos d 1000000000 ltac:(lia) ltac:(lia)). lia.
Qed.

Lemma policy_fields_doc p : policy_range p →
  policy_fields_ok (tree_of (body_ns true) (policy_doc p)) = true.
Proof.
  intros R. pose proof (whole_seconds_range _ (prg_val p R)) as [Hv _].
  pose proof (whole_seconds_range _ (prg_ren p R)) as [Hr _].
  unfold policy_fields_ok, policy_ints, policy_bools, policy_doc. cbn [forallb]. rewrite !path_texts_doc.
  destruct (frame_texts (pr_PolicyID p) (Itoa (pr_PolicyOIDReference p)) (pr_CommonName p)
    (Itoa (Z.quot (pr_Validity p) Second)) (Itoa (Z.quot (pr_Renewal p) Second))
    (strconv_FormatBool (pr_Enroll p)) (strconv_FormatBool (pr_AutoEnroll p)) (Itoa (pr_MinimalKeyLength p))
    (Itoa (pr_MajorRevision p)) (Itoa (pr_MinorRevision p)) (Itoa (oid_ReferenceID (pr_HashAlgorithm p)))
    (oid_Value (pr_HashAlgorithm p)) (Itoa (oid_Group (pr_HashAlgorithm p)))
    (oid_DefaultName (pr_HashAlgorithm p)) (pr_CryptoProviders p))
    as (-> & _ & -> & -> & -> & -> & -> & -> & -> & -> & -> & ->).
  cbn [forallb]. destruct R. rewrite !xml_int_Itoa, !xml_bool_format by done. reflexivity.
Qed.

Lemma policy_response_doc p : policy_range p →
  policy_response [tree_of (body_ns true) (policy_doc p)] = sent_policy p.
Proof.
  intros R. pose proof (whole_seconds_range _ (prg_val p R)) as [Hv Hv'].
  pose proof (whole_seconds_range _ (prg_ren p R)) as [Hr Hr'].
  unfold policy_response, sent_policy, policy_doc, ptr_int, ptr_bool.
  rewrite !ptr_text_doc, !ptr_texts_doc, frame_oids, frame_id, frame_providers.
  destruct (frame_texts (pr_PolicyID p) (Itoa (pr_PolicyOIDReference p)) (pr_CommonName p)
    (Itoa (Z.quot (pr_Validity p) Second)) (Itoa (Z.quot (pr_Renewal p) Second))
    (strconv_FormatBool (pr_Enroll p)) (strconv_FormatBool (pr_AutoEnroll p)) (Itoa (pr_MinimalKeyLength p))
    (Itoa (pr_MajorRevision p)) (Itoa (pr_MinorRevision p)) (Itoa (oid_ReferenceID (pr_HashAlgorithm p)))
    (oid_Value (pr_HashAlgorithm p)) (Itoa (oid_Group (pr_HashAlgorithm p)))
    (oid_DefaultName (pr_HashAlgorithm p)) (pr_CryptoProviders p))
    as (-> & -> & -> & -> & -> & -> & -> & -> & -> & -> & _ & _).
  cbn [List.last foldl]. destruct R. rewrite !xml_int_Itoa, !xml_bool_format by done. cbn [default].
  rewrite !wrap64_id by done. unfold whole_seconds. cbn [oid_ReferenceID]. rewrite Z.eqb_refl.
  by destruct (pr_HashAlgorithm p).
Qed.

Definition policy_chars (p : PolicyResponse) : bool :=
  xml_chars (pr_PolicyID p) && xml_chars (pr_CommonName p) && forallb xml_chars (pr_CryptoProviders p) &&
  xml_chars (oid_Value (pr_HashAlgorithm p)) && xml_chars (oid_DefaultName (pr_HashAlgorithm p)).

Lemma Itoa_xml n : xml_chars (Itoa n) = true.
Proof. apply xml_chars_printables, Itoa_printable. Qed.

Lemma policy_doc_ok p : policy_chars p = true → doc_ok (policy_doc p) = true.
Proof.
  unfold policy_chars. rewrite !andb_true_iff. intros [[[[Hi Hn] Hv] Ho] Hd].
  assert (doc_ok (policy_id_doc (pr_PolicyID p)) = true) as Hid.
  { unfold policy_id_doc. case_decide; [done|]. cbn [doc_ok]. by rewrite Hi. }
  assert (forallb doc_ok (providers_docs (pr_CryptoProviders p)) = true) as Hps.
  { unfold providers_docs. case_decide; [done|]. cbn [forallb doc_ok]. by rewrite leaves_ok, Hv. }
  assert (∀ b, xml_chars (strconv_FormatBool b) = true) as Hb by (by intros []).
  unfold policy_doc, policy_frame, key_attributes, nil_doc. cbn [doc_ok forallb].
  rewrite forallb_app, Hid, Hps. cbn [doc_ok forallb].
  rewrite !Itoa_xml, !Hb, Hn, Ho, Hd. reflexivity.
Qed.

(** ** The request *)

Definition get_policies_doc : xdoc :=
  DNode "GetPolicies" [mkAttr "xmlns" NamespacePolicy]
    [DNode "client" [] [nil_doc "lastUpdate"; nil_doc "preferredLanguage"]; nil_doc "requestFilter"].
Lemma EncodeGetPolicies_doc mid to c s :
  EncodeGetPolicies mid to c = Ok s → s = doc_render (req_doc ActionGetPolicies mid to c [get_policies_doc]).
Proof.
  unfold EncodeGetPolicies. intros E.
  apply (encodeRequest_doc _ _ _ _ _ [get_policies_doc]) in E as [-> _]; [done|].
  rewrite !nilElement_doc. unfold get_policies_doc. writer_doc.
Qed.

(** ** The round trip *)

Lemma policy_reply `{NameTables} p relatesTo s :
  EncodePolicyResponse (Some p) relatesTo = Ok s →
  policy_range p → xml_chars relatesTo && policy_chars p = true → len s ≤ SoapMaxSize →
  DecodePolicyResponse s =
    (Some (mkSoapHeader ActionGetPoliciesResponse "" None "" None), ROk (sent_policy p)).
Proof.
  intros He R [Hrel Hc]%andb_true_iff Hl. unfold EncodePolicyResponse in He.
  destruct (PolicyResponse_Validate (Some p)); [|done]. cbn [result_bind] in He.
  apply (SoapEncode_doc _ [policy_doc p]) in He; [|apply policy_body_doc]. subst s.
  set (r := mkResponse _ _ _ _ _ _) in *. unfold DecodePolicyResponse.
  assert (tag_match (Tag "Fault") (doc_name (reply_ns r) (policy_doc p)) = false ∧
    tag_match tag_PolicyResponse (doc_name (reply_ns r) (policy_doc p)) = true) as [Hf Hp]
    by (unfold policy_doc, policy_frame, tag_PolicyResponse, r, reply_ns;
        cbn [rsp_Timestamp rsp_SchemaAttributes]; split; doc_names; done).
  rewrite reply_with_doc; [| |done|done|].
  - unfold r at 2, reply_ns. cbn [rsp_Timestamp rsp_SchemaAttributes]. fold (body_ns true).
    rewrite policy_response_doc by done. reflexivity.
  - apply env_doc_ok; [by unfold response_chars; cbn [r rsp_Action rsp_RelatesTo rsp_ActivityID]; rewrite Hrel|].
    cbn [forallb]. by rewrite policy_doc_ok.
  - unfold read_policy_body, body_tree. rewrite kids_of_node. fold (reply_ns r). cbn [List.filter].
    rewrite Hp. cbn [map forallb]. unfold r at 1, reply_ns. cbn [rsp_Timestamp rsp_SchemaAttributes].
    fold (body_ns true). by rewrite policy_fields_doc.
Qed.

(** A policy the server sends arrives: key length, providers, permissions,
    revision and hash algorithm as configured, both periods in whole seconds,
    for every policy that Validate accepts. *)
Theorem policy_roundtrip `{NameTables} p relatesTo s :
  EncodePolicyResponse (Some p) relatesTo = Ok s →
  policy_range p → xml_chars relatesTo && policy_chars p = true → len s ≤ SoapMaxSize →
  DecodePolicyResponse s =
    (Some (mkSoapHeader ActionGetPoliciesResponse "" None "" None), ROk (sent_policy p)).
Proof. apply policy_reply. Qed.

Definition default_policy_text : string :=
  match EncodePolicyResponse (Some DefaultPolicy) "urn:uuid:1" with Ok s => s | Err _ => "" end.
Lemma policy_roundtrip_witness :
  EncodePolicyResponse (Some DefaultPolicy) "urn:uuid:1" = Ok default_policy_text ∧
  @DecodePolicyResponse ascii_names default_policy_text =
    (Some (mkSoapHeader ActionGetPoliciesResponse "" None "" None), ROk DefaultPolicy).
Proof.
  assert (EncodePolicyResponse (Some DefaultPolicy) "urn:uuid:1" = Ok default_policy_text) as E
    by (vm_compute; reflexivity).
  split; [exact E|]. apply (@policy_roundtrip ascii_names DefaultPolicy "urn:uuid:1" default_policy_text E).
  - split; vm_compute; split; discriminate.
  - vm_compute. reflexivity.
  - apply Z.leb_le. vm_compute. reflexivity.
Defined.
