(* ===== verification/EnrollService.v ===== *)
(** * The enrollment service

    mdmprotocol/enroll/service.go: New, Discover, GetPolicies and Enroll.  The
    four hooks a deployment supplies (Authenticator, Issuer, Provisioner,
    Recorder) are arguments, programs over a state [W] of their own; every call
    of one is logged with its outcome.  The clock and the trace id generator
    are arguments too, and so is url.Parse.  A fault a hook returns is a value:
    the service completes its trace id in a copy. *)
From stdpp Require Import base gmap strings list.
From Stdlib Require Import ZArith Lia Ascii.
From S2P Require Import Prelude GoStrings SyncmlAuth GoCrypto Encode GoXml XmlDoc MdmAuth.
From S2P Require Import WapProv WapBuild GoTime Soap EnrollTypes EnrollMsg.

Local Open Scope Z_scope.

(** ** Standard library *)

(** [url.Parse]: scheme, host and path of a URL it accepts. *)
Record URL := mkURL { u_Scheme : string; u_Host : string; u_Path : string }.
Class UrlParser := { url_Parse : string → option URL }.

(** [%q] of a string: strconv.Quote, with unicode.IsPrint beyond ASCII as a
    table. *)
Class PrintTables := { table_print : Z → bool }.

Fixpoint hex_digits (k : nat) (n : Z) : string :=
  match k with
  | O => ""
  | S k => hex_digits k (n / 16) +:+ String (hex_digit (n mod 16)) ""
  end.
Definition is_print `{PrintTables} (r : Z) : bool :=
  if r <? 128 then (32 <=? r) && (r <=? 126) else table_print r.
Definition quote_rune `{PrintTables} (r : Z) : string :=
  if (r =? 34) || (r =? 92) then "\" +:+ encode_rune r
  else if is_print r then encode_rune r
  else if r =? 7 then "\a" else if r =? 8 then "\b" else if r =? 12 then "\f"
  else if r =? 10 then "\n" else if r =? 13 then "\r" else if r =? 9 then "\t"
  else if r =? 11 then "\v"
  else if (r <? 32) || (r =? 127) then "\x" +:+ hex_digits 2 r
  else if r <? 65536 then "\u" +:+ hex_digits 4 r
  else "\U" +:+ hex_digits 8 r.
(** A byte that starts no rune is written as such. *)
Fixpoint quote_fuel `{PrintTables} (fuel : nat) (s : string) : string :=
  match fuel, s with
  | S fuel, String c _ =>
      let '(r, n) := decode_rune s in
      (if bool_decide (n = 1%nat) && (r =? RuneError) then "\x" +:+ hex_digits 2 (byte_val c)
       else quote_rune r) +:+ quote_fuel fuel (sdrop n s)
  | _, _ => ""
  end.
Definition strconv_Quote `{PrintTables} (s : string) : string :=
  quote +:+ quote_fuel (String.length s) s +:+ quote.

(** ** Types *)

Record Principal := mkPrincipal { pn_UPN : string; pn_Attributes : gmap string string }.

(** [type Request struct] *)
Record ERequest := mkERequest {
  rq_CSR : string; rq_Context : AdditionalContext; rq_Principal : Principal; rq_Header : SoapHeader }.

(** What the program reads of an x509.Certificate. *)
Record X509 := mkX509 {
  x_Cert : Certificate509; x_Subject : string; x_NotBefore : Time; x_NotAfter : Time }.
Definition x_Raw (c : X509) : string := cert_Raw (x_Cert c).

Record Issued := mkIssuedCert { is_Certificate : option X509; is_Chain : list X509 }.

(** [type Enrollment struct] *)
Record EEnrollment := mkEEnrollment {
  en_Request : ERequest;
  en_Certificate : X509;
  en_Chain : list X509;
  en_Store : WStore;
  en_EnrolledAt : Time;
  en_TraceID : string }.

(** Calls that return a value or an error in which a fault can be found. *)
Inductive fresult (A : Type) : Type :=
  | FOk (a : A)
  | FErr (e : ferror).
Arguments FOk {A} a.
Arguments FErr {A} e.

Definition of_result {A} (r : result A) : fresult A :=
  match r with Ok a => FOk a | Err e => FErr (plain_error e) end.
Definition fail_with {A} (f : Fault) : fresult A := FErr (fault_error f).

(** ** Configuration *)

(** The hooks, over the state they share. *)
Record Hooks (W : Type) := mkHooks {
  hk_Authenticate : Credentials → W → W * fresult Principal;
  hk_Issue : ERequest → W → W * fresult (option Issued);
  hk_Provision : EEnrollment → W → W * fresult (option Document);
  hk_Record : option (EEnrollment → option Document → W → W * fresult unit) }.
Arguments mkHooks {W} _ _ _ _.
Arguments hk_Authenticate {W} _ _ _.
Arguments hk_Issue {W} _ _ _.
Arguments hk_Provision {W} _ _ _.
Arguments hk_Record {W} _.

(** [type Config struct]; a nil interface is [None].  The hooks are checked
    together, as New does. *)
Record EConfig (W : Type) := mkEConfig {
  ec_EnrollmentServiceURL : string;
  ec_EnrollmentPolicyServiceURL : string;
  ec_EnrollmentVersion : string;
  ec_AuthPolicy : AuthPolicy;
  ec_Hooks : option (Hooks W);
  ec_Policy : option PolicyResponse;
  ec_MaxRequestSize : Z }.
Arguments mkEConfig {W} _ _ _ _ _ _ _.
Arguments ec_EnrollmentServiceURL {W} _.
Arguments ec_EnrollmentPolicyServiceURL {W} _.
Arguments ec_EnrollmentVersion {W} _.
Arguments ec_AuthPolicy {W} _.
Arguments ec_Hooks {W} _.
Arguments ec_Policy {W} _.
Arguments ec_MaxRequestSize {W} _.

(** [type Service struct]: the effective configuration. *)
Record EService (W : Type) := mkEService {
  sv_EnrollmentServiceURL : string;
  sv_EnrollmentPolicyServiceURL : string;
  sv_EnrollmentVersion : string;
  sv_AuthPolicy : AuthPolicy;
  sv_Hooks : Hooks W;
  sv_Policy : PolicyResponse;
  sv_MaxRequestSize : Z }.
Arguments mkEService {W} _ _ _ _ _ _ _.
Arguments sv_EnrollmentServiceURL {W} _.
Arguments sv_EnrollmentPolicyServiceURL {W} _.
Arguments sv_EnrollmentVersion {W} _.
Arguments sv_AuthPolicy {W} _.
Arguments sv_Hooks {W} _.
Arguments sv_Policy {W} _.
Arguments sv_MaxRequestSize {W} _.

Definition checkURL `{UrlParser} (s : string) : result unit :=
  match url_Parse s with
  | Some u => if negb (bool_decide (u_Scheme u = "https")) || bool_decide (u_Host u = "")
              then Err [enroll_ErrConfig] else Ok tt
  | None => Err [enroll_ErrConfig]
  end.

Local Open Scope go_scope.

Definition ENew `{UrlParser} {W} (cfg : EConfig W) : result (EService W) :=
  if decide (ec_EnrollmentServiceURL cfg = "") then Err [enroll_ErrConfig]
  else
  let? _ := checkURL (ec_EnrollmentServiceURL cfg) in
  let? _ := (if decide (ec_EnrollmentPolicyServiceURL cfg = "") then Ok tt
             else checkURL (ec_EnrollmentPolicyServiceURL cfg)) in
  let version := if decide (ec_EnrollmentVersion cfg = "") then DefaultEnrollmentVersion
                 else ec_EnrollmentVersion cfg in
  match ParseVersion version with
  | Err _ => Err [enroll_ErrConfig]
  | Ok n =>
      if n <? MinEnrollmentVersion then Err [enroll_ErrConfig]
      else
      let policy := if decide (ec_AuthPolicy cfg = "") then AuthPolicyOnPremise else ec_AuthPolicy cfg in
      if decide (policy ≠ AuthPolicyOnPremise) then Err [enroll_ErrConfig; enroll_ErrPolicyUnsupported]
      else match ec_Hooks cfg with
      | None => Err [enroll_ErrConfig]
      | Some hooks =>
          let pol := default DefaultPolicy (ec_Policy cfg) in
          match PolicyResponse_Validate (Some pol) with
          | Err e => Err (enroll_ErrConfig :: e)
          | Ok _ =>
              Ok (mkEService (ec_EnrollmentServiceURL cfg) (ec_EnrollmentPolicyServiceURL cfg) version
                policy hooks pol
                (if ec_MaxRequestSize cfg <=? 0 then SoapMaxSize else ec_MaxRequestSize cfg))
          end
      end
  end.

(** [NewUUID] on sixteen random bytes. *)
Definition set_byte (i : nat) (f : Z → Z) (s : string) : string :=
  match sget i s with
  | Some c => stake i s +:+ String (byte_of (f (byte_val c))) (sdrop (S i) s)
  | None => s
  end.
Definition NewUUID (random : string) : string :=
  let b := set_byte 6 (λ v, Z.lor (Z.land v 0x0f) 0x40) random in
  let b := set_byte 8 (λ v, Z.lor (Z.land v 0x3f) 0x80) b in
  let h := hex_encode b in
  stake 8 h +:+ "-" +:+ stake 4 (sdrop 8 h) +:+ "-" +:+ stake 4 (sdrop 12 h) +:+ "-" +:+
  stake 4 (sdrop 16 h) +:+ "-" +:+ sdrop 20 h.

(** ** Faults *)

Definition relatesTo (h : option SoapHeader) : string :=
  match h with
  | Some h => if decide (sh_MessageID h = "") then "urn:uuid:00000000-0000-0000-0000-000000000000"
              else sh_MessageID h
  | None => "urn:uuid:00000000-0000-0000-0000-000000000000"
  end.

Definition traced (trace : string) (f : Fault) : Fault :=
  if decide (f_TraceID f = "")
  then mkFault (f_Subcode f) (f_Reason f) (f_Detail f) trace (f_Cause f) else f.

(** A reply: its bytes, and the fault that is the error. *)
Definition Reply : Type := string * option Fault.

Definition service_fault (err : ferror) (action : string) (h : option SoapHeader) (trace : string) : Reply :=
  let f := traced trace (AsFault err) in
  match EncodeFault f action (relatesTo h) with
  | Ok out => (out, Some f)
  | Err encErr =>
      let f := mkFault SubcodeInternalServiceFault "internal service fault" "" trace (fe_is err ++ encErr) in
      (match EncodeFault f action (relatesTo h) with Ok out => out | Err _ => "" end, Some f)
  end.

(** ** Discover *)

Definition decode_fault (reason : string) (e : error) : ferror :=
  fault_error (WithCause e (NewFault SubcodeMessageFormat reason)).

(** The steps after decoding: the reply document, or the error to render. *)
Definition discover_steps {W} (s : EService W) (h : SoapHeader) (req : DiscoverRequest) (trace : string)
    : fresult string :=
  if negb (bool_decide (sh_Action h = "")) && negb (bool_decide (sh_Action h = ActionDiscover))
  then fail_with (NewFault SubcodeMessageFormat ("unexpected action " +:+ sh_Action h))
  else if decide (dq_EmailAddress req = "")
  then fail_with (NewFault SubcodeMessageFormat "EmailAddress is required")
  else match ParseVersion (dq_RequestVersion req) with
  | Err e => fail_with (WithCause e (NewFault SubcodeMessageFormat "RequestVersion must be 1.0 to 9.0"))
  | Ok reqVersion =>
      if negb (Supports (sv_AuthPolicy s) req)
      then fail_with (WithCause [enroll_ErrPolicyUnsupported] (NewFault SubcodeAuthentication
        ("this server enrolls with the " +:+ sv_AuthPolicy s +:+
         " policy, which the client did not offer")))
      else
      let serverVersion := match ParseVersion (sv_EnrollmentVersion s) with Ok n => n | Err _ => 0 end in
      let version := if MinEnrollmentVersion <=? reqVersion
                     then FormatVersion (Z.min serverVersion reqVersion) else "" in
      of_result (EncodeDiscoverResponse
        (mkDiscoverResponse (sv_AuthPolicy s) version (sv_EnrollmentPolicyServiceURL s)
           (sv_EnrollmentServiceURL s) "" "" "") (relatesTo (Some h)) trace)
  end.

Definition rendered (r : fresult string) (action : string) (h : option SoapHeader) (trace : string) : Reply :=
  match r with FOk out => (out, None) | FErr e => service_fault e action h trace end.

Definition Discover `{NameTables} {W} (s : EService W) (trace body : string) : Reply :=
  let unparsed e h := service_fault (decode_fault "cannot parse Discover request" e)
    ActionDiscoverResponse h trace in
  match DecodeDiscover body (sv_MaxRequestSize s) with
  | Headed h (Ok req) => rendered (discover_steps s h req trace) ActionDiscoverResponse (Some h) trace
  | Headed h (Err e) => unparsed e (Some h)
  | Unread e => unparsed e None
  end.

(** ** Calls of the hooks, logged *)

Inductive event : Type :=
  | EvAuthenticate (c : Credentials) (r : fresult Principal)
  | EvIssue (req : ERequest) (r : fresult (option Issued))
  | EvProvision (e : EEnrollment) (r : fresult (option Document))
  | EvRecord (e : EEnrollment) (doc : option Document) (r : fresult unit).

(** A program over the hooks' state and the log of their calls. *)
Definition E (W A : Type) : Type := W * list event → (W * list event) * fresult A.
Definition eret {W A} (r : fresult A) : E W A := λ st, (st, r).
Definition ebind {W A B} (m : E W A) (k : A → E W B) : E W B := λ st,
  match m st with
  | (st, FOk a) => k a st
  | (st, FErr e) => (st, FErr e)
  end.
Definition emap_err {W A} (f : ferror → ferror) (m : E W A) : E W A := λ st,
  match m st with
  | (st, FOk a) => (st, FOk a)
  | (st, FErr e) => (st, FErr (f e))
  end.
Definition call {W A} (hook : W → W * fresult A) (ev : fresult A → event) : E W A := λ st,
  let '(w, r) := hook (fst st) in ((w, snd st ++ [ev r]), r).

(** ** authenticate *)

Definition auth_error (e : ferror) : ferror :=
  if errors_Is (fe_is e) enroll_ErrUnauthenticated
  then fault_error (WithCause (fe_is e) (NewFault SubcodeAuthentication "user not recognized"))
  else if errors_Is (fe_is e) enroll_ErrUnauthorized
  then fault_error (WithCause (fe_is e) (NewFault SubcodeAuthorization "user not allowed to enroll"))
  else match fe_as e with
  | Some f => fault_error f
  | None => fault_error (WithCause (fe_is e) (NewFault SubcodeEnrollmentServer "authentication failed"))
  end.

(** The credentials of a request, or the fault of a header without them. *)
Definition header_credentials (h : SoapHeader) : fresult Credentials :=
  match sh_Security h with
  | None => fail_with (NewFault SubcodeInvalidSecurity "missing wsse:Security header")
  | Some sec =>
      match sec_UsernameToken sec with
      | None =>
          match sec_BinarySecurityToken sec with
          | Some _ => fail_with (WithCause [enroll_ErrPolicyUnsupported] (NewFault SubcodeInvalidSecurity
              "this server accepts on-premise credentials, not a security token"))
          | None => fail_with (NewFault SubcodeInvalidSecurity "missing wsse:UsernameToken")
          end
      | Some ut =>
          if negb (bool_decide (pw_Type (ut_Password ut) = "")) &&
             negb (bool_decide (pw_Type (ut_Password ut) = PasswordText))
          then fail_with (NewFault SubcodeInvalidSecurity
                 ("unsupported password type " +:+ pw_Type (ut_Password ut)))
          else if decide (ut_Username ut = "")
          then fail_with (NewFault SubcodeInvalidSecurity "empty wsse:Username")
          else FOk (mkCredentials (ut_Username ut) (pw_Value (ut_Password ut)))
      end
  end.

Definition service_authenticate {W} (s : EService W) (h : SoapHeader) : E W Principal :=
  ebind (eret (header_credentials h)) (λ c,
  emap_err auth_error (call (hk_Authenticate (sv_Hooks s) c) (EvAuthenticate c))).

(** ** GetPolicies *)

Definition policies_steps {W} (s : EService W) (h : SoapHeader) : E W string :=
  if decide (sv_EnrollmentPolicyServiceURL s = "")
  then eret (fail_with (WithCause [enroll_ErrPolicyDisabled]
         (NewFault SubcodeEnrollmentServer "policy service is not enabled")))
  else if negb (bool_decide (sh_Action h = "")) && negb (bool_decide (sh_Action h = ActionGetPolicies))
  then eret (fail_with (NewFault SubcodeMessageFormat ("unexpected action " +:+ sh_Action h)))
  else ebind (service_authenticate s h) (λ _,
       eret (of_result (EncodePolicyResponse (Some (sv_Policy s)) (relatesTo (Some h))))).

(** Run the steps of an operation and render what they return. *)
Definition run_steps {W} (m : E W string) (action : string) (h : SoapHeader) (trace : string)
    (st : W * list event) : (W * list event) * Reply :=
  let '(st, r) := m st in (st, rendered r action (Some h) trace).

Definition GetPolicies `{NameTables} {W} (s : EService W) (trace body : string) (st : W * list event)
    : (W * list event) * Reply :=
  let unparsed e h := (st, service_fault (decode_fault "cannot parse GetPolicies request" e)
    ActionGetPoliciesResponse h trace) in
  match DecodeGetPolicies body (sv_MaxRequestSize s) with
  | Headed h (Ok _) => run_steps (policies_steps s h) ActionGetPoliciesResponse h trace st
  | Headed h (Err e) => unparsed e (Some h)
  | Unread e => unparsed e None
  end.

(** ** Enroll *)

Definition invalid_data (trace reason : string) : Fault :=
  WithDetail ErrorInvalidEnrollmentData trace (NewFault SubcodeMessageFormat reason).

Definition checkToken `{PrintTables} (rst : RequestSecurityToken) (p : Principal) (h : SoapHeader)
    (trace : string) : fresult ERequest :=
  let format reason := fail_with (NewFault SubcodeMessageFormat reason) in
  let renew reason cause := fail_with (WithCause [cause]
    (WithDetail ErrorNotEligibleToRenew trace (NewFault SubcodeCertificateRequest reason))) in
  if negb (bool_decide (rst_TokenType rst = TokenTypeDeviceEnrollment))
  then format ("unexpected TokenType " +:+ rst_TokenType rst)
  else if decide (rst_RequestType rst = RequestTypeRenew)
  then renew "renewal is not supported" enroll_ErrRenew
  else if negb (bool_decide (rst_RequestType rst = RequestTypeIssue))
  then format ("unexpected RequestType " +:+ rst_RequestType rst)
  else
  let vt := bst_ValueType (rst_Token rst) in
  if decide (vt = ValueTypePKCS7) then renew "PKCS#7 renewal tokens are not supported" enroll_ErrPKCS7
  else if decide (vt = "") then format "missing BinarySecurityToken"
  else if negb (bool_decide (vt = ValueTypePKCS10)) then format ("unexpected token ValueType " +:+ vt)
  else
  let not64 e := fail_with (WithCause e (NewFault SubcodeMessageFormat "BinarySecurityToken is not base64")) in
  match BST_Bytes (Some (rst_Token rst)) with
  | Err e => not64 e
  | Ok csr =>
      if len csr =? 0 then not64 []
      else
      let c := rst_Context rst in
      if decide (ac_DeviceID c = "") then fail_with (invalid_data trace "DeviceID is required")
      else if negb (EnrollmentType_Valid (ac_EnrollmentType c))
      then fail_with (invalid_data trace
             ("EnrollmentType " +:+ strconv_Quote (ac_EnrollmentType c) +:+ " is not Full or Device"))
      else match (if decide (ac_RequestVersion c = "") then Ok 0 else ParseVersion (ac_RequestVersion c)) with
      | Err e => fail_with (WithCause e (invalid_data trace "RequestVersion must be 1.0 to 9.0"))
      | Ok _ => FOk (mkERequest csr c p h)
      end
  end.

Definition issueFault (e : ferror) : ferror :=
  match fe_as e with
  | Some f => fault_error f
  | None =>
      if errors_Is (fe_is e) enroll_ErrUnauthorized
      then fault_error (WithCause (fe_is e) (NewFault SubcodeAuthorization "device not allowed to enroll"))
      else fault_error (WithCause (fe_is e) (NewFault SubcodeCertificateRequest "failed to get certificate"))
  end.

Definition wrapFault (sub : Subcode) (reason : string) (e : ferror) : ferror :=
  match fe_as e with
  | Some f => fault_error f
  | None => fault_error (WithCause (fe_is e) (NewFault sub reason))
  end.

Definition store_of (c : AdditionalContext) : WStore :=
  if decide (ac_EnrollmentType c = EnrollmentTypeDevice) then StoreSystem else StoreUser.

Section enroll.
Context `{PrintTables} `{CaseTables} {W : Type} (s : EService W).

(** From the issued certificate on. *)
Definition provision_steps (h : SoapHeader) (e : EEnrollment) (now : Time) : E W string :=
  ebind (emap_err (wrapFault SubcodeEnrollmentServer "cannot build provisioning document")
    (call (hk_Provision (sv_Hooks s) e) (EvProvision e))) (λ doc,
  ebind (eret (match WapEncode doc (mkWapOptions false false) with
               | Ok encoded => FOk encoded
               | Err err => fail_with (WithCause err
                   (NewFault SubcodeEnrollmentServer "invalid provisioning document"))
               end)) (λ encoded,
  ebind (match hk_Record (sv_Hooks s) with
         | Some record =>
             emap_err (wrapFault SubcodeEnrollmentServer "cannot record enrollment")
               (call (record e doc) (EvRecord e doc))
         | None => eret (FOk tt)
         end) (λ _,
  eret (of_result (EncodeTokenResponse encoded (relatesTo (Some h))
    (Some (mkTimestampRange now (time_Add now (5 * Minute))))))))).

Definition enroll_steps (h : SoapHeader) (rst : RequestSecurityToken) (trace : string) (now : Time)
    : E W string :=
  if negb (bool_decide (sh_Action h = "")) && negb (bool_decide (sh_Action h = ActionRST))
  then eret (fail_with (NewFault SubcodeMessageFormat ("unexpected action " +:+ sh_Action h)))
  else
  ebind (service_authenticate s h) (λ principal,
  ebind (eret (checkToken rst principal h trace)) (λ req,
  ebind (emap_err issueFault (call (hk_Issue (sv_Hooks s) req) (EvIssue req))) (λ issued,
  match issued with
  | Some (mkIssuedCert (Some cert) chain) =>
      provision_steps h (mkEEnrollment req cert chain (store_of (rq_Context req)) now trace) now
  | _ => eret (fail_with (NewFault SubcodeCertificateRequest "issuer returned no certificate"))
  end))).

Definition Enroll `{NameTables} (trace : string) (now : Time) (body : string) (st : W * list event)
    : (W * list event) * Reply :=
  let unparsed e h := (st, service_fault (decode_fault "cannot parse RequestSecurityToken" e)
    ActionRSTRC h trace) in
  match DecodeRequestSecurityToken body (sv_MaxRequestSize s) with
  | Headed h (Ok rst) => run_steps (enroll_steps h rst trace now) ActionRSTRC h trace st
  | Headed h (Err e) => unparsed e (Some h)
  | Unread e => unparsed e None
  end.
End enroll.
