(* ===== verification/EnrollProvision.v ===== *)
(** * The default provisioner

    mdmprotocol/enroll/provision.go: NewProvisioner and Provision.  The source
    of account credentials is a hook over the state [W] the service's hooks
    share. *)
From stdpp Require Import base gmap strings list.
From Stdlib Require Import ZArith Lia Ascii.
From S2P Require Import Prelude GoStrings MdmAuth WapProv WapBuild Soap EnrollTypes EnrollMsg.
From S2P Require Import EnrollService.

Local Open Scope Z_scope.
Local Open Scope go_scope.

(** [type CredentialSource interface] *)
Definition CredentialSource (W : Type) : Type :=
  EEnrollment → W → W * fresult (Credential * Credential).

Record ProvisionConfig (W : Type) := mkProvisionConfig {
  pc_ManagementURL : string;
  pc_ProviderID : string;
  pc_Name : string;
  pc_Credentials : option (CredentialSource W);
  pc_Renew : option Renew;
  pc_Poll : option Poll;
  pc_PushPFN : string;
  pc_Application : ApplicationConfig;
  pc_IncludeRootCATrusted : bool;
  pc_EntDMID : option (EEnrollment → string) }.
Arguments mkProvisionConfig {W} _ _ _ _ _ _ _ _ _ _.
Arguments pc_ManagementURL {W} _.
Arguments pc_ProviderID {W} _.
Arguments pc_Name {W} _.
Arguments pc_Credentials {W} _.
Arguments pc_Renew {W} _.
Arguments pc_Poll {W} _.
Arguments pc_PushPFN {W} _.
Arguments pc_Application {W} _.
Arguments pc_IncludeRootCATrusted {W} _.
Arguments pc_EntDMID {W} _.

Definition DefaultRenew : Renew := mkRenew true 60 4 "".

(** [type DefaultProvisioner struct]: the effective configuration. *)
Record DefaultProvisioner (W : Type) := mkDefaultProvisioner {
  dp_cfg : ProvisionConfig W;
  dp_Credentials : CredentialSource W;
  dp_Renew : Renew;
  dp_Poll : Poll }.
Arguments mkDefaultProvisioner {W} _ _ _ _.
Arguments dp_cfg {W} _.
Arguments dp_Credentials {W} _.
Arguments dp_Renew {W} _.
Arguments dp_Poll {W} _.

Definition NewProvisioner {W} (cfg : ProvisionConfig W) : result (DefaultProvisioner W) :=
  if decide (pc_ManagementURL cfg = "" ∨ pc_ProviderID cfg = "") then Err [enroll_ErrConfig]
  else match pc_Credentials cfg with
  | None => Err [enroll_ErrConfig]
  | Some creds =>
      let renew := default DefaultRenew (pc_Renew cfg) in
      let poll := default DefaultPoll (pc_Poll cfg) in
      match Poll_Validate poll with
      | Err e => Err (enroll_ErrConfig :: e)
      | Ok _ => Ok (mkDefaultProvisioner cfg creds renew poll)
      end
  end.

(** [splitChain]: the root, last of the chain, and what comes before it. *)
Definition splitChain (chain : list X509) : list string * list string :=
  match last chain with
  | None => ([], [])
  | Some root => ([x_Raw root], map x_Raw (removelast chain))
  end.

(** The configuration of the w7 application, filled from the enrollment. *)
Definition fill_application (cfg : ApplicationConfig) (provider name addr : string)
    (server client : Credential) : ApplicationConfig :=
  mkApplicationConfig provider name addr (app_ConnRetryFreq cfg) (app_InitialBackoffTime cfg)
    (app_MaxBackoffTime cfg) (app_BackCompatRetryDisabled cfg) (app_DefaultEncoding cfg)
    (app_ProtoVer cfg) (app_UseHWDevID cfg) (app_SSLClientCertSearchCriteria cfg) server client.

Definition client_config {W} (p : DefaultProvisioner W) (e : EEnrollment) : DMClientConfig :=
  let ctx := rq_Context (en_Request e) in
  mkDMClientConfig (pc_ProviderID (dp_cfg p))
    (if decide (ac_EnrollmentType ctx = EnrollmentTypeFull) then pn_UPN (rq_Principal (en_Request e)) else "")
    (ac_DeviceName ctx)
    (match pc_EntDMID (dp_cfg p) with Some f => f e | None => "" end)
    (Some (dp_Poll p)) (pc_PushPFN (dp_cfg p)) [].

(** The document once the credentials are there. *)
Definition provision_document {W} (p : DefaultProvisioner W) (e : EEnrollment) (roots : list string)
    (cs : Characteristic) (server client : Credential) : result Document :=
  let cfg := dp_cfg p in
  let? app := Application (fill_application (pc_Application cfg) (pc_ProviderID cfg) (pc_Name cfg)
    (pc_ManagementURL cfg) server client) in
  let? dm := DMClient (client_config p e) in
  let? rc := (if pc_IncludeRootCATrusted cfg
              then let? rc := RootCATrustedCertificates roots in Ok [rc] else Ok []) in
  Ok (mkDocument WapVersion (cs :: rc ++ [app; dm])).

(** [Provision]; the service hands it an enrollment with a certificate and a
    request. *)
Definition Provision {W} (p : DefaultProvisioner W) (e : EEnrollment) (w : W)
    : W * fresult (option Document) :=
  let '(roots, intermediates) := splitChain (en_Chain e) in
  if decide (roots = []) then (w, FErr (plain_error [enroll_ErrConfig]))
  else match CertificateStore (mkCertificateStoreConfig roots intermediates (x_Raw (en_Certificate e))
               (en_Store e) (Some (dp_Renew p))) with
  | Err err => (w, FErr (plain_error err))
  | Ok cs =>
      match dp_Credentials p e w with
      | (w, FErr err) => (w, FErr err)
      | (w, FOk (server, client)) =>
          (w, of_result (let? doc := provision_document p e roots cs server client in Ok (Some doc)))
      end
  end.
