(* ===== verification/EnrollHttp.v ===== *)
(** * The enrollment endpoints

    mdmprotocol/enroll/http.go: the handlers of the three endpoints and the
    paths they are registered under.  net/http's ServeMux picks the handler by
    the registered path. *)
From stdpp Require Import base gmap strings list.
From Stdlib Require Import ZArith Lia Ascii.
From S2P Require Import Prelude GoStrings GoXml XmlDoc WapProv Soap EnrollTypes EnrollMsg EnrollService.

Local Open Scope Z_scope.

Definition EnrollContentType : string := "application/soap+xml; charset=utf-8".

(** A request: its method and its body; [None] when reading the body fails. *)
Record HttpRequest := mkHttpRequest { hq_Method : string; hq_Body : option string }.

(** A response with the headers the handlers set; [None] leaves one unset. *)
Record HttpReply := mkHttpReply {
  hp_Status : Z;
  hp_ContentType : option string;
  hp_ContentLength : option Z;
  hp_Allow : option string;
  hp_Body : string }.

(** [http.Error]: the text with a line end. *)
Definition http_Error (msg : string) (status : Z) (allow : option string) : HttpReply :=
  mkHttpReply status (Some "text/plain; charset=utf-8") None allow (msg +:+ String "010" "").

Section handler.
Context `{NameTables} `{PrintTables} `{CaseTables} {W : Type} (s : EService W).

(** [read]: at most one byte over the limit is taken. *)
Definition http_read (r : HttpRequest) : HttpReply + string :=
  match hq_Body r with
  | None => inl (http_Error "cannot read request" 400 None)
  | Some full =>
      let body := stake (Z.to_nat (wrap64 (sv_MaxRequestSize s + 1))) full in
      if sv_MaxRequestSize s <? len body then inl (http_Error "request too large" 413 None) else inr body
  end.

(** [respond]; Log receives the operation and the fault. *)
Definition http_respond (op : string) (reply : Reply) : HttpReply * list (string * Fault) :=
  let '(out, err) := reply in
  (mkHttpReply (match err with None => 200 | Some _ => 500 end) (Some EnrollContentType)
     (Some (len out)) None out,
   match err with None => [] | Some f => [(op, f)] end).

Definition Operation : Type := string → W * list event → (W * list event) * Reply.

Definition http_serve (op : string) (fn : Operation) (r : HttpRequest) (st : W * list event)
    : (W * list event) * (HttpReply * list (string * Fault)) :=
  match http_read r with
  | inl e => (st, (e, []))
  | inr body => let '(st, reply) := fn body st in (st, http_respond op reply)
  end.

Definition not_allowed (allow : string) : HttpReply * list (string * Fault) :=
  (http_Error "method not allowed" 405 (Some allow), []).

Definition http_Discovery (trace : string) (r : HttpRequest) (st : W * list event)
    : (W * list event) * (HttpReply * list (string * Fault)) :=
  if decide (hq_Method r = "GET") then (st, (mkHttpReply 200 None (Some 0) None "", []))
  else if decide (hq_Method r = "POST")
  then http_serve "Discover" (λ body st, (st, Discover s trace body)) r st
  else (st, not_allowed "GET, POST").

Definition http_post (op : string) (fn : Operation) (r : HttpRequest) (st : W * list event)
    : (W * list event) * (HttpReply * list (string * Fault)) :=
  if decide (hq_Method r = "POST") then http_serve op fn r st else (st, not_allowed "POST").

Definition http_Policy (trace : string) : HttpRequest → W * list event →
    (W * list event) * (HttpReply * list (string * Fault)) :=
  http_post "GetPolicies" (GetPolicies s trace).
Definition http_Enrollment (trace : string) (now : Time) : HttpRequest → W * list event →
    (W * list event) * (HttpReply * list (string * Fault)) :=
  http_post "RequestSecurityToken" (Enroll s trace now).

(** The body type [struct{}] of the shared endpoint's first look. *)
Definition no_body (t : xtree) (b : unit) : result unit := Ok b.

Definition http_policyOrEnrollment (trace : string) (now : Time) (r : HttpRequest) (st : W * list event)
    : (W * list event) * (HttpReply * list (string * Fault)) :=
  if negb (bool_decide (hq_Method r = "POST")) then (st, not_allowed "POST")
  else match http_read r with
  | inl e => (st, (e, []))
  | inr body =>
      let policies := match SoapDecode tt no_body body (sv_MaxRequestSize s) with
                      | Ok env => bool_decide (sh_Action (env_Header env) = ActionGetPolicies)
                      | Err _ => false
                      end in
      let '(op, fn) := if policies then ("GetPolicies", GetPolicies s trace)
                       else ("RequestSecurityToken", Enroll s trace now) in
      let '(st, reply) := fn body st in (st, http_respond op reply)
  end.

(** ** NewHandler *)

Inductive endpoint := EpDiscovery | EpEnrollment | EpPolicy | EpPolicyOrEnrollment.

Definition pathOf `{UrlParser} (raw : string) : string :=
  match url_Parse raw with
  | Some u => if decide (u_Path u = "") then "/" else u_Path u
  | None => "/"
  end.

(** The registrations, in order. *)
Definition NewHandler_routes `{UrlParser} : list (string * endpoint) :=
  let enrollPath := pathOf (sv_EnrollmentServiceURL s) in
  let policyPath := if decide (sv_EnrollmentPolicyServiceURL s = "") then ""
                    else pathOf (sv_EnrollmentPolicyServiceURL s) in
  (DiscoveryPath, EpDiscovery) ::
  (if decide (policyPath = "") then [(enrollPath, EpEnrollment)]
   else if decide (policyPath = enrollPath) then [(enrollPath, EpPolicyOrEnrollment)]
   else [(enrollPath, EpEnrollment); (policyPath, EpPolicy)]).

Definition endpoint_serve (ep : endpoint) (trace : string) (now : Time) : HttpRequest → W * list event →
    (W * list event) * (HttpReply * list (string * Fault)) :=
  match ep with
  | EpDiscovery => http_Discovery trace
  | EpEnrollment => http_Enrollment trace now
  | EpPolicy => http_Policy trace
  | EpPolicyOrEnrollment => http_policyOrEnrollment trace now
  end.
End handler.

(** [IsFault] on an error the service returned. *)
Definition IsFault (e : ferror) : option Fault := fe_as e.
