(* ===== verification/ServerService.v ===== *)
(** * The reference server's service

    server/service/auth.go, credentials.go, hooks.go and the paths of
    service.go, over the SQL store: the enrollment authenticator, the source of
    the credentials a device is provisioned with, and the hooks of the
    management sessions; with storage.MDMAuthenticator, storage.Unenroll and
    storage.Recorder over the same store.

    crypto/rand, the clock and the details json.Marshal writes are
    parameters. *)
From stdpp Require Import base gmap strings list sorting.
From Stdlib Require Import ZArith Lia Ascii Sorted.
From S2P Require Import Prelude GoStrings SyncmlModel SyncmlAuth GoCrypto Paging StateStore MdmAuth EnrollTypes Storage MdmQueue.
From S2P Require Import WapBuild SqlBase SqlQueue SqlQueueProofs SqlStore SqlStoreProofs SqlStoreTheorems.

Local Open Scope Z_scope.
Local Open Scope go_scope.

(** ** service.go *)

(** [type Paths struct] *)
Record Paths := mkPaths { pt_Discovery : string; pt_Policy : string; pt_Enrollment : string; pt_Management : string }.
Definition withDefaults (p : Paths) : Paths :=
  let or d s := if decide (s = "") then d else s in
  mkPaths (or DiscoveryPath (pt_Discovery p)) (or "/EnrollmentServer/Policy.svc" (pt_Policy p))
    (or "/EnrollmentServer/Enrollment.svc" (pt_Enrollment p)) (or "/ManagementServer/MDM.svc" (pt_Management p)).

(** [randomSecret]; [entropy] is what randRead fills the bytes with. *)
Definition randomSecret (entropy : result string) : result string := let? b := entropy in Ok (hex_encode b).

(** ** auth.go *)

Record StaticAuthenticator := mkStaticAuthenticator { sa_Users : gmap string string; sa_AllowAny : bool }.

(** [Authenticate]: the UPN of the principal. *)
Definition StaticAuthenticate (a : StaticAuthenticator) (username password : string) : result string :=
  if sa_AllowAny a then Ok username
  else match sa_Users a !! username with
  | None => Err [enroll_ErrUnauthenticated]
  | Some want => if decide (want = password) then Ok username else Err [enroll_ErrUnauthenticated]
  end.

Section service.
Context `{StoreCodec} (ctx : option error).

(** ** The storage tier over the SQL store *)

(** [MDMAuthenticator.Lookup] with a credential store. *)
Definition sql_Lookup (deviceID : string) : M Conn Identity := λ c,
  match SS_Get deviceID c with
  | (c, Err e) => (c, Err (if errors_Is e storage_ErrNotFound then [mdm_ErrUnenrolled] else e))
  | (c, Ok e) =>
      let id ty hash := mkIdentity (e_DeviceID e) (e_Serial e) (e_Thumbprint e) ty hash in
      match SS_MDMCredential deviceID c with
      | (c, Ok k) => (c, Ok (id (mc_AuthType k) (mc_CredentialHash k)))
      | (c, Err err) => (c, if errors_Is err storage_ErrNotFound then Ok (id AuthCertificate "") else Err err)
      end
  end.

(** [Unenroll] *)
Definition sql_Unenroll (serial : string) (at_ : Time) : M Conn unit :=
  SS_SetState ctx serial StateUnenrolled at_ ;! SS_Revoke serial at_.

(** ** credentials.go *)

(** [Credentials]: how the device authenticates, and how the server would. *)
Definition Credentials (deviceID : string) (rand1 rand2 rand3 : result string) : M Conn (Credential * Credential) :=
  let! serverSecret := lift (randomSecret rand1) in
  let! clientSecret := lift (randomSecret rand2) in
  let! nonces := lift rand3 in
  SS_PutMDMCredential (mkMDMCredential deviceID AuthDigest (CredentialHash deviceID serverSecret)) ;!
  ret (mkCredential WAuthDigest deviceID serverSecret (stake 16 nonces), mkCredential WAuthDigest "" clientSecret (sdrop 16 nonces)).

(** ** hooks.go *)

(** The facts of mdm.Facts that are kept. *)
Definition PackageOne (deviceID : string) (devinfo : gmap string string) (loginStatus syncType devicePrepSync : string)
    (detail : result string) (clock : nat → Time) : M Conn unit :=
  let! e := SS_Get deviceID in
  SS_TouchLastSeen (e_Serial e) (clock O) ;!
  SS_PutFacts (mkFacts deviceID devinfo loginStatus syncType devicePrepSync "" (clock 1%nat)) ;!
  SS_LogEvent deviceID "session" detail (clock 2%nat).
Definition GenericAlert (deviceID : string) (detail : result string) (now : Time) : M Conn unit :=
  SS_LogEvent deviceID "generic_alert" detail now.
Definition ClientEvent (deviceID : string) (detail : result string) (now : Time) : M Conn unit :=
  SS_LogEvent deviceID "client_event" detail now.
Definition Unenrolled (deviceID : string) (detail : string → result string) (clock : nat → Time) : M Conn unit := λ c,
  match SS_Get deviceID c with
  | (c, Err e) =>
      if errors_Is e storage_ErrNotFound then SS_LogEvent deviceID "unenrolled" (Ok "null") (clock 1%nat) c else (c, Err e)
  | (c, Ok e) =>
      (sql_Unenroll (e_Serial e) (clock O) ;! SS_LogEvent deviceID "unenrolled" (detail (e_Serial e)) (clock 1%nat)) c
  end.
(** The details list the devices the hardware was known as. *)
Definition HWDevIDConflict (detail : string → list string → result string) (now : Time) (cf : Conflict) : M Conn unit :=
  SS_LogEvent (e_DeviceID (cf_New cf)) "hwdevid_conflict"
    (detail (cf_HWDevID cf) (map e_DeviceID (cf_Existing cf))) now.

(** The other devices the hardware is recorded under. *)
Definition existing_devices (rec : Enrollment) : M Conn (list Enrollment) :=
  if decide (e_HWDevID rec = "") then ret []
  else let! all := SS_ListByHWDevID (e_HWDevID rec) in
       ret (List.filter (λ prev, negb (bool_decide (e_DeviceID prev = e_DeviceID rec))) all).

(** [Recorder.Record] with this sink. *)
Definition sql_Record (detail : string → list string → result string) (now : Time) (e : IssuedEnrollment) : M Conn unit :=
  let rec := record_enrollment e in
  SS_PutCertificate ctx (Some (record_certificate e)) ;!
  let! existing := existing_devices rec in
  SS_Create ctx (Some rec) ;!
  if decide (existing = []) then ret tt
  else HWDevIDConflict detail now (mkConflict (e_HWDevID rec) existing rec).
End service.

(** ** Properties *)

Section properties.
Context `{StoreCodecLaws} (ctx : option error).

(** The authenticator over the tables is the one over the store they stand
    for. *)
Lemma sql_Lookup_same db s d :
  same_store db s → sql_Lookup d (mkConn db []) = (mkConn db [], Lookup (mkMDMAuthenticator true None) s d).
Proof.
  intros Hs. unfold sql_Lookup, Lookup. rewrite (Get_same _ s) by done. cbn [ma_Credentials].
  destruct (Storage.Get d s) as [e|err]; [|by destruct (errors_Is err _)].
  rewrite (MDMCredential_same _ s) by done. destruct (GetMDMCredential d s) as [k|err]; [done|].
  by destruct (errors_Is err _).
Qed.

Lemma LogEvent_same db s dev kind detail now c' r :
  same_store db s → SS_LogEvent dev kind detail now (mkConn db []) = (c', r) →
  ∃ db', c' = mkConn db' [] ∧ same_store db' s.
Proof.
  intros [H1 H2 H3 H4]. unfold SS_LogEvent, bind, lift. destruct detail as [blob|e]; [|by intros [= <- _]; exists db].
  rewrite call_sound. destruct (bigint_succ _); intros [= <- _]; (eexists; split; [done|by constructor]).
Qed.

Lemma verify_digest id hash name secret nonce :
  nonce ≠ "" → id_AuthType id = AuthDigest → id_CredentialHash id = hash → hash ≠ "" →
  verifyCredential id (Some (NewMD5Cred (MD5Digest name secret nonce))) nonce =
  bool_decide (MD5Digest name secret nonce = MD5DigestFromHash hash nonce).
Proof.
  intros Hn Hty Hh Hne. unfold verifyCredential. rewrite decide_True by done.
  cbn [NewMD5Cred Cred_Meta Cred_Data Meta_Type]. rewrite bool_decide_true by done.
  destruct (Z.eqb_spec (len nonce) 0) as [E|_]; [by apply len_0 in E|]. rewrite Hh.
  destruct (Z.eqb_spec (len hash) 0) as [E|_]; [by apply len_0 in E|]. cbn [negb orb].
  rewrite TrimSpace_id by apply b64_encode_ok. done.
Qed.

(** What minting leaves behind: the credential of the device, and nothing else
    changed. *)
Lemma Credentials_same db s dev rand1 rand2 rand3 c' server client :
  same_store db s → Credentials dev rand1 rand2 rand3 (mkConn db []) = (c', Ok (server, client)) →
  ∃ db' s', c' = mkConn db' [] ∧ same_store db' s' ∧ cr_Name server = dev ∧
    (∀ d, Storage.Get d s' = Storage.Get d s) ∧
    GetMDMCredential dev s' = Ok (mkMDMCredential dev AuthDigest (CredentialHash (cr_Name server) (cr_Secret server))).
Proof.
  intros Hs. unfold Credentials, bind, lift, randomSecret.
  destruct rand1 as [r1|]; [|done]. destruct rand2 as [r2|]; [|done]. destruct rand3 as [r3|]; [|done]. cbn [result_bind].
  set (k := mkMDMCredential dev AuthDigest (CredentialHash dev (hex_encode r1))).
  destruct (PutMDMCredential_same db s k Hs) as (db' & s' & r & E & Em & Hs'). rewrite E.
  destruct r as [[]|err]; [|done]. unfold ret. intros Er.
  assert (server = mkCredential WAuthDigest dev (hex_encode r1) (stake 16 r3)) as -> by congruence.
  assert ((∀ d, Storage.Get d s' = Storage.Get d s) ∧ GetMDMCredential dev s' = Ok k) as [Hg Hk].
  { unfold PutMDMCredential in Em. case_decide; [done|]. injection Em as <-. split; [done|].
    unfold GetMDMCredential. cbn [st_creds mc_DeviceID k]. by rewrite lookup_insert_eq. }
  exists db', s'. split_and!; [congruence|done|done|done|done].
Qed.

(** An identity whose credential is in the store verifies it. *)
Lemma stored_credential_verifies db s e server :
  same_store db s → Storage.Get (e_DeviceID e) s = Ok e →
  GetMDMCredential (e_DeviceID e) s =
    Ok (mkMDMCredential (e_DeviceID e) AuthDigest (CredentialHash (cr_Name server) (cr_Secret server))) →
  ∃ id, sql_Lookup (e_DeviceID e) (mkConn db []) = (mkConn db [], Ok id) ∧
    id_EnrollmentKey id = e_Serial e ∧ id_CertificateThumbprint id = e_Thumbprint e ∧
    (∀ nonce, nonce ≠ "" → ∀ name secret, verifyCredential id (Some (NewMD5Cred (MD5Digest name secret nonce))) nonce =
        bool_decide (MD5Digest name secret nonce = MD5Digest (cr_Name server) (cr_Secret server) nonce)).
Proof.
  intros Hs He Hk. rewrite (sql_Lookup_same _ s) by done. unfold Lookup. rewrite He. cbn [ma_Credentials]. rewrite Hk.
  eexists. split_and!; [done|done|done|]. intros nonce Hn name secret.
  by erewrite verify_digest.
Qed.

(** The credential a device is provisioned with works as soon as it is
    minted: the digest of the name and secret handed out verifies against what
    the authenticator then finds for the device, for every nonce.  But it is in
    force before the enrollment is recorded: while the device still has its
    earlier enrollment, the secret it holds verifies no more (unless the digests
    collide), so an enrollment that fails to be recorded locks the device out. *)
Theorem minted_credential_in_force db s e rand1 rand2 rand3 db1 server client :
  same_store db s → Storage.Get (e_DeviceID e) s = Ok e →
  Credentials (e_DeviceID e) rand1 rand2 rand3 (mkConn db []) = (mkConn db1 [], Ok (server, client)) →
  ∃ id, sql_Lookup (e_DeviceID e) (mkConn db1 []) = (mkConn db1 [], Ok id) ∧ id_EnrollmentKey id = e_Serial e ∧
    (∀ nonce, nonce ≠ "" →
      verifyCredential id (Some (NewMD5Cred (MD5Digest (cr_Name server) (cr_Secret server) nonce))) nonce = true ∧
      ∀ name old, verifyCredential id (Some (NewMD5Cred (MD5Digest name old nonce))) nonce =
        bool_decide (MD5Digest name old nonce = MD5Digest (cr_Name server) (cr_Secret server) nonce)).
Proof.
  intros Hs He (db' & s' & [= <-] & Hs' & _ & Hg & Hk)%(Credentials_same _ s); [|done]. rewrite <- Hg in He.
  destruct (stored_credential_verifies db1 s' e server Hs' He Hk) as (id & Hid & Hkey & _ & Hv).
  exists id. split_and!; [done|done|]. intros nonce Hn. split; [|by apply Hv]. rewrite Hv by done. by apply bool_decide_eq_true_2.
Qed.

(** C27: The hook of a device that unenrolls takes it out of service: when it
    succeeds, the enrollment the device had is marked unenrolled, its
    certificate is revoked and the authenticator finds the device no more. *)
Theorem unenrolled_hook_locks_out db s e detail clock c' :
  same_store db s → Storage.Get (e_DeviceID e) s = Ok e → recent (clock O) →
  Unenrolled ctx (e_DeviceID e) detail clock (mkConn db []) = (c', Ok tt) →
  (SS_GetBySerial (e_Serial e) c').2 = Ok (set_estate StateUnenrolled (clock O) e) ∧
  (∃ x, (SS_Certificate (e_Serial e) c').2 = Ok x ∧ c_Revoked x = true) ∧
  (sql_Lookup (e_DeviceID e) c').2 = Err [mdm_ErrUnenrolled].
Proof.
  intros Hs He Hr. unfold Unenrolled. rewrite (Get_same _ s), He by done.
  unfold sql_Unenroll, bind.
  destruct (SetState_same ctx db s (e_Serial e) StateUnenrolled (clock O) Hs Hr) as (db1 & s1 & r1 & -> & E1 & Hs1 & _).
  destruct r1 as [[]|]; [|done].
  destruct (Revoke_same db1 s1 (e_Serial e) (clock O) Hs1 Hr) as (db2 & s2 & r2 & -> & E2 & Hs2).
  destruct r2 as [[]|]; [|done]. intros (db3 & -> & Hs3)%(LogEvent_same _ s2); [|done].
  apply Get_active in He as (Hin & _ & Hst); [|apply Hs].
  destruct (Unenroll_locks (mkMDMAuthenticator true None) (e_Serial e) (clock O) s s2 e) as (Hg & (x & Hx & Hrev) & Hl).
  - apply Hs.
  - unfold GetBySerial. by rewrite Hin.
  - unfold Unenroll, bind. by rewrite E1.
  - rewrite (GetBySerial_same _ s2), (Certificate_same _ s2), (sql_Lookup_same _ s2) by done. cbn [snd].
    split_and!; [done|by exists x|by apply Hl].
Qed.

Lemma existing_devices_reads db s rec c' r :
  same_store db s → existing_devices rec (mkConn db []) = (c', r) → c' = mkConn db [].
Proof.
  intros Hs. unfold existing_devices. case_decide; [by intros [= <- _]|]. unfold bind.
  rewrite (ListByHWDevID_same _ s) by done. destruct (ListByHWDevID _ s); by intros [= <- _].
Qed.

(** Recording an enrollment over the tables. *)
Lemma sql_Record_same db s detail now e c' :
  same_store db s → cert_recent (record_certificate e) → enr_recent (record_enrollment e) →
  sql_Record ctx detail now e (mkConn db []) = (c', Ok tt) →
  ∃ db' s', c' = mkConn db' [] ∧ same_store db' s' ∧ enrolled_as e s s' ∧ st_creds s' = st_creds s.
Proof.
  intros Hs Hc He. unfold sql_Record, bind.
  destruct (PutCertificate_same ctx db s (Some (record_certificate e)) Hs) as (db1 & s1 & r1 & -> & E1 & Hs1); [by intros x [= <-]|].
  destruct r1 as [[]|]; [|done].
  destruct (existing_devices _ (mkConn db1 [])) as [c2 [existing|]] eqn:E2; [|done]. apply (existing_devices_reads _ s1) in E2 as ->; [|done].
  destruct (Create_same ctx db1 s1 (Some (record_enrollment e)) Hs1) as (db3 & s3 & r3 & -> & E3 & Hs3 & _); [by intros x [= <-]|].
  destruct r3 as [[]|]; [|done]. intros E4.
  assert (∃ db', c' = mkConn db' [] ∧ same_store db' s3) as (db' & -> & Hs').
  { destruct (decide (existing = [])); [injection E4 as <-; by exists db3|]. by apply (LogEvent_same _ s3) in E4. }
  exists db', s3. split_and!; [done|done|eapply recorded; [apply Hs|done|done]|].
  apply Create_Ok in E3 as (_ & _ & ->). apply PutCertificate_creds in E1. done.
Qed.
End properties.

(** ** Examples *)

#[local] Existing Instance one_codec.
#[local] Existing Instance one_codec_laws.

Definition ex_secret : result string := Ok "0123456789abcdef01234567".
Definition ex_nonces : result string := Ok "0123456789abcdef0123456789abcdef".

Lemma minted_credential_in_force_witness :
  ∃ db1 server client id,
    Credentials "dev" ex_secret ex_secret ex_nonces (mkConn ex_tables []) = (mkConn db1 [], Ok (server, client)) ∧
    sql_Lookup "dev" (mkConn db1 []) = (mkConn db1 [], Ok id) ∧
    verifyCredential id (Some (NewMD5Cred (MD5Digest (cr_Name server) (cr_Secret server) "n"))) "n" = true.
Proof.
  destruct ex_tables_same as [s Hs].
  destruct (Credentials "dev" ex_secret ex_secret ex_nonces (mkConn ex_tables [])) as [[db1 l] r] eqn:E.
  assert (l = [] ∧ ∃ x, r = Ok x) as [-> [[server client] ->]].
  { assert (c_replies (Credentials "dev" ex_secret ex_secret ex_nonces (mkConn ex_tables [])).1 = [] ∧
      is_ok (Credentials "dev" ex_secret ex_secret ex_nonces (mkConn ex_tables [])).2 = true) as [H1 H2]
      by (split; vm_compute; reflexivity).
    rewrite E in H1, H2. split; [exact H1|]. destruct r as [x|]; [by exists x|discriminate]. }
  destruct (minted_credential_in_force ex_tables s (set_estate StateActive ex_stamp ex_enrollment)
    ex_secret ex_secret ex_nonces db1 server client Hs) as (id & Hid & _ & Hv).
  - pose proof (Get_same _ s "dev" Hs) as Hg.
    assert ((SS_Get "dev" (mkConn ex_tables [])).2 = Ok (set_estate StateActive ex_stamp ex_enrollment)) as Hc
      by (vm_compute; reflexivity).
    rewrite Hg in Hc. exact Hc.
  - exact E.
  - exists db1, server, client, id. split; [reflexivity|]. split; [exact Hid|].
    apply (Hv "n"). discriminate.
Defined.

(** The tables with the device's certificate as well. *)
Definition ex_certificate : Certificate := mkCertificate "7" "AB" "CN=dev" "dev" ex_stamp (ex_stamp + Hour) "der" false 0.
Definition ex_certified : DB := c_db (SS_PutCertificate None (Some ex_certificate) (mkConn ex_tables [])).1.
Lemma ex_certified_same : ∃ s, same_store ex_certified s.
Proof.
  destruct ex_tables_same as [s Hs].
  destruct (PutCertificate_same None ex_tables s (Some ex_certificate) Hs) as (db' & s' & r & E & _ & Hs').
  - intros x [= <-]. split_and!; [by right|by right|by left].
  - exists s'. unfold ex_certified. by rewrite E.
Qed.

Definition ex_active : Enrollment := set_estate StateActive ex_stamp ex_enrollment.
Lemma unenrolled_hook_locks_out_witness :
  ∃ c', Unenrolled None (e_DeviceID ex_active) (λ _, Ok "") (λ _, ex_stamp) (mkConn ex_certified []) = (c', Ok tt) ∧
    (sql_Lookup (e_DeviceID ex_active) c').2 = Err [mdm_ErrUnenrolled].
Proof.
  destruct ex_certified_same as [s Hs].
  destruct (Unenrolled None (e_DeviceID ex_active) (λ _, Ok "") (λ _, ex_stamp) (mkConn ex_certified [])) as [c' r] eqn:E.
  assert (r = Ok tt) as ->.
  { assert ((Unenrolled None (e_DeviceID ex_active) (λ _, Ok "") (λ _, ex_stamp) (mkConn ex_certified [])).2 = Ok tt) as H2
      by (vm_compute; reflexivity).
    rewrite E in H2. exact H2. }
  exists c'. split; [reflexivity|].
  assert (Storage.Get (e_DeviceID ex_active) s = Ok ex_active) as He.
  { assert ((SS_Get (e_DeviceID ex_active) (mkConn ex_certified [])).2 = Ok ex_active) as Hc
      by (vm_compute; reflexivity).
    rewrite (Get_same _ s (e_DeviceID ex_active) Hs) in Hc. exact Hc. }
  assert (recent ex_stamp) as Hr by (right; split; reflexivity || discriminate).
  destruct (unenrolled_hook_locks_out None ex_certified s ex_active
    (λ _, Ok "") (λ _, ex_stamp) c' Hs He Hr E) as (_ & _ & Hl).
  exact Hl.
Defined.
