(* ===== verification/GoAsn1.v ===== *)
(** * encoding/asn1, the part the certificate requests are read with

    parseTagAndLength, parseBase128Int, parseObjectIdentifier and Unmarshal of a
    RawValue, of an OBJECT IDENTIFIER and of structs of RawValues; DER as
    package wstep writes it.  An error is [None]: its text is never read. *)
From stdpp Require Import base strings list.
From Stdlib Require Import ZArith Lia Ascii.
From S2P Require Import Prelude GoStrings.

Local Open Scope Z_scope.

(** ** Reading *)

Definition ClassUniversal : Z := 0.
Definition ClassContextSpecific : Z := 2.
Definition TagOID : Z := 6.
Definition TagUTF8String : Z := 12.
Definition TagSequence : Z := 16.
Definition TagSet : Z := 17.
Definition TagPrintableString : Z := 19.

(** [asn1.RawValue] *)
Record RawValue := mkRawValue {
  rv_Class : Z; rv_Tag : Z; rv_IsCompound : bool; rv_Bytes : string; rv_FullBytes : string }.
Definition zero_value : RawValue := mkRawValue 0 0 false "" "".

(** [parseBase128Int] *)
Fixpoint base128 (shifted : nat) (acc : Z) (s : string) : option (Z * string) :=
  match s with
  | EmptyString => None
  | String c s =>
      if bool_decide (shifted = 5%nat) then None
      else if bool_decide (shifted = 0%nat) && (byte_val c =? 0x80) then None
      else
        let acc := acc * 128 + byte_val c mod 128 in
        if byte_val c <? 0x80 then (if 2 ^ 31 - 1 <? acc then None else Some (acc, s))
        else base128 (S shifted) acc s
  end.

(** The length bytes of the long form. *)
Fixpoint long_length (k : nat) (acc : Z) (s : string) : option (Z * string) :=
  match k with
  | O => Some (acc, s)
  | S k =>
      match s with
      | EmptyString => None
      | String c s =>
          if 2 ^ 23 <=? acc then None
          else
            let acc := acc * 256 + byte_val c in
            if acc =? 0 then None else long_length k acc s
      end
  end.
Definition parse_length (s : string) : option (Z * string) :=
  match s with
  | EmptyString => None
  | String c s =>
      let b := byte_val c in
      if b <? 0x80 then Some (b, s)
      else if b =? 0x80 then None
      else match long_length (Z.to_nat (b - 0x80)) 0 s with
      | Some (n, s) => if n <? 0x80 then None else Some (n, s)
      | None => None
      end
  end.

(** The tag number: in the first byte, or behind it. *)
Definition parse_tag (b : Z) (s : string) : option (Z * string) :=
  if b mod 32 =? 31 then
    match base128 0 0 s with
    | Some (t, s) => if t <? 31 then None else Some (t, s)
    | None => None
    end
  else Some (b mod 32, s).

(** [tagAndLength] and what follows it. *)
Record Header := mkHeader { h_class : Z; h_isCompound : bool; h_tag : Z; h_length : Z }.
Definition parseTagAndLength (s : string) : option (Header * string) :=
  match s with
  | EmptyString => None
  | String c s =>
      let b := byte_val c in
      match parse_tag b s with
      | None => None
      | Some (t, s) =>
          match parse_length s with
          | None => None
          | Some (n, s) => Some (mkHeader (b / 64) (Z.testbit b 5) t n, s)
          end
      end
  end.

(** [Unmarshal] into a RawValue: the value and the rest. *)
Definition Unmarshal_raw (s : string) : option (RawValue * string) :=
  match parseTagAndLength s with
  | None => None
  | Some (h, inner) =>
      if len inner <? h_length h then None
      else
        let n := Z.to_nat (h_length h) in
        let rest := sdrop n inner in
        Some (mkRawValue (h_class h) (h_tag h) (h_isCompound h) (stake n inner)
                (stake (String.length s - String.length rest) s), rest)
  end.

(** A RawValue field tagged optional,tag:n: absent when nothing is left or the
    next value is another. *)
Definition Unmarshal_optional (tag : Z) (s : string) : option (RawValue * string) :=
  match s with
  | EmptyString => Some (zero_value, s)
  | _ =>
      match parseTagAndLength s with
      | None => None
      | Some (h, _) =>
          if negb (h_class h =? ClassContextSpecific) || negb (h_tag h =? tag) then Some (zero_value, s)
          else Unmarshal_raw s
      end
  end.

(** A struct is a universal SEQUENCE; bytes behind its last field are let
    be. *)
Definition Unmarshal_sequence (s : string) : option (RawValue * string) :=
  match Unmarshal_raw s with
  | Some (v, rest) =>
      if (rv_Class v =? ClassUniversal) && (rv_Tag v =? TagSequence) && rv_IsCompound v then Some (v, rest) else None
  | None => None
  end.

(** [parseObjectIdentifier] *)
Fixpoint oid_arcs (fuel : nat) (s : string) : option (list Z) :=
  match fuel, s with
  | _, EmptyString => Some []
  | O, _ => None
  | S fuel, _ =>
      match base128 0 0 s with
      | Some (v, s) => match oid_arcs fuel s with Some l => Some (v :: l) | None => None end
      | None => None
      end
  end.
Definition parseObjectIdentifier (s : string) : option (list Z) :=
  match oid_arcs (String.length s) s with
  | Some (v :: l) => Some (if v <? 80 then v / 40 :: v mod 40 :: l else 2 :: v - 80 :: l)
  | _ => None
  end.
(** [Unmarshal] into an ObjectIdentifier. *)
Definition Unmarshal_oid (s : string) : option (list Z) :=
  match Unmarshal_raw s with
  | Some (v, _) =>
      if (rv_Class v =? ClassUniversal) && (rv_Tag v =? TagOID) && negb (rv_IsCompound v)
      then parseObjectIdentifier (rv_Bytes v) else None
  | None => None
  end.

(** ** Writing *)

(** The loop of [tlv] over the length; 8 bytes hold an int. *)
Fixpoint be_bytes (fuel : nat) (v : Z) (acc : string) : string :=
  match fuel with
  | O => acc
  | S fuel => if v <=? 0 then acc else be_bytes fuel (v / 256) (String (byte_of (v mod 256)) acc)
  end.
Definition tlv_length (n : Z) : string :=
  if n <? 0x80 then String (byte_of n) ""
  else
    let lenBytes := be_bytes 8 n "" in
    String (byte_of (0x80 + len lenBytes)) lenBytes.
(** [tlv] of package wstep *)
Definition tlv (tag : Z) (content : string) : string := String (byte_of tag) (tlv_length (len content) +:+ content).

(** ** What is read is what would be written *)

Lemma str_app_inj_r s t u : s +:+ u = t +:+ u → s = t.
Proof.
  intros E. pose proof (f_equal String.length E) as Hl. rewrite !str_length_app in Hl.
  rewrite <- (stake_app s u), E. replace (String.length s) with (String.length t) by lia. apply stake_app.
Qed.

Lemma be_bytes_fuel f g v acc : v < 256 ^ Z.of_nat f → v < 256 ^ Z.of_nat g → be_bytes f v acc = be_bytes g v acc.
Proof.
  revert g v acc. induction f as [|f IH]; intros [|g] v acc Hf Hg; cbn [be_bytes]; try done.
  - destruct (Z.leb_spec v 0); [done|]. cbn in Hf. lia.
  - destruct (Z.leb_spec v 0); [done|]. cbn in Hg. lia.
  - destruct (Z.leb_spec v 0); [done|]. rewrite Nat2Z.inj_succ, Z.pow_succ_r in Hf, Hg by lia.
    apply IH; apply Z.div_lt_upper_bound; lia.
Qed.

(** One more length byte. *)
Lemma be_bytes_snoc v c acc :
  0 ≤ v → v * 256 + byte_val c ≠ 0 → v * 256 + byte_val c < 2 ^ 31 →
  be_bytes 8 (v * 256 + byte_val c) acc = be_bytes 8 v (String c acc).
Proof.
  intros Hv Hne Hlt. pose proof (byte_val_range c) as Hc.
  assert (∀ f w t, be_bytes (S f) w t = if w <=? 0 then t else be_bytes f (w / 256) (String (byte_of (w mod 256)) t)) as Hs
    by done.
  rewrite (Hs 7%nat). destruct (Z.leb_spec (v * 256 + byte_val c) 0); [lia|].
  rewrite Z.add_comm, Z.mod_add, Z.div_add, Z.div_small, Z.mod_small, Z.add_0_l, byte_of_val by lia.
  apply be_bytes_fuel; cbn; lia.
Qed.

Lemma long_length_inv k a s n rest :
  long_length k a s = Some (n, rest) → 0 ≤ a < 2 ^ 31 →
  0 ≤ n < 2 ^ 31 ∧ ∃ d, s = d +:+ rest ∧ String.length d = k ∧ ∀ acc, be_bytes 8 n acc = be_bytes 8 a (d +:+ acc).
Proof.
  revert a s. induction k as [|k IH]; intros a s; cbn [long_length].
  - intros [= -> ->] Ha. split; [done|]. by exists "".
  - destruct s as [|c s]; [done|]. destruct (Z.leb_spec (2 ^ 23) a); [done|].
    destruct (Z.eqb_spec (a * 256 + byte_val c) 0) as [|Hne]; [done|]. intros E Ha.
    pose proof (byte_val_range c).
    destruct (IH _ _ E) as [Hn (d & -> & Hd & Hb)]; [lia|]. split; [done|].
    exists (String c d). split; [done|]. split; [cbn; lia|]. intros acc. by rewrite Hb, be_bytes_snoc by lia.
Qed.

Lemma parse_length_inv s n rest :
  parse_length s = Some (n, rest) → 0 ≤ n < 2 ^ 31 ∧ s = tlv_length n +:+ rest.
Proof.
  destruct s as [|c s]; [done|]. cbn [parse_length]. pose proof (byte_val_range c) as Hc.
  unfold tlv_length. destruct (Z.ltb_spec (byte_val c) 0x80) as [Hlt|Hge].
  - intros [= <- <-]. destruct (Z.ltb_spec (byte_val c) 0x80); [|lia].
    rewrite byte_of_val. split; [lia|done].
  - destruct (Z.eqb_spec (byte_val c) 0x80) as [|Hne]; [done|].
    destruct (long_length _ 0 s) as [[n' r]|] eqn:E; [|done]. destruct (Z.ltb_spec n' 0x80) as [|Hn]; [done|].
    intros [= -> ->]. apply long_length_inv in E as [Hb (d & -> & Hd & Hbe)]; [|lia]. split; [done|].
    destruct (Z.ltb_spec n 0x80); [lia|]. rewrite Hbe. change (be_bytes 8 0 (d +:+ "")) with (d +:+ ""). rewrite str_app_nil_r.
    unfold len. rewrite Hd, Z2Nat.id by lia. replace (0x80 + (byte_val c - 0x80)) with (byte_val c) by lia.
    by rewrite byte_of_val.
Qed.

(** The first byte of a value of the universal class. *)
Definition ident (tag : Z) (compound : bool) : Z := (if compound then 0x20 else 0) + tag.

Lemma base128_suffix k a s t rest : base128 k a s = Some (t, rest) → ∃ w, s = w +:+ rest.
Proof.
  revert k a. induction s as [|d s IH]; intros k a; cbn [base128]; [done|].
  destruct (bool_decide _); [done|]. destruct (_ && _); [done|]. destruct (_ <? 0x80).
  - destruct (_ <? _); [done|]. intros [= _ <-]. by exists (String d "").
  - intros [w ->]%IH. by exists (String d w).
Qed.

(** A value read: its first byte, its tag and length, its bytes and the rest. *)
Lemma Unmarshal_raw_inv s v rest :
  Unmarshal_raw s = Some (v, rest) →
  ∃ c w n, s = String c (w +:+ tlv_length n +:+ rv_Bytes v +:+ rest) ∧ len (rv_Bytes v) = n ∧
    rv_FullBytes v = String c (w +:+ tlv_length n +:+ rv_Bytes v) ∧
    rv_Class v = byte_val c / 64 ∧ rv_IsCompound v = Z.testbit (byte_val c) 5 ∧
    (rv_Tag v < 31 → w = "" ∧ rv_Tag v = byte_val c mod 32).
Proof.
  unfold Unmarshal_raw, parseTagAndLength. destruct s as [|c s]; [done|].
  destruct (parse_tag _ s) as [[t s1]|] eqn:Et; [|done].
  destruct (parse_length s1) as [[n s2]|] eqn:El; [|done]. cbn [h_length].
  destruct (Z.ltb_spec (len s2) n) as [|Hn]; [done|]. apply parse_length_inv in El as [Hn' ->].
  assert (∃ w, s = w +:+ tlv_length n +:+ s2 ∧ (t < 31 → w = "" ∧ t = byte_val c mod 32)) as (w & -> & Hw).
  { unfold parse_tag in Et. destruct (_ =? 31).
    - destruct (base128 0 0 s) as [[t' s']|] eqn:Eb; [|done]. destruct (Z.ltb_spec t' 31); [done|].
      injection Et as -> ->. apply base128_suffix in Eb as [w ->]. exists w. split; [done|lia].
    - injection Et as <- ->. by exists "". }
  intros [= <- <-]. cbn [rv_Bytes rv_FullBytes rv_Class rv_IsCompound rv_Tag h_class h_isCompound h_tag].
  assert (String c (w +:+ tlv_length n +:+ s2) =
    String c (w +:+ tlv_length n +:+ stake (Z.to_nat n) s2) +:+ sdrop (Z.to_nat n) s2) as E.
  { rewrite str_app_cons, <- !str_app_assoc, stake_sdrop. done. }
  pose proof (f_equal String.length E) as Hl. rewrite str_length_app in Hl. cbn [String.length] in Hl.
  exists c, w, n. rewrite stake_sdrop. split_and!; try done.
  2: { rewrite E, Hl, Nat.add_sub. apply (stake_app (String c (w +:+ tlv_length n +:+ stake (Z.to_nat n) s2))). }
  unfold len. rewrite length_stake. unfold len in Hn. lia.
Qed.

Lemma Unmarshal_raw_full s v rest : Unmarshal_raw s = Some (v, rest) → s = rv_FullBytes v +:+ rest ∧ rv_FullBytes v ≠ "".
Proof.
  intros (c & w & n & -> & _ & -> & _)%Unmarshal_raw_inv. split; [|done].
  by rewrite str_app_cons, <- !str_app_assoc.
Qed.

Lemma ident_first b : 0 ≤ b → b / 64 = 0 → ident (b mod 32) (Z.testbit b 5) = b.
Proof.
  intros H0 Hc. apply Z.div_small_iff in Hc; [|lia]. unfold ident.
  rewrite <- (Z.shiftr_spec _ 5 0), Z.bit0_odd, Z.shiftr_div_pow2 by lia. change (2 ^ 5) with 32.
  pose proof (Z.div_mod b 32 ltac:(lia)). assert (b / 32 = 0 ∨ b / 32 = 1) as [Hd|Hd].
  { pose proof (Z.div_lt_upper_bound b 32 2). pose proof (Z.div_pos b 32). lia. }
  all: rewrite Hd in *; cbn [Z.odd]; lia.
Qed.

(** A universal value is read as [tlv] writes it: lengths are minimal. *)
Lemma Unmarshal_raw_tlv s v rest :
  Unmarshal_raw s = Some (v, rest) → rv_Class v = ClassUniversal → rv_Tag v < 31 →
  rv_FullBytes v = tlv (ident (rv_Tag v) (rv_IsCompound v)) (rv_Bytes v).
Proof.
  intros (c & w & n & _ & Hn & -> & Hc & Hi & Ht)%Unmarshal_raw_inv Hu Hlt.
  destruct (Ht Hlt) as [-> Ht']. pose proof (byte_val_range c). unfold tlv.
  by rewrite Ht', Hi, ident_first, byte_of_val, Hn by (unfold ClassUniversal in Hu; lia).
Qed.
