(* ===== verification/Pki.v ===== *)
(** * The certificate authority

    pki/wstep/csr.go and issuer.go (the certificate requests devices send, and
    the Issuer hook of the enrollment service), pki/ca/ca.go (policies and
    issuance) and pki/xcep/xcep.go (the policy the clients are told).

    crypto/x509, encoding/pem and key generation are parameters; the DER that
    csr.go itself takes apart is read by [GoAsn1].  The clock and crypto/rand are
    arguments. *)
From stdpp Require Import base gmap strings list.
From Stdlib Require Import ZArith Lia Ascii.
From S2P Require Import Prelude GoStrings SyncmlAuth GoCrypto GoAsn1 Storage EnrollTypes Soap EnrollMsg EnrollService.

Local Open Scope Z_scope.
Local Open Scope go_scope.

(** ** crypto *)

Inductive Curve : Set := P224 | P256 | P384 | P521.
#[global] Instance Curve_eq_dec : EqDecision Curve.
Proof. solve_decision. Defined.

(** crypto.PublicKey: an RSA key, an ECDSA key on a curve, or another. *)
Inductive PublicKey : Set :=
  | RSAKey (N E : Z)
  | ECDSAKey (curve : Curve) (point : string)
  | OtherKey (raw : string).

(** [big.Int.BitLen] *)
Definition BitLen (n : Z) : Z := if n =? 0 then 0 else Z.log2 (Z.abs n) + 1.

(** What the program reads of a pkix.Name: its common name, and the rest. *)
Record PkixName := mkPkixName { nm_CommonName : string; nm_Other : string }.

Definition KeyUsageDigitalSignature : Z := 1.
Definition KeyUsageKeyEncipherment : Z := 4.
Definition KeyUsageCertSign : Z := 32.
Definition KeyUsageCRLSign : Z := 64.
Definition ExtKeyUsageClientAuth : Z := 2.

(** The fields of the x509.Certificate that serves as a template. *)
Record Template := mkTemplate {
  tp_SerialNumber : Z;
  tp_Subject : PkixName;
  tp_NotBefore : Time;
  tp_NotAfter : Time;
  tp_KeyUsage : Z;
  tp_ExtKeyUsage : list Z;
  tp_BasicConstraintsValid : bool;
  tp_IsCA : bool;
  tp_MaxPathLenZero : bool;
  tp_ExtraExtensions : list string;
  tp_CRLDistributionPoints : list string;
  tp_OCSPServer : list string }.

(** x509.CertificateRequest *)
Record CSR := mkCSR {
  csr_Raw : string;
  csr_RawTBSCertificateRequest : string;
  csr_RawSubject : string;
  csr_Subject : PkixName;
  csr_PublicKey : PublicKey;
  csr_SignatureAlgorithm : string;
  csr_Signature : string }.

(** crypto.Signer *)
Record Signer := mkSigner { sg_Public : PublicKey; sg_Private : string }.

Class X509Lib := {
  (** An error says whether its text contains PrintableString. *)
  ParseCertificateRequest : string → CSR + bool;
  (** algorithm, signed bytes, signature and key *)
  CheckSignature : string → string → string → PublicKey → bool;
  (** template, parent ([None]: the template itself), key and signer *)
  CreateCertificate : Template → option X509 → PublicKey → Signer → result string;
  ParseCertificate : string → result X509;
  x509_IsCA : X509 → bool }.

(** encoding/pem and the private keys; a key that cannot sign is [None]. *)
Class PemLib := {
  pem_Decode : string → option (string * string);
  ParsePKCS8PrivateKey : string → result (option Signer);
  ParsePKCS1PrivateKey : string → result (option Signer);
  ParseECPrivateKey : string → result (option Signer) }.

(** ** wstep/csr.go *)

Definition oidPKCS7 : list Z := [1; 2; 840; 113549; 1; 7].

Definition IsPKCS7 (der : string) : bool :=
  match Unmarshal_raw der with
  | None => false
  | Some (outer, rest) =>
      if nonempty rest || negb (rv_IsCompound outer) || negb (rv_Tag outer =? TagSequence) then false
      else match Unmarshal_oid (rv_Bytes outer) with
      | None => false
      | Some oid => bool_decide (length oid = 7%nat) && bool_decide (take 6 oid = oidPKCS7)
      end
  end.

Definition isPrintableByte (c : ascii) : bool :=
  let v := byte_val c in
  (97 <=? v) && (v <=? 122) || (65 <=? v) && (v <=? 90) || (48 <=? v) && (v <=? 57) ||
  (39 <=? v) && (v <=? 41) || (43 <=? v) && (v <=? 47) ||
  (v =? 32) || (v =? 58) || (v =? 61) || (v =? 63) || (v =? 42) || (v =? 38).
(** [printable] and [relaxedPrintable] *)
Definition all_printable : string → bool := str_forall isPrintableByte.
Definition relaxedPrintable : string → bool :=
  str_forall (λ c, isPrintableByte c || (byte_val c =? 33) || (byte_val c =? 0)).

(** The loop of [children]: every turn takes a byte at least. *)
Fixpoint children_loop (fuel : nat) (s : string) : result (list RawValue) :=
  match fuel, s with
  | _, EmptyString => Ok []
  | O, _ => Err [wstep_ErrCSR]
  | S fuel, _ =>
      match Unmarshal_raw s with
      | None => Err [wstep_ErrCSR]
      | Some (child, rest) => let? out := children_loop fuel rest in Ok (child :: out)
      end
  end.
Definition asn1_children (v : RawValue) (tag : Z) : result (list RawValue) :=
  if negb (rv_IsCompound v) || negb (rv_Class v =? ClassUniversal) || negb (rv_Tag v =? tag) then Err [wstep_ErrCSR]
  else children_loop (String.length (rv_Bytes v)) (rv_Bytes v).

Fixpoint each {A B} (f : A → result B) (l : list A) : result (list B) :=
  match l with
  | [] => Ok []
  | a :: l => let? b := f a in let? bs := each f l in Ok (b :: bs)
  end.

Definition constructed : Z := 0x20.

(** One AttributeTypeAndValue. *)
Definition relax_attribute (raw : RawValue) : result string :=
  let? parts := asn1_children raw TagSequence in
  match parts with
  | [ty; val] =>
      if (rv_Class val =? ClassUniversal) && (rv_Tag val =? TagPrintableString) && negb (all_printable (rv_Bytes val)) then
        if negb (relaxedPrintable (rv_Bytes val)) then Err [wstep_ErrSubject]
        else Ok (tlv (constructed + TagSequence) (rv_FullBytes ty +:+ tlv TagUTF8String (rv_Bytes val)))
      else Ok (rv_FullBytes raw)
  | _ => Err [wstep_ErrCSR]
  end.
Definition relax_set (set : RawValue) : result string :=
  let? atvs := asn1_children set TagSet in
  let? out := each relax_attribute atvs in
  Ok (tlv (constructed + TagSet) (str_concat out)).
Definition relaxSubject (subject : RawValue) : result string :=
  let? rdns := asn1_children subject TagSequence in
  let? out := each relax_set rdns in
  Ok (tlv (constructed + TagSequence) (str_concat out)).

Record certificationRequest := mkCertificationRequest { cq_TBS : RawValue; cq_SigAlg : RawValue; cq_Signature : RawValue }.
Record tbsRequest := mkTbsRequest { tq_Version : RawValue; tq_Subject : RawValue; tq_SPKI : RawValue; tq_Attributes : RawValue }.

(** asn1.Unmarshal of the two structs, with nothing behind them. *)
Definition Unmarshal_request (der : string) : option certificationRequest :=
  match Unmarshal_sequence der with
  | Some (v, EmptyString) =>
      match Unmarshal_raw (rv_Bytes v) with
      | Some (tbs, s) =>
          match Unmarshal_raw s with
          | Some (alg, s) =>
              match Unmarshal_raw s with Some (sig, _) => Some (mkCertificationRequest tbs alg sig) | None => None end
          | None => None
          end
      | None => None
      end
  | _ => None
  end.
Definition Unmarshal_tbs (der : string) : option tbsRequest :=
  match Unmarshal_sequence der with
  | Some (v, EmptyString) =>
      match Unmarshal_raw (rv_Bytes v) with
      | Some (version, s) =>
          match Unmarshal_raw s with
          | Some (subject, s) =>
              match Unmarshal_raw s with
              | Some (spki, s) =>
                  match Unmarshal_optional 0 s with
                  | Some (attributes, _) => Some (mkTbsRequest version subject spki attributes)
                  | None => None
                  end
              | None => None
              end
          | None => None
          end
      | None => None
      end
  | _ => None
  end.

Section pki.
Context `{X509Lib}.

(** The request as the device sent it. *)
Definition restore (der tbs subject : string) (c : CSR) : CSR :=
  mkCSR der tbs subject (csr_Subject c) (csr_PublicKey c) (csr_SignatureAlgorithm c) (csr_Signature c).

Definition parseRelaxed (der : string) : result CSR :=
  match Unmarshal_request der with
  | None => Err [wstep_ErrCSR]
  | Some req =>
      match Unmarshal_tbs (rv_FullBytes (cq_TBS req)) with
      | None => Err [wstep_ErrCSR]
      | Some tbs =>
          let? subject := relaxSubject (tq_Subject tbs) in
          let tbsRaw := tlv (constructed + TagSequence)
            (rv_FullBytes (tq_Version tbs) +:+ subject +:+ rv_FullBytes (tq_SPKI tbs) +:+ rv_FullBytes (tq_Attributes tbs)) in
          let fixed := tlv (constructed + TagSequence)
            (tbsRaw +:+ rv_FullBytes (cq_SigAlg req) +:+ rv_FullBytes (cq_Signature req)) in
          match ParseCertificateRequest fixed with
          | inr _ => Err [wstep_ErrCSR]
          | inl csr => Ok (restore der (rv_FullBytes (cq_TBS req)) (rv_FullBytes (tq_Subject tbs)) csr)
          end
      end
  end.

(** [csr.CheckSignature()] *)
Definition signature_ok (c : CSR) : bool :=
  CheckSignature (csr_SignatureAlgorithm c) (csr_RawTBSCertificateRequest c) (csr_Signature c) (csr_PublicKey c).

Definition ParseCSR (der : string) : result CSR :=
  if len der =? 0 then Err [wstep_ErrCSR]
  else if IsPKCS7 der then Err [wstep_ErrPKCS7]
  else
    let? csr :=
      match ParseCertificateRequest der with
      | inl csr => Ok csr
      | inr printable_string => if negb printable_string then Err [wstep_ErrCSR] else parseRelaxed der
      end in
    if signature_ok csr then Ok csr else Err [wstep_ErrSignature].

(** ** ca/ca.go *)

Inductive KeyKind : Set := KeyRSA2048 | KeyRSA3072 | KeyRSA4096 | KeyECP256 | KeyECP384 | KeyECP521.
#[local] Instance KeyKind_eq_dec : EqDecision KeyKind.
Proof. solve_decision. Defined.

Definition KindOf (pub : PublicKey) : option KeyKind :=
  match pub with
  | RSAKey n _ =>
      if BitLen n =? 2048 then Some KeyRSA2048
      else if BitLen n =? 3072 then Some KeyRSA3072
      else if BitLen n =? 4096 then Some KeyRSA4096
      else None
  | ECDSAKey P256 _ => Some KeyECP256
  | ECDSAKey P384 _ => Some KeyECP384
  | ECDSAKey P521 _ => Some KeyECP521
  | ECDSAKey P224 _ | OtherKey _ => None
  end.

Record CAPolicy := mkCAPolicy {
  po_Validity : Duration;
  po_NotAfter : Time;
  po_KeyUsage : Z;
  po_ExtKeyUsage : list Z;
  po_MinRSABits : Z;
  po_AllowedKeys : list KeyKind;
  po_Subject : option PkixName;
  po_ExtraExtensions : list string;
  po_CRLDistributionPoints : list string;
  po_OCSPServer : list string }.

Definition policy_defaults (p : CAPolicy) : CAPolicy :=
  mkCAPolicy (if po_Validity p =? 0 then 365 * 24 * Hour else po_Validity p) (po_NotAfter p) (po_KeyUsage p)
    (if decide (po_ExtKeyUsage p = []) then [ExtKeyUsageClientAuth] else po_ExtKeyUsage p)
    (if po_MinRSABits p =? 0 then 2048 else po_MinRSABits p) (po_AllowedKeys p) (po_Subject p) (po_ExtraExtensions p)
    (po_CRLDistributionPoints p) (po_OCSPServer p).

(** [type Request struct] *)
Record CARequest := mkCARequest { cr_PublicKey : option PublicKey; cr_Subject : PkixName; cr_Policy : option CAPolicy }.

(** [Local], less its clock and entropy. *)
Record Local_ := mkLocal { l_cert : X509; l_chain : list (option X509); l_key : Signer; l_policy : CAPolicy }.
Inductive LocalOption := WithPolicy (p : CAPolicy) | WithChain (chain : list (option X509)).
Definition apply_option (l : Local_) (o : LocalOption) : Local_ :=
  match o with
  | WithPolicy p => mkLocal (l_cert l) (l_chain l) (l_key l) p
  | WithChain chain => mkLocal (l_cert l) chain (l_key l) (l_policy l)
  end.
Definition no_policy : CAPolicy := mkCAPolicy 0 0 0 [] 0 [] None [] [] [].

Definition NewLocal (cert : option X509) (key : option Signer) (opts : list LocalOption) : result Local_ :=
  match cert, key with
  | Some cert, Some key =>
      if negb (x509_IsCA cert) then Err [ca_ErrConfig]
      else
        let l := foldl apply_option (mkLocal cert [] key no_policy) opts in
        if existsb (λ c, match c with None => true | Some _ => false end) (l_chain l) then Err [ca_ErrConfig] else Ok l
  | _, _ => Err [ca_ErrConfig]
  end.

(** [Chain]; NewLocal leaves no nil in it. *)
Definition Local_Chain (l : Local_) : list X509 := l_cert l :: omap id (l_chain l).

(** [SerialFrom]; [draw] is rand.Int over the issuer's entropy. *)
Definition SerialFrom (draw : Z → result Z) : result Z := let? n := draw (2 ^ 127) in Ok (n + 1).

(** The key usage, or the refusal, the type of the key decides. *)
Definition usage_of (p : CAPolicy) (pub : PublicKey) : result Z :=
  match pub with
  | RSAKey n _ =>
      if BitLen n <? po_MinRSABits p then Err [ca_ErrPolicy]
      else Ok (if po_KeyUsage p =? 0 then Z.lor KeyUsageDigitalSignature KeyUsageKeyEncipherment else po_KeyUsage p)
  | ECDSAKey _ _ => Ok (if po_KeyUsage p =? 0 then KeyUsageDigitalSignature else po_KeyUsage p)
  | OtherKey _ => Err [ca_ErrPolicy]
  end.
Definition kind_allowed (p : CAPolicy) (pub : PublicKey) : bool :=
  bool_decide (po_AllowedKeys p = []) ||
  match KindOf pub with Some kind => bool_decide (kind ∈ po_AllowedKeys p) | None => false end.

Definition not_after (p : CAPolicy) (now : Time) : Time :=
  let notAfter := time_Add now (po_Validity p) in
  if negb (time_IsZero (po_NotAfter p)) && time_Before (po_NotAfter p) notAfter then po_NotAfter p else notAfter.

Definition template (p : CAPolicy) (serial : Z) (subject : PkixName) (now : Time) (keyUsage : Z) : Template :=
  mkTemplate serial (default subject (po_Subject p)) now (not_after p now) keyUsage (po_ExtKeyUsage p) true false false
    (po_ExtraExtensions p) (po_CRLDistributionPoints p) (po_OCSPServer p).

Definition effective (l : Local_) (req : CARequest) : CAPolicy := policy_defaults (default (l_policy l) (cr_Policy req)).

Definition Local_Issue (l : Local_) (req : CARequest) (draw : Z → result Z) (now : Time) : result X509 :=
  match cr_PublicKey req with
  | None => Err [ca_ErrRequest]
  | Some pub =>
      let p := effective l req in
      let? keyUsage := usage_of p pub in
      if negb (kind_allowed p pub) then Err [ca_ErrPolicy]
      else
        let? serial := SerialFrom draw in
        if negb (time_After (not_after p now) now) then Err [ca_ErrPolicy]
        else
          match CreateCertificate (template p serial (cr_Subject req) now keyUsage) (Some (l_cert l)) pub (l_key l) with
          | Err e => Err (ca_ErrRequest :: e)
          | Ok der => ParseCertificate der
          end
  end.

Record SelfSignedOptions := mkSelfSignedOptions { so_Subject : PkixName; so_Validity : Duration; so_RSABits : Z; so_Key : option Signer }.

(** [generate] is rsa.GenerateKey. *)
Definition NewSelfSigned (o : SelfSignedOptions) (opts : list LocalOption) (generate : Z → result Signer)
    (draw : Z → result Z) (now : Time) : result Local_ :=
  let validity := if so_Validity o =? 0 then 10 * 365 * 24 * Hour else so_Validity o in
  let subject :=
    if decide (nm_CommonName (so_Subject o) = "") then mkPkixName "go-microsoft-dm CA" (nm_Other (so_Subject o))
    else so_Subject o in
  let? key := match so_Key o with Some k => Ok k | None => generate (if so_RSABits o =? 0 then 2048 else so_RSABits o) end in
  let? serial := SerialFrom draw in
  let tmpl := mkTemplate serial subject now (time_Add now validity)
    (Z.lor (Z.lor KeyUsageCertSign KeyUsageCRLSign) KeyUsageDigitalSignature) [] true true true [] [] [] in
  let? der := CreateCertificate tmpl None (sg_Public key) key in
  let? cert := ParseCertificate der in
  NewLocal (Some cert) (Some key) opts.

Section pem.
Context `{PemLib}.
Definition parseCertPEM (data : string) : result X509 :=
  match pem_Decode data with
  | Some (ty, bytes) =>
      if decide (ty = "CERTIFICATE") then
        match ParseCertificate bytes with Ok cert => Ok cert | Err e => Err (ca_ErrPEM :: e) end
      else Err [ca_ErrPEM]
  | None => Err [ca_ErrPEM]
  end.
Definition parseKeyPEM (data : string) : result Signer :=
  match pem_Decode data with
  | None => Err [ca_ErrPEM]
  | Some (ty, bytes) =>
      let parsed :=
        if decide (ty = "PRIVATE KEY") then Some (ParsePKCS8PrivateKey bytes)
        else if decide (ty = "RSA PRIVATE KEY") then Some (ParsePKCS1PrivateKey bytes)
        else if decide (ty = "EC PRIVATE KEY") then Some (ParseECPrivateKey bytes)
        else None in
      match parsed with
      | None => Err [ca_ErrPEM]
      | Some (Err e) => Err (ca_ErrPEM :: e)
      | Some (Ok None) => Err [ca_ErrPEM]
      | Some (Ok (Some signer)) => Ok signer
      end
  end.
Definition LoadPEM (certPEM keyPEM : string) (chainPEM : list string) : result Local_ :=
  let? cert := parseCertPEM certPEM in
  let? key := parseKeyPEM keyPEM in
  let? chain := each parseCertPEM chainPEM in
  NewLocal (Some cert) (Some key) [WithChain (map Some chain)].
(** [read] is os.ReadFile. *)
Definition LoadFiles (read : string → result string) (certPath keyPath : string) (chainPaths : list string) : result Local_ :=
  let? certPEM := read certPath in
  let? keyPEM := read keyPath in
  let? chain := each read chainPaths in
  LoadPEM certPEM keyPEM chain.
End pem.

(** ** wstep/issuer.go *)

(** ca.Issuer *)
Record CAIssuer := mkCAIssuer { ca_Issue : CARequest → result X509; ca_Chain : list X509 }.
(** [Local] as one, at a reading of its clock and entropy. *)
Definition local_issuer (l : Local_) (draw : Z → result Z) (now : Time) : CAIssuer :=
  mkCAIssuer (λ req, Local_Issue l req draw now) (Local_Chain l).

Record WIssuer := mkWIssuer { wi_ca : CAIssuer; wi_policy : option CAPolicy; wi_subject : ERequest → CSR → PkixName }.
Inductive IssuerOption := IssuerPolicy (p : CAPolicy) | IssuerSubject (f : ERequest → CSR → PkixName).
Definition apply_issuer_option (i : WIssuer) (o : IssuerOption) : WIssuer :=
  match o with
  | IssuerPolicy p => mkWIssuer (wi_ca i) (Some p) (wi_subject i)
  | IssuerSubject f => mkWIssuer (wi_ca i) (wi_policy i) f
  end.
Definition NewIssuer (authority : option CAIssuer) (opts : list IssuerOption) : result WIssuer :=
  match authority with
  | None => Err [wstep_ErrConfig]
  | Some a => Ok (foldl apply_issuer_option (mkWIssuer a None (λ _ csr, csr_Subject csr)) opts)
  end.

Definition Issuer_Issue (i : WIssuer) (req : option ERequest) : result Issued :=
  match req with
  | None => Err [wstep_ErrCSR]
  | Some req =>
      let? csr := ParseCSR (rq_CSR req) in
      let? cert := ca_Issue (wi_ca i) (mkCARequest (Some (csr_PublicKey csr)) (wi_subject i req csr) (wi_policy i)) in
      Ok (mkIssuedCert (Some cert) (ca_Chain (wi_ca i)))
  end.
End pki.

(** ** xcep/xcep.go *)

Record XOptions := mkXOptions { xo_CommonName : string; xo_Renewal : Duration; xo_Hash : Z; xo_CryptoProviders : option (list string) }.

(** crypto.SHA256, SHA384 and SHA512 are 5, 6 and 7. *)
Definition HashOID (h : Z) : option OID :=
  if h =? 5 then Some SHA256
  else if h =? 6 then Some (mkOID "2.16.840.1.101.3.4.2.2" 4 0 "szOID_NIST_sha384")
  else if h =? 7 then Some (mkOID "2.16.840.1.101.3.4.2.3" 4 0 "szOID_NIST_sha512")
  else None.

Definition FromPolicy (p : CAPolicy) (o : XOptions) : result PolicyResponse :=
  let d := DefaultPolicy in
  let? hash := if xo_Hash o =? 0 then Ok (pr_HashAlgorithm d)
               else match HashOID (xo_Hash o) with Some oid => Ok oid | None => Err [xcep_ErrOptions] end in
  let resp := mkPolicyResponse (pr_PolicyID d) (if decide (xo_CommonName o = "") then pr_CommonName d else xo_CommonName o)
    (pr_PolicyOIDReference d) (if po_Validity p =? 0 then pr_Validity d else po_Validity p)
    (if xo_Renewal o =? 0 then pr_Renewal d else xo_Renewal o) (pr_Enroll d) (pr_AutoEnroll d)
    (if po_MinRSABits p =? 0 then pr_MinimalKeyLength d else po_MinRSABits p)
    (default (pr_CryptoProviders d) (xo_CryptoProviders o)) (pr_MajorRevision d) (pr_MinorRevision d) hash in
  match PolicyResponse_Validate (Some resp) with
  | Err e => Err (xcep_ErrOptions :: e)
  | Ok _ => Ok resp
  end.

(** ** Properties *)

(** [b] is [a] with some of its strings re-tagged as UTF8String: PrintableStrings
    whose contents are not printable but are within the relaxation. *)
Inductive relaxed : string → string → Prop :=
  | relaxed_nil : relaxed "" ""
  | relaxed_byte c a b : relaxed a b → relaxed (String c a) (String c b)
  | relaxed_string compound s a b :
      all_printable s = false → relaxedPrintable s = true → relaxed a b →
      relaxed (tlv (ident TagPrintableString compound) s +:+ a) (tlv TagUTF8String s +:+ b).

Lemma relaxed_refl s : relaxed s s.
Proof. induction s; by constructor. Qed.

Lemma relaxed_app a b c d : relaxed a b → relaxed c d → relaxed (a +:+ c) (b +:+ d).
Proof.
  intros H Hcd. induction H as [|x a b H IH|cp s a b Hp Hr H IH]; [done|by rewrite !str_app_cons; constructor|].
  rewrite <- !str_app_assoc. by constructor.
Qed.

Lemma relaxed_len a b : relaxed a b → len b = len a.
Proof.
  unfold len. induction 1 as [|x a b H IH|cp s a b Hp Hr H IH]; cbn [String.length]; [done|lia|].
  rewrite !str_length_app. unfold tlv. cbn [String.length]. lia.
Qed.

Lemma relaxed_tlv tag a b : relaxed a b → relaxed (tlv tag a) (tlv tag b).
Proof.
  intros H. unfold tlv. rewrite (relaxed_len _ _ H). constructor. apply relaxed_app; [apply relaxed_refl|done].
Qed.

(** A value some bytes were read as. *)
Definition was_read (v : RawValue) : Prop := ∃ s rest, Unmarshal_raw s = Some (v, rest).

Lemma children_loop_inv f s vs :
  children_loop f s = Ok vs → str_concat (map rv_FullBytes vs) = s ∧ Forall was_read vs.
Proof.
  revert s vs. induction f as [|f IH]; intros s vs; destruct s as [|c s]; cbn [children_loop];
    try (by intros [= <-]).
  destruct (Unmarshal_raw (String c s)) as [[v rest]|] eqn:E; [|done].
  intros (out & Eo & [= <-])%result_bind_Ok. apply IH in Eo as [Hs Hr].
  apply Unmarshal_raw_full in E as Hf. split; [|constructor; [by do 2 eexists|done]].
  cbn [map str_concat]. by rewrite Hs, <- (proj1 Hf).
Qed.

Lemma asn1_children_inv v tag vs :
  was_read v → asn1_children v tag = Ok vs → tag < 31 →
  rv_FullBytes v = tlv (constructed + tag) (str_concat (map rv_FullBytes vs)) ∧ Forall was_read vs.
Proof.
  intros (s & rest & E). unfold asn1_children. destruct (rv_IsCompound v) eqn:Ec; [|done].
  destruct (Z.eqb_spec (rv_Class v) ClassUniversal) as [Hc|]; [|done].
  destruct (Z.eqb_spec (rv_Tag v) tag) as [Ht|]; [|done]. cbn [negb orb].
  intros [-> Hr]%children_loop_inv Hlt. split; [|done].
  rewrite (Unmarshal_raw_tlv _ _ _ E), Ht, Ec by (done || lia). done.
Qed.

Lemma each_relaxed f (vs : list RawValue) out :
  (∀ v o, was_read v → f v = Ok o → relaxed (rv_FullBytes v) o) →
  Forall was_read vs → each f vs = Ok out → relaxed (str_concat (map rv_FullBytes vs)) (str_concat out).
Proof.
  intros Hf Hr. revert out. induction Hr as [|v vs Hv Hr IH]; intros out; cbn [each].
  - intros [= <-]. constructor.
  - intros (b & Eb & (bs & Ebs & [= <-])%result_bind_Ok)%result_bind_Ok. cbn [map str_concat].
    apply relaxed_app; [by apply Hf|by apply IH].
Qed.

Lemma relax_attribute_relaxed v o : was_read v → relax_attribute v = Ok o → relaxed (rv_FullBytes v) o.
Proof.
  intros Hv. unfold relax_attribute. intros (parts & Ep & Eo)%result_bind_Ok.
  apply (asn1_children_inv v) in Ep as [Hf Hr]; [|done|done].
  destruct parts as [|ty [|val [|]]]; [done|done| |done].
  destruct ((rv_Class val =? ClassUniversal) && (rv_Tag val =? TagPrintableString) && negb _) eqn:Eb;
    [|injection Eo as <-; apply relaxed_refl].
  apply andb_prop in Eb as [[Hc Ht]%andb_prop Hp]. apply Z.eqb_eq in Hc, Ht.
  destruct (relaxedPrintable (rv_Bytes val)) eqn:Er; [|done]. injection Eo as <-.
  rewrite Hf. apply relaxed_tlv. cbn [map str_concat]. apply relaxed_app; [apply relaxed_refl|].
  inversion_clear Hr as [|? ? _ Hr']. inversion_clear Hr' as [|? ? (s & rest & E) _].
  rewrite (Unmarshal_raw_tlv _ _ _ E), Ht by (done || by rewrite Ht).
  rewrite <- (str_app_nil_r (tlv TagUTF8String _)). constructor; [|done|constructor].
  by apply negb_true_iff.
Qed.

Lemma relax_set_relaxed v o : was_read v → relax_set v = Ok o → relaxed (rv_FullBytes v) o.
Proof.
  intros Hv. unfold relax_set. intros (parts & Ep & (out & Eo & [= <-])%result_bind_Ok)%result_bind_Ok.
  apply (asn1_children_inv v) in Ep as [-> Hr]; [|done|done].
  apply relaxed_tlv. eapply each_relaxed; [|done|done]. apply relax_attribute_relaxed.
Qed.

Lemma relaxSubject_relaxed v o : was_read v → relaxSubject v = Ok o → relaxed (rv_FullBytes v) o.
Proof.
  intros Hv. unfold relaxSubject. intros (parts & Ep & (out & Eo & [= <-])%result_bind_Ok)%result_bind_Ok.
  apply (asn1_children_inv v) in Ep as [-> Hr]; [|done|done].
  apply relaxed_tlv. eapply each_relaxed; [|done|done]. apply relax_set_relaxed.
Qed.

Lemma Unmarshal_sequence_inv s v rest :
  Unmarshal_sequence s = Some (v, rest) → s = tlv (constructed + TagSequence) (rv_Bytes v) +:+ rest.
Proof.
  unfold Unmarshal_sequence. destruct (Unmarshal_raw s) as [[v' r]|] eqn:E; [|done].
  destruct ((_ =? _) && _ && _) eqn:Eb; [|done]. intros [= -> ->].
  apply andb_prop in Eb as [[Hc%Z.eqb_eq Ht%Z.eqb_eq]%andb_prop Hi].
  apply Unmarshal_raw_full in E as Hs. rewrite (proj1 Hs) at 1.
  by rewrite (Unmarshal_raw_tlv _ _ _ E), Ht, Hi by (done || by rewrite Ht).
Qed.

Lemma Unmarshal_request_inv der req :
  Unmarshal_request der = Some req →
  ∃ extra, der = tlv (constructed + TagSequence)
    (rv_FullBytes (cq_TBS req) +:+ rv_FullBytes (cq_SigAlg req) +:+ rv_FullBytes (cq_Signature req) +:+ extra).
Proof.
  unfold Unmarshal_request. destruct (Unmarshal_sequence der) as [[v [|]]|] eqn:E; try done.
  apply Unmarshal_sequence_inv in E as ->. rewrite str_app_nil_r.
  destruct (Unmarshal_raw (rv_Bytes v)) as [[tbs s1]|] eqn:E1; [|done]. apply Unmarshal_raw_full in E1 as [-> _].
  destruct (Unmarshal_raw s1) as [[alg s2]|] eqn:E2; [|done]. apply Unmarshal_raw_full in E2 as [-> _].
  destruct (Unmarshal_raw s2) as [[sig s3]|] eqn:E3; [|done]. apply Unmarshal_raw_full in E3 as [-> _].
  intros [= <-]. by exists s3.
Qed.

Lemma Unmarshal_optional_inv tag s v rest : Unmarshal_optional tag s = Some (v, rest) → s = rv_FullBytes v +:+ rest.
Proof.
  unfold Unmarshal_optional. destruct s as [|c s]; [by intros [= <- <-]|].
  destruct (parseTagAndLength _) as [[h r]|]; [|done]. destruct (_ || _); [by intros [= <- <-]|].
  by intros [-> _]%Unmarshal_raw_full.
Qed.

Lemma Unmarshal_tbs_inv der tbs :
  Unmarshal_tbs der = Some tbs →
  was_read (tq_Subject tbs) ∧ ∃ extra, der = tlv (constructed + TagSequence)
    (rv_FullBytes (tq_Version tbs) +:+ rv_FullBytes (tq_Subject tbs) +:+ rv_FullBytes (tq_SPKI tbs) +:+
     rv_FullBytes (tq_Attributes tbs) +:+ extra).
Proof.
  unfold Unmarshal_tbs. destruct (Unmarshal_sequence der) as [[v [|]]|] eqn:E; try done.
  apply Unmarshal_sequence_inv in E as ->. rewrite str_app_nil_r.
  destruct (Unmarshal_raw (rv_Bytes v)) as [[ver s1]|] eqn:E1; [|done]. apply Unmarshal_raw_full in E1 as [-> _].
  destruct (Unmarshal_raw s1) as [[sub s2]|] eqn:E2; [|done]. assert (was_read sub) as Hw by by exists s1, s2.
  apply Unmarshal_raw_full in E2 as [-> _].
  destruct (Unmarshal_raw s2) as [[spki s3]|] eqn:E3; [|done]. apply Unmarshal_raw_full in E3 as [-> _].
  destruct (Unmarshal_optional 0 s3) as [[att s4]|] eqn:E4; [|done]. apply Unmarshal_optional_inv in E4 as ->.
  intros [= <-]. split; [done|]. by exists s4.
Qed.

(** C15: What the relaxation for Windows subjects lets through: a request that
    ParseCSR accepts is either one crypto/x509 parses as it stands, or its
    parts (the version, the subject, the key, the attributes, the algorithm and
    the signature, with whatever follows them) are parsed again from the same
    bytes but for the subject, in which some PrintableStrings have become
    UTF8Strings and nothing else: those that hold an exclamation mark or a NUL
    among printable characters.  The signature is checked over the bytes that were
    sent, under the key that was sent, and the request keeps them. *)
Theorem relaxed_request `{X509Lib} der csr :
  ParseCSR der = Ok csr →
  signature_ok csr = true ∧
  (ParseCertificateRequest der = inl csr ∨
   ∃ tbs alg sig version subject subject' spki attributes extra extra' csr',
     let seq := tlv (constructed + TagSequence) in
     der = seq (tbs +:+ alg +:+ sig +:+ extra) ∧
     tbs = seq (version +:+ subject +:+ spki +:+ attributes +:+ extra') ∧
     relaxed subject subject' ∧ len subject' = len subject ∧
     ParseCertificateRequest (seq (seq (version +:+ subject' +:+ spki +:+ attributes) +:+ alg +:+ sig)) = inl csr' ∧
     csr = restore der tbs subject csr').
Proof.
  unfold ParseCSR. destruct (len der =? 0); [done|]. destruct (IsPKCS7 der); [done|].
  intros (c & Ec & Es)%result_bind_Ok. destruct (signature_ok c) eqn:Hs; [|done]. injection Es as <-. split; [done|].
  destruct (ParseCertificateRequest der) as [c'|b]; [left; congruence|right]. destruct b; [cbn [negb] in Ec|done].
  unfold parseRelaxed in Ec. destruct (Unmarshal_request der) as [req|] eqn:Er; [|done].
  destruct (Unmarshal_tbs _) as [tbs|] eqn:Et; [|done]. apply result_bind_Ok in Ec as (subject' & Esub & Ec).
  destruct (ParseCertificateRequest _) as [csr'|] eqn:Ep; [|done]. injection Ec as <-.
  apply Unmarshal_request_inv in Er as [extra ->]. apply Unmarshal_tbs_inv in Et as [Hr [extra' Htbs]].
  apply relaxSubject_relaxed in Esub; [|done].
  eexists _, _, _, _, _, subject', _, _, extra, extra', csr'. split_and!; [reflexivity|exact Htbs|exact Esub| |exact Ep|done].
  by apply relaxed_len.
Qed.

(** *** Issuance *)

(** The keys a policy admits. *)
Definition acceptable (p : CAPolicy) (pub : PublicKey) : Prop :=
  match pub with
  | RSAKey n _ => po_MinRSABits p ≤ BitLen n
  | ECDSAKey _ _ => True
  | OtherKey _ => False
  end ∧
  (po_AllowedKeys p = [] ∨ ∃ kind, KindOf pub = Some kind ∧ kind ∈ po_AllowedKeys p).

Lemma kind_allowed_iff p pub :
  kind_allowed p pub = true ↔ po_AllowedKeys p = [] ∨ ∃ kind, KindOf pub = Some kind ∧ kind ∈ po_AllowedKeys p.
Proof.
  unfold kind_allowed. rewrite orb_true_iff, bool_decide_eq_true. destruct (KindOf pub) as [k|].
  - rewrite bool_decide_eq_true. naive_solver.
  - naive_solver.
Qed.

Lemma usage_of_ok p pub :
  (∃ u, usage_of p pub = Ok u) ↔
  match pub with RSAKey n _ => po_MinRSABits p ≤ BitLen n | ECDSAKey _ _ => True | OtherKey _ => False end.
Proof.
  destruct pub as [n e|cv pt|raw]; cbn [usage_of]; [|naive_solver|naive_solver].
  destruct (Z.ltb_spec (BitLen n) (po_MinRSABits p)); [|naive_solver].
  split; [naive_solver|lia].
Qed.

Lemma usage_of_err p pub e : usage_of p pub = Err e → e = [ca_ErrPolicy].
Proof. destruct pub; cbn [usage_of]; [destruct (_ <? _)| |]; naive_solver. Qed.

Lemma not_after_bounds p now :
  not_after p now ≤ now + po_Validity p ∧ (po_NotAfter p ≠ 0 → not_after p now ≤ po_NotAfter p).
Proof.
  unfold not_after, time_IsZero, time_Before, time_Add.
  destruct (Z.eqb_spec (po_NotAfter p) 0), (Z.ltb_spec (po_NotAfter p) (now + po_Validity p)); cbn [negb andb]; lia.
Qed.

(** The issuer decides by the policy alone: with entropy, and a key crypto/x509
    can sign for, a certificate is issued exactly for the keys the policy admits
    while its end is still to come, and anything else is a policy error. *)
Theorem policy_enforced `{X509Lib} l pub subject pol draw now n :
  let req := mkCARequest (Some pub) subject pol in
  let p := effective l req in
  draw (2 ^ 127) = Ok n →
  (∀ t, ∃ der cert, CreateCertificate t (Some (l_cert l)) pub (l_key l) = Ok der ∧ ParseCertificate der = Ok cert) →
  ((∃ cert, Local_Issue l req draw now = Ok cert) ↔ acceptable p pub ∧ now < not_after p now) ∧
  (¬ (acceptable p pub ∧ now < not_after p now) → Local_Issue l req draw now = Err [ca_ErrPolicy]).
Proof.
  intros req p Hd Hx. unfold Local_Issue. cbn [cr_PublicKey req]. fold req p. unfold acceptable.
  rewrite <- usage_of_ok, <- kind_allowed_iff. unfold SerialFrom. rewrite Hd. cbn [result_bind].
  destruct (usage_of p pub) as [u|e] eqn:Eu; cbn [result_bind].
  2: { rewrite (usage_of_err _ _ _ Eu). naive_solver. }
  destruct (kind_allowed p pub) eqn:Ek; cbn [negb]; [|naive_solver].
  unfold time_After. destruct (Z.ltb_spec now (not_after p now)); cbn [negb].
  - destruct (Hx (template p (n + 1) subject now u)) as (der & cert & Ec & Ep). cbn [cr_Subject req]. rewrite Ec, Ep.
    naive_solver.
  - split; [|done]. split; [naive_solver|]. intros [_ ?]. lia.
Qed.

Lemma apply_issuer_options_ca opts i : wi_ca (foldl apply_issuer_option i opts) = wi_ca i.
Proof. revert i. induction opts as [|o opts IH]; intros i; cbn [foldl]; [done|]. rewrite IH. by destruct o. Qed.

(** C14: A certificate is issued to the holder of the key alone and within the
    policy: when the issuer of the enrollment service answers with one, the
    request carried the key it certifies and a signature that verifies under
    it over the bytes received; the policy in force admits the key; what was
    signed, by the authority's key, is a certificate that is no authority,
    starts now, ends later, within the validity and the absolute limit of the
    policy, has the subject the policy or the hook chose, a serial number of 1 to
    2^127 and some extended key usage; and it is returned with the authority's
    chain. *)
Theorem issued_to_key_holder `{X509Lib} l draw now opts i req issued :
  (∀ der csr, ParseCertificateRequest der = inl csr → csr_Raw csr = der) →
  (∀ n, draw (2 ^ 127) = Ok n → 0 ≤ n < 2 ^ 127) →
  NewIssuer (Some (local_issuer l draw now)) opts = Ok i →
  Issuer_Issue i (Some req) = Ok issued →
  ∃ csr cert der t,
    let p := policy_defaults (default (l_policy l) (wi_policy i)) in
    ParseCSR (rq_CSR req) = Ok csr ∧ csr_Raw csr = rq_CSR req ∧ signature_ok csr = true ∧
    acceptable p (csr_PublicKey csr) ∧
    CreateCertificate t (Some (l_cert l)) (csr_PublicKey csr) (l_key l) = Ok der ∧ ParseCertificate der = Ok cert ∧
    issued = mkIssuedCert (Some cert) (Local_Chain l) ∧
    tp_IsCA t = false ∧ tp_BasicConstraintsValid t = true ∧ tp_ExtKeyUsage t ≠ [] ∧
    tp_Subject t = default (wi_subject i req csr) (po_Subject p) ∧
    1 ≤ tp_SerialNumber t ≤ 2 ^ 127 ∧
    tp_NotBefore t = now ∧ now < tp_NotAfter t ≤ now + po_Validity p ∧
    (po_NotAfter p ≠ 0 → tp_NotAfter t ≤ po_NotAfter p).
Proof.
  intros Hraw Hdraw Hi. assert (wi_ca i = local_issuer l draw now) as Hca.
  { cbn [NewIssuer] in Hi. assert (i = foldl apply_issuer_option
      (mkWIssuer (local_issuer l draw now) None (λ _ csr, csr_Subject csr)) opts) as -> by congruence.
    by rewrite apply_issuer_options_ca. }
  clear Hi. unfold Issuer_Issue. intros (csr & Ecsr & (cert & Ecert & [= <-])%result_bind_Ok)%result_bind_Ok.
  apply relaxed_request in Ecsr as Hcsr. destruct Hcsr as [Hsig Hform]. rewrite Hca in *.
  cbn [local_issuer ca_Issue ca_Chain] in *. unfold Local_Issue in Ecert. cbn [cr_PublicKey cr_Subject] in Ecert.
  unfold effective in Ecert. cbn [cr_Policy] in Ecert. set (p := policy_defaults _) in *.
  apply result_bind_Ok in Ecert as (u & Eu & Ecert). destruct (kind_allowed p _) eqn:Ek; [|done]. cbn [negb] in Ecert.
  apply result_bind_Ok in Ecert as (serial & Es & Ecert). apply result_bind_Ok in Es as (n & En & [= <-]).
  destruct (time_After (not_after p now) now) eqn:Ea; [|done]. cbn [negb] in Ecert.
  destruct (CreateCertificate _ _ _ _) as [der|] eqn:Ed; [|done].
  exists csr, cert, der. eexists. split_and!; try exact Ed; try done.
  - destruct Hform as [E|(? & ? & ? & ? & ? & ? & ? & ? & ? & ? & ? & _ & _ & _ & _ & _ & ->)]; [by apply Hraw|done].
  - split; [apply usage_of_ok; eauto|by apply kind_allowed_iff].
  - cbn [template tp_ExtKeyUsage p policy_defaults po_ExtKeyUsage]. by case_decide.
  - cbn. specialize (Hdraw n En). lia.
  - cbn. specialize (Hdraw n En). lia.
  - cbn. unfold time_After in Ea. by apply Z.ltb_lt.
  - exact (proj1 (not_after_bounds p now)).
  - exact (proj2 (not_after_bounds p now)).
Qed.

(** *** The advertised policy *)

(** A policy that can be advertised is a valid answer, announces the validity
    the authority issues with, and a minimal key length that is exactly what the
    authority accepts, when the policy names no kinds of key. *)
Theorem advertised_policy_honoured p o resp :
  FromPolicy p o = Ok resp → po_AllowedKeys p = [] →
  PolicyResponse_Validate (Some resp) = Ok tt ∧ pr_Validity resp = po_Validity (policy_defaults p) ∧
  ∀ n e, acceptable (policy_defaults p) (RSAKey n e) ↔ pr_MinimalKeyLength resp ≤ BitLen n.
Proof.
  unfold FromPolicy. intros (hash & _ & E)%result_bind_Ok Ha. destruct (PolicyResponse_Validate _) as [[]|] eqn:Ev; [|done].
  assert (∀ r : PolicyResponse, Ok r = Ok resp → r = resp) as Hr by congruence.
  apply Hr in E as <-. split; [done|]. split; [done|]. intros n e. unfold acceptable. cbn. naive_solver.
Qed.

(** When it names kinds, devices are told that keys suffice which the authority
    then refuses. *)
Example advertised_key_refused :
  let p := mkCAPolicy 0 0 0 [] 0 [KeyRSA4096] None [] [] [] in
  (∃ resp, FromPolicy p (mkXOptions "" 0 0 None) = Ok resp ∧ pr_MinimalKeyLength resp = 2048) ∧
  ¬ acceptable (policy_defaults p) (RSAKey (2 ^ 2047) 65537).
Proof.
  split; [by eexists|]. intros [_ [?|(k & Hk & Hin)]]; [done|]. cbn in Hk. injection Hk as <-.
  by apply list_elem_of_singleton in Hin.
Qed.

(** ** Examples *)

(** A request whose subject is the common name a!b, and a crypto/x509 that
    refuses PrintableStrings with an exclamation mark. *)
Definition ex_seq : string → string := tlv (constructed + TagSequence).
Definition ex_subject (tag : Z) : string :=
  ex_seq (tlv (constructed + TagSet) (ex_seq (tlv TagOID (String (byte_of 85) (String (byte_of 4) (String (byte_of 3) ""))) +:+
    tlv tag "a!b"))).
Definition ex_tbs (tag : Z) : string := ex_seq (tlv 2 "0" +:+ ex_subject tag +:+ ex_seq "" +:+ tlv 0xA0 "").
Definition ex_csr (tag : Z) : string := ex_seq (ex_tbs tag +:+ ex_seq "" +:+ tlv 3 "s").
Definition ex_key : PublicKey := RSAKey (2 ^ 2047) 65537.
Definition ex_x509 : X509 := mkX509 (MdmAuth.mkCert "der" (Some 1)) "CN=ca" 1 (1 + Hour).
Definition ex_lib : X509Lib := {|
  ParseCertificateRequest s :=
    if decide (s = ex_csr TagPrintableString) then inr true else inl (mkCSR s "" "" (mkPkixName "a!b" "") ex_key "" "");
  CheckSignature _ tbs _ _ := bool_decide (tbs = ex_tbs TagPrintableString);
  CreateCertificate _ _ _ _ := Ok "der";
  ParseCertificate _ := Ok ex_x509;
  x509_IsCA _ := true |}.

Lemma relaxed_request_witness :
  ∃ csr, @ParseCSR ex_lib (ex_csr TagPrintableString) = Ok csr ∧ @signature_ok ex_lib csr = true.
Proof.
  assert (∃ csr, @ParseCSR ex_lib (ex_csr TagPrintableString) = Ok csr) as [csr E]
    by (eexists; vm_compute; reflexivity).
  exists csr. split; [exact E|]. exact (proj1 (@relaxed_request ex_lib _ _ E)).
Defined.

Definition ex_request : ERequest :=
  mkERequest (ex_csr TagPrintableString) ex_context (mkPrincipal "u" ∅) SoapHeader0.
Definition ex_draw (limit : Z) : result Z := Ok 41.
Definition ex_local : Local_ := mkLocal ex_x509 [] (mkSigner ex_key "k") no_policy.

Lemma issued_to_key_holder_witness :
  ∃ i issued, NewIssuer (Some (@local_issuer ex_lib ex_local ex_draw 5)) [] = Ok i ∧
    @Issuer_Issue ex_lib i (Some ex_request) = Ok issued ∧
    ∃ csr, @ParseCSR ex_lib (rq_CSR ex_request) = Ok csr ∧ acceptable (policy_defaults no_policy) (csr_PublicKey csr).
Proof.
  set (i := mkWIssuer (@local_issuer ex_lib ex_local ex_draw 5) None (λ _ csr, csr_Subject csr)).
  assert (∃ issued, @Issuer_Issue ex_lib i (Some ex_request) = Ok issued) as [issued E]
    by (eexists; vm_compute; reflexivity).
  exists i, issued. split; [reflexivity|]. split; [exact E|].
  destruct (@issued_to_key_holder ex_lib ex_local ex_draw 5 [] i ex_request issued) as (csr & _ & _ & _ & Hc & _ & _ & Ha & _).
  - intros der csr. unfold ParseCertificateRequest, ex_lib. case_decide; [discriminate|]. intros [= <-]. reflexivity.
  - intros n [= <-]. split; reflexivity || discriminate.
  - reflexivity.
  - exact E.
  - exists csr. split; [exact Hc|exact Ha].
Defined.

