(* ===== verification/SimEnroll.v ===== *)
(** * The enrolling client

    simulator/enroll.go and poll.go: the software client that discovers,
    fetches the policy, asks for a token and applies the provisioning document.
    The HTTP client, the keys and the certificate library are arguments: a
    request returns a response or fails, [ParseCertificate] reads DER, and a
    public key is its PKIX encoding. *)
From stdpp Require Import base gmap strings list.
From Stdlib Require Import ZArith Lia Ascii.
From S2P Require Import Prelude GoStrings SyncmlAuth GoCrypto Encode Utf8 GoXml XmlDoc MdmAuth Storage.
From S2P Require Import WapProv WapBuild Soap EnrollTypes EnrollMsg EnrollService.

Local Open Scope Z_scope.
Local Open Scope go_scope.

(** ** Types *)

Record Client := mkClient {
  cl_DiscoveryURL : string;
  cl_Email : string;
  cl_Password : string;
  cl_DeviceID : string;
  cl_HWDevID : string;
  cl_DeviceName : string;
  cl_OSVersion : string;
  cl_OSEdition : string;
  cl_ApplicationVersion : string;
  cl_EnrollmentType : EnrollmentType;
  cl_DeviceType : DeviceType;
  cl_RequestVersion : string;
  cl_SkipPolicy : bool;
  cl_Extra : list ContextItem }.

(** [type Credential struct] of this package is wapprov's. *)
Record Account := mkAccount {
  acc_ProviderID : string;
  acc_Name : string;
  acc_Address : string;
  acc_ServerAuth : Credential;
  acc_ClientAuth : Credential;
  acc_Parms : list Parm }.

Record DMClientState := mkDMClientState {
  ds_PushPFN : string;
  ds_ProviderID : string;
  ds_UPN : string;
  ds_EntDeviceName : string;
  ds_EntDMID : string;
  ds_Poll : Poll }.

Section client.
Context {Cert : Type} (ParseCertificate : string → option Cert).
(** [x509.MarshalPKIXPublicKey] of a certificate's key. *)
Context (cert_key : Cert → option string).

(** What the device holds of the certificates. *)
Record Certificates := mkCertificates {
  ct_Certificate : option Cert;
  ct_Store : WStore;
  ct_Roots : list Cert;
  ct_Intermediates : list Cert;
  ct_Renew : option Renew }.
Definition Certificates0 : Certificates := mkCertificates None "" [] [] None.

(** ** Applying the provisioning document *)

Definition Credential0 : Credential := mkCredential "" "" "" "".

Definition credential (ch : Characteristic) : result Credential :=
  let v n := Characteristic_Value n (Some ch) in
  if decide (v "AAUTHSECRET" = "") then Err [simulator_ErrProvisioning]
  else
  let? nonce := (if decide (v "AAUTHDATA" = "") then Ok ""
                 else match b64_decode (v "AAUTHDATA") with
                      | Some n => Ok n | None => Err [simulator_ErrProvisioning] end) in
  Ok (mkCredential (v "AAUTHTYPE") (v "AAUTHNAME") (v "AAUTHSECRET") nonce).

(** [entries]: the certificates under a store node. *)
Fixpoint entries (chs : list Characteristic) : result (list Cert) :=
  match chs with
  | [] => Ok []
  | ch :: chs =>
      match Characteristic_Parm "EncodedCertificate" (Some ch) with
      | None => entries chs
      | Some enc =>
          match b64_decode (p_Value enc) with
          | None => Err [simulator_ErrProvisioning]
          | Some der =>
              match ParseCertificate der with
              | None => Err [simulator_ErrProvisioning]
              | Some cert =>
                  if negb (bool_decide (Thumbprint der = ch_Type ch)) then Err [simulator_ErrProvisioning]
                  else let? rest := entries chs in Ok (cert :: rest)
              end
          end
      end
  end.

Definition store_entries (node : option Characteristic) : result (list Cert) :=
  match node with Some n => entries (ch_Children n) | None => Ok [] end.

(** The last certificate under the key, over what was found before. *)
Definition own_certificate (pub : string) (store : WStore) (found : option Cert * WStore)
    (certs : list Cert) : option Cert * WStore :=
  foldl (λ f c, if bool_decide (cert_key c = Some pub) then (Some c, store) else f) found certs.

(** [strconv.Atoi] with its error dropped: the value is 0 on a syntax error
    and saturates on a range error. *)
Definition Atoi_value (s : string) : Z :=
  let v :=
    match s with
    | String c r =>
        if Ascii.eqb c "-"%char then option_map Z.opp (parse_nat r)
        else if Ascii.eqb c "+"%char then parse_nat r
        else parse_nat s
    | EmptyString => None
    end in
  match v with Some n => Z.max min_int64 (Z.min max_int64 n) | None => 0 end.

Definition read_renew (ch : Characteristic) : Renew :=
  let v n := Characteristic_Value n (Some ch) in
  mkRenew (default false (ParseBool (v "ROBOSupport"))) (Atoi_value (v "RenewPeriod"))
    (Atoi_value (v "RetryInterval")) (v "ServerURL").

Definition apply_store (pub : string) (cs : Characteristic) (e : Certificates) : result Certificates :=
  let? roots := store_entries (Characteristic_Path ["Root"; "System"] (Some cs)) in
  let? cas := store_entries (Characteristic_Path ["CA"; "System"] (Some cs)) in
  let? users := store_entries (Characteristic_Path ["My"; StoreUser] (Some cs)) in
  let? systems := store_entries (Characteristic_Path ["My"; StoreSystem] (Some cs)) in
  let found := own_certificate pub StoreUser (ct_Certificate e, ct_Store e) users in
  let found := own_certificate pub StoreSystem found systems in
  Ok (mkCertificates (fst found) (snd found) (ct_Roots e ++ roots) (ct_Intermediates e ++ cas)
    (match Characteristic_Path ["My"; "WSTEP"; "Renew"] (Some cs) with
     | Some r => Some (read_renew r) | None => ct_Renew e end)).

Fixpoint apply_stores (pub : string) (css : list Characteristic) (e : Certificates) : result Certificates :=
  match css with
  | [] => Ok e
  | cs :: css => let? e := apply_store pub cs e in apply_stores pub css e
  end.

(** [applyCertificates] for a key whose public half encodes to [pub]. *)
Definition applyCertificates (doc : Document) (pub : string) : result Certificates :=
  let? e := apply_stores pub (Document_FindAll TypeCertificateStore doc) Certificates0 in
  if decide (is_Some (ct_Certificate e)) then
    if decide (ct_Roots e = []) then Err [simulator_ErrProvisioning] else Ok e
  else Err [simulator_ErrProvisioning].
End client.
Arguments Certificates Cert : clear implicits.
Arguments mkCertificates {Cert} _ _ _ _ _.
Arguments ct_Certificate {Cert} _.
Arguments ct_Store {Cert} _.
Arguments ct_Roots {Cert} _.
Arguments ct_Intermediates {Cert} _.
Arguments ct_Renew {Cert} _.

(** ** poll.go *)

Definition Poll0 : Poll := mkPoll 0 0 0 0 0 0 false false.

Definition setPoll (p : Poll) (parm : Parm) : result Poll :=
  let n := p_Name parm in
  if decide (n = "PollOnLogin" ∨ n = "AllUsersPollOnFirstLogin") then
    match ParseBool (p_Value parm) with
    | None => Err [simulator_ErrProvisioning]
    | Some v =>
        let '(mkPoll a b c d e f x y) := p in
        Ok (if decide (n = "PollOnLogin") then mkPoll a b c d e f v y else mkPoll a b c d e f x v)
    end
  else match Atoi (p_Value parm) with
  | None => Err [simulator_ErrProvisioning]
  | Some v =>
      let '(mkPoll a b c d e f x y) := p in
      if decide (n = "IntervalForFirstSetOfRetries") then Ok (mkPoll v b c d e f x y)
      else if decide (n = "NumberOfFirstRetries") then Ok (mkPoll a v c d e f x y)
      else if decide (n = "IntervalForSecondSetOfRetries") then Ok (mkPoll a b v d e f x y)
      else if decide (n = "NumberOfSecondRetries") then Ok (mkPoll a b c v e f x y)
      else if decide (n = "IntervalForRemainingScheduledRetries") then Ok (mkPoll a b c d v f x y)
      else if decide (n = "NumberOfRemainingScheduledRetries") then Ok (mkPoll a b c d e v x y)
      else Err [simulator_ErrProvisioning]
  end.
Fixpoint set_polls (p : Poll) (parms : list Parm) : result Poll :=
  match parms with
  | [] => Ok p
  | parm :: parms => let? p := setPoll p parm in set_polls p parms
  end.

(** ** The account *)

Fixpoint read_auths (chs : list Characteristic) (server client : option Credential)
    : result (option Credential * option Credential) :=
  match chs with
  | [] => Ok (server, client)
  | ch :: chs =>
      if negb (bool_decide (ch_Type ch = "APPAUTH")) then read_auths chs server client
      else
      let? cred := credential ch in
      let level := Characteristic_Value "AAUTHLEVEL" (Some ch) in
      if decide (level = "APPSRV") then read_auths chs (Some cred) client
      else if decide (level = "CLIENT") then read_auths chs server (Some cred)
      else Err [simulator_ErrProvisioning]
  end.

Definition apply_account (doc : Document) : result Account :=
  match Document_Find TypeApplication doc with
  | None => Err [simulator_ErrProvisioning]
  | Some app =>
      let v n := Characteristic_Value n (Some app) in
      if negb (bool_decide (v "APPID" = "w7")) then Err [simulator_ErrProvisioning]
      else if decide (v "PROVIDER-ID" = "" ∨ v "ADDR" = "") then Err [simulator_ErrProvisioning]
      else
      let? auths := read_auths (ch_Children app) None None in
      match auths with
      | (Some server, Some client) =>
          Ok (mkAccount (v "PROVIDER-ID") (v "NAME") (v "ADDR") server client (ch_Parms app))
      | _ => Err [simulator_ErrProvisioning]
      end
  end.

Definition apply_client (doc : Document) (provider : string) : result DMClientState :=
  match Document_Find TypeDMClient doc with
  | None => Err [simulator_ErrProvisioning]
  | Some dm =>
      match Characteristic_Path ["Provider"; provider] (Some dm) with
      | None => Err [simulator_ErrProvisioning]
      | Some prov =>
          match Characteristic_Child "Poll" (Some prov) with
          | None => Err [simulator_ErrProvisioning]
          | Some poll =>
              let? p := set_polls Poll0 (ch_Parms poll) in
              Ok (mkDMClientState
                (match Characteristic_Child "Push" (Some prov) with
                 | Some push => Characteristic_Value "PFN" (Some push) | None => "" end)
                provider (Characteristic_Value "UPN" (Some prov))
                (Characteristic_Value "EntDeviceName" (Some prov))
                (Characteristic_Value "EntDMID" (Some prov)) p)
          end
      end
  end.

(** ** Enroll *)

(** [strings.ToLower]: rune by rune, with unicode.ToLower beyond ASCII as a
    table. *)
Class LowerTables := { table_lower : Z → Z }.
Definition lower_rune `{LowerTables} (r : Z) : Z :=
  if r <? 128 then (if (65 <=? r) && (r <=? 90) then r + 32 else r) else table_lower r.
Fixpoint map_lower_fuel `{LowerTables} (fuel : nat) (s : string) : string :=
  match fuel, s with
  | S fuel, String _ _ =>
      let '(r, n) := decode_rune s in
      encode_rune (lower_rune r) +:+ map_lower_fuel fuel (sdrop n s)
  | _, _ => ""
  end.
Definition strings_ToLower `{LowerTables} (s : string) : string := map_lower_fuel (String.length s) s.

(** [defaults] *)
Definition or_default (d s : string) : string := if decide (s = "") then d else s.

Definition Client_defaults `{LowerTables} (c : Client) : result Client :=
  if decide (cl_Email c = "" ∨ cl_Password c = "" ∨ cl_DeviceID c = "") then Err [simulator_ErrConfig]
  else
  let? url := (if decide (cl_DiscoveryURL c = "") then
                 match cut_byte "@" (cl_Email c) with
                 | Some (_, domain) =>
                     if decide (domain = "") then Err [simulator_ErrConfig]
                     else Ok ("https://enterpriseenrollment." +:+ strings_ToLower domain +:+ DiscoveryPath)
                 | None => Err [simulator_ErrConfig]
                 end
               else Ok (cl_DiscoveryURL c)) in
  let osv := or_default "10.0.26100.1" (cl_OSVersion c) in
  let et := or_default EnrollmentTypeFull (cl_EnrollmentType c) in
  let rv := or_default "5.0" (cl_RequestVersion c) in
  if negb (EnrollmentType_Valid et) then Err [simulator_ErrConfig]
  else match ParseVersion rv with
  | Err e => Err (simulator_ErrConfig :: e)
  | Ok _ =>
      Ok (mkClient url (cl_Email c) (cl_Password c) (cl_DeviceID c) (cl_HWDevID c)
        (or_default "DESKTOP-SIM" (cl_DeviceName c)) osv (or_default "4" (cl_OSEdition c))
        (or_default osv (cl_ApplicationVersion c)) et
        (or_default DeviceTypeWindows (cl_DeviceType c)) rv (cl_SkipPolicy c) (cl_Extra c))
  end.

Definition Client_items (c : Client) : list ContextItem :=
  [mkContextItem "OSEdition" (cl_OSEdition c); mkContextItem "OSVersion" (cl_OSVersion c);
   mkContextItem "DeviceName" (cl_DeviceName c); mkContextItem "EnrollmentType" (cl_EnrollmentType c);
   mkContextItem "DeviceType" (cl_DeviceType c);
   mkContextItem "ApplicationVersion" (cl_ApplicationVersion c);
   mkContextItem "DeviceID" (cl_DeviceID c); mkContextItem "TargetedUserLoggedIn" "True";
   mkContextItem "Locale" "en-US"; mkContextItem "RequestVersion" (cl_RequestVersion c)] ++
  (if decide (cl_HWDevID c = "") then [] else [mkContextItem "HWDevID" (cl_HWDevID c)]) ++ cl_Extra c.

(** What the client sees of a response. *)
Record HttpResponse := mkHttpResponse {
  hr_StatusCode : Z; hr_Body : string; hr_ContentLength : Z; hr_Chunked : bool }.

(** Errors of the client: the server's fault, or the sentinels. *)
Inductive cresult (A : Type) : Type :=
  | COk (a : A)
  | CFault (f : DecodedFault)
  | CErr (e : error).
Arguments COk {A} a.
Arguments CFault {A} f.
Arguments CErr {A} e.

Definition of_reply {A} (r : option SoapHeader * reply A) : cresult A :=
  match snd r with ROk a => COk a | RFault f => CFault f | RErr e => CErr e end.
Definition of_plain {A} (r : result A) : cresult A := match r with Ok a => COk a | Err e => CErr e end.

Section exchange.
Context `{NameTables} {Net : Type}.
(** The HTTP client: method, URL and body; [None] for a transport error. *)
Context (http : string → string → string → Net → Net * option HttpResponse).

(** Programs of the client over the network. *)
Definition C (A : Type) : Type := Net → Net * cresult A.
Definition cret {A} (r : cresult A) : C A := λ n, (n, r).
Definition cbind {A B} (m : C A) (k : A → C B) : C B := λ n,
  match m n with
  | (n, COk a) => k a n
  | (n, CFault f) => (n, CFault f)
  | (n, CErr e) => (n, CErr e)
  end.

Definition probe (url : string) : C unit := λ n,
  match http "GET" url "" n with
  | (n, None) => (n, CErr [])
  | (n, Some resp) => (n, if hr_StatusCode resp =? 200 then COk tt else CErr [simulator_ErrProtocol])
  end.

(** [post]: at most DefaultMaxSize bytes of the body are read. *)
Definition check_response (resp : HttpResponse) : cresult string :=
  let out := stake (Z.to_nat SoapMaxSize) (hr_Body resp) in
  if hr_Chunked resp then CErr [simulator_ErrProtocol]
  else if (0 <=? hr_ContentLength resp) && negb (hr_ContentLength resp =? len out)
  then CErr [simulator_ErrProtocol]
  else if negb (hr_StatusCode resp =? 200) && negb (hr_StatusCode resp =? 500)
  then CErr [simulator_ErrProtocol]
  else COk out.
Definition post (url body : string) : C string := λ n,
  match http "POST" url body n with
  | (n, None) => (n, CErr [])
  | (n, Some resp) => (n, check_response resp)
  end.

(** Message ids are "urn:uuid:" and a fresh UUID. *)
Definition client_discover (c : Client) (mid : string) : C DiscoverResponse :=
  cbind (cret (of_plain (EncodeDiscover
    (mkDiscoverRequest (cl_Email c) (cl_RequestVersion c) (cl_DeviceType c) (cl_ApplicationVersion c)
       (cl_OSEdition c) [AuthPolicyOnPremise; AuthPolicyFederated; AuthPolicyCertificate])
    mid (cl_DiscoveryURL c)))) (λ body,
  cbind (post (cl_DiscoveryURL c) body) (λ out,
  cbind (cret (of_reply (DecodeDiscoverResponse out))) (λ resp,
  cret (if decide (dr_EnrollmentServiceURL resp = "") then CErr [simulator_ErrProtocol] else COk resp)))).

Definition client_credentials (c : Client) : Credentials := mkCredentials (cl_Email c) (cl_Password c).

Definition client_policies (c : Client) (mid url : string) : C PolicyResponse :=
  cbind (cret (of_plain (EncodeGetPolicies mid url (Some (client_credentials c))))) (λ body,
  cbind (post url body) (λ out, cret (of_reply (DecodePolicyResponse out)))).

Definition client_token (c : Client) (mid url csr : string) : C string :=
  cbind (cret (of_plain (EncodeRequestSecurityToken mid url (Some (client_credentials c)) csr
    (Client_items c)))) (λ body,
  cbind (post url body) (λ out, cret (of_reply (DecodeTokenResponse out)))).

(** *** The whole enrollment *)

Context `{CaseTables} {Cert : Type} (ParseCertificate : string → option Cert)
  (cert_key : Cert → option string).

(** [type Enrollment struct] of this package. *)
Record DeviceEnrollment := mkDeviceEnrollment {
  de_Discovery : DiscoverResponse;
  de_Policy : option PolicyResponse;
  de_Certificates : Certificates Cert;
  de_Document : Document;
  de_Account : Account;
  de_DMClient : DMClientState }.

(** The key: its public half and the certificate request it signs, given the
    length the policy asks for. *)
Context (make_key : Z → result (string * string)).

Definition client_apply (disc : DiscoverResponse) (policy : option PolicyResponse) (pub : string)
    (docBytes : string) : result DeviceEnrollment :=
  match WapDecode docBytes with
  | Err e => Err (simulator_ErrProvisioning :: e)
  | Ok doc =>
      let? certs := applyCertificates ParseCertificate cert_key doc pub in
      let? acc := apply_account doc in
      let? dm := apply_client doc (acc_ProviderID acc) in
      Ok (mkDeviceEnrollment disc policy certs doc acc dm)
  end.

Definition client_enroll `{LowerTables} (c : Client) (mids : string * string * string) : C DeviceEnrollment :=
  let '(mid1, mid2, mid3) := mids in
  cbind (cret (of_plain (Client_defaults c))) (λ c,
  cbind (probe (cl_DiscoveryURL c)) (λ _,
  cbind (client_discover c mid1) (λ disc,
  if negb (bool_decide (dr_AuthPolicy disc = AuthPolicyOnPremise)) then cret (CErr [simulator_ErrProtocol])
  else
  cbind (if negb (bool_decide (dr_EnrollmentPolicyServiceURL disc = "")) && negb (cl_SkipPolicy c)
         then cbind (client_policies c mid2 (dr_EnrollmentPolicyServiceURL disc)) (λ p, cret (COk (Some p)))
         else cret (COk None)) (λ policy,
  let keyBits := match policy with Some p => Z.max 2048 (pr_MinimalKeyLength p) | None => 2048 end in
  cbind (cret (of_plain (make_key keyBits))) (λ '(pub, csr),
  cbind (client_token c mid3 (dr_EnrollmentServiceURL disc) csr) (λ docBytes,
  cret (of_plain (client_apply disc policy pub docBytes)))))))).
End exchange.
