(* ===== verification/EnrollDevice.v ===== *)
(** * From the provisioner to the device

    The documents the default provisioner builds are valid, and a client that
    applies one holds what the server put in: certificates, account, schedule.
    Composition of provision.go, wapprov and simulator/enroll.go. *)
From stdpp Require Import base gmap strings list.
From Stdlib Require Import ZArith Lia Ascii ZifyBool.
From S2P Require Import Prelude GoStrings SyncmlAuth GoCrypto Encode Utf8 GoXml XmlLex XmlDoc MdmAuth.
From S2P Require Import EnrollTypes Storage WapProv WapBuild WapTheorems Soap EnrollMsg EnrollService.
From S2P Require Import EnrollProvision EnrollPolicy SimEnroll.

Local Open Scope Z_scope.

(** ** What the builders build *)

Definition store_char (cfg : CertificateStoreConfig) : Characteristic :=
  mkChar TypeCertificateStore []
    (mkChar "Root" [] [mkChar "System" [] (certEntries (cs_Roots cfg))] ::
     (if decide (length (cs_Intermediates cfg) = 1%nat)
      then [mkChar "CA" [] [mkChar "System" [] (certEntries (cs_Intermediates cfg))]] else []) ++
     [mkChar "My" []
       (mkChar (cs_Store cfg) [] (certEntries [cs_Client cfg] ++ [mkChar "PrivateKeyContainer" [] []]) ::
        match cs_Renew cfg with Some r => [mkChar "WSTEP" [] [renew_char r]] | None => [] end)]).

Lemma CertificateStore_inv cfg c :
  CertificateStore cfg = Ok c →
  c = store_char cfg ∧ (length (cs_Intermediates cfg) ≤ 1)%nat ∧
  (cs_Store cfg = StoreUser ∨ cs_Store cfg = StoreSystem).
Proof.
  unfold CertificateStore. repeat (case_decide; [done|]).
  destruct (negb _ && negb _) eqn:Es; [done|]. destruct (existsb _ _); [done|].
  assert (cs_Store cfg = StoreUser ∨ cs_Store cfg = StoreSystem) as Hs.
  { apply andb_false_iff in Es as [Es|Es]; apply negb_false_iff, bool_decide_eq_true in Es; auto. }
  unfold store_char. destruct (cs_Renew cfg) as [r|]; cbn [result_bind].
  - destruct (_ || _); [done|]. intros [= <-]. split_and!; [done|lia|done].
  - intros [= <-]. split_and!; [done|lia|done].
Qed.

Definition auth_char (level : string) (c : Credential) : Characteristic :=
  mkChar "APPAUTH"
    ([mkParm "AAUTHLEVEL" level "" false; mkParm "AAUTHTYPE" (cr_Type c) "" false] ++
     parm_unless_empty "AAUTHNAME" (cr_Name c) "" ++
     [mkParm "AAUTHSECRET" (cr_Secret c) "" false] ++
     (if decide (cr_Nonce c = "") then []
      else [mkParm "AAUTHDATA" (b64_encode (cr_Nonce c)) "" false])) [].

Lemma appAuth_inv level c ch : appAuth level c = Ok ch → ch = auth_char level c ∧ cr_Secret c ≠ "".
Proof.
  unfold appAuth. destruct (negb _ && negb _); [done|]. destruct (_ && _); [done|].
  case_decide; [done|]. destruct (_ && _); [done|]. intros [= <-]. done.
Qed.

Definition application_parms (cfg : ApplicationConfig) : list Parm :=
  [mkParm "APPID" "w7" "" false; mkParm "PROVIDER-ID" (app_ProviderID cfg) "" false] ++
  parm_unless_empty "NAME" (app_Name cfg) "" ++
  [mkParm "ADDR" (app_Address cfg) "" false] ++
  parm_unless_empty "PROTOVER" (app_ProtoVer cfg) "" ++
  parm_positive "CONNRETRYFREQ" (app_ConnRetryFreq cfg) ++
  parm_positive "INITIALBACKOFFTIME" (app_InitialBackoffTime cfg) ++
  parm_positive "MAXBACKOFFTIME" (app_MaxBackoffTime cfg) ++
  parm_flag "BACKCOMPATRETRYDISABLED" (app_BackCompatRetryDisabled cfg) ++
  parm_unless_empty "DEFAULTENCODING" (app_DefaultEncoding cfg) "" ++
  parm_flag "USEHWDEVID" (app_UseHWDevID cfg) ++
  parm_unless_empty "SSLCLIENTCERTSEARCHCRITERIA" (app_SSLClientCertSearchCriteria cfg) "".

Lemma Application_inv cfg c :
  Application cfg = Ok c →
  c = mkChar TypeApplication (application_parms cfg)
        [auth_char "APPSRV" (app_ServerAuth cfg); auth_char "CLIENT" (app_ClientAuth cfg)] ∧
  app_ProviderID cfg ≠ "" ∧ app_Address cfg ≠ "" ∧
  cr_Secret (app_ServerAuth cfg) ≠ "" ∧ cr_Secret (app_ClientAuth cfg) ≠ "" ∧
  app_DefaultEncoding cfg ∈ [""; EncodingXML; EncodingWBXML] ∧ app_ProtoVer cfg ∈ [""; "1.1"; "1.2"].
Proof.
  unfold Application. repeat (case_decide; [done|]).
  destruct (negb _) eqn:E1; [done|]. destruct (negb (bool_decide (app_DefaultEncoding cfg ∈ _))) eqn:E2; [done|].
  apply negb_false_iff, bool_decide_eq_true in E1, E2.
  destruct (appAuth "APPSRV" _) as [srv|] eqn:Es; [|done]. destruct (appAuth "CLIENT" _) as [cli|] eqn:Ec; [|done].
  apply appAuth_inv in Es as [-> Hs], Ec as [-> Hc]. cbn [result_bind]. intros [= <-]. done.
Qed.

Definition provider_char (cfg : DMClientConfig) : Characteristic :=
  mkChar (dm_ProviderID cfg)
    (parm_unless_empty "UPN" (dm_UPN cfg) TypeString ++
     parm_unless_empty "EntDeviceName" (dm_EntDeviceName cfg) TypeString ++
     parm_unless_empty "EntDMID" (dm_EntDMID cfg) TypeString ++ dm_Extra cfg)
    (poll_char (default DefaultPoll (dm_Poll cfg)) ::
     if decide (dm_PushPFN cfg = "") then []
     else [mkChar "Push" [mkParm "PFN" (dm_PushPFN cfg) TypeString false] []]).

Lemma DMClient_inv cfg c :
  DMClient cfg = Ok c →
  c = mkChar TypeDMClient [] [mkChar "Provider" [] [provider_char cfg]] ∧ dm_ProviderID cfg ≠ "".
Proof.
  unfold DMClient. case_decide; [done|]. destruct (Poll_Validate _); [|done]. cbn [result_bind].
  destruct (existsb _ _); [done|]. intros [= <-]. done.
Qed.

(** ** What the client reads *)

Lemma b64_round s : b64_decode (b64_encode s) = Some s.
Proof. pose proof (b64_decode_encode s) as E. by rewrite TrimSpace_id in E by apply b64_encode_ok. Qed.

Lemma Value_cons n p ps t cs :
  Characteristic_Value n (Some (mkChar t (p :: ps) cs)) =
  if decide (p_Name p = n) then p_Value p else Characteristic_Value n (Some (mkChar t ps cs)).
Proof.
  unfold Characteristic_Value, Characteristic_Parm. cbn [ch_Parms List.find].
  case_bool_decide; case_decide; try done.
Qed.
Lemma Value_nil n t cs : Characteristic_Value n (Some (mkChar t [] cs)) = "".
Proof. done. Qed.
(** A parm that is left out when empty reads as empty. *)
Lemma Value_unless n m v ty ps t cs :
  Characteristic_Value n (Some (mkChar t (parm_unless_empty m v ty ++ ps) cs)) =
  if decide (m = n)
  then (if decide (v = "") then Characteristic_Value n (Some (mkChar t ps cs)) else v)
  else Characteristic_Value n (Some (mkChar t ps cs)).
Proof.
  unfold parm_unless_empty. destruct (decide (v = "")); cbn [app]; [by case_decide|].
  rewrite Value_cons. cbn [p_Name p_Value]. by case_decide.
Qed.
Definition skips (n : string) (ps : list Parm) : Prop := Forall (λ p, p_Name p ≠ n) ps.
Lemma Value_skips n ps t cs : skips n ps → Characteristic_Value n (Some (mkChar t ps cs)) = "".
Proof. induction 1 as [|p ps Hp _ IH]; [done|]. rewrite Value_cons. by rewrite decide_False. Qed.

(** Settle comparisons of constants. *)
Ltac const_decide :=
  repeat match goal with
    | |- context [decide (String ?a ?s = String ?b ?t)] =>
        first [rewrite (decide_True (P := String a s = String b t)) by reflexivity
              |rewrite (decide_False (P := String a s = String b t)) by discriminate]
    end.

Lemma credential_read level c : cr_Secret c ≠ "" →
  credential (auth_char level c) = Ok c ∧
  Characteristic_Value "AAUTHLEVEL" (Some (auth_char level c)) = level.
Proof.
  intros Hs. destruct c as [ty nm sec non]. cbn [cr_Secret] in Hs. unfold credential, auth_char.
  cbn [app cr_Type cr_Name cr_Secret cr_Nonce].
  assert (Characteristic_Value "AAUTHDATA" (Some (mkChar "APPAUTH"
    (if decide (non = "") then [] else [mkParm "AAUTHDATA" (b64_encode non) "" false]) [])) =
    (if decide (non = "") then "" else b64_encode non)) as Hd by (by case_decide).
  assert (Characteristic_Value "AAUTHNAME" (Some (mkChar "APPAUTH"
    (if decide (non = "") then [] else [mkParm "AAUTHDATA" (b64_encode non) "" false]) [])) = "")
    as Hn by (by case_decide).
  rewrite !Value_cons. cbn [p_Name p_Value]. const_decide. rewrite !Value_unless. const_decide.
  cbn [app]. rewrite !Value_cons. cbn [p_Name p_Value]. const_decide. rewrite Hd, Hn.
  rewrite decide_False by done. split; [|done].
  assert ((if decide ((if decide (non = "") then "" else b64_encode non) = "") then Ok ""
    else match b64_decode (if decide (non = "") then "" else b64_encode non) with
         | Some n => Ok n | None => Err [simulator_ErrProvisioning] end) = Ok non) as ->.
  { destruct (decide (non = "")) as [->|?]; [done|].
    rewrite (decide_False (P := b64_encode non = "")) by by apply b64_encode_nonempty. by rewrite b64_round. }
  cbn [result_bind]. by destruct (decide (nm = "")) as [->|].
Qed.

Lemma read_auths_pair s c : cr_Secret s ≠ "" → cr_Secret c ≠ "" →
  read_auths [auth_char "APPSRV" s; auth_char "CLIENT" c] None None = Ok (Some s, Some c).
Proof.
  intros Hs Hc. destruct (credential_read "APPSRV" s Hs) as [E1 L1], (credential_read "CLIENT" c Hc) as [E2 L2].
  cbn [read_auths]. rewrite E1, E2, L1, L2. reflexivity.
Qed.

Lemma polls_read p :
  in_int64 (po_IntervalForFirstSetOfRetries p) → in_int64 (po_NumberOfFirstRetries p) →
  in_int64 (po_IntervalForSecondSetOfRetries p) → in_int64 (po_NumberOfSecondRetries p) →
  in_int64 (po_IntervalForRemainingScheduledRetries p) → in_int64 (po_NumberOfRemainingScheduledRetries p) →
  set_polls Poll0 (ch_Parms (poll_char p)) = Ok p.
Proof.
  destruct p as [a b c d e f x y]. cbn. intros. unfold poll_char, int_parm, true_parm.
  cbn [po_IntervalForFirstSetOfRetries po_NumberOfFirstRetries po_IntervalForSecondSetOfRetries
    po_NumberOfSecondRetries po_IntervalForRemainingScheduledRetries po_NumberOfRemainingScheduledRetries
    po_PollOnLogin po_AllUsersPollOnFirstLogin ch_Parms app set_polls].
  unfold setPoll at 1 2 3 4 5 6. cbn [p_Name p_Value Poll0]. rewrite !Atoi_Itoa by done.
  destruct x, y; reflexivity.
Qed.

(** *** Certificates *)

Section certificates.
Context (P : string → option X509) (key : X509 → option string).

Definition parses (c : X509) : Prop := P (x_Raw c) = Some c.

Lemma entries_read certs rest : Forall parses certs →
  entries P (certEntries (map x_Raw certs) ++ rest) =
  match entries P rest with Ok r => Ok (certs ++ r) | Err e => Err e end.
Proof.
  induction 1 as [|c certs Hc _ IH]; [cbn; by destruct (entries P rest)|].
  cbn [map certEntries app entries]. unfold certEntry at 1.
  change (Characteristic_Parm "EncodedCertificate" (Some (mkChar (Thumbprint (x_Raw c))
    [mkParm "EncodedCertificate" (b64_encode (x_Raw c)) "" false] []))) with
    (Some (mkParm "EncodedCertificate" (b64_encode (x_Raw c)) "" false)).
  cbn [p_Value ch_Type certEntry]. rewrite b64_round, Hc, bool_decide_true by done. cbn [negb].
  fold (certEntries (map x_Raw certs)). rewrite IH. by destruct (entries P rest).
Qed.
Lemma entries_all certs : Forall parses certs → entries P (certEntries (map x_Raw certs)) = Ok certs.
Proof. intros Hc. rewrite <- (app_nil_r (certEntries _)), entries_read by done. cbn. by rewrite app_nil_r. Qed.

Lemma Atoi_value_ok s n : Atoi s = Some n → Atoi_value s = n.
Proof.
  unfold Atoi, Atoi_value. match goal with |- context [match ?v with Some _ => _ | None => _ end] =>
    destruct v as [m|] end; [|done].
  destruct (Z.leb_spec min_int64 m), (Z.leb_spec m max_int64); cbn [andb]; try done. intros [= <-]. lia.
Qed.

Lemma read_renew_char r :
  in_int64 (rn_RenewPeriod r) → in_int64 (rn_RetryInterval r) → read_renew (renew_char r) = r.
Proof.
  intros H1 H2. destruct r as [b n m u]. cbn [rn_RenewPeriod rn_RetryInterval] in *.
  unfold read_renew, renew_char. cbn [rn_ROBOSupport rn_RenewPeriod rn_RetryInterval rn_ServerURL app].
  assert (∀ k, k ≠ "ServerURL" → Characteristic_Value k (Some (mkChar "Renew"
    (if decide (u = "") then [] else [mkParm "ServerURL" u TypeString false]) [])) = "") as Hk.
  { intros k Hk. case_decide; [done|]. rewrite Value_cons. by rewrite decide_False. }
  assert (Characteristic_Value "ServerURL" (Some (mkChar "Renew"
    (if decide (u = "") then [] else [mkParm "ServerURL" u TypeString false]) [])) = u) as Hu
    by (by case_decide).
  rewrite !Value_cons. cbn [p_Name p_Value]. const_decide. rewrite Hu.
  rewrite (Atoi_value_ok _ n), (Atoi_value_ok _ m) by by apply Atoi_Itoa. by destruct b.
Qed.

(** The store a certificate goes to. *)
Definition renew_range (r : Renew) : Prop := in_int64 (rn_RenewPeriod r) ∧ in_int64 (rn_RetryInterval r).

(** The nodes the client looks for. *)
Lemma store_paths roots cas c store r : (length cas ≤ 1)%nat → store = StoreUser ∨ store = StoreSystem →
  let path ts := Characteristic_Path ts (Some (store_char (mkCertificateStoreConfig roots cas c store (Some r)))) in
  let mine := mkChar store [] (certEntries [c] ++ [mkChar "PrivateKeyContainer" [] []]) in
  path ["Root"; "System"] = Some (mkChar "System" [] (certEntries roots)) ∧
  path ["CA"; "System"] = (if decide (cas = []) then None else Some (mkChar "System" [] (certEntries cas))) ∧
  path ["My"; StoreUser] = (if decide (store = StoreUser) then Some mine else None) ∧
  path ["My"; StoreSystem] = (if decide (store = StoreUser) then None else Some mine) ∧
  path ["My"; "WSTEP"; "Renew"] = Some (renew_char r).
Proof.
  intros Hl Hs path mine. unfold path, store_char. cbn [cs_Intermediates].
  destruct cas as [|ca [|? ?]]; [| |cbn in Hl; lia]; destruct Hs as [->| ->]; split_and!; reflexivity.
Qed.

Lemma apply_store_char roots cas c store r pub :
  Forall parses roots → Forall parses cas → parses c → (length cas ≤ 1)%nat →
  store = StoreUser ∨ store = StoreSystem → key c = Some pub → renew_range r →
  apply_store P key pub (store_char (mkCertificateStoreConfig (map x_Raw roots) (map x_Raw cas)
    (x_Raw c) store (Some r))) Certificates0 =
  Ok (mkCertificates (Some c) store roots cas (Some r)).
Proof.
  intros Hr Hca Hc Hl Hs Hk [R1 R2]. unfold apply_store.
  assert (store_entries P (Some (mkChar store [] (certEntries [x_Raw c] ++ [mkChar "PrivateKeyContainer" [] []]))) =
    Ok [c]) as Hmine.
  { cbn [store_entries ch_Children]. change [x_Raw c] with (map x_Raw [c]). by rewrite entries_read by auto. }
  assert (store_entries P (if decide (map x_Raw cas = []) then None
    else Some (mkChar "System" [] (certEntries (map x_Raw cas)))) = Ok cas) as Hcas.
  { case_decide as E; [by apply map_eq_nil in E as ->|]. cbn [store_entries ch_Children]. by apply entries_all. }
  destruct (store_paths (map x_Raw roots) (map x_Raw cas) (x_Raw c) store r) as (-> & -> & -> & -> & ->);
    [by rewrite length_map|done|].
  cbn [store_entries ch_Children] in *. rewrite entries_all by done. cbn [result_bind]. rewrite Hcas.
  cbn [result_bind].
  unfold own_certificate. destruct Hs as [->| ->];
  rewrite ?(decide_True (P := StoreUser = StoreUser)), ?(decide_False (P := StoreSystem = StoreUser)) by done;
  cbn [store_entries ch_Children]; rewrite Hmine; cbn [result_bind foldl];
  rewrite bool_decide_true by done; cbn [fst snd Certificates0 ct_Roots ct_Intermediates app];
  by rewrite read_renew_char.
Qed.
End certificates.

(** *** The account and the schedule *)

Lemma find_skip {A} (f : A → bool) l x k :
  Forall (λ y, f y = false) l → f x = true → List.find f (l ++ x :: k) = Some x.
Proof. intros Hl Hx. induction Hl as [|y l Hy _ IH]; cbn [app List.find]; [by rewrite Hx|by rewrite Hy]. Qed.
Lemma of_type_other t c : ch_Type c ≠ t → of_type t c = false.
Proof. intros. unfold of_type. by rewrite bool_decide_false. Qed.

Lemma application_values cfg chs :
  let v n := Characteristic_Value n (Some (mkChar TypeApplication (application_parms cfg) chs)) in
  v "APPID" = "w7" ∧ v "PROVIDER-ID" = app_ProviderID cfg ∧ v "ADDR" = app_Address cfg ∧
  v "NAME" = app_Name cfg.
Proof.
  unfold application_parms. cbn [app]. rewrite !Value_cons. cbn [p_Name p_Value]. const_decide.
  rewrite !Value_unless. const_decide. rewrite !Value_cons. cbn [p_Name p_Value]. const_decide.
  split_and!; [done..|]. case_decide as E; [|done]. rewrite E. apply Value_skips.
  unfold skips, parm_unless_empty, parm_positive, parm_flag.
  repeat (apply Forall_app; split); repeat case_decide; repeat case_match; repeat constructor; done.
Qed.

Lemma apply_account_doc cs rc app dm v cfg :
  ch_Type cs = TypeCertificateStore → Forall (λ c, ch_Type c ≠ TypeApplication) rc →
  app = mkChar TypeApplication (application_parms cfg)
    [auth_char "APPSRV" (app_ServerAuth cfg); auth_char "CLIENT" (app_ClientAuth cfg)] →
  app_ProviderID cfg ≠ "" → app_Address cfg ≠ "" →
  cr_Secret (app_ServerAuth cfg) ≠ "" → cr_Secret (app_ClientAuth cfg) ≠ "" →
  apply_account (mkDocument v (cs :: rc ++ [app; dm])) =
  Ok (mkAccount (app_ProviderID cfg) (app_Name cfg) (app_Address cfg) (app_ServerAuth cfg)
    (app_ClientAuth cfg) (application_parms cfg)).
Proof.
  intros Hcs Hrc -> Hp Ha Hs Hc. unfold apply_account, Document_Find. cbn [doc_Characteristics].
  rewrite app_comm_cons, find_skip; [|constructor; [apply of_type_other; by rewrite Hcs|]|done].
  2: { eapply Forall_impl; [exact Hrc|]. intros c. apply of_type_other. }
  destruct (application_values cfg [auth_char "APPSRV" (app_ServerAuth cfg);
    auth_char "CLIENT" (app_ClientAuth cfg)]) as (-> & -> & -> & ->).
  rewrite bool_decide_true by done. cbn [negb ch_Children ch_Parms].
  rewrite decide_False by tauto. by rewrite read_auths_pair.
Qed.

Record poll_range (p : Poll) : Prop := {
  plr_1 : in_int64 (po_IntervalForFirstSetOfRetries p); plr_2 : in_int64 (po_NumberOfFirstRetries p);
  plr_3 : in_int64 (po_IntervalForSecondSetOfRetries p); plr_4 : in_int64 (po_NumberOfSecondRetries p);
  plr_5 : in_int64 (po_IntervalForRemainingScheduledRetries p);
  plr_6 : in_int64 (po_NumberOfRemainingScheduledRetries p) }.

Lemma apply_client_doc cs rc app dm v cfg :
  ch_Type cs = TypeCertificateStore → Forall (λ c, ch_Type c ≠ TypeDMClient) rc →
  ch_Type app = TypeApplication →
  dm = mkChar TypeDMClient [] [mkChar "Provider" [] [provider_char cfg]] →
  dm_Extra cfg = [] → poll_range (default DefaultPoll (dm_Poll cfg)) →
  apply_client (mkDocument v (cs :: rc ++ [app; dm])) (dm_ProviderID cfg) =
  Ok (mkDMClientState (dm_PushPFN cfg) (dm_ProviderID cfg) (dm_UPN cfg) (dm_EntDeviceName cfg)
    (dm_EntDMID cfg) (default DefaultPoll (dm_Poll cfg))).
Proof.
  intros Hcs Hrc Happ -> Hx R. unfold apply_client, Document_Find. cbn [doc_Characteristics].
  rewrite app_comm_cons, (cons_middle app), app_assoc, find_skip; [| |done].
  2: { apply Forall_app. split; [constructor; [apply of_type_other; by rewrite Hcs|]|].
       - eapply Forall_impl; [exact Hrc|]. intros c. apply of_type_other.
       - constructor; [|done]. apply of_type_other. by rewrite Happ. }
  assert (Characteristic_Path ["Provider"; dm_ProviderID cfg] (Some (mkChar TypeDMClient []
    [mkChar "Provider" [] [provider_char cfg]])) = Some (provider_char cfg)) as ->.
  { unfold Characteristic_Path. cbn [foldl Characteristic_Child ch_Children List.find of_type ch_Type].
    unfold of_type. cbn [ch_Type]. rewrite bool_decide_true by done. cbn [Characteristic_Child ch_Children List.find].
    unfold of_type, provider_char. cbn [ch_Type]. by rewrite bool_decide_true. }
  assert (Characteristic_Child "Poll" (Some (provider_char cfg)) =
    Some (poll_char (default DefaultPoll (dm_Poll cfg)))) as -> by done.
  destruct R. rewrite polls_read by done. cbn [result_bind]. do 2 f_equal; unfold provider_char.
  - by destruct (decide (dm_PushPFN cfg = "")) as [->|].
  - rewrite Hx, !Value_unless, Value_nil. const_decide. by destruct (decide (dm_UPN cfg = "")) as [->|].
  - rewrite Hx, !Value_unless, Value_nil. const_decide. by destruct (decide (dm_EntDeviceName cfg = "")) as [->|].
  - rewrite Hx, !Value_unless, Value_nil. const_decide. by destruct (decide (dm_EntDMID cfg = "")) as [->|].
Qed.

(** ** The documents are valid *)

Lemma sha1_block_length h ws : length h = 5%nat → length (sha1_block h ws) = 5%nat.
Proof.
  intros Hh. unfold sha1_block. rewrite length_zip_with.
  assert (∀ l h, length h = 5%nat → length (foldl sha1_round h l) = 5%nat) as Hf.
  { induction l as [|[i w] l IH]; intros h' Hh'; [done|]. cbn [foldl]. by apply IH. }
  rewrite Hf by done. lia.
Qed.
Lemma sha1_blocks_length fuel : ∀ h ws,
  length h = 5%nat → length (sha_blocks sha1_block fuel h ws) = 5%nat.
Proof.
  induction fuel as [|fuel IH]; intros h ws Hh; [done|]. cbn [sha_blocks]. destruct ws; [done|].
  by apply IH, sha1_block_length.
Qed.
Lemma Thumbprint_nonempty der : Thumbprint der ≠ "".
Proof.
  unfold Thumbprint, sha1_Sum. pose proof (sha1_blocks_length
    (length (be_words (sha_pad (string_bytes der)))) sha1_H0 (be_words (sha_pad (string_bytes der))) eq_refl) as Hl.
  destruct (sha_blocks _ _ _ _) as [|a l]; [done|]. unfold digest_string. done.
Qed.

(** Types and names are there; the rule outside APPLICATION. *)
Fixpoint named (c : Characteristic) : bool :=
  match c with
  | mkChar t ps cs => negb (bool_decide (t = "")) && forallb (λ p, negb (bool_decide (p_Name p = ""))) ps &&
                      forallb named cs
  end.

Lemma unless_named m v ty :
  m ≠ "" → forallb (λ p, negb (bool_decide (p_Name p = ""))) (parm_unless_empty m v ty) = true.
Proof. intros Hm. unfold parm_unless_empty. case_decide; [done|]. cbn [forallb p_Name]. by rewrite bool_decide_false. Qed.
Lemma true_named m b : m ≠ "" → forallb (λ p, negb (bool_decide (p_Name p = ""))) (true_parm m b) = true.
Proof. intros Hm. destruct b; [|done]. cbn [true_parm forallb p_Name]. by rewrite bool_decide_false. Qed.

Lemma entries_named ders : forallb named (certEntries ders) = true.
Proof.
  induction ders as [|d ders IH]; [done|]. cbn [certEntries map forallb]. fold (certEntries ders).
  rewrite IH. unfold certEntry. cbn [named forallb p_Name].
  by rewrite bool_decide_false by apply Thumbprint_nonempty.
Qed.
Lemma nest_bound t ps cs k : 0 ≤ k → Forall (λ c, nest c ≤ k) cs → nest (mkChar t ps cs) ≤ k + 2.
Proof.
  intros Hk Hcs. cbn [nest]. assert (foldr Z.max 0 (map nest cs) ≤ k).
  { induction Hcs as [|c cs Hc _ IH]; [done|]. cbn [map foldr]. lia. }
  case_decide; lia.
Qed.
Lemma entries_nest ders k : 2 ≤ k → Forall (λ c, nest c ≤ k) (certEntries ders).
Proof.
  intros Hk. induction ders as [|d ders IH]; [constructor|]. cbn [certEntries map]. constructor; [|done].
  by change (nest (certEntry d)) with 2.
Qed.

Section valid.
Context `{CaseTables}.

Lemma validate_parms_named ps :
  forallb (λ p, negb (bool_decide (p_Name p = ""))) ps = true → validate_parms false ps = Ok tt.
Proof.
  induction ps as [|p ps IH]; [done|]. cbn [forallb validate_parms]. intros [Hp Hps]%andb_true_iff.
  apply negb_true_iff, bool_decide_eq_false in Hp. rewrite decide_False by done. cbn [andb]. auto.
Qed.

Lemma validate_named c : named c = true → validateCharacteristic false c = Ok tt.
Proof.
  induction c as [t ps cs IH] using Characteristic_nested_ind. cbn [named].
  intros [[Ht Hps]%andb_true_iff Hcs]%andb_true_iff. apply negb_true_iff, bool_decide_eq_false in Ht.
  cbn [validateCharacteristic]. rewrite decide_False by done. cbn [andb].
  rewrite validate_parms_named by done. cbn [result_bind].
  induction IH as [|c cs Hc _ IHcs]; [done|]. cbn [forallb] in Hcs. apply andb_true_iff in Hcs as [Hn Hcs].
  rewrite Hc by done. cbn [result_bind]. auto.
Qed.

Definition upper_name (s : string) : Prop := s ≠ "" ∧ s = strings_ToUpper s.
Lemma validate_parms_upper ps : Forall (λ p, upper_name (p_Name p)) ps → validate_parms true ps = Ok tt.
Proof.
  induction 1 as [|p ps [Hn Hu] _ IH]; [done|]. cbn [validate_parms]. rewrite decide_False by done.
  rewrite bool_decide_true by done. done.
Qed.

Lemma application_valid cfg s c :
  validateCharacteristic true (mkChar TypeApplication (application_parms cfg)
    [auth_char "APPSRV" s; auth_char "CLIENT" c]) = Ok tt.
Proof.
  assert (Forall (λ p, upper_name (p_Name p)) (application_parms cfg)) as Hp.
  { unfold application_parms, parm_unless_empty, parm_positive, parm_flag.
    repeat (apply Forall_app; split); repeat case_decide; repeat case_match; repeat constructor; done. }
  assert (∀ l k, Forall (λ p, upper_name (p_Name p)) (ch_Parms (auth_char l k))) as Ha.
  { intros l k. unfold auth_char, parm_unless_empty. cbn [ch_Parms].
    repeat (apply Forall_app; split); repeat case_decide; repeat constructor; done. }
  assert (∀ l k, validateCharacteristic true (auth_char l k) = Ok tt) as Hv.
  { intros l k. specialize (Ha l k). unfold auth_char in *. cbn [ch_Parms] in Ha. cbn [validateCharacteristic].
    rewrite decide_False by done. rewrite bool_decide_true by done. cbn [negb andb].
    by rewrite validate_parms_upper. }
  cbn [validateCharacteristic]. rewrite decide_False by done. rewrite bool_decide_true by done. cbn [negb andb].
  rewrite validate_parms_upper by done. cbn [result_bind].
  specialize (Hv "APPSRV" s) as H1. specialize (Hv "CLIENT" c) as H2.
  cbn [validateCharacteristic] in H1, H2. rewrite H1. cbn [result_bind]. rewrite H2. done.
Qed.
End valid.

(** ** Provision *)

(** The configuration of the certificate store and of the application. *)
Definition store_config {W} (p : DefaultProvisioner W) (e : EEnrollment) (root : X509) : CertificateStoreConfig :=
  mkCertificateStoreConfig (map x_Raw [root]) (map x_Raw (removelast (en_Chain e)))
    (x_Raw (en_Certificate e)) (en_Store e) (Some (dp_Renew p)).
Definition app_config {W} (p : DefaultProvisioner W) (server client : Credential) : ApplicationConfig :=
  let cfg := dp_cfg p in
  fill_application (pc_Application cfg) (pc_ProviderID cfg) (pc_Name cfg) (pc_ManagementURL cfg) server client.

Definition trusted_char (roots : list string) : Characteristic :=
  mkChar TypeRootCATrustedCertificates [] [mkChar "Root" [] (certEntries roots)].

Definition provisioned {W} (p : DefaultProvisioner W) (e : EEnrollment) (root : X509)
    (server client : Credential) : Document :=
  mkDocument WapVersion (store_char (store_config p e root) ::
    (if pc_IncludeRootCATrusted (dp_cfg p) then [trusted_char [x_Raw root]] else []) ++
    [mkChar TypeApplication (application_parms (app_config p server client))
       [auth_char "APPSRV" server; auth_char "CLIENT" client];
     mkChar TypeDMClient [] [mkChar "Provider" [] [provider_char (client_config p e)]]]).

Lemma Provision_inv {W} (p : DefaultProvisioner W) e w w' r :
  Provision p e w = (w', FOk r) →
  ∃ root server client, last (en_Chain e) = Some root ∧
    dp_Credentials p e w = (w', FOk (server, client)) ∧ r = Some (provisioned p e root server client) ∧
    (length (removelast (en_Chain e)) ≤ 1)%nat ∧ (en_Store e = StoreUser ∨ en_Store e = StoreSystem) ∧
    pc_ProviderID (dp_cfg p) ≠ "" ∧ pc_ManagementURL (dp_cfg p) ≠ "" ∧
    cr_Secret server ≠ "" ∧ cr_Secret client ≠ "".
Proof.
  unfold Provision, splitChain. destruct (last (en_Chain e)) as [root|] eqn:Hl; [|by rewrite decide_True by done].
  rewrite decide_False by done.
  destruct (CertificateStore _) as [cs|] eqn:Ecs; [|done].
  apply CertificateStore_inv in Ecs as (-> & Hn & Hs). cbn [cs_Intermediates cs_Store] in Hn, Hs.
  rewrite length_map in Hn.
  destruct (dp_Credentials p e w) as [w1 [[server client]|]] eqn:Ecr; [|done].
  unfold provision_document. destruct (Application _) as [app|] eqn:Ea; [|done].
  apply Application_inv in Ea as (-> & Hp & Ha & Hss & Hsc & _). cbn [result_bind].
  destruct (DMClient _) as [dm|] eqn:Ed; [|done]. apply DMClient_inv in Ed as (-> & _). cbn [result_bind].
  intros E. exists root, server, client. unfold provisioned, store_config. cbn [map].
  destruct (pc_IncludeRootCATrusted (dp_cfg p)).
  - destruct (RootCATrustedCertificates [x_Raw root]) as [rc|] eqn:Er; [|done].
    unfold RootCATrustedCertificates in Er. rewrite decide_False in Er by done.
    destruct (existsb _ _); [done|]. injection Er as <-. cbn in E. by injection E as <- <-.
  - cbn in E. by injection E as <- <-.
Qed.

Lemma trusted_other root t : t ≠ TypeRootCATrustedCertificates → ∀ b : bool,
  Forall (λ c, ch_Type c ≠ t) (if b then [trusted_char [x_Raw root]] else []).
Proof. intros Ht [|]; repeat constructor. intros E. apply Ht. symmetry. exact E. Qed.

Section device.
Context `{CaseTables} `{NameTables} {W : Type} (p : DefaultProvisioner W).

Lemma provisioned_valid e root server client :
  pc_ProviderID (dp_cfg p) ≠ "" → en_Store e = StoreUser ∨ en_Store e = StoreSystem →
  WapValidate (Some (provisioned p e root server client)) = Ok tt.
Proof.
  intros Hp Hs. unfold WapValidate, provisioned. cbn [doc_Version doc_Characteristics].
  rewrite !decide_False by done. cbn [validate_all].
  rewrite (bool_decide_false (ch_Type (store_char _) = TypeApplication)) by done.
  assert (named (store_char (store_config p e root)) = true) as Hcs.
  { unfold store_char, store_config.
    cbn [cs_Intermediates cs_Roots cs_Client cs_Store cs_Renew named forallb]. rewrite forallb_app.
    assert (named (renew_char (dp_Renew p)) = true) as Hr.
    { unfold renew_char. cbn [named]. rewrite forallb_app. by case_decide. }
    case_decide; cbn [named forallb]; rewrite !forallb_app, !entries_named, Hr;
      destruct Hs as [->| ->]; reflexivity. }
  rewrite validate_named by done. cbn [result_bind].
  assert (named (mkChar TypeDMClient [] [mkChar "Provider" [] [provider_char (client_config p e)]]) = true) as Hdm.
  { unfold provider_char, client_config, poll_char.
    cbn [named forallb dm_ProviderID dm_UPN dm_EntDeviceName dm_EntDMID dm_Poll dm_PushPFN dm_Extra].
    rewrite (bool_decide_false (pc_ProviderID (dp_cfg p) = "")), !forallb_app by done.
    rewrite !unless_named, !true_named by done. by case_decide. }
  assert (validate_all [mkChar TypeApplication (application_parms (app_config p server client))
       [auth_char "APPSRV" server; auth_char "CLIENT" client];
     mkChar TypeDMClient [] [mkChar "Provider" [] [provider_char (client_config p e)]]] = Ok tt) as Hrest.
  { cbn [validate_all ch_Type]. rewrite bool_decide_true by done. rewrite application_valid. cbn [result_bind].
    rewrite bool_decide_false by done. by rewrite validate_named. }
  destruct (pc_IncludeRootCATrusted (dp_cfg p)); [|exact Hrest]. cbn [app validate_all].
  rewrite bool_decide_false by done. rewrite validate_named; [exact Hrest|].
  unfold trusted_char. cbn [named forallb]. by rewrite entries_named.
Qed.

Lemma provisioned_nest e root server client :
  Forall (λ c, nest c < 5000) (doc_Characteristics (provisioned p e root server client)).
Proof.
  assert (∀ t ps, nest (mkChar t ps []) ≤ 2) as H2 by (intros; by apply (nest_bound _ _ _ 0)).
  assert (∀ ders, nest (mkChar "System" [] (certEntries ders)) ≤ 4) as H4
    by (intros; apply (nest_bound _ _ _ 2); [done|by apply entries_nest]).
  eapply (Forall_impl (λ c, nest c ≤ 8)); [|intros; lia].
  unfold provisioned. cbn [doc_Characteristics]. constructor; [|apply Forall_app; split].
  - apply (nest_bound _ _ _ 6); [done|]. constructor; [apply (nest_bound _ _ _ 4); [done|auto]|].
    apply Forall_app. split; [case_decide; repeat constructor; apply (nest_bound _ _ _ 4); [done|auto]|].
    constructor; [|done]. apply (nest_bound _ _ _ 4); [done|].
    cbn [store_config cs_Store cs_Client cs_Renew].
    constructor; [apply (nest_bound _ _ _ 2); [done|]|constructor; [|done]].
    + apply Forall_app. split; [by apply entries_nest|auto].
    + apply (nest_bound _ _ _ 2); [done|]. constructor; [apply H2|done].
  - destruct (pc_IncludeRootCATrusted (dp_cfg p)); repeat constructor.
    apply (nest_bound _ _ _ 6); [done|]. constructor; [|done].
    apply (nest_bound _ _ _ 4); [done|]. by apply entries_nest.
  - constructor; [apply (nest_bound _ _ _ 6)|constructor; [apply (nest_bound _ _ _ 6)|done]]; [done| |done|].
    + repeat constructor; etrans; try apply H2; done.
    + constructor; [|done]. apply (nest_bound _ _ _ 4); [done|]. constructor; [|done].
      apply (nest_bound _ _ _ 2); [done|]. constructor; [apply H2|]. case_decide; auto.
Qed.

Lemma provisioned_applies (P : string → option X509) (key : X509 → option string)
    disc policy e w w' doc pub :
  Provision p e w = (w', FOk (Some doc)) → document_ok doc = true →
  Forall (parses P) (en_Certificate e :: en_Chain e) → key (en_Certificate e) = Some pub →
  renew_range (dp_Renew p) → poll_range (dp_Poll p) →
  ∃ bytes root server client,
    last (en_Chain e) = Some root ∧ dp_Credentials p e w = (w', FOk (server, client)) ∧
    WapEncode (Some doc) (mkWapOptions false false) = Ok bytes ∧
    client_apply P key disc policy pub bytes = Ok (mkDeviceEnrollment disc policy
      (mkCertificates (Some (en_Certificate e)) (en_Store e) [root] (removelast (en_Chain e)) (Some (dp_Renew p)))
      doc
      (mkAccount (pc_ProviderID (dp_cfg p)) (pc_Name (dp_cfg p)) (pc_ManagementURL (dp_cfg p)) server client
         (application_parms (app_config p server client)))
      (mkDMClientState (pc_PushPFN (dp_cfg p)) (pc_ProviderID (dp_cfg p))
         (dm_UPN (client_config p e)) (ac_DeviceName (rq_Context (en_Request e)))
         (dm_EntDMID (client_config p e)) (dp_Poll p))).
Proof.
  intros Hprov Hok HP Hkey Hr Hpoll.
  apply Provision_inv in Hprov as (root & server & client & Hl & Hc & [= ->] & Hn & Hs & Hp & Ha & Hss & Hsc).
  apply Forall_cons in HP as [HPc HPch].
  assert (parses P root ∧ Forall (parses P) (removelast (en_Chain e))) as [HPr HPi].
  { destruct (en_Chain e) as [|c ch] using rev_ind; [done|]. rewrite last_snoc in Hl. injection Hl as <-.
    rewrite removelast_last. apply Forall_app in HPch as [Hi Hl]. apply Forall_cons in Hl as [Hl _].
    exact (conj Hl Hi). }
  eexists _, root, server, client. split_and!; [done|done| |].
  { apply WapEncode_render, provisioned_valid; done. }
  unfold client_apply. rewrite WapDecode_render by (done || by apply provisioned_valid || apply provisioned_nest).
  set (rc := if pc_IncludeRootCATrusted (dp_cfg p) then [trusted_char [x_Raw root]] else []).
  assert (applyCertificates P key (provisioned p e root server client) pub = Ok
    (mkCertificates (Some (en_Certificate e)) (en_Store e) [root] (removelast (en_Chain e)) (Some (dp_Renew p))))
    as ->.
  { unfold applyCertificates, provisioned, Document_FindAll. cbn [doc_Characteristics]. fold rc.
    assert (List.filter (of_type TypeCertificateStore) (store_char (store_config p e root) :: rc ++
      [mkChar TypeApplication (application_parms (app_config p server client))
         [auth_char "APPSRV" server; auth_char "CLIENT" client];
       mkChar TypeDMClient [] [mkChar "Provider" [] [provider_char (client_config p e)]]]) =
      [store_char (store_config p e root)]) as ->.
    { unfold rc. by destruct (pc_IncludeRootCATrusted (dp_cfg p)). }
    cbn [apply_stores]. unfold store_config. by rewrite apply_store_char by auto. }
  cbn [result_bind]. unfold provisioned at 1. fold rc.
  rewrite (apply_account_doc _ _ _ _ _ (app_config p server client));
    [|done|by apply trusted_other|done..].
  cbn [result_bind acc_ProviderID]. unfold provisioned at 1. fold rc.
  change (app_ProviderID (app_config p server client)) with (dm_ProviderID (client_config p e)).
  by rewrite (apply_client_doc _ _ _ _ _ (client_config p e)); [|done|by apply trusted_other|done..].
Qed.

(** C16: What the default provisioner puts into a document, the client takes out
    of it.  When Provision succeeds for an enrollment whose certificate and
    chain the client's parser reads back, the client holding the certificate's
    key, with the texts of the document made of XML characters (a character
    that XML cannot hold is replaced in writing) and the renewal and poll
    settings within 64 bits, then the document is valid, is written and read
    back whole, and applying it leaves the device with the issued certificate
    in the right store, the root and the intermediates, the renewal settings,
    the two account credentials with provider and address, and the poll
    schedule. *)
Theorem device_provisioned (P : string → option X509) (key : X509 → option string)
    disc policy e w w' doc pub :
  Provision p e w = (w', FOk (Some doc)) → document_ok doc = true →
  Forall (parses P) (en_Certificate e :: en_Chain e) → key (en_Certificate e) = Some pub →
  renew_range (dp_Renew p) → poll_range (dp_Poll p) →
  ∃ bytes root server client,
    last (en_Chain e) = Some root ∧ dp_Credentials p e w = (w', FOk (server, client)) ∧
    WapEncode (Some doc) (mkWapOptions false false) = Ok bytes ∧
    client_apply P key disc policy pub bytes = Ok (mkDeviceEnrollment disc policy
      (mkCertificates (Some (en_Certificate e)) (en_Store e) [root] (removelast (en_Chain e)) (Some (dp_Renew p)))
      doc
      (mkAccount (pc_ProviderID (dp_cfg p)) (pc_Name (dp_cfg p)) (pc_ManagementURL (dp_cfg p)) server client
         (application_parms (app_config p server client)))
      (mkDMClientState (pc_PushPFN (dp_cfg p)) (pc_ProviderID (dp_cfg p))
         (dm_UPN (client_config p e)) (ac_DeviceName (rq_Context (en_Request e)))
         (dm_EntDMID (client_config p e)) (dp_Poll p))).
Proof. apply provisioned_applies. Qed.
End device.

(** ** An enrollment *)

Definition ex_cert (raw : string) (serial : Z) : X509 :=
  mkX509 (mkCert raw (Some serial)) "CN=device" 1 2.
Definition ex_context : AdditionalContext :=
  ParseAdditionalContext [mkContextItem "DeviceID" "dev-1"; mkContextItem "EnrollmentType" "Full";
    mkContextItem "DeviceName" "DESKTOP-1"].
Definition ex_enrollment : EEnrollment :=
  mkEEnrollment (mkERequest "csr" ex_context (mkPrincipal "user@example.org" ∅) SoapHeader0)
    (ex_cert "leaf" 7) [ex_cert "ca" 2; ex_cert "root" 1] StoreUser 1000 "trace".
Definition ex_server : Credential := mkCredential WAuthDigest "dev-1" "secret <1>" "nonce".
Definition ex_client : Credential := mkCredential WAuthDigest "" "secret2" "".
Definition ex_provisioner : DefaultProvisioner unit :=
  mkDefaultProvisioner
    (mkProvisionConfig "https://mdm.example.org/manage" "Example" "Example MDM" None None None ""
      (mkApplicationConfig "" "" "" 3 0 0 true EncodingXML "1.2" false "" ex_client ex_client) true None)
    (λ _ w, (w, FOk (ex_server, ex_client))) DefaultRenew DefaultPoll.
Definition ex_parse (der : string) : option X509 :=
  if decide (der = "leaf") then Some (ex_cert "leaf" 7)
  else if decide (der = "ca") then Some (ex_cert "ca" 2)
  else if decide (der = "root") then Some (ex_cert "root" 1) else None.
Definition ex_document : Document :=
  match Provision ex_provisioner ex_enrollment () with (_, FOk (Some d)) => d | _ => mkDocument "" [] end.

Lemma device_provisioned_witness :
  Provision ex_provisioner ex_enrollment () = ((), FOk (Some ex_document)) ∧
  ∃ bytes root server client,
    last (en_Chain ex_enrollment) = Some root ∧
    dp_Credentials ex_provisioner ex_enrollment () = ((), FOk (server, client)) ∧
    WapEncode (H := ascii_case) (Some ex_document) (mkWapOptions false false) = Ok bytes ∧
    is_ok (client_apply (H0 := ascii_case) (H := ascii_names) ex_parse (λ _, Some "pub")
      (mkDiscoverResponse "" "" "" "" "" "" "") None "pub" bytes) = true.
Proof.
  assert (Provision ex_provisioner ex_enrollment () = ((), FOk (Some ex_document))) as E
    by (vm_compute; reflexivity).
  split; [exact E|].
  destruct (device_provisioned (H := ascii_case) (H0 := ascii_names) ex_provisioner ex_parse (λ _, Some "pub")
    (mkDiscoverResponse "" "" "" "" "" "" "") None ex_enrollment () () ex_document "pub" E)
    as (bytes & root & server & client & H1 & H2 & H3 & H4).
  - vm_compute. reflexivity.
  - repeat constructor.
  - reflexivity.
  - split; vm_compute; split; discriminate.
  - split; vm_compute; split; discriminate.
  - exists bytes, root, server, client. split; [exact H1|]. split; [exact H2|]. split; [exact H3|].
    rewrite H4. reflexivity.
Defined.
