(* ===== verification/EnrollTheorems.v ===== *)
(** * The enrollment protocol: theorems

    Round trips of the messages, what every operation of the service answers,
    the order in which it calls its hooks, and the exchanges of a client with
    the service: discovery negotiates a version, and a token request that the
    hooks accept brings the provisioning document to the client. *)
From stdpp Require Import base gmap strings list.
From Stdlib Require Import ZArith Lia Ascii ZifyBool.
From S2P Require Import Prelude GoStrings GoTime SyncmlModel SyncmlAuth Encode Utf8 GoXml XmlLex XmlDoc.
From S2P Require Import WapProv WapBuild WapTheorems Soap SoapProofs EnrollTypes EnrollMsg EnrollProofs EnrollService.
From S2P Require Import DecodeProofs DecodeSound EnrollPolicy EnrollDevice.

Local Open Scope Z_scope.

(** ** Every reply is complete *)

Lemma doc_bracketed x : ∃ t, doc_render x = "<" +:+ t +:+ ">".
Proof.
  destruct x as [n a v|n a|n a xs]; cbn [doc_render].
  - exists (n +:+ render_attrs a +:+ ">" +:+ EscapeText v +:+ "</" +:+ n). by rewrite <- !str_app_assoc.
  - exists (n +:+ render_attrs a +:+ "/"). by rewrite <- !str_app_assoc.
  - exists (n +:+ render_attrs a +:+ ">" +:+ str_concat (map doc_render xs) +:+ "</" +:+ n).
    by rewrite <- !str_app_assoc.
Qed.

(** An envelope with a body element is always written. *)
Lemma SoapEncode_total r x :
  rsp_Action r ≠ "" → rsp_RelatesTo r ≠ "" → rsp_Body r = str_concat (map doc_render [x]) →
  ∃ out, SoapEncode r = Ok out.
Proof.
  intros Ha Hr Hb. destruct (doc_bracketed x) as [t Ht]. cbn [map str_concat] in Hb.
  rewrite str_app_nil_r, Ht in Hb. unfold SoapEncode. do 2 (case_decide; [done|]).
  rewrite (bracketed_body _ _ Hb). by eexists.
Qed.

Lemma relatesTo_nonempty h : relatesTo h ≠ "".
Proof. unfold relatesTo. destruct h as [h|]; [|done]. by case_decide. Qed.

Lemma EncodeFault_total f action h :
  Subcode_Valid (f_Subcode f) = true → f_Detail f = "" ∨ ErrorType_Valid (f_Detail f) = true →
  action ≠ "" → ∃ out, EncodeFault f action (relatesTo h) = Ok out.
Proof.
  intros Hs Hd Ha. unfold EncodeFault. rewrite Hs. cbn [negb].
  assert (negb (bool_decide (f_Detail f = "")) && negb (ErrorType_Valid (f_Detail f)) = false) as ->.
  { destruct Hd as [-> | ->]; [done|]. by rewrite andb_false_r. }
  apply (SoapEncode_total _ (fault_doc f)); [done|apply relatesTo_nonempty|apply fault_body_doc].
Qed.

(** What a reply must be, for the action and the message it answers. *)
Definition complete_reply (action : string) (h : option SoapHeader) (trace : string) (r : Reply) : Prop :=
  match snd r with
  | Some f =>
      EncodeFault f action (relatesTo h) = Ok (fst r) ∧ (trace ≠ "" → f_TraceID f ≠ "")
  | None =>
      ∃ act ts schema x,
        SoapEncode (mkResponse action (relatesTo h) act ts schema (doc_render x)) = Ok (fst r)
  end.

Lemma service_fault_complete err action h trace :
  action ≠ "" → complete_reply action h trace (service_fault err action h trace).
Proof.
  intros Ha. unfold service_fault, complete_reply.
  destruct (EncodeFault (traced trace (AsFault err)) action (relatesTo h)) as [out|e] eqn:E; cbn [fst snd].
  - split; [done|]. unfold traced. by case_decide.
  - set (f := mkFault _ _ _ _ _). destruct (EncodeFault_total f action h) as [out ->]; [done|by left|done|].
    done.
Qed.

Lemma rendered_complete r action h trace :
  action ≠ "" →
  (∀ out, r = FOk out → complete_reply action h trace (out, None)) →
  complete_reply action h trace (rendered r action h trace).
Proof. intros Ha Hr. destruct r as [out|e]; [by apply Hr|by apply service_fault_complete]. Qed.

Lemma discover_response_env r rel act out :
  EncodeDiscoverResponse r rel act = Ok out →
  SoapEncode (mkResponse ActionDiscoverResponse rel act None true (doc_render (discover_response_doc r))) = Ok out.
Proof.
  unfold EncodeDiscoverResponse. destruct (AuthPolicy_Valid _); [|done]. cbn [negb]. case_decide; [done|].
  intros <-. do 2 f_equal. unfold discover_response_doc. writer_doc.
Qed.
Lemma token_env doc rel ts out :
  EncodeTokenResponse doc rel ts = Ok out →
  SoapEncode (mkResponse ActionRSTRC rel "" ts false (doc_render (token_doc doc))) = Ok out.
Proof.
  unfold EncodeTokenResponse. destruct (len (TrimSpace doc) =? 0); [done|]. intros <-. do 2 f_equal.
  unfold token_body, token_doc. writer_doc.
Qed.
Lemma policy_env p rel out :
  EncodePolicyResponse (Some p) rel = Ok out →
  SoapEncode (mkResponse ActionGetPoliciesResponse rel "" None true (doc_render (policy_doc p))) = Ok out.
Proof.
  unfold EncodePolicyResponse. destruct (PolicyResponse_Validate (Some p)); [|done]. cbn [result_bind].
  rewrite policy_body_doc. cbn [map str_concat]. by rewrite str_app_nil_r.
Qed.

(** Steps that succeed end in an encoder of a reply. *)
Definition ends_in {W} (P : string → Prop) (m : E W string) : Prop :=
  ∀ st st' out, m st = (st', FOk out) → P out.
Lemma ends_ret {W} (P : string → Prop) r : (∀ out, r = FOk out → P out) → ends_in (W := W) P (eret r).
Proof. intros H st st' out [= _ ->]. by apply H. Qed.
Lemma ends_bind {W A} (P : string → Prop) (m : E W A) k :
  (∀ a, ends_in P (k a)) → ends_in P (ebind m k).
Proof.
  intros H st st' out. unfold ebind. destruct (m st) as [st1 [a|e]]; [|done]. apply H.
Qed.
Lemma run_complete {W} (m : E W string) action h trace st :
  action ≠ "" → ends_in (λ out, complete_reply action (Some h) trace (out, None)) m →
  complete_reply action (Some h) trace (run_steps m action h trace st).2.
Proof.
  intros Ha Hm. unfold run_steps. destruct (m st) as [st' r] eqn:E. cbn [snd].
  apply rendered_complete; [done|]. intros out ->. by eapply Hm.
Qed.

Lemma of_result_ok {A} (r : result A) a : of_result r = FOk a → r = Ok a.
Proof. destruct r; naive_solver. Qed.

(** The header of a request, when it could be read. *)
Definition head_of {A} (r : request A) : option SoapHeader :=
  match r with Headed h _ => Some h | Unread _ => None end.

Section replies.
Context `{PrintTables} `{CaseTables} `{NameTables} {W : Type} (s : EService W).

Lemma discover_complete trace body :
  complete_reply ActionDiscoverResponse (head_of (DecodeDiscover body (sv_MaxRequestSize s))) trace
    (Discover s trace body).
Proof.
  unfold Discover. destruct (DecodeDiscover body (sv_MaxRequestSize s)) as [e|h [req|e]];
  cbn [head_of]; try by apply service_fault_complete.
  apply rendered_complete; [done|]. intros out E. unfold discover_steps in E.
  destruct (_ && _); [done|]. case_decide; [done|]. destruct (ParseVersion _); [|done].
  destruct (negb _); [done|]. apply of_result_ok, discover_response_env in E. by repeat eexists.
Qed.

Lemma policies_complete trace body st :
  complete_reply ActionGetPoliciesResponse (head_of (DecodeGetPolicies body (sv_MaxRequestSize s))) trace
    (GetPolicies s trace body st).2.
Proof.
  unfold GetPolicies. destruct (DecodeGetPolicies body (sv_MaxRequestSize s)) as [e|h [req|e]];
  cbn [head_of]; try by apply service_fault_complete.
  apply run_complete; [done|]. unfold policies_steps. case_decide; [by apply ends_ret|].
  destruct (_ && _); [by apply ends_ret|]. apply ends_bind. intros p. apply ends_ret.
  intros out E%of_result_ok%policy_env. by repeat eexists.
Qed.

Lemma provision_ends h e now P :
  (∀ doc ts out, EncodeTokenResponse doc (relatesTo (Some h)) ts = Ok out → P out) →
  ends_in P (provision_steps s h e now).
Proof.
  intros HP. unfold provision_steps. repeat (apply ends_bind; intros ?).
  apply ends_ret. intros out E%of_result_ok. by eapply HP.
Qed.

Lemma enroll_complete trace now body st :
  complete_reply ActionRSTRC (head_of (DecodeRequestSecurityToken body (sv_MaxRequestSize s))) trace
    (Enroll s trace now body st).2.
Proof.
  unfold Enroll. destruct (DecodeRequestSecurityToken body (sv_MaxRequestSize s)) as [e|h [req|e]];
  cbn [head_of]; try by apply service_fault_complete.
  apply run_complete; [done|]. unfold enroll_steps.
  destruct (_ && _); [by apply ends_ret|]. do 3 (apply ends_bind; intros ?).
  destruct a1 as [[[cert|] chain]|]; [|by apply ends_ret..].
  apply provision_ends. intros doc ts out E%token_env. by repeat eexists.
Qed.

(** C13: Every request is answered with a complete SOAP envelope, whatever the bytes
    and whatever the hooks return: an error becomes a fault envelope of the
    operation's action, with one of the protocol's subcodes and error types
    and with a trace id (even a fault of a hook that cannot be encoded is
    replaced by one that can), success a reply of that action; either is
    related to the request's message id. *)
Theorem replies_complete trace now body st :
  let max := sv_MaxRequestSize s in
  complete_reply ActionDiscoverResponse (head_of (DecodeDiscover body max)) trace (Discover s trace body) ∧
  complete_reply ActionGetPoliciesResponse (head_of (DecodeGetPolicies body max)) trace
    (GetPolicies s trace body st).2 ∧
  complete_reply ActionRSTRC (head_of (DecodeRequestSecurityToken body max)) trace
    (Enroll s trace now body st).2.
Proof. split_and!; [apply discover_complete|apply policies_complete|apply enroll_complete]. Qed.
End replies.

(** ** The order of the hooks *)

(** A token request that may be issued: what the issuer is asked for. *)
Definition requested (rst : RequestSecurityToken) (p : Principal) (h : SoapHeader) (req : ERequest) : Prop :=
  rst_TokenType rst = TokenTypeDeviceEnrollment ∧ rst_RequestType rst = RequestTypeIssue ∧
  bst_ValueType (rst_Token rst) = ValueTypePKCS10 ∧
  BST_Bytes (Some (rst_Token rst)) = Ok (rq_CSR req) ∧ rq_CSR req ≠ "" ∧
  ac_DeviceID (rst_Context rst) ≠ "" ∧ EnrollmentType_Valid (ac_EnrollmentType (rst_Context rst)) = true ∧
  (ac_RequestVersion (rst_Context rst) = "" ∨ ∃ n, ParseVersion (ac_RequestVersion (rst_Context rst)) = Ok n) ∧
  req = mkERequest (rq_CSR req) (rst_Context rst) p h.

Lemma checkToken_requested `{PrintTables} rst p h trace req :
  checkToken rst p h trace = FOk req ↔ requested rst p h req.
Proof.
  unfold checkToken, requested. split.
  - destruct (bool_decide_reflect (rst_TokenType rst = TokenTypeDeviceEnrollment)); [|done]. cbn [negb].
    case_decide; [done|].
    destruct (bool_decide_reflect (rst_RequestType rst = RequestTypeIssue)); [|done]. cbn [negb].
    do 2 (case_decide; [done|]).
    destruct (bool_decide_reflect (bst_ValueType (rst_Token rst) = ValueTypePKCS10)); [|done]. cbn [negb].
    destruct (BST_Bytes (Some (rst_Token rst))) as [csr|]; [|done].
    destruct (Z.eqb_spec (len csr) 0) as [|Hl]; [done|]. case_decide; [done|].
    destruct (EnrollmentType_Valid (ac_EnrollmentType (rst_Context rst))); [|done]. cbn [negb].
    destruct (decide (ac_RequestVersion (rst_Context rst) = "")).
    + intros [= <-]. cbn [rq_CSR]. split_and!; try done; [|by left]. by intros ->.
    + destruct (ParseVersion _) as [nv|] eqn:E; [|done]. intros [= <-]. cbn [rq_CSR].
      split_and!; try done; [|by right; exists nv]. by intros ->.
  - intros (H1 & H2 & H3 & H4 & H5 & H6 & H7 & H8 & H9). rewrite H1, H2, H3, H4, H7.
    cbn [negb]. rewrite !bool_decide_true by done. cbn [negb].
    destruct (Z.eqb_spec (len (rq_CSR req)) 0) as [E|_]; [by destruct (rq_CSR req)|].
    rewrite !decide_False by done.
    destruct H8 as [-> |[n E]]; [by rewrite decide_True, <- H9|].
    case_decide; [|rewrite E]; by rewrite <- H9.
Qed.

(** How far an enrollment got. *)
Inductive phase : Type :=
  | Received
  | Authenticated (p : Principal)
  | Certified (e : EEnrollment)
  | Provisioned (e : EEnrollment) (doc : option Document)
  | Recorded (e : EEnrollment) (doc : option Document)
  | Failed.

Section protocol.
Context `{PrintTables} `{CaseTables} {W : Type} (s : EService W).
Context (h : SoapHeader) (rst : RequestSecurityToken) (trace : string) (now : Time).

(** Who may be called after which outcome, and with what. *)
Inductive hook_step : phase → event → phase → Prop :=
  | step_authenticated c p :
      header_credentials h = FOk c → hook_step Received (EvAuthenticate c (FOk p)) (Authenticated p)
  | step_issued p req cert chain :
      requested rst p h req →
      hook_step (Authenticated p) (EvIssue req (FOk (Some (mkIssuedCert (Some cert) chain))))
        (Certified (mkEEnrollment req cert chain (store_of (rq_Context req)) now trace))
  | step_provisioned e doc : hook_step (Certified e) (EvProvision e (FOk doc)) (Provisioned e doc)
  | step_recorded e doc :
      is_Some (hk_Record (sv_Hooks s)) →
      hook_step (Provisioned e doc) (EvRecord e doc (FOk tt)) (Recorded e doc)
  | step_refused c err :
      header_credentials h = FOk c → hook_step Received (EvAuthenticate c (FErr err)) Failed
  | step_not_issued p req r :
      requested rst p h req → (∀ cert chain, r ≠ FOk (Some (mkIssuedCert (Some cert) chain))) →
      hook_step (Authenticated p) (EvIssue req r) Failed
  | step_not_provisioned e err : hook_step (Certified e) (EvProvision e (FErr err)) Failed
  | step_not_recorded e doc err : hook_step (Provisioned e doc) (EvRecord e doc (FErr err)) Failed.

Inductive hook_steps : phase → list event → phase → Prop :=
  | steps_nil ph : hook_steps ph [] ph
  | steps_cons ph ev ph' evs ph'' :
      hook_step ph ev ph' → hook_steps ph' evs ph'' → hook_steps ph (ev :: evs) ph''.

Lemma hook_steps_app ph evs ph' evs' ph'' :
  hook_steps ph evs ph' → hook_steps ph' evs' ph'' → hook_steps ph (evs ++ evs') ph''.
Proof. induction 1; [done|]. intros. econstructor; eauto. Qed.

(** A program of the service from a phase on: its calls are steps of the
    protocol, and its result fits the phase it ends in. *)
Definition follows {A} (ph : phase) (m : E W A) (Q : A → phase → Prop) : Prop :=
  ∀ w log, ∃ evs ph', (m (w, log)).1.2 = log ++ evs ∧ hook_steps ph evs ph' ∧
    (∀ a, (m (w, log)).2 = FOk a → Q a ph').

Lemma follows_ret {A} ph (r : fresult A) (Q : A → phase → Prop) :
  (∀ a, r = FOk a → Q a ph) → follows ph (eret r) Q.
Proof. intros HQ w log. exists [], ph. rewrite app_nil_r. split_and!; [done|constructor|done]. Qed.

Lemma follows_bind {A B} ph (m : E W A) (k : A → E W B) Q R :
  follows ph m Q → (∀ a ph', Q a ph' → follows ph' (k a) R) → follows ph (ebind m k) R.
Proof.
  intros Hm Hk w log. destruct (Hm w log) as (evs & ph' & E & Hs & HQ). unfold ebind.
  destruct (m (w, log)) as [[w' log'] [a|e]]; cbn [fst snd] in *; subst log'.
  - destruct (Hk a ph' (HQ a eq_refl) w' (log ++ evs)) as (evs' & ph'' & E' & Hs' & HR).
    exists (evs ++ evs'), ph''. rewrite E', app_assoc. split_and!; [done|by eapply hook_steps_app|done].
  - by exists evs, ph'.
Qed.

Lemma follows_map {A} ph (m : E W A) f Q : follows ph m Q → follows ph (emap_err f m) Q.
Proof.
  intros Hm w log. destruct (Hm w log) as (evs & ph' & E & Hs & HQ). exists evs, ph'. unfold emap_err.
  destruct (m (w, log)) as [[w' log'] [a|e]]; naive_solver.
Qed.

Lemma follows_call {A} ph hook (ev : fresult A → event) (Q : A → phase → Prop) :
  (∀ r, ∃ ph', hook_step ph (ev r) ph' ∧ ∀ a, r = FOk a → Q a ph') → follows ph (call hook ev) Q.
Proof.
  intros Hs w log. unfold call. cbn [fst snd]. destruct (hook w) as [w' r] eqn:E. cbn [fst snd].
  destruct (Hs r) as (ph' & H1 & H2). exists [ev r], ph'. split_and!; [done| |done].
  econstructor; [done|constructor].
Qed.

(** The reply of a success: the document the provisioner returned, after the
    recorder, when there is one, took it. *)
Definition delivered (out : string) (ph : phase) : Prop :=
  ∃ e doc bytes,
    ph = (if hk_Record (sv_Hooks s) then Recorded e doc else Provisioned e doc) ∧
    WapEncode doc (mkWapOptions false false) = Ok bytes ∧
    EncodeTokenResponse bytes (relatesTo (Some h)) (Some (mkTimestampRange now (time_Add now (5 * Minute))))
      = Ok out.

Lemma provision_follows e : follows (Certified e) (provision_steps s h e now) delivered.
Proof.
  unfold provision_steps. eapply (follows_bind _ _ _ (λ doc ph, ph = Provisioned e doc)).
  { apply follows_map, follows_call. intros [doc|err]; eexists; split; [constructor| |constructor|done].
    by intros a [= ->]. }
  intros doc ? ->.
  eapply (follows_bind _ _ _ (λ bytes ph, ph = Provisioned e doc ∧
    WapEncode doc (mkWapOptions false false) = Ok bytes)).
  { apply follows_ret. intros bytes. destruct (WapEncode _ _); naive_solver. }
  intros bytes ? [-> Hb].
  eapply (follows_bind _ _ _ (λ _ ph, ph = (if hk_Record (sv_Hooks s) then Recorded e doc else Provisioned e doc))).
  { destruct (hk_Record (sv_Hooks s)) as [record|] eqn:Er; [|by apply follows_ret].
    apply follows_map, follows_call.
    intros [[]|err]; eexists; split; [by constructor; rewrite Er|done|constructor|done]. }
  intros [] ? ->. apply follows_ret. intros out E%of_result_ok. by exists e, doc, bytes.
Qed.

Lemma enroll_follows : follows Received (enroll_steps s h rst trace now) delivered.
Proof.
  unfold enroll_steps. destruct (_ && _); [by apply follows_ret|].
  eapply (follows_bind _ _ _ (λ p ph, ph = Authenticated p)).
  { unfold service_authenticate. eapply (follows_bind _ _ _ (λ c ph, ph = Received ∧ header_credentials h = FOk c)).
    { by apply follows_ret. }
    intros c ? [-> Hc]. apply follows_map, follows_call.
    intros [p|err]; eexists; split; [by constructor| |by constructor|done]. by intros a [= ->]. }
  intros p ? ->. eapply (follows_bind _ _ _ (λ req ph, ph = Authenticated p ∧ requested rst p h req)).
  { apply follows_ret. intros req E%checkToken_requested. done. }
  intros req ? [-> Hreq].
  eapply (follows_bind _ _ _ (λ r ph, ∀ cert chain, r = Some (mkIssuedCert (Some cert) chain) →
    ph = Certified (mkEEnrollment req cert chain (store_of (rq_Context req)) now trace))).
  { apply follows_map, follows_call. intros r.
    destruct r as [[[[cert|] chain]|]|err]; eexists; (split; [first [by constructor|by apply step_not_issued]|]);
    naive_solver. }
  intros [[[cert|] chain]|] ph' Hph; [|by apply follows_ret..].
  rewrite (Hph _ _ eq_refl). apply provision_follows.
Qed.
End protocol.

Section sessions.
Context `{PrintTables} `{CaseTables} `{NameTables} {W : Type} (s : EService W).

(** C6: A token request makes the service call its hooks in the order of the
    protocol and no other: the authenticator with the credentials of the
    header, the issuer only for the principal it returned and a token request
    that passed every check, the provisioner only with the certificate the
    issuer returned, the recorder only with the document the provisioner
    returned; and the service reports success only when the last of them
    succeeded, with that document, encoded, in the reply.  A request that
    cannot be read calls no hook and is answered with a fault. *)
Theorem enroll_protocol trace now body w log :
  let '((_, log'), (out, fault)) := Enroll s trace now body (w, log) in
  match DecodeRequestSecurityToken body (sv_MaxRequestSize s) with
  | Headed h (Ok rst) =>
      ∃ evs ph, log' = log ++ evs ∧ hook_steps s h rst trace now Received evs ph ∧
        (fault = None → delivered s h now out ph)
  | _ => log' = log ∧ fault ≠ None
  end.
Proof.
  unfold Enroll. destruct (DecodeRequestSecurityToken body (sv_MaxRequestSize s)) as [e|h [rst|e]].
  1,3: by unfold service_fault; destruct (EncodeFault (traced _ _) _ _).
  unfold run_steps. destruct (enroll_follows s h rst trace now w log) as (evs & ph & E & Hs & HQ).
  destruct (enroll_steps s h rst trace now (w, log)) as [[w' log'] [out|e]]; cbn [fst snd rendered] in *.
  - exists evs, ph. split_and!; [done|done|]. intros _. by apply HQ.
  - unfold service_fault. destruct (EncodeFault (traced _ _) _ _); exists evs, ph; done.
Qed.
End sessions.

(** ** What New accepts *)

Record service_ok {W} (s : EService W) : Prop := mk_service_ok {
  ok_policy : sv_AuthPolicy s = AuthPolicyOnPremise;
  ok_url : sv_EnrollmentServiceURL s ≠ "";
  ok_version : ∃ n, ParseVersion (sv_EnrollmentVersion s) = Ok n ∧ MinEnrollmentVersion ≤ n;
  ok_certificate : PolicyResponse_Validate (Some (sv_Policy s)) = Ok tt;
  ok_size : 0 < sv_MaxRequestSize s }.

Lemma ENew_ok `{UrlParser} {W} (cfg : EConfig W) s : ENew cfg = Ok s → service_ok s.
Proof.
  unfold ENew. case_decide as Hu; [done|]. destruct (checkURL _); [|done]. cbn [result_bind].
  destruct (decide (ec_EnrollmentPolicyServiceURL cfg = "")); [|destruct (checkURL _); [|done]];
  cbn [result_bind]; set (v := if decide (ec_EnrollmentVersion cfg = "") then _ else _);
  (destruct (ParseVersion v) as [nv|] eqn:Ev; [|done]; destruct (Z.ltb_spec nv MinEnrollmentVersion); [done|];
   set (pol := if decide (ec_AuthPolicy cfg = "") then _ else _);
   destruct (decide (pol ≠ AuthPolicyOnPremise)) as [|Hp]; [done|]; destruct (ec_Hooks cfg) as [hooks|]; [|done];
   destruct (PolicyResponse_Validate _) as [[]|] eqn:Epol; [|done]; intros [= <-];
   constructor; cbn [sv_AuthPolicy sv_EnrollmentServiceURL sv_EnrollmentVersion sv_Policy sv_MaxRequestSize];
   [by apply dec_stable|done|by exists nv|done|];
   destruct (Z.leb_spec (ec_MaxRequestSize cfg) 0); [done|lia]).
Qed.

(** ** Discovery *)

Section discovery.
Context `{NameTables}.

Lemma discover_reply r rel act out :
  EncodeDiscoverResponse r rel act = Ok out →
  response_chars (mkResponse ActionDiscoverResponse rel act None true "") && doc_ok (discover_response_doc r) = true →
  len out ≤ SoapMaxSize →
  DecodeDiscoverResponse out = (Some (mkSoapHeader ActionDiscoverResponse "" None "" None), ROk (trim_response r)).
Proof.
  intros E [Hc Hd]%andb_true_iff Hl. apply EncodeDiscoverResponse_doc in E as (-> & _ & _).
  unfold DecodeDiscoverResponse. set (rsp := mkResponse _ _ _ _ _ _) in *.
  assert (tag_match (Tag "Fault") (doc_name (reply_ns rsp) (discover_response_doc r)) = false ∧
    tag_match tag_DiscoverResponse (doc_name (reply_ns rsp) (discover_response_doc r)) = true) as [Hf Ht]
    by (unfold discover_response_doc, tag_DiscoverResponse, rsp, reply_ns;
        cbn [rsp_Timestamp rsp_SchemaAttributes]; split; doc_names; done).
  rewrite reply_with_doc; [| |done|done|by apply body_ptr_doc].
  - change (reply_ns rsp) with (body_ns true). by rewrite discover_response_reads.
  - apply env_doc_ok; [done|]. cbn [forallb]. by rewrite Hd.
Qed.
End discovery.

Lemma xml_chars_trim t : xml_chars t = true → xml_chars (TrimSpace t) = true.
Proof. intros E%trimmed_trim. unfold trimmed in E. by btrue. Qed.
Lemma relatesTo_chars h : xml_chars (sh_MessageID h) = true → xml_chars (relatesTo (Some h)) = true.
Proof. intros E. unfold relatesTo. by case_decide. Qed.

(** What the service announces to a client of version [v]. *)
Definition announced {W} (s : EService W) (v : Z) : DiscoverResponse :=
  let n := match ParseVersion (sv_EnrollmentVersion s) with Ok n => n | Err _ => 0 end in
  mkDiscoverResponse (sv_AuthPolicy s) (if MinEnrollmentVersion <=? v then FormatVersion (Z.min n v) else "")
    (sv_EnrollmentPolicyServiceURL s) (sv_EnrollmentServiceURL s) "" "" "".

(** An offer the service accepts. *)
Definition offer_ok (q : DiscoverRequest) (v : Z) : Prop :=
  TrimSpace (dq_EmailAddress q) ≠ "" ∧ ParseVersion (TrimSpace (dq_RequestVersion q)) = Ok v ∧
  AuthPolicyOnPremise ∈ map TrimSpace (dq_AuthPolicies q).

Section discover.
Context `{NameTables} {W : Type} (s : EService W).

Lemma discover_served q v mid to body trace :
  service_ok s → EncodeDiscover q mid to = Ok body →
  xml_chars mid && xml_chars to && discover_chars q = true → len body ≤ sv_MaxRequestSize s →
  offer_ok q v →
  ∃ out, Discover s trace body = (out, None) ∧
    EncodeDiscoverResponse (announced s v)
      (relatesTo (Some (request_header ActionDiscover mid to None))) trace = Ok out.
Proof.
  intros Hs He [Hmt Hq]%andb_true_iff Hl (Hm & Hv & Hp). apply EncodeDiscover_doc in He as ->.
  unfold Discover, DecodeDiscover. rewrite decoded_with_req.
  - set (h := request_header _ _ _ _).
    assert (∃ out, EncodeDiscoverResponse (announced s v) (relatesTo (Some h)) trace = Ok out) as [out E].
    { unfold EncodeDiscoverResponse, announced. cbn [dr_AuthPolicy dr_EnrollmentServiceURL].
      rewrite (ok_policy s Hs), decide_False by apply (ok_url s Hs). cbn [negb].
      eapply (SoapEncode_total _ (discover_response_doc (announced s v)));
        [done|apply relatesTo_nonempty|].
      cbn [rsp_Body]. unfold discover_response_doc, announced.
      cbn [dr_AuthPolicy dr_EnrollmentVersion dr_EnrollmentPolicyServiceURL dr_EnrollmentServiceURL
        dr_AuthenticationServiceURL dr_DeviceAssociationMaaURL dr_GatewayService].
      rewrite (ok_policy s Hs). writer_doc. }
    exists out. split; [|exact E]. unfold rendered, discover_steps. rewrite discover_request_doc.
    assert (sh_Action h = ActionDiscover) as -> by (by apply TrimSpace_id).
    change (_ && _) with false. cbn iota. 
    change (dq_RequestVersion (trim_discover q)) with (TrimSpace (dq_RequestVersion q)).
    rewrite decide_False by done. rewrite Hv.
    assert (Supports (sv_AuthPolicy s) (trim_discover q) = true) as ->.
    { unfold Supports, trim_discover. cbn [dq_AuthPolicies]. apply existsb_exists. exists AuthPolicyOnPremise.
      rewrite (ok_policy s Hs). split; [by apply list_elem_of_In|done]. }
    cbn [negb]. fold (announced s v). by rewrite E.
  - apply req_doc_ok; [done|by rewrite Hmt|]. cbn [forallb]. by rewrite discover_doc_ok.
  - pose proof (ok_size s Hs). destruct (Z.leb_spec (sv_MaxRequestSize s) 0); lia.
  - unfold discover_doc, tag_Discover. doc_names. done.
Qed.
(** The characters of what the service announces. *)
Definition service_chars (trace : string) : bool :=
  xml_chars trace && xml_chars (sv_EnrollmentPolicyServiceURL s) && xml_chars (sv_EnrollmentServiceURL s).

Lemma announced_version v n :
  ParseVersion (sv_EnrollmentVersion s) = Ok n →
  str_forall printable (dr_EnrollmentVersion (announced s v)) = true.
Proof.
  intros E. unfold announced. rewrite E. cbn [dr_EnrollmentVersion]. destruct (_ <=? v); [|done].
  unfold FormatVersion. rewrite str_forall_app, Itoa_printable. done.
Qed.

Lemma opt_doc_ok n t : tag_name n = true → xml_chars t = true → forallb doc_ok (opt_doc n t) = true.
Proof. intros Hn Ht. unfold opt_doc. case_decide; [done|]. cbn [forallb doc_ok]. by rewrite Hn, Ht. Qed.

Lemma announced_doc_ok v n trace :
  ParseVersion (sv_EnrollmentVersion s) = Ok n → sv_AuthPolicy s = AuthPolicyOnPremise →
  service_chars trace = true → doc_ok (discover_response_doc (announced s v)) = true.
Proof.
  intros Hn Hp Hc. unfold service_chars in Hc. btrue. unfold discover_response_doc.
  cbn [doc_ok forallb]. rewrite !forallb_app. cbn [forallb doc_ok]. rewrite !forallb_app.
  rewrite !opt_doc_ok; try done.
  - unfold announced. cbn [dr_AuthPolicy dr_EnrollmentServiceURL]. rewrite Hp, H1. done.
  - by eapply xml_chars_printables, announced_version.
Qed.

Lemma announced_reply v n rel trace out :
  ParseVersion (sv_EnrollmentVersion s) = Ok n → sv_AuthPolicy s = AuthPolicyOnPremise →
  EncodeDiscoverResponse (announced s v) rel trace = Ok out →
  xml_chars rel = true → service_chars trace = true → len out ≤ SoapMaxSize →
  DecodeDiscoverResponse out = (Some (mkSoapHeader ActionDiscoverResponse "" None "" None),
    ROk (mkDiscoverResponse AuthPolicyOnPremise (dr_EnrollmentVersion (announced s v))
      (TrimSpace (sv_EnrollmentPolicyServiceURL s)) (TrimSpace (sv_EnrollmentServiceURL s)) "" "" "")).
Proof.
  intros Hn Hp E Hr Hc Hl. erewrite discover_reply; [|done| |done].
  - do 2 f_equal. unfold trim_response. rewrite (TrimSpace_id (dr_EnrollmentVersion _)) by by eapply announced_version.
    unfold announced. cbn [dr_AuthPolicy dr_EnrollmentPolicyServiceURL dr_EnrollmentServiceURL
      dr_AuthenticationServiceURL dr_DeviceAssociationMaaURL dr_GatewayService]. by rewrite Hp.
  - erewrite announced_doc_ok by done. unfold service_chars in Hc. btrue. unfold response_chars. cbn [rsp_Action rsp_RelatesTo rsp_ActivityID]. by rewrite Hr, H0.
Qed.
End discover.

(** Discovery between a client and a service that New accepts: a client that
    offers the on-premise policy, an address and a version of 1.0 to 9.0 is
    answered, and reads from the answer the policy, the addresses of the
    enrollment and policy endpoints, and the enrollment version: the lower of
    the client's and the server's when the client knows enrollment versions
    (3.0 and up), and none when it does not. *)
Theorem discovery_negotiates `{UrlParser} `{NameTables} {W} (cfg : EConfig W) s q v mid to body trace :
  ENew cfg = Ok s → EncodeDiscover q mid to = Ok body → offer_ok q v →
  xml_chars mid && xml_chars to && discover_chars q && service_chars s trace = true →
  len body ≤ sv_MaxRequestSize s →
  ∃ out n, Discover s trace body = (out, None) ∧
    ParseVersion (sv_EnrollmentVersion s) = Ok n ∧ MinEnrollmentVersion ≤ n ∧
    (len out ≤ SoapMaxSize →
     DecodeDiscoverResponse out = (Some (mkSoapHeader ActionDiscoverResponse "" None "" None),
       ROk (mkDiscoverResponse AuthPolicyOnPremise
         (if MinEnrollmentVersion <=? v then FormatVersion (Z.min n v) else "")
         (TrimSpace (sv_EnrollmentPolicyServiceURL s)) (TrimSpace (sv_EnrollmentServiceURL s)) "" "" ""))).
Proof.
  intros Hs%ENew_ok He Ho [Hc Hsv]%andb_true_iff Hl.
  destruct (discover_served s q v mid to body trace) as (out & E1 & E2); [done..|].
  destruct (ok_version s Hs) as (n & Hn & Hmin). exists out, n. split_and!; [done..|]. intros Hl'.
  assert (dr_EnrollmentVersion (announced s v) =
    if MinEnrollmentVersion <=? v then FormatVersion (Z.min n v) else "") as <-
    by (unfold announced; by rewrite Hn).
  eapply announced_reply; try done; [apply Hs|].
  apply relatesTo_chars, xml_chars_trim. cbn. by btrue.
Qed.

(** ** Policies and tokens *)

Lemma call_eq {W A} (hook : W → W * fresult A) ev w log w' r :
  hook w = (w', r) → call hook ev (w, log) = ((w', log ++ [ev r]), r).
Proof. intros E. unfold call. cbn [fst snd]. by rewrite E. Qed.
Lemma ebind_ok {W A B} (m : E W A) (k : A → E W B) st st' a :
  m st = (st', FOk a) → ebind m k st = k a st'.
Proof. unfold ebind. by intros ->. Qed.
Lemma emap_ok {W A} f (m : E W A) st st' a : m st = (st', FOk a) → emap_err f m st = (st', FOk a).
Proof. unfold emap_err. by intros ->. Qed.

(** The credentials that reach the authenticator. *)
Definition sent_credentials (c : Credentials) : Credentials :=
  mkCredentials (TrimSpace (cr_Username c)) (cr_Password c).

Lemma request_credentials action mid to c :
  TrimSpace (cr_Username c) ≠ "" →
  header_credentials (request_header action mid to (Some c)) = FOk (sent_credentials c).
Proof.
  intros Hu. unfold header_credentials, request_header, trim_header. cbn.
  by rewrite decide_False.
Qed.

Section token.
Context `{PrintTables} `{CaseTables} `{NameTables} {W : Type} (s : EService W).

Lemma authenticated action mid to c w log w' p :
  TrimSpace (cr_Username c) ≠ "" → hk_Authenticate (sv_Hooks s) (sent_credentials c) w = (w', FOk p) →
  service_authenticate s (request_header action mid to (Some c)) (w, log) =
  ((w', log ++ [EvAuthenticate (sent_credentials c) (FOk p)]), FOk p).
Proof.
  intros Hu Ha. unfold service_authenticate. rewrite request_credentials by done.
  erewrite ebind_ok by reflexivity. apply emap_ok. by apply call_eq.
Qed.

Lemma size_limit (k : Z) : service_ok s → k ≤ sv_MaxRequestSize s →
  k ≤ (if sv_MaxRequestSize s <=? 0 then SoapMaxSize else sv_MaxRequestSize s).
Proof. intros Hs Hk. pose proof (ok_size s Hs). destruct (Z.leb_spec (sv_MaxRequestSize s) 0); lia. Qed.

Lemma policies_served mid to c body trace w log w' p :
  service_ok s → sv_EnrollmentPolicyServiceURL s ≠ "" →
  EncodeGetPolicies mid to (Some c) = Ok body →
  xml_chars mid && xml_chars to && creds_chars (Some c) = true → len body ≤ sv_MaxRequestSize s →
  TrimSpace (cr_Username c) ≠ "" → hk_Authenticate (sv_Hooks s) (sent_credentials c) w = (w', FOk p) →
  ∃ out, GetPolicies s trace body (w, log) =
      ((w', log ++ [EvAuthenticate (sent_credentials c) (FOk p)]), (out, None)) ∧
    EncodePolicyResponse (Some (sv_Policy s))
      (relatesTo (Some (request_header ActionGetPolicies mid to (Some c)))) = Ok out.
Proof.
  intros Hs Hu He Hc Hl Hn Ha. apply EncodeGetPolicies_doc in He as ->.
  unfold GetPolicies, DecodeGetPolicies. rewrite decoded_with_req.
  - set (h := request_header _ _ _ _).
    assert (∃ out, EncodePolicyResponse (Some (sv_Policy s)) (relatesTo (Some h)) = Ok out) as [out E].
    { unfold EncodePolicyResponse. rewrite (ok_certificate s Hs). cbn [result_bind].
      apply (SoapEncode_total _ (policy_doc (sv_Policy s))); [done|apply relatesTo_nonempty|apply policy_body_doc]. }
    exists out. split; [|exact E]. unfold run_steps, policies_steps. rewrite decide_False by done.
    assert (sh_Action h = ActionGetPolicies) as -> by (by apply TrimSpace_id).
    change (_ && _) with false. cbn iota.
    erewrite ebind_ok by by apply authenticated. unfold eret. by rewrite E.
  - apply req_doc_ok; [done..|]. reflexivity.
  - by apply size_limit.
  - unfold get_policies_doc, tag_GetPolicies. doc_names. done.
Qed.

Definition item_chars (it : ContextItem) : bool := xml_chars (ci_Name it) && xml_chars (ci_Value it).
Lemma rst_doc_ok csr items :
  forallb item_chars items = true → doc_ok (rst_doc csr items) = true.
Proof.
  intros Hi. unfold rst_doc. cbn [doc_ok forallb].
  rewrite (xml_chars_printables (b64_encode csr)) by apply b64_encode_ok.
  assert (forallb doc_ok (map item_doc items) = true) as ->; [|reflexivity].
  induction items as [|it items IH]; [done|]. cbn [map forallb] in *. unfold item_chars in Hi. btrue.
  rewrite IH by done. unfold item_doc. cbn [doc_ok forallb]. unfold attr_ok. cbn [attr_name attr_value].
  by rewrite H2, H4.
Qed.

(** The hooks' outcomes in an enrollment that succeeds, from state to state. *)
Record hooks_accept (c : Credentials) (req : Principal → ERequest) (trace : string) (now : Time)
    (w w' : W) (p : Principal) (e : EEnrollment) (doc : option Document) : Prop := mk_hooks_accept {
  ha_states : ∃ w1 w2 w3 cert chain,
    hk_Authenticate (sv_Hooks s) c w = (w1, FOk p) ∧
    hk_Issue (sv_Hooks s) (req p) w1 = (w2, FOk (Some (mkIssuedCert (Some cert) chain))) ∧
    e = mkEEnrollment (req p) cert chain (store_of (rq_Context (req p))) now trace ∧
    hk_Provision (sv_Hooks s) e w2 = (w3, FOk doc) ∧
    match hk_Record (sv_Hooks s) with
    | Some record => record e doc w3 = (w', FOk tt)
    | None => w' = w3
    end }.

(** The calls it makes. *)
Definition accepted_calls (c : Credentials) (p : Principal) (e : EEnrollment) (doc : option Document)
    : list event :=
  [EvAuthenticate c (FOk p);
   EvIssue (en_Request e) (FOk (Some (mkIssuedCert (Some (en_Certificate e)) (en_Chain e))));
   EvProvision e (FOk doc)] ++
  (if hk_Record (sv_Hooks s) then [EvRecord e doc (FOk tt)] else []).

Lemma token_encoded doc bytes rel ts :
  WapEncode doc (mkWapOptions false false) = Ok bytes → rel ≠ "" →
  ∃ out, EncodeTokenResponse bytes rel ts = Ok out.
Proof.
  intros He Hr. unfold EncodeTokenResponse.
  destruct (WapValidate doc) as [[]|] eqn:Ev; [|by unfold WapEncode in He; rewrite Ev in He].
  destruct doc as [d|]; [|done]. rewrite (WapEncode_render d Ev) in He.
  assert (bytes = doc_render (document_doc d)) as -> by congruence.
  destruct (doc_bracketed (document_doc d)) as [t Ht]. rewrite (bracketed_body _ _ Ht).
  apply (SoapEncode_total _ (token_doc (doc_render (document_doc d)))); [done|done|].
  cbn [rsp_Body]. unfold token_body, token_doc. writer_doc.
Qed.

Lemma provision_succeeds h e doc bytes now w log w2 w' :
  hk_Provision (sv_Hooks s) e w = (w2, FOk doc) →
  WapEncode doc (mkWapOptions false false) = Ok bytes →
  match hk_Record (sv_Hooks s) with
  | Some record => record e doc w2 = (w', FOk tt)
  | None => w' = w2
  end →
  ∃ out, provision_steps s h e now (w, log) =
      ((w', log ++ [EvProvision e (FOk doc)] ++ (if hk_Record (sv_Hooks s) then [EvRecord e doc (FOk tt)] else [])),
       FOk out) ∧
    EncodeTokenResponse bytes (relatesTo (Some h)) (Some (mkTimestampRange now (time_Add now (5 * Minute)))) = Ok out.
Proof.
  intros Hp Hb Hr. unfold provision_steps.
  destruct (token_encoded doc bytes (relatesTo (Some h)) (Some (mkTimestampRange now (time_Add now (5 * Minute)))) Hb)
    as [out E]; [apply relatesTo_nonempty|].
  exists out. split; [|exact E]. erewrite ebind_ok by (apply emap_ok; apply call_eq; exact Hp).
  rewrite Hb. erewrite ebind_ok by reflexivity.
  destruct (hk_Record (sv_Hooks s)) as [record|].
  - erewrite ebind_ok by (apply emap_ok; apply call_eq; exact Hr). unfold eret. rewrite E, <- app_assoc. done.
  - erewrite ebind_ok by reflexivity. unfold eret. by rewrite E, Hr, app_nil_r.
Qed.

(** The request the issuer gets for what the client sent. *)
Definition sent_request (mid to csr : string) (c : Credentials) (items : list ContextItem) (p : Principal)
    : ERequest :=
  mkERequest csr (ParseAdditionalContext items) p (request_header ActionRST mid to (Some c)).

(** A context the service accepts. *)
Definition context_ok (ctx : AdditionalContext) : Prop :=
  ac_DeviceID ctx ≠ "" ∧ EnrollmentType_Valid (ac_EnrollmentType ctx) = true ∧
  (ac_RequestVersion ctx = "" ∨ ∃ n, ParseVersion (ac_RequestVersion ctx) = Ok n).

Lemma sent_requested mid to csr c items p :
  csr ≠ "" → context_ok (ParseAdditionalContext items) →
  requested (request_of csr items) p (request_header ActionRST mid to (Some c))
    (sent_request mid to csr c items p).
Proof.
  intros Hc (Hd & Ht & Hv). unfold requested, request_of, sent_request.
  cbn [rst_TokenType rst_RequestType rst_Token rst_Context bst_ValueType rq_CSR].
  split_and!; try done. apply BST_Bytes_encode.
Qed.

Lemma enroll_served mid to csr c items body trace now w w' log p e doc bytes :
  service_ok s → EncodeRequestSecurityToken mid to (Some c) csr items = Ok body →
  xml_chars mid && xml_chars to && creds_chars (Some c) && forallb item_chars items = true →
  len body ≤ sv_MaxRequestSize s →
  TrimSpace (cr_Username c) ≠ "" → context_ok (ParseAdditionalContext items) →
  hooks_accept (sent_credentials c) (sent_request mid to csr c items) trace now w w' p e doc →
  WapEncode doc (mkWapOptions false false) = Ok bytes →
  ∃ out, Enroll s trace now body (w, log) =
      ((w', log ++ accepted_calls (sent_credentials c) p e doc), (out, None)) ∧
    EncodeTokenResponse bytes (relatesTo (Some (request_header ActionRST mid to (Some c))))
      (Some (mkTimestampRange now (time_Add now (5 * Minute)))) = Ok out.
Proof.
  intros Hs He [Hc Hi]%andb_true_iff Hl Hu Hx [(w1 & w2 & w3 & cert & chain & H2 & H3 & -> & H4 & H5)] Hb.
  apply EncodeRST_doc in He as [-> Hcsr].
  unfold Enroll, DecodeRequestSecurityToken. rewrite decoded_with_req.
  - set (h := request_header _ _ _ _).
    destruct (provision_succeeds h _ doc bytes now w2
      ((log ++ [EvAuthenticate (sent_credentials c) (FOk p)]) ++
       [EvIssue (sent_request mid to csr c items p) (FOk (Some (mkIssuedCert (Some cert) chain)))]) w3 w' H4 Hb H5)
      as (out & E1 & E2).
    exists out. split; [|exact E2]. rewrite request_token_doc. unfold run_steps, enroll_steps.
    assert (sh_Action h = ActionRST) as -> by (by apply TrimSpace_id).
    change (_ && _) with false. cbn iota.
    erewrite ebind_ok by by apply authenticated.
    erewrite ebind_ok by (unfold eret; rewrite (proj2 (checkToken_requested _ _ _ _ _)
      (sent_requested mid to csr c items p Hcsr Hx)); reflexivity).
    erewrite ebind_ok by (apply emap_ok; apply call_eq; exact H3).
    cbn beta iota. rewrite E1. cbn [rendered]. unfold accepted_calls. cbn [en_Request en_Certificate en_Chain].
    by rewrite <- !app_assoc.
  - apply req_doc_ok; [done..|]. cbn [forallb]. by rewrite rst_doc_ok.
  - by apply size_limit.
  - unfold rst_doc, tag_RST. doc_names. done.
Qed.

Lemma token_reply bytes rel ts out :
  EncodeTokenResponse bytes rel ts = Ok out → xml_chars rel = true → len out ≤ SoapMaxSize →
  DecodeTokenResponse out =
    (Some (reply_header (mkResponse ActionRSTRC rel "" ts false (token_body bytes))), ROk bytes).
Proof.
  intros E Hr Hl. apply EncodeTokenResponse_doc in E. subst out. set (r := mkResponse _ _ _ _ _ _) in *.
  unfold DecodeTokenResponse.
  assert (tag_match (Tag "Fault") (doc_name (reply_ns r) (token_doc bytes)) = false ∧
    tag_match tag_RSTRC (doc_name (reply_ns r) (token_doc bytes)) = true) as [Hf Ht]
    by (unfold token_doc, tag_RSTRC, r, reply_ns; cbn [rsp_Timestamp rsp_SchemaAttributes];
        destruct ts; split; doc_names; done).
  rewrite reply_with_doc; [| |done|done|by apply body_ptr_doc].
  - by rewrite token_document_doc.
  - apply env_doc_ok; [by unfold response_chars; cbn [r rsp_Action rsp_RelatesTo rsp_ActivityID]; rewrite Hr|].
    cbn [forallb]. unfold token_doc. cbn [doc_ok forallb].
    rewrite (xml_chars_printables (b64_encode bytes)) by apply b64_encode_ok. reflexivity.
Qed.
End token.
