(* ===== verification/EnrollSession.v ===== *)
(** * A device enrolls

    The client of the simulator against the endpoints of the enrollment
    service: every request of the client goes through the handler that
    NewHandler registered for its path, and its response back. *)
From stdpp Require Import base gmap strings list.
From Stdlib Require Import ZArith Lia Ascii ZifyBool.
From S2P Require Import Prelude GoStrings GoTime SyncmlModel SyncmlAuth Encode Utf8 GoXml XmlLex XmlDoc.
From S2P Require Import WapProv WapBuild WapTheorems Soap SoapProofs EnrollTypes EnrollMsg EnrollProofs.
From S2P Require Import EnrollPolicy EnrollService EnrollProvision EnrollHttp SimEnroll EnrollDevice EnrollTheorems.

Local Open Scope Z_scope.

Section network.
Context `{NameTables} `{PrintTables} `{CaseTables} `{UrlParser} {W : Type} (s : EService W).
(** The trace id and the time of the n-th request. *)
Context (supply : nat → string * Time).

(** The requests so far, and the state of the service. *)
Definition Net : Type := nat * (W * list event).

(** The mux picks the handler registered for the path. *)
Definition routed (path : string) : option endpoint :=
  option_map snd (List.find (λ r, bool_decide (fst r = path)) (NewHandler_routes s)).

Definition mux_http (method url body : string) (n : Net) : Net * option HttpResponse :=
  match routed (pathOf url) with
  | None => (n, Some (mkHttpResponse 404 "404 page not found" (-1) false))
  | Some ep =>
      let '(st, (r, _)) := endpoint_serve s ep (supply n.1).1 (supply n.1).2
        (mkHttpRequest method (Some body)) n.2 in
      ((S n.1, st), Some (mkHttpResponse (hp_Status r) (hp_Body r) (default (-1) (hp_ContentLength r)) false))
  end.

(** ** Routes *)

Lemma pathOf_nonempty url : pathOf url ≠ "".
Proof. unfold pathOf. destruct (url_Parse url) as [u|]; [|done]. by case_decide. Qed.

Lemma route_discovery : routed DiscoveryPath = Some EpDiscovery.
Proof. unfold routed, NewHandler_routes. cbn [List.find fst]. by rewrite bool_decide_true. Qed.

Definition enrolls (ep : endpoint) : Prop := ep = EpEnrollment ∨ ep = EpPolicyOrEnrollment.
Definition serves_policy (ep : endpoint) : Prop := ep = EpPolicy ∨ ep = EpPolicyOrEnrollment.

Lemma route_enrollment :
  pathOf (sv_EnrollmentServiceURL s) ≠ DiscoveryPath →
  ∃ ep, routed (pathOf (sv_EnrollmentServiceURL s)) = Some ep ∧ enrolls ep.
Proof.
  intros Hd. unfold routed, NewHandler_routes, enrolls. cbn [List.find fst]. rewrite bool_decide_false by done.
  repeat case_decide; cbn [List.find fst]; rewrite bool_decide_true by done; cbn [option_map snd]; eauto.
Qed.

Lemma route_policy :
  sv_EnrollmentPolicyServiceURL s ≠ "" → pathOf (sv_EnrollmentPolicyServiceURL s) ≠ DiscoveryPath →
  ∃ ep, routed (pathOf (sv_EnrollmentPolicyServiceURL s)) = Some ep ∧ serves_policy ep.
Proof.
  intros Hu Hd. unfold routed, NewHandler_routes, serves_policy. cbn [List.find fst].
  rewrite bool_decide_false by done. rewrite (decide_False (P := sv_EnrollmentPolicyServiceURL s = "")) by done.
  rewrite decide_False by apply pathOf_nonempty. case_decide as E; cbn [List.find fst].
  - rewrite bool_decide_true by done. cbn [option_map snd]. eauto.
  - rewrite bool_decide_false by done. rewrite bool_decide_true by done. cbn [option_map snd]. eauto.
Qed.

(** ** Handlers *)

Definition limit_ok : Prop := 0 < sv_MaxRequestSize s < 2 ^ 63 - 1.

Lemma http_read_ok m body :
  limit_ok → len body ≤ sv_MaxRequestSize s → http_read s (mkHttpRequest m (Some body)) = inr body.
Proof.
  intros [H1' H2'] Hl. unfold http_read. cbn [hq_Body].
  rewrite wrap64_id by (unfold in_int64, min_int64, max_int64; lia).
  rewrite stake_over by (unfold len in Hl; lia). by destruct (Z.ltb_spec (sv_MaxRequestSize s) (len body)); [lia|].
Qed.

Lemma respond_ok op out :
  http_respond op (out, None) = (mkHttpReply 200 (Some EnrollContentType) (Some (len out)) None out, []).
Proof. reflexivity. Qed.

Lemma post_answered url body ep n st st' ct al lg out :
  routed (pathOf url) = Some ep →
  endpoint_serve s ep (supply n).1 (supply n).2 (mkHttpRequest "POST" (Some body)) st =
    (st', (mkHttpReply 200 ct (Some (len out)) al out, lg)) →
  len out ≤ SoapMaxSize →
  post mux_http url body (n, st) = ((S n, st'), COk out).
Proof.
  intros Hr He Hl. unfold post, mux_http. rewrite Hr. cbn [fst snd]. rewrite He.
  cbn [hp_Status hp_Body hp_ContentLength default]. unfold check_response.
  cbn [hr_Body hr_Chunked hr_ContentLength hr_StatusCode].
  rewrite stake_over by (unfold len in Hl; unfold SoapMaxSize in *; lia).
  rewrite Z.eqb_refl. cbn [negb andb]. rewrite andb_false_r. reflexivity.
Qed.

Lemma serve_answered op fn body st st' out :
  limit_ok → len body ≤ sv_MaxRequestSize s → fn body st = (st', (out, None)) →
  http_serve s op fn (mkHttpRequest "POST" (Some body)) st =
    (st', (mkHttpReply 200 (Some EnrollContentType) (Some (len out)) None out, [])).
Proof. intros Hm Hl Hf. unfold http_serve. rewrite http_read_ok by done. by rewrite Hf. Qed.

(** The shared endpoint looks at the action only. *)
Lemma shared_header action mid to c docs :
  doc_ok (req_doc action mid to c docs) = true → 0 < sv_MaxRequestSize s →
  len (doc_render (req_doc action mid to c docs)) ≤ sv_MaxRequestSize s →
  ∃ n, SoapDecode tt no_body (doc_render (req_doc action mid to c docs)) (sv_MaxRequestSize s) =
    Ok (mkEnvelope n (request_header action mid to c) tt).
Proof.
  intros Hok Hm Hl. unfold req_doc.
  erewrite (SoapDecode_env tt no_body req_attrs); [|done|done| |apply read_header_req].
  - by eexists.
  - by destruct (Z.leb_spec (sv_MaxRequestSize s) 0); [lia|].
Qed.

Lemma enroll_answered ep trace now mid to c x st st' out :
  let body := doc_render (req_doc ActionRST mid to c [x]) in
  enrolls ep → limit_ok → doc_ok (req_doc ActionRST mid to c [x]) = true → len body ≤ sv_MaxRequestSize s →
  Enroll s trace now body st = (st', (out, None)) →
  ∃ lg, endpoint_serve s ep trace now (mkHttpRequest "POST" (Some body)) st =
    (st', (mkHttpReply 200 (Some EnrollContentType) (Some (len out)) None out, lg)).
Proof.
  intros body [-> | ->] Hm Hok Hl He; eexists; cbn [endpoint_serve].
  - unfold http_Enrollment, http_post. cbn [hq_Method]. rewrite decide_True by done.
    by apply serve_answered.
  - unfold http_policyOrEnrollment. rewrite http_read_ok by done.
    destruct (shared_header ActionRST mid to c [x]) as [n E]; [done|apply Hm|done|].
    fold body in E. rewrite E. cbn [env_Header hq_Method].
    assert (sh_Action (request_header ActionRST mid to c) = ActionRST) as -> by (by apply TrimSpace_id).
    change (negb (bool_decide ("POST" = "POST"))) with false.
    change (bool_decide (ActionRST = ActionGetPolicies)) with false. cbn iota. rewrite He. reflexivity.
Qed.

Lemma policies_answered ep trace now mid to c x st st' out :
  let body := doc_render (req_doc ActionGetPolicies mid to c [x]) in
  serves_policy ep → limit_ok → doc_ok (req_doc ActionGetPolicies mid to c [x]) = true →
  len body ≤ sv_MaxRequestSize s →
  GetPolicies s trace body st = (st', (out, None)) →
  ∃ lg, endpoint_serve s ep trace now (mkHttpRequest "POST" (Some body)) st =
    (st', (mkHttpReply 200 (Some EnrollContentType) (Some (len out)) None out, lg)).
Proof.
  intros body [-> | ->] Hm Hok Hl He; eexists; cbn [endpoint_serve].
  - unfold http_Policy, http_post. cbn [hq_Method]. rewrite decide_True by done.
    by apply serve_answered.
  - unfold http_policyOrEnrollment. rewrite http_read_ok by done.
    destruct (shared_header ActionGetPolicies mid to c [x]) as [n E]; [done|apply Hm|done|].
    fold body in E. rewrite E. cbn [env_Header hq_Method].
    assert (sh_Action (request_header ActionGetPolicies mid to c) = ActionGetPolicies) as ->
      by (by apply TrimSpace_id).
    change (negb (bool_decide ("POST" = "POST"))) with false.
    change (bool_decide (ActionGetPolicies = ActionGetPolicies)) with true. cbn iota. rewrite He. reflexivity.
Qed.

(** ** The steps of the client *)

Definition ok_text (r : result string) : string := match r with Ok t => t | Err _ => "" end.

Lemma cbind_ok {A B} (m : @C Net A) (k : A → @C Net B) n n' a :
  m n = (n', COk a) → cbind m k n = k a n'.
Proof. unfold cbind. by intros ->. Qed.

Lemma probe_answered url n st :
  pathOf url = DiscoveryPath → probe mux_http url (n, st) = ((S n, st), COk tt).
Proof. intros Hp. unfold probe, mux_http. rewrite Hp, route_discovery. reflexivity. Qed.

(** The discovery request of a client. *)
Definition client_offer (c : Client) : DiscoverRequest :=
  mkDiscoverRequest (cl_Email c) (cl_RequestVersion c) (cl_DeviceType c) (cl_ApplicationVersion c)
    (cl_OSEdition c) [AuthPolicyOnPremise; AuthPolicyFederated; AuthPolicyCertificate].

(** What it learns. *)
Definition discovered (v : Z) : DiscoverResponse :=
  mkDiscoverResponse AuthPolicyOnPremise (dr_EnrollmentVersion (announced s v))
    (sv_EnrollmentPolicyServiceURL s) (sv_EnrollmentServiceURL s) "" "" "".

Definition urls_ok : Prop :=
  TrimSpace (sv_EnrollmentServiceURL s) = sv_EnrollmentServiceURL s ∧
  TrimSpace (sv_EnrollmentPolicyServiceURL s) = sv_EnrollmentPolicyServiceURL s.

Lemma offer_of_client c v :
  TrimSpace (cl_Email c) ≠ "" → ParseVersion (cl_RequestVersion c) = Ok v → offer_ok (client_offer c) v.
Proof.
  intros He Hv. split; [done|]. split; [|by left].
  unfold client_offer, ParseVersion in *. cbn [dq_RequestVersion]. by rewrite TrimSpace_idem.
Qed.

Lemma client_discovers c v mid n st :
  let url := cl_DiscoveryURL c in
  let body := ok_text (EncodeDiscover (client_offer c) mid url) in
  let rel := relatesTo (Some (request_header ActionDiscover mid url None)) in
  service_ok s → limit_ok → urls_ok → pathOf url = DiscoveryPath →
  TrimSpace (cl_Email c) ≠ "" → ParseVersion (cl_RequestVersion c) = Ok v → mid ≠ "" → url ≠ "" →
  xml_chars mid && xml_chars url && discover_chars (client_offer c) && service_chars s (supply n).1 = true →
  len body ≤ sv_MaxRequestSize s →
  len (ok_text (EncodeDiscoverResponse (announced s v) rel (supply n).1)) ≤ SoapMaxSize →
  client_discover mux_http c mid (n, st) = ((S n, st), COk (discovered v)).
Proof.
  intros url body rel Hs Hlim [Hu1 Hu2] Hp Hem Hv Hmid Hurl [Hc Hsc]%andb_true_iff Hl1 Hl2.
  assert (EncodeDiscover (client_offer c) mid url = Ok body) as Eb.
  { unfold body, EncodeDiscover. rewrite decide_False.
    - unfold encodeRequest. by rewrite decide_False by (intros [?|?]; done).
    - unfold client_offer. cbn [dq_EmailAddress dq_RequestVersion dq_AuthPolicies].
      intros [E|[E|E]]; [by rewrite E in Hem|by rewrite E in Hv|done]. }
  destruct (discover_served s (client_offer c) v mid url body (supply n).1 Hs Eb Hc Hl1
    (offer_of_client c v Hem Hv)) as (out & E1 & E2). fold rel in E2.
  unfold rel in *. rewrite E2 in Hl2. cbn [ok_text] in Hl2.
  destruct (ok_version s Hs) as (sv & Hsv & _).
  assert (xml_chars (relatesTo (Some (request_header ActionDiscover mid url None))) = true) as Hrel
    by (apply relatesTo_chars, xml_chars_trim; cbn; by btrue).
  pose proof (announced_reply s v sv _ _ _ Hsv (ok_policy s Hs) E2 Hrel Hsc Hl2) as Hdec.
  unfold client_discover. fold (client_offer c). fold url. rewrite Eb. cbn [of_plain].
  erewrite cbind_ok by reflexivity.
  erewrite (cbind_ok (post _ _ _)).
  2:{ eapply (post_answered _ _ EpDiscovery); [rewrite Hp; apply route_discovery| |exact Hl2].
      cbn [endpoint_serve]. unfold http_Discovery. cbn [hq_Method]. rewrite decide_False, decide_True by done.
      eapply serve_answered; [done|exact Hl1|]. by rewrite E1. }
  rewrite Hdec. unfold of_reply. cbn [snd]. erewrite cbind_ok by reflexivity.
  cbn [dr_EnrollmentServiceURL]. rewrite Hu1, Hu2, decide_False by apply (ok_url s Hs). reflexivity.
Qed.

Lemma client_gets_policy c mid n w log w' p :
  let url := sv_EnrollmentPolicyServiceURL s in
  let creds := client_credentials c in
  let rel := relatesTo (Some (request_header ActionGetPolicies mid url (Some creds))) in
  service_ok s → limit_ok → url ≠ "" → pathOf url ≠ DiscoveryPath → mid ≠ "" →
  TrimSpace (cl_Email c) ≠ "" → hk_Authenticate (sv_Hooks s) (sent_credentials creds) w = (w', FOk p) →
  xml_chars mid && xml_chars url && creds_chars (Some creds) = true →
  policy_range (sv_Policy s) → policy_chars (sv_Policy s) = true →
  len (ok_text (EncodeGetPolicies mid url (Some creds))) ≤ sv_MaxRequestSize s →
  len (ok_text (EncodePolicyResponse (Some (sv_Policy s)) rel)) ≤ SoapMaxSize →
  client_policies mux_http c mid url (n, (w, log)) =
    ((S n, (w', log ++ [EvAuthenticate (sent_credentials creds) (FOk p)])), COk (sent_policy (sv_Policy s))).
Proof.
  intros url creds rel Hs Hlim Hurl Hpath Hmid Hem Ha Hc Hrange Hpc Hl1 Hl2.
  set (body := ok_text (EncodeGetPolicies mid url (Some creds))) in *.
  assert (EncodeGetPolicies mid url (Some creds) = Ok body) as Eb
    by (unfold body, EncodeGetPolicies, encodeRequest; by rewrite decide_False by (intros [?|?]; done)).
  destruct (policies_served s mid url creds body (supply n).1 w log w' p Hs Hurl Eb Hc Hl1 Hem Ha)
    as (out & E1 & E2).
  unfold rel in *. rewrite E2 in Hl2. cbn [ok_text] in Hl2.
  assert (xml_chars (relatesTo (Some (request_header ActionGetPolicies mid url (Some creds)))) = true) as Hrel
    by (apply relatesTo_chars, xml_chars_trim; cbn; by btrue).
  destruct (route_policy Hurl Hpath) as (ep & Hr & Hep).
  pose proof (EncodeGetPolicies_doc _ _ _ _ Eb) as Edoc.
  unfold client_policies. fold creds. rewrite Eb. cbn [of_plain]. erewrite cbind_ok by reflexivity.
  erewrite (cbind_ok (post _ _ _)).
  2:{ rewrite Edoc in *. edestruct (policies_answered ep) as [lg El]; [done|done| |exact Hl1|exact E1|].
      - apply req_doc_ok; done.
      - eapply post_answered; [exact Hr|exact El|exact Hl2]. }
  unfold cret, of_reply. erewrite policy_reply; [reflexivity|exact E2|done| |done]. by rewrite Hrel, Hpc.
Qed.

Lemma client_gets_token c mid csr n w log w' p e doc bytes :
  let url := sv_EnrollmentServiceURL s in
  let creds := client_credentials c in
  let rel := relatesTo (Some (request_header ActionRST mid url (Some creds))) in
  let now := (supply n).2 in
  service_ok s → limit_ok → pathOf url ≠ DiscoveryPath → mid ≠ "" → csr ≠ "" →
  TrimSpace (cl_Email c) ≠ "" → context_ok (ParseAdditionalContext (Client_items c)) →
  hooks_accept s (sent_credentials creds) (sent_request mid url csr creds (Client_items c)) (supply n).1 now
    w w' p e doc →
  WapEncode doc (mkWapOptions false false) = Ok bytes →
  xml_chars mid && xml_chars url && creds_chars (Some creds) && forallb item_chars (Client_items c) = true →
  len (ok_text (EncodeRequestSecurityToken mid url (Some creds) csr (Client_items c))) ≤ sv_MaxRequestSize s →
  len (ok_text (EncodeTokenResponse bytes rel (Some (mkTimestampRange now (time_Add now (5 * Minute)))))) ≤ SoapMaxSize →
  client_token mux_http c mid url csr (n, (w, log)) =
    ((S n, (w', log ++ accepted_calls s (sent_credentials creds) p e doc)), COk bytes).
Proof.
  intros url creds rel now Hs Hlim Hpath Hmid Hcsr Hem Hctx Hk Hb Hc Hl1 Hl2.
  set (body := ok_text (EncodeRequestSecurityToken mid url (Some creds) csr (Client_items c))) in *.
  assert (EncodeRequestSecurityToken mid url (Some creds) csr (Client_items c) = Ok body) as Eb.
  { unfold body, EncodeRequestSecurityToken, encodeRequest.
    destruct (Z.eqb_spec (len csr) 0) as [E|_]; [by destruct csr|].
    rewrite decide_False; [done|]. intros [?|E]; [done|]. exact (ok_url s Hs E). }
  destruct (enroll_served s mid url csr creds (Client_items c) body (supply n).1 now w w' log p e doc bytes
    Hs Eb Hc Hl1 Hem Hctx Hk Hb) as (out & E1 & E2).
  unfold rel in *. rewrite E2 in Hl2. cbn [ok_text] in Hl2.
  assert (xml_chars (relatesTo (Some (request_header ActionRST mid url (Some creds)))) = true) as Hrel
    by (apply relatesTo_chars, xml_chars_trim; cbn; by btrue).
  destruct (route_enrollment Hpath) as (ep & Hr & Hep).
  destruct (EncodeRST_doc _ _ _ _ _ _ Eb) as [Edoc _].
  apply andb_true_iff in Hc as [Hc Hi].
  unfold client_token. fold creds. rewrite Eb. cbn [of_plain]. erewrite cbind_ok by reflexivity.
  erewrite (cbind_ok (post _ _ _)).
  2:{ rewrite Edoc in *. edestruct (enroll_answered ep) as [lg El]; [done|done| |exact Hl1|exact E1|].
      - apply req_doc_ok; [done|done|]. cbn [forallb]. by rewrite rst_doc_ok.
      - eapply post_answered; [exact Hr|exact El|exact Hl2]. }
  unfold cret, of_reply. by erewrite token_reply.
Qed.

(** ** The whole exchange *)

(** Whether the client asks for the policy, and the number of the token
    request among its requests. *)
Definition fetches (c : Client) : bool :=
  negb (bool_decide (sv_EnrollmentPolicyServiceURL s = "")) && negb (cl_SkipPolicy c).
Definition token_turn (c : Client) : nat := if fetches c then 3 else 2.

(** The conditions on what is sent: where the requests go, that texts are XML
    characters, and that no message is over the limit of its reader. *)
Record session_ok (c : Client) (v : Z) (mid1 mid2 mid3 csr bytes : string) : Prop := mk_session_ok {
  so_limit : limit_ok;
  so_urls : urls_ok;
  so_discovery : pathOf (cl_DiscoveryURL c) = DiscoveryPath;
  so_enrollment : pathOf (sv_EnrollmentServiceURL s) ≠ DiscoveryPath;
  so_policy : fetches c = true → pathOf (sv_EnrollmentPolicyServiceURL s) ≠ DiscoveryPath;
  so_email : TrimSpace (cl_Email c) ≠ "";
  so_mids : mid1 ≠ "" ∧ mid2 ≠ "" ∧ mid3 ≠ "";
  so_csr : csr ≠ "";
  so_context : context_ok (ParseAdditionalContext (Client_items c));
  so_offer_chars : xml_chars mid1 && xml_chars (cl_DiscoveryURL c) && discover_chars (client_offer c) &&
    service_chars s (supply 1).1 = true;
  so_policy_chars : xml_chars mid2 && xml_chars (sv_EnrollmentPolicyServiceURL s) &&
    creds_chars (Some (client_credentials c)) = true;
  so_token_chars : xml_chars mid3 && xml_chars (sv_EnrollmentServiceURL s) &&
    creds_chars (Some (client_credentials c)) && forallb item_chars (Client_items c) = true;
  so_range : policy_range (sv_Policy s);
  so_policy_text : policy_chars (sv_Policy s) = true;
  so_sizes : ∀ req, req ∈ [EncodeDiscover (client_offer c) mid1 (cl_DiscoveryURL c);
      EncodeGetPolicies mid2 (sv_EnrollmentPolicyServiceURL s) (Some (client_credentials c));
      EncodeRequestSecurityToken mid3 (sv_EnrollmentServiceURL s) (Some (client_credentials c)) csr
        (Client_items c)] →
    len (ok_text req) ≤ sv_MaxRequestSize s;
  so_replies : ∀ rsp, rsp ∈ [EncodeDiscoverResponse (announced s v)
        (relatesTo (Some (request_header ActionDiscover mid1 (cl_DiscoveryURL c) None))) (supply 1).1;
      EncodePolicyResponse (Some (sv_Policy s)) (relatesTo (Some (request_header ActionGetPolicies mid2
        (sv_EnrollmentPolicyServiceURL s) (Some (client_credentials c)))));
      EncodeTokenResponse bytes (relatesTo (Some (request_header ActionRST mid3 (sv_EnrollmentServiceURL s)
        (Some (client_credentials c))))) (Some (mkTimestampRange (supply (token_turn c)).2
          (time_Add (supply (token_turn c)).2 (5 * Minute))))] →
    len (ok_text rsp) ≤ SoapMaxSize }.

Context `{LowerTables}.

Lemma Client_defaults_ok c0 c : Client_defaults c0 = Ok c →
  cl_DiscoveryURL c ≠ "" ∧ ∃ v, ParseVersion (cl_RequestVersion c) = Ok v.
Proof.
  unfold Client_defaults. case_decide; [done|].
  assert (∀ url, url ≠ "" → (if negb (EnrollmentType_Valid (or_default EnrollmentTypeFull (cl_EnrollmentType c0)))
    then Err [simulator_ErrConfig] else match ParseVersion (or_default "5.0" (cl_RequestVersion c0)) with
     | Ok _ => Ok (mkClient url (cl_Email c0) (cl_Password c0) (cl_DeviceID c0) (cl_HWDevID c0)
        (or_default "DESKTOP-SIM" (cl_DeviceName c0)) (or_default "10.0.26100.1" (cl_OSVersion c0))
        (or_default "4" (cl_OSEdition c0))
        (or_default (or_default "10.0.26100.1" (cl_OSVersion c0)) (cl_ApplicationVersion c0))
        (or_default EnrollmentTypeFull (cl_EnrollmentType c0))
        (or_default DeviceTypeWindows (cl_DeviceType c0)) (or_default "5.0" (cl_RequestVersion c0))
        (cl_SkipPolicy c0) (cl_Extra c0))
     | Err e => Err (simulator_ErrConfig :: e) end) = Ok c →
    cl_DiscoveryURL c ≠ "" ∧ ∃ v, ParseVersion (cl_RequestVersion c) = Ok v) as Hk.
  { intros url Hu. destruct (negb _); [done|]. destruct (ParseVersion _) as [v|] eqn:E; [|done].
    intros [= <-]. cbn [cl_DiscoveryURL cl_RequestVersion]. eauto. }
  destruct (decide (cl_DiscoveryURL c0 = "")) as [_|Hn]; [|cbn [result_bind]; by apply Hk].
  destruct (cut_byte "@" (cl_Email c0)) as [[u d]|]; [|done]. case_decide; [done|]. cbn [result_bind].
  by apply Hk.
Qed.

Section enrollment.
Context (P : string → option X509) (key : X509 → option string) (make_key : Z → result (string * string)).

(** The exchanges up to the document. *)
Lemma client_reaches_document c0 c v mid1 mid2 mid3 pub csr bytes w w1 w' log p0 p e doc :
  let creds := client_credentials c in
  let k := token_turn c in
  let policy := if fetches c then Some (sent_policy (sv_Policy s)) else None in
  service_ok s → Client_defaults c0 = Ok c → ParseVersion (cl_RequestVersion c) = Ok v →
  session_ok c v mid1 mid2 mid3 csr bytes →
  make_key (if fetches c then Z.max 2048 (pr_MinimalKeyLength (sv_Policy s)) else 2048) = Ok (pub, csr) →
  (if fetches c then hk_Authenticate (sv_Hooks s) (sent_credentials creds) w = (w1, FOk p0) else w1 = w) →
  hooks_accept s (sent_credentials creds)
    (sent_request mid3 (sv_EnrollmentServiceURL s) csr creds (Client_items c)) (supply k).1 (supply k).2
    w1 w' p e doc →
  WapEncode doc (mkWapOptions false false) = Ok bytes →
  client_enroll mux_http P key make_key c0 (mid1, mid2, mid3) (0%nat, (w, log)) =
    ((S k, (w', log ++ (if fetches c then [EvAuthenticate (sent_credentials creds) (FOk p0)] else []) ++
              accepted_calls s (sent_credentials creds) p e doc)),
     of_plain (client_apply P key (discovered v) policy pub bytes)).
Proof.
  intros creds k policy Hs Hd Hv [] Hkey Ha Hk Hb. destruct so_mids0 as (Hm1 & Hm2 & Hm3).
  destruct (Client_defaults_ok _ _ Hd) as [Hurl _].
  unfold client_enroll. rewrite Hd. erewrite cbind_ok by reflexivity.
  erewrite cbind_ok by by apply probe_answered.
  erewrite cbind_ok.
  2:{ apply (client_discovers c v); try done; [apply so_sizes0|apply so_replies0]; by left. }
  cbn [dr_AuthPolicy dr_EnrollmentPolicyServiceURL dr_EnrollmentServiceURL discovered].
  rewrite bool_decide_true by done. cbn [negb]. fold (fetches c). unfold policy, k in *.
  unfold token_turn in *. destruct (fetches c) eqn:Ef.
  - assert (sv_EnrollmentPolicyServiceURL s ≠ "") as Hpu.
    { unfold fetches in Ef. apply andb_true_iff in Ef as [Ef _]. by intros E; rewrite E in Ef. }
    erewrite (cbind_ok _ _ (2%nat, (w, log))).
    2:{ erewrite cbind_ok; [reflexivity|]. eapply (client_gets_policy c mid2 2 w log w1 p0); try done;
        [by apply so_policy0|apply so_sizes0; by right; left|apply so_replies0; by right; left]. }
    cbn [pr_MinimalKeyLength sent_policy]. rewrite Hkey. erewrite cbind_ok by reflexivity. cbn beta iota.
    erewrite cbind_ok.
    2:{ eapply (client_gets_token c mid3 csr 3); try done;
        [apply so_sizes0; by right; right; left|apply so_replies0; by right; right; left]. }
    unfold cret. by rewrite <- app_assoc.
  - subst w1. erewrite (cbind_ok _ _ (2%nat, (w, log))) by reflexivity. cbn beta iota.
    rewrite Hkey. erewrite cbind_ok by reflexivity. cbn beta iota. erewrite cbind_ok.
    2:{ eapply (client_gets_token c mid3 csr 2); try done;
        [apply so_sizes0; by right; right; left|apply so_replies0; by right; right; left]. }
    reflexivity.
Qed.

(** C3: A device enrolls: against a service that New accepts, whose hooks accept
    the user and issue a certificate and whose provisioner is the default one,
    the client's Enroll (probe, discovery, policy when there is one, token,
    document) runs through the registered endpoints to the end.  The device
    then holds the certificate issued for its key, the chain, the account with
    both credentials, and the poll schedule; the service called its hooks in
    order, once each but for the authenticator, which the policy request calls
    too. *)
Theorem device_enrolls (cfg : EConfig W) (pv : DefaultProvisioner W)
    c0 c mid1 mid2 mid3 pub csr bytes w w1 w' log p0 p e doc v :
  let creds := client_credentials c in
  let k := token_turn c in
  ENew cfg = Ok s → hk_Provision (sv_Hooks s) = Provision pv →
  Client_defaults c0 = Ok c → ParseVersion (cl_RequestVersion c) = Ok v →
  session_ok c v mid1 mid2 mid3 csr bytes →
  make_key (if fetches c then Z.max 2048 (pr_MinimalKeyLength (sv_Policy s)) else 2048) = Ok (pub, csr) →
  (if fetches c then hk_Authenticate (sv_Hooks s) (sent_credentials creds) w = (w1, FOk p0) else w1 = w) →
  hooks_accept s (sent_credentials creds)
    (sent_request mid3 (sv_EnrollmentServiceURL s) csr creds (Client_items c)) (supply k).1 (supply k).2
    w1 w' p e (Some doc) →
  WapEncode (Some doc) (mkWapOptions false false) = Ok bytes → document_ok doc = true →
  Forall (parses P) (en_Certificate e :: en_Chain e) → key (en_Certificate e) = Some pub →
  renew_range (dp_Renew pv) → poll_range (dp_Poll pv) →
  ∃ root server client,
    last (en_Chain e) = Some root ∧
    client_enroll mux_http P key make_key c0 (mid1, mid2, mid3) (0%nat, (w, log)) =
      ((S k, (w', log ++ (if fetches c then [EvAuthenticate (sent_credentials creds) (FOk p0)] else []) ++
                accepted_calls s (sent_credentials creds) p e (Some doc))),
       COk (mkDeviceEnrollment (discovered v)
         (if fetches c then Some (sent_policy (sv_Policy s)) else None)
         (mkCertificates (Some (en_Certificate e)) (en_Store e) [root] (removelast (en_Chain e))
            (Some (dp_Renew pv)))
         doc
         (mkAccount (pc_ProviderID (dp_cfg pv)) (pc_Name (dp_cfg pv)) (pc_ManagementURL (dp_cfg pv)) server client
            (application_parms (app_config pv server client)))
         (mkDMClientState (pc_PushPFN (dp_cfg pv)) (pc_ProviderID (dp_cfg pv))
            (dm_UPN (client_config pv e)) (ac_DeviceName (rq_Context (en_Request e)))
            (dm_EntDMID (client_config pv e)) (dp_Poll pv)))).
Proof.
  intros creds k Hs%ENew_ok Hp Hd Hv Hok Hkey Ha Hk Hb Hdoc HP Hpub Hr Hpoll.
  pose proof (client_reaches_document c0 c v mid1 mid2 mid3 pub csr bytes w w1 w' log p0 p e
    (Some doc) Hs Hd Hv Hok Hkey Ha Hk Hb) as E.
  destruct Hk as [(w2 & w3 & w4 & cert & chain & _ & _ & _ & Hprov & _)]. rewrite Hp in Hprov.
  destruct (provisioned_applies pv P key (discovered v)
    (if fetches c then Some (sent_policy (sv_Policy s)) else None) e w3 w4 doc pub Hprov Hdoc HP Hpub Hr Hpoll)
    as (bytes' & root & server & client & Hl & _ & Hb' & Happ).
  assert (bytes' = bytes) as -> by congruence. fold creds in E. fold k in E. rewrite Happ in E.
  by exists root, server, client.
Qed.
End enrollment.
End network.

(** ** A session *)

Definition ex_urls : UrlParser := {| url_Parse u :=
  if decide (u = "https://mdm.example.org/enroll") then Some (mkURL "https" "mdm.example.org" "/enroll")
  else if decide (u = "https://mdm.example.org/policy") then Some (mkURL "https" "mdm.example.org" "/policy")
  else if decide (u = "https://mdm.example.org" +:+ DiscoveryPath)
  then Some (mkURL "https" "mdm.example.org" DiscoveryPath) else None |}.
Definition ex_print : PrintTables := {| table_print _ := true |}.
Definition ex_lower : LowerTables := {| table_lower r := r |}.

(** The state counts the hooks' calls. *)
Definition ex_prov : DefaultProvisioner nat :=
  mkDefaultProvisioner
    (mkProvisionConfig "https://mdm.example.org/manage" "Example" "Example MDM" None None None ""
      (mkApplicationConfig "" "" "" 3 0 0 true EncodingXML "1.2" false "" ex_client ex_client) true None)
    (λ _ w, (S w, FOk (ex_server, ex_client))) DefaultRenew DefaultPoll.
Definition ex_hooks : Hooks nat :=
  mkHooks (λ c w, (S w, if decide (c = mkCredentials "user@example.org" "pw")
                        then FOk (mkPrincipal "user@example.org" ∅)
                        else FErr (plain_error [enroll_ErrUnauthenticated])))
    (λ _ w, (S w, FOk (Some (mkIssuedCert (Some (ex_cert "leaf" 7)) [ex_cert "ca" 2; ex_cert "root" 1]))))
    (Provision ex_prov) (Some (λ _ _ w, (S w, FOk tt))).
Definition ex_config : EConfig nat :=
  mkEConfig "https://mdm.example.org/enroll" "https://mdm.example.org/policy" "" "" (Some ex_hooks) None 0.
Definition ex_service : EService nat :=
  mkEService "https://mdm.example.org/enroll" "https://mdm.example.org/policy" DefaultEnrollmentVersion
    AuthPolicyOnPremise ex_hooks DefaultPolicy SoapMaxSize.
Definition ex_client0 : Client :=
  mkClient ("https://mdm.example.org" +:+ DiscoveryPath) "user@example.org" "pw" "dev-1" "" "" "" "" "" ""
    "" "" false [].
Definition ex_device : Client :=
  mkClient ("https://mdm.example.org" +:+ DiscoveryPath) "user@example.org" "pw" "dev-1" "" "DESKTOP-SIM"
    "10.0.26100.1" "4" "10.0.26100.1" EnrollmentTypeFull DeviceTypeWindows "5.0" false [].
Definition ex_supply (n : nat) : string * Time := ("trace-" +:+ Itoa (Z.of_nat n), Z.of_nat n * Second).
Definition ex_user : Principal := mkPrincipal "user@example.org" ∅.
Definition ex_enrolled : EEnrollment :=
  let req := sent_request "urn:uuid:3" "https://mdm.example.org/enroll" "csr" (client_credentials ex_device)
    (Client_items ex_device) ex_user in
  mkEEnrollment req (ex_cert "leaf" 7) [ex_cert "ca" 2; ex_cert "root" 1] StoreUser (3 * Second) "trace-3".
Definition ex_sent : Document :=
  match Provision ex_prov ex_enrolled 3%nat with (_, FOk (Some d)) => d | _ => mkDocument "" [] end.
Definition ex_bytes : string :=
  match WapEncode (H := ascii_case) (Some ex_sent) (mkWapOptions false false) with Ok b => b | Err _ => "" end.

Lemma ex_session_ok :
  session_ok (H2 := ex_urls) ex_service ex_supply ex_device 5 "urn:uuid:1" "urn:uuid:2" "urn:uuid:3" "csr" ex_bytes.
Proof.
  constructor.
  - split; reflexivity.
  - split; vm_compute; reflexivity.
  - vm_compute. reflexivity.
  - intros E. vm_compute in E. discriminate.
  - intros _ E. vm_compute in E. discriminate.
  - intros E. vm_compute in E. discriminate.
  - split_and!; discriminate.
  - discriminate.
  - split; [|split; [|right; exists 5]]; [intros E; vm_compute in E; discriminate|vm_compute; reflexivity..].
  - vm_compute. reflexivity.
  - vm_compute. reflexivity.
  - vm_compute. reflexivity.
  - split; vm_compute; split; discriminate.
  - vm_compute. reflexivity.
  - intros req Hin. apply Z.leb_le.
    repeat (apply elem_of_cons in Hin as [-> |Hin]; [vm_compute; reflexivity|]). by apply elem_of_nil in Hin.
  - intros rsp Hin. apply Z.leb_le.
    repeat (apply elem_of_cons in Hin as [-> |Hin]; [vm_compute; reflexivity|]). by apply elem_of_nil in Hin.
Qed.

Lemma device_enrolls_witness :
  ENew (H := ex_urls) ex_config = Ok ex_service ∧
  ∃ n calls d, client_enroll (H := ascii_names) (H0 := ascii_case) (H1 := ex_lower)
      (mux_http (H := ascii_names) (H0 := ex_print) (H1 := ascii_case) (H2 := ex_urls) ex_service ex_supply)
      ex_parse (λ _, Some "pub") (λ _, Ok ("pub", "csr")) ex_client0
      ("urn:uuid:1", "urn:uuid:2", "urn:uuid:3") (0%nat, (0%nat, [])) = ((4%nat, (n, calls)), COk d) ∧
    length calls = 5%nat.
Proof.
  assert (ENew (H := ex_urls) ex_config = Ok ex_service) as E by reflexivity.
  split; [exact E|].
  assert (WapEncode (H := ascii_case) (Some ex_sent) (mkWapOptions false false) = Ok ex_bytes) as Eb
    by (vm_compute; reflexivity).
  destruct (device_enrolls (H := ascii_names) (H0 := ex_print) (H1 := ascii_case) (H2 := ex_urls) (H3 := ex_lower)
    ex_service ex_supply ex_parse (λ _, Some "pub") (λ _, Ok ("pub", "csr")) ex_config ex_prov
    ex_client0 ex_device "urn:uuid:1" "urn:uuid:2" "urn:uuid:3" "pub" "csr" ex_bytes
    0%nat 1%nat 5%nat [] ex_user ex_user ex_enrolled ex_sent 5) as (root & server & client & _ & H1).
  - exact E.
  - reflexivity.
  - vm_compute. reflexivity.
  - vm_compute. reflexivity.
  - exact ex_session_ok.
  - reflexivity.
  - vm_compute. reflexivity.
  - constructor. exists 2%nat, 3%nat, 4%nat, (ex_cert "leaf" 7), [ex_cert "ca" 2; ex_cert "root" 1].
    split_and!; vm_compute; reflexivity.
  - exact Eb.
  - vm_compute. reflexivity.
  - repeat constructor.
  - reflexivity.
  - split; vm_compute; split; discriminate.
  - split; vm_compute; split; discriminate.
  - eexists _, _, _. split; [exact H1|]. reflexivity.
Defined.

Definition ex_offer_text : string :=
  ok_text (EncodeDiscover (client_offer ex_device) "urn:uuid:1" (cl_DiscoveryURL ex_device)).
Lemma discovery_negotiates_witness :
  EncodeDiscover (client_offer ex_device) "urn:uuid:1" (cl_DiscoveryURL ex_device) = Ok ex_offer_text ∧
  ∃ out, Discover (H := ascii_names) ex_service "trace-1" ex_offer_text = (out, None).
Proof.
  assert (EncodeDiscover (client_offer ex_device) "urn:uuid:1" (cl_DiscoveryURL ex_device) = Ok ex_offer_text)
    as E by (vm_compute; reflexivity).
  split; [exact E|].
  destruct (discovery_negotiates (H := ex_urls) (H0 := ascii_names) ex_config ex_service (client_offer ex_device) 5
    "urn:uuid:1" (cl_DiscoveryURL ex_device) ex_offer_text "trace-1") as (out & n & Ho & _).
  - reflexivity.
  - exact E.
  - apply offer_of_client; [discriminate|reflexivity].
  - vm_compute. reflexivity.
  - apply Z.leb_le. vm_compute. reflexivity.
  - exists out. exact Ho.
Defined.
