(* ===== verification/ServerApp.v ===== *)
(** * The reference server put together

    server/service/service.go (New), server/httpapi/httpapi.go,
    server/agent/wake/handler.go and server/internal/app (config.go, push.go and
    the composition of app.go): the enrollment service of [EnrollService] with the
    reference server's own hooks over the SQL store ([ServerService]) and its
    certificate authority ([Pki]).

    The environment, the URL library, crypto/x509, the entropy read while a
    request is handled and the clock are parameters. *)
From stdpp Require Import base gmap strings list sorting.
From Stdlib Require Import ZArith Lia Ascii Sorted.
From S2P Require Import Prelude GoStrings SyncmlModel SyncmlAuth GoCrypto Paging StateStore MdmAuth MdmQueue MdmSession MdmEngine.
From S2P Require Import EnrollTypes Storage.
From S2P Require Import SqlBase SqlQueue SqlQueueProofs SqlStore SqlStoreProofs SqlStoreTheorems Wns.
From S2P Require Import WapProv WapBuild Soap EnrollMsg EnrollService EnrollProvision EnrollHttp ServerService GoAsn1 Pki EnrollDevice EnrollTheorems.

Local Open Scope Z_scope.
Local Open Scope go_scope.

(** ** agent/wake/handler.go *)

(** [strings.Fields] *)
Fixpoint next_word (s : string) : string * string :=
  match s with
  | EmptyString => ("", "")
  | String c t =>
      match space_prefix s with
      | O => let '(w, rest) := next_word t in (String c w, rest)
      | S _ => ("", s)
      end
  end.
Fixpoint fields_fuel (fuel : nat) (s : string) : list string :=
  match fuel with
  | O => []
  | S fuel =>
      match trim_left s with
      | EmptyString => []
      | s => let '(w, rest) := next_word s in w :: fields_fuel fuel rest
      end
  end.
Definition Fields (s : string) : list string := fields_fuel (S (String.length s)) s.

(** A request to it: the method, the device_id of the query, the Authorization
    header. *)
Record WakeRequest := mkWakeRequest { wq_Method : string; wq_DeviceID : string; wq_Authorization : string }.

(** The status and the body; [marshal] writes the id as JSON. *)
Definition wake_Handler `{StoreCodec} (marshal : string → result string) (r : WakeRequest) : Conn → Conn * (Z * string) := λ c,
  if negb (bool_decide (wq_Method r = "GET")) then (c, (405, "method not allowed"))
  else
    match Fields (wq_Authorization r) with
    | [scheme; token] =>
        if bool_decide (wq_DeviceID r = "") || (255 <? len (wq_DeviceID r)) || negb (EqualFold scheme "Bearer")
        then (c, (401, "unauthorized"))
        else
          match SS_AgentWake (wq_DeviceID r) token c with
          | (c, Err e) => (c, if errors_Is e storage_ErrNotFound then (401, "unauthorized") else (500, "internal error"))
          | (c, Ok wakeID) => (c, match marshal wakeID with Ok body => (200, body) | Err _ => (500, "internal error") end)
          end
    | _ => (c, (401, "unauthorized"))
    end.

(** ** internal/app/config.go and push.go *)

(** [sqlstore.Kind] of a name. *)
Definition Kind_of (s : string) : Kind :=
  if decide (s = "sqlite") then SQLite
  else if decide (s = "postgres") then Postgres
  else if decide (s = "mysql") then MySQL
  else OtherKind s.

Record PushConfig := mkPushConfig {
  pu_PFN : string; pu_Auth : string; pu_ClientID : string; pu_ClientSecret : string; pu_TenantID : string }.

(** [type Config struct] *)
Record AppConfig := mkAppConfig {
  ap_Push : PushConfig;
  ap_Store : Kind;
  ap_Memory : bool;
  ap_DSN : string;
  ap_BaseURL : string;
  ap_Listen : string;
  ap_TLSCert : string;
  ap_TLSKey : string;
  ap_CACert : string;
  ap_CAKey : string;
  ap_ProviderID : string;
  ap_Name : string;
  ap_Role : string;
  ap_EnrollUsers : gmap string string;
  ap_EnrollAllowAny : bool;
  ap_DisableSchemaValidation : bool }.

(** One "user:pass" of the list. *)
Definition add_user (out : gmap string string) (pair : string) : gmap string string :=
  match cut_byte ":"%char (TrimSpace pair) with
  | Some (u, p) => if decide (u = "") then out else <[u := p]> out
  | None => out
  end.
Definition parseUsers (s : string) : gmap string string := foldl add_user ∅ (split_byte ","%char s).

(** [PushSender]: the token source and the settings of the sender; nothing
    without credentials. *)
Definition PushSender (c : PushConfig) : result (option (OAuthSource * WConfig)) :=
  if decide (pu_ClientID c = "" ∧ pu_ClientSecret c = "") then Ok None
  else if decide (pu_PFN c = "") then Err [app_ErrConfig]
  else
    let source :=
      if decide (pu_Auth c = "" ∨ pu_Auth c = "legacy") then NewLegacy (pu_ClientID c) (pu_ClientSecret c)
      else if decide (pu_Auth c = "entra") then NewEntra (pu_ClientID c) (pu_ClientSecret c) (pu_TenantID c)
      else Err [] in
    match source with
    | Err e => Err (app_ErrConfig :: e)
    | Ok source =>
        match WNew true (mkWConfig 2 0) with
        | Err e => Err (app_ErrConfig :: e)
        | Ok w => Ok (Some (source, w))
        end
    end.

(** [validate] *)
Definition app_validate (c : AppConfig) : result unit :=
  let? _ := PushSender (ap_Push c) in
  match ap_Store c with
  | OtherKind _ => Err [app_ErrConfig]
  | _ =>
      if negb (bool_decide (ap_Role c = "all")) && negb (bool_decide (ap_Role c = "mdm")) then Err [app_ErrConfig]
      else if negb (ap_Memory c) && bool_decide (ap_DSN c = "") then Err [app_ErrConfig]
      else if bool_decide (ap_EnrollUsers c = ∅) && negb (ap_EnrollAllowAny c) then Err [app_ErrConfig]
      else Ok tt
  end.

Section load.
Context (Getenv : string → string).
Definition getenv (key def : string) : string := let v := Getenv key in if decide (v = "") then def else v.
Definition loadPush : PushConfig :=
  mkPushConfig (Getenv "DM_WNS_PFN") (getenv "DM_WNS_AUTH" "legacy") (Getenv "DM_WNS_CLIENT_ID")
    (Getenv "DM_WNS_CLIENT_SECRET") (Getenv "DM_WNS_TENANT_ID").
Definition Load : result AppConfig :=
  let store := getenv "DM_STORE" "memory" in
  let memory := bool_decide (store = "memory") in
  let users := Getenv "DM_ENROLL_USERS" in
  let c := mkAppConfig loadPush (if memory then SQLite else Kind_of store) memory (Getenv "DM_DSN")
    (getenv "DM_BASE_URL" "https://localhost:8443") (getenv "DM_LISTEN" ":8443")
    (Getenv "DM_TLS_CERT") (Getenv "DM_TLS_KEY") (Getenv "DM_CA_CERT") (Getenv "DM_CA_KEY")
    (getenv "DM_PROVIDER_ID" "go-microsoft-dm") (getenv "DM_NAME" "go-microsoft-dm") (getenv "DM_ROLE" "all")
    (if decide (users = "") then ∅ else parseUsers users)
    (bool_decide (Getenv "DM_ENROLL_ALLOW_ANY" = "true")) (bool_decide (Getenv "DM_DISABLE_SCHEMA_VALIDATION" = "true")) in
  let? _ := app_validate c in
  Ok c.
End load.

(** ** service.go *)

(** [url.Parse] with what New does to the URL: another path on it, written
    again. *)
Class UrlWriter `{UrlParser} := { url_with_path : string → string → string }.

Section service.
Context `{StoreCodec} `{X509Lib} (ctx : option error).

(** The bytes crypto/rand gives while one request is handled, and its other
    inputs. *)
Record Turn := mkTurn {
  tn_rand1 : result string; tn_rand2 : result string; tn_rand3 : result string;
  tn_now : Time; tn_detail : string → list string → result string }.

(** A program over the store as a hook. *)
Definition as_hook {A} (m : M Conn A) : Conn → Conn * fresult A := λ c, let '(c, r) := m c in (c, of_result r).

(** What the recorder reads of an enrollment. *)
Definition issued_of (e : EEnrollment) : IssuedEnrollment :=
  mkIssued (x_Cert (en_Certificate e)) (x_Subject (en_Certificate e)) (x_NotBefore (en_Certificate e))
    (x_NotAfter (en_Certificate e)) (rq_Context (en_Request e)) (pn_UPN (rq_Principal (en_Request e))) (en_EnrolledAt e).

Definition credential_source (t : Turn) : CredentialSource Conn := λ e,
  as_hook (Credentials (ac_DeviceID (rq_Context (en_Request e))) (tn_rand1 t) (tn_rand2 t) (tn_rand3 t)).

Definition server_hooks (auth : StaticAuthenticator) (issuer : WIssuer) (pv : DefaultProvisioner Conn) (t : Turn) : Hooks Conn :=
  mkHooks
    (λ cr c, (c, of_result (let? upn := StaticAuthenticate auth (cr_Username cr) (cr_Password cr) in Ok (mkPrincipal upn ∅))))
    (λ req c, (c, of_result (let? i := Issuer_Issue issuer (Some req) in Ok (Some i))))
    (Provision pv)
    (Some (λ e _, as_hook (sql_Record ctx (tn_detail t) (tn_now t) (issued_of e)))).

(** [type Config struct], as far as New reads it. *)
Record ServiceConfig := mkServiceConfig {
  sc_BaseURL : string;
  sc_Paths : Paths;
  sc_CA : option CAIssuer;
  sc_HasStore : bool;
  sc_HasQueue : bool;
  sc_Authenticator : option StaticAuthenticator;
  sc_ProviderID : string;
  sc_PushPFN : string;
  sc_Name : string;
  sc_EnrollmentVersion : string;
  sc_AllowBasicAuth : bool }.

(** [type Service struct]: the enrollment service, the management service and the
    paths. *)
Record Composed := mkComposed { co_Enroll : EService Conn; co_Management : MdmEngine.Config; co_Paths : Paths }.
Definition co_ManagementURL (co : Composed) : string := cfg_ServerURL (co_Management co).

(** The authenticator of the management sessions, on the tables as they are. *)
Definition session_authenticator (db : DB) : Authenticator :=
  mkAuthenticator (λ deviceID, (sql_Lookup deviceID (mkConn db [])).2) (TrustCertificate (mkMDMAuthenticator true None)).

Definition no_credential : Credential := mkCredential "" "" "" "".
Definition no_application : ApplicationConfig :=
  mkApplicationConfig "" "" "" 0 0 0 false "" "" false "" no_credential no_credential.
Definition or_else (d s : string) : string := if decide (s = "") then d else s.
Definition config_errs {A} (r : result A) : result A := match r with Ok a => Ok a | Err e => Err (service_ErrConfig :: e) end.

(** The provisioner's configuration. *)
Definition provision_config `{UrlWriter} (cfg : ServiceConfig) (t : Turn) : ProvisionConfig Conn :=
  mkProvisionConfig (url_with_path (sc_BaseURL cfg) (pt_Management (withDefaults (sc_Paths cfg))))
    (or_else "go-microsoft-dm" (sc_ProviderID cfg)) (or_else "go-microsoft-dm" (sc_Name cfg)) (Some (credential_source t))
    None None (sc_PushPFN cfg) no_application false (Some (λ e, ac_DeviceID (rq_Context (en_Request e)))).

(** [sessions] are the hooks of the management sessions. *)
Definition service_New `{UrlWriter} (cfg : ServiceConfig) (t : Turn) (db : DB) (sessions : HookCall → result unit)
    : result Composed :=
  match url_Parse (sc_BaseURL cfg), sc_CA cfg, sc_Authenticator cfg with
  | Some base, Some ca, Some auth =>
      if decide (sc_BaseURL cfg = "" ∨ u_Scheme base ≠ "https" ∨ u_Host base = "") then Err [service_ErrConfig]
      else if negb (sc_HasStore cfg) || negb (sc_HasQueue cfg) then Err [service_ErrConfig]
      else
        let version := or_else DefaultEnrollmentVersion (sc_EnrollmentVersion cfg) in
        let paths := withDefaults (sc_Paths cfg) in
        let abs p := url_with_path (sc_BaseURL cfg) p in
        let managementURL := abs (pt_Management paths) in
        let? issuer := config_errs (NewIssuer (Some ca) []) in
        let? pv := config_errs (NewProvisioner (provision_config cfg t)) in
        let? svc := config_errs (ENew (mkEConfig (abs (pt_Enrollment paths)) (abs (pt_Policy paths)) version ""
          (Some (server_hooks auth issuer pv t)) None 0)) in
        let? management := config_errs (MdmEngine.New managementURL (Some (session_authenticator db)) true (Some sessions) 0 0 0
          (sc_AllowBasicAuth cfg) (or_else "go-microsoft-dm" (sc_ProviderID cfg))) in
        Ok (mkComposed svc management paths)
  | _, _, _ => Err [service_ErrConfig]
  end.
End service.

(** ** httpapi.go *)

(** The paths New mounts handlers on, in order: the enrollment handler on three,
    the management handler on the last. *)
Inductive mount := MountEnroll | MountManagement.
Definition httpapi_routes (p : Paths) : list (string * mount) :=
  [(pt_Discovery p, MountEnroll); (pt_Policy p, MountEnroll); (pt_Enrollment p, MountEnroll); (pt_Management p, MountManagement)].

(** [statusRecorder]: what it has recorded, and the calls it sees. *)
Record statusRecorder := mkStatusRecorder { sr_status : Z; sr_written : bool }.
Inductive writer_call := CallWriteHeader (code : Z) | CallWrite (b : string).
Definition recorder_step (r : statusRecorder) (c : writer_call) : statusRecorder :=
  match c with
  | CallWriteHeader code => if sr_written r then r else mkStatusRecorder code true
  | CallWrite _ => mkStatusRecorder (sr_status r) true
  end.
(** The status ServeHTTP logs after a handler's calls. *)
Definition logged_status (calls : list writer_call) : Z := sr_status (foldl recorder_step (mkStatusRecorder 200 false) calls).

(** What net/http sends: the first header written, 200 when a body or the end
    comes first. *)
Definition sent_status (calls : list writer_call) : Z :=
  match calls with CallWriteHeader code :: _ => code | _ => 200 end.

(** ** app.go *)

Section app.
Context `{StoreCodec} `{X509Lib} `{PemLib} `{UrlWriter} (ctx : option error) (salt : string → Z → option string).

Definition buildCA (read : string → result string) (generate : Z → result Signer) (draw : Z → result Z) (now : Time)
    (cfg : AppConfig) : result Local_ :=
  if decide (ap_CACert cfg ≠ "" ∧ ap_CAKey cfg ≠ "") then
    match LoadFiles read (ap_CACert cfg) (ap_CAKey cfg) [] with Ok l => Ok l | Err e => Err (app_ErrConfig :: e) end
  else if decide (ap_CACert cfg ≠ "" ∨ ap_CAKey cfg ≠ "") then Err [app_ErrConfig]
  else
    match NewSelfSigned (mkSelfSignedOptions (mkPkixName "" "") 0 0 None) [] generate draw now with
    | Ok l => Ok l
    | Err e => Err (app_ErrConfig :: e)
    end.

(** The composed server: its service, its authority, its sender and the
    effective configuration. *)
Record App := mkApp {
  a_Service : Composed; a_CA : Local_; a_Sender : option (OAuthSource * WConfig); a_Config : AppConfig }.

Definition service_config (cfg : AppConfig) (ca : CAIssuer) : ServiceConfig :=
  mkServiceConfig (ap_BaseURL cfg) (mkPaths "" "" "" "") (Some ca) true true
    (Some (mkStaticAuthenticator (ap_EnrollUsers cfg) (ap_EnrollAllowAny cfg))) (ap_ProviderID cfg) (pu_PFN (ap_Push cfg))
    (ap_Name cfg) "" false.

Definition with_provider (id : string) (c : AppConfig) : AppConfig :=
  mkAppConfig (ap_Push c) (ap_Store c) (ap_Memory c) (ap_DSN c) (ap_BaseURL c) (ap_Listen c) (ap_TLSCert c) (ap_TLSKey c)
    (ap_CACert c) (ap_CAKey c) id (ap_Name c) (ap_Role c) (ap_EnrollUsers c) (ap_EnrollAllowAny c)
    (ap_DisableSchemaValidation c).

(** [New]; the authority issues with the entropy and the time of the turn. *)
Definition app_New (read : string → result string) (generate : Z → result Signer) (draw : Z → result Z) (t : Turn)
    (tables : list string) (sessions : HookCall → result unit) (cfg : AppConfig) : M Conn App :=
  let! _ := lift (app_validate cfg) in
  let cfg := with_provider (or_else "go-microsoft-dm" (ap_ProviderID cfg)) cfg in
  let dsn := if ap_Memory cfg then "file::memory:?cache=shared" else ap_DSN cfg in
  let! _ := Open ctx salt (ap_Store cfg) dsn tables in
  let! authority := lift (buildCA read generate draw (tn_now t) cfg) in
  let! svc := λ c, (c, service_New ctx (service_config cfg (local_issuer authority draw (tn_now t))) t (c_db c) sessions) in
  let! sender := lift (PushSender (ap_Push cfg)) in
  ret (mkApp svc authority sender cfg).
End app.

(** ** Properties *)

Lemma ENew_hooks `{UrlParser} {W} (cfg : EConfig W) s : ENew cfg = Ok s → ec_Hooks cfg = Some (sv_Hooks s).
Proof.
  unfold ENew. case_decide; [done|]. destruct (checkURL _); [|done]. cbn [result_bind].
  destruct (decide (ec_EnrollmentPolicyServiceURL cfg = "")); [|destruct (checkURL _); [|done]]; cbn [result_bind];
    (destruct (ParseVersion _) as [nv|]; [|done]; destruct (nv <? MinEnrollmentVersion); [done|];
     case_decide; try done; case_decide; try done; destruct (ec_Hooks cfg) as [hooks|]; try done;
     destruct (PolicyResponse_Validate _); try done; intros [= <-]; done).
Qed.

Section properties.
Context `{StoreCodecLaws} `{X509Lib} (ctx : option error).

Lemma config_errs_Ok {A} (r : result A) a : config_errs r = Ok a → r = Ok a.
Proof. by destruct r. Qed.

(** The service runs on the reference server's own hooks. *)
Lemma service_New_inv `{UrlWriter} cfg t db sessions co :
  service_New ctx cfg t db sessions = Ok co →
  ∃ auth ca issuer pv,
    sc_Authenticator cfg = Some auth ∧ sc_CA cfg = Some ca ∧ NewIssuer (Some ca) [] = Ok issuer ∧
    sv_Hooks (co_Enroll co) = server_hooks ctx auth issuer pv t ∧
    NewProvisioner (provision_config cfg t) = Ok pv ∧ dp_Credentials pv = credential_source t ∧
    pc_ManagementURL (dp_cfg pv) = co_ManagementURL co.
Proof.
  unfold service_New. destruct (url_Parse _) as [base|]; [|done]. destruct (sc_CA cfg) as [ca|]; [|done].
  destruct (sc_Authenticator cfg) as [auth|]; [|done]. case_decide; [done|]. destruct (_ || _); [done|].
  intros (issuer & Ei%config_errs_Ok & (pv & Ep%config_errs_Ok & (svc & Es%config_errs_Ok & (mg & Em%config_errs_Ok & Ec)%result_bind_Ok)%result_bind_Ok)%result_bind_Ok)%result_bind_Ok.
  apply ENew_hooks in Es. cbn [ec_Hooks] in Es. exists auth, ca, issuer, pv.
  assert (co = mkComposed svc mg (withDefaults (sc_Paths cfg))) as -> by congruence. unfold co_ManagementURL. cbn [co_Enroll co_Management].
  assert (cfg_ServerURL mg = url_with_path (sc_BaseURL cfg) (pt_Management (withDefaults (sc_Paths cfg)))) as ->
    by (unfold MdmEngine.New in Em; case_decide; [done|]; by injection Em as <-).
  clear Em.
  assert (server_hooks ctx auth issuer pv t = sv_Hooks svc) as <- by congruence.
  split_and!; [done|done|done|done|done| |]; unfold NewProvisioner in Ep; case_decide; try done;
    cbn [pc_Credentials provision_config] in Ep; destruct (Poll_Validate _); try done; by injection Ep as <-.
Qed.

Lemma validated_raw c : Certificate_Validate (Some c) = Ok tt → 0 < len (c_Raw c).
Proof.
  unfold Certificate_Validate. case_decide; [done|]. case_decide; [done|].
  destruct (Z.eqb_spec (len (c_Raw c)) 0); [done|]. pose proof (len_nonneg (c_Raw c)). lia.
Qed.

(** C5: A device that enrolls with the reference server can log in: when the
    hooks New composes accept a request (the user's password, the certificate
    request, the provisioning and the recording), the document the device is sent
    carries a credential, and afterwards the authenticator of the management
    sessions finds the device under the serial number and thumbprint of the
    certificate it was issued, accepts the digest of that credential for every
    nonce, and trusts a connection made with that certificate.  The earlier
    enrollment of the device, if there was one, is superseded. *)
Theorem enrolled_device_can_log_in `{UrlWriter} cfg t sessions co db s creds req trace now w' p e doc :
  service_New ctx cfg t db sessions = Ok co → same_store db s →
  hooks_accept (co_Enroll co) creds req trace now (mkConn db []) w' p e (Some doc) →
  cert_recent (record_certificate (issued_of e)) → enr_recent (record_enrollment (issued_of e)) →
  let dev := ac_DeviceID (rq_Context (en_Request e)) in
  let cert := x_Cert (en_Certificate e) in
  ∃ (pv : DefaultProvisioner Conn) root server client id db' s',
    doc = provisioned pv e root server client ∧ pc_ManagementURL (dp_cfg pv) = co_ManagementURL co ∧
    w' = mkConn db' [] ∧ same_store db' s' ∧
    auth_Lookup (session_authenticator db') dev = Ok id ∧
    id_EnrollmentKey id = serial_String (cert_SerialNumber cert) ∧ id_CertificateThumbprint id = Thumbprint (cert_Raw cert) ∧
    (∀ nonce, nonce ≠ "" →
       verifyCredential id (Some (NewMD5Cred (MD5Digest (cr_Name server) (cr_Secret server) nonce))) nonce = true) ∧
    (is_Some (cert_SerialNumber cert) → auth_TrustCertificate (session_authenticator db') id [[Some cert]] = true) ∧
    (∀ prev, Storage.Get dev s = Ok prev →
       GetBySerial (e_Serial prev) s' = Ok (set_estate StateSuperseded (en_EnrolledAt e) prev)).
Proof.
  intros (auth & ca & issuer & pv & _ & _ & _ & Hh & _ & Hc & Hm)%service_New_inv Hs
    [(w1 & w2 & w3 & x & chain & E1 & E2 & He & E3 & E4)] Hr1 Hr2 dev cert.
  rewrite Hh in E1, E2, E3, E4. cbn [server_hooks hk_Authenticate hk_Issue hk_Provision hk_Record] in E1, E2, E3, E4.
  assert (w2 = mkConn db []) as -> by congruence. clear E1 E2 Hh.
  apply Provision_inv in E3 as (root & server & client & _ & Ecr & Hdoc & _). rewrite Hc in Ecr.
  unfold credential_source, as_hook in Ecr.
  destruct (Credentials _ _ _ _ (mkConn db [])) as [c3 [[server' client']|]] eqn:Em; [|done].
  assert (c3 = w3 ∧ server' = server ∧ client' = client) as (-> & -> & ->) by (cbn in Ecr; split_and!; congruence).
  apply (Credentials_same _ s) in Em as (db3 & s3 & -> & Hs3 & Hname & Hg & Hk); [|done].
  unfold as_hook in E4. destruct (sql_Record _ _ _ _ (mkConn db3 [])) as [c4 [[]|]] eqn:Er; [|done].
  assert (c4 = w') as -> by (cbn in E4; congruence). clear E4 Ecr.
  apply (sql_Record_same ctx db3 s3) in Er as (db4 & s4 & -> & Hs4 & (Hg4 & Hx4 & Hp4 & _) & Hcr); [|done..].
  set (rec := record_enrollment (issued_of e)) in *.
  set (act := set_estate StateActive (e_EnrolledAt rec) rec) in *.
  assert (GetMDMCredential dev s4 =
    Ok (mkMDMCredential dev AuthDigest (CredentialHash (cr_Name server) (cr_Secret server)))) as Hk4
    by (unfold GetMDMCredential in *; rewrite Hcr; exact Hk).
  destruct (stored_credential_verifies db4 s4 act server Hs4 Hg4 Hk4) as (id & Hid & Hkey & Hth & Hv).
  assert (0 < len (cert_Raw cert)) as Hraw%Z.ltb_lt.
  { apply (inv_certs _ (sm_inv _ _ Hs4)) in Hx4 as (_ & Hval & _). by apply validated_raw in Hval. }
  exists pv, root, server, client, id, db4, s4. split_and!; try done.
  - congruence.
  - exact (f_equal snd Hid).
  - intros nonce Hn. rewrite Hv by done. by apply bool_decide_eq_true_2.
  - intros [n Hser]. cbn [session_authenticator auth_TrustCertificate]. unfold TrustCertificate. rewrite decide_False by done. cbn [ma_TrustCert].
    rewrite Hkey, Hth. change (e_Serial act) with (serial_String (cert_SerialNumber cert)).
    change (e_Thumbprint act) with (Thumbprint (cert_Raw cert)). rewrite Hser.
    rewrite decide_False by (intros [E|E]; [by apply Itoa_nonempty in E|by apply Thumbprint_nonempty in E]).
    cbn [existsb]. rewrite Hser, !bool_decide_true, !andb_true_r by (done || by eexists).
    assert (0 <? len (cert_Raw cert) = true) as -> by done. done.
  - intros prev Hprev. rewrite <- Hg in Hprev. by apply Hp4.
Qed.
End properties.

(** Only configured users enroll: the authenticator of a server that started
    accepts a password exactly when it is the configured one, or when every
    credential is accepted by configuration; and a server configured with neither
    does not start. *)
Theorem only_configured_users `{StoreCodecLaws} `{X509Lib} `{PemLib} `{UrlWriter} ctx salt read generate draw t tables sessions cfg c c' a u pw w :
  app_New ctx salt read generate draw t tables sessions cfg c = (c', Ok a) →
  (ap_EnrollAllowAny cfg = true ∨ ap_EnrollUsers cfg ≠ ∅) ∧
  ((∃ p, hk_Authenticate (sv_Hooks (co_Enroll (a_Service a))) (mkCredentials u pw) w = (w, FOk p)) ↔
   ap_EnrollAllowAny cfg = true ∨ ap_EnrollUsers cfg !! u = Some pw).
Proof.
  unfold app_New. intros (c1 & [] & E1 & (c2 & d & _ & (c3 & ca & _ & (c4 & svc & E4 & (c5 & sn & _ & E6)%bind_Ok)%bind_Ok)%bind_Ok)%bind_Ok)%bind_Ok.
  assert (a_Service a = svc) as -> by (unfold ret in E6; injection E6 as _ <-; done). clear E6.
  unfold lift in E1. assert (app_validate cfg = Ok tt) as Hv by congruence. clear E1.
  split.
  - unfold app_validate in Hv. apply result_bind_Ok in Hv as (x & _ & Hv). destruct (ap_Store cfg); [..|done];
      (destruct (_ && _); [done|]; destruct (_ && _); [done|]; destruct (bool_decide (ap_EnrollUsers cfg = ∅)) eqn:Eu;
       [left; by destruct (ap_EnrollAllowAny cfg)|right; by apply bool_decide_eq_false in Eu]).
  - destruct (service_New ctx _ t _ _) as [svc'|] eqn:Es; [|done]. assert (svc' = svc) as -> by congruence.
    apply service_New_inv in Es as (auth & ca' & issuer & pv & Ha & _ & _ & -> & _).
    cbn [service_config sc_Authenticator with_provider ap_EnrollUsers ap_EnrollAllowAny] in Ha.
    assert (auth = mkStaticAuthenticator (ap_EnrollUsers cfg) (ap_EnrollAllowAny cfg)) as -> by congruence.
    cbn [server_hooks hk_Authenticate cr_Username cr_Password]. unfold StaticAuthenticate. cbn [sa_AllowAny sa_Users].
    destruct (ap_EnrollAllowAny cfg); [naive_solver|]. destruct (ap_EnrollUsers cfg !! u) as [want|]; [|naive_solver].
    case_decide; naive_solver.
Qed.

(** The access log has the status that is sent. *)
Theorem logged_status_sent calls : logged_status calls = sent_status calls.
Proof.
  assert (∀ l n, sr_status (foldl recorder_step (mkStatusRecorder n true) l) = n) as Hw
    by (induction l as [|[] l IH]; intros n; [done|exact (IH n)|exact (IH n)]).
  unfold logged_status. destruct calls as [|[code|b] calls]; [done|exact (Hw calls code)|exact (Hw calls 200)].
Qed.

(** A discovery path of one's own is mounted, but the enrollment handler behind
    it has no such route: it serves DiscoveryPath and the paths of the two URLs. *)
Theorem custom_discovery_unserved `{UrlParser} {W} (s : EService W) path :
  path ≠ DiscoveryPath → path ≠ pathOf (sv_EnrollmentServiceURL s) → path ≠ pathOf (sv_EnrollmentPolicyServiceURL s) →
  path ∉ map fst (NewHandler_routes s).
Proof.
  intros H1 H2 H3. unfold NewHandler_routes. cbn [map fst]. rewrite not_elem_of_cons. split; [done|].
  repeat case_decide; cbn [map fst]; rewrite ?not_elem_of_cons; try (split_and!; [done..|apply not_elem_of_nil]).
  all: split_and!; try done; apply not_elem_of_nil.
Qed.

(** ** Examples *)

#[local] Existing Instance one_codec.
#[local] Existing Instance one_codec_laws.
Definition app_parser : UrlParser := {| url_Parse _ := Some (mkURL "https" "h" "/") |}.
Definition app_writer : @UrlWriter app_parser := {| url_with_path base path := base +:+ path |}.
Definition app_x509 : X509 := mkX509 (mkCert "der" (Some 42)) "CN=dev" ex_stamp (ex_stamp + Hour).
Definition app_lib : X509Lib := {|
  ParseCertificateRequest s := inl (mkCSR s "" "" (mkPkixName "dev" "") Pki.ex_key "" "");
  CheckSignature _ _ _ _ := true;
  CreateCertificate _ _ _ _ := Ok "der";
  ParseCertificate _ := Ok app_x509;
  x509_IsCA _ := true |}.
#[local] Existing Instance app_parser.
#[local] Existing Instance app_writer.
#[local] Existing Instance app_lib.
Definition app_turn : Turn := mkTurn ex_secret ex_secret ex_nonces ex_stamp (λ _ _, Ok "").
Definition app_issuer : CAIssuer := local_issuer (mkLocal app_x509 [] (mkSigner Pki.ex_key "k") no_policy) (λ _, Ok 41) ex_stamp.
Definition app_config : ServiceConfig :=
  mkServiceConfig "https://h" (mkPaths "" "" "" "") (Some app_issuer) true true (Some (mkStaticAuthenticator ∅ true)) "" "" "" "" false.
Definition app_request (p : Principal) : ERequest := mkERequest "csr" Storage.ex_context p SoapHeader0.
Definition app_enrollment : EEnrollment :=
  let req := app_request (mkPrincipal "u" ∅) in
  mkEEnrollment req app_x509 [app_x509] (store_of (rq_Context req)) ex_stamp "trace".

Definition app_sessions (_ : HookCall) : result unit := Ok tt.

Lemma app_accepts co :
  service_New None app_config app_turn empty_db app_sessions = Ok co →
  ∃ w' doc, hooks_accept (co_Enroll co) (mkCredentials "u" "p") app_request "trace" ex_stamp (mkConn empty_db []) w'
    (mkPrincipal "u" ∅) app_enrollment (Some doc).
Proof.
  intros (auth & ca & issuer & pv & Ha & Hca & Hi & Hh & Hp & _)%service_New_inv.
  assert (auth = mkStaticAuthenticator ∅ true) as -> by (cbn in Ha; congruence).
  assert (ca = app_issuer) as -> by (cbn in Hca; congruence). clear Ha Hca.
  assert (issuer = mkWIssuer app_issuer None (λ _ csr, csr_Subject csr)) as -> by (cbn in Hi; congruence).
  set (pv' := mkDefaultProvisioner (provision_config app_config app_turn) (credential_source app_turn) DefaultRenew DefaultPoll).
  assert (pv = pv') as -> by (change (NewProvisioner _) with (Ok pv') in Hp; congruence). clear Hp Hi.
  destruct (Provision pv' app_enrollment (mkConn empty_db [])) as [w3 r3] eqn:E3.
  destruct (as_hook (sql_Record None (tn_detail app_turn) (tn_now app_turn) (issued_of app_enrollment)) w3) as [w4 r4] eqn:E4.
  assert ((∃ doc, r3 = FOk (Some doc)) ∧ r4 = FOk tt) as [[doc ->] ->].
  { assert (let '(w3, r3) := Provision pv' app_enrollment (mkConn empty_db []) in
      match r3 with FOk (Some _) => true | _ => false end = true ∧
      (as_hook (sql_Record None (tn_detail app_turn) (tn_now app_turn) (issued_of app_enrollment)) w3).2 = FOk tt) as Hv
      by (vm_compute; split; reflexivity).
    rewrite E3, E4 in Hv. destruct Hv as [Hv1 Hv2]. cbn in Hv2. split; [|exact Hv2].
    destruct r3 as [[doc|]|]; [by exists doc|discriminate|discriminate]. }
  exists w4, doc. constructor. rewrite Hh. exists (mkConn empty_db []), (mkConn empty_db []), w3, app_x509, [app_x509].
  split_and!; [reflexivity|vm_compute; reflexivity|reflexivity|exact E3|exact E4].
Qed.

Lemma enrolled_device_can_log_in_witness :
  ∃ co w' doc id, service_New None app_config app_turn empty_db app_sessions = Ok co ∧
    hooks_accept (co_Enroll co) (mkCredentials "u" "p") app_request "trace" ex_stamp (mkConn empty_db []) w'
      (mkPrincipal "u" ∅) app_enrollment (Some doc) ∧
    auth_Lookup (session_authenticator (c_db w')) "dev" = Ok id.
Proof.
  destruct (service_New None app_config app_turn empty_db app_sessions) as [co|] eqn:E.
  2: { assert (is_ok (service_New None app_config app_turn empty_db app_sessions) = true) as Hok by (vm_compute; reflexivity).
       rewrite E in Hok. discriminate. }
  destruct (app_accepts co E) as (w' & doc & Ha).
  assert (same_store empty_db New) as Hs
    by (constructor; [apply New_inv|apply holds_nil|apply holds_nil|intros dev; reflexivity]).
  assert (recent ex_stamp) as Hr by (right; split; reflexivity || discriminate).
  destruct (enrolled_device_can_log_in None app_config app_turn app_sessions co empty_db New (mkCredentials "u" "p") app_request "trace"
    ex_stamp w' (mkPrincipal "u" ∅) app_enrollment doc E Hs Ha) as (pv & root & server & client & id & db' & s' & _ & _ & -> & _ & Hl & _).
  - split; [exact Hr|]. split; [right; split; reflexivity || discriminate|left; reflexivity].
  - split; [exact Hr|]. split; [left; reflexivity|]. exists "ctx". vm_compute. reflexivity.
  - exists co, (mkConn db' []), doc, id. split; [reflexivity|]. split; [exact Ha|exact Hl].
Defined.
